(* ===== verification/_CoqProject ===== *)
-Q . S2P
Prelude.v
Mem.v
KList.v
KListSort.v
UserMalloc.v
UserHeap.v
Bitmap.v
Vaddr.v
Palloc.v
Pagedir.v
UserPages.v
Sbrk.v
Fault.v
KernelTheorems.v
Paging.v
KernelHeap.v
KMalloc.v
KBlocks.v
KMallocTheorems.v
CString.v
Arithmetic.v
FixedPoint.v
Sorting.v
Stdio.v
Format.v
StdioTheorems.v
Console.v
Ustar.v
Segments.v
Interrupt.v
Tokenizer.v
Mmu.v
Hash.v
Intq.v
Random.v
Serial.v
Keyboard.v
Vga.v
Clock.v
Blockdev.v
Inode.v
Directory.v
FileTable.v
FsTheorems.v
Fsutil.v
CommandLine.v
Threads.v
Timer.v
Spawn.v
SchedInv.v
SchedSteps.v
SchedQueue.v
SchedBoot.v
SchedTheorems.v
Process.v
Loader.v
LoaderTheorems.v
Exit.v
Syscall.v
Isolation.v
SyscallTheorems.v
WordCount.v
WordList.v
WordPar.v
Wq.v
CText.v
Http.v
Server.v
Proxy.v
ServerMain.v
ProcessList.v
ShellParse.v
ShellExec.v
ShellJobs.v
ShellMain.v
