(* ===== verification/Prelude.v ===== *)
(** * A verified model of a teaching kernel: Pintos with a user heap

    The program is the Pintos operating system under src/hw6/hw6-pintos-starter/src (the
    other directories hold exercises, three of them whole programs that are modelled too: a
    shell, a web server and a parallel word count; a second copy of the kernel; and vendored
    Go code).
    It runs user programs in address spaces of their own on a 32-bit x86 machine with one
    processor; its additions to stock Pintos are the system call [sbrk], a user-level
    [malloc] over it, and stacks that grow on demand.

    ** Parts and how they interact

    A user program calls [malloc] and [free] of the user library, which keep a list of
    blocks inside the heap segment and ask the kernel for more of it with [sbrk].  The
    system call handler checks the pointers it is given, and [sbrk] maps or unmaps pages:
    it takes frames from the page allocator, whose pools are bitmaps, and enters them into
    the process's page directory.  An access to a page that is not there is a page fault,
    which either grows the stack or ends the process.  Programs are ELF files that the
    loader reads through the file system: open files and directories over inodes, inodes
    and the free map over a block device, which is a partition that the scan of the disk's
    partition table registered.  Threads share the processor under a round-robin scheduler
    with semaphores, locks and condition variables.  Characters reach the machine through
    the keyboard and the serial port, whose handlers fill interrupt queues, and leave it
    through formatted output, the screen and the serial port.

    ** Files, components and sources (paths below hw6-pintos-starter/src)

    - [Prelude]: outcomes ([res]: a value, a panic, or out of fuel), 32-bit arithmetic
      ([u32], [s32], [is_u32]), shared tactics and lemmas.
    - [Mem]: byte memory, 32-bit loads and stores; [memset], [memcpy], [memmove], [memcmp].
    - [KList]: lib/list.c.  The state is the memory; each operation works on addresses.
      [chain] relates the memory to the sequence of elements.  [KListSort]: its sorting, over
      the class [StrictWeak] of comparisons.
    - [UserMalloc]: lib/user/stdlib.c over the class [SbrkLaws], what the library assumes
      of [sbrk].  [UserHeap]: its refinement of first fit on a list of blocks, clients that
      run any sequence of calls.
    - [Bitmap]: lib/kernel/bitmap.c.  [Vaddr]: threads/vaddr.h and threads/pte.h.
      [Palloc]: threads/palloc.c.  [Pagedir]: userprog/pagedir.c, with the control register
      and the TLB as state ([kstate]).
    - [UserPages], [Sbrk]: [map_user_pages], [unmap_user_pages] and [syscall_sbrk] of
      userprog/syscall.c.  [Fault]: userprog/exception.c.  [KernelTheorems]: their theorems.
      [Paging]: [paging_init] of threads/init.c.
    - [KernelHeap]: the kernel's [sbrk] is an instance of [SbrkLaws]; blocks of [malloc] are
      mapped and writable.
    - [KMalloc]: threads/malloc.c over the kernel's memory, [KList] and [Palloc].  [KBlocks]:
      its invariant, over a ghost state of arenas, free lists and big blocks.
      [KMallocTheorems]: the theorems.
    - [CString]: lib/string.c.  [Arithmetic]: lib/arithmetic.c.  [FixedPoint]:
      threads/fixed-point.h.  [Sorting]: lib/stdlib.c.  [Hash]: lib/kernel/hash.c.
      [Random]: lib/random.c.
    - [Stdio]: lib/stdio.c and lib/user/console.c; the output function is a parameter, as
      there.  [Format]: the syntax of formats and what each conversion should print.
      [StdioTheorems]: the theorems.  [Console]: lib/kernel/console.c, threads that print under
      its lock.  [Ustar]: lib/ustar.c over a header's 512 bytes.
    - [Segments]: userprog/gdt.c and tss.c, with the fields as the processor reads them.
      [Interrupt]: threads/interrupt.c; handlers are what they do with interrupts.
    - [Intq]: devices/intq.c, threads as points of the code between which others run.
      [Serial]: devices/serial.c and input.c over two such queues.  [Keyboard]:
      devices/kbd.c.  [Vga]: devices/vga.c.  [Clock]: devices/rtc.c and pit.c.  [Timer]:
      devices/timer.c.
    - [Blockdev]: devices/block.c and partition.c, the registry of block devices.
    - [Inode]: filesys/inode.c, file.c and free-map.c over devices/block.c.  [Directory]:
      filesys/directory.c and filesys.c.  [FileTable]: the reference counts of open inodes.
      [FsTheorems]: the theorems.  [Fsutil]: filesys/fsutil.c, the actions on files at
      start-up, over these, [Ustar] and [Blockdev].
    - [CommandLine]: the command line of threads/init.c, its options, the choice of block
      devices and the run of the actions.
    - [Threads]: threads/thread.c and synch.c as steps of a machine whose running thread
      executes the rest of its saved code.  [SchedInv], [SchedSteps], [SchedQueue],
      [SchedBoot]: the invariant, that every step keeps it, the ready queue's order, and the
      boot.  [SchedTheorems]: the theorems.
    - [Spawn]: [process_execute] and [process_wait] over the page allocator and the
      scheduler.  [Process]: the rest of userprog/process.c, the ELF loader and
      [process_exit].  [Loader], [LoaderTheorems]: what loading does.  [Exit]: what exit
      gives back.
    - [Syscall]: the rest of userprog/syscall.c, with accesses to user memory that fault and
      are resolved.  [Isolation]: a logic for calls that stay inside the caller's address
      space.  [SyscallTheorems]: the theorems on the handler.
    - Exercises outside the kernel: [Mmu] (src/hw6/hw6-pt-starter: ram.c and mmu.c).
      [WordCount]: the word count program
      (src/hw1/words.c and word_helpers.c) over the class [WordCountList], what
      word_count.h promises.  [WordList]: src/hw1/word_count.c, linked nodes on a heap, an
      instance of it.  [WordPar]: src/hw2/word_count_p.c, a list shared under a mutex,
      another instance, and the program with a thread per file (custom_helpers.c, pwords.c)
      as steps of its threads in any order.  [CText]: what the exercises use of the C
      library's texts and arrays.
    - The shell (src/hw3): [Tokenizer]: tokenizer.c.  [ShellParse]: helpers.c and the parsing
      in program.c, program_redirection.c and program_piping.c, into arrays whose cells may be
      unset.  [ShellExec]: the start of programs in the same files; a process is its program,
      arguments and table of open files.  [ProcessList]: process_list.c over a heap of nodes.
      [ShellJobs]: process_management.c, shell_command.c and the command lines of shell.c,
      over lists of what the system answers.  [ShellMain]: shell_signal.c, the start of the
      shell and its main loop.
    - The web server (src/hw4): [Wq]: wq.c, utlist.h's list and the thread pool of server.c, as
      steps of its threads in any order.  [Http]: http_helper.c, [read_all] and [write_all].
      [Server]: the requests for files; a handler gives the trace of what the server does.
      [Proxy]: the relay of the proxy and the command line.  [ServerMain]: the main loop.

    ** What the theorems show

    - The heap: [malloc], [free] and [realloc] implement first fit with splitting and
      coalescing, for sizes to which a header can be added in 31 bits; live blocks never
      overlap and are backed by mapped writable pages on this kernel; the calls return.
    - The memory system: the page allocator hands out free pages once; the kernel's own page
      tables map all of physical memory; mapping, looking up and clearing a page agree; [sbrk] does what its comment promises on every branch, and
      a failure rolls back; faults on user addresses never stop the kernel; an address space
      that is destroyed gives back exactly its pages; no system call touches a page outside
      the caller's address space, and pointers into the kernel end the process; the kernel's
      own blocks never overlap and its allocator returns in every reachable state.  A system
      call that a fault ends in the middle of a read or write is covered too.
    - The loader: any file is loaded or rejected without a failed assertion; a loaded segment
      has the file's bytes; the arithmetic of accepted headers does not wrap.
    - The scheduler, in every state reached from boot under any interleaving and any timer
      ticks: one running thread, queues without duplicates, mutual exclusion of locks, no lost
      wake-up, bounded waiting, and no failed assertion but those a caller causes and the one
      of a thread that exits before the first process has been started.
    - Interrupts: gates and segment descriptors are read by the processor as they were meant;
      along every run, however far it is followed, a device's interrupt is handled with
      interrupts off, to its end, and acknowledged once before the next one.
    - The file system: reads and writes of inodes, the free map and its file, directories as
      maps from names to sectors, and reference counts under any sequence of calls; a file
      that is appended to an archive is extracted with the same bytes, if the archive's end was
      written as it is meant, and the utilities end.
    - The command line: its words are read back from the boot sector, options are obeyed in
      turn and actions carried out in order, each with its own arguments.
    - The libraries: lists are sorted in place, stably; a hash table refines a set under any
      failures of its allocations; heap sort, binary search, 64-bit division, tokenising;
      formatted output prints what a reference semantics of the format says, within the
      buffer it is given, and the kernel's console never mixes the output of threads; a tar
      header is parsed back; random bytes do not depend on how
      they are asked for.
    - The devices: interrupt queues are first in, first out under any interleaving; no byte
      of the serial port is lost or reordered and its interrupts are enabled when needed;
      the screen shows the end of an endless paper; the keyboard's state is what the hands
      did; partitions stay inside their disk and do not disturb each other; the timer's
      calibration finds its number.
    - The exercises: quoting and tokenising a command line are inverse; the page table walk
      is the reference walk, and strings are read through it; as long as
      memory lasts, the word count program prints the words of its input with their numbers of
      occurrences, in order, with either list, and with threads it prints the same under every
      schedule and ends.
    - The shell: a line that calls a program runs it with the words that were typed, gives it
      the terminal and takes it back; pipelines and redirections are taken apart within the
      arrays made for them, and every program of a pipeline reads what the one before it
      writes and sees its end; the process list is a sequence of ids under any operations; a
      foreground job leaves the processes that have not exited on it, and [wait] leaves none.
    - The web server: whatever a client sends, no path outside the directory served is looked
      at; a file is sent whole with its length, a listing has every entry; a request line is
      parsed back; once the queue is initialised and while memory lasts, every connection that is
      accepted is handled exactly once, in order, by the pool's threads under every schedule; the
      relay forwards what it receives.
    - Behaviours the code does not intend are theorems too: a stack access that makes the next
      [sbrk] stop the kernel, a wrapped [malloc] size, segments in descending order, a file
      lost to a failed allocation, sectors leaked by a failed creation, an extended partition
      that is scanned without end, two readers of a queue that stop the kernel, a clock that
      is a month ahead, a word that is lost to a failed allocation, an abort that reads
      thread handles never written, a pipeline whose process ids nothing ends, a missing program
      that is not noticed, answers that close their connection twice, a response that starts
      over after a partial write, a queue that is initialised under the threads that use it, a
      relay that does not notice the end of its connection, a server that keeps a descriptor for
      every connection, a shell that does not notice the end of its input, an archive that
      ends with a stray byte, a thread that exits before any process was started, a seed that is given and lost, and empty arguments that overrun
      their array.

    ** Bounds and fuel

    Words are integers with the wrap-around of the C type written out.  Loops without a
    structural argument take fuel, and running out of it is the outcome [Stuck], so that a
    theorem which gives a result also shows that the fuel was enough: the loops over page
    ranges get one unit per page and one more, reads and writes one per byte and one more,
    directory searches one per entry, the loader's loop one per page of the segment, the
    search of the heap's block list more than the number of blocks 2^31 bytes can hold,
    formatting one per character of the format and 32 more (a message printed for an unknown
    conversion is a format itself), a number's digits 65, the loops of the serial port's
    handler one per place in the queue.  Waiting for a device takes as much fuel as the device
    takes readings to become ready.  Walks over a word count list or the shell's process list
    get one unit per node on the heap and one more.  The extraction of an archive gets one
    unit per sector of the device, the run of actions one per argument.  What files, sockets, processes and the
    terminal answer to the shell and the web server are lists that their calls use up, and a
    list that is used up is [Stuck] as well.  A run of code with interrupts that is out of fuel,
    or that an assertion stops, keeps the state it has come to, and the theorem on interrupts
    speaks of it for any fuel.  The scheduler and the interrupt queues have no fuel: their
    theorems are by induction on the steps taken.

    ** Not modelled, and why

    The disk driver, interrupt stubs, the rest of the boot sequence, the context
    switch and shutting down are assembly or port I/O.  In the file system, an
    allocation of kernel memory succeeds or fails as a parameter decides.  The locks of the
    two allocators are left out: their callers are taken one at a time.  Of the process code,
    the first function of a new process ([start_process]) is left out.  A process has one
    thread, so words it has read do not change under the handler.  Of the shell and the web server, releasing
    memory is left out where it cannot go wrong, and so are the server's signal handlers; of
    the word count exercises error messages and the third list.  The allocator exercise (src/hw5) does not compile, and the
    second copy of the kernel (src/pintos) is a near copy without the heap; both are left out.

    ** Possible extensions

    The file system end to end as a map from names to contents; the first steps of a new
    process. *)
From stdpp Require Export base tactics numbers list gmap.
From Stdlib Require Export ZArith Lia.

#[export] Set Default Goal Selector "!".
#[global] Open Scope Z_scope.

(** ** Outcomes

    Kernel and library code either returns a value or dies: [ASSERT],
    [PANIC] and [NOT_REACHED] stop the machine ([Panic]).  A loop modelled
    with fuel that runs out of it gives [Stuck], so a theorem that a function
    returns [Ret _] also says that its loops end within the fuel. *)
Inductive res (A : Type) : Type :=
| Ret (a : A)
| Panic
| Stuck.
Arguments Ret {A} a.
Arguments Panic {A}.
Arguments Stuck {A}.

#[export] Instance res_ret : MRet res := fun A a => Ret a.
#[export] Instance res_bind : MBind res := fun A B k r =>
  match r with Ret a => k a | Panic => Panic | Stuck => Stuck end.
#[export] Instance res_fmap : FMap res := fun A B f r =>
  match r with Ret a => Ret (f a) | Panic => Panic | Stuck => Stuck end.

#[export] Instance res_eq_dec {A} `{EqDecision A} : EqDecision (res A).
Proof. solve_decision. Defined.

(** [ASSERT (CONDITION)] of lib/debug.h: panics unless the condition holds. *)
Definition ASSERT (b : bool) : res unit := if b then Ret tt else Panic.

Section Outcomes.
Context {A B : Type}.
Implicit Types (r : res A) (k : A → res B).

Lemma bind_Ret a k : (Ret a ≫= k) = k a.
Proof. reflexivity. Qed.

Lemma bind_Ret_inv r k b :
  (r ≫= k) = Ret b ↔ ∃ a, r = Ret a ∧ k a = Ret b.
Proof.
  destruct r as [a| |]; cbn; split; [eauto| |done| |done|].
  - intros (a' & [= <-] & H). exact H.
  - intros (a' & [=] & _).
  - intros (a' & [=] & _).
Qed.
End Outcomes.

Lemma ASSERT_true {B} (b : bool) (k : unit → res B) :
  b = true → (ASSERT b ≫= k) = k tt.
Proof. by intros ->. Qed.

Lemma ASSERT_false {B} (b : bool) (k : unit → res B) :
  b = false → (ASSERT b ≫= k) = Panic.
Proof. by intros ->. Qed.

(** [run_asserts] discharges the assertions at the head of a function body
    whose conditions the given tactic proves. *)
Ltac run_assert tac :=
  match goal with
  | |- context [ASSERT ?b ≫= ?k] => rewrite (ASSERT_true b k) by tac
  end.

(** Decompose a hypothesis [m ≫= k = Ret _] into its steps. *)
Ltac bind_inv H :=
  let a := fresh "v" in let H1 := fresh H in
  apply bind_Ret_inv in H as (a & H1 & H).

(** Case on the boolean comparisons the code branches on. *)
Ltac bool_cases :=
  repeat match goal with
  | |- context [Z.eqb ?a ?b] => destruct (Z.eqb_spec a b)
  | |- context [Z.ltb ?a ?b] => destruct (Z.ltb_spec a b)
  | |- context [Z.leb ?a ?b] => destruct (Z.leb_spec a b)
  end.

(** ** Machine integers

    [uint32_t], [size_t], [uintptr_t] and pointers are 32-bit: values of [Z]
    reduced modulo 2^32.  [intptr_t] and [int] are the same bits read in two's
    complement. *)
Definition u32 (z : Z) : Z := z mod 4294967296.
Definition s32 (z : Z) : Z :=
  let u := u32 z in if u <? 2147483648 then u else u - 4294967296.
Definition is_u32 (z : Z) : Prop := 0 ≤ z < 4294967296.

#[export] Instance is_u32_dec z : Decision (is_u32 z).
Proof. unfold is_u32. apply _. Defined.

Lemma u32_range z : is_u32 (u32 z).
Proof. unfold is_u32, u32. apply Z.mod_pos_bound. lia. Qed.

Lemma u32_id z : is_u32 z → u32 z = z.
Proof. unfold is_u32, u32. intros. by apply Z.mod_small. Qed.

Lemma u32_idemp z : u32 (u32 z) = u32 z.
Proof. apply u32_id, u32_range. Qed.

Lemma s32_small z : 0 ≤ z < 2147483648 → s32 z = z.
Proof.
  intros. unfold s32. rewrite u32_id by (unfold is_u32; lia).
  by destruct (Z.ltb_spec z 2147483648); [|lia].
Qed.

Lemma s32_bounds z : -2147483648 ≤ s32 z < 2147483648.
Proof.
  pose proof (u32_range z) as [? ?]. unfold s32. destruct (Z.ltb_spec (u32 z) 2147483648); lia.
Qed.

Create HintDb word.
Create Rewrite HintDb word.
#[export] Hint Resolve u32_range : word.
#[export] Hint Rewrite u32_idemp : word.

(** The C operators used on words. *)
Definition NULL : Z := 0.
Definition DIV_ROUND_UP (x step : Z) : Z := u32 (x + step - 1) / step.
Definition ROUND_UP (x step : Z) : Z := u32 (u32 (x + step - 1) / step * step).

(** ** Filters *)
Lemma filter_all {A} (P : A → Prop) `{∀ x, Decision (P x)} (l : list A) :
  (∀ x, x ∈ l → P x) → filter P l = l.
Proof.
  intros Hl. induction l as [|x l IH]; [done|]. rewrite filter_cons, decide_True by (apply Hl; left).
  f_equal. apply IH. intros y Hy. apply Hl. by right.
Qed.

(** ** Counting the entries of a map that satisfy a test *)
Definition count {A} (P : A → bool) (m : gmap Z A) : Z :=
  map_fold (λ _ a n, if P a then n + 1 else n) 0 m.

Section Count.
Context {A : Type} (P : A → bool).
Implicit Types m : gmap Z A.

Lemma count_insert m k a :
  m !! k = None → count P (<[k := a]> m) = count P m + (if P a then 1 else 0).
Proof.
  intros Hk. unfold count. rewrite map_fold_insert_L; [by destruct (P a); lia| |done].
  intros. destruct (P _), (P _); lia.
Qed.
Lemma count_delete m k a :
  m !! k = Some a → count P (delete k m) = count P m - (if P a then 1 else 0).
Proof.
  intros Hk. rewrite <- (insert_delete_id m k a Hk) at 2.
  rewrite count_insert by apply lookup_delete_eq. lia.
Qed.
Lemma count_update m k a b :
  m !! k = Some a →
  count P (<[k := b]> m) = count P m - (if P a then 1 else 0) + (if P b then 1 else 0).
Proof.
  intros Hk. rewrite <- insert_delete_eq, count_insert by apply lookup_delete_eq.
  by rewrite (count_delete m k a).
Qed.
Lemma count_nonneg m : 0 ≤ count P m.
Proof.
  unfold count. apply (map_fold_weak_ind (λ n _, 0 ≤ n)); [lia|].
  intros. by destruct (P _); lia.
Qed.
Lemma count_pos m k a : m !! k = Some a → P a = true → 0 < count P m.
Proof.
  intros Hk Ha. pose proof (count_nonneg (delete k m)). rewrite (count_delete m k a Hk), Ha in H. lia.
Qed.
Lemma count_one m k k' a a' :
  count P m ≤ 1 → m !! k = Some a → m !! k' = Some a' → P a = true → P a' = true → k = k'.
Proof.
  intros Hc Hk Hk' Ha Ha'. destruct (decide (k = k')) as [|Hne]; [done|].
  assert (H : 0 < count P (delete k m)).
  { eapply count_pos; [|exact Ha']. by rewrite lookup_delete_ne. }
  rewrite (count_delete m k a Hk), Ha in H. lia.
Qed.

Lemma count_zero m : (∀ k a, m !! k = Some a → P a = false) → count P m = 0.
Proof.
  induction m as [|k a m Hk IH] using map_ind; intros H; [done|].
  rewrite count_insert, (H k a) by (apply lookup_insert_eq || done).
  rewrite IH; [done|].
  intros k' a' Hk'. apply (H k'). rewrite lookup_insert_ne; [done|]. intros ->. congruence.
Qed.

Lemma count_exists m : 0 < count P m → ∃ k a, m !! k = Some a ∧ P a = true.
Proof.
  intros Hc. destruct (decide (map_Forall (λ _ a, P a = false) m)) as [H|H].
  - rewrite count_zero in Hc by exact H. lia.
  - apply map_not_Forall in H as (k & a & Hk & Ha); [|apply _]. exists k, a. split; [done|].
    by destruct (P a).
Qed.
End Count.

Lemma count_le {A} (P Q : A → bool) (m : gmap Z A) :
  (∀ a, P a = true → Q a = true) → count P m ≤ count Q m.
Proof.
  intros H. induction m as [|k a m Hk IH] using map_ind; [done|].
  rewrite !count_insert by done. specialize (H a). destruct (P a), (Q a); try lia.
Qed.
