(* ===== verification/Mem.v ===== *)
(** * Byte-addressed memory

    The store every pointer-level component works on: a finite map from
    32-bit addresses to bytes, little-endian 32-bit loads and stores (what the
    compiler emits for [uint32_t] and pointer fields on i386), and the block
    operations of lib/string.c ([memset], [memcpy], [memmove], [memcmp]). *)
From S2P Require Import Prelude.

(** Memory is total: a cell that was never written reads as zero. *)
Abbreviation mem := (gmap Z Z).

Definition load8 (m : mem) (a : Z) : Z := default 0 (m !! a) mod 256.
Definition store8 (m : mem) (a v : Z) : mem := <[a := v mod 256]> m.

Definition load32 (m : mem) (a : Z) : Z :=
  load8 m a + 256 * load8 m (a + 1) + 65536 * load8 m (a + 2)
  + 16777216 * load8 m (a + 3).
Definition store32 (m : mem) (a v : Z) : mem :=
  let m := store8 m a v in
  let m := store8 m (a + 1) (v / 256) in
  let m := store8 m (a + 2) (v / 65536) in
  store8 m (a + 3) (v / 16777216).

(** ** Block operations (lib/string.c) *)

(** The loop [while (size-- > 0) *dst++ = value;]. *)
Fixpoint fill (m : mem) (dst v : Z) (n : nat) : mem :=
  match n with
  | O => m
  | S n => fill (store8 m dst v) (dst + 1) v n
  end.

(** The loop [while (size-- > 0) *dst++ = *src++;]. *)
Fixpoint copy_up (m : mem) (dst src : Z) (n : nat) : mem :=
  match n with
  | O => m
  | S n => copy_up (store8 m dst (load8 m src)) (dst + 1) (src + 1) n
  end.

(** The loop [while (size-- > 0) *--dst = *--src;]: the counter also gives the
    offset of the byte moved, from the highest down. *)
Fixpoint copy_down (m : mem) (dst src : Z) (n : nat) : mem :=
  match n with
  | O => m
  | S n => copy_down (store8 m (dst - 1) (load8 m (src - 1))) (dst - 1) (src - 1) n
  end.

(** Each returns the pointer the C function returns with the new memory. *)
Definition memset (m : mem) (dst v size : Z) : res (Z * mem) :=
  ASSERT (negb (dst =? NULL) || (size =? 0));;
  Ret (dst, fill m dst v (Z.to_nat size)).

Definition memcpy (m : mem) (dst src size : Z) : res (Z * mem) :=
  ASSERT (negb (dst =? NULL) || (size =? 0));;
  ASSERT (negb (src =? NULL) || (size =? 0));;
  Ret (dst, copy_up m dst src (Z.to_nat size)).

(** [memmove] returns its local [dst], which the upward loop has advanced. *)
Definition memmove (m : mem) (dst src size : Z) : res (Z * mem) :=
  ASSERT (negb (dst =? NULL) || (size =? 0));;
  ASSERT (negb (src =? NULL) || (size =? 0));;
  if dst <? src
  then Ret (dst + size, copy_up m dst src (Z.to_nat size))
  else Ret (dst + size - size,
            copy_down m (dst + size) (src + size) (Z.to_nat size)).

Fixpoint memcmp_loop (m : mem) (a b : Z) (n : nat) : Z :=
  match n with
  | O => 0
  | S n =>
    if load8 m a =? load8 m b then memcmp_loop m (a + 1) (b + 1) n
    else if load8 m b <? load8 m a then 1 else -1
  end.
Definition memcmp (m : mem) (a b size : Z) : res Z :=
  ASSERT (negb (a =? NULL) || (size =? 0));;
  ASSERT (negb (b =? NULL) || (size =? 0));;
  Ret (memcmp_loop m a b (Z.to_nat size)).

(** ** Loads after stores *)

Lemma load8_range m a : 0 ≤ load8 m a < 256.
Proof. apply Z.mod_pos_bound. lia. Qed.

Lemma load8_store8 m a b v :
  load8 (store8 m a v) b = if decide (a = b) then v mod 256 else load8 m b.
Proof.
  unfold load8, store8. case_decide as E; subst.
  - rewrite lookup_insert_eq. cbn [default from_option id]. by rewrite Z.mod_mod.
  - by rewrite lookup_insert_ne.
Qed.

Lemma load8_store8_eq m a v : load8 (store8 m a v) a = v mod 256.
Proof. rewrite load8_store8. by case_decide. Qed.

Lemma load8_store8_ne m a b v : a ≠ b → load8 (store8 m a v) b = load8 m b.
Proof. intros. rewrite load8_store8. by case_decide. Qed.

Lemma load32_range m a : is_u32 (load32 m a).
Proof.
  unfold is_u32, load32.
  pose proof (load8_range m a). pose proof (load8_range m (a + 1)).
  pose proof (load8_range m (a + 2)). pose proof (load8_range m (a + 3)). lia.
Qed.

Lemma load8_store32_ne m a b v :
  b < a ∨ a + 4 ≤ b → load8 (store32 m a v) b = load8 m b.
Proof. intros. unfold store32. by rewrite !load8_store8_ne by lia. Qed.

(** Two memories agree on the bytes of an interval. *)
Definition same_bytes (m m' : mem) (a b : Z) : Prop :=
  ∀ x, a ≤ x < b → load8 m' x = load8 m x.

Lemma load32_same m m' a :
  same_bytes m m' a (a + 4) → load32 m' a = load32 m a.
Proof. intros H. unfold load32. by rewrite !H by lia. Qed.

Lemma load32_store32_eq m a v : load32 (store32 m a v) a = u32 v.
Proof.
  unfold load32, store32.
  rewrite !load8_store8. repeat case_decide; try lia.
  unfold u32. Z.to_euclidean_division_equations. lia.
Qed.

Lemma load32_store32_ne m a b v :
  b + 4 ≤ a ∨ a + 4 ≤ b → load32 (store32 m a v) b = load32 m b.
Proof.
  intros. apply load32_same. intros x Hx. apply load8_store32_ne. lia.
Qed.

#[export] Hint Resolve load8_range load32_range : word.

(** ** Block operations, byte by byte *)

Lemma load8_fill n : ∀ m d v x,
  load8 (fill m d v n) x =
  if decide (d ≤ x < d + Z.of_nat n) then v mod 256 else load8 m x.
Proof.
  induction n as [|n IH]; intros m d v x; cbn [fill].
  - case_decide; [lia | done].
  - rewrite IH, load8_store8. repeat case_decide; try done; lia.
Qed.

(** A forward copy is right whenever no source byte lies above a destination
    byte already written: the blocks are disjoint, or the destination starts
    below the source. *)
Lemma load8_copy_up n : ∀ m d s x,
  d ≤ s ∨ s + Z.of_nat n ≤ d →
  load8 (copy_up m d s n) x =
  if decide (d ≤ x < d + Z.of_nat n) then load8 m (s + (x - d)) else load8 m x.
Proof.
  induction n as [|n IH]; intros m d s x Hds; cbn [copy_up].
  - case_decide; [lia | done].
  - rewrite IH by lia. rewrite !load8_store8.
    repeat case_decide; try lia; try done.
    + f_equal; lia.
    + subst. rewrite Z.mod_small by apply load8_range. f_equal; lia.
Qed.

(** Copying down is right when the destination starts above the source. *)
Lemma load8_copy_down n : ∀ m d s x,
  s ≤ d →
  load8 (copy_down m d s n) x =
  if decide (d - Z.of_nat n ≤ x < d) then load8 m (s - (d - x)) else load8 m x.
Proof.
  induction n as [|n IH]; intros m d s x Hds; cbn [copy_down].
  - case_decide; [lia | done].
  - rewrite IH by lia. rewrite !load8_store8.
    repeat case_decide; try lia; try done.
    + f_equal; lia.
    + subst. rewrite Z.mod_small by apply load8_range. f_equal; lia.
Qed.

Lemma memcmp_loop_zero n : ∀ m a b,
  memcmp_loop m a b n = 0 ↔
  ∀ i, 0 ≤ i < Z.of_nat n → load8 m (a + i) = load8 m (b + i).
Proof.
  induction n as [|n IH]; intros m a b; cbn [memcmp_loop].
  - split; [lia | done].
  - destruct (Z.eqb_spec (load8 m a) (load8 m b)) as [E|NE].
    + rewrite IH. split.
      * intros H i Hi. destruct (decide (i = 0)) as [->|]; [by rewrite !Z.add_0_r|].
        specialize (H (i - 1) ltac:(lia)).
        by replace (a + 1 + (i - 1)) with (a + i) in H by lia;
           replace (b + 1 + (i - 1)) with (b + i) in H by lia.
      * intros H i Hi. specialize (H (i + 1) ltac:(lia)).
        by replace (a + 1 + i) with (a + (i + 1)) by lia;
           replace (b + 1 + i) with (b + (i + 1)) by lia.
    + split.
      * by destruct (load8 m b <? load8 m a).
      * intros H. specialize (H 0 ltac:(lia)). by rewrite !Z.add_0_r in H.
Qed.
