(* ===== verification/KList.v ===== *)
(** * Doubly linked lists (lib/list.c)

    The kernel's and the user library's intrusive list, on the byte memory of
    [Mem]: a [struct list_elem] is two 32-bit pointers ([prev] at offset 0,
    [next] at offset 4) embedded in the client's structure, a [struct list] is
    the two header elements [head] (offset 0) and [tail] (offset 8).  A pointer
    to an element is its address. *)
From S2P Require Import Prelude Mem.

(** ** [struct list_elem] and [struct list] *)
Definition prev (m : mem) (e : Z) : Z := load32 m e.
Definition next (m : mem) (e : Z) : Z := load32 m (e + 4).
Definition set_prev (m : mem) (e v : Z) : mem := store32 m e v.
Definition set_next (m : mem) (e v : Z) : mem := store32 m (e + 4) v.

Definition head_of (l : Z) : Z := l.
Definition tail_of (l : Z) : Z := l + 8.

(** ** Operations, statement by statement *)
Definition is_head (m : mem) (e : Z) : bool :=
  negb (e =? NULL) && (prev m e =? NULL) && negb (next m e =? NULL).
Definition is_interior (m : mem) (e : Z) : bool :=
  negb (e =? NULL) && negb (prev m e =? NULL) && negb (next m e =? NULL).
Definition is_tail (m : mem) (e : Z) : bool :=
  negb (e =? NULL) && negb (prev m e =? NULL) && (next m e =? NULL).

Definition list_init (m : mem) (l : Z) : res mem :=
  ASSERT (negb (l =? NULL));;
  let m := set_prev m (head_of l) NULL in
  let m := set_next m (head_of l) (tail_of l) in
  let m := set_prev m (tail_of l) (head_of l) in
  let m := set_next m (tail_of l) NULL in
  Ret m.

Definition list_begin (m : mem) (l : Z) : res Z :=
  ASSERT (negb (l =? NULL));; Ret (next m (head_of l)).
Definition list_next (m : mem) (e : Z) : res Z :=
  ASSERT (is_head m e || is_interior m e);; Ret (next m e).
Definition list_end (l : Z) : res Z :=
  ASSERT (negb (l =? NULL));; Ret (tail_of l).
Definition list_rbegin (m : mem) (l : Z) : res Z :=
  ASSERT (negb (l =? NULL));; Ret (prev m (tail_of l)).
Definition list_prev (m : mem) (e : Z) : res Z :=
  ASSERT (is_interior m e || is_tail m e);; Ret (prev m e).
Definition list_rend (l : Z) : res Z :=
  ASSERT (negb (l =? NULL));; Ret (head_of l).
Definition list_head (l : Z) : res Z :=
  ASSERT (negb (l =? NULL));; Ret (head_of l).
Definition list_tail (l : Z) : res Z :=
  ASSERT (negb (l =? NULL));; Ret (tail_of l).

Definition list_insert (m : mem) (before elem : Z) : res mem :=
  ASSERT (is_interior m before || is_tail m before);;
  ASSERT (negb (elem =? NULL));;
  let m := set_prev m elem (prev m before) in
  let m := set_next m elem before in
  let m := set_next m (prev m before) elem in
  let m := set_prev m before elem in
  Ret m.

Definition list_splice (m : mem) (before first last : Z) : res mem :=
  ASSERT (is_interior m before || is_tail m before);;
  if first =? last then Ret m else
  last ← list_prev m last;
  ASSERT (is_interior m first);;
  ASSERT (is_interior m last);;
  (* Cleanly remove FIRST...LAST from its current list. *)
  let m := set_next m (prev m first) (next m last) in
  let m := set_prev m (next m last) (prev m first) in
  (* Splice FIRST...LAST into new list. *)
  let m := set_prev m first (prev m before) in
  let m := set_next m last before in
  let m := set_next m (prev m before) first in
  let m := set_prev m before last in
  Ret m.

Definition list_push_front (m : mem) (l elem : Z) : res mem :=
  b ← list_begin m l; list_insert m b elem.
Definition list_push_back (m : mem) (l elem : Z) : res mem :=
  e ← list_end l; list_insert m e elem.

Definition list_remove (m : mem) (elem : Z) : res (Z * mem) :=
  ASSERT (is_interior m elem);;
  let m := set_next m (prev m elem) (next m elem) in
  let m := set_prev m (next m elem) (prev m elem) in
  Ret (next m elem, m).

Definition list_empty (m : mem) (l : Z) : res bool :=
  b ← list_begin m l; e ← list_end l; Ret (b =? e).
Definition list_front (m : mem) (l : Z) : res Z :=
  e ← list_empty m l; ASSERT (negb e);; Ret (next m (head_of l)).
Definition list_back (m : mem) (l : Z) : res Z :=
  e ← list_empty m l; ASSERT (negb e);; Ret (prev m (tail_of l)).
Definition list_pop_front (m : mem) (l : Z) : res (Z * mem) :=
  front ← list_front m l; '(_, m) ← list_remove m front; Ret (front, m).
Definition list_pop_back (m : mem) (l : Z) : res (Z * mem) :=
  back ← list_back m l; '(_, m) ← list_remove m back; Ret (back, m).

(** The iteration loops take fuel; a list of [n] elements needs [n + 1]. *)
Fixpoint list_size_loop (fuel : nat) (m : mem) (l e cnt : Z) : res Z :=
  match fuel with
  | O => Stuck
  | S fuel =>
    en ← list_end l;
    if e =? en then Ret cnt
    else e' ← list_next m e; list_size_loop fuel m l e' (u32 (cnt + 1))
  end.
Definition list_size (fuel : nat) (m : mem) (l : Z) : res Z :=
  b ← list_begin m l; list_size_loop fuel m l b 0.

(** [swap] exchanges the pointers stored at two addresses. *)
Definition swap (m : mem) (a b : Z) : mem :=
  let t := load32 m a in
  let m := store32 m a (load32 m b) in
  store32 m b t.

Fixpoint list_reverse_loop (fuel : nat) (m : mem) (l e : Z) : res mem :=
  match fuel with
  | O => Stuck
  | S fuel =>
    en ← list_end l;
    if e =? en then Ret m
    else
      let m := swap m e (e + 4) in
      list_reverse_loop fuel m l (prev m e)
  end.
Definition list_reverse (fuel : nat) (m : mem) (l : Z) : res mem :=
  e ← list_empty m l;
  if (e : bool) then Ret m else
  b ← list_begin m l;
  m ← list_reverse_loop fuel m l b;
  let m := swap m (head_of l + 4) (tail_of l) in
  let m := swap m (next m (head_of l)) (prev m (tail_of l) + 4) in
  Ret m.

(** Comparison-based operations.  [less] is the client's callback with its
    auxiliary data: it compares the structures two elements are embedded in,
    whose other fields no list operation writes. *)
Section Ordered.
Context (less : Z → Z → bool).

Fixpoint is_sorted_loop (fuel : nat) (m : mem) (a b : Z) : res bool :=
  match fuel with
  | O => Stuck
  | S fuel =>
    a ← list_next m a;
    if a =? b then Ret true
    else p ← list_prev m a;
         if less a p then Ret false else is_sorted_loop fuel m a b
  end.
Definition is_sorted (fuel : nat) (m : mem) (a b : Z) : res bool :=
  if a =? b then Ret true else is_sorted_loop fuel m a b.

Fixpoint find_end_of_run_loop (fuel : nat) (m : mem) (a b : Z) : res Z :=
  match fuel with
  | O => Stuck
  | S fuel =>
    a ← list_next m a;
    if a =? b then Ret a
    else p ← list_prev m a;
         if less a p then Ret a else find_end_of_run_loop fuel m a b
  end.
Definition find_end_of_run (fuel : nat) (m : mem) (a b : Z) : res Z :=
  ASSERT (negb (a =? NULL));;
  ASSERT (negb (b =? NULL));;
  ASSERT (negb (a =? b));;
  find_end_of_run_loop fuel m a b.

Fixpoint inplace_merge_loop (fuel : nat) (m : mem) (a0 a1b0 b1 : Z) : res mem :=
  match fuel with
  | O => Stuck
  | S fuel =>
    if negb (a0 =? a1b0) && negb (a1b0 =? b1) then
      if negb (less a1b0 a0)
      then a0 ← list_next m a0; inplace_merge_loop fuel m a0 a1b0 b1
      else
        a1b0 ← list_next m a1b0;
        p ← list_prev m a1b0;
        m ← list_splice m a0 p a1b0;
        inplace_merge_loop fuel m a0 a1b0 b1
    else Ret m
  end.
Definition inplace_merge (fuel : nat) (m : mem) (a0 a1b0 b1 : Z) : res mem :=
  ASSERT (negb (a0 =? NULL));;
  ASSERT (negb (a1b0 =? NULL));;
  ASSERT (negb (b1 =? NULL));;
  s ← is_sorted fuel m a0 a1b0; ASSERT s;;
  s ← is_sorted fuel m a1b0 b1; ASSERT s;;
  inplace_merge_loop fuel m a0 a1b0 b1.

(** One pass of the [for] loop of [list_sort]: the number of runs output and
    the memory.  The count is a [size_t], incremented once per output run. *)
Fixpoint list_sort_pass (fuel : nat) (m : mem) (l a0 output_run_cnt : Z)
    : res (Z * mem) :=
  match fuel with
  | O => Stuck
  | S fuel' =>
    en ← list_end l;
    if a0 =? en then Ret (output_run_cnt, m) else
    let output_run_cnt := u32 (output_run_cnt + 1) in
    a1b0 ← find_end_of_run fuel m a0 en;
    if a1b0 =? en then Ret (output_run_cnt, m) else
    b1 ← find_end_of_run fuel m a1b0 en;
    m ← inplace_merge fuel m a0 a1b0 b1;
    list_sort_pass fuel' m l b1 output_run_cnt
  end.
Fixpoint list_sort_loop (fuel : nat) (pfuel : nat) (m : mem) (l : Z) : res mem :=
  match fuel with
  | O => Stuck
  | S fuel =>
    b ← list_begin m l;
    '(cnt, m) ← list_sort_pass pfuel m l b 0;
    if 1 <? cnt then list_sort_loop fuel pfuel m l else Ret m
  end.
Definition list_sort (fuel : nat) (m : mem) (l : Z) : res mem :=
  ASSERT (negb (l =? NULL));;
  m ← list_sort_loop fuel fuel m l;
  b ← list_begin m l; e ← list_end l;
  s ← is_sorted fuel m b e; ASSERT s;;
  Ret m.

Fixpoint insert_ordered_loop (fuel : nat) (m : mem) (l elem e : Z) : res Z :=
  match fuel with
  | O => Stuck
  | S fuel =>
    en ← list_end l;
    if e =? en then Ret e
    else if less elem e then Ret e
    else e' ← list_next m e; insert_ordered_loop fuel m l elem e'
  end.
Definition list_insert_ordered (fuel : nat) (m : mem) (l elem : Z) : res mem :=
  ASSERT (negb (l =? NULL));;
  ASSERT (negb (elem =? NULL));;
  b ← list_begin m l;
  e ← insert_ordered_loop fuel m l elem b;
  list_insert m e elem.

Fixpoint list_unique_loop (fuel : nat) (m : mem) (l duplicates elem : Z) : res mem :=
  match fuel with
  | O => Stuck
  | S fuel =>
    nx ← list_next m elem;
    en ← list_end l;
    if nx =? en then Ret m
    else if negb (less elem nx) && negb (less nx elem) then
      '(_, m) ← list_remove m nx;
      m ← (if negb (duplicates =? NULL) then list_push_back m duplicates nx
           else Ret m);
      list_unique_loop fuel m l duplicates elem
    else list_unique_loop fuel m l duplicates nx
  end.
Definition list_unique (fuel : nat) (m : mem) (l duplicates : Z) : res mem :=
  ASSERT (negb (l =? NULL));;
  e ← list_empty m l;
  if (e : bool) then Ret m else
  b ← list_begin m l;
  list_unique_loop fuel m l duplicates b.

Fixpoint list_max_loop (fuel : nat) (m : mem) (l max e : Z) : res Z :=
  match fuel with
  | O => Stuck
  | S fuel =>
    en ← list_end l;
    if e =? en then Ret max
    else let max := if less max e then e else max in
         e' ← list_next m e; list_max_loop fuel m l max e'
  end.
Definition list_max (fuel : nat) (m : mem) (l : Z) : res Z :=
  max ← list_begin m l; en ← list_end l;
  if max =? en then Ret max
  else e ← list_next m max; list_max_loop fuel m l max e.

Fixpoint list_min_loop (fuel : nat) (m : mem) (l min e : Z) : res Z :=
  match fuel with
  | O => Stuck
  | S fuel =>
    en ← list_end l;
    if e =? en then Ret min
    else let min := if less e min then e else min in
         e' ← list_next m e; list_min_loop fuel m l min e'
  end.
Definition list_min (fuel : nat) (m : mem) (l : Z) : res Z :=
  min ← list_begin m l; en ← list_end l;
  if min =? en then Ret min
  else e ← list_next m min; list_min_loop fuel m l min e.
End Ordered.

(** ** Well-formed chains

    [chain m ns]: the elements [ns] (headers included) are linked in this
    order, do not overlap, and the outer links of the ends are null. *)
Definition disj (a b : Z) : Prop := a + 8 ≤ b ∨ b + 8 ≤ a.
Definition node_ok (e : Z) : Prop := 0 < e ∧ e + 8 ≤ 4294967296.

Fixpoint apart (ns : list Z) : Prop :=
  match ns with
  | [] => True
  | n :: ns => Forall (disj n) ns ∧ apart ns
  end.

Fixpoint links (m : mem) (ns : list Z) : Prop :=
  match ns with
  | a :: ((b :: _) as ns) => next m a = b ∧ prev m b = a ∧ links m ns
  | _ => True
  end.

Record chain (m : mem) (ns : list Z) : Prop := {
  chain_links : links m ns;
  chain_apart : apart ns;
  chain_ok : Forall node_ok ns;
  chain_head : ∀ h, head ns = Some h → prev m h = NULL;
  chain_last : ∀ t, last ns = Some t → next m t = NULL;
}.

(** The list at [l] holds the elements [xs]. *)
Definition dll (m : mem) (l : Z) (xs : list Z) : Prop :=
  chain m (head_of l :: xs ++ [tail_of l]).

(** Only bytes of the elements [ns] differ between two memories. *)
Definition same_outside (ns : list Z) (m m' : mem) : Prop :=
  ∀ x, Forall (λ n, x < n ∨ n + 8 ≤ x) ns → load8 m' x = load8 m x.

#[export] Instance disj_sym : Symmetric disj.
Proof. unfold disj. intros a b. lia. Qed.

Lemma apart_app xs ys :
  apart (xs ++ ys) ↔ apart xs ∧ apart ys ∧ Forall (λ x, Forall (disj x) ys) xs.
Proof.
  induction xs as [|x xs IH]; cbn.
  - split; [eauto|by intros (_ & ? & _)].
  - rewrite IH, Forall_app, Forall_cons. tauto.
Qed.

Lemma apart_perm xs ys : xs ≡ₚ ys → apart xs → apart ys.
Proof.
  induction 1 as [|x l l' HP IH|x y l|l l' l'' _ IH1 _ IH2]; cbn; auto.
  - intros [H1 H2]. split; [by rewrite <- HP|auto].
  - rewrite !Forall_cons. intros [[H1 H2] [H3 H4]].
    split_and!; auto. by apply disj_sym.
Qed.

#[export] Instance apart_Proper : Proper ((≡ₚ) ==> iff) apart.
Proof. intros xs ys H. split; by apply apart_perm. Qed.

Lemma apart_inv ns a b : apart ns → a ∈ ns → b ∈ ns → a = b ∨ disj a b.
Proof.
  induction ns as [|n ns IH]; cbn; [by intros _ ?%elem_of_nil|].
  rewrite !elem_of_cons. rewrite Forall_forall.
  intros [H1 H2] [->|Ha] [->|Hb]; eauto. right. by apply disj_sym, H1.
Qed.

Lemma apart_NoDup ns : apart ns → NoDup ns.
Proof.
  induction ns as [|n ns IH]; cbn; [constructor|].
  rewrite Forall_forall. intros [H1 H2]. constructor; [|auto].
  intros Hin. specialize (H1 _ Hin). unfold disj in H1. lia.
Qed.

(** Reads after field writes, for elements that coincide or do not overlap. *)
Section Fields.
Context (m : mem) (a b v : Z) (Hsep : a = b ∨ disj a b).

Lemma next_set_next :
  next (set_next m a v) b = if decide (a = b) then u32 v else next m b.
Proof using Hsep.
  unfold next, set_next. case_decide as E.
  - subst. apply load32_store32_eq.
  - apply load32_store32_ne. unfold disj in Hsep. lia.
Qed.
Lemma prev_set_prev :
  prev (set_prev m a v) b = if decide (a = b) then u32 v else prev m b.
Proof using Hsep.
  unfold prev, set_prev. case_decide as E.
  - subst. apply load32_store32_eq.
  - apply load32_store32_ne. unfold disj in Hsep. lia.
Qed.
Lemma next_set_prev : next (set_prev m a v) b = next m b.
Proof using Hsep. apply load32_store32_ne. unfold disj in Hsep. lia. Qed.
Lemma prev_set_next : prev (set_next m a v) b = prev m b.
Proof using Hsep. apply load32_store32_ne. unfold disj in Hsep. lia. Qed.
End Fields.

Lemma links_app m xs a ys :
  links m (xs ++ a :: ys) ↔ links m (xs ++ [a]) ∧ links m (a :: ys).
Proof.
  induction xs as [|x xs IH]; cbn [app].
  - cbn. tauto.
  - destruct xs as [|x' xs]; cbn [app links] in *; tauto.
Qed.

Lemma elem_of_removelast (x : Z) ns : x ∈ removelast ns → x ∈ ns.
Proof.
  induction ns as [|a [|b ns] IH]; [done|by intros ?%elem_of_nil|].
  cbn [removelast]. rewrite !elem_of_cons in *. naive_solver.
Qed.

(** Links survive a memory change that keeps [next] of all but the last
    element and [prev] of all but the first. *)
Lemma links_ext m m' ns :
  (∀ x, x ∈ removelast ns → next m' x = next m x) →
  (∀ x, x ∈ tail ns → prev m' x = prev m x) →
  links m ns → links m' ns.
Proof.
  induction ns as [|a ns IH]; [done|]. destruct ns as [|b ns]; [done|].
  cbn [links removelast tail]. intros Hn Hp (H1 & H2 & H3).
  split_and!.
  - rewrite Hn; [done|]. left.
  - rewrite Hp; [done|]. left.
  - apply IH; [| |done].
    + intros x Hx. apply Hn. by right.
    + intros x Hx. apply Hp. cbn in Hx. by right.
Qed.

Lemma node_ok_u32 e : node_ok e → u32 e = e.
Proof. unfold node_ok. intros. apply u32_id. unfold is_u32. lia. Qed.

Lemma same_outside_refl ns m : same_outside ns m m.
Proof. by intros x _. Qed.

Lemma same_outside_trans ns m1 m2 m3 :
  same_outside ns m1 m2 → same_outside ns m2 m3 → same_outside ns m1 m3.
Proof. intros H1 H2 x Hx. by rewrite (H2 x Hx), (H1 x Hx). Qed.

Lemma same_outside_mono ns ns' m m' :
  ns ⊆ ns' → same_outside ns m m' → same_outside ns' m m'.
Proof.
  intros Hsub H x Hx. apply H. rewrite Forall_forall in *. eauto.
Qed.

Lemma same_outside_field ns m a v d :
  a ∈ ns → d = 0 ∨ d = 4 → same_outside ns m (store32 m (a + d) v).
Proof.
  intros Ha Hd x Hx. apply load8_store32_ne.
  rewrite Forall_forall in Hx. specialize (Hx _ Ha). lia.
Qed.

Lemma same_outside_set_prev ns m a v :
  a ∈ ns → same_outside ns m (set_prev m a v).
Proof.
  intros. unfold set_prev. replace a with (a + 0) at 1 by lia.
  apply same_outside_field; auto.
Qed.
Lemma same_outside_set_next ns m a v :
  a ∈ ns → same_outside ns m (set_next m a v).
Proof. intros. apply same_outside_field; auto. Qed.

(** A field read outside the written elements. *)
Lemma next_same_outside ns m m' a :
  same_outside ns m m' → Forall (disj a) ns → next m' a = next m a.
Proof.
  intros H Ha. apply load32_same. intros x Hx. apply H.
  rewrite Forall_forall in *. intros n Hn. specialize (Ha n Hn).
  unfold disj in Ha. lia.
Qed.
Lemma prev_same_outside ns m m' a :
  same_outside ns m m' → Forall (disj a) ns → prev m' a = prev m a.
Proof.
  intros H Ha. apply load32_same. intros x Hx. apply H.
  rewrite Forall_forall in *. intros n Hn. specialize (Ha n Hn).
  unfold disj in Ha. lia.
Qed.

(** What a chain says about a consecutive pair. *)
Lemma links_pair m P a b Q :
  links m (P ++ a :: b :: Q) → next m a = b ∧ prev m b = a.
Proof. rewrite links_app. cbn. tauto. Qed.

Section Chain.
Context (m : mem) (P : list Z) (p b : Z) (Q : list Z).
Context (Hc : chain m (P ++ p :: b :: Q)).

Lemma chain_node x : x ∈ P ++ p :: b :: Q → node_ok x.
Proof using Hc. intros Hx. destruct Hc. rewrite Forall_forall in *. eauto. Qed.

Lemma chain_next : next m p = b.
Proof using Hc. apply (links_pair _ _ _ _ _ (chain_links _ _ Hc)). Qed.
Lemma chain_prev : prev m b = p.
Proof using Hc. exact (proj2 (links_pair _ _ _ _ _ (chain_links _ _ Hc))). Qed.

(** The second of a pair is interior or the tail: what [list_insert],
    [list_prev] and [list_splice] assert. *)
Lemma chain_not_head : is_interior m b || is_tail m b = true.
Proof using Hc.
  pose proof (chain_node p ltac:(set_solver)) as [Hp _].
  pose proof (chain_node b ltac:(set_solver)) as [Hb _].
  unfold is_interior, is_tail. rewrite chain_prev.
  unfold NULL. lia.
Qed.

(** The first of a pair is the head or interior: what [list_next] asserts. *)
Lemma chain_not_tail : is_head m p || is_interior m p = true.
Proof using Hc.
  pose proof (chain_node p ltac:(set_solver)) as [Hp _].
  pose proof (chain_node b ltac:(set_solver)) as [Hb _].
  unfold is_interior, is_head. rewrite chain_next.
  unfold NULL. lia.
Qed.

Lemma list_next_chain : list_next m p = Ret b.
Proof using Hc. unfold list_next. by rewrite chain_not_tail, chain_next. Qed.
Lemma list_prev_chain : list_prev m b = Ret p.
Proof using Hc. unfold list_prev. by rewrite chain_not_head, chain_prev. Qed.
End Chain.

(** An element with neighbours on both sides is interior. *)
Lemma chain_interior m P p e q Q :
  chain m (P ++ p :: e :: q :: Q) → is_interior m e = true.
Proof.
  intros Hc.
  pose proof (chain_node _ _ _ _ _ Hc p ltac:(set_solver)) as [Hp _].
  pose proof (chain_node _ _ _ _ _ Hc e ltac:(set_solver)) as [He _].
  pose proof (chain_node _ _ _ _ _ Hc q ltac:(set_solver)) as [Hq _].
  unfold is_interior. rewrite (chain_prev _ _ _ _ _ Hc).
  replace (P ++ p :: e :: q :: Q) with ((P ++ [p]) ++ e :: q :: Q) in Hc
    by by rewrite <- app_assoc.
  rewrite (chain_next _ _ _ _ _ Hc). unfold NULL.
  lia.
Qed.

(** Membership of an element named in a list expression. *)
Ltac elem := rewrite ?elem_of_app, ?elem_of_cons; first [tauto | auto 12].

(** Field reads after field writes, the separation of the elements coming
    from [Hap]; decided cases that equate distinct elements are closed. *)
Ltac fields Hap :=
  repeat first
    [ rewrite next_set_prev by (apply Hap; elem)
    | rewrite prev_set_next by (apply Hap; elem)
    | rewrite next_set_next by (apply Hap; elem)
    | rewrite prev_set_prev by (apply Hap; elem) ];
  repeat (case_decide; [subst; try (exfalso; intuition congruence)|]);
  try congruence.

(** Replacing the middle of a chain: only [next] of the element before it and
    [prev] of the element after it change outside the middle. *)
Lemma chain_mid m m' P p S S' b Q :
  chain m (P ++ p :: S ++ b :: Q) →
  (∀ x, x ∈ P ++ b :: Q → next m' x = next m x) →
  (∀ x, x ∈ P ++ p :: Q → prev m' x = prev m x) →
  links m' (p :: S' ++ [b]) →
  apart (P ++ p :: S' ++ b :: Q) → Forall node_ok S' →
  chain m' (P ++ p :: S' ++ b :: Q).
Proof.
  intros [Hl Ha Ho Hh Ht] Hn Hp Hmid Ha' Ho'. split; [|done| | |].
  - rewrite links_app in Hl |- *. destruct Hl as [Hl1 Hl2]. split.
    + eapply links_ext; [| |exact Hl1].
      * intros x. rewrite removelast_last. intros. apply Hn. set_solver.
      * intros x Hx. apply Hp. destruct P; cbn in Hx; set_solver.
    + rewrite app_comm_cons, links_app in Hl2 |- *. destruct Hl2 as [_ Hl2].
      split; [done|]. eapply links_ext; [| |exact Hl2].
      * intros x Hx. apply Hn. apply elem_of_app. right.
        by apply elem_of_removelast.
      * intros x Hx. apply Hp. cbn in Hx. set_solver.
  - rewrite !Forall_app, !Forall_cons, !Forall_app, !Forall_cons in *. tauto.
  - intros h Eh. rewrite Hp.
    + apply Hh. by destruct P.
    + destruct P; cbn in Eh; simplify_eq; set_solver.
  - intros t Et. rewrite last_app_cons, app_comm_cons, last_app_cons in Et.
    rewrite Hn.
    + apply Ht. by rewrite last_app_cons, app_comm_cons, last_app_cons.
    + apply last_Some_elem_of in Et. set_solver.
Qed.

(** The separation facts of the three elements an operation touches and of the
    two sides of the chain. *)
Lemma apart_three P p e b Q :
  apart (P ++ p :: e :: b :: Q) →
  (p ≠ e ∧ p ≠ b ∧ e ≠ b) ∧ (p ∉ P ∧ e ∉ P ∧ b ∉ P)
  ∧ (p ∉ Q ∧ e ∉ Q ∧ b ∉ Q) ∧ (∀ x, x ∈ P → x ∉ Q).
Proof.
  intros H%apart_NoDup. apply NoDup_app in H as (_ & HP & HN).
  rewrite !NoDup_cons, !not_elem_of_cons in HN.
  assert (∀ x, x ∈ P → x ≠ p ∧ x ≠ e ∧ x ≠ b ∧ x ∉ Q) as HP'.
  { intros x Hx. specialize (HP x Hx). rewrite !not_elem_of_cons in HP. tauto. }
  clear HP. split_and!; try tauto;
    intros; intros Hx; first [apply HP' in Hx; tauto|by eapply HP'].
Qed.

(** ** Insertion and removal refine list insertion and removal *)
Lemma list_insert_chain m P p b Q e :
  chain m (P ++ p :: b :: Q) → node_ok e → Forall (disj e) (P ++ p :: b :: Q) →
  ∃ m', list_insert m b e = Ret m' ∧ chain m' (P ++ p :: e :: b :: Q)
        ∧ same_outside [p; e; b] m m'.
Proof.
  intros Hc He Hd.
  assert (apart (P ++ p :: e :: b :: Q)) as Hap'.
  { apply (apart_perm (e :: P ++ p :: b :: Q)); [|split; [done|apply Hc]].
    by rewrite (Permutation_middle P), <- (Permutation_swap p e). }
  assert (∀ x y, x ∈ P ++ p :: e :: b :: Q → y ∈ P ++ p :: e :: b :: Q →
    x = y ∨ disj x y) as Hap by (intros; by eapply apart_inv).
  pose proof (apart_three _ _ _ _ _ Hap') as (Hne & HP & HQ & HPQ).
  pose proof (node_ok_u32 p (chain_node _ _ _ _ _ Hc p ltac:(elem))) as Up.
  pose proof (node_ok_u32 b (chain_node _ _ _ _ _ Hc b ltac:(elem))) as Ub.
  unfold list_insert. rewrite (chain_not_head _ _ _ _ _ Hc).
  rewrite (ASSERT_true (negb _)) by (destruct He; unfold NULL; lia).
  cbn [ASSERT]. rewrite !bind_Ret. eexists. split; [reflexivity|].
  assert (prev (set_next (set_prev m e (prev m b)) e b) b = p) as ->.
  { fields Hap. apply (chain_prev _ _ _ _ _ Hc). }
  rewrite (chain_prev _ _ _ _ _ Hc).
  set (m' := set_prev _ _ _).
  split.
  - apply (chain_mid m m' P p [] [e] b Q Hc); [..|done|by constructor].
    + intros x Hx. rewrite elem_of_app, elem_of_cons in Hx.
      unfold m'. fields Hap.
    + intros x Hx. rewrite elem_of_app, elem_of_cons in Hx.
      unfold m'. fields Hap.
    + apply node_ok_u32 in He. cbn. unfold m'. fields Hap. by rewrite Up, Ub.
  - unfold m'.
    eapply same_outside_trans; [|apply same_outside_set_prev; elem].
    eapply same_outside_trans; [|apply same_outside_set_next; elem].
    eapply same_outside_trans; [|apply same_outside_set_next; elem].
    apply same_outside_set_prev; elem.
Qed.

Lemma list_remove_chain m P p e q Q :
  chain m (P ++ p :: e :: q :: Q) →
  ∃ m', list_remove m e = Ret (q, m') ∧ chain m' (P ++ p :: q :: Q)
        ∧ same_outside [p; q] m m'.
Proof.
  intros Hc. pose proof (chain_apart _ _ Hc) as Hap'.
  assert (∀ x y, x ∈ P ++ p :: e :: q :: Q → y ∈ P ++ p :: e :: q :: Q →
    x = y ∨ disj x y) as Hap by (intros; by eapply apart_inv).
  pose proof (apart_three _ _ _ _ _ Hap') as (Hne & HP & HQ & HPQ).
  pose proof (node_ok_u32 p (chain_node _ _ _ _ _ Hc p ltac:(elem))) as Up.
  pose proof (node_ok_u32 q (chain_node _ _ _ _ _ Hc q ltac:(elem))) as Uq.
  unfold list_remove. rewrite (chain_interior _ _ _ _ _ _ Hc).
  pose proof (chain_prev _ _ _ _ _ Hc) as Ep.
  assert (next m e = q) as En.
  { apply (chain_next m (P ++ [p]) e q Q). by rewrite <- app_assoc. }
  cbn [ASSERT]. rewrite !bind_Ret, Ep, En.
  assert (next (set_next m p q) e = q) as -> by (fields Hap).
  assert (prev (set_next m p q) e = p) as -> by (fields Hap).
  set (m' := set_prev _ _ _).
  assert (next m' e = q) as -> by (unfold m'; fields Hap).
  eexists. split; [reflexivity|]. split.
  - apply (chain_mid m m' P p [e] [] q Q Hc); [..|by constructor].
    + intros x Hx. rewrite elem_of_app, elem_of_cons in Hx.
      unfold m'. fields Hap.
    + intros x Hx. rewrite elem_of_app, elem_of_cons in Hx.
      unfold m'. fields Hap.
    + cbn. unfold m'. fields Hap. by rewrite Up, Uq.
    + apply (apart_perm _ (e :: P ++ p :: q :: Q)) in Hap'; [apply Hap'|].
      by rewrite (Permutation_middle P), <- (Permutation_swap p e).
  - eapply same_outside_trans; [|apply same_outside_set_prev; elem].
    apply same_outside_set_next; elem.
Qed.

(** ** The list operations on a well-formed list *)
Lemma cons_snoc {A} (x : A) xs : ∃ P p, x :: xs = P ++ [p].
Proof.
  destruct (decide (x :: xs = [])) as [|H]; [done|].
  destruct (exists_last H) as (P & p & ->). eauto.
Qed.

(** The nodes of a list, header elements included. *)
Definition nodes (l : Z) (xs : list Z) : list Z := head_of l :: xs ++ [tail_of l].

Lemma dll_split m l xs ys :
  dll m l (xs ++ ys) →
  ∃ P p b Q, head_of l :: xs = P ++ [p] ∧ ys ++ [tail_of l] = b :: Q
    ∧ b = hd (tail_of l) ys ∧ chain m (P ++ p :: b :: Q).
Proof.
  intros H. destruct (cons_snoc (head_of l) xs) as (P & p & E).
  assert (∃ b Q, ys ++ [tail_of l] = b :: Q ∧ b = hd (tail_of l) ys)
    as (b & Q & E' & Eb) by (destruct ys; cbn; eauto).
  exists P, p, b, Q. split_and!; try done.
  unfold dll in H. rewrite <- app_assoc, app_comm_cons, E, E', <- app_assoc in H.
  exact H.
Qed.

Lemma dll_pos m l xs : dll m l xs → 0 < l ∧ l + 16 ≤ 4294967296.
Proof.
  intros H. pose proof (chain_ok _ _ H) as Ho.
  rewrite Forall_cons, Forall_app, Forall_cons in Ho.
  unfold node_ok, head_of, tail_of in Ho. lia.
Qed.

Lemma dll_not_null m l xs : dll m l xs → (l =? NULL) = false.
Proof. intros H%dll_pos. unfold NULL. lia. Qed.

Lemma list_begin_dll m l xs :
  dll m l xs → list_begin m l = Ret (hd (tail_of l) xs).
Proof.
  intros H. unfold list_begin. rewrite (dll_not_null _ _ _ H).
  destruct (dll_split m l [] xs H) as (P & p & b & Q & E & E' & -> & Hc).
  destruct P as [|? [|]]; simplify_eq/=. cbn.
  by rewrite (chain_next _ [] _ _ _ Hc).
Qed.

Lemma list_end_dll m l xs : dll m l xs → list_end l = Ret (tail_of l).
Proof. intros H. unfold list_end. by rewrite (dll_not_null _ _ _ H). Qed.

Lemma list_next_dll m l xs x ys :
  dll m l (xs ++ x :: ys) → list_next m x = Ret (hd (tail_of l) ys).
Proof.
  intros H. replace (xs ++ x :: ys) with ((xs ++ [x]) ++ ys) in H
    by by rewrite <- app_assoc.
  destruct (dll_split _ _ _ _ H) as (P & p & b & Q & E & E' & -> & Hc).
  rewrite app_comm_cons in E. apply app_inj_2 in E as [_ [= ->]]; [|done].
  by rewrite (list_next_chain _ _ _ _ _ Hc).
Qed.

Lemma list_prev_dll m l xs x ys :
  dll m l (xs ++ x :: ys) → list_prev m x = Ret (default (head_of l) (last xs)).
Proof.
  intros H. destruct (dll_split _ _ _ _ H) as (P & p & b & Q & E & E' & -> & Hc).
  cbn in *. rewrite (list_prev_chain _ _ _ _ _ Hc). f_equal.
  assert (last (head_of l :: xs) = Some p) as E2 by (by rewrite E, last_snoc).
  rewrite last_cons in E2. by destruct (last xs); simplify_eq/=.
Qed.

Lemma list_insert_dll m l xs ys e :
  dll m l (xs ++ ys) → node_ok e → Forall (disj e) (nodes l (xs ++ ys)) →
  ∃ m', list_insert m (hd (tail_of l) ys) e = Ret m' ∧ dll m' l (xs ++ e :: ys)
        ∧ same_outside (nodes l (xs ++ e :: ys)) m m'.
Proof.
  intros H He Hd.
  destruct (dll_split _ _ _ _ H) as (P & p & b & Q & E & E' & -> & Hc).
  assert (nodes l (xs ++ ys) = P ++ p :: hd (tail_of l) ys :: Q) as En.
  { unfold nodes. by rewrite <- app_assoc, app_comm_cons, E, E', <- app_assoc. }
  assert (nodes l (xs ++ e :: ys) = P ++ p :: e :: hd (tail_of l) ys :: Q) as En'.
  { unfold nodes. rewrite <- app_assoc, app_comm_cons, E. cbn.
    by rewrite E', <- app_assoc. }
  rewrite En in Hd.
  destruct (list_insert_chain _ _ _ _ _ _ Hc He Hd) as (m' & Hi & Hc' & Hs).
  exists m'. unfold dll. fold (nodes l (xs ++ e :: ys)). rewrite En'.
  split_and!; try done.
  eapply same_outside_mono; [|exact Hs]. intros x. rewrite !elem_of_cons.
  rewrite elem_of_nil. elem.
Qed.

Lemma list_remove_dll m l xs e ys :
  dll m l (xs ++ e :: ys) →
  ∃ m', list_remove m e = Ret (hd (tail_of l) ys, m') ∧ dll m' l (xs ++ ys)
        ∧ same_outside (nodes l (xs ++ ys)) m m'.
Proof.
  intros H. destruct (cons_snoc (head_of l) xs) as (P & p & E).
  assert (∃ q Q, ys ++ [tail_of l] = q :: Q ∧ q = hd (tail_of l) ys)
    as (q & Q & E' & ->) by (destruct ys; cbn; eauto).
  assert (nodes l (xs ++ ys) = P ++ p :: hd (tail_of l) ys :: Q) as En.
  { unfold nodes. by rewrite <- app_assoc, app_comm_cons, E, E', <- app_assoc. }
  unfold dll in H. rewrite <- app_assoc, app_comm_cons, E, <- app_assoc in H.
  cbn [app] in H. rewrite E' in H.
  destruct (list_remove_chain _ _ _ _ _ _ H) as (m' & Hi & Hc' & Hs).
  exists m'. unfold dll. fold (nodes l (xs ++ ys)). rewrite En.
  split_and!; try done.
  eapply same_outside_mono; [|exact Hs]. intros x. rewrite !elem_of_cons.
  rewrite elem_of_nil. elem.
Qed.

Lemma list_push_back_dll m l xs e :
  dll m l xs → node_ok e → Forall (disj e) (nodes l xs) →
  ∃ m', list_push_back m l e = Ret m' ∧ dll m' l (xs ++ [e])
        ∧ same_outside (nodes l (xs ++ [e])) m m'.
Proof.
  intros H He Hd. unfold list_push_back. rewrite (list_end_dll _ _ _ H), bind_Ret.
  rewrite <- (app_nil_r xs) in H, Hd. exact (list_insert_dll m l xs [] e H He Hd).
Qed.

Lemma list_push_front_dll m l xs e :
  dll m l xs → node_ok e → Forall (disj e) (nodes l xs) →
  ∃ m', list_push_front m l e = Ret m' ∧ dll m' l (e :: xs)
        ∧ same_outside (nodes l (e :: xs)) m m'.
Proof.
  intros H He Hd. unfold list_push_front.
  rewrite (list_begin_dll _ _ _ H), bind_Ret. exact (list_insert_dll m l [] xs e H He Hd).
Qed.

Lemma list_empty_dll m l xs :
  dll m l xs → list_empty m l = Ret (bool_decide (xs = [])).
Proof.
  intros H. unfold list_empty.
  rewrite (list_begin_dll _ _ _ H), bind_Ret, (list_end_dll _ _ _ H), bind_Ret.
  f_equal. destruct xs as [|x xs]; cbn; [by rewrite Z.eqb_refl|].
  destruct (Z.eqb_spec x (tail_of l)) as [->|]; [|done].
  pose proof (apart_NoDup _ (chain_apart _ _ H)) as Hnd.
  rewrite NoDup_cons in Hnd. destruct Hnd as [_ Hnd]. cbn in Hnd.
  rewrite NoDup_cons in Hnd. destruct Hnd as [[] _]. elem.
Qed.

Lemma list_init_dll m l :
  0 < l → l + 16 ≤ 4294967296 →
  ∃ m', list_init m l = Ret m' ∧ dll m' l [] ∧ same_outside (nodes l []) m m'.
Proof.
  intros Hl1 Hl2. unfold list_init.
  rewrite ASSERT_true by (unfold NULL; lia). eexists. split; [reflexivity|].
  assert (∀ x y, x ∈ [l; l + 8] → y ∈ [l; l + 8] → x = y ∨ disj x y) as Hap.
  { intros x y. unfold disj.
    set_unfold. naive_solver lia. }
  assert (u32 l = l) as Ul by (apply u32_id; unfold is_u32; lia).
  assert (u32 (l + 8) = l + 8) as Ut by (apply u32_id; unfold is_u32; lia).
  unfold head_of, tail_of in *. split.
  - assert (l + 8 ≠ l) by lia. split.
    + cbn. unfold head_of, tail_of. fields Hap; lia.
    + cbn. rewrite !Forall_cons, !Forall_nil. unfold disj, head_of, tail_of.
      split_and!; auto; lia.
    + cbn. rewrite !Forall_cons, Forall_nil. unfold node_ok, head_of, tail_of. lia.
    + intros h [= <-]. unfold head_of. fields Hap; auto; lia.
    + intros t [= <-]. unfold tail_of. fields Hap; auto; lia.
  - change (nodes l []) with [l; l + 8].
    eapply same_outside_trans; [|apply same_outside_set_next; elem].
    eapply same_outside_trans; [|apply same_outside_set_prev; elem].
    eapply same_outside_trans; [|apply same_outside_set_next; elem].
    apply same_outside_set_prev; elem.
Qed.

(** A chain only depends on the bytes of its elements. *)
Lemma chain_same m m' ns :
  (∀ n, n ∈ ns → same_bytes m m' n (n + 8)) → chain m ns → chain m' ns.
Proof.
  intros Hs [Hl Ha Ho Hh Ht].
  assert (∀ n, n ∈ ns → next m' n = next m n) as Hn.
  { intros n Hn. apply load32_same. intros x Hx. apply (Hs n Hn). lia. }
  assert (∀ n, n ∈ ns → prev m' n = prev m n) as Hp.
  { intros n Hin. apply load32_same. intros x Hx. apply (Hs n Hin). lia. }
  split; [|done|done| |].
  - eapply links_ext; [| |exact Hl].
    + intros x Hx. by apply Hn, elem_of_removelast.
    + intros x Hx. apply Hp. destruct ns; [done|by right].
  - intros h Eh. rewrite Hp; [auto|]. destruct ns; simplify_eq/=. by left.
  - intros t Et. rewrite Hn; [auto|]. by apply last_Some_elem_of.
Qed.

Lemma dll_same m m' l xs :
  (∀ n, n ∈ nodes l xs → same_bytes m m' n (n + 8)) → dll m l xs → dll m' l xs.
Proof. apply chain_same. Qed.
