(* ===== verification/KListSort.v ===== *)
(** * Sorting of lists (lib/list.c: list_sort)

    [list_sort] merges natural runs in place, over and over, until one run is left.  Here it
    is shown to be a sort: it returns, the list keeps its elements, they are in order, and
    equal ones keep their relative order.  The client's comparison is an interface, the
    class [StrictWeak]. *)
From Stdlib Require Import Sorted.
From S2P Require Import Prelude Mem KList.

(** What list.h asks of a [list_less_func]: a strict order whose ties are transitive. *)
Class StrictWeak (less : Z → Z → bool) : Prop := {
  less_asym a b : less a b = true → less b a = false;
  less_split a b c : less a b = true → less a c = true ∨ less c b = true;
}.

(** ** The algorithm on sequences *)
Section Runs.
Context (less : Z → Z → bool).

(** [follows a b]: [b] may come after [a]. *)
Definition follows (a b : Z) : Prop := less b a = false.

(** The rest of the run that starts with [x], and what comes after the run. *)
Fixpoint run (x : Z) (xs : list Z) : list Z * list Z :=
  match xs with
  | [] => ([], [])
  | y :: ys => if less y x then ([], y :: ys) else let '(r, t) := run y ys in (y :: r, t)
  end.
Fixpoint merge (xs : list Z) : list Z → list Z :=
  fix merge_ys (ys : list Z) : list Z :=
    match xs, ys with
    | [], _ => ys
    | _, [] => xs
    | a :: xs', b :: ys' => if less b a then b :: merge_ys ys' else a :: merge xs' ys
    end.
(** One pass over the list: the new sequence and the number of runs output. *)
Fixpoint pass (fuel : nat) (xs : list Z) : list Z * nat :=
  match fuel, xs with
  | S fuel, x :: xs =>
    let '(r1, t1) := run x xs in
    match t1 with
    | [] => (x :: r1, 1%nat)
    | y :: t1 =>
      let '(r2, t2) := run y t1 in
      let '(ys, c) := pass fuel t2 in
      (merge (x :: r1) (y :: r2) ++ ys, S c)
    end
  | _, _ => (xs, O)
  end.
(** The places where an element is less than the one before it. *)
Fixpoint descents (xs : list Z) : nat :=
  match xs with
  | x :: ((y :: _) as ys) => (if less y x then 1 else 0) + descents ys
  | _ => 0
  end.

Lemma run_app x xs : xs = (run x xs).1 ++ (run x xs).2.
Proof.
  revert x. induction xs as [|y ys IH]; intros x; [done|]. cbn. destruct (less y x); [done|].
  specialize (IH y). destruct (run y ys) as [r t]. cbn in *. by rewrite IH at 1.
Qed.
Lemma run_sorted x xs : Sorted follows (x :: (run x xs).1).
Proof.
  revert x. induction xs as [|y ys IH]; intros x; cbn [run]; [by repeat constructor|].
  destruct (less y x) eqn:E; [by repeat constructor|]. specialize (IH y).
  destruct (run y ys) as [r t]. cbn [fst] in *. constructor; [done|by constructor].
Qed.
(** After a run comes a descent. *)
Lemma run_descents x xs y t :
  (run x xs).2 = y :: t → descents (x :: xs) = S (descents (y :: t)).
Proof.
  revert x. induction xs as [|z zs IH]; intros x H; [done|]. cbn [run] in H. cbn [descents].
  destruct (less z x) eqn:E; [by injection H as -> ->|]. cbn [Nat.add].
  apply IH. by destruct (run z zs).
Qed.

Lemma merge_nil_l ys : merge [] ys = ys.
Proof. by destruct ys. Qed.
Lemma merge_nil_r xs : merge xs [] = xs.
Proof. by destruct xs. Qed.
Lemma merge_cons a xs b ys :
  merge (a :: xs) (b :: ys) = if less b a then b :: merge (a :: xs) ys else a :: merge xs (b :: ys).
Proof. reflexivity. Qed.

(** Induction along a merge. *)
Lemma merge_ind (P : list Z → list Z → Prop) :
  (∀ ys, P [] ys) → (∀ a xs, P (a :: xs) []) →
  (∀ a xs b ys, less b a = true → P (a :: xs) ys → P (a :: xs) (b :: ys)) →
  (∀ a xs b ys, less b a = false → P xs (b :: ys) → P (a :: xs) (b :: ys)) →
  ∀ xs ys, P xs ys.
Proof.
  intros H1 H2 H3 H4. induction xs as [|a xs IH]; intros ys; [done|].
  induction ys as [|b ys IHy]; [done|]. destruct (less b a) eqn:E; auto.
Qed.

Lemma merge_perm xs ys : merge xs ys ≡ₚ xs ++ ys.
Proof.
  apply (merge_ind (λ xs ys, merge xs ys ≡ₚ xs ++ ys)); clear xs ys;
    [intros ys; by rewrite merge_nil_l|intros a xs; by rewrite merge_nil_r, app_nil_r|..]; intros a xs b ys E IH; rewrite merge_cons, E, IH.
  - by rewrite Permutation_middle.
  - done.
Qed.

Lemma descents_app xs ys : (descents (xs ++ ys) ≤ descents xs + 1 + descents ys)%nat.
Proof.
  induction xs as [|x xs IH]; cbn [app descents]; [lia|].
  destruct xs as [|x' xs]; cbn [app descents] in *; [destruct ys; cbn [descents]; [lia|case_match; lia]|].
  lia.
Qed.
Lemma sorted_descents xs : Sorted follows xs → descents xs = O.
Proof.
  induction 1 as [|x xs _ IH Hh]; [done|]. destruct Hh as [|y ys Hy]; [done|].
  cbn [descents] in *. unfold follows in Hy. by rewrite Hy.
Qed.
Lemma descents_bound xs : (descents xs ≤ length xs)%nat.
Proof.
  induction xs as [|x xs IH]; cbn [descents length]; [lia|]. destruct xs; [lia|]. case_match; lia.
Qed.

Section Order.
Context `{!StrictWeak less}.

Lemma merge_sorted xs ys : Sorted follows xs → Sorted follows ys → Sorted follows (merge xs ys).
Proof.
  assert (Hhd : ∀ z xs ys, HdRel follows z xs → HdRel follows z ys → HdRel follows z (merge xs ys)).
  { intros z xs' ys' Hx Hy. destruct xs' as [|a xs'], ys' as [|b ys']; try done. rewrite merge_cons.
    inversion_clear Hx. inversion_clear Hy. destruct (less b a); by constructor. }
  apply (merge_ind (λ xs ys, Sorted follows xs → Sorted follows ys → Sorted follows (merge xs ys)));
    clear xs ys; [intros ys; by rewrite merge_nil_l|intros a xs; by rewrite merge_nil_r|..]; intros a xs b ys E IH Hx Hy; rewrite merge_cons, E.
  - inversion_clear Hy. constructor; [by apply IH|]. apply Hhd; [|done].
    constructor. by apply less_asym.
  - inversion_clear Hx. constructor; [by apply IH|]. apply Hhd; [done|by constructor].
Qed.

Lemma pass_spec fuel : ∀ xs ys c,
  (length xs < fuel)%nat → pass fuel xs = (ys, c) →
  ys ≡ₚ xs ∧ (descents ys ≤ c - 1)%nat ∧ (c ≤ descents xs / 2 + 1)%nat ∧ (c ≤ 1 → Sorted follows ys)%nat
  ∧ (c ≤ length xs)%nat.
Proof.
  induction fuel as [|fuel IH]; intros xs ys c Hf H; [lia|]. destruct xs as [|x xs]; cbn [pass] in H.
  { injection H as <- <-. split_and!; [done|cbn; lia|cbn; lia|by constructor|cbn; lia]. }
  pose proof (run_app x xs) as E1. pose proof (run_sorted x xs) as S1. pose proof (run_descents x xs) as D1.
  destruct (run x xs) as [r1 t1]. cbn [fst snd] in *. destruct t1 as [|y t1].
  { injection H as <- <-. rewrite app_nil_r in E1. subst xs.
    split_and!; [done|by rewrite sorted_descents|lia|done|cbn; lia]. }
  specialize (D1 _ _ eq_refl).
  pose proof (run_app y t1) as E2. pose proof (run_sorted y t1) as S2. pose proof (run_descents y t1) as D2.
  destruct (run y t1) as [r2 t2]. cbn [fst snd] in *. destruct (pass fuel t2) as [zs c'] eqn:Ep.
  apply pair_equal_spec in H as [<- <-]. subst xs t1.
  cbn [length] in Hf. rewrite !length_app in Hf. cbn [length] in Hf. rewrite length_app in Hf.
  destruct (IH t2 zs c' ltac:(lia) Ep) as (Hp & Hd & Hc & Hs & Hl).
  pose proof (merge_sorted _ _ S1 S2) as Sm. split_and!.
  - transitivity (((x :: r1) ++ (y :: r2)) ++ t2); [apply Permutation_app; [exact (merge_perm (x :: r1) (y :: r2))|done]|].
    by rewrite <- app_assoc.
  - pose proof (descents_app (merge (x :: r1) (y :: r2)) zs). rewrite (sorted_descents _ Sm) in *.
    destruct zs as [|z zs]; [rewrite app_nil_r, (sorted_descents _ Sm); lia|].
    assert (c' ≠ 0)%nat; [|lia]. intros ->. destruct fuel; [lia|].
    destruct t2; [|cbn in Ep; repeat case_match; simplify_eq].
    cbn in Ep. by simplify_eq.
  - rewrite D1. destruct t2 as [|z t2].
    + assert (c' = O) as -> by (destruct fuel; [lia|by injection Ep as <- <-]). lia.
    + rewrite (D2 _ _ eq_refl). replace (S (S (descents (z :: t2)))) with (descents (z :: t2) + 1 * 2)%nat by lia.
      rewrite Nat.div_add by lia. lia.
  - intros Hc1. assert (c' = O) as -> by lia.
    assert (zs = []) as ->; [|by rewrite app_nil_r].
    destruct fuel; [lia|]. destruct t2; [by injection Ep as <-|].
    cbn in Ep. repeat case_match; simplify_eq.
  - cbn [length]. rewrite !length_app. cbn [length]. rewrite length_app. lia.
Qed.
(** *** Ties *)
Definition tied (x y : Z) : bool := negb (less x y) && negb (less y x).

Lemma sorted_all a xs : Sorted follows (a :: xs) → Forall (follows a) xs.
Proof.
  intros H. apply Sorted_StronglySorted in H; [by inversion_clear H|].
  intros x y z Hxy Hyz. unfold follows in *. apply not_true_iff_false. intros Hzx.
  destruct (less_split z x y Hzx); congruence.
Qed.
(** An element that goes before a sorted list has no tie with what is tied to it there. *)
Lemma filter_tied_nil x b a xs :
  less b a = true → tied x b = true → Sorted follows (a :: xs) → List.filter (tied x) (a :: xs) = [].
Proof.
  intros Hba Hb Hs. apply sorted_all in Hs.
  assert (Hall : Forall (λ z, tied x z = false) (a :: xs)).
  { apply Forall_cons. unfold tied in *. apply andb_true_iff in Hb as [Hb1%negb_true_iff Hb2%negb_true_iff].
    assert (Hno : ∀ z, less b z = true → negb (less x z) && negb (less z x) = false).
    { intros z Hz. destruct (less_split b z x Hz) as [Hc|Hc]; [congruence|]. by rewrite Hc. }
    split; [by apply Hno|]. eapply Forall_impl; [exact Hs|]. intros z Hz. apply Hno. unfold follows in Hz.
    destruct (less_split b a z Hba); [done|congruence]. }
  clear Hs. induction Hall as [|z zs Hz _ IH]; [done|]. cbn. by rewrite Hz.
Qed.

Lemma merge_stable x xs ys :
  Sorted follows xs → Sorted follows ys →
  List.filter (tied x) (merge xs ys) = List.filter (tied x) xs ++ List.filter (tied x) ys.
Proof.
  apply (merge_ind (λ xs ys, Sorted follows xs → Sorted follows ys →
    List.filter (tied x) (merge xs ys) = List.filter (tied x) xs ++ List.filter (tied x) ys)); clear xs ys;
    [intros ys; by rewrite merge_nil_l|intros a xs; by rewrite merge_nil_r, app_nil_r|..];
    intros a xs b ys E IH Hx Hy; rewrite merge_cons, E.
  - assert (Hy' : Sorted follows ys) by by inversion_clear Hy. specialize (IH Hx Hy').
    change (List.filter (tied x) (b :: ys))
      with (if tied x b then b :: List.filter (tied x) ys else List.filter (tied x) ys).
    change (List.filter (tied x) (b :: merge (a :: xs) ys))
      with (if tied x b then b :: List.filter (tied x) (merge (a :: xs) ys) else List.filter (tied x) (merge (a :: xs) ys)).
    rewrite IH. destruct (tied x b) eqn:Et; [|done]. by rewrite (filter_tied_nil x b).
  - assert (Hx' : Sorted follows xs) by by inversion_clear Hx. specialize (IH Hx' Hy).
    cbn [List.filter] in IH |- *. rewrite IH. by destruct (tied x a).
Qed.

Lemma pass_stable x fuel : ∀ xs, List.filter (tied x) (pass fuel xs).1 = List.filter (tied x) xs.
Proof.
  induction fuel as [|fuel IH]; intros xs; [done|]. destruct xs as [|a xs]; [done|]. cbn [pass].
  pose proof (run_app a xs) as E1. pose proof (run_sorted a xs) as S1.
  destruct (run a xs) as [r1 t1]. cbn [fst snd] in *. destruct t1 as [|b t1]; [by rewrite E1, app_nil_r|].
  pose proof (run_app b t1) as E2. pose proof (run_sorted b t1) as S2.
  destruct (run b t1) as [r2 t2]. cbn [fst snd] in *. specialize (IH t2).
  destruct (pass fuel t2) as [zs c]. cbn [fst] in *.
  rewrite List.filter_app, (merge_stable x (a :: r1) (b :: r2) S1 S2), IH, <- !List.filter_app.
  f_equal. by rewrite E1, E2, <- app_assoc.
Qed.
End Order.
End Runs.

(** ** The algorithm on memory *)
Abbreviation first l ys := (hd (tail_of l) ys).

Lemma dll_NoDup m l xs : dll m l xs → NoDup (xs ++ [tail_of l]).
Proof. intros H. pose proof (apart_NoDup _ (chain_apart _ _ H)) as Hn. by inversion_clear Hn. Qed.

Lemma list_prev_first m l xs ys :
  dll m l (xs ++ ys) → list_prev m (first l ys) = Ret (default (head_of l) (last xs)).
Proof.
  intros H. destruct (dll_split _ _ _ _ H) as (P & p & b & Q & E & E' & <- & Hc).
  rewrite (list_prev_chain _ _ _ _ _ Hc). f_equal.
  assert (last (head_of l :: xs) = Some p) as E2 by (by rewrite E, last_snoc).
  rewrite last_cons in E2. by destruct (last xs); simplify_eq/=.
Qed.

(** The first element of the rest of a list is not among those before it. *)
Lemma first_fresh m l P x Q R :
  dll m l (P ++ x :: Q ++ R) → (x =? first l R) = false.
Proof.
  intros H%dll_NoDup. apply Z.eqb_neq. intros ->.
  rewrite <- app_assoc in H. apply NoDup_app in H as (_ & _ & H). cbn in H. apply NoDup_cons in H as [H _].
  apply H. rewrite !elem_of_app, list_elem_of_singleton. destruct R; cbn; [by right|]. left. right. left.
Qed.

(** [list_splice] of one element to a place before it is removal and insertion. *)
Lemma list_splice_one m l P A b R :
  A ≠ [] → dll m l (P ++ A ++ b :: R) →
  ∃ m', list_splice m (first l A) b (first l R) = Ret m' ∧ dll m' l (P ++ b :: A ++ R)
    ∧ same_outside (nodes l (P ++ A ++ b :: R)) m m'.
Proof.
  intros HA H. destruct A as [|a A]; [done|]. cbn [hd].
  assert (H1 : dll m l ((P ++ a :: A) ++ b :: R)) by by rewrite <- app_assoc.
  destruct (list_remove_dll _ _ _ _ _ H1) as (m1 & Er & D1 & S1).
  assert (Hb : node_ok b).
  { pose proof (chain_ok _ _ H1) as Ho. rewrite Forall_forall in Ho. apply Ho. right.
    rewrite !elem_of_app. left. right. left. }
  assert (Hd : Forall (disj b) (nodes l (P ++ a :: A ++ R))).
  { apply Forall_forall. intros z Hz. pose proof (chain_apart _ _ H1) as Hap.
    pose proof (apart_NoDup _ Hap) as Hn.
    assert (Hp : head_of l :: ((P ++ a :: A) ++ b :: R) ++ [tail_of l] ≡ₚ b :: nodes l (P ++ a :: A ++ R)).
    { unfold nodes. rewrite <- !app_assoc. cbn. rewrite <- !app_assoc. solve_Permutation. }
    rewrite Hp in Hn. apply NoDup_cons in Hn as [Hn _].
    destruct (apart_inv _ b z Hap) as [->|]; [rewrite Hp; left|rewrite Hp; by right|done|done]. }
  rewrite <- app_assoc in D1. cbn [app] in D1.
  destruct (list_insert_dll m1 l P (a :: A ++ R) b D1 Hb Hd) as (m2 & Ei & D2 & S2).
  exists m2. split_and!; [|done|].
  - unfold list_remove in Er. destruct (is_interior m b) eqn:Eb; [|done]. cbn [ASSERT mbind res_bind] in Er.
    injection Er as _ Em1.
    unfold list_splice. destruct (dll_split _ _ P (a :: A ++ b :: R) H) as (P' & p & a' & Q & E & E' & -> & Hc).
    cbn [hd] in Hc. rewrite (chain_not_head _ _ _ _ _ Hc). cbn [ASSERT mbind res_bind].
    rewrite (first_fresh m l (P ++ a :: A) b [] R H1).
    assert (H2 : dll m l ((P ++ a :: A ++ [b]) ++ R)).
    { rewrite <- app_assoc. cbn. by rewrite <- app_assoc. }
    assert (list_prev m (first l R) = Ret b) as ->.
    { rewrite (list_prev_first _ _ _ _ H2). by rewrite (app_comm_cons A), app_assoc, last_snoc. }
    cbn [mbind res_bind]. rewrite Eb. cbn [ASSERT mbind res_bind].
    cbv zeta. rewrite Em1. unfold list_insert in Ei. cbn [hd] in Ei.
    destruct (is_interior m1 a || is_tail m1 a); [|done]. cbn [ASSERT mbind res_bind] in Ei.
    destruct (negb (b =? NULL)); [|done]. cbn [ASSERT mbind res_bind] in Ei. by injection Ei as <-.
  - eapply same_outside_trans; eapply same_outside_mono; [|exact S1| |exact S2].
    + intros z. unfold nodes. repeat (rewrite elem_of_cons || rewrite elem_of_app). tauto.
    + intros z. unfold nodes. repeat (rewrite elem_of_cons || rewrite elem_of_app). tauto.
Qed.

Lemma first_not_null m l P ys : dll m l (P ++ ys) → negb (first l ys =? NULL) = true.
Proof.
  intros H. pose proof (chain_ok _ _ H) as Ho. rewrite Forall_forall in Ho.
  destruct (Ho (first l ys)) as [? _]; [|unfold NULL; lia].
  right. rewrite !elem_of_app, list_elem_of_singleton. destruct ys; cbn; [by right|]. left. right. left.
Qed.

(** What is next to an element. *)
Lemma next_in m l P a ys : dll m l (P ++ a :: ys) → list_next m a = Ret (first l ys).
Proof. apply list_next_dll. Qed.
Lemma prev_in m l P a ys : dll m l (P ++ a :: ys) → list_prev m (first l ys) = Ret a.
Proof.
  intros H. replace (P ++ a :: ys) with ((P ++ [a]) ++ ys) in H by by rewrite <- app_assoc.
  rewrite (list_prev_first _ _ _ _ H). by rewrite last_snoc.
Qed.
Lemma dll_snoc m l P a ys : dll m l (P ++ a :: ys) ↔ dll m l ((P ++ [a]) ++ ys).
Proof. by rewrite <- app_assoc. Qed.

Section Memory.
Context (less : Z → Z → bool) `{!StrictWeak less}.
Implicit Types (m : mem) (l : Z).

Lemma is_sorted_loop_dll m l C A : ∀ fuel P a,
  dll m l (P ++ a :: A ++ C) → Sorted (follows less) (a :: A) → (length A < fuel)%nat →
  is_sorted_loop less fuel m a (first l C) = Ret true.
Proof using.
  induction A as [|x A IH]; intros fuel P a H Hs Hf; (destruct fuel as [|fuel]; [lia|]);
    cbn [is_sorted_loop app length] in *; rewrite (next_in _ _ _ _ _ H); cbn [mbind res_bind hd].
  - by rewrite Z.eqb_refl.
  - pose proof (prev_in _ _ _ _ _ H) as Hp. cbn [hd] in Hp. apply dll_snoc in H.
    rewrite (first_fresh _ _ _ _ _ _ H), Hp. cbn [mbind res_bind].
    inversion_clear Hs as [|? ? Hs' Hh]. inversion_clear Hh as [|? ? Hx]. unfold follows in Hx. rewrite Hx.
    eapply IH; [exact H|done|lia].
Qed.
Lemma is_sorted_dll m l P A C fuel :
  dll m l (P ++ A ++ C) → Sorted (follows less) A → (length A < fuel)%nat →
  is_sorted less fuel m (first l (A ++ C)) (first l C) = Ret true.
Proof using.
  intros H Hs Hf. unfold is_sorted. destruct A as [|a A]; [by rewrite Z.eqb_refl|]. cbn [app hd].
  rewrite (first_fresh _ _ _ _ _ _ H). cbn [length] in Hf. eapply is_sorted_loop_dll; [exact H|done|lia].
Qed.

Lemma find_end_loop_dll m l xs : ∀ fuel P a,
  dll m l (P ++ a :: xs) → (length xs < fuel)%nat →
  find_end_of_run_loop less fuel m a (tail_of l) = Ret (first l (run less a xs).2).
Proof using.
  induction xs as [|x xs IH]; intros fuel P a H Hf; (destruct fuel as [|fuel]; [lia|]);
    cbn [find_end_of_run_loop run length] in *; rewrite (next_in _ _ _ _ _ H); cbn [mbind res_bind hd].
  - by rewrite Z.eqb_refl.
  - pose proof (prev_in _ _ _ _ _ H) as Hp. cbn [hd] in Hp. apply dll_snoc in H.
    pose proof (first_fresh m l (P ++ [a]) x xs []) as Hx. rewrite app_nil_r in Hx. cbn [hd] in Hx.
    rewrite (Hx H), Hp. cbn [mbind res_bind]. destruct (less x a); [done|].
    rewrite (IH fuel (P ++ [a]) x H) by lia. by destruct (run less x xs).
Qed.
Lemma find_end_dll m l P a xs fuel :
  dll m l (P ++ a :: xs) → (length xs < fuel)%nat →
  find_end_of_run less fuel m a (tail_of l) = Ret (first l (run less a xs).2).
Proof using.
  intros H Hf. unfold find_end_of_run.
  pose proof (first_not_null _ _ _ _ H) as Ha. cbn [hd] in Ha. rewrite Ha.
  pose proof (first_not_null m l (P ++ a :: xs) []) as Hb. rewrite app_nil_r in Hb. cbn [hd] in Hb. rewrite (Hb H).
  pose proof (first_fresh m l P a xs []) as Hx. rewrite app_nil_r in Hx. cbn [hd] in Hx. rewrite (Hx H).
  cbn [negb ASSERT mbind res_bind]. by eapply find_end_loop_dll.
Qed.

Lemma nodes_perm l xs ys z : xs ≡ₚ ys → z ∈ nodes l xs → z ∈ nodes l ys.
Proof using. intros H. unfold nodes. rewrite !elem_of_cons, !elem_of_app. by rewrite H. Qed.

Lemma inplace_merge_loop_dll l C : ∀ fuel m P A B,
  dll m l (P ++ A ++ B ++ C) → (length A + length B < fuel)%nat →
  ∃ m', inplace_merge_loop less fuel m (first l (A ++ B ++ C)) (first l (B ++ C)) (first l C) = Ret m'
    ∧ dll m' l (P ++ merge less A B ++ C) ∧ same_outside (nodes l (P ++ A ++ B ++ C)) m m'.
Proof using.
  induction fuel as [|fuel IH]; intros m P A B H Hf; [lia|]. cbn [inplace_merge_loop].
  destruct A as [|a A].
  { rewrite Z.eqb_refl. cbn [negb andb]. exists m. rewrite merge_nil_l. split_and!; [done|done|apply same_outside_refl]. }
  destruct B as [|b B].
  { cbn [app]. rewrite Z.eqb_refl. rewrite andb_false_r. exists m. rewrite merge_nil_r.
    split_and!; [done|done|apply same_outside_refl]. }
  cbn [app hd length] in *.
  rewrite (first_fresh m l P a A (b :: B ++ C) H : (a =? b) = false).
  assert (H' : dll m l ((P ++ a :: A) ++ b :: B ++ C)) by by rewrite <- app_assoc.
  rewrite (first_fresh m l (P ++ a :: A) b B C H'). cbn [negb andb].
  rewrite merge_cons. destruct (less b a); cbn [negb].
  - rewrite (next_in _ _ _ _ _ H'). cbn [mbind res_bind]. rewrite (prev_in _ _ _ _ _ H'). cbn [mbind res_bind].
    destruct (list_splice_one m l P (a :: A) b (B ++ C) ltac:(done) H) as (m1 & E & D1 & S1). cbn [hd] in E.
    rewrite E. cbn [mbind res_bind]. apply dll_snoc in D1.
    destruct (IH m1 (P ++ [b]) (a :: A) B D1) as (m2 & E2 & D2 & S2); [cbn [length]; lia|].
    cbn [app hd] in E2. exists m2. split_and!; [exact E2|by rewrite <- app_assoc in D2|].
    eapply same_outside_trans; [exact S1|]. eapply same_outside_mono; [|exact S2].
    intros z. apply nodes_perm. rewrite <- app_assoc. cbn [app].
    apply Permutation_app_head, (Permutation_middle (a :: A) (B ++ C) b).
  - rewrite (next_in _ _ _ _ _ H). cbn [mbind res_bind].
    assert (H2 : dll m l ((P ++ [a]) ++ A ++ (b :: B) ++ C)) by by rewrite <- app_assoc.
    destruct (IH m (P ++ [a]) A (b :: B) H2) as (m2 & E2 & D2 & S2); [cbn [length]; lia|].
    exists m2. split_and!; [exact E2|by rewrite <- app_assoc in D2|]. by rewrite <- app_assoc in S2.
Qed.
Lemma inplace_merge_dll m l P A B C fuel :
  dll m l (P ++ A ++ B ++ C) → Sorted (follows less) A → Sorted (follows less) B →
  (length A + length B < fuel)%nat →
  ∃ m', inplace_merge less fuel m (first l (A ++ B ++ C)) (first l (B ++ C)) (first l C) = Ret m'
    ∧ dll m' l (P ++ merge less A B ++ C) ∧ same_outside (nodes l (P ++ A ++ B ++ C)) m m'.
Proof using.
  intros H Ha Hb Hf. unfold inplace_merge.
  assert (HB : dll m l ((P ++ A) ++ B ++ C)) by by rewrite <- app_assoc.
  assert (HC : dll m l (((P ++ A) ++ B) ++ C)) by by rewrite <- !app_assoc.
  rewrite (first_not_null _ _ _ _ H), (first_not_null _ _ _ _ HB), (first_not_null _ _ _ _ HC).
  cbn [ASSERT mbind res_bind]. rewrite (is_sorted_dll _ _ _ _ _ _ H Ha) by lia. cbn [ASSERT mbind res_bind].
  rewrite (is_sorted_dll _ _ _ _ _ _ HB Hb) by lia. cbn [ASSERT mbind res_bind].
  by apply inplace_merge_loop_dll.
Qed.

(** *** Passes *)
(** A 32-bit memory holds fewer than 2^29 elements. *)
Lemma nodes_bound ns : apart ns → Forall node_ok ns → Z.of_nat (length ns) ≤ 536870912.
Proof using.
  intros Ha Ho.
  assert (Hn : NoDup ((λ n, n / 8) <$> ns)).
  { clear Ho. induction ns as [|n ns IH]; [constructor|]. cbn. destruct Ha as [Hd Ha].
    constructor; [|by apply IH]. intros (x & E & Hx)%list_elem_of_fmap.
    rewrite Forall_forall in Hd. specialize (Hd x Hx). unfold disj in Hd.
    Z.to_euclidean_division_equations. lia. }
  assert (Hi : (λ n, n / 8) <$> ns ⊆ seqZ 0 536870912).
  { intros z (x & -> & Hx)%list_elem_of_fmap. rewrite Forall_forall in Ho. specialize (Ho x Hx).
    unfold node_ok in Ho. apply elem_of_seqZ. Z.to_euclidean_division_equations. lia. }
  apply NoDup_submseteq in Hi; [|done]. apply submseteq_length in Hi.
  rewrite length_fmap, length_seqZ in Hi. lia.
Qed.
Lemma dll_bound m l xs : dll m l xs → Z.of_nat (length xs) < 4294967296.
Proof using.
  intros [_ Ha Ho _ _]. pose proof (nodes_bound _ Ha Ho) as H. cbn [length] in H. rewrite length_app in H. lia.
Qed.

Lemma list_sort_pass_dll l : ∀ fuel m P xs cnt,
  dll m l (P ++ xs) → (length xs < fuel)%nat → 0 ≤ cnt → cnt + Z.of_nat (length xs) < 4294967296 →
  ∃ m', list_sort_pass less fuel m l (first l xs) cnt = Ret (cnt + Z.of_nat (pass less fuel xs).2, m')
    ∧ dll m' l (P ++ (pass less fuel xs).1) ∧ same_outside (nodes l (P ++ xs)) m m'.
Proof using StrictWeak0.
  induction fuel as [|fuel IH]; intros m P xs cnt H Hf Hc Hb; [lia|]. cbn [list_sort_pass pass].
  rewrite (list_end_dll _ _ _ H). cbn [mbind res_bind]. destruct xs as [|x xs].
  { cbn [hd fst snd]. rewrite Z.eqb_refl, Z.add_0_r. exists m. split_and!; [done|done|apply same_outside_refl]. }
  cbn [hd length] in *. pose proof (first_fresh m l P x xs []) as Hx. rewrite app_nil_r in Hx. cbn [hd] in Hx.
  rewrite (Hx H), (u32_id (cnt + 1)) by (unfold is_u32; lia). clear Hx.
  rewrite (find_end_dll _ _ _ _ _ _ H) by lia. cbn [mbind res_bind].
  pose proof (run_app less x xs) as E1. pose proof (run_sorted less x xs) as S1.
  destruct (run less x xs) as [r1 t1]. cbn [fst snd] in *. subst xs.
  destruct t1 as [|y t1].
  { cbn [hd fst snd]. rewrite Z.eqb_refl. exists m. rewrite app_nil_r in *.
    split_and!; [do 2 f_equal; lia|done|apply same_outside_refl]. }
  cbn [hd]. assert (H1 : dll m l ((P ++ x :: r1) ++ y :: t1)) by by rewrite <- app_assoc.
  pose proof (first_fresh m l (P ++ x :: r1) y t1 []) as Hy. rewrite app_nil_r in Hy. cbn [hd] in Hy.
  rewrite (Hy H1). clear Hy. rewrite length_app in Hf, Hb. cbn [length] in Hf, Hb.
  rewrite (find_end_dll _ _ _ _ _ _ H1) by lia. cbn [mbind res_bind].
  pose proof (run_app less y t1) as E2. pose proof (run_sorted less y t1) as S2.
  destruct (run less y t1) as [r2 t2]. cbn [fst snd] in *. subst t1.
  rewrite length_app in Hf, Hb.
  destruct (inplace_merge_dll m l P (x :: r1) (y :: r2) t2 (S fuel)) as (m1 & Em & D1 & O1);
    [exact H|done|done|cbn [length]; lia|].
  cbn [app hd] in Em. rewrite Em. cbn [mbind res_bind]. rewrite app_assoc in D1.
  destruct (IH m1 (P ++ merge less (x :: r1) (y :: r2)) t2 (cnt + 1) D1) as (m2 & E & D2 & O2); [lia..|].
  rewrite E. destruct (pass less fuel t2) as [ys c]. cbn [fst snd] in *. exists m2. split_and!.
  - do 2 f_equal. lia.
  - by rewrite <- app_assoc in D2.
  - eapply same_outside_trans; [exact O1|]. eapply same_outside_mono; [|exact O2].
    intros z. apply nodes_perm. rewrite <- app_assoc. apply Permutation_app_head.
    transitivity (((x :: r1) ++ (y :: r2)) ++ t2); [|by rewrite <- app_assoc].
    apply Permutation_app; [exact (merge_perm less (x :: r1) (y :: r2))|done].
Qed.

(** What one list is to another after sorting: the same elements, ties in the same order. *)
Definition reordered (xs ys : list Z) : Prop :=
  ys ≡ₚ xs ∧ ∀ x, List.filter (tied less x) ys = List.filter (tied less x) xs.

Lemma list_sort_loop_dll l pfuel : ∀ fuel m xs,
  dll m l xs → (length xs < pfuel)%nat → (descents less xs < fuel)%nat →
  ∃ m' ys, list_sort_loop less fuel pfuel m l = Ret m' ∧ dll m' l ys
    ∧ reordered xs ys ∧ Sorted (follows less) ys ∧ same_outside (nodes l xs) m m'.
Proof using StrictWeak0.
  induction fuel as [|fuel IH]; intros m xs H Hp Hf; [lia|]. cbn [list_sort_loop].
  rewrite (list_begin_dll _ _ _ H). cbn [mbind res_bind].
  pose proof (dll_bound _ _ _ H) as Hb.
  destruct (list_sort_pass_dll l pfuel m [] xs 0 H Hp ltac:(lia) ltac:(lia)) as (m1 & E & D1 & O1).
  rewrite E. cbn [mbind res_bind]. pose proof (pass_spec less pfuel xs) as Hs.
  pose proof (λ x, pass_stable less x pfuel xs) as Hst.
  destruct (pass less pfuel xs) as [ys c]. cbn [fst snd app] in *.
  destruct (Hs ys c Hp eq_refl) as (Hperm & Hd & Hc & Hsort & Hl). rewrite Z.add_0_l.
  destruct (Z.ltb_spec 1 (Z.of_nat c)).
  - assert (length ys = length xs) as El by by rewrite Hperm.
    destruct (IH m1 ys D1) as (m2 & zs & E2 & D2 & [P2 T2] & S2 & O2); [lia| |].
    { assert (descents less xs / 2 * 2 ≤ descents less xs)%nat by (rewrite Nat.mul_comm; apply Nat.Div0.mul_div_le).
      lia. }
    exists m2, zs. split_and!; [done|done| |done|].
    + split; [by rewrite P2|]. intros x. by rewrite T2.
    + eapply same_outside_trans; [exact O1|]. eapply same_outside_mono; [|exact O2].
      intros z. by apply nodes_perm.
  - exists m1, ys. split_and!; [done|done|done| |done]. apply Hsort. lia.
Qed.

(** C33: [list_sort] sorts: given a comparison that is a strict weak order it returns without a
    failed assertion, the list has the same elements in ascending order, elements that
    compare equal keep their relative order, and no byte outside the list's elements
    changes. *)
Theorem list_sort_correct l m xs fuel :
  dll m l xs → (length xs < fuel)%nat →
  ∃ m' ys, list_sort less fuel m l = Ret m' ∧ dll m' l ys
    ∧ ys ≡ₚ xs ∧ StronglySorted (λ a b, less b a = false) ys
    ∧ (∀ x, List.filter (tied less x) ys = List.filter (tied less x) xs)
    ∧ same_outside (nodes l xs) m m'.
Proof using StrictWeak0.
  intros H Hf. unfold list_sort. rewrite (dll_not_null _ _ _ H). cbn [negb ASSERT mbind res_bind].
  pose proof (descents_bound less xs).
  destruct (list_sort_loop_dll l fuel fuel m xs H Hf ltac:(lia)) as (m1 & ys & E & D & [P T] & S & O).
  rewrite E. cbn [mbind res_bind]. rewrite (list_begin_dll _ _ _ D), (list_end_dll _ _ _ D). cbn [mbind res_bind].
  pose proof (is_sorted_dll m1 l [] ys [] fuel) as Hi. rewrite app_nil_r in Hi. cbn [hd] in Hi.
  rewrite Hi; [|done|done|by rewrite P]. cbn [ASSERT mbind res_bind].
  exists m1, ys. split_and!; [done|done|done| |done|done].
  apply Sorted_StronglySorted; [|done]. intros a b c Hab Hbc. apply not_true_iff_false. intros Hca.
  destruct (less_split c a b Hca); congruence.
Qed.

(** *** Insertion in order *)
Lemma insert_ordered_loop_dll m l e : ∀ fuel P xs,
  dll m l (P ++ xs) → (length xs < fuel)%nat →
  ∃ A B, insert_ordered_loop less fuel m l e (first l xs) = Ret (first l B) ∧ xs = A ++ B
    ∧ Forall (λ a, less e a = false) A ∧ (∀ b, head B = Some b → less e b = true).
Proof using.
  induction fuel as [|fuel IH]; intros P xs H Hf; [lia|]. cbn [insert_ordered_loop].
  rewrite (list_end_dll _ _ _ H). cbn [mbind res_bind]. destruct xs as [|x xs].
  { cbn [hd]. rewrite Z.eqb_refl. by exists [], []. }
  cbn [hd length] in *. pose proof (first_fresh m l P x xs []) as Hx. rewrite app_nil_r in Hx. cbn [hd] in Hx.
  rewrite (Hx H). destruct (less e x) eqn:E.
  { exists [], (x :: xs). split_and!; [done|done|done|]. by intros b [= <-]. }
  rewrite (next_in _ _ _ _ _ H). cbn [mbind res_bind]. apply dll_snoc in H.
  destruct (IH (P ++ [x]) xs H ltac:(lia)) as (A & B & Ei & -> & HA & HB).
  exists (x :: A), B. split_and!; [done|done|by constructor|done].
Qed.

(** [list_insert_ordered] keeps a sorted list sorted; the new element comes after those it is
    not less than. *)
Theorem list_insert_ordered_correct l m xs e fuel :
  dll m l xs → node_ok e → Forall (disj e) (nodes l xs) → Sorted (follows less) xs → (length xs < fuel)%nat →
  ∃ m' A B, list_insert_ordered less fuel m l e = Ret m' ∧ xs = A ++ B ∧ dll m' l (A ++ e :: B)
    ∧ Forall (λ a, less e a = false) A ∧ Sorted (follows less) (A ++ e :: B)
    ∧ same_outside (nodes l (A ++ e :: B)) m m'.
Proof using StrictWeak0.
  intros H He Hd Hs Hf. unfold list_insert_ordered. rewrite (dll_not_null _ _ _ H).
  assert (negb (e =? NULL) = true) as -> by (unfold node_ok, NULL in *; lia).
  cbn [negb ASSERT mbind res_bind]. rewrite (list_begin_dll _ _ _ H). cbn [mbind res_bind].
  destruct (insert_ordered_loop_dll m l e fuel [] xs H Hf) as (A & B & -> & -> & HA & HB). cbn [mbind res_bind].
  destruct (list_insert_dll m l A B e H He Hd) as (m' & -> & D & O).
  exists m', A, B. split_and!; try done. clear -Hs HA HB StrictWeak0.
  induction A as [|a A IH]; cbn in *.
  - constructor; [done|]. destruct B as [|b B]; constructor. by apply less_asym, HB.
  - inversion_clear Hs as [|? ? Hs' Hh]. inversion_clear HA as [|? ? Ha HA'].
    constructor; [by apply IH|]. destruct A; cbn in *; constructor; [done|by inversion_clear Hh].
Qed.
End Memory.

(** ** An example: elements ordered by a key *)
#[export] Instance by_key (key : Z → Z) : StrictWeak (λ a b, key a <? key b).
Proof. split; intros *; rewrite ?Z.ltb_lt, ?Z.ltb_ge; lia. Qed.

Lemma three_elements : ∃ m, dll m 1000 [2000; 2040; 2020].
Proof.
  destruct (list_init_dll ∅ 1000 ltac:(lia) ltac:(lia)) as (m0 & _ & D0 & _).
  assert (Hok : ∀ e, 2000 ≤ e < 3000 → node_ok e) by (intros e He; unfold node_ok; lia).
  destruct (list_push_back_dll m0 1000 [] 2000 D0) as (m1 & _ & D1 & _); [apply Hok; lia| |].
  { unfold nodes, head_of, tail_of, disj. repeat (apply Forall_cons; split; [lia|]). by apply Forall_nil. }
  destruct (list_push_back_dll m1 1000 _ 2040 D1) as (m2 & _ & D2 & _); [apply Hok; lia| |].
  { unfold nodes, head_of, tail_of, disj. cbn. repeat (apply Forall_cons; split; [lia|]). by apply Forall_nil. }
  destruct (list_push_back_dll m2 1000 _ 2020 D2) as (m3 & _ & D3 & _); [apply Hok; lia| |].
  { unfold nodes, head_of, tail_of, disj. cbn. repeat (apply Forall_cons; split; [lia|]). by apply Forall_nil. }
  by exists m3.
Qed.
Lemma list_sort_witness :
  ∃ m m' ys, dll m 1000 [2000; 2040; 2020] ∧ list_sort (λ a b, a <? b) 4 m 1000 = Ret m' ∧ dll m' 1000 ys
    ∧ ys ≡ₚ [2000; 2040; 2020] ∧ StronglySorted (λ a b, (b <? a) = false) ys.
Proof.
  destruct three_elements as [m D].
  destruct (list_sort_correct (λ a b, a <? b) (StrictWeak0 := by_key id) 1000 m [2000; 2040; 2020] 4 D ltac:(cbn; lia))
    as (m' & ys & E & D' & P & S & _).
  exists m, m', ys. by split_and!.
Defined.
