(* ===== verification/UserMalloc.v ===== *)
(** * The user-level heap (lib/user/stdlib.c)

    [malloc], [calloc], [realloc] and [free] of the user library: a first-fit
    allocator whose blocks lie back to back in the heap segment, each behind a
    16-byte [struct mm_header] (list element at offset 0, [isFree] at 8, [size]
    at 12) linked in address order in the list [MM_LIST].  The heap segment
    grows through the [sbrk] system call, which this file knows only by the
    interface [SbrkLaws]. *)
From S2P Require Import Prelude Mem KList.

(** ** The system call interface

    [K] is the state the kernel keeps for the process, [k_break] its current
    break.  [k_sbrk k m inc] gives the value the call returns (as a 32-bit
    word) with the process memory and the kernel state after it. *)
Class Sbrk (K : Type) := {
  k_break : K → Z;
  k_sbrk : K → mem → Z → Z * mem * K;
}.

Definition SBRK_ERROR : Z := u32 (-1).

(** What a growing [sbrk] promises: it fails and leaves break and memory alone,
    or returns the old break, moves the break by the increment, keeps every
    byte below the old break, and the new break is at most 2^31. *)
Class SbrkLaws (K : Type) `{Sbrk K} := {
  sbrk_fail : ∀ k m inc m' k',
    0 < inc < 2147483648 →
    k_sbrk k m inc = (SBRK_ERROR, m', k') → m' = m ∧ k_break k' = k_break k;
  sbrk_grow : ∀ k m inc r m' k',
    0 < inc < 2147483648 →
    k_sbrk k m inc = (r, m', k') → r ≠ SBRK_ERROR →
    r = k_break k ∧ k_break k' = k_break k + inc
    ∧ k_break k' ≤ 2147483648
    ∧ ∀ x, x < k_break k → load8 m' x = load8 m x;
}.

(** ** [struct mm_header] *)
Definition HEADER_SIZE : Z := 16.
Definition get_isFree (m : mem) (h : Z) : bool := negb (load8 m (h + 8) =? 0).
Definition set_isFree (m : mem) (h : Z) (b : bool) : mem :=
  store8 m (h + 8) (if b then 1 else 0).
Definition get_size (m : mem) (h : Z) : Z := load32 m (h + 12).
Definition set_size (m : mem) (h v : Z) : mem := store32 m (h + 12) v.

(** The library's state: the process memory, the kernel's state for the
    process, and the static [MM_LIST_INITIALIZED]. *)
Record ustate (K : Type) := UState {
  u_mem : mem;
  u_k : K;
  u_init : bool;
}.
Arguments UState {K} _ _ _.
Arguments u_mem {K} _.
Arguments u_k {K} _.
Arguments u_init {K} _.

Section Allocator.
Context {K : Type} `{Sbrk K}.
(** The address of the static list, and the fuel of the search loop. *)
Context (MM_LIST : Z) (fuel : nat).

Definition with_mem (s : ustate K) (m : mem) : ustate K :=
  UState m (u_k s) (u_init s).

Definition init_configs (s : ustate K) : res (ustate K) :=
  if negb (u_init s) then
    m ← list_init (u_mem s) MM_LIST;
    Ret (UState m (u_k s) true)
  else Ret s.

Fixpoint find_first_fit_loop (fuel : nat) (m : mem)
    (listElem listHead listTail size minimumSplitSize : Z) : res Z :=
  match fuel with
  | O => Stuck
  | S fuel =>
    if negb (listElem =? listHead) && negb (listElem =? listTail) then
      if get_isFree m listElem
         && ((get_size m listElem =? size)
             || (minimumSplitSize <=? get_size m listElem))
      then Ret listElem
      else le ← list_next m listElem;
           find_first_fit_loop fuel m le listHead listTail size minimumSplitSize
    else Ret NULL
  end.
Definition find_first_fit (m : mem) (listElem size : Z) : res Z :=
  if listElem =? NULL then Ret NULL else
  let minimumSplitSize := u32 (size + HEADER_SIZE) in
  listHead ← list_head MM_LIST;
  listTail ← list_tail MM_LIST;
  find_first_fit_loop fuel m listElem listHead listTail size minimumSplitSize.

(** The common end of [malloc]: zero the data block and return it. *)
Definition malloc_return (s : ustate K) (dataBlock size : Z) : res (Z * ustate K) :=
  '(_, m) ← memset (u_mem s) dataBlock 0 size;
  Ret (dataBlock, with_mem s m).

(** No block is large enough: extend the segment and append a block. *)
Definition malloc_extend (s : ustate K) (size : Z) : res (Z * ustate K) :=
  let '(newHeader, m, k) :=
    k_sbrk (u_k s) (u_mem s) (s32 (u32 (HEADER_SIZE + size))) in
  let s := UState m k (u_init s) in
  if newHeader =? SBRK_ERROR then Ret (NULL, s) else
  let m := set_size (u_mem s) newHeader size in
  let m := set_isFree m newHeader false in
  m ← list_push_back m MM_LIST newHeader;
  malloc_return (with_mem s m) (u32 (newHeader + HEADER_SIZE)) size.

(** Reuse the block [find_first_fit] chose, splitting it unless it is exactly
    of the requested size. *)
Definition malloc_reuse (s : ustate K) (listElem size : Z) : res (Z * ustate K) :=
  let header := listElem in
  let dataBlock := u32 (header + HEADER_SIZE) in
  if get_size (u_mem s) header =? size then
    malloc_return (with_mem s (set_isFree (u_mem s) header false)) dataBlock size
  else
    let newHeader := u32 (dataBlock + size) in
    let m := set_size (u_mem s) newHeader
               (u32 (get_size (u_mem s) header - size - HEADER_SIZE)) in
    let m := set_isFree m newHeader true in
    before ← list_next m listElem;
    m ← list_insert m before newHeader;
    let m := set_size m header size in
    let m := set_isFree m header false in
    malloc_return (with_mem s m) dataBlock size.

Definition malloc (s : ustate K) (size : Z) : res (Z * ustate K) :=
  s ← init_configs s;
  if size =? 0 then Ret (NULL, s) else
  listElem ← list_begin (u_mem s) MM_LIST;
  listElem ← find_first_fit (u_mem s) listElem size;
  if listElem =? NULL then malloc_extend s size
  else malloc_reuse s listElem size.

Definition calloc (s : ustate K) (number size : Z) : res (Z * ustate K) :=
  malloc s (u32 (number * size)).

Definition free (s : ustate K) (ptr : Z) : res (ustate K) :=
  s ← init_configs s;
  if ptr =? NULL then Ret s else
  let currentHeader := u32 (ptr - HEADER_SIZE) in
  let m := set_isFree (u_mem s) currentHeader true in
  prevListElem ← list_prev m currentHeader;
  nextListElem ← list_next m currentHeader;
  listHead ← list_head MM_LIST;
  '(m, currentHeader) ←
    (if negb (prevListElem =? listHead) then
       if get_isFree m prevListElem then
         let m := set_size m prevListElem
                    (u32 (get_size m prevListElem
                          + u32 (HEADER_SIZE + get_size m currentHeader))) in
         '(_, m) ← list_remove m currentHeader;
         Ret (m, prevListElem)
       else Ret (m, currentHeader)
     else Ret (m, currentHeader));
  listTail ← list_tail MM_LIST;
  m ← (if negb (nextListElem =? listTail) then
         if get_isFree m nextListElem then
           let m := set_size m currentHeader
                      (u32 (get_size m currentHeader
                            + u32 (HEADER_SIZE + get_size m nextListElem))) in
           '(_, m) ← list_remove m nextListElem;
           Ret m
         else Ret m
       else Ret m);
  Ret (with_mem s m).

Definition realloc (s : ustate K) (ptr size : Z) : res (Z * ustate K) :=
  s ← init_configs s;
  if size =? 0 then s ← free s ptr; Ret (NULL, s)
  else if ptr =? NULL then malloc s size
  else
    '(newDataBlock, s) ← malloc s size;
    if newDataBlock =? NULL then Ret (NULL, s) else
    let oldHeader := u32 (ptr - HEADER_SIZE) in
    let oldSize := get_size (u_mem s) oldHeader in
    let bytesToCopy := s32 (if oldSize <? size then oldSize else size) in
    '(_, m) ← memcpy (u_mem s) newDataBlock ptr (u32 bytesToCopy);
    s ← free (with_mem s m) ptr;
    Ret (newDataBlock, s).
End Allocator.

(** ** Blocks

    The heap as its client sees it: consecutive blocks, each a header followed
    by [b_size] bytes of data. *)
Record blk := Blk { b_addr : Z; b_size : Z; b_free : bool }.
Definition b_data (b : blk) : Z := b_addr b + 16.
Definition b_end (b : blk) : Z := b_addr b + 16 + b_size b.

(** The blocks [bs] cover the interval from [lo] to [hi] without gaps. *)
Fixpoint tiles (lo : Z) (bs : list blk) (hi : Z) : Prop :=
  match bs with
  | [] => lo = hi
  | b :: bs => b_addr b = lo ∧ 0 ≤ b_size b ∧ tiles (b_end b) bs hi
  end.

(** No two neighbours are both free. *)
Fixpoint coalesced (bs : list blk) : Prop :=
  match bs with
  | b :: ((b' :: _) as bs) => ¬ (b_free b ∧ b_free b') ∧ coalesced bs
  | _ => True
  end.

(** The header of [b] in memory says what [b] says. *)
Definition hdr (m : mem) (b : blk) : Prop :=
  get_isFree m (b_addr b) = b_free b ∧ get_size m (b_addr b) = b_size b.

(** The abstract allocator: first fit on the list of blocks. *)
Definition fits (size : Z) (b : blk) : bool :=
  b_free b && ((b_size b =? size) || (size + 16 <=? b_size b)).
Definition carve (size : Z) (b : blk) : list blk :=
  if b_size b =? size then [Blk (b_addr b) size false]
  else [Blk (b_addr b) size false;
        Blk (b_addr b + 16 + size) (b_size b - size - 16) true].
Fixpoint alloc_fit (size : Z) (bs : list blk) : option (Z * list blk) :=
  match bs with
  | [] => None
  | b :: bs =>
    if fits size b then Some (b_data b, carve size b ++ bs)
    else '(p, bs') ← alloc_fit size bs; Some (p, b :: bs')
  end.

Lemma alloc_fit_None size bs :
  alloc_fit size bs = None ↔ Forall (λ b, fits size b = false) bs.
Proof.
  induction bs as [|b bs IH]; cbn; [by split|].
  rewrite Forall_cons. destruct (fits size b).
  - split; [done|by intros []].
  - destruct (alloc_fit size bs) as [[]|]; cbn; naive_solver.
Qed.

Lemma alloc_fit_Some size bs p bs' :
  alloc_fit size bs = Some (p, bs') →
  ∃ pre b post, bs = pre ++ b :: post ∧ Forall (λ b, fits size b = false) pre
    ∧ fits size b = true ∧ p = b_data b ∧ bs' = pre ++ carve size b ++ post.
Proof.
  revert bs'. induction bs as [|b bs IH]; intros bs'; cbn; [done|].
  destruct (fits size b) eqn:E.
  - intros [= <- <-]. by exists [], b, bs.
  - destruct (alloc_fit size bs) as [[p' bs'']|]; cbn; [|done].
    intros [= -> <-].
    destruct (IH _ eq_refl) as (pre & b0 & post & -> & Hpre & Hf & -> & ->).
    exists (b :: pre), b0, post. split_and!; auto.
Qed.

Lemma tiles_app lo xs ys hi :
  tiles lo (xs ++ ys) hi ↔ ∃ mid, tiles lo xs mid ∧ tiles mid ys hi.
Proof.
  revert lo. induction xs as [|b xs IH]; intros lo; cbn.
  - naive_solver.
  - rewrite IH. naive_solver.
Qed.

Lemma tiles_le lo bs hi : tiles lo bs hi → lo ≤ hi.
Proof.
  revert lo. induction bs as [|b bs IH]; intros lo; cbn; [lia|].
  intros (<- & ? & H%IH). unfold b_end in H. lia.
Qed.

Lemma tiles_elem lo bs hi b :
  tiles lo bs hi → b ∈ bs → lo ≤ b_addr b ∧ 0 ≤ b_size b ∧ b_end b ≤ hi.
Proof.
  revert lo. induction bs as [|b' bs IH]; intros lo; cbn; [by intros _ ?%elem_of_nil|].
  intros (<- & ? & H) [->|Hb]%elem_of_cons.
  - apply tiles_le in H. lia.
  - specialize (IH _ H Hb). unfold b_end in *. lia.
Qed.

(** Two blocks of a tiling are the same block or do not overlap. *)
Lemma tiles_sep lo bs hi b b' :
  tiles lo bs hi → b ∈ bs → b' ∈ bs →
  b = b' ∨ b_end b ≤ b_addr b' ∨ b_end b' ≤ b_addr b.
Proof.
  revert lo. induction bs as [|c bs IH]; intros lo; cbn; [by intros _ ?%elem_of_nil|].
  intros (<- & ? & H) [->|Hb]%elem_of_cons [->|Hb']%elem_of_cons; auto.
  - right. left. apply (tiles_elem _ _ _ _ H Hb').
  - right. right. apply (tiles_elem _ _ _ _ H Hb).
  - eauto.
Qed.

Lemma coalesced_app xs ys :
  coalesced (xs ++ ys) ↔ coalesced xs ∧ coalesced ys ∧
    ∀ b b', last xs = Some b → head ys = Some b' → ¬ (b_free b ∧ b_free b').
Proof.
  induction xs as [|x xs IH]; cbn [app].
  - cbn. naive_solver.
  - destruct xs as [|x' xs]; cbn [app coalesced] in *.
    + destruct ys; cbn; naive_solver.
    + rewrite IH, last_cons_cons. naive_solver.
Qed.

Lemma hdr_same m m' b :
  same_bytes m m' (b_addr b + 8) (b_addr b + 16) → hdr m b → hdr m' b.
Proof.
  intros Hs [H1 H2]. split; unfold get_isFree, get_size in *.
  - rewrite Hs; [done|lia].
  - rewrite (load32_same m); [done|]. intros x Hx. apply Hs. lia.
Qed.

Lemma hdr_write m b (sz : Z) (fr : bool) :
  is_u32 sz → hdr (set_isFree (set_size m (b_addr b) sz) (b_addr b) fr)
                (Blk (b_addr b) sz fr).
Proof.
  intros Hsz. split; cbn; unfold get_isFree, get_size, set_isFree, set_size.
  - rewrite load8_store8_eq. by destruct fr.
  - rewrite (load32_same (store32 m (b_addr b + 12) sz)).
    + by rewrite load32_store32_eq, u32_id.
    + intros x Hx. apply load8_store8_ne. lia.
Qed.

Lemma hdr_set_isFree m b fr :
  hdr m b → hdr (set_isFree m (b_addr b) fr) (Blk (b_addr b) (b_size b) fr).
Proof.
  intros [_ H]. split; cbn; unfold get_isFree, get_size, set_isFree in *.
  - rewrite load8_store8_eq. by destruct fr.
  - rewrite <- H. apply load32_same. intros x Hx. apply load8_store8_ne. lia.
Qed.

Section Proofs.
Context {K : Type} `{SbrkLaws K} (MM_LIST heap_start : Z) (fuel : nat).
Implicit Types (s : ustate K) (bs : list blk) (b c : blk).

#[local] Abbreviation lnodes bs := (nodes MM_LIST (b_addr <$> bs)).

(** The invariant between library calls once [MM_LIST] is initialised: the list
    holds the headers in address order, the blocks tile the heap segment, every
    header is accurate, and free neighbours have been merged. *)
Record heap_inv (s : ustate K) (bs : list blk) : Prop := {
  hi_init : u_init s = true;
  hi_list : dll (u_mem s) MM_LIST (b_addr <$> bs);
  hi_tiles : tiles heap_start bs (k_break (u_k s));
  hi_hdrs : Forall (hdr (u_mem s)) bs;
  hi_coal : coalesced bs;
  hi_place : MM_LIST + 16 ≤ heap_start;
  hi_top : k_break (u_k s) ≤ 2147483648;
}.

(** Before the first call the list is not there and the segment is empty. *)
Definition user_heap s bs : Prop :=
  heap_inv s bs ∨
  (u_init s = false ∧ bs = [] ∧ k_break (u_k s) = heap_start
   ∧ heap_start ≤ 2147483648 ∧ 0 < MM_LIST ∧ MM_LIST + 16 ≤ heap_start).

(** *** Footprints *)

(** Bytes of a block behind its list element are outside every element. *)
Lemma block_outside bs hi b x :
  tiles heap_start bs hi → MM_LIST + 16 ≤ heap_start → b ∈ bs →
  b_addr b + 8 ≤ x < b_end b →
  Forall (λ n, x < n ∨ n + 8 ≤ x) (lnodes bs).
Proof.
  intros Ht Hp Hb Hx. apply Forall_forall. intros n.
  destruct (tiles_elem _ _ _ _ Ht Hb) as (Hlo & _ & _).
  unfold nodes, head_of, tail_of. rewrite elem_of_cons, elem_of_app, list_elem_of_singleton.
  intros [->|[Hn| ->]]; try lia.
  apply list_elem_of_fmap in Hn as (c & -> & Hc).
  destruct (tiles_sep _ _ _ _ _ Ht Hb Hc) as [->|[?|?]]; [lia|lia|].
  destruct (tiles_elem _ _ _ _ Ht Hc) as (_ & ? & _). unfold b_end in *. lia.
Qed.

(** Two memories that differ only inside [b], behind its list element. *)
Definition only_interior b (m m' : mem) : Prop :=
  ∀ x, ¬ (b_addr b + 8 ≤ x < b_end b) → load8 m' x = load8 m x.

Lemma only_interior_trans b m1 m2 m3 :
  only_interior b m1 m2 → only_interior b m2 m3 → only_interior b m1 m3.
Proof. intros H1 H2 x Hx. by rewrite H2, H1. Qed.

Lemma dll_interior bs hi b m m' :
  tiles heap_start bs hi → MM_LIST + 16 ≤ heap_start → b ∈ bs →
  only_interior b m m' →
  dll m MM_LIST (b_addr <$> bs) → dll m' MM_LIST (b_addr <$> bs).
Proof.
  intros Ht Hp Hb Ho. apply dll_same. intros n Hn x Hx. apply Ho. intros Hx'.
  pose proof (block_outside _ _ _ _ Ht Hp Hb Hx') as Hf.
  rewrite Forall_forall in Hf. specialize (Hf _ Hn). lia.
Qed.

Lemma same_interior bs hi b c m m' :
  tiles heap_start bs hi → b ∈ bs → c ∈ bs → c ≠ b → only_interior b m m' →
  same_bytes m m' (b_addr c) (b_end c).
Proof.
  intros Ht Hb Hc Hne Ho x Hx. apply Ho.
  destruct (tiles_sep _ _ _ _ _ Ht Hb Hc) as [->|[?|?]]; [done|lia|lia].
Qed.

Lemma same_listop bs hi c m m' :
  tiles heap_start bs hi → MM_LIST + 16 ≤ heap_start → c ∈ bs →
  same_outside (lnodes bs) m m' →
  same_bytes m m' (b_addr c + 8) (b_end c).
Proof. intros Ht Hp Hc Ho x Hx. apply Ho. by eapply block_outside. Qed.

(** The interior of a block that lies within another. *)
Lemma only_interior_mono b b' m m' :
  b_addr b ≤ b_addr b' → b_end b' ≤ b_end b →
  only_interior b' m m' → only_interior b m m'.
Proof. intros H1 H2 Ho x Hx. apply Ho. lia. Qed.

Lemma only_interior_set_isFree b m fr :
  0 ≤ b_size b → only_interior b m (set_isFree m (b_addr b) fr).
Proof. intros Hs x Hx. apply load8_store8_ne. unfold b_end in Hx. lia. Qed.

Lemma only_interior_set_size b m v :
  0 ≤ b_size b → only_interior b m (set_size m (b_addr b) v).
Proof. intros Hs x Hx. apply load8_store32_ne. unfold b_end in Hx. lia. Qed.

Lemma only_interior_fill b m v n :
  Z.of_nat n ≤ b_size b → only_interior b m (fill m (b_data b) v n).
Proof.
  intros Hn x Hx. rewrite load8_fill. unfold b_data, b_end in *.
  case_decide; [lia|done].
Qed.

Lemma hdr_fill m b v n : hdr m b → hdr (fill m (b_data b) v n) b.
Proof.
  apply hdr_same. intros x Hx. rewrite load8_fill. unfold b_data.
  case_decide; [lia|done].
Qed.

(** The lists of headers and of their addresses, split at a block. *)
Lemma lnodes_split bs pre b post :
  bs = pre ++ b :: post →
  b_addr <$> bs = (b_addr <$> pre) ++ b_addr b :: (b_addr <$> post).
Proof. intros ->. by rewrite fmap_app. Qed.

(** *** Initialisation and search *)
Lemma init_configs_spec s bs :
  user_heap s bs →
  ∃ s', init_configs MM_LIST s = Ret s' ∧ heap_inv s' bs ∧ u_k s' = u_k s
    ∧ (∀ x, x < MM_LIST ∨ MM_LIST + 16 ≤ x → load8 (u_mem s') x = load8 (u_mem s) x).
Proof.
  intros [Hi|(Hi & -> & Hb & Ht & Hm & Hp)]; unfold init_configs.
  - rewrite (hi_init _ _ Hi). cbn. eauto.
  - rewrite Hi. cbn [negb].
    destruct (list_init_dll (u_mem s) MM_LIST) as (m' & -> & Hd & Hs); [lia..|].
    rewrite bind_Ret. eexists. split; [done|]. cbn. split_and!; [|done|].
    + split; cbn; auto; lia.
    + intros x Hx. apply Hs. unfold nodes, head_of, tail_of.
      cbn. rewrite !Forall_cons, Forall_nil. lia.
Qed.

Lemma list_head_dll m l xs : dll m l xs → list_head l = Ret (head_of l).
Proof. intros Hd. unfold list_head. by rewrite (dll_not_null _ _ _ Hd). Qed.
Lemma list_tail_dll m l xs : dll m l xs → list_tail l = Ret (tail_of l).
Proof. intros Hd. unfold list_tail. by rewrite (dll_not_null _ _ _ Hd). Qed.

(** The address [find_first_fit] returns for the blocks [bs]. *)
Definition first_fit (size : Z) (bs : list blk) : Z :=
  match list_find (λ b, fits size b = true) bs with
  | Some (_, b) => b_addr b
  | None => NULL
  end.

Lemma find_first_fit_loop_spec n m pre bs hi size :
  dll m MM_LIST (b_addr <$> (pre ++ bs)) → Forall (hdr m) bs →
  tiles heap_start (pre ++ bs) hi → MM_LIST + 16 ≤ heap_start →
  (length bs < n)%nat →
  find_first_fit_loop n m (hd (tail_of MM_LIST) (b_addr <$> bs)) (head_of MM_LIST)
    (tail_of MM_LIST) size (size + 16) = Ret (first_fit size bs).
Proof.
  intros Hd Hh Ht Hp. revert pre bs Hd Hh Ht.
  induction n as [|n IH]; intros pre bs Hd Hh Ht Hn; [lia|].
  destruct bs as [|b bs]; cbn [fmap list_fmap hd find_first_fit_loop].
  - by rewrite Z.eqb_refl, andb_false_r.
  - destruct (tiles_elem _ _ _ b Ht) as (Hlo & _ & _); [elem|].
    unfold head_of, tail_of in *.
    destruct (Z.eqb_spec (b_addr b) MM_LIST); [lia|].
    destruct (Z.eqb_spec (b_addr b) (MM_LIST + 8)); [lia|]. cbn [negb andb].
    inversion Hh as [|? ? [Hf Hsz] Hh']; subst. rewrite Hf, Hsz.
    unfold first_fit. cbn [list_find]. fold (fits size b).
    destruct (fits size b) eqn:E.
    + by rewrite decide_True.
    + rewrite decide_False by done.
      rewrite fmap_app in Hd. cbn [fmap list_fmap] in Hd.
      rewrite (list_next_dll _ _ _ _ _ Hd), bind_Ret.
      unfold tail_of. rewrite (IH (pre ++ [b]) bs).
      * unfold first_fit. by destruct (list_find _ bs) as [[]|].
      * by rewrite <- app_assoc, fmap_app.
      * done.
      * by rewrite <- app_assoc.
      * cbn in Hn. lia.
Qed.

Lemma find_first_fit_spec s bs size :
  heap_inv s bs → 0 ≤ size → size + 16 < 4294967296 → (length bs < fuel)%nat →
  find_first_fit MM_LIST fuel (u_mem s) (hd (tail_of MM_LIST) (b_addr <$> bs)) size
  = Ret (first_fit size bs).
Proof.
  intros Hi Hs1 Hs2 Hf. unfold find_first_fit.
  assert (hd (tail_of MM_LIST) (b_addr <$> bs) =? NULL = false) as ->.
  { pose proof (chain_ok _ _ (hi_list _ _ Hi)) as Ho. rewrite Forall_forall in Ho.
    assert (node_ok (hd (tail_of MM_LIST) (b_addr <$> bs))) as [Hn _].
    { apply Ho. destruct bs; cbn; elem. }
    unfold NULL. lia. }
  rewrite (list_head_dll _ _ _ (hi_list _ _ Hi)), bind_Ret.
  rewrite (list_tail_dll _ _ _ (hi_list _ _ Hi)), bind_Ret.
  unfold HEADER_SIZE. rewrite u32_id by (unfold is_u32; lia).
  destruct Hi. by eapply (find_first_fit_loop_spec _ _ []).
Qed.

Lemma first_fit_alloc size bs :
  match alloc_fit size bs with
  | None => first_fit size bs = NULL
  | Some (p, bs') => ∃ pre b post, bs = pre ++ b :: post ∧ fits size b = true
      ∧ p = b_data b ∧ bs' = pre ++ carve size b ++ post
      ∧ first_fit size bs = b_addr b
  end.
Proof.
  unfold first_fit. destruct (alloc_fit size bs) as [[p bs']|] eqn:E.
  - apply alloc_fit_Some in E as (pre & b & post & -> & Hpre & Hf & -> & ->).
    exists pre, b, post. split_and!; auto.
    rewrite list_find_app_r; [cbn; by rewrite decide_True by done|].
    apply list_find_None. eapply Forall_impl; [exact Hpre|]. by intros ? ->.
  - apply alloc_fit_None in E.
    assert (list_find (λ b, fits size b = true) bs = None) as ->; [|done].
    apply list_find_None. eapply Forall_impl; [exact E|]. by intros ? ->.
Qed.

(** *** Effects of one step on the whole heap *)

(** List, tiling and headers of a heap ending at [hi]. *)
Record blocks_at (m : mem) (bs : list blk) (hi : Z) : Prop := {
  ba_list : dll m MM_LIST (b_addr <$> bs);
  ba_tiles : tiles heap_start bs hi;
  ba_hdrs : Forall (hdr m) bs;
}.

Lemma heap_inv_blocks s bs :
  heap_inv s bs → blocks_at (u_mem s) bs (k_break (u_k s)).
Proof. intros []. by split. Qed.

Lemma tiles_around lo pre b post hi :
  tiles lo (pre ++ b :: post) hi →
  (∀ c, c ∈ pre → b_end c ≤ b_addr b) ∧ (∀ c, c ∈ post → b_end b ≤ b_addr c)
  ∧ 0 ≤ b_size b ∧ lo ≤ b_addr b ∧ b_end b ≤ hi.
Proof.
  rewrite tiles_app. cbn. intros (mid & H1 & <- & H2 & H3). split_and!; try done.
  - intros c Hc. apply (tiles_elem _ _ _ _ H1 Hc).
  - intros c Hc. apply (tiles_elem _ _ _ _ H3 Hc).
  - by apply tiles_le in H1.
  - by apply tiles_le in H3.
Qed.

Lemma hdrs_around m m' pre b post hi :
  tiles heap_start (pre ++ b :: post) hi →
  Forall (hdr m) pre → Forall (hdr m) post →
  only_interior b m m' → Forall (hdr m') pre ∧ Forall (hdr m') post.
Proof.
  intros Ht Hp Hq Ho. destruct (tiles_around _ _ _ _ _ Ht) as (H1 & H2 & H3 & _ & _).
  rewrite Forall_forall in Hp, Hq. split; apply Forall_forall; intros c Hc.
  - apply (hdr_same m); [|auto]. intros x Hx. apply Ho. specialize (H1 c Hc).
    destruct (tiles_elem _ _ _ c Ht) as (_ & ? & _); [elem|]. unfold b_end in *. lia.
  - apply (hdr_same m); [|auto]. intros x Hx. apply Ho. specialize (H2 c Hc).
    unfold b_end in *. lia.
Qed.

Lemma hdrs_listop m m' bs hi :
  tiles heap_start bs hi → MM_LIST + 16 ≤ heap_start →
  same_outside (lnodes bs) m m' → ∀ c, c ∈ bs → hdr m c → hdr m' c.
Proof.
  intros Ht Hp Hs c Hc. apply hdr_same. intros x Hx.
  eapply (same_listop bs); try done.
  destruct (tiles_elem _ _ _ c Ht Hc) as (_ & ? & _). unfold b_end. lia.
Qed.

(** Marking a block, with its data cleared or not. *)
Lemma mark_blocks m pre b post hi fr n :
  MM_LIST + 16 ≤ heap_start → Z.of_nat n ≤ b_size b →
  blocks_at m (pre ++ b :: post) hi →
  let m' := fill (set_isFree m (b_addr b) fr) (b_data b) 0 n in
  blocks_at m' (pre ++ Blk (b_addr b) (b_size b) fr :: post) hi
  ∧ only_interior b m m'.
Proof.
  intros Hp Hn [Hl Ht Hh] m'.
  destruct (tiles_around _ _ _ _ _ Ht) as (_ & _ & Hs & _ & _).
  assert (only_interior b m m') as Ho.
  { eapply only_interior_trans; [by apply only_interior_set_isFree|].
    by apply only_interior_fill. }
  split; [|done].
  rewrite Forall_app, Forall_cons in Hh. destruct Hh as (Hh1 & Hb & Hh2).
  destruct (hdrs_around _ _ _ _ _ _ Ht Hh1 Hh2 Ho) as [Hh1' Hh2']. split.
  - eapply dll_interior in Hl; [|exact Ht|done| |exact Ho]; [|elem].
    by rewrite !fmap_app in *.
  - rewrite tiles_app in *. exact Ht.
  - rewrite Forall_app, Forall_cons. split_and!; try done.
    apply (hdr_fill _ (Blk (b_addr b) (b_size b) fr)). by apply hdr_set_isFree.
Qed.

(** Writing the header of a new block inside a free one and linking it. *)
Definition split_header (m : mem) (b : blk) (size : Z) : mem :=
  set_isFree (set_size m (b_addr b + 16 + size) (b_size b - size - 16))
    (b_addr b + 16 + size) true.

Lemma tiles_carve lo pre b post hi size :
  tiles lo (pre ++ b :: post) hi → 0 ≤ size → size + 16 ≤ b_size b →
  tiles lo (pre ++ Blk (b_addr b) size false
                :: Blk (b_addr b + 16 + size) (b_size b - size - 16) true :: post) hi.
Proof.
  rewrite !tiles_app. intros (mid & H1 & H2 & H3 & H4) Hs1 Hs2.
  exists mid. split; [done|]. cbn. unfold b_end in *; cbn. split_and!; try lia.
  by replace (b_addr b + 16 + size + 16 + (b_size b - size - 16))
    with (b_addr b + 16 + b_size b) by lia.
Qed.

Lemma split_insert m pre b post hi size :
  MM_LIST + 16 ≤ heap_start → hi ≤ 2147483648 →
  blocks_at m (pre ++ b :: post) hi → 0 ≤ size → size + 16 ≤ b_size b →
  let m1 := split_header m b size in
  let nb := Blk (b_addr b + 16 + size) (b_size b - size - 16) true in
  let bs' := pre ++ Blk (b_addr b) size false :: nb :: post in
  only_interior b m m1
  ∧ list_next m1 (b_addr b) = Ret (hd (tail_of MM_LIST) (b_addr <$> post))
  ∧ ∃ m2, list_insert m1 (hd (tail_of MM_LIST) (b_addr <$> post)) (b_addr nb) = Ret m2
    ∧ dll m2 MM_LIST (b_addr <$> bs')
    ∧ Forall (hdr m2) pre ∧ hdr m2 nb ∧ Forall (hdr m2) post
    ∧ same_outside (lnodes bs') m1 m2.
Proof.
  intros Hp Hhi [Hl Ht Hh] Hs1 Hs2 m1 nb bs'.
  pose proof (tiles_carve _ _ _ _ _ _ Ht Hs1 Hs2) as Ht'.
  fold nb bs' in Ht'.
  destruct (tiles_around _ _ _ _ _ Ht) as (H1 & H2 & H3 & H4 & H5).
  assert (only_interior b m m1) as Ho.
  { apply (only_interior_mono b nb); [cbn; lia|unfold b_end; cbn; lia|].
    eapply only_interior_trans.
    - apply (only_interior_set_size nb). cbn. lia.
    - apply (only_interior_set_isFree nb). cbn. lia. }
  assert (dll m1 MM_LIST (b_addr <$> (pre ++ b :: post))) as Hl1.
  { eapply dll_interior; [exact Ht|done| |exact Ho|done]. elem. }
  pose proof (dll_pos _ _ _ Hl) as Hpos.
  split; [done|]. rewrite fmap_app in Hl1. cbn [fmap list_fmap] in Hl1.
  split; [by eapply list_next_dll|].
  replace ((b_addr <$> pre) ++ b_addr b :: (b_addr <$> post))
    with (((b_addr <$> pre) ++ [b_addr b]) ++ (b_addr <$> post)) in Hl1
    by by rewrite <- app_assoc.
  unfold b_end in H5.
  destruct (list_insert_dll m1 MM_LIST ((b_addr <$> pre) ++ [b_addr b])
    (b_addr <$> post) (b_addr nb) Hl1) as (m2 & Hi & Hd2 & Hso).
  { split; cbn; lia. }
  { apply Forall_forall. intros n Hn.
    rewrite <- app_assoc in Hn. cbn [app] in Hn.
    rewrite <- (lnodes_split _ _ _ _ eq_refl) in Hn.
    pose proof (block_outside _ _ b (b_addr nb) Ht Hp ltac:(elem)) as F1.
    pose proof (block_outside _ _ b (b_addr nb + 7) Ht Hp ltac:(elem)) as F2.
    unfold b_end in *. cbn in F1, F2 |- *. unfold disj.
    specialize (F1 ltac:(lia)). specialize (F2 ltac:(lia)).
    rewrite Forall_forall in F1, F2. specialize (F1 n Hn). specialize (F2 n Hn). lia. }
  exists m2.
  assert (((b_addr <$> pre) ++ [b_addr b]) ++ b_addr nb :: (b_addr <$> post)
    = b_addr <$> bs') as E.
  { unfold bs'. rewrite fmap_app, <- app_assoc. done. }
  rewrite E in Hd2, Hso.
  rewrite Forall_app, Forall_cons in Hh. destruct Hh as (Hh1' & _ & Hh2').
  destruct (hdrs_around _ _ _ _ _ _ Ht Hh1' Hh2' Ho) as [Hh1 Hh2].
  assert (∀ c, c ∈ bs' → hdr m1 c → hdr m2 c) as Hhl by (by eapply hdrs_listop).
  rewrite Forall_forall in Hh1, Hh2.
  split_and!; try done.
  - apply Forall_forall. intros c Hc. apply Hhl; [unfold bs'; elem|auto].
  - apply Hhl; [unfold bs'; elem|]. apply (hdr_write m nb). unfold is_u32. cbn. lia.
  - apply Forall_forall. intros c Hc. apply Hhl; [unfold bs'; elem|auto].
Qed.

(** *** [malloc] *)
Lemma malloc_return_eq s p size :
  p ≠ NULL →
  malloc_return s p size
  = Ret (p, with_mem s (fill (u_mem s) p 0 (Z.to_nat size))).
Proof.
  intros Hp. unfold malloc_return, memset.
  rewrite ASSERT_true by (destruct (Z.eqb_spec p NULL); [done|reflexivity]).
  done.
Qed.

Lemma coalesced_carve size pre b post :
  b_free b = true → coalesced (pre ++ b :: post) →
  coalesced (pre ++ carve size b ++ post).
Proof.
  intros Hb. rewrite !coalesced_app. intros (H1 & H2 & H3).
  assert (∀ c d, last [b] = Some c → head post = Some d → ¬ (b_free c ∧ b_free d)) as H4.
  { by apply (coalesced_app [b] post) in H2 as (_ & _ & ?). }
  apply (coalesced_app [b] post) in H2 as (_ & H2 & _).
  unfold carve. destruct (b_size b =? size); cbn; split_and!; auto.
  - intros ? ? [= <-] _ [[] _].
  - intros ? ? _ [= <-] [_ []].
  - by intros [[] _].
  - intros ? d [= <-] Hd [_ Hf]. apply (H4 b d); rewrite ?Hb; auto.
  - intros ? ? _ [= <-] [_ []].
Qed.

(** Every allocated block keeps its data. *)
Definition data_kept bs (m m' : mem) : Prop :=
  ∀ c, c ∈ bs → b_free c = false → same_bytes m m' (b_data c) (b_end c).

(** The bytes of [malloc]'s result are zero. *)
Definition zeroed (m : mem) (p size : Z) : Prop :=
  ∀ x, p ≤ x < p + size → load8 m x = 0.

Lemma zeroed_fill m p size : 0 ≤ size → zeroed (fill m p 0 (Z.to_nat size)) p size.
Proof. intros Hs x Hx. rewrite load8_fill, decide_True; [done|lia]. Qed.

Lemma data_kept_interior m m' pre b post hi :
  tiles heap_start (pre ++ b :: post) hi → b_free b = true →
  only_interior b m m' → data_kept (pre ++ b :: post) m m'.
Proof.
  intros Ht Hb Ho c Hc Hcf x Hx.
  eapply (same_interior _ _ b c); try done; [elem| |].
  - intros ->. congruence.
  - unfold b_data in Hx. lia.
Qed.

Lemma malloc_fresh_spec s bs size m1 k1 r :
  heap_inv s bs → 0 < size → size + 16 < 2147483648 →
  k_sbrk (u_k s) (u_mem s) (size + 16) = (r, m1, k1) → r ≠ SBRK_ERROR →
  let brk := k_break (u_k s) in
  let m2 := set_isFree (set_size m1 brk size) brk false in
  r = brk ∧
  ∃ m3, list_push_back m2 MM_LIST brk = Ret m3 ∧
    let m4 := fill m3 (brk + 16) 0 (Z.to_nat size) in
    heap_inv (UState m4 k1 true) (bs ++ [Blk brk size false])
    ∧ data_kept bs (u_mem s) m4 ∧ k_break k1 = brk + 16 + size.
Proof.
  intros Hi Hs1 Hs2 Hk Hr brk m2. destruct Hi as [Hin Hl Ht Hh Hc Hp Htop].
  assert (0 < size + 16 < 2147483648) as Hinc by lia.
  destruct (sbrk_grow _ _ _ _ _ _ Hinc Hk Hr)
    as (-> & Hbrk & Htop' & Hlow). fold brk in Hbrk, Hlow, Ht |- *.
  split; [done|]. set (nb := Blk brk size false).
  pose proof (dll_pos _ _ _ Hl) as Hpos. pose proof (tiles_le _ _ _ Ht) as Hle.
  assert (tiles heap_start (bs ++ [nb]) (k_break k1)) as Ht'.
  { apply tiles_app. exists brk. split; [done|]. cbn. unfold b_end; cbn. lia. }
  assert (∀ x, x < brk → load8 m2 x = load8 (u_mem s) x) as Hlow2.
  { intros x Hx. unfold m2, set_isFree, set_size.
    rewrite load8_store8_ne, load8_store32_ne by lia. auto. }
  assert (∀ n, n ∈ lnodes bs → n + 8 ≤ brk) as Hn.
  { intros n. unfold nodes, head_of, tail_of.
    rewrite elem_of_cons, elem_of_app, list_elem_of_singleton.
    intros [->|[Hn| ->]]; try lia.
    apply list_elem_of_fmap in Hn as (c & -> & Hc').
    destruct (tiles_elem _ _ _ _ Ht Hc') as (_ & ? & ?). unfold b_end in *. lia. }
  assert (dll m2 MM_LIST (b_addr <$> bs)) as Hl2.
  { eapply dll_same; [|exact Hl]. intros n Hn' x Hx. apply Hlow2.
    specialize (Hn n Hn'). lia. }
  destruct (list_push_back_dll m2 MM_LIST (b_addr <$> bs) brk Hl2)
    as (m3 & Hpb & Hl3 & Hso).
  { unfold node_ok. lia. }
  { apply Forall_forall. intros n Hn'. specialize (Hn n Hn'). unfold disj. lia. }
  exists m3. split; [done|]. intros m4.
  replace ((b_addr <$> bs) ++ [brk]) with (b_addr <$> (bs ++ [nb])) in Hl3, Hso
    by by rewrite fmap_app.
  assert (blocks_at m3 (bs ++ [nb]) (k_break k1)) as Hb3.
  { split; [done|done|].
    assert (∀ c, c ∈ bs ++ [nb] → hdr m2 c → hdr m3 c) as Hhl by (by eapply hdrs_listop).
    rewrite Forall_forall in Hh. rewrite Forall_app, Forall_singleton. split.
    - apply Forall_forall. intros c Hc'. apply Hhl; [elem|].
      apply (hdr_same (u_mem s)); [|auto]. intros x Hx. apply Hlow2.
      destruct (tiles_elem _ _ _ _ Ht Hc') as (_ & ? & ?). unfold b_end in *. lia.
    - apply Hhl; [rewrite elem_of_app, list_elem_of_singleton; auto|].
      apply (hdr_write m1 nb). unfold is_u32; cbn; lia. }
  split_and!; [|intros c Hc' Hcf x Hx|lia].
  - assert (only_interior nb m3 m4) as Ho by (apply only_interior_fill; cbn; lia).
    split; try done.
    + eapply dll_interior; [exact Ht'|done| |exact Ho|exact Hl3].
      rewrite elem_of_app, list_elem_of_singleton. auto.
    + destruct Hb3 as [_ _ Hb3]. rewrite Forall_app, Forall_singleton in Hb3 |- *.
      destruct Hb3 as [Hb3 Hb3'].
      destruct (hdrs_around m3 m4 bs nb [] _ Ht' Hb3 ltac:(done) Ho) as [Hh4 _].
      split; [done|]. by apply (hdr_fill m3 nb).
    + apply coalesced_app. split_and!; [done|done|]. intros b b' _ [= <-] [_ []].
  - destruct (tiles_elem _ _ _ _ Ht Hc') as (_ & ? & ?). unfold b_data, b_end in *.
    unfold m4. rewrite load8_fill, decide_False by lia.
    rewrite (same_listop (bs ++ [nb]) _ c m2 m3 Ht' Hp) by (try elem; try done; unfold b_end; lia).
    apply Hlow2. lia.
Qed.

Lemma malloc_reuse_exact s pre b post :
  heap_inv s (pre ++ b :: post) → b_free b = true → 0 < b_size b →
  ∃ s', malloc_reuse s (b_addr b) (b_size b) = Ret (b_data b, s')
    ∧ heap_inv s' (pre ++ carve (b_size b) b ++ post) ∧ u_k s' = u_k s
    ∧ zeroed (u_mem s') (b_data b) (b_size b)
    ∧ data_kept (pre ++ b :: post) (u_mem s) (u_mem s').
Proof.
  intros Hi Hf Hsz. pose proof (heap_inv_blocks _ _ Hi) as Hb.
  destruct Hi as [Hin Hl Ht Hh Hc Hp Htop].
  destruct (tiles_around _ _ _ _ _ Ht) as (_ & _ & Hs & Hlo & Hend).
  pose proof (dll_pos _ _ _ Hl) as Hpos. unfold b_end in Hend.
  unfold malloc_reuse, HEADER_SIZE. rewrite u32_id by (unfold is_u32; lia).
  assert (get_size (u_mem s) (b_addr b) = b_size b) as ->.
  { rewrite Forall_app, Forall_cons in Hh. apply Hh. }
  rewrite Z.eqb_refl, malloc_return_eq by (unfold NULL; lia).
  eexists. split; [reflexivity|].
  destruct (mark_blocks _ pre b post _ false (Z.to_nat (b_size b)) Hp ltac:(lia) Hb)
    as [[Hl' Ht' Hh'] Ho].
  split_and!; [|done| |].
  - pose proof (coalesced_carve (b_size b) _ _ _ Hf Hc) as Hc'.
    unfold carve in *. rewrite Z.eqb_refl in *. by split.
  - apply zeroed_fill. lia.
  - by eapply data_kept_interior.
Qed.

Lemma malloc_reuse_split s pre b post size :
  heap_inv s (pre ++ b :: post) → b_free b = true → 0 < size → size + 16 ≤ b_size b →
  ∃ s', malloc_reuse s (b_addr b) size = Ret (b_data b, s')
    ∧ heap_inv s' (pre ++ carve size b ++ post) ∧ u_k s' = u_k s
    ∧ zeroed (u_mem s') (b_data b) size
    ∧ data_kept (pre ++ b :: post) (u_mem s) (u_mem s').
Proof.
  intros Hi Hf Hs1 Hs2. pose proof (heap_inv_blocks _ _ Hi) as Hb.
  destruct Hi as [Hin Hl Ht Hh Hc Hp Htop].
  destruct (tiles_around _ _ _ _ _ Ht) as (Hpre & Hpost & Hs & Hlo & Hend).
  pose proof (dll_pos _ _ _ Hl) as Hpos.
  destruct (split_insert _ _ _ _ _ size Hp Htop Hb ltac:(lia) Hs2)
    as (Ho & Hnx & m2 & Hins & Hl2 & Hh1 & Hhn & Hh2 & Hso).
  pose proof (tiles_carve _ _ _ _ _ size Ht ltac:(lia) Hs2) as Ht'.
  set (nb := Blk (b_addr b + 16 + size) _ true) in *.
  set (ab := Blk (b_addr b) size false) in *.
  unfold b_end in Hend.
  unfold malloc_reuse, HEADER_SIZE. rewrite !u32_id by (unfold is_u32; lia).
  assert (get_size (u_mem s) (b_addr b) = b_size b) as ->.
  { rewrite Forall_app, Forall_cons in Hh. apply Hh. }
  destruct (Z.eqb_spec (b_size b) size); [lia|].
  rewrite (u32_id (b_size b - size - 16)) by (unfold is_u32; lia).
  unfold split_header in Hnx, Hins. cbn [b_addr nb] in Hins.
  rewrite Hnx, bind_Ret, Hins, bind_Ret.
  rewrite malloc_return_eq by (unfold NULL; lia).
  eexists. split; [reflexivity|]. cbn [with_mem u_mem u_k u_init].
  set (m4 := fill _ _ _ _).
  assert (only_interior ab m2 m4) as Ho4.
  { eapply only_interior_trans; [apply (only_interior_set_size ab); cbn; lia|].
    eapply only_interior_trans; [apply (only_interior_set_isFree ab); cbn; lia|].
    apply (only_interior_fill ab). cbn. lia. }
  destruct (hdrs_around m2 m4 pre ab (nb :: post) _ Ht' Hh1 ltac:(by constructor) Ho4)
    as [H41 H42].
  split_and!; [|done| |].
  - pose proof (coalesced_carve size _ _ _ Hf Hc) as Hc'. unfold carve in *.
    destruct (Z.eqb_spec (b_size b) size); [lia|]. cbn [app] in *. fold ab nb in Hc' |- *.
    split; try done.
    + eapply dll_interior; [exact Ht'|done| |exact Ho4|exact Hl2]. elem.
    + rewrite Forall_app, Forall_cons. split_and!; try done.
      apply (hdr_fill _ ab). apply (hdr_write m2 ab). unfold is_u32. lia.
  - apply zeroed_fill. lia.
  - intros c Hc' Hcf x Hx.
    assert (c ≠ b) as Hcb by (intros ->; congruence).
    rewrite elem_of_app, elem_of_cons in Hc'. destruct Hc' as [Hc'|[->|Hc']]; [|done|].
    + specialize (Hpre c Hc').
      rewrite Ho4 by (unfold b_data, b_end in *; cbn; lia).
      rewrite (same_listop _ _ c _ m2 Ht' Hp ltac:(elem) Hso)
        by (unfold b_data, b_end in *; lia).
      apply Ho. unfold b_data, b_end in *. lia.
    + specialize (Hpost c Hc').
      rewrite Ho4 by (unfold b_data, b_end in *; cbn; lia).
      rewrite (same_listop _ _ c _ m2 Ht' Hp ltac:(elem) Hso)
        by (unfold b_data, b_end in *; lia).
      apply Ho. unfold b_data, b_end in *. lia.
Qed.

Lemma hdr_set_size m b v :
  is_u32 v → hdr m b →
  hdr (set_size m (b_addr b) v) (Blk (b_addr b) v (b_free b)).
Proof.
  intros Hv [H1 _]. split; cbn; unfold get_isFree, get_size, set_size in *.
  - rewrite load8_store32_ne by lia. done.
  - by rewrite load32_store32_eq, u32_id.
Qed.

(** *** [free] *)

(** Absorbing the following block: the header of [p] is enlarged and the list
    element of [c] removed. *)
Definition absorb p c : blk := Blk (b_addr p) (b_size p + 16 + b_size c) (b_free p).

Lemma absorb_step m pre p c post hi :
  MM_LIST + 16 ≤ heap_start → hi ≤ 2147483648 →
  blocks_at m (pre ++ p :: c :: post) hi →
  let m1 := set_size m (b_addr p)
              (u32 (b_size p + u32 (16 + b_size c))) in
  ∃ r m2, list_remove m1 (b_addr c) = Ret (r, m2)
    ∧ blocks_at m2 (pre ++ absorb p c :: post) hi
    ∧ ∀ d, d ∈ pre ∨ d ∈ post → same_bytes m m2 (b_addr d + 8) (b_end d).
Proof.
  intros Hp Hhi [Hl Ht Hh] m1.
  pose proof (dll_pos _ _ _ Hl) as Hpos.
  destruct (tiles_around _ _ _ _ _ Ht) as (Hpre & Hpost & Hs & Hlo & Hend).
  assert (b_addr c = b_end p ∧ 0 ≤ b_size c ∧ b_end c ≤ hi) as (Hca & Hcs & Hce).
  { apply tiles_app in Ht as (mid & _ & _ & _ & <- & ? & Ht%tiles_le). done. }
  assert (tiles heap_start (pre ++ absorb p c :: post) hi) as Ht'.
  { rewrite tiles_app in Ht |- *. destruct Ht as (mid & H1 & <- & H2 & H3 & H4 & H5).
    exists (b_addr p). cbn. split_and!; try done; [lia|].
    unfold b_end in *. cbn. by replace (b_addr p + 16 + (b_size p + 16 + b_size c))
      with (b_addr c + 16 + b_size c) by lia. }
  unfold b_end in Hca, Hce.
  assert (m1 = set_size m (b_addr p) (b_size p + 16 + b_size c)) as E1.
  { unfold m1. rewrite (u32_id (16 + b_size c)) by (unfold is_u32; lia).
    rewrite u32_id by (unfold is_u32; lia). f_equal. lia. }
  assert (only_interior p m m1) as Ho.
  { rewrite E1. by apply only_interior_set_size. }
  assert (dll m1 MM_LIST (((b_addr <$> pre) ++ [b_addr p]) ++ b_addr c :: (b_addr <$> post)))
    as Hl1.
  { eapply (dll_interior _ _ p) in Hl; [|exact Ht|done|elem|exact Ho].
    rewrite fmap_app in Hl. by rewrite <- app_assoc. }
  destruct (list_remove_dll _ _ _ _ _ Hl1) as (m2 & Hr & Hl2 & Hso).
  assert (((b_addr <$> pre) ++ [b_addr p]) ++ (b_addr <$> post)
    = b_addr <$> (pre ++ absorb p c :: post)) as E2.
  { by rewrite fmap_app, <- app_assoc. }
  rewrite E2 in Hl2, Hso. eexists _, m2. split; [exact Hr|].
  rewrite Forall_app, !Forall_cons in Hh. destruct Hh as (Hh1 & Hhp & Hhc & Hh2).
  destruct (hdrs_around _ _ _ _ _ _ Ht Hh1 (Forall_cons_2 _ _ _ Hhc Hh2) Ho) as [Hh1' Hh2'].
  rewrite Forall_cons in Hh2'. destruct Hh2' as [_ Hh2'].
  pose proof (hdrs_listop _ _ _ _ Ht' Hp Hso) as Hhl.
  split.
  - split; [done|done|]. rewrite Forall_app, Forall_cons.
    rewrite Forall_forall in Hh1', Hh2'. split_and!.
    + apply Forall_forall. intros d Hd. apply Hhl; [elem|auto].
    + apply Hhl; [elem|]. rewrite E1. apply hdr_set_size; [unfold is_u32; lia|done].
    + apply Forall_forall. intros d Hd. apply Hhl; [elem|auto].
  - intros d Hd x Hx.
    rewrite (same_listop _ _ d m1 m2 Ht' Hp ltac:(elem) Hso x Hx).
    apply Ho. destruct Hd as [Hd|Hd].
    + specialize (Hpre d Hd). lia.
    + specialize (Hpost d ltac:(elem)). lia.
Qed.

Lemma data_kept_refl bs m : data_kept bs m m.
Proof. by intros c _ _ x _. Qed.

(** The abstract effect of freeing [b] between [pre] and [post]. *)
Definition merge_next (cur : blk) (post : list blk) : list blk :=
  match post with
  | n :: post' => if b_free n then absorb cur n :: post' else cur :: post
  | [] => [cur]
  end.
Definition free_blocks (pre : list blk) (b : blk) (post : list blk) : list blk :=
  let b := Blk (b_addr b) (b_size b) true in
  match last pre with
  | Some p => if b_free p then removelast pre ++ merge_next (absorb p b) post
              else pre ++ merge_next b post
  | None => pre ++ merge_next b post
  end.

(** The second half of [free]: absorb the next block when it is free. *)
Lemma free_next_spec m pre cur post hi :
  MM_LIST + 16 ≤ heap_start → hi ≤ 2147483648 →
  blocks_at m (pre ++ cur :: post) hi →
  ∃ m',
    (if negb (hd (tail_of MM_LIST) (b_addr <$> post) =? tail_of MM_LIST) then
       if get_isFree m (hd (tail_of MM_LIST) (b_addr <$> post)) then
         let m := set_size m (b_addr cur)
                    (u32 (get_size m (b_addr cur)
                      + u32 (HEADER_SIZE
                             + get_size m (hd (tail_of MM_LIST) (b_addr <$> post))))) in
         '(_, m) ← list_remove m (hd (tail_of MM_LIST) (b_addr <$> post));
         Ret m
       else Ret m
     else Ret m) = Ret m'
    ∧ blocks_at m' (pre ++ merge_next cur post) hi
    ∧ ∀ d, d ∈ pre ∨ (d ∈ post ∧ b_free d = false) →
        same_bytes m m' (b_addr d + 8) (b_end d).
Proof.
  intros Hp Hhi Hb. destruct post as [|n post]; cbn [fmap list_fmap hd merge_next].
  - rewrite Z.eqb_refl. cbn. exists m. split_and!; try done.
  - pose proof Hb as [Hl Ht Hh].
    rewrite Forall_app, !Forall_cons in Hh. destruct Hh as (_ & [_ Hc2] & [Hn1 Hn2] & _).
    destruct (tiles_elem _ _ _ n Ht) as (Hlo & _ & _); [elem|].
    unfold tail_of at 1. destruct (Z.eqb_spec (b_addr n) (MM_LIST + 8)); [lia|].
    cbn [negb]. rewrite Hn1. destruct (b_free n) eqn:En.
    + rewrite Hc2, Hn2.
      destruct (absorb_step _ _ _ _ _ _ Hp Hhi Hb) as (r & m2 & Hr & Hb2 & Hd).
      unfold HEADER_SIZE. cbv zeta. rewrite Hr, bind_Ret.
      exists m2. split_and!; try done. intros d [?|[[->|?]%elem_of_cons Hf]]; auto.
      congruence.
    + by exists m.
Qed.

Lemma coalesced_merge_next pre cur post :
  coalesced pre → coalesced post → (∀ p, last pre = Some p → b_free p = false) →
  coalesced (pre ++ merge_next cur post).
Proof.
  intros Hpre Hpost Hlast. apply coalesced_app. split_and!; [done| |].
  - destruct post as [|n post]; cbn [merge_next]; [done|].
    destruct (b_free n) eqn:En.
    + destruct post as [|n' post]; [done|]. cbn in Hpost |- *.
      destruct Hpost as [Hn Hp]. split; [|done]. intros [_ Hf]. apply Hn.
      by rewrite En.
    + split; [|done]. rewrite En. by intros [_ []].
  - intros b b' Hb _ [Hf _]. by rewrite (Hlast b Hb) in Hf.
Qed.

Lemma coalesced_free_blocks pre b post :
  coalesced (pre ++ b :: post) → coalesced (free_blocks pre b post).
Proof.
  rewrite coalesced_app. intros (Hpre & Hbp & _).
  apply (coalesced_app [b] post) in Hbp as (_ & Hpost & _).
  unfold free_blocks. destruct (last pre) as [p|] eqn:Hl.
  - destruct (b_free p) eqn:Hf.
    + apply last_Some in Hl as [pre' ->]. rewrite removelast_last.
      apply coalesced_app in Hpre as (Hpre' & _ & Hpp).
      apply coalesced_merge_next; [done|done|]. intros p' Hp'.
      destruct (b_free p') eqn:Hf'; [|done]. exfalso.
      apply (Hpp p' p); [done|done|]. by rewrite Hf, Hf'.
    + apply coalesced_merge_next; [done|done|]. intros p' Hp'. congruence.
  - apply coalesced_merge_next; [done|done|]. intros p' Hp'. congruence.
Qed.

(** The first half of [free], on the block just marked free. *)
Lemma free_prev_spec m pre b post hi :
  MM_LIST + 16 ≤ heap_start → hi ≤ 2147483648 →
  blocks_at m (pre ++ b :: post) hi →
  ∃ m' pre' cur,
    (if negb (default (head_of MM_LIST) (last (b_addr <$> pre)) =? head_of MM_LIST) then
       if get_isFree m (default (head_of MM_LIST) (last (b_addr <$> pre))) then
         let m := set_size m (default (head_of MM_LIST) (last (b_addr <$> pre)))
                    (u32 (get_size m (default (head_of MM_LIST) (last (b_addr <$> pre)))
                      + u32 (HEADER_SIZE + get_size m (b_addr b)))) in
         '(_, m) ← list_remove m (b_addr b);
         Ret (m, default (head_of MM_LIST) (last (b_addr <$> pre)))
       else Ret (m, b_addr b)
     else Ret (m, b_addr b)) = Ret (m', b_addr cur)
    ∧ blocks_at m' (pre' ++ cur :: post) hi
    ∧ (∀ d, (d ∈ pre ∧ b_free d = false) ∨ d ∈ post →
        same_bytes m m' (b_addr d + 8) (b_end d))
    ∧ (∀ d, d ∈ pre → b_free d = false → d ∈ pre')
    ∧ pre' ++ merge_next cur post =
      match last pre with
      | Some p => if b_free p then removelast pre ++ merge_next (absorb p b) post
                  else pre ++ merge_next b post
      | None => pre ++ merge_next b post
      end.
Proof.
  intros Hp Hhi Hb. destruct (last pre) as [p|] eqn:Hl.
  - apply last_Some in Hl as [pre' ->]. rewrite removelast_last.
    rewrite fmap_app. change (b_addr <$> [p]) with [b_addr p].
    rewrite last_snoc. cbn [default from_option id].
    rewrite <- app_assoc in Hb. cbn [app] in Hb. pose proof Hb as [Hli Ht Hh].
    rewrite Forall_app, !Forall_cons in Hh. destruct Hh as (_ & [Hp1 Hp2] & [_ Hb2] & _).
    destruct (tiles_elem _ _ _ p Ht) as (Hlo & _ & _); [elem|].
    unfold head_of at 1. destruct (Z.eqb_spec (b_addr p) MM_LIST); [lia|].
    cbn [negb]. rewrite Hp1. destruct (b_free p) eqn:Ep.
    + rewrite Hp2, Hb2.
      destruct (absorb_step _ _ _ _ _ _ Hp Hhi Hb) as (r & m2 & Hr & Hb3 & Hd).
      unfold HEADER_SIZE. cbv zeta. rewrite Hr, bind_Ret.
      exists m2, pre', (absorb p b). split_and!; try done.
      * intros d [[[Hd'|Hd']%elem_of_app Hf]|Hd']; auto.
        apply list_elem_of_singleton in Hd' as ->. congruence.
      * intros d [Hd'|Hd']%elem_of_app Hf; [done|].
        apply list_elem_of_singleton in Hd' as ->. congruence.
    + exists m, (pre' ++ [p]), b. rewrite <- app_assoc. split_and!; done.
  - apply last_None in Hl as ->. cbn. rewrite Z.eqb_refl. cbn.
    by exists m, [], b.
Qed.

Lemma free_spec s pre b post :
  heap_inv s (pre ++ b :: post) → b_free b = false →
  ∃ s', free MM_LIST s (b_data b) = Ret s'
    ∧ heap_inv s' (free_blocks pre b post) ∧ u_k s' = u_k s
    ∧ data_kept (pre ++ post) (u_mem s) (u_mem s').
Proof.
  intros Hi Hf. pose proof (heap_inv_blocks _ _ Hi) as Hb.
  destruct Hi as [Hin Hl Ht Hh Hc Hp Htop].
  destruct (tiles_around _ _ _ _ _ Ht) as (Hpre & Hpost & Hs & Hlo & Hend).
  pose proof (dll_pos _ _ _ Hl) as Hpos. unfold b_end in Hend.
  unfold free, init_configs. rewrite Hin. cbn [negb]. rewrite bind_Ret.
  unfold b_data, HEADER_SIZE, NULL. destruct (Z.eqb_spec (b_addr b + 16) 0); [lia|].
  replace (b_addr b + 16 - 16) with (b_addr b) by lia.
  rewrite u32_id by (unfold is_u32; lia). cbv zeta.
  destruct (mark_blocks _ pre b post _ true 0 Hp ltac:(lia) Hb) as [Hb1 Ho].
  cbn [fill] in Hb1, Ho. set (m1 := set_isFree _ _ _) in *.
  set (b1 := Blk (b_addr b) (b_size b) true) in *.
  pose proof (ba_list _ _ _ Hb1) as Hl1. rewrite fmap_app in Hl1.
  cbn [fmap list_fmap b1 b_addr] in Hl1.
  rewrite (list_prev_dll _ _ _ _ _ Hl1), bind_Ret.
  rewrite (list_next_dll _ _ _ _ _ Hl1), bind_Ret.
  rewrite (list_head_dll _ _ _ Hl1), bind_Ret.
  destruct (free_prev_spec _ _ _ _ _ Hp Htop Hb1)
    as (m2 & pre' & cur & E2 & Hb2 & Hd2 & Hpre' & Eq).
  cbn [b1 b_addr] in E2. unfold HEADER_SIZE in E2. cbv zeta in E2. rewrite E2, bind_Ret.
  rewrite (list_tail_dll _ _ _ Hl1), bind_Ret.
  destruct (free_next_spec _ _ _ _ _ Hp Htop Hb2) as (m3 & E3 & Hb3 & Hd3).
  unfold HEADER_SIZE in E3. cbv zeta in E3. rewrite E3, bind_Ret.
  eexists. split; [reflexivity|]. split_and!; [|done|].
  - pose proof (coalesced_free_blocks _ _ _ Hc) as Hc'.
    unfold free_blocks in *. fold b1 in Hc' |- *. rewrite <- Eq in Hc' |- *.
    destruct Hb3. by split.
  - intros d Hd Hdf x Hx. rewrite elem_of_app in Hd. cbn [with_mem u_mem].
    assert (b_addr d + 8 ≤ x < b_end d) as Hx' by (unfold b_data in *; lia).
    rewrite (Hd3 d) by (try done; naive_solver).
    rewrite (Hd2 d) by (try done; naive_solver).
    apply Ho. unfold b_data in Hx. destruct Hd as [Hd|Hd].
    + specialize (Hpre d Hd). unfold b_end in *. lia.
    + specialize (Hpost d Hd). unfold b_end in *. lia.
Qed.

(** *** The specifications the client sees *)

(** Outcome of [malloc s size = (p, s')] on the blocks [bs]: first fit among the
    blocks, else a block appended at the break, else failure with nothing
    changed but the list initialised. *)
Definition malloc_post s bs size p s' : Prop :=
  match alloc_fit size bs with
  | Some (q, bs') => p = q ∧ heap_inv s' bs' ∧ u_k s' = u_k s
  | None =>
    (p = NULL ∧ heap_inv s' bs ∧ k_break (u_k s') = k_break (u_k s))
    ∨ (p = k_break (u_k s) + 16
       ∧ heap_inv s' (bs ++ [Blk (k_break (u_k s)) size false])
       ∧ k_break (u_k s') = k_break (u_k s) + 16 + size)
  end.

Lemma malloc_inited s bs size :
  heap_inv s bs → 0 < size → size + 16 < 2147483648 → (length bs < fuel)%nat →
  ∃ p s', malloc MM_LIST fuel s size = Ret (p, s')
    ∧ malloc_post s bs size p s'
    ∧ (p ≠ NULL → zeroed (u_mem s') p size)
    ∧ data_kept bs (u_mem s) (u_mem s').
Proof.
  intros Hi Hs1 Hs2 Hf. unfold malloc, init_configs.
  rewrite (hi_init _ _ Hi). cbn [negb]. rewrite bind_Ret.
  destruct (Z.eqb_spec size 0); [lia|].
  rewrite (list_begin_dll _ _ _ (hi_list _ _ Hi)), bind_Ret.
  rewrite (find_first_fit_spec s bs size Hi ltac:(lia) ltac:(lia) Hf), bind_Ret.
  pose proof (dll_pos _ _ _ (hi_list _ _ Hi)) as Hpos.
  pose proof (first_fit_alloc size bs) as Hff. unfold malloc_post.
  destruct (alloc_fit size bs) as [[q bs']|].
  - destruct Hff as (pre & b & post & -> & Hfit & -> & -> & ->).
    unfold fits in Hfit. apply andb_true_iff in Hfit as [Hfr Hsz].
    destruct (tiles_around _ _ _ _ _ (hi_tiles _ _ Hi)) as (_ & _ & _ & Hlo & _).
    pose proof (hi_place _ _ Hi). unfold NULL.
    destruct (Z.eqb_spec (b_addr b) 0); [lia|].
    destruct (Z.eqb_spec (b_size b) size) as [<-|].
    + destruct (malloc_reuse_exact _ _ _ _ Hi Hfr Hs1) as (s' & E & ? & ? & ? & ?).
      exists (b_data b), s'. rewrite E. split_and!; auto.
    + destruct (malloc_reuse_split _ _ _ _ size Hi Hfr Hs1 ltac:(lia))
        as (s' & E & ? & ? & ? & ?).
      exists (b_data b), s'. rewrite E. split_and!; auto.
  - rewrite Hff, Z.eqb_refl. unfold malloc_extend, HEADER_SIZE.
    rewrite (u32_id (16 + size)) by (unfold is_u32; lia).
    rewrite s32_small by lia. rewrite (Z.add_comm 16 size).
    destruct (k_sbrk (u_k s) (u_mem s) (size + 16)) as [[r m1] k1] eqn:Ek.
    destruct (Z.eqb_spec r SBRK_ERROR) as [->|Hr].
    + apply sbrk_fail in Ek as [-> Ek]; [|lia].
      eexists NULL, _. split; [reflexivity|]. cbn. split_and!.
      * left. split_and!; [done| |done]. destruct Hi. split; cbn; rewrite ?Ek; done.
      * done.
      * apply data_kept_refl.
    + destruct (malloc_fresh_spec _ _ _ _ _ _ Hi Hs1 Hs2 Ek Hr)
        as (-> & m3 & E3 & Hi' & Hd & Hk).
      cbn [u_mem]. rewrite E3, bind_Ret.
      pose proof (tiles_le _ _ _ (hi_tiles _ _ Hi)). pose proof (hi_place _ _ Hi).
      pose proof (hi_top _ _ Hi).
      rewrite u32_id by (unfold is_u32; lia).
      rewrite malloc_return_eq by (unfold NULL; lia).
      eexists _, _. split; [reflexivity|]. cbn [with_mem u_mem u_k u_init].
      rewrite (hi_init _ _ Hi). split_and!.
      * right. done.
      * intros _. apply zeroed_fill. lia.
      * done.
Qed.

(** The first call initialises the list; the specification is the same. *)
Lemma malloc_spec s bs size :
  user_heap s bs → 0 < size → size + 16 < 2147483648 → (length bs < fuel)%nat →
  ∃ p s', malloc MM_LIST fuel s size = Ret (p, s')
    ∧ malloc_post s bs size p s'
    ∧ (p ≠ NULL → zeroed (u_mem s') p size)
    ∧ data_kept bs (u_mem s) (u_mem s').
Proof.
  intros Hu Hs1 Hs2 Hf.
  destruct (init_configs_spec _ _ Hu) as (s1 & E1 & Hi & Ek & Hm).
  destruct (malloc_inited _ _ _ Hi Hs1 Hs2 Hf) as (p & s' & E & Hpost & Hz & Hd).
  exists p, s'. split_and!; try done.
  - unfold malloc in *. rewrite E1, bind_Ret.
    unfold init_configs in E. rewrite (hi_init _ _ Hi) in E. cbn [negb] in E.
    by rewrite bind_Ret in E.
  - unfold malloc_post in *. by rewrite Ek in Hpost.
  - intros c Hc Hcf x Hx. rewrite (Hd c Hc Hcf x Hx). apply Hm. right.
    destruct (tiles_elem _ _ _ _ (hi_tiles _ _ Hi) Hc) as (? & ? & _).
    pose proof (hi_place _ _ Hi). unfold b_data in Hx. lia.
Qed.

(** Allocated blocks stay, and the result is a block of the requested size. *)
Lemma malloc_post_blocks s bs size p s' :
  malloc_post s bs size p s' → 0 < size →
  ∃ bs', heap_inv s' bs'
    ∧ (∀ c, c ∈ bs → b_free c = false → c ∈ bs')
    ∧ (p ≠ NULL → Blk (p - 16) size false ∈ bs')
    ∧ (length bs' ≤ S (length bs))%nat.
Proof.
  intros Hp Hs. unfold malloc_post in Hp.
  destruct (alloc_fit size bs) as [[q bs']|] eqn:E.
  - destruct Hp as (-> & Hi & _). exists bs'.
    apply alloc_fit_Some in E as (pre & b & post & -> & _ & Hfit & -> & ->).
    unfold fits in Hfit. apply andb_true_iff in Hfit as [Hfr _].
    split_and!; [done| | |].
    + intros c Hc Hcf. rewrite !elem_of_app. rewrite elem_of_app, elem_of_cons in Hc.
      destruct Hc as [?|[->|?]]; [auto|congruence|auto].
    + intros _. rewrite !elem_of_app. right. left. unfold carve, b_data.
      replace (b_addr b + 16 - 16) with (b_addr b) by lia.
      destruct (b_size b =? size); by left.
    + rewrite !length_app. unfold carve. destruct (b_size b =? size); cbn; lia.
  - destruct Hp as [(-> & Hi & _)|(-> & Hi & _)].
    + exists bs. split_and!; auto. done.
    + eexists. split; [exact Hi|]. split_and!.
      * intros. apply elem_of_app. auto.
      * intros _. apply elem_of_app. right.
        replace (k_break (u_k s) + 16 - 16) with (k_break (u_k s)) by lia. by left.
      * rewrite length_app. cbn. lia.
Qed.

(** The block [malloc] hands out is none of the allocated ones. *)
Lemma malloc_post_new s bs size p s' c :
  malloc_post s bs size p s' → tiles heap_start bs (k_break (u_k s)) →
  p ≠ NULL → c ∈ bs → b_free c = false → b_end c ≤ p - 16 ∨ p + size ≤ b_addr c.
Proof.
  intros Hp Ht Hn Hc Hcf. unfold malloc_post in Hp.
  destruct (alloc_fit size bs) as [[q bs']|] eqn:E.
  - destruct Hp as (-> & _).
    apply alloc_fit_Some in E as (pre & b & post & -> & _ & Hfit & -> & _).
    unfold fits in Hfit. apply andb_true_iff in Hfit as [Hfr Hsz].
    destruct (tiles_sep _ _ _ b c Ht ltac:(elem) Hc) as [->|[?|?]];
      [congruence|unfold b_data, b_end in *; lia..].
  - destruct Hp as [(-> & _)|(-> & _)]; [done|].
    destruct (tiles_elem _ _ _ _ Ht Hc) as (_ & _ & ?). lia.
Qed.

Lemma free_blocks_elem pre b post c :
  c ∈ pre ++ post → b_free c = false → c ∈ free_blocks pre b post.
Proof.
  assert (∀ cur, c ∈ post → b_free c = false → c ∈ merge_next cur post) as Hm.
  { intros cur Hc Hf. destruct post as [|n post]; [by apply elem_of_nil in Hc|]. cbn.
    destruct (b_free n) eqn:En; [|by right].
    apply elem_of_cons in Hc as [->|Hc]; [congruence|by right]. }
  rewrite elem_of_app. intros Hc Hf. unfold free_blocks.
  destruct (last pre) as [p|] eqn:Hl; [destruct (b_free p) eqn:Ep|].
  - apply last_Some in Hl as [pre' ->]. rewrite removelast_last, elem_of_app in *.
    rewrite list_elem_of_singleton in Hc.
    destruct Hc as [[Hc| ->]|Hc]; [auto|congruence|auto].
  - rewrite elem_of_app. destruct Hc; auto.
  - rewrite elem_of_app. destruct Hc; auto.
Qed.

(** The client may write the data of its own blocks. *)
Lemma heap_inv_data s bs b m' :
  heap_inv s bs → b ∈ bs →
  (∀ x, ¬ (b_data b ≤ x < b_end b) → load8 m' x = load8 (u_mem s) x) →
  heap_inv (with_mem s m') bs.
Proof.
  intros [Hin Hl Ht Hh Hc Hp Htop] Hb Hm.
  assert (only_interior b (u_mem s) m') as Ho.
  { intros x Hx. apply Hm. unfold b_data. lia. }
  split; try done; cbn [with_mem u_mem].
  - by eapply dll_interior.
  - rewrite Forall_forall in *. intros c Hc'. apply (hdr_same (u_mem s)); [|auto].
    intros x Hx. apply Hm. unfold b_data.
    destruct (tiles_elem _ _ _ _ Ht Hb) as (_ & ? & _).
    destruct (tiles_elem _ _ _ _ Ht Hc') as (_ & ? & _).
    destruct (tiles_sep _ _ _ _ _ Ht Hb Hc') as [->|[?|?]]; unfold b_end in *; lia.
Qed.

(** *** [realloc] *)
Definition realloc_moved s bs b size p s' : Prop :=
  ∃ bs', heap_inv s' bs' ∧ Blk (p - 16) size false ∈ bs'
    ∧ (∀ i, 0 ≤ i < b_size b `min` size →
         load8 (u_mem s') (p + i) = load8 (u_mem s) (b_data b + i))
    ∧ (∀ c, c ∈ bs → c ≠ b → b_free c = false →
         c ∈ bs' ∧ same_bytes (u_mem s) (u_mem s') (b_data c) (b_end c)).

(** The copy of [realloc], with the header it reads. *)
Lemma realloc_copy s1 bs1 b size p :
  heap_inv s1 bs1 → b ∈ bs1 → b_free b = false → 0 < size < 2147483648 →
  b_end b ≤ p - 16 ∨ p + size ≤ b_addr b → p ≠ NULL →
  Blk (p - 16) size false ∈ bs1 →
  let oldSize := get_size (u_mem s1) (b_addr b) in
  ∃ m2, memcpy (u_mem s1) p (b_data b)
          (u32 (s32 (if oldSize <? size then oldSize else size))) = Ret (p, m2)
    ∧ (∀ x, load8 m2 x = if decide (p ≤ x < p + b_size b `min` size)
                         then load8 (u_mem s1) (b_data b + (x - p))
                         else load8 (u_mem s1) x).
Proof.
  intros Hi Hb Hbf Hs Hsep Hpn Hnb oldSize.
  assert (oldSize = b_size b) as ->.
  { pose proof (hi_hdrs _ _ Hi) as Hh. rewrite Forall_forall in Hh.
    apply (Hh b Hb). }
  destruct (tiles_elem _ _ _ _ (hi_tiles _ _ Hi) Hb) as (? & ? & ?).
  pose proof (hi_place _ _ Hi). pose proof (hi_top _ _ Hi).
  pose proof (dll_pos _ _ _ (hi_list _ _ Hi)).
  assert ((if b_size b <? size then b_size b else size) = b_size b `min` size) as ->.
  { destruct (Z.ltb_spec (b_size b) size); lia. }
  unfold b_end in *.
  rewrite s32_small, u32_id by (unfold is_u32; lia).
  unfold memcpy. rewrite !ASSERT_true by (unfold b_data, NULL in *; lia).
  eexists. split; [reflexivity|]. intros x. rewrite load8_copy_up.
  - by rewrite Z2Nat.id by lia.
  - rewrite Z2Nat.id by lia. unfold b_data. lia.
Qed.

Lemma realloc_spec_gen s bs b size :
  heap_inv s bs → b ∈ bs → b_free b = false →
  0 < size → size + 16 < 2147483648 → (length bs < fuel)%nat →
  ∃ p s', realloc MM_LIST fuel s (b_data b) size = Ret (p, s')
    ∧ ((p = NULL ∧ heap_inv s' bs ∧ data_kept bs (u_mem s) (u_mem s'))
       ∨ (p ≠ NULL ∧ realloc_moved s bs b size p s')).
Proof.
  intros Hi Hb Hbf Hs1 Hs2 Hf.
  destruct (malloc_inited _ _ _ Hi Hs1 Hs2 Hf) as (p & s1 & Em & Hpost & _ & Hd1).
  destruct (tiles_elem _ _ _ _ (hi_tiles _ _ Hi) Hb) as (Hba & Hbs & Hbe).
  pose proof (hi_place _ _ Hi). pose proof (hi_top _ _ Hi).
  pose proof (dll_pos _ _ _ (hi_list _ _ Hi)). unfold b_end in Hbe.
  unfold realloc, init_configs. rewrite (hi_init _ _ Hi). cbn [negb].
  rewrite bind_Ret. destruct (Z.eqb_spec size 0); [lia|].
  destruct (Z.eqb_spec (b_data b) NULL); [unfold b_data, NULL in *; lia|].
  rewrite Em, bind_Ret. cbn beta iota.
  destruct (Z.eqb_spec p NULL) as [->|Hpn].
  { eexists _, _. split; [reflexivity|]. left. split_and!; [done| |done].
    unfold malloc_post in Hpost. destruct (alloc_fit size bs) as [[q bs']|] eqn:E.
    - destruct Hpost as (<- & _).
      apply alloc_fit_Some in E as (pre & b' & post & -> & _ & _ & Hq & _).
      destruct (tiles_elem _ _ _ b' (hi_tiles _ _ Hi)) as (? & _); [elem|].
      unfold b_data, NULL in Hq. lia.
    - pose proof (tiles_le _ _ _ (hi_tiles _ _ Hi)).
      destruct Hpost as [(_ & ? & _)|(E' & _)]; [done|]. unfold NULL in E'. lia. }
  destruct (malloc_post_blocks _ _ _ _ _ Hpost Hs1) as (bs1 & Hi1 & Hkeep & Hnew & _).
  specialize (Hnew Hpn).
  pose proof (malloc_post_new _ _ _ _ _ b Hpost (hi_tiles _ _ Hi) Hpn Hb Hbf) as Hsep.
  replace (b_data b - HEADER_SIZE) with (b_addr b) by (unfold b_data, HEADER_SIZE; lia).
  rewrite (u32_id (b_addr b)) by (unfold is_u32; lia). cbv zeta.
  destruct (realloc_copy s1 bs1 b size p Hi1 (Hkeep b Hb Hbf) Hbf ltac:(lia) Hsep Hpn Hnew)
    as (m2 & Ec & Hm2). cbv zeta in Ec. rewrite Ec, bind_Ret.
  set (nb := Blk (p - 16) size false) in *.
  assert (heap_inv (with_mem s1 m2) bs1) as Hi2.
  { eapply heap_inv_data; [exact Hi1|exact Hnew|]. intros x Hx. rewrite Hm2, decide_False; [done|].
    unfold b_data, b_end in Hx. cbn in Hx. lia. }
  pose proof (Hkeep b Hb Hbf) as (pre1 & post1 & E1)%list_elem_of_split.
  rewrite E1 in Hi2, Hnew.
  destruct (free_spec _ _ _ _ Hi2 Hbf) as (s' & Ef & Hi' & _ & Hd').
  rewrite Ef, bind_Ret. eexists _, _. split; [reflexivity|]. right. split; [done|].
  assert (∀ c, c ∈ bs1 → c ≠ b → c ∈ pre1 ++ post1) as Hrest.
  { intros c. rewrite E1, !elem_of_app, elem_of_cons. naive_solver. }
  assert (nb ≠ b) as Hnb.
  { intros E. rewrite <- E in Hsep. unfold b_end in Hsep. cbn in Hsep. lia. }
  rewrite <- E1 in Hnew. specialize (Hrest nb Hnew Hnb) as Hnb1.
  exists (free_blocks pre1 b post1). split_and!; [done|by apply free_blocks_elem| |].
  - intros i Hi3. rewrite (Hd' nb Hnb1 eq_refl) by (unfold b_data, b_end; cbn; lia).
    cbn [with_mem u_mem]. rewrite Hm2, decide_True by lia.
    replace (b_data b + (p + i - p)) with (b_data b + i) by lia.
    apply (Hd1 b Hb Hbf). unfold b_data, b_end. lia.
  - intros c Hc Hcb Hcf. specialize (Hrest c (Hkeep c Hc Hcf) Hcb) as Hc1.
    split; [by apply free_blocks_elem|]. intros x Hx.
    rewrite (Hd' c Hc1 Hcf x Hx). cbn [with_mem u_mem].
    pose proof (malloc_post_new _ _ _ _ _ c Hpost (hi_tiles _ _ Hi) Hpn Hc Hcf).
    rewrite Hm2, decide_False by (unfold b_data, b_end in *; lia).
    by apply (Hd1 c Hc Hcf).
Qed.
End Proofs.
