(* ===== verification/UserHeap.v ===== *)
(** * What a user program may rely on (lib/user/stdlib.c)

    The client's view of the allocator of [UserMalloc]: programs as sequences of
    [malloc], [free], [realloc] calls and writes to live blocks, the invariant
    every such sequence keeps, and the behaviour on requests too large for the
    32-bit size computation.  [bump] is the smallest kernel that satisfies the
    [sbrk] interface; it serves as the concrete instance of the examples. *)
From S2P Require Import Prelude Mem KList UserMalloc.

(** ** A concrete kernel

    The break alone, with a limit above which [sbrk] fails. *)
Record bump := Bump { bump_break : Z; bump_limit : Z }.

#[export] Instance bump_sbrk : Sbrk bump := {
  k_break := bump_break;
  k_sbrk k m inc :=
    if bump_break k + inc <=? Z.min (bump_limit k) 2147483647
    then (bump_break k, m, Bump (bump_break k + inc) (bump_limit k))
    else (SBRK_ERROR, m, k);
}.

#[export] Instance bump_laws : SbrkLaws bump.
Proof.
  split; cbn; intros k m inc.
  - intros m' k' Hinc.
    destruct (Z.leb_spec (bump_break k + inc) (bump_limit k `min` 2147483647)).
    + intros [= E _ _]. change SBRK_ERROR with 4294967295 in E. lia.
    + by intros [= <- <-].
  - intros r m' k' Hinc.
    destruct (Z.leb_spec (bump_break k + inc) (bump_limit k `min` 2147483647)).
    + intros [= <- <- <-] _. cbn. split_and!; auto; lia.
    + by intros [= <- _ _].
Qed.

(** ** Programs *)
Section Client.
Context {K : Type} `{SbrkLaws K} (MM_LIST heap_start : Z) (fuel : nat).
(** A heap segment of at most 2^31 bytes has fewer than 2^27 headers. *)
Context (Hfuel : 134217728 < Z.of_nat fuel).
Implicit Types (s : ustate K) (bs : list blk) (live : list (Z * Z)).

(** [reach s live]: a program that starts with an empty heap segment can be in
    library state [s] owning the blocks [live] (pointer and size). *)
Inductive reach : ustate K → list (Z * Z) → Prop :=
| reach_start s :
    u_init s = false → k_break (u_k s) = heap_start → heap_start ≤ 2147483648 →
    0 < MM_LIST → MM_LIST + 16 ≤ heap_start → reach s []
| reach_malloc s live size p s' :
    reach s live → 0 < size → size + 16 < 2147483648 →
    malloc MM_LIST fuel s size = Ret (p, s') →
    reach s' (if p =? NULL then live else (p, size) :: live)
| reach_free s l1 l2 p size s' :
    reach s (l1 ++ (p, size) :: l2) → free MM_LIST s p = Ret s' →
    reach s' (l1 ++ l2)
| reach_write s live p size i v :
    reach s live → (p, size) ∈ live → 0 ≤ i < size →
    reach (with_mem s (store8 (u_mem s) (p + i) v)) live.

(** The blocks a program owns are allocated blocks of the heap, each once. *)
Definition owns bs live : Prop :=
  NoDup live ∧ ∀ p size, (p, size) ∈ live → Blk (p - 16) size false ∈ bs ∧ 0 < size.

Lemma tiles_length lo bs hi : tiles lo bs hi → 16 * Z.of_nat (length bs) ≤ hi - lo.
Proof.
  revert lo. induction bs as [|b bs IH]; intros lo; cbn; [lia|].
  intros (<- & ? & H'%IH). unfold b_end in H'. lia.
Qed.

Lemma user_heap_fuel s bs :
  user_heap MM_LIST heap_start s bs → (length bs < fuel)%nat.
Proof using Hfuel.
  intros [Hi|(_ & -> & _)]; [|cbn; lia].
  pose proof (tiles_length _ _ _ (hi_tiles _ _ _ _ Hi)).
  pose proof (hi_place _ _ _ _ Hi). pose proof (hi_top _ _ _ _ Hi).
  pose proof (dll_pos _ _ _ (hi_list _ _ _ _ Hi)). lia.
Qed.

Lemma owns_inited s bs live p size :
  user_heap MM_LIST heap_start s bs → owns bs live → (p, size) ∈ live →
  heap_inv MM_LIST heap_start s bs.
Proof.
  intros [?|(_ & -> & _)] [_ Ho] Hp; [done|].
  destruct (Ho _ _ Hp) as [[]%elem_of_nil _].
Qed.

Lemma NoDup_drop {A} (l1 : list A) x l2 : NoDup (l1 ++ x :: l2) → NoDup (l1 ++ l2) ∧ x ∉ l1 ++ l2.
Proof.
  rewrite <- Permutation_middle. intros [? ?]%NoDup_cons. done.
Qed.

Lemma owns_free pre b post l1 l2 p size :
  b = Blk (p - 16) size false →
  owns (pre ++ b :: post) (l1 ++ (p, size) :: l2) →
  owns (free_blocks pre b post) (l1 ++ l2).
Proof.
  intros Eb [Hnd Ho]. apply NoDup_drop in Hnd as [Hnd Hni]. split; [done|].
  intros q sz Hq. destruct (Ho q sz) as [Hin Hsz].
  { rewrite elem_of_app, elem_of_cons in *. naive_solver. }
  split; [|done]. apply free_blocks_elem; [|done].
  rewrite elem_of_app, elem_of_cons in Hin. rewrite elem_of_app.
  destruct Hin as [?|[E|?]]; auto. exfalso. apply Hni.
  rewrite Eb in E. injection E as E1 ->. by replace p with q by lia.
Qed.

Lemma owns_malloc s bs size p s' live :
  user_heap MM_LIST heap_start s bs → owns bs live → 0 < size →
  malloc_post MM_LIST heap_start s bs size p s' →
  ∃ bs', heap_inv MM_LIST heap_start s' bs'
    ∧ owns bs' (if p =? NULL then live else (p, size) :: live).
Proof.
  intros Hu [Hnd Ho] Hs Hpost.
  assert (tiles heap_start bs (k_break (u_k s))) as Ht.
  { destruct Hu as [Hi|(_ & -> & -> & _)]; [apply Hi|done]. }
  destruct (malloc_post_blocks _ _ _ _ _ _ _ Hpost Hs) as (bs' & Hi & Hk & Hn & _).
  exists bs'. split; [done|]. destruct (Z.eqb_spec p NULL) as [->|Hpn].
  - split; [done|]. intros q sz [Hq ?]%Ho. auto.
  - split.
    + constructor; [|done]. intros [Hq _]%Ho.
      pose proof (malloc_post_new _ _ _ _ _ _ _ _ Hpost Ht Hpn Hq eq_refl) as Hsep.
      unfold b_end in Hsep. cbn in Hsep. lia.
    + intros q sz [[= -> ->]|Hq]%elem_of_cons; [auto|].
      destruct (Ho _ _ Hq). auto.
Qed.

Lemma reach_inv s live :
  reach s live → ∃ bs, user_heap MM_LIST heap_start s bs ∧ owns bs live.
Proof using All.
  induction 1 as [s H1 H2 H3 H4 H5|s live size p s' _ (bs & Hu & Ho) Hs1 Hs2 E
                 |s l1 l2 p size s' _ (bs & Hu & Ho) E
                 |s live p size i v _ (bs & Hu & Ho) Hp Hi].
  - exists []. split; [right; done|]. split; [constructor|]. by intros ? ? ?%elem_of_nil.
  - pose proof (user_heap_fuel _ _ Hu) as Hf.
    destruct (malloc_spec _ _ _ _ _ _ Hu Hs1 Hs2 Hf) as (p' & s'' & E' & Hpost & _).
    rewrite E in E'. injection E' as <- <-.
    destruct (owns_malloc _ _ _ _ _ _ Hu Ho Hs1 Hpost) as (bs' & Hi & Ho').
    exists bs'. split; [by left|done].
  - assert (Blk (p - 16) size false ∈ bs) as Hb.
    { apply Ho. rewrite elem_of_app. right. left. }
    pose proof (owns_inited _ _ _ p size Hu Ho ltac:(elem)) as Hi.
    apply list_elem_of_split in Hb as (pre & post & ->).
    destruct (free_spec _ _ _ _ _ _ Hi eq_refl) as (s'' & E' & Hi' & _).
    unfold b_data in E'. cbn in E'. replace (p - 16 + 16) with p in E' by lia.
    rewrite E in E'. injection E' as <-.
    eexists. split; [left; exact Hi'|]. by eapply owns_free.
  - exists bs. split; [|done]. left.
    destruct (proj2 Ho _ _ Hp) as [Hb _].
    eapply heap_inv_data; [by eapply owns_inited|exact Hb|].
    intros x Hx. apply load8_store8_ne. unfold b_data, b_end in Hx. cbn in Hx. lia.
Qed.

(** What a live block is: an allocated block between the heap's bounds. *)
Lemma live_block s live p size :
  reach s live → (p, size) ∈ live →
  ∃ bs, owns bs live ∧ tiles heap_start bs (k_break (u_k s)) ∧ Blk (p - 16) size false ∈ bs
    ∧ heap_start + 16 ≤ p ∧ p + size ≤ k_break (u_k s).
Proof using All.
  intros Hr Hp. destruct (reach_inv _ _ Hr) as (bs & Hu & Ho). exists bs.
  pose proof (hi_tiles _ _ _ _ (owns_inited _ _ _ _ _ Hu Ho Hp)) as Ht.
  destruct (proj2 Ho _ _ Hp) as [Hb _]. destruct (tiles_elem _ _ _ _ Ht Hb) as (? & _ & ?).
  unfold b_end in *. cbn in *. split_and!; try done; lia.
Qed.
End Client.

(** ** A concrete program

    The list at address 16, an empty heap segment from 4096 on, and a block of a
    hundred bytes. *)
Definition demo_start : ustate bump := UState ∅ (Bump 4096 100000) false.

Lemma demo_start_heap : user_heap 16 4096 demo_start [].
Proof. right. split_and!; try done; cbn; lia. Qed.

Lemma demo_block :
  ∃ s b, heap_inv 16 4096 s [b] ∧ b_free b = false ∧ b_size b = 100.
Proof.
  destruct (malloc_spec 16 4096 5 demo_start [] 100 demo_start_heap) as (p & s & E & Hpost & _);
    [lia|lia|cbn; lia|].
  assert (fst <$> malloc 16 5 demo_start 100 = Ret 4112) as E' by (vm_compute; reflexivity).
  rewrite E in E'. injection E' as ->.
  destruct Hpost as [(Hp & _)|(_ & Hi & _)]; [discriminate Hp|].
  exists s, (Blk 4096 100 false). exact (conj Hi (conj eq_refl eq_refl)).
Qed.

Lemma demo_empty : ∃ s : ustate bump, heap_inv 16 4096 s [] ∧ u_k s = Bump 4096 100000.
Proof.
  destruct (list_init_dll ∅ 16) as (m & _ & Hm & _); [lia|lia|].
  exists (UState m (Bump 4096 100000) true). split; [|done]. split; cbn; try done; lia.
Qed.

Lemma demo_reach (n : nat) :
  134217728 < Z.of_nat (2 + n) → ∃ s : ustate bump, reach 16 4096 (2 + n) s [(4112, 100)].
Proof.
  intros Hn. assert (reach 16 4096 (2 + n) demo_start []) as H0.
  { apply reach_start; try done; cbn; lia. }
  assert (fst <$> malloc 16 (2 + n) demo_start 100 = Ret 4112) as E' by (vm_compute; reflexivity).
  destruct (malloc 16 (2 + n) demo_start 100) as [[p s]| |] eqn:E; [|discriminate E'..].
  injection E' as ->.
  exists s. exact (reach_malloc 16 4096 (2 + n) _ _ 100 _ _ H0 ltac:(lia) ltac:(lia) E).
Qed.

(** ** Correctness of the allocator *)
Section Theorems.
Context {K : Type} `{SbrkLaws K} (MM_LIST heap_start : Z) (fuel : nat).
Implicit Types (s : ustate K) (bs : list blk) (live : list (Z * Z)).


(** C3: [free] of an allocated block marks it free and merges it with the free
    blocks around it, so that no two adjacent blocks are free; the break does not
    move and no other block's contents change. *)
Theorem free_correct s pre b post :
  heap_inv MM_LIST heap_start s (pre ++ b :: post) → b_free b = false →
  ∃ s', free MM_LIST s (b_data b) = Ret s'
    ∧ heap_inv MM_LIST heap_start s' (free_blocks pre b post) ∧ u_k s' = u_k s
    ∧ data_kept (pre ++ post) (u_mem s) (u_mem s').
Proof. apply free_spec. Qed.

(** [realloc] of an allocated block to a positive size either returns null and
    keeps the block and every other one, or returns a block of the new size that
    starts with the old contents, up to the smaller of the two sizes, and leaves all
    other allocated blocks as they were. *)
Theorem realloc_correct s bs b size :
  heap_inv MM_LIST heap_start s bs → b ∈ bs → b_free b = false →
  0 < size → size + 16 < 2147483648 → (length bs < fuel)%nat →
  ∃ p s', realloc MM_LIST fuel s (b_data b) size = Ret (p, s')
    ∧ ((p = NULL ∧ heap_inv MM_LIST heap_start s' bs
        ∧ data_kept bs (u_mem s) (u_mem s'))
       ∨ (p ≠ NULL ∧ realloc_moved MM_LIST heap_start s bs b size p s')).
Proof. apply realloc_spec_gen. Qed.

(** C5: Whatever sequence of [malloc], of sizes with [size + 16] below 2^31, of [free]
    and of writes to its own blocks a program runs, the blocks it owns lie inside the heap
    segment and no two of them overlap, nor does a block overlap another one's header.  (A
    size nearer to 2^32 wraps in [malloc], which then returns a block that is not there.) *)
Theorem client_heap_safe s live :
  134217728 < Z.of_nat fuel → reach MM_LIST heap_start fuel s live →
  (∀ p size, (p, size) ∈ live → heap_start + 16 ≤ p ∧ p + size ≤ k_break (u_k s))
  ∧ (∀ p size q size', (p, size) ∈ live → (q, size') ∈ live → (p, size) ≠ (q, size') →
       p + size ≤ q - 16 ∨ q + size' ≤ p - 16).
Proof.
  intros Hf Hr. split.
  - intros p size Hp. by destruct (live_block _ _ _ Hf _ _ _ _ Hr Hp) as (bs & _ & _ & _ & ? & ?).
  - intros p size q size' Hp Hq Hne.
    destruct (live_block _ _ _ Hf _ _ _ _ Hr Hp) as (bs & Ho & Ht & Hb1 & _).
    destruct (proj2 Ho _ _ Hq) as [Hb2 ?].
    destruct (tiles_sep _ _ _ _ _ Ht Hb1 Hb2) as [E|E].
    + injection E as E ->. exfalso. apply Hne. f_equal. lia.
    + unfold b_end in E. cbn in E. lia.
Qed.

(** C8: In every state such a program can reach, the library's calls return: each
    [malloc] of a size the 32-bit arithmetic can hold, and [free] of each owned
    block; the fuel of the search bounds the number of blocks a segment of 2^31
    bytes can hold. *)
Theorem client_progress s live :
  134217728 < Z.of_nat fuel → reach MM_LIST heap_start fuel s live →
  (∀ size, 0 < size → size + 16 < 2147483648 →
     ∃ p s', malloc MM_LIST fuel s size = Ret (p, s'))
  ∧ (∀ p size, (p, size) ∈ live → ∃ s', free MM_LIST s p = Ret s').
Proof.
  intros Hf Hr. destruct (reach_inv _ _ _ Hf _ _ Hr) as (bs & Hu & Ho). split.
  - intros size Hs1 Hs2. pose proof (user_heap_fuel _ _ _ Hf _ _ Hu) as Hl.
    destruct (malloc_spec _ _ _ _ _ _ Hu Hs1 Hs2 Hl) as (p & s' & E & _). eauto.
  - intros p size Hp. pose proof (owns_inited _ _ _ _ _ _ _ Hu Ho Hp) as Hi.
    destruct (proj2 Ho _ _ Hp) as [Hb _].
    apply list_elem_of_split in Hb as (pre & post & ->).
    destruct (free_spec _ _ _ _ _ _ Hi eq_refl) as (s' & E & _).
    unfold b_data in E. cbn in E. replace (p - 16 + 16) with p in E by lia. eauto.
Qed.
End Theorems.


Lemma free_witness :
  ∃ (s s' : ustate bump) b, free 16 s (b_data b) = Ret s' ∧ u_k s' = u_k s.
Proof.
  destruct demo_block as (s & b & Hi & Hf & _).
  destruct (free_correct 16 4096 s [] b [] Hi Hf) as (s' & E & _ & Hk & _).
  exists s, s', b. split; [exact E|exact Hk].
Defined.

Lemma realloc_witness :
  ∃ (s : ustate bump) b p s', realloc 16 5 s (b_data b) 500 = Ret (p, s').
Proof.
  destruct demo_block as (s & b & Hi & Hf & _).
  destruct (realloc_correct 16 4096 5 s [b] b 500 Hi) as (p & s' & E & _);
    [left|exact Hf|lia|lia|cbn; lia|].
  exists s, b, p, s'. exact E.
Defined.

Lemma client_heap_safe_witness :
  ∃ s : ustate bump, 4112 + 100 ≤ k_break (u_k s).
Proof.
  destruct (demo_reach (Z.to_nat 134217728)) as (s & Hr); [lia|].
  exists s. apply (client_heap_safe 16 4096 (2 + Z.to_nat 134217728) s _ ltac:(lia) Hr). left.
Defined.

Lemma client_progress_witness :
  ∃ s s' : ustate bump, free 16 s 4112 = Ret s'.
Proof.
  destruct (demo_reach (Z.to_nat 134217728)) as (s & Hr); [lia|].
  exists s. apply (client_progress 16 4096 (2 + Z.to_nat 134217728) s _ ltac:(lia) Hr) with 100. left.
Defined.

(** A request of 2^32 - 16 bytes does not fail.  The size handed to [sbrk] is
    the sum with the header size, which wraps to zero, so [malloc] returns a pointer
    although the heap segment has not grown at all. *)
Theorem malloc_size_overflow MM_LIST heap_start fuel (s : ustate bump) :
  heap_inv MM_LIST heap_start s [] → (0 < fuel)%nat →
  k_break (u_k s) ≤ bump_limit (u_k s) → k_break (u_k s) < 2147483648 →
  ∃ p s', malloc MM_LIST fuel s 4294967280 = Ret (p, s')
    ∧ p = k_break (u_k s) + 16 ∧ u_k s' = u_k s.
Proof.
  intros Hi Hf Hlim Hbrk.
  pose proof (dll_pos _ _ _ (hi_list _ _ _ _ Hi)) as Hpos.
  pose proof (hi_place _ _ _ _ Hi). pose proof (hi_tiles _ _ _ _ Hi) as Ht. cbn in Ht.
  unfold malloc, init_configs. rewrite (hi_init _ _ _ _ Hi). cbn [negb].
  rewrite bind_Ret. change (4294967280 =? 0) with false. cbn iota.
  rewrite (list_begin_dll _ _ _ (hi_list _ _ _ _ Hi)), bind_Ret.
  unfold find_first_fit. cbn [hd fmap list_fmap].
  destruct (Z.eqb_spec (tail_of MM_LIST) NULL); [unfold tail_of, NULL in *; lia|].
  rewrite (list_head_dll _ _ _ (hi_list _ _ _ _ Hi)), bind_Ret.
  rewrite (list_tail_dll _ _ _ (hi_list _ _ _ _ Hi)), bind_Ret.
  destruct fuel as [|fuel]; [lia|]. cbn [find_first_fit_loop].
  rewrite Z.eqb_refl, andb_false_r, bind_Ret. cbn [Z.eqb NULL].
  unfold malloc_extend. change (s32 (u32 (HEADER_SIZE + 4294967280))) with 0.
  cbn [k_sbrk bump_sbrk k_break] in *. rewrite Z.add_0_r.
  destruct (Z.leb_spec (bump_break (u_k s)) (bump_limit (u_k s) `min` 2147483647)); [|lia].
  destruct (Z.eqb_spec (bump_break (u_k s)) SBRK_ERROR) as [E|_].
  { change SBRK_ERROR with 4294967295 in E. lia. }
  cbn [u_mem]. set (m2 := set_isFree _ _ _).
  assert (dll m2 MM_LIST []) as Hl2.
  { eapply dll_same; [|exact (hi_list _ _ _ _ Hi)]. intros nd Hn x Hx.
    unfold nodes, head_of, tail_of in Hn. cbn in Hn.
    rewrite !elem_of_cons, elem_of_nil in Hn.
    unfold m2, set_isFree, set_size. rewrite load8_store8_ne, load8_store32_ne by lia. done. }
  destruct (list_push_back_dll m2 MM_LIST [] (bump_break (u_k s)) Hl2) as (m3 & -> & _).
  { unfold node_ok. lia. }
  { unfold nodes, head_of, tail_of, disj. cbn. rewrite !Forall_cons, Forall_nil. lia. }
  rewrite bind_Ret. unfold HEADER_SIZE. rewrite u32_id by (unfold is_u32; lia).
  rewrite malloc_return_eq by (unfold NULL; lia).
  eexists _, _. split; [reflexivity|]. split; [done|]. cbn. by destruct (u_k s).
Qed.

Lemma malloc_size_overflow_witness :
  ∃ (s : ustate bump) p s', malloc 16 1 s 4294967280 = Ret (p, s') ∧ u_k s' = u_k s.
Proof.
  destruct demo_empty as (s & Hi & Hk).
  destruct (malloc_size_overflow 16 4096 1 s Hi) as (p & s' & E & _ & Hk');
    [lia|rewrite Hk; cbn; lia|cbn; rewrite Hk; cbn; lia|].
  exists s, p, s'. split; [exact E|exact Hk'].
Defined.
