(* ===== verification/Bitmap.v ===== *)
(** * Bitmaps (lib/kernel/bitmap.c)

    An array of bits kept in 32-bit words, used by the page allocator and the
    file system's free map.  The model keeps the words; [bit] reads the array of
    bits they represent, in terms of which every operation is specified. *)
From S2P Require Import Prelude.

(** ** Representation *)
Record bitmap := Bitmap { bit_cnt : Z; bits : list Z }.

Definition ELEM_BITS : Z := 32.
Definition BITMAP_ERROR : Z := 4294967295.

Definition elem_idx (bit_idx : Z) : Z := bit_idx / ELEM_BITS.
Definition bit_mask (bit_idx : Z) : Z := u32 (Z.shiftl 1 (bit_idx mod ELEM_BITS)).
Definition elem_cnt (bit_cnt : Z) : Z := DIV_ROUND_UP bit_cnt ELEM_BITS.
Definition byte_cnt (bit_cnt : Z) : Z := u32 (4 * elem_cnt bit_cnt).
Definition last_mask (b : bitmap) : Z :=
  let last_bits := bit_cnt b mod ELEM_BITS in
  if last_bits =? 0 then u32 (-1) else u32 (Z.shiftl 1 last_bits - 1).

Definition get_elem (b : bitmap) (i : Z) : Z := default 0 (bits b !! Z.to_nat i).
Definition upd_elem (b : bitmap) (i : Z) (f : Z → Z) : bitmap :=
  Bitmap (bit_cnt b) (alter f (Z.to_nat i) (bits b)).

(** ** Operations *)
Definition bitmap_size (b : bitmap) : Z := bit_cnt b.

Definition bitmap_mark (b : bitmap) (bit_idx : Z) : bitmap :=
  upd_elem b (elem_idx bit_idx) (λ w, Z.lor w (bit_mask bit_idx)).
Definition bitmap_reset (b : bitmap) (bit_idx : Z) : bitmap :=
  upd_elem b (elem_idx bit_idx) (λ w, Z.land w (u32 (Z.lnot (bit_mask bit_idx)))).
Definition bitmap_flip (b : bitmap) (bit_idx : Z) : bitmap :=
  upd_elem b (elem_idx bit_idx) (λ w, Z.lxor w (bit_mask bit_idx)).

Definition bitmap_set (b : bitmap) (idx : Z) (value : bool) : res bitmap :=
  ASSERT (idx <? bit_cnt b);;
  Ret (if value then bitmap_mark b idx else bitmap_reset b idx).

Definition bitmap_test (b : bitmap) (idx : Z) : res bool :=
  ASSERT (idx <? bit_cnt b);;
  Ret (negb (Z.land (get_elem b (elem_idx idx)) (bit_mask idx) =? 0)).

(** [for (i = 0; i < cnt; i++) bitmap_set (b, start + i, value);] with [n] the
    iterations left. *)
Fixpoint set_multiple_loop (n : nat) (b : bitmap) (start i : Z) (value : bool)
    : res bitmap :=
  match n with
  | O => Ret b
  | S n => b ← bitmap_set b (u32 (start + i)) value;
           set_multiple_loop n b start (i + 1) value
  end.
Definition bitmap_set_multiple (b : bitmap) (start cnt : Z) (value : bool) : res bitmap :=
  ASSERT (start <=? bit_cnt b);;
  ASSERT (u32 (start + cnt) <=? bit_cnt b);;
  set_multiple_loop (Z.to_nat cnt) b start 0 value.
Definition bitmap_set_all (b : bitmap) (value : bool) : res bitmap :=
  bitmap_set_multiple b 0 (bitmap_size b) value.

Fixpoint count_loop (n : nat) (b : bitmap) (start i value_cnt : Z) (value : bool)
    : res Z :=
  match n with
  | O => Ret value_cnt
  | S n =>
    t ← bitmap_test b (u32 (start + i));
    count_loop n b start (i + 1)
      (if eqb t value then u32 (value_cnt + 1) else value_cnt) value
  end.
Definition bitmap_count (b : bitmap) (start cnt : Z) (value : bool) : res Z :=
  ASSERT (start <=? bit_cnt b);;
  ASSERT (u32 (start + cnt) <=? bit_cnt b);;
  count_loop (Z.to_nat cnt) b start 0 0 value.

Fixpoint contains_loop (n : nat) (b : bitmap) (start i : Z) (value : bool) : res bool :=
  match n with
  | O => Ret false
  | S n =>
    t ← bitmap_test b (u32 (start + i));
    if eqb t value then Ret true else contains_loop n b start (i + 1) value
  end.
Definition bitmap_contains (b : bitmap) (start cnt : Z) (value : bool) : res bool :=
  ASSERT (start <=? bit_cnt b);;
  ASSERT (u32 (start + cnt) <=? bit_cnt b);;
  contains_loop (Z.to_nat cnt) b start 0 value.
Definition bitmap_any (b : bitmap) (start cnt : Z) : res bool :=
  bitmap_contains b start cnt true.
Definition bitmap_none (b : bitmap) (start cnt : Z) : res bool :=
  negb <$> bitmap_contains b start cnt true.
Definition bitmap_all (b : bitmap) (start cnt : Z) : res bool :=
  negb <$> bitmap_contains b start cnt false.

(** [for (i = start; i <= last; i++)] of [bitmap_scan], [n] iterations left. *)
Fixpoint scan_loop (n : nat) (b : bitmap) (i cnt : Z) (value : bool) : res Z :=
  match n with
  | O => Ret BITMAP_ERROR
  | S n =>
    c ← bitmap_contains b i cnt (negb value);
    if negb c then Ret i else scan_loop n b (i + 1) cnt value
  end.
Definition bitmap_scan (b : bitmap) (start cnt : Z) (value : bool) : res Z :=
  ASSERT (start <=? bit_cnt b);;
  if cnt <=? bit_cnt b then
    let last := bit_cnt b - cnt in
    scan_loop (Z.to_nat (last + 1 - start)) b start cnt value
  else Ret BITMAP_ERROR.
Definition bitmap_scan_and_flip (b : bitmap) (start cnt : Z) (value : bool)
    : res (Z * bitmap) :=
  idx ← bitmap_scan b start cnt value;
  if negb (idx =? BITMAP_ERROR) then
    b ← bitmap_set_multiple b idx cnt (negb value); Ret (idx, b)
  else Ret (idx, b).

Definition bitmap_buf_size (bit_cnt : Z) : Z := u32 (8 + byte_cnt bit_cnt).

(** [words] is the storage that follows the [struct bitmap] in the block. *)
Definition bitmap_create_in_buf (bit_cnt : Z) (words : list Z) (block_size : Z)
    : res bitmap :=
  ASSERT (bitmap_buf_size bit_cnt <=? block_size);;
  bitmap_set_all (Bitmap bit_cnt (take (Z.to_nat (elem_cnt bit_cnt)) words)) false.

(** ** The bits *)
Definition bit (b : bitmap) (i : Z) : bool :=
  Z.testbit (get_elem b (elem_idx i)) (i mod ELEM_BITS).

(** The words are 32-bit and there are enough of them; the bound on the count
    keeps the rounding of [elem_cnt] and the result [BITMAP_ERROR] apart from
    bit numbers. *)
Record bitmap_wf (b : bitmap) : Prop := {
  bw_cnt : 0 ≤ bit_cnt b < 4294967264;
  bw_words : Forall is_u32 (bits b);
  bw_length : Z.of_nat (length (bits b)) = elem_cnt (bit_cnt b);
}.

Lemma elem_cnt_small n : 0 ≤ n < 4294967264 → elem_cnt n = (n + 31) / 32.
Proof.
  intros. unfold elem_cnt, DIV_ROUND_UP, ELEM_BITS.
  rewrite u32_id by (unfold is_u32; lia). f_equal. lia.
Qed.

Lemma elem_idx_bound b i :
  bitmap_wf b → 0 ≤ i < bit_cnt b → 0 ≤ elem_idx i < Z.of_nat (length (bits b)).
Proof.
  intros [Hc _ Hl] Hi. rewrite Hl, elem_cnt_small by done.
  unfold elem_idx, ELEM_BITS. Z.to_euclidean_division_equations. lia.
Qed.

Lemma get_elem_u32 b i : bitmap_wf b → is_u32 (get_elem b i).
Proof.
  intros [_ Hw _]. unfold get_elem. destruct (bits b !! Z.to_nat i) eqn:E; cbn.
  - rewrite Forall_lookup in Hw. eauto.
  - unfold is_u32. lia.
Qed.

Lemma get_upd_elem b i j f :
  0 ≤ i < Z.of_nat (length (bits b)) → 0 ≤ j →
  get_elem (upd_elem b i f) j = if decide (i = j) then f (get_elem b i) else get_elem b j.
Proof.
  intros Hi Hj. unfold get_elem, upd_elem. cbn. rewrite list_lookup_alter.
  case_decide as E1; case_decide as E2; try lia; try done.
  subst. destruct (lookup_lt_is_Some_2 (bits b) (Z.to_nat j)) as [w ->]; [lia|done].
Qed.

Lemma bit_mask_pow i : bit_mask i = 2 ^ (i mod 32).
Proof.
  unfold bit_mask, ELEM_BITS. rewrite Z.shiftl_1_l. apply u32_id.
  pose proof (Z.mod_pos_bound i 32 ltac:(lia)). split; [apply Z.pow_nonneg; lia|].
  change 4294967296 with (2 ^ 32). apply Z.pow_lt_mono_r; lia.
Qed.

Lemma testbit_mask i k : 0 ≤ k → Z.testbit (bit_mask i) k = bool_decide (i mod 32 = k).
Proof.
  intros Hk. rewrite bit_mask_pow. pose proof (Z.mod_pos_bound i 32 ltac:(lia)).
  rewrite Z.pow2_bits_eqb by lia. by destruct (Z.eqb_spec (i mod 32) k), (bool_decide_reflect (i mod 32 = k)).
Qed.

(** The test of the code reads the bit. *)
Lemma land_mask_testbit w i :
  negb (Z.land w (bit_mask i) =? 0) = Z.testbit w (i mod 32).
Proof.
  pose proof (Z.mod_pos_bound i 32 ltac:(lia)) as Hk.
  destruct (Z.eqb_spec (Z.land w (bit_mask i)) 0) as [E|NE]; cbn.
  - assert (Z.testbit (Z.land w (bit_mask i)) (i mod 32) = false) as H
      by (rewrite E; apply Z.bits_0).
    rewrite Z.land_spec, testbit_mask, bool_decide_true, andb_true_r in H by lia. done.
  - destruct (Z.testbit w (i mod 32)) eqn:E; [done|]. exfalso. apply NE.
    apply Z.bits_inj'. intros k Hk'. rewrite Z.land_spec, testbit_mask, Z.bits_0 by done.
    case_bool_decide; [subst; by rewrite E|apply andb_false_r].
Qed.

(** Words updated bitwise stay 32-bit. *)
Lemma is_u32_bits z : is_u32 z ↔ 0 ≤ z ∧ ∀ k, 32 ≤ k → Z.testbit z k = false.
Proof.
  unfold is_u32. split.
  - intros [H1 H2]. split; [done|]. intros k Hk. destruct (decide (z = 0)) as [->|].
    + apply Z.bits_0.
    + apply Z.bits_above_log2; [lia|]. apply Z.log2_lt_pow2; [lia|].
      apply Z.lt_le_trans with (2 ^ 32); [done|]. apply Z.pow_le_mono_r; lia.
  - intros [H1 H2]. split; [done|]. destruct (decide (z = 0)) as [->|]; [lia|].
    change 4294967296 with (2 ^ 32). apply Z.log2_lt_pow2; [lia|].
    destruct (Z_lt_le_dec (Z.log2 z) 32) as [|Hl]; [done|].
    specialize (H2 _ Hl). rewrite Z.bit_log2 in H2; [done|lia].
Qed.

Lemma u32_testbit z k : Z.testbit (u32 z) k = (k <? 32) && Z.testbit z k.
Proof.
  unfold u32. change 4294967296 with (2 ^ 32).
  destruct (Z.ltb_spec k 32); cbn.
  - destruct (decide (0 ≤ k)); [by rewrite Z.mod_pow2_bits_low by lia|].
    by rewrite !Z.testbit_neg_r by lia.
  - by rewrite Z.mod_pow2_bits_high by lia.
Qed.

Lemma idx_inj i j : elem_idx i = elem_idx j → i mod 32 = j mod 32 → i = j.
Proof.
  unfold elem_idx, ELEM_BITS. intros. rewrite (Z.div_mod i 32), (Z.div_mod j 32) by lia.
  congruence.
Qed.

(** Updating one word so that only the bit of [i] changes, by [g]. *)
Lemma upd_bit_spec b i (f : Z → Z) (g : bool → bool) :
  bitmap_wf b → 0 ≤ i < bit_cnt b →
  (∀ w, is_u32 w → is_u32 (f w)) →
  (∀ w k, is_u32 w → 0 ≤ k < 32 → Z.testbit (f w) k =
     if decide (k = i mod 32) then g (Z.testbit w k) else Z.testbit w k) →
  bitmap_wf (upd_elem b (elem_idx i) f) ∧
  ∀ j, 0 ≤ j → bit (upd_elem b (elem_idx i) f) j =
               if decide (i = j) then g (bit b i) else bit b j.
Proof.
  intros Hwf Hi Hf Hg. pose proof (elem_idx_bound _ _ Hwf Hi) as Hb. split.
  - destruct Hwf as [Hc Hw Hl]. split; cbn; [done| |by rewrite length_alter].
    apply Forall_alter; [done|]. intros w _ Hw'. auto.
  - intros j Hj. unfold bit. change ELEM_BITS with 32.
    assert (0 ≤ elem_idx j) as Hj' by (apply Z.div_pos; unfold ELEM_BITS; lia).
    pose proof (Z.mod_pos_bound j 32 ltac:(lia)) as Hm.
    rewrite get_upd_elem by done. case_decide as E1.
    + rewrite Hg by (auto using get_elem_u32).
      case_decide as E2; case_decide as E3; subst; try done; try congruence.
      exfalso. apply E3. by apply idx_inj.
    + case_decide; subst; done.
Qed.

Lemma is_u32_lor a b : is_u32 a → is_u32 b → is_u32 (Z.lor a b).
Proof.
  rewrite !is_u32_bits. intros [? Ha] [? Hb]. split; [by apply Z.lor_nonneg|].
  intros k Hk. by rewrite Z.lor_spec, Ha, Hb.
Qed.
Lemma is_u32_land a b : is_u32 a → is_u32 (Z.land a b).
Proof.
  rewrite !is_u32_bits. intros [? Ha]. split; [apply Z.land_nonneg; auto|].
  intros k Hk. by rewrite Z.land_spec, Ha.
Qed.
Lemma is_u32_lxor a b : is_u32 a → is_u32 b → is_u32 (Z.lxor a b).
Proof.
  rewrite !is_u32_bits. intros [? Ha] [? Hb]. split; [apply Z.lxor_nonneg; tauto|].
  intros k Hk. by rewrite Z.lxor_spec, Ha, Hb.
Qed.
Lemma is_u32_bit_mask i : is_u32 (bit_mask i).
Proof. apply u32_range. Qed.
#[export] Hint Resolve is_u32_lor is_u32_land is_u32_lxor is_u32_bit_mask : word.

Lemma bitmap_mark_bits b i :
  bitmap_wf b → 0 ≤ i < bit_cnt b →
  bitmap_wf (bitmap_mark b i) ∧
  ∀ j, 0 ≤ j → bit (bitmap_mark b i) j = if decide (i = j) then true else bit b j.
Proof.
  intros Hwf Hi. apply (upd_bit_spec b i _ (λ _, true)); auto with word.
  intros w k _ Hk. rewrite Z.lor_spec, testbit_mask by lia.
  case_bool_decide; case_decide; try congruence; [apply orb_true_r|apply orb_false_r].
Qed.

Lemma bitmap_reset_bits b i :
  bitmap_wf b → 0 ≤ i < bit_cnt b →
  bitmap_wf (bitmap_reset b i) ∧
  ∀ j, 0 ≤ j → bit (bitmap_reset b i) j = if decide (i = j) then false else bit b j.
Proof.
  intros Hwf Hi. apply (upd_bit_spec b i _ (λ _, false)); auto with word.
  intros w k _ Hk. rewrite Z.land_spec, u32_testbit, Z.lnot_spec, testbit_mask by lia.
  destruct (Z.ltb_spec k 32); [|lia].
  case_bool_decide; case_decide; try congruence; [apply andb_false_r|apply andb_true_r].
Qed.

Lemma bitmap_flip_bits b i :
  bitmap_wf b → 0 ≤ i < bit_cnt b →
  bitmap_wf (bitmap_flip b i) ∧
  ∀ j, 0 ≤ j → bit (bitmap_flip b i) j = if decide (i = j) then negb (bit b i) else bit b j.
Proof.
  intros Hwf Hi. apply (upd_bit_spec b i _ negb); auto with word.
  intros w k _ Hk. rewrite Z.lxor_spec, testbit_mask by lia.
  case_bool_decide; case_decide; try congruence; [apply xorb_true_r|apply xorb_false_r].
Qed.

Lemma bitmap_set_spec b i v :
  bitmap_wf b → 0 ≤ i < bit_cnt b →
  ∃ b', bitmap_set b i v = Ret b' ∧ bitmap_wf b' ∧ bit_cnt b' = bit_cnt b
    ∧ ∀ j, 0 ≤ j → bit b' j = if decide (i = j) then v else bit b j.
Proof.
  intros Hwf Hi. unfold bitmap_set. rewrite ASSERT_true by lia.
  eexists. split; [reflexivity|]. destruct v.
  - by destruct (bitmap_mark_bits b i Hwf Hi).
  - by destruct (bitmap_reset_bits b i Hwf Hi).
Qed.

Lemma bitmap_test_spec b i :
  0 ≤ i < bit_cnt b → bitmap_test b i = Ret (bit b i).
Proof.
  intros Hi. unfold bitmap_test. rewrite ASSERT_true by lia.
  by rewrite land_mask_testbit.
Qed.

Lemma set_multiple_loop_spec n : ∀ b start i v,
  bitmap_wf b → 0 ≤ start → 0 ≤ i → start + i + Z.of_nat n ≤ bit_cnt b →
  ∃ b', set_multiple_loop n b start i v = Ret b' ∧ bitmap_wf b'
    ∧ bit_cnt b' = bit_cnt b
    ∧ ∀ j, 0 ≤ j → bit b' j =
        if decide (start + i ≤ j < start + i + Z.of_nat n) then v else bit b j.
Proof.
  induction n as [|n IH]; intros b start i v Hwf Hs Hi Hb; cbn [set_multiple_loop].
  - exists b. split_and!; try done. intros j Hj. case_decide; [lia|done].
  - pose proof (bw_cnt _ Hwf). rewrite u32_id by (unfold is_u32; lia).
    destruct (bitmap_set_spec b (start + i) v Hwf) as (b1 & -> & Hwf1 & Hc1 & Hb1); [lia|].
    rewrite bind_Ret.
    destruct (IH b1 start (i + 1) v Hwf1) as (b' & -> & Hwf' & Hc' & Hb'); try lia.
    exists b'. split_and!; try done; [by rewrite Hc'|]. intros j Hj.
    rewrite Hb', Hb1 by done. repeat case_decide; try lia; done.
Qed.

(** The range is in bounds and the C test for it does not wrap. *)
Definition range_ok (b : bitmap) (start cnt : Z) : Prop :=
  0 ≤ start ∧ 0 ≤ cnt ∧ start + cnt ≤ bit_cnt b.

Lemma range_asserts {B} b start cnt (k : unit → unit → res B) :
  bitmap_wf b → range_ok b start cnt →
  (ASSERT (start <=? bit_cnt b) ≫= λ x, ASSERT (u32 (start + cnt) <=? bit_cnt b) ≫= k x)
  = k tt tt.
Proof.
  intros Hwf (H1 & H2 & H3). pose proof (bw_cnt _ Hwf).
  rewrite u32_id by (unfold is_u32; lia). by rewrite !ASSERT_true by lia.
Qed.

Lemma bitmap_set_multiple_spec b start cnt v :
  bitmap_wf b → range_ok b start cnt →
  ∃ b', bitmap_set_multiple b start cnt v = Ret b' ∧ bitmap_wf b'
    ∧ bit_cnt b' = bit_cnt b
    ∧ ∀ j, 0 ≤ j → bit b' j =
        if decide (start ≤ j < start + cnt) then v else bit b j.
Proof.
  intros Hwf Hr. unfold bitmap_set_multiple.
  rewrite (range_asserts b start cnt (λ _ _, _) Hwf Hr). destruct Hr as (H1 & H2 & H3).
  destruct (set_multiple_loop_spec (Z.to_nat cnt) b start 0 v Hwf)
    as (b' & -> & Hwf' & Hc & Hb); try lia.
  exists b'. split_and!; try done. intros j Hj. rewrite Hb by done.
  by rewrite Z.add_0_r, Z2Nat.id by lia.
Qed.

(** All bits of a range have the value [v]. *)
Definition all_bits (b : bitmap) (start cnt : Z) (v : bool) : Prop :=
  ∀ j, start ≤ j < start + cnt → bit b j = v.

#[export] Instance all_bits_dec b start cnt v : Decision (all_bits b start cnt v).
Proof.
  refine (cast_if (decide (Forall (λ j, bit b j = v) (seqZ start cnt)))).
  - intros j Hj. rewrite Forall_forall in *. apply f. by apply elem_of_seqZ.
  - intros Ha. apply n. apply Forall_forall. intros j Hj%elem_of_seqZ. auto.
Defined.

Lemma contains_loop_spec n : ∀ b start i v,
  bitmap_wf b → 0 ≤ start → 0 ≤ i → start + i + Z.of_nat n ≤ bit_cnt b →
  contains_loop n b start i v
  = Ret (negb (bool_decide (all_bits b (start + i) (Z.of_nat n) (negb v)))).
Proof.
  induction n as [|n IH]; intros b start i v Hwf Hs Hi Hb; cbn [contains_loop].
  - rewrite bool_decide_true; [done|]. intros j Hj. lia.
  - pose proof (bw_cnt _ Hwf). rewrite u32_id by (unfold is_u32; lia).
    rewrite bitmap_test_spec, bind_Ret by lia.
    destruct (eqb (bit b (start + i)) v) eqn:E.
    + apply eqb_prop in E. rewrite bool_decide_false; [done|]. intros Ha.
      specialize (Ha (start + i) ltac:(lia)). rewrite Ha in E. by destruct v.
    + rewrite IH by (try done; lia). f_equal. f_equal. apply bool_decide_ext.
      apply eqb_false_iff in E. unfold all_bits. split; intros Ha j Hj.
      * destruct (decide (j = start + i)) as [->|]; [|apply Ha; lia].
        by destruct (bit b (start + i)), v.
      * apply Ha. lia.
Qed.

Lemma bitmap_contains_spec b start cnt v :
  bitmap_wf b → range_ok b start cnt →
  bitmap_contains b start cnt v = Ret (negb (bool_decide (all_bits b start cnt (negb v)))).
Proof.
  intros Hwf Hr. unfold bitmap_contains.
  rewrite (range_asserts b start cnt (λ _ _, _) Hwf Hr). destruct Hr as (H1 & H2 & H3).
  rewrite contains_loop_spec by (try done; lia). by rewrite Z.add_0_r, Z2Nat.id by lia.
Qed.

Lemma bitmap_all_spec b start cnt :
  bitmap_wf b → range_ok b start cnt →
  bitmap_all b start cnt = Ret (bool_decide (all_bits b start cnt true)).
Proof.
  intros Hwf Hr. unfold bitmap_all. rewrite bitmap_contains_spec by done.
  cbn. by rewrite negb_involutive.
Qed.

(** [bitmap_scan]: the smallest index at or after [start] where a run begins. *)
Definition first_run (b : bitmap) (start cnt : Z) (v : bool) (r : Z) : Prop :=
  (start ≤ r ∧ r + cnt ≤ bit_cnt b ∧ all_bits b r cnt v
   ∧ ∀ i, start ≤ i < r → ¬ all_bits b i cnt v)
  ∨ (r = BITMAP_ERROR ∧ ∀ i, start ≤ i → i + cnt ≤ bit_cnt b → ¬ all_bits b i cnt v).

Lemma scan_loop_spec n : ∀ b i cnt v,
  bitmap_wf b → 0 ≤ i → 0 ≤ cnt → bit_cnt b - cnt + 1 - i = Z.of_nat n →
  ∃ r, scan_loop n b i cnt v = Ret r ∧ first_run b i cnt v r.
Proof.
  induction n as [|n IH]; intros b i cnt v Hwf Hi Hc Hn; cbn [scan_loop].
  - exists BITMAP_ERROR. split; [done|]. right. split; [done|]. lia.
  - rewrite bitmap_contains_spec by (try done; unfold range_ok; lia).
    rewrite bind_Ret, !negb_involutive. case_bool_decide as Ha.
    + exists i. split; [done|]. left. split_and!; try done; lia.
    + destruct (IH b (i + 1) cnt v Hwf) as (r & -> & Hr); try lia.
      exists r. split; [done|].
      assert (∀ j, i ≤ j < i + 1 → ¬ all_bits b j cnt v) as Hi'.
      { intros j Hj. by replace j with i by lia. }
      destruct Hr as [(? & ? & ? & Hlt)|(? & Hlt)]; [left|right]; split_and!; try done; try lia.
      * intros j Hj. destruct (decide (j < i + 1)); [apply Hi'; lia|apply Hlt; lia].
      * intros j Hj Hj'. destruct (decide (j < i + 1)); [apply Hi'; lia|apply Hlt; lia].
Qed.

Lemma bitmap_scan_spec b start cnt v :
  bitmap_wf b → 0 ≤ start ≤ bit_cnt b → 0 ≤ cnt →
  ∃ r, bitmap_scan b start cnt v = Ret r ∧ first_run b start cnt v r.
Proof.
  intros Hwf Hs Hc. unfold bitmap_scan. rewrite ASSERT_true by lia.
  destruct (Z.leb_spec cnt (bit_cnt b)).
  - destruct (decide (start ≤ bit_cnt b - cnt + 1)).
    + apply scan_loop_spec; try done; lia.
    + replace (Z.to_nat (bit_cnt b - cnt + 1 - start)) with O by lia. cbn.
      exists BITMAP_ERROR. split; [done|]. right. split; [done|]. lia.
  - exists BITMAP_ERROR. split; [done|]. right. split; [done|]. lia.
Qed.

Lemma bitmap_scan_and_flip_spec b start cnt v :
  bitmap_wf b → 0 ≤ start ≤ bit_cnt b → 0 ≤ cnt →
  ∃ r b', bitmap_scan_and_flip b start cnt v = Ret (r, b')
    ∧ first_run b start cnt v r ∧ bitmap_wf b' ∧ bit_cnt b' = bit_cnt b
    ∧ if decide (r = BITMAP_ERROR) then b' = b
      else ∀ j, 0 ≤ j → bit b' j = if decide (r ≤ j < r + cnt) then negb v else bit b j.
Proof.
  intros Hwf Hs Hc. destruct (bitmap_scan_spec b start cnt v Hwf Hs Hc) as (r & E & Hr).
  unfold bitmap_scan_and_flip. rewrite E, bind_Ret.
  destruct (Z.eqb_spec r BITMAP_ERROR) as [->|Hne]; cbn [negb].
  - exists BITMAP_ERROR, b. split_and!; try done.
  - destruct Hr as [Hr|[]]; [|done]. pose proof Hr as (H1 & H2 & _).
    destruct (bitmap_set_multiple_spec b r cnt (negb v) Hwf) as (b' & -> & ? & ? & Hb).
    { unfold range_ok. lia. }
    rewrite bind_Ret. exists r, b'. split_and!; try done; [by left|].
    case_decide; [done|]. done.
Qed.
