(* ===== verification/Vaddr.v ===== *)
(** * Addresses and page table entries (threads/vaddr.h, threads/pte.h)

    The bit-level macros and inline functions that take 32-bit virtual
    addresses apart and build x86 page directory and page table entries, with
    the arithmetic each one computes. *)
From S2P Require Import Prelude.

(** ** threads/vaddr.h *)
Definition BITMASK (shift cnt : Z) : Z := u32 (Z.shiftl (Z.shiftl 1 cnt - 1) shift).
Definition PGSHIFT : Z := 0.
Definition PGBITS : Z := 12.
Definition PGSIZE : Z := Z.shiftl 1 PGBITS.
Definition PGMASK : Z := BITMASK PGSHIFT PGBITS.

Definition pg_ofs (va : Z) : Z := Z.land va PGMASK.
Definition pg_no (va : Z) : Z := Z.shiftr va PGBITS.
Definition pg_round_up (va : Z) : Z := Z.land (u32 (va + PGSIZE - 1)) (u32 (Z.lnot PGMASK)).
Definition pg_round_down (va : Z) : Z := Z.land va (u32 (Z.lnot PGMASK)).

Definition PHYS_BASE : Z := 3221225472.
Definition is_user_vaddr (va : Z) : bool := va <? PHYS_BASE.
Definition is_kernel_vaddr (va : Z) : bool := PHYS_BASE <=? va.

Definition ptov (paddr : Z) : res Z :=
  ASSERT (paddr <? PHYS_BASE);; Ret (u32 (paddr + PHYS_BASE)).
Definition vtop (vaddr : Z) : res Z :=
  ASSERT (is_kernel_vaddr vaddr);; Ret (u32 (vaddr - PHYS_BASE)).

(** ** threads/pte.h *)
Definition PTSHIFT : Z := PGBITS.
Definition PTBITS : Z := 10.
Definition PTMASK : Z := BITMASK PTSHIFT PTBITS.
Definition PDSHIFT : Z := PTSHIFT + PTBITS.

Definition pt_no (va : Z) : Z := Z.shiftr (Z.land va PTMASK) PTSHIFT.
Definition pd_no (va : Z) : Z := Z.shiftr va PDSHIFT.

Definition PTE_ADDR : Z := 4294963200.
Definition PTE_P : Z := 1.
Definition PTE_W : Z := 2.
Definition PTE_U : Z := 4.
Definition PTE_A : Z := 32.
Definition PTE_D : Z := 64.

Definition pde_create (pt : Z) : res Z :=
  ASSERT (pg_ofs pt =? 0);;
  pa ← vtop pt;
  Ret (Z.lor (Z.lor (Z.lor pa PTE_U) PTE_P) PTE_W).
Definition pde_get_pt (pde : Z) : res Z :=
  ASSERT (negb (Z.land pde PTE_P =? 0));;
  ptov (Z.land pde PTE_ADDR).
Definition pte_create_kernel (page : Z) (writable : bool) : res Z :=
  ASSERT (pg_ofs page =? 0);;
  pa ← vtop page;
  Ret (Z.lor (Z.lor pa PTE_P) (if writable then PTE_W else 0)).
Definition pte_create_user (page : Z) (writable : bool) : res Z :=
  e ← pte_create_kernel page writable; Ret (Z.lor e PTE_U).
Definition pte_get_page (pte : Z) : res Z := ptov (Z.land pte PTE_ADDR).

(** ** The arithmetic behind the masks *)
Lemma pg_ofs_mod va : pg_ofs va = va mod 4096.
Proof. change (pg_ofs va) with (Z.land va (Z.ones 12)). by rewrite Z.land_ones. Qed.

Lemma pg_no_div va : pg_no va = va / 4096.
Proof. unfold pg_no, PGBITS. by rewrite Z.shiftr_div_pow2. Qed.

Lemma pd_no_div va : pd_no va = va / 4194304.
Proof. unfold pd_no. change PDSHIFT with 22. by rewrite Z.shiftr_div_pow2. Qed.

Lemma u32_high_bits va k : is_u32 va → 32 ≤ k → Z.testbit va k = false.
Proof.
  intros [H1 H2] Hk. destruct (decide (va = 0)) as [->|]; [apply Z.bits_0|].
  apply Z.bits_above_log2; [lia|]. apply Z.log2_lt_pow2; [lia|].
  apply Z.lt_le_trans with (2 ^ 32); [done|]. apply Z.pow_le_mono_r; lia.
Qed.

(** Masking with the high 20 bits clears the low 12. *)
Lemma land_page va : is_u32 va → Z.land va PTE_ADDR = va / 4096 * 4096.
Proof.
  intros Hva. change (va / 4096 * 4096) with (va / 2 ^ 12 * 2 ^ 12).
  rewrite <- Z.shiftr_div_pow2, <- Z.shiftl_mul_pow2 by lia.
  apply Z.bits_inj'. intros k Hk. rewrite Z.land_spec.
  change PTE_ADDR with (Z.shiftl (Z.ones 20) 12).
  destruct (Z_lt_le_dec k 12) as [Hl|Hl].
  - rewrite !Z.shiftl_spec_low by lia. apply andb_false_r.
  - rewrite !Z.shiftl_spec, Z.shiftr_spec by lia.
    replace (k - 12 + 12) with k by lia.
    destruct (Z_lt_le_dec k 32).
    + rewrite Z.ones_spec_low by lia. apply andb_true_r.
    + by rewrite (u32_high_bits va k Hva).
Qed.

Lemma pg_round_down_eq va : is_u32 va → pg_round_down va = va / 4096 * 4096.
Proof. apply land_page. Qed.

Lemma pt_no_div va : pt_no va = (va / 4096) mod 1024.
Proof.
  unfold pt_no. change PTSHIFT with 12.
  change PTMASK with (Z.shiftl (Z.ones 10) 12).
  rewrite Z.shiftr_land, Z.shiftr_shiftl_l by lia.
  change (Z.shiftl (Z.ones 10) (12 - 12)) with (Z.ones 10).
  by rewrite Z.land_ones, Z.shiftr_div_pow2.
Qed.

Lemma flag_high_bits f k : 0 ≤ f < 4096 → 12 ≤ k → Z.testbit f k = false.
Proof.
  intros Hf Hk. destruct (decide (f = 0)) as [->|]; [apply Z.bits_0|].
  apply Z.bits_above_log2; [lia|]. apply Z.log2_lt_pow2; [lia|].
  apply Z.lt_le_trans with (2 ^ 12); [lia|]. apply Z.pow_le_mono_r; lia.
Qed.

(** A page address and the flag bits have no bit in common, so flags are simply
    added to it. *)
Lemma land_flags a f : a mod 4096 = 0 → 0 ≤ f < 4096 → Z.land a f = 0.
Proof.
  intros Ha Hf. apply Z.bits_inj'. intros k Hk. rewrite Z.land_spec, Z.bits_0.
  destruct (Z_lt_le_dec k 12).
  - assert (a = Z.shiftl (a / 4096) 12) as ->.
    { rewrite Z.shiftl_mul_pow2 by lia. Z.to_euclidean_division_equations. lia. }
    by rewrite Z.shiftl_spec_low.
  - by rewrite (flag_high_bits f), andb_false_r.
Qed.

Lemma lor_flags a f : a mod 4096 = 0 → 0 ≤ f < 4096 → Z.lor a f = a + f.
Proof.
  intros Ha Hf. pose proof (land_flags a f Ha Hf) as E.
  by rewrite Z.add_nocarry_lxor, Z.lxor_lor.
Qed.

Lemma lor_page_flags a f g :
  a mod 4096 = 0 → 0 ≤ f < 4096 → 0 ≤ g < 4096 → 0 ≤ Z.lor f g < 4096 →
  Z.lor (a + f) g = a + Z.lor f g.
Proof.
  intros Ha Hf Hg Hfg. rewrite <- (lor_flags a f), <- (lor_flags a (Z.lor f g)) by done.
  by rewrite Z.lor_assoc.
Qed.

Lemma land_page_flags a f g :
  a mod 4096 = 0 → 0 ≤ f < 4096 → 0 ≤ g < 4096 → Z.land (a + f) g = Z.land f g.
Proof.
  intros Ha Hf Hg. rewrite <- (lor_flags a f) by done.
  by rewrite Z.land_lor_distr_l, (land_flags a g), Z.lor_0_l.
Qed.

(** ** Entries for kernel pages

    A page-aligned kernel address: where page tables and frames live. *)
Definition kpage_ok (p : Z) : Prop := p mod 4096 = 0 ∧ PHYS_BASE ≤ p < 4294967296.

#[export] Instance kpage_ok_dec p : Decision (kpage_ok p).
Proof. unfold kpage_ok. apply _. Defined.

Section Entries.
Context (p : Z) (Hp : kpage_ok p).

Lemma vtop_kpage : vtop p = Ret (p - PHYS_BASE).
Proof using Hp.
  destruct Hp as [_ Hb]. unfold vtop, is_kernel_vaddr, PHYS_BASE in *.
  rewrite ASSERT_true by lia. by rewrite u32_id by (unfold is_u32; lia).
Qed.

Lemma kpage_phys : (p - PHYS_BASE) mod 4096 = 0.
Proof using Hp.
  destruct Hp as [Ha _]. unfold PHYS_BASE in *.
  Z.to_euclidean_division_equations. lia.
Qed.

(** Reading the page back from an entry with any flags. *)
Lemma get_page_flags f :
  0 ≤ f < 4096 → ptov (Z.land (p - PHYS_BASE + f) PTE_ADDR) = Ret p.
Proof using Hp.
  intros Hf. pose proof kpage_phys as Hm. destruct Hp as [_ Hb]. unfold PHYS_BASE in *.
  rewrite land_page by (unfold is_u32; lia). unfold ptov, PHYS_BASE.
  assert ((p - 3221225472 + f) / 4096 * 4096 = p - 3221225472) as ->.
  { Z.to_euclidean_division_equations. lia. }
  rewrite ASSERT_true by lia. rewrite u32_id by (unfold is_u32; lia). f_equal. lia.
Qed.

Lemma pde_create_eq : pde_create p = Ret (p - PHYS_BASE + 7).
Proof using Hp.
  pose proof kpage_phys as Hm. unfold pde_create. rewrite pg_ofs_mod.
  rewrite ASSERT_true by (destruct Hp; lia).
  rewrite vtop_kpage, bind_Ret. f_equal. rewrite <- !Z.lor_assoc.
  change (Z.lor PTE_U (Z.lor PTE_P PTE_W)) with 7. by apply lor_flags.
Qed.

Lemma pte_create_user_eq w :
  pte_create_user p w = Ret (p - PHYS_BASE + if w then 7 else 5).
Proof using Hp.
  pose proof kpage_phys as Hm. unfold pte_create_user, pte_create_kernel.
  rewrite pg_ofs_mod, ASSERT_true by (destruct Hp; lia).
  rewrite vtop_kpage, !bind_Ret. f_equal. rewrite <- !Z.lor_assoc.
  destruct w.
  - change (Z.lor PTE_P (Z.lor PTE_W PTE_U)) with 7. by apply lor_flags.
  - change (Z.lor PTE_P (Z.lor 0 PTE_U)) with 5. by apply lor_flags.
Qed.

Lemma pde_get_pt_eq : pde_get_pt (p - PHYS_BASE + 7) = Ret p.
Proof using Hp.
  pose proof kpage_phys as Hm. unfold pde_get_pt.
  rewrite (land_page_flags (p - PHYS_BASE) 7 PTE_P) by (try done; unfold PTE_P; lia).
  rewrite ASSERT_true by done. by apply get_page_flags.
Qed.
End Entries.

(** The directory and table indices determine the page. *)
Lemma pg_no_split va : pg_no va = 1024 * pd_no va + pt_no va.
Proof.
  rewrite pd_no_div, pt_no_div, pg_no_div.
  change 4194304 with (4096 * 1024). rewrite <- Z.div_div by lia.
  apply Z.div_mod. lia.
Qed.

Lemma pd_no_user va : 0 ≤ va < PHYS_BASE → 0 ≤ pd_no va < 768.
Proof.
  rewrite pd_no_div. unfold PHYS_BASE. intros.
  split; [apply Z.div_pos; lia|apply Z.div_lt_upper_bound; lia].
Qed.

Lemma pt_no_range va : 0 ≤ pt_no va < 1024.
Proof. rewrite pt_no_div. apply Z.mod_pos_bound. lia. Qed.
