(* ===== verification/Palloc.v ===== *)
(** * The page allocator (threads/palloc.c)

    Hands out page frames from two pools, each a bitmap of used pages and a base
    address.  The bitmap operations and the memory fills are those of [Bitmap]
    and [Mem].  The pools' locks order concurrent callers and have no effect on
    the state of a single call, so a call is one step of this model. *)
From S2P Require Import Prelude Mem Bitmap Vaddr.

(** ** State *)
Record pool := Pool { used_map : bitmap; base : Z }.
Record pstate := PState { kernel_pool : pool; user_pool : pool; pmem : mem }.

(** [enum palloc_flags]. *)
Definition PAL_ASSERT : Z := 1.
Definition PAL_ZERO : Z := 2.
Definition PAL_USER : Z := 4.
Definition flag (flags f : Z) : bool := negb (Z.land flags f =? 0).

Definition get_pool (s : pstate) (user : bool) : pool :=
  if user then user_pool s else kernel_pool s.
Definition set_pool (s : pstate) (user : bool) (p : pool) : pstate :=
  if user then PState (kernel_pool s) p (pmem s)
  else PState p (user_pool s) (pmem s).
Definition set_pmem (s : pstate) (m : mem) : pstate :=
  PState (kernel_pool s) (user_pool s) m.

(** ** Operations *)
Definition page_from_pool (p : pool) (page : Z) : bool :=
  let page_no := pg_no page in
  let start_page := pg_no (base p) in
  let end_page := u32 (start_page + bitmap_size (used_map p)) in
  (start_page <=? page_no) && (page_no <? end_page).

Definition palloc_get_multiple (s : pstate) (flags page_cnt : Z) : res (Z * pstate) :=
  let user := flag flags PAL_USER in
  let p := get_pool s user in
  if page_cnt =? 0 then Ret (NULL, s) else
  '(page_idx, map) ← bitmap_scan_and_flip (used_map p) 0 page_cnt false;
  let s := set_pool s user (Pool map (base p)) in
  let pages := if negb (page_idx =? BITMAP_ERROR)
               then u32 (base p + u32 (PGSIZE * page_idx)) else NULL in
  if negb (pages =? NULL) then
    if flag flags PAL_ZERO then
      '(_, m) ← memset (pmem s) pages 0 (u32 (PGSIZE * page_cnt));
      Ret (pages, set_pmem s m)
    else Ret (pages, s)
  else if flag flags PAL_ASSERT then Panic
  else Ret (pages, s).

Definition palloc_get_page (s : pstate) (flags : Z) : res (Z * pstate) :=
  palloc_get_multiple s flags 1.

Definition palloc_free_multiple (s : pstate) (pages page_cnt : Z) : res pstate :=
  ASSERT (pg_ofs pages =? 0);;
  if (pages =? NULL) || (page_cnt =? 0) then Ret s else
  user ← (if page_from_pool (kernel_pool s) pages then Ret false
          else if page_from_pool (user_pool s) pages then Ret true
          else Panic);
  let p := get_pool s user in
  let page_idx := u32 (pg_no pages - pg_no (base p)) in
  '(_, m) ← memset (pmem s) pages 204 (u32 (PGSIZE * page_cnt));
  let s := set_pmem s m in
  all ← bitmap_all (used_map p) page_idx page_cnt;
  ASSERT all;;
  map ← bitmap_set_multiple (used_map p) page_idx page_cnt false;
  Ret (set_pool s user (Pool map (base p))).

Definition palloc_free_page (s : pstate) (page : Z) : res pstate :=
  palloc_free_multiple s page 1.

(** The words of a block of memory. *)
Definition words_at (m : mem) (a n : Z) : list Z := (λ i, load32 m (a + 4 * i)) <$> seqZ 0 n.

Definition init_pool (m : mem) (base page_cnt : Z) : res pool :=
  let bm_pages := DIV_ROUND_UP (bitmap_buf_size page_cnt) PGSIZE in
  if page_cnt <? bm_pages then Panic else
  let page_cnt := page_cnt - bm_pages in
  map ← bitmap_create_in_buf page_cnt (words_at m (base + 8) (elem_cnt page_cnt))
          (u32 (bm_pages * PGSIZE));
  Ret (Pool map (u32 (base + bm_pages * PGSIZE))).

Definition palloc_init (m : mem) (init_ram_pages user_page_limit : Z) : res pstate :=
  free_start ← ptov (1024 * 1024);
  free_end ← ptov (u32 (init_ram_pages * PGSIZE));
  let free_pages := u32 (s32 (free_end - free_start) ÷ PGSIZE) in
  let user_pages := free_pages / 2 in
  let user_pages := if user_page_limit <? user_pages then user_page_limit else user_pages in
  let kernel_pages := free_pages - user_pages in
  kp ← init_pool m free_start kernel_pages;
  up ← init_pool m (u32 (free_start + kernel_pages * PGSIZE)) user_pages;
  Ret (PState kp up m).

(** ** Invariant and the set of allocated pages *)
Definition pool_end (p : pool) : Z := base p + 4096 * bit_cnt (used_map p).

Record pool_wf (p : pool) : Prop := {
  pw_map : bitmap_wf (used_map p);
  pw_align : base p mod 4096 = 0;
  pw_low : PHYS_BASE ≤ base p;
  pw_high : pool_end p ≤ 4294967296;
}.

Record palloc_wf (s : pstate) : Prop := {
  plw_kernel : pool_wf (kernel_pool s);
  plw_user : pool_wf (user_pool s);
  plw_disj : pool_end (kernel_pool s) ≤ base (user_pool s)
             ∨ pool_end (user_pool s) ≤ base (kernel_pool s);
}.

(** [page_used p q]: the page at address [q] belongs to [p] and is in use. *)
Definition in_pool (p : pool) (q : Z) : bool :=
  bool_decide (q mod 4096 = 0) && (base p <=? q) && (q <? pool_end p).
Definition page_used (p : pool) (q : Z) : bool :=
  in_pool p q && bit (used_map p) ((q - base p) / 4096).
Definition allocated (s : pstate) (q : Z) : bool :=
  page_used (kernel_pool s) q || page_used (user_pool s) q.

Lemma get_pool_wf s u : palloc_wf s → pool_wf (get_pool s u).
Proof. intros []. by destruct u. Qed.

Lemma in_pool_spec p q :
  in_pool p q = true ↔ q mod 4096 = 0 ∧ base p ≤ q ∧ q < pool_end p.
Proof. unfold in_pool. rewrite !andb_true_iff, bool_decide_eq_true. lia. Qed.

(** A page of a pool is numbered by its offset from the base. *)
Lemma in_pool_idx p q :
  pool_wf p → in_pool p q = true →
  0 ≤ (q - base p) / 4096 < bit_cnt (used_map p)
  ∧ q = base p + 4096 * ((q - base p) / 4096).
Proof.
  intros [_ Ha _ _] (Hm & H1 & H2)%in_pool_spec. unfold pool_end in H2.
  Z.to_euclidean_division_equations. lia.
Qed.

Lemma page_from_pool_spec p q :
  pool_wf p → q mod 4096 = 0 → is_u32 q → page_from_pool p q = in_pool p q.
Proof.
  intros [Hb Ha Hl Hh] Hm Hq. unfold page_from_pool, in_pool, bitmap_size, pool_end in *.
  pose proof (bw_cnt _ Hb). unfold is_u32, PHYS_BASE in *. rewrite !pg_no_div.
  rewrite u32_id by (unfold is_u32; Z.to_euclidean_division_equations; lia).
  rewrite bool_decide_true by done. cbn [andb].
  assert (base p / 4096 <=? q / 4096 = (base p <=? q)) as ->.
  { Z.to_euclidean_division_equations. lia. }
  f_equal. Z.to_euclidean_division_equations. lia.
Qed.

(** The pools keep their place and size. *)
Definition same_geom (s s' : pstate) : Prop :=
  ∀ u, base (get_pool s' u) = base (get_pool s u)
    ∧ bit_cnt (used_map (get_pool s' u)) = bit_cnt (used_map (get_pool s u)).

(** The [n] pages from [r] on. *)
Definition in_group (r n q : Z) : bool :=
  bool_decide (q mod 4096 = 0) && (r <=? q) && (q <? r + 4096 * n).

Lemma pool_upd_wf s u map :
  palloc_wf s → bitmap_wf map → bit_cnt map = bit_cnt (used_map (get_pool s u)) →
  palloc_wf (set_pool s u (Pool map (base (get_pool s u)))).
Proof.
  intros [[? ? ? Hh1] [? ? ? Hh2] Hd] Hb Hc. unfold pool_end in *.
  destruct u; split; cbn in *; unfold pool_end in *; cbn; rewrite ?Hc; try done; split; try done;
    unfold pool_end in *; cbn; by rewrite Hc.
Qed.

Lemma set_pool_geom s u map :
  bit_cnt map = bit_cnt (used_map (get_pool s u)) →
  same_geom s (set_pool s u (Pool map (base (get_pool s u)))).
Proof. intros Hc v. by destruct u, v. Qed.

Lemma set_pmem_wf s m : palloc_wf s → palloc_wf (set_pmem s m).
Proof. by intros []. Qed.

Lemma in_pool_disj s q :
  palloc_wf s → in_pool (kernel_pool s) q = true → in_pool (user_pool s) q = true → False.
Proof. intros [_ _ Hd] (_ & H1)%in_pool_spec (_ & H2)%in_pool_spec. lia. Qed.

(** Writing [n] bits of one pool's map writes the pages they stand for. *)
Lemma allocated_upd s u map idx n v :
  palloc_wf s → bit_cnt map = bit_cnt (used_map (get_pool s u)) →
  0 ≤ idx → 0 ≤ n → idx + n ≤ bit_cnt map →
  (∀ j, 0 ≤ j → bit map j = if decide (idx ≤ j < idx + n) then v
                            else bit (used_map (get_pool s u)) j) →
  let r := base (get_pool s u) + 4096 * idx in
  ∀ q, allocated (set_pool s u (Pool map (base (get_pool s u)))) q
       = if in_group r n q then v else allocated s q.
Proof.
  intros Hwf Hc Hi Hn Hin Hb r q.
  set (p := get_pool s u) in *.
  assert (pool_wf p) as Hp by (by apply get_pool_wf).
  assert (page_used (Pool map (base p)) q
          = if in_group r n q then v else page_used p q) as E.
  { unfold page_used.
    assert (in_pool (Pool map (base p)) q = in_pool p q) as ->.
    { unfold in_pool, pool_end. cbn. by rewrite Hc. }
    cbn [used_map base].
    destruct (in_pool p q) eqn:Eq; cbn.
    - destruct (in_pool_idx _ _ Hp Eq) as [Hj Ej]. rewrite Hb by lia.
      apply in_pool_spec in Eq as (Em & _). unfold in_group.
      rewrite bool_decide_true by done. unfold r. cbn [andb].
      case_decide; bool_cases; cbn; try done; lia.
    - unfold in_group. destruct (bool_decide (q mod 4096 = 0)) eqn:Em; [|done]. cbn.
      destruct (Z.leb_spec r q), (Z.ltb_spec q (r + 4096 * n)); cbn; try done.
      unfold in_pool in Eq. rewrite Em in Eq. unfold pool_end, r in *. cbn in Eq. lia. }
  assert (in_group r n q = true → in_pool p q = true) as Hsub.
  { unfold in_group. rewrite !andb_true_iff, bool_decide_eq_true, in_pool_spec.
    unfold pool_end, r. lia. }
  pose proof (in_pool_disj s q Hwf) as Hd.
  unfold allocated. subst p. destruct u; cbn [set_pool kernel_pool user_pool get_pool] in *.
  - rewrite E. destruct (in_group r n q) eqn:Eg; [|done].
    assert (page_used (kernel_pool s) q = false) as ->; [|done].
    unfold page_used. destruct (in_pool (kernel_pool s) q); [|done].
    exfalso. auto.
  - rewrite E. destruct (in_group r n q) eqn:Eg; [|done].
    assert (page_used (user_pool s) q = false) as ->; [|apply orb_false_r].
    unfold page_used. destruct (in_pool (user_pool s) q); [|done].
    exfalso. auto.
Qed.

(** What a successful request of [n] pages at [r] from pool [u] has done. *)
Record got_pages (s s' : pstate) (u zero : bool) (r n : Z) : Prop := {
  gp_align : r mod 4096 = 0;
  gp_low : base (get_pool s u) ≤ r;
  gp_high : r + 4096 * n ≤ pool_end (get_pool s u);
  gp_fresh : ∀ q, in_group r n q = true → allocated s q = false;
  gp_alloc : ∀ q, allocated s' q = if in_group r n q then true else allocated s q;
  gp_geom : same_geom s s';
  gp_wf : palloc_wf s';
  gp_mem : ∀ x, x < r ∨ r + 4096 * n ≤ x → load8 (pmem s') x = load8 (pmem s) x;
  gp_zero : zero = true → ∀ x, r ≤ x < r + 4096 * n → load8 (pmem s') x = 0;
}.

(** No [n] adjacent pages of pool [u] are free. *)
Definition pool_full (s : pstate) (u : bool) (n : Z) : Prop :=
  ∀ i, 0 ≤ i → i + n ≤ bit_cnt (used_map (get_pool s u)) →
    ¬ all_bits (used_map (get_pool s u)) i n false.

Lemma allocated_free_bits s u i n :
  palloc_wf s → 0 ≤ i → i + n ≤ bit_cnt (used_map (get_pool s u)) →
  all_bits (used_map (get_pool s u)) i n false →
  ∀ q, in_group (base (get_pool s u) + 4096 * i) n q = true → allocated s q = false.
Proof.
  intros Hwf Hi Hin Ha q. set (p := get_pool s u) in *.
  unfold in_group. rewrite !andb_true_iff, bool_decide_eq_true, Z.leb_le, Z.ltb_lt.
  intros [[Hm H1] H2].
  assert (pool_wf p) as Hp by (by apply get_pool_wf).
  assert (in_pool p q = true) as Hq.
  { apply in_pool_spec. unfold pool_end. lia. }
  assert (page_used p q = false) as Hu.
  { unfold page_used. rewrite Hq. apply Ha. destruct (in_pool_idx _ _ Hp Hq). lia. }
  pose proof (in_pool_disj s q Hwf) as Hd.
  unfold allocated. subst p. destruct u; cbn [get_pool] in *; rewrite Hu.
  - rewrite orb_false_r. unfold page_used. destruct (in_pool (kernel_pool s) q); [|done].
    exfalso. auto.
  - unfold page_used. destruct (in_pool (user_pool s) q); [|done]. exfalso. auto.
Qed.

Lemma palloc_get_multiple_spec s flags n :
  palloc_wf s → 0 < n →
  (∃ r s', palloc_get_multiple s flags n = Ret (r, s') ∧ r ≠ NULL
     ∧ got_pages s s' (flag flags PAL_USER) (flag flags PAL_ZERO) r n)
  ∨ (pool_full s (flag flags PAL_USER) n
     ∧ palloc_get_multiple s flags n
       = if flag flags PAL_ASSERT then Panic else Ret (NULL, s)).
Proof.
  intros Hwf Hn. unfold palloc_get_multiple.
  set (u := flag flags PAL_USER). set (p := get_pool s u).
  pose proof (get_pool_wf s u Hwf) as Hp. fold p in Hp.
  pose proof (bw_cnt _ (pw_map _ Hp)) as Hcnt.
  destruct (Z.eqb_spec n 0); [lia|].
  destruct (bitmap_scan_and_flip_spec (used_map p) 0 n false (pw_map _ Hp))
    as (i & map & E & Hr & Hmwf & Hmc & Hmap); [lia..|].
  rewrite E, bind_Ret. cbn beta iota.
  destruct Hr as [(H1 & H2 & Hall & _)|(-> & Hnone)].
  - left. case_decide as Ei; [unfold BITMAP_ERROR in Ei; lia|].
    destruct (Z.eqb_spec i BITMAP_ERROR); [done|]. cbn [negb].
    pose proof (pw_low _ Hp) as Hlow. pose proof (pw_high _ Hp) as Hhigh.
    unfold pool_end in Hhigh. change PGSIZE with 4096. unfold PHYS_BASE in Hlow.
    rewrite (u32_id (4096 * i)) by (unfold is_u32; lia).
    rewrite (u32_id (base p + 4096 * i)) by (unfold is_u32; lia).
    set (r := base p + 4096 * i).
    destruct (Z.eqb_spec r NULL); [unfold r, NULL in *; lia|]. cbn [negb].
    set (s1 := set_pool s u (Pool map (base p))).
    assert (got_pages s s1 u false r n) as Hg.
    { split; try done; unfold r in *.
      - pose proof (pw_align _ Hp). Z.to_euclidean_division_equations. lia.
      - fold p. lia.
      - fold p. unfold pool_end. lia.
      - by eapply (allocated_free_bits s u i n Hwf H1 H2).
      - unfold s1. apply allocated_upd; try done; lia.
      - by apply set_pool_geom.
      - by apply pool_upd_wf.
      - intros x _. unfold s1. by destruct u. }
    destruct (flag flags PAL_ZERO).
    + unfold memset. rewrite ASSERT_true by lia. rewrite bind_Ret.
      eexists r, _. split; [reflexivity|]. split; [done|].
      rewrite u32_id by (unfold is_u32; lia).
      destruct Hg as [? ? ? ? ? ? Hwf1 Hmem ?].
      split; try done; [by apply set_pmem_wf|..]; cbn [set_pmem pmem].
      * intros x Hx. rewrite load8_fill, decide_False by lia. auto.
      * intros _ x Hx. by rewrite load8_fill, decide_True by lia.
    + eexists r, s1. done.
  - right. split; [exact Hnone|]. case_decide; [|done]. subst map. rewrite Z.eqb_refl.
    cbn [negb]. rewrite Z.eqb_refl. cbn [negb].
    assert (set_pool s u (Pool (used_map p) (base p)) = s) as ->; [|done].
    unfold p. by destruct u, s as [[] [] ?].
Qed.

(** The pool [palloc_free_multiple] finds the page in. *)
Lemma page_pool_found s u q :
  palloc_wf s → in_pool (get_pool s u) q = true → is_u32 q →
  (if page_from_pool (kernel_pool s) q then Ret false
   else if page_from_pool (user_pool s) q then Ret true else Panic) = Ret u.
Proof.
  intros Hwf Hin Hq. pose proof (in_pool_disj s q Hwf) as Hd.
  assert (q mod 4096 = 0) as Hm by (apply in_pool_spec in Hin; tauto).
  rewrite !page_from_pool_spec by (by destruct Hwf).
  destruct u; cbn in Hin; rewrite Hin; [|done].
  destruct (in_pool (kernel_pool s) q); [exfalso; auto|done].
Qed.

(** Freeing a group of pages of pool [u] that are in use. *)
Lemma palloc_free_multiple_spec s u r n :
  palloc_wf s → 0 < n → in_pool (get_pool s u) r = true →
  r + 4096 * n ≤ pool_end (get_pool s u) →
  (∀ q, in_group r n q = true → page_used (get_pool s u) q = true) →
  ∃ s', palloc_free_multiple s r n = Ret s' ∧ palloc_wf s' ∧ same_geom s s'
    ∧ (∀ q, allocated s' q = if in_group r n q then false else allocated s q)
    ∧ (∀ x, x < r ∨ r + 4096 * n ≤ x → load8 (pmem s') x = load8 (pmem s) x).
Proof.
  intros Hwf Hn Hin Hend Hused. set (p := get_pool s u) in *.
  pose proof (get_pool_wf s u Hwf) as Hp. fold p in Hp.
  destruct (in_pool_idx _ _ Hp Hin) as [Hi Er].
  pose proof (proj1 (in_pool_spec _ _) Hin) as (Hm & Hlo & Hhi).
  pose proof (bw_cnt _ (pw_map _ Hp)). pose proof (pw_low _ Hp) as Hlow.
  pose proof (pw_high _ Hp) as Hhigh. pose proof (pw_align _ Hp) as Hal.
  unfold PHYS_BASE, pool_end in *.
  unfold palloc_free_multiple. rewrite pg_ofs_mod, Hm. cbn [ASSERT Z.eqb]. rewrite bind_Ret.
  destruct (Z.eqb_spec r NULL); [unfold NULL in *; lia|].
  destruct (Z.eqb_spec n 0); [lia|]. cbn [orb].
  rewrite (page_pool_found s u) by (try done; unfold is_u32; lia).
  rewrite bind_Ret. fold p. change PGSIZE with 4096.
  rewrite (u32_id (4096 * n)) by (unfold is_u32; lia).
  unfold memset. rewrite ASSERT_true by lia. rewrite bind_Ret.
  set (i := (r - base p) / 4096) in *.
  assert (u32 (pg_no r - pg_no (base p)) = i) as ->.
  { rewrite !pg_no_div, u32_id.
    - unfold i. Z.to_euclidean_division_equations. lia.
    - unfold is_u32. Z.to_euclidean_division_equations. lia. }
  assert (range_ok (used_map p) i n) as Hrange by (unfold range_ok; lia).
  assert (all_bits (used_map p) i n true) as Hall.
  { intros j Hj. specialize (Hused (base p + 4096 * j)). unfold page_used in Hused.
    rewrite andb_true_iff in Hused. destruct Hused as [_ Hb].
    - unfold in_group. rewrite !andb_true_iff, bool_decide_eq_true, Z.leb_le, Z.ltb_lt.
      split_and!; [|lia|lia]. Z.to_euclidean_division_equations. lia.
    - by replace ((base p + 4096 * j - base p) / 4096) with j in Hb
        by (Z.to_euclidean_division_equations; lia). }
  rewrite bitmap_all_spec, bind_Ret, bool_decide_true by (by destruct Hp).
  cbn [ASSERT]. rewrite bind_Ret.
  destruct (bitmap_set_multiple_spec _ i n false (pw_map _ Hp) Hrange)
    as (map & -> & Hmwf & Hmc & Hmap). rewrite bind_Ret.
  eexists. split; [reflexivity|].
  set (m := fill _ _ _ _). fold (set_pmem s m).
  assert (get_pool (set_pmem s m) u = p) as Ep by (unfold p; by destruct u).
  split_and!.
  - rewrite <- Ep. apply pool_upd_wf; [by apply set_pmem_wf|done|by rewrite Ep].
  - intros v. destruct (set_pool_geom (set_pmem s m) u map) with (u := v) as [H1 H2];
      [by rewrite Ep|]. rewrite Ep in H1, H2. rewrite H1, H2. by destruct v.
  - intros q. rewrite <- Ep.
    rewrite (allocated_upd (set_pmem s m) u map i n false);
      [|by apply set_pmem_wf|by rewrite Ep|lia|lia|lia|by rewrite Ep].
    rewrite Ep, <- Er. done.
  - intros x Hx. assert (pmem (set_pool (set_pmem s m) u (Pool map (base p))) = m)
      as -> by (by destruct u).
    unfold m. rewrite load8_fill, decide_False by lia. done.
Qed.

(** Single pages, as the page tables use them. *)
Lemma in_group_one r q : r mod 4096 = 0 → in_group r 1 q = bool_decide (q = r).
Proof.
  intros Hr. unfold in_group. repeat case_bool_decide; subst; cbn; try lia.
  Z.to_euclidean_division_equations. lia.
Qed.

Lemma allocated_in_pool s q :
  allocated s q = true → ∃ u, page_used (get_pool s u) q = true.
Proof. unfold allocated. rewrite orb_true_iff. intros [H|H]; [by exists false|by exists true]. Qed.

Lemma allocated_kpage s q : palloc_wf s → allocated s q = true → kpage_ok q.
Proof.
  intros Hwf (u & Hu)%allocated_in_pool. unfold page_used in Hu.
  apply andb_true_iff in Hu as [(Hm & H1 & H2)%in_pool_spec _].
  pose proof (get_pool_wf s u Hwf) as [_ _ ? ?]. split; [done|]. lia.
Qed.

Lemma palloc_free_page_spec s r :
  palloc_wf s → allocated s r = true →
  ∃ s', palloc_free_page s r = Ret s' ∧ palloc_wf s' ∧ same_geom s s'
    ∧ (∀ q, allocated s' q = if decide (q = r) then false else allocated s q)
    ∧ (∀ x, x < r ∨ r + 4096 ≤ x → load8 (pmem s') x = load8 (pmem s) x).
Proof.
  intros Hwf Ha. destruct (allocated_in_pool _ _ Ha) as (u & Hu).
  pose proof Hu as Hin. unfold page_used in Hin. apply andb_true_iff in Hin as [Hin _].
  pose proof (get_pool_wf s u Hwf) as Hp.
  destruct (in_pool_idx _ _ Hp Hin) as [Hi Er].
  pose proof (proj1 (in_pool_spec _ _) Hin) as (Hm & _).
  destruct (palloc_free_multiple_spec s u r 1 Hwf) as (s' & E & ? & ? & Hal & Hmem);
    try done; try lia.
  - unfold pool_end. lia.
  - intros q. rewrite in_group_one, bool_decide_eq_true by done. by intros ->.
  - exists s'. split_and!; try done. intros q. rewrite Hal, in_group_one by done.
    case_bool_decide; case_decide; done.
Qed.
