(* ===== verification/Pagedir.v ===== *)
(** * Page directories (userprog/pagedir.c)

    The two-level x86 page tables of a process, kept in kernel memory as arrays
    of 32-bit entries in pages of the page allocator.  The state adds to the
    allocator's the page directory base register CR3 and the translation
    look-aside buffer, which loading CR3 empties. *)
From S2P Require Import Prelude Mem Bitmap Vaddr Palloc.

Record kstate := KState { ks : pstate; cr3 : Z; tlb : gmap Z Z }.

Definition with_ks (k : kstate) (s : pstate) : kstate := KState s (cr3 k) (tlb k).
Definition kmem (k : kstate) : mem := pmem (ks k).
Definition kstore (k : kstate) (a v : Z) : kstate :=
  with_ks k (set_pmem (ks k) (store32 (kmem k) a v)).

Section Pagedir.
(** The kernel's own page directory and the amount of physical memory. *)
Context (init_page_dir init_ram_pages : Z).

Definition pagedir_activate (k : kstate) (pd : Z) : res kstate :=
  let pd := if pd =? NULL then init_page_dir else pd in
  pa ← vtop pd;
  Ret (KState (ks k) pa ∅).

Definition active_pd (k : kstate) : res Z := ptov (cr3 k).

Definition invalidate_pagedir (k : kstate) (pd : Z) : res kstate :=
  a ← active_pd k;
  if a =? pd then pagedir_activate k pd else Ret k.

(** The address of the page table entry for [vaddr], or null. *)
Definition lookup_page (k : kstate) (pd vaddr : Z) (create : bool) : res (Z * kstate) :=
  ASSERT (negb (pd =? NULL));;
  ASSERT (negb create || is_user_vaddr vaddr);;
  let pde := pd + 4 * pd_no vaddr in
  if load32 (kmem k) pde =? 0 then
    if create then
      '(pt, s) ← palloc_get_page (ks k) PAL_ZERO;
      if pt =? NULL then Ret (NULL, with_ks k s) else
      e ← pde_create pt;
      let k := kstore (with_ks k s) pde e in
      pt ← pde_get_pt (load32 (kmem k) pde);
      Ret (pt + 4 * pt_no vaddr, k)
    else Ret (NULL, k)
  else
    pt ← pde_get_pt (load32 (kmem k) pde);
    Ret (pt + 4 * pt_no vaddr, k).

Definition pagedir_create (k : kstate) : res (Z * kstate) :=
  '(pd, s) ← palloc_get_page (ks k) 0;
  if negb (pd =? NULL) then
    '(_, m) ← memcpy (pmem s) pd init_page_dir PGSIZE;
    Ret (pd, with_ks k (set_pmem s m))
  else Ret (pd, with_ks k s).

(** The two nested loops of [pagedir_destroy]; [n] counts the entries left. *)
Fixpoint destroy_pt_loop (n : nat) (k : kstate) (pte : Z) : res kstate :=
  match n with
  | O => Ret k
  | S n =>
    let e := load32 (kmem k) pte in
    k ← (if negb (Z.land e PTE_P =? 0) then
           page ← pte_get_page e;
           s ← palloc_free_page (ks k) page; Ret (with_ks k s)
         else Ret k);
    destroy_pt_loop n k (pte + 4)
  end.
Fixpoint destroy_pd_loop (n : nat) (k : kstate) (pde : Z) : res kstate :=
  match n with
  | O => Ret k
  | S n =>
    let e := load32 (kmem k) pde in
    k ← (if negb (Z.land e PTE_P =? 0) then
           pt ← pde_get_pt e;
           k ← destroy_pt_loop 1024 k pt;
           s ← palloc_free_page (ks k) pt; Ret (with_ks k s)
         else Ret k);
    destroy_pd_loop n k (pde + 4)
  end.
Definition pagedir_destroy (k : kstate) (pd : Z) : res kstate :=
  if pd =? NULL then Ret k else
  ASSERT (negb (pd =? init_page_dir));;
  k ← destroy_pd_loop (Z.to_nat (pd_no PHYS_BASE)) k pd;
  s ← palloc_free_page (ks k) pd;
  Ret (with_ks k s).

Definition pagedir_set_page (k : kstate) (pd upage kpage : Z) (writable : bool)
    : res (bool * kstate) :=
  ASSERT (pg_ofs upage =? 0);;
  ASSERT (pg_ofs kpage =? 0);;
  ASSERT (is_user_vaddr upage);;
  pa ← vtop kpage;
  ASSERT (Z.shiftr pa PTSHIFT <? init_ram_pages);;
  ASSERT (negb (pd =? init_page_dir));;
  '(pte, k) ← lookup_page k pd upage true;
  if negb (pte =? NULL) then
    ASSERT (Z.land (load32 (kmem k) pte) PTE_P =? 0);;
    e ← pte_create_user kpage writable;
    Ret (true, kstore k pte e)
  else Ret (false, k).

Definition pagedir_get_page (k : kstate) (pd uaddr : Z) : res Z :=
  ASSERT (is_user_vaddr uaddr);;
  '(pte, _) ← lookup_page k pd uaddr false;
  if negb (pte =? NULL) && negb (Z.land (load32 (kmem k) pte) PTE_P =? 0) then
    page ← pte_get_page (load32 (kmem k) pte);
    Ret (u32 (page + pg_ofs uaddr))
  else Ret NULL.

Definition pagedir_clear_page (k : kstate) (pd upage : Z) : res kstate :=
  ASSERT (pg_ofs upage =? 0);;
  ASSERT (is_user_vaddr upage);;
  '(pte, k) ← lookup_page k pd upage false;
  if negb (pte =? NULL) && negb (Z.land (load32 (kmem k) pte) PTE_P =? 0) then
    let k := kstore k pte (Z.land (load32 (kmem k) pte) (u32 (Z.lnot PTE_P))) in
    invalidate_pagedir k pd
  else Ret k.

(** The dirty and accessed bits, [f] being [PTE_D] or [PTE_A]. *)
Definition pagedir_test_flag (k : kstate) (pd vpage f : Z) : res bool :=
  '(pte, _) ← lookup_page k pd vpage false;
  Ret (negb (pte =? NULL) && negb (Z.land (load32 (kmem k) pte) f =? 0)).
Definition pagedir_set_flag (k : kstate) (pd vpage f : Z) (value : bool) : res kstate :=
  '(pte, k) ← lookup_page k pd vpage false;
  if negb (pte =? NULL) then
    if value then Ret (kstore k pte (Z.lor (load32 (kmem k) pte) f))
    else
      let k := kstore k pte (Z.land (load32 (kmem k) pte) (u32 (Z.lnot f))) in
      invalidate_pagedir k pd
  else Ret k.
Definition pagedir_is_dirty (k : kstate) (pd vpage : Z) : res bool :=
  pagedir_test_flag k pd vpage PTE_D.
Definition pagedir_set_dirty (k : kstate) (pd vpage : Z) (dirty : bool) : res kstate :=
  pagedir_set_flag k pd vpage PTE_D dirty.
Definition pagedir_is_accessed (k : kstate) (pd vpage : Z) : res bool :=
  pagedir_test_flag k pd vpage PTE_A.
Definition pagedir_set_accessed (k : kstate) (pd vpage : Z) (accessed : bool) : res kstate :=
  pagedir_set_flag k pd vpage PTE_A accessed.
End Pagedir.

(** ** What the tables in memory say *)

(** The page an entry points to, by its kernel address. *)
Definition page_of (e : Z) : Z := e / 4096 * 4096 + PHYS_BASE.

(** The directory entry with index [i]. *)
Definition pde_at (m : mem) (pd i : Z) : Z := load32 m (pd + 4 * i).

(** Where the entry of virtual page [vp] is, when it has a page table. *)
Definition pte_addr (m : mem) (pd vp : Z) : Z :=
  page_of (pde_at m pd (vp / 1024)) + 4 * (vp mod 1024).

(** The entry of virtual page [vp], zero when it has no page table. *)
Definition pte_at (m : mem) (pd vp : Z) : Z :=
  if pde_at m pd (vp / 1024) =? 0 then 0 else load32 m (pte_addr m pd vp).

(** The mapping a page directory denotes: the entry of each present page. *)
Definition mapping (m : mem) (pd vp : Z) : option Z :=
  let e := pte_at m pd vp in if Z.land e PTE_P =? 0 then None else Some e.

(** Virtual pages below [PHYS_BASE]. *)
Definition user_page (vp : Z) : Prop := 0 ≤ vp < 786432.

(** The pages that hold the directory and the page tables. *)
Definition is_table (m : mem) (pd q : Z) : Prop :=
  q = pd ∨ ∃ i, 0 ≤ i < 768 ∧ pde_at m pd i ≠ 0 ∧ q = page_of (pde_at m pd i).

(** An address space: the directory, its page tables and the frames of its
    present pages are allocated pages, all different. *)
Record as_wf (s : pstate) (pd : Z) : Prop := {
  aw_palloc : palloc_wf s;
  aw_pd : allocated s pd = true;
  aw_pde : ∀ i, 0 ≤ i < 768 → pde_at (pmem s) pd i ≠ 0 →
    Z.land (pde_at (pmem s) pd i) PTE_P ≠ 0
    ∧ allocated s (page_of (pde_at (pmem s) pd i)) = true
    ∧ page_of (pde_at (pmem s) pd i) ≠ pd;
  aw_inj : ∀ i j, 0 ≤ i < 768 → 0 ≤ j < 768 →
    pde_at (pmem s) pd i ≠ 0 → pde_at (pmem s) pd j ≠ 0 →
    page_of (pde_at (pmem s) pd i) = page_of (pde_at (pmem s) pd j) → i = j;
  aw_frame : ∀ vp e, user_page vp → mapping (pmem s) pd vp = Some e →
    allocated s (page_of e) = true ∧ ¬ is_table (pmem s) pd (page_of e);
  aw_frame_inj : ∀ vp vp' e e', user_page vp → user_page vp' →
    mapping (pmem s) pd vp = Some e → mapping (pmem s) pd vp' = Some e' →
    page_of e = page_of e' → vp = vp';
}.

(** A page that the address space does not use yet. *)
Definition unused_frame (s : pstate) (pd q : Z) : Prop :=
  allocated s q = true ∧ ¬ is_table (pmem s) pd q
  ∧ ∀ vp e, user_page vp → mapping (pmem s) pd vp = Some e → page_of e ≠ q.

(** *** Entries *)
Lemma page_of_create q f : kpage_ok q → 0 ≤ f < 4096 → page_of (q - PHYS_BASE + f) = q.
Proof.
  intros [Hm Hb] Hf. unfold page_of, PHYS_BASE in *.
  Z.to_euclidean_division_equations. lia.
Qed.

Lemma get_page_of e : is_u32 e → kpage_ok (page_of e) → pte_get_page e = Ret (page_of e).
Proof.
  intros He [_ Hb]. unfold pte_get_page, ptov. rewrite land_page by done.
  unfold page_of, PHYS_BASE in *. rewrite ASSERT_true by lia.
  by rewrite u32_id by (unfold is_u32; lia).
Qed.

Lemma get_pt_of e :
  is_u32 e → Z.land e PTE_P ≠ 0 → kpage_ok (page_of e) → pde_get_pt e = Ret (page_of e).
Proof.
  intros He Hp Hk. unfold pde_get_pt. rewrite ASSERT_true by lia.
  by apply get_page_of.
Qed.

(** Clearing or setting one of the low bits does not change the page. *)
Lemma div_page_eq a b :
  0 ≤ a → 0 ≤ b → (∀ k, 12 ≤ k → Z.testbit a k = Z.testbit b k) → a / 4096 = b / 4096.
Proof.
  intros Ha Hb E. change 4096 with (2 ^ 12). rewrite <- !Z.shiftr_div_pow2 by lia.
  apply Z.bits_inj'. intros k Hk. rewrite !Z.shiftr_spec by done. apply E. lia.
Qed.

Lemma page_of_lor e f :
  is_u32 e → 0 ≤ f < 4096 → is_u32 (Z.lor e f) ∧ page_of (Z.lor e f) = page_of e.
Proof.
  intros He Hf.
  assert (is_u32 (Z.lor e f)) as Hl by (apply is_u32_lor; [done|unfold is_u32; lia]).
  split; [done|]. unfold page_of. f_equal. f_equal. destruct He, Hl.
  apply div_page_eq; [done..|]. intros k Hk. rewrite Z.lor_spec.
  by rewrite (flag_high_bits f), orb_false_r.
Qed.

Lemma page_of_clear e f :
  is_u32 e → 0 ≤ f < 4096 →
  is_u32 (Z.land e (u32 (Z.lnot f))) ∧ page_of (Z.land e (u32 (Z.lnot f))) = page_of e
  ∧ Z.land (Z.land e (u32 (Z.lnot f))) f = 0.
Proof.
  intros He Hf. set (g := Z.land e (u32 (Z.lnot f))).
  assert (∀ k, 0 ≤ k → Z.testbit g k = Z.testbit e k && negb (Z.testbit f k)) as Hb.
  { intros k Hk. unfold g, u32. change 4294967296 with (2 ^ 32).
    rewrite Z.land_spec. destruct (Z_lt_le_dec k 32).
    - by rewrite Z.mod_pow2_bits_low, Z.lnot_spec by lia.
    - by rewrite (u32_high_bits e k He). }
  assert (is_u32 g) as Hg by (by apply is_u32_land).
  split_and!; [done| |].
  - unfold page_of. f_equal. f_equal. destruct He, Hg. apply div_page_eq; [done..|].
    intros k Hk. rewrite Hb by lia.
    by rewrite (flag_high_bits f), andb_true_r.
  - apply Z.bits_inj'. intros k Hk. rewrite Z.land_spec, Hb, Z.bits_0 by done.
    destruct (Z.testbit e k), (Z.testbit f k); done.
Qed.

(** *** Reading and writing entries *)
Lemma user_page_split vp : user_page vp → 0 ≤ vp / 1024 < 768 ∧ 0 ≤ vp mod 1024 < 1024.
Proof. unfold user_page. intros. Z.to_euclidean_division_equations. lia. Qed.

(** Two different pages share no byte. *)
Lemma pages_apart p q :
  p mod 4096 = 0 → q mod 4096 = 0 → p ≠ q → p + 4096 ≤ q ∨ q + 4096 ≤ p.
Proof. intros. Z.to_euclidean_division_equations. lia. Qed.

Lemma table_alloc s pd q : as_wf s pd → is_table (pmem s) pd q → allocated s q = true.
Proof. intros Hw [->|(i & Hi & Hnz & ->)]; [apply Hw|by apply Hw]. Qed.

Lemma table_align s pd q : as_wf s pd → is_table (pmem s) pd q → kpage_ok q.
Proof.
  intros Hw Hq. eapply allocated_kpage; [apply Hw|by eapply table_alloc].
Qed.

(** Everything the address space consists of. *)
Definition in_use (s : pstate) (pd q : Z) : Prop :=
  is_table (pmem s) pd q
  ∨ ∃ vp e, user_page vp ∧ mapping (pmem s) pd vp = Some e ∧ q = page_of e.

Lemma in_use_alloc s pd q : as_wf s pd → in_use s pd q → allocated s q = true.
Proof.
  intros Hw [Hq|(vp & e & Hv & He & ->)]; [by eapply table_alloc|].
  by destruct (aw_frame _ _ Hw vp e Hv He).
Qed.

Lemma is_table_same m m' pd q :
  (∀ i, 0 ≤ i < 768 → pde_at m' pd i = pde_at m pd i) →
  is_table m' pd q ↔ is_table m pd q.
Proof.
  intros E. unfold is_table. f_equiv. split; intros (i & Hi & H1 & H2); exists i;
    rewrite E in * by done; done.
Qed.

(** A change that keeps the directory and the frames, except that page [vp0] may
    now have the unused frame [q0]. *)
Lemma as_wf_change s s' pd vp0 q0 :
  as_wf s pd → palloc_wf s' → unused_frame s pd q0 →
  (∀ i, 0 ≤ i < 768 → pde_at (pmem s') pd i = pde_at (pmem s) pd i) →
  (∀ q, in_use s pd q ∨ q = q0 → allocated s' q = true) →
  (∀ vp e, user_page vp → mapping (pmem s') pd vp = Some e →
     (vp ≠ vp0 ∧ ∃ e', mapping (pmem s) pd vp = Some e' ∧ page_of e = page_of e')
     ∨ vp = vp0 ∧ page_of e = q0) →
  as_wf s' pd.
Proof.
  intros Hw Hp (Hqa & Hqt & Hqf) Hpde Hal Hmap.
  assert (∀ q, is_table (pmem s') pd q ↔ is_table (pmem s) pd q) as Ht.
  { intros q. by apply is_table_same. }
  split; [done|..].
  - apply Hal. left. left. by left.
  - intros i Hi. rewrite Hpde by done. intros Hnz.
    destruct (aw_pde _ _ Hw i Hi Hnz) as (? & ? & ?). split_and!; try done.
    apply Hal. left. left. right. eauto.
  - intros i j Hi Hj. rewrite !Hpde by done. by apply Hw.
  - intros vp e Hv He. rewrite Ht.
    destruct (Hmap _ _ Hv He) as [(_ & e' & He' & ->)|(_ & ->)].
    + split; [apply Hal; left; right; eauto|]. by apply (aw_frame _ _ Hw vp e').
    + auto.
  - intros vp vp' e e' Hv Hv' He He' Heq.
    destruct (Hmap _ _ Hv He) as [(_ & f & Hf & Ef)|(-> & Ef)];
      destruct (Hmap _ _ Hv' He') as [(_ & f' & Hf' & Ef')|(-> & Ef')]; [| | |done].
    + apply (aw_frame_inj _ _ Hw vp vp' f f'); congruence.
    + exfalso. apply (Hqf vp f); congruence.
    + exfalso. apply (Hqf vp' f'); congruence.
Qed.

(** The same without a new frame. *)
Lemma as_wf_keep s s' pd :
  as_wf s pd → palloc_wf s' →
  (∀ i, 0 ≤ i < 768 → pde_at (pmem s') pd i = pde_at (pmem s) pd i) →
  (∀ q, is_table (pmem s) pd q → allocated s' q = true) →
  (∀ vp e, user_page vp → mapping (pmem s') pd vp = Some e →
     ∃ e', mapping (pmem s) pd vp = Some e' ∧ page_of e = page_of e'
       ∧ allocated s' (page_of e) = true) →
  as_wf s' pd.
Proof.
  intros Hw Hp Hpde Hal Hmap.
  assert (∀ q, is_table (pmem s') pd q ↔ is_table (pmem s) pd q) as Ht.
  { intros q. by apply is_table_same. }
  split; [done|..].
  - apply Hal. by left.
  - intros i Hi. rewrite Hpde by done. intros Hnz.
    destruct (aw_pde _ _ Hw i Hi Hnz) as (? & ? & ?). split_and!; try done.
    apply Hal. right. eauto.
  - intros i j Hi Hj. rewrite !Hpde by done. by apply Hw.
  - intros vp e Hv He. rewrite Ht. destruct (Hmap _ _ Hv He) as (e' & He' & E & ?).
    split; [done|]. rewrite E. by apply (aw_frame _ _ Hw vp e').
  - intros vp vp' e e' Hv Hv' He He' Heq.
    destruct (Hmap _ _ Hv He) as (f & Hf & Ef & _).
    destruct (Hmap _ _ Hv' He') as (f' & Hf' & Ef' & _).
    apply (aw_frame_inj _ _ Hw vp vp' f f'); congruence.
Qed.

(** Memory that agrees on the tables denotes the same mapping. *)
Lemma pde_at_same s pd m' i :
  as_wf s pd → same_bytes (pmem s) m' pd (pd + 4096) → 0 ≤ i < 768 →
  pde_at m' pd i = pde_at (pmem s) pd i.
Proof.
  intros Hw Hs Hi. apply load32_same. intros x Hx. apply Hs. lia.
Qed.

Lemma pte_at_same s pd m' vp :
  as_wf s pd → (∀ q, is_table (pmem s) pd q → same_bytes (pmem s) m' q (q + 4096)) →
  user_page vp → pte_at m' pd vp = pte_at (pmem s) pd vp.
Proof.
  intros Hw Hs Hv. destruct (user_page_split _ Hv) as [Hi Hj].
  assert (pde_at m' pd (vp / 1024) = pde_at (pmem s) pd (vp / 1024)) as E.
  { apply (pde_at_same s); [done| |done]. apply Hs. by left. }
  unfold pte_at, pte_addr. rewrite E. case_match; [done|].
  apply load32_same. intros x Hx. apply (Hs (page_of (pde_at (pmem s) pd (vp / 1024)))); [|lia].
  right. exists (vp / 1024). split_and!; try done; lia.
Qed.

Lemma mapping_same s pd m' vp :
  as_wf s pd → (∀ q, is_table (pmem s) pd q → same_bytes (pmem s) m' q (q + 4096)) →
  user_page vp → mapping m' pd vp = mapping (pmem s) pd vp.
Proof. intros. unfold mapping. by rewrite (pte_at_same s) by done. Qed.

(** Storing one entry of an existing page table. *)
Lemma store_pte s pd vp e :
  as_wf s pd → user_page vp → pde_at (pmem s) pd (vp / 1024) ≠ 0 →
  let m' := store32 (pmem s) (pte_addr (pmem s) pd vp) e in
  (∀ i, 0 ≤ i < 768 → pde_at m' pd i = pde_at (pmem s) pd i)
  ∧ (∀ vp', user_page vp' →
       pte_at m' pd vp' = if decide (vp' = vp) then u32 e else pte_at (pmem s) pd vp')
  ∧ ∀ q, kpage_ok q → ¬ is_table (pmem s) pd q → same_bytes (pmem s) m' q (q + 4096).
Proof.
  intros Hw Hv Hnz m'. destruct (user_page_split _ Hv) as [Hi Hj].
  set (pt := page_of (pde_at (pmem s) pd (vp / 1024))).
  assert (is_table (pmem s) pd pt) as Hpt by (right; eauto).
  pose proof (table_align _ _ _ Hw Hpt) as [Hal _].
  pose proof (table_align _ _ pd Hw (or_introl eq_refl)) as [Hald _].
  destruct (aw_pde _ _ Hw _ Hi Hnz) as (_ & _ & Hne). fold pt in Hne.
  assert (∀ q, kpage_ok q → q ≠ pt → same_bytes (pmem s) m' q (q + 4096)) as Hs.
  { intros q [Hq _] Hqp x Hx. apply load8_store32_ne. unfold pte_addr. fold pt.
    destruct (pages_apart q pt); try done; lia. }
  assert (∀ i, 0 ≤ i < 768 → pde_at m' pd i = pde_at (pmem s) pd i) as Hpde.
  { intros i Hi'. apply (pde_at_same s); [done| |done]. apply Hs; [|done].
    eapply table_align; [done|by left]. }
  split_and!; [done| |].
  - intros vp' Hv'. destruct (user_page_split _ Hv') as [Hi' Hj'].
    assert (pte_addr m' pd vp' = pte_addr (pmem s) pd vp') as Ea
      by (unfold pte_addr; by rewrite Hpde).
    unfold pte_at. rewrite Hpde, Ea by done. case_decide as E.
    + subst vp'. destruct (Z.eqb_spec (pde_at (pmem s) pd (vp / 1024)) 0); [done|].
      apply load32_store32_eq.
    + destruct (Z.eqb_spec (pde_at (pmem s) pd (vp' / 1024)) 0) as [|Hnz']; [done|].
      apply load32_store32_ne.
      unfold pte_addr. destruct (decide (vp' / 1024 = vp / 1024)) as [Ed|Hd].
      * rewrite Ed. assert (vp' mod 1024 ≠ vp mod 1024) by (Z.to_euclidean_division_equations; lia).
        lia.
      * assert (is_table (pmem s) pd (page_of (pde_at (pmem s) pd (vp' / 1024)))) as Ht'
          by (right; eauto).
        pose proof (table_align _ _ _ Hw Ht') as [Hal' _].
        destruct (pages_apart _ _ Hal' Hal); [|unfold pt in *; lia..].
        intros Heq. by apply (aw_inj _ _ Hw) in Heq.
  - intros q Hq Hnt. apply Hs; [done|]. by intros ->.
Qed.

(** ** Page tables made on demand *)

(** [k'] is an address space with mapping [f]; the pages allocated in [k] that are
    not page tables still hold what they held, and any page allocated since is a
    page table of [pd]. *)
Record remapped (k k' : kstate) (pd : Z) (f : Z → option Z) : Prop := {
  rm_wf : as_wf (ks k') pd;
  rm_map : ∀ vp, user_page vp → mapping (kmem k') pd vp = f vp;
  rm_alloc : ∀ q, allocated (ks k) q = true → allocated (ks k') q = true;
  rm_table : ∀ q, is_table (kmem k') pd q → is_table (kmem k) pd q ∨ allocated (ks k) q = false;
  rm_keep : ∀ q, is_table (kmem k) pd q → is_table (kmem k') pd q;
  rm_new : ∀ q, allocated (ks k') q = true → allocated (ks k) q = true ∨ is_table (kmem k') pd q;
  rm_data : ∀ q, allocated (ks k) q = true → ¬ is_table (kmem k) pd q →
    same_bytes (kmem k) (kmem k') q (q + 4096);
  rm_geom : same_geom (ks k) (ks k');
  rm_cr3 : cr3 k' = cr3 k;
}.

Lemma same_geom_refl s : same_geom s s.
Proof. by intros u. Qed.

Lemma same_geom_trans s1 s2 s3 : same_geom s1 s2 → same_geom s2 s3 → same_geom s1 s3.
Proof. intros H1 H2 u. destruct (H1 u), (H2 u). split; congruence. Qed.

Lemma remapped_refl k pd : as_wf (ks k) pd → remapped k k pd (mapping (kmem k) pd).
Proof. intros Hw. split; auto using same_geom_refl. intros q _ _ x _. done. Qed.

Lemma remapped_trans k k1 k2 pd f g :
  remapped k k1 pd f → remapped k1 k2 pd g → remapped k k2 pd g.
Proof.
  intros [_ _ Ha Ht Hk Hn Hd Hgeo Hc] [Hw2 Hm Ha2 Ht2 Hk2 Hn2 Hd2 Hgeo2 Hc2].
  assert (∀ q, allocated (ks k) q = true → ¬ is_table (kmem k) pd q →
            ¬ is_table (kmem k1) pd q) as Hnt.
  { intros q Hq Hq' [?|E]%Ht; [done|]. congruence. }
  split; auto.
  - intros q [Hq|Hq]%Ht2; [by apply Ht|right].
    destruct (allocated (ks k) q) eqn:E; [|done]. apply Ha in E. congruence.
  - intros q [[?|Hq]%Hn|?]%Hn2; auto.
  - intros q Hq Hq' x Hx. rewrite (Hd2 q) by auto. by apply (Hd q).
  - by eapply same_geom_trans.
  - congruence.
Qed.

Lemma remapped_unused k k' pd q f :
  remapped k k' pd f → (∀ vp, user_page vp → f vp = mapping (kmem k) pd vp) →
  unused_frame (ks k) pd q → unused_frame (ks k') pd q.
Proof.
  intros Hr Hf (Ha & Ht & Hu). split_and!.
  - by apply (rm_alloc _ _ _ _ Hr).
  - intros [?|E]%(rm_table _ _ _ _ Hr); [done|]. congruence.
  - intros vp e Hv. change (pmem (ks k')) with (kmem k').
    rewrite (rm_map _ _ _ _ Hr), Hf by done. by apply Hu.
Qed.

Lemma mapping_pte m m' pd vp :
  pte_at m' pd vp = pte_at m pd vp → mapping m' pd vp = mapping m pd vp.
Proof. unfold mapping. by intros ->. Qed.

(** A zeroed page used as the table of directory entry [i], which had none. *)
Section NewTable.
Context (s s1 : pstate) (pd i pt : Z).
Context (Hw : as_wf s pd) (Hi : 0 ≤ i < 768) (Hz : pde_at (pmem s) pd i = 0).
Context (Hg : got_pages s s1 false true pt 1).
Let m2 := store32 (pmem s1) (pd + 4 * i) (pt - PHYS_BASE + 7).
Let s2 := set_pmem s1 m2.

Lemma new_table_alloc q : allocated s2 q = if decide (q = pt) then true else allocated s q.
Proof using Hg.
  destruct Hg as [Hal _ _ _ Ha _ _ _ _].
  assert (allocated s2 q = allocated s1 q) as -> by done.
  rewrite Ha, in_group_one by done. by case_bool_decide; case_decide.
Qed.

Lemma new_table_fresh : allocated s pt = false.
Proof using Hg.
  destruct Hg as [Hal _ _ Hf _ _ _ _ _]. apply Hf. rewrite in_group_one by done.
  by apply bool_decide_true.
Qed.

Lemma new_table_ok : kpage_ok pt ∧ kpage_ok pd ∧ pt ≠ pd.
Proof using Hw Hg.
  split_and!.
  - eapply allocated_kpage; [apply (gp_wf _ _ _ _ _ _ Hg)|].
    rewrite (gp_alloc _ _ _ _ _ _ Hg), in_group_one by apply Hg.
    by rewrite bool_decide_true.
  - eapply table_align; [done|by left].
  - intros E. pose proof new_table_fresh. pose proof (aw_pd _ _ Hw). congruence.
Qed.

Lemma new_table_bytes x :
  x < pt ∨ pt + 4096 ≤ x → x < pd + 4 * i ∨ pd + 4 * i + 4 ≤ x →
  load8 m2 x = load8 (pmem s) x.
Proof using Hg.
  intros H1 H2. unfold m2. rewrite load8_store32_ne by done.
  apply (gp_mem _ _ _ _ _ _ Hg). lia.
Qed.

Lemma new_table_pde j :
  0 ≤ j < 768 →
  pde_at m2 pd j = if decide (j = i) then pt - PHYS_BASE + 7 else pde_at (pmem s) pd j.
Proof using Hw Hi Hg.
  intros Hj. destruct new_table_ok as ([Hpt Hptb] & [Hpd _] & Hne).
  unfold pde_at. case_decide as E.
  - subst j. unfold m2. rewrite load32_store32_eq, u32_id; [done|].
    unfold is_u32, PHYS_BASE in *. lia.
  - apply load32_same. intros x Hx. apply new_table_bytes; [|lia].
    destruct (pages_apart _ _ Hpt Hpd Hne); lia.
Qed.

Lemma new_table_pages j :
  0 ≤ j < 768 → pde_at (pmem s) pd j ≠ 0 →
  page_of (pde_at (pmem s) pd j) ≠ pt
  ∧ same_bytes (pmem s) m2 (page_of (pde_at (pmem s) pd j))
      (page_of (pde_at (pmem s) pd j) + 4096).
Proof using Hw Hi Hg.
  intros Hj Hnz. destruct (aw_pde _ _ Hw j Hj Hnz) as (_ & Ha & Hne).
  set (q := page_of _) in *. pose proof new_table_fresh as Hf.
  destruct new_table_ok as ([Hpt _] & [Hpd _] & _).
  destruct (allocated_kpage _ _ (aw_palloc _ _ Hw) Ha) as [Hq _].
  assert (q ≠ pt) as Hqp by congruence. split; [done|].
  intros x Hx. apply new_table_bytes.
  - destruct (pages_apart _ _ Hq Hpt Hqp); lia.
  - destruct (pages_apart _ _ Hq Hpd Hne); lia.
Qed.

Lemma new_table_pte vp : user_page vp → pte_at m2 pd vp = pte_at (pmem s) pd vp.
Proof using Hw Hi Hz Hg.
  intros Hv. destruct (user_page_split _ Hv) as [Hd Hm].
  destruct new_table_ok as (Hpt & [Hpd _] & Hne).
  unfold pte_at, pte_addr. rewrite new_table_pde by done. case_decide as E.
  - rewrite E, Hz. cbn [Z.eqb]. rewrite page_of_create by (done || lia).
    destruct (_ =? _); [done|].
    assert (∀ x, pt ≤ x < pt + 4096 → load8 m2 x = 0) as H0.
    { intros x Hx. unfold m2. rewrite load8_store32_ne.
      - apply (gp_zero _ _ _ _ _ _ Hg); [done|lia].
      - destruct Hpt as [Hpt _]. destruct (pages_apart _ _ Hpt Hpd Hne); lia. }
    unfold load32. by rewrite !H0 by lia.
  - destruct (Z.eqb_spec (pde_at (pmem s) pd (vp / 1024)) 0) as [|Hnz]; [done|].
    apply load32_same. intros x Hx. apply (proj2 (new_table_pages _ Hd Hnz)). lia.
Qed.

Lemma new_table_is q : is_table m2 pd q ↔ is_table (pmem s) pd q ∨ q = pt.
Proof using Hw Hi Hz Hg.
  destruct new_table_ok as (Hpt & _ & _). unfold is_table. split.
  - intros [->|(j & Hj & Hnz & ->)]; [auto|]. revert Hnz. rewrite new_table_pde by done.
    case_decide; intros Hnz.
    + right. apply page_of_create; [done|lia].
    + left. right. exists j. done.
  - intros [[->|(j & Hj & Hnz & ->)]| ->]; [auto| |]; right.
    + exists j. rewrite new_table_pde by done. case_decide; [congruence|done].
    + exists i. rewrite new_table_pde by done. rewrite decide_True by done.
      rewrite page_of_create by (done || lia). destruct Hpt. split; [done|].
      split; [unfold PHYS_BASE in *; lia|done].
Qed.

Lemma new_table_wf : as_wf s2 pd.
Proof using Hw Hi Hz Hg.
  destruct new_table_ok as (Hpt & Hpd & Hne).
  assert (∀ j, 0 ≤ j < 768 → j ≠ i → pde_at m2 pd j ≠ 0 → page_of (pde_at m2 pd j) ≠ pt) as Ho.
  { intros j Hj Hji. rewrite new_table_pde, decide_False by done. by apply new_table_pages. }
  assert (pde_at m2 pd i = pt - PHYS_BASE + 7) as Ei.
  { rewrite new_table_pde, decide_True by done. done. }
  split.
  - apply set_pmem_wf, (gp_wf _ _ _ _ _ _ Hg).
  - rewrite new_table_alloc. case_decide; [done|apply Hw].
  - intros j Hj. cbn [set_pmem pmem s2]. rewrite new_table_alloc.
    destruct (decide (j = i)) as [->|Hji].
    + intros _. rewrite Ei, page_of_create by (done || lia).
      rewrite decide_True by done. split_and!; try done.
      rewrite land_page_flags; [done|by apply kpage_phys|lia|unfold PTE_P; lia].
    + rewrite new_table_pde, decide_False by done. intros Hnz.
      destruct (aw_pde _ _ Hw j Hj Hnz) as (? & ? & ?). by case_decide.
  - intros j j' Hj Hj' Hnz Hnz' E. cbn [set_pmem pmem s2] in *.
    destruct (decide (j = i)) as [->|Hji], (decide (j' = i)) as [->|Hji']; [done|..].
    + rewrite Ei, page_of_create in E by (done || lia). by destruct (Ho j').
    + symmetry in E. rewrite Ei, page_of_create in E by (done || lia). by destruct (Ho j).
    + rewrite !new_table_pde, !decide_False in * by done. by apply (aw_inj _ _ Hw).
  - intros vp e Hv. cbn [set_pmem pmem s2].
    rewrite (mapping_pte (pmem s)) by (by apply new_table_pte).
    intros He. destruct (aw_frame _ _ Hw vp e Hv He) as [Ha Hnt].
    rewrite new_table_alloc, new_table_is. split; [by case_decide|].
    intros [?|E]; [done|]. pose proof new_table_fresh. congruence.
  - intros vp vp' e e' Hv Hv'. cbn [set_pmem pmem s2].
    rewrite (mapping_pte (pmem s) m2 pd vp), (mapping_pte (pmem s) m2 pd vp')
      by (by apply new_table_pte). by apply (aw_frame_inj _ _ Hw).
Qed.
End NewTable.

(** *** [lookup_page] *)
Lemma va_split va : 0 ≤ va < PHYS_BASE →
  user_page (pg_no va) ∧ pd_no va = pg_no va / 1024 ∧ pt_no va = pg_no va mod 1024.
Proof.
  rewrite pg_no_div, pd_no_div, pt_no_div. unfold user_page, PHYS_BASE. intros Hva.
  split; [Z.to_euclidean_division_equations; lia|]. split; [|done].
  by rewrite Z.div_div by lia.
Qed.

Lemma pde_pt s pd i :
  as_wf s pd → 0 ≤ i < 768 → pde_at (pmem s) pd i ≠ 0 →
  pde_get_pt (pde_at (pmem s) pd i) = Ret (page_of (pde_at (pmem s) pd i)).
Proof.
  intros Hw Hi Hnz. destruct (aw_pde _ _ Hw i Hi Hnz) as (Hp & Ha & _).
  apply get_pt_of; [apply load32_range|done|]. eapply allocated_kpage; [apply Hw|done].
Qed.

Lemma table_not_null s pd q : as_wf s pd → is_table (pmem s) pd q → (q =? NULL) = false.
Proof.
  intros Hw Hq. destruct (table_align _ _ _ Hw Hq) as [_ Hb]. unfold PHYS_BASE, NULL in *. lia.
Qed.

Lemma lookup_page_old k pd va create :
  as_wf (ks k) pd → 0 ≤ va < PHYS_BASE →
  pde_at (kmem k) pd (pg_no va / 1024) ≠ 0 →
  lookup_page k pd va create = Ret (pte_addr (kmem k) pd (pg_no va), k).
Proof.
  intros Hw Hva Hnz. destruct (va_split _ Hva) as (Hv & Ed & Et).
  destruct (user_page_split _ Hv) as [Hi _].
  unfold lookup_page. rewrite (table_not_null _ _ pd Hw) by (by left).
  rewrite ASSERT_true by done.
  rewrite ASSERT_true by (unfold is_user_vaddr; destruct create; cbn; lia).
  rewrite Ed, Et. fold (pde_at (kmem k) pd (pg_no va / 1024)).
  destruct (Z.eqb_spec (pde_at (kmem k) pd (pg_no va / 1024)) 0); [done|].
  unfold kmem in *. by rewrite pde_pt by done.
Qed.

Lemma lookup_page_none k pd va :
  as_wf (ks k) pd → 0 ≤ va < PHYS_BASE →
  pde_at (kmem k) pd (pg_no va / 1024) = 0 →
  lookup_page k pd va false = Ret (NULL, k).
Proof.
  intros Hw Hva Hz. destruct (va_split _ Hva) as (Hv & Ed & Et).
  unfold lookup_page. rewrite (table_not_null _ _ pd Hw) by (by left).
  rewrite !ASSERT_true by done. rewrite Ed. unfold pde_at in Hz. by rewrite Hz.
Qed.

Lemma lookup_page_create k pd va :
  as_wf (ks k) pd → 0 ≤ va < PHYS_BASE →
  (∃ k', lookup_page k pd va true = Ret (pte_addr (kmem k') pd (pg_no va), k')
     ∧ remapped k k' pd (mapping (kmem k) pd) ∧ tlb k' = tlb k
     ∧ pde_at (kmem k') pd (pg_no va / 1024) ≠ 0)
  ∨ (pool_full (ks k) false 1 ∧ lookup_page k pd va true = Ret (NULL, k)).
Proof.
  intros Hw Hva. destruct (va_split _ Hva) as (Hv & Ed & Et).
  destruct (user_page_split _ Hv) as [Hi _].
  destruct (decide (pde_at (kmem k) pd (pg_no va / 1024) = 0)) as [Hz|Hnz];
    [|left; exists k; rewrite lookup_page_old by done; auto using remapped_refl].
  unfold lookup_page. rewrite (table_not_null _ _ pd Hw) by (by left).
  rewrite ASSERT_true by done. rewrite ASSERT_true by (unfold is_user_vaddr; cbn; lia).
  rewrite Ed, Et. fold (pde_at (kmem k) pd (pg_no va / 1024)). rewrite Hz. cbn [Z.eqb].
  destruct (palloc_get_multiple_spec (ks k) PAL_ZERO 1 (aw_palloc _ _ Hw))
    as [(pt & s1 & E & Hpt & Hg)|(Hfull & E)]; [lia| |right];
    unfold palloc_get_page; rewrite E.
  2:{ split; [done|]. cbn. by destruct k. }
  left. change (flag PAL_ZERO PAL_USER) with false in Hg.
  change (flag PAL_ZERO PAL_ZERO) with true in Hg.
  rewrite bind_Ret. cbn beta iota. destruct (Z.eqb_spec pt NULL); [done|].
  destruct (new_table_ok _ _ _ _ Hw Hg) as (Hok & _ & _).
  rewrite pde_create_eq, bind_Ret by done.
  set (i := pg_no va / 1024) in *.
  set (k2 := kstore (with_ks k s1) _ _).
  assert (kmem k2 = store32 (pmem s1) (pd + 4 * i) (pt - PHYS_BASE + 7)) as Em by done.
  pose proof (new_table_wf _ _ _ _ _ Hw Hi Hz Hg) as Hw2.
  pose proof (new_table_alloc _ _ pd i _ Hg : ∀ q, allocated (ks k2) q = _) as Hal2.
  assert (pde_at (kmem k2) pd i = pt - PHYS_BASE + 7) as Ei.
  { rewrite Em, (new_table_pde _ _ _ _ _ Hw Hi Hg), decide_True by done. done. }
  fold (pde_at (kmem k2) pd i). rewrite Ei, pde_get_pt_eq, bind_Ret by done.
  assert (pt - PHYS_BASE + 7 ≠ 0) as Hnz by (destruct Hok; unfold PHYS_BASE in *; lia).
  exists k2. split; [|split; [|split; [done|by rewrite Ei]]].
  { unfold pte_addr. fold i. rewrite Ei, page_of_create by (done || lia). done. }
  split; try done.
  - intros vp' Hv'. rewrite Em. by apply mapping_pte, (new_table_pte (ks k)).
  - intros q Hq. rewrite Hal2. by case_decide.
  - intros q. rewrite Em, (new_table_is _ _ _ _ _ Hw Hi Hz Hg).
    intros [?| ->]; [by left|right]. by eapply new_table_fresh.
  - intros q Hq. rewrite Em, (new_table_is _ _ _ _ _ Hw Hi Hz Hg). by left.
  - intros q. rewrite Hal2. case_decide; [|by left].
    subst. right. rewrite Em, (new_table_is _ _ _ _ _ Hw Hi Hz Hg). by right.
  - intros q Hq Hnt x Hx. rewrite Em.
    destruct (allocated_kpage _ _ (aw_palloc _ _ Hw) Hq) as [Hqm _].
    destruct (new_table_ok _ _ _ _ Hw Hg) as ([Hptm _] & [Hpdm _] & _).
    apply (new_table_bytes _ _ _ _ _ Hg).
    + destruct (pages_apart q pt); try done; [|lia..]. intros ->.
      rewrite (new_table_fresh _ _ _ Hg) in Hq. done.
    + destruct (pages_apart q pd); try done; [|lia..]. intros ->. apply Hnt. by left.
  - apply (gp_geom _ _ _ _ _ _ Hg).
Qed.

(** ** The operations on the mapping *)

(** The TLB holds translations of present pages only, those of the directory
    that CR3 points to. *)
Definition tlb_ok (k : kstate) (pd : Z) : Prop :=
  cr3 k = pd - PHYS_BASE → ∀ vp q, user_page vp → tlb k !! vp = Some q →
    ∃ e, mapping (kmem k) pd vp = Some e ∧ page_of e = q.

(** Writing entry [e] for page [vp], whose table exists. *)
Lemma kstore_pte k pd vp e q0 :
  as_wf (ks k) pd → user_page vp → pde_at (kmem k) pd (vp / 1024) ≠ 0 → is_u32 e →
  (Z.land e PTE_P = 0 ∨ page_of e = q0 ∧ unused_frame (ks k) pd q0
   ∨ ∃ e0, mapping (kmem k) pd vp = Some e0 ∧ page_of e0 = page_of e) →
  remapped k (kstore k (pte_addr (kmem k) pd vp) e) pd
    (λ vp', if decide (vp' = vp) then (if Z.land e PTE_P =? 0 then None else Some e)
            else mapping (kmem k) pd vp').
Proof.
  intros Hw Hv Hnz He Hcase. unfold kmem in *.
  destruct (store_pte (ks k) pd vp e Hw Hv Hnz) as (Hpde & Hpte & Hdata).
  set (m' := store32 _ _ _) in *. set (k' := kstore _ _ _).
  assert (kmem k' = m') as Em by done.
  assert (∀ vp', user_page vp' → mapping m' pd vp' =
    (if decide (vp' = vp) then (if Z.land e PTE_P =? 0 then None else Some e)
     else mapping (pmem (ks k)) pd vp')) as Hmap.
  { intros vp' Hv'. unfold mapping at 1. rewrite Hpte by done. case_decide; [|done].
    by rewrite u32_id. }
  assert (palloc_wf (ks k')) as Hp' by apply set_pmem_wf, Hw.
  split; try done.
  - destruct Hcase as [H0|[[Eq Hu]|(e0 & He0 & Ep)]].
    + apply (as_wf_keep (ks k)); try done; [intros q Hq; exact (table_alloc _ _ _ Hw Hq)|].
      intros vp' e' Hv'. change (pmem (ks k')) with m'. rewrite Hmap by done.
      rewrite H0. case_decide; [done|]. intros Hm. exists e'. split_and!; try done.
      by apply (aw_frame _ _ Hw vp' e').
    + apply (as_wf_change (ks k) _ _ vp q0); try done.
      * intros q [Hin| ->]; [by eapply (in_use_alloc (ks k))|]. by destruct Hu.
      * intros vp' e' Hv'. change (pmem (ks k')) with m'. rewrite Hmap by done.
        case_decide; [|by eauto]. destruct (_ =? 0); [done|]. intros [= <-]. by right.
    + apply (as_wf_keep (ks k)); try done; [intros q Hq; exact (table_alloc _ _ _ Hw Hq)|].
      intros vp' e' Hv'. change (pmem (ks k')) with m'. rewrite Hmap by done.
      case_decide as E.
      * subst. destruct (_ =? 0); [done|]. intros [= <-]. exists e0. split_and!; try done.
        rewrite <- Ep. by apply (aw_frame _ _ Hw vp e0).
      * intros Hm. exists e'. split_and!; try done. by apply (aw_frame _ _ Hw vp' e').
  - intros q. rewrite Em. unfold kmem. rewrite is_table_same by done. by left.
  - intros q Hq. rewrite Em. by apply (is_table_same (pmem (ks k))).
  - by left.
  - intros q Ha Hnt. rewrite Em. apply Hdata; [|done].
    eapply allocated_kpage; [apply Hw|done].
Qed.

Section Operations.
Context (init_page_dir init_ram_pages : Z).

(** The address [lookup_page] finds is never null. *)
Lemma pte_addr_not_null k pd vp :
  as_wf (ks k) pd → user_page vp → pde_at (kmem k) pd (vp / 1024) ≠ 0 →
  (pte_addr (kmem k) pd vp =? NULL) = false.
Proof.
  intros Hw Hv Hnz. destruct (user_page_split _ Hv) as [Hi Hj].
  assert (is_table (kmem k) pd (page_of (pde_at (kmem k) pd (vp / 1024)))) as Ht
    by (right; eauto).
  destruct (table_align _ _ _ Hw Ht) as [_ Hb]. unfold pte_addr, NULL, PHYS_BASE in *. lia.
Qed.

Lemma pagedir_get_page_spec k pd ua :
  as_wf (ks k) pd → 0 ≤ ua < PHYS_BASE →
  pagedir_get_page k pd ua
  = Ret (match mapping (kmem k) pd (pg_no ua) with
         | Some e => page_of e + ua mod 4096
         | None => NULL
         end).
Proof.
  intros Hw Hua. destruct (va_split _ Hua) as (Hv & _). unfold pagedir_get_page.
  rewrite ASSERT_true by (unfold is_user_vaddr; lia).
  destruct (mapping (kmem k) pd (pg_no ua)) as [e|] eqn:Em.
  - pose proof (aw_frame _ _ Hw _ _ Hv Em) as [Ha _].
    unfold mapping in Em. destruct (Z.land (pte_at (kmem k) pd (pg_no ua)) PTE_P =? 0) eqn:Ep;
      [done|]. injection Em as <-. unfold pte_at in *.
    destruct (Z.eqb_spec (pde_at (kmem k) pd (pg_no ua / 1024)) 0); [done|].
    rewrite lookup_page_old, bind_Ret by done. cbn beta iota.
    rewrite pte_addr_not_null by done.
    cbn [negb andb]. rewrite Ep. cbn [negb].
    pose proof (allocated_kpage _ _ (aw_palloc _ _ Hw) Ha) as Hk.
    rewrite get_page_of, bind_Ret by (done || apply load32_range).
    rewrite pg_ofs_mod, u32_id; [done|]. destruct Hk as [Hm Hb].
    unfold is_u32, PHYS_BASE in *. Z.to_euclidean_division_equations. lia.
  - unfold mapping in Em. destruct (Z.land (pte_at (kmem k) pd (pg_no ua)) PTE_P =? 0) eqn:Ep;
      [|done]. unfold pte_at in Ep.
    destruct (Z.eqb_spec (pde_at (kmem k) pd (pg_no ua / 1024)) 0).
    + by rewrite lookup_page_none.
    + rewrite lookup_page_old, bind_Ret by done. cbn beta iota. rewrite Ep.
      by rewrite andb_false_r.
Qed.

Definition user_pte (q : Z) (w : bool) : Z := q - PHYS_BASE + if w then 7 else 5.

Lemma user_pte_page q w :
  kpage_ok q → is_u32 (user_pte q w) ∧ page_of (user_pte q w) = q
    ∧ (Z.land (user_pte q w) PTE_P =? 0) = false.
Proof.
  intros Hq. unfold user_pte. split_and!.
  - destruct Hq as [_ Hb]. unfold is_u32, PHYS_BASE in *. destruct w; lia.
  - apply page_of_create; [done|]. destruct w; lia.
  - rewrite land_page_flags by (try apply kpage_phys; try done; unfold PTE_P; destruct w; lia).
    by destruct w.
Qed.


(** The checks [pagedir_set_page] makes before it looks at the tables. *)
Definition set_page_pre (pd q : Z) : Prop :=
  pd ≠ init_page_dir ∧ (q - PHYS_BASE) / 4096 < init_ram_pages.

Lemma set_page_checks k pd vp q w :
  kpage_ok q → user_page vp → set_page_pre pd q →
  pagedir_set_page init_page_dir init_ram_pages k pd (4096 * vp) q w
  = '(pte, k) ← lookup_page k pd (4096 * vp) true;
    if negb (pte =? NULL) then
      ASSERT (Z.land (load32 (kmem k) pte) PTE_P =? 0);;
      Ret (true, kstore k pte (user_pte q w))
    else Ret (false, k).
Proof.
  intros Hq Hv [Hpd Hram]. unfold pagedir_set_page. rewrite !pg_ofs_mod.
  rewrite ASSERT_true by (rewrite Z.mul_comm, Z.mod_mul; lia).
  rewrite ASSERT_true by (destruct Hq; lia).
  rewrite ASSERT_true by (unfold is_user_vaddr, user_page, PHYS_BASE in *; lia).
  rewrite vtop_kpage, bind_Ret by done.
  rewrite ASSERT_true
    by (change PTSHIFT with 12; rewrite Z.shiftr_div_pow2 by lia; apply Z.ltb_lt; exact Hram).
  rewrite ASSERT_true by lia. by rewrite pte_create_user_eq.
Qed.

Lemma user_page_va vp :
  user_page vp → 0 ≤ 4096 * vp < PHYS_BASE ∧ pg_no (4096 * vp) = vp.
Proof.
  unfold user_page, PHYS_BASE. intros. rewrite pg_no_div.
  split; [lia|]. rewrite Z.mul_comm. by apply Z.div_mul.
Qed.

Lemma mapping_present m pd vp :
  pde_at m pd (vp / 1024) ≠ 0 →
  mapping m pd vp = if Z.land (load32 m (pte_addr m pd vp)) PTE_P =? 0 then None
                    else Some (load32 m (pte_addr m pd vp)).
Proof.
  intros Hnz. unfold mapping, pte_at. by destruct (Z.eqb_spec (pde_at m pd (vp / 1024)) 0).
Qed.

Lemma pagedir_set_page_spec k pd vp q w :
  as_wf (ks k) pd → user_page vp → mapping (kmem k) pd vp = None →
  unused_frame (ks k) pd q → set_page_pre pd q →
  let r := pagedir_set_page init_page_dir init_ram_pages k pd (4096 * vp) q w in
  (∃ k', r = Ret (true, k') ∧ tlb k' = tlb k
     ∧ remapped k k' pd (λ vp', if decide (vp' = vp) then Some (user_pte q w)
                                else mapping (kmem k) pd vp'))
  ∨ (r = Ret (false, k) ∧ pool_full (ks k) false 1).
Proof.
  intros Hw Hv Hnone Hu Hpre r.
  assert (kpage_ok q) as Hq by (eapply allocated_kpage; [apply Hw|apply Hu]).
  destruct (user_page_va _ Hv) as [Hva Eva].
  unfold r. rewrite set_page_checks by done.
  destruct (lookup_page_create k pd (4096 * vp) Hw Hva)
    as [(k1 & -> & Hr1 & Htlb & Hnz)|(Hfull & ->)]; [left|by right].
  rewrite Eva in *. rewrite bind_Ret. cbn beta iota.
  pose proof (rm_wf _ _ _ _ Hr1) as Hw1.
  pose proof (rm_map _ _ _ _ Hr1 vp Hv) as Hm1. rewrite Hnone, mapping_present in Hm1 by done.
  rewrite pte_addr_not_null by done. cbn [negb].
  destruct (Z.land _ PTE_P =? 0); [|done]. cbn [ASSERT]. rewrite bind_Ret.
  destruct (user_pte_page q w Hq) as (He & Ep & Epr).
  eexists. split; [reflexivity|]. split; [done|].
  eapply remapped_trans; [exact Hr1|].
  assert (unused_frame (ks k1) pd q) as Hu1 by (by eapply remapped_unused).
  pose proof (kstore_pte k1 pd vp (user_pte q w) q Hw1 Hv Hnz He) as Hst.
  destruct Hst as [Hw' Hm' ? ? ? ? ? ? ?]; [by right; left|].
  split; try done. intros vp' Hv'. rewrite Hm', Epr by done.
  case_decide; [done|]. by apply (rm_map _ _ _ _ Hr1).
Qed.

(** Mapping a page twice is a kernel bug and stops the machine. *)
Lemma pagedir_set_page_twice k pd vp q w e :
  as_wf (ks k) pd → user_page vp → mapping (kmem k) pd vp = Some e →
  kpage_ok q → set_page_pre pd q →
  pagedir_set_page init_page_dir init_ram_pages k pd (4096 * vp) q w = Panic.
Proof.
  intros Hw Hv He Hq Hpre. destruct (user_page_va _ Hv) as [Hva Eva].
  rewrite set_page_checks by done.
  assert (pde_at (kmem k) pd (vp / 1024) ≠ 0) as Hnz.
  { intros E. unfold mapping, pte_at in He. by rewrite E in He. }
  rewrite lookup_page_old by (rewrite ?Eva; done). rewrite Eva, bind_Ret. cbn beta iota.
  rewrite pte_addr_not_null by done. cbn [negb].
  rewrite mapping_present in He by done. by destruct (Z.land _ PTE_P =? 0).
Qed.

Lemma kpage_ptov pd : kpage_ok pd → ptov (pd - PHYS_BASE) = Ret pd.
Proof.
  intros [_ Hb]. unfold ptov, PHYS_BASE in *. rewrite ASSERT_true by lia.
  rewrite u32_id by (unfold is_u32; lia). f_equal. lia.
Qed.

(** The register always holds the physical address of a directory. *)
Definition cr3_ok (k : kstate) : Prop := ∃ a, kpage_ok a ∧ cr3 k = a - PHYS_BASE.

Lemma invalidate_spec k pd :
  kpage_ok pd → cr3_ok k →
  invalidate_pagedir init_page_dir k pd
  = Ret (KState (ks k) (cr3 k) (if decide (cr3 k = pd - PHYS_BASE) then ∅ else tlb k)).
Proof.
  intros Hpd (a & Ha & Ec). unfold invalidate_pagedir, active_pd.
  rewrite Ec, kpage_ptov, bind_Ret by done. destruct (Z.eqb_spec a pd) as [->|Hne].
  - rewrite decide_True by done. unfold pagedir_activate.
    destruct (Z.eqb_spec pd NULL) as [->|];
      [destruct Hpd; unfold PHYS_BASE, NULL in *; lia|].
    by rewrite vtop_kpage, bind_Ret.
  - rewrite decide_False by lia. rewrite <- Ec. by destruct k.
Qed.

Lemma pagedir_clear_page_spec k pd vp :
  as_wf (ks k) pd → cr3_ok k → user_page vp →
  ∃ k', pagedir_clear_page init_page_dir k pd (4096 * vp) = Ret k'
    ∧ remapped k k' pd (λ vp', if decide (vp' = vp) then None else mapping (kmem k) pd vp')
    ∧ (∀ q, allocated (ks k') q = allocated (ks k) q)
    ∧ (tlb_ok k pd → tlb_ok k' pd).
Proof.
  intros Hw Hc Hv. destruct (user_page_va _ Hv) as [Hva Eva]. unfold pagedir_clear_page.
  rewrite pg_ofs_mod. rewrite ASSERT_true by (rewrite Z.mul_comm, Z.mod_mul; lia).
  rewrite ASSERT_true by (unfold is_user_vaddr; lia).
  assert (mapping (kmem k) pd vp = None → remapped k k pd
    (λ vp', if decide (vp' = vp) then None else mapping (kmem k) pd vp')) as Hsame.
  { intros Hn. destruct (remapped_refl k pd Hw). split; try done. intros vp' Hv'.
    case_decide; by subst. }
  destruct (decide (pde_at (kmem k) pd (vp / 1024) = 0)) as [Hz|Hnz].
  { rewrite lookup_page_none by (rewrite ?Eva; done). rewrite bind_Ret. exists k.
    split_and!; try done. apply Hsame. unfold mapping, pte_at. by rewrite Hz. }
  rewrite lookup_page_old by (rewrite ?Eva; done). rewrite Eva, bind_Ret. cbn beta iota.
  rewrite pte_addr_not_null by done. cbn [negb andb].
  pose proof (mapping_present (kmem k) pd vp Hnz) as Hmp.
  destruct (Z.land (load32 (kmem k) (pte_addr (kmem k) pd vp)) PTE_P =? 0); cbn [negb].
  { exists k. split_and!; auto. }
  set (e := load32 _ _) in *.
  destruct (page_of_clear e PTE_P) as (He & Ep & Ez); [apply load32_range|unfold PTE_P; lia|].
  set (e' := Z.land e _) in *.
  pose proof (kstore_pte k pd vp e' 0 Hw Hv Hnz He (or_introl Ez)) as Hst.
  rewrite Ez in Hst. change (0 =? 0) with true in Hst. cbn iota in Hst.
  assert (kpage_ok pd) as Hpd by (eapply table_align; [done|by left]).
  rewrite invalidate_spec by done.
  eexists. split; [reflexivity|]. split_and!; try done.
  - destruct Hst. by split.
  - intros Ht. unfold tlb_ok. cbn [cr3 tlb kstore with_ks].
    case_decide; [intros _ ? ? _; by rewrite lookup_empty|done].
Qed.
End Operations.
