(* ===== verification/UserPages.v ===== *)
(** * Mapping and unmapping ranges of user pages (userprog/syscall.c)

    [map_user_pages] and [unmap_user_pages], the page-level half of [sbrk], over
    the page directories of [Pagedir] and the allocator of [Palloc].  The
    relation [as_step] says what such operations leave alone: every page that
    belongs to the rest of the kernel or to another process, and the contents of
    the pages that stay mapped; and that no page is lost. *)
From S2P Require Import Prelude Mem Bitmap Vaddr Palloc Pagedir.

Section UserPages.
Context (init_page_dir init_ram_pages : Z).

(** The number of pages from [start] to [last] and one more: the iterations of
    the loops below, which end at the first page above [last]. *)
Definition range_fuel (start last : Z) : nat := Z.to_nat ((last - start) / 4096 + 2).

Fixpoint unmap_loop (fuel : nat) (k : kstate) (pd start_page end_page index : Z) : res kstate :=
  match fuel with
  | O => Stuck
  | S fuel =>
    if u32 (start_page + PGSIZE * index) <=? end_page then
      let current_page := u32 (start_page + PGSIZE * index) in
      kernel_page ← pagedir_get_page k pd current_page;
      k ← (if negb (kernel_page =? NULL) then
             k ← pagedir_clear_page init_page_dir k pd current_page;
             s ← palloc_free_page (ks k) kernel_page;
             Ret (with_ks k s)
           else Ret k);
      unmap_loop fuel k pd start_page end_page (index + 1)
    else Ret k
  end.

Definition unmap_user_pages (k : kstate) (pd start_page end_page : Z) : res kstate :=
  ASSERT (Z.land start_page PGMASK =? 0);;
  ASSERT (Z.land end_page PGMASK =? 0);;
  ASSERT (start_page <=? end_page);;
  unmap_loop (range_fuel start_page end_page) k pd start_page end_page 0.

Fixpoint map_loop (fuel : nat) (k : kstate) (pd start_page end_page index : Z)
    : res (bool * kstate) :=
  match fuel with
  | O => Stuck
  | S fuel =>
    if u32 (start_page + PGSIZE * index) <=? end_page then
      let current_page := u32 (start_page + PGSIZE * index) in
      '(kernel_page, s) ← palloc_get_page (ks k) (Z.lor PAL_USER PAL_ZERO);
      let k := with_ks k s in
      if kernel_page =? NULL then
        k ← unmap_user_pages k pd start_page end_page;
        Ret (false, k)
      else
        '(ok, k) ← pagedir_set_page init_page_dir init_ram_pages k pd current_page
                     kernel_page true;
        if negb ok then
          k ← unmap_user_pages k pd start_page end_page;
          s ← palloc_free_page (ks k) kernel_page;
          Ret (false, with_ks k s)
        else map_loop fuel k pd start_page end_page (index + 1)
    else Ret (true, k)
  end.

Definition map_user_pages (k : kstate) (pd start_page end_page : Z) : res (bool * kstate) :=
  ASSERT (Z.land start_page PGMASK =? 0);;
  ASSERT (Z.land end_page PGMASK =? 0);;
  ASSERT (start_page <=? end_page);;
  map_loop (range_fuel start_page end_page) k pd start_page end_page 0.
End UserPages.

(** ** Steps of an address space *)

(** Allocated pages that are no part of the address space. *)
Definition foreign (k : kstate) (pd q : Z) : Prop :=
  allocated (ks k) q = true ∧ ¬ in_use (ks k) pd q.

Record as_step (k k' : kstate) (pd : Z) : Prop := {
  st_wf : as_wf (ks k') pd;
  st_foreign : ∀ q, foreign k' pd q ↔ foreign k pd q;
  st_fdata : ∀ q, foreign k pd q → same_bytes (kmem k) (kmem k') q (q + 4096);
  st_data : ∀ vp e, user_page vp → mapping (kmem k) pd vp = Some e →
    mapping (kmem k') pd vp = Some e →
    same_bytes (kmem k) (kmem k') (page_of e) (page_of e + 4096);
  st_table : ∀ q, is_table (kmem k) pd q → is_table (kmem k') pd q;
  st_geom : same_geom (ks k) (ks k');
  st_cr3 : cr3 k' = cr3 k;
  st_tlb : tlb_ok k pd → tlb_ok k' pd;
}.

Lemma as_step_refl k pd : as_wf (ks k) pd → as_step k k pd.
Proof.
  intros Hw. split; try done; auto using same_geom_refl; by repeat intros ?.
Qed.

Lemma as_step_trans k k1 k2 pd :
  as_step k k1 pd → as_step k1 k2 pd →
  (∀ vp e, user_page vp → mapping (kmem k) pd vp = Some e → mapping (kmem k2) pd vp = Some e →
     mapping (kmem k1) pd vp = Some e) →
  as_step k k2 pd.
Proof.
  intros [Hw1 Hf1 Hfd1 Hd1 Ht1 Hg1 Hc1 Hl1] [Hw2 Hf2 Hfd2 Hd2 Ht2 Hg2 Hc2 Hl2] Hmid.
  split; auto.
  - intros q. by rewrite Hf2.
  - intros q Hq x Hx. rewrite (Hfd2 q) by (rewrite ?Hf1; done). by apply (Hfd1 q).
  - intros vp e Hv He He2 x Hx. pose proof (Hmid _ _ Hv He He2).
    rewrite (Hd2 vp e) by done. by apply (Hd1 vp e).
  - by eapply same_geom_trans.
  - congruence.
Qed.

Lemma cr3_ok_step k k' pd : as_step k k' pd → cr3_ok k → cr3_ok k'.
Proof. intros Hs (a & ? & ?). exists a. by rewrite (st_cr3 _ _ _ Hs). Qed.

(** *** Unmapping one page *)
Section Steps.
Context (init_page_dir init_ram_pages : Z).

Definition unmap_one (k : kstate) (pd vp : Z) : res kstate :=
  kernel_page ← pagedir_get_page k pd (4096 * vp);
  if negb (kernel_page =? NULL) then
    k ← pagedir_clear_page init_page_dir k pd (4096 * vp);
    s ← palloc_free_page (ks k) kernel_page;
    Ret (with_ks k s)
  else Ret k.

(** Freeing a page that is no part of the address space. *)
Lemma free_foreign k pd q :
  as_wf (ks k) pd → foreign k pd q →
  ∃ s, palloc_free_page (ks k) q = Ret s
    ∧ as_wf s pd ∧ same_geom (ks k) s
    ∧ (∀ vp, user_page vp → mapping (pmem s) pd vp = mapping (kmem k) pd vp)
    ∧ (∀ p, is_table (pmem s) pd p ↔ is_table (kmem k) pd p)
    ∧ (∀ p, allocated s p = if decide (p = q) then false else allocated (ks k) p)
    ∧ (∀ p, allocated (ks k) p = true → p ≠ q → same_bytes (kmem k) (pmem s) p (p + 4096)).
Proof.
  intros Hw [Ha Hnu].
  destruct (palloc_free_page_spec (ks k) q (aw_palloc _ _ Hw) Ha) as (s & E & Hp & Hg & Hal & Hm).
  exists s. split; [done|].
  assert (∀ p, allocated (ks k) p = true → p ≠ q →
    same_bytes (kmem k) (pmem s) p (p + 4096)) as Hb.
  { intros p Hpa Hne x Hx. apply Hm.
    destruct (allocated_kpage _ _ (aw_palloc _ _ Hw) Hpa) as [Hpm _].
    destruct (allocated_kpage _ _ (aw_palloc _ _ Hw) Ha) as [Hqm _].
    destruct (pages_apart _ _ Hpm Hqm Hne); lia. }
  assert (∀ p, is_table (kmem k) pd p → p ≠ q) as Htq.
  { intros p Hp' ->. apply Hnu. by left. }
  assert (∀ p, is_table (kmem k) pd p → same_bytes (kmem k) (pmem s) p (p + 4096)) as Htb.
  { intros p Hp'. apply Hb; [by eapply table_alloc|auto]. }
  assert (∀ i, 0 ≤ i < 768 → pde_at (pmem s) pd i = pde_at (pmem (ks k)) pd i) as Hpde.
  { intros i Hi. apply (pde_at_same (ks k)); [done| |done]. apply Htb. by left. }
  assert (∀ vp, user_page vp → mapping (pmem s) pd vp = mapping (kmem k) pd vp) as Hmap.
  { intros vp Hv. by apply (mapping_same (ks k)). }
  split_and!; try done; [|intros p; by apply is_table_same].
  apply (as_wf_keep (ks k)); try done.
  - intros p Hp'. rewrite Hal, decide_False by auto. by eapply table_alloc.
  - intros vp e Hv. rewrite Hmap by done. intros He. exists e. split_and!; try done.
    rewrite Hal, decide_False; [by apply (aw_frame _ _ Hw vp e)|].
    intros Eq. apply Hnu. right. by exists vp, e.
Qed.

Lemma frame_ok k pd vp e :
  as_wf (ks k) pd → user_page vp → mapping (kmem k) pd vp = Some e →
  allocated (ks k) (page_of e) = true ∧ kpage_ok (page_of e).
Proof.
  intros Hw Hv He. destruct (aw_frame _ _ Hw vp e Hv He) as [Ha _].
  split; [done|]. eapply allocated_kpage; [apply Hw|done].
Qed.

(** A cleared page's frame is no longer part of the address space. *)
Lemma cleared_foreign k k1 pd vp e :
  as_wf (ks k) pd → user_page vp → mapping (kmem k) pd vp = Some e →
  remapped k k1 pd (λ vp', if decide (vp' = vp) then None else mapping (kmem k) pd vp') →
  ∀ q, foreign k1 pd q → q = page_of e ∨ foreign k pd q.
Proof.
  intros Hw Hv He Hr q [Ha Hnu]. destruct (decide (q = page_of e)) as [|Hne]; [by left|right].
  split.
  - destruct (rm_new _ _ _ _ Hr q Ha) as [?|Ht]; [done|]. exfalso. apply Hnu. by left.
  - intros [Ht|(vp' & e' & Hv' & He' & ->)].
    + apply Hnu. left. by apply (rm_keep _ _ _ _ Hr).
    + apply Hnu. right. exists vp', e'. split_and!; try done.
      change (pmem (ks k1)) with (kmem k1). rewrite (rm_map _ _ _ _ Hr) by done.
      case_decide; [|done]. subst vp'. unfold kmem in *. congruence.
Qed.

Lemma foreign_cleared k k1 pd vp :
  as_wf (ks k) pd → user_page vp →
  remapped k k1 pd (λ vp', if decide (vp' = vp) then None else mapping (kmem k) pd vp') →
  ∀ q, foreign k pd q ∨ (∃ e, mapping (kmem k) pd vp = Some e ∧ q = page_of e) →
  foreign k1 pd q.
Proof.
  intros Hw Hv Hr q Hq.
  assert (allocated (ks k) q = true ∧ ¬ is_table (kmem k) pd q
          ∧ ∀ vp' e', user_page vp' → vp' ≠ vp → mapping (kmem k) pd vp' = Some e' →
              q ≠ page_of e') as (Ha & Hnt & Hnm).
  { destruct Hq as [[Ha Hnu]|(e & He & ->)].
    - split_and!; [done|intros ?; apply Hnu; by left|]. intros vp' e' Hv' _ He' ->.
      apply Hnu. right. by exists vp', e'.
    - destruct (aw_frame _ _ Hw vp e Hv He). split_and!; try done.
      intros vp' e' Hv' Hne He' Eq. apply Hne. symmetry.
      by eapply (aw_frame_inj _ _ Hw vp vp' e e'). }
  split; [by apply (rm_alloc _ _ _ _ Hr)|]. intros [Ht|(vp' & e' & Hv' & He' & Eq)].
  - destruct (rm_table _ _ _ _ Hr q Ht); [done|]. congruence.
  - change (pmem (ks k1)) with (kmem k1) in He'. rewrite (rm_map _ _ _ _ Hr) in He' by done.
    case_decide; [done|]. by apply (Hnm vp' e').
Qed.

Lemma unmap_one_spec k pd vp :
  as_wf (ks k) pd → cr3_ok k → user_page vp →
  ∃ k', unmap_one k pd vp = Ret k' ∧ as_step k k' pd
    ∧ ∀ vp', user_page vp' →
        mapping (kmem k') pd vp' = if decide (vp' = vp) then None else mapping (kmem k) pd vp'.
Proof.
  intros Hw Hc Hv. destruct (user_page_va _ Hv) as [Hva Eva].
  unfold unmap_one. rewrite pagedir_get_page_spec, bind_Ret by done. rewrite Eva.
  destruct (mapping (kmem k) pd vp) as [e|] eqn:He.
  2:{ exists k. split; [done|]. split; [by apply as_step_refl|].
      intros vp' _. case_decide; by subst. }
  destruct (frame_ok _ _ _ _ Hw Hv He) as [Ha [Hq Hb]].
  rewrite Z.mul_comm, Z.mod_mul, Z.add_0_r by lia. rewrite Z.mul_comm.
  destruct (Z.eqb_spec (page_of e) NULL); [unfold NULL, PHYS_BASE in *; lia|]. cbn [negb].
  destruct (pagedir_clear_page_spec init_page_dir k pd vp Hw Hc Hv)
    as (k1 & -> & Hr & Hal1 & Htlb1).
  rewrite bind_Ret. set (q := page_of e) in *.
  assert (foreign k1 pd q) as Hfq by (eapply foreign_cleared; eauto).
  pose proof (rm_wf _ _ _ _ Hr) as Hw1.
  destruct (free_foreign k1 pd q Hw1 Hfq) as (s & -> & Hws & Hg & Hms & Hts & Hals & Hbs).
  rewrite bind_Ret. exists (with_ks k1 s). split; [done|].
  assert (∀ vp', user_page vp' → mapping (kmem (with_ks k1 s)) pd vp'
    = if decide (vp' = vp) then None else mapping (kmem k) pd vp') as Hmap.
  { intros vp' Hv'. change (kmem (with_ks k1 s)) with (pmem s).
    by rewrite Hms, (rm_map _ _ _ _ Hr) by done. }
  split; [|done].
  assert (∀ p, in_use s pd p ↔ in_use (ks k1) pd p) as Hiu.
  { intros p. unfold in_use. rewrite Hts. apply or_iff_compat_l.
    split; intros (vp' & e' & Hv' & He' & Ep); exists vp', e'; split_and!; try done.
    - by rewrite Hms in He'.
    - by rewrite Hms. }
  assert (∀ p, foreign (with_ks k1 s) pd p ↔ foreign k pd p) as Hfor.
  { intros p. unfold foreign at 1. cbn [with_ks ks]. rewrite Hals, Hiu. split.
    - intros [Hp Hnu]. case_decide; [done|].
      destruct (cleared_foreign _ _ _ _ _ Hw Hv He Hr p); [by split|done|done].
    - intros Hp. destruct (foreign_cleared _ _ _ _ Hw Hv Hr p (or_introl Hp)) as [Hpa ?].
      split; [|done]. rewrite decide_False; [done|]. intros ->. destruct Hp as [_ Hnu].
      apply Hnu. right. by exists vp, e. }
  assert (∀ p, allocated (ks k) p = true → ¬ is_table (kmem k) pd p → p ≠ q →
    same_bytes (kmem k) (pmem s) p (p + 4096)) as Hbytes.
  { intros p Hp Hnt Hne x Hx. rewrite (Hbs p); [by apply (rm_data _ _ _ _ Hr p)| |done|done].
    by apply (rm_alloc _ _ _ _ Hr). }
  split; try done.
  - intros p [Hp Hnu]. apply Hbytes; [done|intros ?; apply Hnu; by left|].
    intros ->. apply Hnu. right. by exists vp, e.
  - intros vp' e' Hv' He'. rewrite Hmap by done. case_decide; [done|]. intros _.
    destruct (aw_frame _ _ Hw vp' e' Hv' He') as [? ?]. apply Hbytes; [done..|].
    intros Eq. by apply (aw_frame_inj _ _ Hw vp' vp e' e) in Eq.
  - intros p Hp. apply Hts. by apply (rm_keep _ _ _ _ Hr).
  - eapply same_geom_trans; [apply (rm_geom _ _ _ _ Hr)|done].
  - apply (rm_cr3 _ _ _ _ Hr).
  - intros Ht Hc' vp' p Hv' Hl. destruct (Htlb1 Ht Hc' vp' p Hv' Hl) as (e' & He' & Ep).
    exists e'. split; [|done]. change (kmem (with_ks k1 s)) with (pmem s). by rewrite Hms.
Qed.

(** *** Allocating a page *)
Section Got.
Context (k : kstate) (s : pstate) (pd q : Z) (u z : bool).
Context (Hw : as_wf (ks k) pd) (Hg : got_pages (ks k) s u z q 1).

Lemma got_alloc p : allocated s p = if decide (p = q) then true else allocated (ks k) p.
Proof using Hg.
  rewrite (gp_alloc _ _ _ _ _ _ Hg), in_group_one by apply Hg.
  by case_bool_decide; case_decide.
Qed.

Lemma got_fresh : allocated (ks k) q = false.
Proof using Hg.
  apply (gp_fresh _ _ _ _ _ _ Hg). rewrite in_group_one by apply Hg. by apply bool_decide_true.
Qed.

Lemma got_bytes p : allocated (ks k) p = true → same_bytes (kmem k) (pmem s) p (p + 4096).
Proof using Hw Hg.
  intros Ha x Hx. apply (gp_mem _ _ _ _ _ _ Hg).
  destruct (allocated_kpage _ _ (aw_palloc _ _ Hw) Ha) as [Hp _].
  destruct (pages_apart _ _ Hp (gp_align _ _ _ _ _ _ Hg)); [|lia..].
  intros ->. by rewrite got_fresh in Ha.
Qed.

Lemma got_map vp : user_page vp → mapping (pmem s) pd vp = mapping (kmem k) pd vp.
Proof using Hw Hg.
  intros Hv. apply (mapping_same (ks k)); [done| |done].
  intros p Hp. by apply got_bytes, (table_alloc _ pd).
Qed.

Lemma got_table p : is_table (pmem s) pd p ↔ is_table (kmem k) pd p.
Proof using Hw Hg.
  apply is_table_same. intros i Hi. apply (pde_at_same (ks k)); [done| |done].
  apply got_bytes, Hw.
Qed.

Lemma got_wf : as_wf s pd.
Proof using Hw Hg.
  apply (as_wf_keep (ks k)); [done|apply Hg|..].
  - intros i Hi. apply (pde_at_same (ks k)); [done| |done]. apply got_bytes, Hw.
  - intros p Hp. rewrite got_alloc. case_decide; [done|]. by eapply table_alloc.
  - intros vp e Hv. rewrite got_map by done. intros He. exists e. split_and!; try done.
    rewrite got_alloc. case_decide; [done|]. by apply (aw_frame _ _ Hw vp e).
Qed.

Lemma got_in_use p : in_use s pd p ↔ in_use (ks k) pd p.
Proof using Hw Hg.
  unfold in_use. rewrite got_table. apply or_iff_compat_l.
  split; intros (vp & e & Hv & He & Ep); exists vp, e; split_and!; try done.
  - by rewrite got_map in He.
  - by rewrite got_map.
Qed.

Lemma got_foreign p : foreign (with_ks k s) pd p ↔ foreign k pd p ∨ p = q.
Proof using Hw Hg.
  unfold foreign. cbn [with_ks ks]. rewrite got_in_use, got_alloc.
  case_decide as E; [|naive_solver]. split; [by right|]. intros _. split; [done|].
  intros Hu. apply in_use_alloc in Hu; [|done]. rewrite E, got_fresh in Hu. done.
Qed.

Lemma got_unused : unused_frame s pd q.
Proof using Hw Hg.
  destruct (proj2 (got_foreign q) (or_intror eq_refl)) as [Ha Hnu].
  split_and!; [done|intros ?; apply Hnu; by left|].
  intros vp e Hv He Eq. apply Hnu. right. by exists vp, e.
Qed.
End Got.

(** Mapping a page just allocated. *)
Section MapGot.
Context (k : kstate) (s : pstate) (pd vp q : Z) (w : bool) (k' : kstate) (u z : bool).
Context (Hw : as_wf (ks k) pd) (Hg : got_pages (ks k) s u z q 1) (Hv : user_page vp).
Context (Hnone : mapping (kmem k) pd vp = None).
Context (Hr : remapped (with_ks k s) k' pd
  (λ vp', if decide (vp' = vp) then Some (user_pte q w) else mapping (pmem s) pd vp')).

Lemma map_got_page : page_of (user_pte q w) = q.
Proof using Hw Hg.
  apply user_pte_page. eapply allocated_kpage; [apply (got_wf k s pd q u z Hw Hg)|].
  by apply (got_unused k s pd q u z).
Qed.

Lemma map_got_map vp' :
  user_page vp' →
  mapping (kmem k') pd vp'
  = if decide (vp' = vp) then Some (user_pte q w) else mapping (kmem k) pd vp'.
Proof using Hw Hg Hr.
  intros Hv'. rewrite (rm_map _ _ _ _ Hr) by done. case_decide; [done|].
  by apply (got_map k s pd q u z).
Qed.

Lemma map_got_bytes p :
  allocated (ks k) p = true → ¬ is_table (kmem k) pd p →
  same_bytes (kmem k) (kmem k') p (p + 4096).
Proof using Hw Hg Hr.
  intros Hp Hnt x Hx. rewrite (rm_data _ _ _ _ Hr p); [| | |done].
  - by apply (got_bytes k s pd q u z Hw Hg p).
  - cbn [with_ks ks]. rewrite (got_alloc k s q u z Hg). by case_decide.
  - change (kmem (with_ks k s)) with (pmem s). by rewrite (got_table k s pd q u z).
Qed.

Lemma map_got_new p : foreign k' pd p → foreign k pd p.
Proof using All.
  intros [Ha Hnu]. destruct (proj1 (got_foreign k s pd q u z Hw Hg p)) as [?|Ep]; [|done|].
  - split.
    + destruct (rm_new _ _ _ _ Hr p Ha) as [?|Ht]; [done|]. destruct Hnu. by left.
    + rewrite (got_in_use k s pd q u z) by done.
      intros [Ht|(vp' & e & Hv' & He & Ep)]; apply Hnu.
      * left. apply (rm_keep _ _ _ _ Hr). by apply (got_table k s pd q u z).
      * right. exists vp', e. split_and!; try done. change (pmem (ks k')) with (kmem k').
        rewrite map_got_map by done. case_decide; [|done]. unfold kmem in *. congruence.
  - exfalso. apply Hnu. right. exists vp, (user_pte q w). rewrite map_got_page.
    split_and!; try done. change (pmem (ks k')) with (kmem k').
    by rewrite map_got_map, decide_True.
Qed.

Lemma map_got_old p : foreign k pd p → foreign k' pd p.
Proof using All.
  intros [Ha Hnu]. split.
  - apply (rm_alloc _ _ _ _ Hr). cbn. rewrite (got_alloc k s q u z Hg). by case_decide.
  - intros [Ht|(vp' & e & Hv' & He & Ep)].
    + destruct (rm_table _ _ _ _ Hr p Ht) as [Ht'|Hf].
      * apply Hnu. left. by apply (got_table k s pd q u z) in Ht'.
      * cbn in Hf. rewrite (got_alloc k s q u z Hg) in Hf. case_decide; congruence.
    + change (pmem (ks k')) with (kmem k') in He. rewrite map_got_map in He by done.
      case_decide.
      * injection He as <-. rewrite Ep, map_got_page, (got_fresh k s q u z Hg) in Ha. done.
      * apply Hnu. right. by exists vp', e.
Qed.

Lemma map_got_step : tlb k' = tlb k → as_step k k' pd.
Proof using All.
  intros Htlb. split; [exact (rm_wf _ _ _ _ Hr)|..].
  - intros p. split; [apply map_got_new|apply map_got_old].
  - intros p [Ha Hnu]. apply map_got_bytes; [done|]. intros ?. apply Hnu. by left.
  - intros vp' e Hv' He _. destruct (aw_frame _ _ Hw vp' e Hv' He). by apply map_got_bytes.
  - intros p Hp. apply (rm_keep _ _ _ _ Hr). by apply (got_table k s pd q u z).
  - eapply same_geom_trans; [apply (gp_geom _ _ _ _ _ _ Hg)|apply (rm_geom _ _ _ _ Hr)].
  - exact (rm_cr3 _ _ _ _ Hr).
  - intros Ht Hc' vp' p Hv' Hl. rewrite Htlb in Hl. rewrite (rm_cr3 _ _ _ _ Hr) in Hc'.
    destruct (Ht Hc' vp' p Hv' Hl) as (e & He & Ep). exists e. split; [|done].
    rewrite map_got_map by done. case_decide; [congruence|done].
Qed.
End MapGot.

(** A page allocated, held while the address space changes, and freed again. *)
Lemma borrow_step k s pd q u z k2 :
  as_wf (ks k) pd → got_pages (ks k) s u z q 1 → as_step (with_ks k s) k2 pd →
  ∃ s3, palloc_free_page (ks k2) q = Ret s3 ∧ as_step k (with_ks k2 s3) pd
    ∧ ∀ vp, user_page vp → mapping (pmem s3) pd vp = mapping (kmem k2) pd vp.
Proof.
  intros Hw Hg Hst. pose proof (got_foreign k s pd q u z Hw Hg) as Hf1.
  pose proof (got_fresh k s q u z Hg) as Hfr.
  assert (foreign k2 pd q) as Hq2 by (apply (st_foreign _ _ _ Hst), Hf1; by right).
  destruct (free_foreign k2 pd q (st_wf _ _ _ Hst) Hq2)
    as (s3 & E & Hw3 & Hg3 & Hm3 & Ht3 & Ha3 & Hb3).
  exists s3. split; [done|]. split; [|done].
  assert (∀ p, in_use s3 pd p ↔ in_use (ks k2) pd p) as Hiu.
  { intros p. unfold in_use. rewrite Ht3. apply or_iff_compat_l.
    split; intros (vp & e & Hv & He & Ep); exists vp, e; split_and!; try done.
    - by rewrite Hm3 in He.
    - by rewrite Hm3. }
  split; [done|..].
  - intros p. unfold foreign at 1. cbn [with_ks ks]. rewrite Ha3, Hiu. split.
    + case_decide; [by intros []|]. intros Hp.
      assert (foreign k2 pd p) as [?|?]%(st_foreign _ _ _ Hst)%Hf1 by done; [done|congruence].
    + intros Hp. assert (foreign k2 pd p) as [? ?] by (apply (st_foreign _ _ _ Hst), Hf1; by left).
      rewrite decide_False; [done|]. intros ->. destruct Hp. congruence.
  - intros p Hp x Hx. assert (foreign (with_ks k s) pd p) as Hp1 by (apply Hf1; by left).
    assert (foreign k2 pd p) as [Hpa _] by (by apply (st_foreign _ _ _ Hst)).
    destruct Hp as [Hpk Hpn]. change (kmem (with_ks k2 s3)) with (pmem s3).
    rewrite (Hb3 p), (st_fdata _ _ _ Hst p) by (done || congruence).
    by apply (got_bytes k s pd q u z Hw Hg p).
  - intros vp e Hv He. change (kmem (with_ks k2 s3)) with (pmem s3). rewrite Hm3 by done.
    intros He2 x Hx. destruct (aw_frame _ _ Hw vp e Hv He) as [Hea _].
    rewrite (Hb3 (page_of e)).
    + rewrite (st_data _ _ _ Hst vp e); [by apply (got_bytes k s pd q u z Hw Hg (page_of e))| | | |];
        try done. change (kmem (with_ks k s)) with (pmem s). by rewrite (got_map k s pd q u z).
    + by apply (aw_frame _ _ (st_wf _ _ _ Hst) vp e).
    + congruence.
    + done.
  - intros p Hp. apply Ht3, (st_table _ _ _ Hst). by apply (got_table k s pd q u z).
  - eapply same_geom_trans; [apply (gp_geom _ _ _ _ _ _ Hg)|].
    eapply same_geom_trans; [apply (st_geom _ _ _ Hst)|done].
  - apply (st_cr3 _ _ _ Hst).
  - intros Ht Hc vp p Hv Hl.
    assert (tlb_ok (with_ks k s) pd) as Ht1.
    { intros Hc1 vp' p' Hv' Hl'. destruct (Ht Hc1 vp' p' Hv' Hl') as (e & ? & ?).
      exists e. by rewrite (got_map k s pd q u z). }
    destruct (st_tlb _ _ _ Hst Ht1 Hc vp p Hv Hl) as (e & He & Ep). exists e.
    change (kmem (with_ks k2 s3)) with (pmem s3). by rewrite Hm3.
Qed.

(** ** The loops *)
Lemma range_index a i : 0 ≤ a → 0 ≤ i → a + i ≤ 786432 →
  u32 (4096 * a + PGSIZE * i) = 4096 * (a + i).
Proof. intros. change PGSIZE with 4096. rewrite u32_id by (unfold is_u32; lia). lia. Qed.

Lemma unmap_loop_spec pd a n : ∀ k i fuel,
  as_wf (ks k) pd → cr3_ok k → 0 ≤ a → 0 ≤ i → a + i + Z.of_nat n ≤ 786432 → (n < fuel)%nat →
  ∃ k', unmap_loop init_page_dir fuel k pd (4096 * a) (4096 * (a + i + Z.of_nat n - 1)) i = Ret k'
    ∧ as_step k k' pd
    ∧ ∀ vp, user_page vp → mapping (kmem k') pd vp
        = if decide (a + i ≤ vp < a + i + Z.of_nat n) then None else mapping (kmem k) pd vp.
Proof.
  induction n as [|n IH]; intros k i fuel Hw Hc Ha Hi Hn Hf;
    (destruct fuel as [|fuel]; [lia|]); cbn [unmap_loop]; rewrite range_index by lia.
  - destruct (Z.leb_spec (4096 * (a + i)) (4096 * (a + i + Z.of_nat 0 - 1))); [lia|].
    exists k. split; [done|]. split; [by apply as_step_refl|]. intros vp _.
    rewrite decide_False by lia. done.
  - destruct (Z.leb_spec (4096 * (a + i)) (4096 * (a + i + Z.of_nat (S n) - 1))); [|lia].
    assert (user_page (a + i)) as Hv by (unfold user_page; lia).
    destruct (unmap_one_spec k pd (a + i) Hw Hc Hv) as (k1 & E1 & Hst1 & Hm1).
    unfold unmap_one in E1. apply bind_Ret_inv in E1 as (kp & Ekp & E1).
    rewrite Ekp, bind_Ret, E1, bind_Ret.
    destruct (IH k1 (i + 1) fuel (st_wf _ _ _ Hst1) (cr3_ok_step _ _ _ Hst1 Hc))
      as (k2 & E2 & Hst2 & Hm2); [lia..|].
    replace (a + (i + 1) + Z.of_nat n - 1) with (a + i + Z.of_nat (S n) - 1) in E2 by lia.
    exists k2. split; [done|].
    assert (∀ vp, user_page vp → mapping (kmem k2) pd vp
      = if decide (a + i ≤ vp < a + i + Z.of_nat (S n)) then None else mapping (kmem k) pd vp) as Hm.
    { intros vp Hvp. rewrite Hm2, Hm1 by done. repeat case_decide; try done; lia. }
    split; [|done]. eapply as_step_trans; [done..|]. intros vp e Hvp He.
    rewrite Hm, Hm1 by done. repeat case_decide; try done; lia.
Qed.

Lemma land_pgmask a : Z.land (4096 * a) PGMASK = 0.
Proof. change (pg_ofs (4096 * a) = 0). rewrite pg_ofs_mod, Z.mul_comm. by apply Z.mod_mul. Qed.

Lemma range_fuel_enough a b : a ≤ b → (Z.to_nat (b - a) < range_fuel (4096 * a) (4096 * (b - 1)))%nat.
Proof.
  intros. unfold range_fuel. replace (4096 * (b - 1) - 4096 * a) with ((b - 1 - a) * 4096) by lia.
  rewrite Z.div_mul by lia. lia.
Qed.

Lemma unmap_user_pages_spec k pd a b :
  as_wf (ks k) pd → cr3_ok k → 0 ≤ a < b → b ≤ 786432 →
  ∃ k', unmap_user_pages init_page_dir k pd (4096 * a) (4096 * (b - 1)) = Ret k'
    ∧ as_step k k' pd
    ∧ ∀ vp, user_page vp → mapping (kmem k') pd vp
        = if decide (a ≤ vp < b) then None else mapping (kmem k) pd vp.
Proof.
  intros Hw Hc Hab Hb. unfold unmap_user_pages. rewrite !land_pgmask.
  rewrite !ASSERT_true by lia.
  pose proof (range_fuel_enough a b ltac:(lia)) as Hf.
  destruct (unmap_loop_spec pd a (Z.to_nat (b - a)) k 0
    (range_fuel (4096 * a) (4096 * (b - 1))) Hw Hc) as (k' & E & Hst & Hm);
    [lia..|exact Hf|].
  rewrite Z2Nat.id in * by lia. replace (a + 0 + (b - a)) with b in * by lia.
  rewrite Z.add_0_r in *. eauto.
Qed.

(** The pools lie within the machine's memory. *)
Definition ram_ok (s : pstate) : Prop :=
  ∀ u, pool_end (get_pool s u) ≤ PHYS_BASE + 4096 * init_ram_pages.

Lemma ram_ok_geom s s' : same_geom s s' → ram_ok s → ram_ok s'.
Proof. intros Hg Hr u. specialize (Hr u). destruct (Hg u) as [E1 E2]. unfold pool_end in *. congruence. Qed.

Lemma got_ram s s' u z q : ram_ok s → got_pages s s' u z q 1 → (q - PHYS_BASE) / 4096 < init_ram_pages.
Proof.
  intros Hr Hg. pose proof (gp_high _ _ _ _ _ _ Hg) as Hh. specialize (Hr u).
  apply Z.div_lt_upper_bound; lia.
Qed.

(** A page of a growing heap: present, writable, and full of zeros. *)
Definition fresh_page (k : kstate) (pd vp : Z) : Prop :=
  ∃ q, kpage_ok q ∧ mapping (kmem k) pd vp = Some (user_pte q true)
    ∧ ∀ x, q ≤ x < q + 4096 → load8 (kmem k) x = 0.

Lemma fresh_page_step k k' pd vp :
  as_step k k' pd → user_page vp → mapping (kmem k') pd vp = mapping (kmem k) pd vp →
  fresh_page k pd vp → fresh_page k' pd vp.
Proof.
  intros Hst Hv E (q & Hq & Hm & Hz). exists q. rewrite E. split_and!; [done..|]. intros x Hx.
  destruct (user_pte_page q true Hq) as (_ & Ep & _).
  rewrite (st_data _ _ _ Hst vp (user_pte q true)); rewrite ?E, ?Ep; auto.
Qed.

(** The state in which the allocator ran out of pages. *)
Definition exhausted (k kf : kstate) (pd : Z) : Prop :=
  as_step k kf pd
  ∧ (pool_full (ks kf) true 1
     ∨ ∃ s q, got_pages (ks kf) s true true q 1 ∧ pool_full s false 1).

Definition map_failed (k k' : kstate) (pd a b : Z) : Prop :=
  as_step k k' pd ∧ (∃ kf, exhausted k kf pd)
  ∧ ∀ vp, user_page vp → mapping (kmem k') pd vp
      = if decide (a ≤ vp < b) then None else mapping (kmem k) pd vp.

Definition map_done (k k' : kstate) (pd a b : Z) : Prop :=
  as_step k k' pd ∧ (∀ vp, a ≤ vp < b → fresh_page k' pd vp)
  ∧ ∀ vp, user_page vp → ¬ (a ≤ vp < b) → mapping (kmem k') pd vp = mapping (kmem k) pd vp.

Definition map_one (k : kstate) (pd start_page end_page vp : Z) : res (bool * kstate) :=
  '(kernel_page, s) ← palloc_get_page (ks k) (Z.lor PAL_USER PAL_ZERO);
  let k := with_ks k s in
  if kernel_page =? NULL then
    k ← unmap_user_pages init_page_dir k pd start_page end_page;
    Ret (false, k)
  else
    '(ok, k) ← pagedir_set_page init_page_dir init_ram_pages k pd (4096 * vp) kernel_page true;
    if negb ok then
      k ← unmap_user_pages init_page_dir k pd start_page end_page;
      s ← palloc_free_page (ks k) kernel_page;
      Ret (false, with_ks k s)
    else Ret (true, k).

Lemma map_one_spec k pd a b vp :
  as_wf (ks k) pd → cr3_ok k → ram_ok (ks k) → pd ≠ init_page_dir →
  0 ≤ a < b → b ≤ 786432 → a ≤ vp < b → mapping (kmem k) pd vp = None →
  (∃ k', map_one k pd (4096 * a) (4096 * (b - 1)) vp = Ret (true, k') ∧ map_done k k' pd vp (vp + 1))
  ∨ (∃ k', map_one k pd (4096 * a) (4096 * (b - 1)) vp = Ret (false, k') ∧ map_failed k k' pd a b).
Proof.
  intros Hw Hc Hram Hpd Hab Hb Hvp Hnone.
  assert (user_page vp) as Hv by (unfold user_page; lia). unfold map_one, palloc_get_page.
  destruct (palloc_get_multiple_spec (ks k) (Z.lor PAL_USER PAL_ZERO) 1 (aw_palloc _ _ Hw))
    as [(q & s & -> & Hq & Hg)|(Hfull & ->)]; [lia|..].
  2:{ change (flag (Z.lor PAL_USER PAL_ZERO) PAL_ASSERT) with false. cbn iota.
      rewrite bind_Ret. right. rewrite Z.eqb_refl. replace (with_ks k (ks k)) with k by (by destruct k).
      destruct (unmap_user_pages_spec k pd a b Hw Hc Hab Hb) as (k' & -> & Hst & Hm).
      eexists. split; [reflexivity|]. split_and!; try done. exists k. split; [by apply as_step_refl|].
      by left. }
  rewrite bind_Ret. cbn beta iota.
  change (flag _ PAL_USER) with true in Hg. change (flag _ PAL_ZERO) with true in Hg.
  destruct (Z.eqb_spec q NULL); [done|].
  pose proof (got_wf k s pd q true true Hw Hg) as Hw1.
  pose proof (got_unused k s pd q true true Hw Hg) as Hu.
  destruct (pagedir_set_page_spec init_page_dir init_ram_pages (with_ks k s) pd vp q true Hw1 Hv)
    as [(k' & -> & Htlb & Hr)|(-> & Hfull)]; try done.
  { change (kmem (with_ks k s)) with (pmem s). by rewrite (got_map k s pd q true true). }
  { split; [done|]. by eapply got_ram. }
  - left. exists k'. split; [done|].
    pose proof (map_got_map k s pd vp q true k' true true Hw Hg Hr) as Hm.
    split_and!; [by eapply map_got_step|..].
    + intros vp' Hvp'. replace vp' with vp by lia. exists q.
      rewrite Hm, decide_True by done. destruct Hu as (Hqa & Hqt & _).
      split_and!; [by eapply allocated_kpage; [apply Hw1|]|done|]. intros x Hx. rewrite (rm_data _ _ _ _ Hr q) by done.
      by apply (gp_zero _ _ _ _ _ _ Hg).
    + intros vp' Hv' Hne. rewrite Hm, decide_False by (done || lia). done.
  - right. rewrite bind_Ret. cbn [negb].
    destruct (unmap_user_pages_spec (with_ks k s) pd a b Hw1 Hc Hab Hb) as (k2 & -> & Hst & Hm).
    rewrite bind_Ret. destruct (borrow_step k s pd q true true k2 Hw Hg Hst) as (s3 & -> & Hst3 & Hm3).
    rewrite bind_Ret. eexists. split; [reflexivity|]. split_and!; [done|..].
    + exists k. split; [by apply as_step_refl|]. right. by exists s, q.
    + intros vp' Hv'. change (kmem (with_ks k2 s3)) with (pmem s3). rewrite Hm3, Hm by done.
      by rewrite <- (got_map k s pd q true true Hw Hg).
Qed.

Lemma map_loop_unfold fuel k pd a b i :
  0 ≤ a → 0 ≤ i → a + i < b → b ≤ 786432 →
  map_loop init_page_dir init_ram_pages (S fuel) k pd (4096 * a) (4096 * (b - 1)) i
  = '(ok, k) ← map_one k pd (4096 * a) (4096 * (b - 1)) (a + i);
    if negb ok then Ret (false, k)
    else map_loop init_page_dir init_ram_pages fuel k pd (4096 * a) (4096 * (b - 1)) (i + 1).
Proof.
  intros. cbn [map_loop]. rewrite range_index by lia.
  destruct (Z.leb_spec (4096 * (a + i)) (4096 * (b - 1))); [|lia].
  unfold map_one. destruct (palloc_get_page _ _) as [[q s]| |]; [|done..]. cbn.
  destruct (q =? NULL).
  { by destruct (unmap_user_pages _ _ _ _ _). }
  destruct (pagedir_set_page _ _ _ _ _ _ _) as [[ok k1]| |]; [|done..]. cbn.
  destruct ok; [done|]. cbn. destruct (unmap_user_pages _ _ _ _ _) as [k2| |]; [|done..]. cbn.
  by destruct (palloc_free_page _ _).
Qed.

Lemma exhausted_step k k1 kf pd :
  as_step k k1 pd → exhausted k1 kf pd →
  (∀ vp e, user_page vp → mapping (kmem k) pd vp = Some e → mapping (kmem k1) pd vp = Some e) →
  exhausted k kf pd.
Proof. intros Hs [Hf ?] Hk. split; [|done]. eapply as_step_trans; eauto. Qed.

Lemma map_loop_spec pd a n : ∀ k i fuel,
  as_wf (ks k) pd → cr3_ok k → ram_ok (ks k) → pd ≠ init_page_dir →
  0 ≤ a → 0 ≤ i → a + i + Z.of_nat n ≤ 786432 → 0 < i + Z.of_nat n → (n < fuel)%nat →
  let b := a + i + Z.of_nat n in
  (∀ vp, a + i ≤ vp < b → mapping (kmem k) pd vp = None) →
  (∃ k', map_loop init_page_dir init_ram_pages fuel k pd (4096 * a) (4096 * (b - 1)) i = Ret (true, k')
     ∧ map_done k k' pd (a + i) b)
  ∨ (∃ k', map_loop init_page_dir init_ram_pages fuel k pd (4096 * a) (4096 * (b - 1)) i = Ret (false, k')
     ∧ map_failed k k' pd a b).
Proof.
  induction n as [|n IH]; intros k i fuel Hw Hc Hram Hpd Ha Hi Hn Hpos Hf b Hnone;
    (destruct fuel as [|fuel]; [lia|]).
  { left. exists k. cbn [map_loop]. rewrite range_index by lia.
    destruct (Z.leb_spec (4096 * (a + i)) (4096 * (b - 1))); [unfold b in *; lia|].
    split; [done|]. split_and!; [by apply as_step_refl|unfold b; lia|done]. }
  rewrite map_loop_unfold by (unfold b; lia).
  destruct (map_one_spec k pd a b (a + i) Hw Hc Hram Hpd) as [(k1 & -> & Hd1)|(k1 & -> & Hf1)];
    [unfold b; lia..|apply Hnone; unfold b; lia| |].
  2:{ right. exists k1. by rewrite bind_Ret. }
  rewrite bind_Ret. cbn beta iota. cbn [negb].
  destruct Hd1 as (Hst1 & Hfr1 & Hm1).
  assert (∀ vp, user_page vp → mapping (kmem k) pd vp ≠ None →
            mapping (kmem k1) pd vp = mapping (kmem k) pd vp) as Hkeep.
  { intros vp Hv Hs. apply Hm1; [done|]. intros Hvp. apply Hs, Hnone. unfold b. lia. }
  assert (∀ vp e, user_page vp → mapping (kmem k) pd vp = Some e →
            mapping (kmem k1) pd vp = Some e) as Hkeep'.
  { intros vp e Hv He. rewrite Hkeep; [done|done|by rewrite He]. }
  assert (b = a + (i + 1) + Z.of_nat n) as Eb by (unfold b; lia).
  destruct (IH k1 (i + 1) fuel (st_wf _ _ _ Hst1) (cr3_ok_step _ _ _ Hst1 Hc)
    (ram_ok_geom _ _ (st_geom _ _ _ Hst1) Hram)) as [(k2 & E & Hd)|(k2 & E & Hd)];
    try done; try lia.
  { intros vp Hvp. rewrite Hm1; [apply Hnone; lia|unfold user_page; lia|lia]. }
  - rewrite <- Eb in *. left. exists k2. split; [done|]. destruct Hd as (Hst2 & Hfr2 & Hm2).
    split_and!.
    + eapply as_step_trans; eauto.
    + intros vp Hvp. destruct (decide (vp = a + i)) as [->|]; [|apply Hfr2; lia].
      assert (user_page (a + i)) by (unfold user_page; lia).
      eapply fresh_page_step; [done|done|apply Hm2; [done|lia]|apply Hfr1; lia].
    + intros vp Hv Hvp. rewrite Hm2, Hm1 by (done || lia). done.
  - rewrite <- Eb in *. right. exists k2. split; [done|]. destruct Hd as (Hst2 & (kf & Hkf) & Hm2).
    split_and!.
    + eapply as_step_trans; eauto.
    + exists kf. by eapply exhausted_step.
    + intros vp Hv. rewrite Hm2 by done. case_decide; [done|]. apply Hm1; [done|lia].
Qed.

Lemma map_user_pages_spec k pd a b :
  as_wf (ks k) pd → cr3_ok k → ram_ok (ks k) → pd ≠ init_page_dir → 0 ≤ a < b → b ≤ 786432 →
  (∀ vp, a ≤ vp < b → mapping (kmem k) pd vp = None) →
  (∃ k', map_user_pages init_page_dir init_ram_pages k pd (4096 * a) (4096 * (b - 1)) = Ret (true, k')
     ∧ map_done k k' pd a b)
  ∨ (∃ k', map_user_pages init_page_dir init_ram_pages k pd (4096 * a) (4096 * (b - 1)) = Ret (false, k')
     ∧ map_failed k k' pd a b).
Proof.
  intros Hw Hc Hram Hpd Hab Hb Hnone. unfold map_user_pages. rewrite !land_pgmask.
  rewrite !ASSERT_true by lia.
  pose proof (range_fuel_enough a b ltac:(lia)) as Hf.
  pose proof (map_loop_spec pd a (Z.to_nat (b - a)) k 0
    (range_fuel (4096 * a) (4096 * (b - 1))) Hw Hc Hram Hpd) as Hs.
  cbv zeta in Hs. rewrite Z2Nat.id in Hs by lia. replace (a + 0 + (b - a)) with b in Hs by lia.
  rewrite Z.add_0_r in Hs. apply Hs; try lia; done.
Qed.
End Steps.
