(* ===== verification/Sbrk.v ===== *)
(** * The heap segment of a process (userprog/syscall.c, [syscall_sbrk])

    The part of [struct thread] the memory system uses, the system call that moves
    the heap break, and the invariant that ties the break to the page tables: the
    pages from [heap_start] up to the break are mapped, those from the break to
    2^31 are not. *)
From S2P Require Import Prelude Mem Bitmap Vaddr Palloc Pagedir UserPages.

(** The members of [struct thread] that system calls use. *)
Record thread := Thread {
  pagedir : Z;
  heap_start : Z;
  heap_break : Z;
  open_file : Z;
  in_syscall : bool;
}.
Definition set_heap_break (t : thread) (b : Z) : thread :=
  Thread (pagedir t) (heap_start t) b (open_file t) (in_syscall t).
Definition set_open_file (t : thread) (f : Z) : thread :=
  Thread (pagedir t) (heap_start t) (heap_break t) f (in_syscall t).
Definition set_in_syscall (t : thread) (b : bool) : thread :=
  Thread (pagedir t) (heap_start t) (heap_break t) (open_file t) b.

(** The kernel as the running thread sees it. *)
Record proc := Proc { pk : kstate; cur : thread }.

Section Sbrk.
Context (init_page_dir init_ram_pages : Z).

Definition syscall_sbrk (p : proc) (increment : Z) : res (Z * proc) :=
  let t := cur p in
  if increment =? 0 then Ret (heap_break t, p) else
  let old_break := heap_break t in
  let new_break := u32 (s32 (heap_break t) + increment) in
  if s32 new_break <? s32 (heap_start t) then Ret (u32 (-1), p) else
  let old_page := Z.land (u32 (old_break - 1)) (u32 (Z.lnot PGMASK)) in
  let new_page := Z.land (u32 (new_break - 1)) (u32 (Z.lnot PGMASK)) in
  let start_page := Z.land (heap_start t) (u32 (Z.lnot PGMASK)) in
  '(ok, k) ←
    (if increment <? 0 then
       if new_break =? heap_start t then
         k ← unmap_user_pages init_page_dir (pk p) (pagedir t) start_page old_page;
         Ret (true, k)
       else if negb (new_page =? old_page) then
         k ← unmap_user_pages init_page_dir (pk p) (pagedir t) (u32 (new_page + PGSIZE)) old_page;
         Ret (true, k)
       else Ret (true, pk p)
     else
       if old_break =? heap_start t then
         map_user_pages init_page_dir init_ram_pages (pk p) (pagedir t) start_page new_page
       else if negb (old_page =? new_page) then
         map_user_pages init_page_dir init_ram_pages (pk p) (pagedir t)
           (u32 (old_page + PGSIZE)) new_page
       else Ret (true, pk p));
  if negb ok then Ret (u32 (-1), Proc k t)
  else Ret (old_break, Proc k (set_heap_break t new_break)).

(** ** Invariant *)

(** The first page that lies wholly at or above address [x]. *)
Definition page_above (x : Z) : Z := (x + 4095) / 4096.

Record proc_inv (p : proc) : Prop := {
  pi_as : as_wf (ks (pk p)) (pagedir (cur p));
  pi_cr3 : cr3_ok (pk p);
  pi_tlb : tlb_ok (pk p) (pagedir (cur p));
  pi_ram : ram_ok init_ram_pages (ks (pk p));
  pi_pd : pagedir (cur p) ≠ init_page_dir;
  pi_start : heap_start (cur p) mod 4096 = 0;
  pi_low : 0 < heap_start (cur p) ≤ heap_break (cur p);
  pi_high : heap_break (cur p) < 2147483648;
  pi_heap : ∀ vp, heap_start (cur p) / 4096 ≤ vp < page_above (heap_break (cur p)) →
    ∃ e, mapping (kmem (pk p)) (pagedir (cur p)) vp = Some e ∧ Z.land e PTE_W ≠ 0;
  pi_gap : ∀ vp, page_above (heap_break (cur p)) ≤ vp < 524288 →
    mapping (kmem (pk p)) (pagedir (cur p)) vp = None;
}.

(** The pages [a] to [b] of the address space are as before. *)
Definition same_mapping (p p' : proc) : Prop :=
  ∀ vp, user_page vp →
    mapping (kmem (pk p')) (pagedir (cur p)) vp = mapping (kmem (pk p)) (pagedir (cur p)) vp.

(** The outcomes of a move of the break to [nb] within the segment's bounds. *)
Definition sbrk_moved (p : proc) (nb r : Z) (p' : proc) : Prop :=
  let t := cur p in let pd := pagedir t in
  as_step (pk p) (pk p') pd
  ∧ ((r = heap_break t ∧ cur p' = set_heap_break t nb
      ∧ ∀ vp, user_page vp →
          if decide (page_above (heap_break t) ≤ vp < page_above nb)
          then fresh_page (pk p') pd vp
          else mapping (kmem (pk p')) pd vp
               = if decide (page_above nb ≤ vp < page_above (heap_break t)) then None
                 else mapping (kmem (pk p)) pd vp)
     ∨ (heap_break t < nb ∧ r = u32 (-1) ∧ cur p' = t ∧ same_mapping p p'
        ∧ ∃ kf, exhausted (pk p) kf pd)).

(** What [sbrk] does, by the target of the move. *)
Definition sbrk_post (p : proc) (inc r : Z) (p' : proc) : Prop :=
  let nb := heap_break (cur p) + inc in
  if decide (inc = 0) then r = heap_break (cur p) ∧ p' = p
  else if decide (nb < heap_start (cur p) ∨ 2147483648 ≤ nb) then r = u32 (-1) ∧ p' = p
  else sbrk_moved p nb r p'.
End Sbrk.

(** ** Address arithmetic of the break *)
Lemma page_above_mul a : page_above (4096 * a) = a.
Proof. unfold page_above. Z.to_euclidean_division_equations. lia. Qed.

Lemma page_above_mono x y : x ≤ y → page_above x ≤ page_above y.
Proof. intros. unfold page_above. Z.to_euclidean_division_equations. lia. Qed.

Lemma page_above_range x : 0 < x < 2147483648 → 0 < page_above x ≤ 524288.
Proof. intros. unfold page_above. Z.to_euclidean_division_equations. lia. Qed.

Lemma page_above_start x y : x mod 4096 = 0 → x < y → x / 4096 < page_above y.
Proof. intros. unfold page_above. Z.to_euclidean_division_equations. lia. Qed.

(** The page of the last byte below address [x]. *)
Lemma break_page x :
  0 < x < 2147483648 →
  Z.land (u32 (x - 1)) (u32 (Z.lnot PGMASK)) = 4096 * (page_above x - 1).
Proof.
  intros Hx. rewrite u32_id by (unfold is_u32; lia).
  change (u32 (Z.lnot PGMASK)) with PTE_ADDR. rewrite land_page by (unfold is_u32; lia).
  unfold page_above. Z.to_euclidean_division_equations. lia.
Qed.

Lemma start_page_eq x :
  x mod 4096 = 0 → is_u32 x →
  Z.land x (u32 (Z.lnot PGMASK)) = 4096 * page_above x ∧ x / 4096 = page_above x.
Proof.
  intros Hm Hx. change (u32 (Z.lnot PGMASK)) with PTE_ADDR. rewrite land_page by done.
  unfold page_above. Z.to_euclidean_division_equations. lia.
Qed.

Lemma next_page x :
  0 < x < 2147483648 → u32 (4096 * (page_above x - 1) + PGSIZE) = 4096 * page_above x.
Proof.
  intros Hx. pose proof (page_above_range x Hx). change PGSIZE with 4096.
  rewrite u32_id by (unfold is_u32; lia). lia.
Qed.

(** A target outside the segment has the sign the code tests for. *)
Lemma new_break_sign b inc st :
  0 < st ≤ b → b < 2147483648 → -2147483648 ≤ inc < 2147483648 →
  (s32 (u32 (s32 b + inc)) <? s32 st) = bool_decide (b + inc < st ∨ 2147483648 ≤ b + inc)
  ∧ (st ≤ b + inc < 2147483648 → u32 (s32 b + inc) = b + inc).
Proof.
  intros Hb Hb2 Hi. rewrite (s32_small b), (s32_small st) by lia.
  split; [|intros; apply u32_id; unfold is_u32; lia].
  unfold s32, u32.
  case_bool_decide as Hd; Z.to_euclidean_division_equations; destruct (_ <? 2147483648) eqn:E; lia.
Qed.

(** ** Correctness *)
Section SbrkSpec.
Context (init_page_dir init_ram_pages : Z).
Abbreviation sbrk := (syscall_sbrk init_page_dir init_ram_pages).
Abbreviation inv := (proc_inv init_page_dir init_ram_pages).

(** The invariant after a step that leaves the heap pages as the new break says. *)
Lemma proc_inv_step p k' nb :
  inv p → as_step (pk p) k' (pagedir (cur p)) →
  heap_start (cur p) ≤ nb < 2147483648 →
  (∀ vp, heap_start (cur p) / 4096 ≤ vp < page_above nb →
     ∃ e, mapping (kmem k') (pagedir (cur p)) vp = Some e ∧ Z.land e PTE_W ≠ 0) →
  (∀ vp, page_above nb ≤ vp < 524288 → mapping (kmem k') (pagedir (cur p)) vp = None) →
  inv (Proc k' (set_heap_break (cur p) nb)).
Proof.
  intros [Has Hc Ht Hr Hpd Hst Hlow Hhigh Hheap Hgap] Hs Hnb Hh Hg. split; cbn; try done.
  - apply Hs.
  - by eapply cr3_ok_step.
  - by apply (st_tlb _ _ _ Hs).
  - by eapply ram_ok_geom; [apply Hs|].
  - lia.
  - lia.
Qed.

Lemma user_pte_writable q : kpage_ok q → Z.land (user_pte q true) PTE_W ≠ 0.
Proof.
  intros Hq. unfold user_pte.
  rewrite land_page_flags by (try apply kpage_phys; try done; unfold PTE_W; lia). done.
Qed.

Lemma fresh_page_writable k pd vp :
  fresh_page k pd vp → ∃ e, mapping (kmem k) pd vp = Some e ∧ Z.land e PTE_W ≠ 0.
Proof. intros (q & Hq & Hm & _). eauto using user_pte_writable. Qed.

(** Moving the break without crossing a page boundary. *)
Lemma sbrk_same_pages p nb :
  inv p → heap_start (cur p) ≤ nb < 2147483648 →
  page_above nb = page_above (heap_break (cur p)) →
  inv (Proc (pk p) (set_heap_break (cur p) nb)).
Proof.
  intros Hi Hnb E. apply proc_inv_step; [done| |done|..].
  - apply as_step_refl, Hi.
  - rewrite E. apply Hi.
  - rewrite E. apply Hi.
Qed.

(** What the two halves of the call do to the pages. *)
Lemma sbrk_shrink p nb :
  inv p → heap_start (cur p) ≤ nb < heap_break (cur p) →
  let t := cur p in
  let new_page := 4096 * (page_above nb - 1) in
  let old_page := 4096 * (page_above (heap_break t) - 1) in
  ∃ k', (if nb =? heap_start t then
           k ← unmap_user_pages init_page_dir (pk p) (pagedir t)
                 (4096 * page_above (heap_start t)) old_page;
           Ret (true, k)
         else if negb (new_page =? old_page) then
           k ← unmap_user_pages init_page_dir (pk p) (pagedir t) (u32 (new_page + PGSIZE)) old_page;
           Ret (true, k)
         else Ret (true, pk p)) = Ret (true, k')
    ∧ as_step (pk p) k' (pagedir t)
    ∧ ∀ vp, user_page vp → mapping (kmem k') (pagedir t) vp
        = if decide (page_above nb ≤ vp < page_above (heap_break t)) then None
          else mapping (kmem (pk p)) (pagedir t) vp.
Proof.
  intros Hi Hnb t new_page old_page.
  pose proof (pi_low _ _ _ Hi) as Hl. pose proof (pi_high _ _ _ Hi) as Hh.
  pose proof (page_above_mono nb (heap_break t) ltac:(unfold t; lia)) as Hmono.
  pose proof (page_above_range (heap_break t) ltac:(unfold t; lia)).
  pose proof (page_above_range nb ltac:(lia)).
  pose proof (page_above_start _ (heap_break t) (pi_start _ _ _ Hi) ltac:(unfold t; lia)).
  destruct (decide (page_above nb = page_above (heap_break t))) as [E|Hne].
  - destruct (Z.eqb_spec nb (heap_start t)) as [En|].
    { destruct (start_page_eq nb) as [_ E2]; [subst nb; apply (pi_start _ _ _ Hi)|unfold is_u32; lia|].
      subst nb. unfold t in *. lia. }
    unfold new_page, old_page. rewrite E, Z.eqb_refl. cbn [negb].
    exists (pk p). split; [done|]. split; [apply as_step_refl, Hi|].
    intros vp _. rewrite decide_False by lia. done.
  - destruct (unmap_user_pages_spec init_page_dir (pk p) (pagedir t) (page_above nb)
      (page_above (heap_break t)) (pi_as _ _ _ Hi) (pi_cr3 _ _ _ Hi)) as (k' & E & Hst & Hm); [lia..|].
    exists k'. split; [|done]. destruct (Z.eqb_spec nb (heap_start t)) as [En|].
    + subst nb. unfold old_page. by rewrite E.
    + unfold new_page, old_page. rewrite next_page by lia.
      destruct (Z.eqb_spec (4096 * (page_above nb - 1)) (4096 * (page_above (heap_break t) - 1)));
        [lia|]. cbn [negb]. by rewrite E.
Qed.

Lemma sbrk_grow p nb :
  inv p → heap_break (cur p) < nb < 2147483648 →
  let t := cur p in
  let new_page := 4096 * (page_above nb - 1) in
  let old_page := 4096 * (page_above (heap_break t) - 1) in
  let r := (if heap_break t =? heap_start t then
              map_user_pages init_page_dir init_ram_pages (pk p) (pagedir t)
                (4096 * page_above (heap_start t)) new_page
            else if negb (old_page =? new_page) then
              map_user_pages init_page_dir init_ram_pages (pk p) (pagedir t)
                (u32 (old_page + PGSIZE)) new_page
            else Ret (true, pk p)) in
  (∃ k', r = Ret (true, k')
     ∧ map_done (pk p) k' (pagedir t) (page_above (heap_break t)) (page_above nb))
  ∨ (∃ k', r = Ret (false, k') ∧ as_step (pk p) k' (pagedir t)
     ∧ same_mapping p (Proc k' t) ∧ ∃ kf, exhausted (pk p) kf (pagedir t)).
Proof.
  intros Hi Hnb t new_page old_page r.
  pose proof (pi_low _ _ _ Hi) as Hl. pose proof (pi_high _ _ _ Hi) as Hh.
  pose proof (page_above_mono (heap_break t) nb ltac:(unfold t; lia)) as Hmono.
  pose proof (page_above_range (heap_break t) ltac:(unfold t; lia)).
  pose proof (page_above_range nb ltac:(lia)).
  destruct (start_page_eq (heap_start t)) as [_ Es]; [apply (pi_start _ _ _ Hi)|unfold t, is_u32; lia|].
  pose proof (page_above_start _ nb (pi_start _ _ _ Hi) ltac:(lia)) as Hsn. fold t in Hsn.
  destruct (decide (page_above nb = page_above (heap_break t))) as [E|Hne].
  - left. unfold r. destruct (Z.eqb_spec (heap_break t) (heap_start t)) as [En|].
    { rewrite En in *. lia. }
    unfold new_page, old_page. rewrite E, Z.eqb_refl. cbn [negb].
    exists (pk p). split; [done|]. split_and!; [apply as_step_refl, Hi|lia|done].
  - assert (r = map_user_pages init_page_dir init_ram_pages (pk p) (pagedir t)
              (4096 * page_above (heap_break t)) (4096 * (page_above nb - 1))) as ->.
    { unfold r, new_page, old_page. destruct (Z.eqb_spec (heap_break t) (heap_start t)) as [->|];
        [done|]. rewrite next_page by (unfold t; lia).
      destruct (Z.eqb_spec (4096 * (page_above (heap_break t) - 1)) (4096 * (page_above nb - 1)));
        [lia|done]. }
    destruct (map_user_pages_spec init_page_dir init_ram_pages (pk p) (pagedir t)
      (page_above (heap_break t)) (page_above nb) (pi_as _ _ _ Hi) (pi_cr3 _ _ _ Hi)
      (pi_ram _ _ _ Hi) (pi_pd _ _ _ Hi)) as [(k' & E & Hd)|(k' & E & Hst & Hex & Hm)]; [lia..| | |].
    + intros vp Hvp. apply (pi_gap _ _ _ Hi). fold t. lia.
    + left. eauto.
    + right. exists k'. split_and!; try done. intros vp Hv. cbn. fold t. rewrite Hm by done.
      case_decide; [|done]. symmetry. apply (pi_gap _ _ _ Hi). fold t. lia.
Qed.

Lemma user_page_low vp : 0 ≤ vp < 524288 → user_page vp.
Proof. unfold user_page. lia. Qed.

Lemma sbrk_spec p inc :
  inv p → -2147483648 ≤ inc < 2147483648 →
  ∃ r p', sbrk p inc = Ret (r, p') ∧ inv p' ∧ sbrk_post p inc r p'.
Proof.
  intros Hi Hinc. unfold syscall_sbrk. set (t := cur p).
  pose proof (pi_low _ _ _ Hi) as Hl. pose proof (pi_high _ _ _ Hi) as Hh. fold t in Hl, Hh.
  destruct (Z.eqb_spec inc 0) as [->|Hnz]; [by eexists _, _|].
  destruct (new_break_sign (heap_break t) inc (heap_start t)) as [-> Enb]; [done..|].
  case_bool_decide as Hd.
  { eexists _, _. split; [reflexivity|]. split; [done|].
    unfold sbrk_post. by rewrite decide_False, decide_True. }
  rewrite Enb by lia. set (nb := heap_break t + inc) in *.
  rewrite !break_page by lia.
  destruct (start_page_eq (heap_start t)) as [-> Es]; [apply (pi_start _ _ _ Hi)|unfold is_u32; lia|].
  pose proof (page_above_range (heap_break t) ltac:(lia)).
  pose proof (page_above_range nb ltac:(lia)).
  pose proof (page_above_mono (heap_start t) nb ltac:(lia)).
  pose proof (page_above_range (heap_start t) ltac:(lia)).
  assert (∀ r p', sbrk_moved p nb r p' → sbrk_post p inc r p') as Hpost.
  { intros r p' Hm. unfold sbrk_post. by rewrite !decide_False. }
  destruct (Z.ltb_spec inc 0) as [Hneg|Hpos].
  - pose proof (page_above_mono nb (heap_break t) ltac:(lia)).
    destruct (sbrk_shrink p nb Hi) as (k' & E & Hst & Hm); [fold t; lia|]. fold t in E, Hst, Hm.
    rewrite E, bind_Ret. cbn [negb]. eexists _, _. split; [reflexivity|]. split.
    + apply proc_inv_step; fold t; [done..|lia| |].
      * intros vp Hvp. rewrite Hm, decide_False by (try apply user_page_low; lia).
        apply (pi_heap _ _ _ Hi). fold t. lia.
      * intros vp Hvp. rewrite Hm by (apply user_page_low; lia). case_decide; [done|].
        apply (pi_gap _ _ _ Hi). fold t. lia.
    + apply Hpost. split; [done|]. left. split_and!; try done. intros vp Hv. fold t.
      rewrite decide_False by lia. by apply Hm.
  - pose proof (page_above_mono (heap_break t) nb ltac:(lia)).
    destruct (sbrk_grow p nb Hi) as [(k' & E & Hst & Hfr & Hm)|(k' & E & Hst & Hm & Hex)];
      [fold t; lia| |]; fold t in E, Hst, Hm; rewrite E, bind_Ret; cbn [negb];
      eexists _, _; (split; [reflexivity|]).
    + split.
      * apply proc_inv_step; fold t; [done..|lia| |].
        -- intros vp Hvp. destruct (decide (page_above (heap_break t) ≤ vp)).
           ++ apply fresh_page_writable, Hfr. fold t. lia.
           ++ rewrite Hm by (try apply user_page_low; lia). apply (pi_heap _ _ _ Hi). fold t. lia.
        -- intros vp Hvp. rewrite Hm by (try apply user_page_low; lia).
           apply (pi_gap _ _ _ Hi). fold t. lia.
      * apply Hpost. split; [done|]. left. split_and!; try done. intros vp Hv. fold t.
        case_decide; [by apply Hfr|].
        rewrite decide_False by lia. by apply Hm.
    + split.
      * replace t with (set_heap_break (cur p) (heap_break t)) by (by destruct (cur p)).
        apply proc_inv_step; fold t; [done..|lia| |].
        -- intros vp Hvp. specialize (Hm vp ltac:(apply user_page_low; lia)). cbn in Hm. fold t in Hm.
           rewrite Hm. apply (pi_heap _ _ _ Hi). fold t. lia.
        -- intros vp Hvp. specialize (Hm vp ltac:(apply user_page_low; lia)). cbn in Hm. fold t in Hm.
           rewrite Hm. apply (pi_gap _ _ _ Hi). fold t. lia.
      * apply Hpost. split; [done|]. right. split_and!; try done. fold t. lia.
Qed.

(** Growing across a page boundary maps the pages between the two breaks. *)
Lemma sbrk_grow_eq p inc :
  let t := cur p in
  0 < heap_start t ≤ heap_break t → heap_start t mod 4096 = 0 →
  0 < inc → heap_break t + inc < 2147483648 →
  page_above (heap_break t) < page_above (heap_break t + inc) →
  sbrk p inc
  = '(ok, k) ← map_user_pages init_page_dir init_ram_pages (pk p) (pagedir t)
                 (4096 * page_above (heap_break t)) (4096 * (page_above (heap_break t + inc) - 1));
    if negb ok then Ret (u32 (-1), Proc k t)
    else Ret (heap_break t, Proc k (set_heap_break t (heap_break t + inc))).
Proof.
  intros t Hl Hm Hinc Hnb Hcross. unfold syscall_sbrk. fold t.
  destruct (Z.eqb_spec inc 0); [lia|].
  destruct (new_break_sign (heap_break t) inc (heap_start t)) as [-> Enb]; [lia..|].
  rewrite bool_decide_false, Enb by lia. rewrite !break_page by lia.
  destruct (start_page_eq (heap_start t)) as [-> _]; [done|unfold is_u32; lia|].
  destruct (Z.ltb_spec inc 0); [lia|].
  destruct (Z.eqb_spec (heap_break t) (heap_start t)) as [->|]; [done|].
  rewrite next_page by lia.
  destruct (Z.eqb_spec (4096 * (page_above (heap_break t) - 1))
    (4096 * (page_above (heap_break t + inc) - 1))); [lia|done].
Qed.
End SbrkSpec.
