(* ===== verification/Fault.v ===== *)
(** * Page faults and stack growth (userprog/exception.c)

    [page_fault] decides from the error code, the faulting address and the saved
    stack pointers whether an access was stack growth, and if so maps a new page.
    A handler may also end the thread; [outcome] tells the two apart. *)
From S2P Require Import Prelude Mem Bitmap Vaddr Palloc Pagedir UserPages Sbrk.

(** A call returns to its caller, or the thread exits: through [syscall_exit],
    which reports a status, or straight through [thread_exit]. *)
Inductive outcome (A : Type) : Type :=
| Go (a : A)
| Exit (status : option Z) (p : proc).
Arguments Go {A} a.
Arguments Exit {A} status p.

(** The saved registers of [struct intr_frame] that the handlers use. *)
Record intr_frame := Frame { esp : Z; eax : Z; cs : Z; error_code : Z }.

Definition PF_P : Z := 1.
Definition PF_W : Z := 2.
Definition PF_U : Z := 4.
Definition SEL_UCSEG : Z := 27.
Definition SEL_KCSEG : Z := 8.

Section Fault.
Context (init_page_dir init_ram_pages : Z).

Definition kill (p : proc) (f : intr_frame) : res (outcome proc) :=
  if cs f =? SEL_UCSEG then Ret (Exit None p)
  else if cs f =? SEL_KCSEG then Panic
  else Ret (Exit None p).

Definition resolve_page_fault_from_stack_growth (p : proc) (flags virtual_address : Z)
    : res (outcome proc) :=
  let t := cur p in
  if virtual_address =? NULL then Ret (Go p) else
  let virtual_page_address := pg_round_down virtual_address in
  page ← pagedir_get_page (pk p) (pagedir t) virtual_page_address;
  if negb (page =? NULL) then Ret (Go p) else
  '(kernel_page, s) ← palloc_get_page (ks (pk p)) flags;
  let k := with_ks (pk p) s in
  if kernel_page =? NULL then Ret (Exit (Some (-1)) (Proc k t)) else
  '(ok, k) ← pagedir_set_page init_page_dir init_ram_pages k (pagedir t)
               virtual_page_address kernel_page true;
  if negb ok then
    s ← palloc_free_page (ks k) kernel_page;
    Ret (Exit None (Proc (with_ks k s) t))
  else Ret (Go (Proc k t)).

(** [user_frame] is the frame [USER_INTR_FRAME_PTR] points to, [None] when it is
    null; following the null pointer faults again, in the kernel. *)
Definition page_fault (p : proc) (user_frame : option intr_frame) (f : intr_frame)
    (fault_addr : Z) : res (outcome proc) :=
  let PUSH_DECREMENT := 4 in
  let PUSHA_DECREMENT := 32 in
  let not_present := Z.land (error_code f) PF_P =? 0 in
  let write := negb (Z.land (error_code f) PF_W =? 0) in
  let user := negb (Z.land (error_code f) PF_U =? 0) in
  let t := cur p in
  let pushes := (fault_addr =? u32 (esp f - PUSH_DECREMENT))
                || (fault_addr =? u32 (esp f - PUSHA_DECREMENT)) in
  if negb not_present then Ret (Exit (Some (-1)) p)
  else if user && negb (in_syscall t) && is_user_vaddr fault_addr then
    if esp f <=? fault_addr then
      resolve_page_fault_from_stack_growth p (Z.lor PAL_ZERO PAL_USER) fault_addr
    else if (fault_addr <? esp f) && write && pushes then
      resolve_page_fault_from_stack_growth p (Z.lor PAL_ZERO PAL_USER) fault_addr
    else Ret (Exit (Some (-1)) p)
  else if negb user then
    if is_user_vaddr fault_addr && in_syscall t then
      match user_frame with
      | None => Panic
      | Some uf =>
        if esp uf <=? fault_addr then
          resolve_page_fault_from_stack_growth p PAL_ZERO fault_addr
        else Ret (Exit (Some (-1)) p)
      end
    else if negb (is_user_vaddr fault_addr) then
      if esp f <=? fault_addr then
        resolve_page_fault_from_stack_growth p PAL_ZERO fault_addr
      else if (fault_addr <? esp f) && write && pushes then
        resolve_page_fault_from_stack_growth p PAL_ZERO fault_addr
      else kill p f
    else kill p f
  else kill p f.
End Fault.

(** ** What a resolved fault does *)
Section FaultSpec.
Context (init_page_dir init_ram_pages : Z).
Abbreviation resolve := (resolve_page_fault_from_stack_growth init_page_dir init_ram_pages).
Abbreviation fault := (page_fault init_page_dir init_ram_pages).

(** What the handlers need of the process: everything of the invariant that does
    not concern the heap. *)
Record space_ok (p : proc) : Prop := {
  so_as : as_wf (ks (pk p)) (pagedir (cur p));
  so_cr3 : cr3_ok (pk p);
  so_ram : ram_ok init_ram_pages (ks (pk p));
  so_pd : pagedir (cur p) ≠ init_page_dir;
}.

Lemma proc_space_ok p : proc_inv init_page_dir init_ram_pages p → space_ok p.
Proof. by intros []. Qed.

(** The faulting page and nothing else has been mapped. *)
Definition grew_at (p p' : proc) (vp : Z) : Prop :=
  cur p' = cur p ∧ as_step (pk p) (pk p') (pagedir (cur p))
  ∧ fresh_page (pk p') (pagedir (cur p)) vp
  ∧ ∀ vp', user_page vp' → vp' ≠ vp →
      mapping (kmem (pk p')) (pagedir (cur p)) vp' = mapping (kmem (pk p)) (pagedir (cur p)) vp'.

(** Nothing has been mapped. *)
Definition unchanged (p p' : proc) : Prop :=
  cur p' = cur p ∧ as_step (pk p) (pk p') (pagedir (cur p)) ∧ same_mapping p p'.

Lemma unchanged_refl p : space_ok p → unchanged p p.
Proof. intros Hs. split; [done|]. split; [apply as_step_refl, Hs|]. by intros vp _. Qed.

Lemma round_down_va va : 0 ≤ va < PHYS_BASE → pg_round_down va = 4096 * pg_no va.
Proof.
  intros. rewrite pg_round_down_eq, pg_no_div; [lia|]. unfold is_u32, PHYS_BASE in *. lia.
Qed.

(** A page from either pool, zeroed or not, becomes the page of [vp]. *)
Lemma resolve_spec p flags va :
  space_ok p → 0 < va < PHYS_BASE → flag flags PAL_ZERO = true → flag flags PAL_ASSERT = false →
  let vp := pg_no va in
  let m := mapping (kmem (pk p)) (pagedir (cur p)) vp in
  (m ≠ None ∧ resolve p flags va = Ret (Go p))
  ∨ (m = None ∧ ∃ p', resolve p flags va = Ret (Go p') ∧ grew_at p p' vp)
  ∨ (m = None ∧ ∃ st p', resolve p flags va = Ret (Exit st p') ∧ unchanged p p').
Proof.
  intros Hso Hva Hz Has vp m. destruct (va_split va ltac:(lia)) as (Hv & _). fold vp in Hv.
  destruct (user_page_va _ Hv) as [Hva' Eva]. pose proof (so_as _ Hso) as Hw.
  unfold resolve_page_fault_from_stack_growth.
  destruct (Z.eqb_spec va NULL); [unfold NULL in *; lia|].
  rewrite round_down_va by lia. fold vp. rewrite pagedir_get_page_spec, bind_Ret by done.
  rewrite Eva. fold m. destruct m as [e|] eqn:Em; unfold m in Em.
  { left. split; [done|]. destruct (frame_ok _ _ _ _ Hw Hv Em) as [_ [_ Hb]].
    pose proof (Z.mod_pos_bound (4096 * vp) 4096).
    destruct (Z.eqb_spec (page_of e + (4096 * vp) mod 4096) NULL); [|done].
    unfold NULL, PHYS_BASE in *. lia. }
  right. rewrite Z.eqb_refl. cbn [negb]. unfold palloc_get_page.
  destruct (palloc_get_multiple_spec (ks (pk p)) flags 1 (aw_palloc _ _ Hw))
    as [(q & s & -> & Hq & Hg)|(Hfull & ->)]; [lia|..].
  2:{ right. rewrite Has. split; [done|]. rewrite bind_Ret, Z.eqb_refl.
      replace (Proc (with_ks (pk p) (ks (pk p))) (cur p)) with p by (by destruct p as [[] ?]).
      eauto using unchanged_refl. }
  rewrite bind_Ret. cbn beta iota. destruct (Z.eqb_spec q NULL); [done|].
  set (u := flag flags PAL_USER) in *. rewrite Hz in Hg.
  pose proof (got_wf _ _ _ _ _ _ Hw Hg) as Hw1.
  pose proof (got_unused _ _ _ _ _ _ Hw Hg) as Hu.
  destruct (pagedir_set_page_spec init_page_dir init_ram_pages (with_ks (pk p) s)
    (pagedir (cur p)) vp q true Hw1 Hv) as [(k' & -> & Htlb & Hr)|(-> & Hfull)]; try done.
  { change (kmem (with_ks (pk p) s)) with (pmem s). by rewrite (got_map _ _ _ _ _ _ Hw Hg). }
  { split; [apply Hso|]. eapply got_ram; [apply (so_ram _ Hso)|done]. }
  - left. rewrite bind_Ret. cbn [negb]. split; [done|]. eexists. split; [reflexivity|].
    pose proof (map_got_map _ _ _ _ _ _ _ _ _ Hw Hg Hr) as Hm.
    split_and!; [done|by eapply map_got_step|..].
    + exists q. cbn. rewrite Hm, decide_True by done. destruct Hu as (Hqa & Hqt & _).
      split_and!; [by eapply allocated_kpage; [apply Hw1|]|done|]. intros x Hx.
      rewrite (rm_data _ _ _ _ Hr q) by done. by apply (gp_zero _ _ _ _ _ _ Hg).
    + intros vp' Hv' Hne. cbn. by rewrite Hm, decide_False.
  - right. rewrite bind_Ret. cbn [negb]. split; [done|].
    destruct (borrow_step (pk p) s _ q _ _ _ Hw Hg
      (as_step_refl (with_ks (pk p) s) _ Hw1)) as (s3 & -> & Hst3 & Hm3).
    rewrite bind_Ret. eexists _, _. split; [reflexivity|]. split_and!; [done..|].
    intros vp' Hv'. cbn. change (kmem (with_ks (with_ks (pk p) s) s3)) with (pmem s3).
    rewrite Hm3 by done. by apply (got_map _ _ _ _ _ _ Hw Hg).
Qed.

(** The accesses taken for stack growth: at or above the process's own stack
    pointer, or a user-mode push just below it. *)
Definition stack_access (p : proc) (user_frame : option intr_frame) (f : intr_frame) (addr : Z)
    : bool :=
  (Z.land (error_code f) PF_P =? 0)
  && (if negb (Z.land (error_code f) PF_U =? 0)
      then negb (in_syscall (cur p))
           && ((esp f <=? addr)
               || negb (Z.land (error_code f) PF_W =? 0)
                  && ((addr =? u32 (esp f - 4)) || (addr =? u32 (esp f - 32))))
      else match user_frame with Some uf => esp uf <=? addr | None => false end).

(** Faults on user addresses: those of a user program, and those of the kernel
    while it serves a system call. *)
Definition user_fault (p : proc) (user_frame : option intr_frame) (f : intr_frame) : Prop :=
  if negb (Z.land (error_code f) PF_U =? 0) then cs f = SEL_UCSEG
  else in_syscall (cur p) = true ∧ user_frame ≠ None.

Lemma resolve_outcome p flags va :
  space_ok p → 0 ≤ va < PHYS_BASE → flag flags PAL_ZERO = true → flag flags PAL_ASSERT = false →
  ∃ o, resolve p flags va = Ret o ∧
    match o with
    | Go p' => p' = p ∨ grew_at p p' (pg_no va)
    | Exit _ p' => unchanged p p'
    end.
Proof.
  intros Hso Hva Hz Ha. destruct (decide (va = 0)) as [->|].
  { exists (Go p). split; [done|]. by left. }
  destruct (resolve_spec p flags va Hso ltac:(lia) Hz Ha)
    as [(_ & ->)|[(_ & p' & -> & ?)|(_ & st & p' & -> & ?)]].
  - exists (Go p). auto.
  - exists (Go p'). auto.
  - by exists (Exit st p').
Qed.

(** A user fault never stops the kernel; it maps the faulting page when the
    access is stack growth, and otherwise ends the process with its address
    space as it was. *)
Lemma page_fault_outcome p user_frame f addr :
  space_ok p → 0 ≤ addr < PHYS_BASE → user_fault p user_frame f →
  ∃ o, fault p user_frame f addr = Ret o ∧
    match o with
    | Go p' => stack_access p user_frame f addr = true ∧ (p' = p ∨ grew_at p p' (pg_no addr))
    | Exit _ p' => unchanged p p'
    end.
Proof.
  intros Hso Ha Huf. unfold page_fault, stack_access, user_fault in *.
  assert (is_user_vaddr addr = true) as -> by (unfold is_user_vaddr; lia).
  set (np := Z.land _ PF_P =? 0). set (w := negb (Z.land _ PF_W =? 0)).
  set (u := negb (Z.land _ PF_U =? 0)) in *.
  pose proof (resolve_outcome p (Z.lor PAL_ZERO PAL_USER) addr Hso Ha eq_refl eq_refl)
    as (o1 & E1 & H1).
  pose proof (resolve_outcome p PAL_ZERO addr Hso Ha eq_refl eq_refl) as (o2 & E2 & H2).
  pose proof (unchanged_refl p Hso) as Hu.
  destruct np; cbn [negb andb]; [|by exists (Exit (Some (-1)) p)].
  destruct u; cbn [negb andb].
  - destruct (in_syscall (cur p)); cbn [negb andb].
    { unfold kill. rewrite Huf. by exists (Exit None p). }
    destruct (Z.leb_spec (esp f) addr); cbn [orb].
    + rewrite E1. exists o1. split; [done|]. by destruct o1.
    + assert (addr <? esp f = true) as -> by lia. cbn [andb].
      destruct w; cbn [andb]; [|by exists (Exit (Some (-1)) p)].
      destruct (_ || _); [|by exists (Exit (Some (-1)) p)].
      rewrite E1. exists o1. split; [done|]. by destruct o1.
  - destruct Huf as [-> Hs]. destruct user_frame as [uf|]; [|done].
    destruct (esp uf <=? addr); [|by exists (Exit (Some (-1)) p)].
    rewrite E2. exists o2. split; [done|]. by destruct o2.
Qed.

(** A fault of the kernel at or above its own stack pointer: the handler asks the
    page directory for a kernel address and stops the machine. *)
Lemma page_fault_kernel_address p user_frame f addr :
  PHYS_BASE ≤ addr < 4294967296 → esp f ≤ addr →
  Z.land (error_code f) PF_P = 0 → Z.land (error_code f) PF_U = 0 →
  fault p user_frame f addr = Panic.
Proof.
  intros Ha He Hp Hu. unfold page_fault. rewrite Hp, Hu. cbn [Z.eqb negb andb].
  assert (is_user_vaddr addr = false) as -> by (unfold is_user_vaddr; lia). cbn [andb negb].
  destruct (Z.leb_spec (esp f) addr); [|lia].
  unfold resolve_page_fault_from_stack_growth.
  destruct (Z.eqb_spec addr NULL); [unfold PHYS_BASE, NULL in *; lia|].
  unfold pagedir_get_page. rewrite ASSERT_false; [done|].
  rewrite pg_round_down_eq by (unfold is_u32, PHYS_BASE in *; lia).
  unfold is_user_vaddr, PHYS_BASE in *. Z.to_euclidean_division_equations. lia.
Qed.

(** When the first page above the break is mapped already, an [sbrk] that needs it asserts
    that the page is not present and stops the machine. *)
Lemma sbrk_over_mapped p inc e :
  let t := cur p in
  as_wf (ks (pk p)) (pagedir t) → ram_ok init_ram_pages (ks (pk p)) → pagedir t ≠ init_page_dir →
  0 < heap_start t ≤ heap_break t → heap_start t mod 4096 = 0 →
  mapping (kmem (pk p)) (pagedir t) (page_above (heap_break t)) = Some e →
  0 < inc → heap_break t + inc < 2147483648 →
  page_above (heap_break t) < page_above (heap_break t + inc) →
  ¬ pool_full (ks (pk p)) true 1 →
  syscall_sbrk init_page_dir init_ram_pages p inc = Panic.
Proof.
  intros t Hw1 Hram Hpd Hl Hal Hm Hinc Hnb Hcross Hfull.
  rewrite sbrk_grow_eq by done. fold t. set (a := page_above (heap_break t)) in *.
  set (b := page_above (heap_break t + inc)) in *.
  pose proof (page_above_range (heap_break t) ltac:(lia)) as Ha. fold a in Ha.
  pose proof (page_above_range (heap_break t + inc) ltac:(lia)) as Hb. fold b in Hb.
  assert (map_user_pages init_page_dir init_ram_pages (pk p) (pagedir t) (4096 * a)
            (4096 * (b - 1)) = Panic) as ->; [|done].
  unfold map_user_pages. rewrite !land_pgmask, !ASSERT_true by lia.
  pose proof (range_fuel_enough a b ltac:(lia)) as Hf.
  destruct (range_fuel _ _) as [|fuel]; [lia|]. rewrite map_loop_unfold by lia.
  rewrite Z.add_0_r. unfold map_one, palloc_get_page.
  destruct (palloc_get_multiple_spec (ks (pk p)) (Z.lor PAL_USER PAL_ZERO) 1 (aw_palloc _ _ Hw1))
    as [(q & s & -> & Hq & Hg)|(? & _)]; [lia| |done].
  rewrite bind_Ret. cbn beta iota. destruct (Z.eqb_spec q NULL); [done|].
  assert (user_page a) as Hv by (apply user_page_low; lia).
  rewrite (pagedir_set_page_twice _ _ (with_ks (pk p) s) _ a q true e); [done|..].
  - exact (got_wf _ _ _ _ _ _ Hw1 Hg).
  - done.
  - change (kmem (with_ks (pk p) s)) with (pmem s). by rewrite (got_map _ _ _ _ _ _ Hw1 Hg).
  - eapply allocated_kpage; [apply (gp_wf _ _ _ _ _ _ Hg)|].
    rewrite (got_alloc _ _ _ _ _ Hg). by rewrite decide_True.
  - split; [done|]. by eapply got_ram.
Qed.

(** The heap break grows over a page that a fault has mapped: unless the user pool
    is empty, the next [sbrk] asserts that the page is not present and stops the
    machine. *)
Lemma sbrk_over_stack_page p p1 inc :
  proc_inv init_page_dir init_ram_pages p →
  grew_at p p1 (page_above (heap_break (cur p))) →
  0 < inc → heap_break (cur p) + inc < 2147483648 →
  page_above (heap_break (cur p)) < page_above (heap_break (cur p) + inc) →
  ¬ pool_full (ks (pk p1)) true 1 →
  syscall_sbrk init_page_dir init_ram_pages p1 inc = Panic.
Proof.
  intros Hi (Ec & Hst & (q0 & _ & Hm & _) & _) Hinc Hnb Hcross Hfull.
  eapply sbrk_over_mapped; rewrite ?Ec; try done; try (first [apply (pi_pd _ _ _ Hi)|apply (pi_low _ _ _ Hi)|apply (pi_start _ _ _ Hi)]).
  - apply Hst.
  - eapply ram_ok_geom; [apply (st_geom _ _ _ Hst)|apply Hi].
Qed.
End FaultSpec.
