(* ===== verification/KernelTheorems.v ===== *)
(** * What the memory system guarantees

    The theorems on the page allocator, the page directories, the heap break and
    the page fault handler, with a small concrete machine on which each of them is
    instantiated: four megabytes of memory, a kernel pool and a user pool of eight
    pages each, and one process with an empty address space. *)
From S2P Require Import Prelude Mem Bitmap Vaddr Palloc Pagedir UserPages Sbrk Fault.

(** ** A concrete machine *)
Definition demo_init_pd : Z := 3222274048.
Definition demo_ram_pages : Z := 1024.
Definition demo_pd : Z := 3222278144.
(** [w] is the word of used pages of the kernel pool; page 0 holds the directory. *)
Definition demo_pools (w : Z) : pstate :=
  PState (Pool (Bitmap 8 [w]) demo_pd) (Pool (Bitmap 8 [0]) 3223322624) ∅.
Definition demo_kernel (w : Z) : kstate := KState (demo_pools w) (demo_pd - PHYS_BASE) ∅.
Definition demo_thread : thread := Thread demo_pd 134524928 134524928 0 false.
Definition demo_proc : proc := Proc (demo_kernel 1) demo_thread.

Lemma demo_palloc_wf w : is_u32 w → palloc_wf (demo_pools w).
Proof.
  intros Hw. assert (∀ w, is_u32 w → bitmap_wf (Bitmap 8 [w])) as Hb.
  { intros w' Hw'. split; cbn; [lia|by apply Forall_singleton|done]. }
  split; [split|split|left]; try done; by apply Hb.
Qed.

Lemma load32_empty a : load32 ∅ a = 0.
Proof. done. Qed.

Lemma demo_mapping vp : mapping ∅ demo_pd vp = None.
Proof. unfold mapping, pte_at, pde_at. by rewrite load32_empty. Qed.

Lemma demo_as_wf w : is_u32 w → allocated (demo_pools w) demo_pd = true → as_wf (demo_pools w) demo_pd.
Proof.
  intros Hw Ha. assert (∀ i, pde_at ∅ demo_pd i = 0) as Hz by (intros; apply load32_empty).
  split; cbn [demo_pools pmem]; [by apply demo_palloc_wf|done|..].
  - intros i _. by rewrite Hz.
  - intros i j _ _. by rewrite Hz.
  - intros vp e _. by rewrite demo_mapping.
  - intros vp vp' e e' _ _. by rewrite demo_mapping.
Qed.

Lemma demo_cr3 w : cr3_ok (demo_kernel w).
Proof. by exists demo_pd. Qed.

Lemma demo_inv : proc_inv demo_init_pd demo_ram_pages demo_proc.
Proof.
  split; try done.
  - by apply demo_as_wf.
  - apply demo_cr3.
  - intros u. by destruct u.
  - intros vp Hvp. assert (32843 ≤ vp < 32843) by exact Hvp. lia.
Qed.

Lemma demo_unused : unused_frame (demo_pools 3) demo_pd 3222282240.
Proof.
  split_and!; [done| |intros vp e _; by rewrite demo_mapping].
  intros [E|(i & _ & Hnz & _)]; [done|]. apply Hnz, load32_empty.
Qed.

(** ** The page allocator *)

(** [palloc_get_multiple] for [n] > 0 pages either takes [n] adjacent free
    pages of the pool the flags name (the pages were free, are allocated now, are
    zero when the caller asked for it, no other page changes state and no other
    byte of memory changes), or finds that the pool has no [n] adjacent free pages
    and changes nothing: it returns null, or panics if the flags say so. *)
Theorem palloc_get_multiple_correct s flags n :
  palloc_wf s → 0 < n →
  (∃ r s', palloc_get_multiple s flags n = Ret (r, s') ∧ r ≠ NULL
     ∧ got_pages s s' (flag flags PAL_USER) (flag flags PAL_ZERO) r n)
  ∨ (pool_full s (flag flags PAL_USER) n
     ∧ palloc_get_multiple s flags n
       = if flag flags PAL_ASSERT then Panic else Ret (NULL, s)).
Proof. apply palloc_get_multiple_spec. Qed.

Lemma palloc_get_multiple_witness :
  ∃ r s', palloc_get_multiple (demo_pools 1) (Z.lor PAL_USER PAL_ZERO) 3 = Ret (r, s') ∧ r ≠ NULL
    ∧ got_pages (demo_pools 1) s' true true r 3.
Proof.
  destruct (palloc_get_multiple_correct (demo_pools 1) (Z.lor PAL_USER PAL_ZERO) 3)
    as [H|[H _]]; [by apply demo_palloc_wf|lia|exact H|].
  exfalso. apply (H 0); [lia|by vm_compute|]. apply (bool_decide_eq_true_1 _). by vm_compute.
Defined.

(** Freeing pages that are in use returns exactly those pages to the pool they
    came from: afterwards they are free, every other page is as it was, and no byte
    outside them has changed. *)
Theorem palloc_free_multiple_correct s u r n :
  palloc_wf s → 0 < n → in_pool (get_pool s u) r = true →
  r + 4096 * n ≤ pool_end (get_pool s u) →
  (∀ q, in_group r n q = true → page_used (get_pool s u) q = true) →
  ∃ s', palloc_free_multiple s r n = Ret s' ∧ palloc_wf s' ∧ same_geom s s'
    ∧ (∀ q, allocated s' q = if in_group r n q then false else allocated s q)
    ∧ (∀ x, x < r ∨ r + 4096 * n ≤ x → load8 (pmem s') x = load8 (pmem s) x).
Proof. apply palloc_free_multiple_spec. Qed.

Lemma palloc_free_multiple_witness :
  ∃ s', palloc_free_multiple (demo_pools 3) demo_pd 1 = Ret s' ∧ allocated s' demo_pd = false.
Proof.
  destruct (palloc_free_multiple_correct (demo_pools 3) false demo_pd 1)
    as (s' & E & _ & _ & Ha & _).
  - by apply demo_palloc_wf.
  - lia.
  - done.
  - done.
  - intros q. rewrite in_group_one by done. by intros ->%bool_decide_eq_true_1.
  - exists s'. split; [exact E|]. by rewrite Ha.
Defined.

(** ** Page directories *)
Section PagedirTheorems.
Context (init_page_dir init_ram_pages : Z).
Implicit Types (k : kstate) (pd va vp q : Z).

Lemma va_page va : 0 ≤ va < PHYS_BASE → user_page (pg_no va).
Proof. intros. by apply va_split. Qed.

(** Mapping page [vp] to an unused frame [q] either fails because no page is
    left for a page table, and then changes nothing, or succeeds, and then
    [pagedir_get_page] gives the address inside [q] for every address of the page,
    its earlier answer for every other user address, and every allocated page that
    is not a page table keeps its contents. *)
Theorem pagedir_set_get k pd vp q w :
  as_wf (ks k) pd → user_page vp → mapping (kmem k) pd vp = None →
  unused_frame (ks k) pd q → set_page_pre init_page_dir init_ram_pages pd q →
  let r := pagedir_set_page init_page_dir init_ram_pages k pd (4096 * vp) q w in
  (r = Ret (false, k) ∧ pool_full (ks k) false 1)
  ∨ ∃ k', r = Ret (true, k') ∧ as_wf (ks k') pd
    ∧ (∀ va, 0 ≤ va < PHYS_BASE →
         pagedir_get_page k' pd va
         = if decide (pg_no va = vp) then Ret (q + va mod 4096) else pagedir_get_page k pd va)
    ∧ ∀ p, allocated (ks k) p = true → ¬ is_table (kmem k) pd p →
        same_bytes (kmem k) (kmem k') p (p + 4096).
Proof.
  intros Hw Hv Hn Hu Hpre r.
  destruct (pagedir_set_page_spec init_page_dir init_ram_pages k pd vp q w)
    as [(k' & E & _ & Hr)|H]; try done; [|by left]. right. exists k'.
  split_and!; [done|apply (rm_wf _ _ _ _ Hr)| |apply (rm_data _ _ _ _ Hr)].
  intros va Hva. pose proof (va_page va Hva) as Hvp.
  rewrite !pagedir_get_page_spec by (done || apply (rm_wf _ _ _ _ Hr)).
  rewrite (rm_map _ _ _ _ Hr) by done. case_decide; [|done].
  assert (kpage_ok q) as Hq by (eapply allocated_kpage; [apply Hw|apply Hu]).
  by destruct (user_pte_page q w Hq) as (_ & -> & _).
Qed.

(** Clearing page [vp] always succeeds; afterwards [pagedir_get_page] gives null
    for its addresses and its earlier answer elsewhere, no page is allocated or
    freed, and if the TLB only held translations of present pages it still does. *)
Theorem pagedir_clear_get k pd vp :
  as_wf (ks k) pd → cr3_ok k → user_page vp →
  ∃ k', pagedir_clear_page init_page_dir k pd (4096 * vp) = Ret k' ∧ as_wf (ks k') pd
    ∧ (∀ va, 0 ≤ va < PHYS_BASE →
         pagedir_get_page k' pd va
         = if decide (pg_no va = vp) then Ret NULL else pagedir_get_page k pd va)
    ∧ (∀ q, allocated (ks k') q = allocated (ks k) q)
    ∧ (tlb_ok k pd → tlb_ok k' pd).
Proof.
  intros Hw Hc Hv. destruct (pagedir_clear_page_spec init_page_dir k pd vp) as (k' & E & Hr & Ha & Ht);
    try done. exists k'. split_and!; try done; [apply (rm_wf _ _ _ _ Hr)|].
  intros va Hva. pose proof (va_page va Hva) as Hvp.
  rewrite !pagedir_get_page_spec by (done || apply (rm_wf _ _ _ _ Hr)).
  rewrite (rm_map _ _ _ _ Hr) by done. by case_decide.
Qed.

(** A page that is present cannot be mapped again: the assertion in
    [pagedir_set_page] stops the machine. *)
Theorem pagedir_set_present k pd vp q w e :
  as_wf (ks k) pd → user_page vp → mapping (kmem k) pd vp = Some e →
  kpage_ok q → set_page_pre init_page_dir init_ram_pages pd q →
  pagedir_set_page init_page_dir init_ram_pages k pd (4096 * vp) q w = Panic.
Proof. apply pagedir_set_page_twice. Qed.
End PagedirTheorems.

(** The example machine with page 10 mapped to frame 1 of the kernel pool. *)
Lemma demo_mapped :
  ∃ k e, as_wf (ks k) demo_pd ∧ mapping (kmem k) demo_pd 10 = Some e ∧ cr3_ok k.
Proof.
  destruct (pagedir_set_page_spec demo_init_pd demo_ram_pages (demo_kernel 3) demo_pd 10
    3222282240 true) as [(k & _ & _ & Hr)|[_ H]];
    [by apply demo_as_wf|done|apply demo_mapping|apply demo_unused|done| |].
  - exists k, (user_pte 3222282240 true). split; [apply (rm_wf _ _ _ _ Hr)|].
    rewrite (rm_map _ _ _ _ Hr) by done. split; [done|].
    exists demo_pd. by rewrite (rm_cr3 _ _ _ _ Hr).
  - exfalso. apply (H 2); [lia|done|]. apply (bool_decide_eq_true_1 _). by vm_compute.
Qed.

Lemma pagedir_set_get_witness :
  ∃ k', pagedir_get_page k' demo_pd 40965 = Ret 3222282245.
Proof.
  destruct (pagedir_set_get demo_init_pd demo_ram_pages (demo_kernel 3) demo_pd 10 3222282240 true)
    as [[_ H]|(k' & _ & _ & Hg & _)];
    [by apply demo_as_wf|done|apply demo_mapping|apply demo_unused|done| |].
  - exfalso. apply (H 2); [lia|done|]. apply (bool_decide_eq_true_1 _). by vm_compute.
  - exists k'. by rewrite Hg.
Defined.

Lemma pagedir_clear_get_witness :
  ∃ k', pagedir_get_page k' demo_pd 40965 = Ret NULL.
Proof.
  destruct (pagedir_clear_get demo_init_pd (demo_kernel 3) demo_pd 10)
    as (k' & _ & _ & Hg & _); [by apply demo_as_wf|apply demo_cr3|done|].
  exists k'. by rewrite Hg.
Defined.

Lemma pagedir_set_present_witness :
  ∃ k, pagedir_set_page demo_init_pd demo_ram_pages k demo_pd (4096 * 10) 3222286336 true = Panic.
Proof.
  destruct demo_mapped as (k & e & Hw & He & _). exists k.
  by apply (pagedir_set_present demo_init_pd demo_ram_pages k demo_pd 10 3222286336 true e).
Defined.

(** ** The heap break *)



(** ** Page faults *)

(** C4: A fault on a user address, taken by the program or by the kernel serving its
    system call, never stops the kernel.  Either the handler returns, and then the
    access was one it takes for stack growth and nothing changed except that the
    faulting page may have become a zeroed writable page; or it ends the process
    with the address space as it was. *)
Theorem page_fault_correct init_page_dir init_ram_pages p user_frame f addr :
  space_ok init_page_dir init_ram_pages p → 0 ≤ addr < PHYS_BASE → user_fault p user_frame f →
  ∃ o, page_fault init_page_dir init_ram_pages p user_frame f addr = Ret o ∧
    match o with
    | Go p' => stack_access p user_frame f addr = true ∧ (p' = p ∨ grew_at p p' (pg_no addr))
    | Exit _ p' => unchanged p p'
    end.
Proof. apply page_fault_outcome. Qed.

(** A push of a user program just below a stack pointer at the top of the user
    address space. *)
Definition demo_push : intr_frame := Frame 3221225472 0 SEL_UCSEG 6.

Lemma page_fault_witness :
  ∃ p', page_fault demo_init_pd demo_ram_pages demo_proc None demo_push 3221225468 = Ret (Go p')
    ∧ (p' = demo_proc ∨ grew_at demo_proc p' 786431).
Proof.
  destruct (page_fault_correct demo_init_pd demo_ram_pages demo_proc None demo_push 3221225468)
    as (o & E & Ho); [apply proc_space_ok, demo_inv|done|done|].
  assert ((λ o, match o with Go _ => true | Exit _ _ => false end) <$>
    page_fault demo_init_pd demo_ram_pages demo_proc None demo_push 3221225468 = Ret true) as Eg
    by (vm_compute; reflexivity).
  rewrite E in Eg. destruct o as [p'|st p']; [|discriminate Eg].
  exists p'. exact (conj E (proj2 Ho)).
Defined.

(** A fault in kernel mode on an absent kernel page at or above the kernel's own
    stack pointer, which the handler's comments treat as growth of the kernel stack,
    always stops the machine: the lookup asserts a user address. *)
Theorem kernel_stack_fault_panics init_page_dir init_ram_pages p user_frame f addr :
  PHYS_BASE ≤ addr < 4294967296 → esp f ≤ addr →
  Z.land (error_code f) PF_P = 0 → Z.land (error_code f) PF_U = 0 →
  page_fault init_page_dir init_ram_pages p user_frame f addr = Panic.
Proof. apply page_fault_kernel_address. Qed.

Lemma kernel_stack_fault_witness :
  page_fault demo_init_pd demo_ram_pages demo_proc None (Frame 3222286336 0 SEL_KCSEG 2)
    3222286340 = Panic.
Proof. apply kernel_stack_fault_panics; done. Defined.

(** C39: A program can stop the kernel.  With its stack pointer at or below an
    address of the first page above the heap break, touching that address makes the
    fault handler map the page, since stack growth has no lower bound; the next
    [sbrk] that crosses into the page then fails the assertion of
    [pagedir_set_page], unless the user pool is empty. *)
Theorem stack_growth_breaks_sbrk init_page_dir init_ram_pages p p1 f addr inc :
  proc_inv init_page_dir init_ram_pages p → in_syscall (cur p) = false →
  Z.land (error_code f) PF_P = 0 → Z.land (error_code f) PF_U ≠ 0 → esp f ≤ addr →
  pg_no addr = page_above (heap_break (cur p)) → pg_no addr < 524288 →
  page_fault init_page_dir init_ram_pages p None f addr = Ret (Go p1) →
  0 < inc → heap_break (cur p) + inc < 2147483648 →
  page_above (heap_break (cur p)) < page_above (heap_break (cur p) + inc) →
  ¬ pool_full (ks (pk p1)) true 1 →
  syscall_sbrk init_page_dir init_ram_pages p1 inc = Panic.
Proof.
  intros Hi Hsys Hp Hu He Ea Eb Ef Hinc Hnb Hc Hfull.
  pose proof (page_above_range (heap_break (cur p))) as Hr.
  pose proof (pi_low _ _ _ Hi). pose proof (pi_high _ _ _ Hi).
  assert (0 < addr < PHYS_BASE) as Ha.
  { rewrite pg_no_div in Ea, Eb. unfold PHYS_BASE. Z.to_euclidean_division_equations. lia. }
  eapply (sbrk_over_stack_page _ _ p); try done. rewrite <- Ea.
  unfold page_fault in Ef. rewrite Hp, Hsys in Ef. cbn [negb Z.eqb andb] in Ef.
  destruct (Z.eqb_spec (Z.land (error_code f) PF_U) 0); [done|]. cbn [negb andb] in Ef.
  assert (is_user_vaddr addr = true) as Eu by (unfold is_user_vaddr; lia). rewrite Eu in Ef.
  destruct (Z.leb_spec (esp f) addr); [|lia].
  destruct (resolve_spec init_page_dir init_ram_pages p (Z.lor PAL_ZERO PAL_USER) addr
    (proc_space_ok _ _ _ Hi) Ha eq_refl eq_refl) as [(Hm & _)|[(_ & p' & E & Hg)|(_ & st & p' & E & _)]].
  - destruct Hm. apply (pi_gap _ _ _ Hi). lia.
  - rewrite Ef in E. by injection E as ->.
  - congruence.
Qed.

(** The stack pointer of the example program is the heap break. *)
Definition demo_low_stack : intr_frame := Frame 134524928 0 SEL_UCSEG 6.

Lemma stack_growth_witness :
  ∃ p1, page_fault demo_init_pd demo_ram_pages demo_proc None demo_low_stack 134524932 = Ret (Go p1)
    ∧ syscall_sbrk demo_init_pd demo_ram_pages p1 16 = Panic.
Proof.
  assert ((λ o, match o with Go p => Some (used_map (user_pool (ks (pk p)))) | _ => None end) <$>
    page_fault demo_init_pd demo_ram_pages demo_proc None demo_low_stack 134524932
    = Ret (Some (Bitmap 8 [1]))) as Eb by (vm_compute; reflexivity).
  destruct (page_fault demo_init_pd demo_ram_pages demo_proc None demo_low_stack 134524932)
    as [[p1|st p1]| |] eqn:E; [|discriminate Eb..].
  exists p1. split; [reflexivity|].
  apply (stack_growth_breaks_sbrk demo_init_pd demo_ram_pages demo_proc p1 demo_low_stack 134524932 16);
    [apply demo_inv|reflexivity|reflexivity|discriminate|vm_compute; discriminate|reflexivity
    |reflexivity|exact E|lia|reflexivity|reflexivity|].
  injection Eb as Eb. intros H. specialize (H 1 ltac:(lia)). cbn [get_pool] in H. rewrite Eb in H.
  apply H; [vm_compute; discriminate|]. apply (bool_decide_eq_true_1 _). by vm_compute.
Defined.
