(* ===== verification/Paging.v ===== *)
(** * The kernel's own page tables (threads/init.c: paging_init)

    At boot [paging_init] maps all physical memory at [PHYS_BASE], the kernel's code
    read-only.  The page directory it makes is the [init_page_dir] that the address
    spaces of processes start from. *)
From S2P Require Import Prelude Mem Bitmap Vaddr Palloc Pagedir KernelTheorems.

Section Paging.
(** The linker's symbols, and the amount of physical memory. *)
Context (_start _end_kernel_text init_ram_pages : Z).

Fixpoint paging_loop (fuel : nat) (k : kstate) (pd pt page : Z) : res kstate :=
  match fuel with
  | O => Stuck
  | S fuel =>
    if negb (page <? init_ram_pages) then Ret k else
    let paddr := u32 (page * PGSIZE) in
    vaddr ← ptov paddr;
    let pde_idx := pd_no vaddr in
    let pte_idx := pt_no vaddr in
    let in_kernel_text := (_start <=? vaddr) && (vaddr <? _end_kernel_text) in
    '(pt, k) ← (if load32 (kmem k) (pd + 4 * pde_idx) =? 0 then
                  '(pt, s) ← palloc_get_page (ks k) (Z.lor PAL_ASSERT PAL_ZERO);
                  e ← pde_create pt;
                  Ret (pt, kstore (with_ks k s) (pd + 4 * pde_idx) e)
                else Ret (pt, k));
    e ← pte_create_kernel vaddr (negb in_kernel_text);
    paging_loop fuel (kstore k (pt + 4 * pte_idx) e) pd pt (u32 (page + 1))
  end.
(** The page directory and the state. *)
Definition paging_init (k : kstate) : res (Z * kstate) :=
  '(pd, s) ← palloc_get_page (ks k) (Z.lor PAL_ASSERT PAL_ZERO);
  k ← paging_loop (S (Z.to_nat init_ram_pages)) (with_ks k s) pd NULL 0;
  pa ← vtop pd;
  Ret (pd, KState (ks k) pa ∅).

(** ** What the tables should be *)
Definition in_text (p : Z) : bool :=
  (_start <=? PHYS_BASE + 4096 * p) && (PHYS_BASE + 4096 * p <? _end_kernel_text).
(** The entry of physical page [p]: present, and writable unless it is code. *)
Definition kernel_pte (p : Z) : Z := 4096 * p + if in_text p then 1 else 3.

Lemma kernel_pte_range p : 0 ≤ p < 262144 → is_u32 (kernel_pte p).
Proof. intros H. unfold kernel_pte, is_u32. destruct (in_text p); lia. Qed.

(** The number of page tables for [n] pages. *)
Definition table_cnt (n : Z) : Z := (n + 1023) / 1024.

(** The entries of the first [n] pages are there; [tables] are the [cnt] page tables made so
    far, in order. *)
Record built (k0 : pstate) (pd n cnt : Z) (tables : list Z) (k : kstate) : Prop := {
  b_wf : palloc_wf (ks k);
  b_geom : same_geom k0 (ks k);
  b_alloc : ∀ q, allocated (ks k) q = true ↔ allocated k0 q = true ∨ q ∈ pd :: tables;
  b_fresh : ∀ q, q ∈ pd :: tables → allocated k0 q = false;
  b_nodup : NoDup (pd :: tables);
  b_len : Z.of_nat (length tables) = cnt;
  b_pde : ∀ j, 0 ≤ j < 1024 → pde_at (kmem k) pd j
    = if j <? 768 then 0 else match tables !! Z.to_nat (j - 768) with Some t => t - PHYS_BASE + 7 | None => 0 end;
  b_pte : ∀ p t, 0 ≤ p < n → tables !! Z.to_nat (p / 1024) = Some t →
    load32 (kmem k) (t + 4 * (p mod 1024)) = kernel_pte p;
  b_rest : ∀ x, (∀ q, q ∈ pd :: tables → x < q ∨ q + 4096 ≤ x) → load8 (kmem k) x = load8 (pmem k0) x;
}.

Lemma pool_not_full s q :
  palloc_wf s → in_pool (kernel_pool s) q = true → allocated s q = false → ¬ pool_full s false 1.
Proof.
  intros Hwf Hq Ha Hf. destruct (in_pool_idx _ _ (plw_kernel _ Hwf) Hq) as [Hr Eq].
  apply (Hf ((q - base (kernel_pool s)) / 4096)); cbn [get_pool]; [lia|lia|].
  intros i Hi. assert (i = (q - base (kernel_pool s)) / 4096) as -> by lia.
  unfold allocated, page_used in Ha. rewrite Hq in Ha. apply orb_false_iff in Ha as [Ha _]. exact Ha.
Qed.

(** Getting a zeroed page for the kernel while some page is free. *)
Lemma get_kernel_page s q :
  palloc_wf s → in_pool (kernel_pool s) q = true → allocated s q = false →
  ∃ r s', palloc_get_page s (Z.lor PAL_ASSERT PAL_ZERO) = Ret (r, s') ∧ got_pages s s' false true r 1
    ∧ kpage_ok r.
Proof.
  intros Hwf Hq Ha.
  destruct (palloc_get_multiple_spec s (Z.lor PAL_ASSERT PAL_ZERO) 1 Hwf) as [(r & s' & E & _ & Hg)|(Hf & _)];
    [lia| |by destruct (pool_not_full _ _ Hwf Hq Ha)].
  change (flag (Z.lor PAL_ASSERT PAL_ZERO) PAL_USER) with false in Hg.
  change (flag (Z.lor PAL_ASSERT PAL_ZERO) PAL_ZERO) with true in Hg.
  exists r, s'. split_and!; [exact E|done|].
  eapply allocated_kpage; [apply (gp_wf _ _ _ _ _ _ Hg)|].
  rewrite (gp_alloc _ _ _ _ _ _ Hg), in_group_one by apply Hg. by rewrite bool_decide_true.
Qed.
Lemma got_one s s' r q :
  got_pages s s' false true r 1 → allocated s' q = true ↔ allocated s q = true ∨ q = r.
Proof.
  intros Hg. rewrite (gp_alloc _ _ _ _ _ _ Hg), in_group_one by apply Hg.
  case_bool_decide; naive_solver.
Qed.
Lemma got_one_fresh s s' r : got_pages s s' false true r 1 → allocated s r = false.
Proof.
  intros Hg. apply (gp_fresh _ _ _ _ _ _ Hg). rewrite in_group_one by apply Hg. by rewrite bool_decide_true.
Qed.

Lemma pte_create_kernel_eq q w : kpage_ok q → pte_create_kernel q w = Ret (q - PHYS_BASE + if w then 3 else 1).
Proof.
  intros Hq. pose proof (kpage_phys q Hq) as Hm. unfold pte_create_kernel.
  rewrite pg_ofs_mod, ASSERT_true by (destruct Hq; lia). rewrite vtop_kpage, bind_Ret by done. f_equal.
  rewrite <- Z.lor_assoc. destruct w.
  - change (Z.lor PTE_P PTE_W) with 3. by apply lor_flags.
  - change (Z.lor PTE_P 0) with 1. by apply lor_flags.
Qed.

Section Steps.
Context (k0 : pstate) (pd : Z).
(** Enough pages of the kernel's pool are free. *)
Context (free : list Z) (Hnd : NoDup free).
Hypothesis Hfree : ∀ q, q ∈ free → in_pool (kernel_pool k0) q = true ∧ allocated k0 q = false.

Lemma built_page n c ts k q : built k0 pd n c ts k → q ∈ pd :: ts → kpage_ok q ∧ q mod 4096 = 0.
Proof using.
  intros B Hq. assert (kpage_ok q) as Hk; [|split; [done|apply Hk]].
  eapply allocated_kpage; [apply B|]. apply (b_alloc _ _ _ _ _ _ B). by right.
Qed.
Lemma built_apart n c ts k p q :
  built k0 pd n c ts k → p ∈ pd :: ts → q ∈ pd :: ts → p ≠ q → p + 4096 ≤ q ∨ q + 4096 ≤ p.
Proof using.
  intros B Hp Hq Hne. apply pages_apart; [by eapply built_page|by eapply built_page|done].
Qed.

Lemma same_geom_pool s s' q : same_geom s s' → in_pool (kernel_pool s') q = in_pool (kernel_pool s) q.
Proof using.
  intros H. destruct (H false) as [H1 H2]. cbn in H1, H2. unfold in_pool, pool_end. by rewrite H1, H2.
Qed.

(** A page is left for the next table. *)
Lemma built_free n c ts k :
  built k0 pd n c ts k → (S (length ts) < length free)%nat →
  ∃ q, in_pool (kernel_pool (ks k)) q = true ∧ allocated (ks k) q = false.
Proof using Hnd Hfree.
  intros B Hl.
  assert (∃ q, q ∈ free ∧ q ∉ pd :: ts) as (q & Hq & Hn).
  { destruct (decide (Exists (λ q, q ∉ pd :: ts) free)) as [He|He].
    - by apply Exists_exists in He.
    - exfalso. assert (free ⊆ pd :: ts) as Hs.
      { intros q Hq. destruct (decide (q ∈ pd :: ts)); [done|]. destruct He. apply Exists_exists. eauto. }
      apply NoDup_submseteq in Hs; [|done]. apply submseteq_length in Hs. cbn in Hs. lia. }
  destruct (Hfree q Hq) as [Hp Ha]. exists q. split; [by rewrite (same_geom_pool k0) by apply B|].
  apply not_true_iff_false. rewrite (b_alloc _ _ _ _ _ _ B). intros [?|?]; [congruence|done].
Qed.

(** A new table for the pages from [n] on. *)
Lemma built_table n ts k r s :
  built k0 pd n (n / 1024) ts k → 0 ≤ n < 262144 → n mod 1024 = 0 →
  got_pages (ks k) s false true r 1 → kpage_ok r →
  built k0 pd n (n / 1024 + 1) (ts ++ [r])
    (kstore (with_ks k s) (pd + 4 * (768 + n / 1024)) (r - PHYS_BASE + 7)).
Proof using.
  intros B Hn Hm Hg Hr. set (k' := kstore _ _ _).
  assert (0 ≤ n / 1024 < 256) as Hd by (Z.to_euclidean_division_equations; lia). pose proof (got_one_fresh _ _ _ Hg) as Hf.
  assert (Hlen : length ts = Z.to_nat (n / 1024)).
  { pose proof (b_len _ _ _ _ _ _ B) as Hl. lia. }
  assert (Hr' : r ∉ pd :: ts).
  { intros Hin. assert (allocated (ks k) r = true) by (apply (b_alloc _ _ _ _ _ _ B); by right). congruence. }
  assert (Hrk0 : allocated k0 r = false).
  { apply not_true_iff_false. intros E. assert (allocated (ks k) r = true) by (apply (b_alloc _ _ _ _ _ _ B); by left). congruence. }
  assert (Hm' : kmem k' = store32 (pmem s) (pd + 4 * (768 + n / 1024)) (r - PHYS_BASE + 7)) by done.
  destruct Hr as [Hra Hrb].
  assert (Hold : ∀ x, x < r ∨ r + 4096 ≤ x → load8 (pmem s) x = load8 (kmem k) x).
  { intros x Hx. apply (gp_mem _ _ _ _ _ _ Hg). lia. }
  assert (Hap : ∀ q, q ∈ pd :: ts → q + 4096 ≤ r ∨ r + 4096 ≤ q).
  { intros q Hq. apply pages_apart; [by eapply built_page|done|]. intros ->. done. }
  assert (Hpd : pd + 4096 ≤ r ∨ r + 4096 ≤ pd) by (apply Hap; left).
  split.
  - apply set_pmem_wf, Hg.
  - intros u. destruct (b_geom _ _ _ _ _ _ B u) as [E1 E2]. destruct (gp_geom _ _ _ _ _ _ Hg u) as [E3 E4].
    change (ks k') with (set_pmem s (kmem k')). destruct u; cbn in *; split; congruence.
  - intros q. change (allocated (ks k') q) with (allocated s q). rewrite (got_one _ _ _ _ Hg), (b_alloc _ _ _ _ _ _ B).
    rewrite !elem_of_cons, elem_of_app, list_elem_of_singleton. tauto.
  - intros q. rewrite elem_of_cons, elem_of_app, list_elem_of_singleton. intros [->|[Hq| ->]]; [..|done];
      apply (b_fresh _ _ _ _ _ _ B); [left|by right].
  - rewrite app_comm_cons. apply NoDup_app. split_and!; [apply B| |apply NoDup_singleton].
    intros q Hq ->%list_elem_of_singleton. done.
  - rewrite length_app. cbn. lia.
  - intros j Hj. unfold pde_at. rewrite Hm'. destruct (decide (j = 768 + n / 1024)) as [->|Hne].
    + rewrite load32_store32_eq, u32_id by (unfold is_u32, PHYS_BASE in *; lia).
      destruct (Z.ltb_spec (768 + n / 1024) 768); [Z.to_euclidean_division_equations; lia|].
      replace (Z.to_nat (768 + n / 1024 - 768)) with (length ts) by (rewrite Hlen; f_equal; lia).
      by rewrite lookup_app_r, Nat.sub_diag by lia.
    + rewrite load32_store32_ne by lia.
      assert (load32 (pmem s) (pd + 4 * j) = pde_at (kmem k) pd j) as ->.
      { apply load32_same. intros x Hx. apply Hold. lia. }
      rewrite (b_pde _ _ _ _ _ _ B) by done. destruct (Z.ltb_spec j 768); [done|].
      destruct (decide (Z.to_nat (j - 768) < length ts)%nat) as [Hlt|Hge]; [by rewrite lookup_app_l|].
      rewrite (lookup_ge_None_2 ts), (lookup_ge_None_2 (ts ++ [r])); [done|rewrite length_app; cbn|lia].
      rewrite Hlen in *. Z.to_euclidean_division_equations. lia.
  - intros p t Hp Ht. rewrite Hm'.
    rewrite lookup_app_l in Ht by (rewrite Hlen; Z.to_euclidean_division_equations; lia).
    assert (Hin : t ∈ pd :: ts) by (right; by eapply list_elem_of_lookup_2).
    assert (pd ≠ t) as Hpt.
    { intros ->. pose proof (b_nodup _ _ _ _ _ _ B) as Hn2. apply NoDup_cons in Hn2 as [[] _].
      by eapply list_elem_of_lookup_2. }
    pose proof (Z.mod_pos_bound p 1024 ltac:(lia)). pose proof (Hap t Hin).
    pose proof (built_apart _ _ _ _ pd t B ltac:(left) Hin Hpt).
    assert (0 ≤ n / 1024 < 256) by (Z.to_euclidean_division_equations; lia).
    rewrite load32_store32_ne by lia. rewrite <- (b_pte _ _ _ _ _ _ B p t Hp Ht).
    apply load32_same. intros x Hx. apply Hold. lia.
  - intros x Hx. rewrite Hm'. pose proof (Hx pd ltac:(left)).
    assert (0 ≤ n / 1024 < 256) by (Z.to_euclidean_division_equations; lia).
    rewrite load8_store32_ne by lia. rewrite Hold.
    + apply (b_rest _ _ _ _ _ _ B). intros q Hq. apply Hx. rewrite app_comm_cons, elem_of_app. by left.
    + apply Hx. rewrite app_comm_cons, elem_of_app. right. by left.
Qed.

(** The entry of page [n] in the table that is there for it. *)
Lemma built_entry n ts k t e :
  built k0 pd n (n / 1024 + 1) ts k → 0 ≤ n < 262144 → ts !! Z.to_nat (n / 1024) = Some t → e = kernel_pte n →
  built k0 pd (n + 1) (n / 1024 + 1) ts (kstore k (t + 4 * (n mod 1024)) e).
Proof using.
  intros B Hn Ht ->. set (k' := kstore _ _ _).
  assert (Hm : kmem k' = store32 (kmem k) (t + 4 * (n mod 1024)) (kernel_pte n)) by done.
  assert (Hin : t ∈ pd :: ts) by (right; by eapply list_elem_of_lookup_2).
  assert (pd ≠ t) as Hpt.
  { intros ->. pose proof (b_nodup _ _ _ _ _ _ B) as Hn2. apply NoDup_cons in Hn2 as [[] _].
    by eapply list_elem_of_lookup_2. }
  pose proof (Z.mod_pos_bound n 1024 ltac:(lia)).
  pose proof (built_apart _ _ _ _ pd t B ltac:(left) Hin Hpt).
  split; try apply B.
  - apply set_pmem_wf, B.
  - intros j Hj. rewrite <- (b_pde _ _ _ _ _ _ B j Hj). unfold pde_at. rewrite Hm.
    apply load32_store32_ne. lia.
  - intros p t' Hp Ht'. rewrite Hm. destruct (decide (p = n)) as [->|Hne].
    + replace t' with t by congruence. rewrite load32_store32_eq. apply u32_id, kernel_pte_range. lia.
    + rewrite <- (b_pte _ _ _ _ _ _ B p t') by (done || lia). apply load32_store32_ne.
      pose proof (Z.mod_pos_bound p 1024 ltac:(lia)).
      destruct (decide (t' = t)) as [->|Hne'].
      * assert (Z.to_nat (p / 1024) = Z.to_nat (n / 1024)) as E.
        { eapply NoDup_lookup; [|exact Ht'|exact Ht]. pose proof (b_nodup _ _ _ _ _ _ B) as Hn2.
          by apply NoDup_cons in Hn2 as [_ Hn2]. }
        assert (p mod 1024 ≠ n mod 1024) by (Z.to_euclidean_division_equations; lia). lia.
      * assert (Hin' : t' ∈ pd :: ts) by (right; by eapply list_elem_of_lookup_2).
        pose proof (built_apart _ _ _ _ t' t B Hin' Hin Hne'). lia.
  - intros x Hx. rewrite Hm, load8_store32_ne by (specialize (Hx t Hin); lia). by apply B.
Qed.

Lemma vaddr_of n : 0 ≤ n < 262144 →
  ptov (u32 (n * PGSIZE)) = Ret (PHYS_BASE + 4096 * n)
  ∧ pd_no (PHYS_BASE + 4096 * n) = 768 + n / 1024 ∧ pt_no (PHYS_BASE + 4096 * n) = n mod 1024
  ∧ kpage_ok (PHYS_BASE + 4096 * n).
Proof using.
  intros Hn. change PGSIZE with 4096. rewrite pd_no_div, pt_no_div. unfold ptov, kpage_ok, PHYS_BASE in *.
  rewrite (u32_id (n * 4096)) by (unfold is_u32; lia). rewrite ASSERT_true by lia. rewrite u32_id by (unfold is_u32; lia).
  split_and!; [f_equal; lia|Z.to_euclidean_division_equations; lia..].
Qed.

Lemma paging_loop_spec : 0 ≤ init_ram_pages ≤ 262144 →
  table_cnt init_ram_pages < Z.of_nat (length free) →
  ∀ fuel n ts k pt,
    built k0 pd n (table_cnt n) ts k → 0 ≤ n ≤ init_ram_pages → (init_ram_pages - n < Z.of_nat fuel) →
    (n mod 1024 ≠ 0 → last ts = Some pt) →
    ∃ ts' k', paging_loop fuel k pd pt n = Ret k'
      ∧ built k0 pd init_ram_pages (table_cnt init_ram_pages) ts' k'.
Proof using Hnd Hfree.
  intros Hram Hcnt. induction fuel as [|fuel IH]; intros n ts k pt B Hn Hf Hpt; [lia|]. cbn [paging_loop].
  destruct (Z.ltb_spec n init_ram_pages) as [Hlt|Hge]; cbn [negb].
  2:{ replace n with init_ram_pages in B by lia. by exists ts, k. }
  destruct (vaddr_of n ltac:(lia)) as (-> & Epd & Ept & Hk). cbn [mbind res_bind].
  rewrite Epd, Ept. fold (in_text n). fold (pde_at (kmem k) pd (768 + n / 1024)).
  assert (0 ≤ n / 1024 < 256) as Hd by (Z.to_euclidean_division_equations; lia).
  pose proof (b_len _ _ _ _ _ _ B) as Hlen.
  assert (Hstep : ∃ t ts1 k1,
    (if pde_at (kmem k) pd (768 + n / 1024) =? 0 then
       '(pt, s) ← palloc_get_page (ks k) (Z.lor PAL_ASSERT PAL_ZERO);
       e ← pde_create pt;
       Ret (pt, kstore (with_ks k s) (pd + 4 * (768 + n / 1024)) e)
     else Ret (pt, k)) = Ret (t, k1)
    ∧ built k0 pd n (n / 1024 + 1) ts1 k1 ∧ ts1 !! Z.to_nat (n / 1024) = Some t ∧ last ts1 = Some t).
  { rewrite (b_pde _ _ _ _ _ _ B) by lia. destruct (Z.ltb_spec (768 + n / 1024) 768); [lia|].
    replace (768 + n / 1024 - 768) with (n / 1024) by lia.
    unfold table_cnt in Hlen. destruct (decide (n mod 1024 = 0)) as [Hm|Hm].
    - rewrite lookup_ge_None_2 by (Z.to_euclidean_division_equations; lia). cbn [Z.eqb].
      assert (table_cnt n = n / 1024) as E by (unfold table_cnt; Z.to_euclidean_division_equations; lia).
      rewrite E in B. assert (n / 1024 < table_cnt init_ram_pages).
      { unfold table_cnt. Z.to_euclidean_division_equations. lia. }
      destruct (built_free _ _ _ _ B) as (q & Hq & Ha); [unfold table_cnt in E; lia|].
      destruct (get_kernel_page _ _ (b_wf _ _ _ _ _ _ B) Hq Ha) as (r & s & -> & Hg & Hr).
      cbn [mbind res_bind]. rewrite pde_create_eq by done. cbn [mbind res_bind].
      exists r, (ts ++ [r]). eexists. split_and!; [done|apply built_table; [done|lia|done..]| |apply last_snoc].
      replace (Z.to_nat (n / 1024)) with (length ts) by (unfold table_cnt in E; lia).
      by rewrite lookup_app_r, Nat.sub_diag by lia.
    - assert (table_cnt n = n / 1024 + 1) as E by (unfold table_cnt; Z.to_euclidean_division_equations; lia).
      rewrite E in B. specialize (Hpt Hm).
      assert (Ht : ts !! Z.to_nat (n / 1024) = Some pt).
      { rewrite last_lookup in Hpt. rewrite <- Hpt. f_equal. unfold table_cnt in E. lia. }
      rewrite Ht. destruct (built_page _ _ _ _ pt B) as [[_ Hp] _]; [right; by eapply list_elem_of_lookup_2|].
      destruct (Z.eqb_spec (pt - PHYS_BASE + 7) 0); [unfold PHYS_BASE in *; lia|]. by exists pt, ts, k. }
  destruct Hstep as (t & ts1 & k1 & -> & B1 & Ht & Hlast). cbn [mbind res_bind].
  rewrite pte_create_kernel_eq by done. cbn [mbind res_bind].
  rewrite u32_id by (unfold is_u32; lia).
  assert (table_cnt (n + 1) = n / 1024 + 1) as E by (unfold table_cnt; Z.to_euclidean_division_equations; lia).
  apply (IH (n + 1) ts1); [|lia|lia|done]. rewrite E. apply built_entry; [done|lia|done|].
  unfold kernel_pte. destruct (in_text n); cbn [negb]; lia.
Qed.
End Steps.

Lemma built_start k pd s :
  got_pages (ks k) s false true pd 1 → kpage_ok pd → built (ks k) pd 0 0 [] (with_ks k s).
Proof.
  intros Hg Hp. pose proof (got_one_fresh _ _ _ Hg) as Hf. split; cbn [with_ks ks]; try apply Hg.
  - intros q. rewrite (got_one _ _ _ _ Hg), list_elem_of_singleton. done.
  - by intros q ->%list_elem_of_singleton.
  - apply NoDup_singleton.
  - done.
  - intros j Hj. rewrite lookup_nil. unfold pde_at, kmem. cbn [with_ks ks].
    assert (Hz : ∀ x, pd ≤ x < pd + 4096 → load8 (pmem s) x = 0).
    { intros x Hx. apply (gp_zero _ _ _ _ _ _ Hg); [done|lia]. }
    unfold load32. rewrite !Hz by lia. by destruct (j <? 768).
  - intros p t Hp'. lia.
  - intros x Hx. apply (gp_mem _ _ _ _ _ _ Hg). specialize (Hx pd ltac:(left)). lia.
Qed.

(** If the kernel's pool has a free page for the directory and for each four megabytes of
    memory, [paging_init] returns with the new directory active, and the directory maps
    every page of physical memory at its place above [PHYS_BASE], writable exactly when it
    holds no kernel code, and no page below; pages that were in use keep their contents. *)
Theorem paging_init_correct k free :
  palloc_wf (ks k) → 0 ≤ init_ram_pages ≤ 262144 → NoDup free →
  (∀ q, q ∈ free → in_pool (kernel_pool (ks k)) q = true ∧ allocated (ks k) q = false) →
  table_cnt init_ram_pages < Z.of_nat (length free) →
  ∃ pd k', paging_init k = Ret (pd, k') ∧ palloc_wf (ks k') ∧ kpage_ok pd
    ∧ cr3 k' = pd - PHYS_BASE ∧ tlb k' = ∅
    ∧ (∀ p, 0 ≤ p < init_ram_pages →
         mapping (kmem k') pd (786432 + p) = Some (4096 * p + if in_text p then PTE_P else Z.lor PTE_P PTE_W))
    ∧ (∀ vp, user_page vp → mapping (kmem k') pd vp = None)
    ∧ (∀ q x, allocated (ks k) q = true → q ≤ x < q + 4096 →
         allocated (ks k') q = true ∧ load8 (kmem k') x = load8 (kmem k) x).
Proof.
  intros Hwf Hram Hnd Hfree Hcnt.
  assert (0 ≤ table_cnt init_ram_pages) by (unfold table_cnt; Z.to_euclidean_division_equations; lia).
  destruct free as [|q0 free']; [cbn in Hcnt; lia|]. set (free := q0 :: free') in *.
  destruct (Hfree q0 ltac:(left)) as [Hq Ha].
  destruct (get_kernel_page _ _ Hwf Hq Ha) as (pd & s & E & Hg & Hpd).
  pose proof (built_start k pd s Hg Hpd) as B0. unfold paging_init. rewrite E. cbn [mbind res_bind].
  destruct (paging_loop_spec (ks k) pd free Hnd Hfree Hram Hcnt (S (Z.to_nat init_ram_pages)) 0 [] (with_ks k s) NULL
    B0 ltac:(lia) ltac:(lia) ltac:(done)) as (ts & k' & -> & B). cbn [mbind res_bind].
  rewrite vtop_kpage by done. cbn [mbind res_bind]. eexists pd, _. split; [done|].
  cbn [ks cr3 tlb]. change (kmem {| ks := ks k'; cr3 := pd - PHYS_BASE; tlb := ∅ |}) with (kmem k').
  split_and!; [apply B|done|done|done|..].
  - intros p Hp. assert (0 ≤ p / 1024 < 256) by (Z.to_euclidean_division_equations; lia).
    assert ((786432 + p) / 1024 = 768 + p / 1024 ∧ (786432 + p) mod 1024 = p mod 1024) as [E1 E2]
      by (split; Z.to_euclidean_division_equations; lia).
    destruct (lookup_lt_is_Some_2 ts (Z.to_nat (p / 1024))) as [t Ht].
    { pose proof (b_len _ _ _ _ _ _ B). unfold table_cnt in *. Z.to_euclidean_division_equations. lia. }
    destruct (built_page _ _ _ _ _ _ t B) as [Hk _]; [right; by eapply list_elem_of_lookup_2|].
    assert (pte_at (kmem k') pd (786432 + p) = kernel_pte p) as Ep.
    { unfold pte_at, pte_addr. rewrite E1, E2, (b_pde _ _ _ _ _ _ B) by lia.
      destruct (Z.ltb_spec (768 + p / 1024) 768); [lia|].
      replace (768 + p / 1024 - 768) with (p / 1024) by lia. rewrite Ht.
      destruct (Z.eqb_spec (t - PHYS_BASE + 7) 0); [destruct Hk; unfold PHYS_BASE in *; lia|].
      rewrite page_of_create by (done || lia). by apply (b_pte _ _ _ _ _ _ B). }
    unfold mapping. rewrite Ep. unfold kernel_pte.
    rewrite (land_page_flags (4096 * p)); [|rewrite Z.mul_comm; apply Z_mod_mult|destruct (in_text p); lia|unfold PTE_P; lia].
    by destruct (in_text p).
  - intros vp Hvp. destruct (user_page_split _ Hvp) as [Hd _]. unfold mapping, pte_at.
    rewrite (b_pde _ _ _ _ _ _ B) by lia. by destruct (Z.ltb_spec (vp / 1024) 768); [|lia].
  - intros q x Hqa Hx. split; [apply (b_alloc _ _ _ _ _ _ B); by left|].
    apply (b_rest _ _ _ _ _ _ B). intros q' Hq'. pose proof (b_fresh _ _ _ _ _ _ B q' Hq').
    destruct (allocated_kpage _ _ Hwf Hqa) as [Hqm _]. destruct (built_page _ _ _ _ _ _ q' B Hq') as [_ Hq'm].
    destruct (pages_apart q q' Hqm Hq'm); [congruence|lia..].
Qed.
End Paging.

(** A machine with four megabytes, the kernel's code from 0xc0020000 to 0xc0030000. *)
Lemma paging_init_witness :
  ∃ pd k', paging_init 3221356544 3221422080 1024 (demo_kernel 1) = Ret (pd, k')
    ∧ mapping (kmem k') pd (786432 + 5) = Some 20483 ∧ mapping (kmem k') pd (786432 + 33) = Some 135169.
Proof.
  destruct (paging_init_correct 3221356544 3221422080 1024 (demo_kernel 1) [demo_pd + 4096; demo_pd + 8192])
    as (pd & k' & E & _ & _ & _ & _ & Hm & _).
  - by apply demo_palloc_wf.
  - lia.
  - apply (bool_decide_eq_true_1 _). by vm_compute.
  - intros q [->| ->%list_elem_of_singleton]%elem_of_cons; by vm_compute.
  - by vm_compute.
  - exists pd, k'. split_and!; [exact E|rewrite (Hm 5) by lia; by vm_compute|rewrite (Hm 33) by lia; by vm_compute].
Defined.
