(* ===== verification/KernelHeap.v ===== *)
(** * The kernel under the user heap

    The [sbrk] system call of [Sbrk] satisfies the interface [UserMalloc] was
    verified against, so the theorems on [malloc], [free] and [realloc] hold for
    programs on this kernel.  The memory a process sees is the contents of the
    frames its page directory maps; [user_view] ties the two together. *)
From S2P Require Import Prelude Mem KList UserMalloc UserHeap.
From S2P Require Import Bitmap Vaddr Palloc Pagedir UserPages Sbrk KernelTheorems.

(** The byte at user address [va], read through the page tables. *)
Definition user_byte (p : proc) (va : Z) : option Z :=
  match mapping (kmem (pk p)) (pagedir (cur p)) (va / 4096) with
  | Some e => Some (load8 (kmem (pk p)) (page_of e + va mod 4096))
  | None => None
  end.

(** [m] is the memory the process sees. *)
Definition user_view (p : proc) (m : mem) : Prop :=
  ∀ va b, 0 ≤ va < PHYS_BASE → user_byte p va = Some b → load8 m va = b.

Section Kernel.
(** [heap_base] is where the heap segment of the process starts. *)
Context (init_page_dir init_ram_pages heap_base : Z).
Abbreviation sbrk := (syscall_sbrk init_page_dir init_ram_pages).
Definition kinv (p : proc) : Prop :=
  proc_inv init_page_dir init_ram_pages p ∧ heap_start (cur p) = heap_base.

(** A process in a state that satisfies the kernel's invariant. *)
Definition kproc : Type := {p : proc | kinv p}.

Definition sbrk_range (inc : Z) : Prop := -2147483648 ≤ inc < 2147483648.

#[export] Instance sbrk_range_dec inc : Decision (sbrk_range inc).
Proof. unfold sbrk_range. apply _. Defined.

(** The call with the invariant carried along; it cannot panic. *)
(** No outcome of the call moves the start of the segment. *)
Lemma sbrk_post_start p inc r p' : sbrk_post p inc r p' → heap_start (cur p') = heap_start (cur p).
Proof.
  unfold sbrk_post. repeat case_decide; [by intros [_ ->]..|].
  intros [_ [(_ & -> & _)|(_ & _ & -> & _)]]; done.
Qed.

Lemma sbrk_returns (p : kproc) inc x :
  sbrk_range inc → sbrk (`p) inc = x →
  match x with Ret (_, p') => kinv p' | _ => False end.
Proof.
  intros Hinc E. destruct (sbrk_spec _ _ (`p) inc (proj1 (proj2_sig p)) Hinc)
    as (r1 & p1 & E1 & Hi & Hpost).
  rewrite <- E, E1. split; [exact Hi|]. rewrite (sbrk_post_start _ _ _ _ Hpost).
  apply (proj2_sig p).
Qed.

Definition kproc_sbrk (p : kproc) (inc : Z) (Hinc : sbrk_range inc) : Z * kproc :=
  match sbrk (`p) inc as x
    return match x with Ret (_, p') => kinv p' | _ => False end → Z * kproc with
  | Ret (r, p') => λ H, (r, exist _ p' H)
  | _ => λ H, False_rect _ H
  end (sbrk_returns p inc _ Hinc eq_refl).

Lemma kproc_sbrk_spec (p : kproc) inc Hinc r (p' : kproc) :
  kproc_sbrk p inc Hinc = (r, p') → sbrk (`p) inc = Ret (r, `p') ∧ sbrk_post (`p) inc r (`p').
Proof.
  intros E.
  destruct (sbrk_spec _ _ (`p) inc (proj1 (proj2_sig p)) Hinc) as (r1 & p1 & E1 & Hi & Hpost).
  assert (r = r1 ∧ `p' = p1) as [-> ->]; [|done]. revert E. unfold kproc_sbrk.
  generalize (sbrk_returns p inc _ Hinc eq_refl). rewrite E1.
  intros H E. by injection E as <- <-.
Qed.

#[export] Instance kernel_sbrk : Sbrk kproc := {
  k_break p := heap_break (cur (`p));
  k_sbrk p m inc :=
    match decide (sbrk_range inc) with
    | left H =>
      let '(r, p') := kproc_sbrk p inc H in
      let lo := 4096 * page_above (heap_break (cur (`p))) in
      let hi := 4096 * page_above (heap_break (cur (`p'))) in
      (r, fill m lo 0 (Z.to_nat (hi - lo)), p')
    | right _ => (SBRK_ERROR, m, p)
    end;
}.

(** What the call returns, as the interface sees it. *)
Lemma kernel_sbrk_inv (p : kproc) m inc r m' (p' : kproc) :
  0 < inc < 2147483648 → k_sbrk p m inc = (r, m', p') →
  sbrk_moved (`p) (heap_break (cur (`p)) + inc) r (`p')
  ∧ m' = fill m (4096 * page_above (heap_break (cur (`p)))) 0
           (Z.to_nat (4096 * page_above (heap_break (cur (`p')))
                      - 4096 * page_above (heap_break (cur (`p)))))
  ∨ r = SBRK_ERROR ∧ m' = m ∧ `p' = `p.
Proof.
  intros Hinc. cbn [k_sbrk kernel_sbrk].
  destruct (decide (sbrk_range inc)) as [H|H]; [|unfold sbrk_range in H; lia].
  destruct (kproc_sbrk p inc H) as [r1 p1] eqn:E. intros [= <- <- <-].
  destruct (kproc_sbrk_spec _ _ _ _ _ E) as [_ Hpost]. unfold sbrk_post in Hpost.
  rewrite decide_False in Hpost by lia. case_decide.
  - right. destruct Hpost as [-> ->]. by rewrite Z.sub_diag.
  - left. auto.
Qed.

Lemma break_not_error (p : kproc) : heap_break (cur (`p)) ≠ SBRK_ERROR.
Proof. pose proof (pi_high _ _ _ (proj1 (proj2_sig p))). change SBRK_ERROR with 4294967295. lia. Qed.

#[export] Instance kernel_laws : SbrkLaws kproc.
Proof.
  split.
  - intros p m inc m' p' Hinc E.
    destruct (kernel_sbrk_inv _ _ _ _ _ _ Hinc E) as [[[_ Hm] ->]|(_ & -> & Ep)];
      [|cbn; by rewrite Ep].
    destruct Hm as [[Er _]|(_ & _ & Ec & _)]; [by destruct (break_not_error p)|].
    cbn. by rewrite Ec, Z.sub_diag.
  - intros p m inc r m' p' Hinc E Hr.
    destruct (kernel_sbrk_inv _ _ _ _ _ _ Hinc E) as [[[_ Hm] ->]|(? & _)]; [|done].
    destruct Hm as [(-> & Ec & _)|(_ & ? & _)]; [|done]. cbn.
    pose proof (pi_high _ _ _ (proj1 (proj2_sig p'))) as Hh. rewrite Ec in *. cbn in *.
    split_and!; [done|done|lia|]. intros x Hx. rewrite load8_fill, decide_False; [done|].
    intros [Hlo _]. unfold page_above in Hlo. Z.to_euclidean_division_equations. lia.
Qed.

(** The memory the interface speaks about stays the memory the process sees. *)
Lemma user_view_sbrk (p : kproc) m inc r m' (p' : kproc) :
  0 < inc < 2147483648 → k_sbrk p m inc = (r, m', p') →
  user_view (`p) m → user_view (`p') m'.
Proof.
  intros Hinc E Hv.
  destruct (kernel_sbrk_inv _ _ _ _ _ _ Hinc E) as [[[Hst Hm] ->]|(_ & -> & ->)]; [|done].
  intros va b Hva. unfold user_byte.
  assert (user_page (va / 4096)) as Hvp.
  { unfold user_page, PHYS_BASE in *. Z.to_euclidean_division_equations. lia. }
  assert (cur (`p') = cur (`p) ∨ cur (`p') = set_heap_break (cur (`p)) (heap_break (cur (`p)) + inc))
    as Hc by (destruct Hm as [(_ & ? & _)|(_ & _ & ? & _)]; auto).
  assert (pagedir (cur (`p')) = pagedir (cur (`p))) as -> by (destruct Hc as [->| ->]; done).
  set (pd := pagedir (cur (`p))) in *.
  assert (∀ e, mapping (kmem (pk (`p))) pd (va / 4096) = Some e →
    mapping (kmem (pk (`p'))) pd (va / 4096) = Some e →
    load8 m va = load8 (kmem (pk (`p'))) (page_of e + va mod 4096)) as Hsame.
  { intros e He He'. rewrite (st_data _ _ _ Hst _ e Hvp He He')
      by (pose proof (Z.mod_pos_bound va 4096); lia).
    apply Hv; [done|]. unfold user_byte. fold pd. by rewrite He. }
  pose proof (page_above_mono (heap_break (cur (`p))) (heap_break (cur (`p)) + inc) ltac:(lia)) as Hmono.
  destruct Hm as [(_ & -> & Hpages)|(_ & _ & -> & Hs & _)].
  - specialize (Hpages _ Hvp). cbn [heap_break set_heap_break]. fold pd in Hpages.
    rewrite load8_fill. case_decide as Hd1.
    + destruct Hpages as (q & Hq & -> & Hz). destruct (user_pte_page q true Hq) as (_ & -> & _).
      intros [= <-]. rewrite decide_True by (Z.to_euclidean_division_equations; lia).
      symmetry. apply Hz. pose proof (Z.mod_pos_bound va 4096). lia.
    + rewrite decide_False in Hpages by lia. rewrite Hpages.
      destruct (mapping (kmem (pk (`p))) pd (va / 4096)) as [e|] eqn:He; [|done].
      intros [= <-]. rewrite decide_False by (Z.to_euclidean_division_equations; lia). auto.
  - rewrite Z.sub_diag. cbn [Z.to_nat fill]. specialize (Hs _ Hvp). fold pd in Hs. rewrite Hs.
    destruct (mapping (kmem (pk (`p))) pd (va / 4096)) as [e|] eqn:He; [|done].
    intros [= <-]. auto.
Qed.
End Kernel.

(** A store by the process: the byte of the frame behind a writable user address. *)
Definition user_store (p : proc) (va v : Z) : option proc :=
  match mapping (kmem (pk p)) (pagedir (cur p)) (va / 4096) with
  | Some e =>
    if Z.land e PTE_W =? 0 then None else
    let k := pk p in
    Some (Proc (with_ks k (set_pmem (ks k) (store8 (kmem k) (page_of e + va mod 4096) v))) (cur p))
  | None => None
  end.

Section View.
Context (p : proc) (va v : Z) (p' : proc).
Context (Hw : as_wf (ks (pk p)) (pagedir (cur p))) (Hva : 0 ≤ va < PHYS_BASE).
Context (Hst : user_store p va v = Some p').

Lemma va_user_page x : 0 ≤ x < PHYS_BASE → user_page (x / 4096).
Proof. unfold user_page, PHYS_BASE. intros. Z.to_euclidean_division_equations. lia. Qed.

(** The store goes to a page that is no page table, so the mapping stays. *)
Lemma user_store_mapping vp :
  user_page vp →
  mapping (kmem (pk p')) (pagedir (cur p)) vp = mapping (kmem (pk p)) (pagedir (cur p)) vp.
Proof using All.
  intros Hv. unfold user_store in Hst.
  destruct (mapping _ _ (va / 4096)) as [e|] eqn:Em; [|done].
  destruct (_ =? 0); [done|]. injection Hst as <-. cbn.
  apply (mapping_same (ks (pk p))); [done| |done]. intros q Hq x Hx. apply load8_store8_ne.
  destruct (aw_frame _ _ Hw _ _ (va_user_page va Hva) Em) as [Ha Hnt].
  destruct (allocated_kpage _ _ (aw_palloc _ _ Hw) Ha) as [Hm _].
  destruct (table_align _ _ _ Hw Hq) as [Hm' _].
  pose proof (Z.mod_pos_bound va 4096).
  destruct (pages_apart _ _ Hm Hm'); [|lia..]. by intros E; rewrite E in Hnt.
Qed.

Lemma user_store_view m : user_view p m → user_view p' (store8 m va v).
Proof using All.
  intros Hview x b Hx. assert (cur p' = cur p) as Ec.
  { unfold user_store in Hst. destruct (mapping _ _ _); [|done].
    destruct (_ =? 0); [done|]. by injection Hst as <-. }
  unfold user_byte. rewrite Ec, user_store_mapping by (by apply va_user_page).
  destruct (mapping (kmem (pk p)) (pagedir (cur p)) (x / 4096)) as [e|] eqn:Em; [|done].
  intros [= <-]. unfold user_store in Hst.
  destruct (mapping _ _ (va / 4096)) as [e0|] eqn:Em0; [|done].
  destruct (_ =? 0); [done|]. injection Hst as <-. cbn.
  pose proof (va_user_page va Hva) as Hv0. pose proof (va_user_page x Hx) as Hv1.
  rewrite !load8_store8. case_decide as E; [subst x; rewrite Em in Em0; injection Em0 as ->|].
  - by rewrite decide_True.
  - rewrite decide_False; [apply Hview; [done|]; unfold user_byte; by rewrite Em|].
    intros Ea. apply E. destruct (frame_ok _ _ _ _ Hw Hv0 Em0) as [_ [Hm0 _]].
    destruct (frame_ok _ _ _ _ Hw Hv1 Em) as [_ [Hm1 _]].
    assert (page_of e0 = page_of e) as Ep by (Z.to_euclidean_division_equations; lia).
    pose proof (aw_frame_inj _ _ Hw _ _ _ _ Hv0 Hv1 Em0 Em Ep).
    rewrite Ep in Ea. Z.to_euclidean_division_equations. lia.
Qed.
End View.

(** ** Programs on this kernel *)
Section Programs.
Context (init_page_dir init_ram_pages heap_base : Z).

(** C7: The kernel discharges what the user-level allocator assumes of it, down to
    the frames: when a growing [sbrk] has changed the process memory from [m] to
    [m'] in the sense of the interface, then reading any mapped user address through
    the page tables gives the byte of [m'], provided it gave that of [m] before. *)
Theorem kernel_sbrk_view (p : kproc init_page_dir init_ram_pages heap_base) m inc r m' p' :
  0 < inc < 2147483648 → k_sbrk p m inc = (r, m', p') →
  user_view (`p) m → user_view (`p') m'.
Proof. apply user_view_sbrk. Qed.

(** A store of the process through its page tables is a store to the memory it
    sees: no other user address changes, whatever frames the pages are in. *)
Theorem user_store_correct p va v p' m :
  as_wf (ks (pk p)) (pagedir (cur p)) → 0 ≤ va < PHYS_BASE → user_store p va v = Some p' →
  user_view p m → user_view p' (store8 m va v).
Proof. intros Hw Hva Hs. by apply user_store_view. Qed.

(** C6: Every byte of every block a program owns, after any sequence of calls to
    [malloc], of sizes with [size + 16] below 2^31, and [free] on this kernel, lies in a page
    that is present and writable in its page directory. *)
Theorem live_blocks_mapped MM_LIST fuel
    (s : ustate (kproc init_page_dir init_ram_pages heap_base)) live p size a :
  134217728 < Z.of_nat fuel → reach MM_LIST heap_base fuel s live →
  (p, size) ∈ live → p ≤ a < p + size →
  ∃ e, mapping (kmem (pk (proj1_sig (u_k s)))) (pagedir (cur (proj1_sig (u_k s)))) (a / 4096) = Some e
    ∧ Z.land e PTE_W ≠ 0.
Proof.
  intros Hf Hr Hp Ha. destruct (live_block _ _ _ Hf _ _ _ _ Hr Hp) as (bs & _ & _ & _ & H1 & H2).
  destruct (proj2_sig (u_k s)) as [Hi Hs]. apply (pi_heap _ _ _ Hi).
  rewrite Hs. cbn [k_break kernel_sbrk] in H2. unfold page_above.
  Z.to_euclidean_division_equations. lia.
Qed.
End Programs.

(** *** On the example machine *)
Definition demo_kproc : kproc demo_init_pd demo_ram_pages 134524928 :=
  exist _ demo_proc (conj demo_inv eq_refl).

Lemma demo_view : user_view demo_proc ∅.
Proof. intros va b _. unfold user_byte. by rewrite demo_mapping. Qed.

Lemma kernel_sbrk_view_witness :
  ∃ (p' : kproc demo_init_pd demo_ram_pages 134524928) r m',
    k_sbrk demo_kproc ∅ 10000 = (r, m', p') ∧ user_view (`p') m'.
Proof.
  destruct (k_sbrk demo_kproc ∅ 10000) as [[r m'] p'] eqn:E. exists p', r, m'.
  split; [reflexivity|].
  apply (kernel_sbrk_view demo_init_pd demo_ram_pages 134524928 demo_kproc ∅ 10000 r m' p');
    [lia|exact E|apply demo_view].
Defined.

(** The example process after it has grown its heap by 10000 bytes. *)
Lemma demo_grown :
  ∃ p m, proc_inv demo_init_pd demo_ram_pages p ∧ user_view p m
    ∧ is_Some (user_store p 134524930 7).
Proof.
  destruct (k_sbrk demo_kproc ∅ 10000) as [[r m'] p'] eqn:E. exists (`p'), m'.
  pose proof (proj1 (proj2_sig p')) as Hi. split; [exact Hi|].
  split; [exact (user_view_sbrk demo_init_pd demo_ram_pages 134524928 demo_kproc ∅ 10000 r m' p'
    ltac:(lia) E demo_view)|].
  assert (cur (`p') = set_heap_break demo_thread 134534928) as Ec.
  { assert (fst (fst (k_sbrk demo_kproc ∅ 10000)) = 134524928) as Er by (vm_compute; reflexivity).
    rewrite E in Er. cbn [fst] in Er. subst r.
    destruct (kernel_sbrk_inv demo_init_pd demo_ram_pages 134524928 demo_kproc ∅ 10000 134524928
      m' p' ltac:(lia) E) as [[[_ [(_ & Hc & _)|(_ & Hr & _)]] _]|(Hr & _)];
      [exact Hc|discriminate Hr..]. }
  destruct (pi_heap _ _ _ Hi 32843) as (e & He & Hwr);
    [rewrite Ec; vm_compute; split; congruence|].
  unfold user_store. change (134524930 / 4096) with 32843. rewrite He.
  destruct (Z.eqb_spec (Z.land e PTE_W) 0); [contradiction|]. eexists. reflexivity.
Qed.

Lemma user_store_witness :
  ∃ p p' m, user_store p 134524930 7 = Some p' ∧ user_view p' (store8 m 134524930 7).
Proof.
  destruct demo_grown as (p & m & Hi & Hv & p' & Hs). exists p, p', m. split; [exact Hs|].
  apply (user_store_correct p 134524930 7 p' m); [apply (pi_as _ _ _ Hi)|done|exact Hs|exact Hv].
Defined.

Lemma live_blocks_mapped_witness :
  ∃ (s : ustate (kproc demo_init_pd demo_ram_pages 134524928)) e,
    mapping (kmem (pk (proj1_sig (u_k s)))) (pagedir (cur (proj1_sig (u_k s)))) 32843 = Some e.
Proof.
  set (fuel := (2 + Z.to_nat 134217728)%nat).
  set (s0 := UState ∅ demo_kproc false).
  assert (reach 16 134524928 fuel s0 []) as H0 by (apply reach_start; done).
  assert (fst <$> malloc 16 fuel s0 100 = Ret 134524944) as E'.
  { unfold fuel. generalize (Z.to_nat 134217728). intros n. vm_compute. reflexivity. }
  destruct (malloc 16 fuel s0 100) as [[p s]| |] eqn:E; [|discriminate E'..].
  injection E' as ->.
  pose proof (reach_malloc 16 134524928 fuel _ _ 100 _ _ H0 ltac:(lia) ltac:(lia) E) as Hr.
  destruct (live_blocks_mapped demo_init_pd demo_ram_pages 134524928 16 fuel s
    [(134524944, 100)] 134524944 100 134524944) as (e & He & _);
    [unfold fuel; lia|exact Hr|left|lia|].
  exists s, e. exact He.
Defined.
