(* ===== verification/KMalloc.v ===== *)
(** * The kernel's block allocator (threads/malloc.c)

    Requests up to 1 kB come from blocks of a power of two, cut from pages called arenas;
    larger ones get pages of their own.  Descriptors, arena headers and the free lists lie
    in the kernel's memory: a [struct desc] is its block size, the blocks per arena, the
    header of the free list and a lock; a [struct arena] is a magic number, the address of
    its descriptor (null for a big block) and a count.  The locks serialise the callers and
    are left out. *)
From S2P Require Import Prelude Mem KList Bitmap Vaddr Palloc.

(** ** Layout *)
Definition DESC_SIZE : Z := 48.
Definition ARENA_SIZE : Z := 12.
Definition ARENA_MAGIC : Z := 2589232877.
Definition MAX_DESCS : Z := 10.

Definition d_block_size (m : mem) (d : Z) : Z := load32 m d.
Definition d_blocks_per_arena (m : mem) (d : Z) : Z := load32 m (d + 4).
Definition d_free_list (d : Z) : Z := d + 8.

Definition a_magic (m : mem) (a : Z) : Z := load32 m a.
Definition a_desc (m : mem) (a : Z) : Z := load32 m (a + 4).
Definition a_free_cnt (m : mem) (a : Z) : Z := load32 m (a + 8).
Definition set_arena (m : mem) (a desc free_cnt : Z) : mem :=
  store32 (store32 (store32 m a ARENA_MAGIC) (a + 4) desc) (a + 8) free_cnt.
Definition set_free_cnt (m : mem) (a n : Z) : mem := store32 m (a + 8) n.

(** The page allocator with the kernel's memory, and the number of descriptors. *)
Record kheap := KHeap { kh : pstate; desc_cnt : Z }.
Definition hmem (h : kheap) : mem := pmem (kh h).
Definition set_hmem (h : kheap) (m : mem) : kheap := KHeap (set_pmem (kh h) m) (desc_cnt h).

Section KMalloc.
(** The address of the array [descs]. *)
Context (descs : Z).
Definition desc_at (i : Z) : Z := descs + DESC_SIZE * i.

(** ** Initialisation *)
Fixpoint init_loop (fuel : nat) (h : kheap) (block_size : Z) : res kheap :=
  match fuel with
  | O => Stuck
  | S fuel =>
    if block_size <? PGSIZE / 2 then
      let d := desc_at (desc_cnt h) in
      let h := KHeap (kh h) (desc_cnt h + 1) in
      ASSERT (desc_cnt h <=? MAX_DESCS);;
      let m := store32 (hmem h) d block_size in
      let m := store32 m (d + 4) ((PGSIZE - ARENA_SIZE) / block_size) in
      m ← list_init m (d_free_list d);
      init_loop fuel (set_hmem h m) (u32 (block_size * 2))
    else Ret h
  end.
Definition malloc_init (h : kheap) : res kheap := init_loop 32 h 16.

(** ** Arenas and blocks *)
Definition block_to_arena (m : mem) (b : Z) : res Z :=
  let a := pg_round_down b in
  ASSERT (negb (a =? NULL));;
  ASSERT (a_magic m a =? ARENA_MAGIC);;
  ASSERT ((a_desc m a =? NULL)
          || (u32 (pg_ofs b - ARENA_SIZE) mod d_block_size m (a_desc m a) =? 0));;
  ASSERT (negb (a_desc m a =? NULL) || (pg_ofs b =? ARENA_SIZE));;
  Ret a.

Definition arena_to_block (m : mem) (a idx : Z) : res Z :=
  ASSERT (negb (a =? NULL));;
  ASSERT (a_magic m a =? ARENA_MAGIC);;
  ASSERT (idx <? d_blocks_per_arena m (a_desc m a));;
  Ret (u32 (a + ARENA_SIZE + idx * d_block_size m (a_desc m a))).

(** ** [malloc] *)

(** The first descriptor whose blocks are large enough. *)
Fixpoint find_desc (n : nat) (m : mem) (i size : Z) : option Z :=
  match n with
  | O => None
  | S n => if size <=? d_block_size m (desc_at i) then Some (desc_at i) else find_desc n m (i + 1) size
  end.

(** The new arena's blocks from [i] on go to the free list. *)
Fixpoint fill_arena (n : nat) (m : mem) (d a i : Z) : res mem :=
  match n with
  | O => Ret m
  | S n =>
    b ← arena_to_block m a i;
    m ← list_push_back m (d_free_list d) b;
    fill_arena n m d a (i + 1)
  end.

Definition malloc_big (h : kheap) (size : Z) : res (Z * kheap) :=
  let page_cnt := DIV_ROUND_UP (u32 (size + ARENA_SIZE)) PGSIZE in
  '(a, s) ← palloc_get_multiple (kh h) 0 page_cnt;
  let h := KHeap s (desc_cnt h) in
  if a =? NULL then Ret (NULL, h) else
  Ret (u32 (a + ARENA_SIZE), set_hmem h (set_arena (hmem h) a NULL page_cnt)).

(** A new arena when the free list is empty; false when there is no page for one. *)
Definition refill (h : kheap) (d : Z) : res (bool * kheap) :=
  empty ← list_empty (hmem h) (d_free_list d);
  if negb empty then Ret (true, h) else
  '(a, s) ← palloc_get_page (kh h) 0;
  let h := KHeap s (desc_cnt h) in
  if a =? NULL then Ret (false, h) else
  let n := d_blocks_per_arena (hmem h) d in
  m ← fill_arena (Z.to_nat n) (set_arena (hmem h) a d n) d a 0;
  Ret (true, set_hmem h m).

Definition take_block (h : kheap) (d : Z) : res (Z * kheap) :=
  '(b, m) ← list_pop_front (hmem h) (d_free_list d);
  a ← block_to_arena m b;
  Ret (b, set_hmem h (set_free_cnt m a (u32 (a_free_cnt m a - 1)))).

Definition malloc (h : kheap) (size : Z) : res (Z * kheap) :=
  if size =? 0 then Ret (NULL, h) else
  match find_desc (Z.to_nat (desc_cnt h)) (hmem h) 0 size with
  | None => malloc_big h size
  | Some d =>
    '(ok, h) ← refill h d;
    if negb ok then Ret (NULL, h) else take_block h d
  end.

Definition calloc (h : kheap) (a b : Z) : res (Z * kheap) :=
  let size := u32 (a * b) in
  if (size <? a) || (size <? b) then Ret (NULL, h) else
  '(p, h) ← malloc h size;
  if p =? NULL then Ret (p, h) else
  '(_, m) ← memset (hmem h) p 0 size;
  Ret (p, set_hmem h m).

Definition block_size (m : mem) (block : Z) : res Z :=
  a ← block_to_arena m block;
  let d := a_desc m a in
  Ret (if negb (d =? NULL) then d_block_size m d else u32 (PGSIZE * a_free_cnt m a - pg_ofs block)).

(** ** [free] *)
Fixpoint drain_arena (n : nat) (m : mem) (a i : Z) : res mem :=
  match n with
  | O => Ret m
  | S n =>
    b ← arena_to_block m a i;
    '(_, m) ← list_remove m b;
    drain_arena n m a (i + 1)
  end.

Definition free (h : kheap) (p : Z) : res kheap :=
  if p =? NULL then Ret h else
  a ← block_to_arena (hmem h) p;
  let d := a_desc (hmem h) a in
  if negb (d =? NULL) then
    '(_, m) ← memset (hmem h) p 204 (d_block_size (hmem h) d);
    m ← list_push_front m (d_free_list d) p;
    let m := set_free_cnt m a (u32 (a_free_cnt m a + 1)) in
    if d_blocks_per_arena m d <=? a_free_cnt m a then
      ASSERT (a_free_cnt m a =? d_blocks_per_arena m d);;
      m ← drain_arena (Z.to_nat (d_blocks_per_arena m d)) m a 0;
      s ← palloc_free_page (set_pmem (kh h) m) a;
      Ret (KHeap s (desc_cnt h))
    else Ret (set_hmem h m)
  else
    s ← palloc_free_multiple (kh h) a (a_free_cnt (hmem h) a);
    Ret (KHeap s (desc_cnt h)).

Definition realloc (h : kheap) (old_block new_size : Z) : res (Z * kheap) :=
  if new_size =? 0 then h ← free h old_block; Ret (NULL, h) else
  '(new_block, h) ← malloc h new_size;
  if negb (old_block =? NULL) && negb (new_block =? NULL) then
    old_size ← block_size (hmem h) old_block;
    let min_size := if new_size <? old_size then new_size else old_size in
    '(_, m) ← memcpy (hmem h) new_block old_block min_size;
    h ← free (set_hmem h m) old_block;
    Ret (new_block, h)
  else Ret (new_block, h).
End KMalloc.
