(* ===== verification/KBlocks.v ===== *)
(** * The invariant of the kernel's block allocator

    A ghost state [heap] names the arenas with their descriptors, the blocks on each free
    list, and the big blocks.  [layout] ties it to the kernel's memory and to the page
    allocator; [counted] says that each arena counts its free blocks. *)
From S2P Require Import Prelude Mem KList Bitmap Vaddr Palloc Pagedir KMalloc.

(** ** Geometry of arenas *)
Definition bsize (i : Z) : Z := 16 * 2 ^ i.
Definition per_arena (i : Z) : Z := 4084 / bsize i.
Definition blk (i a k : Z) : Z := a + 12 + k * bsize i.
Definition is_block (i a b : Z) : Prop := ∃ k, 0 ≤ k < per_arena i ∧ b = blk i a k.
Definition page (b : Z) : Z := 4096 * (b / 4096).

Lemma bsize_bounds i : 0 ≤ i < 7 → 16 ≤ bsize i ≤ 1024 ∧ 3 ≤ per_arena i ∧ per_arena i * bsize i ≤ 4084.
Proof.
  intros Hi. assert (i = 0 ∨ i = 1 ∨ i = 2 ∨ i = 3 ∨ i = 4 ∨ i = 5 ∨ i = 6) as Hc by lia.
  destruct_or! Hc; subst; vm_compute; split_and!; intros [=].
Qed.

Lemma block_bounds i a b : 0 ≤ i < 7 → is_block i a b → a + 12 ≤ b ∧ b + bsize i ≤ a + 4096.
Proof.
  intros Hi (k & Hk & ->). destruct (bsize_bounds i Hi) as (? & ? & ?). unfold blk. nia.
Qed.
Lemma blocks_apart i a b b' :
  0 ≤ i < 7 → is_block i a b → is_block i a b' → b ≠ b' → b + bsize i ≤ b' ∨ b' + bsize i ≤ b.
Proof.
  intros Hi (k & Hk & ->) (k' & Hk' & ->) Hne. destruct (bsize_bounds i Hi) as (? & ? & ?). unfold blk in *.
  assert (k < k' ∨ k' < k) as [Hlt|Hlt] by (destruct (Z.lt_trichotomy k k') as [|[->|]]; [by left|done|by right]); nia.
Qed.
Lemma page_block i a b : 0 ≤ i < 7 → a mod 4096 = 0 → is_block i a b → page b = a.
Proof.
  intros Hi Ha Hb. apply block_bounds in Hb as [? ?]; [|done]. destruct (bsize_bounds i Hi) as (? & _).
  unfold page. Z.to_euclidean_division_equations; lia.
Qed.

(** ** Ghost state *)
Record heap := Heap { arenas : gmap Z Z; flists : gmap Z (list Z); bigs : gmap Z Z }.
Definition frees (g : heap) (i : Z) : list Z := default [] (flists g !! i).
Definition set_frees (g : heap) (i : Z) (xs : list Z) : heap :=
  Heap (arenas g) (<[i := xs]> (flists g)) (bigs g).

Lemma frees_set g i j xs : frees (set_frees g i xs) j = if decide (j = i) then xs else frees g j.
Proof.
  unfold frees, set_frees. cbn. case_decide as E; [subst; by rewrite lookup_insert_eq|].
  by rewrite lookup_insert_ne by congruence.
Qed.
Lemma set_frees_twice g i xs ys : set_frees (set_frees g i xs) i ys = set_frees g i ys.
Proof. unfold set_frees. cbn. by rewrite insert_insert_eq. Qed.

(** The blocks clients own, with their sizes. *)
Definition live (g : heap) (b n : Z) : Prop :=
  (∃ a i, arenas g !! a = Some i ∧ is_block i a b ∧ b ∉ frees g i ∧ n = bsize i)
  ∨ (∃ a c, bigs g !! a = Some c ∧ b = a + 12 ∧ n = 4096 * c - 12).

Definition free_count (xs : list Z) (a : Z) : Z := Z.of_nat (length (filter (λ b, page b = a) xs)).

Section Blocks.
Context (descs : Z).
Local Abbreviation desc_at := (desc_at descs).

Record layout (h : kheap) (g : heap) : Prop := {
  ly_palloc : palloc_wf (kh h);
  ly_cnt : desc_cnt h = 7;
  ly_descs : 0 < descs ∧ descs + 480 ≤ 4294967296;
  ly_apart : ∀ u, descs + 480 ≤ base (get_pool (kh h) u) ∨ pool_end (get_pool (kh h) u) ≤ descs;
  ly_desc : ∀ i, 0 ≤ i < 7 →
    d_block_size (hmem h) (desc_at i) = bsize i ∧ d_blocks_per_arena (hmem h) (desc_at i) = per_arena i;
  ly_list : ∀ i, 0 ≤ i < 7 → dll (hmem h) (d_free_list (desc_at i)) (frees g i);
  ly_free : ∀ i b, 0 ≤ i < 7 → b ∈ frees g i → ∃ a, arenas g !! a = Some i ∧ is_block i a b;
  ly_arena : ∀ a i, arenas g !! a = Some i → 0 ≤ i < 7
    ∧ in_pool (kernel_pool (kh h)) a = true ∧ allocated (kh h) a = true
    ∧ a_magic (hmem h) a = ARENA_MAGIC ∧ a_desc (hmem h) a = desc_at i;
  ly_big : ∀ a n, bigs g !! a = Some n → 0 < n < 1048576
    ∧ in_pool (kernel_pool (kh h)) a = true ∧ a + 4096 * n ≤ pool_end (kernel_pool (kh h))
    ∧ (∀ q, in_group a n q = true → allocated (kh h) q = true ∧ arenas g !! q = None)
    ∧ a_magic (hmem h) a = ARENA_MAGIC ∧ a_desc (hmem h) a = NULL ∧ a_free_cnt (hmem h) a = n;
  ly_bigs : ∀ a n a' n', bigs g !! a = Some n → bigs g !! a' = Some n' → a ≠ a' →
    a + 4096 * n ≤ a' ∨ a' + 4096 * n' ≤ a;
}.

Definition counted (h : kheap) (g : heap) : Prop :=
  ∀ a i, arenas g !! a = Some i → a_free_cnt (hmem h) a = free_count (frees g i) a.

Definition kheap_inv (h : kheap) (g : heap) : Prop := layout h g ∧ counted h g.

(** ** Where things are *)
Section Where.
Context (h : kheap) (g : heap) (Hl : layout h g).

Lemma arena_place a i : arenas g !! a = Some i →
  0 ≤ i < 7 ∧ a mod 4096 = 0 ∧ 3221225472 ≤ a ∧ a + 4096 ≤ 4294967296
  ∧ (descs + 480 ≤ a ∨ a + 4096 ≤ descs).
Proof using Hl.
  intros Ha. destruct (ly_arena _ _ Hl a i Ha) as (Hi & Hin & _).
  pose proof (plw_kernel _ (ly_palloc _ _ Hl)) as Hp. pose proof (in_pool_idx _ _ Hp Hin) as [Hx Ex].
  apply in_pool_spec in Hin as (Hm & Hlo & Hhi). pose proof (pw_low _ Hp) as Hlow. pose proof (pw_high _ Hp) as Hhigh.
  pose proof (ly_apart _ _ Hl false) as Hap. cbn [get_pool] in Hap. unfold PHYS_BASE, pool_end in *.
  split_and!; try done; lia.
Qed.

Lemma arenas_apart a i a' i' : arenas g !! a = Some i → arenas g !! a' = Some i' → a ≠ a' →
  a + 4096 ≤ a' ∨ a' + 4096 ≤ a.
Proof using Hl.
  intros Ha Ha'. destruct (arena_place a i Ha) as (_ & ? & _). destruct (arena_place a' i' Ha') as (_ & ? & _).
  by apply pages_apart.
Qed.

Lemma big_place a n : bigs g !! a = Some n →
  0 < n < 1048576 ∧ a mod 4096 = 0 ∧ 3221225472 ≤ a ∧ a + 4096 * n ≤ 4294967296
  ∧ (descs + 480 ≤ a ∨ a + 4096 * n ≤ descs).
Proof using Hl.
  intros Ha. destruct (ly_big _ _ Hl a n Ha) as (Hn & Hin & Hend & _).
  pose proof (plw_kernel _ (ly_palloc _ _ Hl)) as Hp.
  apply in_pool_spec in Hin as (Hm & Hlo & Hhi). pose proof (pw_low _ Hp) as Hlow. pose proof (pw_high _ Hp) as Hhigh.
  pose proof (ly_apart _ _ Hl false) as Hap. cbn [get_pool] in Hap. unfold PHYS_BASE, pool_end in *.
  split_and!; try done; lia.
Qed.

Lemma arena_big_apart a i a' n : arenas g !! a = Some i → bigs g !! a' = Some n →
  a + 4096 ≤ a' ∨ a' + 4096 * n ≤ a.
Proof using Hl.
  intros Ha Ha'. destruct (arena_place a i Ha) as (_ & Hm & _). destruct (big_place a' n Ha') as (Hn & Hm' & _).
  destruct (ly_big _ _ Hl a' n Ha') as (_ & _ & _ & Hg & _).
  destruct (decide (a' ≤ a < a' + 4096 * n)) as [Hin|].
  - destruct (Hg a) as [_ HN]; [|congruence]. unfold in_group. rewrite bool_decide_true by done. lia.
  - Z.to_euclidean_division_equations; lia.
Qed.

Lemma frees_nodup i : 0 ≤ i < 7 → NoDup (frees g i).
Proof using Hl.
  intros Hi. pose proof (apart_NoDup _ (chain_apart _ _ (ly_list _ _ Hl i Hi))) as Hn.
  apply NoDup_cons in Hn as [_ Hn]. by apply NoDup_app in Hn as [? _].
Qed.

(** Live blocks are in the kernel's half of the address space, outside the descriptors and
    the arena headers, and do not overlap. *)
Lemma live_place b n : live g b n → 3221225472 ≤ b ∧ 0 < n ∧ b + n ≤ 4294967296.
Proof using Hl.
  intros [(a & i & Ha & Hb & _ & ->)|(a & c & Ha & -> & ->)].
  - destruct (arena_place a i Ha) as (Hi & ? & ? & ? & ?). destruct (bsize_bounds i Hi) as (? & _).
    apply block_bounds in Hb as [? ?]; [lia|done].
  - destruct (big_place a c Ha) as (? & ? & ? & ? & ?). lia.
Qed.
Lemma live_disjoint b n b' n' : live g b n → live g b' n' → b ≠ b' → b + n ≤ b' ∨ b' + n' ≤ b.
Proof using Hl.
  intros [(a & i & Ha & Hb & _ & ->)|(a & c & Ha & -> & ->)] [(a' & i' & Ha' & Hb' & _ & ->)|(a' & c' & Ha' & -> & ->)] Hne.
  - destruct (arena_place a i Ha) as (Hi & _). destruct (arena_place a' i' Ha') as (Hi' & _).
    destruct (decide (a = a')) as [<-|Hn].
    + assert (i' = i) as -> by congruence. by eapply blocks_apart.
    + apply block_bounds in Hb as [? ?], Hb' as [? ?]; [|done..].
      destruct (arenas_apart a i a' i' Ha Ha' Hn); lia.
  - destruct (arena_place a i Ha) as (Hi & _). apply block_bounds in Hb as [? ?]; [|done].
    destruct (arena_big_apart a i a' c' Ha Ha'); lia.
  - destruct (arena_place a' i' Ha') as (Hi & _). apply block_bounds in Hb' as [? ?]; [|done].
    destruct (arena_big_apart a' i' a c Ha' Ha); lia.
  - destruct (ly_bigs _ _ Hl a c a' c' Ha Ha'); [congruence|lia|lia].
Qed.

(** ** Changes inside one descriptor's list *)

(** The bytes of free list [i] and of its arenas, their magic and descriptor words apart. *)
Definition list_area (i x : Z) : Prop :=
  desc_at i + 8 ≤ x < desc_at i + 24 ∨ ∃ a, arenas g !! a = Some i ∧ a + 8 ≤ x < a + 4096.

Lemma desc_outside i j x : 0 ≤ i < 7 → 0 ≤ j < 7 →
  desc_at j ≤ x < desc_at j + 8 ∨ (i ≠ j ∧ desc_at j ≤ x < desc_at j + 24) → ¬ list_area i x.
Proof using Hl.
  intros Hi Hj Hx [Hx'|(a & Ha & Hx')]; unfold KMalloc.desc_at, DESC_SIZE in *; [lia|].
  destruct (arena_place a i Ha) as (_ & _ & _ & _ & ?). lia.
Qed.
Lemma header_outside i a j x : arenas g !! a = Some j → 0 ≤ i < 7 →
  a ≤ x < a + 8 ∨ (j ≠ i ∧ a ≤ x < a + 4096) → ¬ list_area i x.
Proof using Hl.
  intros Ha Hi Hx [Hx'|(a' & Ha' & Hx')].
  - destruct (arena_place a j Ha) as (_ & _ & _ & _ & ?). unfold KMalloc.desc_at, DESC_SIZE in *. lia.
  - destruct (decide (a = a')) as [<-|Hn]; [assert (j = i) by congruence; lia|].
    destruct (arenas_apart a j a' i Ha Ha' Hn); lia.
Qed.
Lemma big_outside i a n x : bigs g !! a = Some n → 0 ≤ i < 7 → a ≤ x < a + 4096 * n → ¬ list_area i x.
Proof using Hl.
  intros Ha Hi Hx [Hx'|(a' & Ha' & Hx')].
  - destruct (big_place a n Ha) as (_ & _ & _ & _ & ?). unfold KMalloc.desc_at, DESC_SIZE in *. lia.
  - destruct (arena_big_apart a' i a n Ha' Ha); lia.
Qed.

Lemma layout_keep i xs m' :
  0 ≤ i < 7 → (∀ x, ¬ list_area i x → load8 m' x = load8 (hmem h) x) →
  dll m' (d_free_list (desc_at i)) xs → (∀ b, b ∈ xs → ∃ a, arenas g !! a = Some i ∧ is_block i a b) →
  layout (set_hmem h m') (set_frees g i xs).
Proof using Hl.
  intros Hi Hm Hd Hx. split; cbn [set_hmem kh desc_cnt arenas bigs hmem pmem set_pmem]; rewrite ?frees_set.
  - apply set_pmem_wf, Hl.
  - apply Hl.
  - apply Hl.
  - apply (ly_apart _ _ Hl).
  - intros j Hj. destruct (ly_desc _ _ Hl j Hj) as [<- <-]. unfold d_block_size, d_blocks_per_arena.
    split; apply load32_same; intros x Hr; apply Hm, (desc_outside i j x Hi Hj); lia.
  - intros j Hj. rewrite frees_set. case_decide as E; [by subst|]. apply (dll_same (hmem h)); [|by apply (ly_list _ _ Hl)].
    intros n Hn x Hr. apply Hm. unfold nodes, d_free_list, head_of, tail_of in Hn.
    rewrite elem_of_cons, elem_of_app, list_elem_of_singleton in Hn. destruct Hn as [->|[Hn| ->]].
    + apply (desc_outside i j x Hi Hj). lia.
    + destruct (ly_free _ _ Hl j n Hj Hn) as (a & Ha & Hb).
      apply (header_outside i a j x Ha Hi). apply block_bounds in Hb as [? ?]; [|done].
      destruct (bsize_bounds j Hj) as (? & _). lia.
    + apply (desc_outside i j x Hi Hj). lia.
  - intros j b Hj. rewrite frees_set. case_decide as E; [subst; apply Hx|by apply (ly_free _ _ Hl)].
  - intros a j Ha. destruct (ly_arena _ _ Hl a j Ha) as (Hj & ? & ? & Hw1 & Hw2).
    split; [done|]. split; [done|]. split; [done|]. rewrite <- Hw1, <- Hw2.
    split; apply load32_same; intros x Hr; apply Hm, (header_outside i a j x Ha Hi); lia.
  - intros a n Ha. destruct (ly_big _ _ Hl a n Ha) as (Hn & ? & ? & ? & Hw1 & Hw2 & Hw3).
    split; [done|]. split; [done|]. split; [done|]. split; [done|]. 
    assert (∀ y, y = a ∨ y = a + 4 ∨ y = a + 8 → load32 m' y = load32 (hmem h) y) as Hs.
    { intros y Hy. apply load32_same. intros x Hr. apply Hm, (big_outside i a n x Ha Hi). lia. }
    unfold a_magic, a_desc, a_free_cnt in *. rewrite !Hs by auto. done.
  - apply (ly_bigs _ _ Hl).
Qed.

(** *** List operations *)

(** The bytes a list operation writes: the header of list [i] and the links of blocks. *)
Definition touched (i : Z) (xs : list Z) (x : Z) : Prop :=
  desc_at i + 8 ≤ x < desc_at i + 24 ∨ ∃ b, b ∈ xs ∧ b ≤ x < b + 8.
Definition blocks_of (i : Z) (xs : list Z) : Prop :=
  ∀ b, b ∈ xs → ∃ a, arenas g !! a = Some i ∧ is_block i a b.

Lemma touched_area i xs x : 0 ≤ i < 7 → blocks_of i xs → touched i xs x → list_area i x.
Proof using Hl.
  intros Hi Hb [Hx|(b & Hin & Hx)]; [by left|right]. destruct (Hb b Hin) as (a & Ha & Hk).
  apply block_bounds in Hk as [? ?]; [|done]. destruct (bsize_bounds i Hi) as (? & _). exists a. split; [done|lia].
Qed.
Lemma outside_touched i xs m m' x :
  same_outside (nodes (d_free_list (desc_at i)) xs) m m' → ¬ touched i xs x → load8 m' x = load8 m x.
Proof.
  intros Hs Hn. apply Hs. unfold nodes, d_free_list, head_of, tail_of, touched in *.
  apply Forall_cons. split; [lia|]. apply Forall_app. split; [|apply Forall_singleton; lia].
  apply Forall_forall. intros b Hb. destruct (decide (b ≤ x < b + 8)); [|lia]. destruct Hn. right. by exists b.
Qed.

Lemma layout_list i xs m' :
  0 ≤ i < 7 → dll m' (d_free_list (desc_at i)) xs → blocks_of i xs →
  (∃ ys, blocks_of i ys ∧ ∀ x, ¬ touched i ys x → load8 m' x = load8 (hmem h) x) →
  layout (set_hmem h m') (set_frees g i xs).
Proof using Hl.
  intros Hi Hd Hb (ys & Hys & Hm). apply layout_keep; try done.
  intros x Hx. apply Hm. contradict Hx. by eapply touched_area.
Qed.

Lemma new_node a i b :
  arenas g !! a = Some i → is_block i a b → b ∉ frees g i →
  node_ok b ∧ Forall (disj b) (nodes (d_free_list (desc_at i)) (frees g i)).
Proof using Hl.
  intros Ha Hb Hn. destruct (arena_place a i Ha) as (Hi & ? & ? & ? & Hap).
  destruct (bsize_bounds i Hi) as (? & _). pose proof (block_bounds i a b Hi Hb) as [? ?].
  split; [unfold node_ok; lia|]. unfold nodes, d_free_list, head_of, tail_of, KMalloc.desc_at, DESC_SIZE, disj.
  apply Forall_cons. split; [lia|]. apply Forall_app. split; [|apply Forall_singleton; lia].
  apply Forall_forall. intros b' Hb'. destruct (ly_free _ _ Hl i b' Hi Hb') as (a' & Ha' & Hk').
  destruct (decide (a = a')) as [<-|Hne].
  - destruct (blocks_apart i a b b' Hi Hb Hk'); [congruence|lia|lia].
  - apply block_bounds in Hk' as [? ?]; [|done]. destruct (arenas_apart a i a' i Ha Ha' Hne); lia.
Qed.

Lemma frees_blocks i : 0 ≤ i < 7 → blocks_of i (frees g i).
Proof using Hl. intros Hi b. by apply (ly_free _ _ Hl). Qed.
Lemma blocks_more i xs a b :
  blocks_of i xs → arenas g !! a = Some i → is_block i a b → blocks_of i (b :: xs).
Proof. intros Hx Ha Hb c [->|Hc]%elem_of_cons; [by exists a|by apply Hx]. Qed.
Lemma blocks_perm i xs ys : ys ⊆ xs → blocks_of i xs → blocks_of i ys.
Proof. intros Hp Hx b Hb. by apply Hx, Hp. Qed.

(** The effect of a list operation that leaves [xs] in list [i]. *)
Definition relinked (i : Z) (xs ys : list Z) (m' : mem) : Prop :=
  layout (set_hmem h m') (set_frees g i xs) ∧ ∀ x, ¬ touched i ys x → load8 m' x = load8 (hmem h) x.

Lemma push_back_layout a i b :
  arenas g !! a = Some i → is_block i a b → b ∉ frees g i →
  ∃ m', list_push_back (hmem h) (d_free_list (desc_at i)) b = Ret m'
    ∧ relinked i (frees g i ++ [b]) (frees g i ++ [b]) m'.
Proof using Hl.
  intros Ha Hb Hn. destruct (arena_place a i Ha) as (Hi & _). destruct (new_node a i b Ha Hb Hn) as [Ho Hd].
  destruct (list_push_back_dll _ _ _ b (ly_list _ _ Hl i Hi) Ho Hd) as (m' & E & Hdll & Hs).
  exists m'. split; [done|]. pose proof (λ x, outside_touched i _ _ _ x Hs) as Hm. split; [|done].
  assert (blocks_of i (frees g i ++ [b])).
  { eapply blocks_perm; [|by eapply (blocks_more i (frees g i)); [apply frees_blocks|..]]. set_solver. }
  apply layout_list; eauto.
Qed.
Lemma push_front_layout a i b :
  arenas g !! a = Some i → is_block i a b → b ∉ frees g i →
  ∃ m', list_push_front (hmem h) (d_free_list (desc_at i)) b = Ret m'
    ∧ relinked i (b :: frees g i) (b :: frees g i) m'.
Proof using Hl.
  intros Ha Hb Hn. destruct (arena_place a i Ha) as (Hi & _). destruct (new_node a i b Ha Hb Hn) as [Ho Hd].
  destruct (list_push_front_dll _ _ _ b (ly_list _ _ Hl i Hi) Ho Hd) as (m' & E & Hdll & Hs).
  exists m'. split; [done|]. pose proof (λ x, outside_touched i _ _ _ x Hs) as Hm. split; [|done].
  assert (blocks_of i (b :: frees g i)) by (eapply blocks_more; [by apply frees_blocks|done|done]).
  apply layout_list; eauto.
Qed.
Lemma remove_layout i b xs ys :
  0 ≤ i < 7 → frees g i = xs ++ b :: ys →
  ∃ m', list_remove (hmem h) b = Ret (hd (tail_of (d_free_list (desc_at i))) ys, m')
    ∧ relinked i (xs ++ ys) (frees g i) m'.
Proof using Hl.
  intros Hi E. pose proof (ly_list _ _ Hl i Hi) as Hd. rewrite E in Hd.
  destruct (list_remove_dll _ _ _ _ _ Hd) as (m' & Er & Hdll & Hs). exists m'. split; [done|].
  assert (∀ x, ¬ touched i (frees g i) x → load8 m' x = load8 (hmem h) x) as Hm.
  { intros x Hx. apply (outside_touched i _ _ _ x Hs). contradict Hx. destruct Hx as [|(c & Hc & ?)]; [by left|].
    right. exists c. rewrite E. set_solver. }
  split; [|done]. apply layout_list; try done.
  - apply (blocks_perm i (frees g i)); [rewrite E; set_solver|by apply frees_blocks].
  - exists (frees g i). split; [by apply frees_blocks|done].
Qed.

(** *** Arenas and their blocks *)
Lemma arena_to_block_eq a i k :
  arenas g !! a = Some i → 0 ≤ k < per_arena i → arena_to_block (hmem h) a k = Ret (blk i a k).
Proof using Hl.
  intros Ha Hk. destruct (arena_place a i Ha) as (Hi & ? & ? & ? & _).
  destruct (ly_arena _ _ Hl a i Ha) as (_ & _ & _ & Hm & Hd). destruct (ly_desc _ _ Hl i Hi) as [Hb Hp].
  pose proof (block_bounds i a (blk i a k) Hi ltac:(by exists k)) as [? ?].
  destruct (bsize_bounds i Hi) as (? & _).
  unfold arena_to_block. rewrite Hm, Hd, Hb, Hp.
  rewrite ASSERT_true by (unfold NULL; lia). rewrite ASSERT_true by (by rewrite Z.eqb_refl).
  rewrite ASSERT_true by lia. change (a + ARENA_SIZE + k * bsize i) with (blk i a k).
  rewrite u32_id; [done|]. unfold is_u32. lia.
Qed.

Lemma round_down_page b : is_u32 b → pg_round_down b = page b.
Proof. intros Hb. rewrite pg_round_down_eq by done. unfold page. Z.to_euclidean_division_equations; lia. Qed.

Lemma block_to_arena_eq a i b :
  arenas g !! a = Some i → is_block i a b → block_to_arena (hmem h) b = Ret a.
Proof using Hl.
  intros Ha Hb. destruct (arena_place a i Ha) as (Hi & Hal & ? & ? & _).
  destruct (ly_arena _ _ Hl a i Ha) as (_ & _ & _ & Hm & Hd). destruct (ly_desc _ _ Hl i Hi) as [Hbs _].
  pose proof (block_bounds i a b Hi Hb) as [? ?]. destruct (bsize_bounds i Hi) as (? & _).
  assert (is_u32 b) by (unfold is_u32; lia). destruct (ly_descs _ _ Hl) as [Hpos _].
  unfold block_to_arena. rewrite round_down_page, (page_block i a b) by done. rewrite Hm, Hd, Hbs, pg_ofs_mod.
  rewrite ASSERT_true by (unfold NULL; lia). rewrite ASSERT_true by (by rewrite Z.eqb_refl).
  destruct (Z.eqb_spec (desc_at i) NULL) as [E|_]; [unfold KMalloc.desc_at, DESC_SIZE, NULL in E; lia|].
  cbn [orb negb]. rewrite ASSERT_true; [by rewrite ASSERT_true|].
  destruct Hb as (k & Hk & ->). apply Z.eqb_eq. change ARENA_SIZE with 12.
  assert (blk i a k mod 4096 - 12 = k * bsize i) as ->.
  { unfold blk in *. Z.to_euclidean_division_equations; lia. }
  rewrite u32_id; [by rewrite Z.mod_mul by lia|]. unfold is_u32, blk in *. nia.
Qed.
Lemma big_to_arena_eq a n : bigs g !! a = Some n → block_to_arena (hmem h) (a + 12) = Ret a.
Proof using Hl.
  intros Ha. destruct (big_place a n Ha) as (? & Hal & ? & ? & _).
  destruct (ly_big _ _ Hl a n Ha) as (_ & _ & _ & _ & Hm & Hd & _).
  unfold block_to_arena. assert (page (a + 12) = a) as Ep by (unfold page; Z.to_euclidean_division_equations; lia).
  rewrite round_down_page, Ep by (unfold is_u32; lia). rewrite Hm, Hd, pg_ofs_mod.
  rewrite ASSERT_true by (unfold NULL; lia). rewrite ASSERT_true by (by rewrite Z.eqb_refl).
  rewrite ASSERT_true by done. rewrite ASSERT_true; [done|]. apply orb_true_iff. right.
  apply Z.eqb_eq. change ARENA_SIZE with 12. Z.to_euclidean_division_equations; lia.
Qed.
End Where.

Lemma set_hmem_twice h m m' : set_hmem (set_hmem h m) m' = set_hmem h m'.
Proof. done. Qed.
Lemma set_hmem_id h : set_hmem h (hmem h) = h.
Proof. by destruct h as [[] ?]. Qed.
Lemma set_frees_id_layout h g i : 0 ≤ i < 7 → layout h g → layout h (set_frees g i (frees g i)).
Proof.
  intros Hi Hl. rewrite <- (set_hmem_id h) at 1. apply (layout_list h g Hl i).
  - done.
  - by apply (ly_list _ _ Hl).
  - by apply (frees_blocks h g Hl).
  - exists (frees g i). split; [by apply (frees_blocks h g Hl)|done].
Qed.

(** The blocks of arena [a] from number [k] on. *)
Definition blocks_from (i a k : Z) (n : nat) : list Z := blk i a <$> seqZ k (Z.of_nat n).
Lemma blocks_from_S i a k n : blocks_from i a k (S n) = blk i a k :: blocks_from i a (k + 1) n.
Proof.
  unfold blocks_from. rewrite seqZ_cons by lia. cbn [fmap list_fmap].
  replace (Z.pred (Z.of_nat (S n))) with (Z.of_nat n) by lia.
  by replace (Z.succ k) with (k + 1) by lia.
Qed.
Lemma elem_of_blocks_from i a k n b :
  b ∈ blocks_from i a k n ↔ ∃ j, k ≤ j < k + Z.of_nat n ∧ b = blk i a j.
Proof.
  unfold blocks_from. rewrite list_elem_of_fmap. setoid_rewrite elem_of_seqZ. naive_solver.
Qed.
Lemma blk_inj i a k k' : 0 ≤ i < 7 → blk i a k = blk i a k' → k = k'.
Proof. intros Hi. destruct (bsize_bounds i Hi) as (? & _). unfold blk. nia. Qed.

Lemma fill_arena_layout n : ∀ h g a i k,
  layout h g → arenas g !! a = Some i → 0 ≤ k → k + Z.of_nat n = per_arena i →
  (∀ j, k ≤ j < per_arena i → blk i a j ∉ frees g i) →
  ∃ m', fill_arena n (hmem h) (desc_at i) a k = Ret m'
    ∧ relinked h g i (frees g i ++ blocks_from i a k n) (frees g i ++ blocks_from i a k n) m'.
Proof.
  induction n as [|n IH]; intros h g a i k Hl Ha Hk Hn Hf; destruct (arena_place h g Hl a i Ha) as (Hi & _).
  - exists (hmem h). split; [done|]. unfold blocks_from. cbn. rewrite app_nil_r.
    split; [|done]. rewrite set_hmem_id. by apply set_frees_id_layout.
  - cbn [fill_arena]. rewrite (arena_to_block_eq h g Hl a i k), bind_Ret by (done || lia).
    destruct (push_back_layout h g Hl a i (blk i a k)) as (m1 & -> & Hl1 & Hm1);
      [done|exists k; split; [lia|done]|apply Hf; lia|]. rewrite bind_Ret.
    set (g1 := set_frees g i (frees g i ++ [blk i a k])) in *.
    assert (frees g1 i = frees g i ++ [blk i a k]) as Ef by (unfold g1; by rewrite frees_set, decide_True).
    destruct (IH (set_hmem h m1) g1 a i (k + 1)) as (m' & E & Hl' & Hm'); try done; [lia|lia|..].
    { intros j Hj. rewrite Ef, not_elem_of_app. split; [apply Hf; lia|].
      intros ->%list_elem_of_singleton%blk_inj; [lia|done]. }
    rewrite Ef, <- app_assoc in Hl', Hm'. cbn [app] in Hl', Hm'. rewrite <- blocks_from_S in Hl', Hm'.
    exists m'. split; [exact E|]. split.
    + unfold g1 in Hl'. by rewrite set_frees_twice in Hl'.
    + intros x Hx. rewrite Hm' by done. apply Hm1. contradict Hx. destruct Hx as [|(b & Hb & ?)]; [by left|right].
      exists b. split; [|done]. rewrite blocks_from_S. set_solver.
Qed.

Lemma drain_arena_layout n : ∀ h g a i k,
  layout h g → arenas g !! a = Some i → 0 ≤ k → k + Z.of_nat n = per_arena i →
  (∀ j, k ≤ j < per_arena i → blk i a j ∈ frees g i) →
  ∃ m', drain_arena n (hmem h) a k = Ret m'
    ∧ relinked h g i (filter (λ b, b ∉ blocks_from i a k n) (frees g i)) (frees g i) m'.
Proof.
  induction n as [|n IH]; intros h g a i k Hl Ha Hk Hn Hf; destruct (arena_place h g Hl a i Ha) as (Hi & _).
  - exists (hmem h). split; [done|].
    replace (filter (λ b, b ∉ blocks_from i a k 0) (frees g i)) with (frees g i).
    { split; [|done]. rewrite set_hmem_id. by apply set_frees_id_layout. }
    symmetry. apply filter_all. intros b _. apply not_elem_of_nil.
  - cbn [drain_arena]. rewrite (arena_to_block_eq h g Hl a i k), bind_Ret by (done || lia).
    destruct (list_elem_of_split _ _ (Hf k ltac:(lia))) as (xs & ys & E).
    destruct (remove_layout h g Hl i (blk i a k) xs ys Hi E) as (m1 & -> & Hl1 & Hm1). rewrite bind_Ret.
    pose proof (frees_nodup h g Hl i Hi) as Hnd.
    assert (xs ++ ys = filter (λ b, b ≠ blk i a k) (frees g i)) as Exy.
    { rewrite E in Hnd |- *. apply NoDup_app in Hnd as (_ & Hd1 & Hnd). apply NoDup_cons in Hnd as [Hd2 _].
      rewrite filter_app, filter_cons, decide_False by (intros Hc; by apply Hc).
      f_equal; symmetry; apply filter_all; intros b Hb ->; [by apply (Hd1 _ Hb); left|done]. }
    set (g1 := set_frees g i (xs ++ ys)) in *.
    assert (frees g1 i = xs ++ ys) as Ef by (unfold g1; by rewrite frees_set, decide_True).
    destruct (IH (set_hmem h m1) g1 a i (k + 1)) as (m' & E' & Hl' & Hm'); try done; [lia|lia|..].
    { intros j Hj. rewrite Ef, Exy. apply list_elem_of_filter. split; [|apply Hf; lia].
      intros ?%blk_inj; [lia|done]. }
    exists m'. split; [exact E'|]. rewrite Ef, Exy, list_filter_filter in Hl'. split.
    + unfold g1 in Hl'. rewrite set_frees_twice in Hl'.
      erewrite list_filter_iff; [exact Hl'|]. intros b. cbn. rewrite blocks_from_S. set_solver.
    + intros x Hx. rewrite Hm', Hm1; [done|done|]. contradict Hx. destruct Hx as [|(b & Hb & ?)]; [by left|right].
      exists b. split; [|done]. rewrite Ef in Hb. rewrite E. set_solver.
Qed.

(** ** Changes outside the allocator's pages *)
Definition footprint (g : heap) (x : Z) : Prop :=
  descs ≤ x < descs + 480
  ∨ (∃ a i, arenas g !! a = Some i ∧ a ≤ x < a + 4096)
  ∨ (∃ a n, bigs g !! a = Some n ∧ a ≤ x < a + 4096 * n).
(** The bytes that hold the allocator's own data, the counts apart. *)
Definition structure (g : heap) (x : Z) : Prop :=
  descs ≤ x < descs + 480
  ∨ (∃ a i, arenas g !! a = Some i ∧ a ≤ x < a + 8)
  ∨ (∃ i b, 0 ≤ i < 7 ∧ b ∈ frees g i ∧ b ≤ x < b + 8)
  ∨ (∃ a n, bigs g !! a = Some n ∧ a ≤ x < a + 12).
Definition used_page (g : heap) (q : Z) : Prop :=
  is_Some (arenas g !! q) ∨ ∃ a n, bigs g !! a = Some n ∧ in_group a n q = true.

Lemma used_allocated h g q : layout h g → used_page g q → allocated (kh h) q = true.
Proof.
  intros Hl [[i Hi]|(a & n & Ha & Hq)]; [by apply (ly_arena _ _ Hl q i)|].
  destruct (ly_big _ _ Hl a n Ha) as (_ & _ & _ & Hg & _). by apply Hg.
Qed.

Lemma structure_footprint h g x : layout h g → structure g x → footprint g x.
Proof.
  intros Hl [Hx|[(a & i & Ha & Hx)|[(i & b & Hi & Hb & Hx)|(a & n & Ha & Hx)]]]; [by left|right..].
  - left. exists a, i. split; [done|lia].
  - left. destruct (ly_free _ _ Hl i b Hi Hb) as (a & Ha & Hk). exists a, i. split; [done|].
    apply block_bounds in Hk as [? ?]; [|done]. destruct (bsize_bounds i Hi) as (? & _). lia.
  - right. destruct (big_place h g Hl a n Ha) as (? & _). exists a, n. split; [done|lia].
Qed.

Lemma in_pool_geom s s' q : same_geom s s' → in_pool (kernel_pool s') q = in_pool (kernel_pool s) q.
Proof. intros Hg. destruct (Hg false) as [E1 E2]. cbn in *. unfold in_pool, pool_end. by rewrite E1, E2. Qed.

Lemma layout_frame h g s' :
  layout h g → palloc_wf s' → same_geom (kh h) s' →
  (∀ q, used_page g q → allocated s' q = true) →
  (∀ x, structure g x → load8 (pmem s') x = load8 (hmem h) x) →
  layout (KHeap s' (desc_cnt h)) g.
Proof.
  intros Hl Hp Hg Hu Hm.
  assert (∀ u, base (get_pool s' u) = base (get_pool (kh h) u)
    ∧ pool_end (get_pool s' u) = pool_end (get_pool (kh h) u)) as Hge.
  { intros u. destruct (Hg u) as [E1 E2]. unfold pool_end. by rewrite E1, E2. }
  assert (∀ y, (∀ x, y ≤ x < y + 4 → structure g x) → load32 (pmem s') y = load32 (hmem h) y) as Hw.
  { intros y Hy. apply load32_same. intros x Hx. auto. }
  split; cbn [kh desc_cnt hmem].
  - done.
  - apply Hl.
  - apply Hl.
  - intros u. destruct (Hge u) as [-> ->]. apply (ly_apart _ _ Hl).
  - intros i Hi. destruct (ly_desc _ _ Hl i Hi) as [<- <-]. unfold d_block_size, d_blocks_per_arena.
    split; apply Hw; intros x Hx; left; unfold KMalloc.desc_at, DESC_SIZE in *; lia.
  - intros i Hi. apply (dll_same (hmem h)); [|by apply (ly_list _ _ Hl)].
    intros n Hn x Hr. apply Hm. unfold nodes, d_free_list, head_of, tail_of, KMalloc.desc_at, DESC_SIZE in Hn.
    rewrite elem_of_cons, elem_of_app, list_elem_of_singleton in Hn. destruct Hn as [->|[Hn| ->]]; [left; lia| |left; lia].
    right. right. left. by exists i, n.
  - apply (ly_free _ _ Hl).
  - intros a i Ha. destruct (ly_arena _ _ Hl a i Ha) as (Hi & Hin & Hal & Hw1 & Hw2).
    unfold a_magic, a_desc in *. rewrite in_pool_geom with (s := kh h), !Hw by
      (done || (intros x Hx; right; left; exists a, i; split; [done|lia])).
    split_and!; try done; try apply Hi. apply Hu. left. eauto.
  - intros a n Ha. destruct (ly_big _ _ Hl a n Ha) as (Hn & Hin & Hend & Hq & Hw1 & Hw2 & Hw3).
    destruct (Hge false) as [_ Ee]. cbn in Ee.
    unfold a_magic, a_desc, a_free_cnt in *. rewrite in_pool_geom with (s := kh h), Ee, !Hw by
      (done || (intros x Hx; right; right; right; exists a, n; split; [done|lia])).
    split_and!; try done; try apply Hn. intros q Hg'. split; [|by apply Hq]. apply Hu. right. eauto.
  - apply (ly_bigs _ _ Hl).
Qed.

(** ** Arenas and big blocks come and go *)
Definition set_arenas (g : heap) (m : gmap Z Z) : heap := Heap m (flists g) (bigs g).
Definition set_bigs (g : heap) (m : gmap Z Z) : heap := Heap (arenas g) (flists g) m.

Lemma layout_new_arena h g a i :
  layout h g → 0 ≤ i < 7 → ¬ used_page g a → in_pool (kernel_pool (kh h)) a = true → allocated (kh h) a = true →
  a_magic (hmem h) a = ARENA_MAGIC → a_desc (hmem h) a = desc_at i →
  layout h (set_arenas g (<[a := i]> (arenas g))).
Proof.
  intros Hl Hi Hn Hin Hal Hm Hd. assert (arenas g !! a = None) as Ha.
  { destruct (arenas g !! a) eqn:E; [|done]. destruct Hn. left. rewrite E. eauto. }
  destruct Hl as [L1 L2 L3 L4 L5 L6 L7 L8 L9 L10]. split; cbn [set_arenas arenas bigs]; try done.
  - intros j b Hj Hb. destruct (L7 j b Hj Hb) as (a' & Ha' & Hk). exists a'. split; [|done].
    rewrite lookup_insert_ne; [done|congruence].
  - intros a' j. destruct (decide (a' = a)) as [->|Hne].
    + rewrite lookup_insert_eq. by intros [= <-].
    + rewrite lookup_insert_ne by congruence. apply L8.
  - intros a' n Ha'. destruct (L9 a' n Ha') as (H1 & H2 & H3 & H4 & H5). do 3 (split; [done|]). split; [|done].
    intros q Hq. split; [by apply H4|]. rewrite lookup_insert_ne; [by apply H4|].
    intros <-. destruct Hn. right. eauto.
Qed.
Lemma layout_drop_arena h g a i :
  layout h g → arenas g !! a = Some i → (∀ b, b ∈ frees g i → ¬ is_block i a b) →
  layout h (set_arenas g (delete a (arenas g))).
Proof.
  intros [L1 L2 L3 L4 L5 L6 L7 L8 L9 L10] Ha Hb. split; cbn [set_arenas arenas bigs]; try done.
  - intros j b Hj Hin. destruct (L7 j b Hj Hin) as (a' & Ha' & Hk). exists a'. split; [|done].
    rewrite lookup_delete_ne; [done|]. intros <-. assert (j = i) as -> by congruence. by eapply Hb.
  - intros a' j. destruct (decide (a' = a)) as [->|Hne]; [by rewrite lookup_delete_eq|].
    rewrite lookup_delete_ne by congruence. apply L8.
  - intros a' n Ha'. destruct (L9 a' n Ha') as (H1 & H2 & H3 & H4 & H5). do 3 (split; [done|]). split; [|done].
    intros q Hq. split; [by apply H4|]. destruct (decide (q = a)) as [->|]; [by rewrite lookup_delete_eq|].
    rewrite lookup_delete_ne by congruence. by apply H4.
Qed.

Lemma layout_new_big h g a n :
  layout h g → 0 < n < 1048576 → in_pool (kernel_pool (kh h)) a = true →
  a + 4096 * n ≤ pool_end (kernel_pool (kh h)) →
  (∀ q, in_group a n q = true → allocated (kh h) q = true ∧ ¬ used_page g q) →
  a_magic (hmem h) a = ARENA_MAGIC → a_desc (hmem h) a = NULL → a_free_cnt (hmem h) a = n →
  layout h (set_bigs g (<[a := n]> (bigs g))).
Proof.
  intros Hl Hn Hin Hend Hq Hm Hd Hc. pose proof (proj1 (in_pool_spec _ _) Hin) as (Hal & _).
  assert (∀ a' n', bigs g !! a' = Some n' → a + 4096 * n ≤ a' ∨ a' + 4096 * n' ≤ a) as Hap.
  { intros a' n' Ha'. destruct (big_place h g Hl a' n' Ha') as (Hn' & Hal' & _).
    destruct (decide (a ≤ a' < a + 4096 * n)) as [Hx|Hx].
    - destruct (Hq a') as [_ []].
      + unfold in_group. rewrite bool_decide_true by done. lia.
      + right. exists a', n'. split; [done|]. unfold in_group. rewrite bool_decide_true by done. lia.
    - destruct (decide (a' ≤ a < a' + 4096 * n')) as [Hy|Hy]; [|Z.to_euclidean_division_equations; lia].
      destruct (Hq a) as [_ []].
      + unfold in_group. rewrite bool_decide_true by done. lia.
      + right. exists a', n'. split; [done|]. unfold in_group. rewrite bool_decide_true by done. lia. }
  destruct Hl as [L1 L2 L3 L4 L5 L6 L7 L8 L9 L10]. split; cbn [set_bigs arenas bigs]; try done.
  - intros a' n'. destruct (decide (a' = a)) as [->|Hne].
    + rewrite lookup_insert_eq. intros [= <-]. do 3 (split; [done|]). split; [|done].
      intros q Hg. destruct (Hq q Hg) as [H1 H2]. split; [done|].
      destruct (arenas g !! q) eqn:E; [|done]. destruct H2. left. rewrite E. eauto.
    + rewrite lookup_insert_ne by congruence. apply L9.
  - intros a1 n1 a2 n2. destruct (decide (a1 = a)) as [->|H1]; destruct (decide (a2 = a)) as [->|H2];
      rewrite ?lookup_insert_eq, ?lookup_insert_ne by congruence; [done|..].
    + intros [= <-] Ha2 _. by apply Hap.
    + intros Ha1 [= <-] _. destruct (Hap a1 n1 Ha1); [by right|by left].
    + apply L10.
Qed.
Lemma layout_drop_big h g a : layout h g → layout h (set_bigs g (delete a (bigs g))).
Proof.
  intros [L1 L2 L3 L4 L5 L6 L7 L8 L9 L10]. split; cbn [set_bigs arenas bigs]; try done.
  - intros a' n [_ Ha]%lookup_delete_Some. by apply L9.
  - intros a1 n1 a2 n2 [_ H1]%lookup_delete_Some [_ H2]%lookup_delete_Some. by apply L10.
Qed.
End Blocks.
