(* ===== verification/KMallocTheorems.v ===== *)
(** * What the kernel's block allocator guarantees

    [malloc] hands out blocks that are large enough and overlap no block a client holds;
    [free] takes one back, gives an empty arena to the page allocator, and never fails an
    assertion; neither changes a byte of the blocks that stay with their clients. *)
From S2P Require Import Prelude Mem KList Bitmap Vaddr Palloc Pagedir KernelTheorems KMalloc KBlocks.

Section KMallocProofs.
Context (descs : Z).
Local Abbreviation desc_at := (desc_at descs).
Local Abbreviation layout := (layout descs).
Local Abbreviation kheap_inv := (kheap_inv descs).

(** ** Bytes that list operations leave alone *)
Section Untouched.
Context (h : kheap) (g : heap) (Hl : layout h g).

Lemma count_untouched i ys m' a j :
  0 ≤ i < 7 → blocks_of g i ys → (∀ x, ¬ touched descs i ys x → load8 m' x = load8 (hmem h) x) →
  arenas g !! a = Some j → a_free_cnt m' a = a_free_cnt (hmem h) a.
Proof using Hl.
  intros Hi Hy Hm Ha. apply load32_same. intros x Hx. apply Hm.
  destruct (arena_place descs h g Hl a j Ha) as (Hj & Hal & _ & _ & Hap).
  intros [Hd|(b & Hb & Hx')]; [unfold KMalloc.desc_at, DESC_SIZE in Hd; lia|].
  destruct (Hy b Hb) as (a' & Ha' & Hk). apply block_bounds in Hk as [? ?]; [|done].
  destruct (bsize_bounds i Hi) as (? & _).
  destruct (decide (a = a')) as [<-|Hne]; [lia|]. destruct (arenas_apart descs h g Hl a j a' i Ha Ha' Hne); lia.
Qed.

Lemma live_outside b n x :
  live g b n → b ≤ x < b + n →
  ¬ (descs ≤ x < descs + 480) ∧ (∀ a i, arenas g !! a = Some i → ¬ a ≤ x < a + 12)
  ∧ (∀ i ys, 0 ≤ i < 7 → blocks_of g i ys → b ∉ ys → ¬ touched descs i ys x).
Proof using Hl.
  intros Hb Hx. assert (¬ (descs ≤ x < descs + 480)) as Hd.
  { destruct Hb as [(a & j & Ha & Hk & _ & ->)|(a & c & Ha & -> & ->)].
    - destruct (arena_place descs h g Hl a j Ha) as (Hj & _ & _ & _ & ?). apply block_bounds in Hk as [? ?]; [lia|done].
    - destruct (big_place descs h g Hl a c Ha) as (_ & _ & _ & _ & ?). lia. }
  split_and!; [done|..].
  - intros a i Ha Hr. destruct Hb as [(a' & j & Ha' & Hk & _ & ->)|(a' & c & Ha' & -> & ->)].
    + destruct (arena_place descs h g Hl a' j Ha') as (Hj & _). apply block_bounds in Hk as [? ?]; [|done].
      destruct (decide (a = a')) as [<-|Hne]; [lia|]. destruct (arenas_apart descs h g Hl a i a' j Ha Ha' Hne); lia.
    + destruct (arena_big_apart descs h g Hl a i a' c Ha Ha'); lia.
  - intros i ys Hi Hy Hn [Ht|(b' & Hb' & Hx')]; [unfold KMalloc.desc_at, DESC_SIZE in Ht; lia|].
    destruct (Hy b' Hb') as (a' & Ha' & Hk'). pose proof (block_bounds i a' b' Hi Hk') as [? ?].
    destruct (bsize_bounds i Hi) as (? & _).
    destruct Hb as [(a & j & Ha & Hk & _ & ->)|(a & c & Ha & -> & ->)].
    + destruct (decide (a = a')) as [<-|Hne].
      * assert (j = i) as -> by congruence. destruct (blocks_apart i a b b' Hi Hk Hk'); [congruence|lia|lia].
      * destruct (arena_place descs h g Hl a j Ha) as (Hj & _). apply block_bounds in Hk as [? ?]; [|done].
        destruct (arenas_apart descs h g Hl a j a' i Ha Ha' Hne); lia.
    + destruct (arena_big_apart descs h g Hl a' i a c Ha' Ha); lia.
Qed.

Lemma live_not_free b n i : live g b n → 0 ≤ i < 7 → b ∉ frees g i.
Proof using Hl.
  intros Hb Hi Hf. destruct (ly_free _ _ _ Hl i b Hi Hf) as (a' & Ha' & Hk').
  destruct (arena_place descs h g Hl a' i Ha') as (_ & Hal' & _). pose proof (page_block i a' b Hi Hal' Hk') as Ep.
  destruct Hb as [(a & j & Ha & Hk & Hn & _)|(a & c & Ha & -> & _)].
  - destruct (arena_place descs h g Hl a j Ha) as (Hj & Hal & _). rewrite (page_block j a b Hj Hal Hk) in Ep.
    subst a'. by assert (j = i) as -> by congruence.
  - destruct (big_place descs h g Hl a c Ha) as (? & Hal & _). pose proof (block_bounds i a' (a + 12) Hi Hk') as [? ?].
    destruct (bsize_bounds i Hi) as (? & _). destruct (arena_big_apart descs h g Hl a' i a c Ha' Ha); lia.
Qed.
End Untouched.

(** ** Counting free blocks *)
Lemma free_count_cons xs b a : free_count (b :: xs) a = free_count xs a + (if decide (page b = a) then 1 else 0).
Proof. unfold free_count. rewrite filter_cons. case_decide; cbn; lia. Qed.
Lemma free_count_nil a : free_count [] a = 0.
Proof. done. Qed.
Lemma free_count_nonneg xs a : 0 ≤ free_count xs a.
Proof. unfold free_count. lia. Qed.

Lemma blocks_from_length i a k n : length (blocks_from i a k n) = n.
Proof. unfold blocks_from. rewrite length_fmap, length_seqZ. lia. Qed.
Lemma is_block_from i a b : 0 ≤ i < 7 → is_block i a b ↔ b ∈ blocks_from i a 0 (Z.to_nat (per_arena i)).
Proof.
  intros Hi. destruct (bsize_bounds i Hi) as (_ & ? & _). rewrite elem_of_blocks_from. unfold is_block.
  by rewrite Z.add_0_l, Z2Nat.id by lia.
Qed.

(** An arena has no more free blocks than blocks; when it has as many, all are free. *)
Lemma count_bound (xs : list Z) i a :
  0 ≤ i < 7 → NoDup xs → (∀ b, b ∈ xs → page b = a → is_block i a b) →
  free_count xs a ≤ per_arena i ∧ (free_count xs a = per_arena i → ∀ b, is_block i a b → b ∈ xs).
Proof.
  intros Hi Hn Hx. destruct (bsize_bounds i Hi) as (_ & ? & _). unfold free_count.
  set (L := filter (λ b, page b = a) xs).
  assert (incl L (blocks_from i a 0 (Z.to_nat (per_arena i)))) as Hincl.
  { intros b Hb. apply list_elem_of_In, list_elem_of_filter in Hb as [Hp Hb].
    apply list_elem_of_In, is_block_from; auto. }
  assert (List.NoDup L) as HL by (apply NoDup_ListNoDup, NoDup_filter, Hn).
  pose proof (NoDup_incl_length HL Hincl) as Hlen. rewrite blocks_from_length in Hlen. split; [lia|].
  intros Heq b Hb. assert (incl (blocks_from i a 0 (Z.to_nat (per_arena i))) L) as Hrev.
  { apply NoDup_length_incl; [done| |done]. rewrite blocks_from_length. lia. }
  apply (is_block_from i a b Hi), list_elem_of_In, Hrev, list_elem_of_In, list_elem_of_filter in Hb. apply Hb.
Qed.

(** ** Taking a block *)

Lemma layout_mem h g m' :
  layout h g → (∀ x, structure descs g x → load8 m' x = load8 (hmem h) x) → layout (set_hmem h m') g.
Proof.
  intros Hl Hm. apply (layout_frame descs h g (set_pmem (kh h) m')); try done.
  - apply set_pmem_wf, Hl.
  - intros q. by apply (used_allocated descs h g q Hl).
Qed.
Lemma layout_count h g i a n :
  layout h g → arenas g !! a = Some i → layout (set_hmem h (set_free_cnt (hmem h) a n)) g.
Proof.
  intros Hl Ha. destruct (arena_place descs h g Hl a i Ha) as (_ & _ & _ & _ & Hap). apply layout_mem; [done|].
  intros x Hx. apply load8_store32_ne.
  destruct Hx as [Hx|[(a' & j & Ha' & Hx)|[(j & b & Hj & Hb & Hx)|(a' & k & Ha' & Hx)]]]; [lia|..].
  - destruct (decide (a = a')) as [<-|Hne]; [lia|]. destruct (arenas_apart descs h g Hl a i a' j Ha Ha' Hne); lia.
  - destruct (ly_free _ _ _ Hl j b Hj Hb) as (a' & Ha' & Hk). apply block_bounds in Hk as [? ?]; [|done].
    destruct (bsize_bounds j Hj) as (? & _).
    destruct (decide (a = a')) as [<-|Hne]; [lia|]. destruct (arenas_apart descs h g Hl a i a' j Ha Ha' Hne); lia.
  - destruct (big_place descs h g Hl a' k Ha') as (? & _). destruct (arena_big_apart descs h g Hl a i a' k Ha Ha'); lia.
Qed.
(** A client's writes to its own block. *)
Lemma inv_client_write h g b n m' :
  kheap_inv h g → live g b n → (∀ x, x < b ∨ b + n ≤ x → load8 m' x = load8 (hmem h) x) →
  kheap_inv (set_hmem h m') g.
Proof.
  intros [Hl Hc] Hb Hm. split.
  - apply layout_mem; [done|]. intros x Hx. apply Hm.
    destruct (decide (b ≤ x < b + n)) as [Hin|]; [|lia]. exfalso.
    destruct (live_outside h g Hl b n x Hb Hin) as (H1 & H2 & H3).
    destruct Hx as [Hx|[(a & i & Ha & Hx)|[(i & b' & Hi & Hb' & Hx)|(a & c & Ha & Hx)]]]; [done|..].
    + apply (H2 a i Ha). lia.
    + apply (H3 i (frees g i) Hi).
      * by apply (frees_blocks descs h g Hl).
      * by eapply live_not_free.
      * right. by exists b'.
    + destruct (big_place descs h g Hl a c Ha) as (? & _).
      assert (live g (a + 12) (4096 * c - 12)) as Hc' by (right; by exists a, c).
      destruct Hb as [(a' & i & Ha' & Hk & _ & ->)|(a' & c' & Ha' & -> & ->)].
      * destruct (arena_place descs h g Hl a' i Ha') as (Hi & _). apply block_bounds in Hk as [? ?]; [|done].
        destruct (arena_big_apart descs h g Hl a' i a c Ha' Ha); lia.
      * destruct (decide (a = a')) as [<-|Hne]; [lia|]. destruct (ly_bigs _ _ _ Hl a c a' c' Ha Ha' Hne); lia.
  - intros a i Ha. rewrite <- (Hc a i Ha). apply load32_same. intros x Hx. apply Hm.
    destruct (decide (b ≤ x < b + n)) as [Hin|]; [|lia].
    destruct (live_outside h g Hl b n x Hb Hin) as (_ & H2 & _). destruct (H2 a i Ha). lia.
Qed.
Lemma count_set m a n a' : is_u32 n → a = a' ∨ a + 12 ≤ a' ∨ a' + 12 ≤ a →
  a_free_cnt (set_free_cnt m a n) a' = if decide (a = a') then n else a_free_cnt m a'.
Proof.
  intros Hn Ha. unfold a_free_cnt, set_free_cnt. case_decide as E.
  - subst. rewrite load32_store32_eq. by apply u32_id.
  - apply load32_store32_ne. lia.
Qed.

(** What a successful [malloc] has done: [r] is a new block of [n] bytes. *)
Record gave (h h' : kheap) (g g' : heap) (r n : Z) : Prop := {
  gv_inv : kheap_inv h' g';
  gv_live : ∀ b c, live g' b c ↔ live g b c ∨ (b = r ∧ c = n);
  gv_new : ∀ c, ¬ live g r c;
  gv_data : ∀ b c, live g b c → same_bytes (hmem h) (hmem h') b (b + c);
}.

Lemma pop_front_layout h g i b xs :
  layout h g → 0 ≤ i < 7 → frees g i = b :: xs →
  ∃ m', list_pop_front (hmem h) (d_free_list (desc_at i)) = Ret (b, m')
    ∧ relinked descs h g i xs (frees g i) m'.
Proof.
  intros Hl Hi E. pose proof (ly_list _ _ _ Hl i Hi) as Hd.
  destruct (remove_layout descs h g Hl i b [] xs Hi E) as (m' & Er & Hr).
  exists m'. split; [|exact Hr]. unfold list_pop_front, list_front.
  rewrite (list_empty_dll _ _ _ Hd), E, bind_Ret. rewrite bool_decide_false, ASSERT_true by done.
  assert (next (hmem h) (head_of (d_free_list (desc_at i))) = b) as ->.
  { pose proof (list_begin_dll _ _ _ Hd) as Hb. unfold list_begin in Hb. rewrite (dll_not_null _ _ _ Hd), E in Hb.
    by injection Hb. }
  rewrite bind_Ret, Er. done.
Qed.

Lemma take_block_spec h g i b xs :
  kheap_inv h g → 0 ≤ i < 7 → frees g i = b :: xs →
  ∃ h', take_block h (desc_at i) = Ret (b, h') ∧ gave h h' g (set_frees g i xs) b (bsize i).
Proof.
  intros [Hl Hc] Hi E. destruct (ly_free _ _ _ Hl i b Hi) as (a & Ha & Hk); [rewrite E; left|].
  destruct (arena_place descs h g Hl a i Ha) as (_ & Hal & _).
  destruct (pop_front_layout h g i b xs Hl Hi E) as (m1 & Ep & Hl1 & Hm1).
  pose proof (frees_blocks descs h g Hl i Hi) as Hbl. pose proof (frees_nodup descs h g Hl i Hi) as Hnd.
  unfold take_block. rewrite Ep, bind_Ret.
  pose proof (block_to_arena_eq descs _ _ Hl1 a i b Ha Hk : block_to_arena m1 b = Ret a) as ->. rewrite bind_Ret.
  pose proof (count_untouched h g Hl i _ m1 a i Hi Hbl Hm1 Ha) as Ecnt.
  assert (a_free_cnt m1 a = free_count xs a + 1) as Ea.
  { rewrite Ecnt, (Hc a i Ha), E, free_count_cons, (page_block i a b), decide_True by done. done. }
  pose proof (free_count_nonneg xs a) as Hnn.
  assert (is_u32 (free_count xs a)) as Hu.
  { unfold is_u32. pose proof (load32_range m1 (a + 8)) as Hr. unfold is_u32, a_free_cnt in *. lia. }
  rewrite Ea. replace (free_count xs a + 1 - 1) with (free_count xs a) by lia. rewrite (u32_id (free_count xs a)) by done.
  eexists. split; [reflexivity|]. set (m2 := set_free_cnt m1 a (free_count xs a)).
  pose proof (layout_count _ _ i a (free_count xs a) Hl1 Ha) as Hl2.
  assert (∀ x, load8 m2 x = load8 (hmem h) x ∨ a + 8 ≤ x < a + 12 ∨ touched descs i (frees g i) x) as Hm2.
  { intros x. destruct (decide (a + 8 ≤ x < a + 12)); [by right; left|].
    assert (load8 m2 x = load8 m1 x) as -> by (apply load8_store32_ne; lia).
    destruct (decide (load8 m1 x = load8 (hmem h) x)); [by left|]. right. right.
    destruct (decide (desc_at i + 8 ≤ x < desc_at i + 24)); [by left|].
    destruct (decide (Exists (λ c, c ≤ x < c + 8) (frees g i))) as [He|Hne].
    - apply Exists_exists in He as (c & Hc' & ?). right. eauto.
    - exfalso. apply n0, Hm1. intros [|(c & Hc' & ?)]; [lia|]. apply Hne, Exists_exists. eauto. }
  split.
  - split; [exact Hl2|]. intros a' j Ha'. change (hmem (set_hmem h m2)) with m2. rewrite frees_set. unfold m2.
    change (arenas g !! a' = Some j) in Ha'.
    rewrite count_set; [|done|].
    2:{ destruct (decide (a = a')); [by left|right]. destruct (arenas_apart descs h g Hl a i a' j Ha Ha'); [done|lia|lia]. }
    case_decide as Eq; [subst; by rewrite decide_True by congruence|].
    rewrite (count_untouched h g Hl i _ m1 a' j Hi Hbl Hm1 Ha'), (Hc a' j Ha'). case_decide as Ej; [|done]. subst j.
    rewrite E, free_count_cons, (page_block i a b) by done. rewrite decide_False by done. lia.
  - intros c n. unfold live. cbn [arenas bigs set_frees]. split.
    + intros [(a' & j & Ha' & Hk' & Hn & ->)|Hb]; [|by left; right]. rewrite frees_set in Hn.
      destruct (decide (c = b)) as [->|Hne].
      * right. split; [done|]. destruct (arena_place descs h g Hl a' j Ha') as (Hj & Hal' & _).
        pose proof (page_block j a' b Hj Hal' Hk'). pose proof (page_block i a b Hi Hal Hk).
        assert (a' = a) as -> by congruence. congruence.
      * left. left. exists a', j. split_and!; try done. case_decide as Ej; [subst j; rewrite E; set_solver|done].
    + intros [[(a' & j & Ha' & Hk' & Hn & ->)|Hb]|[-> ->]]; [|by right|].
      * left. exists a', j. split_and!; try done. rewrite frees_set. case_decide as Ej; [|done]. subst j. intros Hin. apply Hn. rewrite E. by right.
      * left. exists a, i. split_and!; try done. rewrite frees_set, decide_True by done.
        rewrite E in Hnd. by apply NoDup_cons in Hnd as [? _].
  - intros c Hlive. apply (live_not_free h g Hl b c i Hlive Hi). rewrite E. left.
  - intros c n Hlive x Hx. change (hmem (set_hmem h m2)) with m2.
    destruct (live_outside h g Hl c n x Hlive Hx) as (_ & H2 & H3).
    destruct (Hm2 x) as [|[Hw|Ht]]; [done|destruct (H2 a i Ha); lia|].
    destruct (H3 i (frees g i) Hi Hbl); [by eapply live_not_free|done].
Qed.

(** ** A new arena *)

(** Pages just allocated, with an arena header in them: the rest stays in place. *)
Section NewPages.
Context (h : kheap) (g : heap) (s : pstate) (a n d c : Z).
Context (Hl : layout h g) (Hg : got_pages (kh h) s false false a n) (Hn : 0 < n).
Definition new_pages : kheap := KHeap (set_pmem s (set_arena (pmem s) a d c)) (desc_cnt h).

Lemma new_place : a mod 4096 = 0 ∧ in_pool (kernel_pool s) a = true ∧ a + 4096 * n ≤ pool_end (kernel_pool s)
  ∧ 3221225472 ≤ a ∧ a + 4096 * n ≤ 4294967296 ∧ (descs + 480 ≤ a ∨ a + 4096 * n ≤ descs).
Proof using Hl Hg Hn.
  pose proof (gp_align _ _ _ _ _ _ Hg). pose proof (gp_low _ _ _ _ _ _ Hg) as Hlo.
  pose proof (gp_high _ _ _ _ _ _ Hg) as Hhi. destruct (gp_geom _ _ _ _ _ _ Hg false) as [E1 E2].
  pose proof (plw_kernel _ (ly_palloc _ _ _ Hl)) as Hp. pose proof (pw_low _ Hp). pose proof (pw_high _ Hp).
  pose proof (ly_apart _ _ _ Hl false) as Hap. cbn [get_pool] in *. unfold PHYS_BASE in *.
  assert (pool_end (kernel_pool s) = pool_end (kernel_pool (kh h))) as Ee by (unfold pool_end; by rewrite E1, E2).
  rewrite Ee. split_and!; try done; try lia. apply in_pool_spec. split_and!; [done|lia|lia].
Qed.

(** Nothing of the allocator is in the new pages. *)
Lemma new_footprint x : footprint descs g x → x < a ∨ a + 4096 * n ≤ x.
Proof using Hl Hg Hn.
  destruct new_place as (Hal & _ & _ & _ & _ & Hap).
  assert (∀ q, in_group a n q = true → ¬ used_page g q) as Hfr.
  { intros q Hq Hu. pose proof (used_allocated descs h g q Hl Hu) as Hx.
    by rewrite (gp_fresh _ _ _ _ _ _ Hg q Hq) in Hx. }
  assert (∀ q, q mod 4096 = 0 → used_page g q → q + 4096 ≤ a ∨ a + 4096 * n ≤ q) as Hq.
  { intros q Hm Hu. destruct (decide (a ≤ q < a + 4096 * n)) as [Hi|]; [|Z.to_euclidean_division_equations; lia].
    destruct (Hfr q); [|done]. unfold in_group. rewrite bool_decide_true by done. lia. }
  intros [Hx|[(a' & i & Ha' & Hx)|(a' & n' & Ha' & Hx)]]; [lia|..].
  - destruct (arena_place descs h g Hl a' i Ha') as (_ & Hm & _). destruct (Hq a' Hm); [left; eauto|lia|lia].
  - destruct (big_place descs h g Hl a' n' Ha') as (? & Hm & _).
    destruct (Hq (page x)).
    + unfold page. Z.to_euclidean_division_equations; lia.
    + right. exists a', n'. split; [done|]. unfold in_group, page.
      rewrite bool_decide_true by (Z.to_euclidean_division_equations; lia). Z.to_euclidean_division_equations; lia.
    + unfold page in *. Z.to_euclidean_division_equations; lia.
    + unfold page in *. Z.to_euclidean_division_equations; lia.
Qed.
Lemma new_mem x : x < a ∨ a + 4096 * n ≤ x → load8 (hmem new_pages) x = load8 (hmem h) x.
Proof using Hg Hn.
  intros Hx. change (hmem new_pages) with (set_arena (pmem s) a d c). unfold set_arena.
  rewrite !load8_store32_ne by lia. by apply (gp_mem _ _ _ _ _ _ Hg).
Qed.
Lemma new_used q : in_group a n q = true → allocated (kh new_pages) q = true ∧ ¬ used_page g q.
Proof using Hl Hg.
  intros Hq. split.
  - change (allocated s q = true). by rewrite (gp_alloc _ _ _ _ _ _ Hg), Hq.
  - intros Hu. pose proof (used_allocated descs h g q Hl Hu) as Hx. by rewrite (gp_fresh _ _ _ _ _ _ Hg q Hq) in Hx.
Qed.
Lemma new_layout : layout new_pages g.
Proof using Hl Hg Hn.
  apply (layout_frame descs h g (set_pmem s (set_arena (pmem s) a d c))); [done|apply set_pmem_wf, Hg|apply Hg|..].
  - intros q Hu. change (allocated s q = true). rewrite (gp_alloc _ _ _ _ _ _ Hg).
    rewrite (used_allocated descs h g q Hl Hu). by destruct (in_group a n q).
  - intros x Hx. apply new_mem, new_footprint. by eapply structure_footprint.
Qed.
Lemma new_header : is_u32 d → is_u32 c →
  a_magic (hmem new_pages) a = ARENA_MAGIC ∧ a_desc (hmem new_pages) a = d ∧ a_free_cnt (hmem new_pages) a = c.
Proof.
  intros Hd Hc. change (hmem new_pages) with (set_arena (pmem s) a d c).
  unfold a_magic, a_desc, a_free_cnt, set_arena. split_and!.
  - rewrite !load32_store32_ne by lia. by rewrite load32_store32_eq.
  - rewrite load32_store32_ne by lia. rewrite load32_store32_eq. by apply u32_id.
  - rewrite load32_store32_eq. by apply u32_id.
Qed.
Lemma new_counts : counted h g → counted new_pages g.
Proof using Hl Hg Hn.
  intros Hc a' i Ha'. rewrite <- (Hc a' i Ha'). apply load32_same. intros x Hx.
  apply new_mem, new_footprint. right. left. exists a', i. split; [done|lia].
Qed.
Lemma live_footprint b k x : live g b k → b ≤ x < b + k → footprint descs g x.
Proof using Hl.
  intros [(a' & i & Ha' & Hk & _ & ->)|(a' & c' & Ha' & -> & ->)] Hx; right.
  - left. exists a', i. split; [done|]. destruct (arena_place descs h g Hl a' i Ha') as (Hi & _).
    apply block_bounds in Hk as [? ?]; [lia|done].
  - right. exists a', c'. split; [done|lia].
Qed.
Lemma new_data b k : live g b k → same_bytes (hmem h) (hmem new_pages) b (b + k).
Proof using Hl Hg Hn. intros Hb x Hx. apply new_mem, new_footprint. by eapply live_footprint. Qed.
End NewPages.

Lemma free_count_all xs a : (∀ b, b ∈ xs → page b = a) → free_count xs a = Z.of_nat (length xs).
Proof. intros Hx. unfold free_count. by rewrite filter_all. Qed.
Lemma free_count_none xs a : (∀ b, b ∈ xs → page b ≠ a) → free_count xs a = 0.
Proof.
  intros Hx. induction xs as [|b xs IH]; [done|]. rewrite free_count_cons, decide_False by (apply Hx; left).
  rewrite IH; [done|]. intros c Hc. apply Hx. by right.
Qed.

(** The state after an arena has been made for descriptor [i]. *)
Definition with_arena (g : heap) (a i : Z) : heap :=
  set_frees (set_arenas g (<[a := i]> (arenas g))) i (blocks_from i a 0 (Z.to_nat (per_arena i))).

Lemma live_with_arena h g a i b c :
  layout h g → 0 ≤ i < 7 → a mod 4096 = 0 → ¬ used_page g a → frees g i = [] →
  live (with_arena g a i) b c ↔ live g b c.
Proof.
  intros Hl Hi Hal Hn He. unfold live, with_arena. cbn [arenas bigs set_frees set_arenas].
  assert (arenas g !! a = None) as Ha.
  { destruct (arenas g !! a) eqn:E; [|done]. destruct Hn. left. rewrite E. eauto. }
  split; (intros [(a' & j & Ha' & Hk & Hf & ->)|Hb]; [left|by right]); exists a', j.
  - rewrite frees_set in Hf. destruct (decide (a' = a)) as [->|Hne].
    + rewrite lookup_insert_eq in Ha'. injection Ha' as <-. rewrite decide_True in Hf by done.
      destruct Hf. by apply is_block_from.
    + rewrite lookup_insert_ne in Ha' by congruence. split_and!; try done.
      case_decide as Ej; [subst; rewrite He; apply not_elem_of_nil|done].
  - assert (a' ≠ a) by congruence. rewrite lookup_insert_ne by congruence. split_and!; try done.
    rewrite frees_set. case_decide as Ej; [|done]. subst j. rewrite <- is_block_from by done. intros Hk'.
    destruct (arena_place descs h g Hl a' i Ha') as (_ & Hal' & _).
    rewrite <- (page_block i a' b), <- (page_block i a b) in H by done. done.
Qed.

Lemma live_page h g b n : layout h g → live g b n → used_page g (page b).
Proof.
  intros Hl [(a & j & Ha & Hk & _)|(a & k & Ha & -> & _)].
  - left. destruct (arena_place descs h g Hl a j Ha) as (Hj & Hal & _). rewrite (page_block j a b) by done. eauto.
  - right. exists a, k. split; [done|]. destruct (big_place descs h g Hl a k Ha) as (? & Hm & _).
    unfold in_group, page. rewrite bool_decide_true by (Z.to_euclidean_division_equations; lia).
    Z.to_euclidean_division_equations; lia.
Qed.
Lemma live_more_arenas g a i b n :
  ¬ used_page g a → live g b n → live (set_arenas g (<[a := i]> (arenas g))) b n.
Proof.
  intros Hun [(a' & j & Ha' & Hk & Hf & ->)|Hb]; [left; exists a', j|by right].
  split_and!; try done. cbn [set_arenas arenas]. rewrite lookup_insert_ne; [done|].
  intros <-. destruct Hun. left. eauto.
Qed.

(** A fresh page becomes an arena all of whose blocks are free. *)
Section NewArena.
Context (h : kheap) (g : heap) (s : pstate) (a i : Z).
Context (Hinv : kheap_inv h g) (Hi : 0 ≤ i < 7) (Hg : got_pages (kh h) s false false a 1) (He : frees g i = []).
Local Abbreviation h1 := (new_pages h s a (desc_at i) (per_arena i)).
Local Abbreviation g1 := (set_arenas g (<[a := i]> (arenas g))).
Local Abbreviation all_blocks := (blocks_from i a 0 (Z.to_nat (per_arena i))).

Lemma arena_header : layout h1 g1 ∧ ¬ used_page g a ∧ a_free_cnt (hmem h1) a = per_arena i ∧ a mod 4096 = 0.
Proof using Hinv Hi Hg.
  destruct Hinv as [Hl _]. destruct (new_place h g s a 1 Hl Hg) as (Hal & Hin & _); [lia|].
  destruct (bsize_bounds i Hi) as (Hb1 & Hper & Hper2). destruct (ly_descs _ _ _ Hl) as [Hd1 Hd2].
  destruct (new_header h s a (desc_at i) (per_arena i)) as (Hh1 & Hh2 & Hh3);
    [unfold is_u32, KMalloc.desc_at, DESC_SIZE; lia|unfold is_u32; nia|].
  destruct (new_used h g s a 1 (desc_at i) (per_arena i) Hl Hg a) as [Hua Hun];
    [by rewrite in_group_one, bool_decide_true|].
  split_and!; try done. apply layout_new_arena; try done. by apply (new_layout h g s a 1).
Qed.

Lemma new_arena_spec :
  ∃ m', fill_arena (Z.to_nat (per_arena i)) (hmem h1) (desc_at i) a 0 = Ret m'
    ∧ kheap_inv (set_hmem h1 m') (with_arena g a i)
    ∧ ∀ b c, live g b c → same_bytes (hmem h) m' b (b + c).
Proof using Hinv Hi Hg He.
  destruct arena_header as (Hl1 & Hun & Hh3 & Hal). destruct Hinv as [Hl Hc].
  destruct (bsize_bounds i Hi) as (_ & Hper & _).
  assert (arenas g1 !! a = Some i) as Ha1 by apply lookup_insert_eq.
  destruct (fill_arena_layout descs (Z.to_nat (per_arena i)) h1 g1 a i 0 Hl1 Ha1) as (m' & E & Hl2 & Hm2); [lia|lia|..].
  { intros j _. change (frees g1 i) with (frees g i). rewrite He. apply not_elem_of_nil. }
  change (frees g1 i) with (frees g i) in Hl2, Hm2. rewrite He in Hl2, Hm2. cbn [app] in Hl2, Hm2.
  assert (∀ b, b ∈ all_blocks → page b = a) as Hpg.
  { intros b Hb. apply (page_block i); try done. by apply is_block_from. }
  assert (blocks_of g1 i all_blocks) as Hbo.
  { intros b Hb. exists a. split; [done|]. by apply is_block_from. }
  exists m'. split_and!; [done|split; [exact Hl2|]|].
  - intros a' j Ha'. change (hmem (set_hmem h1 m')) with m'.
    rewrite (count_untouched h1 g1 Hl1 i _ m' a' j Hi Hbo Hm2 Ha'). unfold with_arena. rewrite frees_set.
    change (arenas g1 !! a' = Some j) in Ha'. destruct (decide (a' = a)) as [->|Hne].
    + assert (j = i) as -> by congruence. rewrite decide_True by done.
      rewrite Hh3, free_count_all, blocks_from_length by done. lia.
    + cbn [set_arenas arenas] in Ha'. rewrite lookup_insert_ne in Ha' by congruence.
      rewrite (new_counts h g s a 1 (desc_at i) (per_arena i) Hl Hg ltac:(lia) Hc a' j Ha').
      case_decide as Ej; [|done]. subst j. rewrite He, free_count_nil. symmetry. apply free_count_none.
      intros c Hc'. by rewrite (Hpg c Hc').
  - intros c n Hlive x Hx. rewrite Hm2; [by apply (new_data h g s a 1 (desc_at i) (per_arena i) Hl Hg ltac:(lia) c n)|].
    pose proof (live_more_arenas g a i c n Hun Hlive) as Hl'.
    destruct (live_outside h1 g1 Hl1 c n x Hl' Hx) as (_ & _ & H3). apply H3; try done.
    intros Hin%Hpg. apply Hun. rewrite <- Hin. by eapply live_page.
Qed.
End NewArena.

Lemma refill_spec h g i :
  kheap_inv h g → 0 ≤ i < 7 →
  (∃ h' g' b xs, refill h (desc_at i) = Ret (true, h') ∧ kheap_inv h' g' ∧ frees g' i = b :: xs
     ∧ (∀ b c, live g' b c ↔ live g b c)
     ∧ (∀ b c, live g b c → same_bytes (hmem h) (hmem h') b (b + c)))
  ∨ (refill h (desc_at i) = Ret (false, h) ∧ pool_full (kh h) false 1).
Proof.
  intros Hinv Hi. pose proof Hinv as [Hl Hc]. unfold refill.
  rewrite (list_empty_dll _ _ _ (ly_list _ _ _ Hl i Hi)), bind_Ret. destruct (frees g i) as [|b xs] eqn:Ef.
  2:{ left. rewrite bool_decide_false by done. exists h, g, b, xs. by split_and!. }
  rewrite bool_decide_true by done. cbn [negb]. unfold palloc_get_page.
  destruct (palloc_get_multiple_spec (kh h) 0 1 (ly_palloc _ _ _ Hl)) as [(a & s & -> & Hnn & Hg)|(Hfull & ->)]; [lia|..].
  2:{ right. split; [|done]. change (flag 0 PAL_ASSERT) with false. cbn iota. rewrite bind_Ret, Z.eqb_refl.
      by destruct h. }
  left. rewrite bind_Ret. destruct (Z.eqb_spec a NULL) as [|_]; [done|].
  change (flag 0 PAL_USER) with false in Hg. change (flag 0 PAL_ZERO) with false in Hg.
  destruct (new_place h g s a 1 Hl Hg) as (_ & _ & _ & _ & _ & Hap); [lia|].
  assert (d_blocks_per_arena (pmem s) (desc_at i) = per_arena i) as Ed.
  { rewrite <- (proj2 (ly_desc _ _ _ Hl i Hi)). apply load32_same. intros x Hx.
    apply (gp_mem _ _ _ _ _ _ Hg). unfold KMalloc.desc_at, DESC_SIZE in Hx. lia. }
  change (hmem (KHeap s (desc_cnt h))) with (pmem s). rewrite Ed.
  destruct (new_arena_spec h g s a i Hinv Hi Hg Ef) as (m' & E & Hinv' & Hdata).
  change (hmem (new_pages h s a (desc_at i) (per_arena i))) with (set_arena (pmem s) a (desc_at i) (per_arena i)) in E.
  rewrite E, bind_Ret. destruct (arena_header h g s a i Hinv Hi Hg) as (_ & Hun & _ & Hal).
  destruct (bsize_bounds i Hi) as (_ & Hper & _).
  destruct (blocks_from i a 0 (Z.to_nat (per_arena i))) as [|b xs] eqn:Ebl.
  { apply (f_equal length) in Ebl. rewrite blocks_from_length in Ebl. cbn in Ebl. lia. }
  exists (set_hmem (KHeap s (desc_cnt h)) m'), (with_arena g a i), b, xs. split_and!; [done|exact Hinv'|..].
  - unfold with_arena. by rewrite frees_set, decide_True.
  - intros c n. by apply (live_with_arena h).
  - exact Hdata.
Qed.

(** ** [malloc] *)
Definition big_pages (size : Z) : Z := (size + 4107) / 4096.

Lemma malloc_big_spec h g size :
  kheap_inv h g → 1024 < size → size + 4107 < 4294967296 →
  (∃ r h' g', malloc_big h size = Ret (r, h') ∧ r ≠ NULL ∧ gave h h' g g' r (4096 * big_pages size - 12)
     ∧ size ≤ 4096 * big_pages size - 12)
  ∨ (malloc_big h size = Ret (NULL, h) ∧ pool_full (kh h) false (big_pages size)).
Proof.
  intros [Hl Hc] Hs1 Hs2. unfold malloc_big. change ARENA_SIZE with 12. change PGSIZE with 4096.
  assert (DIV_ROUND_UP (u32 (size + 12)) 4096 = big_pages size) as ->.
  { unfold DIV_ROUND_UP, big_pages. rewrite !u32_id by (unfold is_u32; rewrite ?u32_id; unfold is_u32; lia).
    f_equal. lia. }
  set (n := big_pages size). assert (0 < n < 1048576 ∧ size ≤ 4096 * n - 12) as [Hn Hsz].
  { unfold n, big_pages. Z.to_euclidean_division_equations; lia. }
  destruct (palloc_get_multiple_spec (kh h) 0 n (ly_palloc _ _ _ Hl)) as [(a & s & -> & Hnn & Hg)|(Hfull & ->)]; [lia|..].
  2:{ right. split; [|done]. change (flag 0 PAL_ASSERT) with false. cbn iota. rewrite bind_Ret, Z.eqb_refl. by destruct h. }
  left. rewrite bind_Ret. destruct (Z.eqb_spec a NULL) as [|_]; [done|].
  change (flag 0 PAL_USER) with false in Hg. change (flag 0 PAL_ZERO) with false in Hg.
  destruct (new_place h g s a n Hl Hg) as (Hal & Hin & Hend & Hlow & Hhi & Hap); [lia|].
  rewrite u32_id by (unfold is_u32; lia).
  set (h1 := new_pages h s a NULL n). pose proof (new_layout h g s a n NULL n Hl Hg ltac:(lia)) as Hl0.
  destruct (new_header h s a NULL n) as (Hh1 & Hh2 & Hh3); [done|unfold is_u32; lia|].
  pose proof (new_used h g s a n NULL n Hl Hg) as Hu.
  assert (layout h1 (set_bigs g (<[a := n]> (bigs g)))) as Hl1 by (by apply layout_new_big).
  assert (¬ used_page g a) as Hun.
  { apply (Hu a). unfold in_group. rewrite bool_decide_true by done. lia. }
  assert (bigs g !! a = None) as Hb.
  { destruct (bigs g !! a) as [k|] eqn:E; [|done]. destruct Hun. right. exists a, k. split; [done|].
    destruct (big_place descs h g Hl a k E) as (? & _). unfold in_group. rewrite bool_decide_true by done. lia. }
  exists (a + 12), h1, (set_bigs g (<[a := n]> (bigs g))). split_and!; [done|unfold NULL; lia| |done].
  split.
  - split; [done|]. exact (new_counts h g s a n NULL n Hl Hg ltac:(lia) Hc).
  - intros b c. unfold live. cbn [set_bigs arenas bigs]. split.
    + intros [Hx|(a' & k & Ha' & -> & ->)]; [by left; left|]. destruct (decide (a' = a)) as [->|Hne].
      * rewrite lookup_insert_eq in Ha'. injection Ha' as <-. by right.
      * rewrite lookup_insert_ne in Ha' by congruence. left. right. by exists a', k.
    + intros [[Hx|(a' & k & Ha' & -> & ->)]|[-> ->]]; [by left|..]; right.
      * exists a', k. split; [|done]. rewrite lookup_insert_ne; [done|congruence].
      * exists a, n. split; [apply lookup_insert_eq|done].
  - intros c Hlive. apply Hun. replace a with (page (a + 12)) by (unfold page; Z.to_euclidean_division_equations; lia).
    by eapply live_page.
  - intros b c Hlive. by apply (new_data h g s a n NULL n Hl Hg ltac:(lia)).
Qed.

(** The smallest descriptor whose blocks are large enough. *)
Lemma find_desc_spec h g size : layout h g → ∀ n k,
  0 ≤ k → k + Z.of_nat n = 7 → (∀ j, 0 ≤ j < k → bsize j < size) →
  match find_desc descs n (hmem h) k size with
  | Some d => ∃ i, 0 ≤ i < 7 ∧ d = desc_at i ∧ size ≤ bsize i ∧ ∀ j, 0 ≤ j < i → bsize j < size
  | None => ∀ j, 0 ≤ j < 7 → bsize j < size
  end.
Proof.
  intros Hl. induction n as [|n IH]; intros k Hk Hn Hj; cbn [find_desc].
  - intros j Hj'. apply Hj. lia.
  - destruct (ly_desc _ _ _ Hl k) as [-> _]; [lia|]. destruct (Z.leb_spec size (bsize k)).
    + exists k. split_and!; try done; lia.
    + apply IH; [lia|lia|]. intros j Hj'. destruct (decide (j = k)) as [->|]; [done|]. apply Hj. lia.
Qed.

(** The size of the block a request gets, and the pages it may need. *)
Definition block_for (size n pages : Z) : Prop :=
  (∃ i, 0 ≤ i < 7 ∧ n = bsize i ∧ size ≤ n ∧ (∀ j, 0 ≤ j < i → bsize j < size) ∧ pages = 1)
  ∨ (1024 < size ∧ n = 4096 * pages - 12 ∧ size ≤ n ∧ pages = big_pages size).

Lemma kmalloc_spec h g size :
  kheap_inv h g → 0 ≤ size → size + 4107 < 4294967296 →
  ∃ r h', malloc descs h size = Ret (r, h') ∧
    ((r = NULL ∧ h' = h ∧ (size = 0 ∨ ∃ n k, block_for size n k ∧ pool_full (kh h) false k))
     ∨ (r ≠ NULL ∧ ∃ n k g', block_for size n k ∧ gave h h' g g' r n)).
Proof.
  intros Hinv H0 Hs. pose proof Hinv as [Hl _]. unfold malloc.
  destruct (Z.eqb_spec size 0) as [->|Hne]; [by exists NULL, h; split; [|left; split; [|split; [|left]]]|].
  rewrite (ly_cnt _ _ _ Hl). change (Z.to_nat 7) with 7%nat.
  pose proof (find_desc_spec h g size Hl 7 0 ltac:(lia) ltac:(lia) ltac:(lia)) as Hf.
  destruct (find_desc descs 7 (hmem h) 0 size) as [d|].
  - destruct Hf as (i & Hi & -> & Hb & Hmin).
    assert (block_for size (bsize i) 1) as Hbf by (left; exists i; split; [done|]; by split_and!).
    destruct (refill_spec h g i Hinv Hi) as [(h1 & g1 & b & xs & -> & Hinv1 & Ef & Hlive & Hdata)|(-> & Hfull)];
      rewrite bind_Ret; cbn [negb].
    + destruct (take_block_spec h1 g1 i b xs Hinv1 Hi Ef) as (h2 & -> & [Hinv2 Hl2 Hn2 Hd2]).
      exists b, h2. split; [done|]. right. split.
      { pose proof (proj2 (Hl2 b (bsize i)) (or_intror (conj eq_refl eq_refl))) as Hlb.
        destruct Hinv2 as [Hly2 _]. pose proof (live_place descs _ _ Hly2 _ _ Hlb). unfold NULL. lia. }
      exists (bsize i), 1, (set_frees g1 i xs). split; [done|]. split; [done|..].
      * intros c n. by rewrite Hl2, Hlive.
      * intros c. rewrite <- Hlive. apply Hn2.
      * intros c n Hc x Hx. rewrite (Hd2 c n); [by apply (Hdata c n)|by apply Hlive|done].
    + exists NULL, h. split; [done|]. left. split_and!; [done|done|]. right. eauto.
  - assert (1024 < size) as Hbig by (apply (Hf 6); lia).
    destruct (malloc_big_spec h g size Hinv Hbig Hs) as [(r & h' & g' & -> & Hr & Hg & Hsz)|(-> & Hfull)].
    + exists r, h'. split; [done|]. right. split; [done|].
      exists (4096 * big_pages size - 12), (big_pages size), g'. split; [|done]. by right.
    + exists NULL, h. split; [done|]. left. split_and!; [done|done|]. right.
      exists (4096 * big_pages size - 12), (big_pages size). split; [|done]. right. split_and!; try done.
      unfold big_pages. Z.to_euclidean_division_equations; lia.
Qed.

(** ** [free] *)

(** What a successful [free] has done: [p] is no block any more. *)
Record took (h h' : kheap) (g g' : heap) (p : Z) : Prop := {
  tk_inv : kheap_inv h' g';
  tk_live : ∀ b c, live g' b c ↔ live g b c ∧ b ≠ p;
  tk_data : ∀ b c, live g b c → b ≠ p → same_bytes (hmem h) (hmem h') b (b + c);
}.

(** A block goes back to the front of its free list. *)
Section PutBack.
Context (h : kheap) (g : heap) (a i p : Z).
Context (Hinv : kheap_inv h g) (Ha : arenas g !! a = Some i) (Hk : is_block i a p) (Hp : p ∉ frees g i).
Local Abbreviation g2 := (set_frees g i (p :: frees g i)).

Lemma put_back_count :
  0 ≤ i < 7 ∧ a mod 4096 = 0 ∧ free_count (p :: frees g i) a = free_count (frees g i) a + 1
  ∧ free_count (p :: frees g i) a ≤ per_arena i
  ∧ (free_count (p :: frees g i) a = per_arena i → ∀ b, is_block i a b → b ∈ p :: frees g i).
Proof using Hinv Ha Hk Hp.
  destruct Hinv as [Hl Hc]. destruct (arena_place descs h g Hl a i Ha) as (Hi & Hal & _).
  destruct (count_bound (p :: frees g i) i a) as [H1 H2]; [done|..].
  - constructor; [done|]. by apply (frees_nodup descs h g Hl).
  - intros b [->|Hb]%elem_of_cons; [done|]. intros Ep.
    destruct (ly_free _ _ _ Hl i b Hi Hb) as (a' & Ha' & Hk').
    destruct (arena_place descs h g Hl a' i Ha') as (_ & Hal' & _). rewrite (page_block i a' b) in Ep by done. by subst.
  - split_and!; try done; try lia. rewrite free_count_cons, (page_block i a p), decide_True by done. done.
Qed.

Lemma put_back_spec :
  ∃ m2, list_push_front (hmem h) (d_free_list (desc_at i)) p = Ret m2
    ∧ a_free_cnt m2 a = free_count (frees g i) a
    ∧ took h (set_hmem h (set_free_cnt m2 a (free_count (p :: frees g i) a))) g g2 p.
Proof using Hinv Ha Hk Hp.
  destruct put_back_count as (Hi & Hal & Ecnt & Hle & _). destruct Hinv as [Hl Hc].
  destruct (push_front_layout descs h g Hl a i p Ha Hk Hp) as (m2 & E & Hl2 & Hm2). exists m2. split; [exact E|].
  assert (blocks_of g i (p :: frees g i)) as Hbl.
  { eapply blocks_more; [by apply (frees_blocks descs h g Hl)|done|done]. }
  pose proof (count_untouched h g Hl i _ m2 a i Hi Hbl Hm2 Ha) as E2. rewrite (Hc a i Ha) in E2.
  split; [exact E2|]. set (n := free_count (p :: frees g i) a) in *.
  assert (is_u32 n) as Hu.
  { pose proof (free_count_nonneg (p :: frees g i) a). destruct (bsize_bounds i Hi). unfold is_u32. nia. }
  assert (∀ a' j, arenas g !! a' = Some j → a = a' ∨ a + 12 ≤ a' ∨ a' + 12 ≤ a) as Hap.
  { intros a' j Ha'. destruct (decide (a = a')); [by left|right].
    destruct (arenas_apart descs h g Hl a i a' j Ha Ha'); [done|lia|lia]. }
  split.
  - split; [by apply (layout_count _ _ i a n Hl2)|]. intros a' j Ha'. change (arenas g !! a' = Some j) in Ha'.
    change (hmem (set_hmem h (set_free_cnt m2 a n))) with (set_free_cnt m2 a n).
    rewrite frees_set, count_set by (done || by eapply Hap). case_decide as Ea.
    + subst. by rewrite decide_True by congruence.
    + rewrite (count_untouched h g Hl i _ m2 a' j Hi Hbl Hm2 Ha'), (Hc a' j Ha').
      case_decide as Ej; [|done]. subst j. rewrite free_count_cons, (page_block i a p), decide_False by done. lia.
  - intros b c. unfold live. cbn [set_frees arenas bigs]. split.
    + intros [(a' & j & Ha' & Hk' & Hf & ->)|(a' & k & Ha' & -> & ->)].
      * rewrite frees_set in Hf. split; [left; exists a', j; split_and!; try done; case_decide; [subst; set_solver|done]|].
        intros ->. destruct (arena_place descs h g Hl a' j Ha') as (Hj & Hal' & _).
        pose proof (page_block j a' p Hj Hal' Hk') as E1. pose proof (page_block i a p Hi Hal Hk) as E3.
        assert (a' = a) as -> by congruence.
        assert (j = i) as -> by congruence. rewrite decide_True in Hf by done. apply Hf. left.
      * split; [right; by exists a', k|]. intros <-. destruct (big_place descs h g Hl a' k Ha') as (? & _).
        pose proof (block_bounds i a _ Hi Hk). destruct (bsize_bounds i Hi) as (? & _).
        destruct (arena_big_apart descs h g Hl a i a' k Ha Ha'); lia.
    + intros [[(a' & j & Ha' & Hk' & Hf & ->)|Hb] Hne]; [left|by right]. exists a', j. split_and!; try done.
      rewrite frees_set. case_decide; [subst; set_solver|done].
  - intros b c Hlive Hne x Hx. change (hmem (set_hmem h (set_free_cnt m2 a n))) with (set_free_cnt m2 a n).
    destruct (live_outside h g Hl b c x Hlive Hx) as (_ & H2 & H3). specialize (H2 a i Ha).
    unfold set_free_cnt. rewrite load8_store32_ne by lia. apply Hm2, H3; try done.
    intros [->|Hin]%elem_of_cons; [done|]. by apply (live_not_free h g Hl b c i Hlive Hi).
Qed.
End PutBack.

(** An arena without live blocks is emptied and its page freed. *)
Section Drained.
Context (h : kheap) (g : heap) (a i : Z).
Context (Hinv : kheap_inv h g) (Ha : arenas g !! a = Some i) (Hall : ∀ b, is_block i a b → b ∈ frees g i).
Local Abbreviation others := (filter (λ b, b ∉ blocks_from i a 0 (Z.to_nat (per_arena i))) (frees g i)).
Local Abbreviation g2 := (set_arenas (set_frees g i others) (delete a (arenas g))).

Lemma elem_of_others b : b ∈ others ↔ b ∈ frees g i ∧ ¬ is_block i a b.
Proof using Hinv Ha.
  destruct Hinv as [Hl _]. destruct (arena_place descs h g Hl a i Ha) as (Hi & _).
  rewrite list_elem_of_filter, <- is_block_from by done. tauto.
Qed.
Lemma others_count a' : a' ≠ a → free_count others a' = free_count (frees g i) a'.
Proof using Hinv Ha.
  intros Hne. destruct Hinv as [Hl _]. destruct (arena_place descs h g Hl a i Ha) as (Hi & Hal & _).
  unfold free_count. rewrite list_filter_filter. do 2 f_equal. apply list_filter_iff. intros b.
  rewrite <- is_block_from by done. split; [by intros [? ?]|]. intros Ep. split; [done|].
  intros Hk. apply Hne. by rewrite <- Ep, (page_block i a b).
Qed.
Lemma drained_live b c : live g2 b c ↔ live g b c.
Proof using Hinv Ha Hall.
  destruct Hinv as [Hl _]. destruct (arena_place descs h g Hl a i Ha) as (Hi & Hal & _).
  unfold live. cbn [set_arenas set_frees arenas bigs]. split; (intros [(a' & j & Ha' & Hk & Hf & ->)|Hb]; [left|by right]);
    exists a', j; change (frees g2 j) with (frees (set_frees g i others) j) in *; rewrite frees_set in *.
  - apply lookup_delete_Some in Ha' as [Hne Ha']. split_and!; try done. case_decide as Ej; [|done]. subst j.
    rewrite elem_of_others in Hf. intros Hin. apply Hf. split; [done|]. intros Hk'. apply Hne.
    destruct (arena_place descs h g Hl a' i Ha') as (_ & Hal' & _).
    pose proof (page_block i a' b Hi Hal' Hk). pose proof (page_block i a b Hi Hal Hk'). congruence.
  - assert (a' ≠ a) as Hne.
    { intros ->. assert (j = i) as -> by congruence. by apply Hf, Hall. }
    rewrite lookup_delete_ne by congruence. split_and!; try done. case_decide as Ej; [|done]. subst j.
    rewrite elem_of_others. tauto.
Qed.

Lemma drained_spec :
  ∃ m' s', drain_arena (Z.to_nat (per_arena i)) (hmem h) a 0 = Ret m'
    ∧ palloc_free_page (set_pmem (kh h) m') a = Ret s' ∧ kheap_inv (KHeap s' (desc_cnt h)) g2
    ∧ ∀ b c, live g b c → same_bytes (hmem h) (pmem s') b (b + c).
Proof using Hinv Ha Hall.
  pose proof others_count as Hoc. pose proof drained_live as Hdl. pose proof elem_of_others as Heo.
  destruct Hinv as [Hl Hc]. destruct (arena_place descs h g Hl a i Ha) as (Hi & Hal & _).
  destruct (bsize_bounds i Hi) as (_ & Hper & _).
  destruct (drain_arena_layout descs (Z.to_nat (per_arena i)) h g a i 0 Hl Ha) as (m' & E & Hl1 & Hm1); [lia|lia|..].
  { intros j Hj. apply Hall. by exists j. }
  assert (layout (set_hmem h m') g2) as Hl2.
  { apply (layout_drop_arena descs _ (set_frees g i others) a i Hl1 Ha). intros b.
    rewrite frees_set, decide_True by done. rewrite Heo. tauto. }
  destruct (palloc_free_page_spec (set_pmem (kh h) m') a) as (s' & E' & Hp & Hg & Hal' & Hm').
  { apply set_pmem_wf, Hl. }
  { by apply (ly_arena _ _ _ Hl a i). }
  exists m', s'. split; [done|]. split; [done|].
  assert (∀ x, footprint descs g2 x → x < a ∨ a + 4096 ≤ x) as Hfp.
  { intros x [Hx|[(a' & j & Ha' & Hx)|(a' & k & Ha' & Hx)]].
    - destruct (arena_place descs h g Hl a i Ha) as (_ & _ & _ & _ & ?). lia.
    - cbn [set_arenas arenas] in Ha'. apply lookup_delete_Some in Ha' as [Hne Ha']. destruct (arenas_apart descs h g Hl a i a' j Ha Ha' Hne); lia.
    - destruct (arena_big_apart descs h g Hl a i a' k Ha Ha'); lia. }
  pose proof (frees_blocks descs h g Hl i Hi) as Hbl. split; [split|].
  - apply (layout_frame descs (set_hmem h m') g2 s' Hl2 Hp Hg).
    + intros q Hu. rewrite Hal'. rewrite decide_False.
      * by apply (used_allocated descs (set_hmem h m') g2 q Hl2).
      * intros ->. destruct Hu as [[j Hj]|(a' & k & Ha' & Hq)].
        { cbn [set_arenas arenas] in Hj. by rewrite lookup_delete_eq in Hj. }
        destruct (ly_big _ _ _ Hl a' k Ha') as (_ & _ & _ & Hgr & _). destruct (Hgr a Hq). congruence.
    + intros x Hx. apply Hm', Hfp. by eapply structure_footprint.
  - intros a' j Ha'. cbn [set_arenas arenas] in Ha'. apply lookup_delete_Some in Ha' as [Hne Ha'].
    change (frees g2 j) with (frees (set_frees g i others) j). rewrite frees_set.
    assert (a_free_cnt (pmem s') a' = a_free_cnt m' a') as Ecn.
    { apply load32_same. intros x Hx. apply Hm'. destruct (arenas_apart descs h g Hl a i a' j Ha Ha' Hne); lia. }
    change (hmem (KHeap s' (desc_cnt h))) with (pmem s').
    rewrite Ecn, (count_untouched h g Hl i _ m' a' j Hi Hbl Hm1 Ha'), (Hc a' j Ha'). case_decide as Ej; [|done].
    subst j. symmetry. by apply Hoc.
  - intros b c Hlive x Hx. destruct (live_outside h g Hl b c x Hlive Hx) as (_ & _ & H3).
    rewrite Hm'.
    + apply Hm1, H3; try done. by apply (live_not_free h g Hl b c i Hlive Hi).
    + apply Hfp. apply Hdl in Hlive. by apply (live_footprint (set_hmem h m') g2 Hl2 b c).
Qed.
End Drained.

Lemma free_small_spec h g a i p :
  kheap_inv h g → arenas g !! a = Some i → is_block i a p → p ∉ frees g i →
  ∃ h' g', free h p = Ret h' ∧ took h h' g g' p.
Proof.
  intros Hinv Ha Hk Hf. pose proof Hinv as [Hl Hc].
  destruct (arena_place descs h g Hl a i Ha) as (Hi & Hal & Hlo & Hhi & Hap).
  destruct (bsize_bounds i Hi) as (Hbs & Hper & Hper2). pose proof (block_bounds i a p Hi Hk) as [Hb1 Hb2].
  destruct (ly_descs _ _ _ Hl) as [Hd1 Hd2]. destruct (ly_arena _ _ _ Hl a i Ha) as (_ & _ & _ & _ & Ed).
  assert (live g p (bsize i)) as Hlive by (left; exists a, i; by split_and!).
  unfold free. destruct (Z.eqb_spec p NULL) as [|_]; [unfold NULL in *; lia|].
  rewrite (block_to_arena_eq descs h g Hl a i p Ha Hk), bind_Ret, Ed, (proj1 (ly_desc _ _ _ Hl i Hi)).
  destruct (Z.eqb_spec (desc_at i) NULL) as [E|_]; [unfold KMalloc.desc_at, DESC_SIZE, NULL in E; lia|]. cbn [negb].
  unfold memset. rewrite ASSERT_true by (apply orb_true_iff; left; unfold NULL; lia). rewrite bind_Ret.
  set (m1 := fill (hmem h) p 204 (Z.to_nat (bsize i))).
  assert (∀ x, x < p ∨ p + bsize i ≤ x → load8 m1 x = load8 (hmem h) x) as Hm1.
  { intros x Hx. unfold m1. rewrite load8_fill, decide_False by lia. done. }
  pose proof (inv_client_write h g p (bsize i) m1 Hinv Hlive Hm1) as Hinv1.
  destruct (put_back_count (set_hmem h m1) g a i p Hinv1 Ha Hk Hf) as (_ & _ & Ecnt & Hle & Hfull).
  destruct (put_back_spec (set_hmem h m1) g a i p Hinv1 Ha Hk Hf) as (m2 & E2 & Ec2 & [Hinv3 Hlv3 Hdt3]).
  change (hmem (set_hmem h m1)) with m1 in E2. rewrite E2, bind_Ret, Ec2, <- Ecnt.
  set (g2 := set_frees g i (p :: frees g i)) in *. set (n := free_count (p :: frees g i) a) in *.
  assert (is_u32 n) as Hu by (pose proof (free_count_nonneg (p :: frees g i) a); unfold is_u32; nia).
  rewrite (u32_id n Hu). set (m3 := set_free_cnt m2 a n) in *. set (h3 := set_hmem h m3).
  change (set_hmem (set_hmem h m1) m3) with h3 in *.
  assert (∀ b c, live g b c → b ≠ p → same_bytes (hmem h) m3 b (b + c)) as Hdata.
  { intros b c Hlb Hne x Hx. rewrite (Hdt3 b c Hlb Hne x Hx : load8 m3 x = _). apply Hm1.
    destruct (live_disjoint descs h g Hl b c p (bsize i) Hlb Hlive Hne); lia. }
  destruct Hinv3 as [Hl3 Hc3]. rewrite (proj2 (ly_desc _ _ _ Hl3 i Hi) : d_blocks_per_arena m3 (desc_at i) = _).
  assert (a_free_cnt m3 a = n) as En by (unfold m3; rewrite count_set, decide_True by (done || by left); done). rewrite En.
  destruct (Z.leb_spec (per_arena i) n) as [Hge|Hlt].
  - assert (n = per_arena i) as Eq by lia. rewrite ASSERT_true by lia.
    destruct (drained_spec h3 g2 a i) as (m4 & s4 & E4 & E5 & Hinv4 & Hd4); [done|done|..].
    { unfold g2. rewrite frees_set, decide_True by done. by apply Hfull. }
    change (hmem h3) with m3 in E4. rewrite E4, bind_Ret.
    change (set_pmem (kh h3) m4) with (set_pmem (kh h) m4) in E5. rewrite E5, bind_Ret.
    eexists _, _. split; [reflexivity|]. split; [exact Hinv4|..].
    + intros b c. rewrite drained_live; [by apply Hlv3|done|done|].
      unfold g2. rewrite frees_set, decide_True by done. by apply Hfull.
    + intros b c Hlb Hne x Hx. change (load8 (pmem s4) x = load8 (hmem h) x).
      rewrite (Hd4 b c); [by apply (Hdata b c)|by apply Hlv3|done].
  - exists h3, g2. by split.
Qed.

Lemma kernel_page_used s q :
  palloc_wf s → in_pool (kernel_pool s) q = true → allocated s q = true → page_used (kernel_pool s) q = true.
Proof.
  intros Hw Hin Ha. unfold allocated in Ha. apply orb_true_iff in Ha as [|Hu]; [done|].
  unfold page_used in Hu. apply andb_true_iff in Hu as [Hu _]. destruct (in_pool_disj s q Hw); done.
Qed.

Lemma free_big_spec h g a n :
  kheap_inv h g → bigs g !! a = Some n → ∃ h' g', free h (a + 12) = Ret h' ∧ took h h' g g' (a + 12).
Proof.
  intros [Hl Hc] Ha. destruct (big_place descs h g Hl a n Ha) as (Hn & Hal & Hlo & Hhi & Hap).
  destruct (ly_big _ _ _ Hl a n Ha) as (_ & Hin & Hend & Hgr & _ & Ed & Ec).
  unfold free. destruct (Z.eqb_spec (a + 12) NULL) as [|_]; [unfold NULL in *; lia|].
  rewrite (big_to_arena_eq descs h g Hl a n Ha), bind_Ret, Ed. cbn [negb Z.eqb NULL]. rewrite Ec.
  destruct (palloc_free_multiple_spec (kh h) false a n) as (s' & -> & Hp & Hg & Hal' & Hm');
    [apply Hl|lia|done|done|..].
  { intros q Hq. apply kernel_page_used; [apply Hl| |by apply Hgr].
    unfold in_group in Hq. rewrite !andb_true_iff, bool_decide_eq_true in Hq. apply in_pool_spec in Hin.
    apply in_pool_spec. lia. }
  rewrite bind_Ret. set (g2 := set_bigs g (delete a (bigs g))).
  assert (layout h g2) as Hl2 by (by apply layout_drop_big).
  assert (∀ x, footprint descs g2 x → x < a ∨ a + 4096 * n ≤ x) as Hfp.
  { intros x [Hx|[(a' & j & Ha' & Hx)|(a' & k & Ha' & Hx)]]; [lia|..].
    - destruct (arena_big_apart descs h g Hl a' j a n Ha' Ha); lia.
    - cbn [g2 set_bigs bigs] in Ha'. apply lookup_delete_Some in Ha' as [Hne Ha'].
      destruct (ly_bigs _ _ _ Hl a n a' k Ha Ha' Hne); lia. }
  exists (KHeap s' (desc_cnt h)), g2. split; [done|].
  assert (∀ b c, live g2 b c ↔ live g b c ∧ b ≠ a + 12) as Hlv.
  { intros b c. unfold live. cbn [g2 set_bigs arenas bigs]. change (frees g2) with (frees g). split.
    - intros [(a' & j & Ha' & Hk & Hf & ->)|(a' & k & Ha' & -> & ->)].
      + split; [left; by exists a', j|]. intros ->.
        destruct (arena_place descs h g Hl a' j Ha') as (Hj & _). apply block_bounds in Hk as [? ?]; [|done].
        destruct (bsize_bounds j Hj) as (? & _). destruct (arena_big_apart descs h g Hl a' j a n Ha' Ha); lia.
      + apply lookup_delete_Some in Ha' as [Hne Ha']. split; [right; by exists a', k|lia].
    - intros [[Hb|(a' & k & Ha' & -> & ->)] Hne]; [by left|right]. exists a', k. split; [|done].
      rewrite lookup_delete_ne; [done|]. intros ->. done. }
  split; [split|done|].
  - apply (layout_frame descs h g2 s' Hl2 Hp Hg).
    + intros q Hu. rewrite Hal'. rewrite (used_allocated descs h g2 q Hl2 Hu).
      destruct (in_group a n q) eqn:Eq; [|done]. exfalso. destruct Hu as [[j Hj]|(a' & k & Ha' & Hq)].
      * destruct (Hgr q Eq) as [_ HN]. cbn [g2 set_bigs arenas] in Hj. congruence.
      * cbn [g2 set_bigs bigs] in Ha'. apply lookup_delete_Some in Ha' as [Hne Ha'].
        unfold in_group in *. rewrite !andb_true_iff in *. destruct (ly_bigs _ _ _ Hl a n a' k Ha Ha' Hne); lia.
    + intros x Hx. apply Hm', Hfp. by eapply structure_footprint.
  - intros a' j Ha'. change (frees g2 j) with (frees g j). rewrite <- (Hc a' j Ha'). apply load32_same. intros x Hx. apply Hm', Hfp. right. left.
    exists a', j. split; [done|lia].
  - intros b c Hlb Hne x Hx. apply Hm', Hfp. apply (live_footprint h g2 Hl2 b c); [by apply Hlv|done].
Qed.

Lemma kfree_spec h g p n : kheap_inv h g → live g p n → ∃ h' g', free h p = Ret h' ∧ took h h' g g' p.
Proof.
  intros Hinv [(a & i & Ha & Hk & Hf & _)|(a & c & Ha & -> & _)].
  - by eapply free_small_spec.
  - by eapply free_big_spec.
Qed.

(** ** Initialisation *)

(** The state before [malloc_init]: the descriptors lie outside the page pools. *)
Record boot_ok (h : kheap) : Prop := {
  bo_palloc : palloc_wf (kh h);
  bo_descs : 0 < descs ∧ descs + 480 ≤ 4294967296;
  bo_apart : ∀ u, descs + 480 ≤ base (get_pool (kh h) u) ∨ pool_end (get_pool (kh h) u) ≤ descs;
}.
Definition desc_ready (m : mem) (j : Z) : Prop :=
  d_block_size m (desc_at j) = bsize j ∧ d_blocks_per_arena m (desc_at j) = per_arena j
  ∧ dll m (d_free_list (desc_at j)) [].

Lemma desc_ready_same m m' j : same_bytes m m' (desc_at j) (desc_at j + 24) → desc_ready m j → desc_ready m' j.
Proof.
  intros Hm (H1 & H2 & H3). split_and!.
  - rewrite <- H1. apply load32_same. intros x Hx. apply Hm. lia.
  - rewrite <- H2. apply load32_same. intros x Hx. apply Hm. lia.
  - apply (dll_same m); [|done]. intros n Hn x Hx. apply Hm. unfold nodes, d_free_list, head_of, tail_of in Hn.
    cbn in Hn. rewrite elem_of_cons, list_elem_of_singleton in Hn. lia.
Qed.

Lemma init_desc m j :
  0 ≤ j < 7 → 0 < descs ∧ descs + 480 ≤ 4294967296 →
  ∃ m', list_init (store32 (store32 m (desc_at j) (bsize j)) (desc_at j + 4) ((PGSIZE - ARENA_SIZE) / bsize j))
          (d_free_list (desc_at j)) = Ret m'
    ∧ desc_ready m' j ∧ ∀ x, x < desc_at j ∨ desc_at j + 24 ≤ x → load8 m' x = load8 m x.
Proof.
  intros Hj [Hd1 Hd2]. destruct (bsize_bounds j Hj) as (Hb & Hp & Hp2). set (d := desc_at j).
  assert (descs ≤ d ∧ d + 48 ≤ descs + 480) as [? ?] by (unfold d, KMalloc.desc_at, DESC_SIZE; lia).
  change ((PGSIZE - ARENA_SIZE) / bsize j) with (per_arena j).
  set (m1 := store32 (store32 m d (bsize j)) (d + 4) (per_arena j)).
  destruct (list_init_dll m1 (d_free_list d)) as (m' & -> & Hdll & Hs); [unfold d_free_list; lia..|].
  assert (∀ x, x < d + 8 ∨ d + 24 ≤ x → load8 m' x = load8 m1 x) as Hm.
  { intros x Hx. apply Hs. unfold nodes, d_free_list, head_of, tail_of. cbn. rewrite !Forall_cons. split_and!; [lia|lia|done]. }
  exists m'. split; [done|]. split; [split_and!; [..|done]|].
  - unfold d_block_size. rewrite (load32_same m1) by (intros x Hx; apply Hm; lia). unfold m1.
    rewrite load32_store32_ne, load32_store32_eq by lia. apply u32_id. unfold is_u32. lia.
  - unfold d_blocks_per_arena. rewrite (load32_same m1) by (intros x Hx; apply Hm; lia). unfold m1.
    rewrite load32_store32_eq. apply u32_id. unfold is_u32. nia.
  - intros x Hx. rewrite Hm by lia. unfold m1. by rewrite !load8_store32_ne by lia.
Qed.

Lemma init_loop_spec n : ∀ h j fuel,
  boot_ok h → desc_cnt h = j → 0 ≤ j → j + Z.of_nat n = 7 → (n < fuel)%nat →
  (∀ i, 0 ≤ i < j → desc_ready (hmem h) i) →
  ∃ h', init_loop descs fuel h (bsize j) = Ret h' ∧ boot_ok h' ∧ desc_cnt h' = 7
    ∧ ∀ i, 0 ≤ i < 7 → desc_ready (hmem h') i.
Proof.
  induction n as [|n IH]; intros h j fuel Hb Hc Hj Hn Hf Hr; destruct fuel as [|fuel]; try lia; cbn [init_loop].
  - assert (j = 7) as -> by lia. by exists h.
  - destruct (bsize_bounds j) as (Hbs & _); [lia|]. change (PGSIZE / 2) with 2048.
    destruct (Z.ltb_spec (bsize j) 2048); [|lia]. cbn [desc_cnt]. rewrite Hc.
    rewrite ASSERT_true by (unfold MAX_DESCS; lia). change (hmem (KHeap (kh h) (j + 1))) with (hmem h).
    destruct (init_desc (hmem h) j) as (m' & -> & Hrj & Hm'); [lia|apply Hb|]. rewrite bind_Ret.
    replace (u32 (bsize j * 2)) with (bsize (j + 1)).
    2:{ unfold bsize in *. rewrite Z.pow_add_r by lia. rewrite u32_id by (unfold is_u32; lia). lia. }
    apply IH; try done; try lia.
    + destruct Hb as [B1 B2 B3]. split; [by apply set_pmem_wf|done|done].
    + intros i Hi. change (hmem (set_hmem (KHeap (kh h) (j + 1)) m')) with m'.
      destruct (decide (i = j)) as [->|Hne]; [done|]. apply (desc_ready_same (hmem h)); [|apply Hr; lia].
      intros x Hx. apply Hm'. unfold KMalloc.desc_at, DESC_SIZE in *. lia.
Qed.

Lemma malloc_init_spec h :
  boot_ok h → desc_cnt h = 0 → ∃ h', malloc_init descs h = Ret h' ∧ kheap_inv h' (Heap ∅ ∅ ∅).
Proof.
  intros Hb Hc. destruct (init_loop_spec 7 h 0 32 Hb Hc) as (h' & E & [B1 B2 B3] & Hc' & Hr); [lia..|].
  exists h'. split; [exact E|]. split; [|intros a i Ha; cbn [arenas] in Ha; by rewrite lookup_empty in Ha].
  split; try done; cbn [arenas bigs]; unfold frees; cbn [flists].
  - intros i Hi. by destruct (Hr i Hi) as (? & ? & ?).
  - intros i Hi. rewrite lookup_empty. by apply (Hr i Hi).
  - intros i b _. rewrite lookup_empty. by intros ?%elem_of_nil.
Qed.
End KMallocProofs.

(** ** Clients *)

(** The states a kernel reaches from [malloc_init] by calls of [malloc] and [free], writes to
    blocks it holds, and nothing else that touches the allocator's memory; with the blocks
    held and the sizes asked for. *)
Inductive kreach (descs : Z) : kheap → gmap Z Z → Prop :=
| kr_init h0 h :
  boot_ok descs h0 → desc_cnt h0 = 0 → malloc_init descs h0 = Ret h → kreach descs h ∅
| kr_malloc h L size r h' :
  kreach descs h L → 0 ≤ size → size + 4107 < 4294967296 → malloc descs h size = Ret (r, h') →
  kreach descs h' (if decide (r = NULL) then L else <[r := size]> L)
| kr_free h L p n h' :
  kreach descs h L → L !! p = Some n → free h p = Ret h' → kreach descs h' (delete p L)
| kr_write h L p n m :
  kreach descs h L → L !! p = Some n →
  (∀ x, x < p ∨ p + n ≤ x → load8 m x = load8 (hmem h) x) → kreach descs (set_hmem h m) L.

(** The blocks held are the live ones, each at least as large as it was asked for. *)
Definition holds (g : heap) (L : gmap Z Z) : Prop :=
  (∀ b c, live g b c → ∃ n, L !! b = Some n ∧ 0 ≤ n ≤ c) ∧ (∀ b n, L !! b = Some n → ∃ c, live g b c ∧ n ≤ c).

Lemma kreach_inv descs h L : kreach descs h L → ∃ g, kheap_inv descs h g ∧ holds g L.
Proof.
  induction 1 as [h0 h Hb Hc E|h L size r h' _ (g & Hi & H1 & H2) Hs0 Hs E|h L p n h' _ (g & Hi & H1 & H2) Hp E
    |h L p n m _ (g & Hi & H1 & H2) Hp Hm].
  - destruct (malloc_init_spec descs h0 Hb Hc) as (h' & E' & Hi). rewrite E in E'. injection E' as <-.
    exists (Heap ∅ ∅ ∅). split; [done|]. split.
    + intros b c [(a & i & Ha & _)|(a & k & Ha & _)]; cbn in Ha; by rewrite lookup_empty in Ha.
    + intros b n. by rewrite lookup_empty.
  - destruct (kmalloc_spec descs h g size Hi Hs0 Hs) as (r' & h1 & E' & Hc). rewrite E in E'. injection E' as <- <-.
    destruct Hc as [(-> & -> & _)|(Hr & n & k & g' & Hbf & [G1 G2 G3 G4])]; [rewrite decide_True by done; by exists g|].
    rewrite decide_False by done. exists g'. split; [done|].
    assert (size ≤ n) as Hle by (destruct Hbf as [(? & _ & _ & ? & _)|(_ & _ & ? & _)]; done). split.
    + intros b c Hb. apply G2 in Hb as [Hb|[-> ->]].
      * destruct (decide (b = r)) as [->|Hne]; [by destruct (G3 c)|]. rewrite lookup_insert_ne by done. by apply H1.
      * exists size. by rewrite lookup_insert_eq.
    + intros b c. destruct (decide (b = r)) as [->|Hne].
      * rewrite lookup_insert_eq. intros [= <-]. exists n. split; [apply G2; by right|done].
      * rewrite lookup_insert_ne by done. intros Hb. destruct (H2 b c Hb) as (c' & Hl & ?). exists c'.
        split; [apply G2; by left|done].
  - destruct (H2 p n Hp) as (c & Hl & _). destruct (kfree_spec descs h g p c Hi Hl) as (h1 & g' & E' & [T1 T2 T3]).
    rewrite E in E'. injection E' as <-. exists g'. split; [done|]. split.
    + intros b k [Hb Hne]%T2. rewrite lookup_delete_ne by done. by apply H1.
    + intros b k [Hne Hb]%lookup_delete_Some. destruct (H2 b k Hb) as (c' & Hl' & ?). exists c'.
      split; [apply T2; split; [done|congruence]|done].
  - destruct (H2 p n Hp) as (c & Hl & Hle). exists g. split; [|done].
    eapply inv_client_write; [done|done|]. intros x Hx. apply Hm. lia.
Qed.

(** ** The theorems *)

(** C28: [malloc] on a well-formed heap returns, for every size with [size + 4107] below 2^32
    (beyond that the rounding to pages wraps).  It gives null and changes nothing for size
    zero, or when the page allocator has no room for the pages it would need; otherwise it
    gives a block of the smallest power of two from 16 to 1024 that is large enough, or of
    whole pages less the header for larger requests, that overlapped no block in use; the
    heap is well formed with this block added, and every byte of the other blocks is as it
    was. *)
Theorem kmalloc_correct descs h g size :
  kheap_inv descs h g → 0 ≤ size → size + 4107 < 4294967296 →
  ∃ r h', malloc descs h size = Ret (r, h') ∧
    ((r = NULL ∧ h' = h ∧ (size = 0 ∨ ∃ n k, block_for size n k ∧ pool_full (kh h) false k))
     ∨ (r ≠ NULL ∧ ∃ n k g', block_for size n k ∧ gave descs h h' g g' r n)).
Proof. apply kmalloc_spec. Qed.

(** [free] of a block in use returns: no assertion of the allocator fails.  The block is
    in use no more, the heap is well formed, an arena whose last block this was has been given
    back to the page allocator, and every byte of the other blocks is as it was. *)
Theorem kfree_correct descs h g p n :
  kheap_inv descs h g → live g p n → ∃ h' g', free h p = Ret h' ∧ took descs h h' g g' p.
Proof. apply kfree_spec. Qed.

(** C29: In every state reached from [malloc_init] by calls of [malloc], of sizes with
    [size + 4107] below 2^32, of [free], and by writes to the blocks held, the blocks held lie in
    the kernel's part of the address space and no two overlap, [malloc] of any such size
    returns, and [free] of any block held returns. *)
Theorem kernel_heap_safe descs h L :
  kreach descs h L →
  (∀ p n q k, L !! p = Some n → L !! q = Some k → p ≠ q → p + n ≤ q ∨ q + k ≤ p)
  ∧ (∀ p n, L !! p = Some n → PHYS_BASE ≤ p ∧ p + n ≤ 4294967296 ∧ ∃ h', free h p = Ret h')
  ∧ (∀ size, 0 ≤ size → size + 4107 < 4294967296 → ∃ r h', malloc descs h size = Ret (r, h')).
Proof.
  intros Hr. destruct (kreach_inv descs h L Hr) as (g & Hi & H1 & H2). pose proof Hi as [Hl _]. split_and!.
  - intros p n q k Hp Hq Hne. destruct (H2 p n Hp) as (c & Hlp & ?). destruct (H2 q k Hq) as (c' & Hlq & ?).
    destruct (live_disjoint descs h g Hl p c q c' Hlp Hlq Hne); lia.
  - intros p n Hp. destruct (H2 p n Hp) as (c & Hlp & ?). pose proof (live_place descs h g Hl p c Hlp).
    destruct (kfree_spec descs h g p c Hi Hlp) as (h' & g' & E & _). unfold PHYS_BASE. split_and!; [lia|lia|by exists h'].
  - intros size Hs0 Hs. destruct (kmalloc_spec descs h g size Hi Hs0 Hs) as (r & h' & E & _). by exists r, h'.
Qed.

(** ** A kernel heap on the concrete machine *)
Definition demo_descs : Z := 3221229568.
Definition demo_boot : kheap := KHeap (demo_pools 0) 0.
Lemma demo_boot_ok : boot_ok demo_descs demo_boot.
Proof.
  split; [by apply demo_palloc_wf|done|]. intros u. left. by destruct u.
Qed.

(** A function of the state evaluates, so the state exists. *)
Lemma heap_eval {A} descs h0 (f : kheap → res A) (x : A) :
  boot_ok descs h0 → desc_cnt h0 = 0 → (h ← malloc_init descs h0; f h) = Ret x →
  ∃ h, malloc_init descs h0 = Ret h ∧ kheap_inv descs h (Heap ∅ ∅ ∅) ∧ f h = Ret x.
Proof.
  intros Hb Hc. destruct (malloc_init_spec descs h0 Hb Hc) as (h & E & Hi). rewrite E, bind_Ret. intros Ef. by exists h.
Qed.

Lemma kmalloc_witness :
  ∃ h h' n k g', malloc demo_descs h 100 = Ret (3222278156, h')
    ∧ block_for 100 n k ∧ gave demo_descs h h' (Heap ∅ ∅ ∅) g' 3222278156 n.
Proof.
  destruct (heap_eval demo_descs demo_boot (λ h, fst <$> malloc demo_descs h 100) 3222278156 demo_boot_ok eq_refl) as (h & _ & Hi & Er);
    [vm_compute; reflexivity|].
  destruct (kmalloc_correct demo_descs h (Heap ∅ ∅ ∅) 100 Hi) as (r & h' & E & Hc); [lia|lia|].
  rewrite E in Er. injection Er as ->. destruct Hc as [(Hn & _)|(_ & n & k & g' & Hb & Hg)]; [discriminate Hn|].
  exists h, h', n, k, g'. exact (conj E (conj Hb Hg)).
Defined.

Lemma kfree_witness :
  ∃ h g h' g', live g 3222278156 128 ∧ free h 3222278156 = Ret h' ∧ took demo_descs h h' g g' 3222278156.
Proof.
  destruct (heap_eval demo_descs demo_boot (λ h, fst <$> malloc demo_descs h 100) 3222278156 demo_boot_ok eq_refl) as (h & _ & Hi & Er);
    [vm_compute; reflexivity|].
  destruct (kmalloc_spec demo_descs h (Heap ∅ ∅ ∅) 100 Hi) as (r & h1 & E & Hc); [lia|lia|].
  rewrite E in Er. injection Er as ->. destruct Hc as [(Hn & _)|(_ & n & k & g1 & Hb & [G1 G2 _ _])]; [discriminate Hn|].
  assert (n = 128) as ->.
  { destruct Hb as [(i & Hi' & -> & Hle & Hmin & _)|(Hbig & _)]; [|lia].
    assert (¬ 3 < i) as H3 by (intros Hlt; specialize (Hmin 3 ltac:(lia)); vm_compute in Hmin; discriminate Hmin).
    assert (i = 0 ∨ i = 1 ∨ i = 2 ∨ i = 3) as Hi3 by lia. destruct_or! Hi3; subst i; vm_compute in Hle; done. }
  assert (live g1 3222278156 128) as Hl by (apply G2; right; done).
  destruct (kfree_correct demo_descs h1 g1 3222278156 128 G1 Hl) as (h' & g' & Ef & Ht).
  exists h1, g1, h', g'. exact (conj Hl (conj Ef Ht)).
Defined.

Lemma kernel_heap_safe_witness :
  ∃ h h', kreach demo_descs h (<[3222282252 := 5000]> {[3222278156 := 100]}) ∧ free h 3222278156 = Ret h'.
Proof.
  destruct (heap_eval demo_descs demo_boot (λ h, '(r, h) ← malloc demo_descs h 100; '(r2, h) ← malloc demo_descs h 5000; Ret (r, r2))
    (3222278156, 3222282252) demo_boot_ok eq_refl) as (h0 & E0 & _ & Er); [vm_compute; reflexivity|].
  bind_inv Er. destruct v as [r h1]. bind_inv Er. destruct v as [r2 h2]. injection Er as -> ->.
  pose proof (kr_init demo_descs demo_boot h0 demo_boot_ok eq_refl E0) as K0.
  pose proof (kr_malloc demo_descs h0 ∅ 100 _ h1 K0 ltac:(lia) ltac:(lia) Er0) as K1.
  pose proof (kr_malloc demo_descs h1 _ 5000 _ h2 K1 ltac:(lia) ltac:(lia) Er1) as K2.
  destruct (kernel_heap_safe demo_descs h2 _ K2) as (_ & Hf & _).
  destruct (Hf 3222278156 100) as (_ & _ & h' & E'); [reflexivity|].
  exists h2, h'. exact (conj K2 E').
Defined.
