(* ===== verification/CString.v ===== *)
(** * Null-terminated strings (lib/string.c)

    The string functions of the C library the kernel and the user programs share,
    over the byte memory of [Mem].  Loops that run to the terminator take fuel;
    a string of [n] characters needs [n + 1]. *)
From S2P Require Import Prelude Mem.

Section Strings.
Context (fuel : nat).

Fixpoint strlen_loop (n : nat) (m : mem) (p : Z) : res Z :=
  match n with
  | O => Stuck
  | S n => if negb (load8 m p =? 0) then strlen_loop n m (p + 1) else Ret p
  end.
Definition strlen (m : mem) (string : Z) : res Z :=
  ASSERT (negb (string =? NULL));;
  p ← strlen_loop fuel m string;
  Ret (p - string).

Fixpoint strnlen_loop (n : nat) (m : mem) (string maxlen length : Z) : res Z :=
  match n with
  | O => Stuck
  | S n =>
    if negb (load8 m (string + length) =? 0) && (length <? maxlen)
    then strnlen_loop n m string maxlen (length + 1) else Ret length
  end.
Definition strnlen (m : mem) (string maxlen : Z) : res Z :=
  strnlen_loop fuel m string maxlen 0.

Fixpoint strcmp_loop (n : nat) (m : mem) (a b : Z) : res (Z * Z) :=
  match n with
  | O => Stuck
  | S n =>
    if negb (load8 m a =? 0) && (load8 m a =? load8 m b)
    then strcmp_loop n m (a + 1) (b + 1) else Ret (a, b)
  end.
Definition strcmp (m : mem) (a b : Z) : res Z :=
  ASSERT (negb (a =? NULL));;
  ASSERT (negb (b =? NULL));;
  '(a, b) ← strcmp_loop fuel m a b;
  Ret (if load8 m a <? load8 m b then -1 else if load8 m b <? load8 m a then 1 else 0).

(** The counter is the [size] that the loop counts down. *)
Fixpoint memchr_loop (size : nat) (m : mem) (block ch : Z) : Z :=
  match size with
  | O => NULL
  | S size => if load8 m block =? ch then block else memchr_loop size m (block + 1) ch
  end.
Definition memchr (m : mem) (block ch size : Z) : res Z :=
  ASSERT (negb (block =? NULL) || (size =? 0));;
  Ret (memchr_loop (Z.to_nat size) m block (ch mod 256)).

Fixpoint strchr_loop (n : nat) (m : mem) (string c : Z) : res Z :=
  match n with
  | O => Stuck
  | S n =>
    if load8 m string =? c then Ret string
    else if load8 m string =? 0 then Ret NULL
    else strchr_loop n m (string + 1) c
  end.
Definition strchr (m : mem) (string c : Z) : res Z :=
  ASSERT (negb (string =? NULL));;
  strchr_loop fuel m string (c mod 256).

(** The common loop of [strcspn] ([want] false) and [strspn] ([want] true): the
    length of the prefix of characters that are, or are not, in [set]. *)
Fixpoint span_loop (n : nat) (m : mem) (want : bool) (string set length : Z) : res Z :=
  match n with
  | O => Stuck
  | S n =>
    if negb (load8 m (string + length) =? 0) then
      p ← strchr m set (load8 m (string + length));
      if Bool.eqb (negb (p =? NULL)) want
      then span_loop n m want string set (length + 1) else Ret length
    else Ret length
  end.
Definition strcspn (m : mem) (string stop : Z) : res Z := span_loop fuel m false string stop 0.
Definition strspn (m : mem) (string skip : Z) : res Z := span_loop fuel m true string skip 0.

Fixpoint strpbrk_loop (n : nat) (m : mem) (string stop : Z) : res Z :=
  match n with
  | O => Stuck
  | S n =>
    if negb (load8 m string =? 0) then
      p ← strchr m stop (load8 m string);
      if negb (p =? NULL) then Ret string else strpbrk_loop n m (string + 1) stop
    else Ret NULL
  end.
Definition strpbrk (m : mem) (string stop : Z) : res Z := strpbrk_loop fuel m string stop.

Fixpoint strrchr_loop (n : nat) (m : mem) (string c p : Z) : res Z :=
  match n with
  | O => Stuck
  | S n =>
    if negb (load8 m string =? 0)
    then strrchr_loop n m (string + 1) c (if load8 m string =? c then string else p)
    else Ret p
  end.
Definition strrchr (m : mem) (string c : Z) : res Z :=
  strrchr_loop fuel m string (c mod 256) NULL.

(** [n] counts the start positions left to try. *)
Fixpoint strstr_loop (n : nat) (m : mem) (haystack needle needle_len i : Z) : res Z :=
  match n with
  | O => Ret NULL
  | S n =>
    r ← memcmp m (haystack + i) needle needle_len;
    if r =? 0 then Ret (haystack + i)
    else strstr_loop n m haystack needle needle_len (i + 1)
  end.
Definition strstr (m : mem) (haystack needle : Z) : res Z :=
  haystack_len ← strlen m haystack;
  needle_len ← strlen m needle;
  if needle_len <=? haystack_len
  then strstr_loop (Z.to_nat (haystack_len - needle_len + 1)) m haystack needle needle_len 0
  else Ret NULL.

(** The first loop of [strtok_r] stops at a character outside [delimiters] or at
    the terminator; the result says which. *)
Fixpoint tok_skip_loop (n : nat) (m : mem) (s delimiters : Z) : res (Z * bool) :=
  match n with
  | O => Stuck
  | S n =>
    p ← strchr m delimiters (load8 m s);
    if negb (p =? NULL) then
      if load8 m s =? 0 then Ret (s, true) else tok_skip_loop n m (s + 1) delimiters
    else Ret (s, false)
  end.
Fixpoint tok_scan_loop (n : nat) (m : mem) (s delimiters : Z) : res Z :=
  match n with
  | O => Stuck
  | S n =>
    p ← strchr m delimiters (load8 m s);
    if p =? NULL then tok_scan_loop n m (s + 1) delimiters else Ret s
  end.
Definition strtok_r (m : mem) (s delimiters save_ptr : Z) : res (Z * mem) :=
  ASSERT (negb (delimiters =? NULL));;
  ASSERT (negb (save_ptr =? NULL));;
  let s := if s =? NULL then load32 m save_ptr else s in
  ASSERT (negb (s =? NULL));;
  '(s, at_end) ← tok_skip_loop fuel m s delimiters;
  if (at_end : bool) then Ret (NULL, store32 m save_ptr s) else
  let token := s in
  s ← tok_scan_loop fuel m s delimiters;
  if negb (load8 m s =? 0)
  then Ret (token, store32 (store8 m s 0) save_ptr (s + 1))
  else Ret (token, store32 m save_ptr s).

Definition strlcpy (m : mem) (dst src size : Z) : res (Z * mem) :=
  ASSERT (negb (dst =? NULL));;
  ASSERT (negb (src =? NULL));;
  src_len ← strlen m src;
  if 0 <? size then
    let dst_len := size - 1 in
    let dst_len := if src_len <? dst_len then src_len else dst_len in
    '(_, m) ← memcpy m dst src dst_len;
    Ret (src_len, store8 m (dst + dst_len) 0)
  else Ret (src_len, m).

Definition strlcat (m : mem) (dst src size : Z) : res (Z * mem) :=
  ASSERT (negb (dst =? NULL));;
  ASSERT (negb (src =? NULL));;
  src_len ← strlen m src;
  dst_len ← strlen m dst;
  if (0 <? size) && (dst_len <? size) then
    let copy_cnt := size - dst_len - 1 in
    let copy_cnt := if src_len <? copy_cnt then src_len else copy_cnt in
    '(_, m) ← memcpy m (dst + dst_len) src copy_cnt;
    Ret (u32 (src_len + dst_len), store8 m (dst + dst_len + copy_cnt) 0)
  else Ret (u32 (src_len + dst_len), m).
End Strings.

(** ** Strings as lists of characters *)

(** [cstr m a s]: at address [a] lie the characters [s], none of them null, and a
    terminator. *)
Fixpoint cstr (m : mem) (a : Z) (s : list Z) : Prop :=
  match s with
  | [] => load8 m a = 0
  | c :: s => load8 m a = c ∧ c ≠ 0 ∧ cstr m (a + 1) s
  end.

Abbreviation len s := (Z.of_nat (length s)).

(** The characters alone. *)
Fixpoint chars (m : mem) (a : Z) (s : list Z) : Prop :=
  match s with
  | [] => True
  | c :: s => load8 m a = c ∧ c ≠ 0 ∧ chars m (a + 1) s
  end.

Lemma cstr_app m a s t : cstr m a (s ++ t) ↔ chars m a s ∧ cstr m (a + len s) t.
Proof.
  revert a. induction s as [|c s IH]; intros a; cbn [app cstr chars length].
  - rewrite Z.add_0_r. tauto.
  - rewrite IH. replace (a + 1 + len s) with (a + Z.of_nat (S (length s))) by lia. tauto.
Qed.

Lemma cstr_chars m a s : cstr m a s ↔ chars m a s ∧ load8 m (a + len s) = 0.
Proof. rewrite <- (app_nil_r s) at 1. apply cstr_app. Qed.

Lemma chars_app m a s t : chars m a (s ++ t) ↔ chars m a s ∧ chars m (a + len s) t.
Proof.
  revert a. induction s as [|c s IH]; intros a; cbn [app chars length].
  - rewrite Z.add_0_r. tauto.
  - rewrite IH. replace (a + 1 + len s) with (a + Z.of_nat (S (length s))) by lia. tauto.
Qed.

Lemma chars_same m m' a s :
  same_bytes m m' a (a + len s) → chars m a s → chars m' a s.
Proof.
  revert a. induction s as [|c s IH]; intros a Hs; cbn [chars length] in *; [done|].
  intros (Hc & Hn & Hr). split_and!; [|done|].
  - by rewrite Hs by lia.
  - apply IH; [|done]. intros x Hx. apply Hs. lia.
Qed.

Lemma cstr_same m m' a s :
  same_bytes m m' a (a + len s + 1) → cstr m a s → cstr m' a s.
Proof.
  rewrite !cstr_chars. intros Hs [Hc Hz]. split.
  - eapply chars_same; [|done]. intros x Hx. apply Hs. lia.
  - by rewrite Hs by lia.
Qed.

(** Characters moved to another place. *)
Lemma chars_moved m m' a b s :
  (∀ i, 0 ≤ i < len s → load8 m' (b + i) = load8 m (a + i)) → chars m a s → chars m' b s.
Proof.
  revert a b. induction s as [|c s IH]; intros a b Hs; cbn [chars length] in *; [done|].
  intros (Hc & Hn & Hr). split_and!; [|done|].
  - specialize (Hs 0 ltac:(lia)). rewrite !Z.add_0_r in Hs. congruence.
  - apply (IH (a + 1)); [|done]. intros i Hi. specialize (Hs (1 + i) ltac:(lia)).
    by rewrite !Z.add_assoc in Hs.
Qed.

Lemma chars_range m a s : chars m a s → Forall (λ c, 0 < c < 256) s.
Proof.
  revert a. induction s as [|c s IH]; intros a; [by constructor|].
  intros (Hc & Hn & Hr). constructor; [|by eapply IH].
  pose proof (load8_range m a). lia.
Qed.

(** ** The searching functions *)
Section Search.
Context (fuel : nat).

Lemma strlen_loop_spec s : ∀ n m a,
  cstr m a s → (length s < n)%nat → strlen_loop n m a = Ret (a + len s).
Proof.
  induction s as [|c s IH]; intros n m a Hs Hn; (destruct n as [|n]; [cbn in *; lia|]);
    cbn [strlen_loop cstr length] in *.
  - rewrite Hs. cbn. f_equal. lia.
  - destruct Hs as (-> & Hc & Hr). destruct (Z.eqb_spec c 0); [done|]. cbn [negb].
    rewrite IH by (done || lia). f_equal. lia.
Qed.

Lemma strlen_spec m a s :
  cstr m a s → 0 < a → (length s < fuel)%nat → strlen fuel m a = Ret (len s).
Proof.
  intros Hs Ha Hf. unfold strlen. rewrite ASSERT_true by (unfold NULL; lia).
  rewrite (strlen_loop_spec s) by done. rewrite bind_Ret. f_equal. lia.
Qed.

Lemma strchr_loop_spec s : ∀ n m a c,
  cstr m a s → (length s < n)%nat → c ≠ 0 →
  strchr_loop n m a c
  = Ret (match list_find (λ x, x = c) s with Some (i, _) => a + Z.of_nat i | None => NULL end).
Proof.
  induction s as [|x s IH]; intros n m a c Hs Hn Hc; (destruct n as [|n]; [cbn in *; lia|]);
    cbn [strchr_loop cstr length list_find] in *.
  - rewrite Hs. destruct (Z.eqb_spec 0 c); [congruence|done].
  - destruct Hs as (-> & Hx & Hr). destruct (Z.eqb_spec x c) as [->|Hne].
    + rewrite decide_True by done. f_equal. lia.
    + destruct (Z.eqb_spec x 0); [done|]. rewrite decide_False by done.
      rewrite IH by (done || lia). destruct (list_find _ s) as [[i y]|]; [|done].
      transitivity (Ret (a + Z.of_nat (S i))); [f_equal; lia|done].
Qed.

Lemma strchr_loop_end s : ∀ n m a,
  cstr m a s → (length s < n)%nat → strchr_loop n m a 0 = Ret (a + len s).
Proof.
  induction s as [|x s IH]; intros n m a Hs Hn; (destruct n as [|n]; [cbn in *; lia|]);
    cbn [strchr_loop cstr length] in *.
  - rewrite Hs. cbn. f_equal. lia.
  - destruct Hs as (-> & Hx & Hr). destruct (Z.eqb_spec x 0); [done|].
    rewrite IH by (done || lia). f_equal. lia.
Qed.

(** Membership of a byte in a set of characters given as a string; the terminator
    always counts as found. *)
Lemma strchr_in m d ds c :
  cstr m d ds → 0 < d → (length ds < fuel)%nat → 0 ≤ c < 256 →
  ∃ p, strchr fuel m d c = Ret p ∧ (p =? NULL) = bool_decide (c ≠ 0 ∧ c ∉ ds).
Proof.
  intros Hd Hpos Hf Hc. unfold strchr. rewrite ASSERT_true by (unfold NULL; lia).
  rewrite Z.mod_small by lia. destruct (decide (c = 0)) as [->|Hnz].
  - rewrite (strchr_loop_end ds) by done. eexists. split; [done|].
    rewrite bool_decide_false by naive_solver. unfold NULL. lia.
  - rewrite (strchr_loop_spec ds) by done. eexists. split; [done|].
    destruct (list_find (λ x, x = c) ds) as [[i y]|] eqn:E.
    + apply list_find_Some in E as (Hi & -> & _). rewrite bool_decide_false;
        [apply Z.eqb_neq; unfold NULL; lia|].
      intros [_ Hni]. apply Hni. by eapply list_elem_of_lookup_2.
    + rewrite bool_decide_true; [done|]. split; [done|]. intros Hin.
      apply list_find_None in E. rewrite Forall_forall in E. by apply (E c).
Qed.

(** *** Tokens *)

(** The first loop skips the leading delimiters. *)
Lemma tok_skip_spec ds d pre : ∀ n m a,
  cstr m d ds → 0 < d → (length ds < fuel)%nat →
  chars m a pre → Forall (λ c, c ∈ ds) pre →
  (load8 m (a + len pre) = 0 ∨ load8 m (a + len pre) ∉ ds) → (length pre < n)%nat →
  tok_skip_loop fuel n m a d
  = Ret (a + len pre, bool_decide (load8 m (a + len pre) = 0)).
Proof.
  induction pre as [|c pre IH]; intros n m a Hd Hpos Hf Hc Hin Hstop Hn;
    (destruct n as [|n]; [cbn in *; lia|]); cbn [tok_skip_loop chars length] in *.
  - rewrite Z.add_0_r in *.
    destruct (strchr_in m d ds (load8 m a)) as (p & -> & Ep); [done..|apply load8_range|].
    rewrite bind_Ret, Ep. destruct (Z.eqb_spec (load8 m a) 0) as [E|Hnz].
    + rewrite (bool_decide_false (_ ∧ _)) by naive_solver. cbn [negb].
      by rewrite bool_decide_true.
    + rewrite (bool_decide_true (_ ∧ _)) by naive_solver. cbn [negb].
      by rewrite bool_decide_false.
  - destruct Hc as (Ec & Hnz & Hr). inversion Hin as [|? ? Hcin Hin']; subst.
    destruct (strchr_in m d ds (load8 m a)) as (p & -> & Ep); [done..|apply load8_range|].
    rewrite bind_Ret, Ep. rewrite (bool_decide_false (_ ∧ _)) by naive_solver. cbn [negb].
    destruct (Z.eqb_spec (load8 m a) 0); [done|].
    replace (a + Z.of_nat (S (length pre))) with (a + 1 + len pre) in * by lia.
    by apply IH; [..|lia].
Qed.

(** The second loop runs over the token. *)
Lemma tok_scan_spec ds d t : ∀ n m a,
  cstr m d ds → 0 < d → (length ds < fuel)%nat →
  chars m a t → Forall (λ c, c ∉ ds) t →
  (load8 m (a + len t) = 0 ∨ load8 m (a + len t) ∈ ds) → (length t < n)%nat →
  tok_scan_loop fuel n m a d = Ret (a + len t).
Proof.
  induction t as [|c t IH]; intros n m a Hd Hpos Hf Hc Hin Hstop Hn;
    (destruct n as [|n]; [cbn in *; lia|]); cbn [tok_scan_loop chars length] in *.
  - rewrite Z.add_0_r in *.
    destruct (strchr_in m d ds (load8 m a)) as (p & -> & Ep); [done..|apply load8_range|].
    rewrite bind_Ret, Ep, (bool_decide_false (_ ∧ _)) by naive_solver. done.
  - destruct Hc as (Ec & Hnz & Hr). inversion Hin as [|? ? Hcin Hin']; subst.
    destruct (strchr_in m d ds (load8 m a)) as (p & -> & Ep); [done..|apply load8_range|].
    rewrite bind_Ret, Ep, (bool_decide_true (_ ∧ _)) by done.
    replace (a + Z.of_nat (S (length t))) with (a + 1 + len t) in * by lia.
    by apply IH; [..|lia].
Qed.

(** Where the tokenizer goes on: behind the delimiter that ended the token. *)
Definition tok_next (post : list Z) : list Z := tail post.

Lemma strtok_r_spec m s d save ds pre t post :
  let str := pre ++ t ++ post in
  cstr m s str → cstr m d ds → 0 < s → 0 < d → 0 < save →
  s + len str < 4294967296 →
  Forall (λ c, c ∈ ds) pre → Forall (λ c, c ∉ ds) t → t ≠ [] →
  (∀ c r, post = c :: r → c ∈ ds) →
  (save + 4 ≤ s ∨ s + len str < save) →
  (length ds < fuel)%nat → (length str < fuel)%nat →
  ∃ m', strtok_r fuel m s d save = Ret (s + len pre, m')
    ∧ cstr m' (s + len pre) t
    ∧ cstr m' (load32 m' save) (tok_next post)
    ∧ (load32 m' save = s + len (pre ++ t) + if post is [] then 0 else 1)
    ∧ ∀ x, x < s ∨ s + len str < x → x < save ∨ save + 4 ≤ x → load8 m' x = load8 m x.
Proof.
  intros str Hs Hd Hp1 Hp2 Hp3 Hfit Hpre Ht Htne Hpost Hsep Hf1 Hf2.
  unfold str in *. rewrite !length_app in *.
  apply cstr_app in Hs as [Hcp Hs]. pose proof Hs as Hs'. apply cstr_app in Hs as [Hct Hcr].
  set (a := s + len pre) in *. set (e := a + len t) in *.
  unfold strtok_r. rewrite !ASSERT_true by (unfold NULL; lia).
  destruct (Z.eqb_spec s NULL); [unfold NULL in *; lia|].
  rewrite ASSERT_true by (unfold NULL; lia).
  assert (load8 m a ≠ 0 ∧ load8 m a ∉ ds) as [Hnz Hni].
  { destruct t as [|c t]; [done|]. inversion Ht; subst. destruct Hct as (-> & ? & _). done. }
  rewrite (tok_skip_spec ds d pre) by (try done; first [by right|lia]).
  rewrite bind_Ret. fold a.
  rewrite bool_decide_false by done. cbn beta iota.
  assert (load8 m e = 0 ∨ load8 m e ∈ ds) as Hend.
  { destruct post as [|c post]; [by left|right]. destruct Hcr as (-> & _). by eapply Hpost. }
  rewrite (tok_scan_spec ds d t) by (try done; lia). rewrite bind_Ret. fold e.
  destruct post as [|c post]; cbn [cstr tok_next tail] in *.
  - rewrite Hcr. cbn [Z.eqb negb]. eexists. split; [reflexivity|].
    rewrite load32_store32_eq, u32_id by (unfold is_u32; lia). split_and!.
    + apply (cstr_same m); [|apply cstr_chars; done]. intros x Hx. apply load8_store32_ne. lia.
    + rewrite load8_store32_ne by lia. done.
    + unfold e, a. lia.
    + intros x _ Hx. by apply load8_store32_ne.
  - destruct Hcr as (Ec & Hc0 & Hcr). rewrite Ec. destruct (Z.eqb_spec c 0); [done|]. cbn [negb].
    cbn [length] in *.
    eexists. split; [reflexivity|]. rewrite load32_store32_eq, u32_id by (unfold is_u32; lia).
    split_and!.
    + apply cstr_chars. split.
      * eapply chars_same; [|exact Hct]. intros x Hx. rewrite load8_store32_ne by lia.
        apply load8_store8_ne. lia.
      * fold e. rewrite load8_store32_ne by lia. by rewrite load8_store8_eq.
    + eapply cstr_same; [|exact Hcr]. intros x Hx. rewrite load8_store32_ne by lia.
      apply load8_store8_ne. lia.
    + unfold e, a. lia.
    + intros x Hx1 Hx2. rewrite load8_store32_ne by lia. apply load8_store8_ne. lia.
Qed.

(** Nothing but delimiters: no token, and the saved position is the end. *)
Lemma strtok_r_none m s d save ds str :
  cstr m s str → cstr m d ds → 0 < s → 0 < d → 0 < save →
  Forall (λ c, c ∈ ds) str → (length ds < fuel)%nat → (length str < fuel)%nat →
  strtok_r fuel m s d save = Ret (NULL, store32 m save (s + len str)).
Proof.
  intros Hs Hd Hp1 Hp2 Hp3 Hall Hf1 Hf2. apply cstr_chars in Hs as [Hc Hz].
  unfold strtok_r. rewrite !ASSERT_true by (unfold NULL; lia).
  destruct (Z.eqb_spec s NULL); [unfold NULL in *; lia|].
  rewrite ASSERT_true by (unfold NULL; lia).
  rewrite (tok_skip_spec ds d str) by (try done; first [by left|lia]). rewrite bind_Ret.
  by rewrite bool_decide_true.
Qed.

(** *** Bounded copies *)

(** Copying a prefix of a string and terminating it. *)
Lemma copy_prefix m dst src s n :
  chars m src s → (n ≤ length s)%nat → dst + Z.of_nat n ≤ src ∨ src + Z.of_nat n ≤ dst →
  cstr (store8 (copy_up m dst src n) (dst + Z.of_nat n) 0) dst (take n s).
Proof.
  intros Hs Hn Hsep. assert (len (take n s) = Z.of_nat n) as El.
  { rewrite length_take. lia. }
  apply cstr_chars. rewrite El. split; [|by rewrite load8_store8_eq].
  rewrite <- (take_drop n s) in Hs. apply chars_app in Hs as [Hs _].
  eapply chars_moved; [|exact Hs]. rewrite El. intros i Hi.
  rewrite load8_store8_ne, load8_copy_up, decide_True by lia. f_equal. lia.
Qed.

Lemma strlcpy_spec m dst src s size :
  cstr m src s → 0 < dst → 0 < src → 0 ≤ size → (length s < fuel)%nat →
  dst + size ≤ src ∨ src + len s < dst →
  ∃ m', strlcpy fuel m dst src size = Ret (len s, m')
    ∧ (0 < size → cstr m' dst (take (Z.to_nat (size - 1)) s))
    ∧ ∀ x, x < dst ∨ dst + size ≤ x → load8 m' x = load8 m x.
Proof.
  intros Hs Hd Hsr Hsz Hf Hsep. unfold strlcpy.
  rewrite !ASSERT_true by (unfold NULL; lia). rewrite (strlen_spec m src s), bind_Ret by done.
  destruct (Z.ltb_spec 0 size).
  2:{ exists m. split_and!; [done|lia|done]. }
  set (n := (if len s <? size - 1 then len s else size - 1)).
  assert (0 ≤ n ≤ len s ∧ n < size ∧ take (Z.to_nat n) s = take (Z.to_nat (size - 1)) s)
    as (Hn & Hn2 & Et).
  { unfold n. destruct (Z.ltb_spec (len s) (size - 1)); [|split_and!; [lia..|done]].
    split_and!; [lia..|]. rewrite Nat2Z.id, firstn_all, take_ge by lia. done. }
  unfold memcpy. rewrite !ASSERT_true by (unfold NULL; lia). rewrite bind_Ret.
  eexists. split; [reflexivity|]. apply cstr_chars in Hs as [Hs _]. split.
  - intros _. rewrite <- Et. rewrite <- (Z2Nat.id n) at 2 by lia. apply copy_prefix; [done|lia..].
  - intros x Hx. rewrite load8_store8_ne, load8_copy_up, decide_False by lia. done.
Qed.

Lemma strlcat_spec m dst src s t size :
  cstr m dst t → cstr m src s → 0 < dst → 0 < src → 0 ≤ size →
  (length s < fuel)%nat → (length t < fuel)%nat → len s + len t < 4294967296 →
  dst + size ≤ src ∨ src + len s < dst →
  ∃ m', strlcat fuel m dst src size = Ret (len s + len t, m')
    ∧ cstr m' dst (t ++ take (Z.to_nat (size - 1 - len t)) s)
    ∧ ∀ x, x < dst ∨ dst + size ≤ x → load8 m' x = load8 m x.
Proof.
  intros Ht Hs Hd Hsr Hsz Hf1 Hf2 Hfit Hsep. unfold strlcat.
  rewrite !ASSERT_true by (unfold NULL; lia).
  rewrite (strlen_spec m src s), bind_Ret by done.
  rewrite (strlen_spec m dst t), bind_Ret by done. rewrite u32_id by (unfold is_u32; lia).
  destruct (Z.ltb_spec 0 size), (Z.ltb_spec (len t) size); cbn [andb].
  2-4: exists m; split_and!; [done| |done];
    replace (Z.to_nat (size - 1 - len t)) with O by lia; by rewrite take_0, app_nil_r.
  set (n := (if len s <? size - len t - 1 then len s else size - len t - 1)).
  assert (0 ≤ n ≤ len s ∧ n + len t < size
          ∧ take (Z.to_nat n) s = take (Z.to_nat (size - 1 - len t)) s) as (Hn & Hn2 & Et).
  { unfold n. destruct (Z.ltb_spec (len s) (size - len t - 1)).
    - split_and!; [lia..|]. rewrite Nat2Z.id, firstn_all, take_ge by lia. done.
    - split_and!; [lia..|]. f_equal. lia. }
  unfold memcpy. rewrite !ASSERT_true by (unfold NULL; lia). rewrite bind_Ret.
  eexists. split; [reflexivity|]. apply cstr_chars in Hs as [Hs _].
  apply cstr_chars in Ht as [Ht _]. split.
  - rewrite <- Et. apply cstr_app. split.
    + eapply chars_same; [|exact Ht]. intros x Hx.
      rewrite load8_store8_ne, load8_copy_up, decide_False by lia. done.
    + rewrite <- (Z2Nat.id n) at 2 by lia. apply copy_prefix; [done|lia..].
  - intros x Hx. rewrite load8_store8_ne, load8_copy_up, decide_False by lia. done.
Qed.

(** *** Comparison *)

(** The order of the first characters that differ, the shorter string first. *)
Fixpoint str_compare (s t : list Z) : Z :=
  match s, t with
  | [], [] => 0
  | [], _ => -1
  | _, [] => 1
  | c :: s, d :: t => if c =? d then str_compare s t else if c <? d then -1 else 1
  end.

Lemma strcmp_loop_spec s : ∀ t n m a b,
  cstr m a s → cstr m b t → (length s < n)%nat →
  ∃ a' b', strcmp_loop n m a b = Ret (a', b')
    ∧ (if load8 m a' <? load8 m b' then -1 else if load8 m b' <? load8 m a' then 1 else 0)
      = str_compare s t.
Proof.
  induction s as [|c s IH]; intros t n m a b Hs Ht Hn; (destruct n as [|n]; [cbn in *; lia|]);
    cbn [strcmp_loop cstr length] in *; pose proof (load8_range m a); pose proof (load8_range m b).
  - rewrite Hs. cbn [Z.eqb negb andb]. exists a, b. split; [done|]. rewrite Hs.
    destruct t as [|d t]; cbn [cstr str_compare] in *; [by rewrite Ht|].
    destruct Ht as (E & Hd & _). destruct (Z.ltb_spec 0 (load8 m b)); [done|lia].
  - destruct Hs as (Ec & Hc & Hs). destruct (Z.eqb_spec (load8 m a) 0); [lia|]. cbn [negb andb].
    destruct t as [|d t]; cbn [cstr str_compare] in *.
    + rewrite Ht. destruct (Z.eqb_spec (load8 m a) 0); [lia|]. exists a, b. split; [done|].
      rewrite Ht. bool_cases; lia.
    + destruct Ht as (Ed & Hd & Ht). rewrite Ec, Ed.
      destruct (Z.eqb_spec c d) as [->|Hne]; [apply IH; [done..|lia]|].
      exists a, b. split; [done|]. rewrite Ec, Ed. bool_cases; lia.
Qed.

Lemma strcmp_spec m a b s t :
  cstr m a s → cstr m b t → 0 < a → 0 < b → (length s < fuel)%nat →
  strcmp fuel m a b = Ret (str_compare s t).
Proof.
  intros Hs Ht Ha Hb Hf. unfold strcmp. rewrite !ASSERT_true by (unfold NULL; lia).
  destruct (strcmp_loop_spec s t fuel m a b Hs Ht Hf) as (a' & b' & -> & E).
  rewrite bind_Ret. by rewrite E.
Qed.

(** *** Substrings *)

(** [t] occurs in [s] at position [i]. *)
Definition occurs (s t : list Z) (i : nat) : Prop := take (length t) (drop i s) = t.

Lemma chars_lookup m a s i c : chars m a s → s !! i = Some c → load8 m (a + Z.of_nat i) = c.
Proof.
  revert a i. induction s as [|x s IH]; intros a i; [done|]. cbn [chars].
  intros (Hx & _ & Hr). destruct i as [|i]; cbn [lookup list_lookup].
  - intros [= <-]. by rewrite Z.add_0_r.
  - intros Hi. rewrite <- (IH (a + 1) i) by done. f_equal. lia.
Qed.

Lemma memcmp_occurs m h n s t i :
  chars m h s → chars m n t → (i + length t ≤ length s)%nat →
  memcmp_loop m (h + Z.of_nat i) n (length t) = 0 ↔ occurs s t i.
Proof.
  intros Hs Ht Hi. rewrite memcmp_loop_zero. unfold occurs. split.
  - intros H. apply list_eq. intros j. destruct (decide (j < length t)%nat) as [Hj|Hj].
    + rewrite lookup_take_lt, lookup_drop by done.
      destruct (lookup_lt_is_Some_2 t j Hj) as [c Hc].
      destruct (lookup_lt_is_Some_2 s (i + j) ltac:(lia)) as [d Hd].
      specialize (H (Z.of_nat j) ltac:(lia)). rewrite Hc, Hd.
      rewrite (chars_lookup _ _ _ _ _ Ht Hc) in H.
      replace (h + Z.of_nat i + Z.of_nat j) with (h + Z.of_nat (i + j)) in H by lia.
      rewrite (chars_lookup _ _ _ _ _ Hs Hd) in H. by subst.
    + rewrite !lookup_ge_None_2; [done|lia|]. rewrite length_take, length_drop. lia.
  - intros E j Hj. destruct (lookup_lt_is_Some_2 t (Z.to_nat j) ltac:(lia)) as [c Hc].
    pose proof (chars_lookup _ _ _ _ _ Ht Hc) as H1. rewrite Z2Nat.id in H1 by lia. rewrite H1.
    rewrite <- E, lookup_take_lt, lookup_drop in Hc by lia.
    rewrite <- (chars_lookup m h s _ c Hs Hc). f_equal. lia.
Qed.

(** The value [strstr] returns when the first occurrence from position [i] on is
    as given. *)
Definition first_occurrence (s t : list Z) (i : nat) (o : option nat) : Prop :=
  match o with
  | Some j => (i ≤ j)%nat ∧ (j + length t ≤ length s)%nat ∧ occurs s t j
              ∧ ∀ k, (i ≤ k < j)%nat → ¬ occurs s t k
  | None => ∀ k, (i ≤ k)%nat → (k + length t ≤ length s)%nat → ¬ occurs s t k
  end.

Lemma strstr_loop_spec m h n s t : ∀ cnt i,
  chars m h s → chars m n t → 0 < h → 0 < n → (i + cnt + length t = S (length s))%nat →
  ∃ o, strstr_loop cnt m h n (len t) (Z.of_nat i)
       = Ret (match o with Some j => h + Z.of_nat j | None => NULL end)
    ∧ first_occurrence s t i o.
Proof.
  induction cnt as [|cnt IH]; intros i Hs Ht Hh Hn Hc; cbn [strstr_loop].
  - exists None. split; [done|]. intros k Hk Hk2. lia.
  - unfold memcmp. rewrite !ASSERT_true by (unfold NULL; lia). rewrite bind_Ret, Nat2Z.id.
    pose proof (memcmp_occurs m h n s t i Hs Ht ltac:(lia)) as Hocc.
    destruct (Z.eqb_spec (memcmp_loop m (h + Z.of_nat i) n (length t)) 0) as [E|Hne].
    + exists (Some i). split; [done|]. split_and!; [lia..|by apply Hocc|lia].
    + destruct (IH (S i) Hs Ht Hh Hn ltac:(lia)) as (o & E & Ho).
      replace (Z.of_nat i + 1) with (Z.of_nat (S i)) by lia. exists o. split; [done|].
      assert (¬ occurs s t i) as Hi by tauto. destruct o as [j|]; cbn in *.
      * destruct Ho as (H1 & H2 & H3 & H4). split_and!; [lia..|done|]. intros k Hk.
        destruct (decide (k = i)) as [->|]; [done|]. apply H4. lia.
      * intros k Hk1 Hk2. destruct (decide (k = i)) as [->|]; [done|]. apply Ho; lia.
Qed.

Lemma strstr_spec m h n s t :
  cstr m h s → cstr m n t → 0 < h → 0 < n → (length s < fuel)%nat → (length t < fuel)%nat →
  ∃ o, strstr fuel m h n = Ret (match o with Some j => h + Z.of_nat j | None => NULL end)
    ∧ first_occurrence s t 0 o.
Proof.
  intros Hs Ht Hh Hn Hf1 Hf2. unfold strstr.
  rewrite (strlen_spec m h s), bind_Ret by done. rewrite (strlen_spec m n t), bind_Ret by done.
  apply cstr_chars in Hs as [Hs _]. apply cstr_chars in Ht as [Ht _].
  destruct (Z.leb_spec (len t) (len s)).
  - apply (strstr_loop_spec m h n s t _ 0); [done..|lia].
  - exists None. split; [done|]. intros k _ Hk. lia.
Qed.
End Search.

(** ** Theorems *)

(** The text [ab,cd] at address 100, the delimiter string [,] at 200, room for the
    saved position at 300. *)
Definition demo_text : mem := list_to_map
  [(100, 97); (101, 98); (102, 44); (103, 99); (104, 100); (200, 44)].

(** One call of [strtok_r] on a string that is delimiters [pre], a token [t] and
    the rest [post], which is empty or starts with a delimiter: it returns the
    address of [t], now terminated there, saves the position behind the delimiter
    that ended the token, so that the next call starts at the rest, and changes no
    byte outside the string and the saved pointer. *)
Theorem strtok_r_token fuel m s d save ds pre t post :
  let str := pre ++ t ++ post in
  cstr m s str → cstr m d ds → 0 < s → 0 < d → 0 < save →
  s + len str < 4294967296 →
  Forall (λ c, c ∈ ds) pre → Forall (λ c, c ∉ ds) t → t ≠ [] →
  (∀ c r, post = c :: r → c ∈ ds) →
  (save + 4 ≤ s ∨ s + len str < save) →
  (length ds < fuel)%nat → (length str < fuel)%nat →
  ∃ m', strtok_r fuel m s d save = Ret (s + len pre, m')
    ∧ cstr m' (s + len pre) t
    ∧ cstr m' (load32 m' save) (tok_next post)
    ∧ (load32 m' save = s + len (pre ++ t) + if post is [] then 0 else 1)
    ∧ ∀ x, x < s ∨ s + len str < x → x < save ∨ save + 4 ≤ x → load8 m' x = load8 m x.
Proof. apply strtok_r_spec. Qed.

Lemma strtok_r_token_witness :
  ∃ m', strtok_r 10 demo_text 100 200 300 = Ret (100, m')
    ∧ cstr m' 100 [97; 98] ∧ cstr m' (load32 m' 300) [99; 100].
Proof.
  destruct (strtok_r_token 10 demo_text 100 200 300 [44] [] [97; 98] [44; 99; 100])
    as (m' & E & Ht & Hn & _);
    [vm_compute; done|vm_compute; done|lia|lia|lia|cbn; lia|constructor| |done| |right; cbn; lia|cbn; lia|cbn; lia|].
  - repeat constructor; apply (bool_decide_eq_true_1 _); by vm_compute.
  - intros c r [= <- _]. left.
  - exists m'. exact (conj E (conj Ht Hn)).
Defined.

(** [strlcpy] returns the length of the source and, for a positive size, leaves in
    the destination the longest prefix of the source that fits with its terminator;
    it writes nothing outside the destination's [size] bytes. *)
Theorem strlcpy_correct fuel m dst src s size :
  cstr m src s → 0 < dst → 0 < src → 0 ≤ size → (length s < fuel)%nat →
  dst + size ≤ src ∨ src + len s < dst →
  ∃ m', strlcpy fuel m dst src size = Ret (len s, m')
    ∧ (0 < size → cstr m' dst (take (Z.to_nat (size - 1)) s))
    ∧ ∀ x, x < dst ∨ dst + size ≤ x → load8 m' x = load8 m x.
Proof. apply strlcpy_spec. Qed.

Lemma strlcpy_witness :
  ∃ m', strlcpy 10 demo_text 400 100 3 = Ret (5, m') ∧ cstr m' 400 [97; 98].
Proof.
  destruct (strlcpy_correct 10 demo_text 400 100 [97; 98; 44; 99; 100] 3) as (m' & E & Hc & _);
    [vm_compute; done|lia|lia|lia|cbn; lia|right; cbn; lia|].
  exists m'. split; [exact E|]. apply Hc. lia.
Defined.

(** [strstr] returns the first position at which the needle occurs, and null
    exactly when it occurs nowhere. *)
Theorem strstr_correct fuel m h n s t :
  cstr m h s → cstr m n t → 0 < h → 0 < n → (length s < fuel)%nat → (length t < fuel)%nat →
  ∃ o, strstr fuel m h n = Ret (match o with Some j => h + Z.of_nat j | None => NULL end)
    ∧ first_occurrence s t 0 o.
Proof. apply strstr_spec. Qed.

Lemma strstr_witness :
  ∃ o, strstr 10 demo_text 100 200
       = Ret (match o with Some j => 100 + Z.of_nat j | None => NULL end)
    ∧ first_occurrence [97; 98; 44; 99; 100] [44] 0 o.
Proof.
  apply (strstr_correct 10 demo_text 100 200 [97; 98; 44; 99; 100] [44]);
    [vm_compute; done|vm_compute; done|lia|lia|cbn; lia|cbn; lia].
Defined.
