(* ===== verification/Arithmetic.v ===== *)
(** * 64-bit division on a 32-bit machine (lib/arithmetic.c)

    The routines the compiler calls for 64-bit division and remainder, built on the
    32-bit divide instruction, which traps when its quotient does not fit: here the
    trap is [Panic]. *)
From S2P Require Import Prelude.

Definition u64 (z : Z) : Z := z mod 18446744073709551616.
Definition s64 (z : Z) : Z :=
  let u := u64 z in if u <? 9223372036854775808 then u else u - 18446744073709551616.
Definition is_u64 (z : Z) : Prop := 0 ≤ z < 18446744073709551616.
Definition is_s64 (z : Z) : Prop := -9223372036854775808 ≤ z < 9223372036854775808.

Definition divl (n d : Z) : res Z :=
  if (d =? 0) || (4294967296 <=? n / d) then Panic else Ret (n / d).

(** One test of [nlz]: [k] more leading zeros when [x] is at most [limit]. *)
Definition nlz_step (limit k : Z) (nx : Z * Z) : Z * Z :=
  let '(n, x) := nx in if x <=? limit then (n + k, u32 (Z.shiftl x k)) else (n, x).
Definition nlz (x : Z) : Z :=
  let nx := nlz_step 65535 16 (0, x) in
  let nx := nlz_step 16777215 8 nx in
  let nx := nlz_step 268435455 4 nx in
  let nx := nlz_step 1073741823 2 nx in
  let '(n, x) := nx in
  if x <=? 2147483647 then n + 1 else n.

Definition udiv64 (n d : Z) : res Z :=
  if Z.shiftr d 32 =? 0 then
    let b := Z.shiftl 1 32 in
    let n1 := u32 (Z.shiftr n 32) in
    let n0 := u32 n in
    let d0 := u32 d in
    if d0 =? 0 then Panic else
    q ← divl (u64 (b * (n1 mod d0) + n0)) d0;
    Ret (u64 (q + u64 (b * (n1 / d0))))
  else if n <? d then Ret 0
  else
    let d1 := u32 (Z.shiftr d 32) in
    let s := nlz d1 in
    q ← divl (Z.shiftr n 1) (u32 (Z.shiftr (u64 (Z.shiftl d s)) 32));
    let q := Z.shiftr q (31 - s) in
    Ret (if u64 (n - u64 (u64 (q - 1) * d)) <? d then u64 (q - 1) else q).

Definition umod64 (n d : Z) : res Z :=
  q ← udiv64 n d; Ret (u32 (u64 (n - u64 (d * q)))).

Definition sdiv64 (n d : Z) : res Z :=
  let n_abs := if 0 <=? n then u64 n else u64 (- u64 n) in
  let d_abs := if 0 <=? d then u64 d else u64 (- u64 d) in
  q_abs ← udiv64 n_abs d_abs;
  Ret (if Bool.eqb (n <? 0) (d <? 0) then s64 q_abs else s64 (- s64 q_abs)).

Definition smod64 (n d : Z) : res Z :=
  q ← sdiv64 n d; Ret (s32 (s64 (n - s64 (d * q)))).

(** The entry points the compiler uses. *)
Definition udivdi3 (n d : Z) : res Z := udiv64 n d.
Definition umoddi3 (n d : Z) : res Z := umod64 n d.
Definition divdi3 (n d : Z) : res Z := sdiv64 n d.
Definition moddi3 (n d : Z) : res Z := smod64 n d.

(** ** Leading zeros *)
Lemma u64_id z : is_u64 z → u64 z = z.
Proof. unfold is_u64, u64. intros. by apply Z.mod_small. Qed.

(** A step leaves [x] at least one more than the limit and keeps the product. *)
Lemma nlz_step_spec x0 limit k lo n x :
  0 < k → 0 ≤ n → limit + 1 = 2 ^ k * lo → (limit + 1) * 2 ^ k = 4294967296 →
  lo ≤ x < 4294967296 → x = x0 * 2 ^ n →
  let '(n', x') := nlz_step limit k (n, x) in
  n ≤ n' ≤ n + k ∧ limit + 1 ≤ x' < 4294967296 ∧ x' = x0 * 2 ^ n'.
Proof.
  intros Hk Hn Hlo Hl Hx E. unfold nlz_step. destruct (Z.leb_spec x limit); [|split_and!; lia].
  assert (0 < 2 ^ k) as Hpk by (apply Z.pow_pos_nonneg; lia).
  assert (0 ≤ lo) by nia. rewrite Z.shiftl_mul_pow2 by lia.
  rewrite u32_id by (unfold is_u32; nia). split_and!; [lia|lia|nia|nia|].
  rewrite E, Z.pow_add_r by lia. lia.
Qed.

Lemma nlz_spec x :
  0 < x < 4294967296 →
  0 ≤ nlz x ≤ 31 ∧ 2147483648 ≤ x * 2 ^ nlz x < 4294967296.
Proof.
  intros Hx. unfold nlz.
  pose proof (nlz_step_spec x 65535 16 1 0 x) as H1.
  destruct (nlz_step 65535 16 (0, x)) as [n1 x1].
  destruct H1 as (Hn1 & Hx1 & E1); [done|done|done|done|lia|lia|].
  pose proof (nlz_step_spec x 16777215 8 65536 n1 x1) as H2.
  destruct (nlz_step 16777215 8 (n1, x1)) as [n2 x2].
  destruct H2 as (Hn2 & Hx2 & E2); [done|lia|done|done|lia|done|].
  pose proof (nlz_step_spec x 268435455 4 16777216 n2 x2) as H3.
  destruct (nlz_step 268435455 4 (n2, x2)) as [n3 x3].
  destruct H3 as (Hn3 & Hx3 & E3); [done|lia|done|done|lia|done|].
  pose proof (nlz_step_spec x 1073741823 2 268435456 n3 x3) as H4.
  destruct (nlz_step 1073741823 2 (n3, x3)) as [n4 x4].
  destruct H4 as (Hn4 & Hx4 & E4); [done|lia|done|done|lia|done|].
  destruct (Z.leb_spec x4 2147483647).
  - rewrite Z.pow_add_r, Z.mul_assoc, <- E4 by lia. lia.
  - rewrite <- E4. lia.
Qed.

(** ** Unsigned division *)

(** Divisor below 2^32: schoolbook division by one digit. *)
Lemma digit_division n d :
  0 ≤ n → 0 < d → let b := 4294967296 in
  n / d = (b * ((n / b) mod d) + n mod b) / d + b * (n / b / d).
Proof.
  intros Hn Hd b. rewrite <- (Z.div_add _ (b * (n / b / d))) by lia. f_equal.
  pose proof (Z.div_mod n b ltac:(lia)). pose proof (Z.div_mod (n / b) d ltac:(lia)). nia.
Qed.

Lemma digit_quotient_fits r n0 d :
  0 ≤ r < d → 0 ≤ n0 < 4294967296 → 0 ≤ (4294967296 * r + n0) / d < 4294967296.
Proof.
  intros Hr Hn. split; [apply Z.div_pos; lia|]. apply Z.div_lt_upper_bound; nia.
Qed.

(** The estimate for larger divisors: [v] is the divisor's top 32 bits when it is
    shifted up by [s] places, and [v * 2^(32-s)] the divisor cut to those bits. *)
Section Estimate.
Context (n d s v : Z).
Context (Hn : is_u64 n) (Hd : 4294967296 ≤ d) (Hnd : d ≤ n) (Hs : 0 ≤ s ≤ 31).
Context (Hv : 2147483648 ≤ v) (Hv1 : v * 2 ^ (32 - s) ≤ d) (Hv2 : d < (v + 1) * 2 ^ (32 - s)).

Let A := 2 ^ (s + 1).
Let B := 2 ^ (32 - s).

Lemma pow_AB : A * B = 8589934592 ∧ 0 < A ∧ 0 < B.
Proof using Hs.
  unfold A, B. rewrite <- Z.pow_add_r by lia. replace (s + 1 + (32 - s)) with 33 by lia.
  split_and!; [done|apply Z.pow_pos_nonneg; lia..].
Qed.

(** The slack of the cut divisor times the quotient is at most the cut divisor. *)
Lemma slack_bound : 8589934592 - A ≤ v * B.
Proof using All.
  destruct pow_AB as (E & HA & HB). unfold A, B in *.
  destruct (decide (s = 31)) as [->|Hne].
  - change (2 ^ (31 + 1)) with 4294967296. change (2 ^ (32 - 31)) with 2. lia.
  - assert (4 ≤ 2 ^ (32 - s)) by (change 4 with (2 ^ 2); apply Z.pow_le_mono_r; lia). nia.
Qed.

Lemma estimate_bounds : n / d ≤ n / (v * B) ≤ n / d + 1.
Proof using All.
  destruct pow_AB as (E & HA & HB). fold B in Hv1, Hv2. pose proof slack_bound as Hsl.
  destruct Hn as [Hn0 Hn1]. assert (0 < v * B) as Hpos by nia. split.
  - apply Z.div_le_compat_l; lia.
  - pose proof (Z.mul_succ_div_gt n d ltac:(lia)) as Hgt.
    assert (n / d < A) as HQ.
    { apply Z.div_lt_upper_bound; [lia|]. apply Z.lt_le_trans with 18446744073709551616; [lia|].
      assert (2147483648 * B ≤ d) by nia. nia. }
    assert (0 ≤ n / d) as HQ0 by (apply Z.div_pos; lia).
    assert (n < v * B * (n / d + 2)) as Hlt.
    { assert (d - v * B ≤ B - 1) as Hsm by lia.
      assert ((n / d + 1) * (d - v * B) ≤ A * (B - 1)) as Hprod by (apply Z.mul_le_mono_nonneg; lia).
      nia. }
    apply Z.div_lt_upper_bound in Hlt; lia.
Qed.
End Estimate.

Lemma shifted_divisor d s :
  4294967296 ≤ d → is_u64 d → 0 ≤ s ≤ 31 → d / 4294967296 * 2 ^ s < 4294967296 →
  2147483648 ≤ d / 4294967296 * 2 ^ s →
  let v := u32 (Z.shiftr (u64 (Z.shiftl d s)) 32) in
  2147483648 ≤ v < 4294967296 ∧ v * 2 ^ (32 - s) ≤ d < (v + 1) * 2 ^ (32 - s).
Proof.
  intros Hd Hd64 Hs Hhi Hlo v.
  assert (2 ^ s * 2 ^ (32 - s) = 4294967296) as Hp.
  { rewrite <- Z.pow_add_r by lia. by replace (s + (32 - s)) with 32 by lia. }
  assert (0 < 2 ^ s) as H1 by (apply Z.pow_pos_nonneg; lia).
  assert (0 < 2 ^ (32 - s)) as H2 by (apply Z.pow_pos_nonneg; lia).
  pose proof (Z.div_mod d 4294967296 ltac:(lia)) as Hdm.
  pose proof (Z.mod_pos_bound d 4294967296 ltac:(lia)) as Hm.
  set (dh := d / 4294967296) in *.
  assert (0 ≤ d * 2 ^ s < 18446744073709551616) as Hfit.
  { split; [nia|]. assert (d * 2 ^ s < (dh + 1) * 2 ^ s * 4294967296) by nia.
    assert ((dh + 1) * 2 ^ s ≤ 4294967296); [|nia].
    assert (dh < 2 ^ (32 - s)) by nia. nia. }
  assert (v = d * 2 ^ s / 4294967296) as Ev.
  { unfold v. rewrite Z.shiftl_mul_pow2 by lia. rewrite u64_id by done.
    rewrite Z.shiftr_div_pow2 by lia. change (2 ^ 32) with 4294967296.
    apply u32_id. split; [apply Z.div_pos; lia|]. apply Z.div_lt_upper_bound; lia. }
  pose proof (Z.div_mod (d * 2 ^ s) 4294967296 ltac:(lia)) as Hvm.
  pose proof (Z.mod_pos_bound (d * 2 ^ s) 4294967296 ltac:(lia)) as Hvb.
  rewrite <- Ev in Hvm. split; [split|split].
  - rewrite Ev. apply Z.div_le_lower_bound; nia.
  - rewrite Ev. apply Z.div_lt_upper_bound; lia.
  - apply (Z.mul_le_mono_pos_r _ _ (2 ^ s)); [done|]. nia.
  - apply (Z.mul_lt_mono_pos_r (2 ^ s)); [done|]. nia.
Qed.

Lemma divl_fits n d : 0 < d → n / d < 4294967296 → divl n d = Ret (n / d).
Proof.
  intros Hd Hq. unfold divl. destruct (Z.eqb_spec d 0); [lia|].
  by destruct (Z.leb_spec 4294967296 (n / d)); [lia|].
Qed.

Lemma udiv64_spec n d : is_u64 n → is_u64 d → d ≠ 0 → udiv64 n d = Ret (n / d).
Proof.
  intros Hn Hd Hnz. unfold udiv64. rewrite !Z.shiftr_div_pow2 by lia.
  change (2 ^ 32) with 4294967296. change (Z.shiftl 1 32) with 4294967296.
  unfold is_u64 in *. destruct (Z.eqb_spec (d / 4294967296) 0) as [Eh|Hh].
  - assert (d < 4294967296) by (Z.to_euclidean_division_equations; lia).
    rewrite (u32_id d), (u32_id (n / 4294967296))
      by (unfold is_u32; Z.to_euclidean_division_equations; lia).
    destruct (Z.eqb_spec d 0); [done|]. unfold u32.
    pose proof (Z.mod_pos_bound n 4294967296 ltac:(lia)) as Hn0.
    pose proof (Z.mod_pos_bound (n / 4294967296) d ltac:(lia)) as Hr.
    pose proof (digit_quotient_fits _ _ d Hr Hn0) as Hfit.
    pose proof (digit_division n d ltac:(lia) ltac:(lia)) as Hdig. cbv zeta in Hdig.
    assert (0 ≤ n / d < 18446744073709551616) as Hq.
    { split; [apply Z.div_pos; lia|]. apply Z.div_lt_upper_bound; nia. }
    assert (0 ≤ n / 4294967296 / d) by (apply Z.div_pos; [apply Z.div_pos|]; lia).
    rewrite (u64_id (4294967296 * (n / 4294967296 mod d) + n mod 4294967296))
      by (unfold is_u64; nia).
    rewrite divl_fits, bind_Ret by first [lia|apply Hfit].
    rewrite (u64_id (4294967296 * _)) by (unfold is_u64; lia). rewrite <- Hdig.
    by rewrite u64_id.
  - destruct (Z.ltb_spec n d); [by rewrite Z.div_small by lia|].
    assert (4294967296 ≤ d) by (Z.to_euclidean_division_equations; lia).
    rewrite (u32_id (d / 4294967296)) by (unfold is_u32; Z.to_euclidean_division_equations; lia).
    destruct (nlz_spec (d / 4294967296)) as [Hs Hnorm]; [Z.to_euclidean_division_equations; lia|].
    set (s := nlz (d / 4294967296)) in *.
    destruct (shifted_divisor d s) as [Hv Hvd]; [done..|lia|lia|].
    rewrite Z.shiftr_div_pow2 in Hv, Hvd by lia. change (2 ^ 32) with 4294967296 in Hv, Hvd.
    set (v := u32 _) in *.
    destruct (estimate_bounds n d s v) as [Hlo Hup]; [done..|lia|lia|lia|].
    change (2 ^ 1) with 2. rewrite divl_fits, bind_Ret; [|lia|].
    2:{ apply Z.div_lt_upper_bound; [lia|]. Z.to_euclidean_division_equations. nia. }
    rewrite Z.shiftr_div_pow2 by lia.
    assert (n / 2 / v / 2 ^ (31 - s) = n / (v * 2 ^ (32 - s))) as ->.
    { pose proof (Z.pow_pos_nonneg 2 (31 - s) ltac:(lia) ltac:(lia)).
      rewrite !Z.div_div by nia. f_equal. replace (32 - s) with (1 + (31 - s)) by lia.
      rewrite Z.pow_add_r by lia. lia. }
    set (q := n / (v * 2 ^ (32 - s))) in *.
    assert (1 ≤ n / d) as HQ by (apply Z.div_le_lower_bound; lia).
    pose proof (Z.div_mod n d ltac:(lia)) as Hdm. pose proof (Z.mod_pos_bound n d ltac:(lia)) as Hmod.
    assert (q < 18446744073709551616) as Hqb.
    { assert (n / d < 4294967296); [|lia]. apply Z.div_lt_upper_bound; nia. }
    assert (0 ≤ (q - 1) * d ≤ n) as Hprod by nia.
    rewrite (u64_id (q - 1)), (u64_id ((q - 1) * d)) by (unfold is_u64; lia).
    rewrite u64_id by (unfold is_u64; lia).
    destruct (Z.ltb_spec (n - (q - 1) * d) d); f_equal; nia.
Qed.

(** ** Remainders and signed division *)
Lemma umod64_spec n d : is_u64 n → is_u64 d → d ≠ 0 → umod64 n d = Ret (u32 (n mod d)).
Proof.
  intros Hn Hd Hnz. unfold umod64. rewrite udiv64_spec, bind_Ret by done. unfold is_u64 in *.
  pose proof (Z.div_mod n d Hnz). pose proof (Z.mod_pos_bound n d ltac:(lia)).
  assert (0 ≤ d * (n / d)) by (apply Z.mul_nonneg_nonneg; [lia|apply Z.div_pos; lia]).
  rewrite (u64_id (d * (n / d))) by (unfold is_u64; lia).
  rewrite u64_id by (unfold is_u64; lia). f_equal. f_equal. lia.
Qed.

Lemma abs64 z : is_s64 z → (if 0 <=? z then u64 z else u64 (- u64 z)) = Z.abs z ∧ is_u64 (Z.abs z).
Proof.
  unfold is_s64, is_u64. intros Hz. destruct (Z.leb_spec 0 z).
  - rewrite u64_id by (unfold is_u64; lia). lia.
  - unfold u64. split; [|lia].
    assert (z mod 18446744073709551616 = z + 18446744073709551616) as ->.
    { symmetry. apply (Z.mod_unique _ _ (-1)); lia. }
    symmetry. apply (Z.mod_unique _ _ (-1)); lia.
Qed.

Lemma s64_id z : is_s64 z → s64 z = z.
Proof.
  unfold is_s64, s64. intros Hz. destruct (Z_lt_le_dec z 0).
  - assert (u64 z = z + 18446744073709551616) as ->.
    { symmetry. apply (Z.mod_unique _ _ (-1)); lia. }
    destruct (Z.ltb_spec (z + 18446744073709551616) 9223372036854775808); lia.
  - rewrite u64_id by (unfold is_u64; lia).
    destruct (Z.ltb_spec z 9223372036854775808); lia.
Qed.

(** Truncating division by the quotient of the absolute values. *)
Lemma quot_abs n d :
  d ≠ 0 → Z.quot n d = if Bool.eqb (n <? 0) (d <? 0) then Z.abs n / Z.abs d else - (Z.abs n / Z.abs d).
Proof.
  intros Hd. destruct (Z.ltb_spec n 0), (Z.ltb_spec d 0); cbn [Bool.eqb].
  - rewrite !Z.abs_neq, <- Z.quot_div_nonneg, Z.quot_opp_opp by lia. done.
  - rewrite Z.abs_neq, Z.abs_eq, <- Z.quot_div_nonneg, Z.quot_opp_l by lia. lia.
  - rewrite Z.abs_eq, Z.abs_neq, <- Z.quot_div_nonneg, Z.quot_opp_r by lia. lia.
  - rewrite !Z.abs_eq, Z.quot_div_nonneg by lia. done.
Qed.

Lemma sdiv64_spec n d :
  is_s64 n → is_s64 d → d ≠ 0 → ¬ (n = -9223372036854775808 ∧ d = -1) →
  sdiv64 n d = Ret (Z.quot n d).
Proof.
  intros Hn Hd Hnz Hov. destruct (abs64 n Hn) as [En Hna]. destruct (abs64 d Hd) as [Ed Hda].
  unfold sdiv64. rewrite En, Ed. rewrite udiv64_spec, bind_Ret by (done || lia). f_equal.
  rewrite quot_abs by done. unfold is_s64 in *.
  assert (0 ≤ Z.abs n / Z.abs d ≤ Z.abs n) as Hq.
  { split; [apply Z.div_pos; lia|]. apply Z.div_le_upper_bound; nia. }
  destruct (decide (Z.abs n / Z.abs d = 9223372036854775808)) as [Eq|].
  - assert (n = -9223372036854775808) as -> by lia.
    assert (Z.abs d = 1) as Hd1.
    { change (Z.abs (-9223372036854775808)) with 9223372036854775808 in Eq.
      pose proof (Z.mul_div_le 9223372036854775808 (Z.abs d) ltac:(lia)). nia. }
    assert (d = 1) as -> by lia. done.
  - rewrite !(s64_id (Z.abs n / Z.abs d)) by (unfold is_s64; lia).
    destruct (Bool.eqb _ _); [done|]. apply s64_id. unfold is_s64. lia.
Qed.

Lemma smod64_spec n d :
  is_s64 n → is_s64 d → d ≠ 0 → ¬ (n = -9223372036854775808 ∧ d = -1) →
  smod64 n d = Ret (s32 (Z.rem n d)).
Proof.
  intros Hn Hd Hnz Hov. unfold smod64. rewrite sdiv64_spec, bind_Ret by done. f_equal. f_equal.
  pose proof (Z.quot_rem n d Hnz) as Hqr. pose proof (Z.rem_bound_abs n d Hnz).
  assert (Z.abs (Z.rem n d) ≤ Z.abs n) as Hr.
  { rewrite <- Z.rem_abs by done. apply Z.rem_le; lia. }
  assert (Z.sgn (Z.rem n d) = Z.sgn n ∨ Z.rem n d = 0) as Hsg.
  { destruct (decide (Z.rem n d = 0)); [by right|left]. by apply Z.rem_sign_nz. }
  assert (d * Z.quot n d = n - Z.rem n d) as E by lia. unfold is_s64 in *.
  rewrite E, (s64_id (n - Z.rem n d)) by (unfold is_s64; lia).
  replace (n - (n - Z.rem n d)) with (Z.rem n d) by lia. apply s64_id. unfold is_s64. lia.
Qed.

(** ** Theorems *)

(** The 64-bit division built on the 32-bit divide instruction is exact for every
    dividend and every nonzero divisor, on both of its paths, and the instruction
    never traps. *)
Theorem udivdi3_correct n d :
  is_u64 n → is_u64 d → d ≠ 0 → udivdi3 n d = Ret (n / d).
Proof. apply udiv64_spec. Qed.

Lemma udivdi3_witness :
  udivdi3 18446744073709551615 4294967297 = Ret (18446744073709551615 / 4294967297).
Proof. apply udivdi3_correct; [done|done|lia]. Defined.

(** Signed 64-bit division truncates towards zero, as C requires, except for the
    one quotient that does not fit. *)
Theorem divdi3_correct n d :
  is_s64 n → is_s64 d → d ≠ 0 → ¬ (n = -9223372036854775808 ∧ d = -1) →
  divdi3 n d = Ret (Z.quot n d).
Proof. apply sdiv64_spec. Qed.

Lemma divdi3_witness : divdi3 (-7000000000000) 3000000000 = Ret (Z.quot (-7000000000000) 3000000000).
Proof. apply divdi3_correct; [done|done|lia|lia]. Defined.

(** The remainder routines return only 32 bits of the remainder, since [umod64]
    is declared to return [uint32_t] and [smod64] [int32_t]: the result is right
    exactly when the remainder fits. *)
Theorem moddi3_truncates n d :
  is_u64 n → is_u64 d → d ≠ 0 →
  umoddi3 n d = Ret (n mod d) ↔ n mod d < 4294967296.
Proof.
  intros Hn Hd Hnz. unfold umoddi3. rewrite umod64_spec by done.
  pose proof (Z.mod_pos_bound n d ltac:(unfold is_u64 in *; lia)) as Hm. split.
  - intros [= E]. pose proof (u32_range (n mod d)) as Hr. rewrite E in Hr. apply Hr.
  - intros Hlt. rewrite u32_id; [done|unfold is_u32; lia].
Qed.

Lemma moddi3_truncates_witness :
  umoddi3 8589934592 17179869184 ≠ Ret (8589934592 mod 17179869184).
Proof.
  intros E. apply (moddi3_truncates 8589934592 17179869184) in E; [|done|done|lia].
  vm_compute in E. discriminate E.
Defined.
