(* ===== verification/FixedPoint.v ===== *)
(** * Fixed-point numbers (threads/fixed-point.h)

    Numbers of 16 integer and 16 fraction bits in an [int], as the scheduler's load
    averages use them.  [int] arithmetic wraps as on the machine; the products and
    quotients go through [long long] first. *)
From S2P Require Import Prelude.

Definition FIX_P : Z := 16.
Definition FIX_Q : Z := 16.
Definition FIX_F : Z := Z.shiftl 1 FIX_Q.
Definition FIX_MAX_INT : Z := Z.shiftl 1 FIX_P - 1.
Definition FIX_MIN_INT : Z := - FIX_MAX_INT.

Record fixed_point_t := Fix { f : Z }.
Definition mk_fix (v : Z) : fixed_point_t := Fix (s32 v).

Definition fix_int (n : Z) : res fixed_point_t :=
  ASSERT ((FIX_MIN_INT <=? n) && (n <=? FIX_MAX_INT));; Ret (mk_fix (n * FIX_F)).
Definition fix_frac (n d : Z) : res fixed_point_t :=
  ASSERT (negb (d =? 0));;
  ASSERT ((FIX_MIN_INT <=? Z.quot n d) && (Z.quot n d <=? FIX_MAX_INT));;
  Ret (mk_fix (Z.quot (n * FIX_F) d)).
Definition fix_round (x : fixed_point_t) : Z := Z.quot (s32 (f x + Z.quot FIX_F 2)) FIX_F.
Definition fix_trunc (x : fixed_point_t) : Z := Z.quot (f x) FIX_F.
Definition fix_add (x y : fixed_point_t) : fixed_point_t := mk_fix (f x + f y).
Definition fix_sub (x y : fixed_point_t) : fixed_point_t := mk_fix (f x - f y).
Definition fix_mul (x y : fixed_point_t) : fixed_point_t := mk_fix (Z.quot (f x * f y) FIX_F).
Definition fix_scale (x : fixed_point_t) (n : Z) : res fixed_point_t :=
  ASSERT (0 <=? n);; Ret (mk_fix (f x * n)).
(** Division by zero traps. *)
Definition fix_div (x y : fixed_point_t) : res fixed_point_t :=
  if f y =? 0 then Panic else Ret (mk_fix (Z.quot (f x * FIX_F) (f y))).
Definition fix_unscale (x : fixed_point_t) (n : Z) : res fixed_point_t :=
  ASSERT (0 <? n);; Ret (mk_fix (Z.quot (f x) n)).
Definition fix_inv (x : fixed_point_t) : res fixed_point_t :=
  one ← fix_int 1; fix_div one x.
Definition fix_compare (x y : fixed_point_t) : Z :=
  if f x <? f y then -1 else if f y <? f x then 1 else 0.

(** ** Rounding *)
Definition is_s32 (z : Z) : Prop := -2147483648 ≤ z < 2147483648.

Lemma s32_id z : is_s32 z → s32 z = z.
Proof.
  unfold is_s32, s32. intros Hz. destruct (Z_lt_le_dec z 0).
  - assert (u32 z = z + 4294967296) as ->.
    { symmetry. apply (Z.mod_unique _ _ (-1)); lia. }
    destruct (Z.ltb_spec (z + 4294967296) 2147483648); lia.
  - rewrite u32_id by (unfold is_u32; lia). destruct (Z.ltb_spec z 2147483648); lia.
Qed.

Lemma fix_F_eq : FIX_F = 65536.
Proof. done. Qed.

(** The value of [fix_int] inside the declared range. *)
Lemma fix_int_value n :
  FIX_MIN_INT ≤ n ≤ FIX_MAX_INT → fix_int n = Ret (mk_fix (n * 65536)).
Proof.
  intros Hn. unfold fix_int. rewrite ASSERT_true; [done|]. rewrite andb_true_iff, !Z.leb_le. lia.
Qed.

(** An integer of at most 16 bits with its sign survives the conversion to a
    fixed-point number and back by truncation, a nonnegative one also by rounding; sums and differences of
    fixed-point numbers that fit are exact; and a product that fits differs from the
    exact one by less than one unit in the last place, towards zero. *)
Theorem fix_exact n x y :
  -32768 ≤ n < 32768 →
  is_s32 (f x) → is_s32 (f y) → is_s32 (Z.quot (f x * f y) 65536) →
  (∃ v, fix_int n = Ret v ∧ fix_trunc v = n ∧ (0 ≤ n < 32767 → fix_round v = n))
  ∧ (is_s32 (f x + f y) → f (fix_add x y) = f x + f y ∧ fix_sub (fix_add x y) y = Fix (f x))
  ∧ Z.abs (f x * f y - f (fix_mul x y) * 65536) < 65536
  ∧ Z.abs (f (fix_mul x y)) * 65536 ≤ Z.abs (f x * f y).
Proof.
  intros Hn Hx Hy Hxy. split; [|split; [|split]].
  - exists (mk_fix (n * 65536)). rewrite fix_int_value
      by (change FIX_MIN_INT with (-65535); change FIX_MAX_INT with 65535; lia).
    split; [done|]. unfold fix_trunc, fix_round, mk_fix. cbn [f]. rewrite fix_F_eq.
    rewrite s32_id by (unfold is_s32; lia). split; [by apply Z.quot_mul|]. intros Hn2.
    change (Z.quot 65536 2) with 32768. rewrite s32_id by (unfold is_s32; lia).
    Z.to_euclidean_division_equations. lia.
  - intros Hs. unfold fix_add, fix_sub, mk_fix. cbn [f]. rewrite (s32_id (f x + f y)) by done.
    split; [done|]. replace (f x + f y - f y) with (f x) by lia. by rewrite s32_id.
  - unfold fix_mul, mk_fix. cbn [f]. rewrite fix_F_eq, s32_id by done.
    Z.to_euclidean_division_equations. lia.
  - unfold fix_mul, mk_fix. cbn [f]. rewrite fix_F_eq, s32_id by done.
    Z.to_euclidean_division_equations. lia.
Qed.

Lemma fix_exact_witness :
  (∃ v, fix_int (-5) = Ret v ∧ fix_trunc v = -5)
  ∧ Z.abs (98304 * 131072 - f (fix_mul (Fix 98304) (Fix 131072)) * 65536) < 65536.
Proof.
  destruct (fix_exact (-5) (Fix 98304) (Fix 131072)) as ((v & E & Ht & _) & _ & Hm & _);
    [lia|done|done|done|].
  split; [|exact Hm]. exists v. exact (conj E Ht).
Defined.

(** [FIX_MAX_INT] is twice too large: an integer from 2^15 to [FIX_MAX_INT] passes
    the assertion of [fix_int], but its fixed-point representation has overflowed and
    stands for [n - 65536], a negative number. *)
Theorem fix_int_overflows n :
  32768 ≤ n ≤ FIX_MAX_INT →
  ∃ v, fix_int n = Ret v ∧ f v < 0 ∧ fix_trunc v = n - 65536.
Proof.
  intros Hn. exists (mk_fix (n * 65536)). assert (FIX_MAX_INT = 65535) as Em by done.
  assert (FIX_MIN_INT = -65535) as Em2 by done. split; [apply fix_int_value; lia|].
  unfold fix_trunc, mk_fix. cbn [f]. rewrite fix_F_eq.
  assert (s32 (n * 65536) = (n - 65536) * 65536) as ->.
  { unfold s32. rewrite u32_id by (unfold is_u32; lia).
    destruct (Z.ltb_spec (n * 65536) 2147483648); lia. }
  split; [lia|]. by apply Z.quot_mul.
Qed.

Lemma fix_int_overflows_witness : ∃ v, fix_int 40000 = Ret v ∧ fix_trunc v = -25536.
Proof.
  destruct (fix_int_overflows 40000) as (v & E & _ & Ht); [vm_compute; split; discriminate|].
  exists v. exact (conj E Ht).
Defined.

(** [fix_round] does not round a negative number to the nearest integer: it adds
    one half and then divides towards zero, so even a negative integer comes back as
    its successor. *)
Theorem fix_round_negative n :
  -32768 ≤ n < 0 → ∃ v, fix_int n = Ret v ∧ fix_round v = n + 1.
Proof.
  intros Hn. exists (mk_fix (n * 65536)). rewrite fix_int_value
    by (change FIX_MIN_INT with (-65535); change FIX_MAX_INT with 65535; lia).
  split; [done|]. unfold fix_round, mk_fix. cbn [f]. rewrite fix_F_eq.
  change (Z.quot 65536 2) with 32768. rewrite !s32_id by (unfold is_s32; rewrite ?s32_id; unfold is_s32; lia).
  Z.to_euclidean_division_equations. lia.
Qed.

Lemma fix_round_negative_witness : ∃ v, fix_int (-5) = Ret v ∧ fix_round v = -4.
Proof. apply (fix_round_negative (-5)). lia. Defined.
