(* ===== verification/Sorting.v ===== *)
(** * Sorting, searching and number parsing (lib/stdlib.c)

    The heap sort behind [qsort], binary search and [atoi].  An array of [cnt]
    elements of [size] bytes is the list of its elements; the functions number them
    from one, as the code does, and an access outside the array is [Stuck], so the
    theorems also say that the code stays inside it. *)
From Stdlib Require Import Sorted.
From S2P Require Import Prelude Mem CString.

Section Sort.
Context {A : Type} `{Inhabited A} (compare : A → A → Z).
Implicit Types (array : list A).

Definition in_array (i : nat) array : bool := (1 <=? i)%nat && (i <=? length array)%nat.
(** The element with 1-based index [i]. *)
Definition at_idx array (i : nat) : A := array !!! (i - 1)%nat.

Definition swap_at array (a b : nat) : list A :=
  <[(a - 1)%nat := at_idx array b]> (<[(b - 1)%nat := at_idx array a]> array).

Definition do_swap array (a_idx b_idx : nat) : res (list A) :=
  if in_array a_idx array && in_array b_idx array then Ret (swap_at array a_idx b_idx) else Stuck.

Definition do_compare array (a_idx b_idx : nat) : res Z :=
  if in_array a_idx array && in_array b_idx array
  then Ret (compare (at_idx array a_idx) (at_idx array b_idx)) else Stuck.

(** The index of the larger of the element at [max] and the child at [c]. *)
Definition larger array (c max cnt : nat) : res nat :=
  if (c <=? cnt)%nat then
    r ← do_compare array c max; Ret (if 0 <? r then c else max)
  else Ret max.

Fixpoint heapify (fuel : nat) array (i cnt : nat) : res (list A) :=
  match fuel with
  | O => Stuck
  | S fuel =>
    let left := (2 * i)%nat in
    let right := (2 * i + 1)%nat in
    max ← larger array left i cnt;
    max ← larger array right max cnt;
    if (max =? i)%nat then Ret array else
    array ← do_swap array i max;
    heapify fuel array max cnt
  end.

(** [for (i = cnt / 2; i > 0; i--)]: the counter is [i]. *)
Fixpoint build_loop (i cnt : nat) array : res (list A) :=
  match i with
  | O => Ret array
  | S i' => array ← heapify (S cnt) array i cnt; build_loop i' cnt array
  end.
(** [for (i = cnt; i > 1; i--)]. *)
Fixpoint sort_loop (i : nat) array : res (list A) :=
  match i with
  | O => Ret array
  | S i' =>
    if (1 <? i)%nat then
      array ← do_swap array 1 i;
      array ← heapify (S i) array 1 (i - 1);
      sort_loop i' array
    else Ret array
  end.
Definition sort array : res (list A) :=
  let cnt := length array in
  array ← build_loop (cnt / 2) cnt array;
  sort_loop cnt array.
Definition qsort array : res (list A) := sort array.

(** The half-open range of candidates, [first] and [last] counted from zero. *)
Fixpoint search_loop (fuel : nat) (key : A) array (first last : nat) : res (option nat) :=
  match fuel with
  | O => Stuck
  | S fuel =>
    if (first <? last)%nat then
      let middle := (first + (last - first) / 2)%nat in
      if (middle <? length array)%nat then
        let cmp := compare key (array !!! middle) in
        if cmp <? 0 then search_loop fuel key array first middle
        else if 0 <? cmp then search_loop fuel key array (middle + 1) last
        else Ret (Some middle)
      else Stuck
    else Ret None
  end.
Definition binary_search (key : A) array : res (option nat) :=
  search_loop (S (length array)) key array 0 (length array).
Definition bsearch (key : A) array : res (option nat) := binary_search key array.
End Sort.

(** ** [atoi] *)
Definition isspace (c : Z) : bool :=
  (c =? 32) || (c =? 12) || (c =? 10) || (c =? 13) || (c =? 9) || (c =? 11).
Definition isdigit (c : Z) : bool := (48 <=? c) && (c <=? 57).

Fixpoint skip_space (fuel : nat) (m : mem) (s : Z) : res Z :=
  match fuel with
  | O => Stuck
  | S fuel => if isspace (load8 m s) then skip_space fuel m (s + 1) else Ret s
  end.
Fixpoint parse_digits (fuel : nat) (m : mem) (s value : Z) : res Z :=
  match fuel with
  | O => Stuck
  | S fuel =>
    if isdigit (load8 m s)
    then parse_digits fuel m (s + 1) (s32 (value * 10 - (load8 m s - 48)))
    else Ret value
  end.
Definition atoi (fuel : nat) (m : mem) (s : Z) : res Z :=
  ASSERT (negb (s =? NULL));;
  s ← skip_space fuel m s;
  let '(negative, s) :=
    if load8 m s =? 43 then (false, s + 1)
    else if load8 m s =? 45 then (true, s + 1)
    else (false, s) in
  value ← parse_digits fuel m s 0;
  Ret (if (negative : bool) then value else s32 (- value)).

(** ** The order and heaps *)
Section SortSpec.
Context {A : Type} `{Inhabited A} (compare : A → A → Z).
(** [compare] gives strcmp-like results for a total preorder. *)
Context (Hgt : ∀ x y, 0 < compare x y → compare y x ≤ 0).
Context (Htrans : ∀ x y z, compare x y ≤ 0 → compare y z ≤ 0 → compare x z ≤ 0).
Implicit Types (array : list A).

Abbreviation R x y := (compare x y ≤ 0).
Local Notation "a ⟦ i ⟧" := (at_idx a i) (at level 1, format "a ⟦ i ⟧").

Lemma R_refl x : R x x.
Proof using Hgt. destruct (Z_lt_le_dec 0 (compare x x)) as [Hx|]; [by apply Hgt|done]. Qed.

Lemma in_array_spec i array : in_array i array = true ↔ (1 ≤ i ≤ length array)%nat.
Proof. unfold in_array. rewrite andb_true_iff, !Nat.leb_le. lia. Qed.

Lemma swap_at_length array a b : length (swap_at array a b) = length array.
Proof. unfold swap_at. by rewrite !length_insert. Qed.

Lemma swap_at_lookup array a b j :
  (1 ≤ a ≤ length array)%nat → (1 ≤ b ≤ length array)%nat → (1 ≤ j)%nat →
  (swap_at array a b) ⟦j⟧
  = if decide (j = a) then array ⟦b⟧ else if decide (j = b) then array ⟦a⟧ else array ⟦j⟧.
Proof.
  intros Ha Hb Hj. unfold swap_at, at_idx. case_decide as Ea.
  - subst. rewrite list_lookup_total_insert_eq by (rewrite length_insert; lia). done.
  - rewrite list_lookup_total_insert_ne by lia. case_decide as Eb.
    + subst. by rewrite list_lookup_total_insert_eq by lia.
    + by rewrite list_lookup_total_insert_ne by lia.
Qed.

Lemma swap_at_perm array a b :
  (1 ≤ a ≤ length array)%nat → (1 ≤ b ≤ length array)%nat → swap_at array a b ≡ₚ array.
Proof.
  intros Ha Hb. unfold swap_at, at_idx.
  destruct (decide (a = b)) as [->|Hne].
  - rewrite list_insert_insert_eq. rewrite list_insert_id; [done|].
    apply list_lookup_lookup_total_lt. lia.
  - apply Permutation_inj. split; [by rewrite !length_insert|].
    set (g := λ i : nat, if decide (i = a - 1)%nat then (b - 1)%nat
                         else if decide (i = b - 1)%nat then (a - 1)%nat else i).
    exists g. split.
    + intros i j. unfold g. repeat case_decide; lia.
    + intros i. unfold g. destruct (decide (i = a - 1)%nat) as [->|Hia].
      * rewrite list_lookup_insert_eq by (rewrite length_insert; lia).
        symmetry. apply list_lookup_lookup_total_lt. lia.
      * rewrite list_lookup_insert_ne by lia. case_decide as Eb.
        -- subst. rewrite list_lookup_insert_eq by lia.
           symmetry. apply list_lookup_lookup_total_lt. lia.
        -- by rewrite list_lookup_insert_ne by lia.
Qed.

Lemma do_swap_eq array a b :
  (1 ≤ a ≤ length array)%nat → (1 ≤ b ≤ length array)%nat →
  do_swap array a b = Ret (swap_at array a b).
Proof.
  intros Ha%in_array_spec Hb%in_array_spec. unfold do_swap. by rewrite Ha, Hb.
Qed.

(** [c] is a child of [j] within the first [cnt] elements. *)
Definition child (j c cnt : nat) : Prop := (c = 2 * j ∨ c = 2 * j + 1)%nat ∧ (c ≤ cnt)%nat.

(** Every node from [lo] on, except perhaps [i], is at least its children. *)
Definition heap_but array (lo i cnt : nat) : Prop :=
  ∀ j c, (lo ≤ j)%nat → j ≠ i → child j c cnt → R (array ⟦c⟧) (array ⟦j⟧).
Definition heap array (lo cnt : nat) : Prop :=
  ∀ j c, (lo ≤ j)%nat → child j c cnt → R (array ⟦c⟧) (array ⟦j⟧).
(** The children of [i] are at most the parent of [i], when that is in range. *)
Definition bridged array (lo i cnt : nat) : Prop :=
  ∀ p c, (lo ≤ p)%nat → child p i cnt → child i c cnt → R (array ⟦c⟧) (array ⟦p⟧).

(** What every step of the sort preserves: the elements are permuted within the
    first [cnt] places. *)
Record permuted array array' (cnt : nat) : Prop := {
  pm_length : length array' = length array;
  pm_perm : array' ≡ₚ array;
  pm_above : ∀ j, (cnt < j)%nat → array' ⟦j⟧ = array ⟦j⟧;
  pm_pred : ∀ P : A → Prop, (∀ j, (1 ≤ j ≤ cnt)%nat → P (array ⟦j⟧)) →
    ∀ j, (1 ≤ j ≤ cnt)%nat → P (array' ⟦j⟧);
}.

Lemma permuted_refl array cnt : permuted array array cnt.
Proof. by split. Qed.

Lemma permuted_trans a b c cnt : permuted a b cnt → permuted b c cnt → permuted a c cnt.
Proof.
  intros [L1 P1 A1 Q1] [L2 P2 A2 Q2]. split; [congruence|by rewrite P2|..].
  - intros j Hj. by rewrite A2, A1.
  - intros P HP. by apply Q2, Q1.
Qed.

Lemma permuted_mono a b cnt cnt' :
  (cnt ≤ cnt')%nat → permuted a b cnt → permuted a b cnt'.
Proof.
  intros Hle [L1 P1 A1 Q1]. split; [done|done|intros j Hj; apply A1; lia|].
  intros P HP j Hj. destruct (decide (j ≤ cnt)%nat).
  - apply Q1; [|lia]. intros k Hk. apply HP. lia.
  - rewrite A1 by lia. by apply HP.
Qed.

Lemma permuted_swap array a b cnt :
  (1 ≤ a ≤ cnt)%nat → (1 ≤ b ≤ cnt)%nat → (cnt ≤ length array)%nat →
  permuted array (swap_at array a b) cnt.
Proof.
  intros Ha Hb Hc. split; [apply swap_at_length|apply swap_at_perm; lia|..].
  - intros j Hj. rewrite swap_at_lookup by lia. by rewrite !decide_False by lia.
  - intros P HP j Hj. rewrite swap_at_lookup by lia. repeat case_decide; by apply HP.
Qed.

(** The larger of two elements. *)
Lemma larger_spec array c max cnt :
  (1 ≤ c)%nat → (1 ≤ max ≤ cnt)%nat → (cnt ≤ length array)%nat →
  ∃ m, larger compare array c max cnt = Ret m ∧ (m = max ∨ m = c ∧ (c ≤ cnt)%nat)
    ∧ R (array ⟦max⟧) (array ⟦m⟧) ∧ ((c ≤ cnt)%nat → R (array ⟦c⟧) (array ⟦m⟧))
    ∧ (m ≠ max → 0 < compare (array ⟦m⟧) (array ⟦max⟧)).
Proof using Hgt.
  intros Hc Hm Hl. unfold larger. destruct (Nat.leb_spec c cnt).
  - unfold do_compare. rewrite (proj2 (in_array_spec c array)), (proj2 (in_array_spec max array)) by lia.
    cbn [andb]. rewrite bind_Ret. eexists. split; [done|].
    destruct (Z.ltb_spec 0 (compare (array ⟦c⟧) (array ⟦max⟧))).
    + split_and!; auto using R_refl.
    + split_and!; auto using R_refl. done.
  - exists max. split_and!; auto using R_refl; [lia|done].
Qed.

Lemma heapify_spec array lo cnt : ∀ fuel i,
  (1 ≤ lo ≤ i)%nat → (i ≤ cnt)%nat → (cnt ≤ length array)%nat → (cnt - i < fuel)%nat →
  heap_but array lo i cnt → bridged array lo i cnt →
  ∃ array', heapify compare fuel array i cnt = Ret array'
    ∧ permuted array array' cnt ∧ heap array' lo cnt.
Proof using Hgt Htrans.
  intros fuel. revert array. induction fuel as [|fuel IH]; intros array i Hi Hic Hl Hf Hh Hb; [lia|].
  cbn [heapify].
  destruct (larger_spec array (2 * i) i cnt) as (m1 & -> & Hm1 & Hge1 & Hc1 & Hgt1); [lia..|].
  rewrite bind_Ret.
  destruct (larger_spec array (2 * i + 1) m1 cnt) as (m & -> & Hm & Hge & Hc2 & Hgt2); [lia..|].
  rewrite bind_Ret.
  assert (R (array ⟦i⟧) (array ⟦m⟧)) as Him by eauto.
  assert (∀ c, child i c cnt → R (array ⟦c⟧) (array ⟦m⟧)) as Hch.
  { intros c [[->| ->] Hle]; eauto. }
  destruct (Nat.eqb_spec m i) as [->|Hne].
  { exists array. split_and!; [done|apply permuted_refl|]. intros j c Hj Hjc.
    destruct (decide (j = i)) as [->|]; auto. }
  assert (child i m cnt) as Hcm.
  { unfold child. destruct Hm as [->|[-> ?]]; [destruct Hm1 as [->|[-> ?]]; [done|lia]|lia]. }
  assert (i < m ≤ cnt)%nat as Hm_lt by (unfold child in Hcm; lia).
  rewrite do_swap_eq, bind_Ret by lia. set (array1 := swap_at array i m).
  assert (∀ j, (1 ≤ j)%nat → array1 ⟦j⟧
    = if decide (j = i) then array ⟦m⟧ else if decide (j = m) then array ⟦i⟧ else array ⟦j⟧) as Hsw.
  { intros j Hj. apply swap_at_lookup; lia. }
  destruct (IH array1 m) as (array' & E & Hp & Hheap); try lia.
  - unfold array1. rewrite swap_at_length. lia.
  - intros j c Hj Hjm Hjc. pose proof Hjc as Hjc'. unfold child in Hjc'. rewrite !Hsw by lia.
    destruct (decide (j = i)) as [->|Hji].
    + destruct (decide (c = i)); [lia|]. destruct (decide (c = m)); auto.
    + rewrite (decide_False (P := j = m)) by done. destruct (decide (c = i)) as [->|Hci].
      * by apply Hb.
      * destruct (decide (c = m)) as [->|]; [unfold child in *; lia|]. auto.
  - intros p c Hp Hpm Hmc. assert (p = i) as -> by (unfold child in *; lia).
    assert (2 * m ≤ c)%nat by (unfold child in *; lia).
    rewrite !Hsw by lia. rewrite decide_False, decide_False, decide_True by lia.
    apply Hh; [lia|done|done].
  - exists array'. split_and!; [done| |done]. eapply permuted_trans; [|done].
    apply permuted_swap; lia.
Qed.

Lemma build_loop_spec cnt : ∀ i array,
  (i ≤ cnt / 2)%nat → (cnt ≤ length array)%nat → heap array (S i) cnt →
  ∃ array', build_loop compare i cnt array = Ret array'
    ∧ permuted array array' cnt ∧ heap array' 1 cnt.
Proof using Hgt Htrans.
  induction i as [|i IH]; intros array Hi Hl Hh; cbn [build_loop].
  { exists array. split_and!; [done|apply permuted_refl|done]. }
  assert (S i ≤ cnt)%nat as Hic.
  { pose proof (Nat.Div0.div_le_upper_bound cnt 2 cnt ltac:(lia)). lia. }
  destruct (heapify_spec array (S i) cnt (S cnt) (S i)) as (a1 & -> & Hp1 & Hh1); try lia.
  { intros j c Hj Hji Hjc. apply Hh; [lia|done]. }
  { intros p c Hp Hpi _. unfold child in Hpi. lia. }
  rewrite bind_Ret. destruct (IH a1) as (a2 & -> & Hp2 & Hh2); [lia| |done|].
  { rewrite (pm_length _ _ _ Hp1). lia. }
  exists a2. split_and!; [done|by eapply permuted_trans|done].
Qed.

(** The root of a heap is its largest element. *)
Lemma heap_root array cnt : heap array 1 cnt → ∀ j, (1 ≤ j ≤ cnt)%nat → R (array ⟦j⟧) (array ⟦1⟧).
Proof using Hgt Htrans.
  intros Hh j. induction (lt_wf j) as [j _ IH]. intros Hj.
  destruct (decide (j = 1)%nat) as [->|Hne]; [apply R_refl|].
  pose proof (Nat.div_mod j 2 ltac:(lia)) as Hd. pose proof (Nat.mod_upper_bound j 2 ltac:(lia)).
  apply Htrans with (array ⟦j / 2⟧); [|apply IH; lia].
  apply Hh; [lia|]. unfold child. lia.
Qed.

(** The elements from [i] on are in order, and none before is larger. *)
Definition tail_sorted array (i : nat) : Prop :=
  (∀ j, (i ≤ j)%nat → (S j ≤ length array)%nat → (1 ≤ j)%nat → R (array ⟦j⟧) (array ⟦S j⟧)).

Lemma sort_loop_spec : ∀ i array,
  (i ≤ length array)%nat → heap array 1 i → tail_sorted array (S i) →
  (∀ j, (1 ≤ j ≤ i)%nat → (S i ≤ length array)%nat → R (array ⟦j⟧) (array ⟦S i⟧)) →
  ∃ array', sort_loop compare i array = Ret array' ∧ array' ≡ₚ array ∧ tail_sorted array' 1.
Proof using Hgt Htrans.
  induction i as [|i IH]; intros array Hl Hh Hs Hb; cbn [sort_loop].
  { exists array. done. }
  destruct (Nat.ltb_spec 1 (S i)) as [Hi|Hi].
  2:{ assert (i = 0)%nat as -> by lia. exists array. split_and!; [done..|].
      intros j Hj Hj2 _. destruct (decide (j = 1)%nat) as [->|]; [apply Hb; lia|apply Hs; lia]. }
  rewrite do_swap_eq, bind_Ret by lia. set (a1 := swap_at array 1 (S i)).
  assert (length a1 = length array) as Hl1 by apply swap_at_length.
  assert (∀ j, (1 ≤ j)%nat → a1 ⟦j⟧ = if decide (j = 1)%nat then array ⟦S i⟧
    else if decide (j = S i) then array ⟦1⟧ else array ⟦j⟧) as Hsw.
  { intros j Hj. apply swap_at_lookup; lia. }
  replace (S i - 1)%nat with i by lia.
  destruct (heapify_spec a1 1 i (S (S i)) 1) as (a2 & -> & Hp2 & Hh2); try lia.
  { intros j c Hj Hj1 Hjc. unfold child in Hjc. rewrite !Hsw, !decide_False by lia.
    apply Hh; [lia|]. unfold child. lia. }
  { intros p c Hp Hp1 _. unfold child in Hp1. lia. }
  rewrite bind_Ret.
  assert (∀ j, (1 ≤ j ≤ i)%nat → R (a2 ⟦j⟧) (array ⟦1⟧)) as Hle.
  { apply (pm_pred _ _ _ Hp2 (λ x, R x (array ⟦1⟧))). intros j Hj. rewrite Hsw by lia.
    repeat case_decide; apply (heap_root array (S i)); (done || lia). }
  assert (∀ j, (S i ≤ j)%nat → a2 ⟦j⟧ = if decide (j = S i) then array ⟦1⟧ else array ⟦j⟧) as Hab.
  { intros j Hj. rewrite (pm_above _ _ _ Hp2), Hsw by lia. by rewrite decide_False by lia. }
  destruct (IH a2) as (a3 & -> & Hp3 & Hs3).
  - rewrite (pm_length _ _ _ Hp2). lia.
  - done.
  - intros j Hj Hj2 Hj1. rewrite (pm_length _ _ _ Hp2), Hl1 in Hj2. rewrite !Hab by lia.
    rewrite (decide_False (P := S j = S i)) by lia. case_decide.
    + subst. apply Hb; lia.
    + apply Hs; lia.
  - intros j Hj _. rewrite (Hab (S i)), decide_True by lia. by apply Hle.
  - exists a3. split_and!; [done| |done]. rewrite Hp3, (pm_perm _ _ _ Hp2). apply swap_at_perm; lia.
Qed.

Lemma sort_spec array :
  ∃ array', sort compare array = Ret array' ∧ array' ≡ₚ array ∧ tail_sorted array' 1.
Proof using Hgt Htrans.
  unfold sort. destruct (build_loop_spec (length array) (length array / 2) array)
    as (a1 & -> & Hp1 & Hh1); [lia..| |].
  { intros j c Hj [Hc Hle]. pose proof (Nat.div_mod (length array) 2 ltac:(lia)).
    pose proof (Nat.mod_upper_bound (length array) 2 ltac:(lia)). lia. }
  rewrite bind_Ret. pose proof (pm_length _ _ _ Hp1) as Hl1.
  destruct (sort_loop_spec (length array) a1) as (a2 & -> & Hp2 & Hs2); [lia|done| |lia|].
  - intros j Hj Hj2. lia.
  - exists a2. split_and!; [done| |done]. by rewrite Hp2, (pm_perm _ _ _ Hp1).
Qed.

(** *** Binary search *)

(** The array is in order with respect to the key: once an element is above it, so
    are all later ones, and the other way round. *)
Definition key_ordered (key : A) array : Prop :=
  ∀ i j, (i ≤ j < length array)%nat →
    (compare key (array !!! i) < 0 → compare key (array !!! j) < 0)
    ∧ (0 < compare key (array !!! j) → 0 < compare key (array !!! i)).

Lemma search_loop_spec key array : key_ordered key array → ∀ fuel first last,
  (first ≤ last ≤ length array)%nat → (last - first < fuel)%nat →
  (∀ i, (i < first)%nat → 0 < compare key (array !!! i)) →
  (∀ i, (last ≤ i < length array)%nat → compare key (array !!! i) < 0) →
  ∃ o, search_loop compare fuel key array first last = Ret o
    ∧ match o with
      | Some i => (i < length array)%nat ∧ compare key (array !!! i) = 0
      | None => ∀ i, (i < length array)%nat → compare key (array !!! i) ≠ 0
      end.
Proof.
  intros Hko. induction fuel as [|fuel IH]; intros first last Hr Hf Hlo Hhi; [lia|].
  cbn [search_loop]. destruct (Nat.ltb_spec first last).
  2:{ exists None. split; [done|]. intros i Hi.
      destruct (decide (i < first)%nat); [specialize (Hlo i ltac:(lia)); lia|].
      specialize (Hhi i ltac:(lia)). lia. }
  pose proof (Nat.div_lt (last - first) 2 ltac:(lia) ltac:(lia)) as Hmid.
  set (mid := (first + (last - first) / 2)%nat) in *.
  destruct (Nat.ltb_spec mid (length array)); [|lia].
  destruct (Z.ltb_spec (compare key (array !!! mid)) 0).
  - apply IH; [lia|lia|done|]. intros i Hi. apply (Hko mid i); [lia|done].
  - destruct (Z.ltb_spec 0 (compare key (array !!! mid))).
    + apply IH; [lia|lia| |done]. intros i Hi. apply (Hko i mid); [lia|done].
    + exists (Some mid). split; [done|]. split; [done|lia].
Qed.

Lemma tail_sorted_Sorted array : tail_sorted array 1 → Sorted (λ x y, R x y) array.
Proof.
  intros Hs. assert (∀ i x y, array !! i = Some x → array !! S i = Some y → R x y) as Hl.
  { intros i x y Hx Hy. pose proof (lookup_lt_Some _ _ _ Hy).
    specialize (Hs (S i)). unfold at_idx in Hs. cbn [Nat.sub] in Hs. rewrite Nat.sub_0_r in Hs.
    apply list_lookup_total_correct in Hx, Hy. subst. apply Hs; lia. }
  clear Hs. induction array as [|x array IH]; constructor.
  - apply IH. intros i y z. apply (Hl (S i)).
  - destruct array as [|y array]; constructor. by apply (Hl 0%nat).
Qed.
End SortSpec.

(** ** Decimal numbers *)
Lemma s32_mod a b : a mod 4294967296 = b mod 4294967296 → s32 a = s32 b.
Proof. unfold s32, u32. by intros ->. Qed.

Lemma s32_mod_id a : s32 a mod 4294967296 = a mod 4294967296.
Proof.
  unfold s32, u32. destruct (_ <? _); [by rewrite Z.mod_mod|].
  rewrite <- (Z.mod_add _ 1), Z.mul_1_l, Z.sub_add, Z.mod_mod by lia. done.
Qed.

(** The number a list of digit characters stands for, after [v]. *)
Definition dec_value (v : Z) (ds : list Z) : Z := fold_left (λ v c, v * 10 + (c - 48)) ds v.

Lemma s32_step a b d :
  s32 a = s32 b → s32 (s32 a * 10 - d) = s32 (b * 10 - d).
Proof.
  intros E. apply s32_mod. rewrite E.
  rewrite (Zminus_mod (s32 b * 10)), (Zmult_mod (s32 b)), s32_mod_id.
  by rewrite <- Zmult_mod, <- Zminus_mod.
Qed.

Lemma parse_digits_spec ds : ∀ fuel m s v,
  (∀ i c, ds !! i = Some c → load8 m (s + Z.of_nat i) = c) → Forall (λ c, isdigit c = true) ds →
  isdigit (load8 m (s + Z.of_nat (length ds))) = false → (length ds < fuel)%nat →
  parse_digits fuel m s (s32 (- v)) = Ret (s32 (- dec_value v ds)).
Proof.
  induction ds as [|c ds IH]; intros fuel m s v Hm Hd He Hf; (destruct fuel as [|fuel]; [cbn in *; lia|]);
    cbn [parse_digits length] in *.
  - rewrite Z.add_0_r in He. by rewrite He.
  - inversion Hd as [|? ? Hc Hd']; subst.
    assert (load8 m s = c) as Ec. { rewrite <- (Hm 0%nat c eq_refl). f_equal. lia. }
    rewrite Ec, Hc. rewrite (s32_step (- v) (- v) (c - 48) eq_refl).
    replace (- v * 10 - (c - 48)) with (- (v * 10 + (c - 48))) by lia.
    apply (IH fuel m (s + 1) (v * 10 + (c - 48))); [|done| |lia].
    + intros i x Hi. rewrite <- (Hm (S i) x Hi). f_equal. lia.
    + rewrite <- He. f_equal. f_equal. lia.
Qed.

Lemma skip_space_spec sp : ∀ fuel m s,
  (∀ i c, sp !! i = Some c → load8 m (s + Z.of_nat i) = c) → Forall (λ c, isspace c = true) sp →
  isspace (load8 m (s + Z.of_nat (length sp))) = false → (length sp < fuel)%nat →
  skip_space fuel m s = Ret (s + Z.of_nat (length sp)).
Proof.
  induction sp as [|c sp IH]; intros fuel m s Hm Hd He Hf; (destruct fuel as [|fuel]; [cbn in *; lia|]);
    cbn [skip_space length] in *.
  - rewrite Z.add_0_r in *. by rewrite He.
  - inversion Hd as [|? ? Hc Hd']; subst.
    assert (load8 m s = c) as Ec. { rewrite <- (Hm 0%nat c eq_refl). f_equal. lia. }
    rewrite Ec, Hc, IH; [f_equal; lia| |done| |lia].
    + intros i x Hi. rewrite <- (Hm (S i) x Hi). f_equal. lia.
    + rewrite <- He. f_equal. f_equal. lia.
Qed.

(** ** Theorems *)

(** [qsort] returns for every array and every comparison that is a total preorder;
    the result is a permutation of the array in ascending order, and no access is
    outside the array. *)
Theorem qsort_correct {A} `{Inhabited A} (compare : A → A → Z) array :
  (∀ x y, 0 < compare x y → compare y x ≤ 0) →
  (∀ x y z, compare x y ≤ 0 → compare y z ≤ 0 → compare x z ≤ 0) →
  ∃ array', qsort compare array = Ret array' ∧ array' ≡ₚ array
    ∧ Sorted (λ x y, compare x y ≤ 0) array'.
Proof.
  intros Hgt Ht. destruct (sort_spec compare Hgt Ht array) as (array' & E & Hp & Hs).
  exists array'. split_and!; [done..|]. by apply tail_sorted_Sorted.
Qed.

Lemma qsort_witness :
  ∃ array', qsort Z.sub [3; 1; 2] = Ret array' ∧ array' ≡ₚ [3; 1; 2]
    ∧ Sorted (λ x y, x - y ≤ 0) array'.
Proof. apply (qsort_correct Z.sub [3; 1; 2]); lia. Defined.

(** [binary_search] on an array that is in order with respect to the key returns
    the index of a matching element if there is one, and null only if there is none;
    it always ends and stays inside the array. *)
Theorem binary_search_correct {A} `{Inhabited A} (compare : A → A → Z) key array :
  key_ordered compare key array →
  ∃ o, binary_search compare key array = Ret o
    ∧ match o with
      | Some i => (i < length array)%nat ∧ compare key (array !!! i) = 0
      | None => ∀ i, (i < length array)%nat → compare key (array !!! i) ≠ 0
      end.
Proof.
  intros Hk. apply search_loop_spec; [done|lia|lia|lia|lia].
Qed.

Lemma binary_search_witness : binary_search Z.sub 7 [1; 5; 7] = Ret (Some 2%nat).
Proof.
  destruct (binary_search_correct Z.sub 7 [1; 5; 7]) as (o & E & Ho).
  { intros i j Hij. cbn in Hij.
    destruct i as [|[|[|i]]], j as [|[|[|j]]]; cbn; lia. }
  rewrite E. vm_compute in E. injection E as <-. reflexivity.
Defined.

(** [atoi] skips white space, takes an optional sign, and returns the decimal
    value of the digits that follow, reduced to an [int] when it does not fit. *)
Theorem atoi_correct fuel m s sp sign ds :
  0 < s → Forall (λ c, isspace c = true) sp → Forall (λ c, isdigit c = true) ds →
  (sign = [] ∧ isspace (load8 m (s + len sp)) = false
     ∧ load8 m (s + len sp) ≠ 43 ∧ load8 m (s + len sp) ≠ 45
   ∨ sign = [43] ∨ sign = [45]) →
  (∀ i c, (sp ++ sign ++ ds) !! i = Some c → load8 m (s + Z.of_nat i) = c) →
  isdigit (load8 m (s + len (sp ++ sign ++ ds))) = false →
  (length (sp ++ sign ++ ds) < fuel)%nat →
  atoi fuel m s
  = Ret (s32 (if decide (sign = [45]) then - dec_value 0 ds else dec_value 0 ds)).
Proof.
  intros Hs Hsp Hds Hsign Hm He Hf. rewrite !length_app in *.
  assert (∀ i c, sp !! i = Some c → load8 m (s + Z.of_nat i) = c) as Hm1.
  { intros i c Hi. apply Hm. by apply lookup_app_l_Some. }
  assert (∀ i c, sign !! i = Some c → load8 m (s + len sp + Z.of_nat i) = c) as Hm2.
  { intros i c Hi. rewrite <- (Hm (length sp + i)%nat c); [f_equal; lia|].
    rewrite lookup_app_r by lia. rewrite Nat.add_comm, Nat.add_sub. by apply lookup_app_l_Some. }
  assert (∀ i c, ds !! i = Some c → load8 m (s + len sp + len sign + Z.of_nat i) = c) as Hm3.
  { intros i c Hi. rewrite <- (Hm (length sp + length sign + i)%nat c); [f_equal; lia|].
    rewrite !lookup_app_r by lia. rewrite <- Hi. f_equal. lia. }
  assert (isspace (load8 m (s + len sp)) = false) as Hsp_end.
  { destruct Hsign as [(_ & ? & _)|[->| ->]]; [done|..];
      pose proof (Hm2 0%nat _ eq_refl) as E0; rewrite Z.add_0_r in E0; by rewrite E0. }
  assert (parse_digits fuel m (s + len sp + len sign) 0 = Ret (s32 (- dec_value 0 ds))) as Hpd.
  { apply (parse_digits_spec ds fuel m (s + len sp + len sign) 0); [done|done| |lia].
    rewrite <- He. f_equal. f_equal. lia. }
  assert (s32 (- s32 (- dec_value 0 ds)) = s32 (dec_value 0 ds)) as Hneg.
  { apply s32_mod. rewrite <- (Z.sub_0_l (s32 _)), Zminus_mod, s32_mod_id, <- Zminus_mod.
    f_equal. lia. }
  unfold atoi. rewrite ASSERT_true by (unfold NULL; lia).
  rewrite (skip_space_spec sp) by (done || lia). rewrite bind_Ret.
  destruct Hsign as [(-> & _ & H43 & H45)|[->| ->]]; cbn [length] in *.
  - destruct (Z.eqb_spec (load8 m (s + len sp)) 43); [done|].
    destruct (Z.eqb_spec (load8 m (s + len sp)) 45); [done|].
    rewrite Z.add_0_r in Hpd. rewrite Hpd, bind_Ret, decide_False by done. by rewrite Hneg.
  - specialize (Hm2 0%nat _ eq_refl). rewrite Z.add_0_r in Hm2. rewrite Hm2, Z.eqb_refl.
    change (Z.of_nat 1) with 1 in Hpd. rewrite Hpd, bind_Ret, decide_False by done. by rewrite Hneg.
  - specialize (Hm2 0%nat _ eq_refl). rewrite Z.add_0_r in Hm2. rewrite Hm2, Z.eqb_refl.
    change (45 =? 43) with false. cbn iota.
    change (Z.of_nat 1) with 1 in Hpd. by rewrite Hpd, bind_Ret, decide_True.
Qed.

(** The text [ -42] at address 100. *)
Definition demo_number : mem := list_to_map [(100, 32); (101, 45); (102, 52); (103, 50)].

Lemma atoi_witness : atoi 10 demo_number 100 = Ret (-42).
Proof.
  rewrite (atoi_correct 10 demo_number 100 [32] [45] [52; 50]); [done|lia|by repeat constructor
    |by repeat constructor|auto| |done|cbn; lia].
  intros i c. destruct i as [|[|[|[|i]]]]; cbn; try (intros [= <-]; reflexivity).
Defined.
