(* ===== verification/Stdio.v ===== *)
(** * Formatted output (lib/stdio.c, lib/user/console.c)

    [__vprintf] and what is built on it: [vsnprintf], which writes to memory, and the user
    console's [vhprintf], which collects characters for [write].  A format is the list of
    the characters before its terminator, and so is a string argument: the environment
    [cstr] gives the string at an address, which the calls below do not change (C leaves a
    buffer that overlaps them undefined).  Reading a character past the terminator is
    [Stuck].  The variable arguments are the 32-bit words that [va_arg] takes in turn from
    the caller's frame.  The output function and its auxiliary data are a parameter, as in
    the code. *)
From Stdlib Require Import (notations) Ascii String.
From S2P Require Import Prelude Mem CString Arithmetic Sorting.

(** ** Characters and formats *)
Definition chr (a : Ascii.ascii) : Z := Z.of_N (Ascii.N_of_ascii a).
Definition chars (s : String.string) : list Z := map chr (String.list_ascii_of_string s).
Arguments chr a%_char.
Arguments chars s%_string.

(** [*format] and [format++]. *)
Definition peek (format : list Z) : Z := default 0 (head format).
Definition advance (format : list Z) : res (list Z) :=
  match format with [] => Stuck | _ :: format => Ret format end.

(** [va_arg] for types of one and of two words. *)
Definition va_arg (args : list Z) : res (Z * list Z) :=
  match args with [] => Stuck | w :: args => Ret (u32 w, args) end.
Definition va_arg64 (args : list Z) : res (Z * list Z) :=
  '(lo, args) ← va_arg args;
  '(hi, args) ← va_arg args;
  Ret (lo + 4294967296 * hi, args).

Definition s8 (z : Z) : Z := if z mod 256 <? 128 then z mod 256 else z mod 256 - 256.
Definition s16 (z : Z) : Z :=
  if z mod 65536 <? 32768 then z mod 65536 else z mod 65536 - 65536.

(** ** Conversions *)
Definition MINUS : Z := 1.
Definition PLUS : Z := 2.
Definition SPACE : Z := 4.
Definition POUND : Z := 8.
Definition ZERO : Z := 16.
Definition GROUP : Z := 32.

Inductive ctype := CHAR | SHORT | INT | INTMAX | LONG | LONGLONG | PTRDIFFT | SIZET.

Record printf_conversion := Conversion {
  flags : Z;
  width : Z;
  precision : Z;
  type : ctype;
}.

Record integer_base := Base {
  base : Z;
  digits : list Z;
  x_char : Z;
  group : Z;
}.
Definition base_d := Base 10 (chars "0123456789") 0 3.
Definition base_o := Base 8 (chars "01234567") 0 3.
Definition base_x := Base 16 (chars "0123456789abcdef") (chr "x") 4.
Definition base_X := Base 16 (chars "0123456789ABCDEF") (chr "X") 4.

(** A test of flag bits, [flags & bits]. *)
Definition has (flags bits : Z) : bool := negb (Z.land flags bits =? 0).

(** *** [parse_conversion] *)
Definition flag_bit (c : Z) : option Z :=
  if c =? chr "-" then Some MINUS
  else if c =? chr "+" then Some PLUS
  else if c =? chr " " then Some SPACE
  else if c =? chr "#" then Some POUND
  else if c =? chr "0" then Some ZERO
  else if c =? chr "'" then Some GROUP
  else None.
Fixpoint parse_flags (format : list Z) (flags : Z) : list Z * Z :=
  match format with
  | [] => (format, flags)
  | c :: format' =>
    match flag_bit c with
    | Some bit => parse_flags format' (Z.lor flags bit)
    | None => (format, flags)
    end
  end.

(** [for (; isdigit ( *format); format++) n = n * 10 + *format - '0';] *)
Fixpoint parse_number (format : list Z) (n : Z) : list Z * Z :=
  match format with
  | [] => (format, n)
  | c :: format' =>
    if isdigit c then parse_number format' (s32 (n * 10 + c - 48)) else (format, n)
  end.

Definition parse_width (format : list Z) (args : list Z) : res (list Z * Z * list Z) :=
  if peek format =? chr "*" then
    format ← advance format;
    '(w, args) ← va_arg args;
    Ret (format, s32 w, args)
  else Ret (parse_number format 0, args).

Definition parse_precision (format : list Z) (args : list Z) : res (list Z * Z * list Z) :=
  if peek format =? chr "." then
    format ← advance format;
    '(format, p, args) ← parse_width format args;
    Ret (format, if p <? 0 then -1 else p, args)
  else Ret (format, -1, args).

Definition parse_type (format : list Z) : res (list Z * ctype) :=
  if peek format =? chr "h" then
    format ← advance format;
    if peek format =? chr "h" then format ← advance format; Ret (format, CHAR)
    else Ret (format, SHORT)
  else if peek format =? chr "j" then format ← advance format; Ret (format, INTMAX)
  else if peek format =? chr "l" then
    format ← advance format;
    if peek format =? chr "l" then format ← advance format; Ret (format, LONGLONG)
    else Ret (format, LONG)
  else if peek format =? chr "t" then format ← advance format; Ret (format, PTRDIFFT)
  else if peek format =? chr "z" then format ← advance format; Ret (format, SIZET)
  else Ret (format, INT).

Definition parse_conversion (format : list Z) (args : list Z)
    : res (list Z * printf_conversion * list Z) :=
  let '(format, flags) := parse_flags format 0 in
  let flags := if has flags MINUS then Z.ldiff flags ZERO else flags in
  let flags := if has flags PLUS then Z.ldiff flags SPACE else flags in
  '(format, width, args) ← parse_width format args;
  let '(width, flags) :=
    if width <? 0 then (s32 (- width), Z.lor flags MINUS) else (width, flags) in
  '(format, precision, args) ← parse_precision format args;
  let flags := if 0 <=? precision then Z.ldiff flags ZERO else flags in
  '(format, type) ← parse_type format;
  Ret (format, Conversion flags width precision type, args).

(** *** The digit buffer of [format_integer]

    [buf] is the part of the 64-byte buffer below [cp], the last byte first, which is the
    order it is printed in; writing a 65th byte is [Stuck]. *)
Definition push (buf : list Z) (c : Z) : res (list Z) :=
  if (length buf <? 64)%nat then Ret (c :: buf) else Stuck.

Fixpoint digit_loop (fuel : nat) (b : integer_base) (flags value digit_cnt : Z) (buf : list Z)
    : res (list Z) :=
  match fuel with
  | O => Stuck
  | S fuel =>
    if 0 <? value then
      buf ← (if has flags GROUP && (0 <? digit_cnt) && (digit_cnt mod b.(group) =? 0)
             then push buf (chr ",") else Ret buf);
      buf ← push buf (b.(digits) !!! Z.to_nat (value mod b.(base)));
      digit_loop fuel b flags (value / b.(base)) (digit_cnt + 1) buf
    else Ret buf
  end.

Fixpoint zero_loop (fuel : nat) (precision : Z) (buf : list Z) : res (list Z) :=
  match fuel with
  | O => Stuck
  | S fuel =>
    if (Z.of_nat (length buf) <? precision) && (length buf <? 63)%nat
    then buf ← push buf 48; zero_loop fuel precision buf
    else Ret buf
  end.

Definition sign_char (is_signed negative : bool) (flags : Z) : Z :=
  if is_signed then
    if has flags PLUS then (if negative then chr "-" else chr "+")
    else if has flags SPACE then (if negative then chr "-" else chr " ")
    else if negative then chr "-" else 0
  else 0.

(** ** Output *)
Section Output.
Context {A : Type} (output : Z → A → A) (cstr : Z → option (list Z)).

Fixpoint output_loop (ch : Z) (cnt : nat) (aux : A) : A :=
  match cnt with
  | O => aux
  | S cnt => output_loop ch cnt (output ch aux)
  end.
Definition output_dup (ch cnt : Z) (aux : A) : A := output_loop ch (Z.to_nat (u32 cnt)) aux.

Fixpoint output_chars (cs : list Z) (aux : A) : A :=
  match cs with
  | [] => aux
  | ch :: cs => output_chars cs (output ch aux)
  end.

Definition format_integer (value : Z) (is_signed negative : bool) (b : integer_base)
    (c : printf_conversion) (aux : A) : res A :=
  let sign := sign_char is_signed negative c.(flags) in
  let x := if has c.(flags) POUND && negb (value =? 0) then b.(x_char) else 0 in
  buf ← digit_loop 65 b c.(flags) value 0 [];
  let precision := if c.(precision) <? 0 then 1 else c.(precision) in
  buf ← zero_loop 64 precision buf;
  buf ← (if has c.(flags) POUND && (b.(base) =? 8) && negb (peek buf =? 48)
         then push buf 48 else Ret buf);
  let pad_cnt := s32 (c.(width) - Z.of_nat (length buf) - (if x =? 0 then 0 else 2)
                      - (if sign =? 0 then 0 else 1)) in
  let pad_cnt := if pad_cnt <? 0 then 0 else pad_cnt in
  let aux := if has c.(flags) (Z.lor MINUS ZERO) then aux else output_dup 32 pad_cnt aux in
  let aux := if sign =? 0 then aux else output sign aux in
  let aux := if x =? 0 then aux else output x (output 48 aux) in
  let aux := if has c.(flags) ZERO then output_dup 48 pad_cnt aux else aux in
  let aux := output_chars buf aux in
  Ret (if has c.(flags) MINUS then output_dup 32 pad_cnt aux else aux).

(** [format_string (string, length, ...)]: [string] is cut to [length] by its callers. *)
Definition format_string (string : list Z) (c : printf_conversion) (aux : A) : A :=
  let length := Z.of_nat (length string) in
  let aux := if (length <? c.(width)) && negb (has c.(flags) MINUS)
             then output_dup 32 (c.(width) - length) aux else aux in
  let aux := output_chars string aux in
  if (length <? c.(width)) && has c.(flags) MINUS
  then output_dup 32 (c.(width) - length) aux else aux.

(** The argument of [%d], by the type of the conversion. *)
Definition signed_arg (t : ctype) (args : list Z) : res (Z * list Z) :=
  match t with
  | CHAR => '(w, args) ← va_arg args; Ret (s8 w, args)
  | SHORT => '(w, args) ← va_arg args; Ret (s16 w, args)
  | INT | LONG | PTRDIFFT => '(w, args) ← va_arg args; Ret (s32 w, args)
  | INTMAX | LONGLONG => '(w, args) ← va_arg64 args; Ret (s64 w, args)
  | SIZET =>
    '(w, args) ← va_arg args;
    Ret (if 2147483647 <? w then w - 4294967295 - 1 else w, args)
  end.
Definition unsigned_arg (t : ctype) (args : list Z) : res (Z * list Z) :=
  match t with
  | CHAR => '(w, args) ← va_arg args; Ret (w mod 256, args)
  | SHORT => '(w, args) ← va_arg args; Ret (w mod 65536, args)
  | INT | LONG | SIZET => va_arg args
  | INTMAX | LONGLONG => va_arg64 args
  | PTRDIFFT => '(w, args) ← va_arg args; Ret (Z.land (u64 (s32 w)) 4294967295, args)
  end.

(** The string of a [%s] argument, cut to [strnlen (s, c.precision)] characters: the
    precision is passed as a [size_t], so that -1 is the largest length. *)
Definition string_arg (precision : Z) (args : list Z) : res (list Z * list Z) :=
  '(s, args) ← va_arg args;
  s ← (if s =? NULL then Ret (chars "(null)")
       else match cstr s with Some cs => Ret cs | None => Stuck end);
  Ret (take (Z.to_nat (Z.min (Z.of_nat (length s)) (u32 precision))) s, args).

Definition unsigned_base (ch : Z) : integer_base :=
  if ch =? chr "o" then base_o
  else if ch =? chr "u" then base_d
  else if ch =? chr "x" then base_x else base_X.

(** One conversion, the character [ch] after its options; [no_format] prints the messages
    on conversions that are not supported. *)
Definition do_conversion (no_format : list Z → list Z → A → res A) (ch : Z)
    (c : printf_conversion) (args : list Z) (aux : A) : res (A * list Z) :=
  if (ch =? chr "d") || (ch =? chr "i") then
    '(value, args) ← signed_arg c.(type) args;
    aux ← format_integer (u64 (if value <? 0 then s64 (- value) else value))
            true (value <? 0) base_d c aux;
    Ret (aux, args)
  else if (ch =? chr "o") || (ch =? chr "u") || (ch =? chr "x") || (ch =? chr "X") then
    '(value, args) ← unsigned_arg c.(type) args;
    aux ← format_integer value false false (unsigned_base ch) c aux;
    Ret (aux, args)
  else if ch =? chr "c" then
    '(w, args) ← va_arg args;
    Ret (format_string [w mod 256] c aux, args)
  else if ch =? chr "s" then
    '(s, args) ← string_arg c.(precision) args;
    Ret (format_string s c aux, args)
  else if ch =? chr "p" then
    '(p, args) ← va_arg args;
    aux ← format_integer p false false base_x
            (Conversion POUND c.(width) c.(precision) c.(type)) aux;
    Ret (aux, args)
  else if existsb (Z.eqb ch) (chars "feEgGn") then
    aux ← no_format (chars "<<no %%%c in kernel>>") [ch] aux; Ret (aux, args)
  else
    aux ← no_format (chars "<<no %%%c conversion>>") [ch] aux; Ret (aux, args).

Fixpoint vprintf_loop (fuel : nat) (format : list Z) (args : list Z) (aux : A) : res A :=
  match fuel with
  | O => Stuck
  | S fuel =>
    if peek format =? 0 then Ret aux else
    if negb (peek format =? chr "%") then
      format' ← advance format;
      vprintf_loop fuel format' args (output (peek format) aux)
    else
      format ← advance format;
      if peek format =? chr "%" then
        format ← advance format;
        vprintf_loop fuel format args (output (chr "%") aux)
      else
        '(format, c, args) ← parse_conversion format args;
        '(aux, args) ← do_conversion (vprintf_loop fuel) (peek format) c args aux;
        format ← advance format;
        vprintf_loop fuel format args aux
  end.

(** The loop takes a step per literal or conversion; the messages on unsupported ones are
    formats of 22 characters. *)
Definition __vprintf (format : list Z) (args : list Z) (aux : A) : res A :=
  vprintf_loop (length format + 32) format args aux.
Definition __printf (format : list Z) (args : list Z) (aux : A) : res A :=
  __vprintf format args aux.
End Output.

(** ** [vsnprintf] *)
Record vsnprintf_aux := VsnprintfAux {
  memory : mem;
  pos : Z;
  vlength : Z;
  max_length : Z;
}.

Definition vsnprintf_helper (ch : Z) (aux : vsnprintf_aux) : vsnprintf_aux :=
  let '(VsnprintfAux m p length max_length) := aux in
  if length <? max_length
  then VsnprintfAux (store8 m p ch) (p + 1) (s32 (length + 1)) max_length
  else VsnprintfAux m p (s32 (length + 1)) max_length.

Definition vsnprintf (cstr : Z → option (list Z)) (m : mem) (buffer buf_size : Z)
    (format args : list Z) : res (Z * mem) :=
  let aux := VsnprintfAux m buffer 0 (s32 (if 0 <? buf_size then buf_size - 1 else 0)) in
  aux ← __vprintf vsnprintf_helper cstr format args aux;
  let m := if 0 <? buf_size then store8 aux.(memory) aux.(pos) 0 else aux.(memory) in
  Ret (aux.(vlength), m).
Definition snprintf := vsnprintf.

(** ** The user console (lib/user/console.c)

    The system call [write] appends an entry, the handle and the bytes, to a log. *)
Abbreviation log := (list (Z * list Z)).
Record vhprintf_aux := VhprintfAux {
  written : log;
  vbuf : list Z;
  char_cnt : Z;
  handle : Z;
}.
Definition write (l : log) (handle : Z) (bytes : list Z) : log := l ++ [(handle, bytes)].

Definition flush (aux : vhprintf_aux) : vhprintf_aux :=
  let '(VhprintfAux l buf char_cnt handle) := aux in
  VhprintfAux (if (0 <? length buf)%nat then write l handle buf else l) [] char_cnt handle.
Definition add_char (ch : Z) (aux : vhprintf_aux) : vhprintf_aux :=
  let '(VhprintfAux l buf char_cnt handle) := aux in
  let aux := VhprintfAux l (buf ++ [ch]) char_cnt handle in
  let '(VhprintfAux l buf char_cnt handle) :=
    if (64 <=? length aux.(vbuf))%nat then flush aux else aux in
  VhprintfAux l buf (s32 (char_cnt + 1)) handle.
Definition vhprintf (cstr : Z → option (list Z)) (l : log) (handle : Z) (format args : list Z)
    : res (Z * log) :=
  aux ← __vprintf add_char cstr format args (VhprintfAux l [] 0 handle);
  let aux := flush aux in
  Ret (aux.(char_cnt), aux.(written)).
Definition hprintf := vhprintf.
Definition STDOUT : Z := 1.
Definition vprintf (cstr : Z → option (list Z)) (l : log) (format args : list Z) : res (Z * log) :=
  vhprintf cstr l STDOUT format args.
Definition printf := vprintf.
Definition putchar (l : log) (c : Z) : Z * log := (c, write l STDOUT [c mod 256]).
Definition puts (l : log) (s : list Z) : Z * log :=
  (0, snd (putchar (write l STDOUT s) 10)).

(** ** [hex_dump] and [print_human_readable_size] over [printf] *)
Definition printf_ (l : log) (format args : list Z) : res log :=
  '(_, l) ← printf (λ _, None) l format args; Ret l.

(** [for (; i < end; i++) printf (...)]: the loop body for each [i] in turn. *)
Fixpoint for_loop (n : nat) (i : Z) (body : Z → log → res log) (l : log) : res log :=
  match n with
  | O => Ret l
  | S n => l ← body i l; for_loop n (i + 1) body l
  end.
Definition loop_from (i stop : Z) (body : Z → log → res log) (l : log) : res log :=
  for_loop (Z.to_nat (stop - i)) i body l.

Definition isprint (c : Z) : bool := (32 <=? c) && (c <? 127).

Fixpoint hex_dump (fuel : nat) (l : log) (ofs : Z) (buf : list Z) (ascii : bool) : res log :=
  match fuel with
  | O => Stuck
  | S fuel =>
    let size := Z.of_nat (length buf) in
    if 0 <? size then
      let start := ofs mod 16 in
      let stop := if size <? 16 - start then start + size else 16 in
      let n := stop - start in
      l ← printf_ l (chars "%08jx  ") [ofs / 16 * 16; 0];
      l ← loop_from 0 start (λ _ l, printf_ l (chars "   ") []) l;
      l ← loop_from start stop (λ i l,
            printf_ l (chars "%02hhx%c")
              [buf !!! Z.to_nat (i - start); if i =? 7 then chr "-" else chr " "]) l;
      l ← (if ascii then
             l ← loop_from stop 16 (λ _ l, printf_ l (chars "   ") []) l;
             l ← printf_ l (chars "|") [];
             l ← loop_from 0 start (λ _ l, printf_ l (chars " ") []) l;
             l ← loop_from start stop (λ i l,
                   let c := buf !!! Z.to_nat (i - start) in
                   printf_ l (chars "%c") [if isprint c then c else chr "."]) l;
             l ← loop_from stop 16 (λ _ l, printf_ l (chars " ") []) l;
             printf_ l (chars "|") []
           else Ret l);
      l ← printf_ l (chars "
") [];
      hex_dump fuel l (u32 (ofs + n)) (drop (Z.to_nat n) buf) ascii
    else Ret l
  end.

(** The loop over [factors]: the size and the rest of the array, [fp[1]] its second entry. *)
Fixpoint scale (size : Z) (fp : list (list Z)) : Z * list Z :=
  match fp with
  | unit :: ((_ :: _) as fp') => if 1024 <=? size then scale (size / 1024) fp' else (size, unit)
  | unit :: [] => (size, unit)
  | [] => (size, [])
  end.
Definition factors : list (list Z) :=
  [chars "bytes"; chars "kB"; chars "MB"; chars "GB"; chars "TB"].
Definition print_human_readable_size (l : log) (size : Z) : res log :=
  if size =? 1 then printf_ l (chars "1 byte") [] else
  let '(size, unit) := scale size factors in
  '(_, l) ← printf (λ s, if s =? 1 then Some unit else None) l (chars "%llu %s")
              [size mod 4294967296; size / 4294967296; 1];
  Ret l.

(** ** Examples *)
Definition text (cstr : Z → option (list Z)) (format args : list Z) : res (list Z) :=
  __vprintf (λ c l, l ++ [c]) cstr format args [].
Example text_int : text (λ _, None) (chars "[%d|%5d|%-5d|%05d|%+d|%.3d]") [-42; 42; 42; 42; 42; 42]
  = Ret (chars "[-42|   42|42   |00042|+42|042]").
Proof. vm_compute. reflexivity. Qed.
Example text_hex : text (λ _, None) (chars "%#x %X %'u %#o %lld") [255; 43981; 1234567; 8; 0; -1]
  = Ret (chars "0xff ABCD 1,234,567 010 -4294967296").
Proof. vm_compute. reflexivity. Qed.
Example text_str : text (λ _, Some (chars "hello")) (chars "%s|%8.3s|%-4c|%s|%p|%f|%y") [1; 1; 65; 0; 4096]
  = Ret (chars "hello|     hel|A   |(null)|0x1000|<<no %f in kernel>>|<<no %y conversion>>").
Proof. vm_compute. reflexivity. Qed.
Example text_incomplete : text (λ _, None) (chars "100%") [] = Stuck.
Proof. vm_compute. reflexivity. Qed.
Example dump_hex :
  (λ r, concat (snd <$> r)) <$> hex_dump 5 [] 14 (chars "Pintos") true
  = Ret (chars "00000000                                            50 69 |              Pi|
00000010  6e 74 6f 73                                     |ntos            |
").
Proof. vm_compute. reflexivity. Qed.
Example print_size :
  (λ r, concat (snd <$> r)) <$> print_human_readable_size [] 262144 = Ret (chars "256 kB").
Proof. vm_compute. reflexivity. Qed.
