(* ===== verification/Format.v ===== *)
(** * What formatted output prints

    A reference semantics of formats, independent of the loops of [Stdio]: a format is a
    list of items, literal characters and conversions with their options, and [render] gives
    the text each stands for.  The lemmas show that [__vprintf] on the written form of the
    items hands the output function exactly that text. *)
From Stdlib Require Import (notations) Ascii String.
From S2P Require Import Prelude Mem CString Arithmetic FixedPoint Sorting Stdio.

(** ** Positional notation *)

(** The digits of [v] in base [b], the least significant first; none for zero. *)
Fixpoint radix (n : nat) (b v : Z) : list Z :=
  match n with
  | O => []
  | S n => if 0 <? v then v mod b :: radix n b (v / b) else []
  end.
Definition digit (b : integer_base) (d : Z) : Z := b.(digits) !!! Z.to_nat d.
(** Digits as text, the most significant first; with [grouped], a comma before every digit
    whose distance [i] from the end is a multiple of the base's group. *)
Fixpoint digit_text (b : integer_base) (grouped : bool) (i : Z) (ds : list Z) : list Z :=
  match ds with
  | [] => []
  | d :: ds =>
    digit_text b grouped (i + 1) ds
    ++ digit b d :: (if grouped && (0 <? i) && (i mod b.(group) =? 0) then [chr ","] else [])
  end.
Definition number (b : integer_base) (grouped : bool) (v : Z) : list Z :=
  digit_text b grouped 0 (radix 64 b.(base) v).
Definition decimal (n : Z) : list Z := if n =? 0 then [48] else number base_d false n.

(** ** Formats *)
Inductive flag := FMinus | FPlus | FSpace | FPound | FZero | FGroup.
#[export] Instance flag_eq_dec : EqDecision flag.
Proof. solve_decision. Defined.

Inductive amount := Nothing | Number (n : Z) | Star.
Record conversion := Conv {
  cv_flags : list flag;
  cv_width : amount;
  cv_precision : option amount;
  cv_type : ctype;
  cv_char : Z;
}.
Inductive item := Literal (c : Z) | Percent | Convert (cv : conversion).

(** *** How they are written *)
Definition flag_char (f : flag) : Z :=
  match f with
  | FMinus => chr "-" | FPlus => chr "+" | FSpace => chr " "
  | FPound => chr "#" | FZero => chr "0" | FGroup => chr "'"
  end.
Definition amount_text (a : amount) : list Z :=
  match a with Nothing => [] | Number n => decimal n | Star => chars "*" end.
Definition type_text (t : ctype) : list Z :=
  match t with
  | CHAR => chars "hh" | SHORT => chars "h" | INT => [] | INTMAX => chars "j"
  | LONG => chars "l" | LONGLONG => chars "ll" | PTRDIFFT => chars "t" | SIZET => chars "z"
  end.
Definition precision_text (o : option amount) : list Z :=
  match o with None => [] | Some a => chr "." :: amount_text a end.
Definition options_text (cv : conversion) : list Z :=
  map flag_char cv.(cv_flags) ++ amount_text cv.(cv_width) ++ precision_text cv.(cv_precision)
  ++ type_text cv.(cv_type) ++ [cv.(cv_char)].
Definition item_text (i : item) : list Z :=
  match i with
  | Literal c => [c]
  | Percent => chars "%%"
  | Convert cv => chr "%" :: options_text cv
  end.
Definition format_text (items : list item) : list Z := concat (map item_text items).

(** A conversion character is none of the characters options are made of. *)
Definition conversion_char (c : Z) : bool :=
  negb (existsb (Z.eqb c) (0 :: chars "-+ #0'123456789*.hjltz%")).
Definition wf_width (a : amount) : Prop :=
  match a with Number n => 0 < n < 2147483648 | _ => True end.
Definition wf_precision (o : option amount) : Prop :=
  match o with Some (Number n) => 0 ≤ n < 2147483648 | _ => True end.
Definition wf_item (i : item) : Prop :=
  match i with
  | Literal c => 0 < c < 256 ∧ c ≠ chr "%"
  | Percent => True
  | Convert cv => wf_width cv.(cv_width) ∧ wf_precision cv.(cv_precision)
                  ∧ 0 < cv.(cv_char) < 256 ∧ conversion_char cv.(cv_char) = true
  end.

(** *** What they stand for *)
Record style := Style {
  leftward : bool;
  plus : bool;
  space : bool;
  pound : bool;
  zeros : bool;
  grouped : bool;
}.
Definition flag_in (f : flag) (fs : list flag) : bool := bool_decide (f ∈ fs).

Definition spaces (n : Z) : list Z := replicate (Z.to_nat n) 32.
Definition zero_digits (n : Z) : list Z := replicate (Z.to_nat n) 48.

(** Text padded with spaces to the field's width. *)
Definition field (st : style) (w : Z) (t : list Z) : list Z :=
  if st.(leftward) then t ++ spaces (w - len t) else spaces (w - len t) ++ t.

(** At least [n] digits, but no more than 63 by padding. *)
Definition at_least (n : Z) (t : list Z) : list Z := zero_digits (Z.min n 63 - len t) ++ t.
Definition octal_zero (st : style) (b : integer_base) (t : list Z) : list Z :=
  if st.(pound) && (b.(base) =? 8) && negb (peek t =? 48) then 48 :: t else t.
Definition sign_text (st : style) (sign : option bool) : list Z :=
  match sign with
  | None => []
  | Some true => [chr "-"]
  | Some false => if st.(plus) then [chr "+"] else if st.(space) then [chr " "] else []
  end.
Definition prefix_text (st : style) (b : integer_base) (v : Z) : list Z :=
  if st.(pound) && negb (v =? 0) && negb (b.(x_char) =? 0) then [48; b.(x_char)] else [].

(** An integer of absolute value [v]; [sign] says whether it is negative, and is [None] for
    unsigned conversions. *)
Definition integer_text (st : style) (w : Z) (prec : option Z) (b : integer_base)
    (sign : option bool) (v : Z) : list Z :=
  let lead := sign_text st sign ++ prefix_text st b v in
  let body := octal_zero st b (at_least (default 1 prec) (number b st.(grouped) v)) in
  if st.(zeros) then lead ++ zero_digits (w - len lead - len body) ++ body
  else field st w (lead ++ body).

Section Render.
Context (cstr : Z → option (list Z)).

Definition amount_value (a : amount) (args : list Z) : res (Z * list Z) :=
  match a with
  | Nothing => Ret (0, args)
  | Number n => Ret (n, args)
  | Star => '(w, args) ← va_arg args; Ret (s32 w, args)
  end.
Definition precision_value (o : option amount) (args : list Z) : res (option Z * list Z) :=
  match o with
  | None => Ret (None, args)
  | Some a =>
    '(n, args) ← amount_value a args; Ret (if n <? 0 then None else Some n, args)
  end.

(** A negative width is a flag [-] and a width; [-] overrides [0], as a precision does,
    and [+] overrides the space. *)
Definition style_of (fs : list flag) (negative : bool) (prec : option Z) : style :=
  let minus := flag_in FMinus fs || negative in
  Style minus (flag_in FPlus fs) (flag_in FSpace fs && negb (flag_in FPlus fs))
    (flag_in FPound fs) (flag_in FZero fs && negb minus && negb (bool_decide (is_Some prec)))
    (flag_in FGroup fs).

Definition message (c : Z) (t : list Z) : list Z := chars "<<no %" ++ c :: t ++ chars ">>".

Definition render_char (c : Z) (st : style) (w : Z) (prec : option Z) (t : ctype) (args : list Z)
    : res (list Z * list Z) :=
  if (c =? chr "d") || (c =? chr "i") then
    '(v, args) ← signed_arg t args;
    Ret (integer_text st w prec base_d (Some (v <? 0)) (Z.abs v), args)
  else if (c =? chr "o") || (c =? chr "u") || (c =? chr "x") || (c =? chr "X") then
    '(v, args) ← unsigned_arg t args;
    Ret (integer_text st w prec (unsigned_base c) None v, args)
  else if c =? chr "c" then
    '(v, args) ← va_arg args; Ret (field st w [v mod 256], args)
  else if c =? chr "s" then
    '(s, args) ← string_arg cstr (default (-1) prec) args; Ret (field st w s, args)
  else if c =? chr "p" then
    '(v, args) ← va_arg args;
    Ret (integer_text (Style false false false true false false) w prec base_x None v, args)
  else
    Ret (message c
           (if existsb (Z.eqb c) (chars "feEgGn") then chars " in kernel" else chars " conversion"),
         args).

Definition render_conversion (cv : conversion) (args : list Z) : res (list Z * list Z) :=
  '(w, args) ← amount_value cv.(cv_width) args;
  '(prec, args) ← precision_value cv.(cv_precision) args;
  render_char cv.(cv_char) (style_of cv.(cv_flags) (w <? 0) prec) (Z.abs w) prec cv.(cv_type) args.

Fixpoint render (items : list item) (args : list Z) : res (list Z) :=
  match items with
  | [] => Ret []
  | i :: items =>
    '(t, args) ← (match i with
                  | Literal c => Ret ([c], args)
                  | Percent => Ret ([chr "%"], args)
                  | Convert cv => render_conversion cv args
                  end);
    ts ← render items args;
    Ret (t ++ ts)
  end.
End Render.

(** The one case in which the code differs: a width from the arguments that is negative
    with the flag [0], or the least [int], which has no absolute value. *)
Definition plain_width (cv : conversion) (args : list Z) : Prop :=
  match amount_value cv.(cv_width) args with
  | Ret (w, _) => -2147483648 < w ∧ (w < 0 → FZero ∉ cv.(cv_flags))
  | _ => True
  end.
Fixpoint plain_widths (cstr : Z → option (list Z)) (items : list item) (args : list Z) : Prop :=
  match items with
  | [] => True
  | Convert cv :: items =>
    plain_width cv args
    ∧ match render_conversion cstr cv args with
      | Ret (_, args) => plain_widths cstr items args
      | _ => True
      end
  | _ :: items => plain_widths cstr items args
  end.

(** ** Digits *)
Lemma pow_S b (n : nat) : b ^ Z.of_nat (S n) = b * b ^ Z.of_nat n.
Proof. rewrite Nat2Z.inj_succ, Z.pow_succ_r; lia. Qed.

Lemma radix_enough b : 2 ≤ b → ∀ n k v,
  0 ≤ v < b ^ Z.of_nat n → (n ≤ k)%nat → radix k b v = radix n b v.
Proof.
  intros Hb n. induction n as [|n IH]; intros k v Hv Hk.
  - cbn in Hv. assert (v = 0) as -> by lia. by destruct k.
  - destruct k as [|k]; [lia|]. cbn [radix]. rewrite pow_S in Hv.
    destruct (Z.ltb_spec 0 v); [|done]. f_equal. apply IH; [|lia].
    split; [by apply Z.div_pos; lia|]. apply Z.div_lt_upper_bound; lia.
Qed.

Lemma radix_length n b v : (length (radix n b v) ≤ n)%nat.
Proof.
  revert v. induction n as [|n IH]; intros v; cbn [radix]; [done|].
  destruct (0 <? v); cbn; [|lia]. specialize (IH (v / b)). lia.
Qed.

Lemma digit_text_app b g ds : ∀ i rest,
  digit_text b g i ds ++ rest
  = match ds with
    | [] => rest
    | d :: ds => digit_text b g (i + 1) ds
                 ++ digit b d :: (if g && (0 <? i) && (i mod b.(group) =? 0) then [chr ","] else [])
                 ++ rest
    end.
Proof. destruct ds; intros; [done|]. cbn [digit_text]. by rewrite <- app_assoc. Qed.

Lemma digit_text_length b g ds : ∀ i, (length (digit_text b g i ds) ≤ 2 * length ds)%nat.
Proof.
  induction ds as [|d ds IH]; intros i; cbn [digit_text length]; [done|].
  specialize (IH (i + 1)). rewrite length_app. destruct (_ && _); cbn; lia.
Qed.

Lemma push_ok buf c : (length buf < 64)%nat → push buf c = Ret (c :: buf).
Proof. intros H. unfold push. by destruct (Nat.ltb_spec (length buf) 64); [|lia]. Qed.

Lemma digit_loop_spec b fl : 2 ≤ b.(base) → ∀ n fuel v i buf,
  0 ≤ v < b.(base) ^ Z.of_nat n → (n < fuel)%nat → (length buf + 2 * n ≤ 64)%nat →
  digit_loop fuel b fl v i buf
  = Ret (digit_text b (has fl GROUP) i (radix n b.(base) v) ++ buf).
Proof.
  intros Hb n. induction n as [|n IH]; intros fuel v i buf Hv Hf Hl;
    (destruct fuel as [|fuel]; [lia|]); cbn [digit_loop].
  - cbn in Hv. assert (v = 0) as -> by lia. done.
  - rewrite pow_S in Hv. cbn [radix]. destruct (Z.ltb_spec 0 v); [|done].
    assert (0 ≤ v / b.(base) < b.(base) ^ Z.of_nat n) as Hq.
    { split; [by apply Z.div_pos; lia|]. apply Z.div_lt_upper_bound; lia. }
    rewrite digit_text_app. fold (digit b (v mod b.(base))).
    destruct (_ && _); rewrite ?push_ok, ?bind_Ret, ?push_ok by (cbn; lia);
      rewrite bind_Ret, IH by (cbn; lia || done); done.
Qed.

(** 64-bit numbers have at most 22 digits in the bases used. *)
Lemma number_loop b fl v :
  8 ≤ b.(base) → 0 ≤ v < 18446744073709551616 →
  digit_loop 65 b fl v 0 [] = Ret (number b (has fl GROUP) v)
  ∧ (length (number b (has fl GROUP) v) ≤ 44)%nat.
Proof.
  intros Hb Hv.
  assert (v < b.(base) ^ Z.of_nat 22) as Hp.
  { assert (8 ^ Z.of_nat 22 ≤ b.(base) ^ Z.of_nat 22) by (apply Z.pow_le_mono_l; lia).
    change (8 ^ Z.of_nat 22) with 73786976294838206464 in *. lia. }
  unfold number. rewrite (radix_enough b.(base) ltac:(lia) 22 64) by lia. split.
  - rewrite (digit_loop_spec b fl) with (n := 22%nat) by (cbn; lia). by rewrite app_nil_r.
  - pose proof (digit_text_length b (has fl GROUP) (radix 22 b.(base) v) 0).
    pose proof (radix_length 22 b.(base) v). lia.
Qed.

Lemma zero_loop_spec prec : ∀ fuel buf,
  (length buf ≤ 63)%nat → (63 - length buf < fuel)%nat →
  zero_loop fuel prec buf = Ret (at_least prec buf).
Proof.
  induction fuel as [|fuel IH]; intros buf Hl Hf; [lia|]. cbn [zero_loop]. unfold at_least.
  destruct (Z.ltb_spec (len buf) prec) as [Hp|Hp], (Nat.ltb_spec (length buf) 63) as [H3|H3]; cbn [andb].
  - rewrite push_ok, bind_Ret, IH by (cbn; lia). unfold at_least, zero_digits. cbn [length].
    replace (Z.to_nat (Z.min prec 63 - len buf))
      with (S (Z.to_nat (Z.min prec 63 - Z.of_nat (S (length buf))))) by lia.
    rewrite replicate_S_end, <- app_assoc. done.
  - unfold zero_digits. by replace (Z.to_nat (Z.min prec 63 - len buf)) with 0%nat by lia.
  - unfold zero_digits. by replace (Z.to_nat (Z.min prec 63 - len buf)) with 0%nat by lia.
  - unfold zero_digits. by replace (Z.to_nat (Z.min prec 63 - len buf)) with 0%nat by lia.
Qed.

Lemma at_least_length n t : len (at_least n t) = Z.max (len t) (Z.min n 63).
Proof. unfold at_least, zero_digits. rewrite length_app, length_replicate. lia. Qed.

(** ** Styles as flag bits *)
Definition enc (st : style) : Z :=
  let bit (b : bool) (f : Z) := if b then f else 0 in
  Z.lor (bit st.(leftward) MINUS) (Z.lor (bit st.(plus) PLUS) (Z.lor (bit st.(space) SPACE)
    (Z.lor (bit st.(pound) POUND) (Z.lor (bit st.(zeros) ZERO) (bit st.(grouped) GROUP))))).

Ltac style_cases := match goal with st : style |- _ => destruct st as [[] [] [] [] [] []] end.

Section Bits.
Implicit Types st : style.
Lemma has_MINUS st : has (enc st) MINUS = st.(leftward).
Proof. by style_cases. Qed.
Lemma has_PLUS st : has (enc st) PLUS = st.(plus).
Proof. by style_cases. Qed.
Lemma has_SPACE st : has (enc st) SPACE = st.(space).
Proof. by style_cases. Qed.
Lemma has_POUND st : has (enc st) POUND = st.(pound).
Proof. by style_cases. Qed.
Lemma has_ZERO st : has (enc st) ZERO = st.(zeros).
Proof. by style_cases. Qed.
Lemma has_GROUP st : has (enc st) GROUP = st.(grouped).
Proof. by style_cases. Qed.
Lemma has_left_zero st : has (enc st) (Z.lor MINUS ZERO) = st.(leftward) || st.(zeros).
Proof. by style_cases. Qed.
End Bits.
#[export] Hint Rewrite has_MINUS has_PLUS has_SPACE has_POUND has_ZERO has_GROUP has_left_zero : word.

(** ** The output functions *)
Section Output.
Context {A : Type} (output : Z → A → A).

Lemma output_chars_app cs cs' : ∀ aux,
  output_chars output (cs ++ cs') aux = output_chars output cs' (output_chars output cs aux).
Proof. induction cs as [|c cs IH]; intros aux; [done|]. apply IH. Qed.

Lemma output_loop_eq ch n : ∀ aux,
  output_loop output ch n aux = output_chars output (replicate n ch) aux.
Proof. induction n as [|n IH]; intros aux; [done|]. apply IH. Qed.

Lemma output_dup_eq ch n aux :
  0 ≤ n < 2147483648 →
  output_dup output ch n aux = output_chars output (replicate (Z.to_nat n) ch) aux.
Proof.
  intros Hn. unfold output_dup. rewrite u32_id by (unfold is_u32; lia). apply output_loop_eq.
Qed.

Lemma output_spaces n aux :
  0 ≤ n < 2147483648 → output_dup output 32 n aux = output_chars output (spaces n) aux.
Proof. apply output_dup_eq. Qed.
Lemma output_zeros n aux :
  0 ≤ n < 2147483648 → output_dup output 48 n aux = output_chars output (zero_digits n) aux.
Proof. apply output_dup_eq. Qed.

Lemma spaces_nonpos n : n ≤ 0 → spaces n = [].
Proof. intros. unfold spaces. by replace (Z.to_nat n) with 0%nat by lia. Qed.
Lemma spaces_max n : spaces (Z.max 0 n) = spaces n.
Proof. unfold spaces. f_equal. lia. Qed.
Lemma zero_digits_max n : zero_digits (Z.max 0 n) = zero_digits n.
Proof. unfold zero_digits. f_equal. lia. Qed.

Lemma format_string_eq st w p t s aux :
  0 ≤ w < 2147483648 →
  format_string output s (Conversion (enc st) w p t) aux = output_chars output (field st w s) aux.
Proof.
  intros Hw. unfold format_string, field. cbn [width flags]. autorewrite with word.
  destruct (Z.ltb_spec (len s) w); destruct st.(leftward); cbn [andb negb];
    rewrite ?output_chars_app, ?output_spaces by lia; rewrite ?spaces_nonpos by lia; done.
Qed.

(** The bases the code uses. *)
Definition known_base (b : integer_base) : Prop :=
  8 ≤ b.(base) ∧ (b.(base) = 8 → b.(x_char) = 0).

Definition sign_of (is_signed negative : bool) : option bool :=
  if is_signed then Some negative else None.

(** The sign and prefix characters of the code, zero for none, as text. *)
Definition opt_char (c : Z) : list Z := if c =? 0 then [] else [c].
Lemma sign_char_text st s n : opt_char (sign_char s n (enc st)) = sign_text st (sign_of s n).
Proof.
  unfold sign_char, sign_text, sign_of. autorewrite with word.
  destruct s, n, st.(plus), st.(space); reflexivity.
Qed.

(** The digits with the zeros that precision and [#] ask for stay in the buffer. *)
Lemma body_loop st b p v :
  known_base b → 0 ≤ v < 18446744073709551616 → (∀ q, p = Some q → 0 ≤ q) →
  (buf ← digit_loop 65 b (enc st) v 0 [];
   buf ← zero_loop 64 (if default (-1) p <? 0 then 1 else default (-1) p) buf;
   if st.(pound) && (b.(base) =? 8) && negb (peek buf =? 48) then push buf 48 else Ret buf)
  = Ret (octal_zero st b (at_least (default 1 p) (number b st.(grouped) v)))
  ∧ len (octal_zero st b (at_least (default 1 p) (number b st.(grouped) v))) ≤ 64.
Proof.
  intros [Hb Hx] Hv Hp. destruct (number_loop b (enc st) v Hb Hv) as [E Hl].
  rewrite has_GROUP in *. rewrite E, bind_Ret.
  assert ((if default (-1) p <? 0 then 1 else default (-1) p) = default 1 p) as ->.
  { destruct p as [q|]; cbn; [|done]. specialize (Hp q eq_refl).
    by destruct (Z.ltb_spec q 0); [lia|]. }
  rewrite zero_loop_spec, bind_Ret by lia. unfold octal_zero.
  pose proof (at_least_length (default 1 p) (number b st.(grouped) v)).
  destruct (_ && _); [rewrite push_ok by lia|]; (split; [done|cbn [length]; lia]).
Qed.

Lemma format_integer_eq st w p t b s n v aux :
  0 ≤ w < 2147483648 → known_base b → 0 ≤ v < 18446744073709551616 →
  (st.(leftward) = true → st.(zeros) = false) → (∀ q, p = Some q → 0 ≤ q) →
  format_integer output v s n b (Conversion (enc st) w (default (-1) p) t) aux
  = Ret (output_chars output (integer_text st w p b (sign_of s n) v) aux).
Proof.
  intros Hw Hb Hv Hlz Hp. unfold format_integer. cbn [flags width precision].
  destruct (body_loop st b p v Hb Hv Hp) as [E Hl]. autorewrite with word.
  bind_inv E. bind_inv E. rewrite E0, bind_Ret, E1, bind_Ret, E, bind_Ret. f_equal.
  unfold integer_text. set (body := octal_zero _ _ _) in *.
  set (sg := sign_char s n (enc st)).
  set (xc := if st.(pound) && negb (v =? 0) then b.(x_char) else 0).
  assert (prefix_text st b v = if xc =? 0 then [] else [48; xc]) as ->.
  { unfold prefix_text, xc. destruct (_ && negb (v =? 0)); cbn [andb]; [|done].
    by destruct (b.(x_char) =? 0). }
  rewrite <- sign_char_text. fold sg.
  set (lead := opt_char sg ++ _).
  assert (len lead = (if sg =? 0 then 0 else 1) + (if xc =? 0 then 0 else 2)) as Hlead.
  { unfold lead, opt_char. by destruct (sg =? 0), (xc =? 0). }
  assert (∀ aux, output_chars output lead aux
          = (if xc =? 0 then if sg =? 0 then aux else output sg aux
             else output xc (output 48 (if sg =? 0 then aux else output sg aux)))) as Hout.
  { intros a. unfold lead, opt_char. by destruct (sg =? 0), (xc =? 0). }
  rewrite <- !Hout.
  assert (0 ≤ len lead ≤ 3) by (rewrite Hlead; destruct (sg =? 0), (xc =? 0); lia).
  replace (w - len body - _ - _) with (w - len lead - len body) by lia.
  rewrite s32_id by (unfold is_s32; lia).
  assert (∀ k, (if k <? 0 then 0 else k) = Z.max 0 k) as Hmax
    by (intros k; destruct (Z.ltb_spec k 0); lia).
  rewrite Hmax. unfold field. rewrite length_app, Nat2Z.inj_add, Z.sub_add_distr.
  destruct st.(leftward); [rewrite Hlz by done|destruct st.(zeros)]; cbn [orb];
    rewrite ?output_chars_app, ?output_spaces, ?output_zeros, ?spaces_max, ?zero_digits_max by lia;
    done.
Qed.
End Output.

(** ** Decimal text *)
(** Bases up to ten have the digits of base ten. *)
Definition low_base (b : integer_base) : Prop :=
  2 ≤ b.(base) ≤ 10 ∧ ∀ d, 0 ≤ d < b.(base) → digit b d = 48 + d.

Lemma low_base_d : low_base base_d.
Proof.
  split; [cbn; lia|]. cbn [base base_d]. intros d Hd.
  assert (d = 0 ∨ d = 1 ∨ d = 2 ∨ d = 3 ∨ d = 4 ∨ d = 5 ∨ d = 6 ∨ d = 7 ∨ d = 8 ∨ d = 9)
    as Hc by lia. by repeat (destruct Hc as [->|Hc]; [done|]); subst.
Qed.
Lemma low_base_o : low_base base_o.
Proof.
  split; [cbn; lia|]. cbn [base base_o]. intros d Hd.
  assert (d = 0 ∨ d = 1 ∨ d = 2 ∨ d = 3 ∨ d = 4 ∨ d = 5 ∨ d = 6 ∨ d = 7) as Hc by lia.
  by repeat (destruct Hc as [->|Hc]; [done|]); subst.
Qed.

(** The number that digit characters stand for in base [b]. *)
Definition pos_value (b v : Z) (ds : list Z) : Z := fold_left (λ v c, v * b + (c - 48)) ds v.
Lemma pos_value_snoc b v ds c : pos_value b v (ds ++ [c]) = pos_value b v ds * b + (c - 48).
Proof. unfold pos_value. by rewrite fold_left_app. Qed.

Lemma digit_text_ungrouped b ds : ∀ i j, digit_text b false i ds = digit_text b false j ds.
Proof. induction ds as [|d ds IH]; intros i j; [done|]. cbn. by rewrite (IH (i + 1) (j + 1)). Qed.

Lemma digit_text_S b n v i :
  low_base b → 0 < v →
  digit_text b false i (radix (S n) b.(base) v)
  = digit_text b false i (radix n b.(base) (v / b.(base))) ++ [48 + v mod b.(base)].
Proof.
  intros [Hb Hd] Hv. cbn [radix]. destruct (Z.ltb_spec 0 v); [|lia]. cbn [digit_text andb].
  by rewrite Hd, (digit_text_ungrouped b _ i (i + 1)) by (apply Z.mod_pos_bound; lia).
Qed.

Lemma radix_text b n : low_base b → ∀ v i, 0 ≤ v < b.(base) ^ Z.of_nat n →
  let t := digit_text b false i (radix n b.(base) v) in
  pos_value b.(base) 0 t = v ∧ Forall (λ c, 48 ≤ c < 48 + b.(base)) t
  ∧ (0 < v → ∃ c t', t = c :: t' ∧ 49 ≤ c).
Proof.
  intros Hb. pose proof (proj1 Hb) as Hr. induction n as [|n IH]; intros v i Hv.
  - cbn in *. split_and!; [lia|constructor|lia].
  - destruct (decide (v = 0)) as [->|]; [cbn; split_and!; [done|constructor|lia]|].
    rewrite pow_S in Hv. rewrite digit_text_S by (done || lia).
    destruct (IH (v / b.(base)) i) as (Hval & Hdig & Hhd).
    { split; [by apply Z.div_pos; lia|]. apply Z.div_lt_upper_bound; lia. }
    pose proof (Z.mod_pos_bound v b.(base) ltac:(lia)). cbn zeta. split_and!.
    + rewrite pos_value_snoc, Hval. pose proof (Z.div_mod v b.(base) ltac:(lia)). lia.
    + apply Forall_app. split; [done|]. repeat constructor; lia.
    + intros _. destruct (decide (v / b.(base) = 0)) as [E|].
      * rewrite E. exists (48 + v mod b.(base)), []. split; [by destruct n|].
        pose proof (Z.div_mod v b.(base) ltac:(lia)). lia.
      * destruct Hhd as (c & t' & -> & Hc); [pose proof (Z.div_pos v b.(base)); lia|].
        by exists c, (t' ++ [48 + v mod b.(base)]).
Qed.

Lemma number_text b v : low_base b → 0 ≤ v < 18446744073709551616 →
  pos_value b.(base) 0 (number b false v) = v
  ∧ Forall (λ c, 48 ≤ c < 48 + b.(base)) (number b false v)
  ∧ (0 < v → ∃ c t, number b false v = c :: t ∧ 49 ≤ c).
Proof.
  intros Hb Hv. apply radix_text; [done|]. split; [lia|].
  assert (2 ^ Z.of_nat 64 ≤ b.(base) ^ Z.of_nat 64) by (apply Z.pow_le_mono_l; destruct Hb; lia).
  change (2 ^ Z.of_nat 64) with 18446744073709551616 in *. lia.
Qed.

Lemma isdigit_true c : 48 ≤ c < 58 → isdigit c = true.
Proof. unfold isdigit. intros. destruct (Z.leb_spec 48 c), (Z.leb_spec c 57); done || lia. Qed.

Lemma decimal_spec n : 0 ≤ n < 18446744073709551616 →
  dec_value 0 (decimal n) = n ∧ Forall (λ c, isdigit c = true) (decimal n)
  ∧ (0 < n → ∃ c t, decimal n = c :: t ∧ 49 ≤ c ≤ 57).
Proof.
  intros Hn. unfold decimal. destruct (Z.eqb_spec n 0) as [->|].
  - split_and!; [done|by repeat constructor|lia].
  - destruct (number_text base_d n low_base_d Hn) as (Hv & Hd & Hhd). split_and!; [done| |].
    + eapply Forall_impl; [exact Hd|]. cbn. intros c Hc. apply isdigit_true. lia.
    + intros Hp. destruct (Hhd Hp) as (c & t & E & Hc). exists c, t. split; [done|].
      rewrite E in Hd. inversion Hd; subst. cbn in *. lia.
Qed.

Lemma dec_value_mono ds : ∀ v, Forall (λ c, isdigit c = true) ds → 0 ≤ v → v ≤ dec_value v ds.
Proof.
  induction ds as [|c ds IH]; intros v Hd Hv; [done|]. inversion Hd as [|? ? Hc Hds]; subst.
  unfold isdigit in Hc. change (dec_value v (c :: ds)) with (dec_value (v * 10 + (c - 48)) ds).
  etrans; [|apply IH]; [lia|done|lia].
Qed.

Lemma parse_number_spec ds rest : isdigit (peek rest) = false → ∀ v,
  Forall (λ c, isdigit c = true) ds → 0 ≤ v → dec_value v ds < 2147483648 →
  parse_number (ds ++ rest) v = (rest, dec_value v ds).
Proof.
  intros Hr. induction ds as [|c ds IH]; intros v Hd Hv Hlt.
  - cbn. destruct rest as [|c rest]; [done|]. cbn in *. by rewrite Hr.
  - inversion Hd as [|? ? Hc Hds]; subst. cbn [app parse_number]. rewrite Hc.
    change (dec_value v (c :: ds)) with (dec_value (v * 10 + (c - 48)) ds) in *.
    assert (0 ≤ v * 10 + (c - 48)) by (unfold isdigit in Hc; lia).
    pose proof (dec_value_mono ds (v * 10 + (c - 48)) Hds ltac:(done)).
    rewrite s32_small by lia. replace (v * 10 + c - 48) with (v * 10 + (c - 48)) by lia. by apply IH.
Qed.

(** ** Parsing what was written *)

(** [one_of c s]: the character is in the literal [s]. *)
Definition one_of (c : Z) (s : list Z) : bool := existsb (Z.eqb c) s.
Arguments one_of c s : simpl never.

Lemma parse_width_spec a args rest :
  (∀ n, a = Number n → 0 ≤ n < 2147483648) →
  isdigit (peek rest) = false → (a = Nothing → peek rest ≠ chr "*") →
  parse_width (amount_text a ++ rest) args = '(n, args) ← amount_value a args; Ret (rest, n, args).
Proof.
  intros Hn Hd Hs. unfold parse_width. destruct a as [|n|]; cbn [amount_text amount_value].
  - rewrite (parse_number_spec [] rest Hd 0) by (constructor || done). cbn [app].
    by destruct (Z.eqb_spec (peek rest) (chr "*")); [destruct Hs|].
  - specialize (Hn n eq_refl). destruct (decimal_spec n) as (Hv & Hds & Hhd); [lia|].
    assert (peek (decimal n ++ rest) =? chr "*" = false) as ->.
    { destruct (decide (n = 0)) as [->|]; [done|].
      destruct Hhd as (c & t & -> & Hc); [lia|]. apply Z.eqb_neq. change (c ≠ 42). lia. }
    rewrite (parse_number_spec _ rest Hd 0), Hv by (done || lia). done.
  - change (peek (chars "*" ++ rest) =? chr "*") with true. cbn -[va_arg u32 s32].
    by destruct (va_arg args) as [[w args']| |].
Qed.

Lemma parse_precision_spec o args rest :
  wf_precision o → isdigit (peek rest) = false → peek rest ≠ chr "*" → peek rest ≠ chr "." →
  parse_precision (precision_text o ++ rest) args
  = '(p, args) ← precision_value o args; Ret (rest, default (-1) p, args).
Proof.
  intros Hw Hd Hs Hp. unfold parse_precision. destruct o as [a|]; cbn [precision_text precision_value].
  - change (peek ((chr "." :: amount_text a) ++ rest) =? chr ".") with true. cbn iota.
    cbn [advance app]. rewrite bind_Ret, parse_width_spec by (done || by intros n ->).
    destruct (amount_value a args) as [[n args']| |]; cbn; [|done..]. by destruct (n <? 0).
  - cbn [app]. by destruct (Z.eqb_spec (peek rest) (chr ".")).
Qed.

Lemma parse_type_spec t c rest :
  one_of c (chars "hjltz") = false → parse_type (type_text t ++ c :: rest) = Ret (c :: rest, t).
Proof.
  unfold one_of. cbn [chars map String.list_ascii_of_string existsb]. rewrite !orb_false_iff.
  intros (Eh & Ej & El & Et & Ez & _).
  destruct t; unfold parse_type, type_text, chars; cbn [app map String.list_ascii_of_string peek head default from_option id advance];
    cbn -[chr]; unfold peek; cbn [head default from_option id];
    by rewrite ?Eh, ?Ej, ?El, ?Et, ?Ez.
Qed.

(** The flags as bits, before the corrections. *)
Definition add_flag (st : style) (f : flag) : style :=
  match st, f with
  | Style _ p s h z g, FMinus => Style true p s h z g
  | Style m _ s h z g, FPlus => Style m true s h z g
  | Style m p _ h z g, FSpace => Style m p true h z g
  | Style m p s _ z g, FPound => Style m p s true z g
  | Style m p s h _ g, FZero => Style m p s h true g
  | Style m p s h z _, FGroup => Style m p s h z true
  end.
Definition raw_style (fs : list flag) : style :=
  Style (flag_in FMinus fs) (flag_in FPlus fs) (flag_in FSpace fs) (flag_in FPound fs)
    (flag_in FZero fs) (flag_in FGroup fs).
Definition join_style (a b : style) : style :=
  Style (a.(leftward) || b.(leftward)) (a.(plus) || b.(plus)) (a.(space) || b.(space))
    (a.(pound) || b.(pound)) (a.(zeros) || b.(zeros)) (a.(grouped) || b.(grouped)).

Lemma flag_in_cons f g fs : flag_in f (g :: fs) = bool_decide (f = g) || flag_in f fs.
Proof.
  unfold flag_in. rewrite <- bool_decide_or. apply bool_decide_ext. apply elem_of_cons.
Qed.

Lemma enc_add_flag st f : Z.lor (enc st) (default 0 (flag_bit (flag_char f))) = enc (add_flag st f).
Proof. destruct f; style_cases; reflexivity. Qed.

Lemma join_add st f fs :
  join_style (add_flag st f) (raw_style fs) = join_style st (raw_style (f :: fs)).
Proof.
  unfold raw_style, join_style. rewrite !flag_in_cons.
  destruct st, f; cbn; f_equal; rewrite ?orb_true_r; done.
Qed.

Lemma parse_flags_spec rest : flag_bit (peek rest) = None → ∀ fs st,
  parse_flags (map flag_char fs ++ rest) (enc st) = (rest, enc (join_style st (raw_style fs))).
Proof.
  intros Hr. induction fs as [|f fs IH]; intros st.
  - cbn [map app]. replace (join_style st (raw_style [])) with st
      by (destruct st; unfold join_style; cbn; by rewrite !orb_false_r).
    destruct rest as [|c rest]; [done|]. cbn in *. by rewrite Hr.
  - cbn [map app parse_flags]. rewrite <- join_add, <- IH, <- enc_add_flag. by destruct f.
Qed.

(** The characters that end the options of each kind. *)
Definition ends_flags (c : Z) : Prop := flag_bit c = None.
Definition ends_width (c : Z) : Prop := ends_flags c ∧ isdigit c = false ∧ c ≠ chr "*".
Definition ends_precision (c : Z) : Prop := ends_width c ∧ c ≠ chr ".".

Ltac in_literal H := apply H, list_elem_of_In; cbn; tauto.

Lemma conversion_char_ends c :
  conversion_char c = true →
  ends_precision c ∧ one_of c (chars "hjltz") = false ∧ c ≠ chr "%" ∧ c ≠ 0.
Proof.
  unfold conversion_char. intros H. apply negb_true_iff in H.
  assert (∀ x, x ∈ 0 :: chars "-+ #0'123456789*.hjltz%" → c ≠ x) as Hne.
  { intros x Hx ->. apply not_true_iff_false in H. apply H. apply existsb_exists.
    exists x. split; [by apply list_elem_of_In|apply Z.eqb_refl]. }
  split_and!; [split; [split_and!|]|..].
  - unfold ends_flags, flag_bit.
    repeat match goal with |- context [c =? ?k] => destruct (Z.eqb_spec c k) as [E|_];
      [exfalso; revert E; in_literal Hne|] end. done.
  - unfold isdigit. destruct (Z.leb_spec 48 c), (Z.leb_spec c 57); cbn [andb]; try done.
    assert (c ∈ 0 :: chars "-+ #0'123456789*.hjltz%") as Hin; [|by destruct (Hne c Hin)].
    assert (c = 48 ∨ c = 49 ∨ c = 50 ∨ c = 51 ∨ c = 52 ∨ c = 53 ∨ c = 54 ∨ c = 55 ∨ c = 56 ∨ c = 57)
      as Hc by lia.
    apply list_elem_of_In. by repeat (destruct Hc as [->|Hc]; [cbn; tauto|]); subst; cbn; tauto.
  - in_literal Hne.
  - in_literal Hne.
  - unfold one_of, chars. cbn [map String.list_ascii_of_string existsb].
    repeat match goal with |- context [c =? ?k] => destruct (Z.eqb_spec c k) as [E|_];
      [exfalso; revert E; in_literal Hne|] end. done.
  - in_literal Hne.
  - apply Hne. left.
Qed.

Section Parse.
Variables (cv : conversion) (rest : list Z).
Hypothesis Hchar : conversion_char cv.(cv_char) = true.

Definition after_precision : list Z := type_text cv.(cv_type) ++ cv.(cv_char) :: rest.
Definition after_width : list Z := precision_text cv.(cv_precision) ++ after_precision.

Lemma after_precision_ends : ends_precision (peek after_precision).
Proof using Hchar.
  destruct (conversion_char_ends _ Hchar) as [H _]. unfold after_precision.
  by destruct cv.(cv_type).
Qed.
Lemma after_width_ends : ends_width (peek after_width).
Proof using Hchar.
  unfold after_width. destruct cv.(cv_precision) as [a|]; [done|].
  apply after_precision_ends.
Qed.
Lemma after_flags_ends :
  wf_width cv.(cv_width) → ends_flags (peek (amount_text cv.(cv_width) ++ after_width)).
Proof using Hchar.
  intros Hw. destruct cv.(cv_width) as [|n|]; cbn [wf_width] in Hw; [apply after_width_ends| |done].
  destruct (decimal_spec n) as (_ & _ & Hhd); [lia|]. destruct Hhd as (c & t & E & Hc); [lia|].
  cbn [amount_text]. rewrite E. unfold ends_flags, flag_bit. cbn [app peek head default from_option].
  unfold peek. cbn [head default from_option id].
  repeat match goal with |- context [c =? ?k] =>
    destruct (Z.eqb_spec c k) as [Ek|_]; [vm_compute in Ek; lia|] end. done.
Qed.

(** The corrections to the flags give the style of the reference. *)
Lemma style_corrections (fs : list flag) (w : Z) (prec : option Z) :
  (w < 0 → FZero ∉ fs) → (∀ q, prec = Some q → 0 ≤ q) →
  let flags := enc (raw_style fs) in
  let flags := if has flags MINUS then Z.ldiff flags ZERO else flags in
  let flags := if has flags PLUS then Z.ldiff flags SPACE else flags in
  let flags := if w <? 0 then Z.lor flags MINUS else flags in
  (if 0 <=? default (-1) prec then Z.ldiff flags ZERO else flags)
  = enc (style_of fs (w <? 0) prec).
Proof.
  intros Hw Hp. cbn zeta. unfold raw_style, style_of.
  assert (0 <=? default (-1) prec = bool_decide (is_Some prec)) as ->.
  { destruct prec as [q|]; cbn; [|done]. specialize (Hp q eq_refl).
    by destruct (Z.leb_spec 0 q); [|lia]. }
  assert (w <? 0 = true → flag_in FZero fs = false) as Hz.
  { intros E. apply bool_decide_eq_false, Hw. lia. }
  destruct (w <? 0); [rewrite Hz by done|];
    destruct (flag_in FMinus fs), (flag_in FPlus fs), (flag_in FSpace fs), (flag_in FPound fs),
      (flag_in FGroup fs), (bool_decide (is_Some prec)); try reflexivity;
    destruct (flag_in FZero fs); reflexivity.
Qed.

Lemma amount_value_range a args n args' :
  wf_width a → amount_value a args = Ret (n, args') → -2147483648 ≤ n < 2147483648.
Proof.
  intros Hw. destruct a as [|m|]; cbn [amount_value].
  - intros [= <- <-]. lia.
  - intros [= <- <-]. cbn in Hw. lia.
  - destruct args as [|w args]; cbn; [done|]. intros [= <- <-]. apply s32_bounds.
Qed.
Lemma precision_value_pos o args p args' q :
  precision_value o args = Ret (p, args') → p = Some q → 0 ≤ q.
Proof.
  destruct o as [a|]; cbn [precision_value]; [|by intros [= <- <-]].
  intros H ->. bind_inv H. destruct v as [n args'']. destruct (Z.ltb_spec n 0); [done|].
  by injection H as <- _.
Qed.

Lemma parse_conversion_spec args :
  wf_width cv.(cv_width) → wf_precision cv.(cv_precision) → plain_width cv args →
  parse_conversion (options_text cv ++ rest) args
  = '(w, args) ← amount_value cv.(cv_width) args;
    '(prec, args) ← precision_value cv.(cv_precision) args;
    Ret (cv.(cv_char) :: rest,
         Conversion (enc (style_of cv.(cv_flags) (w <? 0) prec)) (Z.abs w) (default (-1) prec)
           cv.(cv_type), args).
Proof using Hchar.
  intros Hww Hwp Hpl. unfold parse_conversion, options_text. rewrite <- !app_assoc. cbn [app].
  fold after_precision after_width.
  change 0 with (enc (raw_style [])) at 1.
  rewrite (parse_flags_spec _ (after_flags_ends Hww)).
  change (join_style (raw_style []) ?st) with st.
  destruct after_width_ends as (_ & Hd & Hs). destruct after_precision_ends as ((_ & Hd' & Hs') & Hp').
  rewrite parse_width_spec by (done || intros n E; rewrite E in Hww; cbn in Hww; lia).
  unfold plain_width in Hpl.
  destruct (amount_value _ args) as [[w args1]| |] eqn:Ew; [|done..]. cbn [mbind res_bind].
  pose proof (amount_value_range _ _ _ _ Hww Ew).
  assert (∀ F, (if w <? 0 then (s32 (- w), Z.lor F MINUS) else (w, F))
               = (Z.abs w, if w <? 0 then Z.lor F MINUS else F)) as ->.
  { intros F. destruct (Z.ltb_spec w 0); [rewrite s32_small by lia|]; f_equal; lia. }
  unfold after_width. rewrite parse_precision_spec by done.
  destruct (precision_value _ args1) as [[prec args2]| |] eqn:Ep; [|done..]. cbn [mbind res_bind].
  unfold after_precision. destruct (conversion_char_ends _ Hchar) as (_ & Ht & _).
  rewrite parse_type_spec by done. cbn [mbind res_bind].
  pose proof (style_corrections cv.(cv_flags) w prec (proj2 Hpl)
                (λ q, precision_value_pos _ _ _ _ q Ep)) as Hst.
  cbn zeta in Hst. by rewrite Hst.
Qed.
End Parse.

(** ** Arguments *)
Lemma va_arg_range args v args' : va_arg args = Ret (v, args') → 0 ≤ v < 4294967296.
Proof. destruct args as [|w args]; cbn; [done|]. intros [= <- <-]. apply u32_range. Qed.

Lemma va_arg64_range args v args' : va_arg64 args = Ret (v, args') → 0 ≤ v < 18446744073709551616.
Proof.
  unfold va_arg64. intros H. bind_inv H. destruct v0 as [lo args1]. bind_inv H.
  destruct v0 as [hi args2]. injection H as <- _.
  apply va_arg_range in H0. apply va_arg_range in H1. lia.
Qed.

Lemma u64_small z : 0 ≤ z < 18446744073709551616 → u64 z = z.
Proof. apply Z.mod_small. Qed.

Lemma s64_range z : -9223372036854775808 ≤ s64 z < 9223372036854775808.
Proof.
  unfold s64. assert (0 ≤ u64 z < 18446744073709551616) by (apply Z.mod_pos_bound; lia).
  destruct (Z.ltb_spec (u64 z) 9223372036854775808); lia.
Qed.

Lemma signed_arg_range t args v args' :
  signed_arg t args = Ret (v, args') → -9223372036854775808 ≤ v < 9223372036854775808.
Proof.
  intros H. unfold signed_arg in H.
  destruct t; bind_inv H; destruct v0 as [w args1]; injection H as <- _;
    try (apply s64_range); try (pose proof (s32_bounds w); lia).
  - unfold s8. pose proof (Z.mod_pos_bound w 256). destruct (Z.ltb_spec (w mod 256) 128); lia.
  - unfold s16. pose proof (Z.mod_pos_bound w 65536). destruct (Z.ltb_spec (w mod 65536) 32768); lia.
  - apply va_arg_range in H0. destruct (Z.ltb_spec 2147483647 w); lia.
Qed.

Lemma unsigned_arg_range t args v args' :
  unsigned_arg t args = Ret (v, args') → 0 ≤ v < 18446744073709551616.
Proof.
  intros H. unfold unsigned_arg in H.
  destruct t; try (apply va_arg64_range in H; lia); try (apply va_arg_range in H; lia);
    bind_inv H; destruct v0 as [w args1]; injection H as <- _.
  - pose proof (Z.mod_pos_bound w 256). lia.
  - pose proof (Z.mod_pos_bound w 65536). lia.
  - change 4294967295 with (Z.ones 32). rewrite Z.land_ones by lia.
    pose proof (Z.mod_pos_bound (u64 (s32 w)) (2 ^ 32)). lia.
Qed.

(** The absolute value as the code computes it is right for the least [intmax_t] too. *)
Lemma abs_value v :
  -9223372036854775808 ≤ v < 9223372036854775808 →
  u64 (if v <? 0 then s64 (- v) else v) = Z.abs v.
Proof.
  intros Hv. destruct (Z.ltb_spec v 0); [|rewrite u64_small; lia].
  unfold s64. rewrite (u64_small (- v)) by lia.
  destruct (Z.ltb_spec (- v) 9223372036854775808); [rewrite u64_small; lia|].
  assert (v = -9223372036854775808) as -> by lia. done.
Qed.

Lemma known_base_d : known_base base_d.
Proof. unfold known_base. cbn. lia. Qed.
Lemma known_base_x : known_base base_x.
Proof. unfold known_base. cbn. lia. Qed.
Lemma known_unsigned_base c : known_base (unsigned_base c).
Proof.
  unfold unsigned_base. repeat destruct (_ =? _); unfold known_base; cbn; lia.
Qed.
#[export] Hint Resolve known_base_d known_base_x known_unsigned_base : core.

(** ** The loop *)
Section Loop.
Context {A : Type} (output : Z → A → A) (cstr : Z → option (list Z)).

Lemma message_loop (fuel : nat) c aux :
  0 < c < 256 →
  vprintf_loop output cstr (30 + fuel) (chars "<<no %%%c in kernel>>") [c] aux
  = Ret (output_chars output (message c (chars " in kernel")) aux)
  ∧ vprintf_loop output cstr (30 + fuel) (chars "<<no %%%c conversion>>") [c] aux
  = Ret (output_chars output (message c (chars " conversion")) aux).
Proof.
  intros Hc. assert (u32 c mod 256 = c) as E by (rewrite u32_id, Z.mod_small; unfold is_u32; lia).
  rewrite <- E at 2 4. split; reflexivity.
Qed.

Lemma style_of_left fs n prec :
  (style_of fs n prec).(leftward) = true → (style_of fs n prec).(zeros) = false.
Proof. cbn. intros ->. by rewrite andb_false_r. Qed.

Lemma do_conversion_spec (fuel : nat) c st w prec t args aux :
  0 < c < 256 → 0 ≤ w < 2147483648 → (st.(leftward) = true → st.(zeros) = false) →
  (∀ q, prec = Some q → 0 ≤ q) →
  do_conversion output cstr (vprintf_loop output cstr (30 + fuel)) c
    (Conversion (enc st) w (default (-1) prec) t) args aux
  = '(out, args) ← render_char cstr c st w prec t args; Ret (output_chars output out aux, args).
Proof.
  intros Hc Hw Hst Hp. unfold do_conversion, render_char. cbn [type precision].
  destruct (_ || _); [|destruct (_ || _); [|destruct (c =? chr "c"); [|destruct (c =? chr "s");
    [|destruct (c =? chr "p"); [|destruct (message_loop fuel c aux Hc) as [E1 E2];
      destruct (existsb _ _); by rewrite ?E1, ?E2]]]]].
  - destruct (signed_arg t args) as [[v args']| |] eqn:E; [|done..]. cbn [mbind res_bind].
    apply signed_arg_range in E. rewrite abs_value, format_integer_eq by (done || lia || auto). done.
  - destruct (unsigned_arg t args) as [[v args']| |] eqn:E; [|done..]. cbn [mbind res_bind].
    apply unsigned_arg_range in E. rewrite format_integer_eq by (done || lia || auto). done.
  - destruct (va_arg args) as [[v args']| |] eqn:E; [|done..]. cbn [mbind res_bind].
    by rewrite format_string_eq.
  - destruct (string_arg _ _ args) as [[v args']| |] eqn:E; [|done..]. cbn [mbind res_bind].
    by rewrite format_string_eq.
  - destruct (va_arg args) as [[v args']| |] eqn:E; [|done..]. cbn [mbind res_bind].
    apply va_arg_range in E. cbn [width].
    rewrite (format_integer_eq output (Style false false false true false false))
      by (done || lia || auto). done.
Qed.

Lemma percent_step (fuel : nat) format args aux :
  peek format =? chr "%" = false →
  vprintf_loop output cstr (S fuel) (chr "%" :: format) args aux
  = '(format, c, args) ← parse_conversion format args;
    '(aux, args) ← do_conversion output cstr (vprintf_loop output cstr fuel) (peek format) c args aux;
    format ← advance format;
    vprintf_loop output cstr fuel format args aux.
Proof.
  intros H. transitivity (if peek format =? chr "%" then
    format ← advance format; vprintf_loop output cstr fuel format args (output (chr "%") aux)
    else '(format, c, args) ← parse_conversion format args;
      '(aux, args) ← do_conversion output cstr (vprintf_loop output cstr fuel) (peek format) c args aux;
      format ← advance format; vprintf_loop output cstr fuel format args aux);
    [reflexivity|by rewrite H].
Qed.

(** One conversion: the options are parsed, and its text is printed. *)
Lemma convert_step (fuel : nat) cv rest args aux :
  wf_item (Convert cv) → plain_width cv args →
  vprintf_loop output cstr (S (30 + fuel)) (item_text (Convert cv) ++ rest) args aux
  = '(out, args) ← render_conversion cstr cv args;
    vprintf_loop output cstr (30 + fuel) rest args (output_chars output out aux).
Proof.
  intros (Hw & Hp & Hc & Hcc) Hpl. destruct (conversion_char_ends _ Hcc) as (_ & _ & Hpc & H0).
  cbn [item_text app].
  assert (peek (options_text cv ++ rest) =? chr "%" = false) as Hpeek.
  { apply Z.eqb_neq. intros E.
    unfold options_text in E. rewrite <- !app_assoc in E.
    destruct cv.(cv_flags) as [|[] fs]; [|done..]. cbn [map app] in E.
    destruct cv.(cv_width) as [|n|]; [|destruct (decimal_spec n) as (_ & _ & Hhd); [cbn in Hw; lia|];
      destruct Hhd as (c & t & E' & Hc'); [cbn in Hw; lia|]; cbn [amount_text] in E; rewrite E' in E;
      change (c = 37) in E; lia|done].
    destruct cv.(cv_precision); [done|]. by destruct cv.(cv_type). }
  rewrite percent_step, parse_conversion_spec by done.
  unfold render_conversion, plain_width in *.
  destruct (amount_value _ args) as [[w args1]| |] eqn:Ew; [|done..]. cbn [mbind res_bind].
  pose proof (amount_value_range _ _ _ _ Hw Ew).
  destruct (precision_value _ args1) as [[prec args2]| |] eqn:Ep; [|done..]. cbn [mbind res_bind].
  change (peek (cv.(cv_char) :: rest)) with cv.(cv_char).
  rewrite do_conversion_spec; [|done|lia|apply style_of_left|by intros q; eapply precision_value_pos].
  generalize (vprintf_loop output cstr (30 + fuel)). intros loop.
  by destruct (render_char _ _ _ _ _ _ args2) as [[out args3]| |].
Qed.

Lemma vprintf_render items : ∀ (fuel : nat) args aux out,
  Forall wf_item items → plain_widths cstr items args →
  render cstr items args = Ret out → (length items + 30 < fuel)%nat →
  vprintf_loop output cstr fuel (format_text items) args aux = Ret (output_chars output out aux).
Proof.
  induction items as [|i items IH]; intros fuel args aux out Hwf Hpl Hr Hf.
  - destruct fuel; [lia|]. by injection Hr as <-.
  - inversion Hwf as [|? ? Hi Hwf']; subst. cbn [length] in Hf.
    change (format_text (i :: items)) with (item_text i ++ format_text items).
    cbn [render] in Hr. bind_inv Hr. destruct v as [t args']. bind_inv Hr. injection Hr as <-.
    rewrite output_chars_app.
    destruct fuel as [|fuel]; [lia|]. destruct i as [c| |cv]; cbn [plain_widths] in Hpl.
    + destruct Hi as [Hc Hp]. injection Hr0 as <- <-. cbn [item_text app vprintf_loop].
      change (peek (c :: format_text items)) with c.
      destruct (Z.eqb_spec c 0); [lia|]. destruct (Z.eqb_spec c (chr "%")); [done|]. cbn [negb advance].
      rewrite bind_Ret. apply IH; auto; lia.
    + injection Hr0 as <- <-. apply (IH fuel args (output (chr "%") aux)); auto; lia.
    + destruct Hpl as [Hcv Hpl]. rewrite Hr0 in Hpl.
      replace fuel with (30 + (fuel - 30))%nat by lia. rewrite convert_step by done.
      rewrite Hr0, bind_Ret. apply IH; auto; lia.
Qed.

Lemma format_text_length items : (length items ≤ length (format_text items))%nat.
Proof.
  induction items as [|i items IH]; [done|]. unfold format_text in *. cbn. rewrite length_app.
  destruct i; cbn; lia.
Qed.
End Loop.
