(* ===== verification/StdioTheorems.v ===== *)
(** * Theorems on formatted output

    [__vprintf] prints what the reference semantics of [Format] says; [vsnprintf] puts a
    prefix of it and a terminator into its buffer and nothing elsewhere; the user console
    passes it on in pieces of at most 64 bytes; [atoi] reads back what [%d] wrote. *)
From Stdlib Require Import (notations) Ascii String.
From S2P Require Import Prelude Mem CString FixedPoint Sorting Stdio Format.

(** ** Writing to memory *)
Fixpoint store_chars (m : mem) (a : Z) (cs : list Z) : mem :=
  match cs with
  | [] => m
  | c :: cs => store_chars (store8 m a c) (a + 1) cs
  end.

Lemma load8_store_chars_out cs : ∀ m a x,
  ¬ (a ≤ x < a + len cs) → load8 (store_chars m a cs) x = load8 m x.
Proof.
  induction cs as [|c cs IH]; intros m a x Hx; [done|]. cbn [store_chars length] in *.
  rewrite IH by lia. apply load8_store8_ne. lia.
Qed.

Lemma load8_store_chars_in cs : ∀ m a i c,
  cs !! i = Some c → load8 (store_chars m a cs) (a + Z.of_nat i) = c mod 256.
Proof.
  induction cs as [|c' cs IH]; intros m a i c Hi; [done|]. destruct i as [|i].
  - injection Hi as <-. cbn [store_chars]. rewrite load8_store_chars_out by lia.
    rewrite Z.add_0_r. apply load8_store8_eq.
  - cbn [store_chars]. replace (a + Z.of_nat (S i)) with (a + 1 + Z.of_nat i) by lia. by apply IH.
Qed.

(** The helper stores characters while there is room and counts all of them. *)
Lemma vsnprintf_helper_chars cs : ∀ m p l max,
  0 ≤ l → l + len cs < 2147483648 →
  output_chars vsnprintf_helper cs (VsnprintfAux m p l max)
  = let kept := take (Z.to_nat (max - l)) cs in
    VsnprintfAux (store_chars m p kept) (p + len kept) (l + len cs) max.
Proof.
  induction cs as [|c cs IH]; intros m p l max Hl Hn; cbn [output_chars length] in *; cbn zeta.
  - rewrite take_nil. cbn. f_equal; lia.
  - unfold vsnprintf_helper at 2. rewrite s32_small by lia.
    destruct (Z.ltb_spec l max); rewrite IH by lia; cbn zeta.
    + replace (Z.to_nat (max - l)) with (S (Z.to_nat (max - (l + 1)))) by lia.
      cbn [take store_chars length]. f_equal; lia.
    + replace (Z.to_nat (max - l)) with 0%nat by lia.
      replace (Z.to_nat (max - (l + 1))) with 0%nat by lia. cbn. f_equal; lia.
Qed.

(** ** The user console *)

(** What reaches [write]: pieces of 1 to 64 bytes on one handle. *)
Definition pieces (handle : Z) (new : log) : Prop :=
  Forall (λ e, fst e = handle ∧ 1 ≤ len (snd e) ≤ 64) new.

Lemma add_char_chars h cs : ∀ l buf n,
  (length buf < 64)%nat → 0 ≤ n → n + len cs < 2147483648 →
  ∃ new buf', output_chars add_char cs (VhprintfAux l buf n h)
              = VhprintfAux (l ++ new) buf' (n + len cs) h
    ∧ pieces h new ∧ (length buf' < 64)%nat ∧ concat (snd <$> new) ++ buf' = buf ++ cs.
Proof.
  induction cs as [|c cs IH]; intros l buf n Hb Hn Hlt; cbn [output_chars length] in *.
  - exists [], buf. rewrite Z.add_0_r, !app_nil_r. split_and!; [done|constructor|done|done].
  - unfold add_char at 2. cbn [vbuf]. rewrite length_app. cbn [length].
    destruct (Nat.leb_spec 64 (length buf + 1)).
    + unfold flush. rewrite length_app. cbn [length].
      destruct (Nat.ltb_spec 0 (length buf + 1)); [|lia]. rewrite s32_small by lia.
      destruct (IH (write l h (buf ++ [c])) [] (n + 1)) as (new & buf' & E & Hp & Hl & Hc);
        [cbn; lia|lia|lia|].
      exists ((h, buf ++ [c]) :: new), buf'. rewrite E. unfold write. rewrite <- app_assoc.
      split_and!; [f_equal; lia|constructor; [cbn; rewrite length_app; cbn; lia|done]|done|].
      cbn [fmap list_fmap concat]. cbn. by rewrite <- !app_assoc, Hc.
    + rewrite s32_small by lia.
      destruct (IH l (buf ++ [c]) (n + 1)) as (new & buf' & E & Hp & Hl & Hc);
        [rewrite length_app; cbn; lia|lia|lia|].
      exists new, buf'. rewrite E, Hc, <- app_assoc. split_and!; [f_equal; lia|done..].
Qed.

Section Printed.
Context (cstr : Z → option (list Z)) (items : list item) (args out : list Z).
Hypothesis Hwf : Forall wf_item items.
Hypothesis Hplain : plain_widths cstr items args.
Hypothesis Hrender : render cstr items args = Ret out.

Lemma vprintf_spec {A} (output : Z → A → A) aux :
  __vprintf output cstr (format_text items) args aux = Ret (output_chars output out aux).
Proof using Hwf Hplain Hrender.
  unfold __vprintf. pose proof (format_text_length items). apply vprintf_render; [done..|lia].
Qed.

Lemma vsnprintf_spec m buffer buf_size :
  0 ≤ buf_size < 2147483648 → len out < 2147483648 →
  let kept := take (Z.to_nat (buf_size - 1)) out in
  vsnprintf cstr m buffer buf_size (format_text items) args
  = Ret (len out, if 0 <? buf_size then store_chars m buffer (kept ++ [0]) else m).
Proof using Hwf Hplain Hrender.
  intros Hs Hl kept. unfold vsnprintf.
  rewrite vprintf_spec, bind_Ret, vsnprintf_helper_chars by lia. cbn [memory pos vlength].
  assert (∀ cs c (m : mem) a, store_chars m a (cs ++ [c]) = store8 (store_chars m a cs) (a + len cs) c) as Hsnoc.
  { induction cs as [|x cs IH]; intros c m' a; cbn [store_chars app length]; [by rewrite Z.add_0_r|].
    rewrite IH. f_equal. lia. }
  unfold kept. rewrite Hsnoc. destruct (Z.ltb_spec 0 buf_size) as [Hp|Hp].
  - rewrite s32_small, Z.sub_0_r by lia. done.
  - rewrite s32_small by lia. cbn [Z.to_nat Z.sub]. by rewrite take_0.
Qed.

Lemma vhprintf_spec l handle :
  len out < 2147483648 →
  ∃ new, vhprintf cstr l handle (format_text items) args = Ret (len out, l ++ new)
    ∧ pieces handle new ∧ concat (snd <$> new) = out.
Proof using Hwf Hplain Hrender.
  intros Hl. unfold vhprintf. rewrite vprintf_spec, bind_Ret.
  destruct (add_char_chars handle out l [] 0) as (new & buf & E & Hp & Hb & Hc); [cbn; lia..|].
  rewrite E. cbn [flush char_cnt written]. cbn [app] in Hc.
  destruct (Nat.ltb_spec 0 (length buf)).
  - exists (new ++ [(handle, buf)]). unfold write. rewrite <- app_assoc. split_and!; [done| |].
    + apply Forall_app. split; [done|]. constructor; [cbn; lia|constructor].
    + rewrite fmap_app, concat_app. cbn. by rewrite app_nil_r.
  - destruct buf; [|cbn in *; lia]. rewrite app_nil_r in Hc. by exists new.
Qed.
End Printed.

(** ** Numbers *)

(** The text of an [int] in base ten. *)
Definition int_text (n : Z) : list Z := (if n <? 0 then [chr "-"] else []) ++ decimal (Z.abs n).
Definition plain : style := Style false false false false false false.

Lemma at_least_one n : 0 ≤ n < 18446744073709551616 → at_least 1 (number base_d false n) = decimal n.
Proof.
  intros Hn. pose proof (decimal_spec n Hn) as (_ & _ & Hhd). unfold decimal in *.
  destruct (Z.eqb_spec n 0) as [->|]; [done|].
  destruct Hhd as (c & t & -> & _); [lia|]. unfold at_least, zero_digits. cbn [length].
  by replace (Z.to_nat (Z.min 1 63 - Z.of_nat (S (length t)))) with 0%nat by lia.
Qed.

Lemma integer_text_plain sign n :
  0 ≤ n < 18446744073709551616 →
  integer_text plain 0 None base_d sign n = (if default false sign then [chr "-"] else []) ++ decimal n.
Proof.
  intros Hn. unfold integer_text, octal_zero, prefix_text, field. cbn [zeros leftward pound grouped plain andb].
  cbn [default from_option]. rewrite at_least_one, spaces_nonpos by lia. rewrite app_nil_r.
  by destruct sign as [[]|].
Qed.

Lemma decimal_length n : 0 ≤ n < 10 ^ 10 → len (decimal n) ≤ 10.
Proof.
  intros Hn. unfold decimal. destruct (n =? 0); [cbn; lia|]. unfold number. cbn [base base_d].
  rewrite (radix_enough 10 ltac:(lia) 10 64) by (cbn; lia).
  assert (∀ ds i, length (digit_text base_d false i ds) = length ds) as H.
  { induction ds as [|d ds IH]; intros i; cbn; [done|]. rewrite length_app, IH. cbn. lia. }
  rewrite H. pose proof (radix_length 10 10 n). lia.
Qed.

Definition percent_d : list item := [Convert (Conv [] Nothing None INT (chr "d"))].
Lemma render_percent_d cstr n : is_s32 n → render cstr percent_d [n] = Ret (int_text n).
Proof.
  intros Hn. cbn [render percent_d].
  assert (render_conversion cstr (Conv [] Nothing None INT (chr "d")) [n]
          = Ret (integer_text plain 0 None base_d (Some (s32 (u32 n) <? 0)) (Z.abs (s32 (u32 n))), [])) as ->.
  { reflexivity. }
  assert (s32 (u32 n) = n) as ->. { unfold s32 at 1. rewrite u32_idemp. by apply s32_id. }
  rewrite bind_Ret, bind_Ret, app_nil_r, integer_text_plain by (unfold is_s32 in Hn; lia).
  done.
Qed.

Lemma percent_d_plain cstr n : Forall wf_item percent_d ∧ plain_widths cstr percent_d [n].
Proof.
  split; [by repeat constructor; cbn; lia|]. cbn. split; [split; [lia|]; intros; lia|done].
Qed.

Lemma decimal_head n : 0 ≤ n < 18446744073709551616 → ∃ c t, decimal n = c :: t ∧ 48 ≤ c ≤ 57.
Proof.
  intros Hn. destruct (decide (n = 0)) as [->|]; [by exists 48, []|].
  destruct (decimal_spec n Hn) as (_ & _ & Hhd). destruct Hhd as (c & t & E & Hc); [lia|].
  exists c, t. split; [done|lia].
Qed.

Lemma int_text_bytes n : is_s32 n → Forall (λ c, 0 ≤ c < 256) (int_text n) ∧ len (int_text n) ≤ 11.
Proof.
  unfold is_s32, int_text. intros Hn. destruct (decimal_spec (Z.abs n)) as (_ & Hd & _); [lia|].
  pose proof (decimal_length (Z.abs n) ltac:(lia)). split.
  - apply Forall_app. split; [destruct (n <? 0); repeat constructor; done|].
    eapply Forall_impl; [exact Hd|]. unfold isdigit. intros c Hc. cbn beta in Hc. lia.
  - rewrite length_app. destruct (n <? 0); cbn [length]; lia.
Qed.

(** [atoi] on the text of a number and a terminator. *)
Lemma atoi_int_text fuel m s n :
  is_s32 n → 0 < s → (12 ≤ fuel)%nat →
  (∀ i c, int_text n !! i = Some c → load8 m (s + Z.of_nat i) = c) →
  load8 m (s + len (int_text n)) = 0 → atoi fuel m s = Ret n.
Proof.
  intros Hn Hs Hf Hm Hz. pose proof (int_text_bytes n Hn) as [_ Hl].
  assert (Habs : 0 ≤ Z.abs n < 18446744073709551616) by (unfold is_s32 in Hn; lia).
  destruct (decimal_spec (Z.abs n) Habs) as (Hv & Hd & _).
  rewrite (atoi_correct fuel m s [] (if n <? 0 then [45] else []) (decimal (Z.abs n)));
    [|done|by apply Forall_nil|done| |done|
     by change (isdigit (load8 m (s + len (int_text n))) = false); rewrite Hz
    |change (length (int_text n) < fuel)%nat; lia].
  - f_equal. rewrite Hv. unfold is_s32 in *.
    destruct (Z.ltb_spec n 0); [rewrite decide_True by done|rewrite decide_False by done];
      rewrite s32_id; unfold is_s32; lia.
  - destruct (Z.ltb_spec n 0); [by right; right|]. left. split; [done|].
    destruct (decimal_head (Z.abs n) Habs) as (c & t & Ec & Hc).
    assert (load8 m (s + len []) = c) as ->.
    { apply (Hm 0%nat). unfold int_text. destruct (Z.ltb_spec n 0); [lia|]. by rewrite Ec. }
    split_and!; [|lia|lia]. unfold isspace.
    repeat match goal with |- context [c =? ?k] => destruct (Z.eqb_spec c k); [lia|] end. done.
Qed.

(** ** Theorems *)

(** C35: On the written form of any well-formed list of literals and conversions, with arguments
    for all of them and with every combination of flags, widths, precisions, types and conversion characters, [__vprintf]
    returns and hands the output function the text that the reference semantics gives, in
    order: the digits fit the 64-byte buffer, the options are parsed back, unsupported
    conversions print their message.  (The reference cuts numbers to 63 digits, as the code
    does; a negative width from the arguments together with the flag [0], and the width
    -2^31, are excluded.) *)
Theorem vprintf_correct {A} (output : Z → A → A) cstr items args out aux :
  Forall wf_item items → plain_widths cstr items args → render cstr items args = Ret out →
  __vprintf output cstr (format_text items) args aux = Ret (output_chars output out aux).
Proof. intros. by apply vprintf_spec. Qed.

(** [%-5d|%#x%%] of 42 and 255. *)
Definition demo_items : list item :=
  [Convert (Conv [FMinus] (Number 5) None INT (chr "d")); Literal (chr "|");
   Convert (Conv [FPound] Nothing None INT (chr "x")); Percent].

Lemma vprintf_witness :
  __vprintf (λ c l, l ++ [c]) (λ _, None) (chars "%-5d|%#x%%") [42; 255] []
  = Ret (chars "42   |0xff%").
Proof.
  apply (vprintf_correct (λ c l, l ++ [c]) (λ _, None) demo_items [42; 255] (chars "42   |0xff%") []).
  - repeat constructor; cbn; try done; lia.
  - cbn [plain_widths demo_items]. split; [cbn; split; [lia|]; intros; lia|].
    vm_compute. split; [by split|done].
  - vm_compute. reflexivity.
Defined.

(** C36: For a well-formed format, a buffer of less than 2^31 bytes and a text of fewer than 2^31
    characters (with arguments for all conversions, no negative width together with the flag
    [0] and not the width -2^31), [vsnprintf] returns the
    length of the whole text; its buffer gets the longest prefix that leaves room for a
    terminator, then the terminator, and no byte outside the buffer changes, not even with a
    size of zero.  (A larger size becomes negative as an [int]; a format that ends in a lone
    percent sign is read past its end.) *)
Theorem vsnprintf_correct cstr items args out m buffer buf_size :
  Forall wf_item items → plain_widths cstr items args → render cstr items args = Ret out →
  0 ≤ buf_size < 2147483648 → len out < 2147483648 →
  ∃ m', vsnprintf cstr m buffer buf_size (format_text items) args = Ret (len out, m')
    ∧ (∀ i c, out !! i = Some c → Z.of_nat i < buf_size - 1 → load8 m' (buffer + Z.of_nat i) = c mod 256)
    ∧ (0 < buf_size → load8 m' (buffer + Z.min (len out) (buf_size - 1)) = 0)
    ∧ (∀ a, ¬ (buffer ≤ a < buffer + buf_size) → load8 m' a = load8 m a).
Proof.
  intros Hwf Hpl Hr Hs Hl. eexists. split; [by apply vsnprintf_spec|].
  set (kept := take _ out).
  assert (len kept = Z.max 0 (Z.min (len out) (buf_size - 1))) as Hk.
  { unfold kept. rewrite length_take. lia. }
  split_and!.
  - intros i c Hi Hlt. destruct (Z.ltb_spec 0 buf_size); [|lia].
    apply load8_store_chars_in, lookup_app_l_Some. unfold kept. by rewrite lookup_take_lt by lia.
  - intros Hp. destruct (Z.ltb_spec 0 buf_size); [|lia].
    replace (Z.min _ _) with (len kept) by lia.
    rewrite (load8_store_chars_in _ _ _ _ 0); [done|].
    rewrite lookup_app_r by lia. by rewrite Nat.sub_diag.
  - intros a Ha. destruct (Z.ltb_spec 0 buf_size); [|done].
    apply load8_store_chars_out. rewrite length_app. cbn [length]. lia.
Qed.

Lemma vsnprintf_witness :
  ∃ m', vsnprintf (λ _, None) ∅ 100 4 (chars "%d") [-1234] = Ret (5, m')
    ∧ load8 m' 102 = chr "2" ∧ load8 m' 103 = 0 ∧ load8 m' 104 = 0.
Proof.
  destruct (vsnprintf_correct (λ _, None) percent_d [-1234] (chars "-1234") ∅ 100 4)
    as (m' & E & Hin & Hz & Hout).
  - repeat constructor; cbn; try done; lia.
  - cbn. split; [split; [lia|]; intros; lia|]. by vm_compute.
  - vm_compute. reflexivity.
  - lia.
  - cbn. lia.
  - exists m'. split_and!; [exact E|apply (Hin 2%nat (chr "2")); [done|lia]|by apply Hz|by apply Hout; lia].
Defined.

(** [atoi] reads back every [int] that [snprintf] wrote with [%d] into a buffer of at
    least twelve bytes, the least one included. *)
Theorem snprintf_atoi cstr m buffer buf_size n fuel :
  is_s32 n → 0 < buffer → 12 ≤ buf_size < 2147483648 → (12 ≤ fuel)%nat →
  ∃ r m', snprintf cstr m buffer buf_size (chars "%d") [n] = Ret (r, m')
    ∧ atoi fuel m' buffer = Ret n.
Proof.
  intros Hn Hb Hs Hf. destruct (int_text_bytes n Hn) as [Hbytes Hl].
  destruct (percent_d_plain cstr n) as [Hwf Hpl].
  eexists _, _. split.
  { apply (vsnprintf_spec cstr percent_d [n] (int_text n) Hwf Hpl (render_percent_d cstr n Hn)); lia. }
  destruct (Z.ltb_spec 0 buf_size); [|lia]. rewrite take_ge by lia.
  apply atoi_int_text; [done..| |].
  - intros i c Hi. rewrite (load8_store_chars_in _ _ _ i c) by by apply lookup_app_l_Some.
    apply Z.mod_small. rewrite Forall_forall in Hbytes. apply Hbytes.
    by apply list_elem_of_lookup_2 in Hi.
  - rewrite (load8_store_chars_in _ _ _ _ 0); [done|].
    rewrite lookup_app_r by lia. by rewrite Nat.sub_diag.
Qed.

Lemma snprintf_atoi_witness :
  ∃ r m', snprintf (λ _, None) ∅ 100 12 (chars "%d") [-2147483648] = Ret (r, m')
    ∧ atoi 12 m' 100 = Ret (-2147483648).
Proof. apply (snprintf_atoi (λ _, None)); unfold is_s32; lia. Defined.

(** [vhprintf], and so [printf] in user programs, writes exactly the text to its handle, in
    pieces of at most 64 bytes none of which is empty, and returns its length. *)
Theorem vhprintf_correct cstr items args out l handle :
  Forall wf_item items → plain_widths cstr items args → render cstr items args = Ret out →
  len out < 2147483648 →
  ∃ new, vhprintf cstr l handle (format_text items) args = Ret (len out, l ++ new)
    ∧ pieces handle new ∧ concat (snd <$> new) = out.
Proof. intros. by apply vhprintf_spec. Qed.

(** A negative width from the arguments with the flag [0]: the zeros are not given up for the
    [-] flag that the width stands for, and the number is padded on both sides. *)
Theorem star_width_pads_twice :
  text (λ _, None) (chars "[%0*d]") [-5; 42] = Ret (chars "[00042   ]").
Proof. vm_compute. reflexivity. Qed.

(** ** Sizes *)
Lemma scale_spec fp : ∀ size, 0 ≤ size → fp ≠ [] →
  ∃ k : nat, scale size fp = (size / 1024 ^ Z.of_nat k, fp !!! k) ∧ (k < length fp)%nat
    ∧ ((S k < length fp)%nat → size / 1024 ^ Z.of_nat k < 1024)
    ∧ ((0 < k)%nat → 1 ≤ size / 1024 ^ Z.of_nat k).
Proof.
  induction fp as [|u fp IH]; intros size Hs Hne; [done|]. cbn [scale].
  destruct fp as [|u' fp].
  { exists 0%nat. rewrite Z.pow_0_r, Z.div_1_r. cbn. split_and!; [done|lia|lia|lia]. }
  destruct (Z.leb_spec 1024 size).
  - destruct (IH (size / 1024)) as (k & E & Hk & Hlt & Hge); [by apply Z.div_pos; lia|done|].
    exists (S k). rewrite E, pow_S, <- Z.div_div by lia. cbn [length] in *.
    split_and!; [done|lia|intros; apply Hlt; lia|]. intros _. destruct k as [|k]; [|apply Hge; lia].
    rewrite Z.pow_0_r, Z.div_1_r. apply Z.div_le_lower_bound; lia.
  - exists 0%nat. rewrite Z.pow_0_r, Z.div_1_r. cbn [length]. split_and!; [done|lia|lia|lia].
Qed.

Definition percent_llu_s : list item :=
  [Convert (Conv [] Nothing None LONGLONG (chr "u")); Literal (chr " ");
   Convert (Conv [] Nothing None INT (chr "s"))].

Lemma render_llu_s unit size :
  0 ≤ size < 18446744073709551616 → len unit < 4294967295 →
  render (λ s, if s =? 1 then Some unit else None) percent_llu_s
    [size mod 4294967296; size / 4294967296; 1]
  = Ret (decimal size ++ chr " " :: unit).
Proof.
  intros Hs Hu. set (cstr := λ s : Z, if s =? 1 then Some unit else None).
  assert (0 ≤ size mod 4294967296 < 4294967296) as Hm by (apply Z.mod_pos_bound; lia).
  assert (0 ≤ size / 4294967296 < 4294967296) as Hd.
  { split; [by apply Z.div_pos; lia|]. apply Z.div_lt_upper_bound; lia. }
  assert (render_conversion cstr (Conv [] Nothing None LONGLONG (chr "u"))
            [size mod 4294967296; size / 4294967296; 1] = Ret (decimal size, [1])) as E1.
  { transitivity (Ret (integer_text plain 0 None base_d None
      (u32 (size mod 4294967296) + 4294967296 * u32 (size / 4294967296)), [1])); [reflexivity|].
    rewrite !u32_id by (unfold is_u32; lia).
    replace (_ + _) with size by (pose proof (Z.div_mod size 4294967296); lia).
    by rewrite integer_text_plain. }
  assert (render_conversion cstr (Conv [] Nothing None INT (chr "s")) [1] = Ret (unit, [])) as E2.
  { transitivity (Ret (field plain 0
      (take (Z.to_nat (Z.min (len unit) (u32 (-1)))) unit), @nil Z)); [reflexivity|].
    change (u32 (-1)) with 4294967295. rewrite Z.min_l, Nat2Z.id, firstn_all by lia.
    unfold field. cbn [leftward plain]. by rewrite spaces_nonpos by lia. }
  cbn [percent_llu_s render]. rewrite E1, bind_Ret, bind_Ret, E2, bind_Ret, bind_Ret. cbn.
  by rewrite app_nil_r.
Qed.

(** [print_human_readable_size] prints the size divided by the largest power of 1024 that
    leaves a number below 1024 (or by 1024^4), and its unit. *)
Theorem print_size_correct l size :
  0 ≤ size < 18446744073709551616 → size ≠ 1 →
  ∃ new (k : nat), print_human_readable_size l size = Ret (l ++ new)
    ∧ concat (snd <$> new) = decimal (size / 1024 ^ Z.of_nat k) ++ chr " " :: factors !!! k
    ∧ (k ≤ 4)%nat ∧ ((k < 4)%nat → size / 1024 ^ Z.of_nat k < 1024)
    ∧ ((0 < k)%nat → 1 ≤ size / 1024 ^ Z.of_nat k).
Proof.
  intros Hs H1. unfold print_human_readable_size. destruct (Z.eqb_spec size 1); [done|].
  destruct (scale_spec factors size) as (k & E & Hk & Hlt & Hge); [lia|done|].
  rewrite E. set (q := size / _) in *. set (u := factors !!! k).
  assert (0 ≤ q < 18446744073709551616) as Hq.
  { split; [apply Z.div_pos; lia|]. apply Z.div_lt_upper_bound; [lia|].
    pose proof (Z.pow_pos_nonneg 1024 (Z.of_nat k)). nia. }
  assert (len u ≤ 5) as Hu.
  { cbn in Hk. unfold u. destruct k as [|[|[|[|[|k]]]]]; cbn; lia. }
  assert (len (decimal q ++ chr " " :: u) < 2147483648) as Hl.
  { rewrite length_app. cbn [length]. unfold decimal. destruct (q =? 0); [cbn; lia|].
    pose proof (number_loop base_d 0 q ltac:(cbn; lia) Hq) as [_ Hn].
    change (has 0 GROUP) with false in Hn. lia. }
  destruct (vhprintf_spec (λ s, if s =? 1 then Some u else None) percent_llu_s
    [q mod 4294967296; q / 4294967296; 1] (decimal q ++ chr " " :: u)) with (l := l) (handle := STDOUT)
    as (new & Ep & _ & Hc).
  - repeat constructor; cbn; done || lia.
  - cbn [plain_widths percent_llu_s]. split; [cbn; split; [lia|]; intros; lia|].
    destruct (render_conversion _ _ _) as [[t a]| |]; [|done..]. cbn. split; [split; [lia|]; intros; lia|].
    by repeat case_match.
  - by apply render_llu_s; [|lia].
  - done.
  - exists new, k. change (format_text percent_llu_s) with (chars "%llu %s") in Ep.
    unfold printf, vprintf. rewrite Ep. cbn in Hk. split_and!; [done|done|lia| |done].
    intros. apply Hlt. cbn. lia.
Qed.
