(* ===== verification/Console.v ===== *)
(** * The kernel's console (lib/kernel/console.c)

    Output to the screen and the serial port under a lock that its holder may take again:
    a counter holds how often.  The lock is the thread that holds it; [acquire_console]
    gives [None] when another thread has it and the caller goes to sleep.  Threads print
    with any interleaving of their characters; a thread can start to print while it prints,
    in a handler of an exception for instance. *)
From S2P Require Import Prelude Arithmetic FixedPoint Stdio Format StdioTheorems.

Record console := Console {
  holder : option nat; use_console_lock : bool; console_lock_depth : Z; write_cnt : Z;
  serial_out : list Z; vga_out : list Z;
}.
Definition boot_console : console := Console None false 0 0 [] [].
Definition with_lock (s : console) (h : option nat) (d : Z) : console :=
  Console h (use_console_lock s) d (write_cnt s) (serial_out s) (vga_out s).

Definition console_init (s : console) : console :=
  Console None true (console_lock_depth s) (write_cnt s) (serial_out s) (vga_out s).
Definition console_panic (s : console) : console :=
  Console (holder s) false (console_lock_depth s) (write_cnt s) (serial_out s) (vga_out s).

Definition held_by (s : console) (cur : nat) : bool := bool_decide (holder s = Some cur).
(** [intr]: the value of [intr_context ()]; [cur]: the running thread. *)
Definition acquire_console (intr : bool) (cur : nat) (s : console) : option console :=
  if negb intr && use_console_lock s then
    if held_by s cur then Some (with_lock s (holder s) (s32 (console_lock_depth s + 1)))
    else match holder s with
         | None => Some (with_lock s (Some cur) (console_lock_depth s))
         | Some _ => None
         end
  else Some s.
(** [lock_release] asserts that the lock is held by the caller. *)
Definition release_console (intr : bool) (cur : nat) (s : console) : res console :=
  if negb intr && use_console_lock s then
    if 0 <? console_lock_depth s then Ret (with_lock s (holder s) (console_lock_depth s - 1))
    else ASSERT (held_by s cur);; Ret (with_lock s None (console_lock_depth s))
  else Ret s.
Definition console_locked_by_current_thread (intr : bool) (cur : nat) (s : console) : bool :=
  intr || negb (use_console_lock s) || held_by s cur.
Definition putchar_have_lock (intr : bool) (cur : nat) (c : Z) (s : console) : res console :=
  ASSERT (console_locked_by_current_thread intr cur s);;
  Ret (Console (holder s) (use_console_lock s) (console_lock_depth s) (s64 (write_cnt s + 1))
         (serial_out s ++ [c]) (vga_out s ++ [c])).

Fixpoint putchars (intr : bool) (cur : nat) (cs : list Z) (s : console) : res console :=
  match cs with
  | [] => Ret s
  | c :: cs => s ← putchar_have_lock intr cur c s; putchars intr cur cs s
  end.
(** The calls when no other thread runs in between: [None] when the caller sleeps. *)
Definition putbuf (intr : bool) (cur : nat) (buffer : list Z) (s : console) : res (option console) :=
  match acquire_console intr cur s with
  | None => Ret None
  | Some s => s ← putchars intr cur buffer s; s ← release_console intr cur s; Ret (Some s)
  end.
Definition puts (intr : bool) (cur : nat) (s : list Z) (con : console) : res (option console) :=
  putbuf intr cur (s ++ [10]) con.
Definition putchar (intr : bool) (cur : nat) (c : Z) (s : console) : res (option console) :=
  putbuf intr cur [c mod 256] s.

(** [vprintf_helper] counts the characters. *)
Definition vprintf_helper (intr : bool) (cur : nat) (c : Z) (aux : res (Z * console)) : res (Z * console) :=
  '(char_cnt, s) ← aux;
  s ← putchar_have_lock intr cur (c mod 256) s;
  Ret (s32 (char_cnt + 1), s).
Definition vprintf (intr : bool) (cur : nat) (cstr : Z → option (list Z)) (format args : list Z) (s : console)
    : res (option (Z * console)) :=
  match acquire_console intr cur s with
  | None => Ret None
  | Some s =>
    aux ← __vprintf (vprintf_helper intr cur) cstr format args (Ret (0, s));
    '(char_cnt, s) ← aux;
    s ← release_console intr cur s;
    Ret (Some (char_cnt, s))
  end.

(** ** Threads that print *)

(** Calls inside calls fit an [int].  What each thread has still to print, the innermost call first; and the output since the
    lock was taken and the whole output before that, in the parts printed by one holder. *)
Record printers := Printers {
  con : console; calls : nat → list (list Z); session : list Z; sessions : list (nat * list Z);
}.
Definition set_calls (f : nat → list (list Z)) (t : nat) (l : list (list Z)) : nat → list (list Z) :=
  λ u, if decide (u = t) then l else f u.

Inductive print_step : printers → printers → Prop :=
| ps_start p t buf s : Z.of_nat (length (calls p t)) < 2147483647 → acquire_console false t (con p) = Some s →
    print_step p (Printers s (set_calls (calls p) t (buf :: calls p t)) (session p) (sessions p))
| ps_char p t c rest outer s : calls p t = (c :: rest) :: outer →
    putchar_have_lock false t c (con p) = Ret s →
    print_step p (Printers s (set_calls (calls p) t (rest :: outer)) (session p ++ [c]) (sessions p))
| ps_finish p t outer s : calls p t = [] :: outer → release_console false t (con p) = Ret s →
    print_step p (if decide (outer = [])
                  then Printers s (set_calls (calls p) t outer) [] (sessions p ++ [(t, session p)])
                  else Printers s (set_calls (calls p) t outer) (session p) (sessions p)).

(** Only the holder of the lock prints; the counter is the number of its calls inside the
    first; both devices have the parts of the output in turn. *)
Record print_ok (p : printers) : Prop := {
  po_use : use_console_lock (con p) = true;
  po_holder : ∀ t, calls p t ≠ [] ↔ holder (con p) = Some t;
  po_depth : console_lock_depth (con p)
             = match holder (con p) with Some t => Z.of_nat (length (calls p t)) - 1 | None => 0 end;
  po_session : holder (con p) = None → session p = [];
  po_vga : vga_out (con p) = concat (sessions p).*2 ++ session p;
  po_serial : serial_out (con p) = vga_out (con p);
}.

Lemma print_step_ok p p' : print_ok p → print_step p p' → print_ok p'.
Proof.
  intros [Hu Hh Hd Hs Hv Hr]. destruct 1 as [p t buf s Hn E|p t c rest outer s Hc E|p t outer s Hc E].
  - unfold acquire_console, held_by in E. rewrite Hu in E. cbn [negb andb] in E. case_bool_decide as Ht.
    + injection E as <-. rewrite Ht in Hd. split; cbn; try done; try (by rewrite ?Ht).
      * intros u. unfold set_calls. rewrite <- Hh. case_decide as Eu; [subst u|done]. rewrite Hh, Ht. by split.
      * rewrite Ht. unfold set_calls. rewrite decide_True by done. cbn [length].
        rewrite Hd, s32_id by (unfold is_s32; lia). lia.
    + destruct (holder (con p)) as [h|] eqn:Eh; [done|]. injection E as <-. split; cbn; try done.
      * intros u. unfold set_calls. case_decide as Eu; [subst u; by split|]. rewrite Hh. split; [done|congruence].
      * unfold set_calls. rewrite decide_True, Hd by done. cbn [length].
        assert (calls p t = []) as -> by (destruct (calls p t) eqn:Ec; [done|]; assert (calls p t ≠ []) as Hx by congruence;
          apply Hh in Hx; congruence). done.
  - assert (Ht : holder (con p) = Some t) by (apply Hh; by rewrite Hc).
    unfold putchar_have_lock in E. bind_inv E. injection E as <-. split; cbn; try done.
    + intros u. unfold set_calls. case_decide as Eu; [subst u; by split|]. apply Hh.
    + rewrite Hd, Ht, Hc. unfold set_calls. by rewrite decide_True by done.
    + by rewrite Ht.
    + by rewrite Hv, app_assoc.
    + by rewrite Hr.
  - assert (Ht : holder (con p) = Some t) by (apply Hh; by rewrite Hc).
    rewrite Ht, Hc in Hd. cbn [length] in Hd. unfold release_console, held_by in E. rewrite Hu, Ht, bool_decide_true in E by done.
    cbn [negb andb] in E. destruct (Z.ltb_spec 0 (console_lock_depth (con p))) as [Hlt|Hle].
    + injection E as <-. rewrite decide_False by (destruct outer; [cbn in Hd; lia|done]).
      split; cbn; try done; try (by rewrite ?Ht).
      * intros u. unfold set_calls. case_decide as Eu; [subst u|by rewrite Hh, Ht].
        split; [done|]. intros _. destruct outer; [cbn in Hd; lia|done].
      * unfold set_calls. rewrite decide_True by done. lia.
    + cbn in E. injection E as <-. assert (outer = []) as -> by (destruct outer; [done|cbn in Hd; lia]).
      rewrite decide_True by done. split; cbn; try done.
      * intros u. unfold set_calls. case_decide as Eu; [by subst u|]. rewrite Hh, Ht. split; congruence.
      * rewrite Hv, fmap_app, concat_app. cbn. by rewrite !app_nil_r.
Qed.

Definition boot_printers : printers := Printers (console_init boot_console) (λ _, []) [] [].
Lemma boot_print_ok : print_ok boot_printers.
Proof. by split. Qed.

(** ** Theorems *)

(** In every state that threads printing with any interleaving reach, the output of the screen
    and of the serial port is the same, and it is made of parts that each come from one thread,
    from taking the lock to giving it back: output is never mixed.  A thread in the middle of a
    call can always go on: neither the assertion of [putchar_have_lock] nor that of
    [lock_release] fails. *)
Theorem console_not_mixed p :
  rtc print_step boot_printers p →
  vga_out (con p) = concat (sessions p).*2 ++ session p ∧ serial_out (con p) = vga_out (con p)
  ∧ (∀ t u, calls p t ≠ [] → calls p u ≠ [] → t = u)
  ∧ ∀ t buf outer, calls p t = buf :: outer →
      match buf with
      | c :: rest => ∃ s, putchar_have_lock false t c (con p) = Ret s
      | [] => ∃ s, release_console false t (con p) = Ret s
      end.
Proof.
  intros H. assert (Hok : print_ok p).
  { pose proof boot_print_ok as Hboot. revert Hboot. induction H as [|p1 p2 p3 H12 _ IH]; [done|]. intros Hok. by eapply IH, print_step_ok. }
  destruct Hok as [Hu Hh _ _ Hv Hr]. split_and!; [done|done| |].
  - intros t u Ht%Hh Hx%Hh. congruence.
  - intros t buf outer Hc. assert (Ht : holder (con p) = Some t) by (apply Hh; by rewrite Hc).
    destruct buf as [|c rest]; unfold release_console, putchar_have_lock, console_locked_by_current_thread, held_by;
      rewrite Hu, Ht, bool_decide_true by done; cbn; [|by eexists].
    destruct (0 <? _); by eexists.
Qed.

(** The state after printing [out] by the holder of the lock or in an interrupt. *)
Definition printed (s : console) (out : list Z) : console :=
  Console (holder s) (use_console_lock s) (console_lock_depth s)
    (s64 (write_cnt s + Z.of_nat (length out))) (serial_out s ++ out) (vga_out s ++ out).

Lemma s64_add z k : s64 (s64 z + k) = s64 (z + k).
Proof.
  unfold s64 at 1 3. assert (E : u64 (s64 z + k) = u64 (z + k)); [|by rewrite E].
  unfold s64, u64. destruct (Z.ltb_spec (z mod 18446744073709551616) 9223372036854775808).
  - by rewrite Zplus_mod_idemp_l.
  - replace (z mod 18446744073709551616 - 18446744073709551616 + k) with (z mod 18446744073709551616 + k + (-1) * 18446744073709551616) by lia.
    by rewrite Z.mod_add, Zplus_mod_idemp_l.
Qed.
Lemma vprintf_chars intr cur out : ∀ n s,
  console_locked_by_current_thread intr cur s = true → is_s64 (write_cnt s) → Forall (λ c, 0 ≤ c < 256) out →
  0 ≤ n → n + Z.of_nat (length out) < 2147483648 →
  output_chars (vprintf_helper intr cur) out (Ret (n, s)) = Ret (n + Z.of_nat (length out), printed s out).
Proof.
  induction out as [|c out IH]; intros n s Hl Hw Hc Hn Hlen; cbn [output_chars length].
  - rewrite Z.add_0_r. destruct s as [h u d w so vo]. unfold printed. cbn in *.
    by rewrite !app_nil_r, Z.add_0_r, s64_id.
  - apply Forall_cons in Hc as [Hc Hcs]. unfold vprintf_helper at 2. rewrite bind_Ret. unfold putchar_have_lock.
    rewrite ASSERT_true, !bind_Ret by done. cbn [length] in Hlen. rewrite s32_id by (unfold is_s32; lia).
    rewrite Z.mod_small by done. rewrite IH; [|done|apply s64_range|done|lia|lia].
    f_equal. f_equal; [lia|]. unfold printed. cbn. rewrite <- !app_assoc. f_equal.
    rewrite s64_add. f_equal. lia.
Qed.

(** [printf] in the kernel prints what the format says to both devices and returns the number
    of characters, if the lock is free or the caller's own; the lock is afterwards as it was.
    While another thread has it, nothing is printed. *)
Theorem kernel_vprintf_correct intr cur cstr items args out s :
  Forall wf_item items → plain_widths cstr items args → render cstr items args = Ret out →
  Forall (λ c, 0 ≤ c < 256) out → Z.of_nat (length out) < 2147483648 →
  is_s64 (write_cnt s) → 0 ≤ console_lock_depth s < 2147483647 →
  (holder s = None → console_lock_depth s = 0) →
  vprintf intr cur cstr (format_text items) args s =
    Ret (if negb intr && use_console_lock s && bool_decide (holder s ≠ None ∧ holder s ≠ Some cur) then None
         else Some (Z.of_nat (length out), printed s out)).
Proof.
  intros Hwf Hp Hr Hb Hlen Hw Hd Hfree. unfold vprintf, acquire_console, release_console.
  destruct (negb intr && use_console_lock s) eqn:Hlock; cbn [andb].
  2: { rewrite (vprintf_spec cstr items args out Hwf Hp Hr), bind_Ret.
       rewrite vprintf_chars, bind_Ret by (try done; unfold console_locked_by_current_thread;
         destruct intr, (use_console_lock s); done).
       cbn [use_console_lock printed]. by rewrite Hlock. }
  assert (intr = false ∧ use_console_lock s = true) as [-> Hu] by (by destruct intr, (use_console_lock s)).
  unfold held_by. case_bool_decide as Hh.
  - rewrite bool_decide_false by naive_solver. rewrite (vprintf_spec cstr items args out Hwf Hp Hr), bind_Ret.
    rewrite vprintf_chars, bind_Ret by (try done; unfold console_locked_by_current_thread, held_by; cbn;
      rewrite Hh, bool_decide_true by done; by rewrite orb_true_r).
    cbn [use_console_lock console_lock_depth holder printed with_lock]. rewrite Hu. cbn [negb andb].
    rewrite s32_id by (unfold is_s32; lia). destruct (Z.ltb_spec 0 (console_lock_depth s + 1)); [|lia].
    rewrite bind_Ret. do 3 f_equal. unfold with_lock, printed. cbn. f_equal. lia.
  - destruct (holder s) as [h|] eqn:Eh.
    { rewrite bool_decide_true; [done|]. split; [done|congruence]. }
    rewrite bool_decide_false by naive_solver. rewrite (vprintf_spec cstr items args out Hwf Hp Hr), bind_Ret.
    rewrite vprintf_chars, bind_Ret by (try done; unfold console_locked_by_current_thread, held_by; cbn;
      rewrite bool_decide_true by done; by rewrite orb_true_r).
    cbn [use_console_lock console_lock_depth holder printed with_lock]. rewrite Hu, Hfree by done. cbn [negb andb].
    unfold held_by. cbn. rewrite bool_decide_true by done. cbn. do 3 f_equal. unfold with_lock, printed. cbn.
    by rewrite Eh, Hfree.
Qed.
