(* ===== verification/Ustar.v ===== *)
(** * Tar archives (lib/ustar.c)

    Headers of ustar archives: composing one and parsing it back.  The header is 512 bytes
    of memory; file names and literals are the lists of their characters, as in [Stdio]. *)
From Stdlib Require Import (notations) Ascii String.
From S2P Require Import Prelude Mem CString FixedPoint Sorting Stdio Format StdioTheorems.

Definition USTAR_REGULAR : Z := chr "0".
Definition USTAR_DIRECTORY : Z := chr "5".
Definition USTAR_EOF : Z := -1.
Definition USTAR_HEADER_SIZE : Z := 512.

(** Offset and size of the fields of [struct ustar_header] that the code uses. *)
Record field_at := Field { ofs : Z; fsize : Z }.
Definition h_name := Field 0 100.
Definition h_mode := Field 100 8.
Definition h_uid := Field 108 8.
Definition h_gid := Field 116 8.
Definition h_size := Field 124 12.
Definition h_mtime := Field 136 12.
Definition h_chksum := Field 148 8.
Definition h_typeflag := Field 156 1.
Definition h_magic := Field 257 6.
Definition h_version := Field 263 2.
Definition h_uname := Field 265 32.
Definition h_gname := Field 297 32.
Definition h_prefix := Field 345 155.

(** [for (i = 0; i < USTAR_HEADER_SIZE; i++)], from [i] on for [n] bytes. *)
Fixpoint chksum_loop (n : nat) (m : mem) (h i sum : Z) : Z :=
  match n with
  | O => sum
  | S n =>
    let in_chksum_field := (h_chksum.(ofs) <=? i) && (i <? h_chksum.(ofs) + h_chksum.(fsize)) in
    chksum_loop n m h (i + 1) (u32 (sum + (if in_chksum_field then 32 else load8 m (h + i))))
  end.
Definition calculate_chksum (m : mem) (h : Z) : Z :=
  chksum_loop (Z.to_nat USTAR_HEADER_SIZE) m h 0 0.

(** [!memcmp (s, literal, n)] for a literal of [n] characters without its terminator: the
    comparison stops at the terminator of a shorter [s]. *)
Fixpoint starts_with (lit s : list Z) : bool :=
  match lit, s with
  | [], _ => true
  | c :: lit, d :: s => (c =? d) && starts_with lit s
  | _ :: _, [] => false
  end.
(** [strchr (s, '/') + 1], on a string that has the character. *)
Fixpoint after_slash (s : list Z) : list Z :=
  match s with
  | [] => []
  | c :: s => if c =? chr "/" then s else after_slash s
  end.
Definition antisocial (s : list Z) : bool :=
  (peek s =? chr "/") || starts_with (chars "./") s || starts_with (chars "../") s.
Fixpoint strip_loop (fuel : nat) (s : list Z) : res (list Z) :=
  match fuel with
  | O => Stuck
  | S fuel => if antisocial s then strip_loop fuel (after_slash s) else Ret s
  end.
Definition strip_antisocial_prefixes (file_name : list Z) : res (list Z) :=
  file_name ← strip_loop (S (length file_name)) file_name;
  Ret (if bool_decide (file_name = []) || bool_decide (file_name = chars "..")
       then chars "." else file_name).

(** [strlcpy] from a string that is not part of the memory. *)
Definition put_string (m : mem) (h : Z) (f : field_at) (s : list Z) : mem :=
  store_chars m (h + f.(ofs)) (take (Z.to_nat (f.(fsize) - 1)) s ++ [0]).
Definition put_number (m : mem) (h : Z) (f : field_at) (format : list Z) (v : Z) : res mem :=
  '(_, m) ← snprintf (λ _, None) m (h + f.(ofs)) f.(fsize) format [v]; Ret m.

Definition ustar_make_header (l : log) (m : mem) (file_name : list Z) (type sz h : Z)
    : res (bool * log * mem) :=
  ASSERT ((type =? USTAR_REGULAR) || (type =? USTAR_DIRECTORY));;
  file_name ← strip_antisocial_prefixes file_name;
  if 99 <? Z.of_nat (length file_name) then
    '(_, l) ← printf (λ a, if a =? 1 then Some file_name else None) l
                (chars "%s: file name too long
") [1];
    Ret (false, l, m)
  else
  '(_, m) ← memset m h 0 USTAR_HEADER_SIZE;
  let m := put_string m h h_name file_name in
  m ← put_number m h h_mode (chars "%07o") (if type =? USTAR_REGULAR then 420 else 493);
  let m := put_string m h h_uid (chars "0000000") in
  let m := put_string m h h_gid (chars "0000000") in
  m ← put_number m h h_size (chars "%011o") sz;
  m ← put_number m h h_mtime (chars "%011o") 1136102400;
  let m := store8 m (h + h_typeflag.(ofs)) type in
  let m := put_string m h h_magic (chars "ustar") in
  let m := store8 (store8 m (h + h_version.(ofs) + 1) 48) (h + h_version.(ofs)) 48 in
  let m := put_string m h h_gname (chars "root") in
  let m := put_string m h h_uname (chars "root") in
  m ← put_number m h h_chksum (chars "%07o") (calculate_chksum m h);
  Ret (true, l, m).

(** The value of an octal field, [None] for failure: the next byte is at [s], [ofs] bytes
    were read and [n] are left. *)
Fixpoint octal_loop (n : nat) (m : mem) (s ofs value : Z) : option Z :=
  match n with
  | O => None
  | S n =>
    let c := load8 m s in
    if (48 <=? c) && (c <=? 55) then
      if 4294967295 / 8 <? value then None
      else octal_loop n m (s + 1) (ofs + 1) (u32 (c - 48 + value * 8))
    else if (c =? 32) || (c =? 0) then (if 0 <? ofs then Some value else None)
    else None
  end.
Definition parse_octal_field (m : mem) (s size : Z) : option Z :=
  octal_loop (Z.to_nat size) m s 0 0.

Fixpoint is_all_zeros (m : mem) (block : Z) (cnt : nat) : bool :=
  match cnt with
  | O => true
  | S cnt => if load8 m block =? 0 then is_all_zeros m (block + 1) cnt else false
  end.

(** The bytes at [a] up to a terminator, at most [n]. *)
Fixpoint string_at (m : mem) (a : Z) (n : nat) : list Z :=
  match n with
  | O => []
  | S n => if load8 m a =? 0 then [] else load8 m a :: string_at m (a + 1) n
  end.
(** [!memcmp (a, literal, n)] of memory and a literal with its terminator. *)
Fixpoint bytes_are (m : mem) (a : Z) (bs : list Z) : bool :=
  match bs with
  | [] => true
  | b :: bs => (load8 m a =? b) && bytes_are m (a + 1) bs
  end.

Inductive parsed := End | Entry (file_name : list Z) (type size : Z) | Error (message : list Z).

Definition ustar_parse_header (m : mem) (h : Z) : res parsed :=
  if is_all_zeros m h (Z.to_nat USTAR_HEADER_SIZE) then Ret End
  else if negb (bytes_are m (h + h_magic.(ofs)) (chars "ustar" ++ [0])) then
    Ret (Error (chars "not a ustar archive"))
  else if negb (load8 m (h + h_version.(ofs)) =? 48) || negb (load8 m (h + h_version.(ofs) + 1) =? 48)
  then Ret (Error (chars "invalid ustar version"))
  else match parse_octal_field m (h + h_chksum.(ofs)) h_chksum.(fsize) with
  | None => Ret (Error (chars "corrupt chksum field"))
  | Some sum =>
    if negb (sum =? calculate_chksum m h) then Ret (Error (chars "checksum mismatch"))
    else if negb (load8 m (h + h_name.(ofs) + h_name.(fsize) - 1) =? 0)
            || negb (load8 m (h + h_prefix.(ofs)) =? 0)
    then Ret (Error (chars "file name too long"))
    else
    let type := load8 m (h + h_typeflag.(ofs)) in
    if negb (type =? USTAR_REGULAR) && negb (type =? USTAR_DIRECTORY) then
      Ret (Error (chars "unimplemented file type"))
    else
    let finish (size_ul : Z) :=
      file_name ← strip_antisocial_prefixes (string_at m (h + h_name.(ofs)) (Z.to_nat h_name.(fsize)));
      Ret (Entry file_name type size_ul) in
    if type =? USTAR_REGULAR then
      match parse_octal_field m (h + h_size.(ofs)) h_size.(fsize) with
      | None => Ret (Error (chars "corrupt file size field"))
      | Some size_ul =>
        if 2147483647 <? size_ul then Ret (Error (chars "file too large")) else finish size_ul
      end
    else finish 0
  end.

Example ustar_example :
  ('(_, _, m) ← ustar_make_header [] ∅ (chars "../a.txt") USTAR_REGULAR 1000 4096;
   ustar_parse_header m 4096) = Ret (Entry (chars "a.txt") USTAR_REGULAR 1000).
Proof. vm_compute. reflexivity. Qed.
Example ustar_negative_size :
  ('(_, _, m) ← ustar_make_header [] ∅ (chars "a") USTAR_REGULAR (-1) 4096;
   ustar_parse_header m 4096) = Ret (Error (chars "file too large")).
Proof. vm_compute. reflexivity. Qed.

(** ** File names *)
Lemma after_slash_shorter s : antisocial s = true → (length (after_slash s) < length s)%nat.
Proof.
  destruct s as [|c s]; [done|]. intros _. clear. revert c.
  induction s as [|d s IH]; intros c; cbn; [destruct (_ =? _); cbn; lia|].
  specialize (IH d). destruct (c =? chr "/"); cbn in *; [lia|]. lia.
Qed.

Lemma strip_loop_spec fuel : ∀ s, (length s < fuel)%nat →
  ∃ s' pre, strip_loop fuel s = Ret s' ∧ antisocial s' = false ∧ s = pre ++ s'.
Proof.
  induction fuel as [|fuel IH]; intros s Hs; [lia|]. cbn [strip_loop].
  destruct (antisocial s) eqn:Ha; [|by exists s, []].
  pose proof (after_slash_shorter s Ha). destruct (IH (after_slash s)) as (s' & pre & E & Hn & Hp); [lia|].
  assert (∃ q, s = q ++ after_slash s) as [q Hq].
  { clear. induction s as [|c s [q IH]]; [by exists []|]. cbn. destruct (c =? chr "/"); [by exists [c]|].
    exists (c :: q). cbn. by f_equal. }
  exists s', (q ++ pre). split_and!; [done|done|]. rewrite <- app_assoc, <- Hp. exact Hq.
Qed.

(** Stripping returns; what it returns is safe, is not stripped further, and is part of the
    name or a dot. *)
Lemma strip_spec s :
  ∃ s', strip_antisocial_prefixes s = Ret s' ∧ antisocial s' = false ∧ s' ≠ [] ∧ s' ≠ chars ".."
    ∧ (s' = chars "." ∨ ∃ pre, s = pre ++ s').
Proof.
  unfold strip_antisocial_prefixes.
  destruct (strip_loop_spec (S (length s)) s) as (s' & pre & -> & Hn & Hp); [lia|]. rewrite bind_Ret.
  destruct (bool_decide_reflect (s' = [])), (bool_decide_reflect (s' = chars ".."));
    cbn [orb]; eexists; (split; [reflexivity|]); try (split_and!; [done|done|done|by left]).
  split_and!; [done|done|done|right; eauto].
Qed.

Lemma strip_safe s :
  antisocial s = false → s ≠ [] → s ≠ chars ".." → strip_antisocial_prefixes s = Ret s.
Proof.
  intros Ha H1 H2. unfold strip_antisocial_prefixes. cbn [strip_loop]. rewrite Ha, bind_Ret.
  by rewrite !bool_decide_eq_false_2.
Qed.

(** ** Bytes in memory *)
Definition holds (m : mem) (a : Z) (cs : list Z) : Prop :=
  ∀ i c, cs !! i = Some c → load8 m (a + Z.of_nat i) = c.
Definition bytes (cs : list Z) : Prop := Forall (λ c, 0 ≤ c < 256) cs.

Lemma holds_same m a cs : bytes cs → holds (store_chars m a cs) a cs.
Proof.
  intros Hb i c Hi. rewrite (load8_store_chars_in _ _ _ _ c Hi). apply Z.mod_small.
  unfold bytes in Hb. rewrite Forall_forall in Hb. apply Hb. by apply list_elem_of_lookup_2 in Hi.
Qed.
Lemma holds_other m a cs b cs' :
  b + len cs' ≤ a ∨ a + len cs ≤ b → holds m b cs' → holds (store_chars m a cs) b cs'.
Proof.
  intros Hd H i c Hi. rewrite load8_store_chars_out; [by apply H|].
  apply lookup_lt_Some in Hi. lia.
Qed.
Lemma holds_cons m a c cs : holds m a (c :: cs) → load8 m a = c ∧ holds m (a + 1) cs.
Proof.
  intros H. split; [rewrite <- (Z.add_0_r a); by apply (H 0%nat)|].
  intros i d Hi. rewrite <- (H (S i) d Hi). f_equal. lia.
Qed.
Lemma holds_zeros m a (n : nat) : holds (fill m a 0 n) a (replicate n 0).
Proof.
  intros i c Hi. apply lookup_replicate in Hi as [-> Hi]. rewrite load8_fill, decide_True by lia. done.
Qed.
Lemma holds_sub m a cs pre cs' : holds m a (pre ++ cs ++ cs') → holds m (a + len pre) cs.
Proof.
  intros H i c Hi. rewrite <- Z.add_assoc, <- Nat2Z.inj_add. apply H.
  rewrite lookup_app_r by lia. rewrite Nat.add_comm, Nat.add_sub.
  by apply lookup_app_l_Some.
Qed.

Lemma bytes_are_holds cs : ∀ m a, holds m a cs → bytes_are m a cs = true.
Proof.
  induction cs as [|c cs IH]; intros m a H; [done|]. apply holds_cons in H as [Hc H].
  cbn. rewrite Hc, Z.eqb_refl. by apply IH.
Qed.

Lemma string_at_holds cs : ∀ m a n,
  holds m a (cs ++ [0]) → Forall (λ c, c ≠ 0) cs → (length cs < n)%nat → string_at m a n = cs.
Proof.
  induction cs as [|c cs IH]; intros m a n H Hz Hn; (destruct n as [|n]; [cbn in Hn; lia|]);
    cbn [app] in H; apply holds_cons in H as [Hc H]; cbn [string_at]; rewrite Hc; [done|].
  inversion Hz; subst. destruct (Z.eqb_spec (load8 m a) 0); [done|].
  f_equal. apply IH; [done|done|cbn in Hn; lia].
Qed.

Lemma all_zeros_false m b a n :
  load8 m a ≠ 0 → b ≤ a < b + Z.of_nat n → is_all_zeros m b n = false.
Proof.
  revert b. induction n as [|n IH]; intros b Ha Hr; [lia|]. cbn.
  destruct (Z.eqb_spec (load8 m b) 0); [|done]. apply IH; [done|].
  assert (a ≠ b) by congruence. lia.
Qed.

(** ** Octal fields *)
Definition octal (k v : Z) : list Z :=
  zero_digits (k - len (at_least 1 (number base_o false v))) ++ at_least 1 (number base_o false v).

Lemma pos_value_app b v ds ds' : pos_value b v (ds ++ ds') = pos_value b (pos_value b v ds) ds'.
Proof. apply fold_left_app. Qed.
Lemma pos_value_zeros b n : pos_value b 0 (replicate n 48) = 0.
Proof. induction n as [|n IH]; [done|]. cbn. by replace (0 * b + (48 - 48)) with 0 by lia. Qed.

Lemma number_length b n v :
  low_base b → 0 ≤ v < b.(base) ^ Z.of_nat n → (n ≤ 64)%nat → (length (number b false v) ≤ n)%nat.
Proof.
  intros [Hb _] Hv Hn. unfold number. rewrite (radix_enough b.(base) ltac:(lia) n 64) by lia.
  assert (∀ ds i, length (digit_text b false i ds) = length ds) as H.
  { induction ds as [|d ds IH]; intros i; cbn; [done|]. rewrite length_app, IH. cbn. lia. }
  rewrite H. apply radix_length.
Qed.

Lemma octal_spec (k : nat) v :
  (1 ≤ k ≤ 11)%nat → 0 ≤ v < 8 ^ Z.of_nat k →
  length (octal (Z.of_nat k) v) = k ∧ pos_value 8 0 (octal (Z.of_nat k) v) = v
  ∧ Forall (λ c, 48 ≤ c < 56) (octal (Z.of_nat k) v).
Proof.
  intros Hk Hv.
  assert (8 ^ Z.of_nat k ≤ 8 ^ 11) as Hp by (apply Z.pow_le_mono_r; lia).
  change (8 ^ 11) with 8589934592 in Hp.
  pose proof (number_length base_o k v low_base_o Hv ltac:(lia)) as Hl.
  destruct (number_text base_o v low_base_o ltac:(lia)) as (Hval & Hd & _).
  unfold octal. set (t := at_least 1 _).
  assert (len t = Z.max (len (number base_o false v)) 1) as Ht by apply at_least_length.
  unfold t, at_least, zero_digits in *. split_and!.
  - rewrite !length_app, !length_replicate in *. lia.
  - by rewrite !pos_value_app, !pos_value_zeros.
  - rewrite !Forall_app. split_and!; [by apply Forall_replicate; lia..|done].
Qed.

Lemma octal_loop_spec ds : ∀ m n s ofs v,
  holds m s (ds ++ [0]) → Forall (λ c, 48 ≤ c < 56) ds → 0 ≤ v → 0 ≤ ofs → 0 < ofs + len ds →
  pos_value 8 v ds < 4294967296 → (length ds < n)%nat →
  octal_loop n m s ofs v = Some (pos_value 8 v ds).
Proof.
  induction ds as [|c ds IH]; intros m n s ofs v H Hd Hv Ho Hp Hlt Hn;
    (destruct n as [|n]; [cbn in Hn; lia|]); cbn [app] in H; apply holds_cons in H as [Hc H];
    cbn [octal_loop]; rewrite Hc.
  - change ((48 <=? 0) && (0 <=? 55)) with false. change ((0 =? 32) || (0 =? 0)) with true. cbn iota.
    by destruct (Z.ltb_spec 0 ofs); [|cbn in Hp; lia].
  - inversion Hd as [|? ? Hc' Hd']; subst. set (c := load8 m s) in *.
    destruct (Z.leb_spec 48 c), (Z.leb_spec c 55); try lia. cbn [andb].
    change (pos_value 8 v (c :: ds)) with (pos_value 8 (v * 8 + (c - 48)) ds) in *.
    assert (∀ ds v, Forall (λ c, 48 ≤ c < 56) ds → 0 ≤ v → v ≤ pos_value 8 v ds) as Hmono.
    { clear. induction ds as [|c ds IH]; intros v Hd Hv; [done|]. inversion Hd; subst.
      change (pos_value 8 v (c :: ds)) with (pos_value 8 (v * 8 + (c - 48)) ds).
      etrans; [|apply IH]; [lia|done|lia]. }
    pose proof (Hmono ds (v * 8 + (c - 48)) Hd' ltac:(lia)).
    change (4294967295 / 8) with 536870911. destruct (Z.ltb_spec 536870911 v); [lia|].
    rewrite u32_id by (unfold is_u32; lia). replace (c - 48 + v * 8) with (v * 8 + (c - 48)) by lia.
    apply IH; [done|done|lia|lia|lia|done|cbn in Hn; lia].
Qed.

Lemma parse_octal (k : nat) m s v :
  (1 ≤ k ≤ 11)%nat → 0 ≤ v < 8 ^ Z.of_nat k → v < 4294967296 →
  holds m s (octal (Z.of_nat k) v ++ [0]) → parse_octal_field m s (Z.of_nat k + 1) = Some v.
Proof.
  intros Hk Hv Hlt H. destruct (octal_spec k v Hk Hv) as (Hl & Hval & Hd).
  unfold parse_octal_field. rewrite (octal_loop_spec (octal (Z.of_nat k) v)); [by rewrite Hval|done|done|lia..].
Qed.

(** [%0ko] prints the octal digits of the word, padded with zeros. *)
Definition percent_o (k : Z) : list item := [Convert (Conv [FZero] (Number k) None INT (chr "o"))].
Lemma put_number_spec (k : nat) m h f v :
  (1 ≤ k ≤ 11)%nat → 0 ≤ u32 v < 8 ^ Z.of_nat k → f.(fsize) = Z.of_nat k + 1 →
  put_number m h f (format_text (percent_o (Z.of_nat k))) v
  = Ret (store_chars m (h + f.(ofs)) (octal (Z.of_nat k) (u32 v) ++ [0])).
Proof.
  intros Hk Hv Hf. destruct (octal_spec k (u32 v) Hk Hv) as (Hl & _ & _).
  assert (render (λ _, None) (percent_o (Z.of_nat k)) [v] = Ret (octal (Z.of_nat k) (u32 v))) as Hr.
  { transitivity (Ret (integer_text (style_of [FZero] (Z.of_nat k <? 0) None) (Z.abs (Z.of_nat k)) None
      base_o None (u32 v) ++ [])); [reflexivity|].
    destruct (Z.ltb_spec (Z.of_nat k) 0); [lia|]. rewrite app_nil_r, Z.abs_eq by lia. f_equal.
    unfold octal. rewrite <- (Z.sub_0_r (Z.of_nat k)) at 2. reflexivity. }
  unfold put_number, snprintf. rewrite (vsnprintf_spec _ _ _ (octal (Z.of_nat k) (u32 v)));
    [..|done|lia|lia].
  - rewrite Hf. destruct (Z.ltb_spec 0 (Z.of_nat k + 1)); [|lia]. rewrite bind_Ret.
    by rewrite take_ge by lia.
  - repeat constructor; cbn; done || lia.
  - cbn. split; [split; [lia|]; intros; lia|]. by repeat case_match.
Qed.

(** ** The composed header *)

(** The header before its checksum. *)
Definition unsigned_header (m : mem) (h : Z) (file_name : list Z) (type sz : Z) : mem :=
  let m := fill m h 0 512 in
  let m := store_chars m (h + 0) (file_name ++ [0]) in
  let m := store_chars m (h + 100) (octal 7 (u32 (if type =? USTAR_REGULAR then 420 else 493)) ++ [0]) in
  let m := store_chars m (h + 108) (chars "0000000" ++ [0]) in
  let m := store_chars m (h + 116) (chars "0000000" ++ [0]) in
  let m := store_chars m (h + 124) (octal 11 (u32 sz) ++ [0]) in
  let m := store_chars m (h + 136) (octal 11 (u32 1136102400) ++ [0]) in
  let m := store_chars m (h + 156) [type] in
  let m := store_chars m (h + 257) (chars "ustar" ++ [0]) in
  let m := store_chars (store_chars m (h + 263 + 1) [48]) (h + 263) [48] in
  let m := store_chars m (h + 297) (chars "root" ++ [0]) in
  store_chars m (h + 265) (chars "root" ++ [0]).
Definition signed_header (m : mem) (h : Z) : mem :=
  store_chars m (h + 148) (octal 7 (calculate_chksum m h) ++ [0]).

Lemma chksum_loop_bound n : ∀ m h i sum,
  0 ≤ sum → 0 ≤ chksum_loop n m h i sum ≤ sum + 255 * Z.of_nat n.
Proof.
  induction n as [|n IH]; intros m h i sum Hs; cbn [chksum_loop]; [lia|].
  set (d := if _ && _ then 32 else _).
  assert (0 ≤ d ≤ 255) by (pose proof (load8_range m (h + i)); unfold d; destruct (_ && _); lia).
  specialize (IH m h (i + 1) (u32 (sum + d)) (proj1 (u32_range _))).
  assert (u32 (sum + d) ≤ sum + d) by (apply Z.mod_le; lia). lia.
Qed.
Lemma calculate_chksum_bound m h : 0 ≤ calculate_chksum m h < 2097152.
Proof.
  unfold calculate_chksum.
  assert (Z.of_nat (Z.to_nat USTAR_HEADER_SIZE) = 512) as E by done.
  revert E. generalize (Z.to_nat USTAR_HEADER_SIZE). intros n E.
  pose proof (chksum_loop_bound n m h 0 0 ltac:(lia)). lia.
Qed.

Lemma chksum_loop_same n m m' h : ∀ i sum,
  (∀ x, i ≤ x < i + Z.of_nat n → ¬ (148 ≤ x < 156) → load8 m' (h + x) = load8 m (h + x)) →
  chksum_loop n m' h i sum = chksum_loop n m h i sum.
Proof.
  induction n as [|n IH]; intros i sum Hx; [done|]. cbn [chksum_loop ofs fsize h_chksum].
  rewrite IH by (intros; apply Hx; lia). destruct (Z.leb_spec 148 i), (Z.ltb_spec i (148 + 8)); cbn [andb];
    try done; by rewrite Hx by lia.
Qed.

Lemma calculate_chksum_same m m' h :
  (∀ x, 0 ≤ x < 512 → ¬ (148 ≤ x < 156) → load8 m' (h + x) = load8 m (h + x)) →
  calculate_chksum m' h = calculate_chksum m h.
Proof.
  intros Hx. unfold calculate_chksum.
  assert (Z.of_nat (Z.to_nat USTAR_HEADER_SIZE) = 512) as E by done.
  revert E. generalize (Z.to_nat USTAR_HEADER_SIZE). intros n E. apply chksum_loop_same.
  intros x H. apply Hx. lia.
Qed.
#[local] Opaque calculate_chksum.

Lemma signed_header_chksum m h : calculate_chksum (signed_header m h) h = calculate_chksum m h.
Proof.
  apply calculate_chksum_same. intros x Hx Hn. apply load8_store_chars_out.
  pose proof (calculate_chksum_bound m h).
  destruct (octal_spec 7 (calculate_chksum m h)) as (Hl & _ & _); [lia|cbn; lia|].
  rewrite length_app. cbn [length]. change (Z.of_nat 7) with 7 in Hl. lia.
Qed.

Lemma make_header_eq l m file_name s type sz h :
  0 < h → strip_antisocial_prefixes file_name = Ret s → len s ≤ 99 →
  type = USTAR_REGULAR ∨ type = USTAR_DIRECTORY →
  ustar_make_header l m file_name type sz h
  = Ret (true, l, signed_header (unsigned_header m h s type sz) h).
Proof.
  intros Hh Hs Hl Ht. unfold ustar_make_header.
  assert ((type =? USTAR_REGULAR) || (type =? USTAR_DIRECTORY) = true) as -> by (by destruct Ht as [->| ->]).
  cbn [ASSERT]. rewrite bind_Ret, Hs, bind_Ret.
  destruct (Z.ltb_spec 99 (len s)); [lia|]. unfold memset.
  destruct (Z.eqb_spec h NULL) as [->|]; [unfold NULL in Hh; lia|]. cbn [negb orb].
  assert (0 ≤ u32 sz < 8 ^ Z.of_nat 11) as Hsz by (pose proof (u32_range sz) as [??]; cbn; lia).
  set (md := if type =? USTAR_REGULAR then 420 else 493).
  assert (0 ≤ u32 md < 8 ^ Z.of_nat 7) as Hmd by (unfold md; by destruct (type =? USTAR_REGULAR)).
  change (chars "%07o") with (format_text (percent_o (Z.of_nat 7))).
  change (chars "%011o") with (format_text (percent_o (Z.of_nat 11))).
  cbn [ASSERT]. rewrite !bind_Ret.
  rewrite (put_number_spec 7) by (done || lia). rewrite bind_Ret.
  rewrite (put_number_spec 11) by (done || lia). rewrite bind_Ret.
  rewrite (put_number_spec 11) by (done || lia). rewrite bind_Ret.
  set (M := put_string _ h h_uname _).
  assert (M = unsigned_header m h s type sz) as EM.
  { unfold M, unsigned_header. fold md. unfold put_string at 6. rewrite take_ge; [reflexivity|]. cbn. lia. }
  clearbody M. subst M. set (M := unsigned_header _ _ _ _ _). clearbody M.
  pose proof (calculate_chksum_bound M h).
  assert (u32 (calculate_chksum M h) = calculate_chksum M h) as E by (apply u32_id; unfold is_u32; lia).
  rewrite (put_number_spec 7); [by rewrite bind_Ret, E|lia|rewrite E; cbn; lia|done].
Qed.

(** *** What the writes leave in each field *)
Section Layout.
Variables (m : mem) (h type : Z) (nm md sz mt ck : list Z).
Hypothesis (Hnm : len nm ≤ 100) (Hmd : len md = 8) (Hsz : len sz = 12) (Hmt : len mt = 12) (Hck : len ck = 8).

Definition layout : mem :=
  let m := fill m h 0 512 in
  let m := store_chars m (h + 0) nm in
  let m := store_chars m (h + 100) md in
  let m := store_chars m (h + 108) (chars "0000000" ++ [0]) in
  let m := store_chars m (h + 116) (chars "0000000" ++ [0]) in
  let m := store_chars m (h + 124) sz in
  let m := store_chars m (h + 136) mt in
  let m := store_chars m (h + 156) [type] in
  let m := store_chars m (h + 257) (chars "ustar" ++ [0]) in
  let m := store_chars (store_chars m (h + 263 + 1) [48]) (h + 263) [48] in
  let m := store_chars m (h + 297) (chars "root" ++ [0]) in
  let m := store_chars m (h + 265) (chars "root" ++ [0]) in
  store_chars m (h + 148) ck.

(** The last write to a field decides it; the others are elsewhere. *)
Ltac layout_field :=
  unfold layout; cbn zeta;
  repeat first [apply holds_same; (assumption || by repeat (apply Forall_cons; split); [..|apply Forall_nil])
               |apply holds_other; [cbn; lia|]].
Ltac layout_byte := unfold layout; cbn zeta; rewrite !load8_store_chars_out by (cbn; lia); rewrite load8_fill.

Lemma layout_fields :
  bytes nm → bytes sz → bytes ck → 0 ≤ type < 256 →
  holds layout (h + 0) nm ∧ holds layout (h + 124) sz ∧ holds layout (h + 148) ck
  ∧ holds layout (h + 156) [type] ∧ holds layout (h + 257) (chars "ustar" ++ [0])
  ∧ holds layout (h + 263) [48] ∧ holds layout (h + 263 + 1) [48].
Proof using Hnm Hmd Hsz Hmt Hck.
  intros Bn Bs Bc Bt. assert (bytes [type]) by (by apply Forall_singleton).
  split_and!; layout_field.
Qed.

Lemma layout_rest :
  (∀ x, len nm ≤ x < 100 → load8 layout (h + x) = 0) ∧ load8 layout (h + 345) = 0
  ∧ (∀ a, ¬ (h ≤ a < h + 512) → load8 layout a = load8 m a).
Proof using Hnm Hmd Hsz Hmt Hck.
  split_and!; [intros x Hx; layout_byte; by rewrite decide_True by lia
              |layout_byte; by rewrite decide_True by lia
              |intros a Ha; layout_byte; by rewrite decide_False by lia].
Qed.
End Layout.

Lemma octal_field (k : nat) v :
  (1 ≤ k ≤ 11)%nat → 0 ≤ v < 8 ^ Z.of_nat k →
  len (octal (Z.of_nat k) v ++ [0]) = Z.of_nat k + 1 ∧ bytes (octal (Z.of_nat k) v ++ [0]).
Proof.
  intros Hk Hv. destruct (octal_spec k v Hk Hv) as (Hl & _ & Hd). split.
  - rewrite length_app. cbn [length]. lia.
  - apply Forall_app. split; [|by apply Forall_singleton].
    eapply Forall_impl; [exact Hd|]. cbn. lia.
Qed.

(** Parsing a header whose fields are in place. *)
Lemma parse_fields M h s type sz :
  len s ≤ 99 → Forall (λ c, 0 < c < 256) s → strip_antisocial_prefixes s = Ret s →
  type = USTAR_REGULAR ∨ type = USTAR_DIRECTORY → 0 ≤ sz < 2147483648 →
  holds M (h + 0) (s ++ [0]) → holds M (h + 124) (octal 11 sz ++ [0]) →
  holds M (h + 148) (octal 7 (calculate_chksum M h) ++ [0]) →
  load8 M (h + 156) = type → holds M (h + 257) (chars "ustar" ++ [0]) →
  load8 M (h + 263) = 48 → load8 M (h + 263 + 1) = 48 →
  (∀ x, len (s ++ [0]) ≤ x < 100 → load8 M (h + x) = 0) → load8 M (h + 345) = 0 →
  ustar_parse_header M h = Ret (Entry s type (if type =? USTAR_REGULAR then sz else 0)).
Proof.
  intros Hl Hs Hstrip Ht Hsz Fn Fs Fc Ft Fm Fv Fv' Rn Rp.
  pose proof (calculate_chksum_bound M h) as Hsum.
  pose proof (parse_octal 7 M (h + 148) (calculate_chksum M h) ltac:(lia) ltac:(cbn; lia) ltac:(lia) Fc) as Pc.
  pose proof (parse_octal 11 M (h + 124) sz ltac:(lia) ltac:(cbn; lia) ltac:(lia) Fs) as Ps.
  assert (load8 M (h + 0 + 100 - 1) = 0) as Hlast.
  { destruct (decide (len s = 99)) as [E|].
    - replace (h + 0 + 100 - 1) with (h + 0 + len s) by lia. apply Fn.
      rewrite lookup_app_r by lia. by rewrite Nat.sub_diag.
    - replace (h + 0 + 100 - 1) with (h + 99) by lia. apply Rn. rewrite length_app. cbn [length]. lia. }
  unfold ustar_parse_header. cbn [ofs fsize h_magic h_version h_chksum h_name h_prefix h_typeflag h_size].
  rewrite (all_zeros_false M h (h + 257)); [|apply holds_cons in Fm as [-> _]; done|unfold USTAR_HEADER_SIZE; lia].
  rewrite (bytes_are_holds _ _ _ Fm), Fv, Fv'.
  change (Z.of_nat 7 + 1) with 8 in Pc. change (Z.of_nat 11 + 1) with 12 in Ps.
  change (negb (48 =? 48) || negb (48 =? 48)) with false. cbn [negb].
  rewrite Pc, Z.eqb_refl, Hlast, Rp, Ft, Ps.
  rewrite (string_at_holds s _ _ _ Fn), Hstrip; [|eapply Forall_impl; [exact Hs|]; cbn; lia|lia].
  destruct (Z.ltb_spec 2147483647 sz); [lia|].
  by destruct Ht as [->| ->].
Qed.

Lemma strip_bytes file_name s :
  strip_antisocial_prefixes file_name = Ret s → Forall (λ c, 0 < c < 256) file_name →
  strip_antisocial_prefixes s = Ret s ∧ Forall (λ c, 0 < c < 256) s.
Proof.
  intros E Hf. destruct (strip_spec file_name) as (s' & E' & Ha & H1 & H2 & Hp).
  rewrite E in E'. injection E' as <-. split; [by apply strip_safe|].
  destruct Hp as [->|[pre ->]]; [by apply Forall_singleton|]. by apply Forall_app in Hf as [_ ?].
Qed.

Lemma strip_antisocial file_name s : strip_antisocial_prefixes file_name = Ret s → antisocial s = false.
Proof.
  intros E. destruct (strip_spec file_name) as (s' & E' & Ha & _). rewrite E in E'. by injection E' as <-.
Qed.

Lemma name_field s :
  Forall (λ c, 0 < c < 256) s → len s ≤ 99 → bytes (s ++ [0]) ∧ len (s ++ [0]) ≤ 100.
Proof.
  intros Hs Hl. split; [|rewrite length_app; cbn [length]; lia].
  apply Forall_app. split; [|by apply Forall_singleton].
  eapply Forall_impl; [exact Hs|]. cbn. lia.
Qed.
Lemma type_byte type : type = USTAR_REGULAR ∨ type = USTAR_DIRECTORY → 0 ≤ type < 256.
Proof. by intros [->| ->]. Qed.

Lemma parse_layout m h s type sz md mt sum :
  let M := layout m h type (s ++ [0]) md (octal 11 sz ++ [0]) mt (octal 7 sum ++ [0]) in
  len s ≤ 99 → Forall (λ c, 0 < c < 256) s → strip_antisocial_prefixes s = Ret s →
  len md = 8 → len mt = 12 → type = USTAR_REGULAR ∨ type = USTAR_DIRECTORY →
  0 ≤ sz < 2147483648 → 0 ≤ sum < 2097152 → calculate_chksum M h = sum →
  ustar_parse_header M h = Ret (Entry s type (if type =? USTAR_REGULAR then sz else 0)).
Proof.
  cbn zeta. intros Hl Hs Hstrip Hmd Hmt Ht Hsz Hsum Hck.
  destruct (octal_field 11 sz) as [Ls Bs]; [lia|cbn; lia|].
  destruct (octal_field 7 sum) as [Lc Bc]; [lia|cbn; lia|].
  destruct (name_field s Hs) as [Bn Ln]; [lia|].
  destruct (layout_rest m h type _ _ _ _ _ Ln Hmd Ls Hmt Lc) as (Rn & Rp & _).
  destruct (layout_fields m h type _ _ _ _ _ Ln Hmd Ls Hmt Lc Bn Bs Bc (type_byte _ Ht))
    as (Fn & Fs & Fc & Ft & Fm & Fv & Fv').
  change (Z.of_nat 11) with 11 in *. change (Z.of_nat 7) with 7 in *.
  revert Hck Rn Rp Fn Fs Fc Ft Fm Fv Fv'.
  generalize (layout m h type (s ++ [0]) md (octal 11 sz ++ [0]) mt (octal 7 sum ++ [0])).
  intros M Hck Rn Rp Fn Fs Fc Ft Fm Fv Fv'. subst sum.
  apply holds_cons in Ft as [Ft _]. apply holds_cons in Fv as [Fv _]. apply holds_cons in Fv' as [Fv' _].
  by apply parse_fields.
Qed.

(** The order of the writes is that of the layout. *)
Lemma signed_header_layout m h s type sz :
  0 ≤ sz < 2147483648 →
  ∃ md mt, len md = 8 ∧ len mt = 12
    ∧ signed_header (unsigned_header m h s type sz) h
      = layout m h type (s ++ [0]) md (octal 11 sz ++ [0]) mt
          (octal 7 (calculate_chksum (unsigned_header m h s type sz) h) ++ [0]).
Proof.
  intros Hsz. exists (octal 7 (u32 (if type =? USTAR_REGULAR then 420 else 493)) ++ [0]),
    (octal 11 (u32 1136102400) ++ [0]).
  split; [by destruct (type =? USTAR_REGULAR)|]. split; [done|].
  unfold signed_header. generalize (calculate_chksum (unsigned_header m h s type sz) h). intros sum.
  unfold unsigned_header. rewrite (u32_id sz) by (unfold is_u32; lia). reflexivity.
Qed.

(** ** Theorems *)

(** a header composed for a file or directory is parsed back to its type, its size (zero for
    a directory) and its name without dangerous prefixes, which is never absolute and never
    starts with [./] or [../]; no byte outside the 512 of the header changes. *)
Theorem ustar_roundtrip l m file_name s type sz h :
  0 < h → Forall (λ c, 0 < c < 256) file_name →
  strip_antisocial_prefixes file_name = Ret s → len s ≤ 99 →
  type = USTAR_REGULAR ∨ type = USTAR_DIRECTORY → 0 ≤ sz < 2147483648 →
  ∃ m', ustar_make_header l m file_name type sz h = Ret (true, l, m')
    ∧ ustar_parse_header m' h = Ret (Entry s type (if type =? USTAR_REGULAR then sz else 0))
    ∧ antisocial s = false
    ∧ (∀ a, ¬ (h ≤ a < h + 512) → load8 m' a = load8 m a).
Proof.
  intros Hh Hf Hs Hl Ht Hsz. eexists. split; [by apply make_header_eq|].
  destruct (strip_bytes file_name s Hs Hf) as [Hss Hsb].
  pose proof (signed_header_layout m h s type sz Hsz) as (md & mt & Hmd & Hmt & E).
  pose proof (calculate_chksum_bound (unsigned_header m h s type sz) h) as Hck.
  pose proof (signed_header_chksum (unsigned_header m h s type sz) h) as Hsame.
  rewrite E in *. clear E. revert Hck Hsame.
  generalize (calculate_chksum (unsigned_header m h s type sz) h). intros sum Hck Hsame.
  split_and!; [by apply parse_layout|by eapply strip_antisocial|].
  apply layout_rest; [by apply name_field|done|by apply (octal_field 11); cbn; lia|done
                     |by apply (octal_field 7); cbn; lia].
Qed.

Lemma ustar_roundtrip_witness :
  ∃ m', ustar_make_header [] ∅ (chars "/../x") USTAR_REGULAR 7 4096 = Ret (true, [], m')
    ∧ ustar_parse_header m' 4096 = Ret (Entry (chars "x") USTAR_REGULAR 7).
Proof.
  destruct (ustar_roundtrip [] ∅ (chars "/../x") (chars "x") USTAR_REGULAR 7 4096)
    as (m' & E & Ep & _).
  - lia.
  - cbn. by repeat (apply Forall_cons; split).
  - reflexivity.
  - cbn. lia.
  - by left.
  - lia.
  - exists m'. split; [exact E|exact Ep].
Defined.
