(* ===== verification/Segments.v ===== *)
(** * Segment descriptors and the task state (userprog/gdt.c, userprog/tss.c)

    The processor reads segment descriptors from a table of 64-bit words.  The kernel
    composes them from fields; [seg_base] and the other readers are the fields as the
    processor takes a descriptor apart. *)
From S2P Require Import Prelude Mem Vaddr Palloc Fault.

(** ** Bit fields *)
Lemma testbit_high a n k : 0 ≤ a < 2 ^ n → n ≤ k → Z.testbit a k = false.
Proof.
  intros Ha Hk. destruct (decide (0 ≤ n)); [|by rewrite Z.pow_neg_r in Ha by lia; lia].
  destruct (decide (a = 0)) as [->|]; [apply Z.bits_0|]. apply Z.bits_above_log2; [lia|].
  assert (Z.log2 a < n) by (apply Z.log2_lt_pow2; lia). lia.
Qed.
Lemma testbit_low a n k : a mod 2 ^ n = 0 → 0 ≤ k < n → Z.testbit a k = false.
Proof. intros Ha Hk. rewrite <- (Z.mod_pow2_bits_low a n k) by lia. by rewrite Ha, Z.bits_0. Qed.
(** Fields that do not overlap can be added. *)
Lemma lor_fields n a b : 0 ≤ n → a mod 2 ^ n = 0 → 0 ≤ b < 2 ^ n → Z.lor a b = a + b.
Proof.
  intros Hn Ha Hb. symmetry. rewrite <- Z.lxor_lor; [apply Z.add_nocarry_lxor|];
    (apply Z.bits_inj'; intros k Hk; rewrite Z.land_spec, Z.bits_0;
     destruct (decide (k < n)); [by rewrite (testbit_low a n k)|by rewrite (testbit_high b n k), andb_false_r by lia]).
Qed.
Lemma land_high f n k : 0 ≤ n → 0 ≤ k → Z.land f (Z.shiftl (Z.ones k) n) = f / 2 ^ n mod 2 ^ k * 2 ^ n.
Proof.
  intros Hn Hk. rewrite <- Z.shiftr_div_pow2, <- Z.land_ones, <- Z.shiftl_mul_pow2 by done.
  apply Z.bits_inj'. intros j Hj. rewrite Z.land_spec, !Z.shiftl_spec, Z.land_spec by done.
  destruct (decide (j < n)).
  - by rewrite !(Z.testbit_neg_r _ (j - n)), andb_false_r by lia.
  - rewrite Z.shiftr_spec by lia. by replace (j - n + n) with j by lia.
Qed.

(** ** gdt.c *)
(** [SEL_KCSEG] and [SEL_UCSEG] are in [Fault]. *)
Definition SEL_NULL : Z := 0.
Definition SEL_KDSEG : Z := 16.
Definition SEL_UDSEG : Z := 35.
Definition SEL_TSS : Z := 40.
Definition SEL_CNT : Z := 6.

Inductive seg_class := CLS_SYSTEM | CLS_CODE_DATA.
Inductive seg_granularity := GRAN_BYTE | GRAN_PAGE.
Definition class_bit (c : seg_class) : Z := match c with CLS_SYSTEM => 0 | CLS_CODE_DATA => 1 end.
Definition gran_bit (g : seg_granularity) : Z := match g with GRAN_BYTE => 0 | GRAN_PAGE => 1 end.

Definition make_seg_desc (base limit : Z) (class : seg_class) (type dpl : Z) (granularity : seg_granularity)
    : res Z :=
  ASSERT (limit <=? 1048575);;
  ASSERT ((0 <=? type) && (type <=? 15));;
  ASSERT ((0 <=? dpl) && (dpl <=? 3));;
  let e0 := Z.lor (Z.land limit 65535) (u32 (Z.shiftl base 16)) in
  let e1 := Z.lor (Z.lor (Z.lor (Z.lor (Z.lor (Z.lor (Z.lor (Z.lor
              (Z.land (Z.shiftr base 16) 255)
              (Z.shiftl type 8))
              (Z.shiftl (class_bit class) 12))
              (Z.shiftl dpl 13))
              (Z.shiftl 1 15))
              (Z.land limit 983040))
              (Z.shiftl 1 22))
              (Z.shiftl (gran_bit granularity) 23))
              (Z.land base 4278190080) in
  Ret (Z.lor e0 (Z.shiftl e1 32)).
Definition make_code_desc (dpl : Z) : res Z := make_seg_desc 0 1048575 CLS_CODE_DATA 10 dpl GRAN_PAGE.
Definition make_data_desc (dpl : Z) : res Z := make_seg_desc 0 1048575 CLS_CODE_DATA 2 dpl GRAN_PAGE.
Definition make_tss_desc (laddr : Z) : res Z := make_seg_desc laddr 103 CLS_SYSTEM 9 0 GRAN_BYTE.
Definition make_gdtr_operand (limit base : Z) : Z := Z.lor limit (Z.shiftl base 16).

(** ** tss.c *)

(** The members of [struct tss] that are used: their offsets. *)
Definition TSS_ESP0 : Z := 4.
Definition TSS_SS0 : Z := 8.
Definition TSS_BITMAP : Z := 102.
Definition store16 (m : mem) (a v : Z) : mem := store8 (store8 m a v) (a + 1) (v / 256).

Definition tss_get (tss : Z) : res Z := ASSERT (negb (tss =? NULL));; Ret tss.
(** [current]: the running thread, at the start of its page. *)
Definition tss_update (m : mem) (tss current : Z) : res mem :=
  ASSERT (negb (tss =? NULL));; Ret (store32 m (tss + TSS_ESP0) (u32 (current + PGSIZE))).
Definition tss_init (s : pstate) (current : Z) : res (Z * pstate) :=
  '(tss, s) ← palloc_get_page s (Z.lor PAL_ASSERT PAL_ZERO);
  let m := store16 (pmem s) (tss + TSS_SS0) SEL_KDSEG in
  let m := store16 m (tss + TSS_BITMAP) 57343 in
  m ← tss_update m tss current;
  Ret (tss, set_pmem s m).

(** The table, and the operands of [lgdt] and [ltr]; [gdt] is the table's address. *)
Definition gdt_init (gdt tss : Z) : res (list Z * Z * Z) :=
  kcode ← make_code_desc 0;
  kdata ← make_data_desc 0;
  ucode ← make_code_desc 3;
  udata ← make_data_desc 3;
  t ← tss_get tss;
  task ← make_tss_desc t;
  let table := <[Z.to_nat (SEL_TSS / 8) := task]> (<[Z.to_nat (SEL_UDSEG / 8) := udata]>
                 (<[Z.to_nat (SEL_UCSEG / 8) := ucode]> (<[Z.to_nat (SEL_KDSEG / 8) := kdata]>
                   (<[Z.to_nat (SEL_KCSEG / 8) := kcode]> (<[Z.to_nat (SEL_NULL / 8) := 0]>
                     (replicate (Z.to_nat SEL_CNT) 0)))))) in
  Ret (table, make_gdtr_operand (8 * SEL_CNT - 1) gdt, SEL_TSS).

(** ** How the processor reads a descriptor *)
Definition seg_base (d : Z) : Z := d / 2 ^ 16 mod 2 ^ 24 + d / 2 ^ 56 mod 2 ^ 8 * 2 ^ 24.
Definition seg_limit (d : Z) : Z := d mod 2 ^ 16 + d / 2 ^ 48 mod 2 ^ 4 * 2 ^ 16.
Definition seg_type (d : Z) : Z := d / 2 ^ 40 mod 2 ^ 4.
Definition seg_code_data (d : Z) : Z := d / 2 ^ 44 mod 2.
Definition seg_dpl (d : Z) : Z := d / 2 ^ 45 mod 2 ^ 2.
Definition seg_present (d : Z) : Z := d / 2 ^ 47 mod 2.
Definition seg_big (d : Z) : Z := d / 2 ^ 54 mod 2.
Definition seg_pages (d : Z) : Z := d / 2 ^ 55 mod 2.

(** The descriptor as a sum of its fields. *)
Definition seg_sum (base limit c type dpl g : Z) : Z :=
  limit mod 65536 + base mod 65536 * 65536
  + (base / 65536 mod 256 + type * 256 + c * 4096 + dpl * 8192 + 32768
     + limit / 65536 * 65536 + 4194304 + g * 8388608 + base / 16777216 * 16777216) * 4294967296.

(** The next field, [2 ^ n * b], above fields that are less than [2 ^ n]. *)
Lemma lor_next n a b : 0 ≤ n → 0 ≤ a < 2 ^ n → Z.lor a (b * 2 ^ n) = a + b * 2 ^ n.
Proof.
  intros Hn Ha. rewrite Z.lor_comm, (lor_fields n) by (done || apply Z.mod_mul; lia). lia.
Qed.

Lemma make_seg_desc_sum base limit class type dpl granularity :
  is_u32 base → 0 ≤ limit ≤ 1048575 → 0 ≤ type ≤ 15 → 0 ≤ dpl ≤ 3 →
  make_seg_desc base limit class type dpl granularity
  = Ret (seg_sum base limit (class_bit class) type dpl (gran_bit granularity)).
Proof.
  unfold is_u32. intros Hb Hl Ht Hd. unfold make_seg_desc.
  rewrite !ASSERT_true by (bool_cases; lia || done). f_equal.
  change 65535 with (Z.ones 16). change 255 with (Z.ones 8).
  change 983040 with (Z.shiftl (Z.ones 4) 16). change 4278190080 with (Z.shiftl (Z.ones 8) 24).
  rewrite !land_high, !Z.land_ones, Z.shiftr_div_pow2, !Z.shiftl_mul_pow2 by lia. unfold u32, seg_sum.
  assert (Hc : 0 ≤ class_bit class ≤ 1) by (destruct class; cbn; lia).
  assert (Hg : 0 ≤ gran_bit granularity ≤ 1) by (destruct granularity; cbn; lia).
  revert Hc Hg. generalize (class_bit class), (gran_bit granularity). intros c g Hc Hg.
  assert (Eb : (base * 2 ^ 16) mod 4294967296 = base mod 65536 * 2 ^ 16)
    by (Z.to_euclidean_division_equations; lia).
  assert (El : limit / 2 ^ 16 mod 2 ^ 4 = limit / 65536) by (apply Z.mod_small; Z.to_euclidean_division_equations; lia).
  assert (Eh : base / 2 ^ 24 mod 2 ^ 8 = base / 16777216) by (apply Z.mod_small; Z.to_euclidean_division_equations; lia).
  rewrite Eb, El, Eh. clear Eb El Eh.
  assert (Hb0 : 0 ≤ base mod 65536 < 65536) by (apply Z.mod_pos_bound; lia).
  assert (Hb1 : 0 ≤ base / 2 ^ 16 mod 2 ^ 8 < 256) by (apply Z.mod_pos_bound; lia).
  assert (Hb2 : 0 ≤ base / 16777216 < 256) by (Z.to_euclidean_division_equations; lia).
  assert (Hl0 : 0 ≤ limit mod 2 ^ 16 < 65536) by (apply Z.mod_pos_bound; lia).
  assert (Hl1 : 0 ≤ limit / 65536 < 16) by (Z.to_euclidean_division_equations; lia).
  change (limit mod 65536) with (limit mod 2 ^ 16). change (base / 65536 mod 256) with (base / 2 ^ 16 mod 2 ^ 8).
  revert Hb0 Hb1 Hb2 Hl0 Hl1. generalize (base mod 65536), (base / 2 ^ 16 mod 2 ^ 8), (base / 16777216),
    (limit mod 2 ^ 16), (limit / 65536). intros b0 b1 b2 l0 l1 Hb0 Hb1 Hb2 Hl0 Hl1.
  rewrite (lor_next 16 l0) by lia. rewrite (lor_next 8 b1), (lor_next 12), (lor_next 13), (lor_next 15), (lor_next 16),
    (lor_next 22), (lor_next 23), (lor_next 24), (lor_next 32) by lia. lia.
Qed.

(** A descriptor is read by the processor as it was meant: the base, the limit, the class and
    type, the privilege level, present, 32 bits wide, in pages or bytes. *)
Definition describes (d base limit : Z) (class : seg_class) (type dpl : Z) (granularity : seg_granularity) : Prop :=
  0 ≤ d < 2 ^ 64 ∧ seg_base d = base ∧ seg_limit d = limit ∧ seg_code_data d = class_bit class
  ∧ seg_type d = type ∧ seg_dpl d = dpl ∧ seg_present d = 1 ∧ seg_big d = 1 ∧ seg_pages d = gran_bit granularity.
Theorem seg_desc_roundtrip base limit class type dpl granularity :
  is_u32 base → 0 ≤ limit ≤ 1048575 → 0 ≤ type ≤ 15 → 0 ≤ dpl ≤ 3 →
  ∃ d, make_seg_desc base limit class type dpl granularity = Ret d
    ∧ describes d base limit class type dpl granularity.
Proof.
  intros Hb Hl Ht Hd. eexists. split; [by apply make_seg_desc_sum|]. unfold describes.
  assert (Hc : 0 ≤ class_bit class ≤ 1) by (destruct class; cbn; lia).
  assert (Hg : 0 ≤ gran_bit granularity ≤ 1) by (destruct granularity; cbn; lia).
  revert Hc Hg. generalize (class_bit class), (gran_bit granularity). intros c g Hc Hg.
  unfold is_u32, seg_sum, seg_base, seg_limit, seg_code_data, seg_type, seg_dpl, seg_present, seg_big, seg_pages in *.
  split_and!; Z.to_euclidean_division_equations; lia.
Qed.

(** The table has flat segments over the whole address space for the kernel and for user
    programs, which run at level 3 and cannot use the kernel's, and the task state; the
    selectors of user segments ask for level 3. *)
Theorem gdt_init_correct gdt tss :
  is_u32 gdt → is_u32 tss → tss ≠ NULL →
  ∃ kcode kdata ucode udata task,
    gdt_init gdt tss = Ret ([0; kcode; kdata; ucode; udata; task], 47 + gdt * 65536, SEL_TSS)
    ∧ describes kcode 0 1048575 CLS_CODE_DATA 10 0 GRAN_PAGE ∧ describes kdata 0 1048575 CLS_CODE_DATA 2 0 GRAN_PAGE
    ∧ describes ucode 0 1048575 CLS_CODE_DATA 10 3 GRAN_PAGE ∧ describes udata 0 1048575 CLS_CODE_DATA 2 3 GRAN_PAGE
    ∧ describes task tss 103 CLS_SYSTEM 9 0 GRAN_BYTE
    ∧ Z.land SEL_UCSEG 3 = 3 ∧ Z.land SEL_UDSEG 3 = 3.
Proof.
  intros Hg Ht Hn. unfold gdt_init, make_code_desc, make_data_desc, make_tss_desc, tss_get.
  destruct (seg_desc_roundtrip 0 1048575 CLS_CODE_DATA 10 0 GRAN_PAGE) as (d1 & -> & H1); [unfold is_u32; lia|lia..|].
  destruct (seg_desc_roundtrip 0 1048575 CLS_CODE_DATA 2 0 GRAN_PAGE) as (d2 & -> & H2); [unfold is_u32; lia|lia..|].
  destruct (seg_desc_roundtrip 0 1048575 CLS_CODE_DATA 10 3 GRAN_PAGE) as (d3 & -> & H3); [unfold is_u32; lia|lia..|].
  destruct (seg_desc_roundtrip 0 1048575 CLS_CODE_DATA 2 3 GRAN_PAGE) as (d4 & -> & H4); [unfold is_u32; lia|lia..|].
  rewrite !bind_Ret. rewrite ASSERT_true, bind_Ret by (destruct (Z.eqb_spec tss NULL); done).
  destruct (seg_desc_roundtrip tss 103 CLS_SYSTEM 9 0 GRAN_BYTE) as (d5 & -> & H5); [done|lia..|].
  rewrite bind_Ret. exists d1, d2, d3, d4, d5. split; [|done]. f_equal. f_equal. f_equal.
  unfold make_gdtr_operand. rewrite Z.shiftl_mul_pow2 by lia. by apply (lor_next 16).
Qed.

(** The stack for interrupts from user programs is the end of the running thread's page; the
    segment for it is the kernel's. *)
Theorem tss_correct s s1 tss current :
  palloc_get_page s (Z.lor PAL_ASSERT PAL_ZERO) = Ret (tss, s1) → 0 < tss →
  is_u32 (current + PGSIZE) →
  ∃ m, tss_init s current = Ret (tss, set_pmem s1 m)
    ∧ load32 m (tss + TSS_ESP0) = current + PGSIZE
    ∧ load8 m (tss + TSS_SS0) = SEL_KDSEG ∧ load8 m (tss + TSS_SS0 + 1) = 0
    ∧ ∀ a, ¬ (tss + 4 ≤ a < tss + 10) → ¬ (tss + 102 ≤ a < tss + 104) → load8 m a = load8 (pmem s1) a.
Proof.
  intros E Ht Hc. unfold tss_init, tss_update. rewrite E, bind_Ret.
  rewrite ASSERT_true, bind_Ret by (destruct (Z.eqb_spec tss NULL); unfold NULL in *; [lia|done]).
  eexists. split; [reflexivity|]. unfold TSS_ESP0, TSS_SS0, TSS_BITMAP, store16. rewrite u32_id by done. split_and!.
  - by rewrite load32_store32_eq, u32_id.
  - rewrite load8_store32_ne, !load8_store8 by lia. repeat case_decide; try lia. done.
  - rewrite load8_store32_ne, !load8_store8 by lia. repeat case_decide; try lia. done.
  - intros a H1 H2. rewrite load8_store32_ne, !load8_store8 by lia. by repeat case_decide; try lia.
Qed.
