(* ===== verification/Interrupt.v ===== *)
(** * Interrupts (threads/interrupt.c)

    The interrupt descriptor table, the registration of handlers and the common handler.
    The processor's part is [deliver]: it enters through the gate of the table, which turns
    interrupts off or leaves them, and returns to the old level.  A handler is the sequence
    of what it does with interrupts: calls of this file's functions, points where a device
    raises an interrupt, and exceptions; a device's interrupt comes through only while
    interrupts are on.  [intr_stubs] are the addresses of the assembly stubs.

    [trace] is what devices, the scheduler and the console see; [Handle] marks the start of
    a handler, with the interrupt level at which it starts.  A run that an assertion stops,
    or that goes on longer than its fuel, has the state it had come to as its outcome, so
    that the trace of every run is known as far as it went. *)
From Stdlib Require Import (notations) Ascii String.
From S2P Require Import Prelude Mem Vaddr Palloc Fault Stdio Segments.

Definition INTR_CNT : Z := 256.
Inductive intr_level := INTR_OFF | INTR_ON.
#[export] Instance intr_level_eq_dec : EqDecision intr_level.
Proof. solve_decision. Defined.

Inductive intr_act :=
| Enable | Disable | SetLevel (l : intr_level) | YieldOnReturn
| Irq (vec : Z) | Int (vec : Z).
Inductive intr_event := Outb (port value : Z) | Yield | Unexpected (vec : Z) | Handle (vec : Z) (l : intr_level).

Record intr := Intr {
  idt : list Z; intr_handlers : list (option (list intr_act)); intr_names : list (list Z);
  unexpected_cnt : list Z; in_external_intr : bool; yield_on_return : bool;
  level : intr_level; trace : list intr_event;
}.
Definition set_level (s : intr) (l : intr_level) : intr :=
  Intr (idt s) (intr_handlers s) (intr_names s) (unexpected_cnt s) (in_external_intr s)
    (yield_on_return s) l (trace s).
Definition set_external (s : intr) (e y : bool) : intr :=
  Intr (idt s) (intr_handlers s) (intr_names s) (unexpected_cnt s) e y (level s) (trace s).
Definition emit (s : intr) (es : list intr_event) : intr :=
  Intr (idt s) (intr_handlers s) (intr_names s) (unexpected_cnt s) (in_external_intr s)
    (yield_on_return s) (level s) (trace s ++ es).

(** ** The interrupt flag *)
Definition intr_get_level (s : intr) : intr_level := level s.
Definition intr_context (s : intr) : bool := in_external_intr s.
Definition intr_enable (s : intr) : res (intr_level * intr) :=
  let old_level := intr_get_level s in
  ASSERT (negb (intr_context s));;
  Ret (old_level, set_level s INTR_ON).
Definition intr_disable (s : intr) : intr_level * intr := (intr_get_level s, set_level s INTR_OFF).
Definition intr_set_level (s : intr) (l : intr_level) : res (intr_level * intr) :=
  match l with INTR_ON => intr_enable s | INTR_OFF => Ret (intr_disable s) end.
Definition intr_yield_on_return (s : intr) : res intr :=
  ASSERT (intr_context s);; Ret (set_external s (in_external_intr s) true).

(** ** Gates *)
Definition make_gate (function dpl type : Z) : res Z :=
  ASSERT (negb (function =? NULL));;
  ASSERT ((0 <=? dpl) && (dpl <=? 3));;
  ASSERT ((0 <=? type) && (type <=? 15));;
  let e0 := Z.lor (Z.land function 65535) (Z.shiftl SEL_KCSEG 16) in
  let e1 := Z.lor (Z.lor (Z.lor (Z.lor
              (Z.land function 4294901760)
              (Z.shiftl 1 15))
              (Z.shiftl dpl 13))
              (Z.shiftl 0 12))
              (Z.shiftl type 8) in
  Ret (Z.lor e0 (Z.shiftl e1 32)).
Definition make_intr_gate (function dpl : Z) : res Z := make_gate function dpl 14.
Definition make_trap_gate (function dpl : Z) : res Z := make_gate function dpl 15.
Definition make_idtr_operand (limit base : Z) : Z := Z.lor limit (Z.shiftl base 16).

(** ** The interrupt controllers *)
Definition PIC0_CTRL : Z := 32.
Definition PIC0_DATA : Z := 33.
Definition PIC1_CTRL : Z := 160.
Definition PIC1_DATA : Z := 161.
Definition pic_init (s : intr) : intr :=
  emit s [Outb PIC0_DATA 255; Outb PIC1_DATA 255;
          Outb PIC0_CTRL 17; Outb PIC0_DATA 32; Outb PIC0_DATA 4; Outb PIC0_DATA 1;
          Outb PIC1_CTRL 17; Outb PIC1_DATA 40; Outb PIC1_DATA 2; Outb PIC1_DATA 1;
          Outb PIC0_DATA 0; Outb PIC1_DATA 0].
(** What acknowledges an interrupt: the master, and the slave for its own. *)
Definition eoi (irq : Z) : list intr_event :=
  Outb 32 32 :: (if 40 <=? irq then [Outb 160 32] else []).
Definition pic_end_of_interrupt (s : intr) (irq : Z) : res intr :=
  ASSERT ((32 <=? irq) && (irq <? 48));; Ret (emit s (eoi irq)).

(** ** Registration *)
Section Stubs.
Context (intr_stubs : Z → Z).

Fixpoint init_idt (n : nat) (i : Z) : res (list Z) :=
  match n with
  | O => Ret []
  | S n => g ← make_intr_gate (intr_stubs i) 0; gs ← init_idt n (i + 1); Ret (g :: gs)
  end.
Definition exception_names : list (list Z) :=
  [chars "#DE Divide Error"; chars "#DB Debug Exception"; chars "NMI Interrupt";
   chars "#BP Breakpoint Exception"; chars "#OF Overflow Exception";
   chars "#BR BOUND Range Exceeded Exception"; chars "#UD Invalid Opcode Exception";
   chars "#NM Device Not Available Exception"; chars "#DF Double Fault Exception";
   chars "Coprocessor Segment Overrun"; chars "#TS Invalid TSS Exception";
   chars "#NP Segment Not Present"; chars "#SS Stack Fault Exception";
   chars "#GP General Protection Exception"; chars "#PF Page-Fault Exception"; chars "unknown";
   chars "#MF x87 FPU Floating-Point Error"; chars "#AC Alignment Check Exception";
   chars "#MC Machine-Check Exception"; chars "#XF SIMD Floating-Point Exception"].
(** [idt_base]: the address of the table.  The operand of [lidt] comes with the new state. *)
Definition intr_init (idt_base : Z) (s : intr) : res (Z * intr) :=
  let s := pic_init s in
  gates ← init_idt (Z.to_nat INTR_CNT) 0;
  Ret (make_idtr_operand (8 * INTR_CNT - 1) idt_base,
       Intr gates (intr_handlers s)
         (exception_names ++ replicate (Z.to_nat INTR_CNT - length exception_names) (chars "unknown"))
         (unexpected_cnt s) (in_external_intr s) (yield_on_return s) (level s) (trace s)).

(** An index is a [uint8_t]. *)
Definition register_handler (s : intr) (vec_no dpl : Z) (l : intr_level) (handler : list intr_act) (name : list Z)
    : res intr :=
  let i := Z.to_nat vec_no in
  match intr_handlers s !! i with
  | None => Stuck
  | Some h =>
    ASSERT (match h with None => true | Some _ => false end);;
    g ← (match l with
         | INTR_ON => make_trap_gate (intr_stubs vec_no) dpl
         | INTR_OFF => make_intr_gate (intr_stubs vec_no) dpl
         end);
    Ret (Intr (<[i := g]> (idt s)) (<[i := Some handler]> (intr_handlers s)) (<[i := name]> (intr_names s))
           (unexpected_cnt s) (in_external_intr s) (yield_on_return s) (level s) (trace s))
  end.
Definition intr_register_ext (s : intr) (vec_no : Z) (handler : list intr_act) (name : list Z) : res intr :=
  ASSERT ((32 <=? vec_no) && (vec_no <=? 47));;
  register_handler s vec_no 0 INTR_OFF handler name.
Definition intr_register_int (s : intr) (vec_no dpl : Z) (l : intr_level) (handler : list intr_act) (name : list Z)
    : res intr :=
  ASSERT ((vec_no <? 32) || (47 <? vec_no));;
  register_handler s vec_no dpl l handler name.
End Stubs.
Definition intr_name (s : intr) (vec : Z) : list Z := intr_names s !!! Z.to_nat vec.

(** ** The common handler *)

(** A message for every power of two. *)
Definition unexpected_interrupt (s : intr) (vec_no : Z) : res intr :=
  match unexpected_cnt s !! Z.to_nat vec_no with
  | None => Stuck
  | Some c =>
    let n := u32 (c + 1) in
    let s := Intr (idt s) (intr_handlers s) (intr_names s) (<[Z.to_nat vec_no := n]> (unexpected_cnt s))
               (in_external_intr s) (yield_on_return s) (level s) (trace s) in
    Ret (if Z.land n (u32 (n - 1)) =? 0 then emit s [Unexpected vec_no] else s)
  end.
(** [thread_yield] (in [Threads]) may not be called by the handler of a device. *)
Definition yield_cpu (s : intr) : res intr :=
  ASSERT (negb (intr_context s));; Ret (emit s [Yield]).

Definition is_external (vec_no : Z) : bool := (32 <=? vec_no) && (vec_no <? 48).
Definition is_off (s : intr) : bool := bool_decide (intr_get_level s = INTR_OFF).

(** Runs: done, stopped by a failed assertion in a state, or gone on to a state without an
    end within the fuel. *)
Inductive run (A : Type) : Type := Done (a : A) | Failed (s : intr) | Open (s : intr).
Arguments Done {A} a.
Arguments Failed {A} s.
Arguments Open {A} s.
#[export] Instance run_ret : MRet run := @Done.
#[export] Instance run_bind : MBind run := fun A B k m =>
  match m with Done a => k a | Failed s => Failed s | Open s => Open s end.
Lemma bind_Done {A B} (a : A) (k : A → run B) : Done a ≫= k = k a.
Proof. done. Qed.
(** A piece of code without interrupts, run in a state. *)
Definition in_state {A} (s : intr) (r : res A) : run A :=
  match r with Ret a => Done a | Panic => Failed s | Stuck => Open s end.

(** [exec] runs the code of a handler. *)
Definition intr_handler (exec : list intr_act → intr → run intr) (vec_no : Z) (s : intr) : run intr :=
  let external := is_external vec_no in
  s ← (if external then
         in_state s (ASSERT (is_off s);;
                     ASSERT (negb (intr_context s));;
                     Ret (set_external s true false))
       else Done s);
  s ← (match intr_handlers s !! Z.to_nat vec_no with
       | None => Open s
       | Some h =>
         let s := emit s [Handle vec_no (intr_get_level s)] in
         match h with
         | Some handler => exec handler s
         | None => if (vec_no =? 39) || (vec_no =? 47) then Done s else in_state s (unexpected_interrupt s vec_no)
         end
       end);
  if external then
    s ← in_state s (ASSERT (is_off s);;
                    ASSERT (intr_context s);;
                    Ret (set_external s false (yield_on_return s)));
    s ← in_state s (pic_end_of_interrupt s vec_no);
    if yield_on_return s then in_state s (yield_cpu s) else Done s
  else Done s.

(** ** The processor *)
Definition gate_offset (g : Z) : Z := g mod 2 ^ 16 + g / 2 ^ 48 mod 2 ^ 16 * 2 ^ 16.
Definition gate_selector (g : Z) : Z := g / 2 ^ 16 mod 2 ^ 16.
Definition gate_type (g : Z) : Z := g / 2 ^ 40 mod 2 ^ 4.
Definition gate_dpl (g : Z) : Z := g / 2 ^ 45 mod 2 ^ 2.
Definition gate_present (g : Z) : Z := g / 2 ^ 47 mod 2.

(** Entry through an interrupt gate (type 14) turns interrupts off, through a trap gate (15)
    it does not; the return restores the flags. *)
Definition deliver (exec : list intr_act → intr → run intr) (vec : Z) (s : intr) : run intr :=
  match idt s !! Z.to_nat vec with
  | None => Open s
  | Some g =>
    s' ← intr_handler exec vec (if gate_type g =? 14 then set_level s INTR_OFF else s);
    Done (set_level s' (level s))
  end.
Fixpoint run_acts (fuel : nat) (code : list intr_act) (s : intr) : run intr :=
  match fuel with
  | O => Open s
  | S fuel =>
    match code with
    | [] => Done s
    | a :: code =>
      s ← (match a with
           | Enable => in_state s (snd <$> intr_enable s)
           | Disable => Done (intr_disable s).2
           | SetLevel l => in_state s (snd <$> intr_set_level s l)
           | YieldOnReturn => in_state s (intr_yield_on_return s)
           | Irq vec => match level s with INTR_ON => deliver (run_acts fuel) vec s | INTR_OFF => Done s end
           | Int vec => deliver (run_acts fuel) vec s
           end);
      run_acts fuel code s
    end
  end.

(** ** Gates as the processor reads them *)
Definition gate_sum (function dpl type : Z) : Z :=
  function mod 65536 + 524288
  + (type * 256 + dpl * 8192 + 32768 + function / 65536 * 65536) * 4294967296.
Lemma make_gate_sum function dpl type :
  0 < function < 4294967296 → 0 ≤ dpl ≤ 3 → 0 ≤ type ≤ 15 →
  make_gate function dpl type = Ret (gate_sum function dpl type).
Proof.
  intros Hf Hd Ht. unfold make_gate, gate_sum.
  rewrite !ASSERT_true by (unfold NULL; bool_cases; lia || done). f_equal.
  change 65535 with (Z.ones 16). change 4294901760 with (Z.shiftl (Z.ones 16) 16).
  rewrite !land_high, !Z.land_ones, !Z.shiftl_mul_pow2 by lia.
  assert (Eh : function / 2 ^ 16 mod 2 ^ 16 = function / 65536) by (apply Z.mod_small; Z.to_euclidean_division_equations; lia).
  rewrite Eh. assert (Hh : 0 ≤ function / 65536 < 65536) by (Z.to_euclidean_division_equations; lia).
  assert (Hl : 0 ≤ function mod 2 ^ 16 < 65536) by (apply Z.mod_pos_bound; lia).
  change (function mod 65536) with (function mod 2 ^ 16). revert Hh Hl.
  generalize (function / 65536), (function mod 2 ^ 16). intros h l Hh Hl.
  rewrite (lor_next 16 l) by lia. rewrite Z.lor_0_r.
  rewrite (Z.lor_comm (h * 2 ^ 16)), (lor_next 16) by lia.
  rewrite (Z.lor_comm _ (dpl * 2 ^ 13)).
  replace (1 * 2 ^ 15 + h * 2 ^ 16) with ((1 + 2 * h) * 2 ^ 15) by lia. rewrite (lor_next 15) by lia.
  rewrite (Z.lor_comm _ (type * 2 ^ 8)). replace (dpl * 2 ^ 13 + (1 + 2 * h) * 2 ^ 15) with ((dpl + 4 * (1 + 2 * h)) * 2 ^ 13) by lia.
  rewrite (lor_next 13) by lia.
  rewrite (lor_next 32) by (unfold SEL_KCSEG; lia). unfold SEL_KCSEG. lia.
Qed.

(** A gate enters the function at the kernel's code segment, may be used from rings up to
    [dpl], and has the given type. *)
Definition enters (g function dpl type : Z) : Prop :=
  0 ≤ g < 2 ^ 64 ∧ gate_offset g = function ∧ gate_selector g = SEL_KCSEG ∧ gate_dpl g = dpl
  ∧ gate_type g = type ∧ gate_present g = 1.
Lemma make_gate_enters function dpl type :
  0 < function < 4294967296 → 0 ≤ dpl ≤ 3 → 0 ≤ type ≤ 15 →
  ∃ g, make_gate function dpl type = Ret g ∧ enters g function dpl type.
Proof.
  intros Hf Hd Ht. eexists. split; [by apply make_gate_sum|].
  unfold enters, gate_sum, gate_offset, gate_selector, gate_dpl, gate_type, gate_present, SEL_KCSEG.
  split_and!; Z.to_euclidean_division_equations; lia.
Qed.

(** ** The invariant *)

(** Tables of 256 entries; the gates of devices turn interrupts off; and interrupts are off
    while the handler of a device runs. *)
Record intr_ok (s : intr) : Prop := {
  io_idt : length (idt s) = 256%nat;
  io_handlers : length (intr_handlers s) = 256%nat;
  io_counts : length (unexpected_cnt s) = 256%nat;
  io_gates : ∀ vec g, is_external vec = true → idt s !! Z.to_nat vec = Some g → gate_type g = 14;
  io_off : in_external_intr s = true → level s = INTR_OFF;
}.
(** What no handler changes. *)
Record same_tables (s s' : intr) : Prop := {
  st_idt : idt s' = idt s;
  st_handlers : intr_handlers s' = intr_handlers s;
  st_counts : length (unexpected_cnt s') = length (unexpected_cnt s);
}.
#[export] Instance same_tables_refl : Reflexive same_tables.
Proof. by split. Qed.
#[export] Instance same_tables_trans : Transitive same_tables.
Proof. intros s1 s2 s3 [] []; split; congruence. Qed.
Lemma ok_tables s s' : intr_ok s → same_tables s s' → (in_external_intr s' = true → level s' = INTR_OFF) → intr_ok s'.
Proof. intros [] [E1 E2 E3] H. by split; rewrite ?E1, ?E2, ?E3. Qed.

(** What happens outside the handlers of devices, apart from them: exceptions and their
    messages, but nothing is sent to the interrupt controllers, and no yield. *)
Definition aside (e : intr_event) : Prop :=
  match e with Outb _ _ | Yield => False | Unexpected _ => True | Handle vec _ => is_external vec = false end.
(** Inside the handler of a device the same, and interrupts are off. *)
Definition inner (e : intr_event) : Prop :=
  match e with Handle vec l => is_external vec = false ∧ l = INTR_OFF | _ => aside e end.
(** Every device's interrupt is handled with interrupts off and to its end, then acknowledged
    once, before the next one; a yield comes only after the acknowledgement. *)
Inductive paired : list intr_event → Prop :=
| paired_nil : paired []
| paired_aside e es : aside e → paired es → paired (e :: es)
| paired_external vec es y rest : is_external vec = true → Forall inner es → paired rest →
    paired ((Handle vec INTR_OFF :: es) ++ eoi vec ++ (if (y : bool) then [Yield] else []) ++ rest).

Lemma inner_aside e : inner e → aside e.
Proof. destruct e; cbn; [done..|]. by intros []. Qed.
Lemma paired_inners es rest : Forall inner es → paired rest → paired (es ++ rest).
Proof. induction 1; cbn; [done|]. intros. constructor; auto using inner_aside. Qed.
Lemma paired_app es es' : paired es → paired es' → paired (es ++ es').
Proof.
  induction 1 as [|e es He _ IH|vec es y rest Hv Hes _ IH]; intros H; [done|cbn; constructor; auto|].
  specialize (IH H). rewrite <- !app_assoc. by apply (paired_external vec es y).
Qed.

(** ** Reasoning about runs

    [P] of the state at the end; [Q] of the state a run without an end has come to. *)
Definition holds (r : run intr) (P Q : intr → Prop) : Prop :=
  match r with Done s => P s | Failed s | Open s => Q s end.
Lemma holds_bind r k P Q R : holds r P Q → (∀ s, P s → holds (k s) R Q) → holds (r ≫= k) R Q.
Proof. destruct r; cbn; auto. Qed.
Lemma holds_weaken r (P Q P' Q' : intr → Prop) :
  holds r P Q → (∀ s, P s → P' s) → (∀ s, Q s → Q' s) → holds r P' Q'.
Proof. destruct r; cbn; auto. Qed.
Lemma holds_state s r (P Q : intr → Prop) :
  (∀ s', r = Ret s' → P s') → Q s → holds (in_state s r) P Q.
Proof. destruct r; cbn; auto. Qed.

Lemma unexpected_ok s vec s' :
  unexpected_interrupt s vec = Ret s' →
  same_tables s s' ∧ in_external_intr s' = in_external_intr s ∧ level s' = level s
  ∧ yield_on_return s' = yield_on_return s
  ∧ ∃ es, trace s' = trace s ++ es ∧ Forall inner es.
Proof.
  unfold unexpected_interrupt. destruct (_ !! _) as [c|]; [|done]. intros [= <-].
  destruct (_ =? 0); (split; [split; cbn; by rewrite ?length_insert|]); split_and!; try done.
  - exists [Unexpected vec]. split; [done|]. by repeat constructor.
  - exists []. by rewrite app_nil_r.
Qed.

(** ** Inside the handler of a device *)

(** The events of a run so far. *)
Definition seen (s s' : intr) : Prop := ∃ es, trace s' = trace s ++ es ∧ Forall inner es.
Lemma seen_same s s' : trace s' = trace s → seen s s'.
Proof. intros E. exists []. by rewrite app_nil_r. Qed.
Lemma seen_trans s1 s2 s3 : seen s1 s2 → seen s2 s3 → seen s1 s3.
Proof.
  intros (es & E1 & F1) (es' & E2 & F2). exists (es ++ es'). by rewrite E2, E1, app_assoc, Forall_app.
Qed.

(** A handler of an exception leaves the processor as it found it; here interrupts are off
    and stay off, and no assertion about the device's handler can fail later. *)
Definition device (s : intr) : Prop := in_external_intr s = true ∧ level s = INTR_OFF.
Record in_device (s s' : intr) : Prop := {
  in_tables : same_tables s s';
  in_dev : device s';
  in_seen : seen s s';
}.
Lemma in_device_same s s' : device s' → same_tables s s' → trace s' = trace s → in_device s s'.
Proof. intros. split; [done|done|by apply seen_same]. Qed.
Lemma in_device_trans s1 s2 s3 : in_device s1 s2 → in_device s2 s3 → in_device s1 s3.
Proof. intros [A1 B1 C1] [A2 B2 C2]. split; [by etrans|done|by eapply seen_trans]. Qed.
Lemma device_then s r k :
  holds r (in_device s) (seen s) → (∀ s1, device s1 → holds (k s1) (in_device s1) (seen s1)) →
  holds (r ≫= k) (in_device s) (seen s).
Proof.
  intros Hr Hk. eapply holds_bind; [exact Hr|]. intros s1 Hs1. eapply holds_weaken; [apply Hk, Hs1|..].
  - intros s2. by apply in_device_trans.
  - intros s2. apply seen_trans, Hs1.
Qed.

(** The handler of a vector, after the entry. *)
Lemma handler_inside exec vec s :
  (∀ code s, device s → holds (exec code s) (in_device s) (seen s)) → device s →
  holds (match intr_handlers s !! Z.to_nat vec with
         | None => Open s
         | Some h => let s := emit s [Handle vec (intr_get_level s)] in
           match h with
           | Some handler => exec handler s
           | None => if (vec =? 39) || (vec =? 47) then Done s else in_state s (unexpected_interrupt s vec)
           end
         end)
    (λ s', same_tables s s' ∧ device s' ∧ seen (emit s [Handle vec INTR_OFF]) s')
    (λ s', s' = s ∨ seen (emit s [Handle vec INTR_OFF]) s').
Proof.
  intros Hexec Hd. unfold intr_get_level. rewrite (proj2 Hd).
  destruct (intr_handlers s !! _) as [[h|]|]; cbn zeta; [| |by left].
  - eapply holds_weaken; [by apply (Hexec h)|..]; [|by right]. by intros s' [[] ? ?].
  - destruct (_ || _); [cbn; split_and!; [done|exact Hd|by apply seen_same]|].
    apply holds_state; [|right; by apply seen_same]. intros s' E.
    apply unexpected_ok in E as ([] & H2 & H3 & _ & H4). destruct Hd.
    split_and!; [done|split; [by rewrite H2|by rewrite H3]|done].
Qed.

Lemma deliver_inside exec vec s :
  (∀ code s, device s → holds (exec code s) (in_device s) (seen s)) → device s →
  holds (deliver exec vec s) (in_device s) (seen s).
Proof.
  intros Hexec Hd. unfold deliver. destruct (idt s !! _) as [g|]; [|by apply seen_same].
  replace (if gate_type g =? 14 then set_level s INTR_OFF else s) with s
    by (destruct (_ =? _); [|done]; destruct s, Hd; cbn in *; by subst).
  unfold intr_handler. destruct (is_external vec) eqn:Hv.
  { unfold intr_context. rewrite (proj1 Hd). destruct (is_off s); by apply seen_same. }
  assert (Hh : seen s (emit s [Handle vec INTR_OFF])).
  { exists [Handle vec INTR_OFF]. split; [done|]. by repeat constructor. }
  eapply holds_bind with (P := in_device s).
  - cbn [mbind run_bind]. eapply holds_bind; [eapply holds_weaken; [by apply handler_inside|..]|].
    + intros s' H. exact H.
    + intros s' [->|Hs]; [by apply seen_same|by eapply seen_trans].
    + intros s' (H1 & H2 & H3). split; [done|done|by eapply seen_trans].
  - intros s' [[] Hd' Hs]. split; [by split|split; [apply Hd'|apply Hd]|exact Hs].
Qed.
Lemma run_inside fuel : ∀ code s, device s → holds (run_acts fuel code s) (in_device s) (seen s).
Proof.
  induction fuel as [|fuel IH]; intros code s Hd; [by apply seen_same|]. cbn [run_acts].
  destruct code as [|a code]; [by apply in_device_same|]. apply device_then; [|exact (IH code)].
  pose proof Hd as [He Hl].
  destruct a as [| |l| |vec|vec]; unfold intr_set_level, intr_enable, intr_disable, intr_yield_on_return, intr_context;
    rewrite ?He, ?Hl; try by (apply in_device_same || apply seen_same).
  - destruct l; [|by apply seen_same]. by apply in_device_same.
  - by apply deliver_inside.
Qed.

(** ** One interrupt of a device *)

(** The events of a thread's run so far: some continuation of them is paired. *)
Definition partly (s s' : intr) : Prop := ∃ es rest, trace s' = trace s ++ es ∧ paired (es ++ rest).
Lemma partly_same s s' : trace s' = trace s → partly s s'.
Proof. intros E. exists [], []. rewrite app_nil_r. split; [done|constructor]. Qed.

Section External.
Context (exec : list intr_act → intr → run intr).
Hypothesis exec_inside : ∀ code s, device s → holds (exec code s) (in_device s) (seen s).

Lemma deliver_external vec s :
  intr_ok s → in_external_intr s = false → is_external vec = true →
  holds (deliver exec vec s)
    (λ s', same_tables s s' ∧ in_external_intr s' = false ∧ level s' = level s
       ∧ ∃ es, trace s' = trace s ++ (Handle vec INTR_OFF :: es) ++ eoi vec ++ (if yield_on_return s' then [Yield] else [])
               ∧ Forall inner es)
    (partly s).
Proof using exec_inside.
  intros Hok He Hv. unfold deliver. destruct (idt s !! _) as [g|] eqn:Hg; [|by apply partly_same].
  rewrite (io_gates _ Hok vec g Hv Hg). cbn [Z.eqb Pos.eqb].
  unfold intr_handler. rewrite Hv. set (s1 := set_external (set_level s INTR_OFF) true false).
  assert (Hpart : ∀ s', seen (emit s1 [Handle vec INTR_OFF]) s' → partly s s').
  { intros s' (es & Et & Hes). exists (Handle vec INTR_OFF :: es), (eoi vec ++ []). split; [by rewrite Et; cbn; rewrite <- app_assoc|].
    apply (paired_external vec es false); [done|done|constructor]. }
  eapply holds_bind; [eapply (holds_bind _ _ (λ s0, s0 = s1)); [|intros ? ->; eapply holds_bind;
    [eapply holds_weaken; [by apply (handler_inside exec vec s1)|..]|]]|].
  - unfold is_off, intr_get_level, intr_context. cbn [level set_level in_external_intr].
    by rewrite He, bool_decide_true.
  - intros s' H. exact H.
  - intros s' [->|Hs]; [by apply partly_same|by apply Hpart].
  - intros s' ([T1 T2 T3] & [H2 H3] & es & H4 & H5). unfold is_off, intr_get_level, intr_context.
    rewrite H3, H2, bool_decide_true by done. cbn [ASSERT mbind run_bind res_bind in_state]. unfold pic_end_of_interrupt. pose proof Hv as Hr.
    unfold is_external in Hr. rewrite Hr. cbn [ASSERT mbind run_bind res_bind in_state yield_on_return emit set_external].
    assert (HD : ∀ s2, trace s2 = trace s ++ (Handle vec INTR_OFF :: es) ++ eoi vec ++ (if yield_on_return s2 then [Yield] else []) →
      in_external_intr s2 = false → same_tables s s2 →
      holds (Done s2) (λ s2, same_tables s s2 ∧ in_external_intr s2 = false
        ∧ ∃ es, trace s2 = trace s ++ (Handle vec INTR_OFF :: es) ++ eoi vec ++ (if yield_on_return s2 then [Yield] else [])
                ∧ Forall inner es) (partly s)).
    { intros s2 E1 E2 E3. split_and!; [done|done|]. by exists es. }
    destruct (yield_on_return s') eqn:Hy; unfold yield_cpu; cbn [intr_context in_external_intr emit set_external negb ASSERT mbind res_bind in_state];
      apply HD; try done; cbn; rewrite ?H4, ?Hy; cbn; by rewrite <- !app_assoc, ?app_nil_r.
  - intros s2 ([] & H2 & es & H3 & H4). split_and!; [by split|done|done|]. by exists es.
Qed.
End External.

(** ** Everything a thread does and what interrupts it *)
Record in_thread (s s' : intr) : Prop := {
  ou_tables : same_tables s s';
  ou_ext : in_external_intr s' = false;
  ou_trace : ∃ es, trace s' = trace s ++ es ∧ paired es;
}.
Lemma in_thread_same s s' : in_external_intr s' = false → same_tables s s' → trace s' = trace s → in_thread s s'.
Proof. intros. split; try done. exists []. rewrite app_nil_r. split; [done|constructor]. Qed.
Lemma in_thread_trans s1 s2 s3 : in_thread s1 s2 → in_thread s2 s3 → in_thread s1 s3.
Proof.
  intros [A1 B1 (es & E1 & F1)] [A2 B2 (es' & E2 & F2)]. split; [by etrans|done|].
  exists (es ++ es'). rewrite E2, E1, app_assoc. split; [done|by apply paired_app].
Qed.
Lemma partly_trans s1 s2 s3 : in_thread s1 s2 → partly s2 s3 → partly s1 s3.
Proof.
  intros [_ _ (es & E1 & F1)] (es' & rest & E2 & F2). exists (es ++ es'), rest.
  rewrite E2, E1, app_assoc. split; [done|]. rewrite <- app_assoc. by apply paired_app.
Qed.
Lemma thread_ok s s' : intr_ok s → in_thread s s' → intr_ok s'.
Proof. intros Hok [H1 H2 _]. eapply ok_tables; [exact Hok|done|]. by rewrite H2. Qed.
Lemma thread_then s r k :
  intr_ok s → holds r (in_thread s) (partly s) →
  (∀ s1, intr_ok s1 → in_external_intr s1 = false → holds (k s1) (in_thread s1) (partly s1)) →
  holds (r ≫= k) (in_thread s) (partly s).
Proof.
  intros Hok Hr Hk. eapply holds_bind; [exact Hr|]. intros s1 Hs1.
  eapply holds_weaken; [apply Hk; [by eapply thread_ok|apply Hs1]|..].
  - intros s2. by apply in_thread_trans.
  - intros s2. by apply partly_trans.
Qed.

Lemma deliver_outside exec vec s :
  (∀ code s, device s → holds (exec code s) (in_device s) (seen s)) →
  (∀ code s, intr_ok s → in_external_intr s = false → holds (exec code s) (in_thread s) (partly s)) →
  intr_ok s → in_external_intr s = false → holds (deliver exec vec s) (in_thread s) (partly s).
Proof.
  intros Hin Hout Hok He. destruct (is_external vec) eqn:Hv.
  { eapply holds_weaken; [by apply deliver_external| |done]. intros s' (H1 & H2 & _ & es & H4 & H5). split; [done|done|].
    eexists. split; [exact H4|]. rewrite <- (app_nil_r (if yield_on_return s' then _ else _)).
    apply paired_external; [done|done|constructor]. }
  unfold deliver. destruct (idt s !! _) as [g|]; [|by apply partly_same].
  set (s0 := if gate_type g =? 14 then _ else _).
  assert (Hs0 : in_thread s s0) by (unfold s0; destruct (_ =? _); by apply in_thread_same).
  assert (Hh : ∀ l, in_thread s0 (emit s0 [Handle vec l])).
  { intros l. split; [done|apply Hs0|]. exists [Handle vec l]. split; [done|]. repeat constructor. exact Hv. }
  assert (Hok0 : ∀ l, intr_ok (emit s0 [Handle vec l])).
  { intros l. eapply thread_ok; [|apply Hh]. by eapply thread_ok. }
  eapply (holds_bind _ _ (in_thread s)).
  2:{ intros s1 [[] H2 H3]. by split; [split|..]. }
  unfold intr_handler. rewrite Hv. cbn [mbind run_bind].
  eapply holds_bind; [|intros s1 Hs1; exact Hs1].
  destruct (intr_handlers s0 !! _) as [h|]; cbn zeta; [|by destruct Hs0 as [_ _ (es & ? & ?)]; exists es, []; rewrite app_nil_r].
  set (s1 := emit s0 _). assert (Hs1 : in_thread s s1) by (eapply in_thread_trans; [exact Hs0|apply Hh]).
  eapply holds_weaken with (P := in_thread s1) (Q := partly s1);
    [|intros s2; by apply in_thread_trans|intros s2; by apply partly_trans].
  destruct h as [h|]; [apply Hout; [apply Hok0|apply Hs1]|].
  destruct (_ || _); [by apply in_thread_same; [apply Hs1|..]|].
  apply holds_state; [|by apply partly_same]. intros s2 E.
  apply unexpected_ok in E as (H1 & H2 & H3 & _ & es & H4 & H5). split; [done|rewrite H2; apply Hs1|].
  exists es. split; [done|]. rewrite <- (app_nil_r es). apply paired_inners; [done|constructor].
Qed.
Lemma run_outside fuel : ∀ code s,
  intr_ok s → in_external_intr s = false → holds (run_acts fuel code s) (in_thread s) (partly s).
Proof.
  induction fuel as [|fuel IH]; intros code s Hok He; [by apply partly_same|]. cbn [run_acts].
  destruct code as [|a code]; [by apply in_thread_same|]. apply thread_then; [done| |exact (IH code)].
  destruct a as [| |l| |vec|vec]; unfold intr_set_level, intr_enable, intr_disable, intr_yield_on_return, intr_context;
    rewrite ?He; try by (apply in_thread_same || apply partly_same).
  - by destruct l; apply in_thread_same.
  - destruct (level s); [by apply in_thread_same|]. apply deliver_outside; [exact (run_inside fuel)|exact IH|done..].
  - apply deliver_outside; [exact (run_inside fuel)|exact IH|done..].
Qed.

(** ** Theorems *)

(** C17: Whatever threads and handlers do, and however far the run is followed (the fuel is
    any number): every interrupt of a device is handled with interrupts off, and so is every
    exception inside its handler; it is handled to its end and acknowledged exactly once
    before any other device is handled; and the scheduler is called only after the
    acknowledgement.  When the run comes to its end the state says that no device is being
    handled.  When a failed assertion stops it, or it is not followed to its end, what it has
    done so far is the beginning of such a sequence. *)
Theorem interrupts_paired fuel code s :
  intr_ok s → in_external_intr s = false →
  match run_acts fuel code s with
  | Done s' => intr_ok s' ∧ in_external_intr s' = false ∧ ∃ es, trace s' = trace s ++ es ∧ paired es
  | Failed s' | Open s' => ∃ es rest, trace s' = trace s ++ es ∧ paired (es ++ rest)
  end.
Proof.
  intros Hok He. pose proof (run_outside fuel code s Hok He) as H. destruct (run_acts fuel code s) as [s'|s'|s']; [|done..].
  split_and!; [by eapply thread_ok|apply H|apply H].
Qed.

(** Turning interrupts on in the handler of a device, or asking for a yield elsewhere, stops
    the kernel. *)
Theorem intr_misuse s :
  (in_external_intr s = true → intr_enable s = Panic ∧ intr_set_level s INTR_ON = Panic ∧ yield_cpu s = Panic)
  ∧ (in_external_intr s = false → intr_yield_on_return s = Panic).
Proof.
  unfold intr_set_level, intr_enable, intr_yield_on_return, yield_cpu, intr_context.
  split; intros ->; [|done]. by split_and!.
Qed.

(** Code that a device's handler may run: it does not turn interrupts on. *)
Definition keeps_off (a : intr_act) : Prop :=
  match a with Disable | SetLevel INTR_OFF | YieldOnReturn | Irq _ => True | _ => False end.
Definition is_yield (a : intr_act) : bool := match a with YieldOnReturn => true | _ => false end.

Lemma run_plain fuel : ∀ code s,
  in_external_intr s = true → level s = INTR_OFF → Forall keeps_off code → (length code < fuel)%nat →
  run_acts fuel code s = Done (set_external s true (yield_on_return s || existsb is_yield code)).
Proof.
  induction fuel as [|fuel IH]; intros code s He Hl Hc Hf; [lia|]. cbn [run_acts].
  destruct Hc as [|a code Ha Hc]; cbn [existsb length] in *.
  { rewrite orb_false_r. destruct s. cbn in *. by subst. }
  assert (Hoff : set_level s INTR_OFF = s) by (destruct s; cbn in *; by subst).
  destruct a as [| |[]| |vec|vec]; try done;
    unfold intr_set_level, intr_disable, intr_yield_on_return, intr_context; cbn [snd is_yield];
    rewrite ?Hl, ?He, ?Hoff; cbn [ASSERT orb fmap res_fmap mbind res_bind run_bind in_state snd];
    rewrite ?Hoff, IH by (done || lia); [done..| |done].
  cbn. by rewrite orb_true_r.
Qed.

(** The handler of a device that keeps interrupts off is run to its end: the interrupted code
    goes on at its old level, after the acknowledgement and a yield if one was asked for. *)
Theorem external_interrupt_returns fuel vec code s :
  intr_ok s → in_external_intr s = false → is_external vec = true →
  intr_handlers s !! Z.to_nat vec = Some (Some code) → Forall keeps_off code → (length code < fuel)%nat →
  ∃ s', deliver (run_acts fuel) vec s = Done s' ∧ level s' = level s ∧ in_external_intr s' = false
    ∧ trace s' = trace s ++ [Handle vec INTR_OFF] ++ eoi vec ++ (if existsb is_yield code then [Yield] else []).
Proof.
  intros Hok He Hv Hh Hc Hf. unfold deliver.
  destruct (lookup_lt_is_Some_2 (idt s) (Z.to_nat vec)) as [g Hg].
  { rewrite (io_idt _ Hok), <- (io_handlers _ Hok). by eapply lookup_lt_Some. }
  rewrite Hg, (io_gates _ Hok vec g Hv Hg). cbn [Z.eqb Pos.eqb].
  unfold intr_handler. rewrite Hv. unfold is_off, intr_get_level, intr_context.
  cbn [level set_level in_external_intr]. rewrite He, bool_decide_true by done. cbn [negb ASSERT].
  rewrite !bind_Ret. cbn [in_state]. rewrite !bind_Done. cbn [intr_handlers set_external set_level level].
  rewrite Hh, run_plain, bind_Done by done.
  cbn [level set_external emit in_external_intr set_level yield_on_return].
  rewrite bool_decide_true by done. cbn [ASSERT]. rewrite !bind_Ret. cbn [in_state]. rewrite bind_Done.
  unfold pic_end_of_interrupt. unfold is_external in Hv. rewrite Hv. cbn [ASSERT]. rewrite bind_Ret.
  cbn [in_state]. rewrite bind_Done. cbn [yield_on_return emit set_external orb].
  destruct (existsb is_yield code); unfold yield_cpu; cbn; eexists; (split; [reflexivity|]); cbn;
    (split_and!; [done|done|]); by rewrite <- !app_assoc, ?app_nil_r.
Qed.

Section Registration.
Context (intr_stubs : Z → Z).
Hypothesis stubs_ok : ∀ vec, 0 < intr_stubs vec < 4294967296.

Lemma init_idt_spec n : ∀ i, ∃ gs, init_idt intr_stubs n i = Ret gs ∧ length gs = n
  ∧ ∀ k g, gs !! k = Some g → enters g (intr_stubs (i + Z.of_nat k)) 0 14.
Proof using stubs_ok.
  induction n as [|n IH]; intros i; cbn [init_idt]; [by exists []|].
  destruct (make_gate_enters (intr_stubs i) 0 14 (stubs_ok i)) as (g & E & Hg); [lia|lia|].
  unfold make_intr_gate. rewrite E, bind_Ret. destruct (IH (i + 1)) as (gs & -> & Hl & Hgs). rewrite bind_Ret.
  exists (g :: gs). split; [done|]. split; [cbn; lia|]. intros [|k] g' Hk.
  - injection Hk as <-. by rewrite Z.add_0_r.
  - specialize (Hgs k g' Hk). by replace (i + Z.of_nat (S k)) with (i + 1 + Z.of_nat k) by lia.
Qed.

(** After [intr_init] every vector enters its stub with interrupts off and only from the
    kernel, no handler is running, and the operand of [lidt] has the table's size and
    address. *)
Theorem intr_init_correct base s :
  length (intr_handlers s) = 256%nat → length (unexpected_cnt s) = 256%nat → in_external_intr s = false →
  is_u32 base →
  ∃ s', intr_init intr_stubs base s = Ret (2047 + base * 65536, s') ∧ intr_ok s'
    ∧ ∀ k g, idt s' !! k = Some g → enters g (intr_stubs (Z.of_nat k)) 0 14.
Proof using stubs_ok.
  intros H1 H2 H3 Hb. unfold intr_init. destruct (init_idt_spec (Z.to_nat INTR_CNT) 0) as (gs & -> & Hl & Hgs).
  rewrite bind_Ret. eexists. split.
  { f_equal. f_equal. unfold make_idtr_operand. rewrite Z.shiftl_mul_pow2 by lia. by apply (lor_next 16). }
  split; [|exact Hgs]. split; cbn; [done|done|done| |by rewrite H3].
  intros vec g Hv Hg. by destruct (Hgs _ _ Hg) as (_ & _ & _ & _ & Ht & _).
Qed.

(** Registering a handler for a vector without one sets its gate, with the privilege level
    and interrupts on or off as asked for, and changes no other vector; devices' handlers are
    registered with interrupts off, so the invariant is kept; a second registration stops the
    kernel. *)
Theorem register_correct s vec dpl l handler name :
  intr_ok s → 0 ≤ vec < 256 → 0 ≤ dpl ≤ 3 →
  (is_external vec = false → intr_handlers s !! Z.to_nat vec = Some None →
     ∃ g s', intr_register_int intr_stubs s vec dpl l handler name = Ret s' ∧ intr_ok s'
       ∧ idt s' = <[Z.to_nat vec := g]> (idt s)
       ∧ enters g (intr_stubs vec) dpl (if decide (l = INTR_ON) then 15 else 14)
       ∧ intr_handlers s' = <[Z.to_nat vec := Some handler]> (intr_handlers s))
  ∧ (is_external vec = true → intr_handlers s !! Z.to_nat vec = Some None →
     ∃ g s', intr_register_ext intr_stubs s vec handler name = Ret s' ∧ intr_ok s'
       ∧ idt s' = <[Z.to_nat vec := g]> (idt s) ∧ enters g (intr_stubs vec) 0 14
       ∧ intr_handlers s' = <[Z.to_nat vec := Some handler]> (intr_handlers s))
  ∧ (∀ h, intr_handlers s !! Z.to_nat vec = Some (Some h) →
     intr_register_ext intr_stubs s vec handler name = Panic ∧ intr_register_int intr_stubs s vec dpl l handler name = Panic).
Proof using stubs_ok.
  intros Hok Hvec Hdpl. unfold intr_register_int, intr_register_ext, register_handler.
  assert (Hkeep : ∀ g h nm, (is_external vec = true → gate_type g = 14) →
    intr_ok (Intr (<[Z.to_nat vec := g]> (idt s)) (<[Z.to_nat vec := Some h]> (intr_handlers s))
               (<[Z.to_nat vec := nm]> (intr_names s)) (unexpected_cnt s) (in_external_intr s)
               (yield_on_return s) (level s) (trace s))).
  { intros g h nm Hg. destruct Hok as [? ? ? Hgt ?]. split; cbn; rewrite ?length_insert; try done.
    intros v g' Hv [(E & <- & _)|[_ E]]%list_lookup_insert_Some; [|by eapply Hgt].
    apply Hg. replace vec with v; [done|]. unfold is_external in Hv. lia. }
  split_and!.
  - intros Hv Hh. rewrite Hh, ASSERT_true by (unfold is_external in Hv; lia). cbn [ASSERT]. rewrite bind_Ret.
    destruct l; cbn [decide].
    + destruct (make_gate_enters (intr_stubs vec) dpl 14 (stubs_ok vec)) as (g & E & Hg); [lia|lia|].
      unfold make_intr_gate. rewrite E, bind_Ret. exists g. eexists. split; [done|]. split_and!; try done.
      apply Hkeep. by rewrite Hv.
    + destruct (make_gate_enters (intr_stubs vec) dpl 15 (stubs_ok vec)) as (g & E & Hg); [lia|lia|].
      unfold make_trap_gate. rewrite E, bind_Ret. exists g. eexists. split; [done|]. split_and!; try done.
      apply Hkeep. by rewrite Hv.
  - intros Hv Hh. rewrite Hh, ASSERT_true by (unfold is_external in Hv; lia). cbn [ASSERT]. rewrite bind_Ret.
    destruct (make_gate_enters (intr_stubs vec) 0 14 (stubs_ok vec)) as (g & E & Hg); [lia|lia|].
    unfold make_intr_gate. rewrite E, bind_Ret. exists g. eexists. split; [done|]. split_and!; try done.
    apply Hkeep. intros _. apply Hg.
  - intros h Hh. rewrite Hh. split; [by destruct (_ && _)|by destruct (_ || _)].
Qed.
End Registration.

(** An interrupt of the timer, whose handler asks for a yield, while a thread runs with
    interrupts on: handled, acknowledged to the master controller, then the yield. *)
Definition boot_intr : intr :=
  Intr [] (replicate 256 None) [] (replicate 256 0) false false INTR_OFF [].
Definition demo_intr : intr :=
  match '(_, s) ← intr_init (λ v, 4096 + 16 * v) 8192 boot_intr;
        s ← intr_register_ext (λ v, 4096 + 16 * v) s 32 [Irq 33; YieldOnReturn; Irq 32] (chars "8254 Timer");
        intr_register_int (λ v, 4096 + 16 * v) s 48 3 INTR_ON [Enable; Irq 32; Disable] (chars "syscall") with
  | Ret s => s
  | _ => boot_intr
  end.
Example timer_tick :
  (s ← run_acts 9 [Irq 32; Enable; Irq 32; Disable; Irq 32] demo_intr;
   Done (drop 12 (trace s), level s)) = Done ([Handle 32 INTR_OFF; Outb 32 32; Yield], INTR_OFF).
Proof. vm_compute. reflexivity. Qed.

(** ** Witness *)
Lemma demo_intr_ok : intr_ok demo_intr.
Proof.
  split; [vm_compute; reflexivity..| |done].
  intros vec g Hv Hg. assert (Hin : Z.to_nat vec ∈ seq 32 16) by (unfold is_external in Hv; apply elem_of_seq; lia).
  assert (Hall : forallb (λ k, match idt demo_intr !! k with Some g => gate_type g =? 14 | None => true end)
                   (seq 32 16) = true) by (vm_compute; reflexivity).
  rewrite forallb_forall in Hall. specialize (Hall _ (proj1 (list_elem_of_In _ _) Hin)). rewrite Hg in Hall. lia.
Qed.
(** A run to its end, and one cut off inside the handler of the timer. *)
Lemma interrupts_paired_witness :
  (∃ s', run_acts 9 [Enable; Irq 32; Int 48; Disable] demo_intr = Done s'
    ∧ in_external_intr s' = false ∧ ∃ es, trace s' = trace demo_intr ++ es ∧ paired es)
  ∧ (∃ s', run_acts 3 [Enable; Irq 32; Int 48; Disable] demo_intr = Open s'
    ∧ in_external_intr s' = true ∧ ∃ es rest, trace s' = trace demo_intr ++ es ∧ paired (es ++ rest)).
Proof.
  pose proof (interrupts_paired 9 [Enable; Irq 32; Int 48; Disable] demo_intr demo_intr_ok eq_refl) as H.
  pose proof (interrupts_paired 3 [Enable; Irq 32; Int 48; Disable] demo_intr demo_intr_ok eq_refl) as H'.
  assert (E : ∃ s', run_acts 9 [Enable; Irq 32; Int 48; Disable] demo_intr = Done s')
    by (eexists; vm_compute; reflexivity).
  assert (E' : ∃ s', run_acts 3 [Enable; Irq 32; Int 48; Disable] demo_intr = Open s' ∧ in_external_intr s' = true)
    by (eexists; split; vm_compute; reflexivity).
  destruct E as [s1 E], E' as (s2 & E' & He). rewrite E in H. rewrite E' in H'.
  split; [exists s1|exists s2]; (split; [done|]).
  - destruct H as (_ & H1 & H2). split; [exact H1|exact H2].
  - split; [exact He|exact H'].
Defined.
