(* ===== verification/Tokenizer.v ===== *)
(** * The shell's tokenizer (hw3/tokenizer.c)

    [tokenize] splits a command line into words, with single and double quotes and
    backslashes.  A line is the list of its characters, the vector of tokens the list of
    the words pushed; [abort] is [Panic], and a write outside the 4096 bytes of the static
    buffer is [Stuck].  Allocations succeed. *)
From Stdlib Require Import (notations) Ascii String.
From S2P Require Import Prelude Mem CString Sorting Stdio.

Inductive mode := MODE_NORMAL | MODE_SQUOTE | MODE_DQUOTE.

(** [token] holds the first [n] bytes of the buffer. *)
Record scan := Scan { smode : mode; token : list Z; words : list (list Z) }.

Definition TOKEN_MAX : nat := 4096.
(** [token[n++] = c]. *)
Definition add (s : scan) (c : Z) : res scan :=
  if (length (token s) <? TOKEN_MAX)%nat then Ret (Scan (smode s) (token s ++ [c]) (words s)) else Stuck.
(** [copy_word (token, n)], which writes a terminator behind the word, and [vector_push]. *)
Definition push_word (s : scan) : res scan :=
  if (length (token s) <? TOKEN_MAX)%nat then Ret (Scan (smode s) [] (words s ++ [token s])) else Stuck.
Definition set_mode (s : scan) (m : mode) : scan := Scan m (token s) (words s).

(** [if (n + 1 >= n_max) abort ();] *)
Definition check_room (s : scan) : res scan :=
  if (TOKEN_MAX <=? length (token s) + 1)%nat then Panic else Ret s.

(** A character other than a backslash. *)
Definition plain_char (s : scan) (c : Z) : res scan :=
  match smode s with
  | MODE_NORMAL =>
    if c =? chr "'" then Ret (set_mode s MODE_SQUOTE)
    else if c =? 34 then Ret (set_mode s MODE_DQUOTE)
    else if isspace c then (if (0 <? length (token s))%nat then push_word s else Ret s)
    else add s c
  | MODE_SQUOTE => if c =? chr "'" then Ret (set_mode s MODE_NORMAL) else add s c
  | MODE_DQUOTE => if c =? 34 then push_word (set_mode s MODE_NORMAL) else add s c
  end.

(** The loop over the line; a backslash takes the next character with it. *)
Fixpoint scan_line (line : list Z) (s : scan) : res scan :=
  match line with
  | [] => Ret s
  | c :: rest =>
    if c =? 92 then
      match rest with
      | [] => s ← check_room s; scan_line rest s
      | d :: rest => s ← add s d; s ← check_room s; scan_line rest s
      end
    else s ← plain_char s c; s ← check_room s; scan_line rest s
  end.
Definition tokenize (line : list Z) : res (list (list Z)) :=
  s ← scan_line line (Scan MODE_NORMAL [] []);
  s ← (if (0 <? length (token s))%nat then push_word s else Ret s);
  Ret (words s).
(** The accessors take the result of [tokenize] or a null pointer. *)
Definition tokens_get_length (tokens : option (list (list Z))) : nat :=
  match tokens with None => O | Some ts => length ts end.
Definition tokens_get_token (tokens : option (list (list Z))) (n : nat) : option (list Z) :=
  match tokens with
  | None => None
  | Some ts => if (length ts <=? n)%nat then None else ts !! n
  end.

Example tokenize_example :
  tokenize (chars "ls  -l 'a b'c\ d") = Ret [chars "ls"; chars "-l"; chars "a bc d"].
Proof. vm_compute. reflexivity. Qed.
(** A closing double quote ends the word, even inside one. *)
Example tokenize_double : tokenize (chars "a" ++ 34 :: chars "b" ++ 34 :: chars "c") = Ret [chars "ab"; chars "c"].
Proof. vm_compute. reflexivity. Qed.

(** ** Quoting *)
Definition special (c : Z) : bool := (c =? chr "'") || (c =? 34) || (c =? 92) || isspace c.
(** A word as a user writes it, with backslashes. *)
Definition escape (w : list Z) : list Z := concat (map (λ c, if special c then [92; c] else [c]) w).
Definition command_line (ws : list (list Z)) : list Z := concat (map (λ w, escape w ++ [32]) ws).

Lemma add_ok t ws c : (length t < 4094)%nat →
  add (Scan MODE_NORMAL t ws) c = Ret (Scan MODE_NORMAL (t ++ [c]) ws)
  ∧ check_room (Scan MODE_NORMAL (t ++ [c]) ws) = Ret (Scan MODE_NORMAL (t ++ [c]) ws).
Proof.
  intros H. unfold add, check_room, TOKEN_MAX. cbn [token]. rewrite length_app. cbn [length].
  destruct (Nat.ltb_spec (length t) 4096); [|lia].
  by destruct (Nat.leb_spec 4096 (length t + 1 + 1)); [lia|].
Qed.

Lemma scan_escape w : ∀ rest t ws, (length t + length w < 4095)%nat →
  scan_line (escape w ++ rest) (Scan MODE_NORMAL t ws) = scan_line rest (Scan MODE_NORMAL (t ++ w) ws).
Proof.
  induction w as [|c w IH]; intros rest t ws Hl; [by rewrite app_nil_r|]. cbn [length] in Hl.
  unfold escape in *. cbn [map concat]. rewrite <- app_assoc.
  destruct (add_ok t ws c) as [Ha Hc]; [lia|].
  destruct (special c) eqn:Es; cbn [app scan_line].
  - change (92 =? 92) with true. cbn iota. rewrite Ha, bind_Ret, Hc, bind_Ret, IH by (rewrite length_app; cbn; lia).
    by rewrite <- app_assoc.
  - unfold special in Es. rewrite !orb_false_iff in Es. destruct Es as (((E1 & E2) & E3) & E4).
    rewrite E3. unfold plain_char. cbn [smode]. rewrite E1, E2, E4.
    rewrite Ha, bind_Ret, Hc, bind_Ret, IH by (rewrite length_app; cbn; lia). by rewrite <- app_assoc.
Qed.

Lemma scan_command ws : ∀ done_,
  Forall (λ w, (0 < length w < 4095)%nat) ws →
  scan_line (command_line ws) (Scan MODE_NORMAL [] done_) = Ret (Scan MODE_NORMAL [] (done_ ++ ws)).
Proof.
  induction ws as [|w ws IH]; intros d Hw; [by rewrite app_nil_r|]. inversion Hw as [|? ? Hl Hw']; subst.
  unfold command_line in *. cbn [map concat]. rewrite <- !app_assoc, scan_escape by (cbn; lia).
  cbn [app scan_line]. change (32 =? 92) with false. cbn iota.
  unfold plain_char. cbn [smode token]. change (32 =? chr "'") with false. change (32 =? 34) with false.
  change (isspace 32) with true. cbn iota. destruct (Nat.ltb_spec 0 (length w)); [|lia].
  unfold push_word, TOKEN_MAX. cbn [token]. destruct (Nat.ltb_spec (length w) 4096); [|lia].
  rewrite bind_Ret. unfold check_room. cbn [token length].
  change (TOKEN_MAX <=? 0 + 1)%nat with false. cbn iota. rewrite bind_Ret, IH by done.
  by rewrite <- app_assoc.
Qed.

(** Quoting with backslashes is undone: the tokens of the line that spells out a list of
    non-empty words are these words, whatever characters they contain. *)
Theorem tokenize_roundtrip ws :
  Forall (λ w, (0 < length w < 4095)%nat) ws → tokenize (command_line ws) = Ret ws.
Proof. intros Hw. unfold tokenize. by rewrite scan_command. Qed.

(** ** Bounds *)
Definition fits (s : scan) : Prop := (length (token s) < 4095)%nat.
(** Returns a state that satisfies [P], or aborts. *)
Definition safely (r : res scan) (P : scan → Prop) : Prop :=
  match r with Ret s => P s | Panic => True | Stuck => False end.

Lemma safely_bind r k P Q : safely r P → (∀ s, P s → safely (k s) Q) → safely (r ≫= k) Q.
Proof. destruct r; cbn; auto. Qed.
Lemma check_room_safely s : safely (check_room s) fits.
Proof.
  unfold check_room, TOKEN_MAX. destruct (Nat.leb_spec 4096 (length (token s) + 1)); [done|].
  unfold safely, fits. lia.
Qed.
Lemma add_safely s c : fits s → safely (add s c) (λ _, True).
Proof.
  unfold fits, add, TOKEN_MAX. intros. by destruct (Nat.ltb_spec (length (token s)) 4096); [|lia].
Qed.
Lemma push_word_ok s : fits s → push_word s = Ret (Scan (smode s) [] (words s ++ [token s])).
Proof.
  unfold fits, push_word, TOKEN_MAX. intros. by destruct (Nat.ltb_spec (length (token s)) 4096); [|lia].
Qed.
Lemma push_safely s : fits s → safely (push_word s) (λ _, True).
Proof. intros. by rewrite push_word_ok. Qed.
Lemma plain_safely s c : fits s → safely (plain_char s c) (λ _, True).
Proof.
  intros Hs. unfold plain_char. destruct (smode s); repeat case_match; try done; auto using add_safely, push_safely.
Qed.
Lemma scan_line_safely n : ∀ line s, (length line ≤ n)%nat → fits s → safely (scan_line line s) fits.
Proof.
  induction n as [|n IH]; intros [|c rest] s Hl Hs; cbn [length scan_line] in *; try done; [lia|].
  destruct (c =? 92).
  - destruct rest as [|d rest]; cbn [length] in Hl.
    + eapply safely_bind; [apply check_room_safely|]. done.
    + eapply safely_bind; [by apply add_safely|]. intros s1 _.
      eapply safely_bind; [apply check_room_safely|]. intros s2 H2. apply IH; [lia|done].
  - eapply safely_bind; [by apply plain_safely|]. intros s1 _.
    eapply safely_bind; [apply check_room_safely|]. intros s2 H2. apply IH; [lia|done].
Qed.

(** No line makes [tokenize] write outside its buffer, and it ends on every line: it returns
    the words, or aborts on a word that is too long. *)
Theorem tokenize_bounded line : tokenize line = Panic ∨ ∃ ws, tokenize line = Ret ws.
Proof.
  unfold tokenize. pose proof (scan_line_safely (length line) line (Scan MODE_NORMAL [] [])) as H.
  specialize (H ltac:(lia) ltac:(unfold fits; cbn; lia)).
  destruct (scan_line line _) as [s| |]; [|by left|done]. cbn [mbind res_bind]. cbn [safely] in H.
  right. destruct (0 <? length (token s))%nat; [|eauto].
  rewrite push_word_ok by done. eauto.
Qed.
