(* ===== verification/Mmu.v ===== *)
(** * The paging simulator (hw6-pt-starter: ram.c, mmu.c)

    Simulated physical memory in chunks that are allocated on first use, and the walk of a
    three-level page table with 64-bit entries (x86 with physical address extension).  What
    a newly allocated chunk contains is a parameter. *)
From S2P Require Import Prelude Mem CString Arithmetic.

Definition CHUNK_SIZE : Z := 4194304.
Definition MAX_CHUNKS : Z := 16384.

(** [chunks] by number; an entry of [chunk_table] that is not in the map is -1. *)
Record ram := Ram { chunk_table : gmap Z Z; chunks : gmap Z mem; num_chunks : Z }.

Section Ram.
(** The contents [realloc] gives chunk number [n]. *)
Context (fresh : Z → mem).

Definition ram_init : ram := Ram ∅ ∅ 0.

(** The number of the chunk; an index outside the table is [Stuck]. *)
Definition get_chunk (r : ram) (idx : Z) : res (Z * ram) :=
  if (0 <=? idx) && (idx <? MAX_CHUNKS) then
    match chunk_table r !! idx with
    | Some n => Ret (n, r)
    | None =>
      let n := num_chunks r in
      Ret (n, Ram (<[idx := n]> (chunk_table r)) (<[n := fresh n]> (chunks r)) (n + 1))
    end
  else Stuck.

Definition chunk (r : ram) (n : Z) : mem := default ∅ (chunks r !! n).

(** [memcpy] into a chunk and out of it. *)
Fixpoint copy_in (c : mem) (ofs : Z) (bs : list Z) : mem :=
  match bs with
  | [] => c
  | b :: bs => copy_in (store8 c ofs b) (ofs + 1) bs
  end.
Definition copy_out (c : mem) (ofs : Z) (len : nat) : list Z :=
  map (λ i, load8 c (ofs + Z.of_nat i)) (seq 0 len).

Fixpoint ram_store (fuel : nat) (r : ram) (addr : Z) (buf : list Z) : res ram :=
  match fuel with
  | O => Stuck
  | S fuel =>
    match buf with
    | [] => Ret r
    | _ =>
      let chunk_idx := addr / CHUNK_SIZE in
      '(n, r) ← get_chunk r chunk_idx;
      let offset := addr mod CHUNK_SIZE in
      let amount_in_chunk := CHUNK_SIZE - offset in
      if len buf <=? amount_in_chunk then
        Ret (Ram (chunk_table r) (<[n := copy_in (chunk r n) offset buf]> (chunks r)) (num_chunks r))
      else
        let k := Z.to_nat amount_in_chunk in
        ram_store fuel
          (Ram (chunk_table r) (<[n := copy_in (chunk r n) offset (take k buf)]> (chunks r)) (num_chunks r))
          addr (drop k buf)
    end
  end.

(** The bytes that end up in [buf]. *)
Fixpoint ram_fetch (fuel : nat) (r : ram) (addr : Z) (len : nat) : res (list Z * ram) :=
  match fuel with
  | O => Stuck
  | S fuel =>
    if (len =? 0)%nat then Ret ([], r) else
    let chunk_idx := addr / CHUNK_SIZE in
    '(n, r) ← get_chunk r chunk_idx;
    let offset := addr mod CHUNK_SIZE in
    let amount_in_chunk := CHUNK_SIZE - offset in
    if Z.of_nat len <=? amount_in_chunk then Ret (copy_out (chunk r n) offset len, r)
    else
      let k := Z.to_nat amount_in_chunk in
      '(bs, r') ← ram_fetch fuel r addr (len - k);
      Ret (copy_out (chunk r n) offset k ++ bs, r')
  end.

(** ** mmu.c *)
Definition PFN_MASK : Z := Z.ones 40.
Definition vaddr_off (v : Z) : Z := Z.land v 4095.
Definition vaddr_pdpi (v : Z) : Z := Z.shiftr (Z.land v 3221225472) 30.
Definition vaddr_pdi (v : Z) : Z := Z.shiftr (Z.land v 1071644672) 21.
Definition vaddr_pti (v : Z) : Z := Z.shiftr (Z.land v 2093056) 12.
Definition pfn_to_addr (pfn : Z) : Z := u64 (Z.shiftl pfn 12).

(** A little-endian word. *)
Definition word (bs : list Z) : Z := foldr (λ b v, b + 256 * v) 0 bs.

(** The part the three functions share: the entry at an address, [None] for the result -1. *)
Definition read_entry (r : ram) (entry_addr : Z) : res (option Z * ram) :=
  '(bs, r) ← ram_fetch 9 r entry_addr 8;
  let entry := word bs in
  Ret (if Z.land entry 1 =? 0 then None
       else Some (Z.shiftr (Z.land entry (u64 (Z.shiftl PFN_MASK 12))) 12), r).

Definition get_page_directory_pointer (r : ram) (table_addr entry_index : Z) : res (option Z * ram) :=
  if 4 <=? entry_index then Ret (None, r)
  else read_entry r (u64 (table_addr + entry_index * 8)).
Definition get_page_directory (r : ram) (table_pfn entry_index : Z) : res (option Z * ram) :=
  if 512 <=? entry_index then Ret (None, r)
  else read_entry r (u64 (pfn_to_addr table_pfn + entry_index * 8)).
Definition get_page_table_entry (r : ram) (table_pfn entry_index : Z) : res (option Z * ram) :=
  if 512 <=? entry_index then Ret (None, r)
  else read_entry r (u64 (pfn_to_addr table_pfn + entry_index * 8)).

Definition virtual_to_physical_address (r : ram) (vaddr cr3 : Z) : res (option Z * ram) :=
  '(pdp, r) ← get_page_directory_pointer r cr3 (vaddr_pdpi vaddr);
  match pdp with
  | None => Ret (None, r)
  | Some pfn =>
    '(pd, r) ← get_page_directory r pfn (vaddr_pdi vaddr);
    match pd with
    | None => Ret (None, r)
    | Some pfn =>
      '(pt, r) ← get_page_table_entry r pfn (vaddr_pti vaddr);
      match pt with
      | None => Ret (None, r)
      | Some pfn => Ret (Some (u64 (pfn_to_addr pfn + vaddr_off vaddr)), r)
      end
    end
  end.

(** [str_from_virt]: [buf] has [buf_len] bytes of which the first [i] are the string so far;
    a write outside it is [Stuck].  [None] is a page fault. *)
Fixpoint str_loop (fuel : nat) (r : ram) (vaddr cr3 : Z) (i buf_len : Z) (buf : list Z)
    : res (option (list Z) * ram) :=
  match fuel with
  | O => Stuck
  | S fuel =>
    '(paddr, r) ← virtual_to_physical_address r (u32 (vaddr + i)) cr3;
    match paddr with
    | None => Ret (None, r)
    | Some paddr =>
      '(bs, r) ← ram_fetch 2 r paddr 1;
      let c := bs !!! 0%nat in
      if buf_len <=? i then Stuck else
      let buf_len := if buf_len <=? i + 1 then buf_len * 2 else buf_len in
      if buf_len <=? i + 1 then Stuck else
      if c =? 0 then Ret (Some buf, r)
      else str_loop fuel r vaddr cr3 (i + 1) buf_len (buf ++ [c])
    end
  end.
Definition str_from_virt (fuel : nat) (r : ram) (vaddr cr3 : Z) : res (option (list Z) * ram) :=
  str_loop fuel r vaddr cr3 0 1 [].

(** ** Memory, byte by byte *)
Definition ram_ok (r : ram) : Prop :=
  (∀ i n, chunk_table r !! i = Some n → 0 ≤ n < num_chunks r ∧ 0 ≤ i < MAX_CHUNKS)
  ∧ (∀ i j n, chunk_table r !! i = Some n → chunk_table r !! j = Some n → i = j)
  ∧ 0 ≤ num_chunks r.

(** The byte at a physical address whose chunk is allocated. *)
Definition byte_at (r : ram) (a : Z) : option Z :=
  n ← chunk_table r !! (a / CHUNK_SIZE); Some (load8 (chunk r n) (a mod CHUNK_SIZE)).

Lemma ram_init_ok : ram_ok ram_init.
Proof. by split_and!. Qed.

Lemma get_chunk_ok r idx :
  ram_ok r → 0 ≤ idx < MAX_CHUNKS →
  ∃ n r', get_chunk r idx = Ret (n, r') ∧ ram_ok r' ∧ chunk_table r' !! idx = Some n
    ∧ (∀ a b, byte_at r a = Some b → byte_at r' a = Some b)
    ∧ (∀ m, chunk_table r !! idx = Some m → r' = r).
Proof.
  intros (Hr & Hi & Hn) Hidx. unfold get_chunk.
  destruct (Z.leb_spec 0 idx), (Z.ltb_spec idx MAX_CHUNKS); try lia. cbn [andb].
  destruct (chunk_table r !! idx) as [n|] eqn:E.
  - exists n, r. split_and!; [done|done|done|done|done].
  - eexists _, _. split; [reflexivity|]. split_and!; cbn [chunk_table num_chunks].
    + split_and!; cbn [chunk_table num_chunks]; [| |lia].
      * intros i m. rewrite lookup_insert_Some. intros [[<- <-]|[_ H']]; [unfold MAX_CHUNKS in *; lia|].
        apply Hr in H'. lia.
      * intros i j m. rewrite !lookup_insert_Some.
        intros [[<- <-]|[Hne H1]] [[<- Hm]|[Hne2 H2]]; [done| | |by eapply Hi].
        -- apply Hr in H2. lia.
        -- subst. apply Hr in H1. lia.
    + by rewrite lookup_insert_eq.
    + intros a b. unfold byte_at. cbn [chunk_table]. destruct (decide (a / CHUNK_SIZE = idx)) as [->|].
      * by rewrite E.
      * rewrite lookup_insert_ne by done. destruct (chunk_table r !! (a / CHUNK_SIZE)) as [m|] eqn:Em; [|done].
        cbn. unfold chunk. cbn [chunks]. rewrite lookup_insert_ne; [done|]. apply Hr in Em. lia.
    + done.
Qed.

Lemma load8_put_bytes bs : ∀ c o x,
  load8 (copy_in c o bs) x
  = if decide (o ≤ x < o + len bs) then (bs !!! Z.to_nat (x - o)) mod 256 else load8 c x.
Proof.
  induction bs as [|b bs IH]; intros c o x; cbn [copy_in length].
  - by rewrite decide_False by lia.
  - rewrite IH. destruct (decide (o + 1 ≤ x < o + 1 + len bs)).
    + rewrite decide_True by lia. by replace (Z.to_nat (x - o)) with (S (Z.to_nat (x - (o + 1)))) by lia.
    + rewrite load8_store8. destruct (decide (o = x)) as [->|].
      * rewrite decide_True by lia. by replace (Z.to_nat (x - x)) with 0%nat by lia.
      * by rewrite decide_False by lia.
Qed.

Lemma same_chunk a i : 0 ≤ i → a mod CHUNK_SIZE + i < CHUNK_SIZE →
  (a + i) / CHUNK_SIZE = a / CHUNK_SIZE ∧ (a + i) mod CHUNK_SIZE = a mod CHUNK_SIZE + i.
Proof. unfold CHUNK_SIZE. intros. Z.to_euclidean_division_equations. lia. Qed.

(** [in_chunk a n]: [n] bytes at [a] lie in one chunk of the simulated memory. *)
Definition in_chunk (a n : Z) : Prop :=
  0 ≤ a < CHUNK_SIZE * MAX_CHUNKS ∧ a mod CHUNK_SIZE + n ≤ CHUNK_SIZE.

Lemma chunk_index a n : in_chunk a n → 0 ≤ a / CHUNK_SIZE < MAX_CHUNKS.
Proof.
  intros [Ha _]. split; [by apply Z.div_pos; unfold CHUNK_SIZE; lia|].
  apply Z.div_lt_upper_bound; [done|]. lia.
Qed.

Lemma ram_fetch_spec fuel r a (n : nat) :
  ram_ok r → (0 < n)%nat → in_chunk a (Z.of_nat n) →
  ∃ bs r', ram_fetch (S fuel) r a n = Ret (bs, r') ∧ ram_ok r' ∧ length bs = n
    ∧ (∀ i : nat, (i < n)%nat → byte_at r' (a + Z.of_nat i) = bs !! i)
    ∧ (∀ x b, byte_at r x = Some b → byte_at r' x = Some b)
    ∧ (is_Some (byte_at r a) → r' = r).
Proof.
  intros Hr Hn Hc. cbn [ram_fetch]. destruct (Nat.eqb_spec n 0); [lia|].
  destruct (get_chunk_ok r (a / CHUNK_SIZE) Hr (chunk_index _ _ Hc)) as (k & r' & E & Hr' & Hk & Hp & Hs).
  rewrite E, bind_Ret. destruct Hc as [_ Hc].
  destruct (Z.leb_spec (Z.of_nat n) (CHUNK_SIZE - a mod CHUNK_SIZE)); [|lia].
  eexists _, r'. split; [reflexivity|]. split; [done|]. unfold copy_out.
  split; [by rewrite length_map, length_seq|]. split; [|split; [done|]].
  - intros i Hi. unfold byte_at. destruct (same_chunk a (Z.of_nat i)) as [-> ->]; [lia|lia|].
    rewrite Hk. change (mbind ?f (Some k)) with (f k). cbn beta.
    rewrite list_lookup_fmap, lookup_seq_lt by done. done.
  - intros [b Hb]. unfold byte_at in Hb. destruct (chunk_table r !! (a / CHUNK_SIZE)) as [m|]; [|done].
    by apply (Hs m).
Qed.

Lemma ram_store_spec fuel r a bs :
  ram_ok r → bs ≠ [] → in_chunk a (len bs) →
  ∃ r', ram_store (S fuel) r a bs = Ret r' ∧ ram_ok r'
    ∧ (∀ i b, bs !! i = Some b → byte_at r' (a + Z.of_nat i) = Some (b mod 256))
    ∧ (∀ x b, ¬ (a ≤ x < a + len bs) → byte_at r x = Some b → byte_at r' x = Some b).
Proof.
  intros Hr Hn Hc. destruct bs as [|b0 bs0]; [done|]. cbn [ram_store]. set (bs := b0 :: bs0) in *.
  destruct (get_chunk_ok r (a / CHUNK_SIZE) Hr (chunk_index _ _ Hc)) as (k & r' & E & Hr' & Hk & Hp & _).
  rewrite E, bind_Ret. destruct Hc as [_ Hc].
  destruct (Z.leb_spec (len bs) (CHUNK_SIZE - a mod CHUNK_SIZE)); [|lia].
  eexists. split; [reflexivity|]. split; [exact Hr'|]. split.
  - intros i b Hb. unfold byte_at. cbn [chunk_table]. apply lookup_lt_Some in Hb as Hl.
    destruct (same_chunk a (Z.of_nat i)) as [-> ->]; [lia|lia|]. rewrite Hk.
    change (mbind ?f (Some k)) with (f k). cbn beta. unfold chunk at 1. cbn [chunks].
    rewrite lookup_insert_eq. cbn [default from_option id]. rewrite load8_put_bytes, decide_True by lia.
    replace (Z.to_nat _) with i by lia. by rewrite (list_lookup_total_correct _ _ _ Hb).
  - intros x b Hx Hb. apply Hp in Hb. unfold byte_at in *. cbn [chunk_table].
    destruct (chunk_table r' !! (x / CHUNK_SIZE)) as [m|] eqn:Em; [|done].
    change (mbind ?f (Some m)) with (f m) in *. cbn beta in *. rewrite <- Hb. f_equal.
    unfold chunk. cbn [chunks]. destruct (decide (m = k)) as [->|]; [|by rewrite lookup_insert_ne].
    rewrite lookup_insert_eq. cbn [default from_option id]. rewrite load8_put_bytes, decide_False; [done|].
    assert (x / CHUNK_SIZE = a / CHUNK_SIZE) as Ex by (destruct Hr' as (_ & Hi & _); by eapply Hi).
    pose proof (Z.div_mod x CHUNK_SIZE ltac:(done)). pose proof (Z.div_mod a CHUNK_SIZE ltac:(done)). lia.
Qed.

(** ** The walk *)
(** The eight bytes of an entry; [Stuck] when its chunk is not allocated. *)
Definition entry_at (r : ram) (a : Z) : res Z :=
  match mapM (λ i, byte_at r (a + Z.of_nat i)) (seq 0 8) with
  | Some bs => Ret (word bs)
  | None => Stuck
  end.
Definition frame (entry : Z) : option Z :=
  if Z.odd entry then Some (entry / 4096 mod 2 ^ 40) else None.

(** The reference: present bit, frame number and index of each level by arithmetic. *)
Definition level (r : ram) (table index : Z) (k : Z → res (option Z)) : res (option Z) :=
  e ← entry_at r (table + 8 * index);
  match frame e with None => Ret None | Some f => k f end.
Definition walk (r : ram) (cr3 v : Z) : res (option Z) :=
  level r cr3 (v / 2 ^ 30) (λ f,
  level r (f * 4096) (v / 2 ^ 21 mod 512) (λ f,
  level r (f * 4096) (v / 2 ^ 12 mod 512) (λ f, Ret (Some (f * 4096 + v mod 4096))))).

Lemma byte_at_range r a b : byte_at r a = Some b → 0 ≤ b < 256.
Proof.
  unfold byte_at. destruct (chunk_table r !! _); [|done]. intros [= <-]. apply load8_range.
Qed.
Lemma byte_at_addr r a b : ram_ok r → byte_at r a = Some b → 0 ≤ a < CHUNK_SIZE * MAX_CHUNKS.
Proof.
  intros (Hr & _). unfold byte_at. destruct (chunk_table r !! _) as [n|] eqn:E; [|done]. intros _.
  apply Hr in E as [_ E]. unfold CHUNK_SIZE, MAX_CHUNKS in *. Z.to_euclidean_division_equations. lia.
Qed.

Lemma word_range bs : Forall (λ b, 0 ≤ b < 256) bs → 0 ≤ word bs < 256 ^ len bs.
Proof.
  induction 1 as [|b bs Hb _ IH]; [cbn; lia|]. cbn [word foldr length] in *.
  rewrite Nat2Z.inj_succ, Z.pow_succ_r by lia. change (foldr _ 0 bs) with (word bs) in *. lia.
Qed.

(** The eight bytes of an aligned address lie in one chunk. *)
Lemma aligned_in_chunk a : 0 ≤ a < CHUNK_SIZE * MAX_CHUNKS → a mod 8 = 0 → in_chunk a 8.
Proof.
  intros Ha H8. split; [done|]. unfold CHUNK_SIZE, MAX_CHUNKS in *. Z.to_euclidean_division_equations. lia.
Qed.

Lemma entry_frame e : 0 ≤ e →
  (if Z.land e 1 =? 0 then None
   else Some (Z.shiftr (Z.land e (u64 (Z.shiftl PFN_MASK 12))) 12)) = frame e.
Proof.
  intros He. unfold frame. change 1 with (Z.ones 1) at 1. rewrite Z.land_ones by lia. change (2 ^ 1) with 2.
  rewrite Zmod_odd. destruct (Z.odd e); [|done]. cbn [Z.eqb]. f_equal.
  change (u64 (Z.shiftl PFN_MASK 12)) with (Z.shiftl (Z.ones 40) 12).
  rewrite Z.shiftr_land, Z.shiftr_shiftl_l by lia. change (12 - 12) with 0. rewrite Z.shiftl_0_r.
  by rewrite Z.land_ones, Z.shiftr_div_pow2 by lia.
Qed.

Lemma read_entry_spec r a e :
  ram_ok r → a mod 8 = 0 → entry_at r a = Ret e → read_entry r a = Ret (frame e, r).
Proof.
  intros Hr H8. unfold entry_at. destruct (mapM _ _) as [bs|] eqn:Em; [|done]. intros [= <-].
  apply mapM_Some in Em.
  assert (length bs = 8%nat) as Hl by (apply Forall2_length in Em; by rewrite length_seq in Em).
  assert (∀ i : nat, (i < 8)%nat → byte_at r (a + Z.of_nat i) = bs !! i) as Hb.
  { intros i Hi. destruct (lookup_lt_is_Some_2 bs i) as [b Eb]; [lia|]. rewrite Eb.
    eapply (Forall2_lookup_lr _ _ _ i) in Em; [|by apply lookup_seq_lt|exact Eb]. exact Em. }
  destruct (lookup_lt_is_Some_2 bs 0) as [b0 Eb0]; [lia|].
  pose proof (Hb 0%nat ltac:(lia)) as H0. rewrite Eb0, Z.add_0_r in H0.
  destruct (ram_fetch_spec 8 r a 8 Hr ltac:(lia)) as (bs' & r' & E & _ & Hl' & Hb' & _ & Hs).
  { apply aligned_in_chunk; [by eapply byte_at_addr|done]. }
  rewrite Hs in * by eauto. unfold read_entry. rewrite E, bind_Ret.
  assert (bs' = bs) as ->.
  { apply list_eq. intros i. destruct (decide (i < 8)%nat); [by rewrite <- Hb, <- Hb' by done|].
    by rewrite !lookup_ge_None_2 by lia. }
  rewrite entry_frame; [done|]. apply word_range. apply Forall_lookup. intros i b Eb.
  apply lookup_lt_Some in Eb as Hi. rewrite <- Hb in Eb by lia. by apply byte_at_range in Eb.
Qed.

Lemma entry_at_addr r a e : ram_ok r → entry_at r a = Ret e → 0 ≤ a < CHUNK_SIZE * MAX_CHUNKS.
Proof.
  intros Hr. unfold entry_at. destruct (mapM _ _) as [bs|] eqn:Em; [|done]. intros _.
  apply mapM_Some in Em. inversion Em as [|x y l k Hx]; subst. rewrite Z.add_0_r in Hx.
  by eapply byte_at_addr.
Qed.

Lemma u64_addr a : 0 ≤ a < CHUNK_SIZE * MAX_CHUNKS ∨ 0 ≤ a < 2 ^ 53 → u64 a = a.
Proof. unfold CHUNK_SIZE, MAX_CHUNKS. intros. apply u64_id. unfold is_u64. lia. Qed.

(** One level of the walk. *)
Lemma level_spec r table index k o :
  ram_ok r → table mod 8 = 0 → level r table index k = Ret o →
  ∃ f, read_entry r (u64 (table + index * 8)) = Ret (f, r)
    ∧ match f with None => o = None | Some f => k f = Ret o ∧ 0 ≤ f < 2 ^ 40 end.
Proof.
  intros Hr H8 H. unfold level in H. bind_inv H.
  pose proof (entry_at_addr _ _ _ Hr H0) as Ha.
  replace (table + index * 8) with (table + 8 * index) by lia.
  rewrite u64_addr by lia.
  exists (frame v). split.
  - apply read_entry_spec; [done| |done]. rewrite Z.add_mod, H8, (Z.mul_comm 8), Z.mod_mul by lia. done.
  - unfold frame in *. destruct (Z.odd v); [|by injection H]. split; [done|]. apply Z.mod_pos_bound. lia.
Qed.

Lemma pfn_to_addr_eq f : 0 ≤ f < 2 ^ 40 → pfn_to_addr f = f * 4096 ∧ (f * 4096) mod 8 = 0.
Proof.
  intros Hf. unfold pfn_to_addr. rewrite Z.shiftl_mul_pow2 by lia. change (2 ^ 12) with 4096.
  split; [apply u64_addr; lia|]. by replace (f * 4096) with (f * 512 * 8) by lia; rewrite Z.mod_mul.
Qed.

Lemma vaddr_field v m s (n : Z) :
  0 ≤ s → 0 ≤ n → m = Z.shiftl (Z.ones n) s → Z.shiftr (Z.land v m) s = v / 2 ^ s mod 2 ^ n.
Proof.
  intros Hs Hn ->. rewrite Z.shiftr_land, Z.shiftr_shiftl_l, Z.sub_diag, Z.shiftl_0_r by lia.
  by rewrite Z.land_ones, Z.shiftr_div_pow2 by lia.
Qed.

(** The simulated unit translates as the reference walk does, and faults exactly where an
    entry on the path is not present; the memory is unchanged.  (The tables on the path are
    in allocated chunks, and the top table is aligned to its entries.) *)
Theorem virtual_to_physical_correct r cr3 v o :
  ram_ok r → is_u32 v → cr3 mod 8 = 0 → walk r cr3 v = Ret o →
  virtual_to_physical_address r v cr3 = Ret (o, r).
Proof.
  intros Hr Hv H8 H. unfold walk in H. unfold virtual_to_physical_address.
  unfold vaddr_pdpi, vaddr_pdi, vaddr_pti, vaddr_off.
  rewrite (vaddr_field v _ 30 2), (vaddr_field v _ 21 9), (vaddr_field v _ 12 9) by (done || lia).
  change 4095 with (Z.ones 12). rewrite Z.land_ones by lia.
  rewrite (Z.mod_small (v / 2 ^ 30)) by (unfold is_u32 in Hv; Z.to_euclidean_division_equations; lia).
  change (2 ^ 9) with 512. change (2 ^ 12) with 4096 in *.
  assert (∀ a, (512 <=? a mod 512) = false) as H512.
  { intros a. pose proof (Z.mod_pos_bound a 512). destruct (Z.leb_spec 512 (a mod 512)); lia. }
  unfold get_page_directory_pointer, get_page_directory, get_page_table_entry. rewrite !H512.
  destruct (Z.leb_spec 4 (v / 2 ^ 30)).
  { unfold is_u32 in Hv. Z.to_euclidean_division_equations. lia. }
  apply level_spec in H as (f1 & -> & H1); [|done|done]. rewrite bind_Ret.
  destruct f1 as [f1|]; [|by subst]. destruct H1 as [H1 Hf1].
  destruct (pfn_to_addr_eq f1 Hf1) as [-> A1].
  apply level_spec in H1 as (f2 & -> & H2); [|done|done]. rewrite bind_Ret.
  destruct f2 as [f2|]; [|by subst]. destruct H2 as [H2 Hf2].
  destruct (pfn_to_addr_eq f2 Hf2) as [-> A2].
  apply level_spec in H2 as (f3 & -> & H3); [|done|done]. rewrite bind_Ret.
  destruct f3 as [f3|]; [|by subst]. destruct H3 as [[= <-] Hf3].
  destruct (pfn_to_addr_eq f3 Hf3) as [-> A3].
  rewrite u64_addr; [done|]. pose proof (Z.mod_pos_bound v 4096). lia.
Qed.
End Ram.

(** *** Strings in virtual memory *)
Section Strings.
Context (fresh : Z → mem) (r : ram) (cr3 v : Z).
Hypothesis (Hr : ram_ok r) (H8 : cr3 mod 8 = 0).

(** The byte at a virtual address. *)
Definition virt_byte (a c : Z) : Prop :=
  ∃ p, walk r cr3 (u32 a) = Ret (Some p) ∧ byte_at r p = Some c.

Lemma fetch_byte p c : byte_at r p = Some c → ram_fetch fresh 2 r p 1 = Ret ([c], r).
Proof using Hr.
  intros Hc. destruct (ram_fetch_spec fresh 1 r p 1 Hr ltac:(lia)) as (bs & r' & E & _ & Hl & Hb & _ & Hs).
  { split; [by eapply byte_at_addr|]. pose proof (Z.mod_pos_bound p CHUNK_SIZE ltac:(done)). lia. }
  rewrite Hs in * by eauto. rewrite E. specialize (Hb 0%nat ltac:(lia)). rewrite Z.add_0_r, Hc in Hb.
  destruct bs as [|b [|]]; try done. by injection Hb as <-.
Qed.

Lemma str_loop_spec cs : ∀ fuel i buf_len buf,
  Forall (λ c, c ≠ 0) cs → 0 ≤ i < buf_len → (length cs < fuel)%nat →
  (∀ k c, (cs ++ [0]) !! k = Some c → virt_byte (v + i + Z.of_nat k) c) →
  str_loop fresh fuel r v cr3 i buf_len buf = Ret (Some (buf ++ cs), r).
Proof using Hr H8.
  induction cs as [|c cs IH]; intros fuel i buf_len buf Hz Hi Hf Hb;
    (destruct fuel as [|fuel]; [cbn in Hf; lia|]); cbn [str_loop].
  - destruct (Hb 0%nat 0 eq_refl) as (p & Hw & Hp). rewrite Z.add_0_r in Hw.
    rewrite (virtual_to_physical_correct fresh r cr3 _ (Some p)) by (done || apply u32_range).
    rewrite bind_Ret, (fetch_byte p 0 Hp), bind_Ret. change ([0] !!! 0%nat) with 0.
    destruct (Z.leb_spec buf_len i); [lia|].
    destruct (Z.leb_spec (if buf_len <=? i + 1 then buf_len * 2 else buf_len) (i + 1)) as [Hbl|_].
    { destruct (Z.leb_spec buf_len (i + 1)); lia. }
    by rewrite app_nil_r.
  - inversion Hz; subst. destruct (Hb 0%nat c eq_refl) as (p & Hw & Hp). rewrite Z.add_0_r in Hw.
    rewrite (virtual_to_physical_correct fresh r cr3 _ (Some p)) by (done || apply u32_range).
    rewrite bind_Ret, (fetch_byte p c Hp), bind_Ret. change ([c] !!! 0%nat) with c.
    destruct (Z.leb_spec buf_len i); [lia|].
    destruct (Z.leb_spec (if buf_len <=? i + 1 then buf_len * 2 else buf_len) (i + 1)) as [Hbl|Hbl].
    { destruct (Z.leb_spec buf_len (i + 1)); lia. }
    destruct (Z.eqb_spec c 0); [done|].
    rewrite IH; [by rewrite <- app_assoc|done|lia|cbn in Hf; lia|].
    intros k d Hk. replace (v + (i + 1) + Z.of_nat k) with (v + i + Z.of_nat (S k)) by lia. by apply Hb.
Qed.

(** [str_from_virt] returns the string at a virtual address, byte by byte through the tables,
    across pages that are not adjacent in physical memory; it never writes outside its
    growing buffer. *)
Theorem str_from_virt_correct cs fuel :
  Forall (λ c, c ≠ 0) cs → (length cs < fuel)%nat →
  (∀ k c, (cs ++ [0]) !! k = Some c → virt_byte (v + Z.of_nat k) c) →
  str_from_virt fresh fuel r v cr3 = Ret (Some cs, r).
Proof using Hr H8.
  intros Hz Hf Hb. unfold str_from_virt. rewrite (str_loop_spec cs); [done|done|lia|done|].
  intros k c Hk. rewrite Z.add_0_r. by apply Hb.
Qed.
End Strings.

(** A fetch that crosses a chunk boundary does not advance the address: two bytes from the
    last address of a chunk give its last byte twice, whatever the next chunk holds. *)
Theorem ram_fetch_crossing fresh r n b c :
  chunk_table r !! 0 = Some n → byte_at r (CHUNK_SIZE - 1) = Some b → byte_at r CHUNK_SIZE = Some c →
  ram_fetch fresh 3 r (CHUNK_SIZE - 1) 2 = Ret ([b; b], r).
Proof.
  intros Hn Hb _. unfold byte_at in Hb. change ((CHUNK_SIZE - 1) / CHUNK_SIZE) with 0 in Hb.
  rewrite Hn in Hb. change (mbind ?f (Some n)) with (f n) in Hb. injection Hb as Hb.
  change ((CHUNK_SIZE - 1) mod CHUNK_SIZE) with 4194303 in Hb.
  assert (get_chunk fresh r 0 = Ret (n, r)) as Hg by (unfold get_chunk; cbn [andb]; by rewrite Hn).
  transitivity ('(n, r) ← get_chunk fresh r 0;
    '(bs, r') ← ('(n, r) ← get_chunk fresh r 0; Ret ([load8 (chunk r n) 4194303], r));
    Ret (load8 (chunk r n) 4194303 :: bs, r')); [reflexivity|].
  by rewrite Hg, bind_Ret, Hg, bind_Ret, bind_Ret, Hb.
Qed.
