(* ===== verification/Hash.v ===== *)
(** * Hash tables (lib/kernel/hash.c)

    A table is an array of buckets, each the sequence of the addresses its list holds
    ([KList] relates lists in memory to such sequences).  The hash and comparison functions
    are the client's; whether the allocation of a new bucket array succeeds is an argument
    of the operations that make one.  A table refines a set of elements no two of which are
    equal, whatever allocations fail. *)
From S2P Require Import Prelude Mem.

(** ** Sample hash functions *)
Definition FNV_32_PRIME : Z := 16777619.
Definition FNV_32_BASIS : Z := 2166136261.

Fixpoint hash_bytes_loop (m : mem) (buf : Z) (size : nat) (h : Z) : Z :=
  match size with
  | O => h
  | S size => hash_bytes_loop m (buf + 1) size (Z.lxor (u32 (h * FNV_32_PRIME)) (load8 m buf))
  end.
Definition hash_bytes (m : mem) (buf size : Z) : res Z :=
  ASSERT (negb (buf =? NULL));;
  Ret (hash_bytes_loop m buf (Z.to_nat size) FNV_32_BASIS).

Fixpoint hash_string_loop (fuel : nat) (m : mem) (s h : Z) : res Z :=
  match fuel with
  | O => Stuck
  | S fuel =>
    if load8 m s =? 0 then Ret h
    else hash_string_loop fuel m (s + 1) (Z.lxor (u32 (h * FNV_32_PRIME)) (load8 m s))
  end.
Definition hash_string (fuel : nat) (m : mem) (s : Z) : res Z :=
  ASSERT (negb (s =? NULL));;
  hash_string_loop fuel m s FNV_32_BASIS.

(** [hash_bytes] of the variable's own bytes, at any address of the stack. *)
Definition hash_int (m : mem) (addr i : Z) : res Z := hash_bytes (store32 m addr (u32 i)) addr 4.

(** ** Powers of two *)
Definition turn_off_least_1bit (x : Z) : Z := Z.land x (u32 (x - 1)).
Definition is_power_of_2 (x : Z) : bool := negb (x =? 0) && (turn_off_least_1bit x =? 0).
Fixpoint power_loop (fuel : nat) (n : Z) : res Z :=
  match fuel with
  | O => Stuck
  | S fuel => if is_power_of_2 n then Ret n else power_loop fuel (turn_off_least_1bit n)
  end.

(** ** The table *)
Record hash := Hash { h_elem_cnt : Z; h_bucket_cnt : Z; h_buckets : list (list Z) }.

Definition BEST_ELEMS_PER_BUCKET : Z := 2.

Section Hash.
Context (hash_fn : Z → Z) (less_fn : Z → Z → bool).

Definition hash_equal (a b : Z) : bool := negb (less_fn a b) && negb (less_fn b a).

Definition find_bucket (h : hash) (e : Z) : Z := Z.land (hash_fn e) (u32 (h_bucket_cnt h - 1)).
Definition get_bucket (h : hash) (i : Z) : res (list Z) :=
  match h_buckets h !! Z.to_nat i with Some b => Ret b | None => Panic end.

Fixpoint find_elem (bucket : list Z) (e : Z) : option Z :=
  match bucket with
  | [] => None
  | hi :: bucket => if hash_equal hi e then Some hi else find_elem bucket e
  end.

Definition push_elem (h : hash) (i e : Z) : res hash :=
  b ← get_bucket h i;
  Ret (Hash (h_elem_cnt h) (h_bucket_cnt h) (<[Z.to_nat i := e :: b]> (h_buckets h))).
Definition insert_elem (h : hash) (i e : Z) : res hash :=
  push_elem (Hash (u32 (h_elem_cnt h + 1)) (h_bucket_cnt h) (h_buckets h)) i e.
(** [list_remove] takes the element out of the list it is on. *)
Definition remove_elem (h : hash) (e : Z) : hash :=
  Hash (u32 (h_elem_cnt h - 1)) (h_bucket_cnt h) (filter (λ x, x ≠ e) <$> h_buckets h).

(** Moving the elements of a bucket, and of all buckets, into the table's new buckets. *)
Fixpoint move_bucket (old : list Z) (h : hash) : res hash :=
  match old with
  | [] => Ret h
  | e :: old => h ← push_elem h (find_bucket h e) e; move_bucket old h
  end.
Fixpoint move_buckets (old : list (list Z)) (h : hash) : res hash :=
  match old with
  | [] => Ret h
  | b :: old => h ← move_bucket b h; move_buckets old h
  end.

Definition rehash (alloc : bool) (h : hash) : res hash :=
  let n := h_elem_cnt h / BEST_ELEMS_PER_BUCKET in
  let n := if n <? 4 then 4 else n in
  new_bucket_cnt ← power_loop 32 n;
  if new_bucket_cnt =? h_bucket_cnt h then Ret h
  else if negb alloc then Ret h
  else move_buckets (h_buckets h)
         (Hash (h_elem_cnt h) new_bucket_cnt (replicate (Z.to_nat new_bucket_cnt) [])).

(** The elements in the order in which [hash_clear] gives them to a destructor. *)
Fixpoint clear_loop (destructor : bool) (bs : list (list Z)) : list Z * list (list Z) :=
  match bs with
  | [] => ([], [])
  | b :: bs =>
    let '(gone, bs) := clear_loop destructor bs in
    ((if destructor then b else []) ++ gone, [] :: bs)
  end.
Definition hash_clear (h : hash) (destructor : bool) : list Z * hash :=
  let '(gone, bs) := clear_loop destructor (h_buckets h) in
  (gone, Hash 0 (h_bucket_cnt h) bs).
(** [None]: the bucket array has been freed. *)
Definition hash_destroy (h : hash) (destructor : bool) : list Z * option hash :=
  ((if destructor then (hash_clear h true).1 else []), None).

(** [junk] is what the new array holds before its lists are initialised. *)
Definition hash_init (alloc : bool) (junk : list (list Z)) : bool * hash :=
  let h := Hash 0 4 junk in
  if alloc then (true, (hash_clear h false).2) else (false, h).

Definition hash_insert (alloc : bool) (h : hash) (new : Z) : res (option Z * hash) :=
  let i := find_bucket h new in
  bucket ← get_bucket h i;
  let old := find_elem bucket new in
  h ← (match old with None => insert_elem h i new | Some _ => Ret h end);
  h ← rehash alloc h;
  Ret (old, h).

Definition hash_replace (alloc : bool) (h : hash) (new : Z) : res (option Z * hash) :=
  let i := find_bucket h new in
  bucket ← get_bucket h i;
  let old := find_elem bucket new in
  let h := match old with Some old => remove_elem h old | None => h end in
  h ← insert_elem h i new;
  h ← rehash alloc h;
  Ret (old, h).

Definition hash_find (h : hash) (e : Z) : res (option Z) :=
  bucket ← get_bucket h (find_bucket h e);
  Ret (find_elem bucket e).

Definition hash_delete (alloc : bool) (h : hash) (e : Z) : res (option Z * hash) :=
  bucket ← get_bucket h (find_bucket h e);
  match find_elem bucket e with
  | Some found => h ← rehash alloc (remove_elem h found); Ret (Some found, h)
  | None => Ret (None, h)
  end.

Definition hash_size (h : hash) : Z := h_elem_cnt h.
Definition hash_empty (h : hash) : bool := h_elem_cnt h =? 0.

(** The elements in the order in which [hash_apply] calls its action, which is not null. *)
Fixpoint apply_loop (bs : list (list Z)) : list Z :=
  match bs with
  | [] => []
  | b :: bs => b ++ apply_loop bs
  end.
Definition hash_apply (h : hash) : list Z := apply_loop (h_buckets h).
End Hash.

(** ** Iteration *)
Inductive cursor := Head | At (e : Z) | Null.
Record hash_iterator := Iter { it_bucket : Z; it_elem : cursor }.

(** [list_next]: [None] is the end of the list. *)
Fixpoint next_after (b : list Z) (e : Z) : option Z :=
  match b with
  | [] => None
  | x :: b => if x =? e then hd_error b else next_after b e
  end.

Definition hash_first : hash_iterator := Iter 0 Head.

Fixpoint next_loop (fuel : nat) (h : hash) (bucket : Z) (elem : option Z) : res (option Z * hash_iterator) :=
  match elem, fuel with
  | Some e, _ => Ret (Some e, Iter bucket (At e))
  | None, O => Stuck
  | None, S fuel =>
    if h_bucket_cnt h <=? bucket + 1 then Ret (None, Iter (bucket + 1) Null)
    else b ← get_bucket h (bucket + 1); next_loop fuel h (bucket + 1) (hd_error b)
  end.
Definition hash_next (h : hash) (i : hash_iterator) : res (option Z * hash_iterator) :=
  b ← get_bucket h (it_bucket i);
  elem ← (match it_elem i with
          | Head => Ret (hd_error b)
          | At e => Ret (next_after b e)
          | Null => Panic
          end);
  next_loop (S (Z.to_nat (h_bucket_cnt h))) h (it_bucket i) elem.
Definition hash_cur (i : hash_iterator) : option Z :=
  match it_elem i with At e => Some e | _ => None end.

(** ** Powers of two: the loop finds the largest one below its argument. *)
Lemma land_double a b : Z.land (2 * a) (2 * b + 1) = 2 * Z.land a b.
Proof.
  apply Z.bits_inj'. intros n Hn. rewrite Z.land_spec.
  destruct (Z.eq_dec n 0) as [->|].
  - by rewrite Z.testbit_even_0, Z.testbit_even_0.
  - replace n with (Z.succ (n - 1)) by lia.
    rewrite Z.testbit_even_succ, Z.testbit_odd_succ, Z.testbit_even_succ by lia. by rewrite Z.land_spec.
Qed.
Lemma land_odd_even m : Z.land (2 * m + 1) (2 * m) = 2 * m.
Proof.
  apply Z.bits_inj'. intros n Hn. rewrite Z.land_spec.
  destruct (Z.eq_dec n 0) as [->|].
  - by rewrite Z.testbit_even_0, andb_false_r.
  - replace n with (Z.succ (n - 1)) by lia.
    rewrite Z.testbit_even_succ, Z.testbit_odd_succ by lia. by destruct (Z.testbit m (n - 1)).
Qed.

(** A positive number is an odd multiple of a power of two; turning off its last one-bit
    takes the power away. *)
Lemma land_pred v : ∀ m, 0 ≤ v → 0 ≤ m →
  Z.land (2 ^ v * (2 * m + 1)) (2 ^ v * (2 * m + 1) - 1) = 2 ^ (v + 1) * m.
Proof.
  intros m Hv. revert v Hv m. apply (natlike_ind (λ v, ∀ m, 0 ≤ m → _)).
  - intros m Hm. rewrite Z.pow_0_r. replace (1 * (2 * m + 1)) with (2 * m + 1) by lia.
    replace (2 * m + 1 - 1) with (2 * m) by lia. rewrite land_odd_even. lia.
  - intros v Hv IH m Hm. rewrite Z.pow_succ_r by done.
    replace (2 * 2 ^ v * (2 * m + 1)) with (2 * (2 ^ v * (2 * m + 1))) by lia.
    replace (2 * (2 ^ v * (2 * m + 1)) - 1) with (2 * (2 ^ v * (2 * m + 1) - 1) + 1) by lia.
    rewrite land_double, IH by done. replace (Z.succ v + 1) with (Z.succ (v + 1)) by lia.
    rewrite Z.pow_succ_r by lia. lia.
Qed.

Lemma odd_part n : 0 < n → ∃ v m, 0 ≤ v ∧ 0 ≤ m ∧ n = 2 ^ v * (2 * m + 1).
Proof.
  intros Hn. destruct n as [|p|p]; [lia| |lia]. clear Hn. induction p as [p _|p IH|].
  - exists 0, (Z.pos p). rewrite Z.pow_0_r. lia.
  - destruct IH as (v & m & Hv & Hm & E). exists (Z.succ v), m. split_and!; [lia|done|].
    rewrite Z.pow_succ_r by done. lia.
  - by exists 0, 0.
Qed.

Lemma turn_off_eq v m : 0 ≤ v → 0 ≤ m → 2 ^ v * (2 * m + 1) < 4294967296 →
  turn_off_least_1bit (2 ^ v * (2 * m + 1)) = 2 ^ (v + 1) * m.
Proof.
  intros Hv Hm Hlt. assert (0 < 2 ^ v) by (apply Z.pow_pos_nonneg; lia). unfold turn_off_least_1bit.
  rewrite u32_id by (unfold is_u32; nia). by apply land_pred.
Qed.

Lemma log2_turn_off v m : 0 ≤ v → 0 < m → Z.log2 (2 ^ v * (2 * m + 1)) = Z.log2 (2 ^ (v + 1) * m).
Proof.
  intros Hv Hm. assert (0 < 2 ^ v) by (apply Z.pow_pos_nonneg; lia).
  assert (2 ^ (v + 1) = 2 * 2 ^ v) as E1 by (by rewrite Z.pow_add_r by lia; lia).
  rewrite Z.mul_comm with (n := 2 ^ (v + 1)), Z.log2_mul_pow2 by lia.
  destruct (Z.log2_spec m Hm) as [H1 H2]. apply Z.log2_unique.
  - pose proof (Z.log2_nonneg m). lia.
  - pose proof (Z.log2_nonneg m). rewrite Z.pow_succ_r in * by lia.
    rewrite Z.pow_add_r, E1 by lia. nia.
Qed.

Lemma power_loop_spec fuel : ∀ n w,
  0 < n < 4294967296 → 0 ≤ w → (2 ^ w | n) → Z.log2 n - w < Z.of_nat fuel →
  power_loop fuel n = Ret (2 ^ Z.log2 n).
Proof.
  induction fuel as [|fuel IH]; intros n w Hn Hw Hd Hf.
  - exfalso. destruct Hd as [q ->]. assert (0 < 2 ^ w) by (apply Z.pow_pos_nonneg; lia).
    assert (0 < q) by nia. rewrite Z.log2_mul_pow2 in Hf by lia. pose proof (Z.log2_nonneg q). lia.
  - destruct (odd_part n) as (v & m & Hv & Hm & E); [lia|]. cbn [power_loop].
    unfold is_power_of_2. rewrite E, turn_off_eq by lia.
    assert (0 < 2 ^ v) by (apply Z.pow_pos_nonneg; lia).
    assert (0 < 2 ^ (v + 1)) by (apply Z.pow_pos_nonneg; lia).
    destruct (Z.eqb_spec (2 ^ v * (2 * m + 1)) 0); [lia|].
    destruct (Z.eqb_spec (2 ^ (v + 1) * m) 0) as [Em|Em].
    + assert (m = 0) as -> by nia. rewrite Z.mul_1_r. by rewrite Z.log2_pow2.
    + assert (0 < m) by nia. cbn [andb negb]. rewrite log2_turn_off by done.
      apply (IH _ (v + 1)); [|lia|by exists m; lia|].
      * assert (2 ^ (v + 1) = 2 * 2 ^ v) by (by rewrite Z.pow_add_r by lia; lia). nia.
      * rewrite <- log2_turn_off, <- E by done.
        assert (w ≤ v); [|lia]. rewrite E in Hd. destruct (Z_le_gt_dec w v) as [|Hgt]; [done|exfalso].
        destruct Hd as [q Hq]. replace w with (v + (w - v - 1) + 1) in Hq by lia.
        rewrite !Z.pow_add_r in Hq by lia. change (2 ^ 1) with 2 in Hq.
        assert (2 * m + 1 = 2 * (q * 2 ^ (w - v - 1))); [|lia]. nia.
Qed.

(** ** The abstract table: a set of elements, no two of them equal *)
Section Spec.
Context (less_fn : Z → Z → bool).

Inductive hash_op := Insert (e : Z) | Replace (e : Z) | Find (e : Z) | Delete (e : Z).

(** What an operation returns, and the set afterwards. *)
Definition spec_op (s : list Z) (o : hash_op) : option Z * list Z :=
  match o with
  | Insert e =>
    match find_elem less_fn s e with Some old => (Some old, s) | None => (None, e :: s) end
  | Replace e =>
    match find_elem less_fn s e with
    | Some old => (Some old, e :: filter (λ x, x ≠ old) s)
    | None => (None, e :: s)
    end
  | Find e => (find_elem less_fn s e, s)
  | Delete e =>
    match find_elem less_fn s e with
    | Some old => (Some old, filter (λ x, x ≠ old) s)
    | None => (None, s)
    end
  end.
Fixpoint spec_run (s : list Z) (ops : list (hash_op * bool)) : list (option Z) * list Z :=
  match ops with
  | [] => ([], s)
  | (o, _) :: ops =>
    let '(r, s) := spec_op s o in let '(rs, s) := spec_run s ops in (r :: rs, s)
  end.
End Spec.

(** Each operation comes with the outcome of the allocation it may make. *)
Definition hash_step (hash_fn : Z → Z) (less_fn : Z → Z → bool) (h : hash) (o : hash_op) (alloc : bool)
    : res (option Z * hash) :=
  match o with
  | Insert e => hash_insert hash_fn less_fn alloc h e
  | Replace e => hash_replace hash_fn less_fn alloc h e
  | Find e => r ← hash_find hash_fn less_fn h e; Ret (r, h)
  | Delete e => hash_delete hash_fn less_fn alloc h e
  end.
Fixpoint hash_run (hash_fn : Z → Z) (less_fn : Z → Z → bool) (h : hash) (ops : list (hash_op * bool))
    : res (list (option Z) * hash) :=
  match ops with
  | [] => Ret ([], h)
  | (o, alloc) :: ops =>
    '(r, h) ← hash_step hash_fn less_fn h o alloc;
    '(rs, h) ← hash_run hash_fn less_fn h ops;
    Ret (r :: rs, h)
  end.

(** What a client's functions must satisfy: elements that are not less either way are
    equal, which is an equivalence, and equal elements have equal hashes. *)
Class HashLaws (hash_fn : Z → Z) (less_fn : Z → Z → bool) : Prop := {
  hl_refl : ∀ x, less_fn x x = false;
  hl_trans : ∀ x y z, hash_equal less_fn x y = true → hash_equal less_fn y z = true →
    hash_equal less_fn x z = true;
  hl_hash : ∀ x y, hash_equal less_fn x y = true → hash_fn x = hash_fn y;
}.

Section Laws.
Context (hash_fn : Z → Z) (less_fn : Z → Z → bool) `{HashLaws hash_fn less_fn}.
Local Abbreviation eqv := (hash_equal less_fn).
Local Abbreviation find := (find_elem less_fn).

Lemma eqv_refl x : eqv x x = true.
Proof. unfold hash_equal. by rewrite hl_refl. Qed.
Lemma eqv_sym x y : eqv x y = true → eqv y x = true.
Proof. unfold hash_equal. by rewrite andb_comm. Qed.

(** No two elements are equal. *)
Definition distinct (s : list Z) : Prop := NoDup s ∧ ∀ x y, x ∈ s → y ∈ s → eqv x y = true → x = y.

Lemma distinct_perm s s' : s ≡ₚ s' → distinct s → distinct s'.
Proof.
  intros Hp [Hn Hd]. split; [by rewrite <- Hp|]. intros x y. rewrite <- !Hp. apply Hd.
Qed.
Lemma distinct_filter s x : distinct s → distinct (filter (λ y, y ≠ x) s).
Proof.
  intros [Hn Hd]. split; [by apply NoDup_filter|]. intros y z Hy Hz.
  apply list_elem_of_filter in Hy as [_ Hy], Hz as [_ Hz]. by apply Hd.
Qed.
Lemma distinct_cons s e : distinct s → (∀ x, x ∈ s → eqv x e = false) → distinct (e :: s).
Proof.
  intros [Hn Hd] He. split.
  - constructor; [|done]. intros Hin. pose proof (He e Hin). by rewrite eqv_refl in *.
  - intros x y [->|Hx]%elem_of_cons [->|Hy]%elem_of_cons Exy; [done|..|by apply Hd].
    + apply eqv_sym in Exy. by rewrite (He y Hy) in Exy.
    + by rewrite (He x Hx) in Exy.
Qed.

Lemma find_some s e x : find s e = Some x → x ∈ s ∧ eqv x e = true.
Proof.
  induction s as [|y s IH]; [done|]. cbn. destruct (eqv y e) eqn:E.
  - intros [= <-]. split; [by left|done].
  - intros Hf. destruct (IH Hf). split; [by right|done].
Qed.
Lemma find_none s e : find s e = None → ∀ x, x ∈ s → eqv x e = false.
Proof.
  induction s as [|y s IH]; cbn; [by intros _ x ?%elem_of_nil|]. destruct (eqv y e) eqn:E; [done|].
  intros Hf x [->|Hx]%elem_of_cons; [done|by apply IH].
Qed.
Lemma find_unique s e x : distinct s → x ∈ s → eqv x e = true → find s e = Some x.
Proof.
  intros [_ Hd] Hx Ex. destruct (find s e) as [y|] eqn:E.
  - apply find_some in E as [Hy Ey]. f_equal. apply Hd; [done..|].
    eapply hl_trans; [done|by apply eqv_sym].
  - by rewrite (find_none _ _ E x Hx) in Ex.
Qed.
(** A search among some of the elements, all those that equal [e] included. *)
Lemma find_part s b e :
  distinct s → (∀ x, x ∈ b → x ∈ s) → (∀ x, x ∈ s → eqv x e = true → x ∈ b) → find b e = find s e.
Proof.
  intros Hd Hs Hb. destruct (find b e) as [x|] eqn:E.
  - apply find_some in E as [Hx Ex]. symmetry. apply find_unique; auto.
  - destruct (find s e) as [y|] eqn:Ey; [|done]. apply find_some in Ey as [Hy Eq].
    by rewrite (find_none _ _ E y (Hb y Hy Eq)) in Eq.
Qed.

(** ** The representation *)

(** [h] has its elements [s] in the right buckets. *)
Record placed (h : hash) (s : list Z) : Prop := {
  pl_pow : ∃ k, 0 ≤ k < 32 ∧ h_bucket_cnt h = 2 ^ k;
  pl_len : Z.of_nat (length (h_buckets h)) = h_bucket_cnt h;
  pl_perm : concat (h_buckets h) ≡ₚ s;
  pl_bucket : ∀ i b e, h_buckets h !! i = Some b → e ∈ b → find_bucket hash_fn h e = Z.of_nat i;
}.
Record represents (h : hash) (s : list Z) : Prop := {
  rp_placed : placed h s;
  rp_distinct : distinct s;
  rp_cnt : h_elem_cnt h = u32 (Z.of_nat (length s));
}.

Lemma find_bucket_mod h k e : 0 ≤ k < 32 → h_bucket_cnt h = 2 ^ k → find_bucket hash_fn h e = hash_fn e mod 2 ^ k.
Proof.
  intros Hk E. unfold find_bucket. assert (1 ≤ 2 ^ k).
  { change 1 with (2 ^ 0). apply Z.pow_le_mono_r; lia. }
  assert (2 ^ k < 4294967296) by (change 4294967296 with (2 ^ 32); apply Z.pow_lt_mono_r; lia).
  rewrite E, u32_id by (unfold is_u32; lia). rewrite <- Z.land_ones by lia. f_equal. rewrite Z.ones_equiv. lia.
Qed.
Lemma bucket_exists h s e :
  placed h s → ∃ b, h_buckets h !! Z.to_nat (find_bucket hash_fn h e) = Some b ∧ 0 ≤ find_bucket hash_fn h e.
Proof.
  intros [(k & Hk & Ek) Hl _ _]. rewrite (find_bucket_mod h k) by done.
  assert (0 < 2 ^ k) by (apply Z.pow_pos_nonneg; lia).
  pose proof (Z.mod_pos_bound (hash_fn e) (2 ^ k)).
  destruct (lookup_lt_is_Some_2 (h_buckets h) (Z.to_nat (hash_fn e mod 2 ^ k))) as [b Hb]; [lia|].
  exists b. split; [done|lia].
Qed.

Lemma find_in_bucket h s e b :
  placed h s → distinct s → h_buckets h !! Z.to_nat (find_bucket hash_fn h e) = Some b → find b e = find s e.
Proof.
  intros Hpl Hd Hb. destruct (bucket_exists h s e Hpl) as (_ & _ & Hpos).
  apply find_part; [done|..].
  - intros x Hx. rewrite <- (pl_perm _ _ Hpl). apply list_elem_of_In, in_concat. exists b.
    split; apply list_elem_of_In; [|done]. by eapply list_elem_of_lookup_2.
  - intros x Hx Ex. rewrite <- (pl_perm _ _ Hpl) in Hx. apply list_elem_of_In, in_concat in Hx as (b' & Hb' & Hx).
    apply list_elem_of_In in Hb' as Hb'2. apply list_elem_of_lookup in Hb'2 as [i Hi].
    apply list_elem_of_In in Hx. pose proof (pl_bucket _ _ Hpl i b' x Hi Hx) as Ei.
    unfold find_bucket in *. rewrite (hl_hash x e Ex) in Ei. rewrite Ei, Nat2Z.id in Hb. congruence.
Qed.

(** ** The operations keep the representation *)
Lemma concat_push (bs : list (list Z)) i b e :
  bs !! i = Some b → concat (<[i := e :: b]> bs) ≡ₚ e :: concat bs.
Proof.
  revert i. induction bs as [|b' bs IH]; intros [|i]; cbn; try done.
  - by intros [= ->].
  - intros Hi. rewrite (IH i Hi). by rewrite Permutation_middle.
Qed.
Lemma concat_filter (P : Z → Prop) `{∀ x, Decision (P x)} (bs : list (list Z)) :
  concat (filter P <$> bs) = filter P (concat bs).
Proof. induction bs as [|b bs IH]; [done|]. cbn. by rewrite IH, filter_app. Qed.

Lemma push_placed h s e :
  placed h s →
  ∃ h', push_elem h (find_bucket hash_fn h e) e = Ret h' ∧ placed h' (e :: s)
    ∧ h_elem_cnt h' = h_elem_cnt h ∧ h_bucket_cnt h' = h_bucket_cnt h.
Proof.
  intros Hpl. destruct (bucket_exists h s e Hpl) as (b & Hb & Hpos). unfold push_elem, get_bucket.
  rewrite Hb, bind_Ret. eexists. split; [reflexivity|]. split; [|done].
  pose proof Hpl as [Hk Hl Hp Hbk]. split; cbn [h_bucket_cnt h_buckets].
  - done.
  - by rewrite length_insert.
  - by rewrite (concat_push _ _ b), Hp.
  - intros i b' x Hi Hx. change (find_bucket hash_fn h x = Z.of_nat i).
    apply list_lookup_insert_Some in Hi as [(<- & <- & _)|[_ Hi]]; [|by eapply Hbk].
    apply elem_of_cons in Hx as [->|Hx]; [lia|]. by eapply Hbk.
Qed.

Lemma remove_placed h s e : placed h s → placed (remove_elem h e) (filter (λ x, x ≠ e) s).
Proof.
  intros [Hk Hl Hp Hbk]. split; cbn [h_bucket_cnt h_buckets remove_elem].
  - done.
  - by rewrite length_fmap.
  - by rewrite concat_filter, Hp.
  - intros i b x Hi Hx. apply list_lookup_fmap_Some in Hi as (b' & -> & Hi).
    apply list_elem_of_filter in Hx as [_ Hx]. by eapply (Hbk i b').
Qed.

Lemma move_bucket_placed old : ∀ h s,
  placed h s → ∃ h', move_bucket hash_fn old h = Ret h' ∧ placed h' (old ++ s) ∧ h_elem_cnt h' = h_elem_cnt h
    ∧ h_bucket_cnt h' = h_bucket_cnt h.
Proof.
  induction old as [|e old IH]; intros h s Hpl; [by exists h|]. cbn [move_bucket].
  destruct (push_placed h s e Hpl) as (h1 & -> & Hpl1 & E1 & E1'). rewrite bind_Ret.
  destruct (IH h1 _ Hpl1) as (h2 & -> & Hpl2 & E2 & E2'). exists h2.
  split_and!; [done| |congruence..]. destruct Hpl2 as [A1 A2 A3 A4]. split; try done.
  rewrite A3. symmetry. apply Permutation_middle.
Qed.
Lemma move_buckets_placed old : ∀ h s,
  placed h s → ∃ h', move_buckets hash_fn old h = Ret h' ∧ placed h' (concat old ++ s) ∧ h_elem_cnt h' = h_elem_cnt h
    ∧ h_bucket_cnt h' = h_bucket_cnt h.
Proof.
  induction old as [|b old IH]; intros h s Hpl; [by exists h|]. cbn [move_buckets].
  destruct (move_bucket_placed b h s Hpl) as (h1 & -> & Hpl1 & E1 & E1'). rewrite bind_Ret.
  destruct (IH h1 _ Hpl1) as (h2 & -> & Hpl2 & E2 & E2'). exists h2.
  split_and!; [done| |congruence..]. destruct Hpl2 as [A1 A2 A3 A4]. split; try done.
  rewrite A3. cbn. rewrite <- app_assoc. apply Permutation_app_swap_app.
Qed.

Lemma empty_placed c k : 0 ≤ k < 32 → placed (Hash c (2 ^ k) (replicate (Z.to_nat (2 ^ k)) [])) [].
Proof.
  intros Hk. assert (0 < 2 ^ k) by (apply Z.pow_pos_nonneg; lia). split; cbn [h_bucket_cnt h_buckets].
  - by exists k.
  - rewrite length_replicate. lia.
  - induction (Z.to_nat (2 ^ k)) as [|n IH]; [done|]. exact IH.
  - intros i b e [-> _]%lookup_replicate. by intros ?%elem_of_nil.
Qed.

(** The number of buckets [rehash] aims at. *)
Definition best_cnt (n : Z) : Z := 2 ^ Z.log2 (Z.max 4 (n / 2)).
Lemma best_cnt_log n : is_u32 n → 0 ≤ Z.log2 (Z.max 4 (n / 2)) < 32.
Proof.
  intros Hn. split; [apply Z.log2_nonneg|]. apply Z.log2_lt_pow2; [lia|].
  unfold is_u32 in Hn. change (2 ^ 32) with 4294967296. Z.to_euclidean_division_equations; lia.
Qed.

Lemma rehash_placed alloc h s :
  is_u32 (h_elem_cnt h) → placed h s →
  ∃ h', rehash hash_fn alloc h = Ret h' ∧ placed h' s ∧ h_elem_cnt h' = h_elem_cnt h
    ∧ h_bucket_cnt h' = if alloc then best_cnt (h_elem_cnt h) else h_bucket_cnt h.
Proof.
  intros Hc Hpl. unfold rehash. change BEST_ELEMS_PER_BUCKET with 2. set (n := h_elem_cnt h / 2).
  replace (if n <? 4 then 4 else n) with (Z.max 4 n) by (destruct (Z.ltb_spec n 4); lia).
  pose proof (best_cnt_log _ Hc) as Hlog. fold n in Hlog.
  assert (0 < Z.max 4 n < 4294967296).
  { unfold is_u32, n in *. Z.to_euclidean_division_equations; lia. }
  rewrite (power_loop_spec 32 (Z.max 4 n) 0), bind_Ret; [|lia|lia|apply Z.divide_1_l|lia].
  unfold best_cnt. fold n. set (k := Z.log2 (Z.max 4 n)) in *.
  destruct (Z.eqb_spec (2 ^ k) (h_bucket_cnt h)) as [Eq|Hne].
  { exists h. split_and!; try done. by destruct alloc. }
  destruct alloc; [|by exists h]. cbn [negb].
  destruct (move_buckets_placed (h_buckets h) _ _ (empty_placed (h_elem_cnt h) k Hlog)) as (h' & -> & Hpl' & E1 & E2).
  exists h'. split_and!; [done| |done|done]. destruct Hpl' as [A1 A2 A3 A4]. split; try done.
  rewrite A3, app_nil_r. apply Hpl.
Qed.

Lemma rehash_rep alloc h s :
  represents h s → ∃ h', rehash hash_fn alloc h = Ret h' ∧ represents h' s.
Proof.
  intros [Hpl Hd Hc]. destruct (rehash_placed alloc h s) as (h' & E & Hpl' & Ec & _); [|done|].
  - rewrite Hc. apply u32_range.
  - exists h'. split; [done|]. split; [done|done|congruence].
Qed.

Lemma u32_succ n : u32 (u32 (Z.of_nat n) + 1) = u32 (Z.of_nat (S n)).
Proof. unfold u32. rewrite Zplus_mod_idemp_l. f_equal. lia. Qed.
Lemma u32_pred n : u32 (u32 (Z.of_nat (S n)) - 1) = u32 (Z.of_nat n).
Proof. unfold u32. rewrite Zminus_mod_idemp_l. f_equal. lia. Qed.

Lemma insert_rep h s e :
  represents h s → (∀ x, x ∈ s → eqv x e = false) →
  ∃ h', insert_elem h (find_bucket hash_fn h e) e = Ret h' ∧ represents h' (e :: s).
Proof.
  intros [Hpl Hd Hc] He. unfold insert_elem.
  assert (placed (Hash (u32 (h_elem_cnt h + 1)) (h_bucket_cnt h) (h_buckets h)) s) as Hpl1 by (by destruct Hpl).
  destruct (push_placed _ s e Hpl1) as (h' & E & Hpl' & Ec & _). exists h'. split; [exact E|].
  split; [done|by apply distinct_cons|]. rewrite Ec. cbn. by rewrite Hc, u32_succ.
Qed.
Lemma remove_rep h s e :
  represents h s → e ∈ s → represents (remove_elem h e) (filter (λ x, x ≠ e) s).
Proof.
  intros [Hpl Hd Hc] He. split; [by apply remove_placed|by apply distinct_filter|]. cbn. rewrite Hc.
  assert (length s = S (length (filter (λ x, x ≠ e) s))) as ->; [|by apply u32_pred].
  destruct Hd as [Hn _]. clear Hpl Hc. induction s as [|y s IH]; [by apply elem_of_nil in He|].
  apply NoDup_cons in Hn as [Hy Hn]. rewrite filter_cons. destruct (decide (y = e)) as [->|Hne].
  - rewrite decide_False by auto. cbn. by rewrite filter_all by (intros x Hx ->; done).
  - rewrite decide_True by done. cbn. f_equal. apply IH; set_solver.
Qed.

(** One step of the table simulates one step of the set. *)
Lemma step_simulates h s o alloc :
  represents h s →
  ∃ h', hash_step hash_fn less_fn h o alloc = Ret ((spec_op less_fn s o).1, h')
    ∧ represents h' (spec_op less_fn s o).2.
Proof.
  intros Hr. pose proof (rp_placed _ _ Hr) as Hpl. pose proof (rp_distinct _ _ Hr) as Hd.
  assert (∀ e, ∃ b, get_bucket h (find_bucket hash_fn h e) = Ret b ∧ find b e = find s e) as Hg.
  { intros e. destruct (bucket_exists h s e Hpl) as (b & Hb & _). exists b. unfold get_bucket. rewrite Hb.
    split; [done|by apply (find_in_bucket h)]. }
  destruct o as [e|e|e|e]; cbn [hash_step spec_op]; destruct (Hg e) as (b & Eb & Ef).
  - unfold hash_insert. rewrite Eb, bind_Ret, Ef. destruct (find s e) as [old|] eqn:Efs.
    + rewrite bind_Ret. destruct (rehash_rep alloc h s Hr) as (h' & -> & Hr'). rewrite bind_Ret. eauto.
    + destruct (insert_rep h s e Hr (find_none _ _ Efs)) as (h1 & -> & Hr1). rewrite bind_Ret.
      destruct (rehash_rep alloc h1 _ Hr1) as (h' & -> & Hr'). rewrite bind_Ret. eauto.
  - unfold hash_replace. rewrite Eb, bind_Ret, Ef. destruct (find s e) as [old|] eqn:Efs.
    + destruct (find_some _ _ _ Efs) as [Hin Eo].
      pose proof (remove_rep h s old Hr Hin) as Hr1.
      destruct (insert_rep (remove_elem h old) _ e Hr1) as (h2 & E2 & Hr2).
      { intros x [Hne Hx]%list_elem_of_filter. destruct (eqv x e) eqn:Ex; [|done]. destruct Hne.
        apply Hd; [done..|]. eapply hl_trans; [done|by apply eqv_sym]. }
      change (find_bucket hash_fn (remove_elem h old) e) with (find_bucket hash_fn h e) in E2. rewrite E2, bind_Ret.
      destruct (rehash_rep alloc h2 _ Hr2) as (h' & -> & Hr'). rewrite bind_Ret. eauto.
    + destruct (insert_rep h s e Hr (find_none _ _ Efs)) as (h1 & -> & Hr1). rewrite bind_Ret.
      destruct (rehash_rep alloc h1 _ Hr1) as (h' & -> & Hr'). rewrite bind_Ret. eauto.
  - unfold hash_find. rewrite Eb. cbn. rewrite Ef. eauto.
  - unfold hash_delete. rewrite Eb, bind_Ret, Ef. destruct (find s e) as [old|] eqn:Efs; [|by eauto].
    destruct (find_some _ _ _ Efs) as [Hin _].
    destruct (rehash_rep alloc _ _ (remove_rep h s old Hr Hin)) as (h' & -> & Hr'). rewrite bind_Ret. eauto.
Qed.

Lemma run_simulates ops : ∀ h s,
  represents h s →
  ∃ h', hash_run hash_fn less_fn h ops = Ret ((spec_run less_fn s ops).1, h')
    ∧ represents h' (spec_run less_fn s ops).2.
Proof.
  induction ops as [|[o alloc] ops IH]; intros h s Hr; [by exists h|]. cbn [hash_run spec_run].
  destruct (step_simulates h s o alloc Hr) as (h1 & -> & Hr1). rewrite bind_Ret.
  destruct (spec_op less_fn s o) as [r s1]. cbn in Hr1.
  destruct (IH h1 s1 Hr1) as (h2 & -> & Hr2). rewrite bind_Ret.
  destruct (spec_run less_fn s1 ops) as [rs s2]. cbn in *. eauto.
Qed.

Lemma clear_loop_eq d bs : clear_loop d bs = (if d then concat bs else [], replicate (length bs) []).
Proof.
  induction bs as [|b bs IH]; [by destruct d|]. cbn. rewrite IH. by destruct d.
Qed.
Lemma init_represents junk : length junk = 4%nat → represents (hash_init true junk).2 [].
Proof.
  intros Hl. unfold hash_init, hash_clear. rewrite clear_loop_eq. cbn [h_buckets]. rewrite Hl. cbn [snd].
  split; [apply (empty_placed 0 2); lia| |done]. split; [constructor|]. by intros x y ?%elem_of_nil.
Qed.
End Laws.

(** ** Iteration visits every element once *)
Fixpoint iterate (fuel : nat) (h : hash) (i : hash_iterator) : res (list Z) :=
  match fuel with
  | O => Stuck
  | S fuel =>
    '(e, i) ← hash_next h i;
    match e with
    | Some e => es ← iterate fuel h i; Ret (e :: es)
    | None => Ret []
    end
  end.

Section Iteration.
Context (h : hash).
Context (Hlen : Z.of_nat (length (h_buckets h)) = h_bucket_cnt h) (Hnd : NoDup (concat (h_buckets h))).

(** The elements in the buckets behind bucket [n]. *)
Definition rest (n : nat) : list Z := concat (drop (S n) (h_buckets h)).

Lemma apply_concat : hash_apply h = concat (h_buckets h).
Proof. clear Hlen Hnd. unfold hash_apply. induction (h_buckets h) as [|b bs IH]; cbn; [done|]. by rewrite IH. Qed.

Lemma bucket_nodup n b : h_buckets h !! n = Some b → NoDup b.
Proof using Hnd.
  intros Hb. rewrite <- (take_drop_middle _ _ _ Hb), concat_app in Hnd.
  apply NoDup_app in Hnd as (_ & _ & Hn). cbn in Hn. by apply NoDup_app in Hn as [? _].
Qed.
Lemma next_after_split pre e l : e ∉ pre → next_after (pre ++ e :: l) e = hd_error l.
Proof.
  induction pre as [|x pre IH]; cbn; intros Hn.
  - by rewrite Z.eqb_refl.
  - destruct (Z.eqb_spec x e); [set_solver|]. apply IH. set_solver.
Qed.

(** From the elements [l] on, those at the end of bucket [n] and those behind it. *)
Lemma next_loop_spec fuel : ∀ n pre l,
  h_buckets h !! n = Some (pre ++ l) → (length (h_buckets h) - n ≤ fuel)%nat →
  (l ++ rest n = [] ∧ next_loop fuel h (Z.of_nat n) (hd_error l) = Ret (None, Iter (h_bucket_cnt h) Null))
  ∨ ∃ e n' pre' l', next_loop fuel h (Z.of_nat n) (hd_error l) = Ret (Some e, Iter (Z.of_nat n') (At e))
      ∧ h_buckets h !! n' = Some (pre' ++ e :: l') ∧ l ++ rest n = e :: l' ++ rest n'.
Proof using Hlen.
  induction fuel as [|fuel IH]; intros n pre l Hb Hf; pose proof (lookup_lt_Some _ _ _ Hb) as Hn; [lia|].
  destruct l as [|e l]; [|right; by exists e, n, pre, l]. cbn [hd_error next_loop app].
  destruct (Z.leb_spec (h_bucket_cnt h) (Z.of_nat n + 1)).
  - left. split; [|by replace (Z.of_nat n + 1) with (h_bucket_cnt h) by lia].
    unfold rest. by rewrite drop_ge by lia.
  - destruct (lookup_lt_is_Some_2 (h_buckets h) (S n)) as [b Hb']; [lia|].
    replace (Z.of_nat n + 1) with (Z.of_nat (S n)) by lia. unfold get_bucket. rewrite Nat2Z.id, Hb', bind_Ret.
    assert (rest n = b ++ rest (S n)) as ->.
    { unfold rest. by rewrite (drop_S _ b) by done. }
    apply (IH (S n) [] b Hb'). lia.
Qed.

Lemma iterate_rest fuel : ∀ n pre e l,
  h_buckets h !! n = Some (pre ++ e :: l) → (length (l ++ rest n) < fuel)%nat →
  iterate fuel h (Iter (Z.of_nat n) (At e)) = Ret (l ++ rest n).
Proof using Hlen Hnd.
  induction fuel as [|fuel IH]; intros n pre e l Hb Hf; [lia|]. cbn [iterate]. unfold hash_next.
  cbn [it_bucket it_elem]. unfold get_bucket. rewrite Nat2Z.id, Hb, !bind_Ret.
  rewrite next_after_split.
  2:{ apply bucket_nodup in Hb. apply NoDup_app in Hb as (_ & Hd & _). intros Hin. apply (Hd e Hin). by left. }
  destruct (next_loop_spec (S (Z.to_nat (h_bucket_cnt h))) n (pre ++ [e]) l)
    as [[E ->]|(e' & n' & pre' & l' & -> & Hb' & E)].
  - by rewrite Hb, <- app_assoc.
  - lia.
  - by rewrite E, bind_Ret.
  - rewrite bind_Ret, E in *. cbn in Hf. rewrite (IH n' pre' e' l' Hb') by lia. by rewrite bind_Ret.
Qed.

Lemma iterate_all fuel :
  0 < h_bucket_cnt h → (length (concat (h_buckets h)) < fuel)%nat →
  iterate fuel h hash_first = Ret (hash_apply h).
Proof using Hlen Hnd.
  intros Hpos Hf. rewrite apply_concat. destruct fuel as [|fuel]; [lia|]. cbn [iterate]. unfold hash_next, hash_first.
  cbn [it_bucket it_elem]. unfold get_bucket.
  destruct (lookup_lt_is_Some_2 (h_buckets h) 0) as [b Hb]; [lia|].
  change (Z.to_nat 0) with 0%nat. rewrite Hb, !bind_Ret.
  assert (concat (h_buckets h) = b ++ rest 0) as Ec.
  { unfold rest. clear -Hb. destruct (h_buckets h); [done|]. by injection Hb as ->. }
  rewrite Ec in Hf |- *.
  destruct (next_loop_spec (S (Z.to_nat (h_bucket_cnt h))) 0 [] b Hb)
    as [[E En]|(e' & n' & pre' & l' & En & Hb' & E)]; [lia|..];
    change (Z.of_nat 0) with 0 in En; rewrite En, bind_Ret.
  - by rewrite E.
  - rewrite E in Hf |- *. cbn in Hf. rewrite (iterate_rest fuel n' pre' e' l' Hb') by lia. by rewrite bind_Ret.
Qed.
End Iteration.

(** ** The theorems *)

(** C32: A hash table refines a set.  Whatever sequence of insertions, replacements, searches
    and deletions a client runs on a new table, and whichever of the allocations of larger or
    smaller bucket arrays fail, every call returns, with the element the set of elements
    would give; the size is the number of elements; and an iteration with [hash_first] and
    [hash_next] ends after visiting each element of the set once. *)
Theorem hash_refines_set hash_fn less_fn junk ops :
  HashLaws hash_fn less_fn → length junk = 4%nat →
  ∃ h, hash_run hash_fn less_fn (hash_init true junk).2 ops = Ret ((spec_run less_fn [] ops).1, h)
    ∧ hash_size h = u32 (Z.of_nat (length (spec_run less_fn [] ops).2))
    ∧ ∃ es, iterate (S (length es)) h hash_first = Ret es ∧ es ≡ₚ (spec_run less_fn [] ops).2.
Proof.
  intros Hl Hj.
  destruct (run_simulates hash_fn less_fn ops _ [] (init_represents hash_fn less_fn junk Hj)) as (h & E & [Hpl Hd Hc]).
  exists h. split_and!; [done|done|]. destruct Hpl as [(k & Hk & Ek) Hlen Hp _].
  exists (hash_apply h). rewrite apply_concat at 3. split; [|done].
  apply iterate_all; [done|rewrite Hp; apply Hd|rewrite Ek; apply Z.pow_pos_nonneg; lia|].
  rewrite apply_concat. lia.
Qed.

(** After a call that could allocate, the table has between a quarter of its elements
    and half of them in buckets, a power of two and four at least: the bucket array grows and
    shrinks with the table. *)
Theorem rehash_load hash_fn less_fn h s :
  represents hash_fn less_fn h s → (8 ≤ length s)%nat → Z.of_nat (length s) < 4294967296 →
  ∃ h', rehash hash_fn true h = Ret h' ∧ represents hash_fn less_fn h' s
    ∧ 2 * h_bucket_cnt h' ≤ Z.of_nat (length s) < 4 * h_bucket_cnt h'.
Proof.
  intros [Hpl Hd Hc] H8 Hlt. rewrite u32_id in Hc by (unfold is_u32; lia).
  destruct (rehash_placed hash_fn true h s) as (h' & E & Hpl' & Ec & Eb); [rewrite Hc; unfold is_u32; lia|done|].
  exists h'. split_and!; [done|..].
  - split; [done|done|]. rewrite Ec, Hc. symmetry. apply u32_id. unfold is_u32. lia.
  - rewrite Eb, Hc. unfold best_cnt. set (n := Z.of_nat (length s)) in *.
    assert (4 ≤ n / 2) by (Z.to_euclidean_division_equations; lia). rewrite Z.max_r by lia.
    destruct (Z.log2_spec (n / 2)); [lia|]. Z.to_euclidean_division_equations; lia.
  - rewrite Eb, Hc. unfold best_cnt. set (n := Z.of_nat (length s)) in *.
    assert (4 ≤ n / 2) by (Z.to_euclidean_division_equations; lia). rewrite Z.max_r by lia.
    destruct (Z.log2_spec (n / 2)) as [_ Hs]; [lia|]. rewrite Z.pow_succ_r in Hs by apply Z.log2_nonneg.
    Z.to_euclidean_division_equations; lia.
Qed.

(** ** A client: elements are equal when they agree modulo 100. *)
Definition demo_hash (e : Z) : Z := e mod 100.
Definition demo_less (a b : Z) : bool := a mod 100 <? b mod 100.
Lemma demo_laws : HashLaws demo_hash demo_less.
Proof.
  assert (∀ a b, hash_equal demo_less a b = true → a mod 100 = b mod 100) as He.
  { intros a b. unfold hash_equal, demo_less.
    destruct (Z.ltb_spec (a mod 100) (b mod 100)); [done|].
    by destruct (Z.ltb_spec (b mod 100) (a mod 100)); [|intros _; lia]. }
  split.
  - intros x. apply Z.ltb_irrefl.
  - intros x y z Hx%He Hy%He. unfold hash_equal, demo_less. by rewrite Hx, Hy, Z.ltb_irrefl.
  - intros x y. apply He.
Qed.
Definition demo_ops : list (hash_op * bool) :=
  [(Insert 105, true); (Insert 205, true); (Find 305, true); (Replace 405, false); (Delete 505, true); (Find 5, true)].

Lemma hash_refines_witness :
  ∃ h, hash_run demo_hash demo_less (hash_init true [[]; []; [7]; []]).2 demo_ops
       = Ret ([None; Some 105; Some 105; Some 105; Some 405; None], h) ∧ hash_size h = 0.
Proof.
  destruct (hash_refines_set demo_hash demo_less [[]; []; [7]; []] demo_ops demo_laws eq_refl) as (h & E & Hs & _).
  exists h. exact (conj E Hs).
Defined.

(** Nine insertions without memory for more buckets, then a call with it. *)
Lemma demo_full : ∃ h, represents demo_hash demo_less h [9; 8; 7; 6; 5; 4; 3; 2; 1] ∧ h_bucket_cnt h = 4.
Proof.
  pose proof demo_laws as Hl.
  destruct (run_simulates demo_hash demo_less ((λ e, (Insert e, false)) <$> seqZ 1 9) _ []
    (init_represents demo_hash demo_less [[]; []; []; []] eq_refl)) as (h & E & Hr).
  exists h. split; [exact Hr|].
  assert (Ret (h_bucket_cnt h) = Ret 4) as [= E4]; [|done].
  assert ((λ r, h_bucket_cnt r.2) <$> hash_run demo_hash demo_less (hash_init true [[]; []; []; []]).2
    ((λ e, (Insert e, false)) <$> seqZ 1 9) = Ret 4) as E2 by (vm_compute; reflexivity).
  by rewrite E in E2.
Qed.
Lemma rehash_load_witness :
  ∃ h h', rehash demo_hash true h = Ret h' ∧ h_bucket_cnt h = 4 ∧ 2 * h_bucket_cnt h' ≤ 9 < 4 * h_bucket_cnt h'.
Proof.
  destruct demo_full as (h & Hr & E4).
  destruct (rehash_load demo_hash demo_less h [9; 8; 7; 6; 5; 4; 3; 2; 1] Hr) as (h' & E & _ & Hb);
    [cbn; lia|cbn; lia|].
  exists h, h'. exact (conj E (conj E4 Hb)).
Defined.
