(* ===== verification/Intq.v ===== *)
(** * Interrupt queues (devices/intq.c)

    A ring buffer of bytes between threads and interrupt handlers.  All its functions run
    with interrupts off, so a call runs without interruption until it returns or sleeps: in
    [lock_acquire], when another thread holds the queue's lock, or in [wait].  A thread is
    at one of these points of the two loops; a step runs a thread that is ready from its
    point to the next, in any order the scheduler may choose, and interrupt handlers come
    between steps.  The lock is the one of threads/synch.c: a semaphore whose value and
    waiters are part of the state, and a holder. *)
From S2P Require Import Prelude.

Definition INTQ_BUFSIZE : Z := 64.
Definition intq_next (pos : Z) : Z := (pos + 1) mod INTQ_BUFSIZE.

Inductive op := Get | Put (byte : Z).

(** Where a thread is: not in the queue's code, about to test the loop's condition, woken
    inside [sema_down] of [lock_acquire], asleep there, asleep in [wait], or woken there. *)
Inductive point :=
| Outside
| AtTest (o : op)
| InDown (o : op)
| DownSleep (o : op)
| WaitSleep (o : op)
| AfterWait (o : op).

Record intq := Intq {
  lock_value : Z; lock_waiters : list Z; lock_holder : Z;
  not_full : Z; not_empty : Z;
  buf : list Z; head : Z; tail : Z;
}.
Record queue_state := QState { q : intq; points : gmap Z point }.

Definition intq_init (q : intq) : intq :=
  Intq 1 [] NULL NULL NULL (buf q) 0 0.
Definition intq_empty (q : intq) : bool := head q =? tail q.
Definition intq_full (q : intq) : bool := intq_next (head q) =? tail q.

(** The condition a call sleeps on. *)
Definition blocked (o : op) (q : intq) : bool :=
  match o with Get => intq_empty q | Put _ => intq_full q end.

Definition point_of (s : queue_state) (t : Z) : point := default Outside (points s !! t).
Definition set_point (s : queue_state) (t : Z) (p : point) : queue_state :=
  QState (q s) (<[t := p]> (points s)).
Definition set_q (s : queue_state) (q : intq) : queue_state := QState q (points s).

Definition set_lock (q : intq) (v : Z) (ws : list Z) (h : Z) : intq :=
  Intq v ws h (not_full q) (not_empty q) (buf q) (head q) (tail q).
Definition set_waiter (o : op) (q : intq) (t : Z) : intq :=
  match o with
  | Get => Intq (lock_value q) (lock_waiters q) (lock_holder q) (not_full q) t (buf q) (head q) (tail q)
  | Put _ => Intq (lock_value q) (lock_waiters q) (lock_holder q) t (not_empty q) (buf q) (head q) (tail q)
  end.
Definition waiter (o : op) (q : intq) : Z :=
  match o with Get => not_empty q | Put _ => not_full q end.

(** [thread_unblock] of a thread that sleeps in the queue's code. *)
Definition unblock (s : queue_state) (t : Z) : res queue_state :=
  match point_of s t with
  | DownSleep o => Ret (set_point s t (InDown o))
  | WaitSleep o => Ret (set_point s t (AfterWait o))
  | _ => Panic
  end.

(** [wait (q, waiter)] of a thread that is to do [o]. *)
Definition wait (s : queue_state) (t : Z) (o : op) : res queue_state :=
  ASSERT (blocked o (q s));;
  Ret (set_point (set_q s (set_waiter o (q s) t)) t (WaitSleep o)).

(** [signal (q, waiter)] for the waiter of [o]. *)
Definition signal (s : queue_state) (o : op) : res queue_state :=
  ASSERT (negb (blocked o (q s)));;
  if waiter o (q s) =? NULL then Ret s else
  s ← unblock s (waiter o (q s));
  Ret (set_q s (set_waiter o (q s) NULL)).

(** [sema_down] on the lock, setting the holder, then [wait]. *)
Definition down_and_wait (s : queue_state) (t : Z) (o : op) : res queue_state :=
  if lock_value (q s) =? 0 then
    Ret (set_point (set_q s (set_lock (q s) 0 (lock_waiters (q s) ++ [t]) (lock_holder (q s))))
           t (DownSleep o))
  else wait (set_q s (set_lock (q s) (lock_value (q s) - 1) (lock_waiters (q s)) t)) t o.

(** The byte a step moved, if any: [intq_getc] returns the byte that goes out. *)
Inductive moved := Unmoved | In (byte : Z) | Out (byte : Z).

(** The rest of [intq_getc] and [intq_putc] after the loop. *)
Definition transfer (s : queue_state) (o : op) : res (queue_state * moved) :=
  let x := q s in
  match o with
  | Get =>
    match buf x !! Z.to_nat (tail x) with
    | None => Stuck
    | Some byte =>
      s ← signal (set_q s (Intq (lock_value x) (lock_waiters x) (lock_holder x) (not_full x)
                             (not_empty x) (buf x) (head x) (intq_next (tail x)))) (Put 0);
      Ret (s, Out byte)
    end
  | Put byte =>
    s ← signal (set_q s (Intq (lock_value x) (lock_waiters x) (lock_holder x) (not_full x)
                           (not_empty x) (<[Z.to_nat (head x) := byte]> (buf x))
                           (intq_next (head x)) (tail x))) Get;
    Ret (s, In byte)
  end.

(** The loop of [intq_getc] and [intq_putc] in a thread, from its test on. *)
Definition test (s : queue_state) (t : Z) (o : op) : res (queue_state * moved) :=
  if blocked o (q s) then
    ASSERT (negb (lock_holder (q s) =? t));;
    s ← down_and_wait s t o; Ret (s, Unmoved)
  else transfer (set_point s t Outside) o.

(** [lock_release]: [sema_up] wakes the first thread in the semaphore's queue. *)
Definition release (s : queue_state) (t : Z) : res queue_state :=
  ASSERT (lock_holder (q s) =? t);;
  match lock_waiters (q s) with
  | w :: ws =>
    s ← unblock s w;
    Ret (set_q s (set_lock (q s) (lock_value (q s) + 1) ws NULL))
  | [] => Ret (set_q s (set_lock (q s) (lock_value (q s) + 1) [] NULL))
  end.

(** A ready thread runs to its next point. *)
Definition resume (s : queue_state) (t : Z) : res (queue_state * moved) :=
  match point_of s t with
  | AtTest o => test s t o
  | InDown o => s ← down_and_wait s t o; Ret (s, Unmoved)
  | AfterWait o => s ← release s t; test s t o
  | _ => Stuck
  end.

(** A call from an interrupt handler, which must not sleep. *)
Definition handler (s : queue_state) (o : op) : res (queue_state * moved) :=
  ASSERT (negb (blocked o (q s)));;
  transfer s o.

(** ** Runs *)
Inductive event :=
| Call (t : Z) (o : op)      (* a thread calls intq_getc or intq_putc *)
| Run (t : Z)                (* the scheduler lets a thread run *)
| Interrupt (o : op).        (* a handler moves a byte *)

(** Threads that may run, and calls that respect the comments of the functions. *)
Definition enabled (s : queue_state) (e : event) : bool :=
  match e with
  | Call t _ => negb (t =? NULL) && match point_of s t with Outside => true | _ => false end
  | Run t => match point_of s t with AtTest _ | InDown _ | AfterWait _ => true | _ => false end
  | Interrupt o => negb (blocked o (q s))
  end.
Definition react (s : queue_state) (e : event) : res (queue_state * moved) :=
  match e with
  | Call t o => Ret (set_point s t (AtTest o), Unmoved)
  | Run t => resume s t
  | Interrupt o => handler s o
  end.

(** The bytes that entered and left the queue so far, oldest first. *)
Record history := History { put : list Z; got : list Z }.

Definition record (h : history) (r : moved) : history :=
  match r with
  | Unmoved => h
  | In b => History (put h ++ [b]) (got h)
  | Out b => History (put h) (got h ++ [b])
  end.

Inductive reaches : queue_state → history → Prop :=
| reach_init x : length (buf x) = 64%nat → reaches (QState (intq_init x) ∅) (History [] [])
| reach_step s h e s' r :
    reaches s h → enabled s e = true → react s e = Ret (s', r) →
    reaches s' (record h r).

(** ** The ring *)
Definition ring (x : intq) : list Z * Z * Z := (buf x, head x, tail x).
Definition ring_ok (x : intq) : Prop :=
  length (buf x) = 64%nat ∧ 0 ≤ head x < 64 ∧ 0 ≤ tail x < 64.
Definition fill_count (x : intq) : nat := Z.to_nat ((head x - tail x) mod 64).
(** The bytes in the queue, oldest first. *)
Definition contents (x : intq) : list Z :=
  map (λ i, buf x !!! Z.to_nat ((tail x + Z.of_nat i) mod 64)) (seq 0 (fill_count x)).

Ltac ring_lia := Z.to_euclidean_division_equations; lia.

Lemma ring_same x y : ring x = ring y → ring_ok x → ring_ok y ∧ contents y = contents x.
Proof.
  unfold ring, ring_ok, contents, fill_count. intros [= -> -> ->] H. done.
Qed.

Lemma empty_spec x : ring_ok x → intq_empty x = true ↔ fill_count x = 0%nat.
Proof.
  intros (_ & Hh & Ht). unfold intq_empty, fill_count. rewrite Z.eqb_eq. split; [intros ->|]; ring_lia.
Qed.
Lemma full_spec x : ring_ok x → intq_full x = true ↔ fill_count x = 63%nat.
Proof.
  intros (_ & Hh & Ht). unfold intq_full, fill_count, intq_next, INTQ_BUFSIZE. rewrite Z.eqb_eq.
  split; ring_lia.
Qed.
Lemma fill_count_bound x : (fill_count x < 64)%nat.
Proof. unfold fill_count. ring_lia. Qed.

Lemma contents_put x y b :
  ring_ok x → intq_full x = false →
  ring y = (<[Z.to_nat (head x) := b]> (buf x), intq_next (head x), tail x) →
  ring_ok y ∧ contents y = contents x ++ [b].
Proof.
  intros Hx Hf [= Hb Hh Ht]. pose proof (fill_count_bound x) as Hc.
  assert (fill_count x ≠ 63%nat) as Hn by (rewrite <- full_spec, Hf by done; done).
  destruct Hx as (Hl & Hhr & Htr).
  assert (fill_count y = S (fill_count x)) as Hfy.
  { unfold fill_count in *. rewrite Hh, Ht. unfold intq_next, INTQ_BUFSIZE. ring_lia. }
  split.
  { unfold ring_ok. rewrite Hb, Hh, Ht, length_insert. unfold intq_next, INTQ_BUFSIZE.
    split_and!; [done|ring_lia..]. }
  unfold contents. rewrite Hfy, seq_S, map_app. cbn [map Nat.add]. f_equal.
  - apply map_ext_in. intros i Hi. apply in_seq in Hi. rewrite Hb, Ht.
    apply list_lookup_total_insert_ne. unfold fill_count in *. ring_lia.
  - f_equal. rewrite Hb, Ht.
    replace ((tail x + Z.of_nat (fill_count x)) mod 64) with (head x) by (unfold fill_count; ring_lia).
    apply list_lookup_total_insert_eq. lia.
Qed.

Lemma contents_get x y b :
  ring_ok x → intq_empty x = false → buf x !! Z.to_nat (tail x) = Some b →
  ring y = (buf x, head x, intq_next (tail x)) →
  ring_ok y ∧ contents x = b :: contents y.
Proof.
  intros Hx Hf Hbyte [= Hb Hh Ht].
  assert (fill_count x ≠ 0%nat) as Hn by (rewrite <- empty_spec, Hf by done; done).
  destruct Hx as (Hl & Hhr & Htr).
  assert (fill_count x = S (fill_count y)) as Hfy.
  { unfold fill_count in *. rewrite Hh, Ht. unfold intq_next, INTQ_BUFSIZE. ring_lia. }
  split.
  { unfold ring_ok. rewrite Hb, Hh, Ht. unfold intq_next, INTQ_BUFSIZE. split_and!; [done|ring_lia..]. }
  unfold contents. rewrite Hfy. cbn [seq map]. f_equal.
  - apply list_lookup_total_correct. rewrite <- Hbyte. f_equal. ring_lia.
  - rewrite <- seq_shift, map_map. apply map_ext_in. intros i Hi. apply in_seq in Hi.
    rewrite Hb, Ht. f_equal. unfold intq_next, INTQ_BUFSIZE. ring_lia.
Qed.

(** ** Steps and the ring *)
Lemma unblock_q s t s' : unblock s t = Ret s' → q s' = q s.
Proof. unfold unblock. destruct (point_of s t); intros [= <-]; done. Qed.

Lemma signal_ring s o s' : signal s o = Ret s' → ring (q s') = ring (q s).
Proof.
  unfold signal. intros H. bind_inv H. destruct (waiter o (q s) =? NULL); [by injection H as <-|].
  bind_inv H. apply unblock_q in H1. injection H as <-. rewrite <- H1. by destruct o.
Qed.

Lemma down_and_wait_ring s t o s' : down_and_wait s t o = Ret s' → ring (q s') = ring (q s).
Proof.
  unfold down_and_wait, wait. destruct (_ =? 0); [by intros [= <-]|].
  intros H. bind_inv H. injection H as <-. by destruct o.
Qed.

Lemma release_ring s t s' : release s t = Ret s' → ring (q s') = ring (q s).
Proof.
  unfold release. intros H. bind_inv H. destruct (lock_waiters (q s)); [by injection H as <-|].
  bind_inv H. apply unblock_q in H1. injection H as <-. by rewrite <- H1.
Qed.

(** What a step does to the bytes. *)
Definition moves (x y : intq) (r : moved) : Prop :=
  match r with
  | Unmoved => contents y = contents x
  | In b => contents y = contents x ++ [b]
  | Out b => contents x = b :: contents y
  end.

Lemma transfer_moves s o s' r :
  ring_ok (q s) → blocked o (q s) = false → transfer s o = Ret (s', r) →
  ring_ok (q s') ∧ moves (q s) (q s') r.
Proof.
  intros Hok Hb H. destruct o as [|b]; cbn [transfer blocked] in *.
  - destruct (buf (q s) !! Z.to_nat (tail (q s))) as [b|] eqn:Eb; [|done]. bind_inv H.
    injection H as <- <-. apply signal_ring in H0. by eapply contents_get.
  - bind_inv H. injection H as <- <-. apply signal_ring in H0. by eapply contents_put.
Qed.

Lemma same_moves (s s' : queue_state) :
  ring (q s') = ring (q s) → ring_ok (q s) → ring_ok (q s') ∧ moves (q s) (q s') Unmoved.
Proof. intros E Hok. by apply ring_same. Qed.

Lemma test_moves s t o s' r :
  ring_ok (q s) → test s t o = Ret (s', r) → ring_ok (q s') ∧ moves (q s) (q s') r.
Proof.
  intros Hok. unfold test. destruct (blocked o (q s)) eqn:Eb.
  - intros H. bind_inv H. bind_inv H. injection H as <- <-.
    apply same_moves; [by eapply down_and_wait_ring|done].
  - apply (transfer_moves (set_point s t Outside)); done.
Qed.

Lemma react_moves s e s' r :
  ring_ok (q s) → enabled s e = true → react s e = Ret (s', r) →
  ring_ok (q s') ∧ moves (q s) (q s') r.
Proof.
  intros Hok He H. destruct e as [t o|t|o]; cbn [react enabled] in *.
  - injection H as <- <-. by apply same_moves.
  - unfold resume in H. destruct (point_of s t); try done.
    + by eapply test_moves.
    + bind_inv H. injection H as <- <-. apply same_moves; [by eapply down_and_wait_ring|done].
    + bind_inv H. apply release_ring in H0. destruct (same_moves s v H0 Hok) as [Hok' Hm].
      apply test_moves in H as [Hr Hm']; [|done]. split; [done|]. cbn in Hm.
      destruct r; cbn in *; by rewrite ?Hm in *.
  - unfold handler in H. bind_inv H. eapply transfer_moves; [done| |done].
    by apply negb_true_iff.
Qed.

(** ** One thread and interrupt handlers *)

(** The operation whose waiter a call wakes. *)
Definition other (o : op) : op := match o with Get => Put 0 | Put _ => Get end.

Definition lock_is (x : intq) (v h : Z) : Prop :=
  lock_value x = v ∧ lock_waiters x = [] ∧ lock_holder x = h.
Definition no_waiters (x : intq) : Prop := not_full x = NULL ∧ not_empty x = NULL.

(** The states in which only the thread [t] has used the queue. *)
Definition solo (t : Z) (s : queue_state) : Prop :=
  (∀ u, u ≠ t → point_of s u = Outside)
  ∧ match point_of s t with
    | Outside | AtTest _ => lock_is (q s) 1 NULL ∧ no_waiters (q s)
    | WaitSleep o => lock_is (q s) 0 t ∧ blocked o (q s) = true
        ∧ waiter o (q s) = t ∧ waiter (other o) (q s) = NULL
    | AfterWait _ => lock_is (q s) 0 t ∧ no_waiters (q s)
    | _ => False
    end.

Lemma point_of_set s t p u : point_of (set_point s t p) u = if decide (u = t) then p else point_of s u.
Proof.
  unfold point_of, set_point. cbn. case_decide as E; [subst; by rewrite lookup_insert_eq|].
  by rewrite lookup_insert_ne.
Qed.

Lemma contents_length x : length (contents x) = fill_count x.
Proof. unfold contents. by rewrite length_map, length_seq. Qed.

Definition same_lock (x y : intq) : Prop :=
  (lock_value y, lock_waiters y, lock_holder y, not_full y, not_empty y)
  = (lock_value x, lock_waiters x, lock_holder x, not_full x, not_empty x).

(** A transfer that is possible ends in a signal whose assertion holds. *)
Lemma transfer_eq s o :
  ring_ok (q s) → blocked o (q s) = false →
  ∃ y r, transfer s o = (s' ← signal (set_q s y) (other o); Ret (s', r))
    ∧ blocked (other o) y = false ∧ same_lock (q s) y.
Proof.
  intros Hok Hb. destruct o as [|b]; cbn [transfer other blocked] in *.
  - destruct (buf (q s) !! Z.to_nat (tail (q s))) as [b|] eqn:Eb.
    2:{ apply lookup_ge_None in Eb. destruct Hok as (Hl & _ & Ht). lia. }
    eexists _, _. split; [reflexivity|]. split; [|done].
    destruct (contents_get (q s) (Intq (lock_value (q s)) (lock_waiters (q s)) (lock_holder (q s))
      (not_full (q s)) (not_empty (q s)) (buf (q s)) (head (q s)) (intq_next (tail (q s)))) b)
      as [Hy Hc]; [done..|].
    apply not_true_iff_false. rewrite full_spec by done. apply (f_equal length) in Hc.
    cbn [length] in Hc. rewrite !contents_length in Hc. pose proof (fill_count_bound (q s)). lia.
  - eexists _, _. split; [reflexivity|]. split; [|done].
    match goal with |- intq_empty ?y = _ => destruct (contents_put (q s) y b) as [Hy Hc]; [done..|] end.
    apply not_true_iff_false. rewrite empty_spec by done. apply (f_equal length) in Hc.
    rewrite length_app, !contents_length in Hc. cbn [length] in Hc. lia.
Qed.

Lemma transfer_quiet s o :
  ring_ok (q s) → blocked o (q s) = false → waiter (other o) (q s) = NULL →
  ∃ s' r, transfer s o = Ret (s', r) ∧ points s' = points s ∧ same_lock (q s) (q s').
Proof.
  intros Hok Hb Hw. destruct (transfer_eq s o Hok Hb) as (y & r & -> & Hy & Hl).
  unfold signal. cbn [q set_q]. rewrite Hy. cbn [negb ASSERT]. rewrite bind_Ret.
  assert (waiter (other o) y = NULL) as ->.
  { rewrite <- Hw. injection Hl as _ _ _ E1 E2. by destruct o. }
  rewrite Z.eqb_refl, bind_Ret. by exists (set_q s y), r.
Qed.

Lemma transfer_wakes s o o' t :
  ring_ok (q s) → blocked o (q s) = false → t ≠ NULL → waiter (other o) (q s) = t →
  point_of s t = WaitSleep o' →
  ∃ y r, transfer s o = Ret (QState (set_waiter (other o) y NULL) (<[t := AfterWait o']> (points s)), r)
    ∧ same_lock (q s) y.
Proof.
  intros Hok Hb Ht Hw Hp. destruct (transfer_eq s o Hok Hb) as (y & r & -> & Hy & Hl).
  unfold signal. cbn [q set_q]. rewrite Hy. cbn [negb ASSERT]. rewrite bind_Ret.
  assert (waiter (other o) y = t) as ->.
  { rewrite <- Hw. injection Hl as _ _ _ E1 E2. by destruct o. }
  destruct (Z.eqb_spec t NULL); [done|]. unfold unblock. change (point_of (set_q s y) t) with (point_of s t).
  rewrite Hp. by exists y, r.
Qed.

Lemma no_waiters_waiter x o : no_waiters x → waiter o x = NULL.
Proof. intros []. by destruct o. Qed.
Lemma same_lock_is x y v h : same_lock x y → lock_is x v h → lock_is y v h.
Proof. unfold lock_is. intros [= -> -> -> _ _]. done. Qed.
Lemma same_lock_waiters x y : same_lock x y → no_waiters x → no_waiters y.
Proof. unfold no_waiters. intros [= _ _ _ -> ->]. done. Qed.

Lemma test_solo t s o :
  t ≠ NULL → ring_ok (q s) → (∀ u, u ≠ t → point_of s u = Outside) →
  lock_is (q s) 1 NULL → no_waiters (q s) →
  ∃ s' r, test s t o = Ret (s', r) ∧ solo t s'.
Proof.
  intros Ht Hok Hu Hl Hw. unfold test. destruct (blocked o (q s)) eqn:Eb.
  - destruct Hl as (Hv & Hws & Hh). rewrite Hh. destruct (Z.eqb_spec NULL t); [done|].
    cbn [negb ASSERT]. rewrite bind_Ret. unfold down_and_wait, wait. rewrite Hv.
    change (blocked o (q (set_q s ?x))) with (blocked o x).
    assert (∀ v ws h, blocked o (set_lock (q s) v ws h) = true) as -> by (by destruct o).
    cbn [Z.eqb ASSERT]. rewrite !bind_Ret. eexists _, _. split; [reflexivity|]. split.
    + intros u Hne. rewrite point_of_set, decide_False by done. by apply Hu.
    + rewrite point_of_set, decide_True by done.
      destruct Hw as [? ?]. destruct o; cbn in *; (split_and!; [|done..]); by split_and!.
  - destruct (transfer_quiet (set_point s t Outside) o) as (s' & r & E & Hp & Hsl);
      [done|done|by apply no_waiters_waiter|].
    exists s', r. split; [done|]. unfold solo, point_of in *. rewrite Hp. cbn [set_point points]. split.
    + intros u Hne. rewrite lookup_insert_ne by done. by apply Hu.
    + rewrite lookup_insert_eq. cbn. split; [by eapply same_lock_is|by eapply same_lock_waiters].
Qed.

Lemma release_solo t s :
  t ≠ NULL → lock_is (q s) 0 t →
  release s t = Ret (set_q s (set_lock (q s) 1 [] NULL)).
Proof.
  intros Ht (Hv & Hws & Hh). unfold release. rewrite Hh, Z.eqb_refl. cbn [ASSERT].
  by rewrite bind_Ret, Hws, Hv.
Qed.

Lemma handler_solo t s o :
  t ≠ NULL → ring_ok (q s) → solo t s → blocked o (q s) = false →
  ∃ s' r, handler s o = Ret (s', r) ∧ solo t s'.
Proof.
  intros Ht Hok [Hu Hs] Hb. unfold handler. rewrite Hb. cbn [negb ASSERT]. rewrite bind_Ret.
  destruct (decide (waiter (other o) (q s) = NULL)) as [Hw|Hw].
  - destruct (transfer_quiet s o Hok Hb Hw) as (s' & r & E & Hp & Hsl). exists s', r. split; [done|].
    unfold solo, point_of in *. rewrite Hp. split; [done|].
    destruct (default Outside (points s !! t)) as [|o'|o'|o'|o'|o']; try done.
    + destruct Hs as [Hl Hnw]. split; [by eapply same_lock_is|by eapply same_lock_waiters].
    + destruct Hs as [Hl Hnw]. split; [by eapply same_lock_is|by eapply same_lock_waiters].
    + exfalso. destruct Hs as (_ & Hbl & Hwt & _). destruct o, o'; cbn in *; congruence.
    + destruct Hs as [Hl Hnw]. split; [by eapply same_lock_is|by eapply same_lock_waiters].
  - destruct (point_of s t) as [|o'|o'|o'|o'|o'] eqn:Ep; try done;
      try (exfalso; destruct Hs as [_ Hnw]; by rewrite no_waiters_waiter in Hw).
    destruct Hs as (Hl & Hbl & Hwt & Hwo).
    assert (waiter (other o) (q s) = t) as Hw' by (destruct o, o'; cbn in *; congruence).
    destruct (transfer_wakes s o o' t Hok Hb Ht Hw' Ep) as (y & r & E & Hsl).
    eexists _, r. split; [exact E|]. unfold solo, point_of in *. cbn [points q]. split.
    + intros u Hne. rewrite lookup_insert_ne by done. by apply Hu.
    + rewrite lookup_insert_eq. cbn. apply (same_lock_is _ _ _ _ Hsl) in Hl.
      injection Hsl as _ _ _ E1 E2. unfold lock_is, no_waiters in *.
      destruct o, o'; cbn in *; split_and!; congruence || (by destruct Hl as (?&?&?)).
Qed.

Definition by_thread (t : Z) (e : event) : Prop :=
  match e with Call u _ | Run u => u = t | Interrupt _ => True end.

Lemma react_solo t s e :
  t ≠ NULL → ring_ok (q s) → solo t s → by_thread t e → enabled s e = true →
  ∃ s' r, react s e = Ret (s', r) ∧ solo t s'.
Proof.
  intros Ht Hok Hs Hby He. pose proof Hs as [Hu Hst]. destruct e as [u o|u|o]; cbn [by_thread] in Hby; subst.
  - eexists _, _. split; [reflexivity|]. cbn [enabled] in He. apply andb_true_iff in He as [_ He].
    destruct (point_of s t) eqn:Ep; try done. split.
    + intros u Hne. rewrite point_of_set, decide_False by done. by apply Hu.
    + by rewrite point_of_set, decide_True by done.
  - cbn [react enabled] in *. unfold resume. destruct (point_of s t) as [|o|o|o|o|o] eqn:Ep; try done.
    + destruct Hst as [Hl Hw]. by apply test_solo.
    + destruct Hst as [Hl Hw]. rewrite release_solo, bind_Ret by done. by apply test_solo.
  - apply handler_solo; [done..|]. cbn [enabled] in He. by apply negb_true_iff.
Qed.

(** ** Theorems *)

(** Runs in which, besides interrupt handlers, only thread [t] uses the queue. *)
Inductive solo_reaches (t : Z) : queue_state → history → Prop :=
| solo_init x : length (buf x) = 64%nat → solo_reaches t (QState (intq_init x) ∅) (History [] [])
| solo_step s h e s' r :
    solo_reaches t s h → by_thread t e → enabled s e = true → react s e = Ret (s', r) →
    solo_reaches t s' (record h r).

Lemma solo_reaches_reaches t s h : solo_reaches t s h → reaches s h.
Proof. induction 1; [by constructor|by econstructor]. Qed.

Lemma reaches_fifo s h : reaches s h → ring_ok (q s) ∧ put h = got h ++ contents (q s).
Proof.
  induction 1 as [x Hx|s h e s' r _ [Hok IH] He Hr].
  - split; [by unfold ring_ok; cbn; lia|]. reflexivity.
  - destruct (react_moves s e s' r Hok He Hr) as [Hok' Hm]. split; [done|].
    destruct r as [|b|b]; cbn in *.
    + by rewrite IH, Hm.
    + by rewrite IH, Hm, app_assoc.
    + by rewrite IH, Hm, <- app_assoc.
Qed.

(** an interrupt queue is a bounded first-in first-out queue under every interleaving of
    any number of threads and interrupt handlers: the bytes that came out are, in order, the
    first of the bytes that went in, the others are in the ring, and never more than 63. *)
Theorem intq_fifo s h :
  reaches s h → put h = got h ++ contents (q s) ∧ (length (contents (q s)) ≤ 63)%nat.
Proof.
  intros H. destruct (reaches_fifo s h H) as [_ E]. split; [done|].
  rewrite contents_length. pose proof (fill_count_bound (q s)). lia.
Qed.

(** when a single thread and interrupt handlers use a queue, no assertion fails in any run,
    and no wake-up is lost: the thread sleeps in [wait] only while the queue is empty (full, when it
    writes), it is the registered waiter, and it alone holds the lock. *)
Theorem intq_solo_safe t s h :
  t ≠ NULL → solo_reaches t s h →
  (∀ e, by_thread t e → enabled s e = true → ∃ s' r, react s e = Ret (s', r))
  ∧ (∀ o, point_of s t = WaitSleep o →
       blocked o (q s) = true ∧ waiter o (q s) = t ∧ lock_holder (q s) = t).
Proof.
  intros Ht H. destruct (reaches_fifo s h (solo_reaches_reaches t s h H)) as [Hok _].
  assert (solo t s) as Hs.
  { clear Hok. induction H as [x Hx|s h e s' r H IH Hby He Hr]; [done|].
    destruct (reaches_fifo s h (solo_reaches_reaches t s h H)) as [Hok _].
    destruct (react_solo t s e Ht Hok IH Hby He) as (s1 & r1 & E & Hs).
    rewrite Hr in E. by injection E as <- <-. }
  split.
  - intros e Hby He. destruct (react_solo t s e Ht Hok Hs Hby He) as (s' & r & E & _). eauto.
  - intros o Ho. destruct Hs as [_ Hs]. rewrite Ho in Hs. by destruct Hs as ((_ & _ & ?) & ? & ? & _).
Qed.

(** A run as a list of events. *)
Fixpoint run_events (s : queue_state) (h : history) (es : list event) : res (queue_state * history) :=
  match es with
  | [] => Ret (s, h)
  | e :: es =>
    if enabled s e then '(s, r) ← react s e; run_events s (record h r) es else Stuck
  end.

Lemma run_events_reaches es : ∀ s h s' h',
  reaches s h → run_events s h es = Ret (s', h') → reaches s' h'.
Proof.
  induction es as [|e es IH]; intros s h s' h' Hs H; cbn [run_events] in H; [by injection H as <- <-|].
  destruct (enabled s e) eqn:He; [|done]. bind_inv H. destruct v as [s1 r].
  eapply IH; [|exact H]. by eapply reach_step.
Qed.

Definition boot : queue_state := QState (intq_init (Intq 0 [] 0 0 0 (replicate 64 0) 0 0)) ∅.

Lemma boot_reaches : reaches boot (History [] []).
Proof. by apply reach_init. Qed.

(** two readers stop the kernel.  The second sleeps on the queue's lock while the first waits
    for a byte; two bytes arrive; the first takes one and releases the lock, and the second
    then enters [wait] without looking at the queue again, whose assertion that the queue is
    empty fails. *)
Theorem intq_two_readers_panic :
  ∃ s h, reaches s h ∧ enabled s (Run 2) = true ∧ react s (Run 2) = Panic.
Proof.
  destruct (run_events boot (History [] []) [Call 1 Get; Run 1; Call 2 Get; Run 2;
    Interrupt (Put 65); Interrupt (Put 66); Run 1]) as [[s h]| |] eqn:E; [|by vm_compute in E..].
  exists s, h. split; [|by vm_compute in E; injection E as <- <-].
  by exact (run_events_reaches _ boot _ s h boot_reaches E).
Qed.

Lemma intq_fifo_witness :
  ∃ s h, reaches s h ∧ put h = [65; 66] ∧ got h = [65] ∧ put h = got h ++ contents (q s).
Proof.
  destruct (run_events boot (History [] []) [Call 1 Get; Run 1; Interrupt (Put 65);
    Interrupt (Put 66); Run 1]) as [[s h]| |] eqn:E; [|by vm_compute in E..].
  assert (reaches s h) as Hr 
    by exact (run_events_reaches _ boot _ s h boot_reaches E).
  exists s, h. split_and!; [done|by vm_compute in E; injection E as <- <-..|].
  apply (intq_fifo s h Hr).
Defined.

Lemma intq_solo_witness :
  ∃ s h, solo_reaches 1 s h ∧ point_of s 1 = WaitSleep Get ∧ waiter Get (q s) = 1
    ∧ ∃ s' r, react s (Interrupt (Put 65)) = Ret (s', r).
Proof.
  destruct (react boot (Call 1 Get)) as [[s1 r1]| |] eqn:E1; [|by vm_compute in E1..].
  destruct (react s1 (Run 1)) as [[s2 r2]| |] eqn:E2; [|by vm_compute in E1; injection E1 as <- <-; vm_compute in E2..].
  assert (solo_reaches 1 s2 (record (record (History [] []) r1) r2)) as H.
  { eapply (solo_step 1 s1 _ (Run 1)); [|done|vm_compute in E1; by injection E1 as <- <-|exact E2].
    eapply (solo_step 1 boot _ (Call 1 Get)); [by apply solo_init|done|done|exact E1]. }
  assert (point_of s2 1 = WaitSleep Get ∧ enabled s2 (Interrupt (Put 65)) = true) as [Hp He].
  { vm_compute in E1. injection E1 as <- <-. vm_compute in E2. by injection E2 as <- <-. }
  destruct (intq_solo_safe 1 s2 _ ltac:(done) H) as [Hr Hw].
  exists s2, (record (record (History [] []) r1) r2). split_and!; [done|done|by apply Hw|by apply Hr].
Defined.
