(* ===== verification/Random.v ===== *)
(** * Pseudo-random numbers (lib/random.c)

    The RC4 generator: its static variables are the state, an array access outside the 256
    bytes of [s] is [Stuck], and [random_bytes] gives the bytes that it writes to its buffer. *)
From S2P Require Import Prelude Mem CString Sorting.

Record rc4 := Rc4 { s_box : list Z; s_i : Z; s_j : Z; inited : bool }.

Definition u8 (z : Z) : Z := z mod 256.

(** [s[i]]. *)
Definition s_get (s : list Z) (i : Z) : res Z :=
  match s !! Z.to_nat i with Some v => Ret v | None => Stuck end.
Definition swap_byte (s : list Z) (a b : Z) : res (list Z) :=
  t ← s_get s a;
  v ← s_get s b;
  Ret (<[Z.to_nat b := t]> (<[Z.to_nat a := v]> s)).

(** [for (i = 0; i < 256; i++) s[i] = i;] *)
Fixpoint fill_loop (n : nat) (i : Z) (s : list Z) : list Z :=
  match n with
  | O => s
  | S n => fill_loop n (i + 1) (<[Z.to_nat i := u8 i]> s)
  end.
(** [seedp[i % sizeof seed]]: the bytes of the seed, the least significant first. *)
Definition seed_byte (seed i : Z) : Z := u8 (Z.shiftr seed (8 * (i mod 4))).
Fixpoint mix_loop (n : nat) (seed i j : Z) (s : list Z) : res (list Z) :=
  match n with
  | O => Ret s
  | S n =>
    si ← s_get s i;
    let j := u8 (j + (si + seed_byte seed i)) in
    s ← swap_byte s i j;
    mix_loop n seed (i + 1) j s
  end.
Definition random_init (st : rc4) (seed : Z) : res rc4 :=
  let s := fill_loop 256 0 (s_box st) in
  s ← mix_loop 256 seed 0 0 s;
  Ret (Rc4 s 0 0 true).

(** The body of the loop: one byte. *)
Definition random_byte (st : rc4) : res (Z * rc4) :=
  let i := u8 (s_i st + 1) in
  si ← s_get (s_box st) i;
  let j := u8 (s_j st + si) in
  s ← swap_byte (s_box st) i j;
  si ← s_get s i;
  sj ← s_get s j;
  b ← s_get s (u8 (si + sj));
  Ret (b, Rc4 s i j (inited st)).
Fixpoint bytes_loop (n : nat) (st : rc4) : res (list Z * rc4) :=
  match n with
  | O => Ret ([], st)
  | S n =>
    '(b, st) ← random_byte st;
    '(bs, st) ← bytes_loop n st;
    Ret (b :: bs, st)
  end.
Definition random_bytes (st : rc4) (size : nat) : res (list Z * rc4) :=
  st ← (if inited st then Ret st else random_init st 0);
  bytes_loop size st.
Definition random_ulong (st : rc4) : res (Z * rc4) :=
  '(bs, st) ← random_bytes st 4;
  Ret (foldr (λ b v, b + 256 * v) 0 bs, st).

(** The boot state: static variables are zero. *)
Definition rc4_boot : rc4 := Rc4 (replicate 256 0) 0 0 false.

(** ** Types *)
Definition is_byte (z : Z) : Prop := 0 ≤ z < 256.

(** The variables have their declared sizes, and a generator that was seeded has a
    permutation of the 256 bytes in [s]. *)
Definition rc4_typed (st : rc4) : Prop :=
  length (s_box st) = 256%nat ∧ is_byte (s_i st) ∧ is_byte (s_j st)
  ∧ (inited st = true → s_box st ≡ₚ seqZ 0 256).

Lemma u8_byte z : is_byte (u8 z).
Proof. apply Z.mod_pos_bound. lia. Qed.

Section Permuted.
Variable s : list Z.
Hypothesis Hs : s ≡ₚ seqZ 0 256.

Lemma box_length : length s = 256%nat.
Proof using Hs. rewrite Hs. apply length_seqZ. Qed.
Lemma box_byte i v : s !! i = Some v → is_byte v.
Proof using Hs.
  intros Hv. apply list_elem_of_lookup_2 in Hv. rewrite Hs in Hv. apply elem_of_seqZ in Hv. unfold is_byte. lia.
Qed.
Lemma s_get_ok i : is_byte i → ∃ v, s_get s i = Ret v ∧ s !! Z.to_nat i = Some v ∧ is_byte v.
Proof using Hs.
  intros Hi. unfold s_get. unfold is_byte in Hi. pose proof box_length.
  destruct (lookup_lt_is_Some_2 s (Z.to_nat i)) as [v Hv]; [lia|]. rewrite Hv.
  exists v. split; [done|]. split; [done|]. by apply box_byte in Hv.
Qed.
Lemma swap_byte_ok a b :
  is_byte a → is_byte b → ∃ s', swap_byte s a b = Ret s' ∧ s' ≡ₚ seqZ 0 256.
Proof using Hs.
  intros Ha Hb. destruct (s_get_ok a Ha) as (va & Ea & La & _), (s_get_ok b Hb) as (vb & Eb & Lb & _).
  unfold swap_byte. rewrite Ea, bind_Ret, Eb, bind_Ret. eexists. split; [reflexivity|].
  rewrite <- Hs. symmetry. pose proof box_length as Hl. unfold is_byte in *.
  pose proof (swap_at_perm s (Z.to_nat b + 1) (Z.to_nat a + 1)) as Hp.
  unfold swap_at, at_idx in Hp. rewrite !Nat.add_sub in Hp.
  rewrite (list_lookup_total_correct _ _ _ La), (list_lookup_total_correct _ _ _ Lb) in Hp.
  symmetry. apply Hp; lia.
Qed.
End Permuted.

(** The fill loop writes the identity, whatever was there. *)
Lemma fill_loop_spec n : ∀ i s, 0 ≤ i → i + Z.of_nat n = 256 → length s = 256%nat →
  (∀ k, (k < Z.to_nat i)%nat → s !! k = Some (Z.of_nat k)) → fill_loop n i s = seqZ 0 256.
Proof.
  induction n as [|n IH]; intros i s Hi Hn Hl Hs; cbn [fill_loop].
  - apply list_eq. intros k. destruct (decide (k < 256)%nat) as [Hk|Hk].
    + rewrite Hs by lia. symmetry. apply lookup_seqZ. lia.
    + rewrite !lookup_ge_None_2; [done|rewrite length_seqZ; lia|lia].
  - apply IH; [lia|lia|by rewrite length_insert|]. intros k Hk. unfold u8. rewrite Z.mod_small by lia.
    destruct (decide (k = Z.to_nat i)) as [->|].
    + rewrite list_lookup_insert_eq by lia. f_equal. lia.
    + rewrite list_lookup_insert_ne by lia. apply Hs. lia.
Qed.

Lemma mix_loop_ok n : ∀ seed i j s,
  s ≡ₚ seqZ 0 256 → 0 ≤ i → i + Z.of_nat n ≤ 256 →
  ∃ s', mix_loop n seed i j s = Ret s' ∧ s' ≡ₚ seqZ 0 256.
Proof.
  induction n as [|n IH]; intros seed i j s Hs Hi Hn; cbn [mix_loop]; [by exists s|].
  destruct (s_get_ok s Hs i) as (v & -> & _); [unfold is_byte; lia|]. rewrite bind_Ret.
  destruct (swap_byte_ok s Hs i (u8 (j + (v + seed_byte seed i)))) as (s' & -> & Hs');
    [unfold is_byte; lia|apply u8_byte|]. rewrite bind_Ret. apply IH; [done|lia|lia].
Qed.

Lemma random_init_ok st seed :
  length (s_box st) = 256%nat →
  ∃ st', random_init st seed = Ret st' ∧ rc4_typed st' ∧ inited st' = true.
Proof.
  intros Hl. unfold random_init. rewrite fill_loop_spec by (done || lia).
  destruct (mix_loop_ok 256 seed 0 0 (seqZ 0 256)) as (s' & -> & Hs'); [done|lia|lia|].
  rewrite bind_Ret. eexists. split; [reflexivity|]. split; [|done]. split; [by apply box_length|].
  split; [done|]. by split.
Qed.

Lemma random_byte_ok st :
  rc4_typed st → inited st = true →
  ∃ b st', random_byte st = Ret (b, st') ∧ is_byte b ∧ rc4_typed st' ∧ inited st' = true.
Proof.
  intros (_ & _ & _ & Hp) Hi. specialize (Hp Hi). unfold random_byte.
  destruct (s_get_ok _ Hp (u8 (s_i st + 1)) (u8_byte _)) as (v & -> & _). rewrite bind_Ret.
  destruct (swap_byte_ok _ Hp _ (u8 (s_j st + v)) (u8_byte (s_i st + 1)) (u8_byte _)) as (s' & -> & Hs').
  rewrite bind_Ret.
  destruct (s_get_ok _ Hs' (u8 (s_i st + 1)) (u8_byte _)) as (vi & -> & _). rewrite bind_Ret.
  destruct (s_get_ok _ Hs' (u8 (s_j st + v)) (u8_byte _)) as (vj & -> & _). rewrite bind_Ret.
  destruct (s_get_ok _ Hs' (u8 (vi + vj)) (u8_byte _)) as (b & -> & _ & Hb). rewrite bind_Ret.
  eexists b, _. split; [reflexivity|]. split; [done|]. split; [|done].
  split; [by apply box_length|]. split; [apply u8_byte|]. split; [apply u8_byte|done].
Qed.

Lemma bytes_loop_ok n : ∀ st, rc4_typed st → inited st = true →
  ∃ bs st', bytes_loop n st = Ret (bs, st') ∧ length bs = n ∧ Forall is_byte bs
    ∧ rc4_typed st' ∧ inited st' = true.
Proof.
  induction n as [|n IH]; intros st Ht Hi; cbn [bytes_loop]; [by exists [], st|].
  destruct (random_byte_ok st Ht Hi) as (b & st1 & -> & Hb & Ht1 & Hi1). rewrite bind_Ret.
  destruct (IH st1 Ht1 Hi1) as (bs & st2 & -> & Hl & Hbs & Ht2 & Hi2). rewrite bind_Ret.
  exists (b :: bs), st2. split; [done|]. split; [by cbn; f_equal|]. split; [by constructor|]. done.
Qed.

Lemma bytes_loop_add n k : ∀ st,
  bytes_loop (n + k) st
  = '(bs, st) ← bytes_loop n st; '(bs', st) ← bytes_loop k st; Ret (bs ++ bs', st).
Proof.
  induction n as [|n IH]; intros st; cbn [bytes_loop Nat.add].
  - rewrite bind_Ret. by destruct (bytes_loop k st) as [[]| |].
  - destruct (random_byte st) as [[b st1]| |]; [|done..]. cbn [mbind res_bind]. rewrite IH.
    destruct (bytes_loop n st1) as [[bs st2]| |]; [|done..]. cbn [mbind res_bind].
    by destruct (bytes_loop k st2) as [[bs' st3]| |].
Qed.

(** ** Theorems *)

(** C37: the generator's variables keep their types, and its table stays a permutation of the 256
    bytes, from any initial contents and under any seeds and requests; a request returns as
    many bytes as it asks for, never reads outside the table, and [random_ulong] is a word. *)
Theorem random_well_typed st :
  rc4_typed st →
  (∀ seed, ∃ st', random_init st seed = Ret st' ∧ rc4_typed st')
  ∧ (∀ n, ∃ bs st', random_bytes st n = Ret (bs, st') ∧ length bs = n ∧ Forall is_byte bs
       ∧ rc4_typed st')
  ∧ (∃ v st', random_ulong st = Ret (v, st') ∧ is_u32 v ∧ rc4_typed st').
Proof.
  intros Ht.
  assert (∀ n, ∃ bs st', random_bytes st n = Ret (bs, st') ∧ length bs = n ∧ Forall is_byte bs
            ∧ rc4_typed st') as Hb.
  { intros n. unfold random_bytes. destruct (inited st) eqn:Hi.
    - rewrite bind_Ret. destruct (bytes_loop_ok n st Ht Hi) as (bs & st' & E & Hl & Hbs & Ht' & _). eauto 6.
    - destruct (random_init_ok st 0 (proj1 Ht)) as (st1 & -> & Ht1 & Hi1). rewrite bind_Ret.
      destruct (bytes_loop_ok n st1 Ht1 Hi1) as (bs & st' & E & Hl & Hbs & Ht' & _). eauto 6. }
  split_and!; [|done|].
  - intros seed. destruct (random_init_ok st seed (proj1 Ht)) as (st' & E & Ht' & _). eauto.
  - destruct (Hb 4%nat) as (bs & st' & E & Hl & Hbs & Ht'). unfold random_ulong. rewrite E, bind_Ret.
    eexists _, st'. split; [reflexivity|]. split; [|done].
    destruct bs as [|a [|b [|c [|d [|]]]]]; try done. rewrite !Forall_cons in Hbs.
    destruct Hbs as (Ha & Hb' & Hc & Hd & _). unfold is_byte, is_u32 in *. cbn [foldr]. lia.
Qed.

Lemma random_witness :
  ∃ v st', random_ulong rc4_boot = Ret (v, st') ∧ is_u32 v ∧ rc4_typed st'.
Proof. apply (random_well_typed rc4_boot). by repeat split. Defined.

(** Requests are consecutive parts of one stream: how a caller splits them does not matter. *)
Theorem random_bytes_split st n k bs st' :
  random_bytes st n = Ret (bs, st') → inited st' = true →
  random_bytes st (n + k) = '(bs', st'') ← random_bytes st' k; Ret (bs ++ bs', st'').
Proof.
  unfold random_bytes. intros H Hi. bind_inv H. rewrite H0, bind_Ret, bytes_loop_add, H, Hi, !bind_Ret. done.
Qed.
