(* ===== verification/Serial.v ===== *)
(** * The serial port and the input buffer (devices/serial.c, devices/input.c)

    Both sides of the serial port: bytes on their way out wait in the interrupt queue
    [txq], received bytes and keys go to the queue [input] (called buffer in input.c).
    The functions run with interrupts off; a thread that has to wait in a queue continues
    later, as in [Intq].  The UART has the bytes that arrived and were not read yet, the
    bytes it has sent ([wire]), its interrupt enable register, and [thre], what the coming
    readings of its line status register say about the transmitter: free or busy. *)
From S2P Require Import Prelude Intq.

Inductive mode := UNINIT | POLL | QUEUE.
Record port := Port {
  pmode : mode; txq : queue_state; input : queue_state;
  rx : list Z; wire : list Z; ier : Z; thre : nat → bool;
}.
Definition IER_RECV : Z := 1.
Definition IER_XMIT : Z := 2.

Definition set_mode (p : port) (m : mode) : port := Port m (txq p) (input p) (rx p) (wire p) (ier p) (thre p).
Definition set_txq (p : port) (s : queue_state) : port := Port (pmode p) s (input p) (rx p) (wire p) (ier p) (thre p).
Definition set_input (p : port) (s : queue_state) : port := Port (pmode p) (txq p) s (rx p) (wire p) (ier p) (thre p).
Definition set_rx (p : port) (bs : list Z) : port := Port (pmode p) (txq p) (input p) bs (wire p) (ier p) (thre p).
Definition set_ier (p : port) (v : Z) : port := Port (pmode p) (txq p) (input p) (rx p) (wire p) v (thre p).
(** [outb (THR_REG, byte)]. *)
Definition transmit (p : port) (byte : Z) : port :=
  Port (pmode p) (txq p) (input p) (rx p) (wire p ++ [byte]) (ier p) (thre p).
(** [inb (LSR_REG) & LSR_THRE], the next reading. *)
Definition thr_empty (p : port) : bool * port :=
  (thre p 0, Port (pmode p) (txq p) (input p) (rx p) (wire p) (ier p) (λ n, thre p (S n))).

Definition input_full (p : port) : bool := intq_full (q (input p)).

Definition write_ier (p : port) : port :=
  let v := 0 in
  let v := if negb (intq_empty (q (txq p))) then Z.lor v IER_XMIT else v in
  let v := if negb (input_full p) then Z.lor v IER_RECV else v in
  set_ier p v.
Definition serial_notify (p : port) : port :=
  match pmode p with QUEUE => write_ier p | _ => p end.

(** [fuel] bounds the readings until the transmitter is free. *)
Fixpoint putc_poll (fuel : nat) (p : port) (byte : Z) : res port :=
  match fuel with
  | O => Stuck
  | S fuel =>
    let '(free, p) := thr_empty p in
    if free then Ret (transmit p byte) else putc_poll fuel p byte
  end.

Definition init_poll (p : port) : res port :=
  ASSERT (match pmode p with UNINIT => true | _ => false end);;
  let p := set_ier p 0 in
  let p := set_txq p (QState (intq_init (q (txq p))) (points (txq p))) in
  Ret (set_mode p POLL).
Definition serial_init_queue (p : port) : res port :=
  p ← (match pmode p with UNINIT => init_poll p | _ => Ret p end);
  ASSERT (match pmode p with POLL => true | _ => false end);;
  Ret (write_ier (set_mode p QUEUE)).

(** What a step made happen: a byte was accepted for sending, put into the input buffer, or
    taken from it. *)
Inductive io := Sent (byte : Z) | Typed (byte : Z) | Got (byte : Z).

(** The rest of [serial_putc] and [input_getc] after the queue's function was left, or
    nothing if the thread sleeps in it. *)
Definition put_done (p : port) (r : moved) : port * list io :=
  match r with In b => (write_ier p, [Sent b]) | _ => (p, []) end.
Definition get_done (p : port) (r : moved) : port * list io :=
  match r with Out b => (serial_notify p, [Got b]) | _ => (p, []) end.

(** Thread [t] calls [intq_putc] or [intq_getc] and runs until it returns or sleeps. *)
Definition enter (s : queue_state) (t : Z) (o : op) : res (queue_state * moved) :=
  resume (set_point s t (AtTest o)) t.

(** [intr_on]: whether the caller had interrupts on. *)
Definition serial_putc (fuel : nat) (p : port) (t : Z) (intr_on : bool) (byte : Z) : res (port * list io) :=
  match pmode p with
  | QUEUE =>
    p ← (if negb intr_on && intq_full (q (txq p)) then
           '(s, r) ← handler (txq p) Get;
           match r with Out b => putc_poll fuel (set_txq p s) b | _ => Stuck end
         else Ret p);
    '(s, r) ← enter (txq p) t (Put byte);
    Ret (put_done (set_txq p s) r)
  | m =>
    p ← (match m with UNINIT => init_poll p | _ => Ret p end);
    p ← putc_poll fuel p byte;
    Ret (p, [Sent byte])
  end.

Fixpoint flush_loop (fuel poll : nat) (p : port) : res port :=
  match fuel with
  | O => Stuck
  | S fuel =>
    if intq_empty (q (txq p)) then Ret p else
    '(s, r) ← handler (txq p) Get;
    match r with
    | Out b => p ← putc_poll poll (set_txq p s) b; flush_loop fuel poll p
    | _ => Stuck
    end
  end.
Definition serial_flush (fuel : nat) (p : port) : res port := flush_loop 64 fuel p.

(** ** input.c *)
Definition input_init (p : port) : port :=
  set_input p (QState (intq_init (q (input p))) (points (input p))).
Definition input_putc (p : port) (key : Z) : res port :=
  ASSERT (negb (input_full p));;
  '(s, _) ← handler (input p) (Put key);
  Ret (serial_notify (set_input p s)).
Definition input_getc (p : port) (t : Z) : res (port * list io) :=
  '(s, r) ← enter (input p) t Get;
  Ret (get_done (set_input p s) r).

(** ** The interrupt handler *)
(** [while (!input_full () && (inb (LSR_REG) & LSR_DR) != 0) input_putc (inb (RBR_REG));] *)
Fixpoint receive_loop (fuel : nat) (p : port) : res (port * list io) :=
  match fuel with
  | O => Stuck
  | S fuel =>
    match rx p with
    | b :: bs =>
      if input_full p then Ret (p, []) else
      p ← input_putc (set_rx p bs) b;
      '(p, l) ← receive_loop fuel p;
      Ret (p, Typed b :: l)
    | [] => Ret (p, [])
    end
  end.
(** [while (!intq_empty (&txq) && (inb (LSR_REG) & LSR_THRE) != 0) ...] *)
Fixpoint transmit_loop (fuel : nat) (p : port) : res port :=
  match fuel with
  | O => Stuck
  | S fuel =>
    if intq_empty (q (txq p)) then Ret p else
    let '(free, p) := thr_empty p in
    if negb free then Ret p else
    '(s, r) ← handler (txq p) Get;
    match r with Out b => transmit_loop fuel (transmit (set_txq p s) b) | _ => Stuck end
  end.
Definition serial_interrupt (p : port) : res (port * list io) :=
  '(p, l) ← receive_loop 64 p;
  p ← transmit_loop 64 p;
  Ret (write_ier p, l).

(** ** Runs *)
Inductive event :=
| InitQueue
| Putc (t : Z) (intr_on : bool) (byte : Z)
| Getc (t : Z)
| RunPut (t : Z)            (* a thread that slept in serial_putc goes on *)
| RunGet (t : Z)            (* a thread that slept in input_getc goes on *)
| Key (c : Z)               (* the keyboard's handler *)
| Arrive (byte : Z)         (* the line delivers a byte to the UART *)
| SerialInterrupt
| Flush.

Definition outside (s : queue_state) (t : Z) : bool :=
  negb (t =? NULL) && match point_of s t with Outside => true | _ => false end.
Definition runnable (s : queue_state) (t : Z) : bool :=
  match point_of s t with AtTest _ | InDown _ | AfterWait _ => true | _ => false end.

(** The handler of the port is registered in queue mode only; a thread that is in one call
    makes no other. *)
Definition enabled (p : port) (e : event) : bool :=
  match e with
  | InitQueue => match pmode p with QUEUE => false | _ => true end
  | Putc t _ _ => outside (txq p) t
  | Getc t => outside (input p) t
  | RunPut t => runnable (txq p) t
  | RunGet t => runnable (input p) t
  | Key _ => negb (input_full p)
  | SerialInterrupt => match pmode p with QUEUE => true | _ => false end
  | Arrive _ | Flush => true
  end.
Definition react (fuel : nat) (p : port) (e : event) : res (port * list io) :=
  match e with
  | InitQueue => p ← serial_init_queue p; Ret (p, [])
  | Putc t i b => serial_putc fuel p t i b
  | Getc t => input_getc p t
  | RunPut t => '(s, r) ← resume (txq p) t; Ret (put_done (set_txq p s) r)
  | RunGet t => '(s, r) ← resume (input p) t; Ret (get_done (set_input p s) r)
  | Key c => p ← input_putc p c; Ret (p, [Typed c])
  | Arrive b => Ret (set_rx p (rx p ++ [b]), [])
  | SerialInterrupt => serial_interrupt p
  | Flush => p ← serial_flush fuel p; Ret (p, [])
  end.

(** The state before any call: memory is zero, [input_init] was called. *)
Definition zero_queue : queue_state := QState (Intq 0 [] NULL NULL NULL (replicate 64 0) 0 0) ∅.
Definition port_boot (thre : nat → bool) : port :=
  input_init (Port UNINIT zero_queue zero_queue [] [] 0 thre).

Inductive reaches : port → list io → Prop :=
| reach_boot thre : reaches (port_boot thre) []
| reach_event fuel p l e p' l' :
    reaches p l → enabled p e = true → react fuel p e = Ret (p', l') → reaches p' (l ++ l').

(** ** Which operations wait in a queue *)
Definition is_put (o : op) : bool := match o with Put _ => true | Get => false end.
Definition is_get (o : op) : bool := negb (is_put o).

Section Ops.
Context (P : op → bool).
Definition ok_point (x : point) : Prop :=
  match x with
  | Outside => True
  | AtTest o | InDown o | DownSleep o | WaitSleep o | AfterWait o => P o = true
  end.
Definition ops_ok (s : queue_state) : Prop := ∀ t, ok_point (point_of s t).
Definition ok_moved (r : moved) : Prop :=
  match r with Unmoved => True | In b => P (Put b) = true | Out _ => P Get = true end.

Lemma ops_ok_set s t x : ops_ok s → ok_point x → ops_ok (set_point s t x).
Proof. intros H Hx u. rewrite point_of_set. by destruct (decide (u = t)). Qed.
Lemma ops_ok_q s x : ops_ok s → ops_ok (set_q s x).
Proof. done. Qed.
Lemma unblock_ops s t s' : ops_ok s → unblock s t = Ret s' → ops_ok s'.
Proof.
  intros H. unfold unblock. specialize (H t) as Ht.
  destruct (point_of s t); intros [= <-]; by apply ops_ok_set.
Qed.
Lemma signal_ops s o s' : ops_ok s → signal s o = Ret s' → ops_ok s'.
Proof.
  intros H. unfold signal. intros E. bind_inv E. destruct (_ =? NULL); [by injection E as <-|].
  bind_inv E. injection E as <-. apply ops_ok_q. by eapply unblock_ops.
Qed.
Lemma wait_ops s t o s' : ops_ok s → P o = true → wait s t o = Ret s' → ops_ok s'.
Proof. intros H Ho. unfold wait. intros E. bind_inv E. injection E as <-. by apply ops_ok_set. Qed.
Lemma down_and_wait_ops s t o s' : ops_ok s → P o = true → down_and_wait s t o = Ret s' → ops_ok s'.
Proof.
  intros H Ho. unfold down_and_wait. destruct (_ =? 0).
  - intros [= <-]. by apply ops_ok_set.
  - by apply wait_ops.
Qed.
Lemma release_ops s t s' : ops_ok s → release s t = Ret s' → ops_ok s'.
Proof.
  intros H. unfold release. intros E. bind_inv E. destruct (lock_waiters (q s)); [by injection E as <-|].
  bind_inv E. injection E as <-. apply ops_ok_q. by eapply unblock_ops.
Qed.
Lemma transfer_ops s o s' r : ops_ok s → transfer s o = Ret (s', r) → ops_ok s'.
Proof.
  intros H. destruct o as [|b]; cbn [transfer].
  - destruct (_ !! _); [|done]. intros E. bind_inv E. injection E as <- <-.
    eapply signal_ops; [|done]. by apply ops_ok_q.
  - intros E. bind_inv E. injection E as <- <-. eapply signal_ops; [|done]. by apply ops_ok_q.
Qed.
Lemma transfer_moved s o s' r : P o = true → transfer s o = Ret (s', r) → ok_moved r.
Proof.
  intros Ho. destruct o as [|b]; cbn [transfer]; [destruct (_ !! _); [|done]|];
    intros E; bind_inv E; by injection E as <- <-.
Qed.
Lemma test_ops s t o s' r : ops_ok s → P o = true → test s t o = Ret (s', r) → ops_ok s' ∧ ok_moved r.
Proof.
  intros H Ho. unfold test. destruct (blocked o (q s)).
  - intros E. bind_inv E. bind_inv E. injection E as <- <-. split; [|done]. by eapply down_and_wait_ops.
  - intros E. split; [|by eapply transfer_moved]. eapply transfer_ops; [|done]. by apply ops_ok_set.
Qed.
Lemma resume_ops s t s' r : ops_ok s → resume s t = Ret (s', r) → ops_ok s' ∧ ok_moved r.
Proof.
  intros H. unfold resume. specialize (H t) as Ht. destruct (point_of s t) eqn:Ep; try done; cbn in Ht.
  - by apply test_ops.
  - intros E. bind_inv E. injection E as <- <-. split; [|done]. by eapply down_and_wait_ops.
  - intros E. bind_inv E. eapply test_ops; [|done|done]. by eapply release_ops.
Qed.
End Ops.

(** ** The invariant *)
Definition sents (l : list io) : list Z := omap (λ x, match x with Sent b => Some b | _ => None end) l.
Definition typeds (l : list io) : list Z := omap (λ x, match x with Typed b => Some b | _ => None end) l.
Definition gots (l : list io) : list Z := omap (λ x, match x with Got b => Some b | _ => None end) l.

(** Nothing was sent or taken out of order, and nothing is lost. *)
Record in_order (p : port) (l : list io) : Prop := {
  o_tx : ring_ok (q (txq p)) ∧ ops_ok is_put (txq p);
  o_in : ring_ok (q (input p)) ∧ ops_ok is_get (input p);
  o_sent : wire p ++ contents (q (txq p)) = sents l;
  o_typed : gots l ++ contents (q (input p)) = typeds l;
  o_mode : pmode p ≠ QUEUE → points (txq p) = ∅ ∧ contents (q (txq p)) = [];
}.
(** The UART interrupts whenever there is something to send or room to receive. *)
Definition ier_ok (p : port) : Prop :=
  pmode p = QUEUE →
  (contents (q (txq p)) ≠ [] → Z.testbit (ier p) 1 = true)
  ∧ (input_full p = false → Z.testbit (ier p) 0 = true).

Lemma contents_nil x : ring_ok x → intq_empty x = true ↔ contents x = [].
Proof.
  intros Hx. rewrite empty_spec by done. unfold contents. destruct (fill_count x); [done|].
  by split.
Qed.

Lemma write_ier_ok p : ring_ok (q (txq p)) → ier_ok (write_ier p).
Proof.
  intros Hr _. unfold write_ier, input_full. cbn [set_ier txq input ier].
  pose proof (contents_nil _ Hr) as Hc. split; intros H.
  - destruct (intq_empty (q (txq p))); [by destruct H; apply Hc|]. by destruct (intq_full _).
  - rewrite H. by destruct (intq_empty _).
Qed.
Lemma write_ier_order p l : in_order p l → in_order (write_ier p) l.
Proof. intros []. by split. Qed.
Lemma notify_order p l : in_order p l → in_order (serial_notify p) l ∧ ier_ok (serial_notify p).
Proof.
  intros H. unfold serial_notify. destruct (pmode p) eqn:E;
    [split; [done|]; intros E'; congruence..|].
  split; [by apply write_ier_order|]. apply write_ier_ok, H.
Qed.

(** *** The queues *)
Lemma assert_inv b v : ASSERT b = Ret v → b = true.
Proof. by destruct b. Qed.

Lemma handler_get P s s' r :
  ring_ok (q s) → ops_ok P s → handler s Get = Ret (s', r) →
  ∃ b, r = Out b ∧ ring_ok (q s') ∧ ops_ok P s' ∧ contents (q s) = b :: contents (q s').
Proof.
  intros Hr Ho H. unfold handler in H. bind_inv H. apply assert_inv, negb_true_iff in H0.
  destruct (transfer_moves _ _ _ _ Hr H0 H) as [Hr' Hm].
  pose proof (transfer_ops P _ _ _ _ Ho H) as Ho'.
  pose proof (transfer_moved is_get s Get s' r eq_refl H) as Hk.
  destruct r as [|b|b]; cbn in Hk; try done; [|by exists b].
  cbn [transfer] in H. destruct (_ !! _); [|done]. bind_inv H. done.
Qed.
Lemma handler_put P s b s' r :
  ring_ok (q s) → ops_ok P s → handler s (Put b) = Ret (s', r) →
  ring_ok (q s') ∧ ops_ok P s' ∧ contents (q s') = contents (q s) ++ [b].
Proof.
  intros Hr Ho H. unfold handler in H. bind_inv H. apply assert_inv, negb_true_iff in H0.
  destruct (transfer_moves _ _ _ _ Hr H0 H) as [Hr' Hm].
  split_and!; [done|by eapply transfer_ops|]. cbn [transfer] in H. bind_inv H. by injection H as <- <-.
Qed.
(** A thread that runs in a queue where all threads put, or all get. *)
Lemma resume_spec P s t s' r :
  ring_ok (q s) → ops_ok P s → runnable s t = true → resume s t = Ret (s', r) →
  ring_ok (q s') ∧ ops_ok P s' ∧ moves (q s) (q s') r ∧ ok_moved P r.
Proof.
  intros Hr Ho Ht H. destruct (resume_ops P _ _ _ _ Ho H) as [Ho' Hk].
  destruct (react_moves s (Run t) s' r Hr Ht H) as [Hr' Hm]. by split_and!.
Qed.
Lemma enter_spec P s t o s' r :
  ring_ok (q s) → ops_ok P s → P o = true → enter s t o = Ret (s', r) →
  ring_ok (q s') ∧ ops_ok P s' ∧ moves (q s) (q s') r ∧ ok_moved P r.
Proof.
  intros Hr Ho Hp H. apply (resume_spec P (set_point s t (AtTest o)) t); [done|by apply ops_ok_set| |done].
  unfold runnable. by rewrite point_of_set, decide_True.
Qed.

(** *** The operations *)
Lemma sents_app l l' : sents (l ++ l') = sents l ++ sents l'.
Proof. apply omap_app. Qed.
Lemma typeds_app l l' : typeds (l ++ l') = typeds l ++ typeds l'.
Proof. apply omap_app. Qed.
Lemma gots_app l l' : gots (l ++ l') = gots l ++ gots l'.
Proof. apply omap_app. Qed.

Lemma putc_poll_spec fuel byte : ∀ p p',
  putc_poll fuel p byte = Ret p' →
  ∃ f, p' = Port (pmode p) (txq p) (input p) (rx p) (wire p ++ [byte]) (ier p) f.
Proof.
  induction fuel as [|fuel IH]; intros p p'; [done|]. cbn. destruct (thre p 0).
  - intros [= <-]. by eexists.
  - intros H. destruct (IH _ _ H) as [f ->]. by exists f.
Qed.

(** A byte leaves the queue for the wire. *)
Lemma drain_order p l s b f w :
  in_order p l → ring_ok (q s) → ops_ok is_put s → contents (q (txq p)) = b :: contents (q s) →
  w = wire p ++ [b] → in_order (Port (pmode p) s (input p) (rx p) w (ier p) f) l.
Proof.
  intros [Ht Hi Hs Hty Hm] Hr Ho Hc ->. split; cbn [txq input wire pmode]; [done|done| |done|].
  - rewrite <- app_assoc. cbn. by rewrite <- Hc.
  - intros Hq. destruct (Hm Hq) as [_ E]. by rewrite E in Hc.
Qed.
Lemma drain_ier p s b f w :
  ier_ok p → contents (q (txq p)) = b :: contents (q s) →
  ier_ok (Port (pmode p) s (input p) (rx p) w (ier p) f).
Proof.
  intros H Hc Hq. destruct (H Hq) as [H1 H2]. split; cbn [txq ier]; [|done].
  intros _. apply H1. by rewrite Hc.
Qed.

Definition good (p : port) (l : list io) : Prop := in_order p l ∧ ier_ok p.

Lemma set_rx_good p l bs : in_order p l → in_order (set_rx p bs) l.
Proof. intros []. by split. Qed.

Lemma input_putc_good p l k p' : in_order p l → input_putc p k = Ret p' → good p' (l ++ [Typed k]).
Proof.
  intros [Ht [Hr Ho] Hs Hty Hm] H. unfold input_putc in H. bind_inv H. bind_inv H. destruct v0 as [s r].
  injection H as <-. destruct (handler_put is_get _ _ _ _ Hr Ho H1) as (Hr' & Ho' & Hc).
  apply notify_order. split; cbn [set_input txq input wire pmode]; [done|done| | |done].
  - by rewrite sents_app, app_nil_r.
  - rewrite gots_app, typeds_app, app_nil_r, Hc, app_assoc, Hty. done.
Qed.

Lemma receive_loop_order fuel : ∀ p l p' l',
  in_order p l → receive_loop fuel p = Ret (p', l') → in_order p' (l ++ l').
Proof.
  induction fuel as [|fuel IH]; intros p l p' l' Hp H; [done|]. cbn [receive_loop] in H.
  destruct (rx p) as [|b bs]; [injection H as <- <-; by rewrite app_nil_r|].
  destruct (input_full p); [injection H as <- <-; by rewrite app_nil_r|].
  bind_inv H. bind_inv H. destruct v0 as [p2 l2]. injection H as <- <-.
  apply (input_putc_good _ l) in H0 as [H0 _]; [|by apply set_rx_good].
  replace (l ++ Typed b :: l2) with ((l ++ [Typed b]) ++ l2) by by rewrite <- app_assoc. by eapply IH.
Qed.

Lemma thre_order p l f : in_order p l → in_order (Port (pmode p) (txq p) (input p) (rx p) (wire p) (ier p) f) l.
Proof. intros []. by split. Qed.

Lemma transmit_loop_order fuel : ∀ p l p',
  in_order p l → transmit_loop fuel p = Ret p' → in_order p' l.
Proof.
  induction fuel as [|fuel IH]; intros p l p' Hp H; [done|]. cbn [transmit_loop thr_empty] in H.
  destruct (intq_empty _); [by injection H as <-|]. destruct (thre p 0); cbn [negb] in H.
  - bind_inv H. destruct v as [s r]. destruct (o_tx _ _ Hp) as [Hr Ho].
    destruct (handler_get is_put _ _ _ Hr Ho H0) as (b & -> & Hr' & Ho' & Hc).
    eapply IH; [|done]. by apply (drain_order p l s b).
  - injection H as <-. by apply thre_order.
Qed.

Lemma flush_loop_good fuel poll : ∀ p l p', good p l → flush_loop fuel poll p = Ret p' → good p' l.
Proof.
  induction fuel as [|fuel IH]; intros p l p' Hp H; [done|]. cbn [flush_loop] in H.
  destruct (intq_empty _); [by injection H as <-|]. destruct Hp as [Hp Hi].
  bind_inv H. destruct v as [s r]. destruct (o_tx _ _ Hp) as [Hr Ho].
  destruct (handler_get is_put _ _ _ Hr Ho H0) as (b & -> & Hr' & Ho' & Hc).
  bind_inv H. apply putc_poll_spec in H1 as [f ->]. eapply IH; [|done].
  split; [by apply (drain_order p l s b)|by apply (drain_ier p s b)].
Qed.

(** After [intq_putc] and [intq_getc] in a thread. *)
Lemma put_done_good p l s r :
  good p l → pmode p = QUEUE → ring_ok (q s) → ops_ok is_put s → moves (q (txq p)) (q s) r → ok_moved is_put r →
  good (put_done (set_txq p s) r).1 (l ++ (put_done (set_txq p s) r).2).
Proof.
  intros [[Ht Hi Hs Hty Hm] Hier] Hq Hr Ho Hmv Hk. destruct r as [|b|b]; cbn [put_done fst snd]; [|cbn in Hmv|done].
  - cbn in Hmv. rewrite app_nil_r. split.
    + split; cbn [set_txq txq input wire pmode]; [done|done|by rewrite Hmv|done|done].
    + intros _. destruct (Hier Hq) as [H1 H2]. split; cbn [set_txq txq ier]; [by rewrite Hmv|done].
  - split; [|by apply write_ier_ok]. apply write_ier_order.
    split; cbn [set_txq txq input wire pmode]; [done|done| | |done].
    + by rewrite sents_app, Hmv, app_assoc, Hs.
    + by rewrite gots_app, typeds_app, !app_nil_r.
Qed.
Lemma get_done_good p l s r :
  good p l → ring_ok (q s) → ops_ok is_get s → moves (q (input p)) (q s) r → ok_moved is_get r →
  good (get_done (set_input p s) r).1 (l ++ (get_done (set_input p s) r).2).
Proof.
  intros [[Ht Hi Hs Hty Hm] Hier] Hr Ho Hmv Hk. destruct r as [|b|b]; cbn [get_done fst snd]; [|done|cbn in Hmv].
  - cbn in Hmv. rewrite app_nil_r. split.
    + split; cbn [set_input txq input wire pmode]; [done|done|done|by rewrite Hmv|done].
    + intros Hq. destruct (Hier Hq) as [H1 H2]. split; cbn [set_input txq ier]; [done|].
      intros Hf. apply H2. unfold input_full in *. cbn [set_input input] in Hf.
      apply not_true_iff_false. intros Ht'. apply not_true_iff_false in Hf. apply Hf.
      apply (full_spec _ Hr). apply (full_spec _ (proj1 Hi)) in Ht'. rewrite <- Ht'.
      apply (f_equal length) in Hmv. unfold contents in Hmv. by rewrite !length_map, !length_seq in Hmv.
  - apply notify_order. split; cbn [set_input txq input wire pmode]; [done|done| | |done].
    + by rewrite sents_app, app_nil_r.
    + rewrite gots_app, typeds_app, app_nil_r, <- app_assoc. cbn. by rewrite <- Hmv.
Qed.

Lemma init_poll_good p l p' : good p l → init_poll p = Ret p' → good p' l ∧ pmode p' = POLL.
Proof.
  intros [[Ht Hi Hs Hty Hm] _] H. unfold init_poll in H. bind_inv H. apply assert_inv in H0.
  destruct (pmode p) eqn:Ep; try done. injection H as <-. destruct (Hm ltac:(done)) as [Hpt Hc].
  split; [|done]. split; [|done]. destruct Ht as [(Hl & _) Ho].
  split; cbn [set_mode set_txq set_ier txq input wire pmode q intq_init points]; [|done| |done|by split].
  - split; [by split_and!|]. intros t. unfold point_of. cbn. by rewrite Hpt.
  - by rewrite <- Hs, Hc.
Qed.

Lemma poll_sent_good fuel p l b p' :
  good p l → pmode p ≠ QUEUE → putc_poll fuel p b = Ret p' → good p' (l ++ [Sent b]).
Proof.
  intros [[Ht Hi Hs Hty Hm] Hier] Hq H. apply putc_poll_spec in H as [f ->].
  destruct (Hm Hq) as [_ Hc]. split; [|done].
  split; cbn [txq input wire pmode]; [done|done| | |done].
  - rewrite sents_app, <- Hs, Hc. cbn. by rewrite !app_nil_r.
  - by rewrite gots_app, typeds_app, !app_nil_r.
Qed.

Lemma serial_putc_good fuel p l t i b p' l' :
  good p l → serial_putc fuel p t i b = Ret (p', l') → good p' (l ++ l').
Proof.
  intros Hg H. unfold serial_putc in H. destruct (pmode p) eqn:Em.
  - bind_inv H. bind_inv H. injection H as <- <-.
    destruct (init_poll_good _ _ _ Hg H0) as [Hg' Em']. eapply poll_sent_good; [done| |done]. by rewrite Em'.
  - bind_inv H. bind_inv H. injection H as <- <-. injection H0 as <-.
    eapply poll_sent_good; [done| |done]. by rewrite Em.
  - bind_inv H. bind_inv H. destruct v0 as [s r].
    assert (good v l ∧ pmode v = QUEUE) as [Hg' Em'].
    { destruct (_ && _); [|by injection H0 as <-]. destruct Hg as [Hp Hi].
      bind_inv H0. destruct v0 as [s' r']. destruct (o_tx _ _ Hp) as [Hr Ho].
      destruct (handler_get is_put _ _ _ Hr Ho H2) as (b' & -> & Hr' & Ho' & Hc).
      apply putc_poll_spec in H0 as [f ->]. split; [|done].
      split; [by apply (drain_order p l s' b')|by apply (drain_ier p s' b')]. }
    destruct (o_tx _ _ (proj1 Hg')) as [Hr Ho].
    destruct (enter_spec is_put _ t (Put b) _ _ Hr Ho eq_refl H1) as (Hr' & Ho' & Hmv & Hk).
    pose proof (put_done_good v l s r Hg' Em' Hr' Ho' Hmv Hk) as Hd. injection H as H. by rewrite H in Hd.
Qed.

Lemma init_queue_good p l p' : good p l → serial_init_queue p = Ret p' → good p' l.
Proof.
  intros Hg H. unfold serial_init_queue in H. bind_inv H. bind_inv H. injection H as <-.
  assert (good v l) as Hv.
  { destruct (pmode p); [by eapply init_poll_good|by injection H0 as <-..]. }
  destruct Hv as [[Ht Hi Hs Hty Hm] _]. split; [|apply write_ier_ok, Ht]. by apply write_ier_order; split.
Qed.

Lemma react_good fuel p l e p' l' :
  good p l → enabled p e = true → react fuel p e = Ret (p', l') → good p' (l ++ l').
Proof.
  intros Hg He H. destruct e as [|t i b|t|t|t|c|b| |]; cbn [react] in H.
  - bind_inv H. injection H as <- <-. rewrite app_nil_r. by eapply init_queue_good.
  - by eapply serial_putc_good.
  - unfold input_getc in H. bind_inv H. destruct v as [s r]. destruct (o_in _ _ (proj1 Hg)) as [Hr Ho].
    destruct (enter_spec is_get _ t Get _ _ Hr Ho eq_refl H0) as (Hr' & Ho' & Hmv & Hk).
    pose proof (get_done_good p l s r Hg Hr' Ho' Hmv Hk) as Hd. injection H as H. by rewrite H in Hd.
  - bind_inv H. destruct v as [s r]. destruct (o_tx _ _ (proj1 Hg)) as [Hr Ho]. cbn [enabled] in He.
    destruct (resume_spec is_put _ _ _ _ Hr Ho He H0) as (Hr' & Ho' & Hmv & Hk).
    assert (pmode p = QUEUE) as Hq.
    { destruct (pmode p) eqn:Em; [..|done]; destruct (o_mode _ _ (proj1 Hg)) as [Hpt _]; try (by rewrite Em);
        unfold runnable, point_of in He; by rewrite Hpt in He. }
    pose proof (put_done_good p l s r Hg Hq Hr' Ho' Hmv Hk) as Hd. injection H as H. by rewrite H in Hd.
  - bind_inv H. destruct v as [s r]. destruct (o_in _ _ (proj1 Hg)) as [Hr Ho]. cbn [enabled] in He.
    destruct (resume_spec is_get _ _ _ _ Hr Ho He H0) as (Hr' & Ho' & Hmv & Hk).
    pose proof (get_done_good p l s r Hg Hr' Ho' Hmv Hk) as Hd. injection H as H. by rewrite H in Hd.
  - bind_inv H. injection H as <- <-. eapply input_putc_good; [apply Hg|done].
  - injection H as <- <-. rewrite app_nil_r. destruct Hg as [Hp Hi]. split; [by apply set_rx_good|done].
  - unfold serial_interrupt in H. bind_inv H. destruct v as [p1 l1]. bind_inv H. injection H as <- <-.
    apply (receive_loop_order _ _ l) in H0; [|apply Hg]. apply (transmit_loop_order _ _ (l ++ l1)) in H1; [|done].
    split; [by apply write_ier_order|apply write_ier_ok, H1].
  - bind_inv H. injection H as <- <-. rewrite app_nil_r. by eapply flush_loop_good.
Qed.

(** C34: In every state that threads, interrupts and the line can bring about, in any order, the
    bytes on the wire followed by those still queued are exactly the bytes accepted for
    sending, in order, also when a full queue is relieved by polling; the bytes given to
    readers followed by those in the buffer are exactly the keys and received bytes, in
    order; and in queue mode the port's interrupts are enabled whenever there is a byte to
    send or room to receive. *)
Theorem serial_port_invariant p l :
  reaches p l →
  wire p ++ contents (q (txq p)) = sents l
  ∧ gots l ++ contents (q (input p)) = typeds l
  ∧ (pmode p = QUEUE →
       (contents (q (txq p)) ≠ [] → Z.testbit (ier p) 1 = true)
       ∧ (input_full p = false → Z.testbit (ier p) 0 = true)).
Proof.
  intros H. assert (good p l) as [[_ _ Hs Hty _] Hi]; [|by split_and!].
  induction H as [f|fuel p l e p' l' _ IH He Hr]; [|by eapply react_good].
  by split.
Qed.

(** *** A run: two bytes are queued, a key is pressed, two bytes arrive, the port interrupts
    twice with the transmitter free once each, and a thread reads. *)
Fixpoint run (p : port) (es : list event) : option (port * list io) :=
  match es with
  | [] => Some (p, [])
  | e :: es =>
    if enabled p e then
      match react 10 p e with
      | Ret (p, l) => '(p, l') ← run p es; Some (p, l ++ l')
      | _ => None
      end
    else None
  end.
Lemma run_reaches es : ∀ p l p' l', reaches p l → run p es = Some (p', l') → reaches p' (l ++ l').
Proof.
  induction es as [|e es IH]; intros p l p' l' Hp H; cbn [run] in H; [injection H as <- <-; by rewrite app_nil_r|].
  destruct (enabled p e) eqn:He; [|done]. destruct (react 10 p e) as [[p1 l1]| |] eqn:Hr; [|done..].
  apply bind_Some in H as ([p2 l2] & H & [= <- <-]). rewrite app_assoc. eapply IH; [|done].
  by eapply reach_event.
Qed.
Definition demo_run : list event :=
  [Putc 100 true 7; InitQueue; Putc 100 true 65; Putc 100 false 66; Key 10; Arrive 20; Arrive 21;
   SerialInterrupt; Getc 200; Getc 200].

Lemma serial_port_witness :
  ∃ p, run (port_boot (λ n, n <? 2)%nat) demo_run
         = Some (p, [Sent 7; Sent 65; Sent 66; Typed 10; Typed 20; Typed 21; Got 10; Got 20])
    ∧ wire p ++ contents (q (txq p)) = [7; 65; 66].
Proof.
  destruct (run (port_boot (λ n, n <? 2)%nat) demo_run) as [[p l]|] eqn:E; [|by vm_compute in E].
  assert (snd <$> run (port_boot (λ n, n <? 2)%nat) demo_run
    = Some [Sent 7; Sent 65; Sent 66; Typed 10; Typed 20; Typed 21; Got 10; Got 20]) as El by (vm_compute; reflexivity).
  rewrite E in El. injection El as ->. exists p. split; [done|].
  exact (proj1 (serial_port_invariant p _ (run_reaches demo_run _ [] _ _ (reach_boot _) E))).
Defined.
