(* ===== verification/Keyboard.v ===== *)
(** * The keyboard (devices/kbd.c)

    The interrupt handler turns scancodes into characters for the input buffer and tracks the
    modifier keys.  The bytes read from the data port are arguments; the second is read
    only after the prefix 0xe0. *)
From Stdlib Require Import (notations) Ascii String.
From S2P Require Import Prelude Mem CString Arithmetic Sorting Stdio Intq Serial.

Record kbd := Kbd {
  left_shift : bool; right_shift : bool; left_alt : bool; right_alt : bool;
  left_ctrl : bool; right_ctrl : bool; caps_lock : bool; key_cnt : Z;
}.

(** [struct keymap] and the tables. *)
Definition keymap : Type := list (Z * list Z).
Definition invariant_keymap : keymap :=
  [(1, [27]); (14, [8]); (15, 9 :: chars "QWERTYUIOP"); (28, [13]); (30, chars "ASDFGHJKL");
   (44, chars "ZXCVBNM"); (55, chars "*"); (57, chars " "); (83, [127])].
Definition unshifted_keymap : keymap :=
  [(2, chars "1234567890-="); (26, chars "[]"); (39, chars ";'`"); (43, chars "\"); (51, chars ",./")].
Definition shifted_keymap : keymap :=
  [(2, chars "!@#$%^&*()_+"); (26, chars "{}"); (39, chr ":" :: 34 :: chars "~"); (43, chars "|");
   (51, chars "<>?")].

Fixpoint map_key (k : keymap) (scancode : Z) : option Z :=
  match k with
  | [] => None
  | (first, cs) :: k =>
    if (first <=? scancode) && (scancode <? first + len cs) then cs !! Z.to_nat (scancode - first)
    else map_key k scancode
  end.

Definition tolower (c : Z) : Z := if (65 <=? c) && (c <=? 90) then c - 65 + 97 else c.

(** [shift_keys]: the variable of a modifier key. *)
Inductive modifier := LShift | RShift | LAlt | RAlt | LCtrl | RCtrl.
#[export] Instance modifier_eq_dec : EqDecision modifier.
Proof. solve_decision. Defined.
Definition shift_keys : list (Z * modifier) :=
  [(42, LShift); (54, RShift); (56, LAlt); (57400, RAlt); (29, LCtrl); (57373, RCtrl)].
Definition set_var (k : kbd) (m : modifier) (v : bool) : kbd :=
  let '(Kbd ls rs la ra lc rc caps n) := k in
  match m with
  | LShift => Kbd v rs la ra lc rc caps n
  | RShift => Kbd ls v la ra lc rc caps n
  | LAlt => Kbd ls rs v ra lc rc caps n
  | RAlt => Kbd ls rs la v lc rc caps n
  | LCtrl => Kbd ls rs la ra v rc caps n
  | RCtrl => Kbd ls rs la ra lc v caps n
  end.
Fixpoint scan_keys (keys : list (Z * modifier)) (code : Z) : option modifier :=
  match keys with
  | [] => None
  | (c, m) :: keys => if c =? code then Some m else scan_keys keys code
  end.

(** [shutdown_reboot] does not return. *)
Inductive after := Reboot | Running (k : kbd) (p : port).

(** The character of a key that was pressed: control, shift and caps lock, alt. *)
Definition modify (ctrl shift alt caps : bool) (c : Z) : Z :=
  let c := if ctrl && (64 <=? c) && (c <? 96) then c - 64
           else if eqb shift caps then tolower c else c in
  if alt then (c + 128) mod 256 else c.

Definition keyboard_interrupt (k : kbd) (p : port) (byte1 byte2 : Z) : res after :=
  let shift := left_shift k || right_shift k in
  let alt := left_alt k || right_alt k in
  let ctrl := left_ctrl k || right_ctrl k in
  let code := if byte1 =? 224 then Z.lor (Z.shiftl byte1 8) byte2 else byte1 in
  let release := negb (Z.land code 128 =? 0) in
  let code := Z.land code 4294967167 in
  if code =? 58 then
    Ret (Running (if negb release
                  then Kbd (left_shift k) (right_shift k) (left_alt k) (right_alt k) (left_ctrl k)
                         (right_ctrl k) (negb (caps_lock k)) (key_cnt k)
                  else k) p)
  else
    match (match map_key invariant_keymap code with
           | Some c => Some c
           | None => if negb shift then map_key unshifted_keymap code else map_key shifted_keymap code
           end) with
    | Some c =>
      if negb release then
        if (c =? 127) && ctrl && alt then Ret Reboot else
        let c := modify ctrl shift alt (caps_lock k) c in
        if negb (input_full p) then
          p ← input_putc p c;
          Ret (Running (Kbd (left_shift k) (right_shift k) (left_alt k) (right_alt k) (left_ctrl k)
                          (right_ctrl k) (caps_lock k) (s64 (key_cnt k + 1))) p)
        else Ret (Running k p)
      else Ret (Running k p)
    | None =>
      match scan_keys shift_keys code with
      | Some m => Ret (Running (set_var k m (negb release)) p)
      | None => Ret (Running k p)
      end
    end.

(** ** Specification: what the hands do *)
(** A key goes down or up; [extended] keys send the prefix. *)
Record stroke := Stroke { extended : bool; key : Z; down : bool }.
Definition valid (s : stroke) : bool := (0 <=? key s) && (key s <? 128) && negb (negb (extended s) && (key s =? 96)).
Definition code_of (s : stroke) : Z := if extended s then 57344 + key s else key s.
(** The bytes the keyboard sends. *)
Definition last_byte (s : stroke) : Z := key s + if down s then 0 else 128.
Definition bytes_of (s : stroke) : Z * Z := if extended s then (224, last_byte s) else (last_byte s, 0).

(** Whether a key is down after some strokes, and how often it was pressed. *)
Definition held (code : Z) (ss : list stroke) : bool :=
  foldl (λ h s, if code_of s =? code then down s else h) false ss.
Definition caps_on (ss : list stroke) : bool :=
  foldl (λ h s, if (code_of s =? 58) && down s then negb h else h) false ss.

(** The keyboard's handler over a sequence of strokes; other devices and the readers of the
    buffer change the port in between. *)
Inductive typing : list stroke → kbd → Prop :=
| typing_start : typing [] (Kbd false false false false false false false 0)
| typing_stroke ss k p s k' p' :
    typing ss k → valid s = true →
    keyboard_interrupt k p (bytes_of s).1 (bytes_of s).2 = Ret (Running k' p') →
    typing (ss ++ [s]) k'.

Definition get_var (k : kbd) (m : modifier) : bool :=
  match m with
  | LShift => left_shift k | RShift => right_shift k | LAlt => left_alt k
  | RAlt => right_alt k | LCtrl => left_ctrl k | RCtrl => right_ctrl k
  end.
(** The key of a modifier, as the PC keyboard numbers them. *)
Definition modifier_code (m : modifier) : Z :=
  match m with
  | LShift => 42 | RShift => 54 | LAlt => 56 | RAlt => 57400 | LCtrl => 29 | RCtrl => 57373
  end.

(** ** Decoding *)
Definition decode (bytes : Z * Z) : Z * bool :=
  let code := if bytes.1 =? 224 then Z.lor (Z.shiftl bytes.1 8) bytes.2 else bytes.1 in
  (Z.land code 4294967167, negb (Z.land code 128 =? 0)).
Lemma decode_all : forallb (λ n, forallb (λ e, forallb (λ d,
    let s := Stroke e n d in negb (valid s) || bool_decide (decode (bytes_of s) = (code_of s, negb d)))
  [false; true]) [false; true]) (seqZ 0 128) = true.
Proof. vm_compute. reflexivity. Qed.

Lemma decode_stroke s : valid s = true → decode (bytes_of s) = (code_of s, negb (down s)).
Proof.
  intros Hv. pose proof decode_all as H. rewrite forallb_forall in H.
  destruct s as [e n d]. specialize (H n). rewrite forallb_forall in H.
  assert (n ∈ seqZ 0 128) as Hn%list_elem_of_In.
  { apply elem_of_seqZ. unfold valid in Hv. cbn in Hv. rewrite !andb_true_iff in Hv. lia. }
  specialize (H Hn e ltac:(destruct e; cbn; auto)). rewrite forallb_forall in H.
  specialize (H d ltac:(destruct d; cbn; auto)). cbn zeta in H. rewrite Hv in H. by apply bool_decide_eq_true in H.
Qed.

(** The tables of characters have no modifier key, and no caps lock. *)
Definition table_of (shift : bool) (code : Z) : option Z :=
  match map_key invariant_keymap code with
  | Some c => Some c
  | None => if negb shift then map_key unshifted_keymap code else map_key shifted_keymap code
  end.
Lemma table_of_modifier shift m : table_of shift (modifier_code m) = None.
Proof. by destruct shift, m. Qed.
Lemma scan_keys_spec code m : scan_keys shift_keys code = Some m ↔ code = modifier_code m.
Proof.
  split; [|intros ->; by destruct m]. cbn [scan_keys shift_keys].
  repeat match goal with |- context [?a =? code] => destruct (Z.eqb_spec a code) as [<-|]; [by intros [= <-]|] end.
  done.
Qed.
Lemma get_set_var k m v m' : get_var (set_var k m v) m' = if decide (m = m') then v else get_var k m'.
Proof. by destruct k, m, m'. Qed.
Lemma set_var_caps k m v : caps_lock (set_var k m v) = caps_lock k.
Proof. by destruct k, m. Qed.

(** ** One stroke *)
Lemma stroke_effect k p s k' p' :
  valid s = true → keyboard_interrupt k p (bytes_of s).1 (bytes_of s).2 = Ret (Running k' p') →
  (∀ m, get_var k' m = if code_of s =? modifier_code m then down s else get_var k m)
  ∧ caps_lock k' = (if (code_of s =? 58) && down s then negb (caps_lock k) else caps_lock k).
Proof.
  intros Hv H. pose proof (decode_stroke s Hv) as Hd. unfold decode in Hd. unfold keyboard_interrupt in H.
  injection Hd as Hc Hr. rewrite Hc, Hr, !negb_involutive in H. clear Hc Hr.
  destruct (Z.eqb_spec (code_of s) 58) as [E|E]; cbn [andb].
  { rewrite E. assert (∀ m, 58 =? modifier_code m = false) as Hm by by intros [].
    injection H as <- <-. destruct (down s); (split; [|done]); intros m; rewrite Hm; by destruct m. }
  fold (table_of (left_shift k || right_shift k) (code_of s)) in H.
  destruct (table_of _ (code_of s)) as [c|] eqn:Et.
  { assert (∀ m, code_of s =? modifier_code m = false) as Hm.
    { intros m. apply Z.eqb_neq. intros Em. by rewrite Em, table_of_modifier in Et. }
    assert (∀ n, caps_lock (Kbd (left_shift k) (right_shift k) (left_alt k) (right_alt k) (left_ctrl k)
      (right_ctrl k) (caps_lock k) n) = caps_lock k) by done.
    destruct (down s); [|injection H as <- <-; by split; [intros m; rewrite Hm|]].
    destruct (_ && _ && _); [done|]. destruct (negb _).
    - bind_inv H. injection H as <- <-. split; [|done]. intros m. rewrite Hm. by destruct m.
    - injection H as <- <-. by split; [intros m; rewrite Hm|]. }
  destruct (scan_keys shift_keys (code_of s)) as [m|] eqn:Es; injection H as <- <-.
  - apply scan_keys_spec in Es. split; [|apply set_var_caps]. intros m'. rewrite get_set_var, Es.
    destruct (decide (m = m')) as [->|Hne]; [by rewrite Z.eqb_refl|].
    destruct (Z.eqb_spec (modifier_code m) (modifier_code m')) as [Em|]; [|done].
    by destruct m, m'.
  - split; [|done]. intros m. destruct (Z.eqb_spec (code_of s) (modifier_code m)) as [Em|]; [|done].
    by apply scan_keys_spec in Em; rewrite Em in Es.
Qed.

(** The keyboard's state is what the hands did: after any strokes, each of the six modifier
    variables says whether its key is down, and caps lock whether its key was pressed an
    odd number of times, whatever happened to the input buffer in between. *)
Theorem keyboard_tracks ss k :
  typing ss k →
  (∀ m, get_var k m = held (modifier_code m) ss) ∧ caps_lock k = caps_on ss.
Proof.
  induction 1 as [|ss k p s k' p' _ [IHm IHc] Hv H]; [by split; [intros []|]|].
  destruct (stroke_effect _ _ _ _ _ Hv H) as [Hm Hc]. split.
  - intros m. unfold held. rewrite foldl_app, Hm, IHm. done.
  - unfold caps_on. rewrite foldl_app, Hc, IHc. done.
Qed.

(** ** Letters *)
(** The letter on a key. *)
Definition letter_of (code : Z) : option Z :=
  match map_key invariant_keymap code with
  | Some c => if (65 <=? c) && (c <=? 90) then Some c else None
  | None => None
  end.
Lemma letters_all : forallb (λ c, bool_decide (c ∈ omap letter_of (seqZ 0 128))) (seqZ 65 26) = true.
Proof. vm_compute. reflexivity. Qed.

(** Pressing the key of a letter gives the capital letter if exactly one of shift and caps
    lock is on and the small letter otherwise; control gives the control character
    whatever shift says, and alt adds 128.  The character goes to the input buffer unless
    that is full, when the stroke is lost. *)
Theorem keyboard_letter k p s c :
  valid s = true → down s = true → letter_of (code_of s) = Some c →
  let shift := get_var k LShift || get_var k RShift in
  let ctrl := get_var k LCtrl || get_var k RCtrl in
  let alt := get_var k LAlt || get_var k RAlt in
  let ch := (if ctrl then c - 64 else if xorb shift (caps_lock k) then c else c + 32)
            + (if alt then 128 else 0) in
  keyboard_interrupt k p (bytes_of s).1 (bytes_of s).2
  = if input_full p then Ret (Running k p)
    else p ← input_putc p ch;
         Ret (Running (Kbd (left_shift k) (right_shift k) (left_alt k) (right_alt k) (left_ctrl k)
                         (right_ctrl k) (caps_lock k) (s64 (key_cnt k + 1))) p).
Proof.
  intros Hv Hdn Hl shift ctrl alt ch. pose proof (decode_stroke s Hv) as Hd. unfold decode in Hd.
  injection Hd as Hc Hr. unfold keyboard_interrupt. rewrite Hc, Hr, Hdn. clear Hc Hr. cbn [negb].
  unfold letter_of in Hl. destruct (Z.eqb_spec (code_of s) 58) as [E|_]; [by rewrite E in Hl|].
  destruct (map_key invariant_keymap (code_of s)) as [c'|]; [|done].
  destruct ((65 <=? c') && (c' <=? 90)) eqn:Hr; [|done]. injection Hl as ->.
  apply andb_true_iff in Hr as [Hlo%Z.leb_le Hhi%Z.leb_le].
  destruct (Z.eqb_spec c 127); [lia|]. cbn [andb].
  assert (modify ctrl shift alt (caps_lock k) c = ch) as Hm.
  { unfold modify, ch, tolower. destruct (Z.leb_spec 64 c), (Z.ltb_spec c 96), (Z.leb_spec 65 c), (Z.leb_spec c 90); try lia.
    destruct ctrl, alt, shift, (caps_lock k); cbn [andb eqb xorb]; rewrite ?Z.mod_small by lia; lia. }
  unfold shift, ctrl, alt in Hm. cbn [get_var] in Hm. rewrite Hm. by destruct (input_full p).
Qed.

Lemma keyboard_letter_witness :
  ∃ k p, keyboard_interrupt (Kbd false true false false false false false 0) (port_boot (λ _, true)) 16 0
         = Ret (Running k p) ∧ contents (q (Serial.input p)) = [81].
Proof.
  pose proof (keyboard_letter (Kbd false true false false false false false 0) (port_boot (λ _, true))
    (Stroke false 16 true) 81 eq_refl eq_refl eq_refl) as H.
  eexists _, _. split; [etransitivity; [exact H|vm_compute; reflexivity]|vm_compute; reflexivity].
Defined.

(** Shift down, Q pressed, shift up. *)
Lemma keyboard_tracks_witness :
  ∃ k, typing [Stroke false 42 true; Stroke false 16 true; Stroke false 54 true; Stroke false 42 false] k
    ∧ get_var k LShift = false ∧ get_var k RShift = true.
Proof.
  pose (p := port_boot (λ _, true)).
  assert (H1 : typing [Stroke false 42 true] (Kbd true false false false false false false 0))
    by (apply (typing_stroke [] _ p (Stroke false 42 true) _ p typing_start eq_refl); vm_compute; reflexivity).
  assert (H2 : typing [Stroke false 42 true; Stroke false 16 true] (Kbd true false false false false false false 1))
    by (eapply (typing_stroke [_] _ p (Stroke false 16 true) _ _ H1 eq_refl); vm_compute; reflexivity).
  assert (H3 : typing [Stroke false 42 true; Stroke false 16 true; Stroke false 54 true]
    (Kbd true true false false false false false 1))
    by (apply (typing_stroke [_; _] _ p (Stroke false 54 true) _ p H2 eq_refl); vm_compute; reflexivity).
  assert (H4 : typing [Stroke false 42 true; Stroke false 16 true; Stroke false 54 true; Stroke false 42 false]
    (Kbd false true false false false false false 1))
    by (apply (typing_stroke [_; _; _] _ p (Stroke false 42 false) _ p H3 eq_refl); vm_compute; reflexivity).
  eexists. split; [exact H4|]. destruct (keyboard_tracks _ _ H4) as [H _]. by rewrite !H.
Defined.
