(* ===== verification/Vga.v ===== *)
(** * The text screen (devices/vga.c)

    The frame buffer is the list of its 25 rows of 80 cells, a cell being a character and an
    attribute; a write outside it is [Stuck].  The display controller is its two cursor
    registers.  The bell makes a sound and changes nothing here. *)
From S2P Require Import Prelude Mem CString.

Definition COL_CNT : Z := 80.
Definition ROW_CNT : Z := 25.
Definition GRAY_ON_BLACK : Z := 7.

Abbreviation cell := (Z * Z)%type.
Abbreviation row := (list cell).
Record vga := Vga {
  inited : bool; fb : list row; cx : Z; cy : Z;
  reg_high : Z; reg_low : Z;   (* registers 0x0e and 0x0f of the controller *)
}.
Definition set_cursor (v : vga) (x y : Z) : vga := Vga (inited v) (fb v) x y (reg_high v) (reg_low v).
Definition set_fb (v : vga) (f : list row) : vga := Vga (inited v) f (cx v) (cy v) (reg_high v) (reg_low v).

(** [outw (0x3d4, w)]: the low byte selects a register, the high byte is its new value. *)
Definition outw (v : vga) (w : Z) : vga :=
  let data := Z.land (Z.shiftr w 8) 255 in
  if Z.land w 255 =? 14 then Vga (inited v) (fb v) (cx v) (cy v) data (reg_low v)
  else if Z.land w 255 =? 15 then Vga (inited v) (fb v) (cx v) (cy v) (reg_high v) data
  else v.

Definition move_cursor (v : vga) : vga :=
  let cp := (cx v + COL_CNT * cy v) mod 65536 in
  let v := outw v (Z.lor 14 (Z.land cp 65280)) in
  outw v (Z.lor 15 (Z.shiftl cp 8) mod 65536).
Definition find_cursor (v : vga) : Z * Z :=
  let cp := Z.lor (Z.shiftl (reg_high v) 8 mod 65536) (reg_low v) in
  (cp mod COL_CNT, cp / COL_CNT).

Definition init (v : vga) : vga :=
  if inited v then v
  else let '(x, y) := find_cursor v in Vga true (fb v) x y (reg_high v) (reg_low v).

(** [fb[y][x][0] = ch; fb[y][x][1] = GRAY_ON_BLACK]. *)
Definition put_cell (v : vga) (y x ch : Z) : res vga :=
  match fb v !! Z.to_nat y with
  | None => Stuck
  | Some r =>
    if (x <? len r) then
      Ret (set_fb v (<[Z.to_nat y := <[Z.to_nat x := (ch mod 256, GRAY_ON_BLACK)]> r]> (fb v)))
    else Stuck
  end.
Fixpoint clear_row_loop (n : nat) (v : vga) (y x : Z) : res vga :=
  match n with
  | O => Ret v
  | S n => v ← put_cell v y x 32; clear_row_loop n v y (x + 1)
  end.
Definition clear_row (v : vga) (y : Z) : res vga := clear_row_loop (Z.to_nat COL_CNT) v y 0.
Fixpoint cls_loop (n : nat) (v : vga) (y : Z) : res vga :=
  match n with
  | O => Ret v
  | S n => v ← clear_row v y; cls_loop n v (y + 1)
  end.
Definition cls (v : vga) : res vga :=
  v ← cls_loop (Z.to_nat ROW_CNT) v 0;
  Ret (move_cursor (set_cursor v 0 0)).

(** [memmove (&fb[0], &fb[1], sizeof fb[0] * (ROW_CNT - 1))]. *)
Definition scroll (f : list row) : list row := take 24 (drop 1 f) ++ drop 24 f.
Definition newline (v : vga) : res vga :=
  let v := set_cursor v 0 (cy v + 1) in
  if ROW_CNT <=? cy v then
    let v := set_fb (set_cursor v (cx v) (ROW_CNT - 1)) (scroll (fb v)) in
    clear_row v (ROW_CNT - 1)
  else Ret v.

Definition vga_putc (v : vga) (c : Z) : res vga :=
  let v := init v in
  v ← (if c =? 10 then newline v
       else if c =? 12 then cls v
       else if c =? 8 then Ret (if 0 <? cx v then set_cursor v (cx v - 1) (cy v) else v)
       else if c =? 13 then Ret (set_cursor v 0 (cy v))
       else if c =? 9 then
         let v := set_cursor v (ROUND_UP (cx v + 1) 8) (cy v) in
         if COL_CNT <=? cx v then newline v else Ret v
       else if c =? 7 then Ret v
       else
         v ← put_cell v (cy v) (cx v) c;
         let v := set_cursor v (cx v + 1) (cy v) in
         if COL_CNT <=? cx v then newline v else Ret v);
  Ret (move_cursor v).
Fixpoint vga_puts (v : vga) (cs : list Z) : res vga :=
  match cs with
  | [] => Ret v
  | c :: cs => v ← vga_putc v c; vga_puts v cs
  end.

(** ** The specification: a terminal that prints on paper

    The paper only grows; the screen shows its last 25 rows. *)
Definition blank : row := replicate 80 (32, GRAY_ON_BLACK).
Record terminal := Terminal { paper : list row; line : nat; column : Z }.

Definition feed (t : terminal) : terminal :=
  Terminal (if (S (line t) =? length (paper t))%nat then paper t ++ [blank] else paper t) (S (line t)) 0.
(** The column is followed by a line feed when it leaves the paper. *)
Definition advance (t : terminal) (x : Z) : terminal :=
  if x <? 80 then Terminal (paper t) (line t) x else feed t.
Definition print (t : terminal) (c : Z) : terminal :=
  if c =? 10 then feed t
  else if c =? 12 then Terminal (paper t ++ replicate 25 blank) (length (paper t)) 0
  else if c =? 8 then Terminal (paper t) (line t) (Z.max 0 (column t - 1))
  else if c =? 13 then Terminal (paper t) (line t) 0
  else if c =? 9 then advance t (8 * (column t / 8 + 1))
  else if c =? 7 then t
  else advance (Terminal (alter (alter (λ _, (c mod 256, GRAY_ON_BLACK)) (Z.to_nat (column t)))
                            (line t) (paper t)) (line t) (column t)) (column t + 1).

(** The screen [v] shows the end of the paper, with the cursor, also the controller's, where
    the terminal prints next. *)
Record shows (v : vga) (t : terminal) : Prop := {
  shows_rows : Forall (λ r, length r = 80%nat) (paper t);
  shows_size : (25 ≤ length (paper t))%nat;
  shows_fb : fb v = drop (length (paper t) - 25) (paper t);
  shows_line : Z.of_nat (line t) = Z.of_nat (length (paper t) - 25) + cy v;
  shows_cy : 0 ≤ cy v < 25;
  shows_column : column t = cx v;
  shows_cx : 0 ≤ cx v < 80;
}.
Definition synced (v : vga) : Prop := inited v = true ∧ find_cursor v = (cx v, cy v).

(** ** Proof *)
(** *** The cursor registers *)
Definition cursor_regs (cp : Z) : Z :=
  Z.lor (Z.shiftl (Z.land (Z.shiftr (Z.lor 14 (Z.land cp 65280)) 8) 255) 8 mod 65536)
    (Z.land (Z.shiftr (Z.lor 15 (Z.shiftl cp 8) mod 65536) 8) 255).
Definition selects (cp : Z) : bool :=
  (Z.land (Z.lor 14 (Z.land cp 65280)) 255 =? 14) && (Z.land (Z.lor 15 (Z.shiftl cp 8) mod 65536) 255 =? 15).

Lemma cursor_regs_all : forallb (λ cp, (cursor_regs cp =? cp) && selects cp) (seqZ 0 2000) = true.
Proof. vm_compute. reflexivity. Qed.
Lemma cursor_regs_id cp : 0 ≤ cp < 2000 → cursor_regs cp = cp ∧ selects cp = true.
Proof.
  intros H. pose proof cursor_regs_all as Ha. rewrite forallb_forall in Ha.
  specialize (Ha cp). rewrite <- list_elem_of_In, elem_of_seqZ in Ha.
  apply andb_true_iff in Ha as [Ha%Z.eqb_eq Hb]; [done|lia].
Qed.

Lemma move_cursor_spec v :
  0 ≤ cx v < 80 → 0 ≤ cy v < 25 →
  find_cursor (move_cursor v) = (cx v, cy v) ∧ inited (move_cursor v) = inited v
  ∧ fb (move_cursor v) = fb v ∧ cx (move_cursor v) = cx v ∧ cy (move_cursor v) = cy v.
Proof.
  intros Hx Hy. unfold move_cursor, COL_CNT. set (cp := cx v + 80 * cy v).
  rewrite (Z.mod_small cp) by lia.
  destruct (cursor_regs_id cp ltac:(lia)) as [Hr Hs]. unfold selects in Hs.
  apply andb_true_iff in Hs as [S1%Z.eqb_eq S2%Z.eqb_eq]. unfold outw. rewrite S1, S2. cbn [Z.eqb Pos.eqb inited fb cx cy reg_high reg_low].
  split_and!; [|done..]. unfold find_cursor. cbn [reg_high reg_low]. unfold cursor_regs in Hr. rewrite Hr.
  unfold cp, COL_CNT. f_equal.
  - rewrite Z.mul_comm, Z_mod_plus_full. by apply Z.mod_small.
  - rewrite Z.mul_comm, Z_div_plus_full by lia. rewrite (Z.div_small (cx v)) by done. done.
Qed.

(** *** Clearing *)
Lemma put_cell_spec v y x ch r :
  0 ≤ y → fb v !! Z.to_nat y = Some r → 0 ≤ x < len r →
  put_cell v y x ch
  = Ret (set_fb v (<[Z.to_nat y := <[Z.to_nat x := (ch mod 256, GRAY_ON_BLACK)]> r]> (fb v))).
Proof. intros Hy Hr Hx. unfold put_cell. rewrite Hr. by destruct (Z.ltb_spec x (len r)); [|lia]. Qed.

Lemma set_fb_set_fb v f g : set_fb (set_fb v f) g = set_fb v g.
Proof. done. Qed.
Lemma set_fb_self v : set_fb v (fb v) = v.
Proof. by destruct v. Qed.

Lemma clear_row_loop_spec n : ∀ v y x r,
  0 ≤ y → fb v !! Z.to_nat y = Some r → 0 ≤ x → x + Z.of_nat n = len r →
  clear_row_loop n v y x
  = Ret (set_fb v (<[Z.to_nat y := take (Z.to_nat x) r ++ replicate n (32, GRAY_ON_BLACK)]> (fb v))).
Proof.
  induction n as [|n IH]; intros v y x r Hy Hr Hx Hn; cbn [clear_row_loop].
  - rewrite app_nil_r, take_ge by lia. by rewrite list_insert_id, set_fb_self.
  - pose proof (lookup_lt_Some _ _ _ Hr) as Hl.
    rewrite (put_cell_spec _ _ _ _ r) by (done || lia). cbn [mbind res_bind].
    rewrite (IH _ _ _ (<[Z.to_nat x := (32 mod 256, GRAY_ON_BLACK)]> r)); [|done| |lia|rewrite length_insert; lia].
    + rewrite set_fb_set_fb. cbn [set_fb fb]. rewrite list_insert_insert_eq. do 3 f_equal.
      replace (Z.to_nat (x + 1)) with (S (Z.to_nat x)) by lia.
      rewrite (take_S_r _ _ (32, GRAY_ON_BLACK)) by (apply list_lookup_insert_eq; lia).
      rewrite take_insert_ge by lia. by rewrite <- app_assoc.
    + cbn [set_fb fb]. by apply list_lookup_insert_eq.
Qed.

Lemma clear_row_spec v y r :
  0 ≤ y → fb v !! Z.to_nat y = Some r → length r = 80%nat →
  clear_row v y = Ret (set_fb v (<[Z.to_nat y := blank]> (fb v))).
Proof.
  intros Hy Hr H8. unfold clear_row.
  rewrite (clear_row_loop_spec _ _ _ _ r); [done|done|done|lia|unfold COL_CNT; lia].
Qed.

Lemma cls_loop_spec n : ∀ v y,
  0 ≤ y → y + Z.of_nat n = len (fb v) → Forall (λ r, length r = 80%nat) (fb v) →
  cls_loop n v y = Ret (set_fb v (take (Z.to_nat y) (fb v) ++ replicate n blank)).
Proof.
  induction n as [|n IH]; intros v y Hy Hn Hf; cbn [cls_loop].
  - by rewrite app_nil_r, take_ge, set_fb_self by lia.
  - destruct (lookup_lt_is_Some_2 (fb v) (Z.to_nat y)) as [r Hr]; [lia|].
    rewrite (clear_row_spec v y r); [|done|done|by eapply Forall_lookup_1 in Hf]. cbn [mbind res_bind].
    rewrite IH; [|lia|cbn; rewrite length_insert; lia|by apply Forall_insert].
    rewrite set_fb_set_fb. cbn [set_fb fb]. do 2 f_equal.
    replace (Z.to_nat (y + 1)) with (S (Z.to_nat y)) by lia.
    rewrite (take_S_r _ _ blank) by (apply list_lookup_insert_eq; lia).
    rewrite take_insert_ge by lia. by rewrite <- app_assoc.
Qed.

(** *** Simulation *)
Section Simulation.
Context (v : vga) (t : terminal).
Hypothesis Hs : shows v t.

Lemma shows_length : length (fb v) = 25%nat.
Proof. destruct Hs. rewrite shows_fb0, length_drop. lia. Qed.
Lemma shows_fb_rows : Forall (λ r, length r = 80%nat) (fb v).
Proof. destruct Hs. rewrite shows_fb0. by apply Forall_drop. Qed.

Lemma newline_shows : ∃ v', newline v = Ret v' ∧ inited v' = inited v ∧ shows v' (feed t).
Proof.
  pose proof shows_length as Hl. pose proof shows_fb_rows as Hr. destruct Hs as [Hp Hsz Hf Hln Hy Hc Hx].
  unfold newline, ROW_CNT. cbn [set_cursor cx cy fb]. destruct (Z.leb_spec 25 (cy v + 1)).
  - assert (cy v = 24) as Ey by lia. set (w := set_fb _ _).
    assert (Hw : fb w = scroll (fb v)) by done.
    assert (cx w = 0 ∧ cy w = 24) as [Wx Wy] by done.
    assert (Hwl : length (fb w) = 25%nat).
    { rewrite Hw. unfold scroll. rewrite length_app, length_take, !length_drop. lia. }
    assert (Hwr : Forall (λ r, length r = 80%nat) (fb w)).
    { rewrite Hw. apply Forall_app. split; [by apply Forall_take, Forall_drop|by apply Forall_drop]. }
    destruct (lookup_lt_is_Some_2 (fb w) 24) as [r Er]; [lia|].
    rewrite (clear_row_spec w (25 - 1) r); [|lia|done|by eapply Forall_lookup_1 in Hwr].
    eexists. split; [done|]. split; [done|]. unfold feed.
    destruct (Nat.eqb_spec (S (line t)) (length (paper t))); [|lia].
    split; cbn [paper line column set_fb fb cx cy set_cursor]; rewrite ?length_app, ?Wx, ?Wy;
      cbn [length]; [|lia| |lia|lia|done|lia].
    + apply Forall_app. split; [done|]. by apply Forall_singleton.
    + rewrite Hw. unfold scroll. change (Z.to_nat (25 - 1)) with 24%nat.
      rewrite insert_app_r_alt by (rewrite length_take, length_drop; lia).
      rewrite length_take, length_drop, Hl. cbn [Nat.min Nat.sub].
      rewrite take_ge by (rewrite length_drop; lia).
      destruct (drop 24 (fb v)) as [|r0 [|r1 l]] eqn:Ed;
        apply (f_equal length) in Ed as Ed'; rewrite length_drop, Hl in Ed'; cbn in Ed'; try lia.
      cbn [insert list_insert]. rewrite Hf, drop_drop, drop_app_le by lia. f_equal. f_equal. lia.
  - eexists. split; [done|]. split; [done|]. unfold feed.
    destruct (Nat.eqb_spec (S (line t)) (length (paper t))); [lia|].
    split; cbn [paper line column fb cx cy set_cursor]; [done|done|done|lia|lia|done|lia].
Qed.

Lemma cls_shows : ∃ v', cls v = Ret v' ∧ inited v' = inited v
  ∧ shows v' (Terminal (paper t ++ replicate 25 blank) (length (paper t)) 0).
Proof.
  pose proof shows_length as Hl. pose proof shows_fb_rows as Hr. destruct Hs as [Hp Hsz Hf Hln Hy Hc Hx].
  unfold cls, ROW_CNT. rewrite cls_loop_spec by (done || lia). cbn [mbind res_bind].
  set (w := set_cursor _ 0 0). destruct (move_cursor_spec w) as (_ & Hi & Hb & Ex & Ey); [done|done|].
  eexists. split; [done|]. rewrite Hi. split; [done|].
  split; rewrite ?Hb, ?Ex, ?Ey; cbn [paper line column]; rewrite ?length_app, ?length_replicate; [| |..].
  - apply Forall_app. split; [done|]. by apply Forall_replicate.
  - lia.
  - replace (length (paper t) + 25 - 25)%nat with (length (paper t)) by lia. by rewrite drop_app_length.
  - cbn. lia.
  - cbn. lia.
  - done.
  - cbn. lia.
Qed.

Lemma put_cell_shows c : ∃ v', put_cell v (cy v) (cx v) c = Ret v' ∧ inited v' = inited v
  ∧ cx v' = cx v ∧ cy v' = cy v
  ∧ shows v' (Terminal (alter (alter (λ _, (c mod 256, GRAY_ON_BLACK)) (Z.to_nat (column t)))
                          (line t) (paper t)) (line t) (column t)).
Proof.
  pose proof shows_length as Hl. pose proof shows_fb_rows as Hr. destruct Hs as [Hp Hsz Hf Hln Hy Hc Hx].
  destruct (lookup_lt_is_Some_2 (fb v) (Z.to_nat (cy v))) as [r Er]; [lia|].
  pose proof (Forall_lookup_1 _ _ _ _ Hr Er) as Hr80. cbn in Hr80.
  rewrite (put_cell_spec v (cy v) (cx v) c r) by (done || lia).
  eexists. split; [done|]. split_and!; [done..|].
  split; cbn [paper line column set_fb fb cx cy]; rewrite ?length_alter; try done.
  - apply Forall_alter; [done|]. intros r' _ H. by rewrite length_alter.
  - rewrite Hf in Er |- *. rewrite lookup_drop in Er.
    replace (line t) with (length (paper t) - 25 + Z.to_nat (cy v))%nat by lia.
    apply list_eq. intros i. rewrite lookup_drop. destruct (decide (i = Z.to_nat (cy v))) as [->|].
    + rewrite list_lookup_alter_eq, Er, list_lookup_insert_eq by (rewrite length_drop; lia).
      cbn. f_equal. rewrite Hc. apply list_eq. intros k. destruct (decide (k = Z.to_nat (cx v))) as [->|].
      * rewrite list_lookup_alter_eq, list_lookup_insert_eq by lia.
        destruct (lookup_lt_is_Some_2 r (Z.to_nat (cx v))) as [z ->]; [lia|done].
      * by rewrite list_lookup_alter_ne, list_lookup_insert_ne.
    + rewrite list_lookup_alter_ne, list_lookup_insert_ne by lia. by rewrite lookup_drop.
Qed.

Lemma advance_shows x :
  0 ≤ x ≤ 80 → ∃ v', (if COL_CNT <=? x then newline (set_cursor v x (cy v)) else Ret (set_cursor v x (cy v))) = Ret v'
    ∧ inited v' = inited v ∧ shows v' (advance t x).
Proof.
  intros Hxr. unfold advance, COL_CNT. destruct (Z.leb_spec 80 x), (Z.ltb_spec x 80); try lia.
  - apply newline_shows.
  - eexists. split; [done|]. split; [done|]. destruct Hs. split; cbn; done || lia.
Qed.
End Simulation.

Lemma init_inited v : inited (init v) = true.
Proof. unfold init. by destruct (inited v) eqn:E; [|destruct (find_cursor v)]. Qed.
Lemma init_id v : inited v = true → init v = v.
Proof. unfold init. by intros ->. Qed.

(** What the cases of the switch do, before the cursor is moved. *)
Lemma moved_shows v t : inited v = true → shows v t → shows (move_cursor v) t ∧ synced (move_cursor v).
Proof.
  intros Hi Hs. pose proof Hs as [Hp Hsz Hf Hln Hy Hc Hx].
  destruct (move_cursor_spec v Hx Hy) as (Hfind & Hin & Hfb & Ex & Ey).
  split; [by split; rewrite ?Hfb, ?Ex, ?Ey|]. split; [congruence|]. by rewrite Ex, Ey.
Qed.

Lemma vga_putc_shows v t c :
  shows (init v) t → ∃ v', vga_putc v c = Ret v' ∧ shows v' (print t c) ∧ synced v'.
Proof.
  intros Hs. unfold vga_putc, print. pose proof (init_inited v) as Hi.
  set (w := init v) in *. clearbody w. clear v. pose proof Hs as [Hp Hsz Hf Hln Hy Hc Hx].
  assert (Hdone : ∀ r t', (∃ v', r = Ret v' ∧ inited v' = inited w ∧ shows v' t') →
    ∃ v', (r ≫= λ v, Ret (move_cursor v)) = Ret v' ∧ shows v' t' ∧ synced v').
  { intros r t' (v' & -> & Hi' & Hs'). eexists. split; [done|]. apply moved_shows; congruence. }
  assert (Hadv : ∀ u s x, inited u = inited w → shows u s → 0 ≤ x ≤ 80 → ∃ v',
    (if COL_CNT <=? x then newline (set_cursor u x (cy u)) else Ret (set_cursor u x (cy u))) = Ret v'
    ∧ inited v' = inited w ∧ shows v' (advance s x)).
  { intros u s x Hu Hus Hux. destruct (advance_shows u s Hus x Hux) as (v' & E & E' & Hv).
    exists v'. split_and!; [done|congruence|done]. }
  apply Hdone. destruct (c =? 10); [by apply newline_shows|]. destruct (c =? 12); [by apply cls_shows|].
  destruct (c =? 8).
  { eexists. split; [done|]. destruct (Z.ltb_spec 0 (cx w)); (split; [done|]); split; cbn; done || lia. }
  destruct (c =? 13); [eexists; split_and!; [done..|]; split; cbn; done || lia|].
  destruct (c =? 9).
  { assert (ROUND_UP (cx w + 1) 8 = 8 * (column t / 8 + 1)) as ->.
    { unfold ROUND_UP. rewrite Hc. rewrite (u32_id (cx w + 1 + 8 - 1)) by (unfold is_u32; lia).
      replace (cx w + 1 + 8 - 1) with (cx w + 1 * 8) by lia. rewrite Z.div_add by lia.
      apply Z.mul_comm || rewrite u32_id; [|unfold is_u32]; Z.to_euclidean_division_equations; lia. }
    apply (Hadv w t); [done|done|]. rewrite Hc. Z.to_euclidean_division_equations. lia. }
  destruct (c =? 7); [by exists w|].
  destruct (put_cell_shows w t Hs c) as (u & -> & Hu & Ex & Ey & Hus). cbn [mbind res_bind set_cursor cx].
  replace (column t + 1) with (cx u + 1) by lia. apply Hadv; [done|done|lia].
Qed.

(** The text screen implements a terminal that prints on endless paper: after any sequence of
    characters, control characters included, it shows the last 25 rows of the paper, and
    the cursor, in memory and in the display controller, is where the next character goes.
    The frame buffer is never accessed outside its bounds. *)
Theorem vga_refines cs : ∀ v t,
  shows (init v) t →
  ∃ v', vga_puts v cs = Ret v' ∧ shows (init v') (foldl print t cs) ∧ (cs ≠ [] → synced v').
Proof.
  induction cs as [|c cs IH]; intros v t Hs; cbn [vga_puts foldl]; [by exists v|].
  destruct (vga_putc_shows v t c Hs) as (w & -> & Hw & Hsync). cbn [mbind res_bind].
  assert (init w = w) as Ew by apply init_id, Hsync.
  destruct (IH w (print t c) ltac:(by rewrite Ew)) as (v' & E & Hv & Hn). exists v'. split_and!; [done..|].
  intros _. destruct cs; [by injection E as <-|by apply Hn].
Qed.

(** A screen at boot: blank, the controller's cursor in the corner. *)
Definition boot_screen : vga := Vga false (replicate 25 blank) 0 0 0 0.
Lemma boot_screen_shows : shows (init boot_screen) (Terminal (replicate 25 blank) 0 0).
Proof. by split; try (cbn; lia); [repeat constructor|..]. Qed.

(** Thirty lines: the first six have left the screen, and the last is empty. *)
Lemma vga_refines_witness :
  ∃ v', vga_puts boot_screen (concat (replicate 30 [65; 9; 66; 10])) = Ret v'
    ∧ synced v' ∧ cx v' = 0 ∧ cy v' = 24.
Proof.
  destruct (vga_refines (concat (replicate 30 [65; 9; 66; 10])) boot_screen _ boot_screen_shows)
    as (v' & E & Hs & Hn). specialize (Hn ltac:(done)). exists v'.
  split_and!; [exact E|exact Hn|..]; rewrite (init_id v' (proj1 Hn)) in Hs; destruct Hs as [? ? ? Hl ? Hc _].
  - rewrite <- Hc. vm_compute. reflexivity.
  - match type of Hl with context [line ?t] =>
      assert (line t = 30%nat ∧ length (paper t) = 31%nat) as [E1 E2] by (vm_compute; split; reflexivity) end.
    rewrite E1, E2 in Hl. lia.
Defined.
