(* ===== verification/Clock.v ===== *)
(** * The clock chips (devices/rtc.c, devices/pit.c)

    The real time clock's registers are read again until the second stands still; what a
    register holds at each of the successive readings is a parameter.  Writes to the ports
    of the interval timer are the list of (port, byte). *)
From S2P Require Import Prelude Mem CString.

(** ** rtc.c *)
Definition RTC_REG_SEC : Z := 0.
Definition RTC_REG_MIN : Z := 2.
Definition RTC_REG_HOUR : Z := 4.
Definition RTC_REG_MDAY : Z := 7.
Definition RTC_REG_MON : Z := 8.
Definition RTC_REG_YEAR : Z := 9.

Definition bcd_to_bin (x : Z) : Z := Z.land x 15 + Z.shiftr x 4 * 10.
Definition days_per_month : list Z := [31; 28; 31; 30; 31; 30; 31; 31; 30; 31; 30; 31].

Record broken_time := Time { sec : Z; min : Z; hour : Z; mday : Z; mon : Z; year : Z }.

(** The [do] loop: reading number [n] of register [r] gives [cmos n r]. *)
Fixpoint time_loop (fuel : nat) (cmos : nat → Z → Z) (n : nat) : res broken_time :=
  match fuel with
  | O => Stuck
  | S fuel =>
    let get i r := bcd_to_bin (cmos (n + i)%nat r) in
    let t := Time (get 0%nat RTC_REG_SEC) (get 1%nat RTC_REG_MIN) (get 2%nat RTC_REG_HOUR)
               (get 3%nat RTC_REG_MDAY) (get 4%nat RTC_REG_MON) (get 5%nat RTC_REG_YEAR) in
    if sec t =? get 6%nat RTC_REG_SEC then Ret t else time_loop fuel cmos (n + 7)
  end.

(** The sum over the months; [int] products are added to an unsigned long. *)
Fixpoint month_loop (n : nat) (i mon time : Z) : Z :=
  match n with
  | O => time
  | S n =>
    if i <=? mon
    then month_loop n (i + 1) mon (u32 (time + s32 (nth (Z.to_nat (i - 1)) days_per_month 0 * 86400)))
    else time
  end.
(** The first day of the month. *)
Definition month_seconds (mon year : Z) : Z :=
  let year := (if year <? 70 then year + 100 else year) - 70 in
  let time := u32 (s32 ((year * 365 + Z.quot (year - 1) 4) * 86400)) in
  let time := month_loop 12 1 mon time in
  if (2 <? mon) && (Z.rem year 4 =? 0) then u32 (time + 86400) else time.
Definition seconds (t : broken_time) : Z :=
  let time := month_seconds (mon t) (year t) in
  let time := u32 (time + (mday t - 1) * 86400) in
  let time := u32 (time + hour t * 3600) in
  let time := u32 (time + min t * 60) in
  u32 (time + sec t).
Definition rtc_get_time (fuel : nat) (cmos : nat → Z → Z) : res Z :=
  t ← time_loop fuel cmos 0; Ret (seconds t).

(** ** pit.c *)
Definition PIT_HZ : Z := 1193180.
Definition PIT_PORT_CONTROL : Z := 67.
Definition PIT_PORT_COUNTER (channel : Z) : Z := 64 + channel.

Definition pit_count (frequency : Z) : Z :=
  if frequency <? 19 then 0
  else if PIT_HZ <? frequency then 2
  else Z.quot (PIT_HZ + Z.quot frequency 2) frequency mod 65536.
Definition pit_configure_channel (channel mode frequency : Z) : res (list (Z * Z)) :=
  ASSERT ((channel =? 0) || (channel =? 2));;
  ASSERT ((mode =? 2) || (mode =? 3));;
  let count := pit_count frequency in
  Ret [(PIT_PORT_CONTROL, Z.lor (Z.lor (Z.shiftl channel 6) 48) (Z.shiftl mode 1));
       (PIT_PORT_COUNTER channel, count mod 256); (PIT_PORT_COUNTER channel, Z.shiftr count 8 mod 256)].

(** ** The calendar *)
Definition leap (y : Z) : bool := (y mod 4 =? 0) && (negb (y mod 100 =? 0) || (y mod 400 =? 0)).
Definition month_days (y m : Z) : Z :=
  if (m =? 2) && leap y then 29 else nth (Z.to_nat (m - 1)) days_per_month 0.
Definition sum (l : list Z) : Z := foldr Z.add 0 l.
(** Days from January 1, 1970 to a date. *)
Definition days_since_epoch (y m d : Z) : Z :=
  sum ((λ k, if leap k then 366 else 365) <$> seqZ 1970 (y - 1970))
  + sum (month_days y <$> seqZ 1 (m - 1)) + (d - 1).
Definition unix_time (y m d h mi s : Z) : Z := days_since_epoch y m d * 86400 + h * 3600 + mi * 60 + s.

Example epoch : unix_time 1970 1 1 0 0 0 = 0.
Proof. reflexivity. Qed.
Example y2000 : unix_time 2000 3 1 0 0 0 = 951868800.
Proof. vm_compute. reflexivity. Qed.

(** ** Theorems *)
(** The register for the year holds its last two digits. *)
Definition ahead (y m : Z) : bool :=
  let t := month_seconds m (y mod 100) in
  let d := t - days_since_epoch y m 1 * 86400 in
  (27 * 86400 <=? d) && (d <=? 32 * 86400) && (0 <=? t) && (t <? 2200000000).
Lemma ahead_all : forallb (λ y, forallb (ahead y) (seqZ 1 12)) (seqZ 1970 67) = true.
Proof. vm_compute. reflexivity. Qed.
Lemma ahead_spec y m : 1970 ≤ y < 2037 → 1 ≤ m ≤ 12 → ahead y m = true.
Proof.
  intros Hy Hm. pose proof ahead_all as H. rewrite forallb_forall in H.
  specialize (H y). rewrite <- list_elem_of_In, elem_of_seqZ, forallb_forall in H.
  specialize (H ltac:(lia) m). rewrite <- list_elem_of_In, elem_of_seqZ in H. apply H. lia.
Qed.

Definition to_bcd (v : Z) : Z := v / 10 * 16 + v mod 10.
Lemma bcd_all : forallb (λ v, bcd_to_bin (to_bcd v) =? v) (seqZ 0 100) = true.
Proof. vm_compute. reflexivity. Qed.
Lemma bcd_roundtrip v : 0 ≤ v < 100 → bcd_to_bin (to_bcd v) = v.
Proof.
  intros Hv. pose proof bcd_all as H. rewrite forallb_forall in H. apply Z.eqb_eq, H.
  rewrite <- list_elem_of_In, elem_of_seqZ. lia.
Qed.

(** The registers show a date, in binary-coded decimal. *)
Definition registers (y m d h mi s : Z) (r : Z) : Z :=
  to_bcd (if r =? RTC_REG_SEC then s else if r =? RTC_REG_MIN then mi else if r =? RTC_REG_HOUR then h
          else if r =? RTC_REG_MDAY then d else if r =? RTC_REG_MON then m else y mod 100).

(** The clock is read a month ahead: whenever the registers show a date from 1970 to 2036,
    [rtc_get_time] returns, and what it returns lies between 27 and 32 days after the
    number of seconds since January 1, 1970 that it is documented to return (it adds the
    current month's days, and counts the wrong years as leap years). *)
Theorem rtc_time_ahead y m d h mi s fuel :
  1970 ≤ y < 2037 → 1 ≤ m ≤ 12 → 1 ≤ d ≤ 31 → 0 ≤ h < 24 → 0 ≤ mi < 60 → 0 ≤ s < 60 →
  ∃ t, rtc_get_time (S fuel) (λ _, registers y m d h mi s) = Ret t
    ∧ unix_time y m d h mi s + 27 * 86400 ≤ t ≤ unix_time y m d h mi s + 32 * 86400.
Proof.
  intros Hy Hm Hd Hh Hmi Hs. eexists. unfold rtc_get_time. cbn [time_loop].
  unfold registers. cbn [Z.eqb Pos.eqb RTC_REG_SEC RTC_REG_MIN RTC_REG_HOUR RTC_REG_MDAY RTC_REG_MON RTC_REG_YEAR sec].
  pose proof (Z.mod_pos_bound y 100 ltac:(lia)). rewrite !bcd_roundtrip by lia.
  rewrite Z.eqb_refl. cbn [mbind res_bind]. split; [done|]. unfold seconds. cbn [sec min hour mday mon year].
  pose proof (ahead_spec y m Hy Hm) as Ha. unfold ahead in Ha. rewrite !andb_true_iff, !Z.leb_le, Z.ltb_lt in Ha.
  assert (unix_time y m d h mi s = days_since_epoch y m 1 * 86400 + (d - 1) * 86400 + h * 3600 + mi * 60 + s) as ->.
  { unfold unix_time, days_since_epoch. lia. }
  set (b := month_seconds m (y mod 100)) in *. clearbody b.
  rewrite (u32_id (b + _)) by (unfold is_u32; lia). rewrite (u32_id (_ + h * 3600)) by (unfold is_u32; lia).
  rewrite (u32_id (_ + mi * 60)) by (unfold is_u32; lia). rewrite u32_id by (unfold is_u32; lia). lia.
Qed.

Lemma rtc_time_witness :
  ∃ t, rtc_get_time 1 (λ _, registers 2020 7 4 12 0 0) = Ret t
    ∧ unix_time 2020 7 4 12 0 0 + 27 * 86400 ≤ t ≤ unix_time 2020 7 4 12 0 0 + 32 * 86400.
Proof. apply (rtc_time_ahead 2020 7 4 12 0 0 0); lia. Defined.

(** The interval timer gets the divisor closest to the frequency asked for, and it fits the
    16-bit counter: for 19 Hz and more, as many Hz as the clock has at most, it is off the
    exact quotient by no more than a half. *)
Theorem pit_count_nearest f :
  19 ≤ f ≤ PIT_HZ → 1 ≤ pit_count f < 65536 ∧ 2 * Z.abs (pit_count f * f - PIT_HZ) ≤ f.
Proof.
  intros Hf. unfold pit_count, PIT_HZ in *. destruct (Z.ltb_spec f 19); [lia|].
  destruct (Z.ltb_spec 1193180 f); [lia|].
  rewrite (Z.quot_div_nonneg f 2), Z.quot_div_nonneg by (Z.to_euclidean_division_equations; lia).
  pose proof (Z.div_mod f 2 ltac:(lia)). pose proof (Z.mod_pos_bound f 2 ltac:(lia)).
  set (g := f / 2) in *. pose proof (Z.div_mod (1193180 + g) f ltac:(lia)).
  pose proof (Z.mod_pos_bound (1193180 + g) f ltac:(lia)). set (c := (1193180 + g) / f) in *.
  assert (0 ≤ c < 65536) by nia. rewrite Z.mod_small by done. split; [nia|].
  apply Z.abs_case; [solve_proper|lia|lia].
Qed.

(** The comment says a divisor of 1, which is illegal in mode 2, is avoided. *)
Example pit_illegal_divisor : pit_configure_channel 0 2 1000000 = Ret [(67, 52); (64, 1); (64, 0)].
Proof. vm_compute. reflexivity. Qed.
