(* ===== verification/Blockdev.v ===== *)
(** * Block devices and partitions (devices/block.c, devices/partition.c)

    The registry of block devices, and the partitions of a disk found in its partition
    tables.  A [struct block] is named by its position in the list [all_blocks], from which
    nothing is ever removed.  The driver of a raw disk stands for devices/ide.c: reading a
    sector gives what was last written there.  [heap_ok] tells which of the coming
    allocations succeed.  Messages to the console are left out. *)
From Stdlib Require Import (notations) Ascii String.
From S2P Require Import Prelude Mem CString Arithmetic Sorting Stdio Format StdioTheorems.

Inductive block_type :=
| BLOCK_KERNEL | BLOCK_FILESYS | BLOCK_SCRATCH | BLOCK_SWAP | BLOCK_RAW | BLOCK_FOREIGN.
#[export] Instance block_type_eq_dec : EqDecision block_type.
Proof. solve_decision. Defined.

(** [type < BLOCK_ROLE_CNT]. *)
Definition is_role (t : block_type) : bool :=
  match t with BLOCK_RAW | BLOCK_FOREIGN => false | _ => true end.
Definition block_type_name (t : block_type) : list Z :=
  match t with
  | BLOCK_KERNEL => chars "kernel"
  | BLOCK_FILESYS => chars "filesys"
  | BLOCK_SCRATCH => chars "scratch"
  | BLOCK_SWAP => chars "swap"
  | BLOCK_RAW => chars "raw"
  | BLOCK_FOREIGN => chars "foreign"
  end.

(** The operations of a device with their [aux]: a raw disk, or a [struct partition]. *)
Inductive driver := Disk (d : Z) | Partition (on : nat) (start : Z).

Record block := Block {
  b_name : list Z; b_type : block_type; b_size : Z; b_driver : driver;
  read_cnt : Z; write_cnt : Z;
}.
Record registry := Registry {
  all_blocks : list block;
  block_by_role : block_type → option nat;
  disks : gmap (Z * Z) (list Z);
  heap_ok : nat → bool;
}.

Definition set_blocks (st : registry) (bs : list block) : registry :=
  Registry bs (block_by_role st) (disks st) (heap_ok st).
Definition raw_sector (st : registry) (d s : Z) : list Z := default (replicate 512 0) (disks st !! (d, s)).
Definition set_raw (st : registry) (d s : Z) (bs : list Z) : registry :=
  Registry (all_blocks st) (block_by_role st) (<[(d, s) := bs]> (disks st)) (heap_ok st).
(** [malloc] whose failure is a [PANIC]. *)
Definition must_malloc (st : registry) : res registry :=
  if heap_ok st 0
  then Ret (Registry (all_blocks st) (block_by_role st) (disks st) (λ n, heap_ok st (S n)))
  else Panic.
Definition get_block (st : registry) (b : nat) : res block :=
  match all_blocks st !! b with Some x => Ret x | None => Stuck end.

(** ** block.c *)
Definition block_get_role (st : registry) (role : block_type) : res (option nat) :=
  ASSERT (is_role role);; Ret (block_by_role st role).
Definition block_set_role (st : registry) (role : block_type) (b : option nat) : res registry :=
  ASSERT (is_role role);;
  Ret (Registry (all_blocks st) (λ r, if decide (r = role) then b else block_by_role st r)
         (disks st) (heap_ok st)).
Definition list_elem_to_block (st : registry) (n : nat) : option nat :=
  if (n =? length (all_blocks st))%nat then None else Some n.
Definition block_first (st : registry) : option nat := list_elem_to_block st 0.
Definition block_next (st : registry) (b : nat) : option nat := list_elem_to_block st (S b).
Fixpoint by_name_loop (bs : list block) (n : nat) (name : list Z) : option nat :=
  match bs with
  | [] => None
  | b :: bs => if decide (name = b_name b) then Some n else by_name_loop bs (S n) name
  end.
Definition block_get_by_name (st : registry) (name : list Z) : option nat :=
  by_name_loop (all_blocks st) 0 name.

Definition check_sector (b : block) (sector : Z) : res unit :=
  if b_size b <=? sector then Panic else Ret tt.
Definition count_read (b : block) : block :=
  Block (b_name b) (b_type b) (b_size b) (b_driver b) (u64 (read_cnt b + 1)) (write_cnt b).
Definition count_write (b : block) : block :=
  Block (b_name b) (b_type b) (b_size b) (b_driver b) (read_cnt b) (u64 (write_cnt b + 1)).
Definition update_block (st : registry) (b : nat) (f : block → block) : registry :=
  set_blocks st (alter f b (all_blocks st)).

(** [fuel] bounds how deep partitions are nested; [partition_read] and [partition_write] are
    the calls for a [Partition]. *)
Fixpoint block_read (fuel : nat) (st : registry) (b : nat) (sector : Z) : res (list Z * registry) :=
  match fuel with
  | O => Stuck
  | S fuel =>
    x ← get_block st b;
    check_sector x sector;;
    '(bs, st) ← (match b_driver x with
                 | Disk d => Ret (raw_sector st d sector, st)
                 | Partition on start => block_read fuel st on (u32 (start + sector))
                 end);
    Ret (bs, update_block st b count_read)
  end.
Fixpoint block_write (fuel : nat) (st : registry) (b : nat) (sector : Z) (bs : list Z) : res registry :=
  match fuel with
  | O => Stuck
  | S fuel =>
    x ← get_block st b;
    check_sector x sector;;
    ASSERT (bool_decide (b_type x ≠ BLOCK_FOREIGN));;
    st ← (match b_driver x with
          | Disk d => Ret (set_raw st d sector bs)
          | Partition on start => block_write fuel st on (u32 (start + sector)) bs
          end);
    Ret (update_block st b count_write)
  end.
Definition block_size (b : block) : Z := b_size b.

(** The new device is the last of the list; its name is cut to 15 characters. *)
Definition block_register (st : registry) (name : list Z) (t : block_type) (size : Z) (dr : driver)
    : res (nat * registry) :=
  st ← must_malloc st;
  Ret (length (all_blocks st), set_blocks st (all_blocks st ++ [Block (take 15 name) t size dr 0 0])).

(** ** partition.c *)
Record partition_table_entry := Entry { e_type : Z; e_offset : Z; e_size : Z }.

Definition byte (bs : list Z) (i : nat) : Z := default 0 (bs !! i) mod 256.
Definition le32 (bs : list Z) (i : nat) : Z :=
  byte bs i + 256 * byte bs (i + 1) + 65536 * byte bs (i + 2) + 16777216 * byte bs (i + 3).
(** [pt->partitions] and [pt->signature]. *)
Definition entry (pt : list Z) (i : nat) : partition_table_entry :=
  let o := (446 + 16 * i)%nat in Entry (byte pt (o + 4)) (le32 pt (o + 8)) (le32 pt (o + 12)).
Definition partitions (pt : list Z) : list partition_table_entry := entry pt <$> [0; 1; 2; 3]%nat.
Definition signature (pt : list Z) : Z := byte pt 510 + 256 * byte pt 511.

Definition partition_type (t : Z) : block_type :=
  if t =? 32 then BLOCK_KERNEL else if t =? 33 then BLOCK_FILESYS
  else if t =? 34 then BLOCK_SCRATCH else if t =? 35 then BLOCK_SWAP else BLOCK_FOREIGN.
Definition type_names : list (Z * String.string) :=
  [(0, "Empty"%string); (1, "FAT12"%string); (2, "XENIX root"%string);
   (3, "XENIX usr"%string); (4, "FAT16 <32M"%string); (5, "Extended"%string);
   (6, "FAT16"%string); (7, "HPFS/NTFS"%string); (8, "AIX"%string);
   (9, "AIX bootable"%string); (10, "OS/2 Boot Manager"%string); (11, "W95 FAT32"%string);
   (12, "W95 FAT32 (LBA)"%string); (14, "W95 FAT16 (LBA)"%string); (15, "W95 Ext'd (LBA)"%string);
   (16, "OPUS"%string); (17, "Hidden FAT12"%string); (18, "Compaq diagnostics"%string);
   (20, "Hidden FAT16 <32M"%string); (22, "Hidden FAT16"%string); (23, "Hidden HPFS/NTFS"%string);
   (24, "AST SmartSleep"%string); (27, "Hidden W95 FAT32"%string); (28, "Hidden W95 FAT32 (LBA)"%string);
   (30, "Hidden W95 FAT16 (LBA)"%string); (32, "Pintos OS kernel"%string); (33, "Pintos file system"%string);
   (34, "Pintos scratch"%string); (35, "Pintos swap"%string); (36, "NEC DOS"%string);
   (57, "Plan 9"%string); (60, "PartitionMagic recovery"%string); (64, "Venix 80286"%string);
   (65, "PPC PReP Boot"%string); (66, "SFS"%string); (77, "QNX4.x"%string);
   (78, "QNX4.x 2nd part"%string); (79, "QNX4.x 3rd part"%string); (80, "OnTrack DM"%string);
   (81, "OnTrack DM6 Aux1"%string); (82, "CP/M"%string); (83, "OnTrack DM6 Aux3"%string);
   (84, "OnTrackDM6"%string); (85, "EZ-Drive"%string); (86, "Golden Bow"%string);
   (92, "Priam Edisk"%string); (97, "SpeedStor"%string); (99, "GNU HURD or SysV"%string);
   (100, "Novell Netware 286"%string); (101, "Novell Netware 386"%string); (112, "DiskSecure Multi-Boot"%string);
   (117, "PC/IX"%string); (128, "Old Minix"%string); (129, "Minix / old Linux"%string);
   (130, "Linux swap / Solaris"%string); (131, "Linux"%string); (132, "OS/2 hidden C: drive"%string);
   (133, "Linux extended"%string); (134, "NTFS volume set"%string); (135, "NTFS volume set"%string);
   (136, "Linux plaintext"%string); (142, "Linux LVM"%string); (147, "Amoeba"%string);
   (148, "Amoeba BBT"%string); (159, "BSD/OS"%string); (160, "IBM Thinkpad hibernation"%string);
   (165, "FreeBSD"%string); (166, "OpenBSD"%string); (167, "NeXTSTEP"%string);
   (168, "Darwin UFS"%string); (169, "NetBSD"%string); (171, "Darwin boot"%string);
   (183, "BSDI fs"%string); (184, "BSDI swap"%string); (187, "Boot Wizard hidden"%string);
   (190, "Solaris boot"%string); (191, "Solaris"%string); (193, "DRDOS/sec (FAT-12)"%string);
   (196, "DRDOS/sec (FAT-16 < 32M)"%string); (198, "DRDOS/sec (FAT-16)"%string); (199, "Syrinx"%string);
   (218, "Non-FS data"%string); (219, "CP/M / CTOS / ..."%string); (222, "Dell Utility"%string);
   (223, "BootIt"%string); (225, "DOS access"%string); (227, "DOS R/O"%string);
   (228, "SpeedStor"%string); (235, "BeOS fs"%string); (238, "EFI GPT"%string);
   (239, "EFI (FAT-12/16/32)"%string); (240, "Linux/PA-RISC boot"%string); (241, "SpeedStor"%string);
   (244, "SpeedStor"%string); (242, "DOS secondary"%string); (253, "Linux raid autodetect"%string);
   (254, "LANstep"%string); (255, "BBT"%string)].
Definition partition_type_name (t : Z) : list Z :=
  match list_find (λ p, p.1 = t) type_names with
  | Some (_, (_, name)) => chars name
  | None => chars "Unknown"
  end.

Definition found_partition (st : registry) (b : nat) (part_type start size part_nr : Z) : res registry :=
  x ← get_block st b;
  if block_size x <=? start then Ret st
  else if (u32 (start + size) <? start) || (block_size x <? u32 (start + size)) then Ret st
  else
    st ← must_malloc st;
    (* snprintf (name, sizeof name, "%s%d", ...) *)
    let name := take 15 (b_name x ++ int_text part_nr) in
    '(_, st) ← block_register st name (partition_type part_type) size (Partition b start);
    Ret st.

Definition is_extended (t : Z) : bool := (t =? 5) || (t =? 15) || (t =? 133) || (t =? 197).

(** The loop over the entries of a table; [nested] is the recursive call. *)
Fixpoint parse_entries (nested : registry → Z → Z → Z → res (Z * registry)) (b : nat)
    (sector primary : Z) (es : list partition_table_entry) (part_nr : Z) (st : registry)
    : res (Z * registry) :=
  match es with
  | [] => Ret (part_nr, st)
  | e :: es =>
    if (e_size e =? 0) || (e_type e =? 0) then parse_entries nested b sector primary es part_nr st
    else if is_extended (e_type e) then
      '(part_nr, st) ← (if sector =? 0 then nested st (e_offset e) (e_offset e) part_nr
                        else nested st (u32 (e_offset e + primary)) primary part_nr);
      parse_entries nested b sector primary es part_nr st
    else
      let part_nr := part_nr + 1 in
      st ← found_partition st b (e_type e) (u32 (e_offset e + sector)) (e_size e) part_nr;
      parse_entries nested b sector primary es part_nr st
  end.

(** [block_read (block, 0, pt)] reads sector 0 whatever the argument. *)
Fixpoint read_partition_table (fuel : nat) (b : nat) (st : registry) (sector primary part_nr : Z)
    : res (Z * registry) :=
  match fuel with
  | O => Stuck
  | S fuel =>
    x ← get_block st b;
    if block_size x <=? sector then Ret (part_nr, st) else
    st ← must_malloc st;
    '(pt, st) ← block_read (S b) st b 0;
    if negb (signature pt =? 43605) then Ret (part_nr, st) else
    parse_entries (read_partition_table fuel b) b sector primary (partitions pt) part_nr st
  end.
Definition partition_scan (fuel : nat) (st : registry) (b : nat) : res registry :=
  '(_, st) ← read_partition_table fuel b st 0 0 0; Ret st.

(** ** Geometry: where the sectors of a device are *)
Definition geometry (st : registry) : list (block_type * Z * driver) :=
  (λ x, (b_type x, b_size x, b_driver x)) <$> all_blocks st.

(** A partition lies inside an older device that can be written. *)
Definition inside (g : list (block_type * Z * driver)) (i : nat) (size : Z) (dr : driver) : Prop :=
  match dr with
  | Disk _ => True
  | Partition on start => (on < i)%nat ∧ 0 ≤ start
      ∧ ∃ t n d, g !! on = Some (t, n, d) ∧ t ≠ BLOCK_FOREIGN ∧ start + size ≤ n
  end.
Definition registry_wf (st : registry) : Prop := ∀ i t size dr,
  geometry st !! i = Some (t, size, dr) → is_u32 size ∧ inside (geometry st) i size dr.

(** The disk and the sector of it that a sector of a device is. *)
Fixpoint raw_addr (fuel : nat) (g : list (block_type * Z * driver)) (b : nat) (sector : Z)
    : option (Z * Z) :=
  match fuel with
  | O => None
  | S fuel =>
    match g !! b with
    | Some (_, _, Disk d) => Some (d, sector)
    | Some (_, _, Partition on start) => raw_addr fuel g on (start + sector)
    | None => None
    end
  end.

Lemma geometry_update st b f :
  (∀ x, b_type (f x) = b_type x ∧ b_size (f x) = b_size x ∧ b_driver (f x) = b_driver x) →
  geometry (update_block st b f) = geometry st.
Proof.
  intros Hf. apply list_eq. intros i. unfold geometry, update_block, set_blocks. cbn.
  rewrite !list_lookup_fmap. destruct (decide (i = b)) as [->|].
  - rewrite list_lookup_alter_eq. destruct (all_blocks st !! b) as [x|]; [|done]. cbn.
    by destruct (Hf x) as (-> & -> & ->).
  - by rewrite list_lookup_alter_ne.
Qed.
Lemma geometry_read st b : geometry (update_block st b count_read) = geometry st.
Proof. by apply geometry_update. Qed.
Lemma geometry_write st b : geometry (update_block st b count_write) = geometry st.
Proof. by apply geometry_update. Qed.

Lemma geometry_lookup st b x :
  all_blocks st !! b = Some x → geometry st !! b = Some (b_type x, b_size x, b_driver x).
Proof. intros E. unfold geometry. by rewrite list_lookup_fmap, E. Qed.
Lemma geometry_lookup_inv st b t n d :
  geometry st !! b = Some (t, n, d) →
  ∃ x, all_blocks st !! b = Some x ∧ b_type x = t ∧ b_size x = n ∧ b_driver x = d.
Proof.
  unfold geometry. rewrite list_lookup_fmap. destruct (all_blocks st !! b) as [x|]; [|done].
  cbn. intros [= <- <- <-]. by exists x.
Qed.

Lemma wf_geometry st st' : geometry st' = geometry st → registry_wf st → registry_wf st'.
Proof. unfold registry_wf. by intros ->. Qed.

Lemma raw_addr_some st b : ∀ fuel sector t n d,
  registry_wf st → geometry st !! b = Some (t, n, d) → (b < fuel)%nat →
  ∃ r, raw_addr fuel (geometry st) b sector = Some r.
Proof.
  induction b as [b IH] using (well_founded_induction lt_wf). intros fuel sector t n d Hwf Hb Hf.
  destruct fuel as [|fuel]; [lia|]. cbn. rewrite Hb. destruct d as [d|on start]; [by eexists|].
  destruct (Hwf _ _ _ _ Hb) as [_ (Ho & _ & t' & n' & d' & Hon & _)].
  eapply IH; [done|done|exact Hon|lia].
Qed.

(** More fuel than the position of the device does not change where a sector is. *)
Lemma raw_addr_fuel st b : ∀ f1 f2 sector,
  registry_wf st → (b < f1)%nat → (b < f2)%nat →
  raw_addr f1 (geometry st) b sector = raw_addr f2 (geometry st) b sector.
Proof.
  induction b as [b IH] using (well_founded_induction lt_wf). intros f1 f2 sector Hwf H1 H2.
  destruct f1 as [|f1]; [lia|]. destruct f2 as [|f2]; [lia|]. cbn.
  destruct (geometry st !! b) as [[[t n] [d|on start]]|] eqn:Hb; [done| |done].
  destruct (Hwf _ _ _ _ Hb) as [_ (Ho & _)]. apply IH; [done|done|lia|lia].
Qed.

Lemma block_read_spec b : ∀ fuel st sector t n d,
  registry_wf st → geometry st !! b = Some (t, n, d) → 0 ≤ sector < n → (b < fuel)%nat →
  ∃ ds st', raw_addr fuel (geometry st) b sector = Some ds
    ∧ block_read fuel st b sector = Ret (raw_sector st ds.1 ds.2, st')
    ∧ geometry st' = geometry st ∧ disks st' = disks st ∧ heap_ok st' = heap_ok st.
Proof.
  induction b as [b IH] using (well_founded_induction lt_wf).
  intros fuel st sector t n d Hwf Hb Hs Hf. destruct fuel as [|fuel]; [lia|]. cbn [raw_addr block_read].
  destruct (geometry_lookup_inv _ _ _ _ _ Hb) as (x & Hx & <- & <- & <-).
  rewrite Hb. unfold get_block, check_sector. rewrite Hx. cbn [mbind res_bind].
  destruct (Z.leb_spec (b_size x) sector); [lia|]. cbn [mbind res_bind].
  destruct (Hwf _ _ _ _ Hb) as [Hu Hin]. destruct (b_driver x) as [d|on start].
  - exists (d, sector), (update_block st b count_read). cbn.
    split_and!; [done..|apply geometry_read|done|done].
  - destruct Hin as (Ho & Hst & t' & n' & d' & Hon & _ & Hle).
    destruct (Hwf _ _ _ _ Hon) as [Hu' _]. unfold is_u32 in *.
    rewrite u32_id by (unfold is_u32; lia).
    destruct (IH on Ho fuel st (start + sector) _ _ _ Hwf Hon ltac:(lia) ltac:(lia))
      as (ds & st' & Ea & -> & Eg & Ed & Eh). cbn [mbind res_bind].
    exists ds, (update_block st' b count_read). rewrite geometry_read. by split_and!.
Qed.

Lemma block_write_spec b bs : ∀ fuel st sector t n d,
  registry_wf st → geometry st !! b = Some (t, n, d) → t ≠ BLOCK_FOREIGN → 0 ≤ sector < n →
  (b < fuel)%nat →
  ∃ ds st', raw_addr fuel (geometry st) b sector = Some ds
    ∧ block_write fuel st b sector bs = Ret st'
    ∧ geometry st' = geometry st ∧ disks st' = <[ds := bs]> (disks st) ∧ heap_ok st' = heap_ok st.
Proof.
  induction b as [b IH] using (well_founded_induction lt_wf).
  intros fuel st sector t n d Hwf Hb Ht Hs Hf. destruct fuel as [|fuel]; [lia|]. cbn [raw_addr block_write].
  destruct (geometry_lookup_inv _ _ _ _ _ Hb) as (x & Hx & <- & <- & <-).
  rewrite Hb. unfold get_block, check_sector. rewrite Hx. cbn [mbind res_bind].
  destruct (Z.leb_spec (b_size x) sector); [lia|]. cbn [mbind res_bind].
  rewrite bool_decide_true by done. cbn [ASSERT mbind res_bind].
  destruct (Hwf _ _ _ _ Hb) as [Hu Hin]. destruct (b_driver x) as [d|on start].
  - exists (d, sector), (update_block (set_raw st d sector bs) b count_write). cbn.
    split_and!; [done..|by apply geometry_write|done|done].
  - destruct Hin as (Ho & Hst & t' & n' & d' & Hon & Ht' & Hle).
    destruct (Hwf _ _ _ _ Hon) as [Hu' _]. unfold is_u32 in *.
    rewrite u32_id by (unfold is_u32; lia).
    destruct (IH on Ho fuel st (start + sector) _ _ _ Hwf Hon Ht' ltac:(lia) ltac:(lia))
      as (ds & st' & Ea & -> & Eg & Ed & Eh). cbn [mbind res_bind].
    exists ds, (update_block st' b count_write). rewrite geometry_write. by split_and!.
Qed.

(** ** Scanning *)
(** A device that can be scanned, and the registry after some partitions were found. *)
Definition scannable (st : registry) (b : nat) (n : Z) : Prop :=
  registry_wf st ∧ ∃ t d, geometry st !! b = Some (t, n, d) ∧ t ≠ BLOCK_FOREIGN.
Definition heap_fine (st : registry) : Prop := ∀ k, heap_ok st k = true.
Definition on_device (b : nat) (g : block_type * Z * driver) : Prop :=
  ∃ start, g.2 = Partition b start.
Record grows (b : nat) (st st' : registry) : Prop := {
  grows_wf : registry_wf st → registry_wf st';
  grows_geometry : ∃ new, geometry st' = geometry st ++ new ∧ Forall (on_device b) new;
  grows_disks : disks st' = disks st;
  grows_heap : heap_fine st → heap_fine st';
}.
(** [r] gives a registry in [P], stops only if some allocation may fail, or does not end. *)
Definition outcome (st : registry) (P : registry → Prop) (r : res (Z * registry)) : Prop :=
  match r with Ret (_, st') => P st' | Panic => ¬ heap_fine st | Stuck => True end.

Lemma grows_refl b st : grows b st st.
Proof. split; [done| |done|done]. exists []. by rewrite app_nil_r. Qed.
Lemma grows_trans b s1 s2 s3 : grows b s1 s2 → grows b s2 s3 → grows b s1 s3.
Proof.
  intros [W1 (n1 & G1 & F1) D1 H1] [W2 (n2 & G2 & F2) D2 H2].
  split; [auto| |congruence|auto]. exists (n1 ++ n2). split; [by rewrite G2, G1, app_assoc|by apply Forall_app].
Qed.
Lemma grows_same b st st' :
  geometry st' = geometry st → disks st' = disks st → (heap_fine st → heap_fine st') → grows b st st'.
Proof.
  intros G D H. split; [by apply wf_geometry| |done|done]. exists []. by rewrite app_nil_r.
Qed.
Lemma grows_scannable b st st' n : grows b st st' → scannable st b n → scannable st' b n.
Proof.
  intros G (Hwf & t & d & Hb & Ht). split; [by apply G|]. exists t, d. split; [|done].
  destruct (grows_geometry _ _ _ G) as (new & -> & _). by apply lookup_app_l_Some.
Qed.

Lemma must_malloc_grows b st st' : must_malloc st = Ret st' → grows b st st'.
Proof.
  unfold must_malloc. destruct (heap_ok st 0); [|done]. intros [= <-].
  apply grows_same; [done|done|]. intros H k. apply H.
Qed.
Lemma must_malloc_ok st : heap_fine st → ∃ st', must_malloc st = Ret st'.
Proof. intros H. unfold must_malloc. rewrite (H 0%nat). eauto. Qed.

Lemma inside_app g l i size dr : inside g i size dr → inside (g ++ l) i size dr.
Proof.
  destruct dr as [|on start]; [done|]. intros (H1 & H2 & t & n & d & H3 & H4 & H5).
  split_and!; [done..|]. exists t, n, d. split_and!; [by apply lookup_app_l_Some|done..].
Qed.

Lemma register_grows b st name t size start n :
  scannable st b n → is_u32 size → 0 ≤ start → start + size ≤ n →
  grows b st (set_blocks st (all_blocks st ++ [Block (take 15 name) t size (Partition b start) 0 0])).
Proof.
  intros (Hwf & t' & d & Hb & Ht) Hsz Hst Hle. set (st' := set_blocks _ _).
  assert (geometry st' = geometry st ++ [(t, size, Partition b start)]) as G.
  { unfold geometry, st'. cbn. by rewrite fmap_app. }
  split; [|eexists; split; [exact G|apply Forall_singleton; by eexists]|done|done].
  intros _ i u m dr Hi. rewrite G in Hi |- *. apply lookup_app_Some in Hi as [Hi|[Hl Hi]].
  - destruct (Hwf _ _ _ _ Hi) as [? ?]. split; [done|by apply inside_app].
  - apply list_lookup_singleton_Some in Hi as [Hi [= <- <- <-]]. split; [done|]. cbn.
    pose proof (lookup_lt_Some _ _ _ Hb). split_and!; [lia|done|]. exists t', n, d.
    split_and!; [by apply lookup_app_l_Some|done|lia].
Qed.

Lemma get_block_scannable st b n : scannable st b n → ∃ x, get_block st b = Ret x ∧ b_size x = n.
Proof.
  intros (_ & t & d & Hb & _). destruct (geometry_lookup_inv _ _ _ _ _ Hb) as (x & Hx & _ & <- & _).
  exists x. unfold get_block. by rewrite Hx.
Qed.

Lemma found_partition_grows st b pt_type start size nr n :
  scannable st b n → is_u32 start → is_u32 size →
  match found_partition st b pt_type start size nr with
  | Ret st' => grows b st st' | Panic => ¬ heap_fine st | Stuck => False
  end.
Proof.
  intros Hs Hst Hsz. unfold found_partition.
  destruct (get_block_scannable _ _ _ Hs) as (x & -> & <-). cbn [mbind res_bind].
  unfold block_size. destruct (Z.leb_spec (b_size x) start); [apply grows_refl|].
  destruct (Z.ltb_spec (u32 (start + size)) start); [apply grows_refl|].
  destruct (Z.ltb_spec (b_size x) (u32 (start + size))); [apply grows_refl|]. cbn [orb].
  assert (start + size ≤ b_size x) as Hle.
  { unfold u32, is_u32 in *. pose proof (Z.mod_small (start + size) 4294967296).
    destruct (Z_lt_dec (start + size) 4294967296); [lia|].
    pose proof (Z_mod_plus_full (start + size - 4294967296) 1 4294967296).
    pose proof (Z.mod_small (start + size - 4294967296) 4294967296).
    replace (start + size - 4294967296 + 1 * 4294967296) with (start + size) in * by lia. lia. }
  destruct (must_malloc st) as [s1| |] eqn:E1; cbn [mbind res_bind];
    [|intros Hh; destruct (must_malloc_ok _ Hh); congruence|by unfold must_malloc in E1; destruct (heap_ok st 0)].
  assert (grows b st s1) as G1 by by apply must_malloc_grows.
  unfold block_register. destruct (must_malloc s1) as [s2| |] eqn:E2; cbn [mbind res_bind].
  - assert (grows b s1 s2) as G2 by by apply must_malloc_grows.
    eapply grows_trans; [exact G1|]. eapply grows_trans; [exact G2|].
    eapply register_grows; [eauto using grows_scannable|done|unfold is_u32 in *; lia|done].
  - intros Hh. destruct (must_malloc_ok s1) as [? E]; [by apply G1|congruence].
  - unfold must_malloc in E2. by destruct (heap_ok s1 0).
Qed.

Lemma byte_range bs i : 0 ≤ byte bs i < 256.
Proof. apply Z.mod_pos_bound. lia. Qed.
Lemma entry_range pt e : e ∈ partitions pt → is_u32 (e_offset e) ∧ is_u32 (e_size e).
Proof.
  intros (i & -> & _)%list_elem_of_fmap. cbn [entry e_offset e_size]. unfold le32, is_u32.
  split; repeat match goal with |- context [byte pt ?k] => pose proof (byte_range pt k); generalize dependent (byte pt k); intros end; lia.
Qed.

Lemma parse_entries_grows nested b sector primary n : ∀ es nr st,
  (∀ st s p k, scannable st b n → is_u32 s → outcome st (grows b st) (nested st s p k)) →
  Forall (λ e, is_u32 (e_offset e) ∧ is_u32 (e_size e)) es → scannable st b n →
  outcome st (grows b st) (parse_entries nested b sector primary es nr st).
Proof.
  induction es as [|e es IH]; intros nr st Hn Hes Hs; cbn [parse_entries]; [apply grows_refl|].
  apply Forall_cons_1 in Hes as [[Ho Hz] Hes].
  assert (Hnext : ∀ st' k, grows b st st' →
    outcome st (grows b st) (parse_entries nested b sector primary es k st')).
  { intros st' k G. specialize (IH k st' Hn Hes (grows_scannable _ _ _ _ G Hs)).
    destruct parse_entries as [[? ?]| |]; cbn in *; [by eapply grows_trans| |done].
    intros H. by apply IH, G. }
  destruct (_ || _); [apply Hnext, grows_refl|]. destruct (is_extended _).
  - assert (Hc : outcome st (grows b st) (if sector =? 0 then nested st (e_offset e) (e_offset e) nr
      else nested st (u32 (e_offset e + primary)) primary nr)).
    { destruct (sector =? 0); [by apply Hn|]. apply Hn; [done|apply u32_range]. }
    destruct (if sector =? 0 then _ else _) as [[k st']| |]; cbn [mbind res_bind outcome] in *;
      [by apply Hnext|done|done].
  - pose proof (found_partition_grows st b (e_type e) (u32 (e_offset e + sector)) (e_size e) (nr + 1) n
      Hs (u32_range _) Hz) as Hf.
    destruct found_partition as [st'| |]; cbn [mbind res_bind outcome] in *; [by apply Hnext|done|done].
Qed.

Lemma partitions_ok pt : Forall (λ e, is_u32 (e_offset e) ∧ is_u32 (e_size e)) (partitions pt).
Proof. apply Forall_forall. intros e. apply entry_range. Qed.

Lemma read_table_grows b n : ∀ fuel st sector primary nr,
  scannable st b n → is_u32 sector →
  outcome st (grows b st) (read_partition_table fuel b st sector primary nr).
Proof.
  induction fuel as [|fuel IH]; intros st sector primary nr Hs Hu; [done|]. cbn [read_partition_table].
  destruct (get_block_scannable _ _ _ Hs) as (x & -> & Hx). cbn [mbind res_bind]. unfold block_size. rewrite Hx.
  destruct (Z.leb_spec n sector); [apply grows_refl|].
  destruct (must_malloc st) as [s1| |] eqn:E1; cbn [mbind res_bind outcome];
    [|intros Hh; destruct (must_malloc_ok _ Hh); congruence|done].
  assert (grows b st s1) as G1 by by apply must_malloc_grows.
  pose proof (grows_scannable _ _ _ _ G1 Hs) as Hs1. destruct Hs1 as (Hwf & t & d & Hb & Ht).
  destruct (block_read_spec b (S b) s1 0 t n d Hwf Hb ltac:(unfold is_u32 in *; lia) ltac:(lia))
    as (ds & s2 & _ & E2 & Eg & Ed & Eh).
  assert (grows b st s2) as G2.
  { eapply grows_trans; [exact G1|]. apply grows_same; [done|done|]. unfold heap_fine. by rewrite Eh. }
  rewrite E2. cbn [mbind res_bind]. destruct (negb _); [exact G2|].
  pose proof (parse_entries_grows (read_partition_table fuel b) b sector primary n
    (partitions (raw_sector s1 ds.1 ds.2)) nr s2 ltac:(auto) (partitions_ok _) (grows_scannable _ _ _ _ G2 Hs)) as Hp.
  destruct parse_entries as [[k st']| |]; cbn [outcome] in *; [by eapply grows_trans| |done].
  intros H'. by apply Hp, G2.
Qed.

(** Whatever a disk holds, scanning it keeps the registry of devices well formed: every
    partition it registers lies inside the device, no registered device changes, nothing is
    written, and the scan stops the kernel only if an allocation fails. *)
Theorem partition_scan_safe fuel st b t n d :
  registry_wf st → geometry st !! b = Some (t, n, d) → t ≠ BLOCK_FOREIGN →
  (∀ st', partition_scan fuel st b = Ret st' →
     registry_wf st' ∧ disks st' = disks st
     ∧ ∃ new, geometry st' = geometry st ++ new ∧ Forall (on_device b) new)
  ∧ (heap_fine st → partition_scan fuel st b ≠ Panic).
Proof.
  intros Hwf Hb Ht. assert (Hs : scannable st b n) by (split; eauto).
  pose proof (read_table_grows b n fuel st 0 0 0 Hs ltac:(done)) as H. unfold partition_scan.
  destruct read_partition_table as [[k s1]| |]; cbn in *; split; try done.
  intros st' [= <-]. destruct H as [W G D _]. split_and!; [by apply W|done|done].
Qed.

Lemma raw_addr_app g l : ∀ fuel b sector r,
  raw_addr fuel g b sector = Some r → raw_addr fuel (g ++ l) b sector = Some r.
Proof.
  induction fuel as [|fuel IH]; intros b sector r; [done|]. cbn.
  destruct (g !! b) as [[[t n] dr]|] eqn:E; [|done]. rewrite (lookup_app_l_Some _ _ _ _ E).
  destruct dr; [done|apply IH].
Qed.

(** The table that [read_partition_table] reads. *)
Definition first_sector (st : registry) (b : nat) (pt : list Z) : Prop :=
  ∃ ds, raw_addr (S b) (geometry st) b 0 = Some ds ∧ raw_sector st ds.1 ds.2 = pt.
Lemma first_sector_grows b st st' pt : grows b st st' → first_sector st b pt → first_sector st' b pt.
Proof.
  intros [_ (new & G & _) D _] (ds & Ha & Hr). exists ds. unfold raw_sector in *. rewrite G, D.
  split; [by apply raw_addr_app|done].
Qed.

(** One call up to its loop over the entries, when no allocation fails. *)
Lemma read_table_step b n pt fuel st sector primary nr :
  scannable st b n → heap_fine st → first_sector st b pt → 0 ≤ sector < n →
  ∃ st', grows b st st' ∧ geometry st' = geometry st
    ∧ read_partition_table (S fuel) b st sector primary nr
      = if negb (signature pt =? 43605) then Ret (nr, st')
        else parse_entries (read_partition_table fuel b) b sector primary (partitions pt) nr st'.
Proof.
  intros Hs Hh Hp Hn. cbn [read_partition_table].
  destruct (get_block_scannable _ _ _ Hs) as (x & -> & Hx). cbn [mbind res_bind]. unfold block_size. rewrite Hx.
  destruct (Z.leb_spec n sector); [lia|]. destruct (must_malloc_ok st Hh) as [s1 E1].
  assert (G1 : grows b st s1) by by apply must_malloc_grows.
  assert (geometry s1 = geometry st) as Eg1.
  { unfold must_malloc in E1. rewrite (Hh 0%nat) in E1. by injection E1 as <-. }
  destruct (grows_scannable _ _ _ _ G1 Hs) as (Hwf & t & d & Hb & Ht).
  destruct (block_read_spec b (S b) s1 0 t n d Hwf Hb ltac:(lia) ltac:(lia))
    as (ds & s2 & Ea & E2 & Eg & Ed & Eh).
  destruct (first_sector_grows _ _ _ _ G1 Hp) as (ds' & Ea' & Hr). replace ds' with ds in * by congruence.
  exists s2. rewrite E1. cbn [mbind res_bind]. rewrite E2, Hr. cbn [mbind res_bind].
  split_and!; [|congruence|done].
  eapply grows_trans; [exact G1|]. apply grows_same; [done|done|]. unfold heap_fine. by rewrite Eh.
Qed.

(** *** Extended partitions *)
(** A table entry that describes an extended partition. *)
Definition extended_entry (e : partition_table_entry) : Prop :=
  e_size e ≠ 0 ∧ e_type e ≠ 0 ∧ is_extended (e_type e) = true.

Lemma parse_entries_stuck nested b sector primary n e : ∀ es nr st,
  (∀ st s p k, scannable st b n → is_u32 s → outcome st (grows b st) (nested st s p k)) →
  Forall (λ e, is_u32 (e_offset e) ∧ is_u32 (e_size e)) es → scannable st b n → heap_fine st →
  e ∈ es → extended_entry e →
  (∀ st' k, grows b st st' →
     (if sector =? 0 then nested st' (e_offset e) (e_offset e) k
      else nested st' (u32 (e_offset e + primary)) primary k) = Stuck) →
  parse_entries nested b sector primary es nr st = Stuck.
Proof.
  induction es as [|e' es IH]; intros nr st Hn Hes Hs Hh Hin He Hc; [by apply elem_of_nil in Hin|].
  cbn [parse_entries]. apply Forall_cons_1 in Hes as [[Ho Hz] Hes].
  assert (Hnext : ∀ st' k, e ∈ es → grows b st st' → parse_entries nested b sector primary es k st' = Stuck).
  { intros st' k Hin' G. apply IH; [done|done|by eapply grows_scannable|by apply G|done|done|].
    intros st2 k2 G2. apply Hc. by eapply grows_trans. }
  apply elem_of_cons in Hin as [<-|Hin].
  { destruct He as (H1 & H2 & ->). rewrite <- Z.eqb_neq in H1, H2. rewrite H1, H2. cbn [orb].
    rewrite Hc by apply grows_refl. done. }
  destruct (_ || _); [by apply Hnext, grows_refl|]. destruct (is_extended (e_type e')).
  - assert (Ho' : outcome st (grows b st) (if sector =? 0 then nested st (e_offset e') (e_offset e') nr
      else nested st (u32 (e_offset e' + primary)) primary nr)).
    { destruct (sector =? 0); [by apply Hn|]. apply Hn; [done|apply u32_range]. }
    destruct (if sector =? 0 then nested st (e_offset e') _ _ else _) as [[k st']| |]; cbn [mbind res_bind outcome] in *;
      [by apply Hnext|by destruct (Ho' Hh)|done].
  - pose proof (found_partition_grows st b (e_type e') (u32 (e_offset e' + sector)) (e_size e') (nr + 1) n
      Hs (u32_range _) Hz) as Hf.
    destruct found_partition as [st'| |]; cbn [mbind res_bind outcome] in *;
      [by apply Hnext|by destruct (Hf Hh)|done].
Qed.

Lemma read_table_stuck b n pt e fuel : ∀ st sector primary nr,
  scannable st b n → heap_fine st → first_sector st b pt →
  signature pt = 43605 → e ∈ partitions pt → extended_entry e →
  e_offset e < n → u32 (2 * e_offset e) < n →
  (sector = 0 ∨ primary = e_offset e ∧ (sector = e_offset e ∨ sector = u32 (2 * e_offset e))) → 0 < n →
  read_partition_table fuel b st sector primary nr = Stuck.
Proof.
  induction fuel as [|fuel IH]; intros st sector primary nr Hs Hh Hp Hsig Hin He Ho H2 Hsec Hn; [done|].
  destruct (entry_range _ _ Hin) as [Hu _]. pose proof (u32_range (2 * e_offset e)) as Hu2. unfold is_u32 in *.
  destruct (read_table_step b n pt fuel st sector primary nr Hs Hh Hp ltac:(lia)) as (st1 & G & _ & ->).
  rewrite Hsig. cbn [negb Z.eqb Pos.eqb].
  apply (parse_entries_stuck _ _ _ _ n e); [|apply partitions_ok|by eapply grows_scannable|by apply G|done..|].
  { intros. by apply (read_table_grows b n). }
  intros st2 k G2. assert (grows b st st2) as G3 by by eapply grows_trans.
  assert (Hgo : ∀ s p, s = 0 ∨ p = e_offset e ∧ (s = e_offset e ∨ s = u32 (2 * e_offset e)) →
    read_partition_table fuel b st2 s p k = Stuck).
  { intros s p Hsp. apply (IH _ _ _ _); try done;
      [by eapply grows_scannable|by apply G3|by eapply first_sector_grows]. }
  destruct (Z.eqb_spec sector 0); apply Hgo; [by right; auto|]. right.
  destruct Hsec as [|[-> Hsec]]; [done|]. split; [done|right]. f_equal. lia.
Qed.

(** A disk whose partition table has an extended partition (a table of tables) in its first
    half is never scanned to the end: the code reads sector 0 again instead of the extended
    partition's own table, finds the same entry and calls itself without end.  (On the
    machine the recursion overruns the kernel stack.) *)
Theorem extended_partition_diverges fuel st b t n d pt e :
  registry_wf st → geometry st !! b = Some (t, n, d) → t ≠ BLOCK_FOREIGN → heap_fine st →
  first_sector st b pt → signature pt = 43605 → e ∈ partitions pt → extended_entry e →
  2 * e_offset e < n →
  partition_scan fuel st b = Stuck.
Proof.
  intros Hwf Hb Ht Hh Hp Hsig Hin He Ho. destruct (entry_range _ _ Hin) as [Hu _].
  destruct (Hwf _ _ _ _ Hb) as [Hn _]. unfold is_u32 in *. unfold partition_scan.
  rewrite (read_table_stuck b n pt e); [done|split; eauto|done..|lia| |by left|lia].
  rewrite u32_id; unfold is_u32; lia.
Qed.

(** *** Primary partitions *)
(** What a table entry asks for, if it fits the device. *)
Definition wanted (b : nat) (n : Z) (e : partition_table_entry) : option (block_type * Z * driver) :=
  if (e_size e =? 0) || (e_type e =? 0) || negb (e_offset e <? n) || negb (e_offset e + e_size e <=? n)
  then None else Some (partition_type (e_type e), e_size e, Partition b (e_offset e)).

Lemma found_partition_wanted st b e nr n :
  scannable st b n → heap_fine st → is_u32 (e_offset e) → is_u32 (e_size e) → is_u32 n →
  e_size e ≠ 0 → e_type e ≠ 0 →
  ∃ st', found_partition st b (e_type e) (e_offset e) (e_size e) nr = Ret st'
    ∧ geometry st' = geometry st ++ option_list (wanted b n e).
Proof.
  intros Hs Hh Ho Hz Hn H1 H2. unfold found_partition, wanted, is_u32 in *.
  destruct (get_block_scannable _ _ _ Hs) as (x & -> & Hx). cbn [mbind res_bind]. unfold block_size. rewrite Hx.
  rewrite <- Z.eqb_neq in H1, H2. rewrite H1, H2. cbn [orb].
  destruct (Z.leb_spec n (e_offset e)), (Z.ltb_spec (e_offset e) n); try lia; cbn [negb orb].
  { exists st. by rewrite app_nil_r. }
  destruct (Z.leb_spec (e_offset e + e_size e) n) as [Hle|Hle]; cbn [negb].
  - rewrite u32_id by (unfold is_u32; lia).
    destruct (Z.ltb_spec (e_offset e + e_size e) (e_offset e)), (Z.ltb_spec n (e_offset e + e_size e)); try lia.
    unfold block_register, must_malloc. rewrite !Hh. cbn. rewrite !Hh. cbn. eexists. split; [done|].
    unfold geometry. cbn. by rewrite fmap_app.
  - assert ((u32 (e_offset e + e_size e) <? e_offset e) || (n <? u32 (e_offset e + e_size e)) = true) as ->.
    { apply orb_true_iff. rewrite !Z.ltb_lt. unfold u32.
      destruct (Z_lt_dec (e_offset e + e_size e) 4294967296).
      - right. by rewrite Z.mod_small by lia.
      - left. replace (e_offset e + e_size e) with ((e_offset e + e_size e - 4294967296) + 1 * 4294967296) by lia.
        rewrite Z_mod_plus_full, Z.mod_small by lia. lia. }
    exists st. by rewrite app_nil_r.
Qed.

Lemma parse_entries_primary nested b n : ∀ es nr st,
  Forall (λ e, is_u32 (e_offset e) ∧ is_u32 (e_size e)) es → Forall (λ e, ¬ extended_entry e) es →
  scannable st b n → heap_fine st → is_u32 n →
  ∃ nr' st', parse_entries nested b 0 0 es nr st = Ret (nr', st')
    ∧ geometry st' = geometry st ++ omap (wanted b n) es.
Proof.
  induction es as [|e es IH]; intros nr st Hes Hex Hs Hh Hn; cbn [parse_entries].
  { exists nr, st. by rewrite app_nil_r. }
  apply Forall_cons_1 in Hes as [[Ho Hz] Hes]. apply Forall_cons_1 in Hex as [Hx Hex].
  destruct (Z.eqb_spec (e_size e) 0) as [E1|E1]; cbn [orb].
  { destruct (IH nr st Hes Hex Hs Hh Hn) as (nr' & st' & -> & G). exists nr', st'. split; [done|].
    rewrite G. f_equal. cbn. unfold wanted at 2. by rewrite E1. }
  destruct (Z.eqb_spec (e_type e) 0) as [E2|E2].
  { destruct (IH nr st Hes Hex Hs Hh Hn) as (nr' & st' & -> & G). exists nr', st'. split; [done|].
    rewrite G. f_equal. cbn. unfold wanted at 2. by rewrite E2, orb_true_r. }
  destruct (is_extended (e_type e)) eqn:E3; [by destruct Hx|].
  rewrite Z.add_0_r, u32_id by done.
  pose proof (found_partition_grows st b (e_type e) (e_offset e) (e_size e) (nr + 1) n Hs Ho Hz) as Hg.
  destruct (found_partition_wanted st b e (nr + 1) n Hs Hh Ho Hz Hn E1 E2) as (st1 & E & G1).
  rewrite E in Hg |- *. cbn [mbind res_bind].
  destruct (IH (nr + 1) st1 Hes Hex (grows_scannable _ _ _ _ Hg Hs) (grows_heap _ _ _ Hg Hh) Hn)
    as (nr' & st' & -> & G). exists nr', st'. split; [done|].
  rewrite G, G1, <- app_assoc. f_equal. cbn. by destruct (wanted b n e).
Qed.

(** Scanning a disk with a valid table of primary partitions ends and registers exactly the
    entries that are not empty and fit the disk, in the order of the table, with the role
    their type byte gives them; entries whose end wraps around or lies behind the disk are
    left out. *)
Theorem partition_scan_correct fuel st b t n d pt :
  registry_wf st → geometry st !! b = Some (t, n, d) → t ≠ BLOCK_FOREIGN → heap_fine st →
  first_sector st b pt → 0 < n → signature pt = 43605 → Forall (λ e, ¬ extended_entry e) (partitions pt) →
  ∃ st', partition_scan (S fuel) st b = Ret st'
    ∧ geometry st' = geometry st ++ omap (wanted b n) (partitions pt).
Proof.
  intros Hwf Hb Ht Hh Hp Hn Hsig Hex. assert (Hs : scannable st b n) by (split; eauto).
  unfold partition_scan.
  destruct (read_table_step b n pt fuel st 0 0 0 Hs Hh Hp ltac:(lia)) as (st1 & G & Eg & ->).
  rewrite Hsig. cbn [negb Z.eqb Pos.eqb].
  destruct (parse_entries_primary (read_partition_table fuel b) b n (partitions pt) 0 st1
    (partitions_ok _) Hex (grows_scannable _ _ _ _ G Hs) (grows_heap _ _ _ G Hh) (proj1 (Hwf _ _ _ _ Hb)))
    as (nr' & st' & -> & G'). cbn. exists st'. split; [done|]. by rewrite G', Eg.
Qed.

(** ** Reading and writing through partitions *)
Lemma raw_addr_inj g : ∀ fuel b s1 s2 r,
  raw_addr fuel g b s1 = Some r → raw_addr fuel g b s2 = Some r → s1 = s2.
Proof.
  induction fuel as [|fuel IH]; intros b s1 s2 r; [done|]. cbn.
  destruct (g !! b) as [[[t n] [d|on start]]|]; [congruence| |done].
  intros H1 H2. pose proof (IH _ _ _ _ H1 H2). lia.
Qed.

(** Partitions that do not overlap are isolated: a write to a sector of one returns, is read
    back, and leaves what every sector of the other reads as it was; neither access leaves
    the device below, whose own check would stop the kernel. *)
Theorem partitions_isolated st on i ti ni si j tj nj sj a c bs :
  registry_wf st →
  geometry st !! i = Some (ti, ni, Partition on si) → geometry st !! j = Some (tj, nj, Partition on sj) →
  ti ≠ BLOCK_FOREIGN → si + ni ≤ sj ∨ sj + nj ≤ si → 0 ≤ a < ni → 0 ≤ c < nj →
  ∃ st', block_write (S i) st i a bs = Ret st' ∧ registry_wf st'
    ∧ (∃ st1, block_read (S i) st' i a = Ret (bs, st1))
    ∧ ∃ old st1 st2, block_read (S j) st j c = Ret (old, st1) ∧ block_read (S j) st' j c = Ret (old, st2).
Proof.
  intros Hwf Hi Hj Ht Hd Ha Hc.
  destruct (block_write_spec i bs (S i) st a _ _ _ Hwf Hi Ht Ha ltac:(lia)) as (di & st' & Ai & -> & G & D & _).
  assert (Hwf' : registry_wf st') by by apply (wf_geometry st).
  destruct (block_read_spec i (S i) st' a _ _ _ Hwf' ltac:(rewrite G; exact Hi) Ha ltac:(lia))
    as (di' & s1 & Ai' & R1 & _). rewrite G, Ai in Ai'. injection Ai' as <-.
  destruct (block_read_spec j (S j) st c _ _ _ Hwf Hj Hc ltac:(lia)) as (dj & s2 & Aj & R2 & _).
  destruct (block_read_spec j (S j) st' c _ _ _ Hwf' ltac:(rewrite G; exact Hj) Hc ltac:(lia))
    as (dj' & s3 & Aj' & R3 & _). rewrite G, Aj in Aj'. injection Aj' as <-.
  assert (di ≠ dj) as Hne.
  { intros <-. cbn [raw_addr] in Ai, Aj. rewrite Hi in Ai. rewrite Hj in Aj.
    destruct (Hwf _ _ _ _ Hi) as [_ (Hoi & _)]. destruct (Hwf _ _ _ _ Hj) as [_ (Hoj & _)].
    rewrite (raw_addr_fuel st on j i) in Aj by done.
    pose proof (raw_addr_inj _ _ _ _ _ _ Ai Aj). lia. }
  exists st'. split_and!; [done|done| |].
  - exists s1. rewrite R1. unfold raw_sector. rewrite D, <- (surjective_pairing di), lookup_insert_eq. done.
  - exists (raw_sector st dj.1 dj.2), s2, s3. split; [done|]. rewrite R3. unfold raw_sector.
    by rewrite D, <- (surjective_pairing dj), lookup_insert_ne.
Qed.

(** ** Examples *)
(** A disk of 1000 sectors whose first sector is the given table. *)
Definition le_bytes (v : Z) : list Z := [v mod 256; v / 256 mod 256; v / 65536 mod 256; v / 16777216 mod 256].
Definition table_entry (t offset size : Z) : list Z :=
  [0; 0; 0; 0; t; 0; 0; 0] ++ le_bytes offset ++ le_bytes size.
Definition table (es : list (Z * Z * Z)) : list Z :=
  replicate 446 0 ++ concat ((λ '(t, o, n), table_entry t o n) <$> es) ++ [85; 170].
Definition demo (es : list (Z * Z * Z)) : registry :=
  Registry [Block (chars "hda") BLOCK_RAW 1000 (Disk 0) 0 0] (λ _, None) {[(0, 0) := table es]} (λ _, true).
Definition plain_table : list (Z * Z * Z) := [(32, 1, 99); (33, 100, 400); (131, 900, 200); (0, 0, 0)].
Definition nested_table : list (Z * Z * Z) := [(32, 1, 99); (5, 100, 400); (0, 0, 0); (0, 0, 0)].

Lemma demo_wf es : registry_wf (demo es).
Proof.
  intros [|i] t n dr; [|done]. intros [= <- <- <-]. done.
Qed.

Lemma partition_scan_safe_witness :
  ∃ st', partition_scan 1 (demo plain_table) 0 = Ret st' ∧ registry_wf st'
    ∧ geometry st' = geometry (demo plain_table)
        ++ [(BLOCK_KERNEL, 99, Partition 0 1); (BLOCK_FILESYS, 400, Partition 0 100)].
Proof.
  destruct (partition_scan_safe 1 (demo plain_table) 0 BLOCK_RAW 1000 (Disk 0)) as [H _];
    [apply demo_wf|done|done|].
  eexists. assert (partition_scan 1 (demo plain_table) 0 = Ret _) as E by (vm_compute; reflexivity).
  split_and!; [exact E|exact (proj1 (H _ E))|vm_compute; reflexivity].
Defined.

Lemma partition_scan_witness :
  ∃ st', partition_scan 1 (demo plain_table) 0 = Ret st'
    ∧ geometry st' = [(BLOCK_RAW, 1000, Disk 0); (BLOCK_KERNEL, 99, Partition 0 1); (BLOCK_FILESYS, 400, Partition 0 100)].
Proof.
  destruct (partition_scan_correct 0 (demo plain_table) 0 BLOCK_RAW 1000 (Disk 0) (table plain_table))
    as (st' & E & G); [apply demo_wf|done|done|done| |done|vm_compute; reflexivity| |].
  - by exists (0, 0).
  - assert (partitions (table plain_table) = [Entry 32 1 99; Entry 33 100 400; Entry 131 900 200; Entry 0 0 0]) as ->
      by (vm_compute; reflexivity).
    rewrite !Forall_cons, Forall_nil. split_and!; [by intros (? & ? & ?)..|done].
  - exists st'. split; [exact E|]. rewrite G. vm_compute. reflexivity.
Defined.

Lemma extended_witness : partition_scan 1000 (demo nested_table) 0 = Stuck.
Proof.
  apply (extended_partition_diverges 1000 (demo nested_table) 0 BLOCK_RAW 1000 (Disk 0)
    (table nested_table) (Entry 5 100 400)); [apply demo_wf|done|done|done|by exists (0, 0)|vm_compute; reflexivity| |done|done].
  vm_compute. right. left.
Defined.

(** Two partitions of one disk. *)
Definition two_parts : registry :=
  set_blocks (demo []) (all_blocks (demo [])
    ++ [Block (chars "hda1") BLOCK_FILESYS 100 (Partition 0 1) 0 0;
        Block (chars "hda2") BLOCK_SWAP 100 (Partition 0 101) 0 0]).
Lemma two_parts_wf : registry_wf two_parts.
Proof.
  intros [|[|[|i]]] t n dr; [..|done]; intros [= <- <- <-]; (split; [done|]); cbn; [done|..];
    (split_and!; [lia|lia|]); by exists BLOCK_RAW, 1000, (Disk 0).
Qed.
Lemma partitions_isolated_witness :
  ∃ st', block_write 2 two_parts 1 99 [7] = Ret st'
    ∧ (∃ st1, block_read 2 st' 1 99 = Ret ([7], st1))
    ∧ ∃ old st1 st2, block_read 3 two_parts 2 0 = Ret (old, st1) ∧ block_read 3 st' 2 0 = Ret (old, st2).
Proof.
  destruct (partitions_isolated two_parts 0 1 BLOCK_FILESYS 100 1 2 BLOCK_SWAP 100 101 99 0 [7])
    as (st' & E & _ & H1 & H2); [apply two_parts_wf|done|done|done|lia|lia|lia|].
  exists st'. by split_and!.
Defined.
