(* ===== verification/Inode.v ===== *)
(** * Inodes, open files and the free map
    (filesys/inode.c, filesys/file.c, filesys/free-map.c, devices/block.c)

    The disk is byte-addressed, sector [s] being the 512 bytes from [512 * s] on.  A
    buffer passed to a read or write is the list of its bytes.  The objects the kernel
    heap holds ([struct inode], [struct file], [struct dir]) are named by their
    addresses; the code only compares addresses and tests them for null, so an
    allocation that succeeds picks a name not in use, and [mem_ok] tells which of the
    coming calls of [malloc] and [calloc] succeed: every pattern of allocation failures
    is covered. *)
From S2P Require Import Prelude Mem Bitmap.

Definition BLOCK_SECTOR_SIZE : Z := 512.
Definition INODE_MAGIC : Z := 1229868868.
Definition FREE_MAP_SECTOR : Z := 0.
Definition ROOT_DIR_SECTOR : Z := 1.

(** [struct inode] with the members of the on-disk inode it holds. *)
Record inode := Inode {
  sector : Z; open_cnt : Z; removed : bool; deny_write_cnt : Z;
  start : Z; i_length : Z; magic : Z;
}.
(** [struct file] and [struct dir]. *)
Record file := File { f_inode : Z; f_pos : Z; deny_write : bool }.
Record dir := Dir { d_inode : Z; d_pos : Z }.

(** The file system's state: the device and its size in sectors, the free map, the
    pointer to the free map file, the objects on the heap, the list [open_inodes], and
    the coming answers of the heap. *)
Record fs := Fs {
  disk : mem; dev_size : Z; free_map : bitmap; free_map_file : Z;
  inodes : gmap Z inode; open_inodes : list Z; files : gmap Z file; dirs : gmap Z dir;
  mem_ok : nat → bool;
}.

Definition set_disk (s : fs) (d : mem) : fs :=
  Fs d (dev_size s) (free_map s) (free_map_file s) (inodes s) (open_inodes s) (files s)
     (dirs s) (mem_ok s).
Definition set_free_map (s : fs) (b : bitmap) : fs :=
  Fs (disk s) (dev_size s) b (free_map_file s) (inodes s) (open_inodes s) (files s)
     (dirs s) (mem_ok s).
Definition set_free_map_file (s : fs) (f : Z) : fs :=
  Fs (disk s) (dev_size s) (free_map s) f (inodes s) (open_inodes s) (files s)
     (dirs s) (mem_ok s).
Definition set_inodes (s : fs) (i : gmap Z inode) (l : list Z) : fs :=
  Fs (disk s) (dev_size s) (free_map s) (free_map_file s) i l (files s)
     (dirs s) (mem_ok s).
Definition set_files (s : fs) (f : gmap Z file) : fs :=
  Fs (disk s) (dev_size s) (free_map s) (free_map_file s) (inodes s) (open_inodes s) f
     (dirs s) (mem_ok s).
Definition set_dirs (s : fs) (d : gmap Z dir) : fs :=
  Fs (disk s) (dev_size s) (free_map s) (free_map_file s) (inodes s) (open_inodes s)
     (files s) d (mem_ok s).
Definition set_mem_ok (s : fs) (o : nat → bool) : fs :=
  Fs (disk s) (dev_size s) (free_map s) (free_map_file s) (inodes s) (open_inodes s)
     (files s) (dirs s) o.

(** A name above all names in use. *)
Definition keys {A} (m : gmap Z A) : list Z := (map_to_list m).*1.
Definition new_name (s : fs) : Z :=
  1 + foldr Z.max 0 (keys (inodes s) ++ keys (files s) ++ keys (dirs s)).

(** [malloc] and [calloc] of the kernel. *)
Definition kmalloc (s : fs) : Z * fs :=
  (if mem_ok s 0 then new_name s else NULL, set_mem_ok s (λ k, mem_ok s (S k))).

(** ** The block device *)
Definition bytes_at (d : mem) (a n : Z) : list Z := (λ i, load8 d (a + i)) <$> seqZ 0 n.
Fixpoint write_bytes (d : mem) (a : Z) (bs : list Z) : mem :=
  match bs with
  | [] => d
  | b :: bs => write_bytes (store8 d a b) (a + 1) bs
  end.

Definition block_read (s : fs) (sec : Z) : res (list Z) :=
  if dev_size s <=? sec then Panic else Ret (bytes_at (disk s) (512 * sec) 512).
Definition block_write (s : fs) (sec : Z) (bs : list Z) : res fs :=
  if dev_size s <=? sec then Panic
  else Ret (set_disk s (write_bytes (disk s) (512 * sec) bs)).

(** ** Reading and writing inode data *)
Definition get_inode (s : fs) (p : Z) : res inode :=
  match inodes s !! p with Some i => Ret i | None => Stuck end.

Definition get_file (s : fs) (p : Z) : res file :=
  match files s !! p with Some f => Ret f | None => Stuck end.

Definition bytes_to_sectors (size : Z) : Z :=
  u32 (Z.quot (s32 (size + BLOCK_SECTOR_SIZE - 1)) BLOCK_SECTOR_SIZE).
Definition byte_to_sector (i : inode) (pos : Z) : Z :=
  if pos <? i_length i then u32 (start i + Z.quot pos BLOCK_SECTOR_SIZE) else u32 (-1).
Definition inode_length (i : inode) : Z := i_length i.

(** The bytes of this round: the least of what is wanted, left in the inode and left
    in the sector. *)
Definition chunk_size (i : inode) (size offset : Z) : Z :=
  let sector_ofs := Z.rem offset BLOCK_SECTOR_SIZE in
  let inode_left := inode_length i - offset in
  let sector_left := BLOCK_SECTOR_SIZE - sector_ofs in
  let min_left := if inode_left <? sector_left then inode_left else sector_left in
  if size <? min_left then size else min_left.

(** [bounce] tells whether the bounce buffer has been allocated already. *)
Definition get_bounce (s : fs) (bounce : bool) : bool * fs :=
  if bounce then (true, s) else let '(p, s) := kmalloc s in (negb (p =? NULL), s).

Fixpoint read_loop (fuel : nat) (s : fs) (i : inode) (bounce : bool) (size offset : Z)
    (buffer : list Z) : res (list Z * fs) :=
  match fuel with
  | O => Stuck
  | S fuel =>
    if 0 <? size then
      let sector_idx := byte_to_sector i offset in
      let sector_ofs := Z.rem offset BLOCK_SECTOR_SIZE in
      let chunk := chunk_size i size offset in
      if chunk <=? 0 then Ret (buffer, s) else
      if (sector_ofs =? 0) && (chunk =? BLOCK_SECTOR_SIZE) then
        bs ← block_read s sector_idx;
        read_loop fuel s i bounce (size - chunk) (offset + chunk) (buffer ++ bs)
      else
        let '(ok, s) := get_bounce s bounce in
        if (ok : bool) then
          bs ← block_read s sector_idx;
          read_loop fuel s i true (size - chunk) (offset + chunk)
            (buffer ++ take (Z.to_nat chunk) (drop (Z.to_nat sector_ofs) bs))
        else Ret (buffer, s)
    else Ret (buffer, s)
  end.
Definition inode_read_at (s : fs) (p size offset : Z) : res (list Z * fs) :=
  i ← get_inode s p;
  read_loop (S (Z.to_nat size)) s i false size offset [].

(** Replacing a part of a sector's bytes. *)
Definition splice (bs : list Z) (ofs : Z) (part : list Z) : list Z :=
  take (Z.to_nat ofs) bs ++ part ++ drop (Z.to_nat ofs + length part) bs.

Fixpoint write_loop (fuel : nat) (s : fs) (i : inode) (bounce : bool) (offset : Z)
    (buffer : list Z) (bytes_written : Z) : res (Z * fs) :=
  match fuel with
  | O => Stuck
  | S fuel =>
    let size := Z.of_nat (length buffer) in
    if 0 <? size then
      let sector_idx := byte_to_sector i offset in
      let sector_ofs := Z.rem offset BLOCK_SECTOR_SIZE in
      let sector_left := BLOCK_SECTOR_SIZE - sector_ofs in
      let chunk := chunk_size i size offset in
      if chunk <=? 0 then Ret (bytes_written, s) else
      let part := take (Z.to_nat chunk) buffer in
      let rest := drop (Z.to_nat chunk) buffer in
      if (sector_ofs =? 0) && (chunk =? BLOCK_SECTOR_SIZE) then
        s ← block_write s sector_idx part;
        write_loop fuel s i bounce (offset + chunk) rest (bytes_written + chunk)
      else
        let '(ok, s) := get_bounce s bounce in
        if (ok : bool) then
          bs ← (if (0 <? sector_ofs) || (chunk <? sector_left) then block_read s sector_idx
                else Ret (replicate 512 0));
          s ← block_write s sector_idx (splice bs sector_ofs part);
          write_loop fuel s i true (offset + chunk) rest (bytes_written + chunk)
        else Ret (bytes_written, s)
    else Ret (bytes_written, s)
  end.
Definition inode_write_at (s : fs) (p : Z) (buffer : list Z) (offset : Z) : res (Z * fs) :=
  i ← get_inode s p;
  if negb (deny_write_cnt i =? 0) then Ret (0, s)
  else write_loop (S (length buffer)) s i false offset buffer 0.

(** [file_read_at] and [file_write_at] *)
Definition file_read_at (s : fs) (p size file_ofs : Z) : res (list Z * fs) :=
  f ← get_file s p; inode_read_at s (f_inode f) size file_ofs.
Definition file_write_at (s : fs) (p : Z) (buffer : list Z) (file_ofs : Z) : res (Z * fs) :=
  f ← get_file s p; inode_write_at s (f_inode f) buffer file_ofs.

(** ** The free map *)

(** The bytes of the bitmap's words, as they lie in memory. *)
Definition word_bytes (w : Z) : list Z := [w mod 256; w / 256 mod 256; w / 65536 mod 256; w / 16777216 mod 256].
Definition bitmap_bytes (b : bitmap) : list Z := bits b ≫= word_bytes.
Definition bitmap_file_size (b : bitmap) : Z := byte_cnt (bit_cnt b).

Definition bitmap_write (s : fs) (b : bitmap) (p : Z) : res (bool * fs) :=
  let size := byte_cnt (bit_cnt b) in
  '(n, s) ← file_write_at s p (take (Z.to_nat size) (bitmap_bytes b)) 0;
  Ret (n =? size, s).

(** The words after [bs] has been read over the first bytes of their storage. *)
Fixpoint bytes_words (n : nat) (bs : list Z) : list Z :=
  match n, bs with
  | S n, b0 :: b1 :: b2 :: b3 :: bs =>
    b0 + 256 * b1 + 65536 * b2 + 16777216 * b3 :: bytes_words n bs
  | _, _ => []
  end.
Definition bitmap_load (b : bitmap) (bs : list Z) : bitmap :=
  let old := bitmap_bytes b in
  Bitmap (bit_cnt b)
    (bytes_words (length (bits b)) (bs ++ drop (length bs) old)).
Definition bitmap_read (s : fs) (b : bitmap) (p : Z) : res (bool * bitmap * fs) :=
  if 0 <? bit_cnt b then
    let size := byte_cnt (bit_cnt b) in
    '(bs, s) ← file_read_at s p size 0;
    let b := bitmap_load b bs in
    Ret (Z.of_nat (length bs) =? size,
         upd_elem b (elem_cnt (bit_cnt b) - 1) (λ w, Z.land w (last_mask b)), s)
  else Ret (true, b, s).

(** [words] is what the storage allocated for the bits happens to contain. *)
Definition bitmap_create (s : fs) (cnt : Z) (words : list Z) : res (option bitmap * fs) :=
  let '(p, s) := kmalloc s in
  if p =? NULL then Ret (None, s) else
  let '(q, s) := kmalloc s in
  if negb (q =? NULL) || (cnt =? 0) then
    b ← bitmap_set_all (Bitmap cnt (take (Z.to_nat (elem_cnt cnt)) words)) false;
    Ret (Some b, s)
  else Ret (None, s).

Definition free_map_init (s : fs) (words : list Z) : res fs :=
  '(o, s) ← bitmap_create s (dev_size s) words;
  match o with
  | None => Panic
  | Some b =>
    Ret (set_free_map s (bitmap_mark (bitmap_mark b FREE_MAP_SECTOR) ROOT_DIR_SECTOR))
  end.

(** The first sector allocated, or [None] for failure. *)
Definition free_map_allocate (s : fs) (cnt : Z) : res (option Z * fs) :=
  '(sec, b) ← bitmap_scan_and_flip (free_map s) 0 cnt false;
  let s := set_free_map s b in
  if negb (sec =? BITMAP_ERROR) then
    if negb (free_map_file s =? NULL) then
      '(ok, s) ← bitmap_write s (free_map s) (free_map_file s);
      if negb ok then
        b ← bitmap_set_multiple (free_map s) sec cnt false;
        Ret (None, set_free_map s b)
      else Ret (Some sec, s)
    else Ret (Some sec, s)
  else Ret (None, s).

(** The result of [bitmap_write] is ignored; the free map file must be open. *)
Definition free_map_release (s : fs) (sec cnt : Z) : res fs :=
  all ← bitmap_all (free_map s) sec cnt;
  ASSERT all;;
  b ← bitmap_set_multiple (free_map s) sec cnt false;
  let s := set_free_map s b in
  '(_, s) ← bitmap_write s (free_map s) (free_map_file s); Ret s.

(** ** Creating, opening and closing inodes *)
Definition inode_disk_bytes (start length : Z) : list Z :=
  word_bytes start ++ word_bytes (u32 length) ++ word_bytes INODE_MAGIC ++ replicate 500 0.

Fixpoint zero_sectors (n : nat) (s : fs) (sec : Z) : res fs :=
  match n with
  | O => Ret s
  | S n => s ← block_write s sec (replicate 512 0); zero_sectors n s (sec + 1)
  end.

Definition inode_create (s : fs) (sec length : Z) : res (bool * fs) :=
  ASSERT (0 <=? length);;
  let '(p, s) := kmalloc s in
  if p =? NULL then Ret (false, s) else
  let sectors := bytes_to_sectors length in
  '(o, s) ← free_map_allocate s sectors;
  match o with
  | None => Ret (false, s)
  | Some first =>
    s ← block_write s sec (inode_disk_bytes first length);
    s ← zero_sectors (Z.to_nat sectors) s first;
    Ret (true, s)
  end.

Definition set_inode (s : fs) (p : Z) (i : inode) : fs :=
  set_inodes s (<[p := i]> (inodes s)) (open_inodes s).

Definition inode_reopen (s : fs) (p : Z) : res fs :=
  if p =? NULL then Ret s else
  i ← get_inode s p;
  Ret (set_inode s p (Inode (sector i) (open_cnt i + 1) (removed i) (deny_write_cnt i)
                            (start i) (i_length i) (magic i))).

(** The walk over [open_inodes]. *)
Fixpoint find_open (s : fs) (l : list Z) (sec : Z) : option Z :=
  match l with
  | [] => None
  | p :: l =>
    if bool_decide (sector <$> (inodes s !! p) = Some sec) then Some p else find_open s l sec
  end.

Definition inode_open (s : fs) (sec : Z) : res (Z * fs) :=
  match find_open s (open_inodes s) sec with
  | Some p => s ← inode_reopen s p; Ret (p, s)
  | None =>
    let '(p, s) := kmalloc s in
    if p =? NULL then Ret (NULL, s) else
    bs ← block_read s sec;
    let a := 512 * sec in
    let i := Inode sec 1 false 0 (load32 (disk s) a) (s32 (load32 (disk s) (a + 4)))
               (load32 (disk s) (a + 8)) in
    Ret (p, set_inodes s (<[p := i]> (inodes s)) (p :: open_inodes s))
  end.

Definition with_count (i : inode) (c : Z) : inode :=
  Inode (sector i) c (removed i) (deny_write_cnt i) (start i) (i_length i) (magic i).

Definition inode_close (s : fs) (p : Z) : res fs :=
  if p =? NULL then Ret s else
  i ← get_inode s p;
  let c := open_cnt i - 1 in
  if c =? 0 then
    let s := set_inodes s (<[p := with_count i c]> (inodes s))
               (filter (λ q, q ≠ p) (open_inodes s)) in
    s ← (if removed i then
           s ← free_map_release s (sector i) 1;
           free_map_release s (start i) (bytes_to_sectors (i_length i))
         else Ret s);
    Ret (set_inodes s (delete p (inodes s)) (open_inodes s))
  else Ret (set_inode s p (with_count i c)).

Definition inode_remove (s : fs) (p : Z) : res fs :=
  i ← get_inode s p;
  Ret (set_inode s p (Inode (sector i) (open_cnt i) true (deny_write_cnt i)
                            (start i) (i_length i) (magic i))).

Definition set_deny (s : fs) (p : Z) (i : inode) (c : Z) : fs :=
  set_inode s p (Inode (sector i) (open_cnt i) (removed i) c (start i) (i_length i) (magic i)).
Definition inode_deny_write (s : fs) (p : Z) : res fs :=
  i ← get_inode s p;
  ASSERT (deny_write_cnt i + 1 <=? open_cnt i);;
  Ret (set_deny s p i (deny_write_cnt i + 1)).
Definition inode_allow_write (s : fs) (p : Z) : res fs :=
  i ← get_inode s p;
  ASSERT (0 <? deny_write_cnt i);;
  ASSERT (deny_write_cnt i <=? open_cnt i);;
  Ret (set_deny s p i (deny_write_cnt i - 1)).
Definition inode_init (s : fs) : fs := set_inodes s (inodes s) [].
Definition inode_get_inumber (s : fs) (p : Z) : res Z := sector <$> get_inode s p.

(** ** Open files *)

(** [file_open]: the file object is allocated before the inode is looked at. *)
Definition file_open (s : fs) (ip : Z) : res (Z * fs) :=
  let '(p, s) := kmalloc s in
  if negb (ip =? NULL) && negb (p =? NULL) then
    Ret (p, set_files s (<[p := File ip 0 false]> (files s)))
  else s ← inode_close s ip; Ret (NULL, s).

Definition file_reopen (s : fs) (p : Z) : res (Z * fs) :=
  f ← get_file s p; s ← inode_reopen s (f_inode f); file_open s (f_inode f).

Definition set_file (s : fs) (p : Z) (f : file) : fs := set_files s (<[p := f]> (files s)).
Definition file_deny_write (s : fs) (p : Z) : res fs :=
  f ← get_file s p;
  if negb (deny_write f) then
    inode_deny_write (set_file s p (File (f_inode f) (f_pos f) true)) (f_inode f)
  else Ret s.
Definition file_allow_write (s : fs) (p : Z) : res fs :=
  f ← get_file s p;
  if deny_write f then
    inode_allow_write (set_file s p (File (f_inode f) (f_pos f) false)) (f_inode f)
  else Ret s.
Definition file_close (s : fs) (p : Z) : res fs :=
  if p =? NULL then Ret s else
  s ← file_allow_write s p;
  f ← get_file s p;
  s ← inode_close s (f_inode f);
  Ret (set_files s (delete p (files s))).

Definition file_get_inode (s : fs) (p : Z) : res Z := f_inode <$> get_file s p.
Definition file_read (s : fs) (p size : Z) : res (list Z * fs) :=
  f ← get_file s p;
  '(bs, s) ← inode_read_at s (f_inode f) size (f_pos f);
  Ret (bs, set_file s p (File (f_inode f) (s32 (f_pos f + Z.of_nat (length bs)))
                              (deny_write f))).
Definition file_write (s : fs) (p : Z) (buffer : list Z) : res (Z * fs) :=
  f ← get_file s p;
  '(n, s) ← inode_write_at s (f_inode f) buffer (f_pos f);
  Ret (n, set_file s p (File (f_inode f) (s32 (f_pos f + n)) (deny_write f))).
Definition file_length (s : fs) (p : Z) : res Z :=
  f ← get_file s p; i ← get_inode s (f_inode f); Ret (inode_length i).
Definition file_seek (s : fs) (p new_pos : Z) : res fs :=
  f ← get_file s p;
  ASSERT (0 <=? new_pos);;
  Ret (set_file s p (File (f_inode f) new_pos (deny_write f))).
Definition file_tell (s : fs) (p : Z) : res Z := f_pos <$> get_file s p.

(** ** The free map file *)
Definition free_map_open (s : fs) : res fs :=
  '(ip, s) ← inode_open s FREE_MAP_SECTOR;
  '(p, s) ← file_open s ip;
  let s := set_free_map_file s p in
  if p =? NULL then Panic else
  '(ok, b, s) ← bitmap_read s (free_map s) p;
  if negb ok then Panic else Ret (set_free_map s b).
Definition free_map_close (s : fs) : res fs := file_close s (free_map_file s).
Definition free_map_create (s : fs) : res fs :=
  '(ok, s) ← inode_create s FREE_MAP_SECTOR (bitmap_file_size (free_map s));
  if negb ok then Panic else
  '(ip, s) ← inode_open s FREE_MAP_SECTOR;
  '(p, s) ← file_open s ip;
  let s := set_free_map_file s p in
  if p =? NULL then Panic else
  '(ok, s) ← bitmap_write s (free_map s) p;
  if negb ok then Panic else Ret s.

(** ** Bytes on the disk *)

(** Two disks with the same bytes. *)
Record disk_eq (d d' : mem) : Prop := { same_load : ∀ x, load8 d x = load8 d' x }.
#[export] Instance disk_eq_equivalence : Equivalence disk_eq.
Proof.
  split; [done | by intros ?? [H]; split | intros d d' d'' [H1] [H2]; split; congruence].
Qed.
#[export] Instance bytes_at_proper : Proper (disk_eq ==> eq ==> eq ==> eq) bytes_at.
Proof. intros d d' [H] a ? <- n ? <-. apply list_fmap_ext. intros i x _. apply H. Qed.
#[export] Instance load32_proper : Proper (disk_eq ==> eq ==> eq) load32.
Proof. intros d d' [H] a ? <-. unfold load32. by rewrite !H. Qed.

Lemma length_bytes_at d a n : length (bytes_at d a n) = Z.to_nat n.
Proof. unfold bytes_at. by rewrite length_fmap, length_seqZ. Qed.

Lemma lookup_bytes_at d a n (k : nat) :
  bytes_at d a n !! k = if decide (Z.of_nat k < n) then Some (load8 d (a + Z.of_nat k)) else None.
Proof.
  unfold bytes_at. rewrite list_lookup_fmap. case_decide.
  - rewrite (lookup_seqZ_lt 0 n k) by lia. by rewrite Z.add_0_l.
  - by rewrite (lookup_seqZ_ge 0 n k) by lia.
Qed.

Lemma bytes_at_app d a n m :
  0 ≤ n → 0 ≤ m → bytes_at d a n ++ bytes_at d (a + n) m = bytes_at d a (n + m).
Proof.
  intros Hn Hm. apply list_eq. intros k. rewrite lookup_app, !lookup_bytes_at.
  case_decide; [by rewrite decide_True by lia|]. rewrite length_bytes_at.
  destruct (decide (Z.of_nat k < n + m)).
  - rewrite decide_True by lia. do 2 f_equal. lia.
  - by rewrite decide_False by lia.
Qed.

Lemma bytes_at_sub d a n o m :
  0 ≤ o → 0 ≤ m → o + m ≤ n →
  take (Z.to_nat m) (drop (Z.to_nat o) (bytes_at d a n)) = bytes_at d (a + o) m.
Proof.
  intros Ho Hm Hn. apply list_eq. intros k. rewrite lookup_bytes_at. case_decide.
  - rewrite lookup_take_lt, lookup_drop, lookup_bytes_at by lia.
    rewrite decide_True by lia. do 2 f_equal. lia.
  - by rewrite lookup_take_ge by lia.
Qed.

Lemma bytes_at_0 d a n : n ≤ 0 → bytes_at d a n = [].
Proof. intros. apply nil_length_inv. rewrite length_bytes_at. lia. Qed.

Lemma load8_write_bytes bs : ∀ d a x,
  load8 (write_bytes d a bs) x =
  if decide (a ≤ x < a + Z.of_nat (length bs)) then (bs !!! Z.to_nat (x - a)) mod 256
  else load8 d x.
Proof.
  induction bs as [|b bs IH]; intros d a x; cbn [write_bytes length].
  - by rewrite decide_False by lia.
  - rewrite IH, load8_store8. destruct (decide (a + 1 ≤ x < a + 1 + Z.of_nat (length bs))).
    + rewrite decide_True by lia. replace (Z.to_nat (x - a)) with (S (Z.to_nat (x - (a + 1)))) by lia.
      done.
    + destruct (decide (a = x)) as [->|].
      * rewrite decide_True by lia. by rewrite Z.sub_diag.
      * by rewrite decide_False by lia.
Qed.

Definition is_byte (b : Z) : Prop := 0 ≤ b < 256.
Lemma bytes_at_bytes d a n : Forall is_byte (bytes_at d a n).
Proof. apply Forall_fmap, Forall_true. intros i. apply load8_range. Qed.

(** Writing and reading back; reading elsewhere. *)
Lemma bytes_at_write_same d a bs :
  Forall is_byte bs → bytes_at (write_bytes d a bs) a (Z.of_nat (length bs)) = bs.
Proof.
  intros Hb. apply list_eq. intros k. rewrite lookup_bytes_at. case_decide as Hk.
  - rewrite load8_write_bytes, decide_True by lia.
    replace (Z.to_nat (a + Z.of_nat k - a)) with k by lia.
    destruct (lookup_lt_is_Some_2 bs k) as [b Eb]; [lia|].
    rewrite Eb, (list_lookup_total_correct _ _ _ Eb), Z.mod_small; [done|].
    exact (Forall_lookup_1 _ _ _ _ Hb Eb).
  - symmetry. apply lookup_ge_None. lia.
Qed.

Lemma bytes_at_write_other d a bs b n :
  b + n ≤ a ∨ a + Z.of_nat (length bs) ≤ b →
  bytes_at (write_bytes d a bs) b n = bytes_at d b n.
Proof.
  intros H. apply list_eq. intros k. rewrite !lookup_bytes_at. case_decide; [|done].
  by rewrite load8_write_bytes, decide_False by lia.
Qed.

#[export] Instance write_bytes_proper : Proper (disk_eq ==> eq ==> eq ==> disk_eq) write_bytes.
Proof.
  intros d d' [H] a ? <- bs ? <-. split. intros x. rewrite !load8_write_bytes. by case_decide.
Qed.

Lemma write_bytes_app d a bs bs' :
  write_bytes (write_bytes d a bs) (a + Z.of_nat (length bs)) bs' = write_bytes d a (bs ++ bs').
Proof.
  revert d a. induction bs as [|b bs IH]; intros d a; cbn [write_bytes length app].
  - f_equal. lia.
  - rewrite <- IH. f_equal. lia.
Qed.

(** ** Reading and writing an inode's data *)

(** The data of the inode lies on the device. *)
Record extent_ok (s : fs) (i : inode) : Prop := {
  ex_start : 0 ≤ start i;
  ex_length : 0 ≤ i_length i;
  ex_end : 512 * start i + i_length i ≤ 512 * dev_size s;
  ex_dev : dev_size s ≤ 4294967295;
}.
(** Where byte [ofs] of the file is on the disk. *)
Definition data_addr (i : inode) (ofs : Z) : Z := 512 * start i + ofs.
(** How much a transfer of [size] bytes at [ofs] can move. *)
Definition available (i : inode) (size ofs : Z) : Z :=
  Z.max 0 (Z.min size (i_length i - ofs)).

(** The state after some calls of [malloc] whose blocks are free again. *)
Definition after_mallocs (s : fs) (k : nat) : fs := set_mem_ok s (λ j, mem_ok s (k + j)%nat).
Lemma after_mallocs_0 s : after_mallocs s 0 = s.
Proof. by destruct s. Qed.

(** What a round of either loop computes. *)
Lemma round_facts s i size ofs :
  extent_ok s i → 0 ≤ ofs → 0 < size →
  (chunk_size i size ofs ≤ 0 ∧ available i size ofs = 0) ∨
  (let c := chunk_size i size ofs in let o := Z.rem ofs BLOCK_SECTOR_SIZE in
   let sec := byte_to_sector i ofs in
   0 < c ≤ size ∧ c ≤ available i size ofs ∧ 0 ≤ o ∧ o + c ≤ 512
   ∧ available i (size - c) (ofs + c) = available i size ofs - c
   ∧ 512 * sec + o = data_addr i ofs ∧ (dev_size s <=? sec) = false).
Proof.
  intros [H1 H2 H3 H4] Ho Hs.
  unfold chunk_size, available, inode_length, byte_to_sector, data_addr, BLOCK_SECTOR_SIZE.
  rewrite Z.rem_mod_nonneg, Z.quot_div_nonneg by lia.
  pose proof (Z.div_mod ofs 512 ltac:(lia)). pose proof (Z.mod_pos_bound ofs 512 ltac:(lia)).
  destruct (Z.ltb_spec (i_length i - ofs) (512 - ofs mod 512)).
  all: destruct (Z.ltb_spec ofs (i_length i)).
  all: try (left; destruct (Z.ltb_spec size (i_length i - ofs)); lia).
  all: try (exfalso; lia).
  all: right; rewrite u32_id by (unfold is_u32; lia); cbn zeta; rewrite Z.leb_gt.
  all: bool_cases; lia.
Qed.

Lemma block_read_ret s sec :
  (dev_size s <=? sec) = false → block_read s sec = Ret (bytes_at (disk s) (512 * sec) 512).
Proof. intros H. unfold block_read. by rewrite H. Qed.
Lemma block_write_ret s sec bs :
  (dev_size s <=? sec) = false →
  block_write s sec bs = Ret (set_disk s (write_bytes (disk s) (512 * sec) bs)).
Proof. intros H. unfold block_write. by rewrite H. Qed.

Lemma new_name_pos s : 0 < new_name s.
Proof.
  unfold new_name. generalize (keys (inodes s) ++ keys (files s) ++ keys (dirs s)). intros l.
  assert (0 ≤ foldr Z.max 0 l) by (induction l; cbn; lia). lia.
Qed.

Lemma get_bounce_spec s bounce :
  ∃ ok k, get_bounce s bounce = (ok, after_mallocs s k)
    ∧ (bounce = true → k = 0%nat) ∧ (k ≤ 1)%nat
    ∧ (bounce = true ∨ mem_ok s 0 = true → ok = true).
Proof.
  unfold get_bounce. destruct bounce.
  - exists true, 0%nat. rewrite after_mallocs_0. repeat split; lia.
  - exists (mem_ok s 0), 1%nat. unfold kmalloc, new_name. split; [|repeat split; [done|lia|by intros [|]]].
    destruct (mem_ok s 0); [|done]. f_equal. apply negb_true_iff, Z.eqb_neq.
    pose proof (new_name_pos s). unfold NULL, new_name in *. lia.
Qed.

Lemma read_loop_spec fuel : ∀ s i bounce size ofs buffer,
  extent_ok s i → 0 ≤ ofs → Z.max 0 size < Z.of_nat fuel →
  ∃ n k, read_loop fuel s i bounce size ofs buffer
       = Ret (buffer ++ bytes_at (disk s) (data_addr i ofs) n, after_mallocs s k)
    ∧ (bounce = true → k = 0%nat) ∧ (k ≤ 1)%nat ∧ 0 ≤ n ≤ available i size ofs
    ∧ (bounce = true ∨ mem_ok s 0 = true → n = available i size ofs).
Proof.
  induction fuel as [|fuel IH]; intros s i bounce size ofs buffer Hx Ho Hf; [lia|].
  cbn [read_loop]. destruct (Z.ltb_spec 0 size) as [Hs|Hs].
  2:{ exists 0, 0%nat. rewrite after_mallocs_0, bytes_at_0, app_nil_r by lia.
      unfold available. repeat split; lia. }
  destruct (round_facts s i size ofs Hx Ho Hs) as [[Hc Ha]|Hr].
  { exists 0, 0%nat. rewrite after_mallocs_0, bytes_at_0, app_nil_r by lia.
    rewrite Ha. destruct (Z.leb_spec (chunk_size i size ofs) 0); [|lia]. repeat split; lia. }
  cbn zeta in Hr. destruct Hr as (Hc & Hca & Ho1 & Ho2 & Hrest & Hsec & Hdev).
  set (c := chunk_size i size ofs) in *. set (o := Z.rem ofs BLOCK_SECTOR_SIZE) in *.
  set (sec := byte_to_sector i ofs) in *.
  destruct (Z.leb_spec c 0); [lia|]. rewrite (block_read_ret s sec) by done.
  assert (Hda : data_addr i (ofs + c) = data_addr i ofs + c) by (unfold data_addr; lia).
  destruct ((o =? 0) && (c =? BLOCK_SECTOR_SIZE)) eqn:Efull.
  - apply andb_true_iff in Efull as [E1%Z.eqb_eq E2%Z.eqb_eq]. unfold BLOCK_SECTOR_SIZE in E2.
    rewrite bind_Ret.
    edestruct (IH s i bounce (size - c) (ofs + c)) as (n & k & -> & Hk0 & Hk & Hn & Hall);
      [done|lia|lia|].
    exists (c + n), k. rewrite <- app_assoc. rewrite Hda.
    replace (512 * sec) with (data_addr i ofs) by lia. rewrite <- E2.
    rewrite bytes_at_app by lia. repeat split; try done; try lia. intros. rewrite Hall; [lia|done].
  - destruct (get_bounce_spec s bounce) as (ok & k & -> & Hk0 & Hk & Hok).
    destruct ok.
    2:{ exists 0, k. rewrite bytes_at_0, app_nil_r by lia. repeat split; try done; try lia.
        intros H'. by specialize (Hok H'). }
    rewrite (block_read_ret (after_mallocs s k) sec), bind_Ret by done.
    edestruct (IH (after_mallocs s k) i true (size - c) (ofs + c))
      as (n & k' & -> & Hk0' & Hk' & Hn & Hall); [by destruct Hx|lia|lia|].
    rewrite (Hk0' eq_refl), after_mallocs_0. exists (c + n), k. cbn [disk after_mallocs set_mem_ok].
    rewrite bytes_at_sub, Hsec, <- app_assoc, Hda, bytes_at_app by lia.
    rewrite Hall, Hrest by (by left). repeat split; auto; lia.
Qed.

(** *** Writes *)
Lemma take_take_drop' {A} (l : list A) n m : take (n + m) l = take n l ++ take m (drop n l).
Proof. by rewrite take_take_drop. Qed.

Lemma write_back d d' a n :
  0 ≤ n → (∀ x, a ≤ x < a + n → load8 d x = load8 d' x) →
  disk_eq (write_bytes d a (bytes_at d' a n)) d.
Proof.
  intros Hn H. split. intros x. rewrite load8_write_bytes, length_bytes_at. case_decide; [|done].
  rewrite list_lookup_total_alt, lookup_bytes_at, decide_True by lia. cbn.
  replace (a + Z.of_nat (Z.to_nat (x - a))) with x by lia.
  rewrite H by lia. apply Z.mod_small, load8_range.
Qed.

(** Rewriting a sector with a part replaced changes that part only. *)
Lemma write_splice d a o part :
  0 ≤ o → o + Z.of_nat (length part) ≤ 512 →
  disk_eq (write_bytes d a (splice (bytes_at d a 512) o part)) (write_bytes d (a + o) part).
Proof.
  intros Ho Hp. unfold splice.
  rewrite <- !write_bytes_app.
  pose proof (bytes_at_sub d a 512 0 o ltac:(lia) ltac:(lia) ltac:(lia)) as E.
  rewrite Z.add_0_r, drop_0 in E. rewrite E, length_bytes_at, Z2Nat.id by done.
  set (n := o + Z.of_nat (length part)) in *.
  pose proof (bytes_at_sub d a 512 n (512 - n) ltac:(lia) ltac:(lia) ltac:(lia)) as E'.
  rewrite take_ge in E' by (rewrite length_drop, length_bytes_at; lia).
  replace (Z.to_nat o + length part)%nat with (Z.to_nat n) by lia. rewrite E'.
  replace (a + n) with (a + o + Z.of_nat (length part)) by lia.
  rewrite (write_back d d a o) by (done || lia).
  apply write_back; [lia|]. intros x Hx. by rewrite load8_write_bytes, decide_False by lia.
Qed.

(** The state after a write to the disk and some calls of [malloc]. *)
Definition written (s : fs) (d : mem) (k : nat) : fs := set_disk (after_mallocs s k) d.

Lemma write_loop_spec fuel : ∀ s i bounce ofs buffer w,
  extent_ok s i → 0 ≤ ofs → (length buffer < fuel)%nat →
  ∃ n d k, write_loop fuel s i bounce ofs buffer w = Ret (w + n, written s d k)
    ∧ disk_eq d (write_bytes (disk s) (data_addr i ofs) (take (Z.to_nat n) buffer))
    ∧ (bounce = true → k = 0%nat) ∧ (k ≤ 1)%nat
    ∧ 0 ≤ n ≤ available i (Z.of_nat (length buffer)) ofs
    ∧ (bounce = true ∨ mem_ok s 0 = true → n = available i (Z.of_nat (length buffer)) ofs).
Proof.
  induction fuel as [|fuel IH]; intros s i bounce ofs buffer w Hx Ho Hf; [lia|].
  cbn [write_loop]. set (size := Z.of_nat (length buffer)).
  assert (Hskip : size ≤ 0 ∨ available i size ofs = 0 → ∃ n d k,
     Ret (w, s) = Ret (w + n, written s d k)
    ∧ disk_eq d (write_bytes (disk s) (data_addr i ofs) (take (Z.to_nat n) buffer))
    ∧ (bounce = true → k = 0%nat) ∧ (k ≤ 1)%nat ∧ 0 ≤ n ≤ available i size ofs
    ∧ (bounce = true ∨ mem_ok s 0 = true → n = available i size ofs)).
  { intros H. exists 0, (disk s), 0%nat. unfold written. rewrite after_mallocs_0, Z.add_0_r.
    rewrite take_0. unfold available in *. split_and!; try done; try lia. by destruct s. }
  destruct (Z.ltb_spec 0 size) as [Hs|Hs]; [|apply Hskip; lia].
  destruct (round_facts s i size ofs Hx Ho Hs) as [[Hc Ha]|Hr].
  { destruct (Z.leb_spec (chunk_size i size ofs) 0); [|lia]. apply Hskip; lia. }
  clear Hskip. cbn zeta in Hr. destruct Hr as (Hc & Hca & Ho1 & Ho2 & Hrest & Hsec & Hdev).
  set (c := chunk_size i size ofs) in *. set (o := Z.rem ofs BLOCK_SECTOR_SIZE) in *.
  set (sec := byte_to_sector i ofs) in *.
  destruct (Z.leb_spec c 0); [lia|].
  set (part := take (Z.to_nat c) buffer). set (rest := drop (Z.to_nat c) buffer).
  assert (Hpart : Z.of_nat (length part) = c) by (unfold part; rewrite length_take; lia).
  assert (Hlrest : Z.of_nat (length rest) = size - c) by (unfold rest; rewrite length_drop; lia).
  assert (Hda : data_addr i (ofs + c) = data_addr i ofs + c) by (unfold data_addr; lia).
  assert (Htake : ∀ n, 0 ≤ n → take (Z.to_nat (c + n)) buffer = part ++ take (Z.to_nat n) rest).
  { intros n Hn. rewrite Z2Nat.inj_add by lia. unfold part, rest. apply take_take_drop'. }
  destruct ((o =? 0) && (c =? BLOCK_SECTOR_SIZE)) eqn:Efull.
  - apply andb_true_iff in Efull as [E1%Z.eqb_eq E2%Z.eqb_eq]. unfold BLOCK_SECTOR_SIZE in E2.
    assert (E3 : 512 * sec = data_addr i ofs) by lia.
    rewrite (block_write_ret s sec), bind_Ret, E3 by done.
    set (s1 := set_disk _ _).
    edestruct (IH s1 i bounce (ofs + c) rest (w + c))
      as (n & d & k & -> & Hd & Hk0 & Hk & Hn & Hall); [by destruct Hx|lia|lia|].
    rewrite Hlrest, Hrest in Hn, Hall.
    exists (c + n), d, k. rewrite Htake by lia. rewrite <- write_bytes_app, Hpart.
    split_and!; try done; try lia; [f_equal; f_equal; lia| |].
    + rewrite <- Hda. exact Hd.
    + intros. rewrite Hall; [lia|done].
  - destruct (get_bounce_spec s bounce) as (ok & k & -> & Hk0 & Hk & Hok).
    destruct ok.
    2:{ exists 0, (disk s), k. rewrite take_0. split_and!; try done; try lia.
        - by rewrite Z.add_0_r.
        - intros H'. by specialize (Hok H'). }
    rewrite (block_read_ret (after_mallocs s k) sec) by done.
    assert (Hsplit : (0 <? o) || (c <? BLOCK_SECTOR_SIZE - o) = true).
    { unfold BLOCK_SECTOR_SIZE in *. apply orb_true_iff. rewrite !Z.ltb_lt.
      apply andb_false_iff in Efull. rewrite !Z.eqb_neq in Efull. lia. }
    rewrite Hsplit, bind_Ret, block_write_ret, bind_Ret by done.
    set (s1 := set_disk _ _).
    edestruct (IH s1 i true (ofs + c) rest (w + c))
      as (n & d & k' & -> & Hd & Hk0' & Hk' & Hn & Hall); [by destruct Hx|lia|lia|].
    rewrite (Hk0' eq_refl). rewrite Hlrest, Hrest in Hn, Hall. rewrite Hall in * by (by left).
    exists (available i size ofs), d, k. split_and!; auto; try lia.
    + unfold written. rewrite after_mallocs_0. do 2 f_equal. lia.
    + rewrite Hd. cbn [disk set_disk s1 after_mallocs set_mem_ok].
      replace (Z.to_nat (available i size ofs)) with (Z.to_nat (c + (available i size ofs - c)))
        by lia.
      rewrite write_splice, Hsec, Htake, <- write_bytes_app, Hda, Hpart by lia. done.
Qed.

(** What a caller sees of a transfer. *)
Lemma inode_read_at_spec s p i size ofs :
  inodes s !! p = Some i → extent_ok s i → 0 ≤ ofs →
  ∃ n k, inode_read_at s p size ofs
         = Ret (bytes_at (disk s) (data_addr i ofs) n, after_mallocs s k)
    ∧ (k ≤ 1)%nat ∧ 0 ≤ n ≤ available i size ofs
    ∧ (mem_ok s 0 = true → n = available i size ofs).
Proof.
  intros Hp Hx Ho. unfold inode_read_at, get_inode. rewrite Hp, bind_Ret.
  destruct (read_loop_spec (S (Z.to_nat size)) s i false size ofs [] Hx Ho)
    as (n & k & -> & _ & Hk & Hn & Hall); [lia|].
  exists n, k. split_and!; auto; lia.
Qed.

Lemma inode_write_at_spec s p i buffer ofs :
  inodes s !! p = Some i → extent_ok s i → 0 ≤ ofs → deny_write_cnt i = 0 →
  ∃ n d k, inode_write_at s p buffer ofs = Ret (n, written s d k)
    ∧ disk_eq d (write_bytes (disk s) (data_addr i ofs) (take (Z.to_nat n) buffer))
    ∧ (k ≤ 1)%nat ∧ 0 ≤ n ≤ available i (Z.of_nat (length buffer)) ofs
    ∧ (mem_ok s 0 = true → n = available i (Z.of_nat (length buffer)) ofs).
Proof.
  intros Hp Hx Ho Hd. unfold inode_write_at, get_inode. rewrite Hp, bind_Ret, Hd. cbn [negb Z.eqb].
  destruct (write_loop_spec (S (length buffer)) s i false ofs buffer 0 Hx Ho)
    as (n & d & k & -> & Hdd & _ & Hk & Hn & Hall); [lia|].
  exists n, d, k. split_and!; auto; lia.
Qed.

(** Writes are refused while the inode is write-denied. *)
Lemma inode_write_denied s p i buffer ofs :
  inodes s !! p = Some i → deny_write_cnt i ≠ 0 → inode_write_at s p buffer ofs = Ret (0, s).
Proof.
  intros Hp Hd. unfold inode_write_at, get_inode. rewrite Hp, bind_Ret.
  by destruct (Z.eqb_spec (deny_write_cnt i) 0).
Qed.

(** ** The free map and its file *)
Definition plenty (s : fs) : Prop := ∀ k, mem_ok s k = true.

(** The objects in memory are the same in both states. *)
Record same_objects (s s' : fs) : Prop := {
  so_dev : dev_size s' = dev_size s;
  so_fmf : free_map_file s' = free_map_file s;
  so_inodes : inodes s' = inodes s;
  so_open : open_inodes s' = open_inodes s;
  so_files : files s' = files s;
  so_dirs : dirs s' = dirs s;
  so_plenty : plenty s → plenty s';
}.
#[export] Instance same_objects_refl : Reflexive same_objects.
Proof. by intros []; split. Qed.
#[export] Instance same_objects_trans : Transitive same_objects.
Proof. intros s1 s2 s3 [] []; split; try congruence; auto. Qed.

Lemma after_mallocs_same s k : same_objects s (after_mallocs s k).
Proof. split; try done. intros H j. apply H. Qed.
Lemma written_same s d k : same_objects s (written s d k).
Proof. split; try done. intros H j. apply H. Qed.
Lemma set_free_map_same s b : same_objects s (set_free_map s b).
Proof. by split. Qed.
#[export] Hint Resolve set_free_map_same same_objects_refl after_mallocs_same written_same : core.

(** The bytes of the disk outside [lo, hi) are the same. *)
Definition disk_outside (lo hi : Z) (s s' : fs) : Prop :=
  ∀ x, x < lo ∨ hi ≤ x → load8 (disk s') x = load8 (disk s) x.

(** The free map file is open: its inode, of the size of the free map. *)
Record map_file (s : fs) (f : file) (i : inode) : Prop := {
  mf_wf : bitmap_wf (free_map s);
  mf_cnt : bit_cnt (free_map s) = dev_size s;
  mf_file : files s !! free_map_file s = Some f;
  mf_open : free_map_file s ≠ NULL;
  mf_inode : inodes s !! f_inode f = Some i;
  mf_extent : extent_ok s i;
  mf_length : i_length i = byte_cnt (dev_size s);
  mf_write : deny_write_cnt i = 0;
}.
(** The file holds the free map. *)
Definition persisted (s : fs) (i : inode) : Prop :=
  bytes_at (disk s) (data_addr i 0) (i_length i) = bitmap_bytes (free_map s).

Lemma length_bitmap_bytes b : length (bitmap_bytes b) = (4 * length (bits b))%nat.
Proof.
  unfold bitmap_bytes. induction (bits b) as [|w ws IH]; [done|].
  rewrite bind_cons, length_app, IH. cbn. lia.
Qed.
Lemma bitmap_bytes_bytes b : Forall is_byte (bitmap_bytes b).
Proof.
  unfold bitmap_bytes. induction (bits b) as [|w ws IH]; [constructor|].
  rewrite bind_cons. apply Forall_app. split; [|done].
  unfold word_bytes. repeat constructor; apply Z.mod_pos_bound; lia.
Qed.

Lemma byte_cnt_length b :
  bitmap_wf b → byte_cnt (bit_cnt b) = Z.of_nat (length (bitmap_bytes b))
             ∧ bit_cnt b ≤ 8 * byte_cnt (bit_cnt b).
Proof.
  intros [Hc _ Hl]. unfold byte_cnt. rewrite length_bitmap_bytes, elem_cnt_small in * by done.
  rewrite u32_id.
  - split; [lia|]. Z.to_euclidean_division_equations. lia.
  - unfold is_u32. Z.to_euclidean_division_equations. lia.
Qed.

(** Writing the free map to its file: all of it if memory is there. *)
Lemma bitmap_write_spec s f i :
  map_file s f i →
  ∃ ok d k, bitmap_write s (free_map s) (free_map_file s) = Ret (ok, written s d k)
    ∧ (k ≤ 1)%nat ∧ (mem_ok s 0 = true → ok = true)
    ∧ (ok = true → persisted (written s d k) i)
    ∧ disk_outside (data_addr i 0) (data_addr i (i_length i)) s (written s d k).
Proof.
  intros [Hwf Hc Hf _ Hi Hx Hl Hw]. unfold bitmap_write, file_write_at, get_file.
  rewrite Hf, bind_Ret. destruct (byte_cnt_length _ Hwf) as [Hb _].
  rewrite take_ge by lia. set (bs := bitmap_bytes (free_map s)) in *.
  destruct (inode_write_at_spec s (f_inode f) i bs 0 Hi Hx) as (n & d & k & -> & Hd & Hk & Hn & Hall);
    [lia|done|].
  rewrite bind_Ret.
  assert (Hav : available i (Z.of_nat (length bs)) 0 = Z.of_nat (length bs))
    by (unfold available; rewrite Hl, <- Hc; lia).
  rewrite Hav in Hn, Hall. exists (n =? byte_cnt (bit_cnt (free_map s))), d, k.
  split; [done|]. split; [done|]. split; [|split].
  - intros H. apply Z.eqb_eq. by rewrite (Hall H).
  - intros ->%Z.eqb_eq. unfold persisted. change (bytes_at d (data_addr i 0) (i_length i) = bs).
    rewrite Hd, Hl, <- Hc, Hb, Nat2Z.id, firstn_all.
    apply bytes_at_write_same, bitmap_bytes_bytes.
  - intros x Hx'. cbn [disk written set_disk]. rewrite (same_load _ _ Hd), load8_write_bytes, length_take.
    rewrite decide_False; [done|]. unfold data_addr in *. rewrite Hl, <- Hc, Hb in *. lia.
Qed.

Lemma map_file_set s b f i :
  map_file s f i → bitmap_wf b → bit_cnt b = bit_cnt (free_map s) →
  map_file (set_free_map s b) f i.
Proof. intros [? Hc ? ? ? [] ? ?] Hb Hbc. split; cbn; try done. congruence. Qed.
Lemma map_file_same s s' f i :
  map_file s f i → same_objects s s' → free_map s' = free_map s → map_file s' f i.
Proof.
  intros [? ? ? ? ? Hx ? ?] [E1 E2 E3 _ E5 _ _] E.
  split; rewrite ?E, ?E1, ?E2, ?E3, ?E5; try done.
  destruct Hx. by split; rewrite ?E1.
Qed.

(** [cnt] sectors from [sec] on are free in the map, and the first such run. *)
Definition first_free (s : fs) (cnt sec : Z) : Prop :=
  0 ≤ sec ∧ sec + cnt ≤ dev_size s ∧ all_bits (free_map s) sec cnt false
  ∧ ∀ i, 0 ≤ i < sec → ¬ all_bits (free_map s) i cnt false.
(** The map with that run set to [v]. *)
Definition run_set (s s' : fs) (sec cnt : Z) (v : bool) : Prop :=
  ∀ j, 0 ≤ j → bit (free_map s') j =
    if decide (sec ≤ j < sec + cnt) then v else bit (free_map s) j.

(** An allocation either takes the first run of free sectors, in the map and in its
    file, or fails and leaves the map as it was; with memory it only fails when there
    is no such run. *)
Lemma free_map_allocate_spec s f i cnt :
  map_file s f i → 0 ≤ cnt →
  ∃ o s', free_map_allocate s cnt = Ret (o, s') ∧ same_objects s s' ∧ map_file s' f i
    ∧ disk_outside (data_addr i 0) (data_addr i (i_length i)) s s'
    ∧ match o with
      | Some sec => first_free s cnt sec ∧ run_set s s' sec cnt true ∧ persisted s' i
      | None => (∀ j, 0 ≤ j → bit (free_map s') j = bit (free_map s) j)
                ∧ (mem_ok s 0 = true → (∀ sec, ¬ first_free s cnt sec) ∧ s' = s)
      end.
Proof.
  intros Hm Hc. pose proof (mf_wf _ _ _ Hm) as Hwf. pose proof (mf_cnt _ _ _ Hm) as Hdev.
  destruct (bitmap_scan_and_flip_spec (free_map s) 0 cnt false Hwf) as
    (r & b & E & Hrun & Hwf' & Hcnt & Hb); [destruct Hwf; lia|done|].
  unfold free_map_allocate. rewrite E, bind_Ret. case_decide as Er.
  { subst r b. cbn. replace (set_free_map s (free_map s)) with s by (by destruct s).
    exists None, s. split_and!; auto; [done|]. intros _. split; [|done]. intros sec (H1 & H2 & H3 & H4).
    destruct Hrun as [(?&?&_)|[_ H]]; [destruct Hwf; unfold BITMAP_ERROR in *; lia|].
    apply (H sec); [lia|lia|done]. }
  assert (Hff : first_free s cnt r).
  { destruct Hrun as [(?&?&?&?)|[]]; [|done]. split_and!; auto; lia. }
  destruct (Z.eqb_spec r BITMAP_ERROR); [done|]. cbn [negb].
  set (s1 := set_free_map s b).
  assert (Hm1 : map_file s1 f i) by (by apply map_file_set).
  destruct (Z.eqb_spec (free_map_file s1) NULL); [by destruct Hm1|]. cbn [negb].
  destruct (bitmap_write_spec s1 f i Hm1) as (ok & d & k & -> & Hk & Hok & Hp & Hd).
  rewrite bind_Ret. assert (Hm2 : map_file (written s1 d k) f i) by (by eapply map_file_same).
  destruct ok; cbn [negb].
  - exists (Some r), (written s1 d k). split_and!; auto. by trans s1; [|apply written_same].
  - destruct (bitmap_set_multiple_spec b r cnt false Hwf') as (b' & Eb' & Hwf'' & Hcnt' & Hb');
      [destruct Hff; split_and!; lia|].
    change (free_map (written s1 d k)) with b. rewrite Eb', bind_Ret.
    exists None, (set_free_map (written s1 d k) b').
    split_and!; auto; [|by apply map_file_set| |].
    { trans s1; [done|]. by trans (written s1 d k). }
    + intros j Hj. cbn. rewrite Hb' by done. case_decide as Hin; [|rewrite Hb by done; by case_decide].
      symmetry. by apply Hff.
    + intros H. by specialize (Hok H).
Qed.

(** Releasing a run that is in use frees it, in the map and in its file. *)
Lemma free_map_release_spec s f i sec cnt :
  map_file s f i → 0 ≤ sec → 0 ≤ cnt → sec + cnt ≤ dev_size s →
  all_bits (free_map s) sec cnt true →
  ∃ s', free_map_release s sec cnt = Ret s' ∧ same_objects s s' ∧ map_file s' f i
    ∧ disk_outside (data_addr i 0) (data_addr i (i_length i)) s s'
    ∧ run_set s s' sec cnt false ∧ (mem_ok s 0 = true → persisted s' i).
Proof.
  intros Hm Hs Hc He Ha. pose proof (mf_wf _ _ _ Hm) as Hwf. pose proof (mf_cnt _ _ _ Hm) as Hdev.
  assert (Hr : range_ok (free_map s) sec cnt) by (split_and!; lia).
  unfold free_map_release. rewrite bitmap_all_spec, bind_Ret by done.
  rewrite ASSERT_true by (by apply bool_decide_eq_true).
  destruct (bitmap_set_multiple_spec _ sec cnt false Hwf Hr) as (b & -> & Hwf' & Hcnt & Hb).
  rewrite bind_Ret. set (s1 := set_free_map s b).
  assert (Hm1 : map_file s1 f i) by (by apply map_file_set).
  destruct (bitmap_write_spec s1 f i Hm1) as (ok & d & k & -> & Hk & Hok & Hp & Hd).
  rewrite bind_Ret. exists (written s1 d k). split_and!; auto; try done.
  - by trans s1.
  - by eapply map_file_same.
Qed.

(** Releasing sectors not all in use stops the kernel. *)
Lemma free_map_release_panic s f i sec cnt :
  map_file s f i → 0 ≤ sec → 0 ≤ cnt → sec + cnt ≤ dev_size s →
  ¬ all_bits (free_map s) sec cnt true → free_map_release s sec cnt = Panic.
Proof.
  intros Hm Hs Hc He Ha. unfold free_map_release.
  rewrite bitmap_all_spec, bind_Ret by (destruct Hm; try split_and!; auto; lia).
  by rewrite ASSERT_false by (by apply bool_decide_eq_false).
Qed.

(** *** Reading the map back *)
Lemma word_bytes_word w bs n :
  is_u32 w → bytes_words (S n) (word_bytes w ++ bs) = w :: bytes_words n bs.
Proof.
  intros Hw. unfold word_bytes. cbn [app bytes_words]. f_equal. unfold is_u32 in Hw.
  Z.to_euclidean_division_equations. lia.
Qed.
Lemma bitmap_bytes_words b :
  Forall is_u32 (bits b) → bytes_words (length (bits b)) (bitmap_bytes b) = bits b.
Proof.
  unfold bitmap_bytes. induction 1 as [|w ws Hw Hws IH]; [done|].
  rewrite bind_cons. cbn [length]. rewrite word_bytes_word by done. by rewrite IH.
Qed.

Lemma bitmap_load_bytes b b' :
  bitmap_wf b → bitmap_wf b' → bit_cnt b' = bit_cnt b → bitmap_load b (bitmap_bytes b') = b'.
Proof.
  intros Hwf Hwf' Hc. unfold bitmap_load.
  assert (Hl : length (bits b) = length (bits b')).
  { apply Nat2Z.inj. rewrite (bw_length _ Hwf), (bw_length _ Hwf'). by rewrite Hc. }
  rewrite drop_ge by (rewrite !length_bitmap_bytes; lia).
  rewrite app_nil_r, Hl, bitmap_bytes_words by apply Hwf'. rewrite <- Hc. by destruct b'.
Qed.

(** Masking the last word does not touch the bits of the map. *)
Lemma last_mask_bits b :
  bitmap_wf b → 0 < bit_cnt b →
  let b' := upd_elem b (elem_cnt (bit_cnt b) - 1) (λ w, Z.land w (last_mask b)) in
  bitmap_wf b' ∧ bit_cnt b' = bit_cnt b ∧ ∀ j, 0 ≤ j < bit_cnt b → bit b' j = bit b j.
Proof.
  intros Hwf Hc b'. pose proof Hwf as [Hcnt Hws Hl].
  pose proof (elem_cnt_small _ Hcnt) as He.
  assert (Hi : 0 ≤ elem_cnt (bit_cnt b) - 1 < Z.of_nat (length (bits b)))
    by (rewrite Hl, He; Z.to_euclidean_division_equations; lia).
  split; [|split; [done|]].
  - split; [done| |].
    + cbn. apply Forall_alter; [done|]. intros. by apply is_u32_land.
    + cbn. by rewrite length_alter.
  - intros j Hj. unfold bit, b'. rewrite get_upd_elem;
      [|done|unfold elem_idx, ELEM_BITS; apply Z.div_pos; lia].
    case_decide as Ej; [|done]. rewrite <- Ej, Z.land_spec.
    enough (Z.testbit (last_mask b) (j mod ELEM_BITS) = true) as -> by (by rewrite andb_true_r).
    unfold last_mask, elem_idx, ELEM_BITS in *.
    pose proof (Z.mod_pos_bound j 32 ltac:(lia)) as Hj'.
    destruct (Z.eqb_spec (bit_cnt b mod 32) 0) as [E0|E0].
    + change (u32 (-1)) with (Z.ones 32). by apply Z.ones_spec_low.
    + assert (j mod 32 < bit_cnt b mod 32).
      { rewrite He in Ej. revert Ej E0 Hj Hc. clear. intros.
        Z.to_euclidean_division_equations. lia. }
      rewrite u32_testbit, Z.sub_1_r, Z.shiftl_1_l, <- Z.ones_equiv.
      rewrite Z.ones_spec_low by lia. by destruct (Z.ltb_spec (j mod 32) 32); [|lia].
Qed.

(** Reading the file of the free map gives the map it holds. *)
Lemma bitmap_read_spec s f i b :
  map_file s f i → bitmap_wf b → bit_cnt b = dev_size s → 0 < dev_size s → persisted s i →
  mem_ok s 0 = true →
  ∃ b' k, bitmap_read s b (free_map_file s) = Ret (true, b', after_mallocs s k)
    ∧ (k ≤ 1)%nat ∧ bitmap_wf b' ∧ bit_cnt b' = dev_size s
    ∧ ∀ j, 0 ≤ j < dev_size s → bit b' j = bit (free_map s) j.
Proof.
  intros [Hwf Hc Hf _ Hi Hx Hl _] Hwfb Hcb Hpos Hp Hok. unfold bitmap_read, file_read_at, get_file.
  destruct (byte_cnt_length _ Hwf) as [Hb _].
  rewrite Hcb. destruct (Z.ltb_spec 0 (dev_size s)); [|lia]. rewrite Hf, bind_Ret.
  destruct (inode_read_at_spec s (f_inode f) i (byte_cnt (dev_size s)) 0 Hi Hx)
    as (n & k & -> & Hk & _ & Hn); [lia|].
  rewrite Hn by done. rewrite bind_Ret.
  assert (available i (byte_cnt (dev_size s)) 0 = i_length i) as ->
    by (unfold available; rewrite Hl, <- Hc; lia).
  rewrite Hp, bitmap_load_bytes by (done || congruence).
  destruct (last_mask_bits (free_map s) Hwf) as (Hwf' & Hc' & Hbits); [lia|].
  eexists _, k. split; [|split_and!; [done|exact Hwf'|by rewrite Hc', Hc|by rewrite <- Hc]].
  rewrite <- Hc, Hb, Z.eqb_refl. done.
Qed.
