(* ===== verification/Directory.v ===== *)
(** * Directories and the file system (filesys/directory.c, filesys/filesys.c)

    A file name is the list of its characters.  A [struct dir_entry] is its 20 bytes as
    they lie in the directory's data: the sector of the file's inode, 15 bytes of name,
    and the flag [in_use]. *)
From S2P Require Import Prelude Mem Bitmap Inode.

Definition NAME_MAX : Z := 14.

(** ** Directory entries *)
Definition ENTRY_SIZE : Z := 20.
Definition e_sector (e : list Z) : Z :=
  e !!! 0%nat + 256 * e !!! 1%nat + 65536 * e !!! 2%nat + 16777216 * e !!! 3%nat.
(** The C string that starts the 15 bytes of the name. *)
Fixpoint c_string (bs : list Z) : list Z :=
  match bs with
  | [] => []
  | b :: bs => if b =? 0 then [] else b :: c_string bs
  end.
Definition e_name (e : list Z) : list Z := c_string (take 15 (drop 4 e)).
Definition e_in_use (e : list Z) : bool := negb (e !!! 19%nat =? 0).

(** Assignments to the members; [strlcpy] leaves what follows the terminator. *)
Definition set_in_use (e : list Z) (b : bool) : list Z := <[19%nat := if b then 1 else 0]> e.
Definition set_name (e name : list Z) : list Z :=
  let str := take 14 name ++ [0] in
  take 4 e ++ str ++ drop (4 + length str) e.
Definition set_sector (e : list Z) (sec : Z) : list Z := word_bytes sec ++ drop 4 e.

Definition get_dir (s : fs) (p : Z) : res dir :=
  match dirs s !! p with Some d => Ret d | None => Stuck end.

(** ** Opening and closing *)
Definition dir_create (s : fs) (sec entry_cnt : Z) : res (bool * fs) :=
  inode_create s sec (s32 (entry_cnt * ENTRY_SIZE)).

Definition dir_open (s : fs) (ip : Z) : res (Z * fs) :=
  let '(p, s) := kmalloc s in
  if negb (ip =? NULL) && negb (p =? NULL) then
    Ret (p, set_dirs s (<[p := Dir ip 0]> (dirs s)))
  else s ← inode_close s ip; Ret (NULL, s).
Definition dir_open_root (s : fs) : res (Z * fs) :=
  '(ip, s) ← inode_open s ROOT_DIR_SECTOR; dir_open s ip.
Definition dir_reopen (s : fs) (p : Z) : res (Z * fs) :=
  d ← get_dir s p; s ← inode_reopen s (d_inode d); dir_open s (d_inode d).
Definition dir_close (s : fs) (p : Z) : res fs :=
  if p =? NULL then Ret s else
  d ← get_dir s p;
  s ← inode_close s (d_inode d);
  Ret (set_dirs s (delete p (dirs s))).
Definition dir_get_inode (s : fs) (p : Z) : res Z := d_inode <$> get_dir s p.

(** ** Searching *)

(** The loop of [lookup]: the entry and its offset. *)
Fixpoint lookup_loop (fuel : nat) (s : fs) (ip : Z) (name : list Z) (ofs : Z)
    : res (option (list Z * Z) * fs) :=
  match fuel with
  | O => Stuck
  | S fuel =>
    '(e, s) ← inode_read_at s ip ENTRY_SIZE ofs;
    if Z.of_nat (length e) =? ENTRY_SIZE then
      if e_in_use e && bool_decide (name = e_name e) then Ret (Some (e, ofs), s)
      else lookup_loop fuel s ip name (ofs + ENTRY_SIZE)
    else Ret (None, s)
  end.
(** Rounds enough for every entry of the directory. *)
Definition dir_fuel (s : fs) (ip : Z) : nat :=
  match inodes s !! ip with Some i => S (Z.to_nat (i_length i)) | None => 1 end.
Definition lookup (s : fs) (p : Z) (name : list Z) : res (option (list Z * Z) * fs) :=
  d ← get_dir s p; lookup_loop (dir_fuel s (d_inode d)) s (d_inode d) name 0.

(** The inode opened, or null. *)
Definition dir_lookup (s : fs) (p : Z) (name : list Z) : res (Z * fs) :=
  '(o, s) ← lookup s p name;
  match o with
  | Some (e, _) => inode_open s (e_sector e)
  | None => Ret (NULL, s)
  end.

(** ** Adding and removing *)

(** The search for a free slot: what the buffer holds then, and the offset.  A short
    read replaces only the first bytes of the buffer. *)
Fixpoint slot_loop (fuel : nat) (s : fs) (ip : Z) (e : list Z) (ofs : Z)
    : res (list Z * Z * fs) :=
  match fuel with
  | O => Stuck
  | S fuel =>
    '(bs, s) ← inode_read_at s ip ENTRY_SIZE ofs;
    let e := bs ++ drop (length bs) e in
    if Z.of_nat (length bs) =? ENTRY_SIZE then
      if negb (e_in_use e) then Ret (e, ofs, s)
      else slot_loop fuel s ip e (ofs + ENTRY_SIZE)
    else Ret (e, ofs, s)
  end.

(** [e0]: what the automatic variable [e] happens to contain. *)
Definition dir_add (e0 : list Z) (s : fs) (p : Z) (name : list Z) (inode_sector : Z)
    : res (bool * fs) :=
  d ← get_dir s p;
  if bool_decide (name = []) || (NAME_MAX <? Z.of_nat (length name)) then Ret (false, s) else
  '(o, s) ← lookup s p name;
  match o with
  | Some _ => Ret (false, s)
  | None =>
    '(e, ofs, s) ← slot_loop (dir_fuel s (d_inode d)) s (d_inode d) e0 0;
    let e := set_sector (set_name (set_in_use e true) name) inode_sector in
    '(n, s) ← inode_write_at s (d_inode d) e ofs;
    Ret (n =? ENTRY_SIZE, s)
  end.

Definition dir_remove (s : fs) (p : Z) (name : list Z) : res (bool * fs) :=
  d ← get_dir s p;
  '(o, s) ← lookup s p name;
  match o with
  | None => s ← inode_close s NULL; Ret (false, s)
  | Some (e, ofs) =>
    '(ip, s) ← inode_open s (e_sector e);
    if ip =? NULL then s ← inode_close s ip; Ret (false, s) else
    '(n, s) ← inode_write_at s (d_inode d) (set_in_use e false) ofs;
    if negb (n =? ENTRY_SIZE) then s ← inode_close s ip; Ret (false, s) else
    s ← inode_remove s ip;
    s ← inode_close s ip;
    Ret (true, s)
  end.

Fixpoint readdir_loop (fuel : nat) (s : fs) (p : Z) : res (option (list Z) * fs) :=
  match fuel with
  | O => Stuck
  | S fuel =>
    d ← get_dir s p;
    '(e, s) ← inode_read_at s (d_inode d) ENTRY_SIZE (d_pos d);
    if Z.of_nat (length e) =? ENTRY_SIZE then
      let s := set_dirs s (<[p := Dir (d_inode d) (d_pos d + ENTRY_SIZE)]> (dirs s)) in
      if e_in_use e then Ret (Some (e_name e), s) else readdir_loop fuel s p
    else Ret (None, s)
  end.
Definition dir_readdir (s : fs) (p : Z) : res (option (list Z) * fs) :=
  d ← get_dir s p; readdir_loop (dir_fuel s (d_inode d)) s p.

(** ** The file system *)
Definition filesys_create (e0 : list Z) (s : fs) (name : list Z) (initial_size : Z)
    : res (bool * fs) :=
  '(p, s) ← dir_open_root s;
  '(success, inode_sector, s) ←
    (if p =? NULL then Ret (false, 0, s) else
     '(o, s) ← free_map_allocate s 1;
     match o with
     | None => Ret (false, 0, s)
     | Some inode_sector =>
       '(ok, s) ← inode_create s inode_sector initial_size;
       if negb ok then Ret (false, inode_sector, s) else
       '(ok, s) ← dir_add e0 s p name inode_sector;
       Ret (ok, inode_sector, s)
     end);
  s ← (if negb success && negb (inode_sector =? 0) then free_map_release s inode_sector 1
       else Ret s);
  s ← dir_close s p;
  Ret (success, s).

(** The file opened, or null. *)
Definition filesys_open (s : fs) (name : list Z) : res (Z * fs) :=
  '(p, s) ← dir_open_root s;
  '(ip, s) ← (if p =? NULL then Ret (NULL, s) else dir_lookup s p name);
  s ← dir_close s p;
  file_open s ip.

Definition filesys_remove (s : fs) (name : list Z) : res (bool * fs) :=
  '(p, s) ← dir_open_root s;
  '(success, s) ← (if p =? NULL then Ret (false, s) else dir_remove s p name);
  s ← dir_close s p;
  Ret (success, s).

Definition do_format (s : fs) : res fs :=
  s ← free_map_create s;
  '(ok, s) ← dir_create s ROOT_DIR_SECTOR 16;
  if negb ok then Panic else free_map_close s.

Definition filesys_init (words : list Z) (s : fs) (format : bool) : res fs :=
  s ← free_map_init (inode_init s) words;
  s ← (if format then do_format s else Ret s);
  free_map_open s.
Definition filesys_done (s : fs) : res fs := free_map_close s.

(** ** Directories as maps from names to sectors *)
Definition holds (name e : list Z) : bool := e_in_use e && bool_decide (name = e_name e).
Fixpoint dir_find (es : list (list Z)) (name : list Z) : option Z :=
  match es with
  | [] => None
  | e :: es => if holds name e then Some (e_sector e) else dir_find es name
  end.

(** The entries in the data of inode [i]. *)
Definition n_entries (i : inode) : Z := i_length i / 20.
Definition entry_at (d : mem) (i : inode) (k : Z) : list Z := bytes_at d (data_addr i (20 * k)) 20.
Definition dir_entries (d : mem) (i : inode) : list (list Z) := entry_at d i <$> seqZ 0 (n_entries i).

Lemma lookup_dir_entries d i (k : nat) :
  dir_entries d i !! k = if decide (Z.of_nat k < n_entries i) then Some (entry_at d i (Z.of_nat k)) else None.
Proof.
  unfold dir_entries. rewrite list_lookup_fmap. case_decide.
  - rewrite lookup_seqZ_lt by lia. done.
  - by rewrite lookup_seqZ_ge by lia.
Qed.

(** Calls that only allocate and free memory. *)
Definition quiet (s s' : fs) : Prop := s' = set_mem_ok s (mem_ok s') ∧ plenty s'.
Lemma quiet_after s k : plenty s → quiet s (after_mallocs s k).
Proof. intros H. split; [done|]. intros j. apply H. Qed.
Lemma quiet_refl s : plenty s → quiet s s.
Proof. intros H. split; [by destruct s|done]. Qed.
Lemma quiet_trans s1 s2 s3 : quiet s1 s2 → quiet s2 s3 → quiet s1 s3.
Proof. intros [-> _] [-> H]. by split. Qed.

(** A read of one entry: all of it, or past the last entry less than that. *)
Lemma read_entry s p i k :
  inodes s !! p = Some i → extent_ok s i → plenty s → 0 ≤ k →
  ∃ e s', inode_read_at s p ENTRY_SIZE (20 * k) = Ret (e, s') ∧ quiet s s' ∧ Forall is_byte e
    ∧ if decide (k < n_entries i) then e = entry_at (disk s) i k else (length e < 20)%nat.
Proof.
  intros Hp Hx Hm Hk.
  destruct (inode_read_at_spec s p i ENTRY_SIZE (20 * k) Hp Hx) as (n & j & -> & Hj & Hn & Hall);
    [lia|].
  eexists _, _. split; [done|]. split; [by apply quiet_after|].
  split; [apply bytes_at_bytes|]. rewrite (Hall (Hm 0%nat)). unfold available, n_entries, ENTRY_SIZE in *. case_decide as Hlt.
  - unfold entry_at. f_equal. Z.to_euclidean_division_equations. lia.
  - rewrite length_bytes_at. Z.to_euclidean_division_equations. lia.
Qed.

Lemma quiet_inode s s' : quiet s s' → inodes s' = inodes s ∧ disk s' = disk s ∧ dev_size s' = dev_size s.
Proof. by intros [-> _]. Qed.

Lemma quiet_extent s s' i : quiet s s' → extent_ok s i → extent_ok s' i.
Proof. intros [-> _] []. by split. Qed.

Lemma length_entry_at d i k : length (entry_at d i k) = 20%nat.
Proof. unfold entry_at. by rewrite length_bytes_at. Qed.

Lemma drop_entries d i k :
  0 ≤ k < n_entries i →
  drop (Z.to_nat k) (dir_entries d i) = entry_at d i k :: drop (Z.to_nat (k + 1)) (dir_entries d i).
Proof.
  intros Hk. rewrite (drop_S _ (entry_at d i k)).
  - do 2 f_equal. lia.
  - rewrite lookup_dir_entries, decide_True by lia. f_equal. f_equal. lia.
Qed.
Lemma drop_entries_end d i k : n_entries i ≤ k → drop (Z.to_nat k) (dir_entries d i) = [].
Proof. intros. apply drop_ge. unfold dir_entries. rewrite length_fmap, length_seqZ. lia. Qed.

(** What the search returns for the entries [es] from number [k] on. *)
Definition found (es : list (list Z)) (k : Z) (name : list Z) (o : option (list Z * Z)) : Prop :=
  match o with
  | Some (e, ofs) => ∃ j : nat, es !! j = Some e ∧ ofs = 20 * (k + Z.of_nat j) ∧ holds name e = true
                     ∧ dir_find es name = Some (e_sector e)
  | None => dir_find es name = None
  end.

Lemma lookup_loop_spec fuel : ∀ s p i name k,
  inodes s !! p = Some i → extent_ok s i → plenty s → 0 ≤ k → n_entries i - k < Z.of_nat fuel →
  (0 < fuel)%nat →
  ∃ o s', lookup_loop fuel s p name (20 * k) = Ret (o, s') ∧ quiet s s'
    ∧ found (drop (Z.to_nat k) (dir_entries (disk s) i)) k name o.
Proof.
  induction fuel as [|fuel IH]; intros s p i name k Hp Hx Hm Hk Hf Hf0; [lia|]. cbn [lookup_loop].
  destruct (read_entry s p i k Hp Hx Hm Hk) as (e & s1 & -> & Hq & _ & He). rewrite bind_Ret.
  destruct (quiet_inode _ _ Hq) as (E1 & E2 & E3). case_decide as Hlt.
  - rewrite drop_entries by lia. subst e. rewrite length_entry_at. cbn [Z.eqb Z.of_nat ENTRY_SIZE].
    change (Z.of_nat 20 =? ENTRY_SIZE) with true. cbn iota.
    set (e := entry_at (disk s) i k). fold (holds name e). destruct (holds name e) eqn:Eh.
    { exists (Some (e, 20 * k)), s1. split; [done|]. split; [done|]. exists 0%nat.
      cbn [list_lookup lookup dir_find]. rewrite Eh. split_and!; try done; lia. }
    replace (20 * k + ENTRY_SIZE) with (20 * (k + 1)) by (unfold ENTRY_SIZE; lia).
    destruct (IH s1 p i name (k + 1)) as (o & s2 & -> & Hq' & Ho);
      [by rewrite E1|by eapply quiet_extent|apply Hq|lia|lia|lia|].
    exists o, s2. split; [done|]. split; [by eapply quiet_trans|]. rewrite E2 in Ho.
    destruct o as [[e' ofs]|]; cbn [found dir_find] in *; rewrite Eh; [|done].
    destruct Ho as (j & ? & ? & ? & ?). exists (S j). split_and!; try done. lia.
  - rewrite drop_entries_end by lia. unfold ENTRY_SIZE. destruct (Z.eqb_spec (Z.of_nat (length e)) 20); [lia|].
    by exists None, s1.
Qed.

(** The offset of the first free slot, or of the end of the entries. *)
Definition free_slot (es : list (list Z)) (k : nat) : Prop :=
  (∀ j e, (j < k)%nat → es !! j = Some e → e_in_use e = true)
  ∧ (match es !! k with Some e => e_in_use e = false | None => k = length es end).

Lemma slot_loop_spec fuel : ∀ s p i e0 k,
  inodes s !! p = Some i → extent_ok s i → plenty s → 0 ≤ k → n_entries i - k < Z.of_nat fuel →
  (0 < fuel)%nat → length e0 = 20%nat → Forall is_byte e0 →
  ∃ e s' (j : nat), slot_loop fuel s p e0 (20 * k) = Ret (e, 20 * (k + Z.of_nat j), s') ∧ quiet s s'
    ∧ length e = 20%nat ∧ Forall is_byte e
    ∧ free_slot (drop (Z.to_nat k) (dir_entries (disk s) i)) j.
Proof.
  induction fuel as [|fuel IH]; intros s p i e0 k Hp Hx Hm Hk Hf Hf0 He0 Hb0; [lia|].
  cbn [slot_loop].
  destruct (read_entry s p i k Hp Hx Hm Hk) as (e & s1 & -> & Hq & Hbe & He). rewrite bind_Ret.
  destruct (quiet_inode _ _ Hq) as (E1 & E2 & E3). case_decide as Hlt.
  - rewrite drop_entries by lia. subst e. rewrite length_entry_at, drop_ge, app_nil_r by lia.
    change (Z.of_nat 20 =? ENTRY_SIZE) with true. cbn iota.
    set (e := entry_at (disk s) i k) in *. destruct (e_in_use e) eqn:Eu; cbn [negb].
    2:{ exists e, s1, 0%nat. rewrite Z.add_0_r.
        split; [done|]. split; [done|]. split; [apply length_entry_at|]. split; [done|].
        split; [lia|done]. }
    replace (20 * k + ENTRY_SIZE) with (20 * (k + 1)) by (unfold ENTRY_SIZE; lia).
    destruct (IH s1 p i e (k + 1)) as (e' & s2 & j & -> & Hq' & Hl & Hb & Hfs);
      [by rewrite E1|by eapply quiet_extent|apply Hq|lia|lia|lia|apply length_entry_at
      |done|].
    exists e', s2, (S j). split; [do 2 f_equal; f_equal; lia|].
    split_and!; auto; [by eapply quiet_trans|].
    rewrite E2 in Hfs. destruct Hfs as [Hfs1 Hfs2]. split.
    + intros [|j'] e'' Hj' He''; [by simplify_eq/=|]. apply (Hfs1 j'); [lia|done].
    + cbn. destruct (_ !! j); [done|by subst].
  - rewrite drop_entries_end by lia. unfold ENTRY_SIZE in *.
    destruct (Z.eqb_spec (Z.of_nat (length e)) 20); [lia|].
    eexists _, s1, 0%nat. rewrite Z.add_0_r. split_and!; auto.
    + rewrite length_app, length_drop. lia.
    + apply Forall_app. split; [done|by apply Forall_drop].
    + split; [lia|done].
Qed.

(** *** The entry written by [dir_add] *)
Definition name_ok (name : list Z) : Prop :=
  name ≠ [] ∧ Z.of_nat (length name) ≤ NAME_MAX ∧ Forall (λ c, 0 < c < 256) name.
Definition new_entry (e name : list Z) (sec : Z) : list Z :=
  set_sector (set_name (set_in_use e true) name) sec.

Lemma c_string_app name bs : Forall (λ c, 0 < c < 256) name → c_string (name ++ 0 :: bs) = name.
Proof.
  induction 1 as [|c name Hc _ IH]; [done|]. cbn. destruct (Z.eqb_spec c 0); [lia|]. by rewrite IH.
Qed.

Section NewEntry.
Context (e name : list Z) (sec : Z).
Hypotheses (He : length e = 20%nat) (Hb : Forall is_byte e) (Hn : name_ok name) (Hs : is_u32 sec).

(** The parts of the entry, in the order of the structure. *)
Lemma new_entry_parts :
  ∃ tl, new_entry e name sec = word_bytes sec ++ name ++ 0 :: tl ++ [1]
    ∧ (5 + length name + length tl = 19)%nat ∧ Forall is_byte tl.
Proof using He Hb Hn.
  destruct Hn as (Hne & Hlen & Hc). unfold NAME_MAX in Hlen.
  unfold new_entry, set_sector, set_name, set_in_use.
  rewrite (take_ge name) by lia.
  rewrite drop_app_ge, length_take, length_insert, He by (rewrite length_take, length_insert; lia).
  replace (4 - 4 `min` 20)%nat with 0%nat by done. rewrite drop_0.
  rewrite <- !app_assoc. cbn [app]. rewrite length_app. cbn [length].
  exists (drop (4 + (length name + 1)) (take 19 e)). split_and!.
  - do 3 f_equal. rewrite insert_take_drop by lia. rewrite drop_app_le by (rewrite length_take; lia).
    f_equal. rewrite drop_ge by lia. done.
  - rewrite length_drop, length_take. lia.
  - by apply Forall_drop, Forall_take.
Qed.

Lemma new_entry_ok :
  length (new_entry e name sec) = 20%nat ∧ Forall is_byte (new_entry e name sec)
  ∧ e_in_use (new_entry e name sec) = true ∧ e_name (new_entry e name sec) = name
  ∧ e_sector (new_entry e name sec) = sec.
Proof using He Hb Hn Hs.
  destruct new_entry_parts as (tl & -> & Hl & Htl). destruct Hn as (Hne & Hlen & Hc).
  split_and!.
  - rewrite !length_app. cbn [length]. rewrite length_app. cbn. lia.
  - apply Forall_app. split.
    { unfold word_bytes. repeat constructor; apply Z.mod_pos_bound; lia. }
    apply Forall_app. split; [eapply Forall_impl; [exact Hc|]; unfold is_byte; lia|].
    constructor; [unfold is_byte; lia|]. apply Forall_app. split; [done|].
    constructor; [unfold is_byte; lia|done].
  - unfold e_in_use. rewrite (list_lookup_total_correct _ _ 1); [done|].
    rewrite lookup_app_r by (cbn; lia). cbn [length word_bytes].
    rewrite lookup_app_r by lia. replace (19 - 4 - length name)%nat with (S (length tl)) by lia.
    rewrite app_comm_cons, lookup_app_r by (cbn; lia). cbn [length]. by rewrite Nat.sub_diag.
  - unfold e_name. rewrite drop_app_length' by done.
    rewrite take_app_ge by (unfold NAME_MAX in *; lia).
    destruct (15 - length name)%nat as [|n] eqn:E; [unfold NAME_MAX in *; lia|]. cbn [take].
    by apply c_string_app.
  - unfold e_sector, word_bytes. cbn [app lookup_total list_lookup_total].
    unfold is_u32 in Hs. Z.to_euclidean_division_equations. lia.
Qed.
End NewEntry.

(** ** The map after an addition or a removal *)
Lemma dir_entries_proper i : Proper (disk_eq ==> eq) (λ d, dir_entries d i).
Proof. intros d d' H. apply list_fmap_ext. intros k x _. unfold entry_at. by rewrite H. Qed.

Lemma dir_entries_write d i k e :
  0 ≤ k < n_entries i → length e = 20%nat → Forall is_byte e →
  dir_entries (write_bytes d (data_addr i (20 * k)) e) i = <[Z.to_nat k := e]> (dir_entries d i).
Proof.
  intros Hk He Hb. apply list_eq. intros j. rewrite lookup_dir_entries.
  destruct (decide (j = Z.to_nat k)) as [->|Hne].
  - rewrite list_lookup_insert_eq
      by (unfold dir_entries; rewrite length_fmap, length_seqZ; lia).
    rewrite decide_True by lia. f_equal. rewrite Z2Nat.id by lia. unfold entry_at.
    pose proof (bytes_at_write_same d (data_addr i (20 * k)) e Hb) as E. by rewrite He in E.
  - rewrite list_lookup_insert_ne, lookup_dir_entries by done. case_decide; [|done].
    f_equal. unfold entry_at, data_addr. apply bytes_at_write_other. rewrite He. lia.
Qed.

Lemma dir_find_insert_new es k e e' name n :
  es !! k = Some e → e_in_use e = false → e_in_use e' = true → e_name e' = name →
  dir_find es name = None →
  dir_find (<[k := e']> es) n = if decide (n = name) then Some (e_sector e') else dir_find es n.
Proof.
  intros Hk He He' Hn. revert k Hk. induction es as [|x es IH]; intros k Hk Hnone; [done|].
  cbn [dir_find] in Hnone. destruct (holds name x) eqn:Ex; [done|].
  destruct k as [|k]; cbn [insert list_insert dir_find].
  - injection Hk as ->. unfold holds. rewrite He, He', Hn. cbn [andb].
    destruct (decide (n = name)) as [->|]; [by rewrite bool_decide_true|by rewrite bool_decide_false].
  - destruct (decide (n = name)) as [->|].
    + rewrite Ex. by apply IH.
    + destruct (holds n x); [done|]. by apply IH.
Qed.

(** The names in use are different. *)
Definition names_distinct (es : list (list Z)) : Prop :=
  ∀ j k e e', es !! j = Some e → es !! k = Some e' → e_in_use e = true → e_in_use e' = true →
  e_name e = e_name e' → j = k.

Lemma dir_find_none es name : dir_find es name = None ↔ ∀ k e, es !! k = Some e → holds name e = false.
Proof.
  induction es as [|x es IH]; cbn [dir_find]; [done|]. split.
  - destruct (holds name x) eqn:Ex; [done|]. intros H [|k] e Hk; [by simplify_eq/=|].
    by eapply IH.
  - intros H. rewrite (H 0%nat x eq_refl). apply IH. intros k e Hk. by apply (H (S k)).
Qed.

Lemma dir_find_insert_free es k e e' n :
  names_distinct es → es !! k = Some e → e_in_use e = true → e_in_use e' = false →
  dir_find (<[k := e']> es) n = if decide (n = e_name e) then None else dir_find es n.
Proof.
  intros Hd Hk He He'. case_decide as Hn.
  - apply dir_find_none. intros j x Hx. destruct (decide (j = k)) as [->|Hne].
    { rewrite list_lookup_insert_eq in Hx by (by eapply lookup_lt_Some). simplify_eq.
      unfold holds. by rewrite He'. }
    rewrite list_lookup_insert_ne in Hx by done. unfold holds.
    destruct (e_in_use x) eqn:Eu; [|done]. cbn. apply bool_decide_eq_false. intros Hx'.
    apply Hne. eapply Hd; [exact Hx|exact Hk|done..|congruence].
  - clear Hd. revert k Hk. induction es as [|x es IH]; intros k Hk; [done|].
    destruct k as [|k]; cbn [insert list_insert dir_find].
    + injection Hk as ->. unfold holds. rewrite He, He'. cbn [andb].
      by rewrite bool_decide_false.
    + by rewrite IH.
Qed.

Lemma names_distinct_insert es k e' :
  names_distinct es → (e_in_use e' = true → dir_find es (e_name e') = None) →
  names_distinct (<[k := e']> es).
Proof.
  intros Hd Hnew a b x y Ha Hb Hx Hy Hxy.
  assert (Hcase : ∀ j z, <[k := e']> es !! j = Some z → j = k ∧ z = e' ∨ j ≠ k ∧ es !! j = Some z).
  { intros j z [(?&?&?)|]%list_lookup_insert_Some; naive_solver. }
  assert (Hclash : ∀ j z, es !! j = Some z → e_in_use z = true → e_in_use e' = true →
                   e_name z ≠ e_name e').
  { intros j z Hj Hz He' E. apply Hnew in He'. rewrite dir_find_none in He'.
    specialize (He' _ _ Hj). unfold holds in He'. rewrite Hz in He'. cbn in He'.
    by apply bool_decide_eq_false in He'. }
  destruct (Hcase _ _ Ha) as [[-> ->]|[? Ha']], (Hcase _ _ Hb) as [[-> ->]|[? Hb']]; [done| | |].
  - by destruct (Hclash _ _ Hb' Hy Hx).
  - by destruct (Hclash _ _ Ha' Hx Hy).
  - by eapply Hd.
Qed.

(** A directory open at [p]: its inode, which can be written. *)
Record dir_at (s : fs) (p : Z) (d : dir) (i : inode) : Prop := {
  da_dir : dirs s !! p = Some d;
  da_inode : inodes s !! d_inode d = Some i;
  da_extent : extent_ok s i;
}.

Lemma quiet_dir_at s s' p d i : quiet s s' → dir_at s p d i → dir_at s' p d i.
Proof. intros [-> _] [? ? []]. by split. Qed.

Lemma n_entries_bound i : 0 ≤ i_length i → 0 ≤ n_entries i ≤ i_length i.
Proof. unfold n_entries. intros. Z.to_euclidean_division_equations. lia. Qed.

Lemma lookup_spec s p d i name :
  dir_at s p d i → plenty s →
  ∃ o s', lookup s p name = Ret (o, s') ∧ quiet s s' ∧ found (dir_entries (disk s) i) 0 name o.
Proof.
  intros [Hd Hi Hx] Hm. unfold lookup, get_dir, dir_fuel. rewrite Hd, bind_Ret, Hi.
  pose proof (n_entries_bound i (ex_length _ _ Hx)).
  apply (lookup_loop_spec _ s (d_inode d) i name 0); try done; lia.
Qed.

(** The outcome of [dir_add], for the entries before and after. *)
Definition dir_added (name : list Z) (sec : Z) (es es' : list (list Z)) (ok : bool) : Prop :=
  if ok then
    dir_find es name = None
    ∧ ∀ n, dir_find es' n = if decide (n = name) then Some sec else dir_find es n
  else es' = es ∧ (dir_find es name ≠ None ∨ ∀ k e, es !! k = Some e → e_in_use e = true).

(** What a directory operation leaves alone. *)
Record dir_frame (s s' : fs) (i : inode) : Prop := {
  df_same : same_objects s s';
  df_map : free_map s' = free_map s;
  df_plenty : plenty s';
  df_disk : disk_outside (data_addr i 0) (data_addr i (i_length i)) s s';
}.

Lemma quiet_frame s s' i : quiet s s' → dir_frame s s' i.
Proof. intros [-> H]. by split. Qed.

(** The write of an entry at slot [k]. *)
Lemma write_entry s p i e k :
  inodes s !! p = Some i → extent_ok s i → deny_write_cnt i = 0 → plenty s →
  length e = 20%nat → Forall is_byte e → 0 ≤ k ≤ n_entries i →
  ∃ n s', inode_write_at s p e (20 * k) = Ret (n, s') ∧ dir_frame s s' i
    ∧ (n =? ENTRY_SIZE) = bool_decide (k < n_entries i)
    ∧ dir_entries (disk s') i
      = if decide (k < n_entries i) then <[Z.to_nat k := e]> (dir_entries (disk s) i)
        else dir_entries (disk s) i.
Proof.
  intros Hp Hx Hw Hm He Hb Hk. pose proof Hx as [_ Hlen _ _].
  destruct (inode_write_at_spec s p i e (20 * k) Hp Hx) as (n & d & j & -> & Hd & Hj & _ & Hall);
    [lia|done|].
  specialize (Hall (Hm 0%nat)). rewrite He in Hall.
  exists n, (written s d j). split; [done|].
  assert (Hn : 0 ≤ n ≤ 20 ∧ 20 * k + n ≤ i_length i ∧ (n = 20 ↔ k < n_entries i)).
  { rewrite Hall. unfold available, n_entries in *. Z.to_euclidean_division_equations. lia. }
  clear Hall. split; [|split].
  - split; [done|done| |].
    + intros k'. apply Hm.
    + intros x Hx'. change (disk (written s d j)) with d.
      rewrite (same_load _ _ Hd), load8_write_bytes, length_take, decide_False; [done|].
      unfold data_addr in *. lia.
  - unfold ENTRY_SIZE. destruct (Z.eqb_spec n 20), (bool_decide_reflect (k < n_entries i)); lia || done.
  - change (disk (written s d j)) with d. rewrite (dir_entries_proper i _ _ Hd).
    case_decide as Hlt.
    + rewrite take_ge by lia. apply dir_entries_write; [lia|done|done].
    + apply list_eq. intros j'. rewrite !lookup_dir_entries. case_decide; [|done]. f_equal.
      unfold entry_at, data_addr. apply bytes_at_write_other. lia.
Qed.

Lemma length_dir_entries d i : length (dir_entries d i) = Z.to_nat (n_entries i).
Proof. unfold dir_entries. by rewrite length_fmap, length_seqZ. Qed.

Lemma dir_frame_trans s1 s2 s3 i : dir_frame s1 s2 i → dir_frame s2 s3 i → dir_frame s1 s3 i.
Proof.
  intros [A1 B1 C1 D1] [A2 B2 C2 D2]. split; [by trans s2|congruence|done|].
  intros x Hx. by rewrite D2, D1.
Qed.

Lemma dir_add_spec e0 s p d i name sec :
  dir_at s p d i → deny_write_cnt i = 0 → plenty s → name_ok name → is_u32 sec →
  length e0 = 20%nat → Forall is_byte e0 →
  ∃ ok s', dir_add e0 s p name sec = Ret (ok, s') ∧ dir_frame s s' i
    ∧ dir_added name sec (dir_entries (disk s) i) (dir_entries (disk s') i) ok
    ∧ (names_distinct (dir_entries (disk s) i) → names_distinct (dir_entries (disk s') i)).
Proof.
  intros Hd Hw Hm Hn Hs He0 Hb0. unfold dir_add, get_dir. rewrite (da_dir _ _ _ _ Hd), bind_Ret.
  pose proof Hn as (Hne & Hlen & _).
  rewrite bool_decide_false by done. destruct (Z.ltb_spec NAME_MAX (Z.of_nat (length name))); [lia|].
  cbn [orb]. destruct (lookup_spec s p d i name Hd Hm) as (o & s1 & -> & Hq & Ho). rewrite bind_Ret.
  destruct (quiet_inode _ _ Hq) as (E1 & E2 & E3).
  destruct o as [[e ofs]|].
  { exists false, s1. rewrite E2. split; [done|]. split; [by apply quiet_frame|]. split; [|done].
    split; [done|]. left. destruct Ho as (? & ? & ? & ? & ->). done. }
  cbn [found] in Ho. destruct (quiet_dir_at _ _ _ _ _ Hq Hd) as [Hd1 Hi1 Hx1].
  pose proof (n_entries_bound i (ex_length _ _ Hx1)) as Hne'.
  destruct (slot_loop_spec (dir_fuel s1 (d_inode d)) s1 (d_inode d) i e0 0 Hi1 Hx1)
    as (e & s2 & j & Esl & Hq2 & Hel & Heb & [Hf1 Hf2]); try done;
    [apply Hq|unfold dir_fuel; rewrite Hi1; lia|unfold dir_fuel; rewrite Hi1; lia|].
  rewrite Z.mul_0_r in Esl. rewrite Esl, bind_Ret. fold (new_entry e name sec). rewrite E2, drop_0 in Hf1, Hf2. rewrite Z.add_0_l.
  pose proof (quiet_trans _ _ _ Hq Hq2) as Hq'. destruct (quiet_inode _ _ Hq') as (E1' & E2' & E3').
  destruct (quiet_dir_at _ _ _ _ _ Hq' Hd) as [Hd2 Hi2 Hx2].
  destruct (new_entry_ok e name sec Hel Heb Hn Hs) as (Hnl & Hnb & Hnu & Hnn & Hns).
  set (es := dir_entries (disk s) i) in *.
  assert (Hjn : (j ≤ length es)%nat)
    by (destruct (es !! j) eqn:E; [apply lookup_lt_Some in E|]; lia).
  assert (length es = Z.to_nat (n_entries i)) by apply length_dir_entries.
  destruct (write_entry s2 (d_inode d) i (new_entry e name sec) (Z.of_nat j))
    as (n & s3 & -> & Hfr & Hok & Hes); try done; [apply Hq2|lia|].
  rewrite bind_Ret, Hok. exists (bool_decide (Z.of_nat j < n_entries i)), s3.
  split; [done|]. split; [eapply dir_frame_trans; [by apply quiet_frame|done]|].
  rewrite Hes, E2'. fold es. destruct (decide (Z.of_nat j < n_entries i)) as [Hlt|Hge].
  - rewrite bool_decide_true, Nat2Z.id by done.
    destruct (lookup_lt_is_Some_2 es j ltac:(lia)) as [e1 He1]. rewrite He1 in Hf2. split.
    + split; [done|]. intros m. rewrite (dir_find_insert_new es j e1 _ name) by done. by rewrite Hns.
    + intros. apply names_distinct_insert; [done|]. by rewrite Hnn.
  - rewrite bool_decide_false by done. split; [|done]. split; [done|]. right. intros k e1 Hk.
    apply (Hf1 k); [|done]. apply lookup_lt_Some in Hk. lia.
Qed.
