(* ===== verification/FileTable.v ===== *)
(** * Reference counts of open inodes (filesys/inode.c, file.c, directory.c)

    An inode in memory is shared by the files and directories open on it.  [open_cnt]
    counts them and decides when it is freed; [deny_write_cnt] counts the files that
    deny writes.  The invariant ties both counters to the objects that refer to the
    inode, in every state reached by any sequence of calls. *)
From S2P Require Import Prelude Mem Bitmap Inode Directory.

(** ** The invariant *)
Definition of_file (p : Z) (f : file) : bool := f_inode f =? p.
Definition of_dir (p : Z) (d : dir) : bool := d_inode d =? p.
Definition denies (p : Z) (f : file) : bool := (f_inode f =? p) && deny_write f.
Definition owned (p : Z) (own : list Z) : Z := Z.of_nat (length (filter (λ q, q = p) own)).

(** The references to inode [p]: open files, open directories, and the local variables
    [own] of the code that runs. *)
Definition refs (own : list Z) (fl : gmap Z file) (dl : gmap Z dir) (p : Z) : Z :=
  count (of_file p) fl + count (of_dir p) dl + owned p own.

Record refs_ok (own : list Z) (ino : gmap Z inode) (opn : list Z) (fl : gmap Z file)
    (dl : gmap Z dir) : Prop := {
  r_nodup : NoDup opn;
  r_open : ∀ p, p ∈ opn ↔ is_Some (ino !! p);
  r_null : ino !! NULL = None;
  r_sector : ∀ p q i j, ino !! p = Some i → ino !! q = Some j → sector i = sector j → p = q;
  r_count : ∀ p i, ino !! p = Some i →
              open_cnt i = refs own fl dl p ∧ 0 < open_cnt i ∧ deny_write_cnt i = count (denies p) fl;
  r_file : ∀ q f, fl !! q = Some f → is_Some (ino !! f_inode f);
  r_dir : ∀ q d, dl !! q = Some d → is_Some (ino !! d_inode d);
  r_own : ∀ p, p ∈ own → is_Some (ino !! p);
}.
Definition objects_ok (own : list Z) (s : fs) : Prop :=
  refs_ok own (inodes s) (open_inodes s) (files s) (dirs s).

Lemma denies_le p fl : count (denies p) fl ≤ count (of_file p) fl.
Proof. apply count_le. unfold denies, of_file. intros f. by destruct (_ =? _). Qed.
Lemma owned_cons p q own : owned p (q :: own) = owned p own + (if decide (q = p) then 1 else 0).
Proof. unfold owned. rewrite filter_cons. case_decide; cbn; lia. Qed.
Lemma owned_zero p own : (∀ q, q ∈ own → q ≠ p) → owned p own = 0.
Proof.
  induction own as [|q own IH]; intros H; [done|]. rewrite owned_cons, IH.
  - rewrite decide_False; [done|]. apply H. left.
  - intros r Hr. apply H. by right.
Qed.
Lemma owned_nonneg p own : 0 ≤ owned p own.
Proof. unfold owned. lia. Qed.

(** ** How each change of the objects keeps the invariant *)
Section Update.
Context (own : list Z) (ino : gmap Z inode) (opn : list Z) (fl : gmap Z file) (dl : gmap Z dir).

(** Two inodes that differ only in their counters and marks. *)
Definition same_place (i j : inode) : Prop := sector i = sector j.

(** Replacing an inode: what is left to show are the counters. *)
Lemma refs_update own' p i j fl' dl' :
  refs_ok own ino opn fl dl → ino !! p = Some i → same_place i j →
  (∀ q f, fl' !! q = Some f → is_Some (ino !! f_inode f)) →
  (∀ q d, dl' !! q = Some d → is_Some (ino !! d_inode d)) →
  (∀ q, q ∈ own' → is_Some (ino !! q)) →
  open_cnt j = refs own' fl' dl' p → 0 < open_cnt j → deny_write_cnt j = count (denies p) fl' →
  (∀ q, q ≠ p → is_Some (ino !! q) →
     refs own' fl' dl' q = refs own fl dl q ∧ count (denies q) fl' = count (denies q) fl) →
  refs_ok own' (<[p := j]> ino) opn fl' dl'.
Proof.
  intros [H1 H2 H3 H4 H5 H6 H7 H8] Hp Hs Hf Hd Ho Hc Hpos Hdn Hother.
  assert (Hsome : ∀ q, is_Some (<[p := j]> ino !! q) ↔ is_Some (ino !! q)).
  { intros q. destruct (decide (p = q)) as [<-|].
    - rewrite lookup_insert_eq, Hp. split; by eauto.
    - by rewrite lookup_insert_ne. }
  assert (Hsec : ∀ q k, <[p := j]> ino !! q = Some k → ∃ k', ino !! q = Some k' ∧ sector k' = sector k).
  { intros q k [[<- <-]|[? ?]]%lookup_insert_Some; eauto. }
  split; try done.
  - intros q. by rewrite Hsome.
  - rewrite lookup_insert_ne; [done|]. intros ->. by rewrite H3 in Hp.
  - intros q r k l (k' & Hk & Ek)%Hsec (l' & Hl & El)%Hsec E. eapply H4; [done..|congruence].
  - intros q k [[<- <-]|[? Hk]]%lookup_insert_Some; [done|].
    destruct (Hother q) as [E1 E2]; [done|eauto|]. rewrite E1, E2. by apply H5.
  - intros q f Hq. apply Hsome. by eapply Hf.
  - intros q d Hq. apply Hsome. by eapply Hd.
  - intros q Hq. by apply Hsome, Ho.
Qed.

End Update.

Section Transitions.
Context (own : list Z) (ino : gmap Z inode) (opn : list Z) (fl : gmap Z file) (dl : gmap Z dir).

Lemma refs_reopen p i :
  refs_ok own ino opn fl dl → ino !! p = Some i →
  refs_ok (p :: own) (<[p := with_count i (open_cnt i + 1)]> ino) opn fl dl.
Proof.
  intros H Hp. pose proof (r_count _ _ _ _ _ H _ _ Hp) as (E1 & E2 & E3).
  apply (refs_update own _ _ fl dl _ p i); try done; [by eapply r_file|by eapply r_dir|..].
  - intros q [->|Hq]%elem_of_cons; [by eauto|by eapply r_own].
  - cbn. unfold refs in *. rewrite owned_cons, decide_True by done. lia.
  - cbn. lia.
  - intros q Hq _. unfold refs. rewrite owned_cons, decide_False by done. split; lia.
Qed.

Lemma unreferenced p :
  refs_ok own ino opn fl dl → ino !! p = None →
  count (of_file p) fl = 0 ∧ count (of_dir p) dl = 0 ∧ owned p own = 0 ∧ count (denies p) fl = 0.
Proof.
  intros H Hp.
  assert (Hno : ∀ q, is_Some (ino !! q) → q ≠ p) by (intros q [x Hx] ->; congruence).
  assert (Hf : count (of_file p) fl = 0).
  { apply count_zero. intros q f Hq. apply Z.eqb_neq, Hno. by eapply r_file. }
  split_and!; [done| | |].
  - apply count_zero. intros q f Hq. apply Z.eqb_neq, Hno. by eapply r_dir.
  - apply owned_zero. intros q Hq. apply Hno. by eapply r_own.
  - pose proof (denies_le p fl). pose proof (count_nonneg (denies p) fl). lia.
Qed.

Lemma refs_new p j :
  refs_ok own ino opn fl dl → ino !! p = None → p ≠ NULL → open_cnt j = 1 → deny_write_cnt j = 0 →
  (∀ q i, ino !! q = Some i → sector i ≠ sector j) →
  refs_ok (p :: own) (<[p := j]> ino) (p :: opn) fl dl.
Proof.
  intros H Hp Hnull Hc Hd Hsec. pose proof (unreferenced p H Hp) as (U1 & U2 & U3 & U4).
  pose proof H as [H1 H2 H3 H4 H5 H6 H7 H8]. split.
  - constructor; [|done]. rewrite H2, Hp. by intros [].
  - intros q. rewrite elem_of_cons, lookup_insert_is_Some', H2. naive_solver.
  - by rewrite lookup_insert_ne.
  - intros q r k l [[<- <-]|[? Hk]]%lookup_insert_Some [[<- <-]|[? Hl]]%lookup_insert_Some E;
      [done| | |by eapply H4].
    + by destruct (Hsec _ _ Hl).
    + by destruct (Hsec _ _ Hk).
  - intros q k [[<- <-]|[? Hk]]%lookup_insert_Some.
    + unfold refs. rewrite owned_cons, decide_True by done. lia.
    + unfold refs. rewrite owned_cons, decide_False, Z.add_0_r by done. by apply H5.
  - intros q f Hq. apply lookup_insert_is_Some'. right. by eapply H6.
  - intros q f Hq. apply lookup_insert_is_Some'. right. by eapply H7.
  - intros q [->|Hq]%elem_of_cons; apply lookup_insert_is_Some'; [by left|right; auto].
Qed.

Lemma refs_drop p i :
  refs_ok (p :: own) ino opn fl dl → ino !! p = Some i → open_cnt i ≠ 1 →
  refs_ok own (<[p := with_count i (open_cnt i - 1)]> ino) opn fl dl.
Proof.
  intros H Hp Hc. pose proof (r_count _ _ _ _ _ H _ _ Hp) as (E1 & E2 & E3).
  assert (Hr : ∀ q, refs (p :: own) fl dl q = refs own fl dl q + (if decide (p = q) then 1 else 0))
    by (intros q; unfold refs; rewrite owned_cons; lia).
  apply (refs_update (p :: own) _ _ fl dl _ p i); try done;
    [by eapply r_file|by eapply r_dir|..].
  - intros q Hq. eapply r_own; [done|by right].
  - cbn. rewrite Hr, decide_True in E1 by done. lia.
  - cbn. lia.
  - intros q Hq _. rewrite Hr, decide_False by done. split; lia.
Qed.

Lemma refs_last p i :
  refs_ok (p :: own) ino opn fl dl → ino !! p = Some i → open_cnt i = 1 →
  refs_ok own (delete p ino) (filter (λ q, q ≠ p) opn) fl dl.
Proof.
  intros H Hp Hc. pose proof (r_count _ _ _ _ _ H _ _ Hp) as (E1 & _ & _).
  assert (Hr : ∀ q, refs (p :: own) fl dl q = refs own fl dl q + (if decide (p = q) then 1 else 0))
    by (intros q; unfold refs; rewrite owned_cons; lia).
  rewrite Hr, decide_True, Hc in E1 by done.
  pose proof (count_nonneg (of_file p) fl) as N1. pose proof (count_nonneg (of_dir p) dl) as N2.
  pose proof (owned_nonneg p own) as N3. unfold refs in E1.
  pose proof H as [H1 H2 H3 H4 H5 H6 H7 H8].
  assert (Hdel : ∀ q, is_Some (ino !! q) → q ≠ p → is_Some (delete p ino !! q))
    by (intros; by rewrite lookup_delete_ne).
  split.
  - by apply NoDup_filter.
  - intros q. rewrite list_elem_of_filter, lookup_delete_is_Some, H2. naive_solver.
  - by apply lookup_delete_None; right.
  - intros q r k l [_ Hk]%lookup_delete_Some [_ Hl]%lookup_delete_Some. by eapply H4.
  - intros q k [Hne Hk]%lookup_delete_Some. destruct (H5 _ _ Hk) as (? & ? & ?).
    rewrite Hr, decide_False in * by done. split_and!; lia || done.
  - intros q f Hq. apply Hdel; [by eapply H6|]. intros E%Z.eqb_eq.
    pose proof (count_pos (of_file p) fl q f Hq E). lia.
  - intros q f Hq. apply Hdel; [by eapply H7|]. intros E%Z.eqb_eq.
    pose proof (count_pos (of_dir p) dl q f Hq E). lia.
  - intros q Hq. apply Hdel; [apply H8; by right|]. intros ->.
    assert (0 < owned p own); [|lia]. clear -Hq. unfold owned.
    assert (Hf : p ∈ filter (λ q, q = p) own) by (by apply list_elem_of_filter).
    destruct (filter _ own); [by apply elem_of_nil in Hf|cbn; lia].
Qed.

(** Handing the reference of a local variable to a new file or directory. *)
Lemma refs_to_file p q :
  refs_ok (p :: own) ino opn fl dl → fl !! q = None →
  refs_ok own ino opn (<[q := File p 0 false]> fl) dl.
Proof.
  intros H Hq. pose proof H as [H1 H2 H3 H4 H5 H6 H7 H8]. split; try done.
  - intros r i Hr. destruct (H5 _ _ Hr) as (E1 & E2 & E3).
    unfold refs in *. rewrite !count_insert by done.
    change (of_file r (File p 0 false)) with (p =? r).
    change (denies r (File p 0 false)) with ((p =? r) && false). rewrite owned_cons in E1. rewrite andb_false_r. split_and!; [|done|lia].
    destruct (Z.eqb_spec p r); case_decide; lia || done.
  - intros r f [[<- <-]|[? Hr]]%lookup_insert_Some; [apply H8; left|by eapply H6].
  - intros r Hr. apply H8. by right.
Qed.
Lemma refs_to_dir p q :
  refs_ok (p :: own) ino opn fl dl → dl !! q = None →
  refs_ok own ino opn fl (<[q := Dir p 0]> dl).
Proof.
  intros H Hq. pose proof H as [H1 H2 H3 H4 H5 H6 H7 H8]. split; try done.
  - intros r i Hr. destruct (H5 _ _ Hr) as (E1 & E2 & E3).
    unfold refs in *. rewrite !count_insert by done.
    change (of_dir r (Dir p 0)) with (p =? r). rewrite owned_cons in E1. split_and!; [|done|lia].
    destruct (Z.eqb_spec p r); case_decide; lia || done.
  - intros r f [[<- <-]|[? Hr]]%lookup_insert_Some; [apply H8; left|by eapply H7].
  - intros r Hr. apply H8. by right.
Qed.
(** And back, when the file or directory goes away. *)
Lemma refs_from_file q f :
  refs_ok own ino opn fl dl → fl !! q = Some f → deny_write f = false →
  refs_ok (f_inode f :: own) ino opn (delete q fl) dl.
Proof.
  intros H Hq Hdn. pose proof H as [H1 H2 H3 H4 H5 H6 H7 H8]. split; try done.
  - intros r i Hr. destruct (H5 _ _ Hr) as (E1 & E2 & E3).
    unfold refs in *. rewrite !(count_delete _ fl q f) by done.
    change (of_file r f) with (f_inode f =? r).
    change (denies r f) with ((f_inode f =? r) && deny_write f). rewrite owned_cons, Hdn, andb_false_r. split_and!; [|done|lia].
    destruct (Z.eqb_spec (f_inode f) r); case_decide; lia || done.
  - intros r g [? Hr]%lookup_delete_Some. by eapply H6.
  - intros r [->|Hr]%elem_of_cons; [by eapply H6|by apply H8].
Qed.
Lemma refs_from_dir q d :
  refs_ok own ino opn fl dl → dl !! q = Some d →
  refs_ok (d_inode d :: own) ino opn fl (delete q dl).
Proof.
  intros H Hq. pose proof H as [H1 H2 H3 H4 H5 H6 H7 H8]. split; try done.
  - intros r i Hr. destruct (H5 _ _ Hr) as (E1 & E2 & E3).
    unfold refs in *. rewrite !(count_delete _ dl q d) by done.
    change (of_dir r d) with (d_inode d =? r). rewrite owned_cons. split_and!; [|done|lia].
    destruct (Z.eqb_spec (d_inode d) r); case_decide; lia || done.
  - intros r g [? Hr]%lookup_delete_Some. by eapply H7.
  - intros r [->|Hr]%elem_of_cons; [by eapply H7|by apply H8].
Qed.
(** Moving the position of a file or directory. *)
Lemma refs_file_pos q f n :
  refs_ok own ino opn fl dl → fl !! q = Some f →
  refs_ok own ino opn (<[q := File (f_inode f) n (deny_write f)]> fl) dl.
Proof.
  intros H Hq. pose proof H as [H1 H2 H3 H4 H5 H6 H7 H8]. split; try done.
  - intros r i Hr. destruct (H5 _ _ Hr) as (E1 & E2 & E3).
    unfold refs in *. rewrite !(count_update _ fl q f) by done. unfold of_file, denies in *. cbn. lia.
  - intros r g [[<- <-]|[? Hr]]%lookup_insert_Some; [cbn|]; by eapply H6.
Qed.
Lemma refs_dir_pos q d n :
  refs_ok own ino opn fl dl → dl !! q = Some d →
  refs_ok own ino opn fl (<[q := Dir (d_inode d) n]> dl).
Proof.
  intros H Hq. pose proof H as [H1 H2 H3 H4 H5 H6 H7 H8]. split; try done.
  - intros r i Hr. destruct (H5 _ _ Hr) as (E1 & E2 & E3).
    unfold refs in *. rewrite !(count_update _ dl q d) by done. unfold of_dir in *. cbn. lia.
  - intros r g [[<- <-]|[? Hr]]%lookup_insert_Some; [cbn|]; by eapply H7.
Qed.
(** Setting or clearing the flag of a file together with the inode's counter. *)
Lemma refs_deny q f i b :
  refs_ok own ino opn fl dl → fl !! q = Some f → ino !! f_inode f = Some i → deny_write f ≠ b →
  refs_ok own
    (<[f_inode f := Inode (sector i) (open_cnt i) (removed i)
         (deny_write_cnt i + (if b then 1 else -1)) (start i) (i_length i) (magic i)]> ino)
    opn (<[q := File (f_inode f) (f_pos f) b]> fl) dl.
Proof.
  intros H Hq Hi Hb. pose proof (r_count _ _ _ _ _ H _ _ Hi) as (E1 & E2 & E3).
  apply (refs_update own _ _ fl dl _ _ i); try done.
  - intros r g [[<- <-]|[? Hr]]%lookup_insert_Some; [cbn; by eauto|by eapply r_file].
  - by eapply r_dir.
  - by eapply r_own.
  - cbn. unfold refs in *. rewrite (count_update _ fl q f) by done. unfold of_file in *. cbn. lia.
  - cbn. rewrite (count_update _ fl q f) by done. unfold denies in *. cbn. rewrite Z.eqb_refl. cbn.
    destruct (deny_write f), b; (done || lia).
  - intros r Hr _. unfold refs. rewrite !(count_update _ fl q f) by done.
    unfold of_file, denies. cbn. destruct (Z.eqb_spec (f_inode f) r); [congruence|]. cbn. lia.
Qed.
End Transitions.

(** ** Operations that leave the objects alone *)
Definition objs (s : fs) : gmap Z inode * list Z * gmap Z file * gmap Z dir :=
  (inodes s, open_inodes s, files s, dirs s).

Lemma block_write_objs s sec bs s' : block_write s sec bs = Ret s' → objs s' = objs s.
Proof. unfold block_write. case_match; [done|]. by intros [= <-]. Qed.
Lemma get_bounce_objs s b ok s' : get_bounce s b = (ok, s') → objs s' = objs s.
Proof. unfold get_bounce. destruct b; by intros [= _ <-]. Qed.

Lemma read_loop_objs fuel : ∀ s i b size ofs buf buf' s',
  read_loop fuel s i b size ofs buf = Ret (buf', s') → objs s' = objs s.
Proof.
  induction fuel as [|fuel IH]; intros s i b size ofs buf buf' s' H; [done|].
  cbn [read_loop] in H. destruct (0 <? size); [|by simplify_eq].
  destruct (_ <=? 0); [by simplify_eq|]. destruct (_ && _).
  - bind_inv H. by eapply IH.
  - destruct (get_bounce s b) as [ok s1] eqn:E. apply get_bounce_objs in E.
    destruct ok; [|by injection H as _ <-]. bind_inv H. rewrite <- E. by eapply IH.
Qed.
Lemma inode_read_at_objs s p size ofs bs s' : inode_read_at s p size ofs = Ret (bs, s') → objs s' = objs s.
Proof. unfold inode_read_at. intros H. bind_inv H. by eapply read_loop_objs. Qed.

Lemma write_loop_objs fuel : ∀ s i b ofs buf w n s',
  write_loop fuel s i b ofs buf w = Ret (n, s') → objs s' = objs s.
Proof.
  induction fuel as [|fuel IH]; intros s i b ofs buf w n s' H; [done|].
  cbn [write_loop] in H. destruct (0 <? _); [|by simplify_eq].
  destruct (_ <=? 0); [by simplify_eq|]. destruct (_ && _).
  - bind_inv H. apply block_write_objs in H0. rewrite <- H0. by eapply IH.
  - destruct (get_bounce s b) as [ok s1] eqn:E. apply get_bounce_objs in E.
    destruct ok; [|by injection H as _ <-]. bind_inv H. bind_inv H. apply block_write_objs in H1.
    rewrite <- E, <- H1. by eapply IH.
Qed.
Lemma inode_write_at_objs s p bs ofs n s' : inode_write_at s p bs ofs = Ret (n, s') → objs s' = objs s.
Proof.
  unfold inode_write_at. intros H. bind_inv H. destruct (negb _); [by simplify_eq|].
  by eapply write_loop_objs.
Qed.
Lemma bitmap_write_objs s b p ok s' : bitmap_write s b p = Ret (ok, s') → objs s' = objs s.
Proof.
  unfold bitmap_write, file_write_at. intros H. bind_inv H. destruct v as [n s1]. simplify_eq.
  bind_inv H0. by eapply inode_write_at_objs.
Qed.
Lemma free_map_release_objs s sec cnt s' : free_map_release s sec cnt = Ret s' → objs s' = objs s.
Proof.
  unfold free_map_release. intros H. do 4 bind_inv H. destruct v2 as [ok s1]. simplify_eq.
  by apply bitmap_write_objs in H3.
Qed.

(** ** Names *)
Lemma foldr_max_le l k : k ∈ l → k ≤ foldr Z.max 0 l.
Proof. induction 1; cbn; lia. Qed.
Lemma elem_of_keys {A} (m : gmap Z A) k a : m !! k = Some a → k ∈ keys m.
Proof.
  intros H. apply list_elem_of_fmap. exists (k, a). split; [done|]. by apply elem_of_map_to_list.
Qed.
Lemma new_name_fresh s :
  inodes s !! new_name s = None ∧ files s !! new_name s = None ∧ dirs s !! new_name s = None.
Proof.
  assert (Hf : new_name s ∉ keys (inodes s) ++ keys (files s) ++ keys (dirs s)).
  { intros H%foldr_max_le. unfold new_name in H. lia. }
  rewrite !elem_of_app in Hf.
  split_and!; apply eq_None_not_Some; intros [a Ha%elem_of_keys]; tauto.
Qed.

(** ** Operations on inodes *)
Lemma objects_ok_objs own s s' : objs s' = objs s → objects_ok own s → objects_ok own s'.
Proof. unfold objs, objects_ok. intros [= -> -> -> ->]. done. Qed.

Lemma find_open_some s l sec p :
  find_open s l sec = Some p → ∃ i, inodes s !! p = Some i ∧ sector i = sec.
Proof.
  induction l as [|q l IH]; cbn [find_open]; [done|].
  case_bool_decide as E; [|done]. intros [= <-].
  destruct (inodes s !! q) as [i|]; [|done]. injection E as <-. eauto.
Qed.
Lemma find_open_none s l sec :
  find_open s l sec = None → ∀ p i, p ∈ l → inodes s !! p = Some i → sector i ≠ sec.
Proof.
  induction l as [|q l IH]; cbn [find_open]; intros H p i Hp Hi; [by apply elem_of_nil in Hp|].
  case_bool_decide as E; [done|]. apply elem_of_cons in Hp as [->|Hp]; [|by eapply IH].
  intros <-. apply E. by rewrite Hi.
Qed.

Lemma inode_reopen_ok own s p i :
  objects_ok own s → inodes s !! p = Some i →
  ∃ s', inode_reopen s p = Ret s' ∧ objects_ok (p :: own) s'.
Proof.
  intros H Hp. unfold inode_reopen, get_inode.
  destruct (Z.eqb_spec p NULL) as [->|_]; [by rewrite (r_null _ _ _ _ _ H) in Hp|].
  rewrite Hp, bind_Ret. eexists. split; [done|]. by apply refs_reopen.
Qed.

(** Opening a sector: a new inode, or one more reference to the inode of that sector. *)
Lemma inode_open_ok own s sec p s' :
  objects_ok own s → inode_open s sec = Ret (p, s') →
  if decide (p = NULL) then objs s' = objs s
  else objects_ok (p :: own) s' ∧ ∃ i, inodes s' !! p = Some i ∧ sector i = sec.
Proof.
  intros H E. unfold inode_open in E.
  destruct (find_open s (open_inodes s) sec) as [q|] eqn:Ef.
  - apply find_open_some in Ef as (i & Hi & Hs).
    destruct (inode_reopen_ok own s q i H Hi) as (s1 & Er & Hok).
    rewrite Er, bind_Ret in E. injection E as <- <-.
    rewrite decide_False by (intros ->; by rewrite (r_null _ _ _ _ _ H) in Hi).
    split; [done|]. unfold inode_reopen, get_inode in Er.
    destruct (Z.eqb_spec q NULL); [by simplify_eq; eauto|]. rewrite Hi, bind_Ret in Er.
    injection Er as <-. cbn. rewrite lookup_insert_eq. eexists. split; [done|]. done.
  - unfold kmalloc in E. destruct (mem_ok s 0) eqn:Em.
    2:{ rewrite Z.eqb_refl in E. injection E as <- <-. done. }
    pose proof (new_name_pos s) as Hpos. pose proof (new_name_fresh s) as (F1 & F2 & F3).
    destruct (Z.eqb_spec (new_name s) NULL); [unfold NULL in *; lia|].
    bind_inv E. injection E as <- <-. rewrite decide_False by done. cbn. split.
    + apply refs_new; try done. intros q i Hi. eapply find_open_none; [done| |done].
      apply (r_open _ _ _ _ _ H). eauto.
    + rewrite lookup_insert_eq. eexists. by split.
Qed.

(** Closing: what happens to the inodes, for files and directories as they are. *)
Lemma inode_close_effect s p s' :
  inode_close s p = Ret s' → p ≠ NULL →
  ∃ i, inodes s !! p = Some i ∧ files s' = files s ∧ dirs s' = dirs s
    ∧ if decide (open_cnt i = 1) then
        inodes s' = delete p (inodes s) ∧ open_inodes s' = filter (λ q, q ≠ p) (open_inodes s)
      else inodes s' = <[p := with_count i (open_cnt i - 1)]> (inodes s)
           ∧ open_inodes s' = open_inodes s.
Proof.
  unfold inode_close, get_inode. intros E Hp. destruct (Z.eqb_spec p NULL); [done|].
  bind_inv E. destruct (inodes s !! p) as [i|] eqn:Hi; [|done]. injection E0 as <-.
  exists i. split; [done|]. destruct (Z.eqb_spec (open_cnt i - 1) 0) as [Ec|Ec].
  - rewrite decide_True by lia. bind_inv E. injection E as <-.
    assert (objs v = objs (set_inodes s (<[p:=with_count i (open_cnt i - 1)]> (inodes s))
      (filter (λ q, q ≠ p) (open_inodes s)))) as Ho.
    { destruct (removed i); [|by injection E0 as <-]. bind_inv E0.
      apply free_map_release_objs in E0, E1. congruence. }
    unfold objs in Ho. cbn in Ho. injection Ho as Ei Eo Ef Ed. cbn. rewrite Ei, Eo, Ef, Ed.
    by rewrite delete_insert_eq.
  - rewrite decide_False by lia. injection E as <-. done.
Qed.

Lemma refs_close own s p s' fl dl :
  refs_ok (p :: own) (inodes s) (open_inodes s) fl dl → inode_close s p = Ret s' →
  refs_ok own (inodes s') (open_inodes s') fl dl ∧ files s' = files s ∧ dirs s' = dirs s.
Proof.
  intros H E.
  assert (Hp : p ≠ NULL).
  { intros ->. destruct (r_own _ _ _ _ _ H NULL) as [i Hi]; [left|].
    by rewrite (r_null _ _ _ _ _ H) in Hi. }
  destruct (inode_close_effect s p s' E Hp) as (i & Hi & -> & -> & Hc). split; [|done].
  case_decide as Ec; destruct Hc as [-> ->]; [by eapply refs_last|by eapply refs_drop].
Qed.

Lemma inode_close_ok own s p s' :
  objects_ok (p :: own) s → inode_close s p = Ret s' → objects_ok own s'.
Proof.
  intros H E. destruct (refs_close own s p s' _ _ H E) as (H' & Ef & Ed).
  unfold objects_ok. by rewrite Ef, Ed.
Qed.

(** ** Operations on files and directories *)
Lemma file_open_ok own s ip p s' :
  (if decide (ip = NULL) then objects_ok own s else objects_ok (ip :: own) s) →
  file_open s ip = Ret (p, s') → objects_ok own s'.
Proof.
  intros H E. unfold file_open, kmalloc in E. set (s1 := set_mem_ok s _) in E.
  pose proof (new_name_fresh s) as (_ & F & _).
  destruct (negb (ip =? NULL) && _) eqn:Eb.
  - apply andb_true_iff in Eb as [Ei%negb_true_iff%Z.eqb_neq Ep%negb_true_iff%Z.eqb_neq].
    rewrite decide_False in H by done. destruct (mem_ok s 0); [|done].
    injection E as <- <-. apply (refs_to_file own _ _ _ _ ip); [exact H|done].
  - bind_inv E. injection E as <- <-. case_decide as Ei.
    + subst ip. injection E0 as <-. exact H.
    + by eapply (inode_close_ok own s1).
Qed.
Lemma dir_open_ok own s ip p s' :
  (if decide (ip = NULL) then objects_ok own s else objects_ok (ip :: own) s) →
  dir_open s ip = Ret (p, s') → objects_ok own s'.
Proof.
  intros H E. unfold dir_open, kmalloc in E. set (s1 := set_mem_ok s _) in E.
  pose proof (new_name_fresh s) as (_ & _ & F).
  destruct (negb (ip =? NULL) && _) eqn:Eb.
  - apply andb_true_iff in Eb as [Ei%negb_true_iff%Z.eqb_neq Ep%negb_true_iff%Z.eqb_neq].
    rewrite decide_False in H by done. destruct (mem_ok s 0); [|done].
    injection E as <- <-. apply (refs_to_dir own _ _ _ _ ip); [exact H|done].
  - bind_inv E. injection E as <- <-. case_decide as Ei.
    + subst ip. injection E0 as <-. exact H.
    + by eapply (inode_close_ok own s1).
Qed.

(** The flag of a file and the counter of its inode change together, and the assertions
    of [inode_deny_write] and [inode_allow_write] hold. *)
Lemma file_deny_ok own s p f :
  objects_ok own s → files s !! p = Some f →
  ∃ s', file_deny_write s p = Ret s' ∧ objects_ok own s'
    ∧ files s' !! p = Some (File (f_inode f) (f_pos f) true).
Proof.
  intros H Hf. unfold file_deny_write, get_file. rewrite Hf, bind_Ret.
  destruct (deny_write f) eqn:Ed; cbn [negb].
  { exists s. split_and!; try done. rewrite Hf. by destruct f; simplify_eq/=. }
  destruct (r_file _ _ _ _ _ H _ _ Hf) as [i Hi].
  pose proof (r_count _ _ _ _ _ H _ _ Hi) as (E1 & E2 & E3).
  unfold inode_deny_write, get_inode. cbn [inodes set_file set_files]. rewrite Hi, bind_Ret.
  rewrite ASSERT_true.
  - eexists. split; [done|]. split; [|cbn; apply lookup_insert_eq].
    apply (refs_deny own _ _ _ _ p f i true); try done. by rewrite Ed.
  - apply Z.leb_le. rewrite E1, E3. unfold refs.
    assert (count (denies (f_inode f)) (files s) < count (of_file (f_inode f)) (files s)).
    { pose proof (denies_le (f_inode f) (delete p (files s))).
      rewrite !(count_delete _ (files s) p f) in H0 by done.
      change (of_file (f_inode f) f) with (f_inode f =? f_inode f) in H0.
      change (denies (f_inode f) f) with ((f_inode f =? f_inode f) && deny_write f) in H0.
      rewrite Z.eqb_refl, Ed in H0. cbn in H0. lia. }
    pose proof (count_nonneg (of_dir (f_inode f)) (dirs s)). pose proof (owned_nonneg (f_inode f) own).
    lia.
Qed.
Lemma file_allow_ok own s p f :
  objects_ok own s → files s !! p = Some f →
  ∃ s', file_allow_write s p = Ret s' ∧ objects_ok own s'
    ∧ files s' !! p = Some (File (f_inode f) (f_pos f) false).
Proof.
  intros H Hf. unfold file_allow_write, get_file. rewrite Hf, bind_Ret.
  destruct (deny_write f) eqn:Ed.
  2:{ exists s. split_and!; try done. rewrite Hf. by destruct f; simplify_eq/=. }
  destruct (r_file _ _ _ _ _ H _ _ Hf) as [i Hi].
  pose proof (r_count _ _ _ _ _ H _ _ Hi) as (E1 & E2 & E3).
  unfold inode_allow_write, get_inode. cbn [inodes set_file set_files]. rewrite Hi, bind_Ret.
  assert (0 < count (denies (f_inode f)) (files s)).
  { apply (count_pos _ _ p f Hf). unfold denies. by rewrite Z.eqb_refl, Ed. }
  pose proof (denies_le (f_inode f) (files s)).
  pose proof (count_nonneg (of_dir (f_inode f)) (dirs s)). pose proof (owned_nonneg (f_inode f) own).
  unfold refs in E1.
  rewrite !ASSERT_true by (apply Z.leb_le || apply Z.ltb_lt; lia).
  eexists. split; [done|]. split; [|cbn; apply lookup_insert_eq].
  apply (refs_deny own _ _ _ _ p f i false); try done. by rewrite Ed.
Qed.

Lemma file_reopen_ok own s p q s' :
  objects_ok own s → file_reopen s p = Ret (q, s') → objects_ok own s'.
Proof.
  intros H E. unfold file_reopen, get_file in E. bind_inv E.
  destruct (files s !! p) as [f|] eqn:Hf; [|done]. injection E0 as <-.
  destruct (r_file _ _ _ _ _ H _ _ Hf) as [i Hi].
  destruct (inode_reopen_ok own s _ i H Hi) as (s1 & Er & Hok). rewrite Er, bind_Ret in E.
  eapply file_open_ok; [|exact E].
  by rewrite decide_False by (intros Hn; rewrite Hn, (r_null _ _ _ _ _ H) in Hi; done).
Qed.
Lemma dir_reopen_ok own s p q s' :
  objects_ok own s → dir_reopen s p = Ret (q, s') → objects_ok own s'.
Proof.
  intros H E. unfold dir_reopen, get_dir in E. bind_inv E.
  destruct (dirs s !! p) as [d|] eqn:Hf; [|done]. injection E0 as <-.
  destruct (r_dir _ _ _ _ _ H _ _ Hf) as [i Hi].
  destruct (inode_reopen_ok own s _ i H Hi) as (s1 & Er & Hok). rewrite Er, bind_Ret in E.
  eapply dir_open_ok; [|exact E].
  by rewrite decide_False by (intros Hn; rewrite Hn, (r_null _ _ _ _ _ H) in Hi; done).
Qed.

Lemma file_close_ok own s p s' : objects_ok own s → file_close s p = Ret s' → objects_ok own s'.
Proof.
  intros H E. unfold file_close in E. destruct (Z.eqb_spec p NULL); [by injection E as <-|].
  destruct (files s !! p) as [f|] eqn:Hf.
  2:{ unfold file_allow_write, get_file in E. by rewrite Hf in E. }
  destruct (file_allow_ok own s p f H Hf) as (s1 & Ea & H1 & Hf1).
  unfold get_file in E. rewrite Ea, bind_Ret, Hf1, bind_Ret in E. cbn [f_inode] in E.
  bind_inv E. injection E as <-.
  pose proof (refs_from_file own _ _ _ _ p _ H1 Hf1 eq_refl) as H2.
  destruct (refs_close own s1 _ v _ _ H2 E0) as (H3 & Ef & Ed).
  unfold objects_ok. cbn. by rewrite Ef, Ed.
Qed.
Lemma dir_close_ok own s p s' : objects_ok own s → dir_close s p = Ret s' → objects_ok own s'.
Proof.
  intros H E. unfold dir_close, get_dir in E. destruct (Z.eqb_spec p NULL); [by injection E as <-|].
  bind_inv E. destruct (dirs s !! p) as [d|] eqn:Hf; [|done]. injection E0 as <-.
  bind_inv E. injection E as <-.
  pose proof (refs_from_dir own _ _ _ _ p _ H Hf) as H2.
  destruct (refs_close own s _ v _ _ H2 E0) as (H3 & Ef & Ed).
  unfold objects_ok. cbn. by rewrite Ef, Ed.
Qed.
Lemma inode_remove_ok own s p s' : objects_ok own s → inode_remove s p = Ret s' → objects_ok own s'.
Proof.
  intros H E. unfold inode_remove, get_inode in E. bind_inv E.
  destruct (inodes s !! p) as [i|] eqn:Hi; [|done]. injection E0 as <-. injection E as <-.
  pose proof (r_count _ _ _ _ _ H _ _ Hi) as (? & ? & ?).
  apply (refs_update own _ _ (files s) (dirs s) own p i); try done;
    [by eapply r_file|by eapply r_dir|by eapply r_own].
Qed.

(** ** The file system's entry points *)
Lemma lookup_loop_objs fuel : ∀ s ip name ofs o s',
  lookup_loop fuel s ip name ofs = Ret (o, s') → objs s' = objs s.
Proof.
  induction fuel as [|fuel IH]; intros s ip name ofs o s' E; [done|]. cbn [lookup_loop] in E.
  bind_inv E. destruct v as [e s1]. apply inode_read_at_objs in E0.
  destruct (_ =? _); [|by injection E as _ <-]. destruct (_ && _); [by injection E as _ <-|].
  rewrite <- E0. by eapply IH.
Qed.
Lemma slot_loop_objs fuel : ∀ s ip e ofs e' ofs' s',
  slot_loop fuel s ip e ofs = Ret (e', ofs', s') → objs s' = objs s.
Proof.
  induction fuel as [|fuel IH]; intros s ip e ofs e' ofs' s' E; [done|]. cbn [slot_loop] in E.
  bind_inv E. destruct v as [bs s1]. apply inode_read_at_objs in E0.
  destruct (_ =? _); [|by injection E as _ _ <-]. destruct (negb _); [by injection E as _ _ <-|].
  rewrite <- E0. by eapply IH.
Qed.
Lemma lookup_objs s p name o s' : lookup s p name = Ret (o, s') → objs s' = objs s.
Proof. unfold lookup. intros E. bind_inv E. by eapply lookup_loop_objs. Qed.

Lemma free_map_allocate_objs s cnt o s' : free_map_allocate s cnt = Ret (o, s') → objs s' = objs s.
Proof.
  unfold free_map_allocate. intros E. bind_inv E. destruct v as [sec b].
  destruct (negb _); [|by injection E as _ <-]. destruct (negb _); [|by injection E as _ <-].
  bind_inv E. destruct v as [ok s1]. apply bitmap_write_objs in E1.
  destruct (negb ok); [|by injection E as _ <-]. bind_inv E. by injection E as _ <-.
Qed.
Lemma zero_sectors_objs n : ∀ s sec s', zero_sectors n s sec = Ret s' → objs s' = objs s.
Proof.
  induction n as [|n IH]; intros s sec s' E; cbn [zero_sectors] in E; [by injection E as <-|].
  bind_inv E. apply block_write_objs in E0. rewrite <- E0. by eapply IH.
Qed.
Lemma inode_create_objs s sec len ok s' : inode_create s sec len = Ret (ok, s') → objs s' = objs s.
Proof.
  unfold inode_create, kmalloc. intros E. bind_inv E.
  destruct (_ =? NULL); [by injection E as _ <-|]. bind_inv E. destruct v0 as [o s1].
  apply free_map_allocate_objs in E1. destruct o as [first|]; [|by injection E as _ <-].
  bind_inv E. bind_inv E. injection E as _ <-.
  apply block_write_objs in E2. apply zero_sectors_objs in E3. rewrite E3, E2. exact E1.
Qed.
Lemma dir_add_objs e0 s p name sec ok s' : dir_add e0 s p name sec = Ret (ok, s') → objs s' = objs s.
Proof.
  unfold dir_add. intros E. bind_inv E. destruct (_ || _); [by injection E as _ <-|].
  bind_inv E. destruct v0 as [o s1]. apply lookup_objs in E1. rewrite <- E1.
  destruct o; [by injection E as _ <-|]. bind_inv E. destruct v0 as [[e ofs] s2].
  apply slot_loop_objs in E2. rewrite <- E2. bind_inv E. destruct v0 as [n s3]. injection E as _ <-.
  by eapply inode_write_at_objs.
Qed.

Section EntryPoints.
Context (own : list Z).
Local Abbreviation ok s := (objects_ok own s).

Lemma opened_ok s sec p s' :
  ok s → inode_open s sec = Ret (p, s') →
  if decide (p = NULL) then ok s' else objects_ok (p :: own) s'.
Proof.
  intros H E. apply (inode_open_ok own) in E; [|done].
  case_decide; [by eapply objects_ok_objs|apply E].
Qed.
Lemma dir_open_root_ok s p s' : ok s → dir_open_root s = Ret (p, s') → ok s'.
Proof.
  unfold dir_open_root. intros H E. bind_inv E. destruct v as [ip s1].
  eapply dir_open_ok; [|exact E]. by eapply opened_ok.
Qed.
Lemma dir_lookup_ok s p name ip s' :
  ok s → dir_lookup s p name = Ret (ip, s') →
  if decide (ip = NULL) then ok s' else objects_ok (ip :: own) s'.
Proof.
  unfold dir_lookup. intros H E. bind_inv E. destruct v as [o s1]. apply lookup_objs in E0.
  assert (H1 : ok s1) by (by eapply objects_ok_objs).
  destruct o as [[e ofs]|]; [by eapply opened_ok|]. by injection E as <- <-.
Qed.
Lemma dir_remove_ok s p name b s' : ok s → dir_remove s p name = Ret (b, s') → ok s'.
Proof.
  unfold dir_remove. intros H E. bind_inv E. bind_inv E. destruct v0 as [o s1].
  apply lookup_objs in E1. assert (H1 : ok s1) by (by eapply objects_ok_objs).
  destruct o as [[e ofs]|]; [|by injection E as _ <-].
  bind_inv E. destruct v0 as [ip s2]. apply opened_ok in E2; [|done].
  destruct (Z.eqb_spec ip NULL) as [->|Hn].
  { by injection E as _ <-. }
  rewrite decide_False in E2 by done. bind_inv E. destruct v0 as [n s3].
  apply inode_write_at_objs in E3.
  assert (H3 : objects_ok (ip :: own) s3) by (by eapply objects_ok_objs).
  destruct (negb _).
  - bind_inv E. injection E as _ <-. by eapply inode_close_ok.
  - bind_inv E. bind_inv E. injection E as _ <-. eapply inode_close_ok; [|exact E5].
    by eapply inode_remove_ok.
Qed.

Lemma filesys_create_ok e0 s name size b s' :
  ok s → filesys_create e0 s name size = Ret (b, s') → ok s'.
Proof.
  unfold filesys_create. intros H E. bind_inv E. destruct v as [p s1].
  apply dir_open_root_ok in E0; [|done]. bind_inv E. destruct v as [[success sec] s2].
  assert (H2 : ok s2).
  { eapply objects_ok_objs; [|exact E0]. destruct (p =? NULL); [by injection E1 as _ _ <-|].
    bind_inv E1. destruct v as [[inode_sector|] s3]; apply free_map_allocate_objs in E2;
      [|by injection E1 as _ _ <-].
    bind_inv E1. destruct v as [b1 s4]. apply inode_create_objs in E3.
    destruct b1; cbn [negb] in E1; [|injection E1 as _ _ <-; congruence].
    bind_inv E1. destruct v as [b2 s5]. injection E1 as _ _ <-. apply dir_add_objs in E4. congruence. }
  bind_inv E. bind_inv E. injection E as _ <-.
  eapply dir_close_ok; [|exact E3]. eapply objects_ok_objs; [|exact H2].
  destruct (_ && _); [by eapply free_map_release_objs|by injection E2 as <-].
Qed.
Lemma filesys_open_ok s name p s' : ok s → filesys_open s name = Ret (p, s') → ok s'.
Proof.
  unfold filesys_open. intros H E. bind_inv E. destruct v as [dp s1].
  apply dir_open_root_ok in E0; [|done]. bind_inv E. destruct v as [ip s2]. bind_inv E.
  eapply file_open_ok; [|exact E].
  destruct (dp =? NULL) eqn:Ed; [injection E1 as <- <-|].
  - rewrite decide_True by done. by eapply dir_close_ok.
  - apply dir_lookup_ok in E1; [|done]. case_decide; by eapply dir_close_ok.
Qed.
Lemma filesys_remove_ok s name b s' : ok s → filesys_remove s name = Ret (b, s') → ok s'.
Proof.
  unfold filesys_remove. intros H E. bind_inv E. destruct v as [dp s1].
  apply dir_open_root_ok in E0; [|done]. bind_inv E. destruct v as [b1 s2]. bind_inv E.
  injection E as _ <-. eapply dir_close_ok; [|exact E2].
  destruct (dp =? NULL); [by injection E1 as _ <-|by eapply dir_remove_ok].
Qed.
End EntryPoints.

Lemma file_read_ok own s p n bs s' :
  objects_ok own s → file_read s p n = Ret (bs, s') → objects_ok own s'.
Proof.
  unfold file_read, get_file. intros H E. bind_inv E.
  destruct (files s !! p) as [f|] eqn:Hf; [|done]. injection E0 as <-.
  bind_inv E. destruct v as [bs' s1]. injection E as _ <-. apply inode_read_at_objs in E0.
  unfold objs in E0. injection E0 as Ei Eo Ef Ed. unfold objects_ok. cbn. rewrite Ei, Eo, Ef, Ed.
  by apply refs_file_pos.
Qed.
Lemma file_write_ok own s p bs n s' :
  objects_ok own s → file_write s p bs = Ret (n, s') → objects_ok own s'.
Proof.
  unfold file_write, get_file. intros H E. bind_inv E.
  destruct (files s !! p) as [f|] eqn:Hf; [|done]. injection E0 as <-.
  bind_inv E. destruct v as [n' s1]. injection E as _ <-. apply inode_write_at_objs in E0.
  unfold objs in E0. injection E0 as Ei Eo Ef Ed. unfold objects_ok. cbn. rewrite Ei, Eo, Ef, Ed.
  by apply refs_file_pos.
Qed.
Lemma file_seek_ok own s p n s' :
  objects_ok own s → file_seek s p n = Ret s' → objects_ok own s'.
Proof.
  unfold file_seek, get_file. intros H E. bind_inv E.
  destruct (files s !! p) as [f|] eqn:Hf; [|done]. injection E0 as <-.
  bind_inv E. injection E as <-. by apply refs_file_pos.
Qed.
Lemma readdir_loop_ok own fuel : ∀ s p o s',
  objects_ok own s → readdir_loop fuel s p = Ret (o, s') → objects_ok own s'.
Proof.
  induction fuel as [|fuel IH]; intros s p o s' H E; [done|]. cbn [readdir_loop] in E.
  unfold get_dir in E. bind_inv E. destruct (dirs s !! p) as [d|] eqn:Hd; [|done].
  injection E0 as <-. bind_inv E. destruct v as [e s1]. apply inode_read_at_objs in E0.
  destruct (_ =? _); [|injection E as _ <-; by eapply objects_ok_objs].
  assert (Hok : objects_ok own (set_dirs s1 (<[p := Dir (d_inode d) (d_pos d + ENTRY_SIZE)]> (dirs s1)))).
  { unfold objs in E0. injection E0 as Ei Eo Ef Ed. unfold objects_ok. cbn. rewrite Ei, Eo, Ef, Ed.
    by apply refs_dir_pos. }
  destruct (e_in_use e); [by injection E as _ <-|by eapply IH].
Qed.

(** ** Starting the file system *)
Lemma bitmap_create_objs s cnt ws o s' : bitmap_create s cnt ws = Ret (o, s') → objs s' = objs s.
Proof.
  unfold bitmap_create, kmalloc. intros E. destruct (_ =? NULL); [by injection E as _ <-|].
  destruct (_ || _); [|by injection E as _ <-]. bind_inv E. by injection E as _ <-.
Qed.
Lemma free_map_create_ok s s' : objects_ok [] s → free_map_create s = Ret s' → objects_ok [] s'.
Proof.
  unfold free_map_create. intros H E. bind_inv E. destruct v as [b s1].
  apply inode_create_objs in E0. destruct (negb b); [done|].
  bind_inv E. destruct v as [ip s2]. bind_inv E. destruct v as [p s3].
  assert (H3 : objects_ok [] s3).
  { eapply file_open_ok; [|exact E2]. eapply opened_ok; [|exact E1]. by eapply objects_ok_objs. }
  destruct (p =? NULL); [done|]. bind_inv E. destruct v as [b' s4]. apply bitmap_write_objs in E3.
  destruct (negb b'); [done|]. injection E as <-. eapply objects_ok_objs; [exact E3|exact H3].
Qed.
Lemma free_map_open_ok s s' : objects_ok [] s → free_map_open s = Ret s' → objects_ok [] s'.
Proof.
  unfold free_map_open. intros H E.
  bind_inv E. destruct v as [ip s2]. bind_inv E. destruct v as [p s3].
  assert (H3 : objects_ok [] s3).
  { eapply file_open_ok; [|exact E1]. by eapply opened_ok. }
  destruct (p =? NULL); [done|]. bind_inv E. destruct v as [[b' bm] s4].
  destruct (negb b'); [done|]. injection E as <-. eapply objects_ok_objs; [|exact H3].
  unfold bitmap_read, file_read_at in E2. destruct (0 <? _); [|by injection E2 as _ _ <-].
  bind_inv E2. destruct v as [bs s5]. injection E2 as _ _ <-. bind_inv E3.
  by apply inode_read_at_objs in E3.
Qed.

Lemma filesys_init_ok words s format s' :
  inodes s = ∅ → files s = ∅ → dirs s = ∅ → filesys_init words s format = Ret s' → objects_ok [] s'.
Proof.
  intros Hi Hf Hd E. unfold filesys_init in E. bind_inv E. bind_inv E.
  eapply free_map_open_ok; [|exact E].
  assert (H0 : objects_ok [] (inode_init s)).
  { unfold objects_ok, inode_init. cbn. rewrite Hi, Hf, Hd.
    split; try done.
    - by apply NoDup_nil.
    - intros p. rewrite lookup_empty. split; [by intros ?%elem_of_nil|by intros []].
    - by intros p ?%elem_of_nil. }
  assert (H1 : objects_ok [] v).
  { unfold free_map_init in E0. bind_inv E0. destruct v1 as [[b|] s1]; [|done]. injection E0 as <-.
    apply bitmap_create_objs in E2. eapply objects_ok_objs; [|exact H0]. exact E2. }
  destruct format; [|by injection E1 as <-].
  unfold do_format in E1. bind_inv E1. bind_inv E1. destruct v2 as [b s2].
  destruct (negb b); [done|]. apply free_map_create_ok in E2; [|done].
  unfold dir_create in E3. apply inode_create_objs in E3.
  eapply file_close_ok; [|exact E1]. by eapply objects_ok_objs.
Qed.

(** ** Everything a client can do with the file system *)
Inductive fs_step : fs → fs → Prop :=
| st_create e0 s name size b s' : filesys_create e0 s name size = Ret (b, s') → fs_step s s'
| st_open s name p s' : filesys_open s name = Ret (p, s') → fs_step s s'
| st_remove s name b s' : filesys_remove s name = Ret (b, s') → fs_step s s'
| st_file_reopen s p q s' : file_reopen s p = Ret (q, s') → fs_step s s'
| st_file_close s p s' : file_close s p = Ret s' → fs_step s s'
| st_read s p n bs s' : file_read s p n = Ret (bs, s') → fs_step s s'
| st_write s p bs n s' : file_write s p bs = Ret (n, s') → fs_step s s'
| st_seek s p n s' : file_seek s p n = Ret s' → fs_step s s'
| st_deny s p s' : file_deny_write s p = Ret s' → fs_step s s'
| st_allow s p s' : file_allow_write s p = Ret s' → fs_step s s'
| st_open_root s p s' : dir_open_root s = Ret (p, s') → fs_step s s'
| st_dir_reopen s p q s' : dir_reopen s p = Ret (q, s') → fs_step s s'
| st_dir_close s p s' : dir_close s p = Ret s' → fs_step s s'
| st_readdir s p o s' : dir_readdir s p = Ret (o, s') → fs_step s s'.

Lemma fs_step_ok s s' : objects_ok [] s → fs_step s s' → objects_ok [] s'.
Proof.
  intros H Hst.
  destruct Hst as [| | | | | | | |? p ? E|? p ? E| | | |? ? ? ? E].
  - by eapply filesys_create_ok.
  - by eapply filesys_open_ok.
  - by eapply filesys_remove_ok.
  - by eapply file_reopen_ok.
  - by eapply file_close_ok.
  - by eapply file_read_ok.
  - by eapply file_write_ok.
  - by eapply file_seek_ok.
  - destruct (files s !! p) as [f|] eqn:Hf.
    + destruct (file_deny_ok [] s p f H Hf) as (s1 & E1 & H1 & _). congruence.
    + unfold file_deny_write, get_file in E. by rewrite Hf in E.
  - destruct (files s !! p) as [f|] eqn:Hf.
    + destruct (file_allow_ok [] s p f H Hf) as (s1 & E1 & H1 & _). congruence.
    + unfold file_allow_write, get_file in E. by rewrite Hf in E.
  - by eapply dir_open_root_ok.
  - by eapply dir_reopen_ok.
  - by eapply dir_close_ok.
  - unfold dir_readdir in E. bind_inv E. by eapply readdir_loop_ok.
Qed.

(** C11: In every state the file system reaches from its start by any sequence of client
    calls, each open inode's [open_cnt] is the number of files and directories open on it
    (so no file refers to a freed inode and no inode leaks), [deny_write_cnt] is the number
    of files that deny writes, two open inodes have different sectors, and denying or
    allowing writes on an open file never fails the assertions of the inode layer. *)
Theorem file_table_invariant words s0 format s1 s2 :
  inodes s0 = ∅ → files s0 = ∅ → dirs s0 = ∅ →
  filesys_init words s0 format = Ret s1 → rtc fs_step s1 s2 →
  objects_ok [] s2 ∧
  ∀ p f, files s2 !! p = Some f →
    (∃ i, inodes s2 !! f_inode f = Some i)
    ∧ (∃ s3, file_deny_write s2 p = Ret s3) ∧ (∃ s3, file_allow_write s2 p = Ret s3).
Proof.
  intros Hi Hf Hd Hinit Hsteps. apply filesys_init_ok in Hinit; [|done..].
  assert (H : objects_ok [] s2).
  { revert Hinit. induction Hsteps as [s|s s' s'' Hst _ IH]; [done|]. intros H.
    by apply IH, (fs_step_ok s). }
  split; [done|]. intros p f Hp. split_and!.
  - by eapply r_file.
  - by destruct (file_deny_ok [] s2 p f H Hp) as (s3 & ? & _); exists s3.
  - by destruct (file_allow_ok [] s2 p f H Hp) as (s3 & ? & _); exists s3.
Qed.

(** A formatted device of 64 sectors, one file created, opened and write-denied. *)
Definition blank_fs : fs := Fs ∅ 64 (Bitmap 0 []) NULL ∅ [] ∅ ∅ (λ _, true).
Definition value {A} (d : A) (r : res A) : A := match r with Ret a => a | _ => d end.
Definition is_ret {A} (r : res A) : bool := match r with Ret _ => true | _ => false end.
Lemma ret_value {A} (d : A) r : is_ret r = true → r = Ret (value d r).
Proof. by destruct r. Qed.

Lemma ret_pair {A B} (d : A * B) r a : is_ret r = true → (value d r).1 = a → r = Ret (a, (value d r).2).
Proof. destruct r as [[x y]| |]; cbn; [|done..]. by intros _ ->. Qed.

Definition demo_fs : fs := value blank_fs (filesys_init [7; 7] blank_fs true).
Definition demo_created : bool * fs := value (false, demo_fs) (filesys_create (replicate 20 0) demo_fs [97; 98] 600).
Definition demo_opened : Z * fs := value (NULL, demo_fs) (filesys_open demo_created.2 [97; 98]).
Definition demo_denied : fs := value demo_fs (file_deny_write demo_opened.2 demo_opened.1).

Lemma file_table_invariant_witness :
  objects_ok [] demo_denied ∧ files demo_denied !! demo_opened.1 = Some (File 5 0 true).
Proof.
  split; [|vm_compute; reflexivity].
  assert (Hinit : filesys_init [7; 7] blank_fs true = Ret demo_fs).
  { apply ret_value. vm_compute. reflexivity. }
  refine (proj1 (file_table_invariant [7; 7] blank_fs true demo_fs demo_denied _ _ _ Hinit _));
    [reflexivity..|].
  assert (Hcreate : filesys_create (replicate 20 0) demo_fs [97; 98] 600
                    = Ret (demo_created.1, demo_created.2)).
  { rewrite <- surjective_pairing. apply ret_value. vm_compute. reflexivity. }
  assert (Hopen : filesys_open demo_created.2 [97; 98] = Ret (demo_opened.1, demo_opened.2)).
  { rewrite <- surjective_pairing. apply ret_value. vm_compute. reflexivity. }
  assert (Hdeny : file_deny_write demo_opened.2 demo_opened.1 = Ret demo_denied).
  { apply ret_value. vm_compute. reflexivity. }
  eapply rtc_l; [exact (st_create _ _ _ _ _ _ Hcreate)|].
  eapply rtc_l; [exact (st_open _ _ _ _ Hopen)|].
  eapply rtc_l; [exact (st_deny _ _ _ Hdeny)|]. apply rtc_refl.
Defined.
