(* ===== verification/FsTheorems.v ===== *)
(** * What the file system guarantees

    Reads and writes of inodes, the free map on disk, directories as maps from names to
    inode sectors, and two behaviours under failure that lose disk space or a file. *)
From S2P Require Import Prelude Mem Bitmap Inode Directory FileTable.

(** ** Inodes *)

(** C31: A write to an inode that is not write-denied stores a prefix of the buffer, and
    returns its length [n]: all the bytes that fit before the end of the file, and fewer only
    if the bounce buffer cannot be allocated.  They lie at their place in the file's extent;
    no other byte of the device, no object in memory and not the free map changes.  Reading
    [n] bytes back gives what was written, or less of it only if that read gets no bounce
    buffer. *)
Theorem inode_write_read s p i buffer ofs :
  inodes s !! p = Some i → extent_ok s i → 0 ≤ ofs → deny_write_cnt i = 0 → Forall is_byte buffer →
  let fits := available i (Z.of_nat (length buffer)) ofs in
  ∃ n s1, inode_write_at s p buffer ofs = Ret (n, s1) ∧ 0 ≤ n ≤ fits ∧ (n < fits → mem_ok s 0 = false)
    ∧ same_objects s s1 ∧ free_map s1 = free_map s
    ∧ bytes_at (disk s1) (data_addr i ofs) n = take (Z.to_nat n) buffer
    ∧ disk_outside (data_addr i ofs) (data_addr i ofs + n) s s1
    ∧ ∃ m s2, inode_read_at s1 p n ofs = Ret (take (Z.to_nat m) buffer, s2)
        ∧ 0 ≤ m ≤ n ∧ (m < n → mem_ok s1 0 = false).
Proof.
  intros Hp Hx Ho Hd Hb fits.
  destruct (inode_write_at_spec s p i buffer ofs Hp Hx Ho Hd) as (n & d & k & Ew & Hdd & _ & Hn & Hall).
  set (s1 := written s d k) in *. fold fits in Hn, Hall. exists n, s1.
  assert (Hlen : Z.of_nat (length (take (Z.to_nat n) buffer)) = n)
    by (rewrite length_take; unfold fits, available in Hn; lia).
  assert (Hdata : bytes_at (disk s1) (data_addr i ofs) n = take (Z.to_nat n) buffer).
  { change (disk s1) with d. rewrite Hdd.
    pose proof (bytes_at_write_same (disk s) (data_addr i ofs) (take (Z.to_nat n) buffer)
      (Forall_take _ _ _ Hb)) as E. by rewrite Hlen in E. }
  split_and!; [exact Ew|apply Hn..| |apply written_same|reflexivity|exact Hdata| |].
  - intros Hlt. destruct (mem_ok s 0); [|done]. specialize (Hall eq_refl). lia.
  - intros x Hx'. change (disk s1) with d. rewrite (same_load _ _ Hdd), load8_write_bytes.
    by rewrite decide_False by lia.
  - destruct (inode_read_at_spec s1 p i n ofs Hp) as (m & j & Er & _ & Hm & Hm'); [by destruct Hx|done|].
    assert (available i n ofs = n) as Ea by (unfold fits, available in *; lia). rewrite Ea in *.
    exists m, (after_mallocs s1 j). split_and!; [|apply Hm..|].
    + rewrite Er. do 2 f_equal. pose proof (bytes_at_sub (disk s1) (data_addr i ofs) n 0 m) as Hs.
      rewrite Z.add_0_r, drop_0, Hdata, take_take in Hs. rewrite <- Hs by lia. f_equal. lia.
    + intros Hlt. destruct (mem_ok s1 0); [|done]. specialize (Hm' eq_refl). lia.
Qed.

(** A read returns the file's bytes from the offset on, as many as are asked for and
    exist, and changes nothing. *)
Theorem inode_read_correct s p i size ofs :
  inodes s !! p = Some i → extent_ok s i → 0 ≤ ofs → plenty s →
  ∃ s', inode_read_at s p size ofs
        = Ret (bytes_at (disk s) (data_addr i ofs) (available i size ofs), s')
    ∧ same_objects s s' ∧ free_map s' = free_map s ∧ disk s' = disk s.
Proof.
  intros Hp Hx Ho Hm. destruct (inode_read_at_spec s p i size ofs Hp Hx Ho) as (n & k & -> & _ & _ & Hn).
  rewrite (Hn (Hm 0%nat)). exists (after_mallocs s k). by split_and!.
Qed.

(** ** The free map *)

(** Allocating sectors takes the first run of free sectors that is long enough, marks
    exactly that run, and writes the map to its file, so that the file read back gives the
    new map; if there is no such run nothing changes.  No other byte of the device is
    touched. *)
Theorem free_map_allocate_correct s f i cnt :
  map_file s f i → 0 < dev_size s → 0 ≤ cnt → plenty s →
  ∃ o s', free_map_allocate s cnt = Ret (o, s') ∧ same_objects s s'
    ∧ disk_outside (data_addr i 0) (data_addr i (i_length i)) s s'
    ∧ match o with
      | None => (∀ sec, ¬ first_free s cnt sec) ∧ s' = s
      | Some sec =>
        first_free s cnt sec ∧ run_set s s' sec cnt true
        ∧ ∃ b s'', bitmap_read s' (free_map s) (free_map_file s') = Ret (true, b, s'')
            ∧ ∀ j, 0 ≤ j < dev_size s → bit b j = bit (free_map s') j
      end.
Proof.
  intros Hf Hdev Hc Hm.
  destruct (free_map_allocate_spec s f i cnt Hf Hc) as (o & s' & -> & Hsame & Hf' & Hout & Ho).
  exists o, s'. split_and!; [done..|]. destruct o as [sec|]; [|by apply Ho].
  destruct Ho as (H1 & H2 & Hp). split_and!; [done..|].
  destruct (bitmap_read_spec s' f i (free_map s) Hf') as (b & k & -> & _ & _ & _ & Hb).
  - apply Hf.
  - rewrite (so_dev _ _ Hsame). apply Hf.
  - by rewrite (so_dev _ _ Hsame).
  - done.
  - by apply (so_plenty _ _ Hsame).
  - exists b, (after_mallocs s' k). split; [done|]. by rewrite <- (so_dev _ _ Hsame).
Qed.

(** Releasing a run of sectors in use clears exactly that run in the map and its file;
    releasing a run with a free sector in it stops the kernel. *)
Theorem free_map_release_correct s f i sec cnt :
  map_file s f i → 0 ≤ sec → 0 ≤ cnt → sec + cnt ≤ dev_size s → plenty s →
  if decide (all_bits (free_map s) sec cnt true) then
    ∃ s', free_map_release s sec cnt = Ret s' ∧ same_objects s s'
      ∧ disk_outside (data_addr i 0) (data_addr i (i_length i)) s s'
      ∧ run_set s s' sec cnt false ∧ persisted s' i
  else free_map_release s sec cnt = Panic.
Proof.
  intros Hf Hs Hc He Hm. case_decide as Ha; [|by eapply free_map_release_panic].
  destruct (free_map_release_spec s f i sec cnt Hf Hs Hc He Ha) as (s' & -> & H1 & _ & H2 & H3 & H4).
  exists s'. split_and!; auto.
Qed.

(** ** Directories *)

(** C30: [dir_add] implements insertion into the map from names to sectors, when kernel memory
    for the bounce buffers is available (without it a live entry can be overwritten, see
    [dir_add_overwrites]), writes to the directory are not denied and the name has 1 to 14
    bytes, none of them null: it succeeds only for a name not in the directory, after which
    looking the name up finds the sector and every other name is found as before; when it
    fails, because the name is there or the directory is full, the directory is unchanged.
    Names stay distinct. *)
Theorem dir_add_correct e0 s p d i name sec :
  dir_at s p d i → deny_write_cnt i = 0 → plenty s → name_ok name → is_u32 sec →
  length e0 = 20%nat → Forall is_byte e0 → names_distinct (dir_entries (disk s) i) →
  ∃ ok s', dir_add e0 s p name sec = Ret (ok, s') ∧ dir_frame s s' i
    ∧ dir_added name sec (dir_entries (disk s) i) (dir_entries (disk s') i) ok
    ∧ names_distinct (dir_entries (disk s') i)
    ∧ ∀ n, ∃ o s'', lookup s' p n = Ret (o, s'') ∧ quiet s' s''
        ∧ (e_sector ∘ fst) <$> o = dir_find (dir_entries (disk s') i) n.
Proof.
  intros Hd Hw Hm Hn Hs He0 Hb0 Hdis.
  destruct (dir_add_spec e0 s p d i name sec Hd Hw Hm Hn Hs He0 Hb0) as (ok & s' & -> & Hf & Ha & Hnd).
  exists ok, s'. split_and!; auto. intros n.
  assert (Hd' : dir_at s' p d i).
  { destruct Hd as [H1 H2 [H3 H4 H5 H6]], Hf as [[E1 E2 E3 E4 E5 E6 E7] _ _ _].
    split; [by rewrite E6|by rewrite E3|]. by split; rewrite ?E1. }
  destruct (lookup_spec s' p d i n Hd' (df_plenty _ _ _ Hf)) as (o & s'' & -> & Hq & Ho).
  exists o, s''. split_and!; [done..|]. destruct o as [[e ofs]|]; cbn in *.
  - by destruct Ho as (? & ? & ? & ? & ->).
  - done.
Qed.

(** ** Failures *)

(** The root directory of the demonstration device, opened. *)
Definition demo_root : Z * fs := value (NULL, demo_fs) (dir_open_root demo_created.2).
Definition demo_root_inode : inode := Inode 1 1 false 0 3 320 INODE_MAGIC.
(** The same with one failure among the coming allocations: the 17th. *)
Definition low_memory (s : fs) : fs := set_mem_ok s (λ j, negb (Nat.eqb j 16)).

(** A single failed allocation makes [dir_add] lose a file: the read of the first
    entry in its search for a free slot comes back short, which the code takes for the end
    of the directory, so the new entry overwrites the first one.  [dir_add] reports
    success; the old file, found before, is no longer in the directory. *)
Theorem dir_add_overwrites :
  ∃ s', dir_add (replicate 20 0) (low_memory demo_root.2) demo_root.1 [99] 30 = Ret (true, s')
    ∧ dir_find (dir_entries (disk demo_root.2) demo_root_inode) [97; 98] = Some 4
    ∧ dir_find (dir_entries (disk s') demo_root_inode) [97; 98] = None
    ∧ dir_find (dir_entries (disk s') demo_root_inode) [99] = Some 30.
Proof.
  eexists. split; [apply (ret_pair (false, demo_fs)); vm_compute; reflexivity|].
  split_and!; vm_compute; reflexivity.
Qed.

(** A creation that fails because the name exists gives back the sector of the inode
    but not the sectors of the data: here two sectors are still marked in use although
    nothing refers to them. *)
Theorem filesys_create_leaks :
  ∃ s', filesys_create (replicate 20 0) demo_created.2 [97; 98] 600 = Ret (false, s')
    ∧ objs s' = objs demo_created.2
    ∧ Forall (λ e, e_in_use e = true → e_sector e = 4) (dir_entries (disk s') demo_root_inode)
    ∧ bitmap_count (free_map demo_created.2) 0 64 true = Ret 7
    ∧ bitmap_count (free_map s') 0 64 true = Ret 9.
Proof.
  eexists. split; [apply (ret_pair (true, demo_fs)); vm_compute; reflexivity|].
  split; [vm_compute; reflexivity|].
  split; [vm_compute; repeat constructor; congruence|]. split; vm_compute; reflexivity.
Qed.

(** ** Witnesses *)
Definition demo_inode : inode := Inode 4 1 false 0 5 600 INODE_MAGIC.
Definition demo_map_inode : inode := Inode 0 1 false 0 2 8 INODE_MAGIC.

Lemma inode_write_read_witness :
  available demo_inode 3 511 = 3 ∧ mem_ok demo_opened.2 0 = true ∧
  ∃ s1, inode_write_at demo_opened.2 5 [1; 2; 3] 511 = Ret (3, s1)
    ∧ bytes_at (disk s1) 3071 3 = [1; 2; 3] ∧ disk_outside 3071 3074 demo_opened.2 s1.
Proof.
  assert (Hm : mem_ok demo_opened.2 0 = true) by (vm_compute; reflexivity).
  split; [vm_compute; reflexivity|]. split; [exact Hm|].
  destruct (inode_write_read demo_opened.2 5 demo_inode [1; 2; 3] 511)
    as (n & s1 & E & Hn & Hshort & _ & _ & Hb & Ho & _).
  - vm_compute. reflexivity.
  - split; vm_compute; congruence.
  - lia.
  - reflexivity.
  - repeat constructor; unfold is_byte; lia.
  - change (available demo_inode (Z.of_nat (length [1; 2; 3])) 511) with 3 in *.
    assert (n = 3) as ->.
    { destruct (decide (n = 3)) as [|Hne]; [assumption|]. rewrite Hm in Hshort. specialize (Hshort ltac:(lia)). congruence. }
    exists s1. split; [exact E|]. split; [exact Hb|exact Ho].
Defined.

Lemma inode_read_witness :
  ∃ s', inode_read_at demo_opened.2 5 10 598 = Ret (bytes_at (disk demo_opened.2) 3158 2, s')
    ∧ same_objects demo_opened.2 s' ∧ free_map s' = free_map demo_opened.2
    ∧ disk s' = disk demo_opened.2.
Proof.
  apply (inode_read_correct demo_opened.2 5 demo_inode 10 598).
  - vm_compute. reflexivity.
  - split; vm_compute; congruence.
  - lia.
  - intros k. vm_compute. reflexivity.
Defined.

Lemma demo_map_file : map_file demo_opened.2 (File 1 0 false) demo_map_inode.
Proof.
  split; [|vm_compute; reflexivity|vm_compute; reflexivity|vm_compute; congruence
          |vm_compute; reflexivity| |reflexivity|reflexivity].
  - assert (E : free_map demo_opened.2 = Bitmap 64 [127; 0]) by (vm_compute; reflexivity).
    rewrite E. split; [cbn; lia| |reflexivity].
    repeat constructor; unfold is_u32; lia.
  - split; vm_compute; congruence.
Qed.
Lemma demo_plenty : plenty demo_opened.2.
Proof. intros k. vm_compute. reflexivity. Qed.

Lemma free_map_allocate_witness :
  ∃ o s', free_map_allocate demo_opened.2 3 = Ret (o, s') ∧ same_objects demo_opened.2 s'.
Proof.
  destruct (free_map_allocate_correct demo_opened.2 (File 1 0 false) demo_map_inode 3)
    as (o & s' & E & Hs & _); [exact demo_map_file|vm_compute; reflexivity|lia|exact demo_plenty|].
  exists o, s'. split; [exact E|exact Hs].
Defined.

Lemma free_map_release_witness :
  (∃ s', free_map_release demo_opened.2 5 2 = Ret s' ∧ persisted s' demo_map_inode)
  ∧ free_map_release demo_opened.2 6 2 = Panic.
Proof.
  pose proof (λ sec, free_map_release_correct demo_opened.2 (File 1 0 false) demo_map_inode sec 2
    demo_map_file) as H. split.
  - specialize (H 5). rewrite decide_True in H.
    + destruct H as (s' & E & _ & _ & _ & Hp); [lia|lia|vm_compute; congruence|exact demo_plenty|].
      exists s'. split; [exact E|exact Hp].
    + intros j Hj. assert (j = 5 ∨ j = 6) as [-> | ->] by lia; vm_compute; reflexivity.
  - specialize (H 6). rewrite decide_False in H.
    + apply H; [lia|lia|vm_compute; congruence|exact demo_plenty].
    + intros Ha. specialize (Ha 7 ltac:(lia)). revert Ha. vm_compute. congruence.
Defined.

Lemma names_distinct_one es :
  forallb (λ y, negb (e_in_use y)) (drop 1 es) = true → names_distinct es.
Proof.
  intros Hf. apply Is_true_true, forallb_True in Hf.
  assert (Hall : ∀ m x, es !! m = Some x → e_in_use x = true → m = 0%nat).
  { intros [|m] x Hx Hu; [done|]. exfalso.
    eapply Forall_lookup_1 in Hf; [|rewrite lookup_drop; exact Hx]. by rewrite Hu in Hf. }
  intros j k e e' Hj Hk Hu Hu' _. by rewrite (Hall _ _ Hj Hu), (Hall _ _ Hk Hu').
Qed.

Lemma dir_add_witness :
  ∃ ok s', dir_add (replicate 20 0) demo_root.2 demo_root.1 [99] 30 = Ret (ok, s')
    ∧ dir_added [99] 30 (dir_entries (disk demo_root.2) demo_root_inode)
        (dir_entries (disk s') demo_root_inode) ok.
Proof.
  destruct (dir_add_correct (replicate 20 0) demo_root.2 demo_root.1 (Dir 3 0) demo_root_inode [99] 30)
    as (ok & s' & E & _ & Ha & _).
  - split; [vm_compute; reflexivity|vm_compute; reflexivity|]. split; vm_compute; congruence.
  - reflexivity.
  - intros k. vm_compute. reflexivity.
  - split_and!; [done|done|]. repeat constructor; lia.
  - unfold is_u32. lia.
  - reflexivity.
  - repeat constructor; unfold is_byte; lia.
  - apply names_distinct_one. vm_compute. reflexivity.
  - exists ok, s'. split; [exact E|exact Ha].
Defined.
