(* ===== verification/Fsutil.v ===== *)
(** * Actions on files at start-up (filesys/fsutil.c)

    The actions named on the kernel's command line: listing the root directory, printing
    and deleting a file, and copying files between the file system and a ustar archive on
    the scratch device.  They join the file system ([Directory], [Inode]), tar headers
    ([Ustar]) and the block devices ([Blockdev]).

    Arguments of the actions stand for what they get from elsewhere: the kernel's memory
    with the addresses that [malloc] returned for their buffers, whether [palloc_get_page]
    found a page, and the content of the uninitialised variable of [dir_add] in each call.
    The file system's own device is in [fs]; the scratch device is another one. *)
From Stdlib Require Import (notations) Ascii String.
From S2P Require Import Prelude Mem Bitmap Vaddr Inode Directory FileTable FsTheorems.
From S2P Require Import CString FixedPoint Stdio StdioTheorems Ustar Blockdev.

(** What is printed: a line, or a call of [hex_dump] (in [Stdio]). *)
Inductive out := Line (text : list Z) | Dump (pos : Z) (bytes : list Z).

(** ** Listing and printing *)

(** [while (dir_readdir (dir, name)) printf ("%s\n", name);] *)
Fixpoint ls_loop (fuel : nat) (s : fs) (dir : Z) (c : list out) : res (list out * fs) :=
  match fuel with
  | O => Stuck
  | S fuel =>
    '(o, s) ← dir_readdir s dir;
    match o with
    | Some name => ls_loop fuel s dir (c ++ [Line name])
    | None => Ret (c, s)
    end
  end.
(** One round per entry and one more. *)
Definition ls_fuel (s : fs) (dir : Z) : nat :=
  match dirs s !! dir with Some d => dir_fuel s (d_inode d) | None => 1 end.
Definition fsutil_ls (s : fs) : res (list out * fs) :=
  let c := [Line (chars "Files in the root directory:")] in
  '(dir, s) ← dir_open_root s;
  if dir =? NULL then Panic else
  '(c, s) ← ls_loop (ls_fuel s dir) s dir c;
  s ← dir_close s dir;
  Ret (c ++ [Line (chars "End of listing.")], s).

Fixpoint cat_loop (fuel : nat) (s : fs) (file : Z) (c : list out) : res (list out * fs) :=
  match fuel with
  | O => Stuck
  | S fuel =>
    pos ← file_tell s file;
    '(buffer, s) ← file_read s file PGSIZE;
    if Z.of_nat (length buffer) =? 0 then Ret (c, s)
    else cat_loop fuel s file (c ++ [Dump pos buffer])
  end.
(** A round reads a byte or is the last. *)
Definition cat_fuel (s : fs) (file : Z) : nat :=
  match file_length s file with Ret n => S (Z.to_nat n) | _ => 1 end.
Definition fsutil_cat (page : bool) (s : fs) (file_name : list Z) : res (list out * fs) :=
  let c := [Line (chars "Printing '" ++ file_name ++ chars "' to the console...")] in
  '(file, s) ← filesys_open s file_name;
  if file =? NULL then Panic else
  ASSERT page;;
  '(c, s) ← cat_loop (cat_fuel s file) s file c;
  s ← file_close s file;
  Ret (c, s).

Definition fsutil_rm (s : fs) (file_name : list Z) : res (list out * fs) :=
  '(ok, s) ← filesys_remove s file_name;
  if negb ok then Panic else Ret ([Line (chars "Deleting '" ++ file_name ++ chars "'...")], s).

(** ** Archives *)

(** The fuel of [block_read] and [block_write]: partitions are nested in older devices. *)
Definition depth (st : registry) : nat := S (length (all_blocks st)).
Definition min_sector (size : Z) : Z := if BLOCK_SECTOR_SIZE <? size then BLOCK_SECTOR_SIZE else size.

(** [while (size > 0)] of [fsutil_extract]: the position on the archive moves along. *)
Fixpoint extract_copy (fuel : nat) (s : fs) (st : registry) (m : mem) (src : nat)
    (sector dst data size : Z) : res (fs * registry * mem * Z) :=
  match fuel with
  | O => Stuck
  | S fuel =>
    if 0 <? size then
      let chunk_size := min_sector size in
      '(bs, st) ← Blockdev.block_read (depth st) st src sector;
      let m := write_bytes m data bs in
      '(n, s) ← file_write s dst (bytes_at m data chunk_size);
      if negb (n =? chunk_size) then Panic
      else extract_copy fuel s st m src (u32 (sector + 1)) dst data (size - chunk_size)
    else Ret (s, st, m, sector)
  end.

(** [for (;;)] of [fsutil_extract].  [e0]: the automatic variable of [dir_add] when the
    file of the header at a sector is created. *)
Fixpoint extract_entries (fuel : nat) (e0 : Z → list Z) (s : fs) (st : registry) (m : mem) (src : nat)
    (sector header data : Z) (c : list out) : res (fs * registry * mem * Z * list out) :=
  match fuel with
  | O => Stuck
  | S fuel =>
    '(bs, st) ← Blockdev.block_read (depth st) st src sector;
    let m := write_bytes m header bs in
    let sector' := u32 (sector + 1) in
    r ← ustar_parse_header m header;
    match r with
    | Error _ => Panic
    | End => Ret (s, st, m, sector', c)
    | Ustar.Entry file_name type size =>
      if type =? USTAR_DIRECTORY then
        extract_entries fuel e0 s st m src sector' header data
          (c ++ [Line (chars "ignoring directory " ++ file_name)])
      else
        let c := c ++ [Line (chars "Putting '" ++ file_name ++ chars "' into the file system...")] in
        '(ok, s) ← filesys_create (e0 sector) s file_name size;
        if negb ok then Panic else
        '(dst, s) ← filesys_open s file_name;
        if dst =? NULL then Panic else
        '(s, st, m, sector') ← extract_copy (S (Z.to_nat size)) s st m src sector' dst data size;
        s ← file_close s dst;
        extract_entries fuel e0 s st m src sector' header data c
    end
  end.

(** [sector]: the static variable, which the call leaves where it got to. *)
Definition fsutil_extract (fuel : nat) (e0 : Z → list Z) (s : fs) (st : registry) (m : mem)
    (sector header data : Z) : res (fs * registry * mem * Z * list out) :=
  if (header =? NULL) || (data =? NULL) then Panic else
  o ← block_get_role st BLOCK_SCRATCH;
  match o with
  | None => Panic
  | Some src =>
    '(s, st, m, sector, c) ← extract_entries fuel e0 s st m src sector header data
      [Line (chars "Extracting ustar archive from scratch device into file system...")];
    '(_, m) ← memset m header 0 BLOCK_SECTOR_SIZE;
    st ← Blockdev.block_write (depth st) st src 0 (bytes_at m header 512);
    st ← Blockdev.block_write (depth st) st src 1 (bytes_at m header 512);
    Ret (s, st, m, sector, c ++ [Line (chars "Erasing ustar archive...")])
  end.

Fixpoint append_copy (fuel : nat) (s : fs) (st : registry) (m : mem) (dst : nat)
    (sector src buffer size : Z) : res (fs * registry * mem * Z) :=
  match fuel with
  | O => Stuck
  | S fuel =>
    if 0 <? size then
      let chunk_size := min_sector size in
      x ← get_block st dst;
      if block_size x <=? sector then Panic else
      '(bs, s) ← file_read s src chunk_size;
      let m := write_bytes m buffer bs in
      if negb (Z.of_nat (length bs) =? chunk_size) then Panic else
      '(_, m) ← memset m (buffer + chunk_size) 0 (BLOCK_SECTOR_SIZE - chunk_size);
      st ← Blockdev.block_write (depth st) st dst sector (bytes_at m buffer 512);
      append_copy fuel s st m dst (u32 (sector + 1)) src buffer (size - chunk_size)
    else Ret (s, st, m, sector)
  end.

(** [fsutil_append] between opening the source file and closing it. *)
Definition append_file (s : fs) (st : registry) (m : mem) (file_name : list Z)
    (sector src buffer : Z) : res (fs * registry * mem * Z) :=
  size ← file_length s src;
  o ← block_get_role st BLOCK_SCRATCH;
  match o with
  | None => Panic
  | Some dst =>
    '(ok, _, m) ← ustar_make_header [] m file_name USTAR_REGULAR size buffer;
    if negb ok then Panic else
    st ← Blockdev.block_write (depth st) st dst sector (bytes_at m buffer 512);
    '(s, st, m, sector) ← append_copy (S (Z.to_nat size)) s st m dst (u32 (sector + 1)) src buffer size;
    '(_, m) ← memset m buffer 0 BLOCK_SECTOR_SIZE;
    st ← Blockdev.block_write (depth st) st dst sector (bytes_at m buffer 512);
    st ← Blockdev.block_write (depth st) st dst sector (bytes_at m (buffer + 1) 512);
    Ret (s, st, m, sector)
  end.
Definition fsutil_append (s : fs) (st : registry) (m : mem) (file_name : list Z)
    (sector buffer : Z) : res (fs * registry * mem * Z * list out) :=
  let c := [Line (chars "Appending '" ++ file_name ++ chars "' to ustar archive on scratch device...")] in
  if buffer =? NULL then Panic else
  '(src, s) ← filesys_open s file_name;
  if src =? NULL then Panic else
  '(s, st, m, sector) ← append_file s st m file_name sector src buffer;
  s ← file_close s src;
  Ret (s, st, m, sector, c).

(** A file copied to the archive and from there to another file system: its bytes arrive.
    The byte after the buffer is 7. *)
Definition demo_registry : registry :=
  Registry [Block (chars "hdb") BLOCK_RAW 100 (Disk 1) 0 0]
    (λ r, if decide (r = BLOCK_SCRATCH) then Some 0%nat else None) ∅ (λ _, true).
Definition demo_bytes : list Z := (λ k, k mod 251) <$> seqZ 0 600.
Definition demo_file : fs := value demo_fs
  ('(_, s) ← file_write demo_opened.2 demo_opened.1 demo_bytes; file_close s demo_opened.1).
Definition demo_appended : fs * registry * mem * Z * list out :=
  value (demo_fs, demo_registry, ∅, 0, [])
    (fsutil_append demo_file demo_registry (store8 ∅ 4608 7) [97; 98] 0 4096).

Example append_end_byte :
  Blockdev.raw_sector demo_appended.1.1.1.2 1 3 = replicate 511 0 ++ [7].
Proof. vm_compute. reflexivity. Qed.
Example extract_copies_file :
  ('(s, _, _, sector, _) ← fsutil_extract 9 (λ _, replicate 20 0) demo_fs
      (value demo_registry (Blockdev.block_write 2 demo_appended.1.1.1.2 0 3 (replicate 512 0))) ∅ 0 4096 8192;
   '(p, s) ← filesys_open s [97; 98];
   '(bs, _) ← file_read s p 1000;
   Ret (bs, sector)) = Ret (demo_bytes, 4).
Proof. vm_compute. reflexivity. Qed.
(** With that byte in the sector after the file, the archive has no end. *)
Example extract_rejects_end :
  fsutil_extract 9 (λ _, replicate 20 0) demo_fs demo_appended.1.1.1.2 ∅ 0 4096 8192 = Panic.
Proof. vm_compute. reflexivity. Qed.
Example ls_lists_files :
  fst <$> fsutil_ls demo_file = Ret [Line (chars "Files in the root directory:"); Line [97; 98];
                                     Line (chars "End of listing.")].
Proof. vm_compute. reflexivity. Qed.

(** ** Sectors of the scratch device *)

(** What sector [sec] of device [b] holds. *)
Definition dev_sector (st : registry) (b : nat) (sec : Z) : list Z :=
  match raw_addr (S b) (geometry st) b sec with
  | Some ds => raw_sector st ds.1 ds.2
  | None => []
  end.
(** Device [b] can be written and has [n] sectors. *)
Record device (st : registry) (b : nat) (n : Z) : Prop := {
  dv_wf : registry_wf st;
  dv_block : ∃ t d, geometry st !! b = Some (t, n, d) ∧ t ≠ BLOCK_FOREIGN;
}.
(** The sectors of [st'] are those of [st] but for [sec], ..., which hold [ss]. *)
Definition sectors_written (st st' : registry) (b : nat) (n sec : Z) (ss : list (list Z)) : Prop :=
  geometry st' = geometry st ∧ block_by_role st' = block_by_role st ∧
  ∀ x, 0 ≤ x < n → dev_sector st' b x
    = if decide (sec ≤ x) then default (dev_sector st b x) (ss !! Z.to_nat (x - sec))
      else dev_sector st b x.

Lemma device_depth st b n : device st b n → (b < depth st)%nat.
Proof.
  intros [_ (t & d & Hb & _)]. apply geometry_lookup_inv in Hb as (x & Hx & _).
  apply lookup_lt_Some in Hx. unfold depth. lia.
Qed.
Lemma device_size st b n : device st b n → is_u32 n.
Proof. intros [Hwf (t & d & Hb & _)]. by destruct (Hwf _ _ _ _ Hb). Qed.
Lemma device_get st b n : device st b n → ∃ x, get_block st b = Ret x ∧ block_size x = n.
Proof.
  intros [_ (t & d & Hb & _)]. apply geometry_lookup_inv in Hb as (x & Hx & _ & Hn & _).
  exists x. unfold get_block. by rewrite Hx.
Qed.
Lemma device_geometry st st' b n : geometry st' = geometry st → device st b n → device st' b n.
Proof. intros E [Hwf Hb]. split; [by eapply wf_geometry|by rewrite E]. Qed.

Lemma roles_write fuel : ∀ st b sec bs st',
  Blockdev.block_write fuel st b sec bs = Ret st' → block_by_role st' = block_by_role st.
Proof.
  induction fuel as [|fuel IH]; intros st b sec bs st' E; [done|]. cbn [Blockdev.block_write] in E.
  bind_inv E. bind_inv E. bind_inv E. bind_inv E. injection E as <-. cbn.
  destruct (b_driver v); [by injection E3 as <-|by eapply IH].
Qed.
Lemma roles_read fuel : ∀ st b sec bs st',
  Blockdev.block_read fuel st b sec = Ret (bs, st') → block_by_role st' = block_by_role st.
Proof.
  induction fuel as [|fuel IH]; intros st b sec bs st' E; [done|]. cbn [Blockdev.block_read] in E.
  bind_inv E. bind_inv E. bind_inv E. destruct v1 as [bs' st1]. injection E as _ <-. cbn.
  destruct (b_driver v); [by injection E2 as _ <-|by eapply IH].
Qed.

Lemma dev_write st b n sec bs :
  device st b n → 0 ≤ sec < n →
  ∃ st', Blockdev.block_write (depth st) st b sec bs = Ret st' ∧ sectors_written st st' b n sec [bs].
Proof.
  intros Hd Hs. pose proof (device_depth _ _ _ Hd) as Hb. pose proof Hd as [Hwf (t & d & Hg & Ht)].
  destruct (block_write_spec b bs (depth st) st sec t n d Hwf Hg Ht Hs Hb)
    as (ds & st' & Ea & E & Eg & Ed & _).
  exists st'. split; [done|]. split; [done|]. split; [by eapply roles_write|].
  rewrite (raw_addr_fuel st b _ (S b)) in Ea by (done || lia).
  intros x Hx. unfold dev_sector, raw_sector. rewrite Eg, Ed.
  destruct (raw_addr_some st b (S b) x t n d Hwf Hg) as [r Er]; [lia|]. rewrite Er.
  destruct (decide (x = sec)) as [->|Hne].
  - rewrite Ea in Er. injection Er as <-. rewrite decide_True by lia.
    rewrite <- surjective_pairing, lookup_insert_eq, Z.sub_diag. done.
  - rewrite <- surjective_pairing, lookup_insert_ne.
    + case_decide; [|done]. rewrite lookup_ge_None_2; [done|]. cbn. lia.
    + intros ->. by apply Hne, (raw_addr_inj _ _ _ _ _ _ Er Ea).
Qed.

Lemma dev_read st b n sec :
  device st b n → 0 ≤ sec < n →
  ∃ st', Blockdev.block_read (depth st) st b sec = Ret (dev_sector st b sec, st')
    ∧ sectors_written st st' b n 0 [].
Proof.
  intros Hd Hs. pose proof (device_depth _ _ _ Hd) as Hb. pose proof Hd as [Hwf (t & d & Hg & Ht)].
  destruct (block_read_spec b (depth st) st sec t n d Hwf Hg Hs Hb) as (ds & st' & Ea & E & Eg & Ed & _).
  rewrite (raw_addr_fuel st b _ (S b)) in Ea by (done || lia).
  exists st'. unfold dev_sector at 1. rewrite Ea. split; [done|]. split; [done|].
  split; [by eapply roles_read|]. intros x Hx. rewrite decide_True by lia. cbn.
  unfold dev_sector, raw_sector. by rewrite Eg, Ed.
Qed.

Lemma written_nil st b n sec : sectors_written st st b n sec [].
Proof. split; [done|]. split; [done|]. intros. by case_decide. Qed.
Lemma written_app st1 st2 st3 b n sec ss ss' :
  sectors_written st1 st2 b n sec ss → sectors_written st2 st3 b n (sec + len ss) ss' →
  sectors_written st1 st3 b n sec (ss ++ ss').
Proof.
  intros (G1 & R1 & H1) (G2 & R2 & H2). split; [congruence|]. split; [congruence|].
  intros x Hx. rewrite H2, H1 by done.
  destruct (decide (sec ≤ x)) as [Hle|Hgt]; [|by rewrite decide_False by lia].
  case_decide as Hc.
  - rewrite (lookup_app_r ss) by lia. rewrite (lookup_ge_None_2 ss) by lia. cbn.
    do 2 f_equal. lia.
  - by rewrite (lookup_app_l ss) by lia.
Qed.
(** The last sector is written again. *)
Lemma written_again st1 st2 st3 b n sec ss bs bs' :
  sectors_written st1 st2 b n sec (ss ++ [bs]) → sectors_written st2 st3 b n (sec + len ss) [bs'] →
  sectors_written st1 st3 b n sec (ss ++ [bs']).
Proof.
  intros (G1 & R1 & H1) (G2 & R2 & H2). split; [congruence|]. split; [congruence|].
  intros x Hx. rewrite H2, H1 by done.
  destruct (decide (sec ≤ x)) as [Hle|Hgt]; [|by rewrite decide_False by lia].
  case_decide as Hc.
  - rewrite (lookup_app_r ss _ _) by lia. rewrite (lookup_app_r ss) by lia.
    replace (Z.to_nat (x - sec) - length ss)%nat with (Z.to_nat (x - (sec + Z.of_nat (length ss)))) by lia.
    by destruct (Z.to_nat (x - (sec + Z.of_nat (length ss)))).
  - by rewrite !(lookup_app_l ss) by lia.
Qed.

(** ** Files as sectors of an archive *)
Definition sectors (size : Z) : Z := (size + 511) / 512.
Definition pad (bs : list Z) : list Z := bs ++ replicate (512 - length bs) 0.
(** The bytes in [n] sectors, the last filled up with zeros. *)
Fixpoint archive_data (n : nat) (bs : list Z) : list (list Z) :=
  match n with
  | O => []
  | S n => pad (take 512 bs) :: archive_data n (drop 512 bs)
  end.

Lemma length_archive_data n : ∀ bs, length (archive_data n bs) = n.
Proof. induction n as [|n IH]; intros bs; [done|]. cbn. by rewrite IH. Qed.
Lemma sectors_0 size : size ≤ 0 → -512 < size → sectors size = 0.
Proof. unfold sectors. intros. apply Z.div_small. lia. Qed.
Lemma sectors_step size : 0 < size → sectors size = 1 + sectors (size - min_sector size).
Proof.
  unfold sectors, min_sector, BLOCK_SECTOR_SIZE. intros. destruct (Z.ltb_spec 512 size);
    Z.to_euclidean_division_equations; lia.
Qed.
Lemma sectors_nonneg size : 0 ≤ size → 0 ≤ sectors size.
Proof. unfold sectors. intros. apply Z.div_pos; lia. Qed.
Lemma min_sector_spec size : 0 < size → 0 < min_sector size ≤ 512 ∧ min_sector size ≤ size.
Proof. unfold min_sector, BLOCK_SECTOR_SIZE. intros. destruct (Z.ltb_spec 512 size); lia. Qed.

(** The first sector of the bytes at [a], and the others. *)
Lemma archive_data_step d a size :
  0 < size →
  archive_data (Z.to_nat (sectors size)) (bytes_at d a size)
  = pad (bytes_at d a (min_sector size))
    :: archive_data (Z.to_nat (sectors (size - min_sector size)))
         (bytes_at d (a + min_sector size) (size - min_sector size)).
Proof.
  intros Hs. pose proof (min_sector_spec size Hs). pose proof (sectors_nonneg (size - min_sector size)).
  rewrite sectors_step, Z2Nat.inj_add by lia. change (Z.to_nat 1) with 1%nat.
  cbn [Nat.add archive_data].
  set (c := min_sector size) in *.
  assert (E : bytes_at d a size = bytes_at d a c ++ bytes_at d (a + c) (size - c))
    by (rewrite bytes_at_app by lia; f_equal; lia).
  assert (Hc : c = 512 ∨ size = c ∧ c ≤ 512)
    by (unfold c, min_sector, BLOCK_SECTOR_SIZE in *; destruct (Z.ltb_spec 512 size); lia).
  rewrite E. destruct Hc as [Hc|[Hc Hle]].
  - by rewrite take_app_length', drop_app_length' by (rewrite length_bytes_at; lia).
  - rewrite (bytes_at_0 d (a + c)), app_nil_r by lia.
    rewrite take_ge, drop_ge by (rewrite length_bytes_at; lia). done.
Qed.

(** The buffer after the copy of a chunk and [memset] of its rest. *)
Lemma padded_buffer m a bs :
  Forall is_byte bs → (length bs ≤ 512)%nat →
  bytes_at (fill (write_bytes m a bs) (a + len bs) 0 (512 - length bs)) a 512 = pad bs.
Proof.
  intros Hb Hl. set (m' := fill _ _ _ _).
  replace (bytes_at m' a 512) with (bytes_at m' a (len bs) ++ bytes_at m' (a + len bs) (512 - len bs))
    by (rewrite bytes_at_app by lia; f_equal; lia).
  unfold pad, m'. f_equal.
  - trans (bytes_at (write_bytes m a bs) a (len bs)); [|by apply bytes_at_write_same].
    apply list_eq. intros k. rewrite !lookup_bytes_at.
    case_decide; [|done]. by rewrite load8_fill, decide_False by lia.
  - apply list_eq. intros k. rewrite lookup_bytes_at. case_decide.
    + rewrite load8_fill, decide_True by lia. rewrite lookup_replicate_2 by lia. done.
    + symmetry. apply lookup_replicate_None. lia.
Qed.

(** ** Reading and writing an open file *)
Record file_at (s : fs) (p : Z) (f : file) (i : inode) : Prop := {
  fa_file : files s !! p = Some f;
  fa_inode : inodes s !! f_inode f = Some i;
  fa_extent : extent_ok s i;
  fa_pos : 0 ≤ f_pos f;
  fa_size : i_length i < 2147483648;
}.
Definition at_pos (f : file) (pos : Z) : file := File (f_inode f) pos (deny_write f).
(** Only the position of the file and bytes of the device change. *)
Record file_moved (s s' : fs) (p : Z) (f : file) : Prop := {
  mv_files : files s' = <[p := f]> (files s);
  mv_inodes : inodes s' = inodes s;
  mv_dev : dev_size s' = dev_size s;
  mv_plenty : plenty s → plenty s';
}.
Lemma moved_file_at s s' p f i pos :
  file_at s p f i → file_moved s s' p (at_pos f pos) → 0 ≤ pos → file_at s' p (at_pos f pos) i.
Proof.
  intros [H1 H2 [? ? ? ?] H4 H5] [E1 E2 E3 E4] Hp. split; cbn; [|by rewrite E2| |done|done].
  - by rewrite E1, lookup_insert_eq.
  - by split; rewrite ?E3.
Qed.
Lemma moved_trans s s1 s2 p f f' : file_moved s s1 p f → file_moved s1 s2 p f' → file_moved s s2 p f'.
Proof.
  intros [E1 E2 E3 E4] [F1 F2 F3 F4]. split; [|congruence|congruence|auto].
  by rewrite F1, E1, insert_insert_eq.
Qed.
Lemma moved_refl s p f i : file_at s p f i → file_moved s s p (at_pos f (f_pos f)).
Proof. intros [H _ _ _ _]. split; try done. unfold at_pos. destruct f. by rewrite insert_id. Qed.

Lemma file_read_available s p f i n :
  file_at s p f i → plenty s → f_pos f ≤ i_length i →
  let k := available i n (f_pos f) in
  ∃ s', file_read s p n = Ret (bytes_at (disk s) (data_addr i (f_pos f)) k, s')
    ∧ file_moved s s' p (at_pos f (f_pos f + k)) ∧ disk s' = disk s.
Proof.
  intros [Hf Hi Hx Hp Hs] Hm Hle k. unfold file_read, get_file. rewrite Hf, bind_Ret.
  destruct (inode_read_at_spec s (f_inode f) i n (f_pos f) Hi Hx Hp) as (n' & j & -> & _ & _ & Hall).
  rewrite (Hall (Hm 0%nat)), bind_Ret. fold k.
  assert (0 ≤ k ≤ i_length i - f_pos f) by (unfold k, available; lia).
  eexists. split; [done|]. split; [|done]. split; cbn; [|done|done|by intros H' j'; apply H'].
  rewrite length_bytes_at, Z2Nat.id by lia. unfold at_pos. do 2 f_equal. apply s32_id. unfold is_s32. lia.
Qed.
Lemma file_read_exact s p f i n :
  file_at s p f i → plenty s → 0 ≤ n → f_pos f + n ≤ i_length i →
  ∃ s', file_read s p n = Ret (bytes_at (disk s) (data_addr i (f_pos f)) n, s')
    ∧ file_moved s s' p (at_pos f (f_pos f + n)) ∧ disk s' = disk s.
Proof.
  intros Hf Hm Hn Hle. pose proof (file_read_available s p f i n Hf Hm ltac:(lia)) as H.
  unfold available in H. by rewrite Z.max_r, Z.min_l in H by lia.
Qed.
Lemma file_write_spec s p f i bs :
  file_at s p f i → plenty s → deny_write_cnt i = 0 → f_pos f + len bs ≤ i_length i →
  ∃ s', file_write s p bs = Ret (len bs, s') ∧ file_moved s s' p (at_pos f (f_pos f + len bs))
    ∧ disk_eq (disk s') (write_bytes (disk s) (data_addr i (f_pos f)) bs).
Proof.
  intros [Hf Hi Hx Hp Hs] Hm Hw Hle. unfold file_write, get_file. rewrite Hf, bind_Ret.
  destruct (inode_write_at_spec s (f_inode f) i bs (f_pos f) Hi Hx Hp Hw)
    as (n' & d & k & -> & Hd & _ & _ & Hall).
  specialize (Hall (Hm 0%nat)). unfold available in Hall. rewrite Z.max_r, Z.min_l in Hall by lia.
  subst n'. rewrite Nat2Z.id, take_ge in Hd by lia.
  rewrite bind_Ret. eexists. split; [done|]. split; [|exact Hd].
  split; cbn; [|done|done|by intros H j; apply H].
  unfold at_pos. do 2 f_equal. apply s32_id. unfold is_s32. lia.
Qed.

(** ** The copy loops *)

(** The loop of [fsutil_append] writes the rest of the file, [size] bytes, to the sectors
    from [sec] on. *)
Lemma append_copy_spec fuel : ∀ s st m b n sec p f i buffer size,
  file_at s p f i → plenty s → f_pos f + size = i_length i → 0 ≤ size < Z.of_nat fuel →
  device st b n → 0 ≤ sec → sec + sectors size ≤ n → 0 < buffer →
  ∃ s' st' m', append_copy fuel s st m b sec p buffer size = Ret (s', st', m', sec + sectors size)
    ∧ file_moved s s' p (at_pos f (i_length i)) ∧ disk s' = disk s
    ∧ sectors_written st st' b n sec
        (archive_data (Z.to_nat (sectors size)) (bytes_at (disk s) (data_addr i (f_pos f)) size))
    ∧ ∀ a, ¬ (buffer ≤ a < buffer + 512) → load8 m' a = load8 m a.
Proof.
  induction fuel as [|fuel IH]; intros s st m b n sec p f i buffer size Hf Hm Hend Hsz Hd Hsec Hn Hb; [lia|].
  cbn [append_copy]. destruct (Z.ltb_spec 0 size) as [Hpos|Hneg].
  2: { assert (size = 0) as -> by lia. exists s, st, m. rewrite (sectors_0 0), Z.add_0_r by lia.
       split_and!; [done| |done|apply written_nil|done]. rewrite <- Hend, Z.add_0_r. by eapply moved_refl. }
  pose proof (min_sector_spec size Hpos) as Hc. pose proof (device_size _ _ _ Hd) as Hu.
  rewrite sectors_step in Hn by done. pose proof (sectors_nonneg (size - min_sector size)) as Hr.
  rewrite archive_data_step, (sectors_step size) by done. revert Hc Hn Hr.
  generalize (min_sector size). intros c Hc Hn Hr.
  destruct (device_get _ _ _ Hd) as (x & -> & Hx). rewrite bind_Ret, Hx.
  destruct (Z.leb_spec n sec); [lia|]. pose proof (fa_pos _ _ _ _ Hf) as Hp0.
  destruct (file_read_exact s p f i c Hf Hm) as (s1 & -> & Hmv & Hdisk); [lia|lia|].
  rewrite bind_Ret. set (bs := bytes_at _ _ c).
  assert (Hlen : length bs = Z.to_nat c) by apply length_bytes_at.
  rewrite Hlen, Z2Nat.id, Z.eqb_refl by lia. cbn [negb]. unfold memset, BLOCK_SECTOR_SIZE.
  rewrite ASSERT_true by (destruct (Z.eqb_spec (buffer + c) NULL); unfold NULL in *; [lia|done]).
  rewrite bind_Ret. replace (Z.to_nat (512 - c)) with (512 - length bs)%nat by lia.
  replace (buffer + c) with (buffer + len bs) by lia.
  rewrite padded_buffer by (apply bytes_at_bytes || lia).
  destruct (dev_write st b n sec (pad bs) Hd) as (st1 & -> & Hw1); [lia|]. rewrite bind_Ret.
  rewrite u32_id by (unfold is_u32 in *; lia).
  edestruct (IH s1 st1 (fill (write_bytes m buffer bs) (buffer + len bs) 0 (512 - length bs)) b n (sec + 1)
      p (at_pos f (f_pos f + c)) i buffer (size - c)) as (s2 & st2 & m2 & -> & Hmv2 & Hdisk2 & Hw2 & Ho);
    [eapply moved_file_at; [done..|lia]|by apply Hmv|cbn; lia|lia|eapply device_geometry; [apply Hw1|done]|lia|lia|done|].
  exists s2, st2, m2. split_and!; [f_equal; f_equal; lia|by eapply moved_trans|congruence| |].
  - eapply (written_app _ _ _ _ _ _ [_]); [exact Hw1|]. rewrite <- Hdisk. cbn in Hw2 |- *.
    unfold data_addr in *. by rewrite <- Z.add_assoc.
  - intros a Ha. rewrite Ho, load8_fill, load8_write_bytes, !decide_False by lia. done.
Qed.

Definition sectors_hold (st : registry) (b : nat) (sec : Z) (ss : list (list Z)) : Prop :=
  ∀ (k : nat) bs, ss !! k = Some bs → dev_sector st b (sec + Z.of_nat k) = bs.

Lemma length_pad bs : (length bs ≤ 512)%nat → length (pad bs) = 512%nat.
Proof. intros. unfold pad. rewrite length_app, length_replicate. lia. Qed.
Lemma pad_bytes bs : Forall is_byte bs → Forall is_byte (pad bs).
Proof. intros. apply Forall_app. split; [done|]. apply Forall_replicate. unfold is_byte. lia. Qed.
(** The part of the buffer that is written to the file. *)
Lemma buffer_chunk m a bs c :
  Forall is_byte bs → (c ≤ length bs)%nat → (length bs ≤ 512)%nat →
  bytes_at (write_bytes m a (pad bs)) a (Z.of_nat c) = take c bs.
Proof.
  intros Hb Hc Hl. pose proof (bytes_at_write_same m a (pad bs) (pad_bytes bs Hb)) as E.
  rewrite length_pad in E by done.
  rewrite <- (Z.add_0_r a) at 2. rewrite <- (bytes_at_sub _ a 512 0) by lia.
  change 512 with (Z.of_nat 512). rewrite E, Nat2Z.id. change (Z.to_nat 0) with 0%nat. rewrite drop_0.
  unfold pad. by rewrite take_app_le by lia.
Qed.
Lemma take_min_sector (bs : list Z) :
  take 512 bs = take (Z.to_nat (min_sector (len bs))) bs ∧ drop 512 bs = drop (Z.to_nat (min_sector (len bs))) bs.
Proof.
  unfold min_sector, BLOCK_SECTOR_SIZE. destruct (Z.ltb_spec 512 (len bs)); [done|].
  rewrite Nat2Z.id. by rewrite !take_ge, !drop_ge by lia.
Qed.

(** The loop of [fsutil_extract] writes the bytes of the sectors from [sec] on to the file. *)
Lemma extract_copy_spec fuel : ∀ s st m b n sec p f i data bs,
  file_at s p f i → plenty s → deny_write_cnt i = 0 → f_pos f + len bs ≤ i_length i →
  len bs < Z.of_nat fuel → Forall is_byte bs →
  device st b n → 0 ≤ sec → sec + sectors (len bs) ≤ n →
  sectors_hold st b sec (archive_data (Z.to_nat (sectors (len bs))) bs) →
  ∃ s' st' m', extract_copy fuel s st m b sec p data (len bs) = Ret (s', st', m', sec + sectors (len bs))
    ∧ file_moved s s' p (at_pos f (f_pos f + len bs))
    ∧ disk_eq (disk s') (write_bytes (disk s) (data_addr i (f_pos f)) bs)
    ∧ sectors_written st st' b n 0 [].
Proof.
  induction fuel as [|fuel IH]; intros s st m b n sec p f i data bs Hf Hm Hw Hend Hfuel Hbs Hd Hsec Hn Hh; [lia|].
  cbn [extract_copy]. destruct (Z.ltb_spec 0 (len bs)) as [Hpos|Hneg].
  2: { destruct bs; [|cbn in Hneg; lia]. exists s, st, m. rewrite (sectors_0 (len [])), !Z.add_0_r by (cbn; lia).
       split_and!; [done|by eapply moved_refl|done|apply written_nil]. }
  pose proof (min_sector_spec (len bs) Hpos) as Hc. pose proof (device_size _ _ _ Hd) as Hu.
  destruct (take_min_sector bs) as [Et Ed]. rewrite sectors_step in Hn, Hh by done.
  pose proof (sectors_nonneg (len bs - min_sector (len bs))) as Hr.
  rewrite (sectors_step (len bs)) by done. revert Hc Hn Hr Hh Et Ed.
  generalize (min_sector (len bs)). intros c Hc Hn Hr Hh Et Ed.
  rewrite Z2Nat.inj_add in Hh by lia. change (Z.to_nat 1) with 1%nat in Hh.
  cbn [Nat.add archive_data] in Hh. rewrite Et, Ed in Hh.
  destruct (dev_read st b n sec Hd) as (st1 & -> & Hr1); [lia|]. rewrite bind_Ret.
  pose proof (Hh 0%nat _ eq_refl) as E0. cbn in E0. rewrite Z.add_0_r in E0. rewrite E0.
  set (part := take (Z.to_nat c) bs) in *. set (rest := drop (Z.to_nat c) bs) in *.
  assert (Hl : length part = Z.to_nat c) by (unfold part; rewrite length_take; lia).
  assert (Hlr : len rest = len bs - c) by (unfold rest; rewrite length_drop; lia).
  replace (bytes_at (write_bytes m data (pad part)) data c) with part.
  2: { rewrite <- (Z2Nat.id c), buffer_chunk by (try apply Forall_take; done || lia).
       rewrite take_ge by lia. done. }
  destruct (file_write_spec s p f i part Hf Hm Hw) as (s1 & -> & Hmv & Hdk); [lia|].
  replace (len part) with c in * by lia. rewrite bind_Ret, Z.eqb_refl. cbn [negb].
  rewrite u32_id by (unfold is_u32 in *; lia). rewrite <- Hlr in Hn, Hr, Hh |- *.
  pose proof (fa_pos _ _ _ _ Hf) as Hp0.
  edestruct (IH s1 st1 (write_bytes m data (pad part)) b n (sec + 1) p (at_pos f (f_pos f + c)) i data rest)
    as (s2 & st2 & m2 & -> & Hmv2 & Hdk2 & Hw2);
    [eapply moved_file_at; [done..|lia]|by apply Hmv|done|cbn; lia|lia|by apply Forall_drop
    |eapply device_geometry; [apply Hr1|done]|lia|lia| |].
  { intros k x Hk. destruct Hr1 as (_ & _ & Hr1). rewrite Hr1.
    - rewrite <- (Hh (S k) x Hk). case_decide; [|lia]. rewrite lookup_nil. unfold default. cbn [from_option]. f_equal. lia.
    - apply lookup_lt_Some in Hk. rewrite length_archive_data in Hk. lia. }
  exists s2, st2, m2. split_and!.
  - f_equal. f_equal. lia.
  - cbn in Hmv2. replace (f_pos f + len bs) with (f_pos f + c + len rest) by lia. by eapply moved_trans.
  - rewrite Hdk2. cbn. rewrite Hdk. unfold data_addr. rewrite Z.add_assoc.
    replace c with (len part) at 1 by lia. rewrite write_bytes_app. unfold part, rest. by rewrite take_drop.
  - eapply (written_app _ st1 _ _ _ _ [] []); [exact Hr1|exact Hw2].
Qed.

(** ** Headers in other memory *)
Section SameHeader.
Context (m m' : mem) (h h' : Z).
Hypothesis same : ∀ k, 0 ≤ k < 512 → load8 m (h + k) = load8 m' (h' + k).

Lemma zeros_same n : ∀ k, 0 ≤ k → k + Z.of_nat n ≤ 512 → is_all_zeros m (h + k) n = is_all_zeros m' (h' + k) n.
Proof using same.
  induction n as [|n IH]; intros k Hk Hn; [done|]. cbn. rewrite same by lia.
  destruct (_ =? 0); [|done]. rewrite <- !Z.add_assoc. apply IH; lia.
Qed.
Lemma bytes_are_same cs : ∀ k, 0 ≤ k → k + len cs ≤ 512 → bytes_are m (h + k) cs = bytes_are m' (h' + k) cs.
Proof using same.
  induction cs as [|c cs IH]; intros k Hk Hn; [done|]. cbn [length] in Hn. cbn [bytes_are]. rewrite same by lia.
  f_equal. rewrite <- !Z.add_assoc. apply IH; lia.
Qed.
Lemma octal_same n : ∀ k o v, 0 ≤ k → k + Z.of_nat n ≤ 512 → octal_loop n m (h + k) o v = octal_loop n m' (h' + k) o v.
Proof using same.
  induction n as [|n IH]; intros k o v Hk Hn; [done|]. cbn [octal_loop]. rewrite same by lia.
  rewrite <- !Z.add_assoc. by rewrite IH by lia.
Qed.
Lemma string_same n : ∀ k, 0 ≤ k → k + Z.of_nat n ≤ 512 → string_at m (h + k) n = string_at m' (h' + k) n.
Proof using same.
  induction n as [|n IH]; intros k Hk Hn; [done|]. cbn. rewrite same by lia.
  destruct (_ =? 0); [done|]. f_equal. rewrite <- !Z.add_assoc. apply IH; lia.
Qed.
Lemma chksum_same n : ∀ k sum, 0 ≤ k → k + Z.of_nat n ≤ 512 → chksum_loop n m h k sum = chksum_loop n m' h' k sum.
Proof using same.
  induction n as [|n IH]; intros k sum Hk Hn; [done|]. cbn [chksum_loop]. rewrite same by lia. apply IH; lia.
Qed.

(** What a header says depends only on its 512 bytes. *)
Lemma parse_header_same : ustar_parse_header m h = ustar_parse_header m' h'.
Proof using same.
  unfold ustar_parse_header, parse_octal_field, calculate_chksum.
  assert (E : is_all_zeros m h 512 = is_all_zeros m' h' 512)
    by (rewrite <- (Z.add_0_r h), <- (Z.add_0_r h'); by apply zeros_same).
  change (Z.to_nat USTAR_HEADER_SIZE) with 512%nat. rewrite E. clear E.
  rewrite (chksum_same 512 0 0), <- !Z.add_assoc by lia. cbn [ofs fsize h_magic h_version h_chksum h_name h_prefix h_typeflag h_size].
  rewrite <- !Z.add_sub_assoc. rewrite bytes_are_same by (cbn; lia). rewrite !octal_same by (cbn; lia). rewrite string_same by (cbn; lia).
  by rewrite !same by lia.
Qed.
End SameHeader.

(** ** Appending a file *)

(** The zeroed buffer, and the same from its second byte on. *)
Lemma zeroed_buffer m a : bytes_at (fill m a 0 512) a 512 = replicate 512 0.
Proof.
  apply list_eq. intros k. rewrite lookup_bytes_at. case_decide.
  - rewrite load8_fill, decide_True by lia. by rewrite lookup_replicate_2 by lia.
  - symmetry. apply lookup_replicate_None. lia.
Qed.
Lemma shifted_buffer m a : bytes_at (fill m a 0 512) (a + 1) 512 = replicate 511 0 ++ [load8 m (a + 512)].
Proof.
  change 512 with (511 + 1) at 1. rewrite <- bytes_at_app by lia. f_equal.
  - apply list_eq. intros k. rewrite lookup_bytes_at. case_decide.
    + rewrite load8_fill, decide_True by lia. by rewrite lookup_replicate_2 by lia.
    + symmetry. apply lookup_replicate_None. lia.
  - unfold bytes_at. change (seqZ 0 1) with [0]. cbn [fmap list_fmap]. rewrite load8_fill, decide_False by lia. do 2 f_equal. lia.
Qed.

(** A header in a sector says the same wherever the sector is read to. *)
Definition header_says (hd : list Z) (r : parsed) : Prop :=
  length hd = 512%nat ∧ ∀ m h, ustar_parse_header (write_bytes m h hd) h = Ret r.
Lemma header_anywhere m a r : ustar_parse_header m a = Ret r → header_says (bytes_at m a 512) r.
Proof.
  intros E. split; [apply length_bytes_at|]. intros m2 h. rewrite <- E. apply parse_header_same.
  intros k Hk. rewrite load8_write_bytes, length_bytes_at, decide_True by lia.
  replace (h + k - h) with k by lia.
  rewrite (list_lookup_total_correct _ _ (load8 m (a + k))).
  - apply Z.mod_small, load8_range.
  - rewrite lookup_bytes_at, decide_True by lia. do 2 f_equal. lia.
Qed.

(** What the archive gets for a file: its header, its bytes, and the sector after it. *)
Definition archived (hd contents : list Z) (stray : Z) : list (list Z) :=
  (hd :: archive_data (Z.to_nat (sectors (len contents))) contents) ++ [replicate 511 0 ++ [stray]].

Section Append.
(** A file [p] open at its start, and a scratch device with room for it from sector [sec] on. *)
Context (s : fs) (st : registry) (m : mem) (file_name nm : list Z) (sec p : Z) (f : file) (i : inode)
  (buffer : Z) (b : nat) (n : Z).
Hypothesis Hf : file_at s p f i.
Hypothesis H0 : f_pos f = 0.
Hypothesis Hm : plenty s.
Hypothesis Hb : 0 < buffer.
Hypothesis Hrole : block_by_role st BLOCK_SCRATCH = Some b.
Hypothesis Hd : device st b n.
Hypothesis Hsec : 0 ≤ sec.
Hypothesis Hn : sec + 1 + sectors (i_length i) < n.
(** A name that fits a header once its dangerous prefixes are gone. *)
Hypothesis Hname : Forall (λ c, 0 < c < 256) file_name.
Hypothesis Hs : strip_antisocial_prefixes file_name = Ret nm.
Hypothesis Hl : len nm ≤ 99.

Lemma append_file_spec :
  ∃ s' st' m' hd,
    append_file s st m file_name sec p buffer = Ret (s', st', m', sec + 1 + sectors (i_length i))
    ∧ file_moved s s' p (at_pos f (i_length i)) ∧ disk s' = disk s
    ∧ sectors_written st st' b n sec
        (archived hd (bytes_at (disk s) (data_addr i 0) (i_length i)) (load8 m (buffer + 512)))
    ∧ header_says hd (Ustar.Entry nm USTAR_REGULAR (i_length i)).
Proof.
  unfold append_file, file_length, get_file, get_inode.
  rewrite (fa_file _ _ _ _ Hf), bind_Ret, (fa_inode _ _ _ _ Hf), bind_Ret, bind_Ret.
  unfold block_get_role, inode_length. cbn [is_role]. rewrite ASSERT_true, bind_Ret, Hrole by done.
  pose proof (ex_length _ _ (fa_extent _ _ _ _ Hf)) as Hlen. pose proof (fa_size _ _ _ _ Hf) as Hsz.
  pose proof (sectors_nonneg _ Hlen) as Hk. pose proof (device_size _ _ _ Hd) as Hu.
  destruct (ustar_roundtrip [] m file_name nm USTAR_REGULAR (i_length i) buffer Hb Hname Hs Hl)
    as (m1 & -> & Hparse & _ & Hout1); [by left|lia|]. rewrite bind_Ret. cbn [negb].
  destruct (dev_write st b n sec (bytes_at m1 buffer 512) Hd) as (st1 & -> & Hw1); [lia|]. rewrite bind_Ret.
  rewrite u32_id by (unfold is_u32 in *; lia).
  destruct (append_copy_spec (S (Z.to_nat (i_length i))) s st1 m1 b n (sec + 1) p f i buffer (i_length i))
    as (s2 & st2 & m2 & -> & Hmv & Hdisk & Hw2 & Hout2); [done..|lia|lia| |lia|lia|done|].
  { eapply device_geometry; [apply Hw1|done]. }
  rewrite bind_Ret. unfold memset. rewrite ASSERT_true by (destruct (Z.eqb_spec buffer NULL); unfold NULL in *; [lia|done]).
  rewrite bind_Ret. change (Z.to_nat BLOCK_SECTOR_SIZE) with 512%nat. rewrite zeroed_buffer, shifted_buffer.
  pose proof (written_app _ _ _ _ _ _ [_] _ Hw1 Hw2) as Hw. rewrite H0 in Hw.
  assert (Hd2 : device st2 b n) by (eapply device_geometry; [apply Hw|done]).
  destruct (dev_write st2 b n (sec + 1 + sectors (i_length i)) (replicate 512 0) Hd2) as (st3 & -> & Hw3); [lia|].
  rewrite bind_Ret. assert (Hd3 : device st3 b n) by (eapply device_geometry; [apply Hw3|done]).
  destruct (dev_write st3 b n (sec + 1 + sectors (i_length i)) (replicate 511 0 ++ [load8 m2 (buffer + 512)]) Hd3)
    as (st4 & -> & Hw4); [lia|].
  rewrite bind_Ret. eexists s2, st4, _, _. split; [done|]. split_and!; [done|done| |by apply header_anywhere].
  rewrite Hout2, Hout1 in Hw4 by lia. unfold archived. rewrite length_bytes_at, Z2Nat.id by done.
  eapply written_again; [eapply written_app; [exact Hw|]|]; cbn [app length]; rewrite length_archive_data.
  - replace (sec + Z.of_nat (S (Z.to_nat (sectors (i_length i))))) with (sec + 1 + sectors (i_length i)) by lia. exact Hw3.
  - replace (sec + Z.of_nat (S (Z.to_nat (sectors (i_length i))))) with (sec + 1 + sectors (i_length i)) by lia. exact Hw4.
Qed.

(** The end of the archive is to be two sectors of zeros.  Both writes go to the first of
    them, the second one from the buffer's second byte on: that sector ends with the byte
    after the buffer, and the sector after it is not written. *)
Theorem append_end_marker :
  ∃ s' st' m', append_file s st m file_name sec p buffer = Ret (s', st', m', sec + 1 + sectors (i_length i))
    ∧ dev_sector st' b (sec + 1 + sectors (i_length i)) = replicate 511 0 ++ [load8 m (buffer + 512)]
    ∧ ∀ x, 0 ≤ x < n → x < sec ∨ sec + 1 + sectors (i_length i) < x → dev_sector st' b x = dev_sector st b x.
Proof.
  destruct append_file_spec as (s' & st' & m' & hd & E & _ & _ & (_ & _ & Hw) & _).
  pose proof (ex_length _ _ (fa_extent _ _ _ _ Hf)) as Hlen. pose proof (sectors_nonneg _ Hlen) as Hk.
  exists s', st', m'. split; [done|]. unfold archived in Hw. rewrite length_bytes_at, Z2Nat.id in Hw by done. split.
  - rewrite Hw, decide_True by lia. rewrite list_lookup_middle; [done|]. cbn [length].
    rewrite length_archive_data. lia.
  - intros x Hx Hout. rewrite Hw by done. case_decide; [|done]. rewrite lookup_ge_None_2; [done|].
    rewrite length_app. cbn [length]. rewrite length_archive_data. lia.
Qed.

End Append.

(** ** Extracting it again *)

(** A sector of zeros ends the archive. *)
Lemma all_zeros_true m a n : (∀ k, a ≤ k < a + Z.of_nat n → load8 m k = 0) → is_all_zeros m a n = true.
Proof.
  revert a. induction n as [|n IH]; intros a H; [done|]. cbn. rewrite H by lia. cbn.
  apply IH. intros k Hk. apply H. lia.
Qed.
Lemma zeros_end : header_says (replicate 512 0) End.
Proof.
  split; [done|]. intros m h. unfold ustar_parse_header. rewrite all_zeros_true; [done|].
  change (Z.of_nat (Z.to_nat USTAR_HEADER_SIZE)) with 512. intros k Hk.
  rewrite load8_write_bytes, length_replicate, decide_True by lia.
  by rewrite lookup_total_replicate_2 by lia.
Qed.

(** An open file that has not been removed, with kernel memory for bounce buffers. *)
Record opened (s : fs) (p : Z) (f : file) (i : inode) : Prop := {
  op_at : file_at s p f i;
  op_kept : removed i = false;
  op_plenty : plenty s;
}.
Lemma filesys_open_fresh s name p s' f :
  filesys_open s name = Ret (p, s') → p ≠ NULL → files s' !! p = Some f → f_pos f = 0 ∧ deny_write f = false.
Proof.
  unfold filesys_open. intros E Hp. bind_inv E. destruct v as [d s1]. bind_inv E. destruct v as [ip s2]. bind_inv E.
  unfold file_open in E. destruct (kmalloc v) as [q s3]. destruct (_ && _).
  - injection E as <- <-. cbn. rewrite lookup_insert_eq. by intros [= <-].
  - bind_inv E. by injection E as <- <-.
Qed.
(** Closing it changes nothing on the device. *)
Lemma file_close_kept s p f i :
  files s !! p = Some f → inodes s !! f_inode f = Some i → deny_write f = false → removed i = false →
  ∃ s', file_close s p = Ret s' ∧ disk s' = disk s.
Proof.
  intros Hf Hi Hd Hr. unfold file_close. destruct (p =? NULL); [by exists s|].
  unfold file_allow_write, get_file. rewrite Hf, bind_Ret, Hd, bind_Ret, Hf, bind_Ret.
  unfold inode_close, get_inode. destruct (f_inode f =? NULL); [by eexists|]. rewrite Hi, bind_Ret, Hr.
  destruct (_ =? 0); by eexists.
Qed.

Lemma reads_nothing st st' b n x : sectors_written st st' b n 0 [] → 0 ≤ x < n → dev_sector st' b x = dev_sector st b x.
Proof. intros (_ & _ & H) Hx. rewrite H by done. by case_decide. Qed.

(** [fsutil_extract] on an archive that has one file at [sec] and its end after it. *)
Section Extract.
Context (fuel : nat) (e0 : Z → list Z) (st : registry) (m : mem) (sec header data : Z) (b : nat) (n : Z).
Context (name hd bs : list Z).
Hypothesis Hrole : block_by_role st BLOCK_SCRATCH = Some b.
Hypothesis Hd : device st b n.
Hypothesis Hsec : 0 ≤ sec.
Hypothesis Hn : sec + 1 + sectors (len bs) < n.
Hypothesis Hhold : sectors_hold st b sec (archived hd bs 0).
Hypothesis Hhd : header_says hd (Ustar.Entry name USTAR_REGULAR (len bs)).
Hypothesis Hbs : Forall is_byte bs.
Hypothesis Hh : 0 < header.
Hypothesis Hdata : 0 < data.
Hypothesis Hfuel : (2 ≤ fuel)%nat.
(** The file system creates the file and opens it. *)
Context (s s1 s2 : fs) (q : Z) (g : file) (j : inode).
Hypothesis Hcreate : filesys_create (e0 sec) s name (len bs) = Ret (true, s1).
Hypothesis Hopen : filesys_open s1 name = Ret (q, s2).
Hypothesis Hq : q ≠ NULL.
Hypothesis Hj : opened s2 q g j.
Hypothesis Hdeny : deny_write_cnt j = 0.
Hypothesis Hlen : i_length j = len bs.

Lemma extract_entries_one st1 m1 c :
  sectors_written st st1 b n 0 [] →
  ∃ s3 st3 m3 c', extract_entries fuel e0 s st1 m1 b sec header data c
      = Ret (s3, st3, m3, sec + 2 + sectors (len bs), c')
    ∧ sectors_written st st3 b n 0 []
    ∧ bytes_at (disk s3) (data_addr j 0) (i_length j) = bs.
Proof using Hd Hsec Hn Hhold Hhd Hbs Hfuel Hcreate Hopen Hq Hj Hdeny Hlen.
  intros Hr0. destruct fuel as [|[|fuel']]; [lia|lia|]. cbn [extract_entries].
  pose proof (sectors_nonneg (len bs) ltac:(lia)) as Hk. pose proof (device_size _ _ _ Hd) as Hu. unfold is_u32 in Hu.
  destruct Hj as [Hat Hkept Hplenty]. pose proof (fa_file _ _ _ _ Hat) as Hg.
  destruct (filesys_open_fresh _ _ _ _ _ Hopen Hq Hg) as [Hpos Hdw].
  assert (Hd1 : device st1 b n) by (eapply device_geometry; [apply Hr0|done]).
  destruct (dev_read st1 b n sec Hd1) as (st2 & -> & Hr1); [lia|]. rewrite bind_Ret.
  assert (Hr : sectors_written st st2 b n 0 []) by (eapply (written_app _ st1 _ _ _ _ [] []); [exact Hr0|exact Hr1]).
  rewrite (reads_nothing _ _ _ _ _ Hr0) by lia.
  pose proof (Hhold 0%nat hd eq_refl) as E0. rewrite Z.add_0_r in E0. rewrite E0, (proj2 Hhd), bind_Ret.
  change (USTAR_REGULAR =? USTAR_DIRECTORY) with false. cbn iota. rewrite Hcreate, bind_Ret. cbn [negb].
  rewrite Hopen, bind_Ret, (proj2 (Z.eqb_neq q NULL) Hq). rewrite (u32_id (sec + 1)) by (unfold is_u32; lia).
  assert (Hd2 : device st2 b n) by (eapply device_geometry; [apply Hr|done]).
  edestruct (extract_copy_spec (S (Z.to_nat (len bs))) s2 st2 (write_bytes m1 header hd) b n (sec + 1) q g j data bs)
    as (s3 & st3 & m3 & -> & Hmv & Hdisk & Hr3);
    [exact Hat|done|done|lia|lia|done|done|lia|lia| |].
  { intros k x Hx. pose proof (lookup_lt_Some _ _ _ Hx) as Hlt. rewrite length_archive_data in Hlt.
    rewrite (reads_nothing _ _ _ _ _ Hr) by lia. replace (sec + 1 + Z.of_nat k) with (sec + Z.of_nat (S k)) by lia.
    apply Hhold. unfold archived. by apply (lookup_app_l_Some (hd :: _) _ (S k)). }
  rewrite bind_Ret.
  destruct (file_close_kept s3 q (at_pos g (f_pos g + len bs)) j) as (s4 & -> & Hd4);
    [by rewrite (mv_files _ _ _ _ Hmv), lookup_insert_eq|rewrite (mv_inodes _ _ _ _ Hmv); apply Hat|done|done|].
  rewrite bind_Ret. assert (Hr4 : sectors_written st st3 b n 0 [])
    by (eapply (written_app _ st2 _ _ _ _ [] []); [exact Hr|exact Hr3]).
  assert (Hd3 : device st3 b n) by (eapply device_geometry; [apply Hr4|done]).
  destruct (dev_read st3 b n (sec + 1 + sectors (len bs)) Hd3) as (st4 & -> & Hr5); [lia|]. rewrite bind_Ret.
  rewrite (reads_nothing _ _ _ _ _ Hr4) by lia.
  assert (Eend : dev_sector st b (sec + 1 + sectors (len bs)) = replicate 512 0).
  { replace (sec + 1 + sectors (len bs)) with (sec + Z.of_nat (S (Z.to_nat (sectors (len bs))))) by lia.
    apply Hhold. unfold archived. apply list_lookup_middle. cbn [length]. by rewrite length_archive_data. }
  rewrite Eend, (proj2 zeros_end), bind_Ret, u32_id by (unfold is_u32; lia).
  replace (sec + 1 + sectors (len bs) + 1) with (sec + 2 + sectors (len bs)) by lia.
  eexists s4, st4, _, _. split_and!; [done| |].
  - eapply (written_app _ st3 _ _ _ _ [] []); [exact Hr4|exact Hr5].
  - rewrite Hd4, Hdisk, Hpos, Hlen. by apply bytes_at_write_same.
Qed.

Lemma fsutil_extract_one :
  ∃ s3 st3 m3 c, fsutil_extract fuel e0 s st m sec header data = Ret (s3, st3, m3, sec + 2 + sectors (len bs), c)
    ∧ bytes_at (disk s3) (data_addr j 0) (i_length j) = bs
    ∧ sectors_hold st3 b 0 [replicate 512 0; replicate 512 0].
Proof using Hrole Hd Hsec Hn Hhold Hhd Hbs Hh Hdata Hfuel Hcreate Hopen Hq Hj Hdeny Hlen.
  unfold fsutil_extract, NULL. destruct (Z.eqb_spec header 0); [lia|]. destruct (Z.eqb_spec data 0); [lia|]. cbn [orb].
  unfold block_get_role. cbn [is_role]. rewrite ASSERT_true, bind_Ret, Hrole by done.
  pose proof (sectors_nonneg (len bs) ltac:(lia)) as Hk.
  destruct (extract_entries_one st m [Line (chars "Extracting ustar archive from scratch device into file system...")])
    as (s3 & st3 & m3 & c & -> & Hr & Hbytes); [apply written_nil|]. rewrite bind_Ret.
  unfold memset. rewrite ASSERT_true by (destruct (Z.eqb_spec header NULL); unfold NULL in *; [lia|done]).
  rewrite bind_Ret. change (Z.to_nat BLOCK_SECTOR_SIZE) with 512%nat. rewrite zeroed_buffer.
  assert (Hd3 : device st3 b n) by (eapply device_geometry; [apply Hr|done]).
  destruct (dev_write st3 b n 0 (replicate 512 0) Hd3) as (st4 & -> & Hw4); [lia|]. rewrite bind_Ret.
  assert (Hd4 : device st4 b n) by (eapply device_geometry; [apply Hw4|done]).
  destruct (dev_write st4 b n 1 (replicate 512 0) Hd4) as (st5 & -> & Hw5); [lia|]. rewrite bind_Ret.
  eexists s3, st5, _, _. split_and!; [done|done|].
  pose proof (written_app _ _ _ _ _ 0 [_] [_] Hw4 Hw5) as (_ & _ & Hw).
  intros k x Hx. pose proof (lookup_lt_Some _ _ _ Hx) as Hlt. cbn in Hlt. rewrite Hw by lia.
  rewrite decide_True by lia. replace (Z.to_nat (0 + Z.of_nat k - 0)) with k by lia. change ([replicate 512 0] ++ [replicate 512 0]) with [replicate 512 0; replicate 512 0].
  by rewrite Hx.
Qed.
End Extract.

Lemma written_hold st st' b n sec ss :
  sectors_written st st' b n sec ss → 0 ≤ sec → sec + len ss ≤ n → sectors_hold st' b sec ss.
Proof.
  intros (_ & _ & H) Hs Hn k x Hx. pose proof (lookup_lt_Some _ _ _ Hx). rewrite H, decide_True by lia.
  replace (Z.to_nat (sec + Z.of_nat k - sec)) with k by lia. by rewrite Hx.
Qed.


(** ** Listing and printing *)
Definition in_use_names (es : list (list Z)) : list (list Z) :=
  e_name <$> filter (λ e, e_in_use e = true) es.

(** One call of [dir_readdir] gives the next name of the rest of the entries. *)
Lemma readdir_spec fuel : ∀ s p ip i k,
  dir_at s p (Dir ip (20 * k)) i → plenty s → 0 ≤ k ≤ n_entries i → n_entries i - k < Z.of_nat fuel →
  ∃ o s' k', readdir_loop fuel s p = Ret (o, s') ∧ dir_at s' p (Dir ip (20 * k')) i ∧ plenty s'
    ∧ disk s' = disk s ∧ k ≤ k' ≤ n_entries i
    ∧ match o with
      | Some name => in_use_names (drop (Z.to_nat k) (dir_entries (disk s) i))
                     = name :: in_use_names (drop (Z.to_nat k') (dir_entries (disk s) i)) ∧ k < k'
      | None => in_use_names (drop (Z.to_nat k) (dir_entries (disk s) i)) = []
      end.
Proof.
  induction fuel as [|fuel IH]; intros s p ip i k Hd Hm Hk Hf; [lia|]. cbn [readdir_loop].
  destruct Hd as [Hd Hi Hx]. unfold get_dir. rewrite Hd, bind_Ret. cbn [d_inode d_pos] in *.
  destruct (read_entry s ip i k Hi Hx Hm) as (e & s1 & -> & Hq & _ & He); [lia|]. rewrite bind_Ret.
  destruct (quiet_inode _ _ Hq) as (E1 & E2 & E3). pose proof Hq as [Es Hm1]. case_decide as Hlt.
  2: { destruct (Z.eqb_spec (len e) ENTRY_SIZE); [unfold ENTRY_SIZE in *; lia|].
       exists None, s1, k. split; [done|]. split; [by eapply quiet_dir_at|]. split_and!; [done|done|lia|lia|].
       by rewrite drop_entries_end by lia. }
  rewrite He, length_entry_at, drop_entries by lia. cbn [Z.eqb Z.of_nat].
  change (Z.of_nat 20 =? ENTRY_SIZE) with true. cbn iota.
  set (s2 := set_dirs s1 _).
  assert (Hd2 : dir_at s2 p (Dir ip (20 * (k + 1))) i).
  { unfold s2. rewrite Es. split; cbn; [|done|by destruct Hx].
    rewrite lookup_insert_eq. do 2 f_equal. unfold ENTRY_SIZE. lia. }
  unfold in_use_names at 1 3. rewrite filter_cons. destruct (e_in_use (entry_at (disk s) i k)) eqn:Hu.
  - rewrite decide_True by done. exists (Some (e_name (entry_at (disk s) i k))), s2, (k + 1).
    split_and!; try done; lia.
  - rewrite decide_False by done.
    destruct (IH s2 p ip i (k + 1) Hd2 Hm1) as (o & s3 & k' & -> & H1 & H2 & H3 & H4 & H5); [lia|lia|].
    change (disk s2) with (disk s1) in *. rewrite E2 in *.
    exists o, s3, k'. split_and!; try done; [lia|lia|]. destruct o; [|done]. destruct H5. split; [done|lia].
Qed.

Lemma ls_loop_spec fuel : ∀ s p ip i k c,
  dir_at s p (Dir ip (20 * k)) i → plenty s → 0 ≤ k ≤ n_entries i → n_entries i - k < Z.of_nat fuel →
  ∃ s', ls_loop fuel s p c
        = Ret (c ++ (Line <$> in_use_names (drop (Z.to_nat k) (dir_entries (disk s) i))), s')
    ∧ disk s' = disk s.
Proof.
  induction fuel as [|fuel IH]; intros s p ip i k c Hd Hm Hk Hf; [lia|]. cbn [ls_loop].
  unfold dir_readdir, get_dir. rewrite (da_dir _ _ _ _ Hd), bind_Ret. cbn [d_inode].
  pose proof (n_entries_bound i (ex_length _ _ (da_extent _ _ _ _ Hd))).
  destruct (readdir_spec (dir_fuel s ip) s p ip i k Hd Hm) as (o & s1 & k' & -> & H1 & H2 & H3 & H4 & H5);
    [lia|unfold dir_fuel; rewrite (da_inode _ _ _ _ Hd : inodes s !! ip = _); lia|].
  rewrite bind_Ret. destruct o as [name|].
  - destruct H5 as [-> Hlt]. destruct (IH s1 p ip i k' (c ++ [Line name]) H1 H2) as (s2 & -> & E); [lia|lia|].
    exists s2. rewrite H3 in *. split; [|done]. by rewrite <- app_assoc.
  - exists s1. rewrite H5. split; [by rewrite app_nil_r|done].
Qed.

(** The bytes of consecutive dumps from [pos] on. *)
Fixpoint dumped (pos : Z) (c : list out) : option (list Z) :=
  match c with
  | [] => Some []
  | Dump p bs :: c => if p =? pos then app bs <$> dumped (pos + len bs) c else None
  | Line _ :: _ => None
  end.

Lemma cat_loop_spec fuel : ∀ s p f i c,
  file_at s p f i → plenty s → f_pos f ≤ i_length i → i_length i - f_pos f < Z.of_nat fuel →
  ∃ s' ds, cat_loop fuel s p c = Ret (c ++ ds, s') ∧ file_moved s s' p (at_pos f (i_length i)) ∧ disk s' = disk s
    ∧ dumped (f_pos f) ds = Some (bytes_at (disk s) (data_addr i (f_pos f)) (i_length i - f_pos f)).
Proof.
  induction fuel as [|fuel IH]; intros s p f i c Hf Hm Hle Hfuel; [lia|]. cbn [cat_loop].
  unfold file_tell, get_file at 1. rewrite (fa_file _ _ _ _ Hf). cbn [fmap res_fmap]. rewrite bind_Ret.
  destruct (file_read_available s p f i PGSIZE Hf Hm Hle) as (s1 & -> & Hmv & Hd). rewrite bind_Ret.
  change PGSIZE with 4096 in *. rewrite length_bytes_at. pose proof (fa_pos _ _ _ _ Hf) as Hp.
  assert (Hk : 0 ≤ available i 4096 (f_pos f) ≤ i_length i - f_pos f
               ∧ (available i 4096 (f_pos f) = 0 ↔ f_pos f = i_length i)) by (unfold available; lia).
  revert Hmv Hk. generalize (available i 4096 (f_pos f)). intros k Hmv [Hk Hz].
  rewrite Z2Nat.id by lia. destruct (Z.eqb_spec k 0) as [->|Hne].
  - exists s1, []. rewrite app_nil_r. rewrite Z.add_0_r in Hmv. rewrite <- (proj1 Hz eq_refl).
    rewrite Z.sub_diag. by split_and!.
  - destruct (IH s1 p (at_pos f (f_pos f + k)) i (c ++ [Dump (f_pos f) (bytes_at (disk s) (data_addr i (f_pos f)) k)]))
      as (s2 & ds & -> & Hmv2 & Hd2 & Hds);
      [eapply moved_file_at; [done..|lia]|by apply Hmv|cbn; lia|cbn; lia|].
    exists s2, (Dump (f_pos f) (bytes_at (disk s) (data_addr i (f_pos f)) k) :: ds).
    rewrite <- app_assoc. split_and!; [done|by eapply moved_trans|congruence|].
    cbn in Hds |- *. rewrite Z.eqb_refl, length_bytes_at, Z2Nat.id, Hds, Hd by lia. cbn. f_equal.
    unfold data_addr. rewrite Z.add_assoc, bytes_at_app by lia. f_equal. lia.
Qed.

(** ** Termination of the extraction *)

(** A read returns only inside the device. *)
Lemma dev_read_inv st b n sec bs st' :
  device st b n → 0 ≤ sec ≤ n → Blockdev.block_read (depth st) st b sec = Ret (bs, st') →
  0 ≤ sec < n ∧ device st' b n ∧ u32 (sec + 1) = sec + 1.
Proof.
  intros Hd Hs E. pose proof (device_size _ _ _ Hd) as Hu. unfold is_u32 in Hu.
  destruct (decide (sec = n)) as [->|Hne].
  - exfalso. unfold depth in E. cbn [Blockdev.block_read] in E.
    destruct (device_get _ _ _ Hd) as (x & Hx & Hn). rewrite Hx, bind_Ret in E.
    unfold check_sector in E. unfold block_size in Hn. rewrite Hn, Z.leb_refl in E. done.
  - destruct (dev_read st b n sec Hd) as (st1 & E1 & Hw); [lia|]. rewrite E1 in E. injection E as _ <-.
    split; [lia|]. split; [eapply device_geometry; [apply Hw|done]|]. apply u32_id. unfold is_u32. lia.
Qed.
Lemma extract_copy_advances fuel : ∀ s st m b n sec p data size s' st' m' sec',
  device st b n → 0 ≤ sec ≤ n → extract_copy fuel s st m b sec p data size = Ret (s', st', m', sec') →
  device st' b n ∧ sec ≤ sec' ≤ n.
Proof.
  induction fuel as [|fuel IH]; intros s st m b n sec p data size s' st' m' sec' Hd Hs E; [done|].
  cbn [extract_copy] in E. destruct (0 <? size); [|injection E as <- <- <- <-; split; [done|lia]].
  bind_inv E. destruct v as [bs st1]. apply (dev_read_inv _ _ n) in E0 as (Hlt & Hd1 & Eu); [|done..].
  bind_inv E. destruct v as [k s1]. destruct (negb _); [done|]. rewrite Eu in E.
  apply (IH _ _ _ _ n) in E as [? ?]; [|done|lia]. split; [done|lia].
Qed.

(** Every round reads a sector of the device, so more rounds than it has sectors left
    make no difference. *)
Lemma extract_entries_fuel b n header data e0 : ∀ fuel fuel' s st m sec c,
  device st b n → 0 ≤ sec ≤ n → n - sec < Z.of_nat fuel → n - sec < Z.of_nat fuel' →
  extract_entries fuel e0 s st m b sec header data c = extract_entries fuel' e0 s st m b sec header data c.
Proof.
  induction fuel as [|fuel IH]; intros [|fuel'] s st m sec c Hd Hs Hf Hf'; try lia. cbn [extract_entries].
  destruct (Blockdev.block_read _ _ _ _) as [[bs st1]| |] eqn:E; [|done..]. rewrite !bind_Ret.
  apply (dev_read_inv _ _ n) in E as (Hlt & Hd1 & ->); [|done..].
  destruct (ustar_parse_header _ _) as [r| |]; [|done..]. rewrite !bind_Ret.
  destruct r as [|name type size|msg]; [done| |done]. destruct (type =? _); [apply IH; [done|lia..]|].
  destruct (filesys_create _ _ _ _) as [[ok s1]| |]; [|done..]. rewrite !bind_Ret. destruct (negb ok); [done|].
  destruct (filesys_open _ _) as [[dst s2]| |]; [|done..]. rewrite !bind_Ret. destruct (dst =? NULL); [done|].
  destruct (extract_copy _ _ _ _ _ _ _ _ _) as [[[[s3 st2] m2] sec']| |] eqn:Ec; [|done..]. rewrite !bind_Ret.
  apply (extract_copy_advances _ _ _ _ _ n) in Ec as [? ?]; [|done|lia].
  destruct (file_close _ _) as [s4| |]; [|done..]. rewrite !bind_Ret. apply IH; [done|lia..].
Qed.

(** ** The objects of the file system *)
Lemma ls_loop_ok fuel : ∀ s p c c' s',
  objects_ok [] s → ls_loop fuel s p c = Ret (c', s') → objects_ok [] s'.
Proof.
  induction fuel as [|fuel IH]; intros s p c c' s' H E; [done|]. cbn [ls_loop] in E.
  bind_inv E. destruct v as [o s1]. unfold dir_readdir in E0. bind_inv E0.
  apply (readdir_loop_ok []) in E0; [|done]. destruct o; [by eapply IH|by injection E as _ <-].
Qed.
Lemma cat_loop_ok fuel : ∀ s p c c' s',
  objects_ok [] s → cat_loop fuel s p c = Ret (c', s') → objects_ok [] s'.
Proof.
  induction fuel as [|fuel IH]; intros s p c c' s' H E; [done|]. cbn [cat_loop] in E.
  bind_inv E. bind_inv E. destruct v0 as [bs s1].
  apply (file_read_ok []) in E1; [|done]. destruct (_ =? _); [by injection E as _ <-|by eapply IH].
Qed.
Lemma extract_copy_ok fuel : ∀ s st m b sec p data size s' st' m' sec',
  objects_ok [] s → extract_copy fuel s st m b sec p data size = Ret (s', st', m', sec') → objects_ok [] s'.
Proof.
  induction fuel as [|fuel IH]; intros s st m b sec p data size s' st' m' sec' H E; [done|].
  cbn [extract_copy] in E. destruct (0 <? size); [|by injection E as <- _ _ _].
  bind_inv E. destruct v as [bs st1]. bind_inv E. destruct v as [k s1].
  apply (file_write_ok []) in E1; [|done]. destruct (negb _); [done|by eapply IH].
Qed.
Lemma append_copy_ok fuel : ∀ s st m b sec p data size s' st' m' sec',
  objects_ok [] s → append_copy fuel s st m b sec p data size = Ret (s', st', m', sec') → objects_ok [] s'.
Proof.
  induction fuel as [|fuel IH]; intros s st m b sec p data size s' st' m' sec' H E; [done|].
  cbn [append_copy] in E. destruct (0 <? size); [|by injection E as <- _ _ _].
  bind_inv E. destruct (_ <=? _); [done|]. bind_inv E. destruct v0 as [bs s1].
  apply (file_read_ok []) in E1; [|done]. destruct (negb _); [done|].
  bind_inv E. destruct v0 as [q m1]. bind_inv E. by eapply IH.
Qed.
Lemma extract_entries_ok fuel : ∀ e0 s st m b sec header data c s' st' m' sec' c',
  objects_ok [] s → extract_entries fuel e0 s st m b sec header data c = Ret (s', st', m', sec', c') →
  objects_ok [] s'.
Proof.
  induction fuel as [|fuel IH]; intros e0 s st m b sec header data c s' st' m' sec' c' H E; [done|].
  cbn [extract_entries] in E. bind_inv E. destruct v as [bs st1]. bind_inv E.
  destruct v as [|name type size|msg]; [by injection E as <- _ _ _ _| |done].
  destruct (type =? _); [by eapply IH|].
  bind_inv E. destruct v as [ok s1]. apply (filesys_create_ok []) in E2; [|done]. destruct (negb ok); [done|].
  bind_inv E. destruct v as [dst s2]. apply (filesys_open_ok []) in E3; [|done]. destruct (dst =? NULL); [done|].
  bind_inv E. destruct v as [[[s3 st2] m2] sec2]. apply extract_copy_ok in E4; [|done].
  bind_inv E. apply (file_close_ok []) in E5; [|done]. by eapply IH.
Qed.

(** ** Theorems *)

(** [fsutil_ls] prints the names of the entries in use, in the order of the directory, and
    [fsutil_cat] the bytes of the file, in dumps that follow each other from position 0. *)
Theorem ls_cat_correct s :
  (∀ dir s1 ip i, dir_open_root s = Ret (dir, s1) → dir ≠ NULL →
     dir_at s1 dir (Dir ip 0) i → plenty s1 →
     ∃ s2, fsutil_ls s = (s3 ← dir_close s2 dir; Ret ([Line (chars "Files in the root directory:")]
         ++ (Line <$> in_use_names (dir_entries (disk s1) i)) ++ [Line (chars "End of listing.")], s3))
       ∧ disk s2 = disk s1)
  ∧ (∀ name p s1 f i, filesys_open s name = Ret (p, s1) → p ≠ NULL →
     file_at s1 p f i → f_pos f = 0 → plenty s1 →
     ∃ s2 ds, fsutil_cat true s name = (s3 ← file_close s2 p;
         Ret (Line (chars "Printing '" ++ name ++ chars "' to the console...") :: ds, s3))
       ∧ disk s2 = disk s1 ∧ dumped 0 ds = Some (bytes_at (disk s1) (data_addr i 0) (i_length i))).
Proof.
  split.
  - intros dir s1 ip i E Hne Hd Hm. unfold fsutil_ls. rewrite E, bind_Ret.
    destruct (Z.eqb_spec dir NULL); [done|]. pose proof (n_entries_bound i (ex_length _ _ (da_extent _ _ _ _ Hd))).
    unfold ls_fuel. rewrite (da_dir _ _ _ _ Hd). cbn [d_inode].
    destruct (ls_loop_spec (dir_fuel s1 ip) s1 dir ip i 0
      [Line (chars "Files in the root directory:")] Hd Hm) as (s2 & -> & E2);
      [lia|unfold dir_fuel; rewrite (da_inode _ _ _ _ Hd : inodes s1 !! ip = _); lia|].
    rewrite bind_Ret. exists s2. split; [|done]. by rewrite drop_0.
  - intros name p s1 f i E Hne Hf H0 Hm. unfold fsutil_cat. rewrite E, bind_Ret.
    destruct (Z.eqb_spec p NULL); [done|]. cbn [ASSERT]. rewrite bind_Ret.
    unfold cat_fuel, file_length, get_file at 1, get_inode at 1.
    rewrite (fa_file _ _ _ _ Hf), bind_Ret, (fa_inode _ _ _ _ Hf), bind_Ret.
    pose proof (ex_length _ _ (fa_extent _ _ _ _ Hf)).
    destruct (cat_loop_spec (S (Z.to_nat (inode_length i))) s1 p f i
      [Line (chars "Printing '" ++ name ++ chars "' to the console...")] Hf Hm)
      as (s2 & ds & -> & _ & E2 & E3); [lia|unfold inode_length; lia|].
    rewrite bind_Ret. exists s2, ds. rewrite H0, Z.sub_0_r in E3. by split_and!.
Qed.

(** Every action keeps the counts of open files and directories. *)
Theorem fsutil_keeps_objects s :
  objects_ok [] s →
  (∀ c s', fsutil_ls s = Ret (c, s') → objects_ok [] s')
  ∧ (∀ page name c s', fsutil_cat page s name = Ret (c, s') → objects_ok [] s')
  ∧ (∀ name c s', fsutil_rm s name = Ret (c, s') → objects_ok [] s')
  ∧ (∀ fuel e0 st m sec header data s' st' m' sec' c,
       fsutil_extract fuel e0 s st m sec header data = Ret (s', st', m', sec', c) → objects_ok [] s')
  ∧ (∀ st m name sec buffer s' st' m' sec' c,
       fsutil_append s st m name sec buffer = Ret (s', st', m', sec', c) → objects_ok [] s').
Proof.
  intros H. split_and!.
  - intros c s' E. unfold fsutil_ls in E. bind_inv E. destruct v as [p s1]. apply (dir_open_root_ok []) in E0; [|done].
    destruct (p =? NULL); [done|]. bind_inv E. destruct v as [c2 s2]. apply ls_loop_ok in E1; [|done].
    bind_inv E. injection E as _ <-. by eapply dir_close_ok.
  - intros page name c s' E. unfold fsutil_cat in E. bind_inv E. destruct v as [p s1].
    apply (filesys_open_ok []) in E0; [|done]. destruct (p =? NULL); [done|]. bind_inv E. bind_inv E.
    destruct v0 as [c2 s2]. apply cat_loop_ok in E2; [|done]. bind_inv E. injection E as _ <-. by eapply file_close_ok.
  - intros name c s' E. unfold fsutil_rm in E. bind_inv E. destruct v as [ok s1].
    apply (filesys_remove_ok []) in E0; [|done]. destruct (negb ok); [done|]. by injection E as _ <-.
  - intros fuel e0 st m sec header data s' st' m' sec' c E. unfold fsutil_extract in E. destruct (_ || _); [done|].
    bind_inv E. destruct v as [src|]; [|done]. bind_inv E. destruct v as [[[[s1 st1] m1] sec1] c1].
    apply extract_entries_ok in E1; [|done]. bind_inv E. destruct v as [q m2]. bind_inv E. bind_inv E.
    by injection E as <- _ _ _ _.
  - intros st m name sec buffer s' st' m' sec' c E. unfold fsutil_append in E. destruct (_ =? _); [done|].
    bind_inv E. destruct v as [p s1]. apply (filesys_open_ok []) in E0; [|done]. destruct (p =? NULL); [done|].
    bind_inv E. destruct v as [[[s2 st2] m2] sec2]. bind_inv E. injection E as <- _ _ _ _.
    eapply file_close_ok; [|exact E2]. unfold append_file in E1. bind_inv E1. bind_inv E1.
    destruct v1 as [dst|]; [|done]. bind_inv E1. destruct v1 as [[ok l] m3]. destruct (negb ok); [done|].
    bind_inv E1. bind_inv E1. destruct v2 as [[[s3 st3] m4] sec3]. apply append_copy_ok in E7; [|done].
    bind_inv E1. destruct v2 as [q m5]. bind_inv E1. bind_inv E1. by injection E1 as <- _ _ _.
Qed.

(** The extraction ends after at most one round per sector: its result, an archive read to
    its end or a panic, does not depend on how many more rounds are allowed. *)
Theorem extract_terminates fuel fuel' e0 s st m sec header data b n :
  block_by_role st BLOCK_SCRATCH = Some b → device st b n → 0 ≤ sec ≤ n →
  n - sec < Z.of_nat fuel → n - sec < Z.of_nat fuel' →
  fsutil_extract fuel e0 s st m sec header data = fsutil_extract fuel' e0 s st m sec header data.
Proof.
  intros Hr Hd Hs H1 H2. unfold fsutil_extract. destruct (_ || _); [done|].
  unfold block_get_role. cbn [is_role]. rewrite ASSERT_true, bind_Ret, Hr by done.
  by rewrite (extract_entries_fuel b n header data e0 fuel fuel') by done.
Qed.

(** ** Witnesses *)
Definition demo_source : Z * fs := value (NULL, demo_fs) (filesys_open demo_file [97; 98]).
Lemma demo_file_at : file_at demo_source.2 demo_source.1 (File 5 0 false) demo_inode.
Proof.
  split; [vm_compute; reflexivity|vm_compute; reflexivity| |cbn; lia|cbn; lia]. split; vm_compute; congruence.
Qed.
Lemma demo_device : device demo_registry 0 100.
Proof.
  split; [|by eexists BLOCK_RAW, (Disk 1)]. intros [|k] t size d E; [|done]. cbn in E.
  injection E as <- <- <-. split; [unfold is_u32; lia|done].
Qed.

(** The file [ab] of one file system goes to the archive, and from there into an empty one. *)
Definition demo_created : fs := (value (false, demo_fs) (filesys_create (replicate 20 0) demo_fs [97; 98] 600)).2.
Definition demo_target : Z * fs := value (NULL, demo_fs) (filesys_open demo_created [97; 98]).
Lemma value_pair {A B} (d : A * B) (r : res (A * B)) :
  is_ret r = true → r = Ret ((value d r).1, (value d r).2).
Proof. by destruct r as [[]| |]. Qed.
Lemma value_true {B} (d : bool * B) (r : res (bool * B)) :
  match r with Ret (ok, _) => ok | _ => false end = true → r = Ret (true, (value d r).2).
Proof. destruct r as [[[] ?]| |]; done. Qed.
Lemma demo_source_open : filesys_open demo_file [97; 98] = Ret (demo_source.1, demo_source.2).
Proof. unfold demo_source. apply (value_pair (NULL, demo_fs) (filesys_open demo_file [97; 98])). vm_compute. reflexivity. Qed.
Lemma demo_created_ok : filesys_create (replicate 20 0) demo_fs [97; 98] 600 = Ret (true, demo_created).
Proof. unfold demo_created. apply (value_true (false, demo_fs) (filesys_create (replicate 20 0) demo_fs [97; 98] 600)). vm_compute. reflexivity. Qed.
Lemma demo_target_open : filesys_open demo_created [97; 98] = Ret (demo_target.1, demo_target.2).
Proof. unfold demo_target. apply (value_pair (NULL, demo_fs) (filesys_open demo_created [97; 98])). vm_compute. reflexivity. Qed.

Lemma append_end_marker_witness :
  ∃ s' st' m', append_file demo_source.2 demo_registry (store8 ∅ 4608 7) (chars "/ab") 0 demo_source.1 4096
               = Ret (s', st', m', 3)
    ∧ dev_sector st' 0 3 = replicate 511 0 ++ [7].
Proof.
  destruct (append_end_marker demo_source.2 demo_registry (store8 ∅ 4608 7) (chars "/ab") (chars "ab") 0 demo_source.1
    (File 5 0 false) demo_inode 4096 0 100) as (s' & st' & m' & E & Hh & _).
  - exact demo_file_at.
  - reflexivity.
  - intros k. vm_compute. reflexivity.
  - lia.
  - reflexivity.
  - exact demo_device.
  - lia.
  - vm_compute. reflexivity.
  - cbn. by repeat (apply Forall_cons; split).
  - reflexivity.
  - cbn. lia.
  - exists s', st', m'. split; [exact E|exact Hh].
Defined.
