(* ===== verification/CommandLine.v ===== *)
(** * The kernel's command line (threads/init.c)

    The loader leaves the arguments as strings in the boot sector; [read_command_line] makes
    an array of them, [parse_options] takes the options off its front and [run_actions] carries
    out the rest.  The kernel is the one with user programs and a file system (USERPROG and
    FILESYS defined, VM not).

    Arguments are the lists of their characters.  An array access outside [argv] and a string
    without a terminator in the boot sector are [Stuck].  [now] is the time [rtc_get_time]
    read (in [Clock]). *)
From Stdlib Require Import (notations) Ascii String.
From S2P Require Import Prelude Mem Bitmap Vaddr Inode Directory FileTable.
From S2P Require Import CString FixedPoint Sorting Stdio StdioTheorems Ustar Blockdev Random Fsutil.

(** ** Reading the arguments *)
Definition LOADER_END : Z := 32256.
Definition LOADER_SIG : Z := LOADER_END - 2.
Definition LOADER_PARTS : Z := LOADER_SIG - 64.
Definition LOADER_ARGS_LEN : Z := 128.
Definition LOADER_ARGS : Z := LOADER_PARTS - LOADER_ARGS_LEN.
Definition LOADER_ARG_CNT : Z := LOADER_ARGS - 4.
(** The number of elements of [argv]. *)
Definition argv_cap : Z := LOADER_ARGS_LEN / 2 + 1.

(** The addresses of the arguments from number [i] on. *)
Fixpoint args_loop (n : nat) (m : mem) (i p limit : Z) : res (list Z) :=
  match n with
  | O => Ret []
  | S n =>
    if limit <=? p then Panic else
    if argv_cap <=? i then Stuck else
    k ← strnlen 200 m p (limit - p);
    rest ← args_loop n m (i + 1) (p + k + 1) limit;
    Ret (p :: rest)
  end.
(** The string at an argument's address, [stop] being the end of the boot sector. *)
Definition arg_string (m : mem) (stop p : Z) : res (list Z) :=
  let n := Z.to_nat (stop - p) in
  let s := string_at m p n in if (length s =? n)%nat then Stuck else Ret s.
Fixpoint arg_strings (m : mem) (stop : Z) (ps : list Z) : res (list (list Z)) :=
  match ps with
  | [] => Ret []
  | p :: ps => s ← arg_string m stop p; rest ← arg_strings m stop ps; Ret (s :: rest)
  end.
(** [argv[argc] = NULL] needs one more element. *)
Definition read_command_line (m : mem) : res (list (list Z)) :=
  cnt ← ptov LOADER_ARG_CNT;
  p ← ptov LOADER_ARGS;
  let argc := s32 (load32 m cnt) in
  ps ← args_loop (Z.to_nat argc) m 0 p (p + LOADER_ARGS_LEN);
  if (argc <? 0) || (argv_cap <=? argc) then Stuck else arg_strings m (p + (LOADER_END - LOADER_ARGS)) ps.

(** ** Options *)
Inductive shutdown_type := SHUTDOWN_NONE | SHUTDOWN_POWER_OFF | SHUTDOWN_REBOOT.

(** The static variables that options set. *)
Record options := Options {
  how : shutdown_type;
  format_filesys : bool;
  filesys_bdev_name : option (list Z);
  scratch_bdev_name : option (list Z);
  random : rc4;
  thread_mlfqs : bool;
  user_page_limit : Z;
}.
Definition boot_options : options :=
  Options SHUTDOWN_NONE false None None rc4_boot false 4294967295.

(** [strtok_r (argv[0], "=", ...)] and [strtok_r (NULL, "", ...)] of an argument that starts
    with a dash: what is before the first [=], and what is after it unless that is empty. *)
Fixpoint option_name (a : list Z) : list Z :=
  match a with
  | [] => []
  | c :: a => if c =? 61 then [] else c :: option_name a
  end.
Definition option_value (a : list Z) : option (list Z) :=
  match drop (S (length (option_name a))) a with [] => None | v => Some v end.
(** [atoi (value)]; a null pointer fails its assertion. *)
Definition atoi_value (value : option (list Z)) : res Z :=
  match value with
  | None => Panic
  | Some v => atoi (S (length v)) (store_chars ∅ 1 (v ++ [0])) 1
  end.

Definition set_option (name : list Z) (value : option (list Z)) (o : options) : res (option options) :=
  if bool_decide (name = chars "-h") then Ret None
  else if bool_decide (name = chars "-q") then
    Ret (Some (Options SHUTDOWN_POWER_OFF (format_filesys o) (filesys_bdev_name o) (scratch_bdev_name o)
                 (random o) (thread_mlfqs o) (user_page_limit o)))
  else if bool_decide (name = chars "-r") then
    Ret (Some (Options SHUTDOWN_REBOOT (format_filesys o) (filesys_bdev_name o) (scratch_bdev_name o)
                 (random o) (thread_mlfqs o) (user_page_limit o)))
  else if bool_decide (name = chars "-f") then
    Ret (Some (Options (how o) true (filesys_bdev_name o) (scratch_bdev_name o)
                 (random o) (thread_mlfqs o) (user_page_limit o)))
  else if bool_decide (name = chars "-filesys") then
    Ret (Some (Options (how o) (format_filesys o) value (scratch_bdev_name o)
                 (random o) (thread_mlfqs o) (user_page_limit o)))
  else if bool_decide (name = chars "-scratch") then
    Ret (Some (Options (how o) (format_filesys o) (filesys_bdev_name o) value
                 (random o) (thread_mlfqs o) (user_page_limit o)))
  else if bool_decide (name = chars "-rs") then
    seed ← atoi_value value;
    r ← random_init (random o) (u32 seed);
    Ret (Some (Options (how o) (format_filesys o) (filesys_bdev_name o) (scratch_bdev_name o)
                 r (thread_mlfqs o) (user_page_limit o)))
  else if bool_decide (name = chars "-mlfqs") then
    Ret (Some (Options (how o) (format_filesys o) (filesys_bdev_name o) (scratch_bdev_name o)
                 (random o) true (user_page_limit o)))
  else if bool_decide (name = chars "-ul") then
    n ← atoi_value value;
    Ret (Some (Options (how o) (format_filesys o) (filesys_bdev_name o) (scratch_bdev_name o)
                 (random o) (thread_mlfqs o) (u32 n)))
  else Panic.

(** The loop of [parse_options]; [None] is the end of [usage], which powers the machine off. *)
Fixpoint options_loop (argv : list (list Z)) (o : options) : res (option (list (list Z) * options)) :=
  match argv with
  | (c :: a) :: rest =>
    if c =? 45 then
      r ← set_option (option_name (c :: a)) (option_value (c :: a)) o;
      match r with
      | None => Ret None
      | Some o => options_loop rest o
      end
    else Ret (Some (argv, o))
  | _ => Ret (Some (argv, o))
  end.
Definition parse_options (now : Z) (argv : list (list Z)) (o : options)
    : res (option (list (list Z) * options)) :=
  r ← options_loop argv o;
  match r with
  | None => Ret None
  | Some (argv, o) =>
    r ← random_init (random o) now;
    Ret (Some (argv, Options (how o) (format_filesys o) (filesys_bdev_name o) (scratch_bdev_name o)
                       r (thread_mlfqs o) (user_page_limit o)))
  end.

(** ** Block devices *)
Fixpoint first_of_type (fuel : nat) (st : registry) (b : option nat) (role : block_type) : res (option nat) :=
  match fuel, b with
  | O, _ => Stuck
  | _, None => Ret None
  | S fuel, Some b =>
    x ← get_block st b;
    if decide (b_type x = role) then Ret (Some b) else first_of_type fuel st (block_next st b) role
  end.
Definition locate_block_device (st : registry) (role : block_type) (name : option (list Z)) : res registry :=
  block ← (match name with
           | Some name => match block_get_by_name st name with Some b => Ret (Some b) | None => Panic end
           | None => first_of_type (S (length (all_blocks st))) st (block_first st) role
           end);
  match block with
  | Some b => block_set_role st role (Some b)
  | None => Ret st
  end.
Definition locate_block_devices (st : registry) (o : options) : res registry :=
  st ← locate_block_device st BLOCK_FILESYS (filesys_bdev_name o);
  locate_block_device st BLOCK_SCRATCH (scratch_bdev_name o).

Example parse_example :
  (r ← parse_options 7 [chars "-f"; chars "-filesys=hdb1"; chars "-ul=-1"; chars "run"; chars "-q"] boot_options;
   Ret (option_map (λ '(argv, o), (argv, format_filesys o, filesys_bdev_name o, user_page_limit o)) r))
  = Ret (Some ([chars "run"; chars "-q"], true, Some (chars "hdb1"), 4294967295)).
Proof. vm_compute. reflexivity. Qed.
Example parse_missing_value : parse_options 7 [chars "-rs"] boot_options = Panic.
Proof. vm_compute. reflexivity. Qed.

(** ** Actions *)

(** What the actions work on: the file system, the block devices, the kernel's memory, the
    positions on the scratch device, what was printed, and how many actions have run. *)
Record machine := Machine {
  m_fs : fs; m_devices : registry; m_mem : mem;
  extract_sector : Z; append_sector : Z; console : list out; performed : nat;
}.
(** What the allocators answer to an action, and the content of its uninitialised variables. *)
Record answers := Answers { a_page : bool; a_block : Z; a_block2 : Z; a_entry : Z → list Z }.

Section Actions.
(** [process_wait (process_execute (task))], and the answers to the actions in turn. *)
Context (run : list Z → machine → res machine) (env : nat → answers).

Definition print_out (mc : machine) (c : list out) : machine :=
  Machine (m_fs mc) (m_devices mc) (m_mem mc) (extract_sector mc) (append_sector mc)
    (console mc ++ c) (performed mc).
Definition with_fs (mc : machine) (r : res (list out * fs)) : res machine :=
  '(c, s) ← r;
  Ret (Machine s (m_devices mc) (m_mem mc) (extract_sector mc) (append_sector mc)
         (console mc ++ c) (performed mc)).

Definition run_task (argv : list (list Z)) (mc : machine) : res machine :=
  let task := argv !!! 1%nat in
  let mc := print_out mc [Line (chars "Executing '" ++ task ++ chars "':")] in
  mc ← run task mc;
  Ret (print_out mc [Line (chars "Execution of '" ++ task ++ chars "' complete.")]).
Definition ls_action (argv : list (list Z)) (mc : machine) : res machine :=
  with_fs mc (fsutil_ls (m_fs mc)).
Definition cat_action (argv : list (list Z)) (mc : machine) : res machine :=
  with_fs mc (fsutil_cat (a_page (env (performed mc))) (m_fs mc) (argv !!! 1%nat)).
Definition rm_action (argv : list (list Z)) (mc : machine) : res machine :=
  with_fs mc (fsutil_rm (m_fs mc) (argv !!! 1%nat)).
(** Fuel: one round per sector of the largest device. *)
Definition extract_fuel (st : registry) : nat :=
  S (Z.to_nat (foldr Z.max 0 (b_size <$> all_blocks st))).
Definition extract_action (argv : list (list Z)) (mc : machine) : res machine :=
  let a := env (performed mc) in
  '(s, st, m, sector, c) ← fsutil_extract (extract_fuel (m_devices mc)) (a_entry a) (m_fs mc)
      (m_devices mc) (m_mem mc) (extract_sector mc) (a_block a) (a_block2 a);
  Ret (Machine s st m sector (append_sector mc) (console mc ++ c) (performed mc)).
Definition append_action (argv : list (list Z)) (mc : machine) : res machine :=
  let a := env (performed mc) in
  '(s, st, m, sector, c) ← fsutil_append (m_fs mc) (m_devices mc) (m_mem mc) (argv !!! 1%nat)
      (append_sector mc) (a_block a);
  Ret (Machine s st m (extract_sector mc) sector (console mc ++ c) (performed mc)).

(** [struct action] and the table of actions. *)
Record action := Action { name : list Z; argc : nat; function : list (list Z) → machine → res machine }.
Definition actions : list action :=
  [Action (chars "run") 2 run_task; Action (chars "ls") 1 ls_action; Action (chars "cat") 2 cat_action;
   Action (chars "rm") 2 rm_action; Action (chars "extract") 1 extract_action;
   Action (chars "append") 2 append_action].

Fixpoint find_action (table : list action) (a : list Z) : option action :=
  match table with
  | [] => None
  | x :: table => if decide (a = name x) then Some x else find_action table a
  end.
Definition count_action (mc : machine) : machine :=
  Machine (m_fs mc) (m_devices mc) (m_mem mc) (extract_sector mc) (append_sector mc) (console mc)
    (S (performed mc)).
(** One unit of fuel per argument and one more. *)
Fixpoint actions_loop (fuel : nat) (argv : list (list Z)) (mc : machine) : res machine :=
  match fuel with
  | O => Stuck
  | S fuel =>
    match argv with
    | [] => Ret mc
    | first :: _ =>
      match find_action actions first with
      | None => Panic
      | Some a =>
        if (length argv <? argc a)%nat then Panic else
        mc ← function a argv mc;
        actions_loop fuel (drop (argc a) argv) (count_action mc)
      end
    end
  end.
Definition run_actions (argv : list (list Z)) (mc : machine) : res machine :=
  actions_loop (S (length argv)) argv mc.
End Actions.

(** From the command line to the actions, over block devices that were found: the steps of
    [main] that depend on the command line.  [fs_on] gives the file system as it is on each
    device, [words] the content of the free map's memory. *)
Definition boot_actions run env (now : Z) (words : list Z) (m : mem) (st : registry) (fs_on : nat → fs)
    : res (option machine) :=
  argv ← read_command_line m;
  r ← parse_options now argv boot_options;
  match r with
  | None => Ret None
  | Some (argv, o) =>
    st ← locate_block_devices st o;
    fs_device ← block_get_role st BLOCK_FILESYS;
    match fs_device with
    | None => Panic
    | Some b =>
      s ← filesys_init words (fs_on b) (format_filesys o);
      mc ← run_actions run env argv (Machine s st m 0 0 [] 0);
      Ret (Some mc)
    end
  end.

(** ** Reading the arguments *)

(** The strings [args] one after the other from [p] on. *)
Fixpoint args_at (m : mem) (p : Z) (args : list (list Z)) : Prop :=
  match args with
  | [] => True
  | a :: args => cstr m p a ∧ args_at m (p + len a + 1) args
  end.
Definition args_size (args : list (list Z)) : Z := foldr (λ a n, len a + 1 + n) 0 args.

Lemma args_size_nonneg args : 0 ≤ args_size args.
Proof. induction args as [|a args IH]; [done|]. unfold args_size in *. cbn [foldr]. lia. Qed.
Lemma cstr_loads s : ∀ m a, cstr m a s →
  (∀ k, 0 ≤ k < len s → load8 m (a + k) ≠ 0) ∧ load8 m (a + len s) = 0.
Proof.
  induction s as [|c s IH]; intros m a; cbn [cstr length].
  - intros E. split; [lia|]. by rewrite Z.add_0_r.
  - intros (E & Hc & Hs). destruct (IH m (a + 1) Hs) as [H1 H2]. split.
    + intros k Hk. destruct (decide (k = 0)) as [->|]; [by rewrite Z.add_0_r, E|].
      replace (a + k) with (a + 1 + (k - 1)) by lia. apply H1. lia.
    + rewrite <- H2. f_equal. lia.
Qed.
Lemma strnlen_cstr n : ∀ m a s maxlen k,
  cstr m a s → 0 ≤ k ≤ len s → len s ≤ maxlen → len s - k < Z.of_nat n →
  strnlen_loop n m a maxlen k = Ret (len s).
Proof.
  induction n as [|n IH]; intros m a s maxlen k Hs Hk Hm Hn; [lia|]. cbn [strnlen_loop].
  destruct (cstr_loads s m a Hs) as [H1 H2]. destruct (decide (k = len s)) as [->|].
  - by rewrite H2.
  - destruct (Z.eqb_spec (load8 m (a + k)) 0) as [E|_]; [by apply H1 in E; [|lia]|].
    destruct (Z.ltb_spec k maxlen); [|lia]. cbn. apply IH; [done|lia..].
Qed.
Lemma string_at_cstr s : ∀ m a n, cstr m a s → (length s < n)%nat → string_at m a n = s.
Proof.
  induction s as [|c s IH]; intros m a [|n] Hs Hn; cbn [cstr length] in *; try lia.
  - cbn. by rewrite Hs.
  - destruct Hs as (E & Hc & Hs). cbn. rewrite E. destruct (Z.eqb_spec c 0); [done|].
    f_equal. apply IH; [done|lia].
Qed.

Lemma args_loop_spec m limit : ∀ args i p,
  args_at m p args → 0 ≤ i → i + len args < argv_cap → p + args_size args ≤ limit ≤ p + 128 →
  ∃ ps, args_loop (length args) m i p limit = Ret ps
    ∧ ∀ stop, limit ≤ stop → arg_strings m stop ps = Ret args.
Proof.
  induction args as [|a args IH]; intros i p Ha Hi Hn Hl; cbn [length args_loop args_at] in *.
  { by exists []. }
  change (args_size (a :: args)) with (len a + 1 + args_size args) in Hl. pose proof (args_size_nonneg args). destruct Ha as [Ha Hr].
  destruct (Z.leb_spec limit p); [lia|]. destruct (Z.leb_spec argv_cap i); [lia|].
  unfold strnlen. rewrite (strnlen_cstr 200 m p a) by (done || lia). rewrite bind_Ret.
  destruct (IH (i + 1) (p + len a + 1) Hr) as (ps & -> & Hps); [lia|lia|lia|].
  rewrite bind_Ret. exists (p :: ps). split; [done|]. intros stop Hst. cbn [arg_strings].
  unfold arg_string. rewrite (string_at_cstr a) by (done || lia).
  destruct (Nat.eqb_spec (length a) (Z.to_nat (stop - p))); [lia|]. by rewrite bind_Ret, Hps by lia.
Qed.

(** Arguments that fit the area and of which there are not more than [argv] has elements are
    the words the kernel sees. *)
Theorem read_command_line_correct m args :
  load32 m 3221257530 = len args → args_at m 3221257534 args → args_size args ≤ 128 →
  len args < argv_cap → read_command_line m = Ret args.
Proof.
  intros Hc Ha Hs Hn. unfold read_command_line.
  change (ptov LOADER_ARG_CNT) with (Ret 3221257530). change (ptov LOADER_ARGS) with (Ret 3221257534).
  rewrite !bind_Ret, Hc. change argv_cap with 65 in *. rewrite s32_id by (unfold is_s32; lia).
  rewrite Nat2Z.id. change LOADER_ARGS_LEN with 128.
  destruct (args_loop_spec m (3221257534 + 128) args 0 3221257534 Ha) as (ps & -> & Hps);
    [lia|change argv_cap with 65; lia|lia|].
  rewrite bind_Ret. destruct (Z.ltb_spec (len args) 0); [lia|]. destruct (Z.leb_spec 65 (len args)); [lia|].
  apply Hps. change (LOADER_END - LOADER_ARGS) with 194. lia.
Qed.

(** [argv] has an element for every two characters of the area, but an empty argument takes
    only one: 65 of them pass the check against the end of the area and overrun the array. *)
Theorem command_line_overruns :
  let m := store32 ∅ 3221257530 65 in
  args_at m 3221257534 (replicate 65 []) ∧ args_size (replicate 65 []) ≤ 128
  ∧ read_command_line m = Stuck.
Proof. split_and!; [vm_compute; tauto|done|]. vm_compute. reflexivity. Qed.

(** ** Options *)

(** An option as it is written: its name, and a value if it has one. *)
Record opt := Opt { o_name : list Z; o_value : option (list Z) }.
Definition opt_word (x : opt) : list Z :=
  o_name x ++ match o_value x with Some v => 61 :: v | None => [] end.
Definition opt_ok (x : opt) : Prop :=
  head (o_name x) = Some 45 ∧ 61 ∉ o_name x ∧ o_value x ≠ Some [].
(** The effect of options in turn. *)
Fixpoint set_options (xs : list opt) (o : options) : res (option options) :=
  match xs with
  | [] => Ret (Some o)
  | x :: xs =>
    r ← set_option (o_name x) (o_value x) o;
    match r with None => Ret None | Some o => set_options xs o end
  end.

Lemma option_name_app n r : 61 ∉ n → option_name (n ++ match r with Some v => 61 :: v | None => [] end) = n.
Proof.
  induction n as [|c n IH]; cbn; [by destruct r|]. rewrite not_elem_of_cons. intros [Hc Hn].
  destruct (Z.eqb_spec c 61); [congruence|]. by rewrite IH.
Qed.
Lemma opt_word_parts x :
  opt_ok x → option_name (opt_word x) = o_name x ∧ option_value (opt_word x) = o_value x.
Proof.
  destruct x as [n [v|]]; intros (_ & Hn & Hv); unfold opt_word, option_value; cbn [o_name o_value] in *.
  - rewrite (option_name_app n (Some v) Hn). split; [done|].
    rewrite drop_app_ge, Nat.sub_succ_l, Nat.sub_diag by lia. cbn. destruct v; [done|done].
  - rewrite (option_name_app n None Hn). split; [done|]. by rewrite drop_ge by (rewrite app_nil_r; lia).
Qed.

(** What every parse does to the generator: its array stays an array of 256 elements. *)
Lemma random_init_box st st' seed : length (s_box st) = 256%nat → length (s_box st') = 256%nat →
  random_init st seed = random_init st' seed.
Proof. intros H1 H2. unfold random_init. by rewrite !fill_loop_spec by (done || lia). Qed.
Lemma set_option_box n v o o' :
  length (s_box (random o)) = 256%nat → set_option n v o = Ret (Some o') → length (s_box (random o')) = 256%nat.
Proof.
  intros Hl. unfold set_option. repeat case_bool_decide; intros E; try (by injection E as <-); try done.
  - bind_inv E. bind_inv E. injection E as <-. cbn. destruct (random_init_ok (random o) (u32 v0) Hl) as (st & E' & Ht & _).
    rewrite E' in E1. injection E1 as <-. by apply Ht.
  - bind_inv E. by injection E as <-.
Qed.
Lemma options_loop_box argv : ∀ o argv' o',
  length (s_box (random o)) = 256%nat → options_loop argv o = Ret (Some (argv', o')) →
  length (s_box (random o')) = 256%nat.
Proof.
  induction argv as [|[|c a] argv IH]; intros o argv' o' Hl E; cbn [options_loop] in E;
    [by injection E as <- <-|by injection E as <- <-|].
  destruct (c =? 45); [|by injection E as <- <-].
  bind_inv E. destruct v as [o1|]; [|done]. eapply IH; [|exact E]. by eapply set_option_box.
Qed.

(** Options are taken off the front of the command line and obeyed in turn, up to the first
    word without a dash, which starts the actions; [-h] ends the boot. *)
Theorem parse_options_correct now xs argv o :
  Forall opt_ok xs → match argv with (c :: _) :: _ => c ≠ 45 | _ => True end →
  parse_options now ((opt_word <$> xs) ++ argv) o =
    (r ← set_options xs o;
     match r with
     | None => Ret None
     | Some o =>
       st ← random_init (random o) now;
       Ret (Some (argv, Options (how o) (format_filesys o) (filesys_bdev_name o) (scratch_bdev_name o)
                          st (thread_mlfqs o) (user_page_limit o)))
     end).
Proof.
  intros Hx Ha. unfold parse_options.
  assert (E : options_loop ((opt_word <$> xs) ++ argv) o
              = (r ← set_options xs o; Ret (option_map (λ o, (argv, o)) r))).
  { revert o. induction Hx as [|x xs Hx _ IH]; intros o.
    - cbn [fmap list_fmap app set_options]. rewrite bind_Ret. destruct argv as [|[|c a] argv]; [done|done|].
      cbn [options_loop]. by destruct (Z.eqb_spec c 45).
    - rewrite fmap_cons. change ((opt_word x :: (opt_word <$> xs)) ++ argv) with (opt_word x :: ((opt_word <$> xs) ++ argv)).
      destruct (opt_word_parts x Hx) as [E1 E2]. destruct (opt_word x) as [|c a] eqn:Ew.
      { destruct Hx as (Hh & _). unfold opt_word in Ew. by destruct (o_name x). }
      assert (c = 45) as ->.
      { destruct Hx as (Hh & _). unfold opt_word in Ew. destruct (o_name x); [done|]. cbn in *. congruence. }
      cbn [options_loop set_options]. rewrite Z.eqb_refl, E1, E2.
      destruct (set_option _ _ _) as [[o1|]| |]; [|done..]. rewrite !bind_Ret. apply IH. }
  rewrite E. destruct (set_options xs o) as [[o1|]| |]; done.
Qed.

(** The comment in [parse_options] says that seeding the generator with the time has no effect
    after [-rs]; it replaces the seed in every case, so that the option has no effect. *)
Theorem seed_option_ignored now argv o argv' o' :
  length (s_box (random o)) = 256%nat → parse_options now argv o = Ret (Some (argv', o')) →
  random_init rc4_boot now = Ret (random o').
Proof.
  intros Hl E. unfold parse_options in E. bind_inv E. destruct v as [[argv1 o1]|]; [|done].
  apply options_loop_box in E0; [|done]. bind_inv E. injection E as _ <-.
  etrans; [by apply (random_init_box rc4_boot (random o1))|exact E1].
Qed.

(** ** Block devices *)
Lemma first_of_type_spec st role fuel : ∀ b,
  (b ≤ length (all_blocks st))%nat → (length (all_blocks st) < fuel + b)%nat →
  first_of_type fuel st (list_elem_to_block st b) role
  = Ret ((λ p, b + fst p)%nat <$> list_find (λ x, b_type x = role) (drop b (all_blocks st))).
Proof.
  induction fuel as [|fuel IH]; intros b Hb Hf; [lia|]. unfold list_elem_to_block.
  destruct (Nat.eqb_spec b (length (all_blocks st))) as [->|Hne]; cbn [first_of_type].
  - by rewrite drop_ge by lia.
  - destruct (lookup_lt_is_Some_2 (all_blocks st) b) as [x Hx]; [lia|]. unfold get_block. rewrite Hx, bind_Ret.
    rewrite (drop_S _ _ _ Hx). cbn [list_find]. case_decide; cbn; [by rewrite Nat.add_0_r|].
    unfold block_next. rewrite IH by lia. destruct (list_find _ _) as [[k y]|]; cbn; [|done].
    do 2 f_equal. lia.
Qed.

(** A role is given to the device that is named, to the first device of the role's type when
    none is named, and to no device when there is none; a name without a device stops the
    kernel. *)
Theorem locate_block_device_correct st role name :
  is_role role = true →
  locate_block_device st role name =
    match name with
    | Some n => match by_name_loop (all_blocks st) 0 n with
                | Some b => block_set_role st role (Some b)
                | None => Panic
                end
    | None => match list_find (λ x, b_type x = role) (all_blocks st) with
              | Some (b, _) => block_set_role st role (Some b)
              | None => Ret st
              end
    end.
Proof.
  intros Hr. unfold locate_block_device, block_get_by_name. destruct name as [n|].
  - by destruct (by_name_loop _ _ _).
  - unfold block_first. rewrite first_of_type_spec by lia. rewrite bind_Ret, drop_0.
    by destruct (list_find _ _) as [[b x]|].
Qed.

(** ** Actions *)
Section ActionTheorems.
Context (run : list Z → machine → res machine) (env : nat → answers).

Lemma find_action_some a x : find_action (actions run env) a = Some x → x ∈ actions run env ∧ name x = a.
Proof.
  generalize (actions run env). intros table. induction table as [|y table IH]; cbn; [done|].
  case_decide as E; [|intros H; destruct (IH H); split; [by right|done]].
  intros [= <-]. split; [left|done].
Qed.
Lemma actions_argc x : x ∈ actions run env → (0 < argc x)%nat.
Proof. unfold actions. set_unfold. naive_solver lia. Qed.
Lemma actions_loop_fuel : ∀ fuel fuel' argv mc,
  (length argv < fuel)%nat → (length argv < fuel')%nat →
  actions_loop run env fuel argv mc = actions_loop run env fuel' argv mc.
Proof.
  induction fuel as [|fuel IH]; intros [|fuel'] argv mc H1 H2; try lia. cbn [actions_loop].
  destruct argv as [|a argv]; [done|]. destruct (find_action _ a) as [x|] eqn:E; [|done].
  apply find_action_some in E as [Hx _]. apply actions_argc in Hx.
  destruct (_ <? _)%nat; [done|]. destruct (function x _ _) as [mc1| |]; [|done..]. rewrite !bind_Ret.
  apply IH; rewrite length_drop; cbn [length] in *; lia.
Qed.

(** The actions are carried out in the order of the command line, each with its own
    arguments; an unknown action, or one without all its arguments, stops the kernel after
    those before it were carried out. *)
Theorem run_actions_correct argv mc :
  run_actions run env argv mc =
    match argv with
    | [] => Ret mc
    | a :: _ =>
      match find_action (actions run env) a with
      | None => Panic
      | Some x =>
        if decide (length argv < argc x)%nat then Panic else
        mc ← function x argv mc;
        run_actions run env (drop (argc x) argv) (count_action mc)
      end
    end.
Proof.
  unfold run_actions at 1. cbn [actions_loop]. destruct argv as [|a argv]; [done|].
  destruct (find_action _ a) as [x|] eqn:E; [|done]. apply find_action_some in E as [Hx _]. apply actions_argc in Hx.
  destruct (Nat.ltb_spec (length (a :: argv)) (argc x)); [by rewrite decide_True|].
  rewrite decide_False by lia. destruct (function x _ _) as [mc1| |]; [|done..]. rewrite !bind_Ret.
  apply actions_loop_fuel; rewrite length_drop; cbn [length]; lia.
Qed.

(** What programs do keeps the counts of open files. *)
Hypothesis run_ok : ∀ task mc mc', objects_ok [] (m_fs mc) → run task mc = Ret mc' → objects_ok [] (m_fs mc').

Lemma function_ok x argv mc mc' :
  x ∈ actions run env → objects_ok [] (m_fs mc) → function x argv mc = Ret mc' → objects_ok [] (m_fs mc').
Proof using run_ok.
  intros Hx H E. destruct (fsutil_keeps_objects (m_fs mc) H) as (Hls & Hcat & Hrm & Hex & Happ).
  unfold actions in Hx. set_unfold. destruct_or! Hx; subst x; cbn [function] in E.
  - unfold run_task in E. bind_inv E. injection E as <-. by eapply run_ok in E0.
  - unfold ls_action, with_fs in E. bind_inv E. destruct v. injection E as <-. by eapply Hls.
  - unfold cat_action, with_fs in E. bind_inv E. destruct v. injection E as <-. by eapply Hcat.
  - unfold rm_action, with_fs in E. bind_inv E. destruct v. injection E as <-. by eapply Hrm.
  - unfold extract_action in E. bind_inv E. destruct v as [[[[s st] m] sec] c]. injection E as <-. by eapply Hex.
  - unfold append_action in E. bind_inv E. destruct v as [[[[s st] m] sec] c]. injection E as <-. by eapply Happ.
Qed.
Theorem run_actions_objects argv mc mc' :
  objects_ok [] (m_fs mc) → run_actions run env argv mc = Ret mc' → objects_ok [] (m_fs mc').
Proof using run_ok.
  unfold run_actions. generalize (S (length argv)). intros fuel. revert argv mc.
  induction fuel as [|fuel IH]; intros argv mc H E; [done|]. cbn [actions_loop] in E.
  destruct argv as [|a argv]; [by injection E as <-|]. destruct (find_action _ a) as [x|] eqn:Ex; [|done].
  apply find_action_some in Ex as [Hx _]. destruct (_ <? _)%nat; [done|]. bind_inv E.
  eapply IH; [|exact E]. cbn. by eapply function_ok.
Qed.
End ActionTheorems.

(** A boot with the command line [-f -ul=9 ls]: the empty root directory is listed. *)
Definition demo_line : mem :=
  store_chars (store32 ∅ 3221257530 3) 3221257534
    (chars "-f" ++ [0] ++ chars "-ul=9" ++ [0] ++ chars "ls" ++ [0]).
Definition demo_devices : registry :=
  Registry [Block (chars "hda1") BLOCK_FILESYS 64 (Disk 0) 0 0; Block (chars "hda2") BLOCK_SCRATCH 100 (Disk 1) 0 0]
    (λ _, None) ∅ (λ _, true).
Example boot_lists_root :
  (r ← boot_actions (λ _ mc, Ret mc) (λ _, Answers true 4096 8192 (λ _, replicate 20 0)) 7 [7; 7]
         demo_line demo_devices (λ _, blank_fs);
   Ret (option_map (λ mc, (console mc, performed mc, block_by_role (m_devices mc) BLOCK_SCRATCH)) r))
  = Ret (Some ([Line (chars "Files in the root directory:"); Line (chars "End of listing.")], 1%nat, Some 1%nat)).
Proof. vm_compute. reflexivity. Qed.
