(* ===== verification/Threads.v ===== *)
(** * Threads and synchronization (threads/thread.c, threads/synch.c)

    One processor runs one thread at a time.  A thread that sleeps or is preempted keeps
    what it still has to do inside the kernel: its saved execution is a list of
    instructions, each of which the code runs with interrupts off (or under the lock that
    protects the data), so that a timer interrupt can only come between two of them.  When
    the list is empty the thread runs its own code, which may call any operation next.

    Threads, semaphores, locks and condition variables are named by their addresses.  The
    semaphore inside a lock and the one [cond_wait] puts on its caller's stack are not
    reachable otherwise, which the type of names records. *)
From S2P Require Import Prelude.

Inductive thread_status := THREAD_RUNNING | THREAD_READY | THREAD_BLOCKED | THREAD_DYING.
#[export] Instance thread_status_eq : EqDecision thread_status.
Proof. solve_decision. Defined.

Inductive sema_name := Sem (a : Z) | LockSem (lock : Z) | WaitSem (thread : Z).
#[export] Instance sema_name_eq : EqDecision sema_name.
Proof. solve_decision. Defined.
#[export] Instance sema_name_countable : Countable sema_name.
Proof.
  apply (inj_countable' (λ s, match s with Sem a => (0, a) | LockSem a => (1, a) | WaitSem a => (2, a) end)
    (λ '(k, a), if k =? 0 then Sem a else if k =? 1 then LockSem a else WaitSem a)).
  by intros [].
Defined.

(** What a thread may still have to do in the kernel. *)
Inductive instr :=
| IDown (s : sema_name)          (* the loop of sema_down *)
| ITryDown (s : sema_name)
| IUp (s : sema_name)
| IAcquire (l : Z)
| ITryAcquire (l : Z)
| ISetHolder (l : Z)             (* lock->holder = thread_current () *)
| IRelease (l : Z)
| ICondWait (c l : Z)
| ICondSignal (c l : Z)
| ICondBroadcast (c l : Z)
| ICreate (page priority : Z)    (* page: what palloc_get_page returned *)
| INextTid (t : Z)               (* t->tid = next_tid++ *)
| IUnblock (t : Z)
| IYield
| IExit                          (* thread_exit *)
| IDie                           (* its part after process_exit *)
| IIdle.                         (* one round of idle's loop *)
#[export] Instance instr_eq : EqDecision instr.
Proof. solve_decision. Defined.

Record tcb := Tcb { tid : Z; status : thread_status; priority : Z; kont : list instr }.
Record semaphore := Sema { s_value : Z; waiters : list Z }.
Record lock := Lock { holder : Z }.
Record condition := Cond { c_waiters : list sema_name }.

Record sched := Sched {
  threads : gmap Z tcb; running : Z; ready_list : list Z; all_list : list Z;
  idle_thread : Z; initial_thread : Z; tid_lock : Z; next_tid : Z;
  thread_ticks : Z; idle_ticks : Z; other_ticks : Z;
  semas : gmap sema_name semaphore; locks : gmap Z lock; conds : gmap Z condition;
}.

Definition set_threads (st : sched) (ts : gmap Z tcb) : sched :=
  Sched ts (running st) (ready_list st) (all_list st) (idle_thread st) (initial_thread st)
    (tid_lock st) (next_tid st) (thread_ticks st) (idle_ticks st) (other_ticks st)
    (semas st) (locks st) (conds st).
Definition set_ready (st : sched) (l : list Z) : sched :=
  Sched (threads st) (running st) l (all_list st) (idle_thread st) (initial_thread st)
    (tid_lock st) (next_tid st) (thread_ticks st) (idle_ticks st) (other_ticks st)
    (semas st) (locks st) (conds st).
Definition set_all (st : sched) (l : list Z) : sched :=
  Sched (threads st) (running st) (ready_list st) l (idle_thread st) (initial_thread st)
    (tid_lock st) (next_tid st) (thread_ticks st) (idle_ticks st) (other_ticks st)
    (semas st) (locks st) (conds st).
Definition set_running (st : sched) (t : Z) : sched :=
  Sched (threads st) t (ready_list st) (all_list st) (idle_thread st) (initial_thread st)
    (tid_lock st) (next_tid st) (thread_ticks st) (idle_ticks st) (other_ticks st)
    (semas st) (locks st) (conds st).
Definition set_next_tid (st : sched) (n : Z) : sched :=
  Sched (threads st) (running st) (ready_list st) (all_list st) (idle_thread st)
    (initial_thread st) (tid_lock st) n (thread_ticks st) (idle_ticks st) (other_ticks st)
    (semas st) (locks st) (conds st).
Definition set_ticks (st : sched) (n i o : Z) : sched :=
  Sched (threads st) (running st) (ready_list st) (all_list st) (idle_thread st)
    (initial_thread st) (tid_lock st) (next_tid st) n i o (semas st) (locks st) (conds st).
Definition set_semas (st : sched) (s : gmap sema_name semaphore) : sched :=
  Sched (threads st) (running st) (ready_list st) (all_list st) (idle_thread st)
    (initial_thread st) (tid_lock st) (next_tid st) (thread_ticks st) (idle_ticks st)
    (other_ticks st) s (locks st) (conds st).
Definition set_locks (st : sched) (l : gmap Z lock) : sched :=
  Sched (threads st) (running st) (ready_list st) (all_list st) (idle_thread st)
    (initial_thread st) (tid_lock st) (next_tid st) (thread_ticks st) (idle_ticks st)
    (other_ticks st) (semas st) l (conds st).
Definition set_conds (st : sched) (c : gmap Z condition) : sched :=
  Sched (threads st) (running st) (ready_list st) (all_list st) (idle_thread st)
    (initial_thread st) (tid_lock st) (next_tid st) (thread_ticks st) (idle_ticks st)
    (other_ticks st) (semas st) (locks st) c.

Definition with_status (t : tcb) (s : thread_status) : tcb := Tcb (tid t) s (priority t) (kont t).
Definition with_kont (t : tcb) (k : list instr) : tcb := Tcb (tid t) (status t) (priority t) k.

Definition TIME_SLICE : Z := 4.
Definition PRI_MIN : Z := 0.
Definition PRI_MAX : Z := 63.

(** [temporary] of userprog/process.c, which [process_exit] ups.  It is a static variable:
    until [process_execute] initialises it, its bytes, the links of its list included, are
    zero. *)
Definition temporary : sema_name := Sem 0.

Definition get_tcb (st : sched) (p : Z) : res tcb :=
  match threads st !! p with Some t => Ret t | None => Panic end.
(** Using the list of a zeroed semaphore fails an assertion of the list functions
    ([list_push_back] on a tail without predecessor, [list_pop_front] of a null pointer);
    the bytes of any other semaphore nobody initialised are not known. *)
Definition get_sema (st : sched) (s : sema_name) : res semaphore :=
  match semas st !! s with
  | Some x => Ret x
  | None => if decide (s = temporary) then Panic else Stuck
  end.
Definition get_lock (st : sched) (l : Z) : res lock :=
  match locks st !! l with Some x => Ret x | None => Stuck end.
Definition get_cond (st : sched) (c : Z) : res condition :=
  match conds st !! c with Some x => Ret x | None => Stuck end.
Definition set_tcb (st : sched) (p : Z) (t : tcb) : sched := set_threads st (<[p := t]> (threads st)).
Definition set_sema (st : sched) (s : sema_name) (x : semaphore) : sched :=
  set_semas st (<[s := x]> (semas st)).

(** ** thread.c *)

(** [running_thread] with the checks that it is a thread and runs. *)
Definition thread_current (st : sched) : res tcb :=
  t ← get_tcb st (running st);
  ASSERT (bool_decide (status t = THREAD_RUNNING));;
  Ret t.

Definition next_thread_to_run (st : sched) : Z * sched :=
  match ready_list st with
  | [] => (idle_thread st, st)
  | t :: l => (t, set_ready st l)
  end.

(** [prev] is null when no switch took place. *)
Definition thread_schedule_tail (st : sched) (prev : Z) : res sched :=
  cur ← get_tcb st (running st);
  let st := set_tcb st (running st) (with_status cur THREAD_RUNNING) in
  let st := set_ticks st 0 (idle_ticks st) (other_ticks st) in
  if prev =? NULL then Ret st else
  p ← get_tcb st prev;
  if bool_decide (status p = THREAD_DYING) && negb (prev =? initial_thread st) then
    ASSERT (negb (prev =? running st));;
    Ret (set_threads st (delete prev (threads st)))
  else Ret st.

Definition schedule (st : sched) : res sched :=
  let cur := running st in
  let '(next, st) := next_thread_to_run st in
  t ← get_tcb st cur;
  ASSERT (negb (bool_decide (status t = THREAD_RUNNING)));;
  n ← get_tcb st next;
  if cur =? next then thread_schedule_tail st NULL
  else thread_schedule_tail (set_running st next) cur.

(** [thread_block]; [k] is what the thread does when it runs again. *)
Definition thread_block (st : sched) (k : list instr) : res sched :=
  t ← thread_current st;
  schedule (set_tcb st (running st) (Tcb (tid t) THREAD_BLOCKED (priority t) k)).

Definition thread_unblock (st : sched) (p : Z) : res sched :=
  t ← get_tcb st p;
  ASSERT (bool_decide (status t = THREAD_BLOCKED));;
  Ret (set_tcb (set_ready st (ready_list st ++ [p])) p (with_status t THREAD_READY)).

Definition thread_yield (st : sched) : res sched :=
  t ← thread_current st;
  let cur := running st in
  let st := if negb (cur =? idle_thread st) then set_ready st (ready_list st ++ [cur]) else st in
  schedule (set_tcb st cur (with_status t THREAD_READY)).

(** The timer interrupt: [thread_tick], and the yield on return it may ask for. *)
Definition thread_tick (st : sched) : res sched :=
  t ← thread_current st;
  let idle := running st =? idle_thread st in
  let n := thread_ticks st + 1 in
  let st := set_ticks st n (idle_ticks st + (if idle then 1 else 0))
              (other_ticks st + (if idle then 0 else 1)) in
  if TIME_SLICE <=? n then thread_yield st else Ret st.

(** [init_thread]: the new thread is blocked and on the list of all threads. *)
Definition init_thread (st : sched) (p priority : Z) : res sched :=
  ASSERT (negb (p =? NULL));;
  ASSERT ((PRI_MIN <=? priority) && (priority <=? PRI_MAX));;
  Ret (set_tcb (set_all st (all_list st ++ [p])) p (Tcb 0 THREAD_BLOCKED priority [])).

(** The end of [thread_exit], after [process_exit]. *)
Definition thread_die (st : sched) : res sched :=
  t ← thread_current st;
  let cur := running st in
  let st := set_all st (filter (λ q, q ≠ cur) (all_list st)) in
  schedule (set_tcb st cur (with_status t THREAD_DYING)).

Definition thread_set_priority (st : sched) (new_priority : Z) : res sched :=
  t ← thread_current st;
  Ret (set_tcb st (running st) (Tcb (tid t) (status t) new_priority (kont t))).
Definition thread_get_priority (st : sched) : res Z := priority <$> thread_current st.

(** ** synch.c *)
Definition sema_init (st : sched) (s : sema_name) (value : Z) : sched := set_sema st s (Sema value []).

(** The loop of [sema_down]; [k] is what the caller does afterwards. *)
Definition sema_down (st : sched) (s : sema_name) (k : list instr) : res sched :=
  x ← get_sema st s;
  if s_value x =? 0 then
    _ ← thread_current st;
    thread_block (set_sema st s (Sema (s_value x) (waiters x ++ [running st]))) (IDown s :: k)
  else Ret (set_sema st s (Sema (s_value x - 1) (waiters x))).

(** It reads the value only, and that of a zeroed semaphore is zero. *)
Definition sema_try_down (st : sched) (s : sema_name) : res (bool * sched) :=
  match semas st !! s with
  | Some x =>
    if 0 <? s_value x then Ret (true, set_sema st s (Sema (s_value x - 1) (waiters x)))
    else Ret (false, st)
  | None => if decide (s = temporary) then Ret (false, st) else Stuck
  end.

Definition sema_up (st : sched) (s : sema_name) : res sched :=
  x ← get_sema st s;
  match waiters x with
  | t :: ws =>
    st ← thread_unblock (set_sema st s (Sema (s_value x) ws)) t;
    Ret (set_sema st s (Sema (u32 (s_value x + 1)) ws))
  | [] => Ret (set_sema st s (Sema (u32 (s_value x + 1)) []))
  end.

Definition lock_init (st : sched) (l : Z) : sched :=
  sema_init (set_locks st (<[l := Lock NULL]> (locks st))) (LockSem l) 1.
Definition lock_held_by_current_thread (st : sched) (l : Z) : res bool :=
  x ← get_lock st l;
  _ ← thread_current st;
  Ret (holder x =? running st).
Definition set_holder (st : sched) (l t : Z) : sched := set_locks st (<[l := Lock t]> (locks st)).
Definition cond_init (st : sched) (c : Z) : sched := set_conds st (<[c := Cond []]> (conds st)).

(** ** One instruction of the running thread

    [k] is the rest of its saved execution.  Instructions that call others put them in
    front of it. *)
Definition continue (st : sched) (k : list instr) : res sched :=
  t ← thread_current st;
  Ret (set_tcb st (running st) (with_kont t k)).

(** [lock_acquire], [lock_try_acquire], [lock_release] *)
Definition lock_acquire (st : sched) (l : Z) (k : list instr) : res sched :=
  h ← lock_held_by_current_thread st l;
  ASSERT (negb h);;
  continue st (IDown (LockSem l) :: ISetHolder l :: k).
Definition lock_try_acquire (st : sched) (l : Z) (k : list instr) : res sched :=
  h ← lock_held_by_current_thread st l;
  ASSERT (negb h);;
  '(success, st) ← sema_try_down st (LockSem l);
  continue st (if success : bool then ISetHolder l :: k else k).
Definition lock_release (st : sched) (l : Z) (k : list instr) : res sched :=
  h ← lock_held_by_current_thread st l;
  ASSERT h;;
  continue (set_holder st l NULL) (IUp (LockSem l) :: k).

(** Condition variables.  The waiter's semaphore is the running thread's own. *)
Definition cond_wait (st : sched) (c l : Z) (k : list instr) : res sched :=
  h ← lock_held_by_current_thread st l;
  ASSERT h;;
  x ← get_cond st c;
  let w := WaitSem (running st) in
  let st := sema_init st w 0 in
  let st := set_conds st (<[c := Cond (c_waiters x ++ [w])]> (conds st)) in
  continue st (IRelease l :: IDown w :: IAcquire l :: k).
Definition cond_signal (st : sched) (c l : Z) (k : list instr) : res sched :=
  h ← lock_held_by_current_thread st l;
  ASSERT h;;
  x ← get_cond st c;
  match c_waiters x with
  | [] => continue st k
  | w :: ws => continue (set_conds st (<[c := Cond ws]> (conds st))) (IUp w :: k)
  end.
Definition cond_broadcast (st : sched) (c l : Z) (k : list instr) : res sched :=
  x ← get_cond st c;
  match c_waiters x with
  | [] => continue st k
  | _ :: _ => continue st (ICondSignal c l :: ICondBroadcast c l :: k)
  end.

(** [thread_create]: the page, then [init_thread], [allocate_tid] and [thread_unblock]. *)
Definition thread_create (st : sched) (page priority : Z) (k : list instr) : res sched :=
  if page =? NULL then continue st k else
  st ← init_thread st page priority;
  continue st (IAcquire (tid_lock st) :: INextTid page :: IRelease (tid_lock st)
                 :: IUnblock page :: k).
(** The part of [allocate_tid] under its lock, with the assignment of the result. *)
Definition allocate_tid (st : sched) (p : Z) (k : list instr) : res sched :=
  st ← continue st k;
  t ← get_tcb st p;
  Ret (set_tcb (set_next_tid st (next_tid st + 1)) p
         (Tcb (next_tid st) (status t) (priority t) (kont t))).
(** [thread_exit] calls [process_exit], which ups [temporary], and then dies. *)
Definition thread_exit (st : sched) (k : list instr) : res sched :=
  continue st (IUp temporary :: IDie :: k).

Definition exec (st : sched) (i : instr) (k : list instr) : res sched :=
  match i with
  | IDown s => st ← continue st k; sema_down st s k
  | ITryDown s => st ← continue st k; '(_, st) ← sema_try_down st s; Ret st
  | IUp s => st ← continue st k; sema_up st s
  | IAcquire l => lock_acquire st l k
  | ITryAcquire l => lock_try_acquire st l k
  | ISetHolder l => st ← continue st k; Ret (set_holder st l (running st))
  | IRelease l => lock_release st l k
  | ICondWait c l => cond_wait st c l k
  | ICondSignal c l => cond_signal st c l k
  | ICondBroadcast c l => cond_broadcast st c l k
  | ICreate page priority => thread_create st page priority k
  | INextTid p => allocate_tid st p k
  | IUnblock p => st ← continue st k; thread_unblock st p
  | IYield => st ← continue st k; thread_yield st
  | IExit => thread_exit st k
  | IDie => thread_die st
  | IIdle => thread_block st (IIdle :: k)
  end.

(** ** Starting up *)
Definition PRI_DEFAULT : Z := 31.

(** The instructions that run, of whichever thread, until one reaches its own code. *)
Fixpoint run (fuel : nat) (st : sched) : res sched :=
  t ← thread_current st;
  match kont t, fuel with
  | [], _ => Ret st
  | _ :: _, O => Stuck
  | i :: k, S fuel => st ← exec st i k; run fuel st
  end.

(** [p] is the page of the code that runs, [tl] the address of [tid_lock]. *)
Definition thread_init (p tl : Z) : res sched :=
  let st := lock_init (Sched ∅ p [] [] NULL p tl 1 0 0 0 ∅ ∅ ∅) tl in
  st ← init_thread st p PRI_DEFAULT;
  t ← get_tcb st p;
  let st := set_tcb st p (with_status t THREAD_RUNNING) in
  st ← continue st [IAcquire tl; INextTid p; IRelease tl];
  run 6 st.

(** [idle], up to the first round of its loop: it makes itself known. *)
Definition idle (st : sched) (idle_started : sema_name) : res sched :=
  let st := Sched (threads st) (running st) (ready_list st) (all_list st) (running st)
    (initial_thread st) (tid_lock st) (next_tid st) (thread_ticks st) (idle_ticks st)
    (other_ticks st) (semas st) (locks st) (conds st) in
  continue st [IUp idle_started; IIdle].

(** [idle_started] is the address of the semaphore on the caller's stack, [page] what
    [palloc_get_page] returned for the idle thread, which runs once the caller sleeps. *)
Definition thread_start (st : sched) (idle_started page : Z) : res sched :=
  let s := Sem idle_started in
  let st := sema_init st s 0 in
  st ← continue st [ICreate page PRI_MIN; IDown s];
  st ← run 9 st;
  st ← idle st s;
  run 3 st.
