(* ===== verification/Timer.v ===== *)
(** * The timer (devices/timer.c)

    Calibration of the delay loop, sleeping and delays.  How many rounds of the delay loop
    fit between two ticks is a property of the machine, the parameter of [too_many_loops];
    the values that successive readings of the tick counter give while other threads run
    are a parameter of the sleeping loop. *)
From S2P Require Import Prelude Arithmetic Threads.

Definition TIMER_FREQ : Z := 100.

(** ** Ticks *)
Record timer := Timer { ticks : Z; loops_per_tick : Z; machine : sched }.

Definition timer_interrupt (t : timer) : res timer :=
  st ← thread_tick (machine t); Ret (Timer (s64 (ticks t + 1)) (loops_per_tick t) st).
Definition timer_elapsed (now start : Z) : Z := s64 (now - start).

(** [timer_sleep]: the [n]th reading of the counter is [now n]; the result is the number of
    readings made. *)
Fixpoint sleep_loop (fuel : nat) (now : nat → Z) (n : nat) (start t : Z) : res nat :=
  match fuel with
  | O => Stuck
  | S fuel =>
    if timer_elapsed (now n) start <? t then sleep_loop fuel now (S n) start t
    else Ret (S n)
  end.
Definition timer_sleep (fuel : nat) (now : nat → Z) (t : Z) : res nat :=
  sleep_loop fuel now 1 (now O) t.

(** The rounds [real_time_delay] asks of [busy_wait], and how long [real_time_sleep] waits. *)
Inductive pause := Sleep (t : Z) | Delay (loops : Z).
Definition real_time_delay (lpt num denom : Z) : res Z :=
  ASSERT (Z.rem denom 1000 =? 0);;
  Ret (Z.quot (s64 (Z.quot (s64 (lpt * num)) 1000 * TIMER_FREQ)) (Z.quot denom 1000)).
Definition real_time_sleep (lpt num denom : Z) : res pause :=
  let t := Z.quot (s64 (num * TIMER_FREQ)) denom in
  if 0 <? t then Ret (Sleep t)
  else loops ← real_time_delay lpt num denom; Ret (Delay loops).
Definition timer_msleep (lpt ms : Z) : res pause := real_time_sleep lpt ms 1000.
Definition timer_usleep (lpt us : Z) : res pause := real_time_sleep lpt us 1000000.
Definition timer_nsleep (lpt ns : Z) : res pause := real_time_sleep lpt ns 1000000000.
Definition timer_mdelay (lpt ms : Z) : res Z := real_time_delay lpt ms 1000.
Definition timer_udelay (lpt us : Z) : res Z := real_time_delay lpt us 1000000.
Definition timer_ndelay (lpt ns : Z) : res Z := real_time_delay lpt ns 1000000000.

(** ** Calibration *)
Section Calibrate.
(** [per_tick] rounds of the loop are done before the next tick. *)
Context (per_tick : Z).
Definition too_many_loops (loops : Z) : bool := per_tick <? loops.

Fixpoint double_loop (fuel : nat) (lpt : Z) : res Z :=
  match fuel with
  | O => Stuck
  | S fuel =>
    if too_many_loops (u32 (Z.shiftl lpt 1)) then Ret lpt else
    let lpt := u32 (Z.shiftl lpt 1) in
    ASSERT (negb (lpt =? 0));;
    double_loop fuel lpt
  end.
Fixpoint refine_loop (fuel : nat) (high_bit test_bit lpt : Z) : res Z :=
  match fuel with
  | O => Stuck
  | S fuel =>
    if test_bit =? Z.shiftr high_bit 10 then Ret lpt else
    let lpt := if too_many_loops (Z.lor lpt test_bit) then lpt else Z.lor lpt test_bit in
    refine_loop fuel high_bit (Z.shiftr test_bit 1) lpt
  end.
Definition timer_calibrate : res Z :=
  lpt ← double_loop 32 1024;
  refine_loop 32 lpt (Z.shiftr lpt 1) lpt.

(** *** Proof *)
Lemma pow2_S (k : nat) : 2 ^ Z.of_nat (S k) = 2 * 2 ^ Z.of_nat k.
Proof. rewrite Nat2Z.inj_succ, Z.pow_succ_r; lia. Qed.
Lemma pow2_pos (k : nat) : 0 < 2 ^ Z.of_nat k.
Proof. apply Z.pow_pos_nonneg; lia. Qed.

Lemma double_loop_spec n : ∀ (fuel k : nat),
  (n = 31 - k)%nat → (k ≤ 31)%nat → (n < fuel)%nat → 2 ^ Z.of_nat k ≤ per_tick < 2147483648 →
  ∃ j : nat, double_loop fuel (2 ^ Z.of_nat k) = Ret (2 ^ Z.of_nat j) ∧ (k ≤ j < 31)%nat
    ∧ 2 ^ Z.of_nat j ≤ per_tick < 2 * 2 ^ Z.of_nat j.
Proof.
  induction n as [|n IH]; intros fuel k Hn Hk Hf Hp; (destruct fuel as [|fuel]; [lia|]).
  - assert (k = 31%nat) as -> by lia. change (2 ^ Z.of_nat 31) with 2147483648 in *. lia.
  - cbn [double_loop]. rewrite Z.shiftl_mul_pow2, Z.pow_1_r by lia.
    assert (2 ^ Z.of_nat (S k) ≤ 2 ^ 31) as Hle by (apply Z.pow_le_mono_r; lia).
    change (2 ^ 31) with 2147483648 in Hle. rewrite pow2_S in Hle. pose proof (pow2_pos k).
    rewrite u32_id by (unfold is_u32; lia). unfold too_many_loops.
    destruct (Z.ltb_spec per_tick (2 ^ Z.of_nat k * 2)).
    + exists k. split; [done|]. split; [lia|lia].
    + destruct (Z.eqb_spec (2 ^ Z.of_nat k * 2) 0); [lia|]. cbn [negb ASSERT]. rewrite bind_Ret.
      rewrite Z.mul_comm, <- pow2_S.
      destruct (IH fuel (S k)) as (j & E & Hj & Hb); [lia|lia|lia|rewrite pow2_S; lia|].
      exists j. split; [done|]. split; [lia|done].
Qed.

(** Setting a bit below a multiple of the next power adds it. *)
Lemma lor_bit a (k : nat) : 0 ≤ a → a mod 2 ^ Z.of_nat (S k) = 0 →
  Z.lor a (2 ^ Z.of_nat k) = a + 2 ^ Z.of_nat k.
Proof.
  intros Ha Hm. rewrite Z.add_nocarry_lxor, Z.lxor_lor; [done|..];
    (apply Z.bits_inj'; intros i Hi; rewrite Z.bits_0, Z.land_spec, Z.pow2_bits_eqb by lia;
     destruct (Z.eqb_spec (Z.of_nat k) i) as [<-|]; [|by rewrite andb_false_r];
     rewrite andb_true_r, <- (Z.mod_pow2_bits_low a (Z.of_nat (S k))) by lia; by rewrite Hm, Z.bits_0).
Qed.

Lemma shiftr_pow2 (k n : nat) : Z.shiftr (2 ^ Z.of_nat (n + k)) (Z.of_nat n) = 2 ^ Z.of_nat k.
Proof.
  rewrite Z.shiftr_div_pow2, Nat2Z.inj_add, Z.pow_add_r, Z.mul_comm by lia.
  apply Z.div_mul. pose proof (pow2_pos n). lia.
Qed.

(** About to test the bit [2 ^ (d + n)], the bits from the next one up are decided. *)
Lemma refine_loop_spec n : ∀ (fuel d : nat) lpt,
  (n < fuel)%nat → (n ≤ 9)%nat → 0 ≤ lpt → lpt mod 2 ^ Z.of_nat (S (d + n)) = 0 →
  lpt ≤ per_tick < lpt + 2 ^ Z.of_nat (S (d + n)) →
  ∃ r, refine_loop fuel (2 ^ Z.of_nat (10 + d)) (2 ^ Z.of_nat (d + n)) lpt = Ret r
    ∧ r ≤ per_tick < r + 2 ^ Z.of_nat (S d).
Proof.
  induction n as [|n IH]; intros fuel d lpt Hf Hn Hl Hm Hb; (destruct fuel as [|fuel]; [lia|]);
    cbn [refine_loop]; rewrite (shiftr_pow2 d 10 : Z.shiftr _ 10 = _).
  - rewrite Nat.add_0_r in *. rewrite Z.eqb_refl. by exists lpt.
  - replace (d + S n)%nat with (S (d + n)) in * by lia.
    destruct (Z.eqb_spec (2 ^ Z.of_nat (S (d + n))) (2 ^ Z.of_nat d)) as [E|_].
    { apply Z.pow_inj_r in E; lia. }
    rewrite (shiftr_pow2 (d + n) 1 : Z.shiftr (2 ^ Z.of_nat (S (d + n))) 1 = _), lor_bit by done. unfold too_many_loops.
    rewrite (pow2_S (S (d + n))) in Hm, Hb. pose proof (pow2_pos (S (d + n))).
    assert (∃ c, lpt = c * (2 * 2 ^ Z.of_nat (S (d + n)))) as [c Hc].
    { exists (lpt / (2 * 2 ^ Z.of_nat (S (d + n)))). pose proof (Z.div_mod lpt (2 * 2 ^ Z.of_nat (S (d + n)))). lia. }
    destruct (Z.ltb_spec per_tick (lpt + 2 ^ Z.of_nat (S (d + n)))).
    + apply IH; [lia|lia|done| |lia]. rewrite Hc.
      replace (c * _) with (c * 2 * 2 ^ Z.of_nat (S (d + n))) by lia. apply Z.mod_mul. lia.
    + apply IH; [lia|lia|lia| |lia]. rewrite Hc.
      replace (_ + _) with ((c * 2 + 1) * 2 ^ Z.of_nat (S (d + n))) by lia. apply Z.mod_mul. lia.
Qed.

(** [timer_calibrate] returns on every machine that does between 2^10 and 2^31 rounds per
    tick; its result is at most the true number, and short of it by less than one part in
    512 (nine bits below the highest are decided; the comment says eight). *)
Theorem timer_calibrate_correct :
  1024 ≤ per_tick < 2147483648 →
  ∃ r (k : nat), timer_calibrate = Ret r ∧ 2 ^ Z.of_nat (9 + k) ≤ per_tick < 2 * 2 ^ Z.of_nat (9 + k)
    ∧ r ≤ per_tick < r + 2 ^ Z.of_nat k.
Proof.
  intros Hp. unfold timer_calibrate. change 1024 with (2 ^ Z.of_nat 10).
  destruct (double_loop_spec 21 32 10) as (j & E & Hj & Hb); [lia|lia|lia|cbn; lia|].
  rewrite E, bind_Ret. destruct j as [|j]; [lia|]. replace (S j) with (10 + (j - 9))%nat in * by lia.
  set (d := (j - 9)%nat) in *.
  replace (Z.shiftr (2 ^ Z.of_nat (10 + d)) 1) with (2 ^ Z.of_nat (d + 9))
    by (replace (10 + d)%nat with (1 + (d + 9))%nat by lia; symmetry; apply (shiftr_pow2 (d + 9) 1)).
  destruct (refine_loop_spec 9 32 d (2 ^ Z.of_nat (10 + d))) as (r & Er & Hr).
  - lia.
  - lia.
  - pose proof (pow2_pos (10 + d)). lia.
  - replace (S (d + 9)) with (10 + d)%nat by lia. apply Z.mod_same. pose proof (pow2_pos (10 + d)). lia.
  - replace (S (d + 9)) with (10 + d)%nat by lia. lia.
  - exists r, (S d). replace (9 + S d)%nat with (10 + d)%nat by lia. done.
Qed.

(** On a machine that does 2^31 rounds or more per tick the count wraps to zero and the
    assertion stops the kernel. *)
Theorem timer_calibrate_too_fast : 2147483648 ≤ per_tick → timer_calibrate = Panic.
Proof.
  intros Hp. unfold timer_calibrate.
  assert (∀ n fuel k : nat, (n = 31 - k)%nat → (k ≤ 31)%nat → (n < fuel)%nat →
            double_loop fuel (2 ^ Z.of_nat k) = Panic) as H.
  { induction n as [|n IH]; intros fuel k Hn Hk Hf; (destruct fuel as [|fuel]; [lia|]); cbn [double_loop];
      unfold too_many_loops.
    - assert (k = 31%nat) as -> by lia. change (u32 _) with 0.
      by destruct (Z.ltb_spec per_tick 0); [lia|].
    - rewrite Z.shiftl_mul_pow2, Z.pow_1_r, Z.mul_comm, <- pow2_S by lia.
      assert (2 ^ Z.of_nat (S k) ≤ 2 ^ 31) as Hle by (apply Z.pow_le_mono_r; lia).
      change (2 ^ 31) with 2147483648 in Hle. pose proof (pow2_pos (S k)).
      rewrite u32_id by (unfold is_u32; lia).
      destruct (Z.ltb_spec per_tick (2 ^ Z.of_nat (S k))); [lia|].
      destruct (Z.eqb_spec (2 ^ Z.of_nat (S k)) 0); [lia|]. cbn [negb ASSERT]. rewrite bind_Ret.
      apply IH; lia. }
  change 1024 with (2 ^ Z.of_nat 10). by rewrite (H 21%nat) by lia.
Qed.
End Calibrate.

(** ** Sleeping *)
Lemma sleep_loop_spec fuel now start t : ∀ n k : nat,
  (k < fuel)%nat → (∀ i : nat, (n ≤ i < n + k)%nat → timer_elapsed (now i) start < t) →
  t ≤ timer_elapsed (now (n + k)%nat) start →
  sleep_loop fuel now n start t = Ret (S (n + k)).
Proof.
  induction fuel as [|fuel IH]; intros n k Hf Hlt Hge; [lia|]. cbn [sleep_loop].
  destruct k as [|k].
  - rewrite Nat.add_0_r in *. by destruct (Z.ltb_spec (timer_elapsed (now n) start) t); [lia|].
  - specialize (Hlt n ltac:(lia)) as Hn. destruct (Z.ltb_spec (timer_elapsed (now n) start) t); [|lia].
    rewrite (IH (S n) k); [f_equal; lia|lia| |].
    + intros i Hi. apply Hlt. lia.
    + by replace (S n + k)%nat with (n + S k)%nat by lia.
Qed.

(** [timer_sleep] returns at the first reading at which at least [t] ticks have passed since its
    first one, and not before. *)
Theorem timer_sleep_correct fuel now t (k : nat) :
  (k < fuel)%nat → (∀ i : nat, (i < k)%nat → timer_elapsed (now (S i)) (now O) < t) →
  t ≤ timer_elapsed (now (S k)) (now O) → timer_sleep fuel now t = Ret (2 + k)%nat.
Proof.
  intros Hf Hlt Hge. unfold timer_sleep. rewrite (sleep_loop_spec _ _ _ _ 1 k); [done|done| |done].
  intros i Hi. destruct i as [|i]; [lia|]. apply Hlt. lia.
Qed.

(** A sleep of [ms] milliseconds waits for [ms / 10] ticks, or delays when that is none, by the
    share of a tick's rounds that it stands for, up to rounding to whole thousandths. *)
Theorem timer_msleep_correct lpt ms :
  0 ≤ lpt < 4294967296 → 0 ≤ ms ≤ 92233720368547758 →
  timer_msleep lpt ms
  = Ret (if 10 <=? ms then Sleep (ms / 10) else Delay (lpt * ms / 1000 * 100)).
Proof.
  intros Hl Hm. unfold timer_msleep, real_time_sleep, real_time_delay, TIMER_FREQ.
  rewrite (s64_id (ms * 100)), Z.quot_div_nonneg by (unfold is_s64; lia).
  replace (ms * 100 / 1000) with (ms / 10) by (Z.to_euclidean_division_equations; lia).
  change (Z.rem 1000 1000 =? 0) with true. change (Z.quot 1000 1000) with 1. cbn [ASSERT]. rewrite bind_Ret.
  destruct (Z.leb_spec 10 ms).
  - destruct (Z.ltb_spec 0 (ms / 10)); [done|]. Z.to_euclidean_division_equations. lia.
  - destruct (Z.ltb_spec 0 (ms / 10)); [Z.to_euclidean_division_equations; lia|].
    assert (0 ≤ lpt * ms < 42949672960) as Hx by nia. revert Hx. generalize (lpt * ms). intros x Hx.
    rewrite (s64_id x), (Z.quot_div_nonneg x 1000) by (unfold is_s64; lia).
    assert (0 ≤ x / 1000 < 42949673) by (Z.to_euclidean_division_equations; lia).
    by rewrite s64_id, Z.quot_1_r, bind_Ret by (unfold is_s64; lia).
Qed.
