(* ===== verification/Spawn.v ===== *)
(** * Starting a process (userprog/process.c: process_execute)

    [process_execute] and the first steps of [thread_create] over the page allocator and
    the scheduler: the file name is copied to a page of its own, and a second page becomes
    the new thread.  The steps of [thread_create] that take the lock of the thread ids are
    saved in the caller's execution, as in [Threads]. *)
From S2P Require Import Prelude Mem CString Bitmap Vaddr Palloc Pagedir Threads.

Record kern := Kern { pages : pstate; scheduler : sched }.

(** What the call did: it failed, or made a thread in a page for the name in another. *)
Inductive spawned := TID_ERROR | Spawned (thread_page fn_copy : Z).

Definition process_execute (fuel : nat) (st : kern) (file_name : Z) (k : list instr)
    : res (spawned * kern) :=
  let sc := sema_init (scheduler st) temporary 0 in
  '(fn_copy, ps) ← palloc_get_page (pages st) 0;
  if fn_copy =? NULL then Ret (TID_ERROR, Kern ps sc) else
  '(_, m) ← strlcpy fuel (pmem ps) fn_copy file_name PGSIZE;
  let ps := set_pmem ps m in
  '(page, ps) ← palloc_get_page ps PAL_ZERO;
  sc ← thread_create sc page PRI_DEFAULT k;
  if page =? NULL then
    ps ← palloc_free_page ps fn_copy;
    Ret (TID_ERROR, Kern ps sc)
  else Ret (Spawned page fn_copy, Kern ps sc).

Definition process_wait (st : sched) (k : list instr) : res sched := sema_down st temporary k.

(** ** Theorem *)
Section Spawn.
Variables (fuel : nat) (st : kern) (file_name : Z) (s : list Z) (k : list instr).
Hypothesis Hwf : palloc_wf (pages st).
Hypothesis Hname : cstr (pmem (pages st)) file_name s.
Hypothesis Hpos : 0 < file_name.
Hypothesis Hfuel : (length s < fuel)%nat.
(** The name is not in a free page. *)
Hypothesis Hfree : ∀ q, in_pool (kernel_pool (pages st)) q = true → allocated (pages st) q = false →
  q + 4096 ≤ file_name ∨ file_name + len s < q.

(** The caller is a running thread in a page of its own. *)
Variable cur : tcb.
Hypothesis Hcur : thread_current (scheduler st) = Ret cur.
Hypothesis Hown : allocated (pages st) (running (scheduler st)) = true.

Lemma got_page_low ps ps' z r : palloc_wf ps → got_pages ps ps' false z r 1 →
  0 < r ∧ r mod 4096 = 0 ∧ in_pool (kernel_pool ps) r = true ∧ allocated ps r = false
  ∧ (∀ q, allocated ps' q = if decide (q = r) then true else allocated ps q).
Proof.
  intros Hp Hg. destruct Hg as [Ha Hlow Hhigh Hfr Hal _ _ _ _]. cbn [get_pool] in *.
  pose proof (pw_low _ (plw_kernel _ Hp)). unfold PHYS_BASE in *.
  split_and!; [lia|done| |by apply Hfr; rewrite in_group_one by done; apply bool_decide_eq_true|].
  - apply in_pool_spec. split; [done|]. lia.
  - intros q. rewrite Hal, in_group_one by done. by case_bool_decide; case_decide.
Qed.

Lemma thread_create_ok page :
  page ≠ running (scheduler st) →
  ∃ sc, thread_create (sema_init (scheduler st) temporary 0) page PRI_DEFAULT k = Ret sc
    ∧ (page ≠ NULL → threads sc !! page = Some (Tcb 0 THREAD_BLOCKED PRI_DEFAULT []))
    ∧ semas sc !! temporary = Some (Sema 0 []).
Proof using Hcur.
  intros Hne. unfold thread_create. set (sc0 := sema_init _ _ _).
  assert (semas sc0 !! temporary = Some (Sema 0 [])) as Hsem by apply lookup_insert_eq.
  unfold thread_current, get_tcb in Hcur. bind_inv Hcur. bind_inv Hcur. injection Hcur as ->.
  assert (threads sc0 !! running sc0 = Some cur) as Hrun.
  { change (threads sc0 !! running sc0) with (threads (scheduler st) !! running (scheduler st)).
    destruct (threads (scheduler st) !! _); [by injection Hcur0 as ->|done]. }
  destruct (Z.eqb_spec page NULL) as [->|Hn].
  - unfold continue, thread_current, get_tcb. rewrite Hrun, bind_Ret, Hcur1, bind_Ret, bind_Ret.
    eexists. split; [reflexivity|]. split; [done|exact Hsem].
  - unfold init_thread. destruct (Z.eqb_spec page NULL); [done|]. cbn [negb ASSERT]. rewrite !bind_Ret.
    unfold continue, thread_current, get_tcb.
    set (sc1 := set_tcb (set_all sc0 _) _ _).
    change (ASSERT ((PRI_MIN <=? PRI_DEFAULT) && (PRI_DEFAULT <=? PRI_MAX))) with (Ret tt). rewrite !bind_Ret.
    assert (threads sc1 = <[page := Tcb 0 THREAD_BLOCKED PRI_DEFAULT []]> (threads sc0)) as E1 by done.
    assert (running sc1 = running sc0) as E2 by done.
    assert (page ≠ running sc0) as Hne' by exact Hne.
    rewrite E2, E1, lookup_insert_ne, Hrun, bind_Ret, Hcur1, bind_Ret, bind_Ret by done.
    eexists. split; [reflexivity|]. split; [|exact Hsem]. intros _.
    cbn. rewrite lookup_insert_ne by (apply not_eq_sym; exact Hne). apply lookup_insert_eq.
Qed.

(** [process_execute] always returns.  On success, two pages that were free hold the new thread,
    which is blocked until it gets its id, and a copy of the name, cut to what fits a page;
    on failure every page is as free or as used as before.  No byte outside the two pages
    changes, and [temporary] is ready to be waited on. *)
Theorem process_execute_correct :
  ∃ o st', process_execute fuel st file_name k = Ret (o, st') ∧ palloc_wf (pages st')
    ∧ semas (scheduler st') !! temporary = Some (Sema 0 [])
    ∧ match o with
      | TID_ERROR => ∀ q, allocated (pages st') q = allocated (pages st) q
      | Spawned t f =>
        t ≠ f ∧ allocated (pages st) t = false ∧ allocated (pages st) f = false
        ∧ (∀ q, allocated (pages st') q = if decide (q = t ∨ q = f) then true else allocated (pages st) q)
        ∧ cstr (pmem (pages st')) f (take 4095 s)
        ∧ threads (scheduler st') !! t = Some (Tcb 0 THREAD_BLOCKED PRI_DEFAULT [])
        ∧ ∀ x, ¬ (f ≤ x < f + 4096) → ¬ (t ≤ x < t + 4096) →
            load8 (pmem (pages st')) x = load8 (pmem (pages st)) x
      end.
Proof using Hwf Hname Hpos Hfuel Hfree Hcur Hown.
  unfold process_execute, palloc_get_page.
  destruct (palloc_get_multiple_spec (pages st) 0 1 Hwf ltac:(lia)) as [(f & p1 & -> & Hf & Hg1)|[_ ->]].
  2:{ change (flag 0 PAL_ASSERT) with false. cbn iota. rewrite bind_Ret, Z.eqb_refl.
      eexists _, _. split; [reflexivity|]. split; [done|]. split; [apply lookup_insert_eq|done]. }
  rewrite bind_Ret. destruct (Z.eqb_spec f NULL); [done|].
  destruct (got_page_low _ _ _ _ Hwf Hg1) as (Hf0 & Hfa & Hfin & Hff & Hal1).
  destruct Hg1 as [_ _ _ _ _ _ Hwf1 Hmem1 _].
  destruct (strlcpy_spec fuel (pmem p1) f file_name s PGSIZE) as (m & -> & Hcs & Hmem2).
  { eapply cstr_same; [|exact Hname]. intros x Hx. apply Hmem1. destruct (Hfree f Hfin Hff); lia. }
  { done. } { done. } { done. } { done. }
  { destruct (Hfree f Hfin Hff); unfold PGSIZE; [by left|by right]. }
  rewrite bind_Ret. change (Z.to_nat (PGSIZE - 1)) with 4095%nat in Hcs. specialize (Hcs ltac:(done)).
  destruct (palloc_get_multiple_spec (set_pmem p1 m) PAL_ZERO 1 (set_pmem_wf _ _ Hwf1) ltac:(lia))
    as [(t & p2 & -> & Ht & Hg2)|[_ ->]].
  - destruct (got_page_low _ _ _ _ (set_pmem_wf _ m Hwf1) Hg2) as (Ht0 & Hta & _ & Htf & Hal2).
    destruct Hg2 as [_ _ _ _ _ _ Hwf2 Hmem3 _].
    assert (∀ q, allocated (set_pmem p1 m) q = allocated p1 q) as Hsm by done.
    rewrite Hsm, Hal1 in Htf. destruct (decide (t = f)) as [|Hne]; [done|].
    assert (t ≠ running (scheduler st)) as Htr by congruence.
    rewrite bind_Ret. destruct (thread_create_ok t Htr) as (sc & -> & Htcb & Hsem). rewrite !bind_Ret.
    destruct (Z.eqb_spec t NULL); [done|]. eexists _, _. split; [reflexivity|]. cbn [pages scheduler].
    split; [done|]. split; [done|]. split_and!; [done|done|done| | |by apply Htcb|].
    + intros q. rewrite Hal2, Hsm, Hal1. repeat case_decide; tauto.
    + eapply cstr_same; [|exact Hcs]. intros x Hx. apply Hmem3. rewrite length_take in Hx.
      destruct (pages_apart t f Hta Hfa Hne); lia.
    + intros x Hxf Hxt. rewrite Hmem3 by lia. cbn [pmem set_pmem]. rewrite Hmem2 by (change PGSIZE with 4096; lia).
      apply Hmem1. lia.
  - change (flag PAL_ZERO PAL_ASSERT) with false. cbn iota. rewrite bind_Ret.
    assert (NULL ≠ running (scheduler st)) as Hnr.
    { intros E. rewrite <- E in Hown. apply allocated_kpage in Hown as Hk; [|done].
      unfold kpage_ok, NULL, PHYS_BASE in Hk. lia. }
    destruct (thread_create_ok NULL Hnr) as (sc & -> & _ & Hsem). rewrite bind_Ret, Z.eqb_refl.
    destruct (palloc_free_page_spec (set_pmem p1 m) f (set_pmem_wf _ _ Hwf1)) as (p3 & -> & Hwf3 & _ & Hal3 & _).
    { change (allocated (set_pmem p1 m) f) with (allocated p1 f). rewrite Hal1. by case_decide. }
    rewrite bind_Ret. eexists _, _. split; [reflexivity|]. cbn [pages scheduler]. split; [done|]. split; [done|].
    intros q. rewrite Hal3. change (allocated (set_pmem p1 m) q) with (allocated p1 q). rewrite Hal1.
    case_decide; [by subst|done].
Qed.
End Spawn.
