(* ===== verification/SchedInv.v ===== *)
(** * The scheduler's invariant

    Which threads run, are ready or sleep, and where each of them is listed; who owns
    each lock; and that no wake-up of a semaphore is lost.  The invariant holds in every
    state reached by any interleaving of calls and timer interrupts. *)
From S2P Require Import Prelude Threads.

(** ** Steps of the machine *)

(** The operations a thread's own code may call. *)
Definition client_call (i : instr) : Prop :=
  match i with
  | IDown (Sem _) | ITryDown (Sem _) | IUp (Sem _) => True
  | IAcquire _ | ITryAcquire _ | IRelease _ => True
  | ICondWait _ _ | ICondSignal _ _ | ICondBroadcast _ _ => True
  | ICreate _ _ => True
  | IYield | IExit => True
  | _ => False
  end.

(** The page for a new thread is free, as [palloc_get_page] promises, or null. *)
Definition fresh_page (st : sched) (i : instr) : Prop :=
  match i with ICreate page _ => page = NULL ∨ threads st !! page = None | _ => True end.

Inductive sched_step : sched → sched → Prop :=
| step_call st i t st' :
    threads st !! running st = Some t → kont t = [] → client_call i →
    continue st [i] = Ret st' → sched_step st st'
| step_exec st t i k st' :
    threads st !! running st = Some t → kont t = i :: k → fresh_page st i →
    exec st i k = Ret st' → sched_step st st'
| step_tick st st' : thread_tick st = Ret st' → sched_step st st'
| step_sema_init st a v :
    (∀ x, semas st !! Sem a = Some x → waiters x = []) → 0 ≤ v → sched_step st (sema_init st (Sem a) v)
| step_lock_init st l :
    locks st !! l = None → sched_step st (lock_init st l)
| step_cond_init st c : conds st !! c = None → sched_step st (cond_init st c)
| step_set_priority st n st' : thread_set_priority st n = Ret st' → sched_step st st'.

(** ** The thread table *)
Definition is_ready (ts : gmap Z tcb) (idle p : Z) : Prop :=
  ∃ t, ts !! p = Some t ∧ status t = THREAD_READY ∧ p ≠ idle.

Record table_ok (ts : gmap Z tcb) (run : Z) (rdy : list Z) (idle init : Z) : Prop := {
  to_run : ∃ t, ts !! run = Some t ∧ status t = THREAD_RUNNING;
  to_one : ∀ p t, ts !! p = Some t → status t = THREAD_RUNNING → p = run;
  to_nodup : NoDup rdy;
  to_ready : ∀ p, p ∈ rdy ↔ is_ready ts idle p;
  to_null : ts !! NULL = None;
  to_idle : ∃ t, ts !! idle = Some t ∧ status t ≠ THREAD_DYING;
  to_dying : ∀ p t, ts !! p = Some t → status t = THREAD_DYING → p = init;
}.

(** The table just before a switch: the thread that runs has another status already. *)
Record leaving (ts : gmap Z tcb) (run : Z) (rdy : list Z) (idle init : Z) : Prop := {
  lv_run : is_Some (ts !! run);
  lv_none : ∀ p t, ts !! p = Some t → status t ≠ THREAD_RUNNING;
  lv_nodup : NoDup rdy;
  lv_ready : ∀ p, p ∈ rdy ↔ is_ready ts idle p;
  lv_null : ts !! NULL = None;
  lv_idle : ∃ t, ts !! idle = Some t ∧ status t ≠ THREAD_DYING;
  lv_dying : ∀ p t, ts !! p = Some t → status t = THREAD_DYING → p = init ∨ p = run;
}.

(** What a switch leaves as it was. *)
Record same_rest (st st' : sched) : Prop := {
  sr_all : all_list st' = all_list st;
  sr_idle : idle_thread st' = idle_thread st;
  sr_init : initial_thread st' = initial_thread st;
  sr_tidlock : tid_lock st' = tid_lock st;
  sr_tid : next_tid st' = next_tid st;
  sr_semas : semas st' = semas st;
  sr_locks : locks st' = locks st;
  sr_conds : conds st' = conds st;
}.

(** The table after a switch to [next]. *)
Definition switched (ts : gmap Z tcb) (cur next : Z) (tn : tcb) (gone : bool) : gmap Z tcb :=
  let ts' := <[next := with_status tn THREAD_RUNNING]> ts in
  if gone then delete cur ts' else ts'.

Lemma leaving_switched ts cur rdy rdy' idle init next tn tc gone :
  leaving ts cur rdy idle init → ts !! next = Some tn → ts !! cur = Some tc →
  (next = idle ∧ rdy = [] ∧ rdy' = [] ∨ rdy = next :: rdy') →
  gone = bool_decide (status tc = THREAD_DYING ∧ cur ≠ init) →
  (gone = true → cur ≠ next)
  ∧ table_ok (switched ts cur next tn gone) next rdy' idle init.
Proof.
  intros [H1 H2 H3 H4 H5 [ti [Hi Hid]] H7] Hn Hc Hnext ->.
  assert (Hdn : status tn ≠ THREAD_DYING).
  { destruct Hnext as [(-> & _)| ->].
    - rewrite Hi in Hn. by injection Hn as <-.
    - destruct (proj1 (H4 next)) as (t & Ht & Es & _); [left|]. rewrite Hn in Ht. injection Ht as <-.
      by rewrite Es. }
  assert (Hci : status tc = THREAD_DYING → cur ≠ idle) by (intros E ->; congruence).
  assert (Hcn : status tc = THREAD_DYING → cur ≠ next) by (intros E ->; congruence).
  split; [by intros [? _]%bool_decide_eq_true; apply Hcn|].
  set (ts1 := <[next := with_status tn THREAD_RUNNING]> ts).
  assert (Hback : ∀ p t, switched ts cur next tn (bool_decide (status tc = THREAD_DYING ∧ cur ≠ init)) !! p
                  = Some t → ts1 !! p = Some t).
  { unfold switched. intros p t. case_bool_decide; [|done]. by intros [_ ?]%lookup_delete_Some. }
  assert (Hfwd : ∀ p t, ts1 !! p = Some t → status t ≠ THREAD_DYING →
                 switched ts cur next tn (bool_decide (status tc = THREAD_DYING ∧ cur ≠ init)) !! p
                 = Some t).
  { unfold switched. intros p t Hp Hd. case_bool_decide as Eg; [|done].
    rewrite lookup_delete_ne; [done|]. intros <-. unfold ts1 in Hp.
    rewrite lookup_insert_ne in Hp by (symmetry; apply Hcn, Eg).
    rewrite Hc in Hp. injection Hp as <-. by apply Hd, Eg. }
  assert (Hrun : ts1 !! next = Some (with_status tn THREAD_RUNNING)) by apply lookup_insert_eq.
  split.
  - eexists. split; [apply Hfwd; [exact Hrun|done]|done].
  - intros p t Hp%Hback Es. unfold ts1 in Hp.
    apply lookup_insert_Some in Hp as [[<- _]|[_ Hp]]; [done|]. by destruct (H2 _ _ Hp).
  - destruct Hnext as [(_ & _ & ->)| ->]; [by apply NoDup_nil|by apply NoDup_cons in H3 as [_ ?]].
  - intros p. split.
    + intros Hp. assert (p ∈ rdy) as Hp'.
      { destruct Hnext as [(_ & _ & ->)| ->]; [by apply elem_of_nil in Hp|by right]. }
      apply H4 in Hp' as (t & Ht & Es & Hpi). exists t. split_and!; [|done|done].
      apply Hfwd; [|by rewrite Es]. unfold ts1. rewrite lookup_insert_ne; [done|]. intros ->.
      destruct Hnext as [(-> & _)| ->]; [done|]. by apply NoDup_cons in H3 as [? _].
    + intros (t & Ht%Hback & Es & Hpi). unfold ts1 in Ht.
      apply lookup_insert_Some in Ht as [[<- <-]|[Hne Ht]]; [done|].
      assert (p ∈ rdy) as Hp by (apply H4; by exists t).
      destruct Hnext as [(_ & -> & ->)| ->]; [done|]. by apply elem_of_cons in Hp as [->|].
  - destruct (switched _ _ _ _ _ !! NULL) eqn:E; [|done]. apply Hback in E. unfold ts1 in E.
    apply lookup_insert_Some in E as [[E _]|[_ E]]; [|congruence]. subst next. congruence.
  - destruct (decide (idle = next)) as [->|Hne].
    + eexists. split; [apply Hfwd; [exact Hrun|done]|done].
    + exists ti. split; [|done]. apply Hfwd; [|done]. unfold ts1. by rewrite lookup_insert_ne.
  - intros p t Hp Es. pose proof (Hback _ _ Hp) as Hp'. unfold ts1 in Hp'.
    apply lookup_insert_Some in Hp' as [[_ <-]|[Hne Hp']]; [done|].
    destruct (H7 _ _ Hp' Es) as [| ->]; [done|]. rewrite Hc in Hp'. injection Hp' as <-.
    destruct (decide (cur = init)) as [|Hni]; [done|]. exfalso. unfold switched in Hp.
    rewrite bool_decide_true in Hp by done. by rewrite lookup_delete_eq in Hp.
Qed.

(** The part of [schedule] after the next thread is chosen. *)
Definition switch (st : sched) (cur next : Z) : res sched :=
  t ← get_tcb st cur;
  ASSERT (negb (bool_decide (status t = THREAD_RUNNING)));;
  n ← get_tcb st next;
  if cur =? next then thread_schedule_tail st NULL
  else thread_schedule_tail (set_running st next) cur.

Definition gone (st : sched) (tc : tcb) : bool :=
  bool_decide (status tc = THREAD_DYING ∧ running st ≠ initial_thread st).

Lemma switch_spec st next tn tc :
  threads st !! running st = Some tc → status tc ≠ THREAD_RUNNING → threads st !! NULL = None →
  threads st !! next = Some tn → (gone st tc = true → running st ≠ next) →
  ∃ st', switch st (running st) next = Ret st' ∧ same_rest st st' ∧ running st' = next
    ∧ ready_list st' = ready_list st ∧ thread_ticks st' = 0
    ∧ threads st' = switched (threads st) (running st) next tn (gone st tc).
Proof.
  intros Hc Hnr Hnull Hn Hg. unfold switch, get_tcb. rewrite Hc, bind_Ret.
  rewrite ASSERT_true by (by rewrite bool_decide_false). rewrite Hn, bind_Ret.
  unfold thread_schedule_tail, get_tcb.
  destruct (Z.eqb_spec (running st) next) as [<-|Hne].
  - rewrite Hc, bind_Ret. rewrite Hc in Hn. injection Hn as <-. cbn [NULL Z.eqb].
    destruct (gone st tc) eqn:Eg; [by destruct (Hg eq_refl)|]. eexists. by split_and!.
  - cbn [running set_running threads]. rewrite Hn, bind_Ret.
    destruct (Z.eqb_spec (running st) NULL) as [E0|_]; [congruence|].
    cbn [threads set_ticks set_tcb set_threads running set_running initial_thread].
    rewrite lookup_insert_ne, Hc, bind_Ret by done.
    assert (bool_decide (status tc = THREAD_DYING) && negb (running st =? initial_thread st) = gone st tc)
      as ->.
    { unfold gone. destruct (Z.eqb_spec (running st) (initial_thread st)); do 2 case_bool_decide; tauto. }
    destruct (gone st tc) eqn:Eg.
    + rewrite ASSERT_true by (by destruct (Z.eqb_spec (running st) next)). eexists. by split_and!.
    + eexists. by split_and!.
Qed.

(** [schedule] always finds a thread to run and keeps the table well formed. *)
Lemma schedule_spec st tc :
  leaving (threads st) (running st) (ready_list st) (idle_thread st) (initial_thread st) →
  threads st !! running st = Some tc →
  ∃ st' tn, schedule st = Ret st' ∧ same_rest st st'
    ∧ threads st !! running st' = Some tn
    ∧ (running st' = idle_thread st ∧ ready_list st = [] ∧ ready_list st' = []
       ∨ ready_list st = running st' :: ready_list st')
    ∧ threads st' = switched (threads st) (running st) (running st') tn (gone st tc)
    ∧ thread_ticks st' = 0
    ∧ table_ok (threads st') (running st') (ready_list st') (idle_thread st') (initial_thread st').
Proof.
  intros Hlv Hc. pose proof (lv_none _ _ _ _ _ Hlv _ _ Hc) as Hnr.
  pose proof (lv_null _ _ _ _ _ Hlv) as Hnull.
  destruct (next_thread_to_run st) as [next st1] eqn:En.
  assert (is_Some (threads st !! next) ∧ running st1 = running st ∧ threads st1 = threads st
    ∧ same_rest st st1 ∧ (next = idle_thread st ∧ ready_list st = [] ∧ ready_list st1 = []
       ∨ ready_list st = next :: ready_list st1)) as ([tn Hn] & Er & Et & Hsr & Hnext).
  { unfold next_thread_to_run in En. destruct (ready_list st) as [|p rdy] eqn:Erd.
    - injection En as <- <-. split_and!; try done; [|by left].
      destruct (lv_idle _ _ _ _ _ Hlv) as (t & Ht & _). by eauto.
    - injection En as <- <-. split_and!; try done; [|by right].
      destruct (proj1 (lv_ready _ _ _ _ _ Hlv p)) as (t & Ht & _); [rewrite ?Erd; left|by eauto]. }
  destruct (leaving_switched _ _ _ (ready_list st1) _ _ next tn tc (gone st tc) Hlv Hn Hc Hnext eq_refl)
    as [Hg Hok].
  assert (Eg : gone st1 tc = gone st tc) by (unfold gone; by rewrite Er, (sr_init _ _ Hsr)).
  destruct (switch_spec st1 next tn tc) as (st' & Es & Hsr' & Er' & Erd' & Etk & Ets);
    rewrite ?Er, ?Et, ?Eg; try done.
  exists st', tn. unfold schedule. rewrite En. fold (switch st1 (running st) next).
  rewrite Er in Es. rewrite Es, Er', Erd', Ets, Er, Et, Eg.
  assert (same_rest st st') by (destruct Hsr, Hsr'; split; congruence).
  split_and!; try done. by rewrite (sr_idle _ _ H), (sr_init _ _ H).
Qed.

(** The ways the running thread leaves the processor. *)
Lemma table_leave ts run rdy idle init t t' rdy' :
  table_ok ts run rdy idle init → ts !! run = Some t →
  (status t' = THREAD_BLOCKED ∧ rdy' = rdy
   ∨ status t' = THREAD_READY ∧ rdy' = (if decide (run = idle) then rdy else rdy ++ [run])
   ∨ status t' = THREAD_DYING ∧ rdy' = rdy ∧ run ≠ idle) →
  leaving (<[run := t']> ts) run rdy' idle init.
Proof.
  intros [[tr [Hr Er]] H2 H3 H4 H5 [ti [Hi Hid]] H7] Ht Hst.
  rewrite Ht in Hr. injection Hr as <-.
  assert (Hrr : run ∉ rdy).
  { intros (t0 & Ht0 & Es & _)%H4. rewrite Ht in Ht0. injection Ht0 as <-. congruence. }
  assert (Hnr : status t' ≠ THREAD_RUNNING) by (destruct Hst as [[-> _]|[[-> _]|[-> _]]]; done).
  assert (Hready : ∀ p, is_ready (<[run := t']> ts) idle p ↔
            if decide (p = run) then status t' = THREAD_READY ∧ run ≠ idle else is_ready ts idle p).
  { intros p. unfold is_ready. destruct (decide (p = run)) as [->|].
    - rewrite lookup_insert_eq. naive_solver.
    - by rewrite lookup_insert_ne. }
  split.
  - by rewrite lookup_insert_eq.
  - intros p tp [[_ <-]|[Hne Hp]]%lookup_insert_Some; [done|]. intros E. by apply Hne, symmetry, (H2 p tp).
  - destruct Hst as [[_ ->]|[[_ ->]|(_ & -> & _)]]; [done| |done]. destruct (decide (run = idle)); [done|].
    apply NoDup_app. split_and!; [done| |by apply NoDup_singleton].
    intros p Hp ->%list_elem_of_singleton. done.
  - intros p. rewrite Hready. destruct Hst as [[Es ->]|[[Es ->]|(Es & -> & Hri)]]; rewrite Es.
    + rewrite H4. destruct (decide (p = run)) as [->|]; [|done]. rewrite <- H4. naive_solver.
    + destruct (decide (run = idle)) as [Ei|Ei].
      * rewrite H4. destruct (decide (p = run)) as [->|]; [|done]. rewrite <- H4. naive_solver.
      * rewrite elem_of_app, list_elem_of_singleton, H4. destruct (decide (p = run)) as [->|]; naive_solver.
    + rewrite H4. destruct (decide (p = run)) as [->|]; [|done]. rewrite <- H4. naive_solver.
  - rewrite lookup_insert_ne; [done|]. intros ->. congruence.
  - destruct (decide (run = idle)) as [->|Hne].
    + exists t'. rewrite lookup_insert_eq. split; [done|].
      destruct Hst as [[-> _]|[[-> _]|(_ & _ & ?)]]; done.
    + exists ti. by rewrite lookup_insert_ne.
  - intros p tp [[<- <-]|[Hne Hp]]%lookup_insert_Some E; [by right|left; by eapply H7].
Qed.

(** ** Saved executions *)
Definition quiet_head (k : list instr) : bool :=
  match k with ISetHolder _ :: _ | IUp (LockSem _) :: _ => false | _ => true end.

(** [i] may be followed by [k] in the saved execution of thread [p]. *)
Definition next_ok (p : Z) (i : instr) (k : list instr) : bool :=
  match i with
  | IDown (LockSem l) => bool_decide (head k = Some (ISetHolder l))
  | IDown (WaitSem t) => (t =? p) && quiet_head k
  | ITryDown (Sem _) => quiet_head k
  | ITryDown _ | IIdle => false
  | ICreate _ _ | IUnblock _ | IExit | IDie => bool_decide (k = [])
  | INextTid q => bool_decide (last k = Some (IUnblock q)) && quiet_head k
  | _ => quiet_head k
  end.
Fixpoint kont_ok (p : Z) (k : list instr) : bool :=
  match k with [] => true | i :: k => next_ok p i k && kont_ok p k end.

(** Thread [t] is about to become the holder of [l], or about to give its semaphore back. *)
Definition pendb (l : Z) (t : tcb) : bool :=
  match kont t with
  | ISetHolder l' :: _ | IUp (LockSem l') :: _ => l' =? l
  | _ => false
  end.
(** Thread [t] can run and will try to take [s] next. *)
Definition wokenb (s : sema_name) (t : tcb) : bool :=
  match status t, kont t with
  | (THREAD_RUNNING | THREAD_READY), IDown s' :: _ => bool_decide (s' = s)
  | _, _ => false
  end.
Definition b2z (b : bool) : Z := if b then 1 else 0.

(** Thread [q] is creating [p] and will unblock it. *)
Definition creates (ts : gmap Z tcb) (q p : Z) : Prop :=
  ∃ t, ts !! q = Some t ∧ last (kont t) = Some (IUnblock p).

Definition held (st : sched) (l : Z) : Z :=
  match locks st !! l with Some x => if holder x =? NULL then 0 else 1 | None => 0 end.
Definition lock_value (st : sched) (l : Z) : Z :=
  match semas st !! LockSem l with Some x => s_value x | None => 0 end.
Definition lock_known (st : sched) (l : Z) : Z :=
  match locks st !! l with Some _ => 1 | None => 0 end.

(** The invariant of sleeping threads, locks and wake-ups.  [dl] and [dw] are what is
    missing in the two balances while an instruction is half done; both are zero between
    instructions. *)
Record rest_ok (dl : Z → Z) (dw : sema_name → Z) (st : sched) : Prop := {
  ro_sema : ∀ s x, semas st !! s = Some x → NoDup (waiters x) ∧ 0 ≤ s_value x;
  ro_wait : ∀ s x p, semas st !! s = Some x → p ∈ waiters x →
    ∃ t k, threads st !! p = Some t ∧ status t = THREAD_BLOCKED ∧ kont t = IDown s :: k;
  ro_blocked : ∀ p t, threads st !! p = Some t → status t = THREAD_BLOCKED →
    p = idle_thread st
    ∨ (∃ s k x, kont t = IDown s :: k ∧ semas st !! s = Some x ∧ p ∈ waiters x)
    ∨ (∃ q, creates (threads st) q p);
  ro_create : ∀ q p, creates (threads st) q p → p ≠ idle_thread st
    ∧ ∃ t, threads st !! p = Some t ∧ status t = THREAD_BLOCKED ∧ kont t = [];
  ro_create_inj : ∀ q q' p, creates (threads st) q p → creates (threads st) q' p → q = q';
  ro_kont : ∀ p t, threads st !! p = Some t →
    if decide (p = idle_thread st) then kont t = [IIdle] else kont_ok p (kont t) = true;
  ro_cond : ∀ c x w, conds st !! c = Some x → w ∈ c_waiters x → ∃ t, w = WaitSem t;
  ro_locksem : ∀ l, is_Some (semas st !! LockSem l) ↔ is_Some (locks st !! l);
  ro_lock : ∀ l, count (pendb l) (threads st) + held st l + lock_value st l + dl l = lock_known st l;
  ro_wake : ∀ s x, semas st !! s = Some x → waiters x ≠ [] →
    s_value x ≤ count (wokenb s) (threads st) + dw s;
}.

Definition sched_ok (st : sched) : Prop :=
  table_ok (threads st) (running st) (ready_list st) (idle_thread st) (initial_thread st)
  ∧ rest_ok (λ _, 0) (λ _, 0) st.

(** ** Changes of the running thread's saved execution *)
Lemma rest_kont dl dw st t k :
  rest_ok dl dw st → threads st !! running st = Some t → status t ≠ THREAD_BLOCKED →
  running st ≠ idle_thread st → kont_ok (running st) k = true →
  (∀ p, last k = Some (IUnblock p) ↔ last (kont t) = Some (IUnblock p)) →
  rest_ok (λ l, dl l + b2z (pendb l t) - b2z (pendb l (with_kont t k)))
          (λ s, dw s + b2z (wokenb s t) - b2z (wokenb s (with_kont t k)))
          (set_tcb st (running st) (with_kont t k)).
Proof.
  intros [H1 H2 H3 H4 H5 H6 H7 H8 H9 H10] Ht Hb Hni Hk Hlast.
  assert (Hcr : ∀ q p, creates (<[running st := with_kont t k]> (threads st)) q p
                       ↔ creates (threads st) q p).
  { intros q p. unfold creates. destruct (decide (q = running st)) as [->|Hne].
    - rewrite lookup_insert_eq, Ht. split; intros (t0 & [= <-] & Hl); eexists; (split; [done|]); by apply Hlast.
    - by rewrite lookup_insert_ne. }
  assert (Hother : ∀ p t0, threads st !! p = Some t0 → status t0 = THREAD_BLOCKED →
            <[running st := with_kont t k]> (threads st) !! p = Some t0).
  { intros p t0 Hp Hs. rewrite lookup_insert_ne; [done|]. intros <-. congruence. }
  split; cbn [threads set_tcb set_threads semas idle_thread conds locks]; try done.
  - intros s x p Hs Hp. destruct (H2 s x p Hs Hp) as (t0 & k0 & ? & ? & ?). exists t0, k0. auto.
  - intros p t0 [[<- <-]|[Hne Hp]]%lookup_insert_Some Hs; [done|].
    destruct (H3 p t0 Hp Hs) as [|[|[q Hq]]]; [by left|by right; left|].
    right; right. exists q. by apply Hcr.
  - intros q p [? (t0 & ? & ? & ?)]%Hcr%H4. split; [done|]. exists t0. auto.
  - intros q q' p Hq%Hcr Hq'%Hcr. by eapply H5.
  - intros p t0 [[<- <-]|[Hne Hp]]%lookup_insert_Some; [by rewrite decide_False|by apply H6].
  - intros l. rewrite (count_update _ _ _ t) by done. specialize (H9 l).
    unfold held, lock_value, lock_known in *. cbn. unfold b2z. lia.
  - intros s x Hs Hw. rewrite (count_update _ _ _ t) by done. specialize (H10 s x Hs Hw).
    unfold b2z. lia.
Qed.

Lemma rest_weaken dl dw dl' dw' st :
  rest_ok dl dw st → (∀ l, dl l = dl' l) → (∀ s, dw s ≤ dw' s) → rest_ok dl' dw' st.
Proof.
  intros [H1 H2 H3 H4 H5 H6 H7 H8 H9 H10] El Ew. split; try done.
  - intros l. by rewrite <- El.
  - intros s x Hs Hw. specialize (H10 s x Hs Hw). specialize (Ew s). lia.
Qed.

(** ** Changes of semaphores, locks and conditions *)
Definition at_lock (s : sema_name) (l z : Z) : Z := if decide (s = LockSem l) then z else 0.
Definition at_sema (s s' : sema_name) (z : Z) : Z := if decide (s = s') then z else 0.

Lemma rest_value dl dw st s x v :
  rest_ok dl dw st → semas st !! s = Some x → 0 ≤ v →
  rest_ok (λ l, dl l - at_lock s l (v - s_value x)) (λ s', dw s' + at_sema s s' (v - s_value x))
    (set_sema st s (Sema v (waiters x))).
Proof.
  intros [H1 H2 H3 H4 H5 H6 H7 H8 H9 H10] Hs Hv.
  split; cbn [threads set_sema set_semas semas idle_thread conds locks]; try done.
  - intros s' x' [[<- <-]|[Hne Hs']]%lookup_insert_Some; [|by eapply H1].
    split; [apply (H1 s x Hs)|done].
  - intros s' x' p [[<- <-]|[Hne Hs']]%lookup_insert_Some Hp; [by apply (H2 s x)|by eapply H2].
  - intros p t Hp Hb. destruct (H3 p t Hp Hb) as [|[(s' & k & x' & Ek & Hs' & Hw)|]];
      [by left| |by right; right]. right; left. exists s', k.
    destruct (decide (s' = s)) as [->|Hne].
    + rewrite lookup_insert_eq. eexists. split_and!; [done..|]. simplify_eq. done.
    + rewrite lookup_insert_ne by done. eauto.
  - intros l. rewrite <- H8. destruct (decide (s = LockSem l)) as [->|Hne].
    + rewrite lookup_insert_eq, Hs. split; by eauto.
    + by rewrite lookup_insert_ne.
  - intros l. specialize (H9 l). unfold held, lock_value, lock_known, at_lock in *. cbn.
    destruct (decide (s = LockSem l)) as [->|Hne].
    + rewrite lookup_insert_eq. cbn. rewrite Hs in H9. lia.
    + rewrite lookup_insert_ne by done. lia.
  - intros s' x' [[<- <-]|[Hne Hs']]%lookup_insert_Some Hw; unfold at_sema.
    + rewrite decide_True by done. cbn in *. specialize (H10 s x Hs Hw). lia.
    + rewrite decide_False by done. specialize (H10 s' x' Hs' Hw). lia.
Qed.

Lemma rest_holder dl dw st l h x :
  rest_ok dl dw st → locks st !! l = Some x →
  rest_ok (λ l', dl l' - at_lock (LockSem l) l' (b2z (negb (h =? NULL)) - b2z (negb (holder x =? NULL))))
    dw (set_holder st l h).
Proof.
  intros [H1 H2 H3 H4 H5 H6 H7 H8 H9 H10] Hl.
  split; cbn [threads set_holder set_locks semas idle_thread conds locks]; try done.
  - intros l'. rewrite H8. destruct (decide (l = l')) as [->|].
    + rewrite lookup_insert_eq, Hl. split; by eauto.
    + by rewrite lookup_insert_ne.
  - intros l'. specialize (H9 l'). unfold held, lock_value, lock_known, at_lock, b2z in *. cbn.
    destruct (decide (l = l')) as [->|Hne].
    + rewrite lookup_insert_eq, decide_True by done. rewrite Hl in H9. cbn.
      destruct (h =? NULL), (holder x =? NULL); cbn; lia.
    + rewrite lookup_insert_ne by done. rewrite decide_False by congruence. lia.
Qed.

Lemma rest_cond dl dw st c ws :
  rest_ok dl dw st → (∀ w, w ∈ ws → ∃ t, w = WaitSem t) →
  rest_ok dl dw (set_conds st (<[c := Cond ws]> (conds st))).
Proof.
  intros [H1 H2 H3 H4 H5 H6 H7 H8 H9 H10] Hw. split; try done.
  intros c' x w. cbn. intros [[_ <-]|[_ Hc]]%lookup_insert_Some; [apply Hw|by eapply H7].
Qed.

(** A semaphore of the running thread's own, or a new one, is (re)initialised. *)
Lemma rest_sema_init dl dw st s v :
  rest_ok dl dw st → 0 ≤ v → (∀ l, s ≠ LockSem l) →
  (∀ p t k, threads st !! p = Some t → status t = THREAD_BLOCKED → kont t = IDown s :: k → False) →
  rest_ok dl dw (sema_init st s v).
Proof.
  intros [H1 H2 H3 H4 H5 H6 H7 H8 H9 H10] Hv Hnl Hnw.
  split; cbn [threads sema_init set_sema set_semas semas idle_thread conds locks]; try done.
  - intros s' x' [[<- <-]|[Hne Hs']]%lookup_insert_Some; [|by eapply H1].
    split; [by apply NoDup_nil|done].
  - intros s' x' p [[<- <-]|[Hne Hs']]%lookup_insert_Some Hp; [by apply elem_of_nil in Hp|by eapply H2].
  - intros p t Hp Hb. destruct (H3 p t Hp Hb) as [|[(s' & k & x' & Ek & Hs' & Hw)|]];
      [by left| |by right; right]. right; left. exists s', k, x'.
    rewrite lookup_insert_ne; [done|]. intros ->. by eapply Hnw.
  - intros l. by rewrite lookup_insert_ne.
  - intros l. specialize (H9 l). unfold held, lock_value, lock_known in *. cbn.
    by rewrite lookup_insert_ne.
  - intros s' x' [[<- <-]|[Hne Hs']]%lookup_insert_Some Hw; [done|by apply H10].
Qed.

(** ** Waking and sleeping *)
Lemma table_unblock ts run rdy idle init p t t' :
  table_ok ts run rdy idle init → ts !! p = Some t → status t = THREAD_BLOCKED →
  status t' = THREAD_READY → p ≠ idle →
  table_ok (<[p := t']> ts) run (rdy ++ [p]) idle init.
Proof.
  intros [[tr [Hr Er]] H2 H3 H4 H5 [ti [Hi Hid]] H7] Hp Hb Hs Hpi.
  assert (Hpr : p ∉ rdy).
  { intros (t0 & Ht0 & Es & _)%H4. rewrite Hp in Ht0. injection Ht0 as <-. congruence. }
  split.
  - exists tr. rewrite lookup_insert_ne; [done|]. intros ->. congruence.
  - intros q tq [[_ <-]|[_ Hq]]%lookup_insert_Some E; [congruence|by eapply H2].
  - apply NoDup_app. split_and!; [done| |by apply NoDup_singleton].
    intros q Hq ->%list_elem_of_singleton. done.
  - intros q. rewrite elem_of_app, list_elem_of_singleton, H4. unfold is_ready.
    destruct (decide (q = p)) as [->|].
    + rewrite lookup_insert_eq. naive_solver.
    + rewrite lookup_insert_ne by done. naive_solver.
  - rewrite lookup_insert_ne; [done|]. intros ->. congruence.
  - exists ti. by rewrite lookup_insert_ne.
  - intros q tq [[_ <-]|[_ Hq]]%lookup_insert_Some E; [congruence|by eapply H7].
Qed.

(** Popping the first waiter of [s] and making it ready. *)
Lemma rest_wake dl dw st s x p ws t :
  rest_ok dl dw st → semas st !! s = Some x → waiters x = p :: ws → threads st !! p = Some t →
  rest_ok dl (λ s', dw s' - at_sema s s' 1)
    (set_tcb (set_ready (set_sema st s (Sema (s_value x) ws)) (ready_list st ++ [p])) p
       (with_status t THREAD_READY)).
Proof.
  intros [H1 H2 H3 H4 H5 H6 H7 H8 H9 H10] Hs Ew Hp.
  destruct (H2 s x p Hs) as (t0 & k & Ht0 & Hb & Ek); [rewrite Ew; left|].
  rewrite Hp in Ht0. injection Ht0 as <-. destruct (H1 s x Hs) as [Hnd Hv]. rewrite Ew in Hnd.
  apply NoDup_cons in Hnd as [Hpw Hnd].
  assert (Hcr : ∀ q q', creates (<[p := with_status t THREAD_READY]> (threads st)) q q'
                        ↔ creates (threads st) q q').
  { intros q q'. unfold creates. destruct (decide (q = p)) as [->|].
    - rewrite lookup_insert_eq, Hp. naive_solver.
    - by rewrite lookup_insert_ne. }
  assert (Hne : ∀ s' x' q, <[s := Sema (s_value x) ws]> (semas st) !! s' = Some x' → q ∈ waiters x' →
            q ≠ p ∧ ∃ x0, semas st !! s' = Some x0 ∧ q ∈ waiters x0).
  { intros s' x' q [[<- <-]|[Hne Hs']]%lookup_insert_Some Hq.
    - split; [intros ->; done|]. exists x. split; [done|]. rewrite Ew. by right.
    - split; [|eauto]. intros ->. destruct (H2 s' x' p Hs' Hq) as (t1 & k1 & Ht1 & _ & Ek1).
      simplify_eq. congruence. }
  split; cbn [threads set_tcb set_threads set_ready set_sema set_semas semas idle_thread conds locks].
  - intros s' x' [[<- <-]|[_ Hs']]%lookup_insert_Some; [done|by eapply H1].
  - intros s' x' q Hs' Hq. destruct (Hne s' x' q Hs' Hq) as (Hqp & x0 & Hx0 & Hq0).
    rewrite lookup_insert_ne by done. by eapply H2.
  - intros q tq [[<- <-]|[Hqp Hq]]%lookup_insert_Some Hbq; [done|].
    destruct (H3 q tq Hq Hbq) as [|[(s' & k' & x' & Ek' & Hs' & Hw)|[r Hr]]]; [by left| |].
    + right; left. exists s', k'. destruct (decide (s' = s)) as [->|Hss].
      * rewrite lookup_insert_eq. eexists. split_and!; [done..|]. cbn. simplify_eq.
        rewrite Ew in Hw. by apply elem_of_cons in Hw as [->|].
      * rewrite lookup_insert_ne by done. eauto.
    + right; right. exists r. by apply Hcr.
  - intros q q' [Hi (t1 & Ht1 & Hb1 & Ek1)]%Hcr%H4. split; [done|]. exists t1.
    rewrite lookup_insert_ne; [done|]. intros <-. congruence.
  - intros q q' r Hq%Hcr Hq'%Hcr. by eapply H5.
  - intros q tq [[<- <-]|[_ Hq]]%lookup_insert_Some; [by apply (H6 p t)|by apply H6].
  - done.
  - intros l. rewrite <- H8. destruct (decide (s = LockSem l)) as [->|].
    + rewrite lookup_insert_eq, Hs. split; by eauto.
    + by rewrite lookup_insert_ne.
  - intros l. specialize (H9 l). rewrite (count_update _ _ _ t) by done.
    change (pendb l (with_status t THREAD_READY)) with (pendb l t).
    unfold held, lock_value, lock_known in *. cbn.
    destruct (decide (s = LockSem l)) as [->|].
    + rewrite lookup_insert_eq. cbn. rewrite Hs in H9. lia.
    + rewrite lookup_insert_ne by done. lia.
  - intros s' x' Hs' Hw. rewrite (count_update _ _ _ t) by done.
    assert (Hwt : wokenb s' t = false) by (unfold wokenb; by rewrite Hb).
    assert (Hwr : wokenb s' (with_status t THREAD_READY) = bool_decide (s = s'))
      by (unfold wokenb; cbn; by rewrite Ek).
    rewrite Hwt, Hwr. unfold at_sema.
    apply lookup_insert_Some in Hs' as [[<- <-]|[Hss Hs']].
    + rewrite bool_decide_true, decide_True by done. cbn.
      specialize (H10 s x Hs). rewrite Ew in H10. specialize (H10 ltac:(done)). lia.
    + rewrite bool_decide_false, decide_False by done. specialize (H10 s' x' Hs' Hw). lia.
Qed.

Lemma rest_ext dl dw st st' :
  rest_ok dl dw st → threads st' = threads st → semas st' = semas st →
  idle_thread st' = idle_thread st → conds st' = conds st → locks st' = locks st →
  rest_ok dl dw st'.
Proof.
  intros [H1 H2 H3 H4 H5 H6 H7 H8 H9 H10] Et Es Ei Ec El.
  split; rewrite ?Et, ?Es, ?Ei, ?Ec, ?El; try done.
  intros l. unfold held, lock_value, lock_known. rewrite Es, El. apply H9.
Qed.

(** A change of status that neither blocks nor unblocks, or that of the idle thread. *)
Lemma rest_status dl dw st p t s2 :
  rest_ok dl dw st → threads st !! p = Some t →
  (p = idle_thread st ∨ status t ≠ THREAD_BLOCKED ∧ s2 ≠ THREAD_BLOCKED) →
  (∀ s, wokenb s (with_status t s2) = wokenb s t) →
  rest_ok dl dw (set_tcb st p (with_status t s2)).
Proof.
  intros [H1 H2 H3 H4 H5 H6 H7 H8 H9 H10] Hp Hst Hwk.
  assert (Hcr : ∀ q q', creates (<[p := with_status t s2]> (threads st)) q q'
                        ↔ creates (threads st) q q').
  { intros q q'. unfold creates. destruct (decide (q = p)) as [->|].
    - rewrite lookup_insert_eq, Hp. naive_solver.
    - by rewrite lookup_insert_ne. }
  assert (Hblk : ∀ q tq, threads st !! q = Some tq → status tq = THREAD_BLOCKED →
            q ≠ idle_thread st → <[p := with_status t s2]> (threads st) !! q = Some tq).
  { intros q tq Hq Hb Hqi. rewrite lookup_insert_ne; [done|]. intros <-.
    destruct Hst as [|[? _]]; [done|]. congruence. }
  split; cbn [threads set_tcb set_threads semas idle_thread conds locks]; try done.
  - intros s x q Hs Hq. destruct (H2 s x q Hs Hq) as (tq & k & Htq & Hb & Ek).
    exists tq, k. split; [|done]. apply Hblk; [done..|]. intros ->. specialize (H6 _ _ Htq).
    rewrite decide_True in H6 by done. congruence.
  - intros q tq [[<- <-]|[Hne Hq]]%lookup_insert_Some Hb.
    + left. destruct Hst as [|[_ ?]]; done.
    + destruct (H3 q tq Hq Hb) as [|[|[r Hr]]]; [by left|by right; left|].
      right; right. exists r. by apply Hcr.
  - intros q q' [Hi (tq & Htq & Hb & Ek)]%Hcr%H4. split; [done|]. exists tq.
    split; [by apply Hblk|done].
  - intros q q' r Hq%Hcr Hq'%Hcr. by eapply H5.
  - intros q tq [[<- <-]|[_ Hq]]%lookup_insert_Some; [by apply (H6 p t)|by apply H6].
  - intros l. rewrite (count_update _ _ _ t) by done. specialize (H9 l).
    change (pendb l (with_status t s2)) with (pendb l t).
    unfold held, lock_value, lock_known in *. cbn. lia.
  - intros s x Hs Hw. rewrite (count_update _ _ _ t), Hwk by done. specialize (H10 s x Hs Hw). lia.
Qed.

(** A thread that has died goes away. *)
Lemma rest_delete dl dw st p t :
  rest_ok dl dw st → threads st !! p = Some t → status t = THREAD_DYING → kont t = [IDie] →
  rest_ok dl dw (set_threads st (delete p (threads st))).
Proof.
  intros [H1 H2 H3 H4 H5 H6 H7 H8 H9 H10] Hp Hd Ek.
  assert (Hcr : ∀ q q', creates (delete p (threads st)) q q' ↔ creates (threads st) q q').
  { intros q q'. unfold creates. split.
    - intros (tq & [_ Htq]%lookup_delete_Some & Hl). eauto.
    - intros (tq & Htq & Hl). exists tq. split; [|done]. rewrite lookup_delete_ne; [done|].
      intros <-. rewrite Hp in Htq. injection Htq as <-. by rewrite Ek in Hl. }
  assert (Hblk : ∀ q tq, threads st !! q = Some tq → status tq = THREAD_BLOCKED →
            delete p (threads st) !! q = Some tq).
  { intros q tq Hq Hb. rewrite lookup_delete_ne; [done|]. intros <-. congruence. }
  split; cbn [threads set_threads semas idle_thread conds locks]; try done.
  - intros s x q Hs Hq. destruct (H2 s x q Hs Hq) as (tq & k & Htq & Hb & Eq). eauto 6.
  - intros q tq [_ Hq]%lookup_delete_Some Hb.
    destruct (H3 q tq Hq Hb) as [|[|[r Hr]]]; [by left|by right; left|].
    right; right. exists r. by apply Hcr.
  - intros q q' [Hi (tq & Htq & Hb & Eq)]%Hcr%H4. split; [done|]. exists tq. auto.
  - intros q q' r Hq%Hcr Hq'%Hcr. by eapply H5.
  - intros q tq [_ Hq]%lookup_delete_Some. by apply H6.
  - intros l. rewrite (count_delete _ _ _ t) by done. specialize (H9 l).
    assert (pendb l t = false) as -> by (unfold pendb; by rewrite Ek).
    unfold held, lock_value, lock_known in *. cbn. lia.
  - intros s x Hs Hw. rewrite (count_delete _ _ _ t) by done. specialize (H10 s x Hs Hw).
    assert (wokenb s t = false) as -> by (unfold wokenb; by rewrite Hd). lia.
Qed.

(** The whole switch. *)
Lemma schedule_ok dl dw st tc :
  leaving (threads st) (running st) (ready_list st) (idle_thread st) (initial_thread st) →
  rest_ok dl dw st → threads st !! running st = Some tc →
  (status tc = THREAD_DYING → kont tc = [IDie]) →
  ∃ st', schedule st = Ret st' ∧ same_rest st st' ∧ thread_ticks st' = 0
    ∧ (running st' = idle_thread st ∧ ready_list st = [] ∧ ready_list st' = []
       ∨ ready_list st = running st' :: ready_list st')
    ∧ table_ok (threads st') (running st') (ready_list st') (idle_thread st') (initial_thread st')
    ∧ rest_ok dl dw st'.
Proof.
  intros Hlv Hro Hc Hdie.
  destruct (schedule_spec st tc Hlv Hc) as (st' & tn & E & Hsr & Hn & Hnext & Ets & Etk & Hok).
  exists st'. split_and!; try done.
  set (next := running st') in *.
  assert (Hready : next = idle_thread st ∨ status tn = THREAD_READY).
  { destruct Hnext as [(? & _)|Erd]; [by left|right].
    destruct (proj1 (lv_ready _ _ _ _ _ Hlv next)) as (t & Ht & ? & _); [rewrite Erd; left|]. congruence. }
  assert (H1 : rest_ok dl dw (set_tcb st next (with_status tn THREAD_RUNNING))).
  { apply rest_status; try done.
    - destruct Hready as [|Es]; [by left|right]. by rewrite Es.
    - intros s. unfold wokenb. cbn. destruct Hready as [Ei|Es]; [|by rewrite Es].
      pose proof (ro_kont _ _ _ Hro _ _ Hn) as Hk. rewrite decide_True in Hk by done.
      rewrite Hk. by destruct (status tn). }
  assert (H2 : rest_ok dl dw (set_threads st (threads st'))).
  { rewrite Ets. unfold switched. destruct (gone st tc) eqn:Eg; [|exact H1].
    unfold gone in Eg. apply bool_decide_eq_true in Eg as [Ed _].
    eapply (rest_delete _ _ (set_tcb st next (with_status tn THREAD_RUNNING))); [done| |done|auto].
    cbn. rewrite lookup_insert_ne; [done|]. intros Enx. rewrite Enx, Hc in Hn. injection Hn as <-. destruct Hready as [Ei|]; [|congruence].
    destruct (lv_idle _ _ _ _ _ Hlv) as (ti & Hti & Hd). rewrite <- Ei in Hti. congruence. }
  destruct Hsr. eapply rest_ext; [exact H2|done..].
Qed.

(** The running thread goes to sleep on [s], whose value is zero. *)
Lemma rest_block dl dw st s x t k :
  rest_ok dl dw st → threads st !! running st = Some t → status t ≠ THREAD_BLOCKED →
  running st ≠ idle_thread st → semas st !! s = Some x → s_value x = 0 →
  kont_ok (running st) (IDown s :: k) = true → kont t = k →
  let t' := Tcb (tid t) THREAD_BLOCKED (priority t) (IDown s :: k) in
  rest_ok (λ l, dl l + b2z (pendb l t)) (λ s', if decide (s = s') then 0 else dw s' + b2z (wokenb s' t))
    (set_tcb (set_sema st s (Sema (s_value x) (waiters x ++ [running st]))) (running st) t').
Proof.
  intros [H1 H2 H3 H4 H5 H6 H7 H8 H9 H10] Ht Hb Hni Hs Hv Hk Ek t'.
  set (ws := waiters x ++ [running st]).
  assert (Hnw : ∀ s' x', semas st !! s' = Some x' → running st ∉ waiters x').
  { intros s' x' Hs' Hw. destruct (H2 s' x' _ Hs' Hw) as (t0 & k0 & ? & ? & _). congruence. }
  assert (Hcr : ∀ q p, creates (<[running st := t']> (threads st)) q p ↔ creates (threads st) q p).
  { intros q p. unfold creates. destruct (decide (q = running st)) as [->|].
    - rewrite lookup_insert_eq, Ht. subst k. split; intros (t0 & [= <-] & Hl); eexists; (split; [done|]).
      + cbn in Hl. destruct (kont t); [done|]. by rewrite last_cons_cons in Hl.
      + cbn. destruct (kont t); [done|]. by rewrite last_cons_cons.
    - by rewrite lookup_insert_ne. }
  assert (Hother : ∀ p t0, threads st !! p = Some t0 → status t0 = THREAD_BLOCKED →
            <[running st := t']> (threads st) !! p = Some t0).
  { intros p t0 Hp Hs'. rewrite lookup_insert_ne; [done|]. intros <-. congruence. }
  assert (Hlook : ∀ s' x' q, <[s := Sema (s_value x) ws]> (semas st) !! s' = Some x' → q ∈ waiters x' →
            q = running st ∧ s' = s ∨ ∃ x0, semas st !! s' = Some x0 ∧ q ∈ waiters x0).
  { intros s' x' q [[<- <-]|[Hne Hs']]%lookup_insert_Some Hq; [|eauto]. cbn in Hq. unfold ws in Hq.
    rewrite elem_of_app, list_elem_of_singleton in Hq. destruct Hq; [right; by eauto|by left]. }
  split; cbn [threads set_tcb set_threads set_sema set_semas semas idle_thread conds locks].
  - intros s' x' [[<- <-]|[_ Hs']]%lookup_insert_Some; [|by eapply H1]. cbn.
    destruct (H1 s x Hs) as [Hnd Hv0]. split; [|done]. apply NoDup_app.
    split_and!; [done| |by apply NoDup_singleton]. intros q Hq ->%list_elem_of_singleton.
    by apply (Hnw s x).
  - intros s' x' q Hs' Hq. destruct (Hlook s' x' q Hs' Hq) as [[-> ->]|(x0 & Hx0 & Hq0)].
    + exists t', k. rewrite lookup_insert_eq. done.
    + destruct (H2 s' x0 q Hx0 Hq0) as (t0 & k0 & ? & ? & ?). exists t0, k0. auto.
  - intros q tq [[<- <-]|[Hne Hq]]%lookup_insert_Some Hbq.
    + right; left. exists s, k. rewrite lookup_insert_eq. eexists. split_and!; [done..|].
      cbn. unfold ws. rewrite elem_of_app, list_elem_of_singleton. by right.
    + destruct (H3 q tq Hq Hbq) as [|[(s' & k' & x' & Ek' & Hs' & Hw)|[r Hr]]]; [by left| |].
      * right; left. exists s', k'. destruct (decide (s' = s)) as [->|].
        -- rewrite lookup_insert_eq. eexists. split_and!; [done..|]. cbn. unfold ws. simplify_eq.
           rewrite elem_of_app. by left.
        -- rewrite lookup_insert_ne by done. eauto.
      * right; right. exists r. by apply Hcr.
  - intros q p [? (t0 & ? & ? & ?)]%Hcr%H4. split; [done|]. exists t0. auto.
  - intros q q' p Hq%Hcr Hq'%Hcr. by eapply H5.
  - intros p t0 [[<- <-]|[Hne Hp]]%lookup_insert_Some; [by rewrite decide_False|by apply H6].
  - done.
  - intros l. rewrite <- H8. destruct (decide (s = LockSem l)) as [->|].
    + rewrite lookup_insert_eq, Hs. split; by eauto.
    + by rewrite lookup_insert_ne.
  - intros l. specialize (H9 l). rewrite (count_update _ _ _ t) by done.
    change (pendb l t') with false. unfold held, lock_value, lock_known, b2z in *. cbn.
    destruct (decide (s = LockSem l)) as [->|].
    + rewrite lookup_insert_eq. cbn. rewrite Hs in H9. lia.
    + rewrite lookup_insert_ne by done. lia.
  - intros s' x' Hs' Hw. destruct (decide (s = s')) as [<-|Hne].
    + rewrite lookup_insert_eq in Hs'. injection Hs' as <-. cbn.
      pose proof (count_nonneg (wokenb s) (<[running st := t']> (threads st))). lia.
    + rewrite lookup_insert_ne in Hs' by done. rewrite (count_update _ _ _ t) by done.
      change (wokenb s' t') with false. specialize (H10 s' x' Hs' Hw). unfold b2z. lia.
Qed.

(** ** Operations *)
Definition mid_ok (dl : Z → Z) (dw : sema_name → Z) (st : sched) : Prop :=
  table_ok (threads st) (running st) (ready_list st) (idle_thread st) (initial_thread st)
  ∧ rest_ok dl dw st.

Lemma table_same ts run rdy idle init p t t' :
  table_ok ts run rdy idle init → ts !! p = Some t → status t' = status t →
  table_ok (<[p := t']> ts) run rdy idle init.
Proof.
  intros [[tr [Hr Er]] H2 H3 H4 H5 [ti [Hi Hid]] H7] Hp Es.
  assert (Hl : ∀ q u, ts !! q = Some u → ∃ u', <[p := t']> ts !! q = Some u' ∧ status u' = status u).
  { intros q u Hq. destruct (decide (p = q)) as [<-|].
    - rewrite lookup_insert_eq. exists t'. simplify_eq. done.
    - rewrite lookup_insert_ne by done. eauto. }
  assert (Hb : ∀ q u', <[p := t']> ts !! q = Some u' → ∃ u, ts !! q = Some u ∧ status u' = status u).
  { intros q u' [[<- <-]|[_ Hq]]%lookup_insert_Some; eauto. }
  split.
  - destruct (Hl _ _ Hr) as (u & ? & E). exists u. by rewrite E.
  - intros q u (u0 & Hq & E)%Hb. rewrite E. by apply H2.
  - done.
  - intros q. rewrite H4. unfold is_ready. split.
    + intros (u & (u' & ? & E)%Hl & ? & ?). exists u'. by rewrite E.
    + intros (u & (u' & ? & E)%Hb & ? & ?). exists u'. by rewrite <- E.
  - rewrite lookup_insert_ne; [done|]. intros ->. congruence.
  - destruct (Hl _ _ Hi) as (u & ? & E). exists u. by rewrite E.
  - intros q u (u0 & Hq & E)%Hb. rewrite E. by apply H7.
Qed.

Lemma rest_same dl dw st p t t' :
  rest_ok dl dw st → threads st !! p = Some t → status t' = status t → kont t' = kont t →
  rest_ok dl dw (set_tcb st p t').
Proof.
  intros [H1 H2 H3 H4 H5 H6 H7 H8 H9 H10] Hp Es Ek.
  assert (Hl : ∀ q u, threads st !! q = Some u → ∃ u', <[p := t']> (threads st) !! q = Some u'
            ∧ status u' = status u ∧ kont u' = kont u).
  { intros q u Hq. destruct (decide (p = q)) as [<-|].
    - rewrite lookup_insert_eq. exists t'. simplify_eq. done.
    - rewrite lookup_insert_ne by done. eauto. }
  assert (Hb : ∀ q u', <[p := t']> (threads st) !! q = Some u' → ∃ u, threads st !! q = Some u
            ∧ status u' = status u ∧ kont u' = kont u).
  { intros q u' [[<- <-]|[_ Hq]]%lookup_insert_Some; eauto. }
  assert (Hcr : ∀ q q', creates (<[p := t']> (threads st)) q q' ↔ creates (threads st) q q').
  { intros q q'. unfold creates. split.
    - intros (u & (u' & ? & ? & E)%Hb & ?). exists u'. by rewrite <- E.
    - intros (u & (u' & ? & ? & E)%Hl & ?). exists u'. by rewrite E. }
  split; cbn [threads set_tcb set_threads semas idle_thread conds locks]; try done.
  - intros s x q Hs Hq. destruct (H2 s x q Hs Hq) as (u & k & (u' & ? & E1 & E2)%Hl & ? & ?).
    exists u', k. by rewrite E1, E2.
  - intros q u (u0 & Hq & E1 & E2)%Hb. rewrite E1, E2. intros Hbq.
    destruct (H3 q u0 Hq Hbq) as [|[|[r Hr]]]; [by left|by right; left|].
    right; right. exists r. by apply Hcr.
  - intros q q' [? (u & (u' & ? & E1 & E2)%Hl & ? & ?)]%Hcr%H4. split; [done|]. exists u'.
    by rewrite E1, E2.
  - intros q q' r Hq%Hcr Hq'%Hcr. by eapply H5.
  - intros q u (u0 & Hq & E1 & E2)%Hb. rewrite E2. by apply H6.
  - intros l. rewrite (count_update _ _ _ t) by done. specialize (H9 l).
    assert (pendb l t' = pendb l t) as -> by (unfold pendb; by rewrite Ek).
    unfold held, lock_value, lock_known in *. cbn. lia.
  - intros s x Hs Hw. rewrite (count_update _ _ _ t) by done. specialize (H10 s x Hs Hw).
    assert (wokenb s t' = wokenb s t) as -> by (unfold wokenb; by rewrite Ek, Es). lia.
Qed.

Section Running.
Context (dl : Z → Z) (dw : sema_name → Z) (st : sched) (t : tcb).
Context (Hmid : mid_ok dl dw st) (Ht : threads st !! running st = Some t).

Lemma running_status : status t = THREAD_RUNNING.
Proof using Hmid Ht. destruct Hmid as [[(t0 & ? & ?) _ _ _ _ _ _] _]. congruence. Qed.

Lemma current_ret : thread_current st = Ret t.
Proof using Hmid Ht.
  unfold thread_current, get_tcb. rewrite Ht, bind_Ret.
  by rewrite ASSERT_true by (by apply bool_decide_eq_true, running_status).
Qed.

Lemma continue_ret k : continue st k = Ret (set_tcb st (running st) (with_kont t k)).
Proof using Hmid Ht. unfold continue. by rewrite current_ret. Qed.

Lemma continue_ok k :
  running st ≠ idle_thread st → kont_ok (running st) k = true →
  (∀ p, last k = Some (IUnblock p) ↔ last (kont t) = Some (IUnblock p)) →
  mid_ok (λ l, dl l + b2z (pendb l t) - b2z (pendb l (with_kont t k)))
         (λ s, dw s + b2z (wokenb s t) - b2z (wokenb s (with_kont t k)))
         (set_tcb st (running st) (with_kont t k)).
Proof using Hmid Ht.
  intros Hni Hk Hl. pose proof running_status as Hr. destruct Hmid as [Htab Hro]. split.
  - by eapply (table_same _ _ _ _ _ _ t).
  - apply rest_kont; try done. by rewrite Hr.
Qed.

(** Leaving the processor with a given new state and switching to another thread. *)
Lemma leave_ok dl' dw' st1 t1 :
  threads st1 = <[running st := t1]> (threads st) → running st1 = running st →
  idle_thread st1 = idle_thread st → initial_thread st1 = initial_thread st →
  (status t1 = THREAD_BLOCKED ∧ ready_list st1 = ready_list st
   ∨ status t1 = THREAD_READY
     ∧ ready_list st1 = (if decide (running st = idle_thread st) then ready_list st
                         else ready_list st ++ [running st])
   ∨ status t1 = THREAD_DYING ∧ ready_list st1 = ready_list st ∧ running st ≠ idle_thread st
     ∧ kont t1 = [IDie]) →
  rest_ok dl' dw' st1 →
  ∃ st', schedule st1 = Ret st' ∧ same_rest st1 st' ∧ thread_ticks st' = 0
    ∧ (running st' = idle_thread st1 ∧ ready_list st1 = [] ∧ ready_list st' = []
       ∨ ready_list st1 = running st' :: ready_list st')
    ∧ mid_ok dl' dw' st'.
Proof using Hmid Ht.
  intros Ets Er Ei Ein Hst Hro. destruct Hmid as [Htab _].
  destruct (schedule_ok dl' dw' st1 t1) as (st' & E & Hsr & Htk & Hnx & Ht' & Hr').
  - rewrite Ets, Er, Ei, Ein. eapply table_leave; [done..|]. naive_solver.
  - done.
  - by rewrite Ets, Er, lookup_insert_eq.
  - intros Ed. destruct Hst as [[? _]|[[? _]|(_ & _ & _ & ?)]]; congruence.
  - exists st'. by split_and!.
Qed.
End Running.

(** *** Semaphores *)
Lemma sema_down_ok dl dw st t s x k :
  mid_ok dl dw st → threads st !! running st = Some t → kont t = k →
  running st ≠ idle_thread st → kont_ok (running st) (IDown s :: k) = true →
  semas st !! s = Some x →
  ∃ st', sema_down st s k = Ret st'
    ∧ if s_value x =? 0 then
        mid_ok (λ l, dl l + b2z (pendb l t))
          (λ s', if decide (s = s') then 0 else dw s' + b2z (wokenb s' t)) st'
      else mid_ok (λ l, dl l + at_lock s l 1) (λ s', dw s' - at_sema s s' 1) st'.
Proof.
  intros Hmid Ht Ek Hni Hk Hs. unfold sema_down, get_sema. rewrite Hs, bind_Ret.
  pose proof (running_status _ _ _ _ Hmid Ht) as Hr. destruct (Z.eqb_spec (s_value x) 0) as [Ev|Ev].
  - rewrite (current_ret _ _ _ _ Hmid Ht), bind_Ret.
    set (st1 := set_sema st s _).
    assert (Ec : thread_current st1 = Ret t).
    { unfold thread_current, get_tcb. cbn. rewrite Ht, bind_Ret.
      by rewrite ASSERT_true by (by apply bool_decide_eq_true). }
    unfold thread_block. rewrite Ec, bind_Ret.
    pose proof (rest_block dl dw st s x t k (proj2 Hmid) Ht) as Hro. cbn zeta in Hro.
    destruct (leave_ok dl dw st t Hmid Ht (λ l, dl l + b2z (pendb l t))
       (λ s', if decide (s = s') then 0 else dw s' + b2z (wokenb s' t))
       (set_tcb st1 (running st1) (Tcb (tid t) THREAD_BLOCKED (priority t) (IDown s :: k)))
       (Tcb (tid t) THREAD_BLOCKED (priority t) (IDown s :: k)))
      as (st' & E & _ & _ & _ & Hok); try done.
    + by left.
    + apply Hro; try done. by rewrite Hr.
    + exists st'. by split.
  - eexists. split; [done|]. destruct Hmid as [Htab Hro].
    split; [done|]. destruct (ro_sema _ _ _ Hro s x Hs) as [_ Hv].
    pose proof (rest_value dl dw st s x (s_value x - 1) Hro Hs ltac:(lia)) as Hro'.
    eapply rest_weaken; [exact Hro'| |].
    + intros l. unfold at_lock. case_decide; lia.
    + intros s'. unfold at_sema. case_decide; lia.
Qed.

Lemma sema_up_ok dl dw st s x :
  mid_ok dl dw st → semas st !! s = Some x → (∀ l, s = LockSem l → s_value x = 0) →
  ∃ st', sema_up st s = Ret st' ∧ running st' = running st
    ∧ (∃ ps, ready_list st' = ready_list st ++ ps) ∧ thread_ticks st' = thread_ticks st
    ∧ idle_thread st' = idle_thread st ∧ initial_thread st' = initial_thread st
    ∧ mid_ok (λ l, dl l - at_lock s l 1) dw st'.
Proof.
  intros [Htab Hro] Hs Hlock. unfold sema_up, get_sema. rewrite Hs, bind_Ret.
  destruct (ro_sema _ _ _ Hro s x Hs) as [_ Hv].
  assert (Hwrap : 0 ≤ u32 (s_value x + 1) ≤ s_value x + 1).
  { unfold u32. pose proof (Z.mod_pos_bound (s_value x + 1) 4294967296 ltac:(lia)).
    split; [lia|]. apply Z.mod_le; lia. }
  assert (Hl : ∀ l, s = LockSem l → u32 (s_value x + 1) - s_value x = 1)
    by (intros l E; by rewrite (Hlock l E)).
  destruct (waiters x) as [|p ws] eqn:Ew.
  - eexists. split; [done|]. do 3 (split; [done||by exists []; rewrite app_nil_r|]).
    split; [done|]. split; [done|]. split; [done|].
    pose proof (rest_value dl dw st s x (u32 (s_value x + 1)) Hro Hs ltac:(lia)) as H. rewrite Ew in H.
    destruct H as [A1 A2 A3 A4 A5 A6 A7 A8 A9 A10]. split; try done.
    + intros l. rewrite <- (A9 l). unfold at_lock. case_decide as E; [|done]. by rewrite (Hl l E).
    + intros s' x' Hs' Hw'. specialize (A10 s' x' Hs' Hw'). unfold at_sema in A10.
      destruct (decide (s = s')) as [<-|]; [|lia]. cbn in Hs'. rewrite lookup_insert_eq in Hs'.
      by injection Hs' as <-.
  - destruct (ro_wait _ _ _ Hro s x p Hs) as (t & k & Ht & Hb & Ek); [rewrite Ew; left|].
    assert (Hpi : p ≠ idle_thread st).
    { intros ->. pose proof (ro_kont _ _ _ Hro _ _ Ht) as H. rewrite decide_True in H by done. congruence. }
    unfold thread_unblock, get_tcb. cbn [threads set_sema set_semas]. rewrite Ht, bind_Ret.
    rewrite ASSERT_true by (by apply bool_decide_eq_true). rewrite bind_Ret.
    eexists. split; [done|]. split; [done|]. split; [by exists [p]|]. do 3 (split; [done|]).
    split.
    + cbn. by eapply table_unblock.
    + pose proof (rest_wake dl dw st s x p ws t Hro Hs Ew Ht) as H.
      set (st1 := set_tcb _ _ _) in H.
      assert (Hs1 : semas st1 !! s = Some (Sema (s_value x) ws)) by apply lookup_insert_eq.
      pose proof (rest_value _ _ st1 s _ (u32 (s_value x + 1)) H Hs1 ltac:(lia)) as H'.
      eapply rest_weaken; [exact H'| |].
      * intros l. unfold at_lock. case_decide as E; [|done]. cbn. by rewrite (Hl l E).
      * intros s'. unfold at_sema. case_decide; cbn; lia.
Qed.

Lemma yield_ok dl dw st t :
  mid_ok dl dw st → threads st !! running st = Some t →
  ∃ st', thread_yield st = Ret st' ∧ thread_ticks st' = 0
    ∧ (let rdy := if decide (running st = idle_thread st) then ready_list st
                  else ready_list st ++ [running st] in
       running st' = idle_thread st ∧ rdy = [] ∧ ready_list st' = []
       ∨ rdy = running st' :: ready_list st')
    ∧ idle_thread st' = idle_thread st ∧ initial_thread st' = initial_thread st
    ∧ mid_ok dl dw st'.
Proof.
  intros Hmid Ht. unfold thread_yield. rewrite (current_ret _ _ _ _ Hmid Ht), bind_Ret.
  pose proof (running_status _ _ _ _ Hmid Ht) as Hr.
  set (st0 := if negb (running st =? idle_thread st) then _ else st).
  assert (E0 : threads st0 = threads st ∧ running st0 = running st ∧ idle_thread st0 = idle_thread st
    ∧ initial_thread st0 = initial_thread st ∧ semas st0 = semas st ∧ conds st0 = conds st
    ∧ locks st0 = locks st
    ∧ ready_list st0 = if decide (running st = idle_thread st) then ready_list st
                       else ready_list st ++ [running st]).
  { unfold st0. destruct (Z.eqb_spec (running st) (idle_thread st)); cbn.
    - by rewrite decide_True.
    - by rewrite decide_False. }
  destruct E0 as (E1 & E2 & E3 & E4 & E5 & E6 & E7 & E8).
  set (st1 := set_tcb st0 (running st) (with_status t THREAD_READY)).
  destruct (leave_ok dl dw st t Hmid Ht dl dw st1 (with_status t THREAD_READY))
    as (st' & E & Hsr & Htk & Hnx & Hok); try done.
  - cbn. by rewrite E1.
  - cbn. right; left. by split.
  - eapply (rest_ext _ _ (set_tcb st (running st) (with_status t THREAD_READY))); try done.
    + apply rest_status; [apply Hmid|done|right; by rewrite Hr|].
      intros s. unfold wokenb. cbn. by rewrite Hr.
    + cbn. by rewrite E1.
  - exists st'. destruct Hsr. cbn in *. rewrite E3 in *. rewrite E8 in *. split_and!; try done; congruence.
Qed.


(** ** Creating a thread *)
Lemma table_create ts run rdy idle init p e :
  table_ok ts run rdy idle init → ts !! p = None → p ≠ NULL → status e = THREAD_BLOCKED →
  table_ok (<[p := e]> ts) run rdy idle init.
Proof.
  intros [[tr [Hr Er]] H2 H3 H4 H5 [ti [Hi Hid]] H7] Hp Hn He.
  assert (Hl : ∀ q u, ts !! q = Some u → <[p := e]> ts !! q = Some u).
  { intros q u Hq. rewrite lookup_insert_ne; [done|]. intros <-. congruence. }
  split; [by eauto| |done| |by rewrite lookup_insert_ne|by eauto|].
  - intros q u [[_ <-]|[_ Hq]]%lookup_insert_Some; [congruence|by apply H2].
  - intros q. rewrite H4. split.
    + intros (u & ? & ?). exists u. auto.
    + intros (u & [[_ <-]|[_ Hq]]%lookup_insert_Some & ? & ?); [congruence|by exists u].
  - intros q u [[_ <-]|[_ Hq]]%lookup_insert_Some; [congruence|by apply H7].
Qed.

(** The running thread makes a new one, blocked, which it will unblock. *)
Lemma rest_create dl dw st t page e k :
  rest_ok dl dw st → threads st !! running st = Some t → status t ≠ THREAD_BLOCKED →
  running st ≠ idle_thread st → threads st !! page = None → is_Some (threads st !! idle_thread st) →
  (∀ p, last (kont t) ≠ Some (IUnblock p)) → last k = Some (IUnblock page) →
  kont_ok (running st) k = true → (∀ l, pendb l (with_kont t k) = pendb l t) →
  (∀ s, wokenb s (with_kont t k) = wokenb s t) → status e = THREAD_BLOCKED → kont e = [] →
  rest_ok dl dw (set_tcb (set_tcb st page e) (running st) (with_kont t k)).
Proof.
  intros [H1 H2 H3 H4 H5 H6 H7 H8 H9 H10] Ht Hb Hni Hpg [ti Hti] Hlt Hlk Hk Hpe Hwe He Eke.
  assert (Hpr : page ≠ running st) by congruence.
  assert (Hpi : page ≠ idle_thread st) by congruence.
  assert (Hcr : ∀ q p, creates (<[running st := with_kont t k]> (<[page := e]> (threads st))) q p
                       ↔ creates (threads st) q p ∨ q = running st ∧ p = page).
  { intros q p. unfold creates. destruct (decide (q = running st)) as [->|Hne].
    - rewrite lookup_insert_eq, Ht. split.
      + intros (? & [= <-] & E). cbn in E. rewrite Hlk in E. injection E as ->. by right.
      + intros [(? & [= <-] & E)|[_ ->]]; [by apply Hlt in E|]. eexists. by split.
    - rewrite lookup_insert_ne by done. split.
      + intros (u & [[_ <-]|[_ Hu]]%lookup_insert_Some & E); [by rewrite Eke in E|]. left. by exists u.
      + intros [(u & Hu & E)|[? _]]; [|done]. exists u. split; [|done].
        rewrite lookup_insert_ne; [done|]. intros ->. congruence. }
  assert (Hother : ∀ p u, threads st !! p = Some u → status u = THREAD_BLOCKED →
            <[running st := with_kont t k]> (<[page := e]> (threads st)) !! p = Some u).
  { intros p u Hp Hs. rewrite !lookup_insert_ne; [done|..]; intros <-; congruence. }
  split; cbn [threads set_tcb set_threads semas idle_thread conds locks]; try done.
  - intros s x p Hs Hp. destruct (H2 s x p Hs Hp) as (u & k0 & ? & ? & ?). exists u, k0. auto.
  - intros p u [[<- <-]|[Hne [[<- <-]|[_ Hp]]%lookup_insert_Some]]%lookup_insert_Some Hs; [done|..].
    + right; right. exists (running st). apply Hcr. by right.
    + destruct (H3 p u Hp Hs) as [|[|[q Hq]]]; [by left|by right; left|].
      right; right. exists q. apply Hcr. by left.
  - intros q p [[Hpi' (u & ? & ? & ?)]%H4|[_ ->]]%Hcr.
    + split; [done|]. exists u. auto.
    + split; [done|]. exists e. rewrite lookup_insert_ne, lookup_insert_eq by done. done.
  - assert (Hold : ∀ q, ¬ creates (threads st) q page).
    { intros q [_ (u & Hu & _)]%H4. congruence. }
    intros q q' p [Hq|[-> ->]]%Hcr [Hq'|[-> Ep]]%Hcr; [by eapply H5| |by apply Hold in Hq'|done].
    subst p. by apply Hold in Hq.
  - intros p u [[<- <-]|[_ [[<- <-]|[_ Hp]]%lookup_insert_Some]]%lookup_insert_Some;
      [by rewrite decide_False|by rewrite decide_False, Eke|by apply H6].
  - intros l. rewrite (count_update _ _ _ t), count_insert, Hpe by (done || by rewrite lookup_insert_ne).
    assert (pendb l e = false) as -> by (unfold pendb; by rewrite Eke). specialize (H9 l).
    unfold held, lock_value, lock_known in *. cbn. lia.
  - intros s x Hs Hw. rewrite (count_update _ _ _ t), count_insert, Hwe by (done || by rewrite lookup_insert_ne).
    assert (wokenb s e = false) as -> by (unfold wokenb; by rewrite Eke; destruct (status e)).
    specialize (H10 s x Hs Hw). lia.
Qed.

(** The running thread has nothing left to do but unblock the thread it created. *)
Lemma rest_unblock dl dw st t p u :
  rest_ok dl dw st → threads st !! running st = Some t → status t ≠ THREAD_BLOCKED →
  running st ≠ idle_thread st → kont t = [IUnblock p] →
  threads st !! p = Some u → status u = THREAD_BLOCKED →
  rest_ok dl dw (set_tcb (set_tcb st (running st) (with_kont t [])) p (with_status u THREAD_READY)).
Proof.
  intros [H1 H2 H3 H4 H5 H6 H7 H8 H9 H10] Ht Hb Hni Ek Hp Hu.
  assert (Hrp : running st ≠ p) by congruence.
  assert (Hrc : creates (threads st) (running st) p) by (exists t; by rewrite Ek).
  destruct (H4 _ _ Hrc) as [Hpi (u' & Hu' & _ & Eku)]. rewrite Hp in Hu'. injection Hu' as <-.
  set (ts' := <[p := with_status u THREAD_READY]> (<[running st := with_kont t []]> (threads st))).
  assert (Hcr : ∀ q r, creates ts' q r ↔ creates (threads st) q r ∧ q ≠ running st).
  { intros q r. unfold creates, ts'. destruct (decide (q = running st)) as [->|Hne].
    { rewrite lookup_insert_ne, lookup_insert_eq by done. naive_solver. }
    destruct (decide (q = p)) as [->|Hqp].
    - rewrite lookup_insert_eq, Hp. naive_solver.
    - rewrite !lookup_insert_ne by done. naive_solver. }
  assert (Hback : ∀ q v, ts' !! q = Some v → q ≠ p → q ≠ running st → threads st !! q = Some v).
  { unfold ts'. intros q v Hq ??. by rewrite !lookup_insert_ne in Hq. }
  assert (Hother : ∀ q v, threads st !! q = Some v → status v = THREAD_BLOCKED → q ≠ p →
            ts' !! q = Some v).
  { unfold ts'. intros q v Hq Hs ?. rewrite !lookup_insert_ne; [done| |done]. intros <-. congruence. }
  split; cbn [threads set_tcb set_threads semas idle_thread conds locks]; fold ts'; try done.
  - intros s x q Hs Hq. destruct (H2 s x q Hs Hq) as (v & k0 & ? & ? & ?). exists v, k0.
    split; [|done]. apply Hother; [done..|]. intros ->. congruence.
  - intros q v Hq Hs. destruct (decide (q = p)) as [->|Hqp].
    { unfold ts' in Hq. rewrite lookup_insert_eq in Hq. by injection Hq as <-. }
    destruct (decide (q = running st)) as [->|Hqr].
    { unfold ts' in Hq. rewrite lookup_insert_ne, lookup_insert_eq in Hq by done. by injection Hq as <-. }
    destruct (H3 q v (Hback _ _ Hq Hqp Hqr) Hs) as [|[|[r Hr]]]; [by left|by right; left|].
    right; right. exists r. apply Hcr. split; [done|]. intros ->.
    destruct Hr as (t0 & Ht0 & El). rewrite Ht in Ht0. injection Ht0 as <-. rewrite Ek in El.
    by injection El as ->.
  - intros q r [Hq Hqr]%Hcr. destruct (H4 _ _ Hq) as [? (v & ? & ? & ?)]. split; [done|].
    exists v. split; [|done]. apply Hother; [done..|]. intros ->. by apply Hqr, (H5 _ _ p).
  - intros q q' r [Hq _]%Hcr [Hq' _]%Hcr. by eapply H5.
  - intros q v [[<- <-]|[_ [[<- <-]|[_ Hq]]%lookup_insert_Some]]%lookup_insert_Some;
      [by rewrite decide_False by done; cbn; rewrite Eku|by rewrite decide_False|by apply H6].
  - intros l. specialize (H9 l). unfold ts'.
    rewrite (count_update _ _ _ u), (count_update _ _ _ t) by (done || by rewrite lookup_insert_ne).
    unfold pendb at 2 3 4 5. cbn. rewrite Ek, Eku.
    unfold held, lock_value, lock_known in *. cbn. lia.
  - intros s x Hs Hw. specialize (H10 s x Hs Hw). unfold ts'.
    rewrite (count_update _ _ _ u), (count_update _ _ _ t) by (done || by rewrite lookup_insert_ne).
    unfold wokenb at 2 3 4 5. cbn. rewrite Ek, Eku, Hu. destruct (status t); lia.
Qed.
