(* ===== verification/SchedSteps.v ===== *)
(** * Every step of the scheduler keeps its invariant

    Each instruction of a thread's saved execution, the timer interrupt and the calls that
    start an operation, one by one; then the theorems about every reachable state. *)
From S2P Require Import Prelude Threads SchedInv.

Ltac exec_case :=
  cbn [exec]; unfold lock_acquire, lock_try_acquire, lock_release, cond_wait, cond_signal, cond_broadcast,
    thread_create, allocate_tid, thread_exit.

(** ** One instruction *)

(** The assertions of the code that a caller can violate, by a thread's exit before
    [process_execute] has initialised [temporary] as well. *)
Definition misuse (st : sched) (i : instr) : Prop :=
  match i with
  | IDown s | IUp s => s = temporary ∧ semas st !! temporary = None
  | IAcquire l | ITryAcquire l => ∃ x, locks st !! l = Some x ∧ holder x = running st
  | IRelease l | ICondWait _ l | ICondSignal _ l =>
    ∃ x, locks st !! l = Some x ∧ holder x ≠ running st
  | ICreate page p => page ≠ NULL ∧ ¬ PRI_MIN ≤ p ≤ PRI_MAX
  | _ => False
  end.
(** The object has not been initialised, and its bytes are not known to be zero. *)
Definition unknown (st : sched) (i : instr) : Prop :=
  match i with
  | IDown s | ITryDown s | IUp s => s ≠ temporary ∧ semas st !! s = None
  | IAcquire l | ITryAcquire l | IRelease l => locks st !! l = None
  | ICondWait c l | ICondSignal c l => locks st !! l = None ∨ conds st !! c = None
  | ICondBroadcast c _ => conds st !! c = None
  | ISetHolder l => locks st !! l = None
  | _ => False
  end.
Definition exec_good (st : sched) (i : instr) (r : res sched) : Prop :=
  match r with Ret st' => sched_ok st' | Panic => misuse st i | Stuck => unknown st i end.

Lemma last_unblock i k p :
  (∀ q, i ≠ IUnblock q) → last k = Some (IUnblock p) ↔ last (i :: k) = Some (IUnblock p).
Proof.
  intros Hi. destruct k as [|j k]; [|by rewrite last_cons_cons]. cbn. split; [done|].
  intros [= ->]. by destruct (Hi p).
Qed.

Lemma mid_zero dl dw st :
  mid_ok dl dw st → (∀ l, dl l = 0) → (∀ s, dw s ≤ 0) → sched_ok st.
Proof. intros [? H] Hl Hw. split; [done|]. by eapply rest_weaken. Qed.

Lemma quiet_pendb l t k : quiet_head k = true → pendb l (with_kont t k) = false.
Proof. destruct k as [|[| |[]| | | | | | | | | | | | | |] k]; done. Qed.

Section Exec.
Context (st : sched) (t : tcb) (i : instr) (k : list instr).
Context (Hok : sched_ok st) (Ht : threads st !! running st = Some t) (Ek : kont t = i :: k).
Context (Hni : running st ≠ idle_thread st).

Lemma kont_parts : next_ok (running st) i k = true ∧ kont_ok (running st) k = true.
Proof using Hok Ht Ek Hni.
  pose proof (ro_kont _ _ _ (proj2 Hok) _ _ Ht) as H. rewrite decide_False, Ek in H by done.
  by apply andb_true_iff in H.
Qed.

(** Replacing the instruction by others that start and end as quietly. *)
Lemma replace_ok k' :
  kont_ok (running st) k' = true →
  (∀ p, last k' = Some (IUnblock p) ↔ last (i :: k) = Some (IUnblock p)) →
  (∀ l, pendb l t = pendb l (with_kont t k')) → (∀ s, wokenb s t = false) →
  sched_ok (set_tcb st (running st) (with_kont t k')).
Proof using Hok Ht Ek Hni.
  intros Hk Hl Hp Hw.
  eapply mid_zero; [apply (continue_ok (λ _, 0) (λ _, 0) st t Hok Ht k')|..]; try done.
  - by rewrite Ek.
  - intros l. cbn beta. rewrite (Hp l). lia.
  - intros s. cbn beta. rewrite (Hw s). unfold b2z. destruct (wokenb _ _); lia.
Qed.

Lemma exec_down s : i = IDown s → exec_good st i (exec st i k).
Proof using Hok Ht Ek Hni.
  destruct kont_parts as [Hnx Hk]. intros ->. exec_case.
  rewrite (continue_ret _ _ _ _ Hok Ht), bind_Ret.
  set (st1 := set_tcb _ _ _). set (t1 := with_kont t k) in *.
  assert (H1 := continue_ok (λ _, 0) (λ _, 0) st t Hok Ht k Hni Hk
    ltac:(intros p; rewrite Ek; by apply last_unblock)). cbn beta in H1. fold t1 st1 in H1.
  assert (Ht1 : threads st1 !! running st1 = Some t1) by apply lookup_insert_eq.
  destruct (semas st !! s) as [x|] eqn:Hs.
  2:{ unfold sema_down, get_sema. cbn [semas st1 set_tcb set_threads]. rewrite Hs.
      case_decide; [subst s|]; by split. }
  destruct (sema_down_ok _ _ st1 t1 s x k H1 Ht1 eq_refl Hni) as (st' & -> & H2).
  { change (next_ok (running st) (IDown s) k && kont_ok (running st) k = true). by rewrite Hnx, Hk. }
  { done. }
  assert (Hpt : ∀ l, pendb l t = false) by (intros l; unfold pendb; by rewrite Ek).
  assert (Hwt : ∀ s', wokenb s' t = bool_decide (s = s')).
  { intros s'. unfold wokenb. by rewrite (running_status _ _ _ _ Hok Ht), Ek. }
  cbn [exec_good]. destruct (s_value x =? 0).
  - eapply mid_zero; [exact H2|..]; cbn beta.
    + intros l. rewrite Hpt. unfold b2z. lia.
    + intros s'. case_decide as E; [done|]. rewrite Hwt, bool_decide_false by done. unfold b2z. lia.
  - eapply mid_zero; [exact H2|..]; cbn beta.
    + intros l. rewrite Hpt. unfold at_lock. destruct s as [a|l0|p]; cbn in Hnx.
      * rewrite decide_False by done. unfold t1. rewrite quiet_pendb by done. done.
      * apply bool_decide_eq_true in Hnx. destruct k as [|j k0]; [done|]. cbn in Hnx. injection Hnx as ->.
        unfold pendb, t1. cbn. destruct (Z.eqb_spec l0 l) as [->|].
        -- by rewrite decide_True.
        -- rewrite decide_False by congruence. done.
      * rewrite decide_False by done. apply andb_true_iff in Hnx as [_ Hq]. unfold t1.
        by rewrite quiet_pendb.
    + intros s'. rewrite Hwt. unfold at_sema. case_decide.
      * rewrite bool_decide_true by done. unfold b2z. destruct (wokenb _ _); lia.
      * rewrite bool_decide_false by done. unfold b2z. destruct (wokenb _ _); lia.
Qed.

(** Popping the instruction and upping a semaphore. *)
Lemma exec_up s : i = IUp s → exec_good st i (exec st i k).
Proof using Hok Ht Ek Hni.
  destruct kont_parts as [Hnx Hk]. intros ->. exec_case.
  rewrite (continue_ret _ _ _ _ Hok Ht), bind_Ret.
  set (st1 := set_tcb _ _ _). set (t1 := with_kont t k) in *.
  assert (H1 := continue_ok (λ _, 0) (λ _, 0) st t Hok Ht k Hni Hk
    ltac:(intros p; rewrite Ek; by apply last_unblock)). cbn beta in H1. fold t1 st1 in H1.
  destruct (semas st !! s) as [x|] eqn:Hs.
  2:{ unfold sema_up, get_sema. cbn [semas st1 set_tcb set_threads]. rewrite Hs.
      case_decide; [subst s|]; by split. }
  assert (Hq : ∀ l, pendb l t1 = false) by (intros l; by apply quiet_pendb).
  assert (Hpt : ∀ l, b2z (pendb l t) = at_lock s l 1).
  { intros l. unfold pendb, at_lock. rewrite Ek. destruct s as [a|l0|p]; cbn; [done| |done].
    destruct (Z.eqb_spec l0 l) as [->|]; [by rewrite decide_True|by rewrite decide_False by congruence]. }
  destruct (sema_up_ok _ _ st1 s x H1 Hs) as (st' & -> & _ & _ & _ & _ & _ & H2).
  { intros l ->. pose proof (ro_lock _ _ _ (proj2 H1) l) as E.
    unfold lock_value in E. cbn [semas st1 set_tcb set_threads] in E. rewrite Hs in E.
    destruct (ro_sema _ _ _ (proj2 Hok) _ _ Hs) as [_ Hv].
    pose proof (count_nonneg (pendb l) (threads st1)) as Hc.
    specialize (Hpt l). unfold at_lock in Hpt. rewrite decide_True in Hpt by done.
    rewrite Hpt, Hq in E. unfold held, lock_known, b2z in E. cbn in E.
    destruct (locks st !! l) as [lk|]; [destruct (_ =? _)|]; cbn in E; unfold set_tcb, set_threads in *; cbn in *; lia. }
  cbn [exec_good]. eapply mid_zero; [exact H2|..]; cbn beta.
  - intros l. rewrite Hpt, Hq. unfold b2z. lia.
  - intros s'. assert (wokenb s' t = false) as -> by (unfold wokenb; rewrite Ek; by destruct (status t)).
    unfold b2z. destruct (wokenb s' t1); lia.
Qed.

(** [lock_held_by_current_thread] and the assertion on its result. *)
Lemma held_ret l : lock_held_by_current_thread st l =
  match locks st !! l with Some x => Ret (holder x =? running st) | None => Stuck end.
Proof using Hok Ht.
  unfold lock_held_by_current_thread, get_lock. destruct (locks st !! l); [|done].
  by rewrite bind_Ret, (current_ret _ _ _ _ Hok Ht).
Qed.

Lemma not_woken s : (∀ s', i ≠ IDown s') → wokenb s t = false.
Proof using Ek. intros Hi. unfold wokenb. rewrite Ek. destruct (status t), i; try done; by destruct (Hi s0). Qed.

Lemma not_pending l : quiet_head (i :: k) = true → pendb l t = false.
Proof using Ek. intros Hi. unfold pendb. rewrite Ek. by destruct i as [| |[]| | | | | | | | | | | | | |]. Qed.

Lemma exec_try_down s : i = ITryDown s → exec_good st i (exec st i k).
Proof using Hok Ht Ek Hni.
  destruct kont_parts as [Hnx Hk].
  assert (Hw := not_woken). assert (Hp := not_pending). intros ->. exec_case.
  rewrite (continue_ret _ _ _ _ Hok Ht), bind_Ret.
  destruct s as [a| |]; try done. cbn in Hnx.
  assert (H1 := continue_ok (λ _, 0) (λ _, 0) st t Hok Ht k Hni Hk
    ltac:(intros p; rewrite Ek; by apply last_unblock)). cbn beta in H1.
  set (st1 := set_tcb _ _ _) in *. unfold sema_try_down.
  change (semas st1) with (semas st).
  assert (sched_ok st1) as Hsame.
  { eapply mid_zero; [exact H1|..]; cbn beta.
    - intros l. rewrite Hp, quiet_pendb by done. done.
    - intros s'. rewrite Hw by done. unfold b2z. destruct (wokenb _ _); lia. }
  destruct (semas st !! Sem a) as [x|] eqn:Hs; [|by case_decide].
  destruct (Z.ltb_spec 0 (s_value x)); cbn [mbind res_bind exec_good]; [|done].
  - destruct H1 as [Htab H1]. split; [done|].
    eapply rest_weaken; [eapply (rest_value _ _ st1 (Sem a) x); [exact H1|done|lia]|..]; cbn beta.
    + intros l. rewrite Hp, quiet_pendb by done. done.
    + intros s'. rewrite Hw by done. unfold at_sema, b2z. case_decide; destruct (wokenb _ _); lia.
Qed.

Lemma exec_acquire l : i = IAcquire l → exec_good st i (exec st i k).
Proof using Hok Ht Ek Hni.
  destruct kont_parts as [Hnx Hk]. assert (Hr := replace_ok). assert (Hh := held_ret l).
  assert (Hw := not_woken). assert (Hp := not_pending).
  intros ->. exec_case. rewrite Hh. cbn [exec_good unknown].
  destruct (locks st !! l) as [x|] eqn:El; [|done]. rewrite bind_Ret.
  destruct (Z.eqb_spec (holder x) (running st)) as [Eh|Eh]; [by exists x|].
  rewrite ASSERT_true by done. rewrite (continue_ret _ _ _ _ Hok Ht). cbn [exec_good]. apply Hr.
  - cbn in *. by rewrite bool_decide_true, Hnx, Hk.
  - intros p. rewrite <- !last_unblock; done.
  - intros l'. by rewrite Hp.
  - intros s. by apply Hw.
Qed.

Lemma exec_try_acquire l : i = ITryAcquire l → exec_good st i (exec st i k).
Proof using Hok Ht Ek Hni.
  destruct kont_parts as [Hnx Hk]. assert (Hr := replace_ok). assert (Hh := held_ret l).
  assert (Hw := not_woken). assert (Hp := not_pending).
  intros ->. exec_case. rewrite Hh. cbn in Hnx.
  destruct (locks st !! l) as [x|] eqn:El; [|done]. rewrite bind_Ret.
  destruct (Z.eqb_spec (holder x) (running st)) as [Eh|Eh]; [by exists x|].
  rewrite ASSERT_true by done. unfold sema_try_down.
  destruct (proj2 (ro_locksem _ _ _ (proj2 Hok) l) ltac:(by eauto)) as [y Hs]. rewrite Hs.
  destruct (Z.ltb_spec 0 (s_value y)); cbn [mbind res_bind].
  - destruct Hok as [Htab Hro].
    assert (H1 : mid_ok (λ l', 0 - at_lock (LockSem l) l' (s_value y - 1 - s_value y))
      (λ s', 0 + at_sema (LockSem l) s' (s_value y - 1 - s_value y))
      (set_sema st (LockSem l) (Sema (s_value y - 1) (waiters y)))).
    { split; [done|]. apply (rest_value (λ _, 0) (λ _, 0)); [done|done|lia]. }
    rewrite (continue_ret _ _ _ t H1 Ht). cbn [exec_good].
    eapply mid_zero; [eapply (continue_ok _ _ _ t H1 Ht); [done| |]|..]; cbn beta.
    + cbn. by rewrite Hnx, Hk.
    + intros p. rewrite Ek, <- !last_unblock; done.
    + intros l'. rewrite Hp by done. unfold pendb, at_lock, b2z. cbn.
      destruct (Z.eqb_spec l l') as [->|]; [rewrite decide_True by done|rewrite decide_False by congruence]; lia.
    + intros s. rewrite Hw by done. unfold at_sema, b2z. case_decide; destruct (wokenb _ _); lia.
  - rewrite (continue_ret _ _ _ _ Hok Ht). cbn [exec_good]. apply Hr; [done|..].
    + intros p. by apply last_unblock.
    + intros l'. by rewrite Hp, quiet_pendb.
    + intros s. by apply Hw.
Qed.

(** A lock whose semaphore has been taken has no holder yet. *)
Lemma pending_lock l : pendb l t = true → ∃ x, locks st !! l = Some x ∧ holder x = NULL.
Proof using Hok Ht.
  intros Hp. pose proof (ro_lock _ _ _ (proj2 Hok) l) as E.
  pose proof (count_pos (pendb l) (threads st) _ t Ht Hp).
  unfold held, lock_value, lock_known in E. destruct (locks st !! l) as [x|] eqn:El.
  - exists x. split; [done|]. destruct (Z.eqb_spec (holder x) NULL); [done|].
    destruct (semas st !! LockSem l) as [y|] eqn:Ey; [|lia].
    destruct (ro_sema _ _ _ (proj2 Hok) _ _ Ey). lia.
  - destruct (semas st !! LockSem l) as [y|] eqn:Ey; [|lia].
    destruct (ro_sema _ _ _ (proj2 Hok) _ _ Ey). lia.
Qed.

Lemma running_not_null : running st ≠ NULL.
Proof using Hok Ht. intros E. rewrite E in Ht. by rewrite (to_null _ _ _ _ _ (proj1 Hok)) in Ht. Qed.

Lemma exec_set_holder l : i = ISetHolder l → exec_good st i (exec st i k).
Proof using Hok Ht Ek Hni.
  destruct kont_parts as [Hnx Hk]. assert (Hw := not_woken). assert (Hn := running_not_null).
  intros ->. exec_case. destruct (pending_lock l) as (x & El & Eh).
  { unfold pendb. rewrite Ek. apply Z.eqb_refl. }
  rewrite (continue_ret _ _ _ _ Hok Ht), bind_Ret. cbn [exec_good].
  destruct (continue_ok (λ _, 0) (λ _, 0) st t Hok Ht k Hni Hk
    ltac:(intros p; rewrite Ek; by apply last_unblock)) as [Htab H1]. cbn beta in H1.
  set (st1 := set_tcb _ _ _) in *. split; [done|].
  eapply rest_weaken; [eapply (rest_holder _ _ st1 l (running st1) x); [exact H1|done]|..]; cbn beta.
  - intros l'. rewrite quiet_pendb by done. rewrite Eh.
    change (running st1) with (running st). rewrite (proj2 (Z.eqb_neq _ _) Hn). cbn [negb NULL Z.eqb b2z].
    unfold pendb, at_lock. rewrite Ek.
    destruct (Z.eqb_spec l l') as [->|]; [by rewrite decide_True|by rewrite decide_False by congruence].
  - intros s. rewrite Hw by done. unfold b2z. destruct (wokenb _ _); lia.
Qed.

Lemma exec_release l : i = IRelease l → exec_good st i (exec st i k).
Proof using Hok Ht Ek Hni.
  destruct kont_parts as [Hnx Hk]. assert (Hh := held_ret l).
  assert (Hw := not_woken). assert (Hp := not_pending). assert (Hn := running_not_null).
  intros ->. exec_case. rewrite Hh. destruct (locks st !! l) as [x|] eqn:El; [|done]. rewrite bind_Ret.
  destruct (Z.eqb_spec (holder x) (running st)) as [Eh|Eh]; [|by exists x].
  rewrite ASSERT_true by done. destruct Hok as [Htab Hro].
  assert (H1 := conj Htab (rest_holder _ _ st l NULL x Hro El)).
  change (mid_ok (λ l', 0 - at_lock (LockSem l) l' (b2z (negb (NULL =? NULL))
    - b2z (negb (holder x =? NULL)))) (λ _, 0) (set_holder st l NULL)) in H1.
  rewrite (continue_ret _ _ _ t H1 Ht). cbn [exec_good].
  eapply mid_zero; [eapply (continue_ok _ _ _ t H1 Ht); [done| |]|..]; cbn beta.
  - cbn -[quiet_head]. by rewrite Hk, andb_true_r.
  - intros p. rewrite Ek, <- !last_unblock; done.
  - intros l'. rewrite Hp, Eh by done. rewrite (proj2 (Z.eqb_neq _ _) Hn). cbn [negb NULL Z.eqb b2z].
    unfold pendb, at_lock. cbn.
    destruct (Z.eqb_spec l l') as [->|]; [by rewrite decide_True|by rewrite decide_False by congruence].
  - intros s. rewrite Hw by done. unfold b2z. destruct (wokenb _ _); lia.
Qed.

(** No other thread sleeps on the semaphore [cond_wait] makes for the running one. *)
Lemma own_wait_sema p u k' :
  threads st !! p = Some u → status u = THREAD_BLOCKED → kont u = IDown (WaitSem (running st)) :: k' →
  False.
Proof using Hok Ht.
  intros Hu Hb E. pose proof (ro_kont _ _ _ (proj2 Hok) _ _ Hu) as H.
  case_decide; rewrite E in H; [done|]. cbn in H.
  apply andb_true_iff in H as [[[= Ep%Z.eqb_eq] _]%andb_true_iff _].
  rewrite <- Ep in Hu. pose proof (running_status _ _ _ _ Hok Ht). congruence.
Qed.

Lemma exec_cond_wait c l : i = ICondWait c l → exec_good st i (exec st i k).
Proof using Hok Ht Ek Hni.
  destruct kont_parts as [Hnx Hk]. assert (Hh := held_ret l).
  assert (Hw := not_woken). assert (Hp := not_pending). assert (Ho := own_wait_sema).
  intros ->. exec_case. rewrite Hh. destruct (locks st !! l) as [x|] eqn:El; [|by left]. rewrite bind_Ret.
  destruct (Z.eqb_spec (holder x) (running st)) as [Eh|Eh]; [|by exists x].
  rewrite ASSERT_true by done. unfold get_cond. destruct (conds st !! c) as [y|] eqn:Ec; [|by right].
  rewrite bind_Ret. set (w := WaitSem (running st)). destruct Hok as [Htab Hro].
  set (st1 := set_conds _ _). assert (H1 : mid_ok (λ _, 0) (λ _, 0) st1).
  { split; [done|]. apply (rest_cond _ _ (sema_init st w 0)).
    - by apply rest_sema_init.
    - intros w'. rewrite elem_of_app, list_elem_of_singleton. intros [Hin| ->]; [|by eexists].
      by eapply (ro_cond _ _ _ Hro). }
  rewrite (continue_ret _ _ _ t H1 Ht). cbn [exec_good].
  eapply mid_zero; [eapply (continue_ok _ _ _ t H1 Ht); [done| |]|..]; cbn beta.
  - cbn in Hnx. cbn. by rewrite Z.eqb_refl, Hnx, Hk.
  - intros p. rewrite Ek, <- !last_unblock; done.
  - intros l'. by rewrite Hp.
  - intros s. rewrite Hw by done. unfold b2z. destruct (wokenb _ _); lia.
Qed.

Lemma exec_cond_signal c l : i = ICondSignal c l → exec_good st i (exec st i k).
Proof using Hok Ht Ek Hni.
  destruct kont_parts as [Hnx Hk]. assert (Hh := held_ret l). assert (Hr := replace_ok).
  assert (Hw := not_woken). assert (Hp := not_pending).
  intros ->. exec_case. rewrite Hh. destruct (locks st !! l) as [x|] eqn:El; [|by left]. rewrite bind_Ret.
  destruct (Z.eqb_spec (holder x) (running st)) as [Eh|Eh]; [|by exists x].
  rewrite ASSERT_true by done. unfold get_cond. destruct (conds st !! c) as [y|] eqn:Ec; [|by right].
  rewrite bind_Ret. cbn in Hnx. destruct (c_waiters y) as [|w ws] eqn:Ew.
  - rewrite (continue_ret _ _ _ _ Hok Ht). cbn [exec_good]. apply Hr; [done|..].
    + intros p. by apply last_unblock.
    + intros l'. by rewrite Hp, quiet_pendb.
    + intros s. by apply Hw.
  - destruct Hok as [Htab Hro].
    destruct (ro_cond _ _ _ Hro c y w Ec) as [q ->]; [rewrite Ew; left|].
    set (st1 := set_conds _ _). assert (H1 : mid_ok (λ _, 0) (λ _, 0) st1).
    { split; [done|]. apply rest_cond; [done|]. intros w' Hin.
      eapply (ro_cond _ _ _ Hro); [exact Ec|]. rewrite Ew. by right. }
    rewrite (continue_ret _ _ _ t H1 Ht). cbn [exec_good].
    eapply mid_zero; [eapply (continue_ok _ _ _ t H1 Ht); [done| |]|..]; cbn beta.
    + cbn. by rewrite Hnx, Hk.
    + intros p. rewrite Ek, <- !last_unblock; done.
    + intros l'. by rewrite Hp.
    + intros s. rewrite Hw by done. unfold b2z. destruct (wokenb _ _); lia.
Qed.

Lemma exec_cond_broadcast c l : i = ICondBroadcast c l → exec_good st i (exec st i k).
Proof using Hok Ht Ek Hni.
  destruct kont_parts as [Hnx Hk]. assert (Hr := replace_ok).
  assert (Hw := not_woken). assert (Hp := not_pending).
  intros ->. exec_case. unfold get_cond. destruct (conds st !! c) as [y|] eqn:Ec; [|done].
  rewrite bind_Ret. cbn in Hnx.
  destruct (c_waiters y) as [|w ws]; rewrite (continue_ret _ _ _ _ Hok Ht); cbn [exec_good]; apply Hr.
  - done.
  - intros p. by apply last_unblock.
  - intros l'. by rewrite Hp, quiet_pendb.
  - intros s. by apply Hw.
  - cbn. by rewrite Hnx, Hk.
  - intros p. rewrite <- !last_unblock; done.
  - intros l'. by rewrite Hp.
  - intros s. by apply Hw.
Qed.

Lemma exec_next_tid p : i = INextTid p → exec_good st i (exec st i k).
Proof using Hok Ht Ek Hni.
  destruct kont_parts as [Hnx Hk]. assert (Hr := replace_ok k).
  assert (Hw := not_woken). assert (Hp := not_pending).
  intros ->. exec_case. rewrite (continue_ret _ _ _ _ Hok Ht), bind_Ret.
  cbn in Hnx. apply andb_true_iff in Hnx as [Hl%bool_decide_eq_true Hq].
  destruct (ro_create _ _ _ (proj2 Hok) (running st) p) as (_ & u & Hu & Hb & _).
  { exists t. rewrite Ek. split; [done|]. destruct k; [done|]. by rewrite last_cons_cons. }
  assert (running st ≠ p). { intros <-. pose proof (running_status _ _ _ _ Hok Ht). congruence. }
  unfold get_tcb. cbn [threads set_tcb set_threads]. rewrite lookup_insert_ne, Hu, bind_Ret by done.
  destruct Hr as [H1 H2]; [done| | |by intros s; apply Hw|].
  - intros q. by apply last_unblock.
  - intros l. by rewrite Hp, quiet_pendb.
  - set (st1 := set_tcb _ _ _) in H1, H2.
    assert (Hu1 : threads st1 !! p = Some u) by (cbn; by rewrite lookup_insert_ne).
    split.
    + cbn. by eapply (table_same _ _ _ _ _ p u).
    + eapply (rest_ext _ _ (set_tcb st1 p (Tcb (next_tid st) (status u) (priority u) (kont u)))); [|done..].
      by eapply rest_same.
Qed.

Lemma exec_yield : i = IYield → exec_good st i (exec st i k).
Proof using Hok Ht Ek Hni.
  destruct kont_parts as [Hnx Hk]. assert (Hr := replace_ok k).
  assert (Hw := not_woken). assert (Hp := not_pending).
  intros ->. exec_case. rewrite (continue_ret _ _ _ _ Hok Ht), bind_Ret. cbn in Hnx.
  assert (H1 : sched_ok (set_tcb st (running st) (with_kont t k))).
  { apply Hr; [done| | |by intros s; apply Hw].
    - intros q. by apply last_unblock.
    - intros l. by rewrite Hp, quiet_pendb. }
  destruct (yield_ok _ _ _ (with_kont t k) H1) as (st' & -> & _ & _ & _ & _ & H2); [|done].
  apply lookup_insert_eq.
Qed.

Lemma exec_exit : i = IExit → exec_good st i (exec st i k).
Proof using Hok Ht Ek Hni.
  destruct kont_parts as [Hnx Hk]. assert (Hr := replace_ok).
  assert (Hw := not_woken). assert (Hp := not_pending).
  intros ->. exec_case. apply bool_decide_eq_true in Hnx. subst k.
  rewrite (continue_ret _ _ _ _ Hok Ht). cbn [exec_good]. apply Hr; [done|done| |by intros s; apply Hw].
  intros l. by rewrite Hp.
Qed.

Lemma exec_die : i = IDie → exec_good st i (exec st i k).
Proof using Hok Ht Ek Hni.
  destruct kont_parts as [Hnx Hk]. assert (Hw := not_woken).
  intros ->. exec_case. apply bool_decide_eq_true in Hnx. subst k.
  unfold thread_die. rewrite (current_ret _ _ _ _ Hok Ht), bind_Ret.
  set (st1 := set_tcb _ _ _).
  destruct (leave_ok _ _ st t Hok Ht (λ _, 0) (λ _, 0) st1 (with_status t THREAD_DYING))
    as (st' & -> & _ & _ & _ & H1); try done.
  - right; right. by split_and!.
  - eapply (rest_ext _ _ (set_tcb st (running st) (with_status t THREAD_DYING))); [|done..].
    apply rest_status; [apply Hok|done| |].
    + right. by rewrite (running_status _ _ _ _ Hok Ht).
    + intros s. by rewrite Hw.
Qed.

Lemma exec_create page pr : fresh_page st i → i = ICreate page pr → exec_good st i (exec st i k).
Proof using Hok Ht Ek Hni.
  destruct kont_parts as [Hnx Hk]. assert (Hr := replace_ok).
  assert (Hw := not_woken). assert (Hp := not_pending).
  intros Hfr ->. exec_case. apply bool_decide_eq_true in Hnx. subst k.
  assert (Hs := running_status _ _ _ _ Hok Ht).
  destruct (Z.eqb_spec page NULL) as [->|Hn].
  { rewrite (continue_ret _ _ _ _ Hok Ht). cbn [exec_good]. apply Hr; [done|done| |by intros s; apply Hw].
    intros l. by rewrite Hp. }
  destruct Hfr as [|Hfr]; [done|]. unfold init_thread.
  rewrite ASSERT_true by (by destruct (Z.eqb_spec page NULL)).
  destruct (Z.leb_spec PRI_MIN pr), (Z.leb_spec pr PRI_MAX);
    try by (cbn; split; [done|]; lia).
  rewrite ASSERT_true, bind_Ret by done. cbn [tid_lock set_tcb set_threads set_all].
  assert (Hrp : page ≠ running st) by congruence. unfold continue, thread_current, get_tcb.
  cbn [threads set_tcb set_threads set_all running].
  rewrite lookup_insert_ne, Ht, bind_Ret by done.
  rewrite ASSERT_true by (by apply bool_decide_eq_true). rewrite bind_Ret. cbn [exec_good].
  set (e := Tcb 0 THREAD_BLOCKED pr []). set (k := [IAcquire _; _; _; _]).
  destruct Hok as [Htab Hro]. split; cbn.
  - apply (table_same _ _ _ _ _ _ t); [by apply table_create|by rewrite lookup_insert_ne|done].
  - eapply (rest_ext _ _ (set_tcb (set_tcb st page e) (running st) (with_kont t k))); [|done..].
    apply rest_create; try done; rewrite ?Ek, ?Hs; try done.
    + destruct (to_idle _ _ _ _ _ Htab) as (u & ? & _). by eauto.
    + cbn. by rewrite !bool_decide_true.
    + intros l. by rewrite Hp.
    + intros s. rewrite Hw by done. unfold wokenb. cbn. by rewrite Hs.
Qed.

Lemma exec_unblock p : i = IUnblock p → exec_good st i (exec st i k).
Proof using Hok Ht Ek Hni.
  destruct kont_parts as [Hnx Hk].
  intros ->. exec_case. apply bool_decide_eq_true in Hnx. subst k.
  rewrite (continue_ret _ _ _ _ Hok Ht), bind_Ret. assert (Hs := running_status _ _ _ _ Hok Ht).
  destruct (ro_create _ _ _ (proj2 Hok) (running st) p) as (Hpi & u & Hu & Hb & _).
  { exists t. by rewrite Ek. }
  assert (running st ≠ p) by congruence.
  unfold thread_unblock, get_tcb. cbn [threads set_tcb set_threads].
  rewrite lookup_insert_ne, Hu, bind_Ret by done.
  rewrite ASSERT_true by (by apply bool_decide_eq_true). cbn [exec_good].
  destruct Hok as [Htab Hro]. split; cbn.
  - eapply (table_unblock _ _ _ _ _ _ u); [|by rewrite lookup_insert_ne|done..].
    by eapply (table_same _ _ _ _ _ _ t).
  - eapply (rest_ext _ _ (set_tcb (set_tcb st (running st) (with_kont t [])) p
      (with_status u THREAD_READY))); [|done..].
    apply rest_unblock; try done. by rewrite Hs.
Qed.
End Exec.

(** One round of the idle thread. *)
Lemma exec_idle st t k :
  sched_ok st → threads st !! running st = Some t → running st = idle_thread st →
  kont t = IIdle :: k → exec_good st IIdle (exec st IIdle k).
Proof.
  intros Hok Ht Hi Ek. pose proof (ro_kont _ _ _ (proj2 Hok) _ _ Ht) as Hk.
  rewrite decide_True, Ek in Hk by done. injection Hk as ->. exec_case. unfold thread_block.
  rewrite (current_ret _ _ _ _ Hok Ht), bind_Ret.
  set (t1 := Tcb _ _ _ _). assert (Et : t1 = with_status t THREAD_BLOCKED) by (unfold t1; by rewrite <- Ek).
  destruct (leave_ok _ _ st t Hok Ht (λ _, 0) (λ _, 0) (set_tcb st (running st) t1) t1)
    as (st' & -> & _ & _ & _ & H1); try done; [by left|].
  rewrite Et. apply rest_status; [apply Hok|done|by left|].
  intros s. unfold wokenb. rewrite Ek. by destruct (status t).
Qed.

(** Any instruction keeps the invariant; it fails only when the caller broke a rule. *)
Lemma exec_ok st t i k :
  sched_ok st → threads st !! running st = Some t → kont t = i :: k → fresh_page st i →
  exec_good st i (exec st i k).
Proof.
  intros Hok Ht Ek Hf. destruct (decide (running st = idle_thread st)) as [Hi|Hi].
  { pose proof (ro_kont _ _ _ (proj2 Hok) _ _ Ht) as Hk. rewrite decide_True, Ek in Hk by done.
    injection Hk as -> ->. by eapply exec_idle. }
  destruct i; eauto using exec_down, exec_try_down, exec_up, exec_acquire, exec_try_acquire,
    exec_set_holder, exec_release, exec_cond_wait, exec_cond_signal, exec_cond_broadcast,
    exec_create, exec_next_tid, exec_unblock, exec_yield, exec_exit, exec_die.
  destruct (kont_parts _ _ _ _ Hok Ht Ek Hi). done.
Qed.

(** ** The other steps *)
Lemma ticks_ok st n a b : sched_ok st → sched_ok (set_ticks st n a b).
Proof. intros [Ht Hr]. split; [done|]. by eapply rest_ext. Qed.

(** [thread_tick]: the thread that runs goes on, or gives way after its time slice. *)
Lemma tick_ok st :
  sched_ok st → ∃ st', thread_tick st = Ret st' ∧ sched_ok st' ∧
    (let rdy := if decide (running st = idle_thread st) then ready_list st
                else ready_list st ++ [running st] in
     if thread_ticks st + 1 <? TIME_SLICE then
       running st' = running st ∧ ready_list st' = ready_list st ∧ thread_ticks st' = thread_ticks st + 1
     else thread_ticks st' = 0
       ∧ (running st' = idle_thread st ∧ rdy = [] ∧ ready_list st' = []
          ∨ rdy = running st' :: ready_list st'))
    ∧ idle_thread st' = idle_thread st ∧ initial_thread st' = initial_thread st.
Proof.
  intros Hok. destruct (to_run _ _ _ _ _ (proj1 Hok)) as (t & Ht & _). unfold thread_tick.
  rewrite (current_ret _ _ _ _ Hok Ht), bind_Ret.
  set (st1 := set_ticks _ _ _ _). assert (H1 : sched_ok st1) by by apply ticks_ok.
  destruct (Z.leb_spec TIME_SLICE (thread_ticks st + 1)), (Z.ltb_spec (thread_ticks st + 1) TIME_SLICE);
    try lia.
  - destruct (yield_ok _ _ st1 t H1 Ht) as (st' & E & ? & ? & ? & ? & ?).
    exists st'. by split_and!.
  - exists st1. by split_and!.
Qed.

Lemma call_ok st t i :
  sched_ok st → threads st !! running st = Some t → kont t = [] → client_call i →
  ∃ st', continue st [i] = Ret st' ∧ sched_ok st'.
Proof.
  intros Hok Ht Ek Hi. rewrite (continue_ret _ _ _ _ Hok Ht). eexists. split; [done|].
  eapply mid_zero; [eapply (continue_ok _ _ _ t Hok Ht)|..]; cbn beta.
  - intros E. pose proof (ro_kont _ _ _ (proj2 Hok) _ _ Ht) as Hk.
    rewrite decide_True in Hk by done. congruence.
  - by destruct i as [[]|[]|[]| | | | | | | | | | | | | |].
  - intros p. rewrite Ek. cbn. split; [|done]. intros [= ->]. done.
  - intros l. unfold pendb. rewrite Ek. by destruct i as [[]|[]|[]| | | | | | | | | | | | | |].
  - intros s. unfold wokenb at 1. rewrite Ek. unfold b2z. destruct (status t), (wokenb _ _); lia.
Qed.

(** [process_execute] initialises [temporary] each time; nobody waits on it then. *)
Lemma sema_init_ok st a v :
  sched_ok st → (∀ x, semas st !! Sem a = Some x → waiters x = []) → 0 ≤ v → sched_ok (sema_init st (Sem a) v).
Proof.
  intros [Htab Hro] Hs Hv. split; [done|]. apply rest_sema_init; try done.
  intros p t k Hp Hb Ek. destruct (ro_blocked _ _ _ Hro p t Hp Hb) as [->|[(s & k' & x & E & Hx & Hin)|[q Hq]]].
  - pose proof (ro_kont _ _ _ Hro _ _ Hp) as Hk. rewrite decide_True in Hk by done. congruence.
  - assert (s = Sem a) as -> by congruence. rewrite (Hs x Hx) in Hin. by apply elem_of_nil in Hin.
  - destruct (ro_create _ _ _ Hro _ _ Hq) as (_ & u & ? & _ & ?). congruence.
Qed.

Lemma lock_init_ok st l : sched_ok st → locks st !! l = None → sched_ok (lock_init st l).
Proof.
  intros [Htab [H1 H2 H3 H4 H5 H6 H7 H8 H9 H10]] Hl. split; [done|].
  assert (Hs : semas st !! LockSem l = None).
  { apply eq_None_not_Some. rewrite H8, Hl. by intros []. }
  assert (Hlook : ∀ s x, semas st !! s = Some x → <[LockSem l := Sema 1 []]> (semas st) !! s = Some x).
  { intros s x Hx. rewrite lookup_insert_ne; [done|]. intros <-. congruence. }
  split; cbn; try done.
  - intros s x [[<- <-]|[_ Hx]]%lookup_insert_Some; [|by eapply H1]. split; [by apply NoDup_nil|done].
  - intros s x p [[<- <-]|[_ Hx]]%lookup_insert_Some Hp; [by apply elem_of_nil in Hp|by eapply H2].
  - intros p t Hp Hb. destruct (H3 p t Hp Hb) as [|[(s & k & x & ? & ? & ?)|]]; [by left| |by right; right].
    right; left. exists s, k, x. auto.
  - intros l'. destruct (decide (l = l')) as [->|].
    + rewrite !lookup_insert_eq. by split.
    + rewrite !lookup_insert_ne by congruence. apply H8.
  - intros l'. specialize (H9 l'). unfold held, lock_value, lock_known in *. cbn.
    destruct (decide (l = l')) as [->|].
    + rewrite !lookup_insert_eq. rewrite Hl, Hs in H9. cbn. lia.
    + rewrite !lookup_insert_ne by congruence. lia.
  - intros s x [[<- <-]|[_ Hx]]%lookup_insert_Some Hw; [done|by apply H10].
Qed.

Lemma cond_init_ok st c : sched_ok st → sched_ok (cond_init st c).
Proof. intros [Ht Hr]. split; [done|]. apply rest_cond; [done|]. intros w Hw. by apply elem_of_nil in Hw. Qed.

Lemma sched_step_ok st st' : sched_ok st → sched_step st st' → sched_ok st'.
Proof.
  intros Hok Hst. inversion Hst as [? i t ? Ht Ek Hi E|? t i k ? Ht Ek Hf E|? ? E|? a v Hs Hv|? l Hl|? c Hc|? n ? E];
    subst; clear Hst.
  - destruct (call_ok st t i) as (st1 & E1 & ?); [done..|]. congruence.
  - pose proof (exec_ok _ _ _ _ Hok Ht Ek Hf) as H. by rewrite E in H.
  - destruct (tick_ok st Hok) as (st1 & E1 & ? & _). congruence.
  - by apply sema_init_ok.
  - by apply lock_init_ok.
  - by apply cond_init_ok.
  - destruct (to_run _ _ _ _ _ (proj1 Hok)) as (t & Ht & _). unfold thread_set_priority in E.
    rewrite (current_ret _ _ _ _ Hok Ht), bind_Ret in E. injection E as <-. destruct Hok as [Htab Hro].
    split; [by eapply (table_same _ _ _ _ _ _ t)|by eapply rest_same].
Qed.
