(* ===== verification/SchedQueue.v ===== *)
(** * The ready queue, step by step

    What one step does to the queue of ready threads and to the time slice: threads join
    at the back, and the one at the front leaves to run. *)
From S2P Require Import Prelude Threads SchedInv.

Definition same_queue (st st' : sched) : Prop :=
  running st' = running st ∧ ready_list st' = ready_list st ∧ thread_ticks st' = thread_ticks st.

(** The running thread goes on, or the first ready thread runs next, after some threads
    [ps] have joined the queue. *)
Definition goes_on (d : Z) (ps : list Z) (st st' : sched) : Prop :=
  running st' = running st ∧ thread_ticks st' = thread_ticks st + d
  ∧ ready_list st' = ready_list st ++ ps.
Definition switches (ps : list Z) (st st' : sched) : Prop :=
  thread_ticks st' = 0 ∧ (ready_list st ++ ps = [] ∧ ready_list st' = []
                          ∨ ready_list st ++ ps = running st' :: ready_list st').
Definition queue_rel (st st' : sched) : Prop :=
  ∃ ps, goes_on 0 ps st st' ∨ switches ps st st'.

#[export] Instance same_queue_preorder : PreOrder same_queue.
Proof.
  split; [by intros st|]. intros s1 s2 s3 (?&?&?) (?&?&?). split_and!; congruence.
Qed.

Lemma same_queue_rel st st1 st' : same_queue st st1 → queue_rel st1 st' → queue_rel st st'.
Proof.
  intros (E1 & E2 & E3) [ps H]. exists ps. unfold goes_on, switches in *.
  by rewrite E1, E2, E3 in H.
Qed.
Lemma same_queue_goes st st' : same_queue st st' → queue_rel st st'.
Proof.
  intros (E1 & E2 & E3). exists []. left. unfold goes_on. rewrite app_nil_r, Z.add_0_r. done.
Qed.

Lemma tail_queue st prev st' :
  thread_schedule_tail st prev = Ret st' →
  running st' = running st ∧ ready_list st' = ready_list st ∧ thread_ticks st' = 0.
Proof.
  unfold thread_schedule_tail. intros H. bind_inv H.
  destruct (prev =? NULL); [by injection H as <-|]. bind_inv H.
  destruct (_ && _); [|by injection H as <-]. bind_inv H. by injection H as <-.
Qed.

Lemma schedule_queue st st' : schedule st = Ret st' → switches [] st st'.
Proof.
  unfold schedule, switches, next_thread_to_run. rewrite app_nil_r. intros H.
  destruct (ready_list st) as [|p rdy] eqn:E; do 3 bind_inv H;
    destruct (running st =? _) eqn:Eq; apply tail_queue in H as (E1 & E2 & ->); (split; [done|]).
  - left. by rewrite E2.
  - left. by rewrite E2.
  - right. apply Z.eqb_eq in Eq. rewrite E1, E2. cbn. congruence.
  - right. by rewrite E1, E2.
Qed.

Lemma block_queue st k st' : thread_block st k = Ret st' → switches [] st st'.
Proof. unfold thread_block. intros H. bind_inv H. by apply schedule_queue in H. Qed.

Lemma yield_queue st st' :
  thread_yield st = Ret st' →
  switches (if running st =? idle_thread st then [] else [running st]) st st'.
Proof.
  unfold thread_yield. intros H. bind_inv H. apply schedule_queue in H. unfold switches in *.
  rewrite app_nil_r in H. destruct (_ =? _); cbn in H; by rewrite ?app_nil_r.
Qed.

Lemma die_queue st st' : thread_die st = Ret st' → switches [] st st'.
Proof. unfold thread_die. intros H. bind_inv H. by apply schedule_queue in H. Qed.

Lemma unblock_queue st p st' : thread_unblock st p = Ret st' → goes_on 0 [p] st st'.
Proof.
  unfold thread_unblock. intros H. do 2 bind_inv H. injection H as <-. unfold goes_on. cbn.
  by rewrite Z.add_0_r.
Qed.

Lemma continue_queue st k st' : continue st k = Ret st' → same_queue st st'.
Proof. unfold continue. intros H. bind_inv H. by injection H as <-. Qed.

Lemma down_queue st s k st' : sema_down st s k = Ret st' → queue_rel st st'.
Proof.
  unfold sema_down. intros H. bind_inv H. destruct (_ =? 0).
  - bind_inv H. apply block_queue in H. exists []. by right.
  - injection H as <-. by apply same_queue_goes.
Qed.

Lemma up_queue st s st' : sema_up st s = Ret st' → ∃ ps, goes_on 0 ps st st'.
Proof.
  unfold sema_up. intros H. bind_inv H. destruct (waiters v) as [|p ws].
  - injection H as <-. exists []. unfold goes_on. cbn. by rewrite Z.add_0_r, app_nil_r.
  - bind_inv H. injection H as <-. apply unblock_queue in H1. by exists [p].
Qed.

Lemma try_down_queue st s b st' : sema_try_down st s = Ret (b, st') → same_queue st st'.
Proof.
  unfold sema_try_down. intros H. by repeat case_match; simplify_eq.
Qed.

(** An instruction keeps the queue's order. *)
Lemma exec_queue st i k st' : exec st i k = Ret st' → queue_rel st st'.
Proof.
  intros H. destruct i; cbn [exec] in H;
    unfold lock_acquire, lock_try_acquire, lock_release, cond_wait, cond_signal, cond_broadcast,
      thread_create, allocate_tid, thread_exit in H.
  - bind_inv H. apply continue_queue in H0. eapply same_queue_rel; [done|]. by eapply down_queue.
  - bind_inv H. apply continue_queue in H0. bind_inv H. destruct v0 as [b st1].
    apply try_down_queue in H1. injection H as <-. apply same_queue_goes. by etrans.
  - bind_inv H. apply continue_queue in H0. eapply same_queue_rel; [done|].
    apply up_queue in H as [ps H]. exists ps. by left.
  - do 2 bind_inv H. by apply continue_queue, same_queue_goes in H.
  - do 3 bind_inv H. destruct v1 as [b st1]. apply try_down_queue in H2.
    apply continue_queue in H. apply same_queue_goes. by etrans.
  - bind_inv H. apply continue_queue in H0. injection H as <-. by apply same_queue_goes.
  - do 2 bind_inv H. by apply continue_queue, same_queue_goes in H.
  - do 3 bind_inv H. by apply continue_queue, same_queue_goes in H.
  - do 3 bind_inv H. destruct (c_waiters v1); by apply continue_queue, same_queue_goes in H.
  - bind_inv H. destruct (c_waiters v); by apply continue_queue, same_queue_goes in H.
  - destruct (page =? NULL); [by apply continue_queue, same_queue_goes in H|]. bind_inv H.
    apply continue_queue in H. unfold init_thread in H0. do 2 bind_inv H0. injection H0 as <-.
    by apply same_queue_goes in H.
  - bind_inv H. apply continue_queue in H0. bind_inv H. injection H as <-. by apply same_queue_goes.
  - bind_inv H. apply continue_queue in H0. eapply same_queue_rel; [done|].
    apply unblock_queue in H. eexists. by left.
  - bind_inv H. apply continue_queue in H0. eapply same_queue_rel; [done|].
    apply yield_queue in H. eexists. by right.
  - by apply continue_queue, same_queue_goes in H.
  - apply die_queue in H. eexists. by right.
  - apply block_queue in H. eexists. by right.
Qed.

(** The timer interrupt. *)
Lemma tick_queue st st' :
  thread_tick st = Ret st' →
  if thread_ticks st + 1 <? TIME_SLICE then goes_on 1 [] st st' else ∃ ps, switches ps st st'.
Proof.
  unfold thread_tick. intros H. bind_inv H.
  destruct (Z.leb_spec TIME_SLICE (thread_ticks st + 1)), (Z.ltb_spec (thread_ticks st + 1) TIME_SLICE);
    try lia.
  - apply yield_queue in H. by eexists.
  - injection H as <-. unfold goes_on. cbn. by rewrite app_nil_r.
Qed.

Lemma step_queue st st' :
  sched_step st st' → queue_rel st st' ∨ thread_tick st = Ret st'.
Proof.
  intros []; try by left; apply same_queue_goes.
  - left. by eapply same_queue_goes, continue_queue.
  - left. by eapply exec_queue.
  - by right.
  - left. apply same_queue_goes. unfold thread_set_priority in *. bind_inv H. by injection H as <-.
Qed.

(** ** Waiting in the queue *)
Definition slice_ok (st : sched) : Prop := 0 ≤ thread_ticks st < TIME_SLICE.

Lemma queue_slice st st' : slice_ok st → queue_rel st st' → slice_ok st'.
Proof.
  intros Hs (ps & [(_ & E & _)|[E _]]); unfold slice_ok, TIME_SLICE in *; lia.
Qed.
Lemma tick_slice st st' : slice_ok st → thread_tick st = Ret st' → slice_ok st'.
Proof.
  intros Hs H%tick_queue. unfold slice_ok in *.
  destruct (Z.ltb_spec (thread_ticks st + 1) TIME_SLICE).
  - destruct H as (_ & -> & _). lia.
  - destruct H as [ps [-> _]]. unfold TIME_SLICE. lia.
Qed.
Lemma step_slice st st' : slice_ok st → sched_step st st' → slice_ok st'.
Proof. intros Hs [H|H]%step_queue; [by eapply queue_slice|by eapply tick_slice]. Qed.

(** What the thread at place [k] of the queue still waits, in timer ticks. *)
Definition wait_left (k : nat) (st : sched) : Z := TIME_SLICE * Z.of_nat k - thread_ticks st.

Lemma queue_place st st' ps p k :
  ready_list st !! k = Some p → running st' ≠ p →
  switches ps st st' → ∃ k', k = S k' ∧ ready_list st' !! k' = Some p.
Proof.
  intros Hk Hr [_ [[E _]|E]].
  - apply app_eq_nil in E as [E _]. by rewrite E in Hk.
  - apply (lookup_app_l_Some _ ps) in Hk. rewrite E in Hk. destruct k as [|k].
    + cbn in Hk. congruence.
    + by exists k.
Qed.

Lemma queue_wait st st' p k :
  slice_ok st → ready_list st !! k = Some p → running st' ≠ p → queue_rel st st' →
  ∃ k', ready_list st' !! k' = Some p ∧ wait_left k' st' ≤ wait_left k st.
Proof.
  intros Hs Hk Hr (ps & [(_ & Et & Er)|Hsw]).
  - exists k. rewrite Er. split; [by apply lookup_app_l_Some|]. unfold wait_left. lia.
  - destruct (queue_place _ _ _ _ _ Hk Hr Hsw) as (k' & -> & ?). exists k'. split; [done|].
    destruct Hsw as [Et _]. unfold wait_left, slice_ok, TIME_SLICE in *. lia.
Qed.

Lemma tick_wait st st' p k :
  slice_ok st → ready_list st !! k = Some p → running st' ≠ p → thread_tick st = Ret st' →
  ∃ k', ready_list st' !! k' = Some p ∧ wait_left k' st' + 1 ≤ wait_left k st.
Proof.
  intros Hs Hk Hr H%tick_queue. unfold wait_left, slice_ok in *.
  destruct (Z.ltb_spec (thread_ticks st + 1) TIME_SLICE).
  - destruct H as (_ & Et & Er). exists k. rewrite Er, app_nil_r. split; [done|]. lia.
  - destruct H as [ps Hsw]. destruct (queue_place _ _ _ _ _ Hk Hr Hsw) as (k' & -> & ?).
    exists k'. split; [done|]. destruct Hsw as [Et _]. unfold TIME_SLICE in *. lia.
Qed.

(** An execution with [n] timer interrupts during which thread [p] does not run. *)
Inductive waits (p : Z) (st : sched) : nat → sched → Prop :=
| waits_refl : waits p st 0 st
| waits_step n st1 st2 :
    waits p st n st1 → sched_step st1 st2 → running st2 ≠ p → waits p st n st2
| waits_tick n st1 st2 :
    waits p st n st1 → thread_tick st1 = Ret st2 → running st2 ≠ p → waits p st (S n) st2.

Lemma waits_place p st n st' k :
  slice_ok st → ready_list st !! k = Some p → waits p st n st' →
  slice_ok st' ∧ ∃ k', ready_list st' !! k' = Some p ∧ wait_left k' st' + Z.of_nat n ≤ wait_left k st.
Proof.
  intros Hs Hk Hw. induction Hw as [|n st1 st2 _ IH Hst Hr|n st1 st2 _ IH Hst Hr].
  - split; [done|]. exists k. split; [done|lia].
  - destruct IH as (Hs1 & k1 & Hk1 & ?). split; [by eapply step_slice|].
    destruct (step_queue _ _ Hst) as [Hq|Ht].
    + destruct (queue_wait _ _ _ _ Hs1 Hk1 Hr Hq) as (k2 & ? & ?). exists k2. split; [done|lia].
    + destruct (tick_wait _ _ _ _ Hs1 Hk1 Hr Ht) as (k2 & ? & ?). exists k2. split; [done|lia].
  - destruct IH as (Hs1 & k1 & Hk1 & ?). split; [by eapply tick_slice|].
    destruct (tick_wait _ _ _ _ Hs1 Hk1 Hr Hst) as (k2 & ? & ?). exists k2. split; [done|lia].
Qed.
