(* ===== verification/SchedBoot.v ===== *)
(** * Booting the scheduler

    [thread_init] and [thread_start] leave the initial thread running and the idle thread
    asleep, in a state that satisfies the scheduler's invariant. *)
From S2P Require Import Prelude Threads SchedInv.

(** The kernel after [thread_init] and [thread_start]. *)
Definition boot (main idle tl a : Z) : res sched :=
  st ← thread_init main tl; thread_start st a idle.

Section Boot.
Context (main idle tl a : Z) (Hm : main ≠ NULL) (Hi : idle ≠ NULL) (Hne : main ≠ idle).

(** One step of [run] on an explicit state. *)
Lemma run_step st t i k n :
  threads st !! running st = Some t → status t = THREAD_RUNNING → kont t = i :: k →
  run (S n) st = (st ← exec st i k; run n st).
Proof.
  intros Ht Hs Ek. cbn [run]. unfold thread_current, get_tcb. rewrite Ht, bind_Ret.
  by rewrite ASSERT_true, bind_Ret, Ek by (by apply bool_decide_eq_true).
Qed.
Lemma run_done st t n :
  threads st !! running st = Some t → status t = THREAD_RUNNING → kont t = [] → run n st = Ret st.
Proof.
  intros Ht Hs Ek. destruct n; cbn [run]; unfold thread_current, get_tcb; rewrite Ht, bind_Ret;
    by rewrite ASSERT_true, bind_Ret, Ek by (by apply bool_decide_eq_true).
Qed.

Lemma insert_under {K A} `{Countable K} (m : gmap K A) i j x y z :
  i ≠ j → <[i := x]> (<[j := y]> (<[i := z]> m)) = <[i := x]> (<[j := y]> m).
Proof. intros. by rewrite (insert_insert_ne m j i), insert_insert_eq. Qed.

Local Ltac maps :=
  repeat first
    [ rewrite bind_Ret
    | rewrite bool_decide_false by done | progress change (1 =? 0) with false | progress change (0 =? 0) with true
    | progress change (u32 (0 + 1)) with 1 | progress change (1 - 1) with 0
    | progress change (1 + 1) with 2 | progress change (2 + 1) with 3
    | rewrite ASSERT_true by (done || by apply bool_decide_eq_true || by apply negb_true_iff, bool_decide_eq_false)
    | rewrite lookup_insert_eq
    | rewrite lookup_insert_ne by (done || congruence)
    | rewrite insert_insert_eq
    | rewrite (proj2 (Z.eqb_neq main NULL)) by done | rewrite (proj2 (Z.eqb_neq idle NULL)) by done
    | rewrite (proj2 (Z.eqb_neq NULL main)) by done | rewrite (proj2 (Z.eqb_neq NULL idle)) by done
    | rewrite (proj2 (Z.eqb_neq main idle)) by done | rewrite (proj2 (Z.eqb_neq idle main)) by done
    | rewrite Z.eqb_refl
    | progress cbn -[lookup insert run NULL Z.eqb u32 Z.add Z.sub thread_start
      schedule thread_schedule_tail thread_block thread_unblock sema_down sema_up] ].
Local Ltac ops :=
  first [ progress unfold continue, thread_current, get_tcb, get_sema, get_lock, lock_held_by_current_thread
        | progress unfold lock_acquire, lock_release, thread_create, allocate_tid, init_thread | progress unfold sema_down, sema_up
        | progress unfold thread_block, thread_unblock | progress unfold schedule, next_thread_to_run
        | progress unfold thread_schedule_tail ].
Local Ltac norm :=
  unfold set_tcb, set_sema, set_threads, set_semas, set_ready, set_running, set_all,
    set_ticks, set_locks, set_holder, set_next_tid, with_kont, with_status, lock_init, sema_init;
  cbn -[lookup insert run NULL Z.eqb u32 Z.add Z.sub thread_start
      schedule thread_schedule_tail thread_block thread_unblock sema_down sema_up]; rewrite ?insert_insert_eq;
  repeat rewrite insert_under by (done || congruence).
Local Ltac step1 :=
  first [ erewrite run_step; [|maps; reflexivity|reflexivity|reflexivity]
        | erewrite run_done; [|maps; reflexivity|reflexivity|reflexivity] ];
  cbn [exec]; maps; repeat (ops; maps; norm).

Definition main_tcb : tcb := Tcb 1 THREAD_RUNNING PRI_DEFAULT [].
Lemma init_ret : thread_init main tl =
  Ret (Sched (<[main := main_tcb]> ∅) main [] [main] NULL main tl 2 0 0 0
         (<[LockSem tl := Sema 1 []]> ∅) (<[tl := Lock NULL]> ∅) ∅).
Proof using Hm. unfold thread_init. repeat (ops; maps; norm). do 7 step1. done. Qed.

(** The initial thread runs its own code and the idle thread sleeps. *)
Definition booted : sched :=
  Sched (<[main := main_tcb]> (<[idle := Tcb 2 THREAD_BLOCKED PRI_MIN [IIdle]]> ∅))
    main [] [main; idle] idle main tl 3 0 0 0
    (<[Sem a := Sema 0 []]> (<[LockSem tl := Sema 1 []]> ∅)) (<[tl := Lock NULL]> ∅) ∅.

Lemma boot_ret : boot main idle tl a = Ret booted.
Proof using Hm Hi Hne.
  unfold boot. rewrite init_ret, bind_Ret. unfold thread_start. repeat (ops; maps; norm).
  do 10 step1. unfold Threads.idle. repeat (ops; maps; norm). do 4 step1. done.
Qed.

Lemma booted_ok : sched_ok booted.
Proof using Hm Hi Hne.
  assert (Hl : ∀ p t, threads booted !! p = Some t →
    p = main ∧ t = main_tcb ∨ p = idle ∧ t = Tcb 2 THREAD_BLOCKED PRI_MIN [IIdle]).
  { intros p t. cbn. intros [[<- <-]|[_ [[<- <-]|[_ H]]%lookup_insert_Some]]%lookup_insert_Some;
      [by left|by right|]. by rewrite lookup_empty in H. }
  assert (Hs : ∀ s x, semas booted !! s = Some x → waiters x = [] ∧ 0 ≤ s_value x).
  { intros p t. cbn. intros [[<- <-]|[_ [[<- <-]|[_ H]]%lookup_insert_Some]]%lookup_insert_Some;
      [done|done|]. by rewrite lookup_empty in H. }
  assert (Hcr : ∀ q p, ¬ creates (threads booted) q p).
  { intros q p (t & [[_ ->]|[_ ->]]%Hl & ?); done. }
  split; split.
  - exists main_tcb. split; [cbn; by rewrite lookup_insert_eq|done].
  - intros p t [[-> ->]|[-> ->]]%Hl; done.
  - by apply NoDup_nil.
  - intros p. split; [by intros ?%elem_of_nil|]. intros (t & [[_ ->]|[-> _]]%Hl & ? & ?); done.
  - cbn. by rewrite !lookup_insert_ne.
  - eexists. split; [cbn; by rewrite lookup_insert_ne, lookup_insert_eq|done].
  - intros p t [[-> ->]|[-> ->]]%Hl; done.
  - intros s x [-> ?]%Hs. split; [by apply NoDup_nil|done].
  - intros s x p [-> ?]%Hs ?%elem_of_nil. done.
  - intros p t [[-> ->]|[-> ->]]%Hl; [done|by left].
  - by intros q p ?%Hcr.
  - by intros q q' p ?%Hcr.
  - intros p t [[-> ->]|[-> ->]]%Hl; [by rewrite decide_False|by rewrite decide_True].
  - intros c x w. cbn. by rewrite lookup_empty.
  - intros l. cbn. destruct (decide (tl = l)) as [->|].
    + rewrite lookup_insert_ne, !lookup_insert_eq by done. by split.
    + rewrite !lookup_insert_ne, !lookup_empty by congruence. done.
  - intros l. rewrite count_zero by (intros p t [[_ ->]|[_ ->]]%Hl; done).
    unfold held, lock_value, lock_known. cbn. destruct (decide (tl = l)) as [->|].
    + rewrite lookup_insert_eq. by rewrite lookup_insert_ne, lookup_insert_eq by done.
    + by rewrite !lookup_insert_ne, !lookup_empty by congruence.
  - intros s x [-> _]%Hs. done.
Qed.
End Boot.

