(* ===== verification/SchedTheorems.v ===== *)
(** * What the scheduler guarantees

    From the boot of the kernel through any interleaving of thread operations and timer
    interrupts. *)
From S2P Require Import Prelude Threads SchedInv SchedSteps SchedQueue SchedBoot.

(** ** Executions *)
Definition reachable (main idle tl a : Z) (st : sched) : Prop :=
  ∃ st0, boot main idle tl a = Ret st0 ∧ rtc sched_step st0 st.

(** What may happen next, for running a concrete execution. *)
Inductive act := ACall (i : instr) | AExec | ATick | ALockInit (l : Z) | ASemaInit (a v : Z) | ACondInit (c : Z).

Definition is_client_call (i : instr) : bool :=
  match i with
  | IDown (Sem _) | ITryDown (Sem _) | IUp (Sem _) => true
  | IAcquire _ | ITryAcquire _ | IRelease _ | ICondWait _ _ | ICondSignal _ _ | ICondBroadcast _ _ => true
  | ICreate _ _ | IYield | IExit => true
  | _ => false
  end.
Definition is_fresh (st : sched) (i : instr) : bool :=
  match i with
  | ICreate page _ => (page =? NULL) || match threads st !! page with None => true | Some _ => false end
  | _ => true
  end.

Definition perform (st : sched) (x : act) : sched :=
  match threads st !! running st with
  | None => st
  | Some t =>
    match x with
    | ACall i =>
      match kont t, continue st [i] with
      | [], Ret st' => if is_client_call i then st' else st
      | _, _ => st
      end
    | AExec =>
      match kont t with
      | i :: k => match exec st i k with Ret st' => if is_fresh st i then st' else st | _ => st end
      | [] => st
      end
    | ATick => match thread_tick st with Ret st' => st' | _ => st end
    | ALockInit l => match locks st !! l with None => lock_init st l | Some _ => st end
    | ASemaInit a v => match semas st !! Sem a with
                       | None => if 0 <=? v then sema_init st (Sem a) v else st | Some _ => st end
    | ACondInit c => match conds st !! c with None => cond_init st c | Some _ => st end
    end
  end.

Lemma perform_step st x : rtc sched_step st (perform st x).
Proof.
  unfold perform. destruct (threads st !! running st) as [t|] eqn:Ht; [|done].
  destruct x as [i| | |l|a v|c].
  - destruct (kont t) eqn:Ek; [|done]. destruct (continue st [i]) eqn:E; try done.
    destruct (is_client_call i) eqn:Ei; [|done]. apply rtc_once. eapply step_call; try done.
    by destruct i as [[]|[]|[]| | | | | | | | | | | | | |].
  - destruct (kont t) as [|i k] eqn:Ek; [done|]. destruct (exec st i k) eqn:E; try done.
    destruct (is_fresh st i) eqn:Ei; [|done]. apply rtc_once. eapply step_exec; try done.
    destruct i; try done. cbn in *. destruct (Z.eqb_spec page NULL); [by left|right].
    by destruct (threads st !! page).
  - destruct (thread_tick st) eqn:E; try done. apply rtc_once. by apply step_tick.
  - destruct (locks st !! l) eqn:E; [done|]. apply rtc_once. by apply step_lock_init.
  - destruct (semas st !! Sem a) eqn:E; [done|]. destruct (Z.leb_spec 0 v); [|done].
    apply rtc_once. apply step_sema_init; [intros x Hx; congruence|done].
  - destruct (conds st !! c) eqn:E; [done|]. apply rtc_once. by apply step_cond_init.
Qed.

Lemma script_steps st xs : rtc sched_step st (fold_left perform xs st).
Proof.
  revert st. induction xs as [|x xs IH]; intros st; [done|]. cbn. etrans; [apply perform_step|apply IH].
Qed.

Section Guarantees.
Context (main idle tl a : Z) (Hm : main ≠ NULL) (Hi : idle ≠ NULL) (Hne : main ≠ idle).
Context (st : sched) (Hst : reachable main idle tl a st).

Lemma reachable_ok : sched_ok st ∧ slice_ok st.
Proof using Hm Hi Hne Hst.
  destruct Hst as (st0 & E & Hrtc). rewrite (boot_ret _ _ _ _ Hm Hi Hne) in E. injection E as <-.
  assert (H : sched_ok (booted main idle tl a) ∧ slice_ok (booted main idle tl a)).
  { split; [by apply booted_ok|]. unfold slice_ok, TIME_SLICE. cbn. lia. }
  clear Hst. induction Hrtc as [|x y z Hxy _ IH]; [done|]. apply IH.
  destruct H. split; [by eapply sched_step_ok|by eapply step_slice].
Qed.
End Guarantees.


(** C16: In a reachable state the timer interrupt always succeeds, and the running thread's
    next instruction succeeds too, with three exceptions.  An assertion fails when the caller
    violates it by itself: acquiring a lock it holds, releasing, waiting or signalling
    without the lock, or creating a thread with a priority out of range.  An assertion fails
    when [temporary] is upped or downed before any [process_execute] has initialised it,
    which is what the exit of a thread does then.  And there is no outcome for an operation
    on any other semaphore, lock or condition variable that nobody has initialised.  (The page
    of a new thread is one that no thread has.) *)
Theorem sched_safe main idle tl a st :
  main ≠ NULL → idle ≠ NULL → main ≠ idle → reachable main idle tl a st →
  (∃ st', thread_tick st = Ret st')
  ∧ ∀ t i k, threads st !! running st = Some t → kont t = i :: k → fresh_page st i →
      match exec st i k with
      | Ret _ => True
      | Panic => misuse st i
      | Stuck => unknown st i
      end.
Proof.
  intros Hm Hi Hne Hst. destruct (reachable_ok _ _ _ _ Hm Hi Hne _ Hst) as [Hok _]. split.
  - destruct (tick_ok st Hok) as (st' & E & _). by exists st'.
  - intros t i k Ht Ek Hf. pose proof (exec_ok st t i k Hok Ht Ek Hf) as H. by destruct (exec st i k).
Qed.

(** A thread that exits before the first [process_execute] stops the kernel: the initial
    thread here, as it does when the command line names nothing to run. *)
Definition exiting : sched := fold_left perform [ACall IExit; AExec] (booted 100 200 5 7).
Lemma exit_before_execute :
  reachable 100 200 5 7 exiting
  ∧ (kont <$> threads exiting !! running exiting) = Some [IUp temporary; IDie]
  ∧ exec exiting (IUp temporary) [IDie] = Panic.
Proof.
  split; [|vm_compute; split; reflexivity].
  exists (booted 100 200 5 7). split; [by apply boot_ret|apply script_steps].
Qed.

(** C13: Mutual exclusion.  In every reachable state each lock is in one of three states:
    free, its semaphore at one and nobody taking or giving it back; held by one thread,
    its semaphore at zero; or in transit, taken or given back by exactly one thread that
    has not yet recorded itself as the holder or not yet upped the semaphore. *)
Theorem mutual_exclusion main idle tl a st l x :
  main ≠ NULL → idle ≠ NULL → main ≠ idle → reachable main idle tl a st →
  locks st !! l = Some x →
  ∃ s, semas st !! LockSem l = Some s ∧
    (s_value s = 1 ∧ holder x = NULL ∧ (∀ p t, threads st !! p = Some t → pendb l t = false)
     ∨ s_value s = 0 ∧ holder x ≠ NULL ∧ (∀ p t, threads st !! p = Some t → pendb l t = false)
     ∨ s_value s = 0 ∧ holder x = NULL ∧
         ∃ p t, threads st !! p = Some t ∧ pendb l t = true
           ∧ ∀ q u, threads st !! q = Some u → pendb l u = true → q = p).
Proof.
  intros Hm Hi Hne Hst Hl. destruct (reachable_ok _ _ _ _ Hm Hi Hne _ Hst) as [[_ Hro] _].
  destruct (proj2 (ro_locksem _ _ _ Hro l) ltac:(by eauto)) as [s Hs]. exists s. split; [done|].
  pose proof (ro_lock _ _ _ Hro l) as E. unfold held, lock_value, lock_known in E. rewrite Hl, Hs in E.
  pose proof (count_nonneg (pendb l) (threads st)).
  destruct (ro_sema _ _ _ Hro _ _ Hs) as [_ Hv].
  assert (Hnone : count (pendb l) (threads st) = 0 → ∀ p t, threads st !! p = Some t → pendb l t = false).
  { intros E0 p t Hp. destruct (pendb l t) eqn:Hpd; [|done].
    pose proof (count_pos (pendb l) _ _ _ Hp Hpd). lia. }
  destruct (Z.eqb_spec (holder x) NULL) as [Eh|Eh].
  - destruct (decide (s_value s = 1)) as [Ev|Ev].
    + left. split_and!; [done..|]. apply Hnone. lia.
    + right; right. split_and!; [lia|done|].
      destruct (count_exists (pendb l) (threads st)) as (p & t & Hp & Hpt); [lia|].
      exists p, t. split_and!; [done..|]. intros q u Hq Hqu.
      eapply (count_one (pendb l)); [|done..]. lia.
  - right; left. split_and!; [lia|done|]. apply Hnone. lia.
Qed.

(** C15: No wake-up is lost.  In every reachable state, when a semaphore has waiters and a
    positive value, some thread that can run is about to retry [sema_down] on it. *)
Theorem no_lost_wakeup main idle tl a st s x :
  main ≠ NULL → idle ≠ NULL → main ≠ idle → reachable main idle tl a st →
  semas st !! s = Some x → waiters x ≠ [] → 0 < s_value x →
  ∃ p t k, threads st !! p = Some t ∧ (status t = THREAD_RUNNING ∨ status t = THREAD_READY)
    ∧ kont t = IDown s :: k.
Proof.
  intros Hm Hi Hne Hst Hs Hw Hv. destruct (reachable_ok _ _ _ _ Hm Hi Hne _ Hst) as [[_ Hro] _].
  pose proof (ro_wake _ _ _ Hro s x Hs Hw) as Hc. cbn beta in Hc.
  destruct (count_exists (wokenb s) (threads st)) as (p & t & Hp & Hwk); [lia|].
  exists p, t. unfold wokenb in Hwk. destruct (status t) eqn:Es, (kont t) as [|[] k] eqn:Ek; try done;
    apply bool_decide_eq_true in Hwk; subst; exists k; auto.
Qed.

(** C14: Bounded waiting.  A thread at place [k] of the ready list (counted from zero) is
    given the processor before [4 * (k + 1)] timer ticks have passed: no execution in which
    it does not run has that many. *)
Theorem bounded_waiting main idle tl a st p k n st' :
  main ≠ NULL → idle ≠ NULL → main ≠ idle → reachable main idle tl a st →
  ready_list st !! k = Some p → waits p st n st' → Z.of_nat n < TIME_SLICE * (Z.of_nat k + 1).
Proof.
  intros Hm Hi Hne Hst Hk Hw. destruct (reachable_ok _ _ _ _ Hm Hi Hne _ Hst) as [_ Hs].
  destruct (waits_place _ _ _ _ _ Hs Hk Hw) as (Hs' & k' & _ & H). unfold wait_left, slice_ok, TIME_SLICE in *. lia.
Qed.

(** ** A concrete execution

    The initial thread takes a lock; two others sleep on it. *)
Definition demo_boot : sched := booted 100 200 5 7.
Definition demo_ready : sched :=
  fold_left perform
    ([ACall (ICreate 300 31)] ++ replicate 8 AExec ++ [ACall (ICreate 400 31)] ++ replicate 8 AExec
     ++ [ALockInit 9; ACall (IAcquire 9); AExec; AExec; AExec]) demo_boot.
Definition demo_waiting : sched :=
  fold_left perform
    ([ACall IYield; AExec; ACall (IAcquire 9); AExec; AExec; ACall (IAcquire 9); AExec; AExec]) demo_ready.
(** The initial thread has released the lock and both halves of the release are done. *)
Definition demo_woken : sched :=
  fold_left perform [ACall (IRelease 9); AExec; AExec] demo_waiting.

Lemma demo_reachable xs : reachable 100 200 5 7 (fold_left perform xs demo_boot).
Proof. exists demo_boot. split; [by apply boot_ret|apply script_steps]. Qed.
Lemma demo_ready_reachable : reachable 100 200 5 7 demo_ready.
Proof. apply demo_reachable. Qed.
Lemma demo_waiting_reachable : reachable 100 200 5 7 demo_waiting.
Proof. unfold demo_waiting, demo_ready. rewrite <- fold_left_app. apply demo_reachable. Qed.
Lemma demo_woken_reachable : reachable 100 200 5 7 demo_woken.
Proof. unfold demo_woken, demo_waiting, demo_ready. rewrite <- !fold_left_app. apply demo_reachable. Qed.


Lemma sched_safe_witness :
  running demo_woken = 100 ∧ ∃ st', thread_tick demo_woken = Ret st'.
Proof.
  pose proof (sched_safe 100 200 5 7 demo_woken ltac:(done) ltac:(done) ltac:(done)
    demo_woken_reachable) as (H & _).
  split; [vm_compute; reflexivity|exact H].
Defined.

Lemma mutual_exclusion_witness :
  locks demo_waiting !! 9 = Some (Lock 100) ∧
  ∃ s, semas demo_waiting !! LockSem 9 = Some s ∧ s_value s = 0.
Proof.
  assert (E : locks demo_waiting !! 9 = Some (Lock 100)) by (vm_compute; reflexivity).
  pose proof (mutual_exclusion 100 200 5 7 demo_waiting 9 (Lock 100) ltac:(done) ltac:(done) ltac:(done)
    demo_waiting_reachable E) as (s & Hs & H).
  split; [exact E|]. exists s. split; [exact Hs|].
  destruct H as [(_ & H & _)|[(H & _)|(H & _)]]; [discriminate H|exact H|exact H].
Defined.

Lemma no_lost_wakeup_witness :
  semas demo_woken !! LockSem 9 = Some (Sema 1 [400]) ∧
  ∃ p t k, threads demo_woken !! p = Some t
    ∧ (status t = THREAD_RUNNING ∨ status t = THREAD_READY) ∧ kont t = IDown (LockSem 9) :: k.
Proof.
  assert (E : semas demo_woken !! LockSem 9 = Some (Sema 1 [400])) by (vm_compute; reflexivity).
  split; [exact E|].
  apply (no_lost_wakeup 100 200 5 7 demo_woken (LockSem 9) (Sema 1 [400]) ltac:(done) ltac:(done) ltac:(done)
    demo_woken_reachable E); done.
Defined.

Definition demo_later : sched := fold_left perform (replicate 4 ATick) demo_ready.

Lemma tick_waits p st n st1 :
  waits p st n st1 → (∃ st2, thread_tick st1 = Ret st2) → running (perform st1 ATick) ≠ p →
  is_Some (threads st1 !! running st1) → waits p st (S n) (perform st1 ATick).
Proof.
  intros Hw [st2 E] Hr [t Ht]. unfold perform in *. rewrite Ht, E in *. by eapply waits_tick.
Qed.

(** The third thread waits behind one other: four ticks of the first slice pass, so at
    most three more may. *)
Lemma bounded_waiting_witness :
  ready_list demo_ready !! 1%nat = Some 400 ∧ waits 400 demo_ready 4 demo_later
  ∧ Z.of_nat 4 < TIME_SLICE * (Z.of_nat 1 + 1).
Proof.
  assert (E : ready_list demo_ready !! 1%nat = Some 400) by (vm_compute; reflexivity).
  assert (Hw : waits 400 demo_ready 4 demo_later).
  { unfold demo_later. cbn [replicate fold_left].
    do 4 (apply tick_waits; [|eexists; vm_compute; reflexivity|vm_compute; discriminate
           |eexists; vm_compute; reflexivity]).
    apply waits_refl. }
  split_and!; [exact E|exact Hw|].
  exact (bounded_waiting 100 200 5 7 demo_ready 400 1 4 demo_later ltac:(done) ltac:(done) ltac:(done)
    demo_ready_reachable E Hw).
Defined.
