(* ===== verification/Process.v ===== *)
(** * Loading and ending processes (userprog/process.c)

    The ELF loader reads an executable through the file system into pages of the user
    pool, maps them, and puts the heap after the segment it loaded last; [process_exit]
    gives the address space back. *)
From S2P Require Import Prelude Mem Bitmap Vaddr Palloc Pagedir UserPages Sbrk Inode Directory.

(** The kernel and the file system as the running thread sees them. *)
Record sys := Sys { sp : proc; sf : fs }.

Definition set_pagedir (t : thread) (pd : Z) : thread :=
  Thread pd (heap_start t) (heap_break t) (open_file t) (in_syscall t).
Definition set_heap (t : thread) (a : Z) : thread :=
  Thread (pagedir t) a a (open_file t) (in_syscall t).

(** ** ELF structures, little-endian in the file *)
Definition byte_at (bs : list Z) (o : nat) : Z := default 0 (bs !! o).
Definition half_at (bs : list Z) (o : nat) : Z := byte_at bs o + 256 * byte_at bs (S o).
Definition word_at (bs : list Z) (o : nat) : Z := half_at bs o + 65536 * half_at bs (S (S o)).

Record Elf32_Ehdr := Ehdr {
  e_ident : list Z; e_type : Z; e_machine : Z; e_version : Z; e_entry : Z; e_phoff : Z;
  e_phentsize : Z; e_phnum : Z;
}.
Record Elf32_Phdr := Phdr {
  p_type : Z; p_offset : Z; p_vaddr : Z; p_filesz : Z; p_memsz : Z; p_flags : Z;
}.
Definition EHDR_SIZE : Z := 52.
Definition PHDR_SIZE : Z := 32.
Definition read_ehdr (bs : list Z) : Elf32_Ehdr :=
  Ehdr (take 16 bs) (half_at bs 16) (half_at bs 18) (word_at bs 20) (word_at bs 24)
    (word_at bs 28) (half_at bs 42) (half_at bs 44).
Definition read_phdr (bs : list Z) : Elf32_Phdr :=
  Phdr (word_at bs 0) (word_at bs 4) (word_at bs 8) (word_at bs 16) (word_at bs 20) (word_at bs 24).

Definition PT_NULL : Z := 0.
Definition PT_LOAD : Z := 1.
Definition PT_DYNAMIC : Z := 2.
Definition PT_INTERP : Z := 3.
Definition PT_NOTE : Z := 4.
Definition PT_SHLIB : Z := 5.
Definition PT_PHDR : Z := 6.
Definition PT_STACK : Z := 1685382481.
(** [PF_W] of process.c, which is not that of userprog/exception.h. *)
Definition PF_WRITE : Z := 2.

(** The first seven bytes: "\177ELF\1\1\1". *)
Definition ELF_MAGIC : list Z := [127; 69; 76; 70; 1; 1; 1].

(** ** Segments *)
Definition validate_segment (ph : Elf32_Phdr) (file_length : Z) : bool :=
  if negb (Z.land (p_offset ph) PGMASK =? Z.land (p_vaddr ph) PGMASK) then false
  else if u32 file_length <? p_offset ph then false
  else if p_memsz ph <? p_filesz ph then false
  else if p_memsz ph =? 0 then false
  else if negb (is_user_vaddr (p_vaddr ph)) then false
  else if negb (is_user_vaddr (u32 (p_vaddr ph + p_memsz ph))) then false
  else if u32 (p_vaddr ph + p_memsz ph) <? p_vaddr ph then false
  else if p_vaddr ph <? PGSIZE then false
  else true.

(** What [load] computes from a valid header: the offset of the first page in the file,
    the address of the first page, and the bytes to read and to zero. *)
Definition segment_file_page (ph : Elf32_Phdr) : Z := s32 (Z.land (p_offset ph) (u32 (Z.lnot PGMASK))).
Definition segment_mem_page (ph : Elf32_Phdr) : Z := Z.land (p_vaddr ph) (u32 (Z.lnot PGMASK)).
Definition segment_bytes (ph : Elf32_Phdr) : Z * Z :=
  let page_offset := Z.land (p_vaddr ph) PGMASK in
  if 0 <? p_filesz ph then
    let read_bytes := u32 (page_offset + p_filesz ph) in
    (read_bytes, u32 (ROUND_UP (u32 (page_offset + p_memsz ph)) PGSIZE - read_bytes))
  else (0, ROUND_UP (u32 (page_offset + p_memsz ph)) PGSIZE).

Section Process.
Context (init_page_dir init_ram_pages : Z).

Definition process_activate (p : proc) : res proc :=
  k ← pagedir_activate init_page_dir (pk p) (pagedir (cur p));
  Ret (Proc k (cur p)).

(** [process_exit] up to the [sema_up] of [temporary]. *)
Definition process_exit (p : proc) : res proc :=
  let pd := pagedir (cur p) in
  if negb (pd =? NULL) then
    let t := set_pagedir (cur p) NULL in
    k ← pagedir_activate init_page_dir (pk p) NULL;
    k ← pagedir_destroy init_page_dir k pd;
    Ret (Proc k t)
  else Ret p.

Definition install_page (p : proc) (upage kpage : Z) (writable : bool) : res (bool * proc) :=
  let t := cur p in
  a ← pagedir_get_page (pk p) (pagedir t) upage;
  if a =? NULL then
    '(ok, k) ← pagedir_set_page init_page_dir init_ram_pages (pk p) (pagedir t) upage kpage writable;
    Ret (ok, Proc k t)
  else Ret (false, p).

(** The stack pointer on success. *)
Definition setup_stack (p : proc) : res (option Z * proc) :=
  '(kpage, s) ← palloc_get_page (ks (pk p)) (Z.lor PAL_USER PAL_ZERO);
  let p := Proc (with_ks (pk p) s) (cur p) in
  if negb (kpage =? NULL) then
    '(success, p) ← install_page p (PHYS_BASE - PGSIZE) kpage true;
    if success : bool then Ret (Some (PHYS_BASE - 20), p)
    else
      s ← palloc_free_page (ks (pk p)) kpage;
      Ret (None, Proc (with_ks (pk p) s) (cur p))
  else Ret (None, p).

(** One page: get a frame, fill it from the file and with zeros, and map it. *)
Definition load_page (s : sys) (file upage page_read_bytes : Z) (writable : bool) : res (bool * sys) :=
  let page_zero_bytes := u32 (PGSIZE - page_read_bytes) in
  '(kpage, ps) ← palloc_get_page (ks (pk (sp s))) PAL_USER;
  let p := Proc (with_ks (pk (sp s)) ps) (cur (sp s)) in
  if kpage =? NULL then Ret (false, Sys p (sf s)) else
  '(bs, f) ← file_read (sf s) file (s32 page_read_bytes);
  let k := with_ks (pk p) (set_pmem (ks (pk p)) (write_bytes (kmem (pk p)) kpage bs)) in
  if negb (Z.of_nat (length bs) =? s32 page_read_bytes) then
    ps ← palloc_free_page (ks k) kpage;
    Ret (false, Sys (Proc (with_ks k ps) (cur p)) f)
  else
    '(_, m) ← memset (kmem k) (u32 (kpage + page_read_bytes)) 0 page_zero_bytes;
    let k := with_ks k (set_pmem (ks k) m) in
    '(ok, p) ← install_page (Proc k (cur p)) upage kpage writable;
    if negb ok then
      ps ← palloc_free_page (ks (pk p)) kpage;
      Ret (false, Sys (Proc (with_ks (pk p) ps) (cur p)) f)
    else Ret (true, Sys p f).

Fixpoint load_loop (fuel : nat) (s : sys) (file upage read_bytes zero_bytes : Z) (writable : bool)
    : res (bool * sys) :=
  match fuel with
  | O => Stuck
  | S fuel =>
    if (0 <? read_bytes) || (0 <? zero_bytes) then
      let page_read_bytes := if read_bytes <? PGSIZE then read_bytes else PGSIZE in
      let page_zero_bytes := u32 (PGSIZE - page_read_bytes) in
      '(ok, s) ← load_page s file upage page_read_bytes writable;
      if negb ok then Ret (false, s) else
      load_loop fuel s file (u32 (upage + PGSIZE)) (u32 (read_bytes - page_read_bytes))
        (u32 (zero_bytes - page_zero_bytes)) writable
    else Ret (true, s)
  end.

(** The loop handles a page a round. *)
Definition segment_fuel (read_bytes zero_bytes : Z) : nat :=
  Z.to_nat ((read_bytes + zero_bytes) / PGSIZE + 1).

Definition load_segment (s : sys) (file ofs upage read_bytes zero_bytes : Z) (writable : bool)
    : res (bool * sys) :=
  ASSERT (Z.rem (u32 (read_bytes + zero_bytes)) PGSIZE =? 0);;
  ASSERT (pg_ofs upage =? 0);;
  ASSERT (Z.rem ofs PGSIZE =? 0);;
  f ← file_seek (sf s) file ofs;
  load_loop (segment_fuel read_bytes zero_bytes) (Sys (sp s) f) file upage read_bytes zero_bytes writable.

(** ** The loader *)
Definition header_ok (bs : list Z) : bool :=
  let h := read_ehdr bs in
  (Z.of_nat (length bs) =? EHDR_SIZE) && bool_decide (take 7 (e_ident h) = ELF_MAGIC)
  && (e_type h =? 2) && (e_machine h =? 3) && (e_version h =? 1)
  && (e_phentsize h =? PHDR_SIZE) && (e_phnum h <=? 1024).

(** One [PT_LOAD] header: validate, load, and move the heap behind it. *)
Definition load_header (s : sys) (file : Z) (ph : Elf32_Phdr) : res (bool * sys) :=
  len ← file_length (sf s) file;
  if validate_segment ph len then
    let writable := negb (Z.land (p_flags ph) PF_WRITE =? 0) in
    let mem_page := segment_mem_page ph in
    let '(read_bytes, zero_bytes) := segment_bytes ph in
    '(ok, s) ← load_segment s file (segment_file_page ph) mem_page read_bytes zero_bytes writable;
    if negb ok then Ret (false, s) else
    let heap := u32 (mem_page + read_bytes + zero_bytes) in
    Ret (true, Sys (Proc (pk (sp s)) (set_heap (cur (sp s)) heap)) (sf s))
  else Ret (false, s).

(** The program headers, [n] of them from offset [file_ofs] on. *)
Fixpoint headers_loop (n : nat) (s : sys) (file file_ofs : Z) : res (bool * sys) :=
  match n with
  | O => Ret (true, s)
  | S n =>
    len ← file_length (sf s) file;
    if (file_ofs <? 0) || (len <? file_ofs) then Ret (false, s) else
    f ← file_seek (sf s) file file_ofs;
    '(bs, f) ← file_read f file PHDR_SIZE;
    let s := Sys (sp s) f in
    if negb (Z.of_nat (length bs) =? PHDR_SIZE) then Ret (false, s) else
    let file_ofs := s32 (file_ofs + PHDR_SIZE) in
    let ph := read_phdr bs in
    if (p_type ph =? PT_DYNAMIC) || (p_type ph =? PT_INTERP) || (p_type ph =? PT_SHLIB) then Ret (false, s)
    else if p_type ph =? PT_LOAD then
      '(ok, s) ← load_header s file ph;
      if negb ok then Ret (false, s) else headers_loop n s file file_ofs
    else headers_loop n s file file_ofs
  end.

(** The body between opening the file and [done]: the entry point and stack pointer. *)
Definition load_file (s : sys) (file : Z) : res (option (Z * Z) * sys) :=
  '(bs, f) ← file_read (sf s) file EHDR_SIZE;
  let s := Sys (sp s) f in
  if negb (header_ok bs) then Ret (None, s) else
  let h := read_ehdr bs in
  '(ok, s) ← headers_loop (Z.to_nat (e_phnum h)) s file (s32 (e_phoff h));
  if negb ok then Ret (None, s) else
  '(esp, p) ← setup_stack (sp s);
  let s := Sys p (sf s) in
  match esp with
  | None => Ret (None, s)
  | Some esp => Ret (Some (e_entry h, esp), s)
  end.

Definition load (s : sys) (file_name : list Z) : res (option (Z * Z) * sys) :=
  '(pd, k) ← pagedir_create init_page_dir (pk (sp s));
  let p := Proc k (set_pagedir (cur (sp s)) pd) in
  if pd =? NULL then Ret (None, Sys p (sf s)) else
  p ← process_activate p;
  '(file, f) ← filesys_open (sf s) file_name;
  let s := Sys p f in
  '(r, s) ← (if file =? NULL then Ret (None, s) else load_file s file);
  f ← file_close (sf s) file;
  Ret (r, Sys (sp s) f).
End Process.
