(* ===== verification/Loader.v ===== *)
(** * The loader's specification

    The arithmetic of a validated segment stays below [PHYS_BASE] and meets the loader's
    own assertions; loading a segment maps its pages, each with the bytes of the file and
    zeros behind them, and leaves the rest of the address space alone. *)
From S2P Require Import Prelude Mem Bitmap Vaddr Palloc Pagedir UserPages Sbrk Fault Inode Directory Process.

(** ** Validated segments *)
Definition phdr_ok (ph : Elf32_Phdr) : Prop :=
  is_u32 (p_offset ph) ∧ is_u32 (p_vaddr ph) ∧ is_u32 (p_filesz ph) ∧ is_u32 (p_memsz ph).

Lemma validate_spec ph len :
  phdr_ok ph → 0 ≤ len < 2147483648 → validate_segment ph len = true →
  p_offset ph mod 4096 = p_vaddr ph mod 4096 ∧ p_offset ph ≤ len
  ∧ p_filesz ph ≤ p_memsz ph ∧ 0 < p_memsz ph ∧ 4096 ≤ p_vaddr ph
  ∧ p_vaddr ph + p_memsz ph < PHYS_BASE.
Proof.
  intros (Ho & Hv & Hf & Hm) Hlen. unfold validate_segment.
  change (Z.land (p_offset ph) PGMASK) with (pg_ofs (p_offset ph)).
  change (Z.land (p_vaddr ph) PGMASK) with (pg_ofs (p_vaddr ph)).
  rewrite !pg_ofs_mod, (u32_id len) by (unfold is_u32; lia). unfold is_user_vaddr.
  change PGSIZE with 4096. unfold is_u32, PHYS_BASE, u32 in *.
  repeat match goal with
  | |- context [if negb (?a =? ?b) then _ else _] => destruct (Z.eqb_spec a b); cbn [negb]; [|done]
  | |- context [if negb (?a <? ?b) then _ else _] => destruct (Z.ltb_spec a b); cbn [negb]; [|done]
  | |- context [if ?a <? ?b then _ else _] => destruct (Z.ltb_spec a b); [done|]
  | |- context [if ?a =? ?b then _ else _] => destruct (Z.eqb_spec a b); [done|]
  end.
  intros _. Z.to_euclidean_division_equations. lia.
Qed.

Lemma page_up x : 0 ≤ x ≤ 4294963200 → ROUND_UP x PGSIZE = (x + 4095) / 4096 * 4096.
Proof.
  intros Hx. unfold ROUND_UP. change PGSIZE with 4096.
  rewrite (u32_id (x + 4096 - 1)) by (unfold is_u32; lia). replace (x + 4096 - 1) with (x + 4095) by lia.
  apply u32_id. unfold is_u32. Z.to_euclidean_division_equations. lia.
Qed.

(** The numbers [load] computes, without the machine arithmetic. *)
Record segment_ok (ph : Elf32_Phdr) (r z : Z) : Prop := {
  so_page : segment_mem_page ph = 4096 * (p_vaddr ph / 4096);
  so_file : segment_file_page ph = 4096 * (p_offset ph / 4096);
  so_read : r = if 0 <? p_filesz ph then p_vaddr ph mod 4096 + p_filesz ph else 0;
  so_zero : 0 ≤ z;
  so_total : r + z = 4096 * ((p_vaddr ph mod 4096 + p_memsz ph + 4095) / 4096);
  so_low : 1 ≤ p_vaddr ph / 4096;
  so_high : 4096 * (p_vaddr ph / 4096) + (r + z) ≤ PHYS_BASE;
}.

Lemma segment_bytes_spec ph len r z :
  phdr_ok ph → 0 ≤ len < 2147483648 → validate_segment ph len = true →
  segment_bytes ph = (r, z) → segment_ok ph r z.
Proof.
  intros Hph Hlen Hv. destruct (validate_spec ph len Hph Hlen Hv) as (H1 & H2 & H3 & H4 & H5 & H6).
  destruct Hph as (Ho & Hva & Hf & Hm). unfold segment_bytes.
  change (Z.land (p_vaddr ph) PGMASK) with (pg_ofs (p_vaddr ph)). rewrite pg_ofs_mod.
  assert (Hofs : 0 ≤ p_vaddr ph mod 4096 < 4096) by (apply Z.mod_pos_bound; lia).
  unfold PHYS_BASE, is_u32 in *.
  rewrite (u32_id (_ + p_memsz ph)), page_up by (unfold is_u32; lia).
  set (o := p_vaddr ph mod 4096) in *. set (up := (o + p_memsz ph + 4095) / 4096).
  assert (Eo : p_vaddr ph = 4096 * (p_vaddr ph / 4096) + o) by (unfold o; apply Z.div_mod; lia).
  assert (Hup : o + p_memsz ph ≤ 4096 * up < o + p_memsz ph + 4096)
    by (unfold up; Z.to_euclidean_division_equations; lia).
  assert (Hend : 4096 * (p_vaddr ph / 4096) + 4096 * up ≤ 3221225472) by lia.
  assert (Epage : segment_mem_page ph = 4096 * (p_vaddr ph / 4096)).
  { unfold segment_mem_page. change (u32 (Z.lnot PGMASK)) with PTE_ADDR.
    rewrite land_page by (unfold is_u32; lia). lia. }
  assert (Efile : segment_file_page ph = 4096 * (p_offset ph / 4096)).
  { unfold segment_file_page. change (u32 (Z.lnot PGMASK)) with PTE_ADDR.
    rewrite land_page by (unfold is_u32; lia). rewrite s32_small; [lia|].
    Z.to_euclidean_division_equations. lia. }
  destruct (Z.ltb_spec 0 (p_filesz ph)) as [Hfs|Hfs]; intros [= <- <-].
  - rewrite (u32_id (o + p_filesz ph)), u32_id by (unfold is_u32; lia).
    split; try done; try (rewrite (proj2 (Z.ltb_lt _ _) Hfs)); fold o; fold up; unfold PHYS_BASE; lia.
  - split; try done; try (rewrite (proj2 (Z.ltb_ge _ _) Hfs)); fold o; fold up; unfold PHYS_BASE; lia.
Qed.

(** ** The executable, open for reading *)
Record file_ok (f : fs) (file : Z) (i : inode) (pos : Z) : Prop := {
  fo_file : ∃ fl, files f !! file = Some fl ∧ inodes f !! f_inode fl = Some i ∧ f_pos fl = pos;
  fo_extent : extent_ok f i;
  fo_length : i_length i < 2147483648;
  fo_pos : 0 ≤ pos < 2147483648;
}.

Lemma file_read_spec f file i pos n :
  file_ok f file i pos →
  ∃ m f', file_read f file n = Ret (bytes_at (disk f) (data_addr i pos) m, f')
    ∧ 0 ≤ m ≤ available i n pos ∧ (plenty f → m = available i n pos ∧ plenty f')
    ∧ file_ok f' file i (pos + m) ∧ disk f' = disk f.
Proof.
  intros [(fl & Hf & Hi & Hp) Hx Hl Hpos]. unfold file_read, get_file. rewrite Hf, bind_Ret.
  destruct (inode_read_at_spec f (f_inode fl) i n (f_pos fl) Hi Hx) as (m & k & -> & _ & Hm & Hall); [lia|].
  rewrite bind_Ret. rewrite Hp in *. exists m. eexists. split; [done|].
  assert (Hend : pos + m < 2147483648) by (unfold available in Hm; lia).
  rewrite length_bytes_at, Z2Nat.id, s32_small by lia.
  split; [done|]. split; [intros Hpl; split; [by apply Hall|]; intros j; apply Hpl|].
  split; [|done]. split; [|destruct Hx; by split|done|lia].
  eexists. split; [apply lookup_insert_eq|]. done.
Qed.

Lemma file_seek_spec f file i pos ofs :
  file_ok f file i pos → 0 ≤ ofs < 2147483648 →
  ∃ f', file_seek f file ofs = Ret f' ∧ file_ok f' file i ofs ∧ disk f' = disk f ∧ (plenty f → plenty f').
Proof.
  intros [(fl & Hf & Hi & Hp) Hx Hl Hpos] Ho. unfold file_seek, get_file. rewrite Hf, bind_Ret.
  rewrite ASSERT_true by lia. eexists. split; [done|]. split; [|done].
  split; [|destruct Hx; by split|done|done]. eexists. split; [apply lookup_insert_eq|]. done.
Qed.

(** ** Pages filled from a file *)

(** Page [vp] is mapped to a frame that holds [n] bytes of the file from [pos] on, and
    zeros. *)
Definition page_loaded (k : kstate) (pd vp : Z) (w : bool) (d : mem) (a n : Z) : Prop :=
  ∃ q, kpage_ok q ∧ mapping (kmem k) pd vp = Some (user_pte q w)
    ∧ ∀ x, 0 ≤ x < 4096 → load8 (kmem k) (q + x) = if x <? n then load8 d (a + x) else 0.

Lemma page_loaded_step k k' pd vp w d a n :
  as_step k k' pd → user_page vp → mapping (kmem k') pd vp = mapping (kmem k) pd vp →
  page_loaded k pd vp w d a n → page_loaded k' pd vp w d a n.
Proof.
  intros Hst Hv E (q & Hq & Hm & Hz). exists q. rewrite E. split_and!; [done..|]. intros x Hx.
  destruct (user_pte_page q w Hq) as (_ & Ep & _). rewrite <- Hz by done.
  apply (st_data _ _ _ Hst vp (user_pte q w)); rewrite ?E, ?Ep; auto. lia.
Qed.

(** Filling the page just allocated leaves it just allocated. *)
Lemma got_filled s s' u q m :
  got_pages s s' u false q 1 →
  (∀ x, x < q ∨ q + 4096 ≤ x → load8 m x = load8 (pmem s') x) →
  got_pages s (set_pmem s' m) u false q 1.
Proof.
  intros [H1 H2 H3 H4 H5 H6 H7 H8 H9] Hm. split; try done.
  - by apply set_pmem_wf.
  - intros x Hx. cbn [set_pmem pmem]. rewrite Hm by lia. by apply H8.
Qed.

Section LoadPage.
Context (init_page_dir init_ram_pages : Z).
Local Abbreviation space_ok := (space_ok init_page_dir init_ram_pages).

(** Why a page cannot be loaded. *)
Definition no_memory (k : kstate) : Prop :=
  pool_full (ks k) true 1 ∨ ∃ s q, got_pages (ks k) s true false q 1 ∧ pool_full s false 1.

Lemma space_step p k' : space_ok p → as_step (pk p) k' (pagedir (cur p)) → space_ok (Proc k' (cur p)).
Proof.
  intros [H1 H2 H3 H4] Hst. split; cbn; [apply Hst|by eapply cr3_ok_step| |done].
  eapply ram_ok_geom; [apply Hst|done].
Qed.

Lemma install_page_spec p k s vp q w :
  space_ok p → pk p = k → got_pages (ks k) s true false q 1 → user_page vp →
  let pd := pagedir (cur p) in
  (∃ k', install_page init_page_dir init_ram_pages (Proc (with_ks k s) (cur p)) (4096 * vp) q w
         = Ret (true, Proc k' (cur p))
     ∧ mapping (kmem k) pd vp = None ∧ as_step k k' pd
     ∧ mapping (kmem k') pd vp = Some (user_pte q w) ∧ kpage_ok q
     ∧ same_bytes (pmem s) (kmem k') q (q + 4096)
     ∧ ∀ vp', user_page vp' → vp' ≠ vp → mapping (kmem k') pd vp' = mapping (kmem k) pd vp')
  ∨ (install_page init_page_dir init_ram_pages (Proc (with_ks k s) (cur p)) (4096 * vp) q w
     = Ret (false, Proc (with_ks k s) (cur p))
     ∧ (mapping (kmem k) pd vp ≠ None ∨ pool_full s false 1)).
Proof.
  intros [Hw Hc Hram Hpd] Ek Hg Hv pd. rewrite Ek in *. unfold install_page. cbn [cur pk]. fold pd.
  pose proof (got_wf k s pd q true false Hw Hg) as Hw1.
  pose proof (got_unused k s pd q true false Hw Hg) as Hu.
  destruct (user_page_va _ Hv) as [Hva Eva].
  rewrite pagedir_get_page_spec by done. rewrite Eva, bind_Ret.
  change (kmem (with_ks k s)) with (pmem s). rewrite (got_map k s pd q true false Hw Hg vp Hv).
  destruct (mapping (kmem k) pd vp) as [e|] eqn:Em.
  - right. destruct (frame_ok k pd vp e Hw Hv Em) as [_ [_ Hp]].
    destruct (Z.eqb_spec (page_of e + 4096 * vp mod 4096) NULL) as [E|_]; [|by split; [|left]].
    pose proof (Z.mod_pos_bound (4096 * vp) 4096). unfold PHYS_BASE, NULL in *. lia.
  - rewrite Z.eqb_refl.
    destruct (pagedir_set_page_spec init_page_dir init_ram_pages (with_ks k s) pd vp q w Hw1 Hv)
      as [(k' & -> & Htlb & Hr)|(-> & Hfull)]; try done.
    { change (kmem (with_ks k s)) with (pmem s). by rewrite (got_map k s pd q true false). }
    { split; [done|]. by eapply got_ram. }
    + left. exists k'. pose proof (map_got_map k s pd vp q w k' true false Hw Hg Hr) as Hm.
      destruct Hu as (Hqa & Hqt & _).
      split_and!; [done|done|by eapply map_got_step|by rewrite Hm, decide_True| | |].
      * by eapply allocated_kpage; [apply Hw1|].
      * intros x Hx. by apply (rm_data _ _ _ _ Hr q).
      * intros vp' Hv' Hne. by rewrite Hm, decide_False.
    + right. by split; [|right].
Qed.

(** Filling the frame from the file and with zeros. *)
Lemma filled_page m d a q n :
  kpage_ok q → 0 ≤ n ≤ 4096 →
  ∃ r m', memset (write_bytes m q (bytes_at d a n)) (u32 (q + n)) 0 (u32 (PGSIZE - n)) = Ret (r, m')
    ∧ (∀ x, x < q ∨ q + 4096 ≤ x → load8 m' x = load8 m x)
    ∧ ∀ x, 0 ≤ x < 4096 → load8 m' (q + x) = if x <? n then load8 d (a + x) else 0.
Proof.
  intros [Hqm Hqr] Hn. change PGSIZE with 4096. rewrite (u32_id (4096 - n)) by (unfold is_u32; lia).
  unfold memset, PHYS_BASE, NULL in *.
  assert (Hdst : n < 4096 → u32 (q + n) = q + n).
  { intros. apply u32_id. unfold is_u32. Z.to_euclidean_division_equations. lia. }
  rewrite ASSERT_true.
  2:{ destruct (Z.eqb_spec (4096 - n) 0); [by rewrite orb_true_r|]. rewrite Hdst by lia.
      by rewrite (proj2 (Z.eqb_neq _ _)) by lia. }
  eexists _, _. split; [done|].
  assert (Hfill : ∀ x, load8 (fill (write_bytes m q (bytes_at d a n)) (u32 (q + n)) 0 (Z.to_nat (4096 - n))) x
    = if decide (q + n ≤ x < q + 4096) then 0 else load8 (write_bytes m q (bytes_at d a n)) x).
  { intros x. rewrite load8_fill, Z2Nat.id by lia. destruct (decide (n < 4096)).
    - rewrite Hdst by done. replace (q + n + (4096 - n)) with (q + 4096) by lia. done.
    - rewrite !decide_False by lia. done. }
  assert (Hlen : Z.of_nat (length (bytes_at d a n)) = n) by (rewrite length_bytes_at; lia).
  split.
  - intros x Hx. rewrite Hfill, decide_False by lia. rewrite load8_write_bytes, Hlen, decide_False by lia. done.
  - intros x Hx. rewrite Hfill. destruct (Z.ltb_spec x n).
    + rewrite decide_False by lia. rewrite load8_write_bytes, Hlen, decide_True by lia.
      rewrite list_lookup_total_alt, lookup_bytes_at.
      replace (Z.of_nat (Z.to_nat (q + x - q))) with x by lia. rewrite decide_True by lia. cbn.
      apply Z.mod_small, load8_range.
    + by rewrite decide_True by lia.
Qed.

(** One page of a segment. *)
Lemma load_page_spec p f file i pos vp n w :
  space_ok p → file_ok f file i pos → plenty f → user_page vp → 0 ≤ n ≤ 4096 →
  let pd := pagedir (cur p) in
  ∃ b k' f', load_page init_page_dir init_ram_pages (Sys p f) file (4096 * vp) n w
             = Ret (b, Sys (Proc k' (cur p)) f')
    ∧ as_step (pk p) k' pd ∧ disk f' = disk f ∧ plenty f' ∧ (∃ pos', file_ok f' file i pos')
    ∧ (∀ vp', user_page vp' → vp' ≠ vp → mapping (kmem k') pd vp' = mapping (kmem (pk p)) pd vp')
    ∧ if b : bool then
        mapping (kmem (pk p)) pd vp = None
        ∧ page_loaded k' pd vp w (disk f) (data_addr i pos) n ∧ file_ok f' file i (pos + n)
      else
        mapping (kmem k') pd vp = mapping (kmem (pk p)) pd vp
        ∧ (mapping (kmem (pk p)) pd vp ≠ None ∨ no_memory (pk p) ∨ i_length i < pos + n).
Proof.
  intros Hld Hf Hpl Hv Hn pd. pose proof (so_as _ _ _ Hld) as Hw. fold pd in Hw.
  unfold load_page, palloc_get_page. cbn [sp sf].
  destruct (palloc_get_multiple_spec (ks (pk p)) PAL_USER 1 (aw_palloc _ _ Hw))
    as [(q & s & -> & Hq & Hg)|(Hfull & ->)]; [lia|..].
  2:{ change (flag PAL_USER PAL_ASSERT) with false. cbn iota. rewrite bind_Ret. cbn iota. rewrite Z.eqb_refl.
      replace (with_ks (pk p) (ks (pk p))) with (pk p) by (by destruct (pk p)).
      exists false, (pk p), f. split; [done|]. split; [by apply as_step_refl|].
      split_and!; try done; [by eexists|]. right; left. by left. }
  rewrite bind_Ret. cbn iota. change (flag PAL_USER PAL_USER) with true in Hg.
  change (flag PAL_USER PAL_ZERO) with false in Hg. rewrite (proj2 (Z.eqb_neq _ _) Hq).
  rewrite (s32_small n) by lia.
  destruct (file_read_spec f file i pos n Hf) as (m & f' & -> & Hm & Hall & Hf' & Hd).
  destruct (Hall Hpl) as [-> Hpl']. rewrite bind_Ret. cbn [pk cur with_ks ks kmem].
  set (bs := bytes_at _ _ _). set (mm := write_bytes _ q bs).
  assert (Hlen : Z.of_nat (length bs) = available i n pos) by (unfold bs; rewrite length_bytes_at; lia).
  assert (Hkp : kpage_ok q).
  { eapply allocated_kpage; [apply (gp_wf _ _ _ _ _ _ Hg)|]. apply (got_unused (pk p) s pd q true false Hw Hg). }
  rewrite Hlen. destruct (Z.eqb_spec (available i n pos) n) as [Ea|Ea]; cbn [negb].
  - unfold mm, bs. rewrite Ea.
    match goal with |- context [memset ?x _ _ _] =>
      change x with (write_bytes (pmem s) q (bytes_at (disk f) (data_addr i pos) n)) end.
    destruct (filled_page (pmem s) (disk f) (data_addr i pos) q n Hkp Hn) as (r & m' & -> & Hout & Hin).
    rewrite bind_Ret. cbn iota.
    pose proof (got_filled _ _ _ _ m' Hg Hout) as Hg'.
    match goal with |- context [install_page _ _ ?x _ _ _] =>
      change x with (Proc (with_ks (pk p) (set_pmem s m')) (cur p)) end.
    destruct (install_page_spec p (pk p) (set_pmem s m') vp q w Hld eq_refl Hg' Hv)
      as [(k' & E & Hnone & Hst & Hmap & _ & Hsame & Hrest)|(E & Hwhy)]; rewrite E, bind_Ret; cbn [negb].
    + exists true, k', f'. split; [done|]. rewrite Ea in Hf'. split_and!; try done; [by eexists|].
      exists q. split_and!; [done..|]. intros x Hx. rewrite (Hsame (q + x)) by lia. by apply Hin.
    + destruct (borrow_step (pk p) (set_pmem s m') pd q true false (with_ks (pk p) (set_pmem s m')) Hw Hg')
        as (s3 & E3 & Hst3 & Hm3).
      { apply as_step_refl. by apply (got_wf (pk p) _ pd q true false). }
      cbn [pk cur]. rewrite E3, bind_Ret. exists false. eexists _, f'. split; [done|].
      assert (Hmap : ∀ vp', user_page vp' → mapping (pmem s3) pd vp' = mapping (kmem (pk p)) pd vp').
      { intros vp' Hv'. rewrite Hm3 by done. by apply (got_map (pk p) _ pd q true false). }
      split_and!; try done; [by eexists|by intros; apply Hmap|by apply Hmap|].
      destruct Hwhy as [|Hfull]; [by left|]. right; left. right. by exists (set_pmem s m'), q.
  - assert (Hg' : got_pages (ks (pk p)) (set_pmem s mm) true false q 1).
    { apply got_filled; [done|]. intros x Hx. unfold mm. rewrite load8_write_bytes, Hlen.
      rewrite decide_False; [done|]. unfold available in *. lia. }
    destruct (borrow_step (pk p) (set_pmem s mm) pd q true false (with_ks (pk p) (set_pmem s mm)) Hw Hg')
      as (s3 & E3 & Hst3 & Hm3).
    { apply as_step_refl. by apply (got_wf (pk p) _ pd q true false). }
    match goal with |- context [palloc_free_page ?x _] => change x with (ks (with_ks (pk p) (set_pmem s mm))) end.
    rewrite E3, bind_Ret. exists false. eexists _, f'. split; [done|].
    assert (Hmap : ∀ vp', user_page vp' → mapping (pmem s3) pd vp' = mapping (kmem (pk p)) pd vp').
    { intros vp' Hv'. rewrite Hm3 by done. by apply (got_map (pk p) _ pd q true false). }
    split_and!; try done; [by eexists|by intros; apply Hmap|by apply Hmap|].
    right; right. unfold available in Ea. lia.
Qed.

Lemma page_loaded_ext k pd vp w d a n a' n' :
  page_loaded k pd vp w d a n →
  (∀ x, 0 ≤ x < 4096 → (x <? n) = (x <? n')) → (0 < n' → a' = a) →
  page_loaded k pd vp w d a' n'.
Proof.
  intros (q & Hq & Hm & Hx) Hn Ha. exists q. split_and!; [done..|]. intros x Hx'.
  rewrite (Hx x Hx'), (Hn x Hx'). destruct (Z.ltb_spec x n'); [|done]. rewrite Ha by lia. done.
Qed.

(** The outcome of space_ok [n] pages from page [vp] on, [r] bytes of the file from [pos] on
    and zeros: the first [j] pages are loaded, and if [j] is not [n] there is a reason. *)
Record segment_loaded (p : proc) (f : fs) (i : inode) (pos vp n r : Z) (w b : bool) (j : Z)
    (k' : kstate) : Prop := {
  sl_count : 0 ≤ j ≤ n;
  sl_step : as_step (pk p) k' (pagedir (cur p));
  sl_other : ∀ vp', user_page vp' → ¬ (vp ≤ vp' < vp + j) →
    mapping (kmem k') (pagedir (cur p)) vp' = mapping (kmem (pk p)) (pagedir (cur p)) vp';
  sl_free : ∀ c, 0 ≤ c < j → mapping (kmem (pk p)) (pagedir (cur p)) (vp + c) = None;
  sl_page : ∀ c, 0 ≤ c < j →
    page_loaded k' (pagedir (cur p)) (vp + c) w (disk f) (data_addr i (pos + 4096 * c)) (r - 4096 * c);
  sl_why : if b then j = n else j < n
    ∧ (mapping (kmem (pk p)) (pagedir (cur p)) (vp + j) ≠ None
       ∨ (∃ kf, as_step (pk p) kf (pagedir (cur p)) ∧ no_memory kf)
       ∨ i_length i < pos + Z.min r (4096 * (j + 1)));
}.

Lemma segment_none p f i pos vp r w :
  space_ok p → segment_loaded p f i pos vp 0 r w true 0 (pk p).
Proof.
  intros Hld. split; [lia|apply as_step_refl, Hld|done|lia|lia|done].
Qed.

(** The first page and then the others. *)
Lemma segment_cons p f f1 i pos vp n r w b j k1 k' pr :
  space_ok p → 0 ≤ vp → vp + n + 1 ≤ 786432 → 0 ≤ r → 0 ≤ n → disk f1 = disk f →
  pr = Z.min r 4096 →
  as_step (pk p) k1 (pagedir (cur p)) → mapping (kmem (pk p)) (pagedir (cur p)) vp = None →
  (∀ vp', user_page vp' → vp' ≠ vp →
     mapping (kmem k1) (pagedir (cur p)) vp' = mapping (kmem (pk p)) (pagedir (cur p)) vp') →
  page_loaded k1 (pagedir (cur p)) vp w (disk f) (data_addr i pos) pr →
  segment_loaded (Proc k1 (cur p)) f1 i (pos + pr) (vp + 1) n (r - pr) w b j k' →
  segment_loaded p f i pos vp (n + 1) r w b (j + 1) k'.
Proof.
  intros Hld Hvp Hn Hr Hn0 Hd Hpr Hst1 Hnone Hm1 Hpg [H1 H2 H3 H4 H5 H6]. cbn [pk cur] in *.
  assert (Hv : user_page vp) by (unfold user_page; lia).
  assert (Hkeep : ∀ vp' e, user_page vp' → mapping (kmem (pk p)) (pagedir (cur p)) vp' = Some e →
            mapping (kmem k1) (pagedir (cur p)) vp' = Some e).
  { intros vp' e Hv' He. rewrite Hm1; [done..|]. intros ->. congruence. }
  split.
  - lia.
  - eapply as_step_trans; eauto.
  - intros vp' Hv' Hvp'. rewrite H3, Hm1 by (done || lia). done.
  - intros c Hc. destruct (decide (c = 0)) as [->|]; [by rewrite Z.add_0_r|].
    rewrite <- Hm1 by (unfold user_page; lia). replace (vp + c) with (vp + 1 + (c - 1)) by lia.
    apply H4. lia.
  - intros c Hc. destruct (decide (c = 0)) as [->|].
    + rewrite Z.add_0_r. eapply page_loaded_ext.
      * eapply page_loaded_step; [exact H2|done| |exact Hpg]. apply H3; [done|lia].
      * intros x Hx. destruct (Z.ltb_spec x pr), (Z.ltb_spec x (r - 4096 * 0)); lia.
      * intros _. unfold data_addr. lia.
    + replace (vp + c) with (vp + 1 + (c - 1)) by lia. rewrite <- Hd.
      eapply page_loaded_ext; [apply H5; lia|..].
      * intros x Hx. destruct (Z.ltb_spec x (r - pr - 4096 * (c - 1))), (Z.ltb_spec x (r - 4096 * c)); lia.
      * intros Hpos. unfold data_addr. lia.
  - destruct b; [lia|]. destruct H6 as (Hj & Hwhy). split; [lia|].
    destruct Hwhy as [Hmap|[(kf & Hkf & Hno)|Hlen]].
    + left. rewrite <- Hm1 by (unfold user_page; lia). by replace (vp + (j + 1)) with (vp + 1 + j) by lia.
    + right; left. exists kf. split; [|done]. eapply as_step_trans; eauto.
    + right; right. lia.
Qed.

Lemma load_loop_spec i file w n : ∀ p f pos vp r z fuel,
  space_ok p → file_ok f file i pos → plenty f → 0 ≤ r → 0 ≤ z → r + z = 4096 * Z.of_nat n →
  0 ≤ vp → vp + Z.of_nat n ≤ 786432 → (n < fuel)%nat →
  ∃ b j k' f', load_loop init_page_dir init_ram_pages fuel (Sys p f) file (4096 * vp) r z w
               = Ret (b, Sys (Proc k' (cur p)) f')
    ∧ segment_loaded p f i pos vp (Z.of_nat n) r w b j k'
    ∧ disk f' = disk f ∧ plenty f' ∧ ∃ pos', file_ok f' file i pos'.
Proof.
  induction n as [|n IH]; intros p f pos vp r z fuel Hld Hf Hpl Hr Hz Hrz Hvp Hn Hfu;
    (destruct fuel as [|fuel]; [lia|]); cbn [load_loop].
  { assert (r = 0) as -> by lia. assert (z = 0) as -> by lia. exists true, 0, (pk p), f.
    split; [by destruct p|]. split_and!; [by apply segment_none|done|done|by eexists]. }
  assert (Hgo : (0 <? r) || (0 <? z) = true).
  { apply orb_true_iff. destruct (Z.ltb_spec 0 r); [by left|right]. lia. }
  rewrite Hgo. change PGSIZE with 4096.
  assert (Epr : (if r <? 4096 then r else 4096) = Z.min r 4096) by (destruct (Z.ltb_spec r 4096); lia).
  rewrite Epr. set (pr := Z.min r 4096).
  destruct (load_page_spec p f file i pos vp pr w Hld Hf Hpl) as (b & k1 & f1 & -> & Hst & Hd & Hpl1 & Hf1 & Hm & Hb);
    [unfold user_page; lia|unfold pr; lia|]. rewrite bind_Ret. destruct b; cbn [negb].
  - destruct Hb as (Hnone & Hpg & Hf1').
    rewrite (u32_id (r - pr)), (u32_id (4096 - pr)), (u32_id (4096 * vp + 4096)), (u32_id (z - _))
      by (unfold is_u32, pr; lia).
    replace (4096 * vp + 4096) with (4096 * (vp + 1)) by lia.
    destruct (IH (Proc k1 (cur p)) f1 (pos + pr) (vp + 1) (r - pr) (z - (4096 - pr)) fuel)
      as (b & j & k' & f' & E & Hseg & Hd' & Hpl' & Hf'); try done; try (unfold pr; lia).
    { by apply space_step. }
    cbn [cur] in *. exists b, (j + 1), k', f'. split; [done|].
    split_and!; [|congruence|done|done]. rewrite Nat2Z.inj_succ.
    eapply (segment_cons p f f1 i pos vp (Z.of_nat n) r w b j k1 k' pr); try done; lia.
  - exists false, 0, k1, f1. split; [done|]. split_and!; try done. destruct Hb as (Hsame & Hwhy). split.
    + lia.
    + done.
    + intros vp' Hv' _. destruct (decide (vp' = vp)) as [->|]; [done|by apply Hm].
    + lia.
    + lia.
    + split; [lia|]. rewrite Z.add_0_r. destruct Hwhy as [?|[?|?]]; [by left| |].
      * right; left. exists (pk p). split; [|done]. apply as_step_refl, Hld.
      * right; right. lia.
Qed.

Lemma load_segment_spec i file w p f pos ofs vp n r z :
  space_ok p → file_ok f file i pos → plenty f → 0 ≤ r → 0 ≤ z → r + z = 4096 * n → 0 ≤ n →
  0 ≤ vp → vp + n ≤ 786432 → 0 ≤ ofs < 2147483648 → ofs mod 4096 = 0 →
  ∃ b j k' f', load_segment init_page_dir init_ram_pages (Sys p f) file ofs (4096 * vp) r z w
               = Ret (b, Sys (Proc k' (cur p)) f')
    ∧ segment_loaded p f i ofs vp n r w b j k'
    ∧ disk f' = disk f ∧ plenty f' ∧ ∃ pos', file_ok f' file i pos'.
Proof.
  intros Hld Hf Hpl Hr Hz Hrz Hn Hvp Hn2 Ho Hom. unfold load_segment. change PGSIZE with 4096.
  rewrite pg_ofs_mod, u32_id by (unfold is_u32; lia).
  rewrite ASSERT_true.
  2:{ rewrite Hrz, Z.rem_mod_nonneg by lia. rewrite (Z.mul_comm 4096), Z.mod_mul by lia. done. }
  rewrite ASSERT_true by (rewrite (Z.mul_comm 4096), Z.mod_mul by lia; done).
  rewrite ASSERT_true by (rewrite Z.rem_mod_nonneg by lia; lia).
  destruct (file_seek_spec f file i pos ofs Hf Ho) as (f1 & E & Hf1 & Hd1 & Hpl1).
  cbn [sf sp]. rewrite E, bind_Ret.
  destruct (load_loop_spec i file w (Z.to_nat n) p f1 ofs vp r z (segment_fuel r z))
    as (b & j & k' & f' & -> & Hseg & Hd & Hpl' & Hf'); auto; try lia.
  { unfold segment_fuel. change PGSIZE with 4096. rewrite Hrz, (Z.mul_comm 4096), Z.div_mul by lia. lia. }
  rewrite Z2Nat.id in Hseg by lia. exists b, j, k', f'. split; [done|].
  split_and!; [|congruence|done|done]. destruct Hseg as [H1 H2 H3 H4 H5 H6]. rewrite Hd1 in H5. by split.
Qed.
End LoadPage.

(** ** A program header *)
Section Headers.
Context (init_page_dir init_ram_pages : Z).
Local Abbreviation space_ok := (space_ok init_page_dir init_ram_pages).

(** Where a segment ends in pages, and so where the heap is put behind it. *)
Definition segment_end (ph : Elf32_Phdr) : Z :=
  p_vaddr ph / 4096 + (p_vaddr ph mod 4096 + p_memsz ph + 4095) / 4096.
Definition segment_read (ph : Elf32_Phdr) : Z :=
  if 0 <? p_filesz ph then p_vaddr ph mod 4096 + p_filesz ph else 0.
Definition is_writable (ph : Elf32_Phdr) : bool := negb (Z.land (p_flags ph) PF_WRITE =? 0).

Lemma file_length_ret f file i pos : file_ok f file i pos → file_length f file = Ret (i_length i).
Proof.
  intros [(fl & Hf & Hi & _) _ _ _]. unfold file_length, get_file, get_inode. by rewrite Hf, bind_Ret, Hi.
Qed.

Lemma load_header_spec p f file i pos ph :
  space_ok p → file_ok f file i pos → plenty f → phdr_ok ph →
  ∃ b p' f', load_header init_page_dir init_ram_pages (Sys p f) file ph = Ret (b, Sys p' f')
    ∧ disk f' = disk f ∧ plenty f' ∧ (∃ pos', file_ok f' file i pos') ∧
    if validate_segment ph (i_length i) then
      ∃ j, segment_loaded p f i (4096 * (p_offset ph / 4096)) (p_vaddr ph / 4096)
             (segment_end ph - p_vaddr ph / 4096) (segment_read ph) (is_writable ph) b j (pk p')
        ∧ cur p' = if b then set_heap (cur p) (4096 * segment_end ph) else cur p
    else b = false ∧ p' = p.
Proof.
  intros Hld Hf Hpl Hph. unfold load_header. cbn [sf]. rewrite (file_length_ret _ _ _ _ Hf), bind_Ret.
  destruct (validate_segment ph (i_length i)) eqn:Hv.
  2:{ exists false, p, f. split; [done|]. split_and!; try done. by eexists. }
  destruct (segment_bytes ph) as [r z] eqn:Eb.
  assert (Hlen : 0 ≤ i_length i < 2147483648).
  { split; [apply (ex_length _ _ (fo_extent _ _ _ _ Hf))|apply (fo_length _ _ _ _ Hf)]. }
  destruct (segment_bytes_spec ph (i_length i) r z Hph Hlen Hv Eb) as [-> -> Er Hz Ht Hlow Hhigh].
  destruct (validate_spec ph (i_length i) Hph Hlen Hv) as (_ & Hofs & _ & Hmem & _).
  destruct Hph as ([Ho0 _] & _).
  set (n := (p_vaddr ph mod 4096 + p_memsz ph + 4095) / 4096) in *.
  assert (Hr : 0 ≤ r).
  { rewrite Er. pose proof (Z.mod_pos_bound (p_vaddr ph) 4096 ltac:(lia)). destruct (Z.ltb_spec 0 (p_filesz ph)); lia. }
  assert (Hdiv : 0 ≤ 4096 * (p_offset ph / 4096) ≤ p_offset ph) by (Z.to_euclidean_division_equations; lia).
  unfold PHYS_BASE in Hhigh.
  destruct (load_segment_spec init_page_dir init_ram_pages i file (is_writable ph) p f pos
    (4096 * (p_offset ph / 4096)) (p_vaddr ph / 4096) n r z Hld Hf Hpl Hr Hz Ht)
    as (b & j & k' & f' & E & Hseg & Hd & Hpl' & Hf'); try lia.
  { by rewrite (Z.mul_comm 4096), Z.mod_mul. }
  unfold is_writable in E. rewrite E, bind_Ret.
  replace n with (segment_end ph - p_vaddr ph / 4096) in Hseg by (unfold segment_end; fold n; lia).
  rewrite Er in Hseg. fold (segment_read ph) in Hseg.
  destruct b; cbn [negb].
  - cbn [sp pk cur sf]. eexists true, _, f'. split; [done|]. split_and!; try done. exists j.
    split; [done|]. cbn [cur]. f_equal. rewrite u32_id by (unfold is_u32; lia). unfold segment_end. fold n. lia.
  - eexists false, _, f'. split; [done|]. split_and!; try done. by exists j.
Qed.

Lemma read_phdr_ok d a : phdr_ok (read_phdr (bytes_at d a 32)).
Proof.
  assert (Hb : ∀ o, 0 ≤ byte_at (bytes_at d a 32) o < 256).
  { intros o. unfold byte_at. rewrite lookup_bytes_at. case_decide; cbn; [apply load8_range|lia]. }
  assert (Hw : ∀ o, is_u32 (word_at (bytes_at d a 32) o)).
  { intros o. unfold word_at, half_at, is_u32.
    pose proof (Hb o). pose proof (Hb (S o)). pose proof (Hb (S (S o))). pose proof (Hb (S (S (S o)))). lia. }
  split_and!; apply Hw.
Qed.

(** A loaded segment keeps the process loadable. *)
Lemma segment_space p f i pos vp n r w b j k' :
  space_ok p → segment_loaded p f i pos vp n r w b j k' → space_ok (Proc k' (cur p)).
Proof. intros Hld Hs. apply space_step; [done|apply Hs]. Qed.

Lemma space_heap p h : space_ok p → space_ok (Proc (pk p) (set_heap (cur p) h)).
Proof. intros [H1 H2 H3 H4]. by split. Qed.

(** The program headers, whatever they say: the loop ends without a failed assertion. *)
Lemma headers_loop_spec file i n : ∀ p f pos ofs,
  space_ok p → file_ok f file i pos → plenty f →
  ∃ b p' f', headers_loop init_page_dir init_ram_pages n (Sys p f) file ofs = Ret (b, Sys p' f')
    ∧ space_ok p' ∧ disk f' = disk f ∧ plenty f' ∧ (∃ pos', file_ok f' file i pos')
    ∧ pagedir (cur p') = pagedir (cur p).
Proof.
  induction n as [|n IH]; intros p f pos ofs Hld Hf Hpl; cbn [headers_loop].
  { exists true, p, f. split; [done|]. split_and!; try done. by eexists. }
  cbn [sf]. rewrite (file_length_ret _ _ _ _ Hf), bind_Ret.
  destruct (Z.ltb_spec ofs 0), (Z.ltb_spec (i_length i) ofs); cbn [orb];
    try (exists false, p, f; split; [done|]; split_and!; try done; by eexists).
  pose proof (fo_length _ _ _ _ Hf) as Hl.
  destruct (file_seek_spec f file i pos ofs Hf) as (f1 & -> & Hf1 & Hd1 & Hpl1); [lia|].
  rewrite bind_Ret. unfold PHDR_SIZE.
  destruct (file_read_spec f1 file i ofs 32 Hf1) as (m & f2 & -> & Hm & Hall & Hf2 & Hd2).
  destruct (Hall (Hpl1 Hpl)) as [_ Hpl2]. rewrite bind_Ret, length_bytes_at, Z2Nat.id by lia.
  cbn [sp]. assert (Hd : disk f2 = disk f) by congruence.
  destruct (Z.eqb_spec m 32) as [->|]; cbn [negb].
  2:{ exists false, p, f2. split; [done|]. split_and!; try done. by eexists. }
  pose proof (read_phdr_ok (disk f1) (data_addr i ofs)) as Hph. set (ph := read_phdr _) in *.
  destruct (_ || _).
  { exists false, p, f2. split; [done|]. split_and!; try done. by eexists. }
  destruct (p_type ph =? PT_LOAD).
  2:{ destruct (IH p f2 _ (s32 (ofs + 32)) Hld Hf2 Hpl2) as (b & p' & f' & E & ? & ? & ?).
      exists b, p', f'. split; [exact E|]. split_and!; try done; [congruence|tauto..]. }
  destruct (load_header_spec p f2 file i _ ph Hld Hf2 Hpl2 Hph)
    as (b & p' & f' & -> & Hd' & Hpl' & [pos' Hf'] & Hb). rewrite bind_Ret.
  assert (Hp' : space_ok p' ∧ pagedir (cur p') = pagedir (cur p)).
  { destruct (validate_segment ph (i_length i)); [|by destruct Hb as [_ ->]].
    destruct Hb as (j & Hs & Ec). pose proof (segment_space _ _ _ _ _ _ _ _ _ _ _ Hld Hs) as H'.
    destruct p' as [k' c']. cbn in *. subst c'. destruct b; [|done]. split; [|done].
    by apply (space_heap (Proc k' (cur p))). }
  destruct b; cbn [negb].
  - destruct (IH p' f' _ (s32 (ofs + 32)) (proj1 Hp') Hf' Hpl') as (b & p2 & f3 & E & ? & ? & ? & ? & ?).
    exists b, p2, f3. split; [exact E|]. split_and!; try done; [congruence|]. rewrite H5. apply Hp'.
  - exists false, p', f'. split; [done|]. split_and!; try done; [apply Hp'|congruence|by eexists|apply Hp'].
Qed.

(** The stack: one zeroed, writable page below [PHYS_BASE]. *)
Lemma setup_stack_spec p :
  space_ok p →
  ∃ r k', setup_stack init_page_dir init_ram_pages p = Ret (r, Proc k' (cur p))
    ∧ as_step (pk p) k' (pagedir (cur p))
    ∧ (∀ vp, user_page vp → vp ≠ 786431 →
         mapping (kmem k') (pagedir (cur p)) vp = mapping (kmem (pk p)) (pagedir (cur p)) vp)
    ∧ match r with
      | Some esp => esp = PHYS_BASE - 20 ∧ fresh_page k' (pagedir (cur p)) 786431
      | None => mapping (kmem k') (pagedir (cur p)) 786431 = mapping (kmem (pk p)) (pagedir (cur p)) 786431
      end.
Proof.
  intros Hld. pose proof (so_as _ _ _ Hld) as Hw. unfold setup_stack, palloc_get_page.
  assert (Hv : user_page 786431) by (unfold user_page; lia).
  destruct (palloc_get_multiple_spec (ks (pk p)) (Z.lor PAL_USER PAL_ZERO) 1 (aw_palloc _ _ Hw))
    as [(q & s & -> & Hq & Hg)|(Hfull & ->)]; [lia|..].
  2:{ change (flag (Z.lor PAL_USER PAL_ZERO) PAL_ASSERT) with false. cbn iota. rewrite bind_Ret, Z.eqb_refl.
      cbn [negb]. replace (with_ks (pk p) (ks (pk p))) with (pk p) by (by destruct (pk p)).
      exists None, (pk p). split; [done|]. split_and!; first [done|by apply as_step_refl]. }
  rewrite bind_Ret. cbn iota. rewrite (proj2 (Z.eqb_neq _ _) Hq). cbn [negb cur pk].
  change (flag _ PAL_USER) with true in Hg. change (flag _ PAL_ZERO) with true in Hg.
  assert (Hg' : got_pages (ks (pk p)) s true false q 1) by (destruct Hg; by split).
  change (PHYS_BASE - PGSIZE) with (4096 * 786431).
  destruct (install_page_spec init_page_dir init_ram_pages p (pk p) s 786431 q true Hld eq_refl Hg' Hv)
    as [(k' & -> & _ & Hst & Hmap & Hkp & Hsame & Hrest)|(-> & _)]; rewrite bind_Ret.
  - exists (Some (PHYS_BASE - 20)), k'. split; [done|]. split_and!; try done. exists q. split_and!; try done.
    intros x Hx. rewrite Hsame by done. by apply (gp_zero _ _ _ _ _ _ Hg).
  - destruct (borrow_step (pk p) s (pagedir (cur p)) q true true (with_ks (pk p) s) Hw Hg)
      as (s3 & E3 & Hst3 & Hm3).
    { apply as_step_refl. by apply (got_wf (pk p) s _ q true true). }
    cbn [pk cur]. rewrite E3, bind_Ret.
    assert (Hmap : ∀ vp, user_page vp → mapping (pmem s3) (pagedir (cur p)) vp
              = mapping (kmem (pk p)) (pagedir (cur p)) vp).
    { intros vp Hvp. rewrite Hm3 by done. by apply (got_map (pk p) s _ q true true). }
    exists None. eexists. split; [done|]. split_and!; [done|by intros; apply Hmap|by apply Hmap].
Qed.
End Headers.

(** ** A new address space *)
Section NewSpace.
Context (init_page_dir init_ram_pages : Z).

(** The kernel's own directory maps no user page. *)
Record kernel_dir (k : kstate) : Prop := {
  kd_alloc : allocated (ks k) init_page_dir = true;
  kd_empty : ∀ i, 0 ≤ i < 768 → pde_at (kmem k) init_page_dir i = 0;
}.

Lemma pagedir_create_spec k :
  palloc_wf (ks k) → kernel_dir k →
  (pagedir_create init_page_dir k = Ret (NULL, k) ∧ pool_full (ks k) false 1)
  ∨ ∃ pd k', pagedir_create init_page_dir k = Ret (pd, k')
      ∧ pd ≠ NULL ∧ pd ≠ init_page_dir ∧ kpage_ok pd
      ∧ as_wf (ks k') pd ∧ (∀ vp, user_page vp → mapping (kmem k') pd vp = None)
      ∧ same_geom (ks k) (ks k') ∧ cr3 k' = cr3 k ∧ tlb k' = tlb k
      ∧ (∀ q, allocated (ks k') q = if decide (q = pd) then true else allocated (ks k) q)
      ∧ ∀ q, allocated (ks k) q = true → same_bytes (kmem k) (kmem k') q (q + 4096).
Proof.
  intros Hp [Hia Hie]. unfold pagedir_create, palloc_get_page.
  destruct (palloc_get_multiple_spec (ks k) 0 1 Hp) as [(pd & s & -> & Hn & Hg)|(Hfull & ->)]; [lia|..].
  2:{ left. change (flag 0 PAL_ASSERT) with false. cbn iota. rewrite bind_Ret, Z.eqb_refl. cbn [negb].
      split; [|done]. by destruct k. }
  right. rewrite bind_Ret. cbn iota. rewrite (proj2 (Z.eqb_neq _ _) Hn). cbn [negb].
  change (flag 0 PAL_USER) with false in Hg. change (flag 0 PAL_ZERO) with false in Hg.
  pose proof (got_alloc k s pd false false Hg) as Hal. pose proof (got_fresh k s pd false false Hg) as Hfr.
  destruct (allocated_kpage _ _ Hp Hia) as [Him Hir].
  assert (Hpa : allocated s pd = true) by (by rewrite Hal, decide_True).
  destruct (allocated_kpage _ _ (gp_wf _ _ _ _ _ _ Hg) Hpa) as [Hpm Hpr].
  assert (Hne : pd ≠ init_page_dir) by congruence.
  unfold memcpy. unfold PHYS_BASE, NULL in *.
  rewrite !ASSERT_true by (rewrite (proj2 (Z.eqb_neq _ _)) by lia; done).
  rewrite bind_Ret. change (Z.to_nat PGSIZE) with 4096%nat. set (m := copy_up _ _ _ _).
  pose proof (pages_apart _ _ Hpm Him Hne) as Hap.
  assert (Hm : ∀ x, load8 m x = if decide (pd ≤ x < pd + 4096)
            then load8 (pmem s) (init_page_dir + (x - pd)) else load8 (pmem s) x).
  { intros x. unfold m. by rewrite load8_copy_up by lia. }
  clearbody m.
  assert (Hbytes : ∀ q, allocated (ks k) q = true → same_bytes (kmem k) m q (q + 4096)).
  { intros q Hq x Hx. destruct (allocated_kpage _ _ Hp Hq) as [Hqm _].
    destruct (pages_apart _ _ Hpm Hqm ltac:(congruence)); rewrite Hm, decide_False by lia;
      apply (gp_mem _ _ _ _ _ _ Hg); lia. }
  assert (Hpde : ∀ i, 0 ≤ i < 768 → pde_at m pd i = 0).
  { intros i Hi. rewrite <- (Hie i Hi). unfold pde_at, load32.
    assert (Hc : ∀ x y, pd ≤ x < pd + 4096 → y = init_page_dir + (x - pd) → load8 m x = load8 (kmem k) y).
    { intros x y Hx ->. rewrite Hm, decide_True by lia. apply (gp_mem _ _ _ _ _ _ Hg). lia. }
    by rewrite (Hc _ (init_page_dir + 4 * i)), (Hc _ (init_page_dir + 4 * i + 1)),
      (Hc _ (init_page_dir + 4 * i + 2)), (Hc _ (init_page_dir + 4 * i + 3)) by lia. }
  assert (Hmap : ∀ vp, user_page vp → mapping m pd vp = None).
  { intros vp Hv. unfold mapping, pte_at. by rewrite Hpde by (apply user_page_split; done). }
  eexists pd, _. split; [done|]. split_and!; try done; [|apply (gp_geom _ _ _ _ _ _ Hg)].
  split; cbn [with_ks ks set_pmem pmem].
  - apply set_pmem_wf, Hg.
  - done.
  - intros i Hi. by rewrite Hpde.
  - intros i j Hi _. by rewrite Hpde.
  - intros vp e Hv. by rewrite Hmap.
  - intros vp vp' e e' Hv. by rewrite Hmap.
Qed.

(** Switching to it. *)
Lemma activate_new p :
  as_wf (ks (pk p)) (pagedir (cur p)) → ram_ok init_ram_pages (ks (pk p)) →
  pagedir (cur p) ≠ NULL → pagedir (cur p) ≠ init_page_dir →
  ∃ k', process_activate init_page_dir p = Ret (Proc k' (cur p))
    ∧ space_ok init_page_dir init_ram_pages (Proc k' (cur p)) ∧ ks k' = ks (pk p)
    ∧ cr3 k' = pagedir (cur p) - PHYS_BASE ∧ tlb_ok k' (pagedir (cur p)).
Proof.
  intros Hw Hram Hn Hi. assert (Hpd : kpage_ok (pagedir (cur p))).
  { eapply allocated_kpage; [apply Hw|]. apply Hw. }
  unfold process_activate, pagedir_activate. rewrite (proj2 (Z.eqb_neq _ _) Hn), vtop_kpage, !bind_Ret by done.
  eexists. split; [done|]. split_and!; try done.
  - split; cbn; try done. by exists (pagedir (cur p)).
Qed.
End NewSpace.
