(* ===== verification/LoaderTheorems.v ===== *)
(** * What the loader guarantees

    Segments that pass [validate_segment] are loaded without overflow and without a failed
    assertion, whatever the file contains; a segment loaded into a new address space leaves
    the heap as [sbrk] needs it; and the order of segments matters to the heap. *)
From S2P Require Import Prelude Mem Bitmap Vaddr Palloc Pagedir UserPages Sbrk Fault KernelTheorems.
From S2P Require Import Inode Directory FileTable Process Loader.

(** ** Theorems *)

(** A segment that [validate_segment] accepts lies between the first page and
    [PHYS_BASE]: the 32-bit sums [load] forms from its header do not wrap, the pages cover
    the segment's addresses, and the three assertions of [load_segment] hold. *)
Theorem validate_segment_bounds ph len r z :
  phdr_ok ph → 0 ≤ len < 2147483648 → validate_segment ph len = true → segment_bytes ph = (r, z) →
  let m := segment_mem_page ph in let o := segment_file_page ph in
  4096 ≤ m ≤ p_vaddr ph ∧ p_vaddr ph + p_memsz ph ≤ m + r + z ≤ PHYS_BASE
  ∧ 0 ≤ r ∧ 0 ≤ z ∧ 0 ≤ o ≤ len
  ∧ u32 (r + z) mod 4096 = 0 ∧ pg_ofs m = 0 ∧ o mod 4096 = 0
  ∧ (0 < p_filesz ph → r = p_vaddr ph - m + p_filesz ph).
Proof.
  intros Hph Hlen Hv Eb m o. destruct (segment_bytes_spec ph len r z Hph Hlen Hv Eb) as [Em Eo Er Hz Ht Hl Hh].
  destruct (validate_spec ph len Hph Hlen Hv) as (_ & Hofs & _ & Hmem & _).
  destruct Hph as ([Ho _] & _ & [Hf _] & _). unfold m, o. rewrite Em, Eo, pg_ofs_mod.
  pose proof (Z.div_mod (p_vaddr ph) 4096 ltac:(lia)) as Ed.
  pose proof (Z.mod_pos_bound (p_vaddr ph) 4096 ltac:(lia)) as Hmod.
  assert (Hr : 0 ≤ r) by (rewrite Er; destruct (Z.ltb_spec 0 (p_filesz ph)); lia).
  unfold PHYS_BASE in *. rewrite u32_id by (unfold is_u32; lia). rewrite Ht.
  split_and!; try lia; try (Z.to_euclidean_division_equations; lia).
  intros Hfs. rewrite Er, (proj2 (Z.ltb_lt _ _) Hfs). lia.
Qed.


(** C19: Whatever bytes the executable consists of, the loader returns from it without a
    failed assertion, with a well-formed address space and the disk as it was; when it
    succeeds the stack pointer is 20 bytes below [PHYS_BASE], in a writable page of
    zeros. *)
Theorem load_file_safe init_page_dir init_ram_pages p f file i pos :
  space_ok init_page_dir init_ram_pages p → file_ok f file i pos → plenty f →
  ∃ r p' f', load_file init_page_dir init_ram_pages (Sys p f) file = Ret (r, Sys p' f')
    ∧ space_ok init_page_dir init_ram_pages p' ∧ disk f' = disk f
    ∧ pagedir (cur p') = pagedir (cur p)
    ∧ match r with
      | Some (eip, esp) => esp = PHYS_BASE - 20 ∧ fresh_page (pk p') (pagedir (cur p')) 786431
      | None => True
      end.
Proof.
  intros Hld Hf Hpl. unfold load_file. cbn [sf].
  destruct (file_read_spec f file i pos EHDR_SIZE Hf) as (m & f1 & -> & _ & Hall & Hf1 & Hd1).
  destruct (Hall Hpl) as [_ Hpl1]. rewrite bind_Ret. cbn [sp].
  destruct (header_ok _); cbn [negb]; [|by exists None, p, f1].
  set (h := read_ehdr _).
  destruct (headers_loop_spec init_page_dir init_ram_pages file i (Z.to_nat (e_phnum h)) p f1 _ (s32 (e_phoff h))
    Hld Hf1 Hpl1) as (b & p1 & f2 & -> & Hld1 & Hd2 & _ & _ & Epd). rewrite bind_Ret.
  destruct b; cbn [negb]; [|exists None, p1, f2; split_and!; [done|done|congruence|done|done]].
  cbn [sp sf]. destruct (setup_stack_spec init_page_dir init_ram_pages p1 Hld1) as (r & k' & -> & Hst & _ & Hr).
  rewrite bind_Ret. pose proof (space_step _ _ _ _ Hld1 Hst) as Hld2.
  destruct r as [esp|].
  - eexists (Some (e_entry h, esp)), _, f2. split; [done|]. split_and!; try done; [congruence|by destruct Hr..].
  - eexists None, _, f2. split_and!; try done. congruence.
Qed.

(** Loading a program's segment into a new address space establishes the invariant of
    the heap that [sbrk] relies on: the heap is empty, starts at the page behind the
    segment, and the pages from there on are free. *)
Theorem load_header_heap init_page_dir init_ram_pages p f file i pos ph s' :
  space_ok init_page_dir init_ram_pages p → tlb_ok (pk p) (pagedir (cur p)) →
  (∀ vp, user_page vp → mapping (kmem (pk p)) (pagedir (cur p)) vp = None) →
  file_ok f file i pos → plenty f → phdr_ok ph →
  load_header init_page_dir init_ram_pages (Sys p f) file ph = Ret (true, s') →
  4096 * segment_end ph < 2147483648 →
  proc_inv init_page_dir init_ram_pages (sp s')
  ∧ heap_start (cur (sp s')) = 4096 * segment_end ph ∧ heap_break (cur (sp s')) = 4096 * segment_end ph.
Proof.
  intros Hld Htlb Hnone Hf Hpl Hph E Hend.
  destruct (load_header_spec _ _ p f file i pos ph Hld Hf Hpl Hph) as (b & p' & f' & E' & _ & _ & _ & H).
  rewrite E in E'. injection E' as <- ->. cbn [sp].
  destruct (validate_segment ph (i_length i)) eqn:Hv; [|by destruct H].
  destruct H as (j & Hs & Ec). destruct p' as [k' c']. cbn in *. subst c'.
  destruct (space_step _ _ _ _ Hld (sl_step _ _ _ _ _ _ _ _ _ _ _ Hs)) as [L1 L2 L3 L4].
  assert (Hlen : 0 ≤ i_length i < 2147483648).
  { split; [apply (ex_length _ _ (fo_extent _ _ _ _ Hf))|apply (fo_length _ _ _ _ Hf)]. }
  destruct (validate_spec ph (i_length i) Hph Hlen Hv) as (_ & _ & _ & Hm & Hva & _).
  assert (Hpos : 0 < segment_end ph) by (unfold segment_end; Z.to_euclidean_division_equations; lia).
  pose proof (page_above_mul (segment_end ph)) as Ea.
  split; [|done]. split; cbn; try done; try lia.
  - apply (st_tlb _ _ _ (sl_step _ _ _ _ _ _ _ _ _ _ _ Hs)), Htlb.
  - by rewrite (Z.mul_comm 4096), Z.mod_mul.
  - intros vp Hvp. rewrite Ea, (Z.mul_comm 4096), Z.div_mul in Hvp by lia. lia.
  - intros vp Hvp. rewrite Ea in Hvp. pose proof (sl_count _ _ _ _ _ _ _ _ _ _ _ Hs).
    rewrite (sl_other _ _ _ _ _ _ _ _ _ _ _ Hs) by (unfold user_page; lia).
    apply Hnone. unfold user_page. lia.
Qed.

(** The heap is put behind the segment loaded last, not behind the highest one.  When
    a program's next segment is already mapped right behind the one loaded last, its first
    [sbrk] that grows the heap maps a page that is present and stops the kernel. *)
Theorem descending_segments_panic init_page_dir init_ram_pages p f file i pos ph s' e inc :
  space_ok init_page_dir init_ram_pages p → file_ok f file i pos → plenty f → phdr_ok ph →
  mapping (kmem (pk p)) (pagedir (cur p)) (segment_end ph) = Some e →
  load_header init_page_dir init_ram_pages (Sys p f) file ph = Ret (true, s') →
  0 < inc → 4096 * segment_end ph + inc < 2147483648 → ¬ pool_full (ks (pk (sp s'))) true 1 →
  syscall_sbrk init_page_dir init_ram_pages (sp s') inc = Panic.
Proof.
  intros Hld Hf Hpl Hph Hmap E Hinc Hend Hfull.
  destruct (load_header_spec _ _ p f file i pos ph Hld Hf Hpl Hph) as (b & p' & f' & E' & _ & _ & _ & H).
  rewrite E in E'. injection E' as <- ->. cbn [sp] in *.
  destruct (validate_segment ph (i_length i)) eqn:Hv; [|by destruct H].
  destruct H as (j & Hs & Ec). destruct p' as [k' c']. cbn [pk cur] in *. subst c'.
  destruct (space_step _ _ _ _ Hld (sl_step _ _ _ _ _ _ _ _ _ _ _ Hs)) as [L1 L2 L3 L4].
  assert (Hlen : 0 ≤ i_length i < 2147483648).
  { split; [apply (ex_length _ _ (fo_extent _ _ _ _ Hf))|apply (fo_length _ _ _ _ Hf)]. }
  destruct (validate_spec ph (i_length i) Hph Hlen Hv) as (_ & _ & _ & Hm & Hva & _).
  assert (Hpos : 0 < segment_end ph) by (unfold segment_end; Z.to_euclidean_division_equations; lia).
  pose proof (page_above_mul (segment_end ph)) as Ea. pose proof (sl_count _ _ _ _ _ _ _ _ _ _ _ Hs).
  eapply sbrk_over_mapped; cbn [cur pk set_heap heap_start heap_break pagedir]; rewrite ?Ea; try done; try lia.
  - by rewrite (Z.mul_comm 4096), Z.mod_mul.
  - rewrite (sl_other _ _ _ _ _ _ _ _ _ _ _ Hs) by (unfold user_page; lia). exact Hmap.
  - unfold page_above. Z.to_euclidean_division_equations. lia.
Qed.

(** ** A concrete executable

    A file of 5000 bytes in sector 10 and on, and the header of a segment of 4904 bytes
    from its start and 3096 bytes of zeros, at address 0x8048000. *)
Definition demo_inode : inode := Inode 5 1 false 0 10 5000 INODE_MAGIC.
Definition demo_file_fs : fs :=
  Fs ∅ 100 (Bitmap 100 []) NULL {[3 := demo_inode]} [3] {[4 := File 3 0 false]} ∅ (λ _, true).
Definition demo_phdr : Elf32_Phdr := Phdr PT_LOAD 96 134512736 4904 8000 7.

Lemma demo_file_ok : file_ok demo_file_fs 4 demo_inode 0.
Proof.
  split; [|split|..]; try done. eexists. split_and!; [reflexivity|reflexivity|done].
Qed.
Lemma demo_space : space_ok demo_init_pd demo_ram_pages demo_proc.
Proof. destruct demo_inv. by split. Qed.
Lemma demo_phdr_ok : phdr_ok demo_phdr.
Proof. by split_and!. Qed.

Lemma validate_segment_bounds_witness :
  let m := segment_mem_page demo_phdr in
  validate_segment demo_phdr 5000 = true ∧ segment_bytes demo_phdr = (5000, 3192) ∧ 4096 ≤ m ≤ p_vaddr demo_phdr.
Proof.
  assert (Hv : validate_segment demo_phdr 5000 = true) by (vm_compute; reflexivity).
  assert (Eb : segment_bytes demo_phdr = (5000, 3192)) by (vm_compute; reflexivity).
  destruct (validate_segment_bounds demo_phdr 5000 5000 3192 demo_phdr_ok ltac:(lia) Hv Eb) as (H & _).
  split_and!; [exact Hv|exact Eb|apply H|apply H].
Defined.


Lemma load_file_safe_witness :
  ∃ r p' f', load_file demo_init_pd demo_ram_pages (Sys demo_proc demo_file_fs) 4 = Ret (r, Sys p' f')
    ∧ space_ok demo_init_pd demo_ram_pages p'.
Proof.
  destruct (load_file_safe demo_init_pd demo_ram_pages demo_proc demo_file_fs 4 demo_inode 0
    demo_space demo_file_ok (λ _, eq_refl)) as (r & p' & f' & E & Hld & _).
  exists r, p', f'. split; [exact E|exact Hld].
Defined.

(** The state after that segment, and the header of a one-page segment right below it. *)
Definition demo_load (s : sys) (ph : Elf32_Phdr) : res (bool * sys) :=
  load_header demo_init_pd demo_ram_pages s 4 ph.
Definition demo_one : sys := (value (false, Sys demo_proc demo_file_fs) (demo_load (Sys demo_proc demo_file_fs) demo_phdr)).2.
Definition demo_below : Elf32_Phdr := Phdr PT_LOAD 0 134508544 100 4096 7.
Definition demo_two : sys := (value (false, demo_one) (demo_load demo_one demo_below)).2.

Lemma demo_below_ok : phdr_ok demo_below.
Proof. by split_and!. Qed.
Lemma demo_one_ret : demo_load (Sys demo_proc demo_file_fs) demo_phdr = Ret (true, demo_one).
Proof. unfold demo_one. apply ret_pair; vm_compute; reflexivity. Qed.
Lemma demo_two_ret : demo_load demo_one demo_below = Ret (true, demo_two).
Proof. unfold demo_two. apply ret_pair; vm_compute; reflexivity. Qed.

Lemma load_header_heap_witness :
  demo_load (Sys demo_proc demo_file_fs) demo_phdr = Ret (true, demo_one)
  ∧ proc_inv demo_init_pd demo_ram_pages (sp demo_one) ∧ heap_start (cur (sp demo_one)) = 134520832.
Proof.
  destruct (load_header_heap demo_init_pd demo_ram_pages demo_proc demo_file_fs 4 demo_inode 0 demo_phdr demo_one
    demo_space) as (Hi & Hs & _);
    [intros ? ? ? ?; done|intros vp _; apply demo_mapping|exact demo_file_ok|exact (λ _, eq_refl)
    |exact demo_phdr_ok|exact demo_one_ret|reflexivity|].
  split_and!; [exact demo_one_ret|exact Hi|exact Hs].
Defined.

Lemma sys_eta s : Sys (sp s) (sf s) = s.
Proof. by destruct s. Qed.

Lemma demo_one_ok s1 :
  demo_load (Sys demo_proc demo_file_fs) demo_phdr = Ret (true, s1) →
  space_ok demo_init_pd demo_ram_pages (sp s1)
  ∧ (∃ pos, file_ok (sf s1) 4 demo_inode pos) ∧ plenty (sf s1)
  ∧ ∃ e, mapping (kmem (pk (sp s1))) (pagedir (cur (sp s1))) (segment_end demo_below) = Some e.
Proof.
  intros E'.
  destruct (load_header_spec demo_init_pd demo_ram_pages demo_proc demo_file_fs 4 demo_inode 0 demo_phdr
    demo_space demo_file_ok (λ _, eq_refl) demo_phdr_ok) as (b & p' & f' & E & _ & Hpl & Hf & H).
  unfold demo_load in E'. rewrite E in E'. injection E' as -> <-. cbn [sp sf].
  assert (Ev : validate_segment demo_phdr (i_length demo_inode) = true) by (vm_compute; reflexivity).
  rewrite Ev in H. destruct H as (j & Hs & Ec). destruct p' as [k' c']. cbn [pk cur] in *. subst c'.
  split_and!; [|done|done|].
  - by apply (space_heap _ _ (Proc k' (cur demo_proc))), (segment_space _ _ _ _ _ _ _ _ _ _ _ _ _ demo_space Hs).
  - pose proof (sl_why _ _ _ _ _ _ _ _ _ _ _ Hs) as Ej. cbn iota in Ej.
    assert (E2 : segment_end demo_phdr - p_vaddr demo_phdr / 4096 = 2) by (vm_compute; reflexivity).
    destruct (sl_page _ _ _ _ _ _ _ _ _ _ _ Hs 0) as (q & _ & Hm & _); [lia|].
    exists (user_pte q (is_writable demo_phdr)). exact Hm.
Qed.

Lemma descending_segments_witness :
  demo_load demo_one demo_below = Ret (true, demo_two)
  ∧ syscall_sbrk demo_init_pd demo_ram_pages (sp demo_two) 16 = Panic.
Proof.
  split; [exact demo_two_ret|].
  destruct (demo_one_ok demo_one demo_one_ret) as (Hld & [pos Hf] & Hpl & [e Hm]).
  assert (Eu : used_map (user_pool (ks (pk (sp demo_two)))) = Bitmap 8 [7]) by (vm_compute; reflexivity).
  apply (descending_segments_panic demo_init_pd demo_ram_pages (sp demo_one) (sf demo_one) 4 demo_inode pos
    demo_below demo_two e 16 Hld Hf Hpl demo_below_ok Hm); [rewrite sys_eta; exact demo_two_ret|lia|vm_compute; reflexivity|].
  intros H. specialize (H 3 ltac:(lia)). cbn [get_pool] in H. rewrite Eu in H.
  apply H; [vm_compute; discriminate|]. apply (bool_decide_eq_true_1 _). vm_compute. reflexivity.
Defined.
