(* ===== verification/Exit.v ===== *)
(** * Giving an address space back ([pagedir_destroy], [process_exit])

    The two loops free every frame and every page table once, then the directory; the
    kernel runs on its own directory by then. *)
From S2P Require Import Prelude Mem Bitmap Vaddr Palloc Pagedir UserPages Sbrk Fault KernelTheorems.
From S2P Require Import Inode Directory Process.

(** [k] is [k0] after the pages [F] have been freed. *)
Record freed (k0 k : kstate) (F : Z → Prop) : Prop := {
  fr_wf : palloc_wf (ks k);
  fr_geom : same_geom (ks k0) (ks k);
  fr_alloc : ∀ q, allocated (ks k) q = true ↔ allocated (ks k0) q = true ∧ ¬ F q;
  fr_bytes : ∀ q, allocated (ks k) q = true → same_bytes (kmem k0) (kmem k) q (q + 4096);
  fr_cr3 : cr3 k = cr3 k0;
  fr_tlb : tlb k = tlb k0;
}.

Lemma freed_refl k : palloc_wf (ks k) → freed k k (λ _, False).
Proof. intros H. split; first [done|apply same_geom_refl|intros q; tauto]. Qed.

Lemma freed_ext k0 k F G : freed k0 k F → (∀ q, F q ↔ G q) → freed k0 k G.
Proof. intros [H1 H2 H3 H4 H5 H6] E. split; try done. intros q. by rewrite H3, E. Qed.

Lemma freed_page k0 k F r :
  freed k0 k F → allocated (ks k0) r = true → ¬ F r →
  ∃ s, palloc_free_page (ks k) r = Ret s ∧ freed k0 (with_ks k s) (λ q, F q ∨ q = r).
Proof.
  intros [H1 H2 H3 H4 H5 H6] Hr HF.
  assert (Ha : allocated (ks k) r = true) by (apply H3; done).
  destruct (palloc_free_page_spec (ks k) r H1 Ha) as (s & -> & Hw & Hg & Hal & Hm).
  exists s. split; [done|]. split; cbn [with_ks ks cr3 tlb]; try done.
  - by eapply same_geom_trans.
  - intros q. rewrite Hal. case_decide as E; [|rewrite H3; tauto]. subst. split; [done|tauto].
  - intros q Hq. rewrite Hal in Hq. case_decide as E; [done|]. intros x Hx.
    destruct (allocated_kpage _ _ H1 Hq) as [Hqm _]. destruct (allocated_kpage _ _ H1 Ha) as [Hrm _].
    change (kmem (with_ks k s)) with (pmem s). rewrite Hm by (destruct (pages_apart _ _ Hqm Hrm E); lia).
    by apply (H4 q).
Qed.

Lemma freed_load k0 k F r a :
  freed k0 k F → allocated (ks k) r = true → r ≤ a → a + 4 ≤ r + 4096 →
  load32 (kmem k) a = load32 (kmem k0) a.
Proof. intros Hf Hr H1 H2. apply load32_same. intros x Hx. apply (fr_bytes _ _ _ Hf r Hr). lia. Qed.

Section Destroy.
Context (k0 : kstate) (pd : Z) (Hw : as_wf (ks k0) pd).

Definition table (i : Z) : Z := page_of (pde_at (kmem k0) pd i).

(** The frames of the first [j] pages of table [i]. *)
Definition frames (i j q : Z) : Prop :=
  ∃ vp e, 1024 * i ≤ vp < 1024 * i + j ∧ mapping (kmem k0) pd vp = Some e ∧ q = page_of e.
(** The first [i] tables with their frames. *)
Definition tables (i q : Z) : Prop :=
  ∃ i', 0 ≤ i' < i ∧ pde_at (kmem k0) pd i' ≠ 0 ∧ (q = table i' ∨ frames i' 1024 q).

Lemma table_is i : 0 ≤ i < 768 → pde_at (kmem k0) pd i ≠ 0 → is_table (kmem k0) pd (table i).
Proof. intros Hi Hn. right. by exists i. Qed.

Lemma frames_user i j vp : 0 ≤ i < 768 → 0 ≤ j ≤ 1024 → 1024 * i ≤ vp < 1024 * i + j → user_page vp.
Proof. unfold user_page. lia. Qed.

(** Frames are no tables. *)
Lemma frames_not_table i j q : 0 ≤ i < 768 → 0 ≤ j ≤ 1024 → frames i j q → ¬ is_table (kmem k0) pd q.
Proof using Hw.
  intros Hi Hj (vp & e & Hv & He & ->). by apply (aw_frame _ _ Hw vp e); [eapply frames_user|].
Qed.

Lemma tables_not_pd i : i ≤ 768 → ¬ tables i pd.
Proof using Hw.
  intros Hi (i' & Hi' & Hn & [E|Hf]).
  - apply (aw_pde _ _ Hw i'); [lia|done|by symmetry].
  - apply (frames_not_table i' 1024 pd) in Hf; [|lia..]. apply Hf. by left.
Qed.

Lemma tables_not_table i : 0 ≤ i < 768 → pde_at (kmem k0) pd i ≠ 0 → ¬ tables i (table i).
Proof using Hw.
  intros Hi Hn (i' & Hi' & Hn' & [E|Hf]).
  - apply (aw_inj _ _ Hw) in E; [lia|lia|lia|done|done].
  - apply (frames_not_table i' 1024) in Hf; [|lia..]. by apply Hf, table_is.
Qed.

(** The frame of a page that comes later has not been freed. *)
Lemma frame_fresh i j vp e :
  0 ≤ i < 768 → 0 ≤ j ≤ 1024 → pde_at (kmem k0) pd i ≠ 0 → 1024 * i + j ≤ vp < 1024 * (i + 1) →
  mapping (kmem k0) pd vp = Some e → ¬ (tables i (page_of e) ∨ frames i j (page_of e)).
Proof using Hw.
  intros Hi Hj Hn Hv He. assert (Hu : user_page vp) by (unfold user_page; lia).
  assert (Hinj : ∀ vp' e', user_page vp' → mapping (kmem k0) pd vp' = Some e' → page_of e = page_of e' → vp = vp').
  { intros vp' e' Hv' He' E. by eapply (aw_frame_inj _ _ Hw). }
  intros [(i' & Hi' & Hn' & [E|(vp' & e' & Hv' & He' & E)])|(vp' & e' & Hv' & He' & E)].
  - destruct (aw_frame _ _ Hw vp e Hu He) as [_ Hnt]. apply Hnt. rewrite E. by apply table_is; [lia|].
  - pose proof (Hinj vp' e' ltac:(unfold user_page; lia) He' E). lia.
  - pose proof (Hinj vp' e' ltac:(unfold user_page; lia) He' E). lia.
Qed.

Lemma mapping_entry i j :
  0 ≤ i < 768 → 0 ≤ j < 1024 → pde_at (kmem k0) pd i ≠ 0 →
  mapping (kmem k0) pd (1024 * i + j)
  = let e := load32 (kmem k0) (table i + 4 * j) in if Z.land e PTE_P =? 0 then None else Some e.
Proof.
  intros Hi Hj Hn. unfold mapping, pte_at, pte_addr.
  replace ((1024 * i + j) / 1024) with i by (Z.to_euclidean_division_equations; lia).
  replace ((1024 * i + j) mod 1024) with j by (Z.to_euclidean_division_equations; lia).
  by rewrite (proj2 (Z.eqb_neq _ _) Hn).
Qed.

Lemma frames_snoc i j q :
  frames i (j + 1) q ↔ frames i j q ∨ 0 ≤ j ∧ ∃ e, mapping (kmem k0) pd (1024 * i + j) = Some e ∧ q = page_of e.
Proof.
  split.
  - intros (vp & e & Hv & He & E). destruct (decide (vp = 1024 * i + j)) as [->|].
    + right. split; [lia|]. by exists e.
    + left. exists vp, e. split_and!; [lia..|done|done].
  - intros [(vp & e & Hv & He & E)|(Hj & e & He & E)]; [exists vp, e|exists (1024 * i + j), e]; split_and!; done || lia.
Qed.

Lemma destroy_pt_spec i n : ∀ k j,
  0 ≤ i < 768 → pde_at (kmem k0) pd i ≠ 0 → 0 ≤ j → j + Z.of_nat n = 1024 →
  freed k0 k (λ q, tables i q ∨ frames i j q) →
  ∃ k', destroy_pt_loop n k (table i + 4 * j) = Ret k' ∧ freed k0 k' (λ q, tables i q ∨ frames i 1024 q).
Proof using Hw.
  induction n as [|n IH]; intros k j Hi Hn Hj Hjn Hf; cbn [destroy_pt_loop].
  { exists k. split; [done|]. replace 1024 with j by lia. done. }
  assert (Ht : allocated (ks k) (table i) = true).
  { apply (fr_alloc _ _ _ Hf). split; [by apply (table_alloc _ _ _ Hw), table_is|].
    intros [H|H]; [by apply tables_not_table in H|]. eapply frames_not_table in H; [|lia..].
    by apply H, table_is. }
  rewrite (freed_load k0 k _ (table i)) by (done || lia).
  pose proof (mapping_entry i j Hi ltac:(lia) Hn) as Em. cbv zeta in Em. set (e := load32 _ _) in *.
  assert (Hrest : ∀ k1, freed k0 k1 (λ q, tables i q ∨ frames i (j + 1) q) →
    ∃ k', destroy_pt_loop n k1 (table i + 4 * j + 4) = Ret k' ∧ freed k0 k' (λ q, tables i q ∨ frames i 1024 q)).
  { intros k1 H1. replace (table i + 4 * j + 4) with (table i + 4 * (j + 1)) by lia.
    apply IH; try done; lia. }
  destruct (Z.land e PTE_P =? 0) eqn:Ep; cbn [negb].
  - rewrite bind_Ret. apply Hrest. eapply freed_ext; [exact Hf|]. intros q. cbn beta.
    rewrite frames_snoc, Em. naive_solver.
  - assert (Hu : user_page (1024 * i + j)) by (unfold user_page; lia).
    destruct (aw_frame _ _ Hw _ e Hu Em) as [Ha _].
    rewrite get_page_of, bind_Ret; [|apply load32_range|by eapply allocated_kpage; [apply Hw|]].
    destruct (freed_page k0 k _ (page_of e) Hf Ha) as (s & -> & Hf1).
    { eapply frame_fresh; [done|..|done]; [lia|done|lia]. }
    rewrite bind_Ret, bind_Ret. apply Hrest. eapply freed_ext; [exact Hf1|]. intros q. cbn beta.
    rewrite frames_snoc, Em. naive_solver.
Qed.

Lemma tables_snoc i q :
  0 ≤ i → tables (i + 1) q ↔ tables i q ∨ pde_at (kmem k0) pd i ≠ 0 ∧ (q = table i ∨ frames i 1024 q).
Proof.
  intros Hi0. split.
  - intros (i' & Hi' & Hn & H). destruct (decide (i' = i)) as [->|]; [by right|].
    left. exists i'. split; [lia|done].
  - intros [(i' & Hi' & H)|H]; [exists i'|exists i]; (split; [lia|done]).
Qed.

Lemma destroy_pd_spec n : ∀ k i,
  0 ≤ i → i + Z.of_nat n = 768 → freed k0 k (tables i) →
  ∃ k', destroy_pd_loop n k (pd + 4 * i) = Ret k' ∧ freed k0 k' (tables 768).
Proof using Hw.
  induction n as [|n IH]; intros k i Hi Hin Hf; cbn [destroy_pd_loop].
  { exists k. split; [done|]. by replace 768 with i by lia. }
  assert (Hpd : allocated (ks k) pd = true).
  { apply (fr_alloc _ _ _ Hf). split; [apply Hw|]. apply tables_not_pd. lia. }
  rewrite (freed_load k0 k _ pd) by (done || lia). fold (pde_at (kmem k0) pd i).
  assert (Hrest : ∀ k1, freed k0 k1 (tables (i + 1)) →
    ∃ k', destroy_pd_loop n k1 (pd + 4 * i + 4) = Ret k' ∧ freed k0 k' (tables 768)).
  { intros k1 H1. replace (pd + 4 * i + 4) with (pd + 4 * (i + 1)) by lia. apply IH; try done; lia. }
  destruct (decide (pde_at (kmem k0) pd i = 0)) as [Ez|Hn].
  - rewrite Ez. change (negb (Z.land 0 PTE_P =? 0)) with false. cbn iota. rewrite bind_Ret. apply Hrest.
    eapply freed_ext; [exact Hf|]. intros q. rewrite tables_snoc by done. tauto.
  - destruct (aw_pde _ _ Hw i ltac:(lia) Hn) as (Hp & Ha & _). fold (table i) in Ha.
    change (pmem (ks k0)) with (kmem k0) in *.
    rewrite (proj2 (Z.eqb_neq _ _) Hp). cbn [negb].
    rewrite get_pt_of, bind_Ret; [|apply load32_range|done|by eapply allocated_kpage; [apply Hw|]].
    fold (table i).
    destruct (destroy_pt_spec i 1024 k 0 ltac:(lia) Hn ltac:(lia) eq_refl) as (k1 & E & Hf1).
    { eapply freed_ext; [exact Hf|]. intros q. split; [by left|]. intros [|(vp & e & Hv & _)]; [done|lia]. }
    rewrite Z.mul_0_r, Z.add_0_r in E. rewrite E, bind_Ret.
    destruct (freed_page k0 k1 _ (table i) Hf1 Ha) as (s & -> & Hf2).
    { intros [H|H]; [apply tables_not_table in H; [done|lia|done]|].
      eapply frames_not_table in H; [|lia..]. apply H, table_is; [lia|done]. }
    rewrite !bind_Ret. apply Hrest. eapply freed_ext; [exact Hf2|]. intros q. cbn beta.
    rewrite tables_snoc by done. tauto.
Qed.

Lemma tables_all q : tables 768 q ∨ q = pd ↔ in_use (ks k0) pd q.
Proof using Hw.
  unfold in_use, is_table. split.
  - intros [(i & Hi & Hn & [->|(vp & e & Hv & He & ->)])| ->].
    + left; right. by exists i.
    + right. exists vp, e. split_and!; [unfold user_page; lia|done|done].
    + by left; left.
  - intros [[->|(i & Hi & Hn & ->)]|(vp & e & Hv & He & ->)]; [by right|left..].
    + exists i. split_and!; [lia..|done|by left].
    + exists (vp / 1024). destruct (user_page_split _ Hv) as [Hd Hm]. split_and!; [lia..| |].
      * intros E. unfold mapping, pte_at, kmem in *. rewrite E in He. done.
      * right. exists vp, e. split_and!; [|..|done|done]; Z.to_euclidean_division_equations; lia.
Qed.

Lemma pagedir_destroy_spec init_page_dir :
  pd ≠ init_page_dir →
  ∃ k', pagedir_destroy init_page_dir k0 pd = Ret k' ∧ freed k0 k' (in_use (ks k0) pd).
Proof using Hw.
  intros Hi. unfold pagedir_destroy.
  destruct (allocated_kpage _ _ (aw_palloc _ _ Hw) (aw_pd _ _ Hw)) as [_ Hr]. unfold PHYS_BASE in Hr.
  rewrite (proj2 (Z.eqb_neq _ _)) by (unfold NULL; lia).
  rewrite ASSERT_true by (by rewrite (proj2 (Z.eqb_neq _ _) Hi)).
  change (Z.to_nat (pd_no PHYS_BASE)) with 768%nat.
  destruct (destroy_pd_spec 768 k0 0 ltac:(lia) eq_refl) as (k1 & E & Hf).
  { eapply freed_ext; [apply freed_refl, Hw|]. intros q. split; [done|]. intros (i & Hi' & _). lia. }
  rewrite Z.mul_0_r, Z.add_0_r in E. rewrite E, bind_Ret. destruct (freed_page k0 k1 _ pd Hf (aw_pd _ _ Hw)) as (s & -> & Hf2).
  { by apply tables_not_pd. }
  eexists. split; [done|]. eapply freed_ext; [exact Hf2|]. intros q. cbn beta. apply tables_all.
Qed.
End Destroy.

(** C20: A process that ends gives back exactly what its address space consists of: every
    frame, every page table and the directory are free afterwards, every other page is
    allocated as before and keeps its bytes, and the processor runs on the kernel's own
    directory with an empty TLB. *)
Theorem process_exit_correct init_page_dir p :
  as_wf (ks (pk p)) (pagedir (cur p)) → pagedir (cur p) ≠ init_page_dir → kpage_ok init_page_dir →
  ∃ p', process_exit init_page_dir p = Ret p' ∧ pagedir (cur p') = NULL
    ∧ palloc_wf (ks (pk p')) ∧ cr3 (pk p') = init_page_dir - PHYS_BASE ∧ tlb (pk p') = ∅
    ∧ (∀ q, allocated (ks (pk p')) q = true ↔
         allocated (ks (pk p)) q = true ∧ ¬ in_use (ks (pk p)) (pagedir (cur p)) q)
    ∧ (∀ q, allocated (ks (pk p')) q = true → same_bytes (kmem (pk p)) (kmem (pk p')) q (q + 4096)).
Proof.
  intros Hw Hi Hk. unfold process_exit.
  destruct (allocated_kpage _ _ (aw_palloc _ _ Hw) (aw_pd _ _ Hw)) as [_ Hr]. unfold PHYS_BASE in Hr.
  rewrite (proj2 (Z.eqb_neq _ _)) by (unfold NULL; lia). cbn [negb].
  unfold pagedir_activate. rewrite Z.eqb_refl, vtop_kpage, !bind_Ret by done.
  set (k1 := KState _ _ _).
  destruct (pagedir_destroy_spec k1 (pagedir (cur p)) Hw init_page_dir Hi) as (k' & -> & Hf).
  rewrite bind_Ret. eexists. split; [done|]. destruct Hf as [H1 H2 H3 H4 H5 H6]. by split_and!.
Qed.

Lemma process_exit_witness :
  ∃ p', process_exit demo_init_pd demo_proc = Ret p' ∧ pagedir (cur p') = NULL
    ∧ allocated (ks (pk p')) demo_pd ≠ true.
Proof.
  destruct (process_exit_correct demo_init_pd demo_proc) as (p' & E & Hp & _ & _ & _ & Ha & _).
  - apply demo_inv.
  - done.
  - apply (bool_decide_eq_true_1 _). vm_compute. reflexivity.
  - exists p'. split_and!; [exact E|exact Hp|]. intros H. apply Ha in H as [_ H]. apply H. left. by left.
Defined.
