(* ===== verification/Syscall.v ===== *)
(** * System calls (userprog/syscall.c)

    The handler reads its arguments from the user stack and works on user memory through
    the page tables.  An access to a page that is not there raises a page fault in the
    kernel, which [page_fault] resolves by growing the stack or by ending the process; the
    access is then tried again. *)
From S2P Require Import Prelude Mem Bitmap Vaddr Palloc Pagedir UserPages Sbrk Fault KernelTheorems KernelHeap.
From S2P Require Import Inode Directory Process.

(** ** Calls that may end the process *)
Inductive sysout (A : Type) : Type :=
| SRet (a : A) (s : sys)
| SExit (status : option Z) (s : sys).
Arguments SRet {A} a s.
Arguments SExit {A} status s.

Definition call (A : Type) : Type := sys → res (sysout A).
#[export] Instance call_ret : MRet call := fun A a s => Ret (SRet a s).
#[export] Instance call_bind : MBind call := fun A B k m s =>
  match m s with
  | Ret (SRet a s) => k a s
  | Ret (SExit st s) => Ret (SExit st s)
  | Panic => Panic
  | Stuck => Stuck
  end.

Definition set_thread (s : sys) (t : thread) : sys := Sys (Proc (pk (sp s)) t) (sf s).
Definition update_thread (f : thread → thread) : call () := λ s,
  Ret (SRet tt (set_thread s (f (cur (sp s))))).
Definition get_thread : call thread := λ s, Ret (SRet (cur (sp s)) s).
(** A call of the file system, or of the memory system. *)
Definition on_fs {A} (f : fs → res (A * fs)) : call A := λ s,
  '(a, f) ← f (sf s); Ret (SRet a (Sys (sp s) f)).
Definition on_proc {A} (f : proc → res (A * proc)) : call A := λ s,
  '(a, p) ← f (sp s); Ret (SRet a (Sys p (sf s))).

Definition SYS_EXIT : Z := 1.
Definition SYS_OPEN : Z := 6.
Definition SYS_READ : Z := 8.
Definition SYS_WRITE : Z := 9.
Definition SYS_CLOSE : Z := 12.
Definition SYS_SBRK : Z := 21.
Definition STDOUT_FILENO : Z := 1.

Definition syscall_exit {A} (status : Z) : call A := λ s, Ret (SExit (Some status) s).

Section Syscall.
Context (init_page_dir init_ram_pages : Z).
(** The frame of the system call, which [USER_INTR_FRAME_PTR] points to, and the kernel's
    stack pointer at a fault. *)
Context (uf : intr_frame) (kernel_esp : Z).

(** ** User memory *)

(** The fault the processor raises for an access of the kernel. *)
Definition kernel_fault (va : Z) (present write : bool) : call () := λ s,
  let code := Z.lor (if present then PF_P else 0) (if write then PF_W else 0) in
  o ← page_fault init_page_dir init_ram_pages (sp s) (Some uf) (Frame kernel_esp 0 SEL_KCSEG code) va;
  match o with
  | Go p => Ret (SRet tt (Sys p (sf s)))
  | Exit st p => Ret (SExit st (Sys p (sf s)))
  end.

Definition load_again (va : Z) : call Z := λ s,
  match user_byte (sp s) va with Some b => Ret (SRet b s) | None => Stuck end.
Definition put_again (va v : Z) : call () := λ s,
  match user_store (sp s) va v with Some p => Ret (SRet tt (Sys p (sf s))) | None => Stuck end.

(** A load of one byte; a fault that comes back without a page would come again. *)
Definition user_load (va : Z) : call Z := λ s,
  match user_byte (sp s) va with
  | Some b => Ret (SRet b s)
  | None =>
    (_ ← kernel_fault va false false; load_again va) s
  end.

Definition is_present (p : proc) (va : Z) : bool :=
  match user_byte p va with Some _ => true | None => false end.
(** A store of one byte; the processor checks the write permission in the kernel too. *)
Definition user_put (va v : Z) : call () := λ s,
  match user_store (sp s) va v with
  | Some p => Ret (SRet tt (Sys p (sf s)))
  | None =>
    (_ ← kernel_fault va (is_present (sp s) va) true; put_again va v) s
  end.

Fixpoint load_bytes (n : nat) (va : Z) : call (list Z) :=
  match n with
  | O => mret []
  | S n => b ← user_load va; bs ← load_bytes n (u32 (va + 1)); mret (b :: bs)
  end.
Fixpoint put_bytes (bs : list Z) (va : Z) : call () :=
  match bs with
  | [] => mret tt
  | b :: bs => _ ← user_put va b; put_bytes bs (u32 (va + 1))
  end.

Definition user_word (va : Z) : call Z :=
  bs ← load_bytes 4 va;
  mret (word_at bs 0).

(** ** Checks *)
Definition validate_buffer_in_user_region (buffer length : Z) : call () :=
  let delta := u32 (PHYS_BASE - buffer) in
  if negb (is_user_vaddr buffer) || (delta <? length) then syscall_exit (-1) else mret tt.

(** [strnlen]: the bytes before the terminator, [n] at most. *)
Fixpoint user_string (n : nat) (va : Z) : call (list Z) :=
  match n with
  | O => mret []
  | S n =>
    b ← user_load va;
    if b =? 0 then mret [] else bs ← user_string n (u32 (va + 1)); mret (b :: bs)
  end.
Definition validate_string_in_user_region (string : Z) : call (list Z) :=
  let delta := u32 (PHYS_BASE - string) in
  if negb (is_user_vaddr string) then syscall_exit (-1) else
  bs ← user_string (Z.to_nat delta) string;
  if Z.of_nat (length bs) =? delta then syscall_exit (-1) else mret bs.

(** ** The calls *)
Definition syscall_open (filename : list Z) : call Z :=
  t ← get_thread;
  if negb (open_file t =? NULL) then mret (-1) else
  f ← on_fs (λ s, filesys_open s filename);
  _ ← update_thread (λ t, set_open_file t f);
  if f =? NULL then mret (-1) else mret 2.

(** *** File data in user memory

    The loops of [inode_read_at] and [inode_write_at] work on the user's buffer itself, a
    sector at a time.  A fault that ends the process in the middle leaves the sectors
    written so far on the disk and the file's position where it was. *)
Definition sector_in_range (sector : Z) : call () :=
  on_fs (λ s, if dev_size s <=? sector then Panic else Ret (tt, s)).

Fixpoint user_write_loop (fuel : nat) (i : inode) (bounce : bool) (offset va size bytes_written : Z) : call Z :=
  match fuel with
  | O => λ _, Stuck
  | S fuel =>
    if 0 <? size then
      let sector_idx := byte_to_sector i offset in
      let sector_ofs := Z.rem offset BLOCK_SECTOR_SIZE in
      let sector_left := BLOCK_SECTOR_SIZE - sector_ofs in
      let chunk := chunk_size i size offset in
      if chunk <=? 0 then mret bytes_written else
      if (sector_ofs =? 0) && (chunk =? BLOCK_SECTOR_SIZE) then
        _ ← sector_in_range sector_idx;
        part ← load_bytes (Z.to_nat chunk) va;
        _ ← on_fs (λ s, s ← block_write s sector_idx part; Ret (tt, s));
        user_write_loop fuel i bounce (offset + chunk) (u32 (va + chunk)) (size - chunk) (bytes_written + chunk)
      else
        ok ← on_fs (λ s, Ret (get_bounce s bounce));
        if (ok : bool) then
          bs ← on_fs (λ s, bs ← (if (0 <? sector_ofs) || (chunk <? sector_left) then block_read s sector_idx
                                 else Ret (replicate 512 0)); Ret (bs, s));
          part ← load_bytes (Z.to_nat chunk) va;
          _ ← on_fs (λ s, s ← block_write s sector_idx (splice bs sector_ofs part); Ret (tt, s));
          user_write_loop fuel i true (offset + chunk) (u32 (va + chunk)) (size - chunk) (bytes_written + chunk)
        else mret bytes_written
    else mret bytes_written
  end.

Fixpoint user_read_loop (fuel : nat) (i : inode) (bounce : bool) (offset va size bytes_read : Z) : call Z :=
  match fuel with
  | O => λ _, Stuck
  | S fuel =>
    if 0 <? size then
      let sector_idx := byte_to_sector i offset in
      let sector_ofs := Z.rem offset BLOCK_SECTOR_SIZE in
      let chunk := chunk_size i size offset in
      if chunk <=? 0 then mret bytes_read else
      if (sector_ofs =? 0) && (chunk =? BLOCK_SECTOR_SIZE) then
        bs ← on_fs (λ s, bs ← block_read s sector_idx; Ret (bs, s));
        _ ← put_bytes bs va;
        user_read_loop fuel i bounce (offset + chunk) (u32 (va + chunk)) (size - chunk) (bytes_read + chunk)
      else
        ok ← on_fs (λ s, Ret (get_bounce s bounce));
        if (ok : bool) then
          bs ← on_fs (λ s, bs ← block_read s sector_idx; Ret (bs, s));
          _ ← put_bytes (take (Z.to_nat chunk) (drop (Z.to_nat sector_ofs) bs)) va;
          user_read_loop fuel i true (offset + chunk) (u32 (va + chunk)) (size - chunk) (bytes_read + chunk)
        else mret bytes_read
    else mret bytes_read
  end.

(** The position moves once the loop is over. *)
Definition move_position (p : Z) (f : file) (n : Z) : call () :=
  on_fs (λ s, Ret (tt, set_file s p (File (f_inode f) (s32 (f_pos f + n)) (deny_write f)))).

(** [file_write] and [file_read] on a buffer of the user. *)
Definition user_file_write (p va size : Z) : call Z :=
  f ← on_fs (λ s, f ← get_file s p; Ret (f, s));
  i ← on_fs (λ s, i ← get_inode s (f_inode f); Ret (i, s));
  n ← (if negb (deny_write_cnt i =? 0) then mret 0
       else user_write_loop (S (Z.to_nat size)) i false (f_pos f) va size 0);
  _ ← move_position p f n;
  mret n.
Definition user_file_read (p va size : Z) : call Z :=
  f ← on_fs (λ s, f ← get_file s p; Ret (f, s));
  i ← on_fs (λ s, i ← get_inode s (f_inode f); Ret (i, s));
  n ← user_read_loop (S (Z.to_nat size)) i false (f_pos f) va size 0;
  _ ← move_position p f n;
  mret n.

Definition syscall_write (fd buffer size : Z) : call Z :=
  t ← get_thread;
  if fd =? STDOUT_FILENO then
    _ ← load_bytes (Z.to_nat size) buffer;
    mret (s32 size)
  else if negb (fd =? 2) || (open_file t =? NULL) then mret (-1) else
  user_file_write (open_file t) buffer (s32 size).

Definition syscall_read (fd buffer size : Z) : call Z :=
  t ← get_thread;
  if negb (fd =? 2) || (open_file t =? NULL) then mret (-1) else
  user_file_read (open_file t) buffer (s32 size).

Definition syscall_close (fd : Z) : call () :=
  t ← get_thread;
  if (fd =? 2) && negb (open_file t =? NULL) then
    _ ← on_fs (λ s, s ← file_close s (open_file t); Ret (tt, s));
    update_thread (λ t, set_open_file t NULL)
  else mret tt.

(** ** The handler: the new value of [eax], when the call sets it.

    The process has one thread, so an argument word that has been read is not read again;
    the interrupt frame the handler publishes for page faults is [uf]. *)
Definition syscall_body (args : Z) : call (option Z) :=
  let arg (i : Z) := u32 (args + 4 * i) in
  _ ← validate_buffer_in_user_region args 4;
  nr ← user_word args;
  if nr =? SYS_EXIT then
    _ ← validate_buffer_in_user_region (arg 1) 4;
    st ← user_word (arg 1);
    syscall_exit (s32 st)
  else if nr =? SYS_OPEN then
    _ ← validate_buffer_in_user_region (arg 1) 4;
    a ← user_word (arg 1);
    name ← validate_string_in_user_region a;
    r ← syscall_open name;
    mret (Some (u32 r))
  else if nr =? SYS_WRITE then
    _ ← validate_buffer_in_user_region (arg 1) 12;
    b ← user_word (arg 2); n ← user_word (arg 3);
    _ ← validate_buffer_in_user_region b n;
    fd ← user_word (arg 1);
    r ← syscall_write (s32 fd) b n;
    mret (Some (u32 r))
  else if nr =? SYS_READ then
    _ ← validate_buffer_in_user_region (arg 1) 12;
    b ← user_word (arg 2); n ← user_word (arg 3);
    _ ← validate_buffer_in_user_region b n;
    fd ← user_word (arg 1);
    r ← syscall_read (s32 fd) b n;
    mret (Some (u32 r))
  else if nr =? SYS_CLOSE then
    _ ← validate_buffer_in_user_region (arg 1) 4;
    fd ← user_word (arg 1);
    _ ← syscall_close (s32 fd);
    mret None
  else if nr =? SYS_SBRK then
    _ ← validate_buffer_in_user_region (arg 1) 4;
    inc ← user_word (arg 1);
    r ← on_proc (λ p, syscall_sbrk init_page_dir init_ram_pages p (s32 inc));
    mret (Some r)
  else mret None.

Definition syscall_handler : call intr_frame :=
  _ ← update_thread (λ t, set_in_syscall t true);
  r ← syscall_body (esp uf);
  _ ← update_thread (λ t, set_in_syscall t false);
  mret (Frame (esp uf) (default (eax uf) r) (cs uf) (error_code uf)).
End Syscall.
