(* ===== verification/Isolation.v ===== *)
(** * System calls stay within the caller's address space

    Whatever a program passes to a system call, the pages that do not belong to its
    address space keep their contents and their owner.  The proof goes through the calls
    with a logic of its own: [spec m Q] says that [m] keeps the invariant and stays inside
    the address space, and that its result satisfies [Q]. *)
From S2P Require Import Prelude Mem Bitmap Vaddr Palloc Pagedir UserPages Sbrk Fault KernelTheorems KernelHeap.
From S2P Require Import Inode Directory Process Loader Syscall.

(** ** Isolation *)

(** The pages outside the address space [pd] are the same ones, with the same bytes. *)
Record isolated (k k' : kstate) (pd : Z) : Prop := {
  is_wf : as_wf (ks k') pd;
  is_foreign : ∀ q, foreign k' pd q ↔ foreign k pd q;
  is_data : ∀ q, foreign k pd q → same_bytes (kmem k) (kmem k') q (q + 4096);
  is_geom : same_geom (ks k) (ks k');
  is_cr3 : cr3 k' = cr3 k;
}.

Lemma isolated_refl k pd : as_wf (ks k) pd → isolated k k pd.
Proof. intros Hw. by split. Qed.

Lemma isolated_trans k k1 k2 pd : isolated k k1 pd → isolated k1 k2 pd → isolated k k2 pd.
Proof.
  intros [A1 A2 A3 A4 A5] [B1 B2 B3 B4 B5]. split; try done.
  - intros q. by rewrite B2.
  - intros q Hq x Hx. rewrite (B3 q) by (rewrite ?A2; done). by apply (A3 q).
  - by eapply same_geom_trans.
  - congruence.
Qed.

Lemma as_step_isolated k k' pd : as_step k k' pd → isolated k k' pd.
Proof. intros [A1 A2 A3 A4 A5 A6 A7 A8]. by split. Qed.

(** A store through the page tables hits a frame of the address space. *)
Lemma user_store_isolated p va v p' :
  as_wf (ks (pk p)) (pagedir (cur p)) → 0 ≤ va < PHYS_BASE → user_store p va v = Some p' →
  cur p' = cur p ∧ isolated (pk p) (pk p') (pagedir (cur p)).
Proof.
  intros Hw Hva Hst. pose proof (user_store_mapping p va v p' Hw Hva Hst) as Hm.
  assert (Hv : user_page (va / 4096)) by (unfold user_page, PHYS_BASE in *; Z.to_euclidean_division_equations; lia).
  unfold user_store in Hst.
  destruct (mapping _ _ (va / 4096)) as [e|] eqn:Em; [|done]. destruct (_ =? 0); [done|].
  injection Hst as <-. cbn [cur pk] in *. split; [done|].
  destruct (aw_frame _ _ Hw _ _ Hv Em) as [Ha Hnt].
  destruct (allocated_kpage _ _ (aw_palloc _ _ Hw) Ha) as [Hpm _].
  set (m' := store8 _ _ _) in *. pose proof (Z.mod_pos_bound va 4096 ltac:(lia)) as Hmod.
  assert (Hb : ∀ q, allocated (ks (pk p)) q = true → q ≠ page_of e → same_bytes (kmem (pk p)) m' q (q + 4096)).
  { intros q Hq Hne x Hx. apply load8_store8_ne.
    destruct (allocated_kpage _ _ (aw_palloc _ _ Hw) Hq) as [Hqm _].
    destruct (pages_apart _ _ Hqm Hpm Hne); lia. }
  assert (Hpde : ∀ i, 0 ≤ i < 768 → pde_at m' (pagedir (cur p)) i = pde_at (kmem (pk p)) (pagedir (cur p)) i).
  { intros i Hi. apply (pde_at_same (ks (pk p))); [done| |done]. apply Hb; [apply Hw|].
    intros E. apply Hnt. rewrite <- E. by left. }
  assert (Hw' : as_wf (set_pmem (ks (pk p)) m') (pagedir (cur p))).
  { apply (as_wf_keep (ks (pk p))); try done.
    - by apply set_pmem_wf, Hw.
    - intros q Hq. change (allocated (ks (pk p)) q = true). by eapply table_alloc.
    - intros vp e' Hvp. cbn [pmem set_pmem]. intros He'. exists e'. rewrite Hm in He' by done.
      split_and!; try done. by apply (aw_frame _ _ Hw vp e'). }
  assert (Hin : ∀ q, in_use (set_pmem (ks (pk p)) m') (pagedir (cur p)) q
                     ↔ in_use (ks (pk p)) (pagedir (cur p)) q).
  { intros q. unfold in_use. cbn [pmem set_pmem]. rewrite (is_table_same _ m') by done.
    apply or_iff_compat_l. split; intros (vp & e' & Hvp & He' & ->); exists vp, e'; split_and!; try done;
      [by rewrite Hm in He'|by rewrite Hm]. }
  split; cbn [with_ks ks]; try done.
  - intros q. unfold foreign. cbn [with_ks ks]. by rewrite Hin.
  - intros q [Hq Hnu]. apply Hb; [done|]. intros ->. apply Hnu. right. by exists (va / 4096), e.
Qed.

(** ** The heap break *)
Section Pages.
Context (init_page_dir init_ram_pages : Z).

(** A page allocated, held while the address space changes, and freed again. *)
Lemma borrow_isolated k s pd q u z k2 s3 :
  as_wf (ks k) pd → got_pages (ks k) s u z q 1 → isolated (with_ks k s) k2 pd →
  palloc_free_page (ks k2) q = Ret s3 → isolated k (with_ks k2 s3) pd.
Proof.
  intros Hw Hg [Hw2 Hf2 Hd2 Hg2 Hc2] E. pose proof (got_foreign k s pd q u z Hw Hg) as Hf1.
  pose proof (got_fresh k s q u z Hg) as Hfr.
  assert (foreign k2 pd q) as Hq2 by (apply Hf2, Hf1; by right).
  destruct (free_foreign k2 pd q Hw2 Hq2) as (s3' & E' & Hw3 & Hg3 & Hm3 & Ht3 & Ha3 & Hb3).
  rewrite E in E'. injection E' as <-.
  assert (∀ p, in_use s3 pd p ↔ in_use (ks k2) pd p) as Hiu.
  { intros p. unfold in_use. rewrite Ht3. apply or_iff_compat_l.
    split; intros (vp & e & Hv & He & Ep); exists vp, e; split_and!; try done;
      [by rewrite Hm3 in He|by rewrite Hm3]. }
  split; [done|..].
  - intros p. unfold foreign at 1. cbn [with_ks ks]. rewrite Ha3, Hiu. split.
    + case_decide; [by intros []|]. intros Hp.
      assert (foreign k2 pd p) as [?|?]%Hf2%Hf1 by done; [done|congruence].
    + intros Hp. assert (foreign k2 pd p) as [? ?] by (apply Hf2, Hf1; by left).
      rewrite decide_False; [done|]. intros ->. destruct Hp. congruence.
  - intros p Hp x Hx. assert (foreign (with_ks k s) pd p) as Hp1 by (apply Hf1; by left).
    assert (foreign k2 pd p) as [Hpa _] by (by apply Hf2).
    destruct Hp as [Hpk Hpn]. change (kmem (with_ks k2 s3)) with (pmem s3).
    rewrite (Hb3 p), (Hd2 p) by (done || congruence).
    by apply (got_bytes k s pd q u z Hw Hg p).
  - eapply same_geom_trans; [apply (gp_geom _ _ _ _ _ _ Hg)|]. by eapply same_geom_trans.
  - done.
Qed.

Lemma isolated_cr3 k k' pd : isolated k k' pd → cr3_ok k → cr3_ok k'.
Proof. intros [_ _ _ _ E] (a & ? & ?). exists a. by rewrite E. Qed.
Lemma isolated_ram k k' pd : isolated k k' pd → ram_ok init_ram_pages (ks k) → ram_ok init_ram_pages (ks k').
Proof. intros [_ _ _ Hg _]. by apply ram_ok_geom. Qed.

(** The address of a page of a range, when the code's checks accept it. *)
Lemma range_page start i :
  start mod 4096 = 0 → is_user_vaddr (u32 (start + PGSIZE * i)) = true →
  ∃ vp, user_page vp ∧ u32 (start + PGSIZE * i) = 4096 * vp.
Proof.
  unfold is_user_vaddr, user_page, PHYS_BASE. change PGSIZE with 4096. intros Hm Hu%Z.ltb_lt.
  unfold u32 in *. exists ((start + 4096 * i) mod 2 ^ 32 / 4096).
  change (2 ^ 32) with 4294967296 in *. Z.to_euclidean_division_equations; lia.
Qed.

Lemma unmap_loop_isolated pd st en : st mod 4096 = 0 → ∀ fuel k i k',
  as_wf (ks k) pd → cr3_ok k →
  unmap_loop init_page_dir fuel k pd st en i = Ret k' → isolated k k' pd.
Proof.
  intros Hst. induction fuel as [|fuel IH]; intros k i k' Hw Hc; [done|]. cbn [unmap_loop].
  destruct (_ <=? en); [|intros [= <-]; by apply isolated_refl].
  destruct (is_user_vaddr (u32 (st + PGSIZE * i))) eqn:Hu.
  2:{ unfold pagedir_get_page. by rewrite Hu. }
  destruct (range_page st i Hst Hu) as (vp & Hv & ->).
  destruct (unmap_one_spec init_page_dir k pd vp Hw Hc Hv) as (k1 & E & Hs & _).
  apply as_step_isolated in Hs. unfold unmap_one in E.
  destruct (pagedir_get_page k pd (4096 * vp)) as [kp| |]; try done. rewrite bind_Ret in E |- *.
  rewrite E, bind_Ret. intros Hr.
  eapply isolated_trans; [done|]. eapply IH; [apply Hs|by eapply isolated_cr3|done].
Qed.

Lemma unmap_user_pages_isolated k pd st en k' :
  as_wf (ks k) pd → cr3_ok k → unmap_user_pages init_page_dir k pd st en = Ret k' → isolated k k' pd.
Proof.
  intros Hw Hc. unfold unmap_user_pages. change (Z.land st PGMASK) with (pg_ofs st). rewrite pg_ofs_mod.
  destruct (Z.eqb_spec (st mod 4096) 0) as [Hm|]; [|done]. rewrite ASSERT_true by done.
  destruct (_ =? 0); [|done]. rewrite ASSERT_true by done.
  destruct (_ <=? _); [|done]. rewrite ASSERT_true by done. by apply unmap_loop_isolated.
Qed.

(** One page mapped; a page that is there already stops the machine. *)
Lemma map_one_isolated k pd vp s q r :
  as_wf (ks k) pd → ram_ok init_ram_pages (ks k) → pd ≠ init_page_dir → user_page vp →
  got_pages (ks k) s true true q 1 →
  pagedir_set_page init_page_dir init_ram_pages (with_ks k s) pd (4096 * vp) q true = Ret r →
  (∃ k', r = (true, k') ∧ isolated k k' pd) ∨ r = (false, with_ks k s).
Proof.
  intros Hw Hram Hpd Hv Hg.
  pose proof (got_wf k s pd q true true Hw Hg) as Hw1.
  pose proof (got_unused k s pd q true true Hw Hg) as Hu.
  assert (Hpre : set_page_pre init_page_dir init_ram_pages pd q) by (split; [done|by eapply got_ram]).
  destruct (mapping (kmem (with_ks k s)) pd vp) as [e|] eqn:Em.
  { rewrite (pagedir_set_page_twice _ _ (with_ks k s) _ vp q true e); try done.
    eapply allocated_kpage; [apply Hw1|apply Hu]. }
  assert (Hnone : mapping (kmem k) pd vp = None).
  { rewrite <- Em. symmetry. by apply (got_map k s pd q true true). }
  destruct (pagedir_set_page_spec init_page_dir init_ram_pages (with_ks k s) pd vp q true Hw1 Hv)
    as [(k' & -> & Htlb & Hr)|(-> & Hfull)]; try done; intros [= <-]; [left|by right].
  exists k'. split; [done|]. by eapply as_step_isolated, map_got_step.
Qed.

Lemma map_loop_isolated pd st en : st mod 4096 = 0 → pd ≠ init_page_dir → ∀ fuel k i ok k',
  as_wf (ks k) pd → cr3_ok k → ram_ok init_ram_pages (ks k) →
  map_loop init_page_dir init_ram_pages fuel k pd st en i = Ret (ok, k') → isolated k k' pd.
Proof.
  intros Hst Hpd. induction fuel as [|fuel IH]; intros k i ok k' Hw Hc Hram; [done|]. cbn [map_loop].
  destruct (_ <=? en); [|intros [= <- <-]; by apply isolated_refl]. unfold palloc_get_page.
  destruct (palloc_get_multiple_spec (ks k) (Z.lor PAL_USER PAL_ZERO) 1 (aw_palloc _ _ Hw))
    as [(q & s & -> & Hq & Hg)|(Hfull & ->)]; [lia|..].
  2:{ change (flag (Z.lor PAL_USER PAL_ZERO) PAL_ASSERT) with false. cbn iota.
      rewrite bind_Ret, Z.eqb_refl. replace (with_ks k (ks k)) with k by (by destruct k).
      intros H. bind_inv H. injection H as <- <-. by eapply unmap_user_pages_isolated. }
  rewrite bind_Ret. cbn beta iota. destruct (Z.eqb_spec q NULL); [done|].
  change (flag _ PAL_USER) with true in Hg. change (flag _ PAL_ZERO) with true in Hg.
  destruct (is_user_vaddr (u32 (st + PGSIZE * i))) eqn:Hu.
  2:{ unfold pagedir_set_page. rewrite Hu. intros H. bind_inv H. do 3 bind_inv H0. done. }
  destruct (range_page st i Hst Hu) as (vp & Hv & ->). intros H. bind_inv H.
  destruct (map_one_isolated k pd vp s q _ Hw Hram Hpd Hv Hg H0) as [(k1 & -> & Hs)| ->]; cbn in H.
  - eapply isolated_trans; [done|].
    eapply IH; [apply Hs|by eapply isolated_cr3|by eapply isolated_ram|done].
  - bind_inv H. bind_inv H. injection H as <- <-.
    eapply borrow_isolated; [done|done| |done]. eapply unmap_user_pages_isolated; [|done|done].
    by eapply got_wf.
Qed.

Lemma map_user_pages_isolated k pd st en ok k' :
  as_wf (ks k) pd → cr3_ok k → ram_ok init_ram_pages (ks k) → pd ≠ init_page_dir →
  map_user_pages init_page_dir init_ram_pages k pd st en = Ret (ok, k') → isolated k k' pd.
Proof.
  intros Hw Hc Hram Hpd. unfold map_user_pages. change (Z.land st PGMASK) with (pg_ofs st).
  rewrite pg_ofs_mod. destruct (Z.eqb_spec (st mod 4096) 0) as [Hm|]; [|done]. rewrite ASSERT_true by done.
  destruct (_ =? 0); [|done]. rewrite ASSERT_true by done.
  destruct (_ <=? _); [|done]. rewrite ASSERT_true by done. by apply map_loop_isolated.
Qed.

Lemma sbrk_isolated p inc r p' :
  space_ok init_page_dir init_ram_pages p → syscall_sbrk init_page_dir init_ram_pages p inc = Ret (r, p') →
  isolated (pk p) (pk p') (pagedir (cur p)) ∧ pagedir (cur p') = pagedir (cur p)
  ∧ in_syscall (cur p') = in_syscall (cur p).
Proof.
  intros [Hw Hc Hram Hpd]. pose proof (isolated_refl _ _ Hw) as Href. unfold syscall_sbrk.
  destruct (inc =? 0); [by intros [= <- <-]|]. destruct (_ <? s32 _); [by intros [= <- <-]|].
  intros H. bind_inv H. destruct v as [ok k].
  assert (isolated (pk p) k (pagedir (cur p))) as Hk.
  { repeat case_match; try (by injection H0 as <- <-); try (by eapply map_user_pages_isolated);
      bind_inv H0; injection H0 as <- <-; by eapply unmap_user_pages_isolated. }
  destruct ok; injection H as <- <-; by split_and!.
Qed.
End Pages.

Section Calls.
Context (init_page_dir init_ram_pages : Z) (uf : intr_frame) (kernel_esp : Z).
Local Abbreviation space_ok := (space_ok init_page_dir init_ram_pages).

Record inside (s s' : sys) : Prop := {
  in_iso : isolated (pk (sp s)) (pk (sp s')) (pagedir (cur (sp s)));
  in_pd : pagedir (cur (sp s')) = pagedir (cur (sp s));
}.
Definition ok (s : sys) : Prop := space_ok (sp s) ∧ in_syscall (cur (sp s)) = true.

Definition spec {A} (m : call A) (Q : A → Prop) : Prop :=
  ∀ s, ok s →
    match m s with
    | Ret (SRet a s') => inside s s' ∧ ok s' ∧ Q a
    | Ret (SExit _ s') => inside s s'
    | Panic | Stuck => True
    end.

Lemma inside_refl s : space_ok (sp s) → inside s s.
Proof. intros Hs. split; [|done]. apply isolated_refl, Hs. Qed.
Lemma inside_trans s s1 s2 : inside s s1 → inside s1 s2 → inside s s2.
Proof.
  intros [A1 A2] [B1 B2]. split; [|congruence]. eapply isolated_trans; [done|]. by rewrite A2 in B1.
Qed.
Lemma space_isolated p p' :
  space_ok p → isolated (pk p) (pk p') (pagedir (cur p)) → pagedir (cur p') = pagedir (cur p) → space_ok p'.
Proof.
  intros [H1 [a [Ha Ec]] H3 H4] [A1 A2 A3 A4 A5] E. split; rewrite ?E; try done.
  - exists a. by rewrite A5.
  - by eapply ram_ok_geom.
Qed.

Lemma spec_ret {A} (a : A) (Q : A → Prop) : Q a → spec (mret a) Q.
Proof. intros Ha s Hs. split_and!; [apply inside_refl, Hs|done|done]. Qed.
Lemma spec_bind {A B} (m : call A) (k : A → call B) Q R :
  spec m Q → (∀ a, Q a → spec (k a) R) → spec (m ≫= k) R.
Proof.
  intros Hm Hk s Hs. specialize (Hm s Hs). unfold mbind, call_bind.
  destruct (m s) as [[a s1|st s1]| |]; try done. destruct Hm as (Hi & Hs1 & Ha).
  specialize (Hk a Ha s1 Hs1). destruct (k a s1) as [[b s2|st s2]| |]; try done.
  - destruct Hk as (? & ? & ?). split_and!; [by eapply inside_trans|done|done].
  - by eapply inside_trans.
Qed.
Lemma spec_weaken {A} (m : call A) (Q R : A → Prop) : spec m Q → (∀ a, Q a → R a) → spec m R.
Proof. intros Hm HQ s Hs. specialize (Hm s Hs). destruct (m s) as [[]| |]; naive_solver. Qed.
Lemma spec_exit {A} st (Q : A → Prop) : spec (syscall_exit st) Q.
Proof. intros s Hs. apply inside_refl, Hs. Qed.

(** Calls that leave the memory alone. *)
Lemma spec_fs {A} (f : fs → res (A * fs)) : spec (on_fs f) (λ _, True).
Proof.
  intros s Hs. unfold on_fs. destruct (f (sf s)) as [[a f']| |]; [|done..].
  split_and!; [|done|done]. destruct (inside_refl s (proj1 Hs)). by split.
Qed.
Lemma spec_update (g : thread → thread) :
  (∀ t, pagedir (g t) = pagedir t ∧ in_syscall (g t) = in_syscall t) →
  spec (update_thread g) (λ _, True).
Proof.
  intros Hg s [Hs Hi]. destruct (Hg (cur (sp s))) as [Ep Ei]. cbn.
  destruct (inside_refl s Hs) as [H1 H2]. split_and!; [by split| |done].
  split; [|cbn; congruence]. destruct Hs. cbn. by split; cbn; rewrite ?Ep.
Qed.
Lemma spec_get : spec get_thread (λ _, True).
Proof. intros s Hs. split_and!; [apply inside_refl, Hs|done|done]. Qed.

(** ** User memory *)
Lemma spec_fault va present write :
  0 ≤ va < PHYS_BASE → spec (kernel_fault init_page_dir init_ram_pages uf kernel_esp va present write) (λ _, True).
Proof.
  intros Hva s [Hs Hi]. unfold kernel_fault. set (f := Frame _ _ _ _).
  destruct (page_fault_outcome init_page_dir init_ram_pages (sp s) (Some uf) f va Hs Hva) as (o & -> & Ho).
  { unfold user_fault, f. by destruct present, write. }
  rewrite bind_Ret. assert (Hun : ∀ p', cur p' = cur (sp s) → as_step (pk (sp s)) (pk p') (pagedir (cur (sp s))) →
    inside s (Sys p' (sf s)) ∧ ok (Sys p' (sf s))).
  { intros p' Ec Hst. assert (inside s (Sys p' (sf s))) as Hin.
    { split; cbn; [by apply as_step_isolated|by rewrite Ec]. }
    split; [done|]. destruct Hin. split; cbn in *; [by eapply space_isolated|by rewrite Ec]. }
  destruct o as [p'|st p'].
  - destruct Ho as [_ [->|(Ec & Hst & _)]]; [|destruct (Hun p' Ec Hst); by split_and!].
    split_and!; [|by split|done]. destruct (inside_refl s Hs). by split.
  - destruct Ho as (Ec & Hst & _). apply (Hun p' Ec Hst).
Qed.

Lemma spec_load va : 0 ≤ va < PHYS_BASE →
  spec (user_load init_page_dir init_ram_pages uf kernel_esp va) (λ b, 0 ≤ b < 256).
Proof.
  intros Hva s Hs. unfold user_load.
  assert (Hb : ∀ p b, user_byte p va = Some b → 0 ≤ b < 256).
  { intros p b. unfold user_byte. destruct (mapping _ _ _); [|done]. intros [= <-]. apply load8_range. }
  destruct (user_byte (sp s) va) as [b|] eqn:E.
  - split_and!; [apply inside_refl, Hs|done|by eapply Hb..].
  - revert s Hs E. intros s Hs _.
    apply (spec_bind _ _ (λ _, True)); [by apply spec_fault| |done].
    intros _ _ s1 Hs1. unfold load_again. destruct (user_byte (sp s1) va) as [b|] eqn:E1; [|done].
    split_and!; [apply inside_refl, Hs1|done|by eapply Hb..].
Qed.

Lemma spec_put va v : 0 ≤ va < PHYS_BASE →
  spec (user_put init_page_dir init_ram_pages uf kernel_esp va v) (λ _, True).
Proof.
  intros Hva s Hs. unfold user_put.
  assert (Hst : ∀ s p, ok s → user_store (sp s) va v = Some p →
    inside s (Sys p (sf s)) ∧ ok (Sys p (sf s)) ∧ True).
  { intros s0 p [Hs0 Hi0] E.
    destruct (user_store_isolated _ _ _ _ (so_as _ _ _ Hs0) Hva E) as [Ec Hiso].
    split_and!; [split; cbn; [done|by rewrite Ec]| |done].
    split; cbn; [eapply space_isolated; [done|done|by rewrite Ec]|by rewrite Ec]. }
  destruct (user_store (sp s) va v) as [p|] eqn:E; [by apply Hst|].
  apply (spec_bind _ _ (λ _, True)); [by apply spec_fault| |done].
  intros _ _ s1 Hs1. unfold put_again. destruct (user_store (sp s1) va v) as [p|] eqn:E1; [|done].
  by apply Hst.
Qed.
(** ** Ranges of user memory *)
Definition in_user (va n : Z) : Prop := 0 ≤ va ∧ va + n ≤ PHYS_BASE.

Lemma in_user_head va n : in_user va (Z.of_nat (S n)) → 0 ≤ va < PHYS_BASE.
Proof. unfold in_user. lia. Qed.
Lemma in_user_tail va n : in_user va (Z.of_nat (S n)) → in_user (u32 (va + 1)) (Z.of_nat n).
Proof. unfold in_user, PHYS_BASE. intros [? ?]. rewrite u32_id by (unfold is_u32; lia). lia. Qed.

Lemma spec_load_bytes n : ∀ va, in_user va (Z.of_nat n) →
  spec (load_bytes init_page_dir init_ram_pages uf kernel_esp n va) (λ bs, length bs = n ∧ Forall is_byte bs).
Proof.
  induction n as [|n IH]; intros va Hu; [by apply spec_ret|]. cbn [load_bytes].
  eapply spec_bind; [by eapply spec_load, in_user_head|]. intros b Hb.
  eapply spec_bind; [by apply IH, in_user_tail|]. intros bs [Hl Hbs].
  apply spec_ret. cbn. split; [lia|by constructor].
Qed.

Lemma spec_put_bytes bs : ∀ va, in_user va (Z.of_nat (length bs)) →
  spec (put_bytes init_page_dir init_ram_pages uf kernel_esp bs va) (λ _, True).
Proof.
  induction bs as [|b bs IH]; intros va Hu; [by apply spec_ret|]. cbn [put_bytes].
  eapply spec_bind; [by eapply spec_put, in_user_head|]. intros _ _. by apply IH, in_user_tail.
Qed.

Lemma word_u32 bs o : Forall is_byte bs → is_u32 (word_at bs o).
Proof.
  intros Hb. assert (∀ o, is_byte (byte_at bs o)) as Hr.
  { intros o'. unfold byte_at. destruct (bs !! o') as [b|] eqn:E; [by eapply Forall_lookup_1|done]. }
  unfold word_at, half_at, is_u32, is_byte in *.
  pose proof (Hr o). pose proof (Hr (S o)). pose proof (Hr (S (S o))). pose proof (Hr (S (S (S o)))). lia.
Qed.
Lemma spec_word va : in_user va 4 →
  spec (user_word init_page_dir init_ram_pages uf kernel_esp va) is_u32.
Proof.
  intros Hu. eapply spec_bind; [by apply (spec_load_bytes 4)|]. intros bs [_ Hb]. apply spec_ret.
  by apply word_u32.
Qed.

Lemma spec_buffer b n : is_u32 b → spec (validate_buffer_in_user_region b n) (λ _, in_user b n ∧ b < PHYS_BASE).
Proof.
  intros Hb. unfold validate_buffer_in_user_region, is_user_vaddr.
  destruct (Z.ltb_spec b PHYS_BASE); [|apply spec_exit].
  rewrite u32_id by (unfold is_u32, PHYS_BASE in *; lia).
  destruct (Z.ltb_spec (PHYS_BASE - b) n); [apply spec_exit|]. apply spec_ret.
  unfold in_user, is_u32 in *. lia.
Qed.

Lemma spec_string n : ∀ va, in_user va (Z.of_nat n) →
  spec (user_string init_page_dir init_ram_pages uf kernel_esp n va) (λ _, True).
Proof.
  induction n as [|n IH]; intros va Hu; [by apply spec_ret|]. cbn [user_string].
  eapply spec_bind; [by eapply spec_load, in_user_head|]. intros b _.
  destruct (b =? 0); [by apply spec_ret|].
  eapply spec_bind; [by apply IH, in_user_tail|]. intros bs _. by apply spec_ret.
Qed.
Lemma spec_validate_string a : is_u32 a →
  spec (validate_string_in_user_region init_page_dir init_ram_pages uf kernel_esp a) (λ _, True).
Proof.
  intros Ha. unfold validate_string_in_user_region, is_user_vaddr.
  destruct (Z.ltb_spec a PHYS_BASE); [|apply spec_exit]. cbn [negb].
  rewrite u32_id by (unfold is_u32, PHYS_BASE in *; lia).
  eapply spec_bind; [apply spec_string; unfold in_user, is_u32 in *; lia|]. intros bs _.
  destruct (_ =? _); [apply spec_exit|by apply spec_ret].
Qed.

(** ** The calls *)
Lemma spec_open name : spec (syscall_open name) (λ _, True).
Proof.
  eapply spec_bind; [apply spec_get|]. intros t _. destruct (negb _); [by apply spec_ret|].
  eapply spec_bind; [apply spec_fs|]. intros f _.
  eapply spec_bind; [by apply spec_update|]. intros _ _. by destruct (f =? NULL); apply spec_ret.
Qed.

Lemma spec_close fd : spec (syscall_close fd) (λ _, True).
Proof.
  eapply spec_bind; [apply spec_get|]. intros t _. destruct (_ && _); [|by apply spec_ret].
  eapply spec_bind; [apply spec_fs|]. intros _ _. by apply spec_update.
Qed.

Lemma s32_pos n : 0 ≤ n → s32 n ≤ n.
Proof. intros. unfold s32, u32. case_match; Z.to_euclidean_division_equations; lia. Qed.

Lemma spec_fs_read {A} (f : fs → res A) (Q : A → Prop) :
  (∀ s a, f s = Ret a → Q a) → spec (on_fs (λ s, a ← f s; Ret (a, s))) Q.
Proof.
  intros HQ s Hs. unfold on_fs. destruct (f (sf s)) as [a| |] eqn:E; [|done..].
  split_and!; [|done|by eapply HQ]. destruct (inside_refl s (proj1 Hs)). by split.
Qed.
Lemma chunk_size_le i size ofs : chunk_size i size ofs ≤ size.
Proof. unfold chunk_size. repeat case_match; lia. Qed.
(** The rest of a buffer, after a chunk of it. *)
Lemma in_user_rest va size chunk : in_user va size → 0 ≤ chunk ≤ size →
  in_user (u32 (va + chunk)) (size - chunk).
Proof. unfold in_user, PHYS_BASE. intros [? ?] ?. rewrite u32_id by (unfold is_u32; lia). lia. Qed.
Lemma in_user_part va size chunk : in_user va size → 0 ≤ chunk ≤ size → in_user va (Z.of_nat (Z.to_nat chunk)).
Proof. unfold in_user. lia. Qed.
Lemma block_read_length s sec bs : block_read s sec = Ret bs → length bs = 512%nat.
Proof. unfold block_read. destruct (_ <=? _); [done|]. intros [= <-]. apply length_bytes_at. Qed.

Lemma spec_write_loop i fuel : ∀ bounce ofs va size w, in_user va (Z.max 0 size) →
  spec (user_write_loop init_page_dir init_ram_pages uf kernel_esp fuel i bounce ofs va size w) (λ _, True).
Proof.
  induction fuel as [|fuel IH]; intros bounce ofs va size w Hu; [done|]. cbn [user_write_loop].
  destruct (Z.ltb_spec 0 size); [|by apply spec_ret]. pose proof (chunk_size_le i size ofs) as Hle.
  destruct (Z.leb_spec (chunk_size i size ofs) 0); [by apply spec_ret|].
  rewrite Z.max_r in Hu by lia.
  assert (in_user (u32 (va + chunk_size i size ofs)) (Z.max 0 (size - chunk_size i size ofs))).
  { rewrite Z.max_r by lia. by apply in_user_rest; [|lia]. }
  assert (in_user va (Z.of_nat (Z.to_nat (chunk_size i size ofs)))) by (eapply in_user_part; [done|lia]).
  destruct (_ && _).
  - eapply spec_bind; [apply spec_fs|]. intros _ _.
    eapply spec_bind; [by apply spec_load_bytes|]. intros part _.
    eapply spec_bind; [apply spec_fs|]. intros _ _. by apply IH.
  - eapply spec_bind; [apply spec_fs|]. intros ok _. destruct ok; [|by apply spec_ret].
    eapply spec_bind; [apply spec_fs|]. intros bs _.
    eapply spec_bind; [by apply spec_load_bytes|]. intros part _.
    eapply spec_bind; [apply spec_fs|]. intros _ _. by apply IH.
Qed.

Lemma spec_read_loop i fuel : ∀ bounce ofs va size w, in_user va (Z.max 0 size) →
  spec (user_read_loop init_page_dir init_ram_pages uf kernel_esp fuel i bounce ofs va size w) (λ _, True).
Proof.
  induction fuel as [|fuel IH]; intros bounce ofs va size w Hu; [done|]. cbn [user_read_loop].
  destruct (Z.ltb_spec 0 size); [|by apply spec_ret]. pose proof (chunk_size_le i size ofs) as Hle.
  destruct (Z.leb_spec (chunk_size i size ofs) 0); [by apply spec_ret|].
  rewrite Z.max_r in Hu by lia.
  assert (in_user (u32 (va + chunk_size i size ofs)) (Z.max 0 (size - chunk_size i size ofs))).
  { rewrite Z.max_r by lia. by apply in_user_rest; [|lia]. }
  destruct (_ && _) eqn:Ea.
  - apply andb_true_iff in Ea as [_ Ec%Z.eqb_eq].
    eapply spec_bind; [apply (spec_fs_read _ (λ bs, length bs = 512%nat)); intros ? ?; apply block_read_length|]. intros bs Hb.
    eapply spec_bind; [apply spec_put_bytes; unfold in_user, BLOCK_SECTOR_SIZE in *; lia|]. intros _ _. by apply IH.
  - eapply spec_bind; [apply spec_fs|]. intros ok _. destruct ok; [|by apply spec_ret].
    eapply spec_bind; [apply spec_fs|]. intros bs _.
    eapply spec_bind; [apply spec_put_bytes; rewrite length_take; unfold in_user in *; lia|]. intros _ _. by apply IH.
Qed.

Lemma spec_write fd b n : is_u32 n → in_user b n →
  spec (syscall_write init_page_dir init_ram_pages uf kernel_esp fd b n) (λ _, True).
Proof.
  intros [Hn _] Hu. pose proof (s32_pos n Hn). unfold in_user in Hu.
  eapply spec_bind; [apply spec_get|]. intros t _. destruct (fd =? _).
  { eapply spec_bind; [apply spec_load_bytes; unfold in_user; lia|]. intros _ _. by apply spec_ret. }
  destruct (_ || _); [by apply spec_ret|].
  eapply spec_bind; [apply spec_fs|]. intros f _. eapply spec_bind; [apply spec_fs|]. intros i _.
  eapply (spec_bind _ _ (λ _, True)).
  { destruct (negb _); [by apply spec_ret|]. apply spec_write_loop. unfold in_user. lia. }
  intros m _. eapply spec_bind; [apply spec_fs|]. intros _ _. by apply spec_ret.
Qed.

Lemma spec_read fd b n : is_u32 n → in_user b n →
  spec (syscall_read init_page_dir init_ram_pages uf kernel_esp fd b n) (λ _, True).
Proof.
  intros [Hn _] Hu. pose proof (s32_pos n Hn). unfold in_user in Hu.
  eapply spec_bind; [apply spec_get|]. intros t _. destruct (_ || _); [by apply spec_ret|].
  eapply spec_bind; [apply spec_fs|]. intros f _. eapply spec_bind; [apply spec_fs|]. intros i _.
  eapply spec_bind; [apply spec_read_loop; unfold in_user; lia|].
  intros m _. eapply spec_bind; [apply spec_fs|]. intros _ _. by apply spec_ret.
Qed.

Lemma spec_sbrk inc :
  spec (on_proc (λ p, syscall_sbrk init_page_dir init_ram_pages p inc)) (λ _, True).
Proof.
  intros s [Hs Hi]. unfold on_proc.
  destruct (syscall_sbrk _ _ _ _) as [[r p']| |] eqn:E; [|done..]. rewrite bind_Ret.
  destruct (sbrk_isolated _ _ _ _ _ _ Hs E) as (H1 & H2 & H3).
  split_and!; [by split| |done]. split; cbn; [by eapply space_isolated|congruence].
Qed.

(** ** The handler *)
Lemma arg_user args i n : 0 ≤ args < PHYS_BASE → 1 ≤ i ≤ 3 → in_user (u32 (args + 4 * 1)) n → 4 * i ≤ n →
  in_user (u32 (args + 4 * i)) 4.
Proof.
  unfold in_user, PHYS_BASE. intros Ha Hi. rewrite !u32_id by (unfold is_u32; lia). lia.
Qed.

Ltac arg_words := repeat
  match goal with
  | |- spec (user_word _ _ _ _ (u32 (_ + 4 * _)) ≫= _) _ =>
    eapply spec_bind; [eapply spec_word, arg_user; [done|lia|eassumption|lia]|intros ? ?; cbn beta]
  | |- spec (validate_buffer_in_user_region ?a ?n ≫= _) _ =>
    eapply spec_bind; [apply (spec_buffer a n); apply u32_range || done|intros _ [? ?]; cbn beta]
  end.

Lemma spec_body args : is_u32 args →
  spec (syscall_body init_page_dir init_ram_pages uf kernel_esp args) (λ _, True).
Proof.
  intros Ha. unfold syscall_body.
  eapply spec_bind; [by apply (spec_buffer args 4)|]. intros _ [Hu Hlt].
  assert (0 ≤ args < PHYS_BASE) as Hr by (unfold in_user in Hu; lia).
  eapply spec_bind; [by apply spec_word|]. intros nr _.
  repeat (destruct (nr =? _); [arg_words|]); [..|by apply spec_ret].
  - apply spec_exit.
  - eapply spec_bind; [by apply spec_validate_string|]. intros name _.
    eapply spec_bind; [apply spec_open|]. intros r _. by apply spec_ret.
  - eapply spec_bind; [by apply spec_write|]. intros r _. by apply spec_ret.
  - eapply spec_bind; [by apply spec_read|]. intros r _. by apply spec_ret.
  - eapply spec_bind; [apply spec_close|]. intros _ _. by apply spec_ret.
  - eapply spec_bind; [apply spec_sbrk|]. intros r _. by apply spec_ret.
Qed.
End Calls.
