(* ===== verification/SyscallTheorems.v ===== *)
(** * What the system call handler guarantees

    The theorems on [syscall_handler]: no call reaches pages of the kernel or of another
    process, a bad pointer ends the process before anything is done, and a call of [sbrk]
    that a program makes through its stack does what [Sbrk] says of it. *)
From S2P Require Import Prelude Mem Bitmap Vaddr Palloc Pagedir UserPages Sbrk Fault KernelTheorems KernelHeap.
From S2P Require Import Inode Directory Process Loader Syscall Isolation.

(** ** Argument words *)

(** The bytes from [va] on, and the word there, when their pages are present. *)
Fixpoint read_bytes (p : proc) (n : nat) (va : Z) : option (list Z) :=
  match n with
  | O => Some []
  | S n => b ← user_byte p va; bs ← read_bytes p n (va + 1); Some (b :: bs)
  end.
Definition read_word (p : proc) (va : Z) : option Z := (λ bs, word_at bs 0) <$> read_bytes p 4 va.

Section Calls.
Context (init_page_dir init_ram_pages : Z) (uf : intr_frame) (kernel_esp : Z).

Lemma load_bytes_mapped s n : ∀ va bs,
  in_user va (Z.of_nat n) → read_bytes (sp s) n va = Some bs →
  load_bytes init_page_dir init_ram_pages uf kernel_esp n va s = Ret (SRet bs s).
Proof.
  induction n as [|n IH]; intros va bs Hu; [by intros [= <-]|]. cbn [read_bytes].
  destruct (user_byte (sp s) va) as [b|] eqn:Eb; [|done]. cbn.
  destruct (read_bytes (sp s) n (va + 1)) as [bs'|] eqn:Ebs; [|done]. cbn. intros [= <-].
  unfold mbind, call_bind, user_load. rewrite Eb.
  assert (u32 (va + 1) = va + 1) as Ev.
  { apply u32_id. unfold is_u32, in_user, PHYS_BASE in *. lia. }
  rewrite Ev, (IH _ bs'); [done| |done]. unfold in_user in *. lia.
Qed.

(** *** A write of a buffer that is present is [file_write] of its bytes. *)
Lemma read_bytes_length p n : ∀ va bs, read_bytes p n va = Some bs → length bs = n.
Proof.
  induction n as [|n IH]; intros va bs; cbn [read_bytes]; [by intros [= <-]|].
  destruct (user_byte p va); [|done]. cbn. destruct (read_bytes p n (va + 1)) as [bs'|] eqn:E; [|done].
  intros [= <-]. cbn. by rewrite (IH _ _ E).
Qed.
Lemma read_bytes_split p n m : ∀ va bs, read_bytes p (n + m) va = Some bs →
  read_bytes p n va = Some (take n bs) ∧ read_bytes p m (va + Z.of_nat n) = Some (drop n bs).
Proof.
  induction n as [|n IH]; intros va bs; cbn [read_bytes Nat.add].
  { intros E. by replace (va + Z.of_nat 0) with va by lia. }
  destruct (user_byte p va) as [b|]; [|done]. cbn.
  destruct (read_bytes p (n + m) (va + 1)) as [bs'|] eqn:E; [|done]. cbn. intros [= <-]. cbn.
  destruct (IH _ _ E) as [-> E2]. split; [done|].
  by replace (va + Z.of_nat (S n)) with (va + 1 + Z.of_nat n) by lia.
Qed.

(** The outcome of a file system operation, as that of a call. *)
Definition lift_fs {A} (p : proc) (r : res (A * fs)) : res (sysout A) :=
  '(a, f) ← r; Ret (SRet a (Sys p f)).
Lemma bind_fs {A B} (s : sys) (f : fs → res (A * fs)) (k : A → call B) :
  (on_fs f ≫= k) s = ('(a, f) ← f (sf s); k a (Sys (sp s) f)).
Proof. unfold mbind, call_bind, on_fs. by destruct (f (sf s)) as [[a f']| |]. Qed.

Lemma user_write_loop_mapped i p fuel : ∀ f bounce ofs va bs w,
  in_user va (Z.of_nat (length bs)) → read_bytes p (length bs) va = Some bs →
  user_write_loop init_page_dir init_ram_pages uf kernel_esp fuel i bounce ofs va (Z.of_nat (length bs)) w (Sys p f)
  = lift_fs p (write_loop fuel f i bounce ofs bs w).
Proof.
  induction fuel as [|fuel IH]; intros f bounce ofs va bs w Hu Hb; [done|].
  cbn [user_write_loop write_loop]. destruct (Z.ltb_spec 0 (Z.of_nat (length bs))); [|done].
  pose proof (chunk_size_le i (Z.of_nat (length bs)) ofs) as Hle.
  destruct (Z.leb_spec (chunk_size i (Z.of_nat (length bs)) ofs) 0); [done|].
  set (c := chunk_size i _ ofs) in *.
  destruct (read_bytes_split p (Z.to_nat c) (length bs - Z.to_nat c) va bs) as [Ht Hd].
  { by replace (Z.to_nat c + (length bs - Z.to_nat c))%nat with (length bs) by lia. }
  assert (Hload : ∀ g, load_bytes init_page_dir init_ram_pages uf kernel_esp (Z.to_nat c) va (Sys p g)
    = Ret (SRet (take (Z.to_nat c) bs) (Sys p g))).
  { intros g. apply load_bytes_mapped; [eapply in_user_part; [done|lia]|done]. }
  assert (Hrest : ∀ g bo w', user_write_loop init_page_dir init_ram_pages uf kernel_esp fuel i bo (ofs + c) (u32 (va + c))
      (Z.of_nat (length bs) - c) w' (Sys p g)
    = lift_fs p (write_loop fuel g i bo (ofs + c) (drop (Z.to_nat c) bs) w')).
  { intros g bo w'. rewrite <- (IH _ _ _ (u32 (va + c))); rewrite length_drop.
    - do 2 f_equal. lia.
    - replace (Z.of_nat (length bs - Z.to_nat c)) with (Z.of_nat (length bs) - c) by lia.
      apply in_user_rest; [done|lia].
    - rewrite u32_id by (unfold is_u32, in_user, PHYS_BASE in *; lia).
      rewrite <- Hd. do 2 f_equal. lia. }
  destruct (_ && _).
  - unfold sector_in_range. rewrite bind_fs. cbn [sf sp]. unfold block_write.
    destruct (dev_size f <=? byte_to_sector i ofs) eqn:E; [done|]. rewrite bind_Ret.
    unfold mbind at 1, call_bind at 1. rewrite Hload. rewrite bind_fs. cbn [sf sp]. rewrite E, !bind_Ret.
    apply Hrest.
  - rewrite bind_fs, bind_Ret. cbn [sf sp]. destruct (get_bounce f bounce) as [ok g].
    destruct ok; [|done]. rewrite bind_fs. cbn [sf sp].
    set (R := if _ || _ then block_read g _ else Ret _). destruct R as [old| |]; [|done..]. rewrite !bind_Ret.
    unfold mbind at 1, call_bind at 1. rewrite Hload, bind_fs. cbn [sf sp].
    destruct (block_write g _ _) as [g'| |]; [|done..]. rewrite !bind_Ret. apply Hrest.
Qed.

(** What [write] does with a buffer whose pages are there. *)
Theorem user_file_write_mapped p f file va bs :
  in_user va (Z.of_nat (length bs)) → read_bytes p (length bs) va = Some bs →
  user_file_write init_page_dir init_ram_pages uf kernel_esp file va (Z.of_nat (length bs)) (Sys p f)
  = lift_fs p (file_write f file bs).
Proof.
  intros Hu Hb. unfold user_file_write, file_write, inode_write_at, move_position.
  rewrite bind_fs. cbn [sf sp]. destruct (get_file f file) as [fl| |]; [|done..]. rewrite !bind_Ret.
  rewrite bind_fs. cbn [sf sp]. destruct (get_inode f _) as [i| |]; [|done..]. rewrite !bind_Ret.
  destruct (negb _); [done|]. unfold mbind at 1, call_bind at 1. rewrite Nat2Z.id, user_write_loop_mapped by done.
  by destruct (write_loop _ _ _ _ _ _ _) as [[n g]| |].
Qed.

Lemma user_word_mapped s va w :
  in_user va 4 → read_word (sp s) va = Some w →
  user_word init_page_dir init_ram_pages uf kernel_esp va s = Ret (SRet w s).
Proof.
  unfold read_word, user_word. destruct (read_bytes (sp s) 4 va) as [bs|] eqn:E; [|done].
  intros Hu [= <-]. unfold mbind, call_bind. by rewrite (load_bytes_mapped s 4 va bs).
Qed.

Lemma validate_buffer_run b n s :
  is_u32 b → validate_buffer_in_user_region b n s
  = if decide (b < PHYS_BASE ∧ b + n ≤ PHYS_BASE) then Ret (SRet tt s) else Ret (SExit (Some (-1)) s).
Proof.
  intros Hb. unfold validate_buffer_in_user_region, is_user_vaddr, syscall_exit.
  destruct (Z.ltb_spec b PHYS_BASE); [|by rewrite decide_False by lia].
  rewrite u32_id by (unfold is_u32, PHYS_BASE in *; lia).
  destruct (Z.ltb_spec (PHYS_BASE - b) n); [by rewrite decide_False by lia|by rewrite decide_True by lia].
Qed.

Lemma run_bind {A B} (m : call A) (k : A → call B) s a s' :
  m s = Ret (SRet a s') → (m ≫= k) s = k a s'.
Proof. intros E. unfold mbind, call_bind. by rewrite E. Qed.
Lemma run_exit {A B} (m : call A) (k : A → call B) s st s' :
  m s = Ret (SExit st s') → (m ≫= k) s = Ret (SExit st s').
Proof. intros E. unfold mbind, call_bind. by rewrite E. Qed.
End Calls.

(** ** Bad pointers *)
Definition user_range (b n : Z) : Prop := b < PHYS_BASE ∧ b + n ≤ PHYS_BASE.

(** The argument words of the calls. *)
Definition arg_count (nr : Z) : option Z :=
  if decide (nr = SYS_READ ∨ nr = SYS_WRITE) then Some 3
  else if decide (nr = SYS_EXIT ∨ nr = SYS_OPEN ∨ nr = SYS_CLOSE ∨ nr = SYS_SBRK) then Some 1
  else None.

(** The stack pointer, the arguments, the buffer or the file name reach into the kernel. *)
Inductive bad_call (p : proc) (args : Z) : Prop :=
| bad_stack : ¬ user_range args 4 → bad_call p args
| bad_args nr n :
  read_word p args = Some nr → arg_count nr = Some n → ¬ user_range (args + 4) (4 * n) → bad_call p args
| bad_buffer nr b n :
  read_word p args = Some nr → arg_count nr = Some 3 →
  read_word p (args + 8) = Some b → read_word p (args + 12) = Some n → ¬ user_range b n → bad_call p args
| bad_name a :
  read_word p args = Some SYS_OPEN → read_word p (args + 4) = Some a → PHYS_BASE ≤ a → bad_call p args.

(** The process with its [in_syscall] set. *)
Definition flag_proc (p : proc) (b : bool) : proc := Proc (pk p) (set_in_syscall (cur p) b).
Definition flag_sys (s : sys) (b : bool) : sys := Sys (flag_proc (sp s) b) (sf s).

Lemma read_bytes_flag p b n : ∀ va, read_bytes (flag_proc p b) n va = read_bytes p n va.
Proof. induction n as [|n IH]; intros va; [done|]. cbn [read_bytes]. by rewrite IH. Qed.
Lemma read_word_flag p b va : read_word (flag_proc p b) va = read_word p va.
Proof. unfold read_word. by rewrite read_bytes_flag. Qed.
Lemma bad_call_flag p b args : bad_call p args → bad_call (flag_proc p b) args.
Proof.
  intros [?|nr n ? ? ?|nr c n ? ? ? ? ?|a ? ? ?].
  - by apply bad_stack.
  - eapply bad_args; rewrite ?read_word_flag; done.
  - eapply bad_buffer; rewrite ?read_word_flag; done.
  - eapply bad_name; rewrite ?read_word_flag; done.
Qed.
Lemma read_word_u32 p va w : read_word p va = Some w → is_u32 w.
Proof.
  unfold read_word. destruct (read_bytes p 4 va) as [bs|] eqn:E; [|done]. intros [= <-].
  assert (∀ n va bs, read_bytes p n va = Some bs → Forall is_byte bs) as Hb.
  { clear. induction n as [|n IH]; intros va bs; cbn [read_bytes]; [by intros [= <-]|].
    destruct (user_byte p va) as [b|] eqn:Eb; [|done]. cbn.
    destruct (read_bytes p n (va + 1)) as [bs'|] eqn:E; [|done]. intros [= <-]. constructor; [|by eapply IH].
    unfold user_byte in Eb. destruct (mapping _ _ _); [|done]. injection Eb as <-. apply load8_range. }
  by eapply word_u32, Hb.
Qed.

Section Handler.
Context (init_page_dir init_ram_pages : Z) (uf : intr_frame) (kernel_esp : Z).
Local Abbreviation body := (syscall_body init_page_dir init_ram_pages uf kernel_esp).
Local Abbreviation handler := (syscall_handler init_page_dir init_ram_pages uf kernel_esp).

Lemma run_validate {B} b n (k : () → call B) s :
  is_u32 b → user_range b n → (validate_buffer_in_user_region b n ≫= k) s = k tt s.
Proof. intros Hb Hr. apply run_bind. by rewrite validate_buffer_run, decide_True. Qed.
Lemma exit_validate {B} b n (k : () → call B) s :
  is_u32 b → ¬ user_range b n → (validate_buffer_in_user_region b n ≫= k) s = Ret (SExit (Some (-1)) s).
Proof. intros Hb Hr. apply run_exit. by rewrite validate_buffer_run, decide_False. Qed.
Lemma run_word {B} va w (k : Z → call B) s :
  0 ≤ va → user_range va 4 → read_word (sp s) va = Some w →
  (user_word init_page_dir init_ram_pages uf kernel_esp va ≫= k) s = k w s.
Proof. intros Hv [_ Hr] Hw. apply run_bind. by apply user_word_mapped. Qed.

Lemma arg_addr args i : 0 ≤ args < PHYS_BASE → 0 ≤ i ≤ 3 → u32 (args + 4 * i) = args + 4 * i.
Proof. intros. apply u32_id. unfold is_u32, PHYS_BASE in *. lia. Qed.

Lemma rejects_buffer {B} args b n (k : Z → Z → call B) s :
  0 ≤ args < PHYS_BASE → read_word (sp s) (args + 8) = Some b → read_word (sp s) (args + 12) = Some n →
  ¬ user_range b n →
  (_ ← validate_buffer_in_user_region (u32 (args + 4 * 1)) 12;
   b ← user_word init_page_dir init_ram_pages uf kernel_esp (u32 (args + 4 * 2));
   n ← user_word init_page_dir init_ram_pages uf kernel_esp (u32 (args + 4 * 3));
   _ ← validate_buffer_in_user_region b n; k b n) s = Ret (SExit (Some (-1)) s).
Proof.
  intros Ha Hb Hn Hbad. rewrite !arg_addr by lia.
  assert (is_u32 (args + 4 * 1)) by (unfold is_u32, PHYS_BASE in *; lia).
  destruct (decide (args + 4 * 1 < PHYS_BASE ∧ args + 4 * 1 + 12 ≤ PHYS_BASE)); [|by apply exit_validate].
  rewrite run_validate, (run_word _ b), (run_word _ n) by (done || (unfold user_range; lia)).
  apply exit_validate; [by eapply read_word_u32|done].
Qed.

Lemma body_rejects args s :
  is_u32 args → bad_call (sp s) args → body args s = Ret (SExit (Some (-1)) s).
Proof.
  intros Ha Hbad. unfold syscall_body.
  destruct (decide (args < PHYS_BASE ∧ args + 4 ≤ PHYS_BASE)) as [Hr|Hr]; [|by apply exit_validate].
  assert (0 ≤ args < PHYS_BASE) as Hlt by (destruct Ha, Hr; lia).
  pose proof (λ i, arg_addr args i Hlt) as Harg.
  rewrite run_validate by done.
  destruct Hbad as [Hns|nr n Hnr Hc Hn|nr b n Hnr Hc Hb Hn Hbn|a Hnr Hna Hk]; [done|..];
    rewrite (run_word _ _ _ _ (proj1 Hlt) Hr Hnr).
  - unfold arg_count in Hc.
    repeat case_decide; simplify_eq; destruct_or?; subst nr; cbn beta;
      simpl; rewrite (Harg 1) by lia; apply exit_validate; done || (unfold is_u32, PHYS_BASE in *; lia).
  - unfold arg_count in Hc.
    repeat case_decide; simplify_eq; destruct_or?; subst nr; simpl; by eapply rejects_buffer.
  - simpl. rewrite (Harg 1) by lia. assert (is_u32 (args + 4)) by (unfold is_u32, PHYS_BASE in *; lia).
    destruct (decide (args + 4 < PHYS_BASE ∧ args + 4 + 4 ≤ PHYS_BASE)); [|by apply exit_validate].
    rewrite run_validate, (run_word _ a) by (done || lia).
    apply run_exit. unfold validate_string_in_user_region, is_user_vaddr.
    by destruct (Z.ltb_spec a PHYS_BASE); [lia|].
Qed.

Lemma handler_body s r s' :
  body (esp uf) (flag_sys s true) = Ret (SRet r s') →
  handler s = Ret (SRet (Frame (esp uf) (default (eax uf) r) (cs uf) (error_code uf)) (flag_sys s' false)).
Proof.
  intros E. unfold syscall_handler. rewrite (run_bind _ _ _ tt (flag_sys s true)) by done.
  by rewrite (run_bind _ _ _ r s').
Qed.

Lemma body_sbrk args inc r s p' :
  is_u32 args → user_range args 8 →
  read_word (sp s) args = Some SYS_SBRK → read_word (sp s) (args + 4) = Some inc →
  syscall_sbrk init_page_dir init_ram_pages (sp s) (s32 inc) = Ret (r, p') →
  body args s = Ret (SRet (Some r) (Sys p' (sf s))).
Proof.
  intros [Ha _] Hr Hnr Hinc E. unfold user_range in Hr. unfold syscall_body.
  rewrite run_validate, (run_word _ SYS_SBRK) by (done || (unfold user_range, is_u32, PHYS_BASE in *; lia)).
  simpl. rewrite arg_addr by lia.
  rewrite run_validate, (run_word _ inc) by (done || (unfold user_range, is_u32, PHYS_BASE in *; lia)).
  rewrite (run_bind _ _ _ r (Sys p' (sf s))); [done|]. unfold on_proc. by rewrite E.
Qed.
End Handler.

(** ** The process between two calls *)
Section Between.
Context (init_page_dir init_ram_pages : Z).

Lemma proc_inv_flag p b :
  proc_inv init_page_dir init_ram_pages p → proc_inv init_page_dir init_ram_pages (flag_proc p b).
Proof. by intros []. Qed.

Lemma flag_back t : in_syscall t = false → set_in_syscall (set_in_syscall t true) false = t.
Proof. destruct t. by cbn; intros ->. Qed.
Lemma flag_proc_back p : in_syscall (cur p) = false → flag_proc (flag_proc p true) false = p.
Proof. intros Hf. unfold flag_proc. cbn [cur pk]. rewrite flag_back by done. by destruct p. Qed.

Lemma sbrk_post_flag p inc r p' :
  in_syscall (cur p) = false → sbrk_post (flag_proc p true) inc r p' → sbrk_post p inc r (flag_proc p' false).
Proof.
  intros Hf. unfold sbrk_post. cbn [flag_proc cur heap_break heap_start set_in_syscall]. case_decide.
  { intros [-> ->]. by rewrite flag_proc_back. }
  case_decide.
  { intros [-> ->]. by rewrite flag_proc_back. }
  intros [Hst Hor]. split; [exact Hst|]. destruct Hor as [(Hr & Hc & Hm)|(Hlt & Hr & Hc & Hm & Hex)].
  - left. split; [exact Hr|]. split; [|exact Hm]. unfold flag_proc. cbn [cur]. rewrite Hc. cbn [flag_proc cur].
    change (set_in_syscall (set_heap_break (set_in_syscall (cur p) true) (heap_break (cur p) + inc)) false)
      with (set_heap_break (set_in_syscall (set_in_syscall (cur p) true) false) (heap_break (cur p) + inc)).
    by rewrite flag_back.
  - right. split_and!; [exact Hlt|exact Hr| |exact Hm|exact Hex]. unfold flag_proc. cbn [cur]. rewrite Hc.
    by apply flag_back.
Qed.

(** A store of the program keeps the invariant of the heap. *)
Lemma user_store_inv p va v p' :
  proc_inv init_page_dir init_ram_pages p → 0 ≤ va < PHYS_BASE → user_store p va v = Some p' →
  proc_inv init_page_dir init_ram_pages p' ∧ cur p' = cur p.
Proof.
  intros Hi Hva Hst. pose proof (pi_as _ _ _ Hi) as Hw.
  pose proof (user_store_mapping p va v p' Hw Hva Hst) as Hm.
  destruct (user_store_isolated p va v p' Hw Hva Hst) as [Ec Hiso].
  assert (tlb (pk p') = tlb (pk p)) as Et.
  { unfold user_store in Hst. destruct (mapping _ _ _); [|done]. destruct (_ =? 0); [done|]. by injection Hst as <-. }
  split; [|done]. destruct Hi. split; rewrite ?Ec; try done.
  - apply Hiso.
  - by eapply isolated_cr3.
  - intros Hc vp q Hv Hl. rewrite Et in Hl. rewrite (is_cr3 _ _ _ Hiso) in Hc.
    destruct (pi_tlb Hc vp q Hv Hl) as (e & He & Eq). exists e. by rewrite Hm.
  - by eapply isolated_ram.
  - intros vp Hv. rewrite Hm; [by apply pi_heap|]. apply user_page_low.
    destruct (page_above_range (heap_break (cur p))); [lia|].
    Z.to_euclidean_division_equations; lia.
  - intros vp Hv. rewrite Hm; [by apply pi_gap|]. apply user_page_low.
    destruct (page_above_range (heap_break (cur p))); lia.
Qed.
End Between.

(** ** The theorems *)

(** C9: No system call reaches into the kernel or another process.  Whatever the program's
    stack pointer, stack, memory and file are, when the handler comes back, and also when
    it ends the process (by a check, by the call of exit or by a fatal fault in the middle
    of a read or write), every page that is allocated and no part of the caller's address
    space is still allocated to somebody else and has the bytes it had, no other page has
    become one, and the address space is well formed.  A return leaves the stack pointer
    alone and the flag for a running call cleared.  A run that stops the kernel by a failed
    assertion has no state after it. *)
Theorem syscall_isolated init_page_dir init_ram_pages uf kernel_esp s o :
  space_ok init_page_dir init_ram_pages (sp s) → is_u32 (esp uf) →
  syscall_handler init_page_dir init_ram_pages uf kernel_esp s = Ret o →
  match o with
  | SRet f s' => isolated (pk (sp s)) (pk (sp s')) (pagedir (cur (sp s)))
      ∧ space_ok init_page_dir init_ram_pages (sp s') ∧ in_syscall (cur (sp s')) = false ∧ esp f = esp uf
  | SExit _ s' => isolated (pk (sp s)) (pk (sp s')) (pagedir (cur (sp s)))
      ∧ space_ok init_page_dir init_ram_pages (sp s')
  end.
Proof.
  intros Hs He. unfold syscall_handler. rewrite (run_bind _ _ _ tt (flag_sys s true)) by done.
  assert (ok init_page_dir init_ram_pages (flag_sys s true)) as Hok.
  { split; [|done]. by destruct Hs. }
  pose proof (spec_body init_page_dir init_ram_pages uf kernel_esp (esp uf) He _ Hok) as Hb.
  destruct (syscall_body _ _ _ _ _ (flag_sys s true)) as [[r s1|st s1]| |] eqn:E; [..| |].
  - rewrite (run_bind _ _ _ r s1) by done. intros [= <-]. destruct Hb as ([H1 H2] & [H3 H4] & _).
    split_and!; [done| |done|done]. by destruct H3.
  - rewrite (run_exit _ _ _ st s1) by done. intros [= <-]. destruct Hb as [H1 H2]. split; [done|].
    exact (space_isolated _ _ _ _ (proj1 Hok) H1 H2).
  - unfold mbind, call_bind. by rewrite E.
  - unfold mbind, call_bind. by rewrite E.
Qed.

(** C10: A pointer into the kernel ends the process with status -1 before the call has done
    anything: the stack pointer, the argument words, the buffer of a read or write with its
    length, also where the sum of the two wraps, and the file name of an open. *)
Theorem syscall_rejects init_page_dir init_ram_pages uf kernel_esp s :
  is_u32 (esp uf) → bad_call (sp s) (esp uf) →
  syscall_handler init_page_dir init_ram_pages uf kernel_esp s = Ret (SExit (Some (-1)) (flag_sys s true)).
Proof.
  intros He Hb. unfold syscall_handler. rewrite (run_bind _ _ _ tt (flag_sys s true)) by done.
  apply run_exit, body_rejects; [done|]. by apply bad_call_flag.
Qed.

(** A program that puts the number of [sbrk] and an increment on its stack and enters
    the kernel comes back from the handler with the stack pointer it had, the result in
    [eax], the file system untouched, and the break and pages as [sbrk] is specified to
    leave them; the invariant of its heap holds again. *)
Theorem sbrk_call_correct init_page_dir init_ram_pages uf kernel_esp s inc :
  proc_inv init_page_dir init_ram_pages (sp s) → in_syscall (cur (sp s)) = false →
  is_u32 (esp uf) → user_range (esp uf) 8 →
  read_word (sp s) (esp uf) = Some SYS_SBRK → read_word (sp s) (esp uf + 4) = Some inc →
  ∃ f s', syscall_handler init_page_dir init_ram_pages uf kernel_esp s = Ret (SRet f s')
    ∧ esp f = esp uf ∧ sf s' = sf s ∧ proc_inv init_page_dir init_ram_pages (sp s')
    ∧ sbrk_post (sp s) (s32 inc) (eax f) (sp s').
Proof.
  intros Hi Hf He Hr Hnr Hinc.
  destruct (sbrk_spec _ _ (flag_proc (sp s) true) (s32 inc) (proc_inv_flag _ _ _ true Hi) (s32_bounds inc))
    as (r & p' & E & Hi' & Hpost).
  eexists _, _. split.
  { eapply handler_body. eapply (body_sbrk _ _ _ _ _ inc r (flag_sys s true)); try done;
      cbn [flag_sys sp]; by rewrite read_word_flag. }
  cbn. split_and!; [done|done|by apply proc_inv_flag|by apply sbrk_post_flag].
Qed.

(** ** A process that calls [sbrk]: it has grown its heap and uses it as its stack. *)
Definition store_word_byte (p : proc) (va v : Z) : res proc :=
  match user_store p va v with Some p => Ret p | None => Stuck end.
Definition demo_args : Z := 134524928.
Definition grown_caller (p : proc) : res proc :=
  '(_, p) ← syscall_sbrk demo_init_pd demo_ram_pages p 10000;
  p ← store_word_byte p demo_args 21;
  store_word_byte p (demo_args + 4) 100.
Definition demo_frame : intr_frame := Frame demo_args 0 SEL_UCSEG 0.
Definition demo_disk : fs := Fs ∅ 100 (Bitmap 100 []) NULL ∅ [] ∅ ∅ (λ _, true).

Lemma grown_inv p0 p :
  proc_inv demo_init_pd demo_ram_pages p0 → grown_caller p0 = Ret p → proc_inv demo_init_pd demo_ram_pages p.
Proof.
  intros Hi E. destruct (sbrk_spec _ _ p0 10000 Hi) as (r & p1 & E1 & Hi1 & _); [lia|].
  unfold grown_caller in E. rewrite E1, bind_Ret in E. bind_inv E. unfold store_word_byte in E, E0.
  destruct (user_store p1 _ _) as [p2|] eqn:E2; [|done]. injection E0 as <-.
  destruct (user_store p2 _ _) as [p3|] eqn:E3; [|done]. injection E as <-.
  assert (proc_inv demo_init_pd demo_ram_pages p2) as Hi2 by (by eapply user_store_inv in E2 as [? _]).
  by eapply user_store_inv in E3 as [? _].
Qed.

Lemma caller_ok p0 a b :
  proc_inv demo_init_pd demo_ram_pages p0 →
  (λ p, (read_word p demo_args, read_word p (demo_args + 4), in_syscall (cur p))) <$> grown_caller p0
  = Ret (Some a, Some b, false) →
  ∃ p, proc_inv demo_init_pd demo_ram_pages p ∧ in_syscall (cur p) = false
    ∧ read_word p demo_args = Some a ∧ read_word p (demo_args + 4) = Some b.
Proof.
  intros Hi. pose proof (grown_inv p0) as Hg. destruct (grown_caller p0) as [p| |]; [|done..].
  intros H. injection H as H1 H2 H3. exists p. split_and!; [|exact H3|exact H1|exact H2]. by apply Hg.
Qed.

Lemma demo_caller_ok :
  ∃ p, proc_inv demo_init_pd demo_ram_pages p ∧ in_syscall (cur p) = false
    ∧ read_word p demo_args = Some SYS_SBRK ∧ read_word p (demo_args + 4) = Some 100.
Proof. apply (caller_ok demo_proc SYS_SBRK 100 demo_inv). vm_compute. reflexivity. Qed.

Lemma sbrk_call_witness :
  ∃ p f s', syscall_handler demo_init_pd demo_ram_pages demo_frame 3222282240 (Sys p demo_disk) = Ret (SRet f s')
    ∧ sbrk_post p 100 (eax f) (sp s').
Proof.
  destruct demo_caller_ok as (p & Hi & Hf & Hnr & Hinc).
  destruct (sbrk_call_correct demo_init_pd demo_ram_pages demo_frame 3222282240 (Sys p demo_disk) 100)
    as (f & s' & E & _ & _ & _ & Hp); [exact Hi|exact Hf|done|done|exact Hnr|exact Hinc|].
  exists p, f, s'. split; [exact E|exact Hp].
Defined.

Lemma syscall_isolated_witness :
  ∃ p f s', syscall_handler demo_init_pd demo_ram_pages demo_frame 3222282240 (Sys p demo_disk) = Ret (SRet f s')
    ∧ isolated (pk p) (pk (sp s')) (pagedir (cur p)) ∧ space_ok demo_init_pd demo_ram_pages (sp s').
Proof.
  destruct demo_caller_ok as (p & Hi & Hf & Hnr & Hinc).
  destruct (sbrk_spec _ _ (flag_proc p true) 100 (proc_inv_flag _ _ _ true Hi)) as (r & p' & E & _ & _); [lia|].
  assert (syscall_handler demo_init_pd demo_ram_pages demo_frame 3222282240 (Sys p demo_disk)
    = Ret (SRet (Frame demo_args r SEL_UCSEG 0) (Sys (flag_proc p' false) demo_disk))) as Eh.
  { eapply (handler_body _ _ demo_frame _ (Sys p demo_disk) (Some r) (Sys p' demo_disk)).
    by apply (body_sbrk _ _ _ _ demo_args 100 r (flag_sys (Sys p demo_disk) true));
      try done; cbn [flag_sys sp]; rewrite read_word_flag. }
  destruct (syscall_isolated demo_init_pd demo_ram_pages demo_frame 3222282240 (Sys p demo_disk) _
    (proc_space_ok _ _ _ Hi) ltac:(done) Eh) as (H1 & H2 & _).
  exists p, (Frame demo_args r SEL_UCSEG 0), (Sys (flag_proc p' false) demo_disk). by split_and!.
Defined.

(** A stack pointer in the kernel. *)
Lemma syscall_rejects_witness :
  syscall_handler demo_init_pd demo_ram_pages (Frame 3221225470 0 SEL_UCSEG 0) 3222282240 (Sys demo_proc demo_disk)
  = Ret (SExit (Some (-1)) (flag_sys (Sys demo_proc demo_disk) true)).
Proof.
  apply syscall_rejects; [done|]. apply bad_stack. unfold user_range, PHYS_BASE. cbn. lia.
Defined.
