(* ===== verification/WordCount.v ===== *)
(** * Counting words (hw1/words.c, word_helpers.c)

    The word count application: [get_word] cuts a stream into words, [count_words] adds them
    to a word count list, [main] sorts and prints the list.  The word count list itself is an
    interface ([WordCountList]): word_count.h promises it, and the implementations of
    WordLists discharge it, so what is shown of the application here holds for each of them. *)
From Stdlib Require Import Sorted.
From stdpp Require Import sorting.
From S2P Require Import Prelude.

(** ** Words and the C library *)
(** A string without its terminating null byte. *)
Abbreviation word := (list Z).
(** What a [word_count_t] says: a word and its count. *)
Abbreviation entry := (list Z * Z)%type.

Definition isalpha (c : Z) : bool :=
  (65 <=? c) && (c <=? 90) || (97 <=? c) && (c <=? 122).
Definition to_lower (c : Z) : Z := if (65 <=? c) && (c <=? 90) then c + 32 else c.
Fixpoint str_compare (a b : word) : Z :=
  match a, b with
  | [], [] => 0
  | [], _ :: _ => -1
  | _ :: _, [] => 1
  | x :: a, y :: b => if x =? y then str_compare a b else if x <? y then -1 else 1
  end.

(** A block of the heap: bytes that may not have been written yet.  A write outside the block
    and a read of a byte that was not written have no defined result: [Panic]. *)
Abbreviation buffer := (list (option Z)).
Definition put (b : buffer) (i : nat) (c : Z) : res buffer :=
  if (i <? length b)%nat then Ret (<[i := Some c]> b) else Panic.
Fixpoint cstring (b : buffer) : res word :=
  match b with
  | Some c :: b => if c =? 0 then Ret [] else w ← cstring b; Ret (c :: w)
  | _ => Panic
  end.

(** ** The order of the output *)
Definition less_count (wc1 wc2 : entry) : bool :=
  (wc1.2 <? wc2.2) || (wc1.2 =? wc2.2) && (str_compare wc1.1 wc2.1 <? 0).
Definition less_word (wc1 wc2 : entry) : bool := str_compare wc1.1 wc2.1 <? 0.

(** A strict order that puts entries with different words one way or the other. *)
Class LinearLess (less : entry → entry → bool) : Prop := {
  linear_asym a b : less a b = true → less b a = false;
  linear_split a b c : less a b = true → less a c = true ∨ less c b = true;
  linear_total a b : a.1 ≠ b.1 → less a b = negb (less b a);
}.
Lemma linear_trans less `{!LinearLess less} a b c : less a b = true → less b c = true → less a c = true.
Proof. intros Hab Hbc. destruct (linear_split a b c Hab) as [|Hcb]; [done|]. by rewrite linear_asym in Hcb. Qed.

(** ** Cutting a stream into words

    [granted n] says whether the [n]-th call of an allocation function succeeds; the calls made
    so far are counted.  [infile] is what is left of the stream. *)
Section GetWord.
Context (granted : nat → bool).

(** [while (!isalpha (ch = fgetc (infile)))]: the first letter, if there is one. *)
Fixpoint skip_nonalpha (infile : list Z) : option (Z * list Z) :=
  match infile with
  | [] => None
  | ch :: infile => if isalpha ch then Some (ch, infile) else skip_nonalpha infile
  end.
(** The [do] loop; [None] when the block cannot grow. *)
Fixpoint accumulate (infile : list Z) (ch : Z) (b : buffer) (buffer_cap index n : nat)
    : res (option (buffer * nat) * nat * list Z) :=
  b ← put b index (to_lower ch);
  let index := S index in
  let full := (index =? buffer_cap)%nat in
  let buffer_cap := if full then (buffer_cap * 2)%nat else buffer_cap in
  if full && negb (granted n) then Ret (None, S n, infile) else
  let b := if full then b ++ replicate (buffer_cap - length b) None else b in
  let n := if full then S n else n in
  match infile with
  | [] => b ← put b index 0; Ret (Some (b, index), n, [])
  | ch :: infile =>
    if isalpha ch then accumulate infile ch b buffer_cap index n
    else b ← put b index 0; Ret (Some (b, index), n, infile)
  end.
(** The length returned and, unless it is 0, the block assigned to [*word]. *)
Definition get_word (n : nat) (infile : list Z) : res (nat * buffer * nat * list Z) :=
  match skip_nonalpha infile with
  | None => Ret (O, [], n, [])
  | Some (ch, infile) =>
    if granted n then
      '(r, n, infile) ← accumulate infile ch (replicate 16 None) 16 0 (S n);
      match r with
      | None => Ret (O, [], n, infile)
      | Some (b, index) => Ret (index, b, n, infile)
      end
    else Ret (O, [], S n, infile)
  end.
End GetWord.

(** ** The word count list *)
(** What adding a word does to the entries: the count of the first entry of that word goes up,
    or a new entry goes to the front. *)
Fixpoint incr (k : Z) (w : word) (l : list entry) : list entry :=
  match l with
  | [] => []
  | (w', c) :: l => if decide (w = w') then (w', s32 (c + k)) :: l else (w', c) :: incr k w l
  end.
Definition bump (l : list entry) (w : word) : list entry :=
  if decide (w ∈ l.*1) then incr 1 w l else (w, 1) :: l.
Definition tally (ws : list word) : list entry := foldl bump [] ws.

(** [fprintf (outfile, "%8d\t%s\n", count, word)]. *)
Fixpoint decimal_loop (fuel : nat) (n : Z) (text : list Z) : list Z :=
  match fuel with
  | O => text
  | S fuel =>
    let text := 48 + n mod 10 :: text in
    if n / 10 =? 0 then text else decimal_loop fuel (n / 10) text
  end.
Definition format_d (n : Z) : list Z :=
  if n <? 0 then 45 :: decimal_loop 10 (- n) [] else decimal_loop 10 n [].
Definition print_line (e : entry) : list Z :=
  let d := format_d e.2 in replicate (8 - length d) 32 ++ d ++ 9 :: e.1 ++ [10].

(** The operations of word_count.h on a list and the memory it lives in ([S]).  [add_word] also
    takes the number of allocations made, and tells whether its result is non-null. *)
Class WordCountOps (S : Type) := {
  init_words : S → res S;
  add_word : word → S → nat → res (bool * S * nat);
  wordcount_sort : (entry → entry → bool) → S → res S;
  fprint_words : S → res (list Z);
}.
(** What word_count.h promises of them: [entries s l] when the list holds [l], in that order. *)
Class WordCountList (granted : nat → bool) (S : Type) `{!WordCountOps S} := {
  entries : S → list entry → Prop;
  fresh_list : S → Prop;
  init_ok s : fresh_list s → ∃ s', init_words s = Ret s' ∧ entries s' [];
  add_ok s n w l : entries s l → ∃ b s' n' l', add_word w s n = Ret (b, s', n') ∧ entries s' l' ∧
    (b = true ∧ l' = bump l w ∨ l' = l ∧ ∃ k, granted k = false);
  sort_ok less s l : LinearLess less → entries s l → NoDup l.*1 →
    ∃ s' l', wordcount_sort less s = Ret s' ∧ entries s' l' ∧ l' ≡ₚ l
      ∧ StronglySorted (λ a b, less a b = true) l';
  print_ok s l : entries s l → fprint_words s = Ret (mjoin (print_line <$> l));
}.
(** A list that reports a failure leaves nothing behind of the word. *)
Class Reporting (granted : nat → bool) (S : Type) `{WordCountList granted S} : Prop :=
  add_reported s n w l s' n' b : entries s l → add_word w s n = Ret (b, s', n') →
    entries s' (if b then bump l w else l).

(** ** The application *)
Section Application.
Context (granted : nat → bool) {S : Type} `{!WordCountOps S}.

Fixpoint count_words_loop (fuel : nat) (s : S) (n : nat) (infile : list Z) : res (S * nat) :=
  match fuel with
  | O => Stuck
  | Datatypes.S fuel =>
    '(len, b, n, infile) ← get_word granted n infile;
    if (len =? 0)%nat then Ret (s, n)
    else if (len =? 1)%nat then count_words_loop fuel s n infile
    else
      w ← cstring b;
      '(ok, s, n) ← add_word w s n;
      if ok : bool then count_words_loop fuel s n infile else Ret (s, n)
  end.
(** A word takes at least a byte of the stream. *)
Definition count_words (s : S) (n : nat) (infile : list Z) : res (S * nat) :=
  count_words_loop (Datatypes.S (length infile)) s n infile.

(** The [for] loop over the files; [None] when one does not open. *)
Fixpoint count_files (fopen : word → option (list Z)) (s : S) (n : nat) (argv : list word)
    : res (option (S * nat)) :=
  match argv with
  | [] => Ret (Some (s, n))
  | name :: argv =>
    match fopen name with
    | None => Ret None
    | Some infile => '(s, n) ← count_words s n infile; count_files fopen s n argv
    end
  end.
(** [main], [argv] without the program's name: the exit status and what is printed. *)
Definition words_main (fopen : word → option (list Z)) (stdin : list Z) (argv : list word) (s : S)
    : res (Z * list Z) :=
  s ← init_words s;
  r ← match argv with
      | [] => '(s, n) ← count_words s O stdin; Ret (Some (s, n))
      | _ => count_files fopen s O argv
      end;
  match r with
  | None => Ret (1, [])
  | Some (s, _) =>
    s ← wordcount_sort less_count s;
    out ← fprint_words s;
    Ret (0, out)
  end.
End Application.

(** ** What the words of a text are *)
Definition word_end (w : word) : list word := match w with [] => [] | _ => [w] end.
(** The maximal runs of letters, in lower case; [w] is the run so far. *)
Fixpoint runs (w : word) (text : list Z) : list word :=
  match text with
  | [] => word_end w
  | c :: text => if isalpha c then runs (w ++ [to_lower c]) text else word_end w ++ runs [] text
  end.
Definition long (w : word) : Prop := (2 ≤ length w)%nat.
#[export] Instance long_dec w : Decision (long w).
Proof. unfold long. apply _. Defined.
(** The words that are counted: those of at least two letters. *)
Definition words_of (text : list Z) : list word := filter long (runs [] text).
(** How often a word occurs. *)
Definition occurrences (w : word) (ws : list word) : Z := Z.of_nat (length (filter (eq w) ws)).

(** ** Buffers *)
Lemma put_ok b i c : (i < length b)%nat → put b i c = Ret (<[i := Some c]> b).
Proof. intros H. unfold put. by destruct (Nat.ltb_spec i (length b)); [|lia]. Qed.

(** A block that holds the bytes of [w]. *)
Definition block_holds (b : buffer) (w : word) : Prop := ∃ rest, b = (Some <$> w) ++ rest.

Lemma holds_length b w : block_holds b w → (length w ≤ length b)%nat.
Proof. intros [r ->]. rewrite length_app, length_fmap. lia. Qed.
Lemma holds_put b w c :
  block_holds b w → (length w < length b)%nat → block_holds (<[length w := Some c]> b) (w ++ [c]).
Proof.
  intros [r ->] H. rewrite length_app, length_fmap in H. destruct r as [|x r]; [cbn in H; lia|].
  exists r. rewrite insert_app_r_alt, length_fmap, Nat.sub_diag by (rewrite length_fmap; lia).
  cbn. by rewrite fmap_app, <- app_assoc.
Qed.
Lemma holds_app b w r : block_holds b w → block_holds (b ++ r) w.
Proof. intros [r' ->]. exists (r' ++ r). by rewrite app_assoc. Qed.
Lemma cstring_holds b w : block_holds b (w ++ [0]) → Forall (λ c, c ≠ 0) w → cstring b = Ret w.
Proof.
  intros [r ->] Hw. rewrite fmap_app, <- app_assoc. induction Hw as [|c w Hc _ IH]; [done|]. cbn.
  apply Z.eqb_neq in Hc. rewrite Hc. cbn in IH. by rewrite IH.
Qed.
Lemma isalpha_tolower c : isalpha c = true → to_lower c ≠ 0.
Proof. unfold isalpha, to_lower. intros H. destruct ((65 <=? c) && (c <=? 90)) eqn:E; lia. Qed.

Lemma runs_nonempty w text : w ≠ [] → runs w text ≠ [].
Proof.
  revert w. induction text as [|c t IH]; intros w Hw; cbn; [by destruct w|].
  destruct (isalpha c); [apply IH; by destruct w|]. by destruct w.
Qed.

Section GetWordSpec.
Context (granted : nat → bool).

(** What a call that reads a word gives: the next word of the text, or a failed allocation. *)
Definition word_read (w0 : word) (text : list Z) (r : option (buffer * nat)) (rest : list Z) : Prop :=
  (length rest ≤ length text)%nat ∧
  match r with
  | None => ∃ k, granted k = false
  | Some (b, index) => ∃ w, runs w0 text = w :: runs [] rest ∧ index = length w ∧ cstring b = Ret w
  end.

Lemma accumulate_spec text : ∀ ch b cap w n,
  isalpha ch = true → block_holds b w → length b = cap → (length w < cap)%nat → Forall (λ c, c ≠ 0) w →
  ∃ r n' rest, accumulate granted text ch b cap (length w) n = Ret (r, n', rest)
    ∧ word_read (w ++ [to_lower ch]) text r rest.
Proof.
  induction text as [|c text IH]; intros ch b cap w n Hch Hb Hcap Hi Hw;
    unfold accumulate; fold accumulate; rewrite put_ok by lia; cbn [mbind res_bind].
  all: assert (Hb' : block_holds (<[length w := Some (to_lower ch)]> b) (w ++ [to_lower ch])) by (apply holds_put; [done|lia]).
  all: assert (Hw' : Forall (λ c, c ≠ 0) (w ++ [to_lower ch]))
    by (apply Forall_app; split; [done|]; apply Forall_singleton; by apply isalpha_tolower).
  all: assert (Hl : Datatypes.S (length w) = length (w ++ [to_lower ch])) by (rewrite length_app; cbn; lia).
  all: rewrite Hl.
  all: destruct (Nat.eqb_spec (length (w ++ [to_lower ch])) cap) as [Hf|Hf]; cbn [andb].
  all: try (destruct (granted n) eqn:Hg; cbn [negb];
            [|eexists None, _, _; split; [done|]; split; [done|by exists n]]).
  all: match goal with |- context [put ?b' _ 0] =>
    assert (Hb2 : block_holds b' (w ++ [to_lower ch])) by (done || by apply holds_app);
    assert (Hlen : (length (w ++ [to_lower ch]) < length b')%nat)
      by (rewrite ?length_app, ?length_replicate, ?length_insert in *; cbn in *; lia);
    pose proof (cstring_holds _ _ (holds_put b' _ 0 Hb2 Hlen) Hw') as Hc
  end.
  1-2: rewrite put_ok by done; cbn [mbind res_bind]; eexists (Some _), _, _; split; [done|]; split; [done|];
       exists (w ++ [to_lower ch]); split_and!; [|done|done]; cbn; by destruct w.
  all: destruct (isalpha c) eqn:Ec.
  2, 4: rewrite put_ok by done; cbn [mbind res_bind]; eexists (Some _), _, _; split; [done|]; split; [cbn; lia|];
        exists (w ++ [to_lower ch]); split_and!; [|done|done]; cbn; rewrite Ec; by destruct w.
  all: edestruct IH as (r & n' & rest & E & Hle & Hr);
    [exact Ec|exact Hb2| | |exact Hw'|rewrite E; exists r, n', rest; split; [done|]; split; [cbn; lia|]];
    [rewrite ?length_app, ?length_replicate, ?length_insert; cbn; lia
    |rewrite ?length_app, ?length_replicate, ?length_insert in *; cbn in *; lia|];
    destruct r as [[? ?]|]; [|done]; cbn [runs]; by rewrite Ec.
Qed.

Lemma skip_spec text :
  match skip_nonalpha text with
  | None => runs [] text = []
  | Some (ch, rest) => isalpha ch = true ∧ (length rest < length text)%nat
                       ∧ runs [] text = runs [to_lower ch] rest
  end.
Proof.
  induction text as [|c t IH]; [done|]. cbn. destruct (isalpha c) eqn:Ec; [split_and!; [done|lia|done]|].
  destruct (skip_nonalpha t) as [[ch rest]|]; [|done]. destruct IH as (? & ? & ?). split_and!; [done|lia|done].
Qed.

(** [get_word] returns the next word of the text in a block that holds it, having consumed it;
    at the end of the text, or when an allocation fails, it returns 0. *)
Lemma get_word_spec n text :
  ∃ len b n' rest, get_word granted n text = Ret (len, b, n', rest) ∧
    (len = O ∧ (runs [] text = [] ∨ ∃ k, granted k = false)
     ∨ len ≠ O ∧ (length rest < length text)%nat ∧
       ∃ w, runs [] text = w :: runs [] rest ∧ len = length w ∧ cstring b = Ret w).
Proof.
  unfold get_word. pose proof (skip_spec text) as Hs. destruct (skip_nonalpha text) as [[ch rest]|].
  2: { eexists _, _, _, _. split; [done|]. left. by split; [|left]. }
  destruct Hs as (Hch & Hl & Hr). destruct (granted n) eqn:Hg.
  2: { eexists _, _, _, _. split; [done|]. left. split; [done|right; by exists n]. }
  destruct (accumulate_spec rest ch (replicate 16 None) 16 [] (S n)) as (r & n' & rest' & E & Hle & H).
  1-5: first [done|by exists (replicate 16 None)|cbn; lia]. cbn [length] in E. rewrite E. cbn [mbind res_bind].
  destruct r as [[b i]|].
  - destruct H as (w & Hw & Hi & Hc). eexists _, _, _, _. split; [done|]. right. cbn [app] in Hw. split_and!.
    + subst i. intros Hz. apply nil_length_inv in Hz as ->.
      assert (Hne : ∀ t v, v ≠ [] → head (runs v t) ≠ Some []); [|by apply (Hne rest [to_lower ch] ltac:(done)); rewrite Hw].
      clear. induction t as [|c t IH]; intros v Hv; cbn; [by destruct v|].
      destruct (isalpha c); [apply IH; by destruct v|by destruct v].
    + lia.
    + exists w. by rewrite Hr.
  - eexists _, _, _, _. split; [done|]. left. by split; [|right].
Qed.
End GetWordSpec.

(** ** Counting *)
Lemma incr_words k w l : (incr k w l).*1 = l.*1.
Proof. induction l as [|[v c] l IH]; [done|]. cbn. case_decide; cbn; [done|]. by rewrite IH. Qed.
Lemma incr_elem k w l v c :
  NoDup l.*1 →
  (v, c) ∈ incr k w l ↔ (v ≠ w ∧ (v, c) ∈ l) ∨ (v = w ∧ ∃ c', (w, c') ∈ l ∧ c = s32 (c' + k)).
Proof.
  induction l as [|[u d] l IH]; intros Hn; cbn.
  { split; [intros H; by apply not_elem_of_nil in H|]. by intros [[_ H]|(_ & c' & H & _)]; apply not_elem_of_nil in H. }
  cbn in Hn. apply NoDup_cons in Hn as [Hu Hn].
  assert (Hno : ∀ c', (u, c') ∉ l) by (intros c' H; apply Hu, list_elem_of_fmap; by exists (u, c')).
  case_decide as E; repeat setoid_rewrite elem_of_cons; [subst u|rewrite IH by done].
  - split.
    + intros [[= -> ->]|H]; [right; split; [done|]; exists d; auto|].
      left. split; [|auto]. by intros ->; apply (Hno c).
    + intros [[Hv [[= -> ->]|H]]|(-> & c' & [[= ->]|H] & ->)]; [done|auto|auto|by apply Hno in H].
  - naive_solver.
Qed.

Lemma bump_nodup l w : NoDup l.*1 → NoDup (bump l w).*1.
Proof. intros H. unfold bump. case_decide; [by rewrite incr_words|]. by constructor. Qed.
Lemma bumps_nodup ws : ∀ l, NoDup l.*1 → NoDup (foldl bump l ws).*1.
Proof. induction ws as [|w ws IH]; intros l H; [done|]. by apply IH, bump_nodup. Qed.
Lemma occurrences_app w ws ws' : occurrences w (ws ++ ws') = occurrences w ws + occurrences w ws'.
Proof. unfold occurrences. rewrite filter_app, length_app. lia. Qed.
Lemma occurrences_bound w ws : 0 ≤ occurrences w ws ≤ Z.of_nat (length ws).
Proof. unfold occurrences. pose proof (length_filter (eq w) ws). lia. Qed.

(** Below 2^31 words, the counts are the numbers of occurrences. *)
Lemma tally_spec ws :
  Z.of_nat (length ws) < 2147483648 →
  NoDup (tally ws).*1 ∧ ∀ w c, (w, c) ∈ tally ws ↔ 0 < c ∧ c = occurrences w ws.
Proof.
  intros Hb. split; [apply bumps_nodup; constructor|]. induction ws as [|v ws IH] using rev_ind.
  { intros w c. cbn. split; [intros H; by apply not_elem_of_nil in H|]. unfold occurrences. cbn. lia. }
  rewrite length_app in Hb. cbn in Hb. specialize (IH ltac:(lia)). intros w c.
  assert (Hn : NoDup (tally ws).*1) by (apply bumps_nodup; constructor).
  unfold tally in *. rewrite foldl_app. cbn. set (l := foldl bump [] ws) in *.
  pose proof (occurrences_bound w ws). rewrite occurrences_app.
  assert (Hone : occurrences w [v] = if decide (w = v) then 1 else 0).
  { unfold occurrences. rewrite filter_cons. by case_decide. }
  rewrite Hone. unfold bump. destruct (decide (v ∈ l.*1)) as [Hv|Hv].
  - rewrite incr_elem by done. rewrite IH. case_decide as E; [subst v|].
    + split; [|intros (? & ->); right; split; [done|]].
      * intros [[? _]|(_ & c' & [? ->]%IH & ->)]; [done|]. rewrite s32_small by lia. lia.
      * apply list_elem_of_fmap in Hv as ([w' c'] & -> & Hc'). exists c'. split; [done|].
        cbn [fst] in *. apply IH in Hc' as [? ->]. by rewrite s32_small by lia.
    + rewrite Z.add_0_r. split; [|auto]. by intros [[_ ?]|[? _]].
  - rewrite elem_of_cons, IH. case_decide as E; [subst v|].
    + assert (occurrences w ws = 0) as ->.
      { destruct (decide (occurrences w ws = 0)) as [|Hne]; [done|]. exfalso.
        apply Hv, list_elem_of_fmap. exists (w, occurrences w ws). split; [done|]. apply IH. split; [lia|done]. }
      split; [intros [[= ->]|[? ->]]; [done|lia]|]. intros [_ ->]. by left.
    + rewrite Z.add_0_r. split; [|auto]. by intros [[= -> _]|].
Qed.

(** ** The application, against the interface *)
Section CountWords.
Context (granted : nat → bool) {S : Type} `{WordCountList granted S}.

Lemma words_of_cons text w rest :
  runs [] text = w :: runs [] rest → words_of text = (if decide (long w) then [w] else []) ++ words_of rest.
Proof. intros E. unfold words_of. rewrite E, filter_cons. by case_decide. Qed.
Lemma words_of_short text rest w :
  runs [] text = w :: runs [] rest → (length w < 2)%nat → words_of text = words_of rest.
Proof. intros E Hl. rewrite (words_of_cons _ _ _ E), decide_False; [done|]. unfold long. lia. Qed.
Lemma words_of_long text rest w :
  runs [] text = w :: runs [] rest → (2 ≤ length w)%nat → words_of text = w :: words_of rest.
Proof. intros E Hl. by rewrite (words_of_cons _ _ _ E), decide_True. Qed.

Lemma count_words_loop_ok : ∀ fuel text s n l,
  (length text < fuel)%nat → entries s l →
  ∃ s' n' l', count_words_loop granted fuel s n text = Ret (s', n') ∧ entries s' l'
    ∧ (l' = foldl bump l (words_of text) ∨ ∃ k, granted k = false).
Proof.
  induction fuel as [|fuel IH]; intros text s n l Hf Hs; [lia|]. cbn [count_words_loop].
  destruct (get_word_spec granted n text) as (len & b & n1 & rest & -> & Hw). cbn [mbind res_bind].
  destruct (Nat.eqb_spec len 0) as [->|Hl0].
  { exists s, n1, l. split_and!; [done|done|]. destruct Hw as [(_ & [E|?])|(? & _)]; [|by right|done].
    left. unfold words_of. by rewrite E. }
  destruct Hw as [(? & _)|(_ & Hlt & w & E & -> & Hc)]; [done|].
  destruct (Nat.eqb_spec (length w) 1) as [Hl1|Hl1].
  { rewrite (words_of_short _ _ _ E) by lia. apply IH; [lia|done]. }
  rewrite Hc. cbn [mbind res_bind]. rewrite (words_of_long _ _ _ E) by lia. cbn [foldl].
  destruct (add_ok s n1 w l Hs) as (ok & s2 & n2 & l2 & -> & Hs2 & Hcase). cbn [mbind res_bind].
  destruct ok; [|exists s2, n2, l2; split_and!; [done|done|naive_solver]].
  destruct (IH rest s2 n2 l2 ltac:(lia) Hs2) as (s3 & n3 & l3 & -> & Hs3 & Hcase3).
  exists s3, n3, l3. split_and!; [done|done|]. naive_solver.
Qed.
Lemma count_words_ok text s n l :
  entries s l →
  ∃ s' n' l', count_words granted s n text = Ret (s', n') ∧ entries s' l'
    ∧ (l' = foldl bump l (words_of text) ∨ ∃ k, granted k = false).
Proof. apply count_words_loop_ok. lia. Qed.

(** When allocations fail, the list is the count of the words before some place in the text:
    nothing is counted wrongly, and nothing tells a failure from the end of the text. *)
Theorem count_words_prefix `{!Reporting granted S} text s n :
  entries s [] →
  ∃ s' n' k, count_words granted s n text = Ret (s', n') ∧ entries s' (tally (take k (words_of text))).
Proof.
  intros Hs0. unfold count_words, tally.
  assert (Hg : ∀ fuel text s n l, (length text < fuel)%nat → entries s l →
    ∃ s' n' k, count_words_loop granted fuel s n text = Ret (s', n')
      ∧ entries s' (foldl bump l (take k (words_of text)))); [|by apply Hg; [lia|]].
  clear text s n Hs0. induction fuel as [|fuel IH]; intros text s n l Hf Hs; [lia|]. cbn [count_words_loop].
  destruct (get_word_spec granted n text) as (len & b & n1 & rest & -> & Hw). cbn [mbind res_bind].
  destruct (Nat.eqb_spec len 0) as [->|Hl0]; [by exists s, n1, O|].
  destruct Hw as [(? & _)|(_ & Hlt & w & E & -> & Hc)]; [done|].
  destruct (Nat.eqb_spec (length w) 1) as [Hl1|Hl1].
  { rewrite (words_of_short _ _ _ E) by lia. apply IH; [lia|done]. }
  rewrite Hc. cbn [mbind res_bind]. rewrite (words_of_long _ _ _ E) by lia.
  destruct (add_ok s n1 w l Hs) as (ok & s2 & n2 & l2 & Ea & _). rewrite Ea. cbn [mbind res_bind].
  pose proof (add_reported s n1 w l s2 n2 ok Hs Ea) as Hs2.
  destruct ok; [|by exists s2, n2, O].
  destruct (IH rest s2 n2 (bump l w) ltac:(lia) Hs2) as (s3 & n3 & k & -> & Hs3).
  by exists s3, n3, (Datatypes.S k).
Qed.

Lemma count_files_ok fopen argv : ∀ texts s n l,
  mapM fopen argv = Some texts → entries s l →
  ∃ s' n' l', count_files granted fopen s n argv = Ret (Some (s', n')) ∧ entries s' l'
    ∧ (l' = foldl bump l (texts ≫= words_of) ∨ ∃ k, granted k = false).
Proof.
  induction argv as [|name argv IH]; intros texts s n l Ht Hs; cbn -[count_words] in *.
  { injection Ht as <-. exists s, n, l. by split_and!; [| |left]. }
  destruct (fopen name) as [t|]; [|done]. cbn in Ht.
  destruct (mapM fopen argv) as [ts|]; [|done]. injection Ht as <-.
  destruct (count_words_ok t s n l Hs) as (s1 & n1 & l1 & -> & Hs1 & H1). cbn [mbind res_bind].
  destruct (IH ts s1 n1 l1 eq_refl Hs1) as (s2 & n2 & l2 & -> & Hs2 & H2).
  exists s2, n2, l2. split_and!; [done|done|]. cbn. rewrite foldl_app. naive_solver.
Qed.
Lemma count_files_missing fopen argv : ∀ s n l,
  mapM fopen argv = None → entries s l → count_files granted fopen s n argv = Ret None.
Proof.
  induction argv as [|name argv IH]; intros s n l Ht Hs; cbn -[count_words] in *; [done|].
  destruct (fopen name) as [t|]; [|done]. cbn in Ht.
  destruct (count_words_ok t s n l Hs) as (s1 & n1 & l1 & -> & Hs1 & _). cbn [mbind res_bind].
  eapply IH; [|done]. by destruct (mapM fopen argv).
Qed.
End CountWords.

(** ** The order *)
Lemma strcmp_flip a : ∀ b, str_compare b a = - str_compare a b.
Proof.
  induction a as [|x a IH]; intros [|y b]; try done. cbn. rewrite (Z.eqb_sym y x).
  destruct (Z.eqb_spec x y); [apply IH|]. destruct (Z.ltb_spec x y), (Z.ltb_spec y x); lia.
Qed.
Lemma strcmp_zero a : ∀ b, str_compare a b = 0 ↔ a = b.
Proof.
  induction a as [|x a IH]; intros [|y b]; cbn; try done.
  destruct (Z.eqb_spec x y) as [->|Hne]; [rewrite IH; naive_solver|].
  destruct (x <? y); split; intros H; simplify_eq; lia.
Qed.
Lemma strcmp_trans a : ∀ b c, str_compare a b < 0 → str_compare b c < 0 → str_compare a c < 0.
Proof.
  induction a as [|x a IH]; intros [|y b] [|z c]; cbn; try lia.
  specialize (IH b c).
  destruct (Z.eqb_spec x y), (Z.eqb_spec y z), (Z.eqb_spec x z); try lia;
    destruct (Z.ltb_spec x y), (Z.ltb_spec y z), (Z.ltb_spec x z); lia.
Qed.
(** Strings that differ are ordered one way. *)
Lemma strcmp_sides a b : a ≠ b → (str_compare a b <? 0) = negb (str_compare b a <? 0).
Proof.
  intros Hne. pose proof (strcmp_zero a b). rewrite (strcmp_flip a b).
  destruct (Z.ltb_spec (str_compare a b) 0), (Z.ltb_spec (- str_compare a b) 0); try done; [lia|].
  destruct Hne. apply H. lia.
Qed.

(** Between two strings in order, every string is above the one or below the other. *)
Lemma strcmp_split a b c : str_compare a b < 0 → str_compare a c < 0 ∨ str_compare c b < 0.
Proof.
  intros H. destruct (decide (a = c)) as [<-|Hne]; [by right|]. pose proof (strcmp_sides _ _ Hne) as Hs.
  destruct (Z.ltb_spec (str_compare a c) 0); [by left|]. right. destruct (Z.ltb_spec (str_compare c a) 0); [|done].
  by apply (strcmp_trans _ a).
Qed.

#[export] Instance less_word_linear : LinearLess less_word.
Proof.
  split; unfold less_word.
  - intros a b H%Z.ltb_lt. apply Z.ltb_ge. rewrite strcmp_flip. lia.
  - intros a b c H%Z.ltb_lt. rewrite !Z.ltb_lt. by apply strcmp_split.
  - intros a b. apply strcmp_sides.
Qed.
#[export] Instance less_count_linear : LinearLess less_count.
Proof.
  split; unfold less_count.
  - intros a b. rewrite (strcmp_flip a.1 b.1). lia.
  - intros a b c. pose proof (strcmp_split a.1 b.1 c.1). lia.
  - intros a b Hne. pose proof (strcmp_sides _ _ Hne) as Hs. lia.
Qed.

Section Sorting.
Context (less : entry → entry → bool) `{!LinearLess less}.
Abbreviation before a b := (less a b = true).

Lemma linear_irrefl a b : before a b → before b a → a.1 = b.1.
Proof using LinearLess0.
  intros H1 H2. by rewrite (linear_asym a b H1) in H2.
Qed.
(** There is one way to sort entries with different words. *)
Lemma sorted_determined l l' :
  l ≡ₚ l' → NoDup l.*1 → StronglySorted (λ a b, before a b) l → StronglySorted (λ a b, before a b) l' → l = l'.
Proof using LinearLess0.
  intros Hp Hn H1 H2. apply (StronglySorted_unique_strong (λ a b, before a b)); [|done..].
  intros a b Ha Hb Hab Hba. rewrite <- Hp in Hb. pose proof (linear_irrefl a b Hab Hba) as E.
  apply list_elem_of_lookup in Ha as [i Hi], Hb as [j Hj].
  assert (i = j) as ->; [|congruence].
  eapply (NoDup_lookup l.*1); [done| |]; rewrite list_lookup_fmap; [by rewrite Hi|by rewrite Hj, E].
Qed.
End Sorting.

(** ** What the program prints *)
(** The entries the output lists for a sequence of words: every word with the number of its
    occurrences, once, the rarer ones first, ties in alphabetical order. *)
Record report (ws : list word) (l : list entry) : Prop := {
  report_sorted : StronglySorted (λ a b, less_count a b = true) l;
  report_once : NoDup l.*1;
  report_counts w c : (w, c) ∈ l ↔ 0 < c ∧ c = occurrences w ws;
}.
Lemma report_determined ws ws' l l' : ws ≡ₚ ws' → report ws l → report ws' l' → l = l'.
Proof.
  intros Hw [S1 N1 C1] [S2 N2 C2]. apply (sorted_determined less_count); [|done..].
  apply NoDup_Permutation; [by eapply NoDup_fmap_1|by eapply NoDup_fmap_1|]. intros [w c].
  rewrite C1, C2. unfold occurrences. by rewrite Hw.
Qed.

(** The texts [main] reads: the standard input, or the files named. *)
Definition inputs (fopen : word → option (list Z)) (stdin : list Z) (argv : list word) : option (list (list Z)) :=
  match argv with [] => Some [stdin] | _ => mapM fopen argv end.

Section Main.
Context (granted : nat → bool) {S : Type} `{WordCountList granted S}.

(** Sorting and printing a list of counts gives the report. *)
Lemma report_printed ws l0 (s : S) :
  Z.of_nat (length ws) < 2147483648 → entries s l0 → l0 = tally ws →
  ∃ s' l, wordcount_sort less_count s = Ret s' ∧ fprint_words s' = Ret (mjoin (print_line <$> l))
    ∧ entries s' l ∧ report ws l.
Proof.
  intros Hb Hs ->. destruct (tally_spec ws Hb) as [Hn Hc].
  destruct (sort_ok less_count s _ _ Hs Hn) as (s' & l & E & Hs' & Hp & Hl).
  exists s', l. split_and!; [done|by apply print_ok|done|]. split; [done|by rewrite Hp|].
  intros w c. by rewrite Hp, Hc.
Qed.

Lemma words_main_missing fopen stdin argv s :
  fresh_list s → inputs fopen stdin argv = None → words_main granted fopen stdin argv s = Ret (1, []).
Proof.
  intros Hf Hi. unfold words_main. destruct (init_ok s Hf) as (s1 & -> & Hs1). cbn [mbind res_bind].
  destruct argv as [|a argv]; [done|]. by rewrite (count_files_missing granted fopen _ _ _ _ Hi Hs1).
Qed.
Lemma words_main_report fopen stdin argv s texts :
  (∀ k, granted k = true) → fresh_list s → inputs fopen stdin argv = Some texts →
  Z.of_nat (length (texts ≫= words_of)) < 2147483648 →
  ∃ l, words_main granted fopen stdin argv s = Ret (0, mjoin (print_line <$> l))
    ∧ report (texts ≫= words_of) l.
Proof.
  intros Hg Hf Hi Hb. unfold words_main. destruct (init_ok s Hf) as (s1 & -> & Hs1). cbn [mbind res_bind].
  assert (∃ s2 n2, match argv with
      | [] => '(s, n) ← count_words granted s1 O stdin; Ret (Some (s, n))
      | _ => count_files granted fopen s1 O argv
      end = Ret (Some (s2, n2)) ∧ entries s2 (tally (texts ≫= words_of))) as (s2 & n2 & -> & Hs2).
  { destruct argv as [|a argv]; cbn [inputs] in Hi.
    - injection Hi as <-. destruct (count_words_ok granted stdin s1 O [] Hs1) as (s2 & n2 & l & -> & Hs2 & [->|[k Hk]]);
        [|by rewrite Hg in Hk]. exists s2, n2. split; [done|]. cbn. by rewrite app_nil_r.
    - destruct (count_files_ok granted fopen _ _ s1 O [] Hi Hs1) as (s2 & n2 & l & -> & Hs2 & [->|[k Hk]]);
        [|by rewrite Hg in Hk]. by exists s2, n2. }
  cbn [mbind res_bind]. destruct (report_printed _ _ s2 Hb Hs2 eq_refl) as (s3 & l & -> & E & _ & Hr).
  cbn [mbind res_bind]. rewrite E. by exists l.
Qed.

(** C27: The word count program is correct with any list that keeps the promises of word_count.h,
    when every allocation succeeds and the texts have fewer than 2^31 words: if a file does not
    open it prints nothing and exits with status 1, and otherwise it exits with status 0 after
    printing, for the texts read, each word of two letters or more once, with the number of its
    occurrences, by count and then alphabetically. *)
Theorem words_main_correct fopen stdin argv s :
  (∀ k, granted k = true) → fresh_list s →
  match inputs fopen stdin argv with
  | None => words_main granted fopen stdin argv s = Ret (1, [])
  | Some texts =>
    let ws := texts ≫= words_of in
    Z.of_nat (length ws) < 2147483648 →
    ∃ l, words_main granted fopen stdin argv s = Ret (0, mjoin (print_line <$> l))
      ∧ StronglySorted (λ a b, less_count a b = true) l
      ∧ NoDup l.*1 ∧ ∀ w c, (w, c) ∈ l ↔ 0 < c ∧ c = occurrences w ws
  end.
Proof.
  intros Hg Hf. destruct (inputs fopen stdin argv) as [texts|] eqn:Hi; [|by apply words_main_missing].
  intros ws Hb. destruct (words_main_report fopen stdin argv s texts Hg Hf Hi Hb) as (l & E & [? ? ?]).
  by exists l.
Qed.
End Main.
