(* ===== verification/WordList.v ===== *)
(** * Word count lists of their own (hw1/word_count.c)

    The implementation of word_count.h with singly linked nodes on the heap, whose insertion
    sort relinks the nodes in place.  It keeps the promises of the interface
    [WordCountList]. *)
From Stdlib Require Import Sorted.
From stdpp Require Import sorting.
From S2P Require Import Prelude WordCount.

(** ** Nodes *)
Record word_count_t := WC { wc_word : word; wc_count : Z; wc_next : Z }.
Definition entry_of (wc : word_count_t) : entry := (wc.(wc_word), wc.(wc_count)).
Abbreviation heap := (gmap Z word_count_t).

(** Following a pointer that is not one to a node has no defined result. *)
Definition deref (h : heap) (p : Z) : res word_count_t :=
  match h !! p with Some wc => Ret wc | None => Panic end.
Definition set_count (h : heap) (p c : Z) : res heap :=
  wc ← deref h p; Ret (<[p := WC wc.(wc_word) c wc.(wc_next)]> h).
Definition set_link (h : heap) (p q : Z) : res heap :=
  wc ← deref h p; Ret (<[p := WC wc.(wc_word) wc.(wc_count) q]> h).

(** A list: the heap and the head pointer [*wclist]. *)
Record wlist := WList { wheap : heap; whead : Z }.

(** ** Operations

    A walk over the list passes each node once, and the nodes are on the heap. *)
Definition walk_fuel (h : heap) : nat := S (size h).

Definition list_init_words (s : wlist) : res wlist := Ret (WList s.(wheap) NULL).

Fixpoint len_words_loop (fuel : nat) (h : heap) (cur len : Z) : res Z :=
  match fuel with
  | O => Stuck
  | S fuel =>
    if cur =? NULL then Ret len
    else wc ← deref h cur; len_words_loop fuel h wc.(wc_next) (len + 1)
  end.
Definition len_words (s : wlist) : res Z := len_words_loop (walk_fuel s.(wheap)) s.(wheap) s.(whead) 0.

Fixpoint find_word_loop (fuel : nat) (h : heap) (wc : Z) (w : word) : res Z :=
  match fuel with
  | O => Stuck
  | S fuel =>
    if wc =? NULL then Ret wc
    else n ← deref h wc;
         if str_compare w n.(wc_word) =? 0 then Ret wc else find_word_loop fuel h n.(wc_next) w
  end.
Definition find_word (s : wlist) (w : word) : res Z :=
  find_word_loop (walk_fuel s.(wheap)) s.(wheap) s.(whead) w.

Section Alloc.
(** Whether the [n]-th allocation succeeds, and where it puts a node. *)
Context (granted : nat → bool) (place : heap → Z).

Definition list_add_word (w : word) (s : wlist) (n : nat) : res (bool * wlist * nat) :=
  wc ← find_word s w;
  if negb (wc =? NULL) then
    node ← deref s.(wheap) wc;
    h ← set_count s.(wheap) wc (s32 (node.(wc_count) + 1));
    Ret (true, WList h s.(whead), n)
  else if granted n then
    let wc := place s.(wheap) in
    Ret (true, WList (<[wc := WC w 1 s.(whead)]> s.(wheap)) wc, S n)
  else Ret (false, s, S n).
End Alloc.

Fixpoint print_loop (fuel : nat) (h : heap) (wc : Z) : res (list Z) :=
  match fuel with
  | O => Stuck
  | S fuel =>
    if wc =? NULL then Ret []
    else n ← deref h wc; out ← print_loop fuel h n.(wc_next); Ret (print_line (entry_of n) ++ out)
  end.
Definition list_fprint_words (s : wlist) : res (list Z) :=
  print_loop (walk_fuel s.(wheap)) s.(wheap) s.(whead).

Section Sort.
Context (less : entry → entry → bool).

(** [while (cur != NULL && less (cur, elem))]. *)
Fixpoint insert_walk (fuel : nat) (h : heap) (elem : word_count_t) (prev cur : Z) : res (Z * Z) :=
  match fuel with
  | O => Stuck
  | S fuel =>
    if cur =? NULL then Ret (prev, cur)
    else c ← deref h cur;
         if less (entry_of c) (entry_of elem) then insert_walk fuel h elem cur c.(wc_next)
         else Ret (prev, cur)
  end.
Definition wordcount_insert_ordered (h : heap) (wclist elem : Z) : res (heap * Z) :=
  let prev := wclist in
  e ← deref h elem;
  first ← (if prev =? NULL then Ret true else p ← deref h prev; Ret (less (entry_of e) (entry_of p)));
  if first : bool then
    h ← set_link h elem prev;
    Ret (h, elem)
  else
    p ← deref h prev;
    '(prev, cur) ← insert_walk (walk_fuel h) h e prev p.(wc_next);
    h ← set_link h prev elem;
    h ← set_link h elem cur;
    Ret (h, wclist).
Fixpoint sort_nodes_loop (fuel : nat) (h : heap) (head sorted : Z) : res (heap * Z) :=
  match fuel with
  | O => Stuck
  | S fuel =>
    if head =? NULL then Ret (h, sorted)
    else
      let to_insert := head in
      n ← deref h head;
      let head := n.(wc_next) in
      h ← set_link h to_insert NULL;
      '(h, sorted) ← wordcount_insert_ordered h sorted to_insert;
      sort_nodes_loop fuel h head sorted
  end.
Definition list_wordcount_sort (s : wlist) : res wlist :=
  '(h, sorted) ← sort_nodes_loop (walk_fuel s.(wheap)) s.(wheap) s.(whead) NULL;
  Ret (WList h sorted).
End Sort.

(** ** What a list holds *)
(** The nodes from [p] to [q], with their entries. *)
Fixpoint lseg (h : heap) (p : Z) (ns : list (Z * entry)) (q : Z) : Prop :=
  match ns with
  | [] => p = q
  | (a, e) :: ns => p = a ∧ a ≠ NULL ∧ ∃ nx, h !! a = Some (WC e.1 e.2 nx) ∧ lseg h nx ns q
  end.
(** A list of entries at the nodes [ns]. *)
Record sll (h : heap) (p : Z) (ns : list (Z * entry)) : Prop := {
  sll_seg : lseg h p ns NULL;
  sll_nodup : NoDup ns.*1;
}.

Lemma lseg_app h ns ns' p q :
  lseg h p (ns ++ ns') q ↔ ∃ r, lseg h p ns r ∧ lseg h r ns' q.
Proof.
  revert p. induction ns as [|[a e] ns IH]; intros p; cbn; [naive_solver|].
  setoid_rewrite IH. naive_solver.
Qed.
Lemma lseg_frame h p ns q a n : a ∉ ns.*1 → lseg (<[a := n]> h) p ns q ↔ lseg h p ns q.
Proof.
  revert p. induction ns as [|[b e] ns IH]; intros p Ha; cbn in *; [done|].
  apply not_elem_of_cons in Ha as [Hb Ha]. setoid_rewrite (IH _ Ha).
  by rewrite lookup_insert_ne.
Qed.
Lemma lseg_dom h p ns q a : lseg h p ns q → a ∈ ns.*1 → is_Some (h !! a).
Proof.
  revert p. induction ns as [|[b e] ns IH]; intros p H Ha; cbn in *; [by apply not_elem_of_nil in Ha|].
  destruct H as (-> & _ & nx & Hb & H). apply elem_of_cons in Ha as [->|Ha]; [done|eauto].
Qed.
(** A walk has enough steps. *)
Lemma lseg_walk h p ns q : lseg h p ns q → NoDup ns.*1 → (length ns < walk_fuel h)%nat.
Proof.
  intros H Hn. unfold walk_fuel. rewrite <- (length_fmap fst), <- (size_list_to_set (C := gset Z)) by done.
  rewrite <- size_dom. apply Nat.lt_succ_r, subseteq_size. intros a Ha%elem_of_list_to_set.
  apply elem_of_dom. by eapply lseg_dom.
Qed.
Lemma deref_some h p wc : h !! p = Some wc → deref h p = Ret wc.
Proof. unfold deref. by intros ->. Qed.
Lemma nonnull p : p ≠ NULL → (p =? NULL) = false.
Proof. apply Z.eqb_neq. Qed.

(** A step of a walk. *)
Ltac at_node Hn Ha := rewrite (nonnull _ Hn); cbn [negb]; rewrite (deref_some _ _ _ Ha);
  cbn [mbind res_bind wc_word wc_count wc_next fst snd].

Lemma strcmp_eqb a b : (str_compare a b =? 0) = bool_decide (a = b).
Proof.
  destruct (bool_decide_reflect (a = b)) as [->|Hne]; [by apply Z.eqb_eq, strcmp_zero|].
  apply Z.eqb_neq. by rewrite strcmp_zero.
Qed.
Lemma find_word_loop_ok h w ns : ∀ fuel p,
  lseg h p ns NULL → (length ns < fuel)%nat →
  (w ∉ ns.*2.*1 ∧ find_word_loop fuel h p w = Ret NULL)
  ∨ ∃ l1 a c l2, ns = l1 ++ (a, (w, c)) :: l2 ∧ w ∉ l1.*2.*1 ∧ find_word_loop fuel h p w = Ret a.
Proof.
  induction ns as [|[a [v c]] ns IH]; intros fuel p H Hf; (destruct fuel as [|fuel]; [cbn in Hf; lia|]).
  { cbn in *. subst p. left. split; [apply not_elem_of_nil|done]. }
  cbn [lseg find_word_loop] in *. destruct H as (-> & Hn & nx & Ha & H). at_node Hn Ha.
  rewrite strcmp_eqb. case_bool_decide as E.
  { subst v. right. exists [], a, c, ns. split_and!; [done|apply not_elem_of_nil|done]. }
  destruct (IH fuel nx H ltac:(cbn in Hf; lia)) as [[Hw Hf']|(l1 & b & d & l2 & -> & Hw & Hf')].
  - left. split; [|done]. cbn. by apply not_elem_of_cons.
  - right. exists ((a, (v, c)) :: l1), b, d, l2. split_and!; [done| |done]. cbn. by apply not_elem_of_cons.
Qed.
Lemma len_words_loop_ok h ns : ∀ fuel p len,
  lseg h p ns NULL → (length ns < fuel)%nat →
  len_words_loop fuel h p len = Ret (len + Z.of_nat (length ns)).
Proof.
  induction ns as [|[a e] ns IH]; intros fuel p len H Hf; (destruct fuel as [|fuel]; [cbn in Hf; lia|]).
  { cbn in *. subst p. cbn. by rewrite Z.add_0_r. }
  cbn [lseg len_words_loop length] in *. destruct H as (-> & Hn & nx & Ha & H). at_node Hn Ha.
  rewrite IH; [f_equal; lia|done|lia].
Qed.
Lemma print_loop_ok h ns : ∀ fuel p,
  lseg h p ns NULL → (length ns < fuel)%nat → print_loop fuel h p = Ret (mjoin (print_line <$> ns.*2)).
Proof.
  induction ns as [|[a [w c]] ns IH]; intros fuel p H Hf; (destruct fuel as [|fuel]; [cbn in Hf; lia|]).
  { cbn in *. by subst p. }
  cbn [lseg print_loop length] in *. destruct H as (-> & Hn & nx & Ha & H). at_node Hn Ha.
  by rewrite (IH fuel nx H ltac:(lia)).
Qed.

(** Replacing an entry. *)
Lemma lseg_update h p l1 a e l2 q e' :
  NoDup (l1 ++ (a, e) :: l2).*1 → lseg h p (l1 ++ (a, e) :: l2) q →
  ∃ nx, h !! a = Some (WC e.1 e.2 nx)
    ∧ lseg (<[a := WC e'.1 e'.2 nx]> h) p (l1 ++ (a, e') :: l2) q.
Proof.
  intros Hd (r & H1 & -> & Hn & nx & Ha & H2)%lseg_app. exists nx. split; [done|].
  rewrite fmap_app in Hd. cbn in Hd. apply NoDup_app in Hd as (_ & Hd1 & [Hd2 _]%NoDup_cons).
  apply lseg_app. exists a. split.
  - apply lseg_frame; [|done]. intros Hin. apply (Hd1 a Hin). left.
  - split_and!; [done|done|]. exists nx. split; [by rewrite lookup_insert_eq|]. by apply lseg_frame.
Qed.
Lemma incr_app k w l1 l2 : w ∉ l1.*1 → incr k w (l1 ++ l2) = l1 ++ incr k w l2.
Proof.
  induction l1 as [|[v c] l1 IH]; intros H; [done|]. cbn in *. apply not_elem_of_cons in H as [Hv H].
  rewrite decide_False by done. by rewrite IH.
Qed.
Lemma lseg_agree h h' p ns q :
  (∀ a, a ∈ ns.*1 → h' !! a = h !! a) → lseg h p ns q → lseg h' p ns q.
Proof.
  revert p. induction ns as [|[b e] ns IH]; intros p He H; cbn in *; [done|].
  destruct H as (-> & Hn & nx & Hb & H). split_and!; [done|done|]. exists nx. split; [rewrite He; [done|left]|].
  apply IH; [|done]. intros a Ha. apply He. by right.
Qed.
(** Making the last node of a segment point elsewhere. *)
Lemma lseg_relink h p l a e q r :
  NoDup (l ++ [(a, e)]).*1 → lseg h p (l ++ [(a, e)]) q →
  h !! a = Some (WC e.1 e.2 q) ∧ lseg (<[a := WC e.1 e.2 r]> h) p (l ++ [(a, e)]) r.
Proof.
  intros Hd (s & H1 & -> & Hn & nx & Ha & <-)%lseg_app. split; [done|].
  rewrite fmap_app in Hd. cbn in Hd. apply NoDup_app in Hd as (_ & Hd1 & _).
  apply lseg_app. exists a. split.
  - apply lseg_frame; [|done]. intros Hin. apply (Hd1 a Hin). left.
  - split_and!; [done|done|]. exists r. split; [by rewrite lookup_insert_eq|done].
Qed.

(** ** The list keeps its promises *)
Definition wl_entries (s : wlist) (l : list entry) : Prop := ∃ ns, ns.*2 = l ∧ sll s.(wheap) s.(whead) ns.

Section Promises.
Context (granted : nat → bool) (place : heap → Z).
(** malloc returns a block that is in no use. *)
Hypothesis place_ok : ∀ h, place h ≠ NULL ∧ h !! place h = None.

Lemma list_add_word_ok s n w l :
  wl_entries s l →
  ∃ b s' n', list_add_word granted place w s n = Ret (b, s', n') ∧ wl_entries s' (if b then bump l w else l)
    ∧ (b = true ∨ ∃ k, granted k = false).
Proof using place_ok.
  intros (ns & <- & [Hs Hn]). unfold list_add_word, find_word.
  pose proof (lseg_walk _ _ _ _ Hs Hn) as Hw.
  destruct (find_word_loop_ok s.(wheap) w ns _ _ Hs Hw) as [[Hno ->]|(l1 & a & c & l2 & -> & Hno & ->)];
    cbn [mbind res_bind].
  - rewrite Z.eqb_refl. cbn [negb]. destruct (granted n) eqn:Hg.
    2: { eexists false, _, _. split_and!; [done|by exists ns|right; by exists n]. }
    eexists true, _, _. split_and!; [done| |by left]. destruct (place_ok s.(wheap)) as [Hp0 Hp].
    exists ((place s.(wheap), (w, 1)) :: ns). unfold bump. rewrite decide_False by done. split; [done|].
    assert (Hnp : place s.(wheap) ∉ ns.*1).
    { intros Hin. destruct (lseg_dom _ _ _ _ _ Hs Hin) as [? ?]. congruence. }
    split; cbn; [|by constructor]. split_and!; [done|done|]. exists s.(whead).
    split; [by rewrite lookup_insert_eq|by apply lseg_frame].
  - destruct (lseg_update _ _ _ _ _ _ _ (w, s32 (c + 1)) Hn Hs) as (nx & Ha & Hu).
    assert (Ha0 : a ≠ NULL) by (apply lseg_app in Hs as (r & _ & -> & Ha0 & _); done).
    rewrite (nonnull a Ha0). cbn [negb]. unfold set_count. rewrite (deref_some _ _ _ Ha).
    cbn [mbind res_bind wc_word wc_count wc_next fst snd] in *.
    eexists true, _, _. split_and!; [done| |by left].
    exists (l1 ++ (a, (w, s32 (c + 1))) :: l2). split.
    + rewrite !fmap_app. cbn. unfold bump. rewrite decide_True.
      * rewrite incr_app by done. cbn. by rewrite decide_True.
      * rewrite fmap_app. apply elem_of_app. right. left.
    + split; [done|]. rewrite fmap_app in *. exact Hn.
Qed.

Section SortOk.
Context (less : entry → entry → bool).

Lemma insert_walk_ok h e ns : ∀ fuel prev cur,
  lseg h cur ns NULL → (length ns < fuel)%nat →
  ∃ A B cur', insert_walk less fuel h e prev cur = Ret (List.last A.*1 prev, cur')
    ∧ ns = A ++ B ∧ lseg h cur A cur' ∧ lseg h cur' B NULL
    ∧ Forall (λ n, less n.2 (entry_of e) = true) A
    ∧ (∀ b, head B = Some b → less b.2 (entry_of e) = false).
Proof using.
  induction ns as [|[a [w c]] ns IH]; intros fuel prev cur H Hf; (destruct fuel as [|fuel]; [cbn in Hf; lia|]).
  { cbn in *. subst cur. exists [], [], NULL. by split_and!. }
  cbn [lseg insert_walk length] in *. destruct H as (-> & Hn & nx & Ha & H). at_node Hn Ha.
  change (entry_of (WC w c nx)) with (w, c). destruct (less (w, c) (entry_of e)) eqn:El.
  - destruct (IH fuel a nx H ltac:(lia)) as (A & B & cur' & E & -> & HA & HB & FA & FB).
    exists ((a, (w, c)) :: A), B, cur'. split_and!; [|done| |done|by constructor|done].
    + rewrite E. do 2 f_equal. cbn [fmap list_fmap fst]. clear.
      revert a prev. generalize (A.*1). intros l. induction l as [|x l IHl]; intros a prev; [done|]. cbn.
      destruct l; [done|]. apply IHl.
    + cbn. split_and!; [done|done|]. by exists nx.
  - exists [], ((a, (w, c)) :: ns), a. split_and!; [done|done|done| |by constructor|by intros b [= <-]].
    cbn. split_and!; [done|done|]. by exists nx.
Qed.

(** Where an entry is inserted. *)
Definition inserted (e : entry) (A B : list (Z * entry)) : Prop :=
  match A with
  | [] => ∀ b, head B = Some b → less e b.2 = true
  | a :: A => less e a.2 = false ∧ Forall (λ n, less n.2 e = true) A
              ∧ ∀ b, head B = Some b → less b.2 e = false
  end.

Lemma insert_ordered_ok h p ns x e nx :
  sll h p ns → h !! x = Some (WC e.1 e.2 nx) → x ≠ NULL → x ∉ ns.*1 →
  ∃ h' p' A B, wordcount_insert_ordered less h p x = Ret (h', p') ∧ ns = A ++ B ∧ inserted e A B
    ∧ sll h' p' (A ++ (x, e) :: B) ∧ (∀ y, y ∉ x :: ns.*1 → h' !! y = h !! y).
Proof using.
  intros [Hs Hn] Hx Hx0 Hfresh. destruct e as [w c]. cbn [fst snd] in Hx.
  unfold wordcount_insert_ordered, set_link. rewrite (deref_some _ _ _ Hx). cbn [mbind res_bind wc_word wc_count].
  change (entry_of (WC w c nx)) with (w, c).
  assert (Hframe : ∀ q y, y ∉ x :: ns.*1 → <[x := WC w c q]> h !! y = h !! y).
  { intros q y Hy. apply lookup_insert_ne. intros ->. apply Hy. left. }
  assert (Hfront : ∀ q, lseg h q ns NULL → sll (<[x := WC w c q]> h) x ((x, (w, c)) :: ns)).
  { intros q Hq. split; cbn; [|by constructor]. split_and!; [done|done|]. exists q.
    split; [by rewrite lookup_insert_eq|by apply lseg_frame]. }
  destruct ns as [|[a [v d]] ns].
  { cbn in Hs. subst p. rewrite Z.eqb_refl. cbn [mbind res_bind]. eexists _, _, [], [].
    split_and!; [done|done|done|by apply Hfront|apply Hframe]. }
  pose proof Hs as (-> & Ha0 & na & Ha & Hs'). cbn [fst snd] in Ha. rewrite (nonnull _ Ha0), (deref_some _ _ _ Ha).
  cbn [mbind res_bind wc_next]. change (entry_of (WC v d na)) with (v, d).
  destruct (less (w, c) (v, d)) eqn:El; cbn [mbind res_bind].
  { eexists _, _, [], _. split_and!; [done|done| |by apply Hfront|apply Hframe]. by intros b [= <-]. }
  assert (Hw : (length ns < walk_fuel h)%nat) by (pose proof (lseg_walk _ _ _ _ Hs Hn) as Hw; cbn in Hw; lia).
  destruct (insert_walk_ok h (WC w c nx) ns _ a na Hs' Hw) as (A & B & cur & -> & -> & HA & HB & FA & FB).
  cbn [mbind res_bind]. clear Hs' Hw.
  assert (Hseg : lseg h a ((a, (v, d)) :: A) cur) by (cbn; split_and!; [done|done|by exists na]).
  assert (Hlast : ∃ l ae, (a, (v, d)) :: A = l ++ [ae] ∧ List.last A.*1 a = ae.1).
  { clear. destruct A as [|ae A] using rev_ind; [by exists [], (a, (v, d))|].
    exists ((a, (v, d)) :: A), ae. split; [done|]. rewrite fmap_app. cbn. by rewrite List.last_last. }
  destruct Hlast as (l & [b eb] & El' & ->). cbn [fst].
  change ((a, (v, d)) :: A ++ B) with (((a, (v, d)) :: A) ++ B) in *.
  rewrite El' in Hseg, Hn, Hfresh, Hframe.
  rewrite fmap_app in Hn, Hfresh. apply NoDup_app in Hn as (Hn1 & Hn2 & Hn3).
  apply not_elem_of_app in Hfresh as [Hf1 Hf2].
  destruct (lseg_relink _ _ _ _ _ _ x Hn1 Hseg) as [Hb Hseg'].
  assert (Hbin : b ∈ (l ++ [(b, eb)]).*1) by (rewrite fmap_app; apply elem_of_app; right; left).
  assert (Hbx : b ≠ x) by by intros ->.
  rewrite (deref_some _ _ _ Hb). cbn [mbind res_bind wc_word wc_count].
  assert (Hx' : <[b := WC eb.1 eb.2 x]> h !! x = Some (WC w c nx)) by by rewrite lookup_insert_ne.
  rewrite (deref_some _ _ _ Hx'). cbn [mbind res_bind wc_word wc_count].
  eexists _, _, (l ++ [(b, eb)]), B. rewrite <- El'. split_and!; [done|done| | |].
  - by split_and!.
  - rewrite El'. split.
    + apply lseg_app. exists x. split; [by apply lseg_frame|]. cbn. split_and!; [done|done|].
      exists cur. split; [by rewrite lookup_insert_eq|]. apply lseg_frame; [done|]. apply lseg_frame; [|done].
      by apply Hn2.
    + rewrite fmap_app. cbn [fmap list_fmap fst]. apply NoDup_app. split_and!; [done| |by constructor].
      intros y Hy [->|Hy']%elem_of_cons; [done|by apply (Hn2 y)].
  - intros y Hy. rewrite El' in Hy. apply not_elem_of_cons in Hy as [Hyx Hy].
    rewrite !lookup_insert_ne; [done| |done]. intros ->. apply Hy. rewrite fmap_app. apply elem_of_app. by left.
Qed.

Context `{!LinearLess less}.
Abbreviation before a b := (less a b = true).

(** Inserted there, an entry keeps entries with different words sorted. *)
Lemma inserted_sorted e A B :
  e.1 ∉ (A ++ B).*2.*1 → NoDup (A ++ B).*2.*1 → inserted e A B →
  StronglySorted (λ a b, before a b) (A ++ B).*2 → StronglySorted (λ a b, before a b) (A.*2 ++ e :: B.*2).
Proof using LinearLess0.
  intros He Hn Hi Hs.
  assert (Hflip : ∀ b : Z * entry, b ∈ A ++ B → less b.2 e = negb (less e b.2)).
  { intros b Hb. apply linear_total. intros E. apply He. rewrite <- E. apply list_elem_of_fmap_2, list_elem_of_fmap_2.
    done. }
  rewrite fmap_app in Hs. apply StronglySorted_app in Hs as (HAB & HA & HB).
  (* everything from [B] on comes after [e] *)
  assert (HeB : ∀ b, b ∈ B.*2 → before e b).
  { assert (Hh : ∀ b, head B = Some b → before e b.2).
    { intros b Hb. destruct A as [|a A]; [by apply Hi|]. destruct Hi as (_ & _ & Hi).
      assert (Hin : b ∈ (a :: A) ++ B) by (apply elem_of_app; right; destruct B; [done|]; injection Hb as <-; left).
      specialize (Hflip b Hin). rewrite (Hi b Hb) in Hflip. by destruct (less e b.2). }
    destruct B as [|b B]; intros x Hx; [by apply not_elem_of_nil in Hx|]. cbn in Hx.
    specialize (Hh b eq_refl). apply elem_of_cons in Hx as [->|Hx]; [done|].
    apply (linear_trans less _ b.2); [done|]. inversion_clear HB as [|? ? _ Hall]. rewrite Forall_forall in Hall. auto. }
  assert (HAe : ∀ a, a ∈ A.*2 → before a e).
  { destruct A as [|a A]; intros x Hx; [by apply not_elem_of_nil in Hx|]. destruct Hi as (Ha & FA & _).
    cbn in Hx. apply elem_of_cons in Hx as [->|(y & -> & Hy)%list_elem_of_fmap]; [|rewrite Forall_forall in FA; auto].
    rewrite (Hflip a) by (apply elem_of_app; left; left). by rewrite Ha. }
  apply StronglySorted_app. split_and!; [|done|].
  - intros a b Ha [->|Hb]%elem_of_cons; auto.
  - constructor; [done|]. by apply Forall_forall.
Qed.

Lemma sort_loop_ok rest : ∀ fuel h head sorted ns,
  lseg h head rest NULL → sll h sorted ns → NoDup (rest.*1 ++ ns.*1) → NoDup (rest.*2.*1 ++ ns.*2.*1) →
  StronglySorted (λ a b, before a b) ns.*2 → (length rest < fuel)%nat →
  ∃ h' p' ns', sort_nodes_loop less fuel h head sorted = Ret (h', p') ∧ sll h' p' ns' ∧ ns' ≡ₚ rest ++ ns
    ∧ StronglySorted (λ a b, before a b) ns'.*2.
Proof using LinearLess0.
  induction rest as [|[x [w c]] rest IH]; intros fuel h head sorted ns Hr Hs Hd Hw Hsort Hf;
    (destruct fuel as [|fuel]; [cbn in Hf; lia|]).
  { cbn in *. subst head. cbn. by exists h, sorted, ns. }
  cbn [lseg sort_nodes_loop length] in *. destruct Hr as (-> & Hx0 & nx & Hx & Hr). at_node Hx0 Hx.
  unfold set_link. rewrite (deref_some _ _ _ Hx). cbn [mbind res_bind wc_word wc_count wc_next fst snd] in *.
  cbn in Hd, Hw. apply NoDup_cons in Hd as [[Hxr Hxn]%not_elem_of_app Hd].
  apply NoDup_cons in Hw as [[Hwr Hwn]%not_elem_of_app Hw].
  assert (Hs1 : sll (<[x := WC w c NULL]> h) sorted ns) by (destruct Hs; split; [by apply lseg_frame|done]).
  destruct (insert_ordered_ok _ _ _ x (w, c) NULL Hs1 (lookup_insert_eq _ _ _) Hx0 Hxn)
    as (h' & p' & A & B & -> & -> & Hins & Hs' & Hfr). cbn [mbind res_bind].
  destruct (IH fuel h' nx p' (A ++ (x, (w, c)) :: B)) as (h2 & p2 & ns2 & -> & Hs2 & Hp2 & Hst2).
  - eapply lseg_agree; [|exact Hr]. intros y Hy. rewrite Hfr; [apply lookup_insert_ne; by intros <-|].
    apply NoDup_app in Hd as (_ & Hd & _). intros [->|Hin]%elem_of_cons; [done|by apply (Hd y)].
  - done.
  - rewrite <- (Permutation_middle A B (x, (w, c))). cbn [fmap list_fmap fst]. rewrite <- Permutation_middle.
    apply NoDup_cons. split; [by apply not_elem_of_app|done].
  - rewrite <- (Permutation_middle A B (x, (w, c))). cbn [fmap list_fmap fst snd]. rewrite <- Permutation_middle.
    apply NoDup_cons. split; [by apply not_elem_of_app|done].
  - rewrite fmap_app. cbn. apply NoDup_app in Hw as (_ & _ & Hw'). by apply inserted_sorted.
  - lia.
  - exists h2, p2, ns2. split_and!; [done|done| |done]. rewrite Hp2.
    rewrite <- (Permutation_middle A B (x, (w, c))). by rewrite <- Permutation_middle.
Qed.

Lemma list_sort_words_ok s l :
  wl_entries s l → NoDup l.*1 →
  ∃ s' l', list_wordcount_sort less s = Ret s' ∧ wl_entries s' l' ∧ l' ≡ₚ l
    ∧ StronglySorted (λ a b, before a b) l'.
Proof using LinearLess0.
  intros (ns & <- & [Hs Hn]) Hw. unfold list_wordcount_sort.
  destruct (sort_loop_ok ns (walk_fuel s.(wheap)) s.(wheap) s.(whead) NULL []) as (h' & p' & ns' & -> & Hs' & Hp & Hl).
  - done.
  - by split; [|constructor].
  - by rewrite app_nil_r.
  - by rewrite app_nil_r.
  - constructor.
  - by eapply lseg_walk.
  - eexists _, _. split_and!; [done|by exists ns'| |done]. by rewrite Hp, app_nil_r.
Qed.
End SortOk.

#[export] Instance list_ops : WordCountOps wlist := {
  init_words := list_init_words;
  add_word := list_add_word granted place;
  wordcount_sort := list_wordcount_sort;
  fprint_words := list_fprint_words;
}.
#[export] Program Instance list_promises : WordCountList granted wlist := {
  entries := wl_entries;
  fresh_list _ := True;
}.
Next Obligation. intros s _. eexists. split; [done|]. exists []. split; [done|]. by split; [|constructor]. Qed.
Next Obligation.
  intros s n w l H. destruct (list_add_word_ok s n w l H) as (b & s' & n' & E & Hs' & Hb).
  exists b, s', n', (if b then bump l w else l). split_and!; [done|done|]. destruct b; [by left|].
  right. by destruct Hb.
Qed.
Next Obligation. intros less s l Hl H Hn. by apply list_sort_words_ok. Qed.
Next Obligation.
  intros s l (ns & <- & [Hs Hn]). change (list_fprint_words s = Ret (mjoin (print_line <$> ns.*2))).
  apply print_loop_ok; [done|by eapply lseg_walk].
Qed.
#[export] Instance list_reporting : Reporting granted wlist.
Proof.
  intros s n w l s' n' b H E. destruct (list_add_word_ok s n w l H) as (b1 & s1 & n1 & E1 & Hs1 & _).
  change (add_word w s n) with (list_add_word granted place w s n) in E. rewrite E1 in E. by simplify_eq.
Qed.
End Promises.

(** [len_words] is the number of entries. *)
Lemma len_words_ok s l : wl_entries s l → len_words s = Ret (Z.of_nat (length l)).
Proof.
  intros (ns & <- & [Hs Hn]). unfold len_words. rewrite (len_words_loop_ok _ ns) by (done || by eapply lseg_walk).
  by rewrite length_fmap.
Qed.

(** ** An allocator *)
(** The address after the largest in use. *)
Definition after_all {A} (h : gmap Z A) : Z := map_fold (λ k _ n, Z.max n (k + 1)) 1 h.
Lemma after_all_ok {A} (h : gmap Z A) : after_all h ≠ NULL ∧ h !! after_all h = None.
Proof.
  assert (Hb : 1 ≤ after_all h ∧ ∀ k n, h !! k = Some n → k < after_all h).
  { unfold after_all. apply (map_fold_weak_ind (λ r (m : gmap Z A), 1 ≤ r ∧ ∀ k n, m !! k = Some n → k < r)).
    - split; [lia|]. intros k n H. by rewrite lookup_empty in H.
    - intros i x m r Hi [H1 H2]. split; [lia|]. intros k n [[<- <-]|[Hne Hk]]%lookup_insert_Some; [lia|].
      specialize (H2 k n Hk). lia. }
  destruct Hb as [H1 H2]. split; [unfold NULL; lia|].
  destruct (h !! after_all h) as [n|] eqn:E; [|done]. apply H2 in E. lia.
Qed.
Definition always (_ : nat) : bool := true.

(** "The cat, the dog! A cat's THE" in ASCII. *)
Definition sample : list Z :=
  [84;104;101;32;99;97;116;44;32;116;104;101;32;100;111;103;33;32;65;32;99;97;116;39;115;32;84;72;69].

(** The whole program on it: dog once, cat twice, the three times. *)
Example words_sample :
  words_main always (WordCountOps0 := list_ops always after_all) (λ _, None) sample [] (WList ∅ NULL)
  = Ret (0, mjoin (print_line <$> [([100;111;103], 1); ([99;97;116], 2); ([116;104;101], 3)])).
Proof. vm_compute. reflexivity. Qed.

Lemma words_main_witness :
  ∃ l, words_main always (WordCountOps0 := list_ops always after_all) (λ _, None) sample [] (WList ∅ NULL)
         = Ret (0, mjoin (print_line <$> l))
    ∧ StronglySorted (λ a b, less_count a b = true) l ∧ NoDup l.*1
    ∧ ∀ w c, (w, c) ∈ l ↔ 0 < c ∧ c = occurrences w ([sample] ≫= words_of).
Proof.
  apply (words_main_correct always (H := list_promises always after_all after_all_ok)
    (λ _, None) sample [] (WList ∅ NULL)); [done|done|vm_compute; reflexivity].
Defined.
