(* ===== verification/WordPar.v ===== *)
(** * Counting words with threads (hw2/word_count_p.c, custom_helpers.c, pwords.c)

    The word count list that threads share: a list.h list of nodes under a mutex.  [pwords]
    starts a thread per file; the threads read words on their own and add them under the
    mutex.  The [struct list] is the sequence of its elements, and [list_sort] the sequence
    of passes KListSort shows list.c to make; a node is known by its element's address. *)
From Stdlib Require Import Sorted.
From stdpp Require Import sorting.
From S2P Require Import Prelude Mem KList KListSort WordCount WordList.

(** ** The shared list *)
(** The nodes on the heap, the list's elements, and whether the mutex is held. *)
Record plist := PList { hosts : gmap Z entry; elems : list Z; locked : bool }.

(** Taking a held mutex blocks for good, unless another thread lets it go. *)
Definition pthread_mutex_lock (s : plist) : res plist :=
  if s.(locked) then Stuck else Ret (PList s.(hosts) s.(elems) true).
Definition pthread_mutex_unlock (s : plist) : plist := PList s.(hosts) s.(elems) false.
(** [list_entry] and a read of the node. *)
Definition host (s : plist) (e : Z) : res entry :=
  match s.(hosts) !! e with Some n => Ret n | None => Panic end.

Definition init_words_p (s : plist) : res plist := Ret (PList s.(hosts) [] false).

Definition len_words_p (s : plist) : res (Z * plist) :=
  s ← pthread_mutex_lock s;
  let length := Z.of_nat (length s.(elems)) in
  Ret (length, pthread_mutex_unlock s).

Fixpoint find_loop_p (s : plist) (es : list Z) (w : word) : res Z :=
  match es with
  | [] => Ret NULL
  | e :: es => n ← host s e; if str_compare w n.1 =? 0 then Ret e else find_loop_p s es w
  end.
Definition find_word_p (s : plist) (w : word) : res Z := find_loop_p s s.(elems) w.

Definition increment_count (s : plist) (e : Z) : res plist :=
  n ← host s e; Ret (PList (<[e := (n.1, s32 (n.2 + 1))]> s.(hosts)) s.(elems) s.(locked)).

Section Alloc.
Context (granted : nat → bool) (place : gmap Z entry → Z).

(** The node comes first and its copy of the word second; the result is the node even when the
    word could not be copied. *)
Definition create_word (s : plist) (w : word) (n : nat) : Z * plist * nat :=
  let wc := if granted n then place s.(hosts) else NULL in
  let wcWord := granted (S n) in
  if negb (wc =? NULL) && wcWord
  then (wc, PList (<[wc := (w, 1)]> s.(hosts)) (wc :: s.(elems)) s.(locked), S (S n))
  else (wc, s, S (S n)).
(** What [add_word] does while it holds the mutex. *)
Definition add_word_body (w : word) (s : plist) (n : nat) : res (Z * plist * nat) :=
  wc ← find_word_p s w;
  if negb (wc =? NULL) then s ← increment_count s wc; Ret (wc, s, n)
  else Ret (create_word s w n).
(** [None] is a null pointer for the word: that return leaves the mutex held. *)
Definition add_word_p (w : option word) (s : plist) (n : nat) : res (Z * plist * nat) :=
  s ← pthread_mutex_lock s;
  match w with
  | None => Ret (NULL, s, n)
  | Some w =>
    '(wc, s, n) ← add_word_body w s n;
    Ret (wc, pthread_mutex_unlock s, n)
  end.
End Alloc.

Fixpoint print_loop_p (s : plist) (es : list Z) : res (list Z) :=
  match es with
  | [] => Ret []
  | e :: es => n ← host s e; out ← print_loop_p s es; Ret (print_line n ++ out)
  end.
(** The output, and the list with the mutex let go. *)
Definition fprint_words_p (s : plist) : res (list Z * plist) :=
  s ← pthread_mutex_lock s;
  out ← print_loop_p s s.(elems);
  Ret (out, pthread_mutex_unlock s).

(** [list_elem_less_comparator]; what a node's fields are when there is no node does not
    matter. *)
Definition list_elem_less_comparator (hs : gmap Z entry) (less : entry → entry → bool) (first second : Z) : bool :=
  if (first =? NULL) || (second =? NULL) then false
  else less (default ([], 0) (hs !! first)) (default ([], 0) (hs !! second)).
(** The passes of [list_sort] over the elements. *)
Fixpoint sort_passes (less : Z → Z → bool) (fuel : nat) (xs : list Z) : res (list Z) :=
  match fuel with
  | O => Stuck
  | S fuel =>
    let '(ys, output_run_cnt) := pass less (S (length xs)) xs in
    if (1 <? output_run_cnt)%nat then sort_passes less fuel ys else Ret ys
  end.
Definition wordcount_sort_p (less : entry → entry → bool) (s : plist) : res plist :=
  s ← pthread_mutex_lock s;
  es ← sort_passes (list_elem_less_comparator s.(hosts) less) (S (length s.(elems))) s.(elems);
  Ret (pthread_mutex_unlock (PList s.(hosts) es s.(locked))).

(** [cleanUpWordCountList]: every node is taken off the list and freed. *)
Fixpoint clean_loop (hs : gmap Z entry) (es : list Z) : res (gmap Z entry) :=
  match es with
  | [] => Ret hs
  | e :: es => match hs !! e with Some _ => clean_loop (delete e hs) es | None => Panic end
  end.
Definition cleanUpWordCountList (s : plist) : res plist :=
  s ← pthread_mutex_lock s;
  hs ← clean_loop s.(hosts) s.(elems);
  Ret (pthread_mutex_unlock (PList hs [] s.(locked))).

(** word_count.h's operations, on this list. *)
#[export] Instance p_ops granted place : WordCountOps plist := {
  init_words := init_words_p;
  add_word w s n := '(wc, s, n) ← add_word_p granted place (Some w) s n; Ret (negb (wc =? NULL), s, n);
  wordcount_sort := wordcount_sort_p;
  fprint_words s := '(out, _) ← fprint_words_p s; Ret out;
}.

Definition less_word_p (wc1 wc2 : entry) : bool :=
  if wc1.2 <? wc2.2 then true else if wc2.2 <? wc1.2 then false else str_compare wc1.1 wc2.1 <? 0.

(** ** Threads *)
Section Threads.
Context (granted : nat → bool) (place : gmap Z entry → Z).

(** The [do] loop of [get_word_p], which grows the block before it writes the last byte. *)
Fixpoint accumulate_p (file : list Z) (character : Z) (b : buffer) (word_size index n : nat)
    : res (option buffer * nat * list Z) :=
  let full := (index =? word_size - 1)%nat in
  let word_size := if full then (word_size * 2)%nat else word_size in
  if full && negb (granted n) then Ret (None, S n, file) else
  let b := if full then b ++ replicate (word_size - length b) None else b in
  let n := if full then S n else n in
  b ← put b index (to_lower character);
  let index := S index in
  match file with
  | [] => b ← put b index 0; Ret (Some b, n, [])
  | character :: file =>
    if isalpha character then accumulate_p file character b word_size index n
    else b ← put b index 0; Ret (Some b, n, file)
  end.
Definition get_word_p (n : nat) (file : list Z) : res (option buffer * nat * list Z) :=
  match skip_nonalpha file with
  | None => Ret (None, n, [])
  | Some (character, file) =>
    if granted n then accumulate_p file character (replicate 16 None) 16 0 (S n)
    else Ret (None, S n, file)
  end.

(** A thread in [count_words_p]: about to read a word, waiting for the mutex with a word, in
    [add_word] with the mutex, or gone with an exit value. *)
Inductive worker :=
| Reading (file : list Z)
| Waiting (w : word) (file : list Z)
| Holding (w : word) (file : list Z)
| Exited (value : Z).
(** The list, the number of allocations made, and the threads. *)
Record process := Process { shared : plist; calls : nat; threads : list worker }.

(** What thread [i] does next; [None] if it waits for the mutex or is gone. *)
Definition thread_step (i : nat) (p : process) : res (option process) :=
  match p.(threads) !! i with
  | Some (Reading file) =>
    '(r, n, file) ← get_word_p p.(calls) file;
    t ← match r with
        | None => Ret (Exited 0)
        | Some b => w ← cstring b;
                    Ret (if (length w <=? 1)%nat then Reading file else Waiting w file)
        end;
    Ret (Some (Process p.(shared) n (<[i := t]> p.(threads))))
  | Some (Waiting w file) =>
    match pthread_mutex_lock p.(shared) with
    | Ret s => Ret (Some (Process s p.(calls) (<[i := Holding w file]> p.(threads))))
    | _ => Ret None
    end
  | Some (Holding w file) =>
    '(wc, s, n) ← add_word_body granted place w p.(shared) p.(calls);
    let t := if wc =? NULL then Exited 1 else Reading file in
    Ret (Some (Process (pthread_mutex_unlock s) n (<[i := t]> p.(threads))))
  | _ => Ret None
  end.
(** Any thread may go next. *)
Definition pstep (p p' : process) : Prop := ∃ i, thread_step i p = Ret (Some p').

Definition ended (t : worker) : bool := match t with Exited _ => true | _ => false end.
(** [joinThreadPool] returns when every thread is gone. *)
Definition all_gone (p : process) : bool := forallb ended p.(threads).
End Threads.

(** ** The program *)
Section Pwords.
Context (granted : nat → bool) (place : gmap Z entry → Z).

(** A block of [pthread_t]s: those not written yet have no value. *)
Fixpoint read_pool (threadPool : list (option Z)) : res unit :=
  match threadPool with
  | [] => Ret tt
  | Some _ :: pool => read_pool pool
  | None :: _ => Panic
  end.
(** [cleanUp] in an abort, as far as it is defined: [cleanUpThreadPool] reads every handle. *)
Definition cleanUp_abort (threadPool : option (list (option Z))) : res unit :=
  match threadPool with None => Ret tt | Some pool => read_pool pool end.

(** Run the threads in the order of a schedule; a thread that cannot go is passed over. *)
Fixpoint run_threads (sched : list nat) (p : process) : res process :=
  match sched with
  | [] => Ret p
  | i :: sched =>
    r ← thread_step granted place i p;
    run_threads sched (default p r)
  end.

(** The [pthread_create] loop: the handles written, and whether every call succeeded. *)
Fixpoint create_threads (created : nat → bool) (index n : nat) : list (option Z) * bool :=
  match n with
  | O => ([], true)
  | S n' =>
    if created index
    then let '(pool, ok) := create_threads created (S index) n' in (Some (Z.of_nat index + 1) :: pool, ok)
    else (replicate n None, false)
  end.

(** What [actual_main] does after the words are counted: the exit status and the counts
    printed. *)
Definition print_counts (numOfThreads : nat) (s : plist) : res (Z * list Z) :=
  s ← wordcount_sort_p less_word_p s;
  '(out, s) ← fprint_words_p s;
  (if (numOfThreads =? 0)%nat then Ret tt else cleanUpWordCountList s;; Ret tt);;
  Ret (0, out).

(** [actual_main] under a schedule: [Stuck] when the schedule ends before the threads do.
    [created i] tells whether the [i]-th [pthread_create] succeeds. *)
Definition pwords_main (created : nat → bool) (fopen : word → option (list Z)) (stdin : list Z)
    (argv : list word) (sched : list nat) (s : plist) : res (Z * list Z) :=
  s ← (if granted 0 then init_words_p s else Panic);
  let numOfThreads := length argv in
  if (numOfThreads =? 0)%nat then
    '(s, _) ← count_words granted (WordCountOps0 := p_ops granted place) s 1 stdin;
    print_counts numOfThreads s
  else
    let filePtrs := if granted 1 then mapM fopen argv else None in
    let threadPool := if granted 2 then Some (replicate numOfThreads None) else None in
    let arguments := granted 3 in
    match filePtrs, threadPool, arguments with
    | Some files, Some _, true =>
      let '(pool, ok) := create_threads created 0 numOfThreads in
      if ok : bool then
        p ← run_threads sched (Process s 4 (Reading <$> files));
        if all_gone p then print_counts numOfThreads p.(shared) else Stuck
      else cleanUp_abort (Some pool);; Ret (1, [])
    | _, _, _ => cleanUp_abort threadPool;; Ret (1, [])
    end.
End Pwords.

(** ** The list keeps its promises *)
(** The list holds the entries [l], whoever has the mutex. *)
Record plisted (s : plist) (l : list entry) : Prop := {
  plisted_nodes : Forall2 (λ e n, s.(hosts) !! e = Some n) s.(elems) l;
  plisted_nodup : NoDup s.(elems);
  plisted_nonnull : Forall (λ e, e ≠ NULL) s.(elems);
}.
Definition p_entries (s : plist) (l : list entry) : Prop := s.(locked) = false ∧ plisted s l.

Lemma lock_free s : s.(locked) = false → pthread_mutex_lock s = Ret (PList s.(hosts) s.(elems) true).
Proof. unfold pthread_mutex_lock. by intros ->. Qed.
Lemma plisted_lock hs es b b' l : plisted (PList hs es b) l ↔ plisted (PList hs es b') l.
Proof. split; intros [? ? ?]; by split. Qed.

Lemma find_loop_p_ok s w es l :
  Forall2 (λ e n, s.(hosts) !! e = Some n) es l → Forall (λ e, e ≠ NULL) es →
  (w ∉ l.*1 ∧ find_loop_p s es w = Ret NULL)
  ∨ ∃ es1 e es2 l1 c l2, es = es1 ++ e :: es2 ∧ l = l1 ++ (w, c) :: l2 ∧ length es1 = length l1
      ∧ w ∉ l1.*1 ∧ s.(hosts) !! e = Some (w, c) ∧ e ≠ NULL ∧ find_loop_p s es w = Ret e.
Proof.
  intros H. induction H as [|e [v c] es l He H IH]; intros Hn; cbn [find_loop_p].
  { left. split; [apply not_elem_of_nil|done]. }
  apply Forall_cons in Hn as [Hne Hn]. 
  assert (Hh : host s e = Ret (v, c)) by (unfold host; by rewrite He). rewrite Hh. cbn [mbind res_bind fst].
  rewrite strcmp_eqb. case_bool_decide as E.
  { subst v. right. exists [], e, es, [], c, l. split_and!; try done. apply not_elem_of_nil. }
  destruct (IH Hn) as [[Hw E']|(es1 & e' & es2 & l1 & c' & l2 & -> & -> & Hl & Hw & He' & Hne' & E')].
  - left. split; [cbn; by apply not_elem_of_cons|done].
  - right. exists (e :: es1), e', es2, ((v, c) :: l1), c', l2.
    split_and!; [done|done|cbn; lia|cbn; by apply not_elem_of_cons|done|done|done].
Qed.

Lemma Forall2_insert_node (hs : gmap Z entry) es l e n :
  e ∉ es → Forall2 (λ e n, hs !! e = Some n) es l → Forall2 (λ e' n', <[e := n]> hs !! e' = Some n') es l.
Proof.
  intros He H. induction H as [|e' n' es l Hn' H IH]; [done|]. apply not_elem_of_cons in He as [Hne He].
  constructor; [by rewrite lookup_insert_ne|by apply IH].
Qed.

Section Promises.
Context (granted : nat → bool) (place : gmap Z entry → Z).
(** malloc returns a block that is in no use. *)
Hypothesis place_ok : ∀ hs, place hs ≠ NULL ∧ hs !! place hs = None.

Lemma add_word_body_ok w s n l :
  plisted s l →
  ∃ wc s' n' l', add_word_body granted place w s n = Ret (wc, s', n') ∧ plisted s' l' ∧ s'.(locked) = s.(locked)
    ∧ (wc ≠ NULL ∧ l' = bump l w ∨ l' = l ∧ ∃ k, granted k = false).
Proof using place_ok.
  intros [Hs Hd Hn]. unfold add_word_body, find_word_p.
  destruct (find_loop_p_ok s w _ l Hs Hn)
    as [[Hw ->]|(es1 & e & es2 & l1 & c & l2 & Ees & -> & Hlen & Hw & He & Hne & ->)]; cbn [mbind res_bind].
  - rewrite Z.eqb_refl. cbn [negb]. unfold create_word. destruct (place_ok s.(hosts)) as [Hp0 Hp].
    destruct (granted n) eqn:Hg.
    2: { eexists _, _, _, l. split_and!; [done|done|done|]. right. split; [done|by exists n]. }
    rewrite (nonnull _ Hp0). cbn [negb andb]. destruct (granted (S n)) eqn:Hg'.
    2: { eexists _, _, _, l. split_and!; [done|done|done|]. right. split; [done|by exists (S n)]. }
    eexists _, _, _, _. split_and!; [done| |done|by left].
    unfold bump. rewrite decide_False by done.
    assert (Hpe : place s.(hosts) ∉ s.(elems)).
    { intros Hin. rewrite Forall2_lookup in Hs. apply list_elem_of_lookup in Hin as [i Hi]. specialize (Hs i).
      rewrite Hi in Hs. inversion Hs as [? ? Hx|]; subst. congruence. }
    split; cbn; [|by constructor|by constructor].
    constructor; [by rewrite lookup_insert_eq|by apply Forall2_insert_node].
  - rewrite (nonnull _ Hne). cbn [negb]. unfold increment_count, host. rewrite He. cbn [mbind res_bind fst snd].
    eexists _, _, _, (bump (l1 ++ (w, c) :: l2) w). split_and!; [done| |done|by left].
    split; cbn; [|done|done]. rewrite Ees in *.
    unfold bump. rewrite decide_True by (rewrite fmap_app; apply elem_of_app; right; left).
    rewrite incr_app by done. cbn. rewrite decide_True by done.
    apply Forall2_app_inv in Hs as [H1 H2]; [|done]. inversion_clear H2 as [|? ? ? ? _ H3].
    apply NoDup_app in Hd as (_ & Hd1 & [Hd2 _]%NoDup_cons).
    apply Forall2_app; [|constructor; [by rewrite lookup_insert_eq|]].
    + apply Forall2_insert_node; [|done]. intros Hin. apply (Hd1 e Hin). left.
    + by apply Forall2_insert_node.
Qed.

Lemma add_word_p_ok w s n l :
  p_entries s l →
  ∃ wc s' n' l', add_word_p granted place (Some w) s n = Ret (wc, s', n') ∧ p_entries s' l'
    ∧ (wc ≠ NULL ∧ l' = bump l w ∨ l' = l ∧ ∃ k, granted k = false).
Proof using place_ok.
  intros [Hl Hs]. unfold add_word_p. rewrite (lock_free _ Hl). cbn [mbind res_bind].
  destruct (add_word_body_ok w (PList s.(hosts) s.(elems) true) n l) as (wc & [hs es b] & n' & l' & -> & Hs' & _ & Hc).
  { destruct s. by eapply plisted_lock. }
  cbn [mbind res_bind]. eexists _, _, _, l'. split_and!; [done| |done]. split; [done|]. by eapply plisted_lock.
Qed.
End Promises.

(** *** Sorting *)
(** The passes of [list_sort] depend on the comparison of the list's elements only. *)
Section Ext.
Context (less less' : Z → Z → bool).
Definition agree (xs : list Z) : Prop := ∀ a b, a ∈ xs → b ∈ xs → less a b = less' a b.

Lemma agree_sub xs ys : (∀ a, a ∈ ys → a ∈ xs) → agree xs → agree ys.
Proof using. intros H Ha a b Hx Hy. apply Ha; auto. Qed.
Lemma run_ext xs : ∀ x, agree (x :: xs) → run less x xs = run less' x xs.
Proof using.
  induction xs as [|y ys IH]; intros x Ha; [done|]. cbn. rewrite (Ha y x) by (repeat constructor).
  destruct (less' y x); [done|]. by rewrite IH by (eapply agree_sub; [|exact Ha]; by right).
Qed.
Lemma merge_ext xs ys : agree (xs ++ ys) → merge less xs ys = merge less' xs ys.
Proof using.
  apply (merge_ind less (λ xs ys, agree (xs ++ ys) → merge less xs ys = merge less' xs ys)); clear xs ys.
  - intros ys _. by rewrite !merge_nil_l.
  - intros a xs _. by rewrite !merge_nil_r.
  - intros a xs b ys E IH Ha. rewrite !merge_cons, E.
    rewrite <- (Ha b a), E by (rewrite ?elem_of_app, ?elem_of_cons; auto).
    f_equal. apply IH. eapply agree_sub; [|exact Ha]. intros c. rewrite !elem_of_app, !elem_of_cons. tauto.
  - intros a xs b ys E IH Ha. rewrite !merge_cons, E.
    rewrite <- (Ha b a), E by (rewrite ?elem_of_app, ?elem_of_cons; auto).
    f_equal. apply IH. eapply agree_sub; [|exact Ha]. intros c. rewrite !elem_of_app, !elem_of_cons. tauto.
Qed.
Lemma pass_ext fuel : ∀ xs, agree xs → pass less fuel xs = pass less' fuel xs.
Proof using.
  induction fuel as [|fuel IH]; intros xs Ha; [done|]. destruct xs as [|x xs]; [done|]. cbn [pass].
  rewrite (run_ext xs x Ha). pose proof (run_app less' x xs) as E1. destruct (run less' x xs) as [r1 t1].
  cbn [fst snd] in E1. destruct t1 as [|y t1]; [done|].
  rewrite (run_ext t1 y) by (eapply agree_sub; [|exact Ha]; subst; set_solver).
  pose proof (run_app less' y t1) as E2. destruct (run less' y t1) as [r2 t2]. cbn [fst snd] in E2. subst t1 xs.
  rewrite (IH t2) by (eapply agree_sub; [|exact Ha]; set_solver).
  rewrite (merge_ext (x :: r1) (y :: r2)); [done|]. eapply agree_sub; [|exact Ha]. set_solver.
Qed.

Lemma sort_passes_ok `{!StrictWeak less'} fuel : ∀ xs,
  agree xs → (descents less' xs < fuel)%nat →
  ∃ ys, sort_passes less fuel xs = Ret ys ∧ ys ≡ₚ xs ∧ Sorted (follows less') ys.
Proof using.
  induction fuel as [|fuel IH]; intros xs Ha Hf; [lia|]. cbn [sort_passes]. rewrite pass_ext by done.
  pose proof (pass_spec less' (S (length xs)) xs) as Hp. destruct (pass less' (S (length xs)) xs) as [ys c].
  destruct (Hp ys c ltac:(lia) eq_refl) as (Hperm & Hd & Hc & Hs & _).
  destruct (Nat.ltb_spec 1 c); [|exists ys; split_and!; [done|done|]; apply Hs; lia].
  assert (descents less' xs / 2 * 2 ≤ descents less' xs)%nat by (rewrite Nat.mul_comm; apply Nat.Div0.mul_div_le).
  destruct (IH ys) as (zs & E & Hz & Hsz); [|lia|].
  - eapply agree_sub; [|exact Ha]. intros a. by rewrite Hperm.
  - exists zs. split_and!; [done|by rewrite Hz|done].
Qed.
End Ext.

(** A weak sort of entries with different words is a strict one. *)
Lemma sorted_strict less l `{!LinearLess less} :
  NoDup l.*1 → StronglySorted (λ a b, less b a = false) l → StronglySorted (λ a b, less a b = true) l.
Proof.
  intros Hn Hs. induction Hs as [|a l Hs IH Ha]; [constructor|]. cbn in Hn. apply NoDup_cons in Hn as [Ha1 Hn].
  constructor; [by apply IH|]. rewrite Forall_forall in Ha |- *. intros b Hb.
  rewrite (linear_total a b); [by rewrite Ha|]. intros E. apply Ha1. rewrite E. by apply list_elem_of_fmap_2.
Qed.

Definition node_of (hs : gmap Z entry) (e : Z) : entry := default ([], 0) (hs !! e).
Lemma nodes_fmap (hs : gmap Z entry) es l :
  Forall2 (λ e n, hs !! e = Some n) es l ↔ l = node_of hs <$> es ∧ Forall (λ e, is_Some (hs !! e)) es.
Proof.
  split.
  - induction 1 as [|e n es l He H [-> IH]]; [done|]. rewrite fmap_cons.
    assert (node_of hs e = n) as -> by (unfold node_of; by rewrite He). split; [done|].
    constructor; [by exists n|done].
  - intros [-> H]. induction H as [|e es [n He] _ IH]; constructor; [|done]. unfold node_of. by rewrite He.
Qed.

Lemma wordcount_sort_p_ok less s l `{!LinearLess less} :
  p_entries s l → NoDup l.*1 →
  ∃ s' l', wordcount_sort_p less s = Ret s' ∧ p_entries s' l' ∧ l' ≡ₚ l
    ∧ StronglySorted (λ a b, less a b = true) l'.
Proof.
  intros [Hl [Hs Hd Hn]] Hw. unfold wordcount_sort_p. rewrite (lock_free _ Hl). cbn [mbind res_bind elems hosts].
  set (less' := λ a b, less (node_of s.(hosts) a) (node_of s.(hosts) b)).
  assert (HW : StrictWeak less').
  { split; unfold less'; intros *; [apply linear_asym|apply linear_split]. }
  destruct (sort_passes_ok (list_elem_less_comparator s.(hosts) less) less' (S (length s.(elems))) s.(elems))
    as (ys & -> & Hp & Hsort).
  { intros a b Ha Hb. rewrite Forall_forall in Hn. unfold list_elem_less_comparator.
    by rewrite (nonnull a), (nonnull b) by auto. }
  { pose proof (descents_bound less' s.(elems)). lia. }
  cbn [mbind res_bind]. apply nodes_fmap in Hs as [-> Hsome].
  eexists _, (node_of s.(hosts) <$> ys). split_and!; [done| |by rewrite Hp|].
  - split; [done|]. split; cbn; [|by rewrite Hp|by rewrite Hp]. apply nodes_fmap. split; [done|by rewrite Hp].
  - apply sorted_strict; [done|by rewrite Hp|].
    apply Sorted_StronglySorted in Hsort; [|intros a b c; unfold follows, less'; intros H1 H2;
      apply not_true_iff_false; intros H3; destruct (linear_split _ _ (node_of s.(hosts) b) H3); congruence].
    clear -Hsort. induction Hsort as [|a ys _ IH Ha]; [constructor|]. cbn. constructor; [done|].
    by apply Forall_fmap.
Qed.
Lemma print_loop_p_ok s es l :
  Forall2 (λ e n, s.(hosts) !! e = Some n) es l → print_loop_p s es = Ret (mjoin (print_line <$> l)).
Proof.
  induction 1 as [|e n es l He H IH]; [done|]. cbn [print_loop_p]. unfold host at 1. rewrite He. cbn [mbind res_bind].
  by rewrite IH.
Qed.
Lemma fprint_words_p_ok s l : p_entries s l → fprint_words_p s = Ret (mjoin (print_line <$> l), s).
Proof.
  intros [Hl [Hs _ _]]. unfold fprint_words_p. rewrite (lock_free _ Hl). cbn [mbind res_bind elems].
  rewrite (print_loop_p_ok (PList s.(hosts) s.(elems) true) _ l Hs). cbn [mbind res_bind].
  unfold pthread_mutex_unlock. cbn. destruct s. cbn in *. by subst.
Qed.

#[export] Program Instance p_promises granted place
    (place_ok : ∀ hs : gmap Z entry, place hs ≠ NULL ∧ hs !! place hs = None) :
    WordCountList granted plist (WordCountOps0 := p_ops granted place) := {
  entries := p_entries;
  fresh_list _ := True;
}.
Next Obligation.
  intros granted place _ s _. eexists. split; [done|]. split; [done|]. split; cbn; constructor.
Qed.
Next Obligation.
  intros granted place place_ok s n w l H.
  destruct (add_word_p_ok granted place place_ok w s n l H) as (wc & s' & n' & l' & E & Hs' & Hc).
  exists (negb (wc =? NULL)), s', n', l'. split_and!; [|done|].
  - change (('(wc, s, n) ← add_word_p granted place (Some w) s n; Ret (negb (wc =? NULL), s, n))
            = Ret (negb (wc =? NULL), s', n')). by rewrite E.
  - destruct Hc as [[Hne ->]|Hc]; [|by right]. left. by rewrite (nonnull _ Hne).
Qed.
Next Obligation. intros granted place _ less s l Hl H Hn. by apply wordcount_sort_p_ok. Qed.
Next Obligation.
  intros granted place _ s l H. change (('(out, _) ← fprint_words_p s; Ret out) = Ret (mjoin (print_line <$> l))).
  by rewrite (fprint_words_p_ok _ _ H).
Qed.

Lemma less_word_p_count a b : less_word_p a b = less_count a b.
Proof.
  unfold less_word_p, less_count.
  destruct (Z.ltb_spec a.2 b.2), (Z.ltb_spec b.2 a.2), (Z.eqb_spec a.2 b.2); done || lia.
Qed.
#[export] Instance less_word_p_linear : LinearLess less_word_p.
Proof.
  split; intros *; rewrite !less_word_p_count; [apply linear_asym|apply linear_split|apply linear_total].
Qed.

(** ** Reading *)
Section GetWordP.
Context (granted : nat → bool).

Lemma accumulate_p_spec text : ∀ ch b size w n,
  isalpha ch = true → block_holds b w → length b = size → (length w < size)%nat → (2 ≤ size)%nat →
  Forall (λ c, c ≠ 0) w →
  ∃ r n' rest, accumulate_p granted text ch b size (length w) n = Ret (r, n', rest)
    ∧ (length rest ≤ length text)%nat ∧
    match r with
    | None => ∃ k, granted k = false
    | Some b => ∃ w', runs (w ++ [to_lower ch]) text = w' :: runs [] rest ∧ cstring b = Ret w'
    end.
Proof.
  induction text as [|c text IH]; intros ch b size w n Hch Hb Hcap Hi H2 Hw;
    unfold accumulate_p; fold accumulate_p.
  all: assert (Hw' : Forall (λ c, c ≠ 0) (w ++ [to_lower ch]))
    by (apply Forall_app; split; [done|]; apply Forall_singleton; by apply isalpha_tolower).
  all: assert (Hl : S (length w) = length (w ++ [to_lower ch])) by (rewrite length_app; cbn; lia).
  all: destruct (Nat.eqb_spec (length w) (size - 1)) as [Hf|Hf]; cbn [andb].
  all: try (destruct (granted n) eqn:Hg; cbn [negb]; [|eexists None, _, _; split_and!; [done|done|by exists n]]).
  all: match goal with |- context [put ?b' _ (to_lower _)] =>
    assert (Hb1 : block_holds b' w) by (done || by apply holds_app);
    assert (Hlen1 : (S (length w) < length b')%nat)
      by (rewrite ?length_app, ?length_replicate in *; lia)
  end.
  all: rewrite (put_ok _ (length w)) by lia; cbn [mbind res_bind].
  all: pose proof (holds_put _ _ (to_lower ch) Hb1 ltac:(lia)) as Hb2; rewrite Hl.
  all: match goal with |- context [put ?b' _ 0] =>
    assert (Hlen : (length (w ++ [to_lower ch]) < length b')%nat) by (rewrite length_insert; lia);
    pose proof (cstring_holds _ _ (holds_put b' _ 0 Hb2 Hlen) Hw') as Hc
  end.
  1-2: rewrite put_ok by done; cbn [mbind res_bind]; eexists (Some _), _, _; split_and!; [done|done|];
       exists (w ++ [to_lower ch]); split; [|done]; cbn; by destruct w.
  all: destruct (isalpha c) eqn:Ec.
  2, 4: rewrite put_ok by done; cbn [mbind res_bind]; eexists (Some _), _, _; split_and!; [done|cbn; lia|];
        exists (w ++ [to_lower ch]); split; [|done]; cbn; rewrite Ec; by destruct w.
  all: edestruct IH as (r & n' & rest & E & Hle & Hr);
    [exact Ec|exact Hb2| | | |exact Hw'|rewrite E; exists r, n', rest; split_and!; [done|cbn; lia|]];
    [rewrite length_insert, ?length_app, ?length_replicate; lia|lia|lia|];
    destruct r; [|done]; cbn [runs]; by rewrite Ec.
Qed.

Lemma get_word_p_spec n text :
  ∃ r n' rest, get_word_p granted n text = Ret (r, n', rest) ∧
    match r with
    | None => runs [] text = [] ∨ ∃ k, granted k = false
    | Some b => (length rest < length text)%nat ∧ ∃ w, runs [] text = w :: runs [] rest ∧ cstring b = Ret w
    end.
Proof.
  unfold get_word_p. pose proof (skip_spec text) as Hs. destruct (skip_nonalpha text) as [[ch rest]|].
  2: { eexists None, _, _. split; [done|]. by left. }
  destruct Hs as (Hch & Hl & Hr). destruct (granted n) eqn:Hg.
  2: { eexists None, _, _. split; [done|]. right. by exists n. }
  destruct (accumulate_p_spec rest ch (replicate 16 None) 16 [] (S n)) as (r & n' & rest' & E & Hle & H).
  1-6: first [done|by exists (replicate 16 None)|cbn; lia].
  exists r, n', rest'. split; [done|]. destruct r as [b|]; [|by right].
  split; [lia|]. destruct H as (w & Hw & Hc). exists w. by rewrite Hr.
Qed.
End GetWordP.

(** ** Every interleaving *)
(** The words a thread has still to add. *)
Definition todo (t : worker) : list word :=
  match t with
  | Reading f => words_of f
  | Waiting w f | Holding w f => w :: words_of f
  | Exited _ => []
  end.
Definition holding (t : worker) : Prop := match t with Holding _ _ => True | _ => False end.
(** The list holds the counts of the words added; those and the words still to add are all the
    words; the mutex is held if and only if a thread is in [add_word], and one thread at most is. *)
Record counting (ws : list word) (p : process) : Prop := {
  counted : ∃ added, plisted p.(shared) (tally added) ∧ added ++ (p.(threads) ≫= todo) ≡ₚ ws;
  lock_owner : p.(shared).(locked) = true ↔ ∃ i t, p.(threads) !! i = Some t ∧ holding t;
  one_owner i j t u : p.(threads) !! i = Some t → p.(threads) !! j = Some u → holding t → holding u → i = j;
}.
(** The steps a thread has left at most. *)
Definition steps_left (t : worker) : nat :=
  match t with
  | Reading f => 3 * length f + 1
  | Waiting _ f => 3 * length f + 3
  | Holding _ f => 3 * length f + 2
  | Exited _ => 0
  end.
Definition all_steps_left (p : process) : nat := sum_list_with steps_left p.(threads).

Lemma todo_insert ts i t :
  ts !! i = Some t → ∃ R, ts ≫= todo ≡ₚ todo t ++ R ∧ ∀ t', <[i := t']> ts ≫= todo ≡ₚ todo t' ++ R.
Proof.
  intros H. exists ((take i ts ≫= todo) ++ (drop (S i) ts ≫= todo)). split.
  - rewrite <- (take_drop_middle ts i t H) at 1. rewrite bind_app. cbn. by rewrite Permutation_app_swap_app.
  - intros t'. rewrite insert_take_drop by (by eapply lookup_lt_Some). rewrite bind_app. cbn.
    by rewrite Permutation_app_swap_app.
Qed.
Lemma steps_insert ts i t t' :
  ts !! i = Some t →
  (sum_list_with steps_left (<[i := t']> ts) + steps_left t = sum_list_with steps_left ts + steps_left t')%nat.
Proof.
  intros H. rewrite <- (take_drop_middle ts i t H) at 2. rewrite insert_take_drop by (by eapply lookup_lt_Some).
  rewrite !sum_list_with_app. cbn. lia.
Qed.

Section Interleavings.
Context (granted : nat → bool) (place : gmap Z entry → Z).
Hypothesis place_ok : ∀ hs : gmap Z entry, place hs ≠ NULL ∧ hs !! place hs = None.
Hypothesis memory : ∀ k, granted k = true.

Lemma never_denied : ¬ ∃ k, granted k = false.
Proof using memory. intros [k Hk]. by rewrite memory in Hk. Qed.

(** A thread that neither takes nor lets go of the mutex. *)
Lemma counting_other ws p i t t' n :
  counting ws p → p.(threads) !! i = Some t → ¬ holding t → ¬ holding t' → todo t' = todo t →
  counting ws (Process p.(shared) n (<[i := t']> p.(threads))).
Proof using.
  intros [(ad & Ha & Hp) Hl Ho] Hi Ht Ht' E. destruct (todo_insert _ _ _ Hi) as (R & HR & HR').
  assert (Hlt : (i < length p.(threads))%nat) by by eapply lookup_lt_Some.
  assert (Hsame : ∀ j u, holding u → <[i := t']> p.(threads) !! j = Some u ↔ p.(threads) !! j = Some u).
  { intros j u Hu. destruct (decide (i = j)) as [<-|Hne]; [|by rewrite list_lookup_insert_ne].
    rewrite list_lookup_insert_eq by done. split; intros; simplify_eq; done. }
  split; cbn.
  - exists ad. split; [done|]. by rewrite HR', E, <- HR.
  - rewrite Hl. split; intros (j & u & Hj & Hu); exists j, u; (split; [|done]); by apply Hsame.
  - intros j k u v Hj Hk Hu Hv. apply Hsame in Hj, Hk; [|done..]. by eapply Ho.
Qed.

(** The step of a thread: it does not fail, it keeps the invariant, and it makes progress,
    unless the thread is gone or waits while another one is in [add_word]. *)
Lemma thread_step_ok ws p i :
  counting ws p →
  (thread_step granted place i p = Ret None
   ∧ (∀ t, p.(threads) !! i = Some t → ended t = false → p.(shared).(locked) = true))
  ∨ ∃ p', thread_step granted place i p = Ret (Some p') ∧ counting ws p'
      ∧ (all_steps_left p' < all_steps_left p)%nat ∧ length p'.(threads) = length p.(threads).
Proof using place_ok memory.
  intros Hc. unfold thread_step, all_steps_left. destruct (p.(threads) !! i) as [t|] eqn:Hi; [|by left].
  assert (Hlt : (i < length p.(threads))%nat) by by eapply lookup_lt_Some.
  destruct t as [f|w f|w f|v].
  - (* reading *)
    right. destruct (get_word_p_spec granted p.(calls) f) as (r & n & rest & -> & H). cbn [mbind res_bind].
    destruct r as [b|].
    + destruct H as (Hlen & w & E & ->). cbn [mbind res_bind].
      set (t' := if (length w <=? 1)%nat then Reading rest else Waiting w rest).
      exists (Process p.(shared) n (<[i := t']> p.(threads))). cbn. rewrite length_insert.
      pose proof (steps_insert _ _ _ t' Hi) as Hst. split_and!; [done| | |done].
      * eapply counting_other; [done|done|by intros []|unfold t'; case_match; by intros []|].
        unfold t'. destruct (Nat.leb_spec (length w) 1); cbn.
        -- by rewrite (words_of_short _ _ _ E) by lia.
        -- by rewrite (words_of_long _ _ _ E) by lia.
      * cbn [steps_left] in Hst. unfold t' in *. destruct (Nat.leb_spec (length w) 1); cbn [steps_left] in Hst; lia.
    + eexists. split; [done|]. cbn. rewrite length_insert. pose proof (steps_insert _ _ _ (Exited 0) Hi) as Hst.
      cbn [steps_left] in Hst. split_and!; [|lia|done].
      eapply counting_other; [done|done|by intros []|by intros []|]. cbn. unfold words_of.
      destruct H as [->|?]; [done|]. by destruct never_denied.
  - (* waiting *)
    unfold pthread_mutex_lock. destruct p.(shared).(locked) eqn:Hlk; [by left|].
    right. eexists. split; [done|]. cbn. rewrite length_insert. pose proof (steps_insert _ _ _ (Holding w f) Hi) as Hst.
    cbn [steps_left] in Hst. split_and!; [|lia|done]. destruct Hc as [(ad & Ha & Hp) Hl Ho].
    destruct (todo_insert _ _ _ Hi) as (R & HR & HR').
    assert (Hno : ∀ j u, p.(threads) !! j = Some u → ¬ holding u).
    { intros j u Hj Hu. assert (false = true) as [=]. rewrite <- Hlk at 1. apply Hl. eauto. }
    assert (Honly : ∀ j u, <[i := Holding w f]> p.(threads) !! j = Some u → holding u → j = i).
    { intros j u Hj Hu. destruct (decide (i = j)) as [<-|Hne]; [done|].
      rewrite list_lookup_insert_ne in Hj by done. by destruct (Hno j u Hj). }
    split; cbn.
    + exists ad. split; [destruct p.(shared); by eapply plisted_lock|]. by rewrite HR', <- Hp, HR.
    + split; [|done]. intros _. exists i, (Holding w f). split; [by apply list_lookup_insert_eq|done].
    + intros j k u v Hj Hk Hu Hv. by rewrite (Honly j u), (Honly k v).
  - (* in add_word *)
    right. destruct Hc as [(ad & Ha & Hp) Hl Ho].
    destruct (add_word_body_ok granted place place_ok w p.(shared) p.(calls) _ Ha)
      as (wc & s' & n' & l' & -> & Hs' & _ & [[Hne ->]|[_ ?]]); [|by destruct never_denied].
    cbn [mbind res_bind]. rewrite (nonnull _ Hne). eexists. split; [done|]. cbn. rewrite length_insert.
    pose proof (steps_insert _ _ _ (Reading f) Hi) as Hst. cbn [steps_left] in Hst. split_and!; [|lia|done].
    destruct (todo_insert _ _ _ Hi) as (R & HR & HR').
    assert (Hnone : ∀ j u, <[i := Reading f]> p.(threads) !! j = Some u → ¬ holding u).
    { intros j u Hj Hu. destruct (decide (i = j)) as [<-|Hne'].
      - rewrite list_lookup_insert_eq in Hj by done. by injection Hj as <-.
      - rewrite list_lookup_insert_ne in Hj by done. by destruct Hne'; eapply Ho. }
    split; cbn.
    + exists (ad ++ [w]). split.
      * unfold tally. rewrite foldl_app. cbn. destruct s'. by eapply plisted_lock.
      * rewrite HR', <- Hp, HR, <- app_assoc. done.
    + split; [done|]. intros (j & u & Hj & Hu). by destruct (Hnone j u Hj).
    + intros j k u v Hj Hk Hu Hv. by destruct (Hnone j u Hj).
  - left. split; [done|]. by intros t [= <-].
Qed.

Lemma run_threads_ok ws sched : ∀ p,
  counting ws p →
  ∃ p', run_threads granted place sched p = Ret p' ∧ counting ws p'
    ∧ (all_steps_left p' ≤ all_steps_left p)%nat ∧ length p'.(threads) = length p.(threads).
Proof using place_ok memory.
  induction sched as [|i sched IH]; intros p Hc; cbn [run_threads]; [by exists p|].
  destruct (thread_step_ok ws p i Hc) as [[-> _]|(p1 & -> & Hc1 & Hs1 & Hl1)]; cbn [mbind res_bind default].
  - by apply IH.
  - destruct (IH p1 Hc1) as (p2 & E & Hc2 & Hs2 & Hl2). exists p2. split_and!; [done|done|lia|lia].
Qed.

(** No deadlock: some thread can always go on. *)
Lemma some_thread_steps ws p :
  counting ws p → all_gone p = false →
  ∃ i p', (i < length p.(threads))%nat ∧ thread_step granted place i p = Ret (Some p').
Proof using place_ok memory.
  intros Hc Hg. destruct p.(shared).(locked) eqn:Hlk.
  - (* the one in [add_word] *)
    destruct Hc as [(ad & Ha & Hp) Hl Ho]. apply Hl in Hlk as (i & t & Hi & Ht).
    destruct t as [| |w f|]; try done. exists i.
    destruct (add_word_body_ok granted place place_ok w p.(shared) p.(calls) _ Ha) as (wc & s' & n' & l' & E & _).
    eexists. split; [by eapply lookup_lt_Some|]. unfold thread_step. rewrite Hi, E. done.
  - (* any that is not gone *)
    unfold all_gone in Hg. apply not_true_iff_false in Hg. rewrite forallb_forall in Hg.
    assert (Hex : ∃ i t, p.(threads) !! i = Some t ∧ ended t = false).
    { clear Hc Hlk. destruct (decide (Exists (λ t, ended t = false) p.(threads))) as [He|He].
      - apply Exists_exists in He as (t & Ht & Hgt). apply list_elem_of_lookup in Ht as [i Hi]. by exists i, t.
      - exfalso. apply Hg. intros t Ht. apply not_false_iff_true. intros Hgt. apply He, Exists_exists.
        exists t. split; [by apply list_elem_of_In|done]. }
    destruct Hex as (i & t & Hi & Ht). exists i.
    destruct (thread_step_ok ws p i Hc) as [[_ Hb]|(p' & E & _)].
    + by rewrite (Hb t Hi Ht) in Hlk.
    + exists p'. split; [by eapply lookup_lt_Some|done].
Qed.

(** A turn for every thread moves at least one of them. *)
Lemma round_progress ws r : ∀ p,
  counting ws p → all_gone p = false →
  (∃ i p', i ∈ r ∧ thread_step granted place i p = Ret (Some p')) →
  ∃ p', run_threads granted place r p = Ret p' ∧ counting ws p' ∧ (all_steps_left p' < all_steps_left p)%nat
    ∧ length p'.(threads) = length p.(threads).
Proof using place_ok memory.
  induction r as [|j r IH]; intros p Hc Hg (i & p' & Hin & Hst); [by apply not_elem_of_nil in Hin|].
  cbn [run_threads]. destruct (thread_step_ok ws p j Hc) as [[E _]|(p1 & -> & Hc1 & Hs1 & Hl1)].
  - rewrite E. cbn [mbind res_bind default]. apply IH; [done|done|]. exists i, p'. split; [|done].
    apply elem_of_cons in Hin as [->|?]; [congruence|done].
  - cbn [mbind res_bind default]. destruct (run_threads_ok ws r p1 Hc1) as (p2 & E & Hc2 & Hs2 & Hl2).
    exists p2. split_and!; [done|done|lia|lia].
Qed.

Lemma run_threads_app sched sched' p :
  run_threads granted place (sched ++ sched') p
  = (p ← run_threads granted place sched p; run_threads granted place sched' p).
Proof using.
  revert p. induction sched as [|i sched IH]; intros p; cbn [app run_threads]; [done|].
  destruct (thread_step granted place i p); cbn [mbind res_bind]; [apply IH|done..].
Qed.
Lemma gone_stays sched : ∀ p, all_gone p = true → run_threads granted place sched p = Ret p.
Proof using.
  induction sched as [|i sched IH]; intros p Hg; [done|]. cbn [run_threads].
  assert (thread_step granted place i p = Ret None) as ->; [|by apply IH].
  unfold thread_step. destruct (p.(threads) !! i) as [t|] eqn:Hi; [|done].
  unfold all_gone in Hg. rewrite forallb_forall in Hg.
  specialize (Hg t ltac:(apply list_elem_of_In, list_elem_of_lookup; by exists i)). by destruct t.
Qed.

(** With enough turns for every thread, all of them end. *)
Lemma rounds_finish ws rounds : ∀ p,
  counting ws p → Forall (λ r, ∀ i, (i < length p.(threads))%nat → i ∈ r) rounds →
  (all_steps_left p ≤ length rounds)%nat →
  ∃ p', run_threads granted place (mjoin rounds) p = Ret p' ∧ counting ws p' ∧ all_gone p' = true.
Proof using place_ok memory.
  induction rounds as [|r rounds IH]; intros p Hc Hr Hn; cbn [mjoin list_join app].
  - exists p. split_and!; [done|done|]. destruct (all_gone p) eqn:Hg; [done|].
    destruct (some_thread_steps ws p Hc Hg) as (i & p' & Hi & E).
    destruct (thread_step_ok ws p i Hc) as [[E' _]|(p1 & _ & _ & Hs & _)]; [congruence|]. cbn in Hn. lia.
  - destruct (all_gone p) eqn:Hg; [exists p; split_and!; [by apply gone_stays|done|done]|].
    apply Forall_cons in Hr as [Hr0 Hr]. rewrite run_threads_app.
    destruct (some_thread_steps ws p Hc Hg) as (i & p' & Hi & E).
    destruct (round_progress ws r p Hc Hg) as (p1 & -> & Hc1 & Hs1 & Hl1); [exists i, p'; auto|].
    cbn [mbind res_bind]. apply IH; [done|by rewrite Hl1|cbn in Hn; lia].
Qed.

Lemma counting_start s files :
  p_entries s [] → counting (files ≫= words_of) (Process s 4 (Reading <$> files)).
Proof using.
  intros [Hl Hs].
  assert (Hno : ∀ i t, (Reading <$> files) !! i = Some t → ¬ holding t).
  { intros i t Ht. rewrite list_lookup_fmap in Ht. destruct (files !! i); [|done]. injection Ht as <-. by intros []. }
  split; cbn.
  - exists []. split; [done|]. cbn [app]. clear.
    assert ((Reading <$> files) ≫= todo = files ≫= words_of) as ->; [|done].
    induction files as [|f files IH]; [done|]. rewrite fmap_cons, !bind_cons. by rewrite IH.
  - rewrite Hl. split; [done|]. intros (i & t & Hi & Ht). by destruct (Hno i t Hi).
  - intros i j t u Hi _ Ht. by destruct (Hno i t Hi).
Qed.
(** When the threads are gone every word is counted and the mutex is free. *)
Lemma counting_end ws p :
  counting ws p → all_gone p = true → ∃ added, p_entries p.(shared) (tally added) ∧ added ≡ₚ ws.
Proof using.
  intros [(ad & Ha & Hp) Hl _] Hg. unfold all_gone in Hg. rewrite forallb_forall in Hg.
  assert (Hall : ∀ t, t ∈ p.(threads) → ended t = true) by (intros t Ht; apply Hg; by apply list_elem_of_In).
  exists ad. split.
  - split; [|done]. apply not_true_iff_false. rewrite Hl. intros (i & t & Hi & Ht).
    specialize (Hall t). rewrite list_elem_of_lookup in Hall. specialize (Hall ltac:(eauto)). by destruct t.
  - rewrite <- Hp. assert (p.(threads) ≫= todo = []) as ->; [|by rewrite app_nil_r].
    clear -Hall. induction p.(threads) as [|t ts IH]; [done|]. cbn. rewrite IH by (intros u Hu; apply Hall; by right).
    specialize (Hall t ltac:(left)). by destruct t.
Qed.
End Interleavings.

Lemma clean_loop_ok es : ∀ (hs : gmap Z entry),
  NoDup es → Forall (λ e, is_Some (hs !! e)) es →
  ∃ hs', clean_loop hs es = Ret hs' ∧ ∀ e, hs' !! e = if decide (e ∈ es) then None else hs !! e.
Proof.
  induction es as [|e es IH]; intros hs Hn Hs; cbn [clean_loop]; [by exists hs|].
  apply NoDup_cons in Hn as [He Hn]. apply Forall_cons in Hs as [[n Hen] Hs]. rewrite Hen.
  destruct (IH (delete e hs) Hn) as (hs' & E & H).
  { eapply Forall_impl; [apply Forall_and; split; [exact Hs|]|].
    - apply Forall_forall. intros x Hx. exact (λ E : x = e, He (eq_rect x (λ z, z ∈ es) Hx e E)).
    - intros x [Hx Hne]. by rewrite lookup_delete_ne. }
  exists hs'. split; [done|]. intros x. rewrite H. destruct (decide (x = e)) as [->|Hne].
  - rewrite (decide_True (P := e ∈ e :: es)) by left. rewrite decide_False by done. apply lookup_delete_eq.
  - rewrite lookup_delete_ne by done. destruct (decide (x ∈ es)); [rewrite decide_True by (by right); done|].
    by rewrite decide_False by (by apply not_elem_of_cons).
Qed.
(** Cleaning up frees the nodes of the list and no others. *)
Lemma cleanUpWordCountList_ok s l :
  p_entries s l →
  ∃ s', cleanUpWordCountList s = Ret s' ∧ s'.(elems) = []
    ∧ ∀ e, s'.(hosts) !! e = if decide (e ∈ s.(elems)) then None else s.(hosts) !! e.
Proof.
  intros [Hl [Hs Hd _]]. unfold cleanUpWordCountList. rewrite (lock_free _ Hl). cbn [mbind res_bind hosts elems].
  apply nodes_fmap in Hs as [_ Hs]. destruct (clean_loop_ok s.(elems) s.(hosts) Hd Hs) as (hs & -> & H).
  eexists. split; [done|]. by split.
Qed.

Lemma print_counts_ok n s ws added :
  p_entries s (tally added) → added ≡ₚ ws → Z.of_nat (length ws) < 2147483648 →
  ∃ l, print_counts n s = Ret (0, mjoin (print_line <$> l)) ∧ report ws l.
Proof.
  intros Hs Hp Hb. unfold print_counts. destruct (tally_spec added) as [Hn Hc]; [by rewrite Hp|].
  destruct (wordcount_sort_p_ok less_word_p s _ Hs Hn) as (s' & l & -> & Hs' & Hl & Hsort). cbn [mbind res_bind].
  rewrite (fprint_words_p_ok _ _ Hs'). cbn [mbind res_bind]. exists l. split.
  - destruct (n =? 0)%nat; [done|]. by destruct (cleanUpWordCountList_ok _ _ Hs') as (s2 & -> & _).
  - split; [|by rewrite Hl|].
    + clear -Hsort. induction Hsort as [|a l _ IH Ha]; constructor; [done|]. eapply Forall_impl; [exact Ha|].
      intros b Hb. cbn in *. by rewrite <- less_word_p_count.
    + intros w c. rewrite Hl, Hc. unfold occurrences. by rewrite Hp.
Qed.

Lemma create_threads_ok created n : (∀ i, created i = true) → ∀ i, (create_threads created i n).2 = true.
Proof.
  intros Hc. induction n as [|n IH]; intros i; [done|]. cbn [create_threads]. rewrite Hc. specialize (IH (S i)).
  by destruct (create_threads created (S i) n).
Qed.

Section Program.
Context (granted created : nat → bool) (place : gmap Z entry → Z) (node_place : heap → Z).
Hypothesis place_ok : ∀ hs : gmap Z entry, place hs ≠ NULL ∧ hs !! place hs = None.
Hypothesis node_place_ok : ∀ h, node_place h ≠ NULL ∧ h !! node_place h = None.
Hypothesis memory : ∀ k, granted k = true.
Hypothesis creation : ∀ i, created i = true.

Lemma pwords_report fopen stdin argv sched s texts :
  inputs fopen stdin argv = Some texts → Z.of_nat (length (texts ≫= words_of)) < 2147483648 →
  (pwords_main granted place created fopen stdin argv sched s = Stuck
   ∧ ∃ p, run_threads granted place sched (Process (PList s.(hosts) [] false) 4 (Reading <$> texts)) = Ret p
          ∧ all_gone p = false ∧ length texts = length argv)
  ∨ ∃ l, pwords_main granted place created fopen stdin argv sched s = Ret (0, mjoin (print_line <$> l))
      ∧ report (texts ≫= words_of) l.
Proof using place_ok memory creation.
  intros Hi Hb. unfold pwords_main. rewrite !memory. cbn [init_words_p mbind res_bind].
  assert (Hs0 : p_entries (PList s.(hosts) [] false) []) by (split; [done|]; split; constructor).
  destruct argv as [|a argv]; cbn [inputs] in Hi.
  - injection Hi as <-. right. cbn [length Nat.eqb].
    destruct (count_words_ok granted (H := p_promises granted place place_ok) stdin _ 1 [] Hs0)
      as (s2 & n2 & l & -> & Hs2 & [->|[k Hk]]); [|by rewrite memory in Hk]. cbn [mbind res_bind].
    cbn [mbind list_bind app] in *. rewrite app_nil_r in *. by eapply print_counts_ok; [exact Hs2| |].
  - rewrite Hi. set (n := length (a :: argv)). change (n =? 0)%nat with false. cbv iota zeta.
    pose proof (create_threads_ok created n creation 0) as Hok.
    destruct (create_threads created 0 n) as [pool ok]. cbn [snd] in Hok. subst ok.
    pose proof (counting_start _ texts Hs0) as Hc.
    destruct (run_threads_ok granted place place_ok memory _ sched _ Hc) as (p & Er & Hcp & _ & _).
    rewrite Er. cbn [mbind res_bind]. destruct (all_gone p) eqn:Hg.
    + right. destruct (counting_end _ _ Hcp Hg) as (ad & Hs2 & Hp). by eapply print_counts_ok.
    + left. split; [done|]. exists p. split_and!; [done|done|]. by apply length_mapM in Hi.
Qed.

(** C40: The threads change nothing, when every file opens, every allocation and every
    [pthread_create] succeeds and the texts have fewer than 2^31 words: whatever the order in which
    the threads run, the program with one thread per file prints what the program with one thread
    prints, or has threads left that have not ended; and they have all ended once every thread has
    had as many turns as there are steps (three per byte and one per file). *)
Theorem pwords_equivalent fopen stdin argv s s0 texts :
  inputs fopen stdin argv = Some texts → Z.of_nat (length (texts ≫= words_of)) < 2147483648 →
  (∀ sched, pwords_main granted place created fopen stdin argv sched s = Stuck
    ∨ pwords_main granted place created fopen stdin argv sched s
      = words_main granted (WordCountOps0 := list_ops granted node_place) fopen stdin argv s0)
  ∧ ∀ rounds, Forall (λ r, ∀ i, (i < length argv)%nat → i ∈ r) rounds →
      (sum_list_with (λ t, 3 * length t + 1) texts ≤ length rounds)%nat →
      pwords_main granted place created fopen stdin argv (mjoin rounds) s
      = words_main granted (WordCountOps0 := list_ops granted node_place) fopen stdin argv s0.
Proof using place_ok node_place_ok memory creation.
  intros Hi Hb.
  destruct (words_main_report granted (H := list_promises granted node_place node_place_ok)
    fopen stdin argv s0 texts memory I Hi Hb) as (l & -> & Hl).
  assert (Hsame : ∀ l', report (texts ≫= words_of) l' → l' = l) by (intros l' Hl'; by eapply report_determined).
  split.
  - intros sched. destruct (pwords_report fopen stdin argv sched s texts Hi Hb) as [[-> _]|(l' & -> & Hl')]; [by left|].
    right. by rewrite (Hsame l' Hl').
  - intros rounds Hr Hn.
    destruct (pwords_report fopen stdin argv (mjoin rounds) s texts Hi Hb) as [[_ (p & Ep & Hg & Hlen)]|(l' & -> & Hl')];
      [|by rewrite (Hsame l' Hl')]. exfalso.
    assert (Hs0 : p_entries (PList s.(hosts) [] false) []) by (split; [done|]; split; constructor).
    destruct (rounds_finish granted place place_ok memory _ rounds _ (counting_start _ texts Hs0)) as (p' & E & _ & Hg').
    + eapply Forall_impl; [exact Hr|]. intros r Hx i. cbn [threads]. rewrite length_fmap, Hlen. apply Hx.
    + unfold all_steps_left. cbn [threads]. etransitivity; [|exact Hn]. clear.
      induction texts as [|t ts IH]; cbn in *; lia.
    + rewrite Ep in E. injection E as <-. congruence.
Qed.
End Program.

(** ** Failures *)
(** A file that does not open: the abort reads the handles of threads that were never started,
    from a block that was never written. *)
Lemma pwords_missing_file granted created place fopen stdin a argv sched s :
  (∀ k, granted k = true) → mapM fopen (a :: argv) = None →
  pwords_main granted place created fopen stdin (a :: argv) sched s = Panic.
Proof. intros Hg Hi. unfold pwords_main. rewrite !Hg, Hi. done. Qed.

(** When the copy of a new word cannot be allocated, [add_word] returns a node all the same, and
    the word is in no list. *)
Lemma add_word_loses granted place s n w l :
  (∀ hs : gmap Z entry, place hs ≠ NULL ∧ hs !! place hs = None) →
  p_entries s l → w ∉ l.*1 → granted n = true → granted (S n) = false →
  ∃ wc s', add_word_p granted place (Some w) s n = Ret (wc, s', S (S n)) ∧ wc ≠ NULL ∧ p_entries s' l.
Proof.
  intros Hp [Hl Hs] Hw Hg Hg'. unfold add_word_p, add_word_body, find_word_p. rewrite (lock_free _ Hl).
  cbn [mbind res_bind elems]. assert (Hs' := Hs). destruct Hs' as [H1 _ H3].
  destruct (find_loop_p_ok (PList s.(hosts) s.(elems) true) w _ l H1 H3)
    as [[_ ->]|(? & ? & ? & l1 & c & l2 & _ & -> & _)].
  2: { destruct Hw. rewrite fmap_app. apply elem_of_app. right. left. }
  cbn [mbind res_bind]. rewrite Z.eqb_refl. cbn [negb]. unfold create_word. rewrite Hg, Hg'. cbn [hosts].
  rewrite andb_false_r. eexists _, _. split_and!; [done|apply Hp|]. split; [done|]. destruct s. by eapply plisted_lock.
Qed.

(** A null word leaves the mutex held: the next call never returns. *)
Lemma add_word_null_keeps_lock granted place s n w :
  s.(locked) = false →
  ∃ s', add_word_p granted place None s n = Ret (NULL, s', n) ∧ add_word_p granted place w s' n = Stuck.
Proof.
  intros Hl. unfold add_word_p. rewrite (lock_free _ Hl). cbn [mbind res_bind]. eexists. split; [done|]. done.
Qed.

(** ** The list of hw1/word_count_l.c
    The same list without the mutex; allocations are not checked.  The list and the word are
    not null. *)
Definition add_word_with_count (granted : nat → bool) (place : gmap Z entry → Z) (w : word) (count : Z)
    (s : plist) (n : nat) : res (Z * plist * nat) :=
  wcNode ← find_word_p s w;
  if negb (wcNode =? NULL) then
    node ← host s wcNode;
    Ret (wcNode, PList (<[wcNode := (node.1, s32 (node.2 + 1))]> s.(hosts)) s.(elems) s.(locked), n)
  else if granted n && granted (S n) then
    let wcNode := place s.(hosts) in
    Ret (wcNode, PList (<[wcNode := (w, count)]> s.(hosts)) (wcNode :: s.(elems)) s.(locked), S (S n))
  else Panic.

(** A word that is in the list goes up by one, whatever count is to be added. *)
Lemma add_word_with_count_ignores granted place w s n l :
  plisted s l → w ∈ l.*1 →
  ∃ r, ∀ count, add_word_with_count granted place w count s n = Ret r.
Proof.
  intros [Hs _ Hn] Hw. unfold add_word_with_count, find_word_p.
  destruct (find_loop_p_ok s w _ l Hs Hn) as [[Hno _]|(? & e & ? & ? & c & ? & _ & _ & _ & _ & He & Hne & ->)]; [done|].
  cbn [mbind res_bind]. rewrite (nonnull _ Hne). cbn [negb]. unfold host. rewrite He. cbn [mbind res_bind].
  by eexists.
Qed.

(** ** An example: two files *)
(** "The cat" in the file a, "the cat's cat" in the file b. *)
Definition two_files (name : word) : option (list Z) :=
  if decide (name = [97]) then Some [84;104;101;32;99;97;116]
  else if decide (name = [98]) then Some [116;104;101;32;99;97;116;39;115;32;99;97;116]
  else None.
(** Two steps of the second thread for each of the first. *)
Example pwords_two_files :
  pwords_main always after_all always two_files [] [[97]; [98]] (mjoin (replicate 10 [1; 0; 1]))%nat (PList ∅ [] true)
  = Ret (0, mjoin (print_line <$> [([116;104;101], 2); ([99;97;116], 3)])).
Proof. vm_compute. reflexivity. Qed.

Lemma pwords_witness :
  pwords_main always after_all always two_files [] [[97]; [98]] (mjoin (replicate 62 [1; 0]))%nat (PList ∅ [] true)
  = words_main always (WordCountOps0 := list_ops always after_all) two_files [] [[97]; [98]] (WList ∅ NULL).
Proof.
  apply (pwords_equivalent always always after_all after_all after_all_ok after_all_ok (λ _, eq_refl) (λ _, eq_refl)
    two_files [] [[97]; [98]] (PList ∅ [] true) (WList ∅ NULL)
    [[84;104;101;32;99;97;116]; [116;104;101;32;99;97;116;39;115;32;99;97;116]]);
    [vm_compute; reflexivity|vm_compute; reflexivity| |vm_compute; lia].
  apply Forall_replicate. intros i Hi. cbn in Hi. assert (i = 0 ∨ i = 1)%nat as [->| ->] by lia; repeat constructor.
Defined.
