(* ===== verification/Wq.v ===== *)
(** * The web server's work queue (hw4/wq.c, the pool of server.c)

    Accepted connections wait in a doubly linked list (utlist.h's [DL_APPEND] and [DL_DELETE])
    under a mutex and a condition variable.  The main thread of the pool server pushes them,
    the handler threads pop them.  Threads are steps between which any other thread may run. *)
From S2P Require Import Prelude WordCount WordList.

(** ** The list of utlist.h *)
Record wq_item_t := Item { client_socket_fd : Z; item_next : Z; item_prev : Z }.
Abbreviation items := (gmap Z wq_item_t).

Definition read_item (h : items) (p : Z) : res wq_item_t :=
  match h !! p with Some i => Ret i | None => Panic end.
Definition set_item_next (h : items) (p q : Z) : res items :=
  i ← read_item h p; Ret (<[p := Item i.(client_socket_fd) q i.(item_prev)]> h).
Definition set_item_prev (h : items) (p q : Z) : res items :=
  i ← read_item h p; Ret (<[p := Item i.(client_socket_fd) i.(item_next) q]> h).

(** The heap and the new head. *)
Definition DL_APPEND (h : items) (head add : Z) : res (items * Z) :=
  if negb (head =? NULL) then
    i ← read_item h head;
    h ← set_item_prev h add i.(item_prev);
    i ← read_item h head;
    h ← set_item_next h i.(item_prev) add;
    h ← set_item_prev h head add;
    h ← set_item_next h add NULL;
    Ret (h, head)
  else
    let head := add in
    h ← set_item_prev h head head;
    h ← set_item_next h head NULL;
    Ret (h, head).
Definition DL_DELETE (h : items) (head del : Z) : res (items * Z) :=
  d ← read_item h del;
  ASSERT (negb (d.(item_prev) =? NULL));;
  if d.(item_prev) =? del then Ret (h, NULL)
  else if del =? head then
    h ← set_item_prev h d.(item_next) d.(item_prev);
    Ret (h, d.(item_next))
  else
    h ← set_item_next h d.(item_prev) d.(item_next);
    if negb (d.(item_next) =? NULL) then
      h ← set_item_prev h d.(item_next) d.(item_prev);
      Ret (h, head)
    else
      h ← set_item_prev h head d.(item_prev);
      Ret (h, head).

(** ** The queue *)
Record wq_t := WQ { q_size : Z; q_head : Z; q_items : items }.

Definition wq_init (h : items) : wq_t := WQ 0 NULL h.

Section Alloc.
(** Where calloc puts an item; the null pointer if it fails. *)
Context (place : items → Z).

(** What [wq_push] does while it holds the mutex, before the broadcast. *)
Definition wq_push_body (q : wq_t) (fd : Z) : res wq_t :=
  let wq_item := place q.(q_items) in
  if wq_item =? NULL then Panic else
  let h := <[wq_item := Item fd NULL NULL]> q.(q_items) in
  '(h, head) ← DL_APPEND h q.(q_head) wq_item;
  Ret (WQ (s32 (q.(q_size) + 1)) head h).
End Alloc.

(** What [wq_pop] does once the queue is not empty, with the mutex: the item, the connection and
    the queue. *)
Definition wq_pop_body (q : wq_t) : res (Z * Z * wq_t) :=
  let wq_item := q.(q_head) in
  i ← read_item q.(q_items) q.(q_head);
  '(h, head) ← DL_DELETE q.(q_items) q.(q_head) q.(q_head);
  Ret (wq_item, i.(client_socket_fd), WQ (s32 (q.(q_size) - 1)) head h).

(** ** The threads of the pool server *)
(** The main thread in [serve_forever]: before [wq_init], waiting in [accept], or in [wq_push]
    without or with the mutex. *)
Inductive acceptor :=
| Starting
| Accepting
| Pushing (fd : Z)
| InPush (fd : Z).
(** A handler thread in [handle_clients]: about to take the mutex, with it, asleep in
    [pthread_cond_wait], woken there, freeing the item it took, or in the request handler. *)
Inductive handler_state :=
| Popping
| InPop
| Asleep
| Woken
| Freeing (wq_item fd : Z)
| Serving (fd : Z).

(** The queue, whether the mutex is held, the threads, the connections to come; and, for the
    record, the connections pushed, popped and served so far, in order. *)
Record work_pool := Pool {
  queue : wq_t;
  mutex : bool;
  server : acceptor;
  handlers : list handler_state;
  arriving : list Z;
  pushed : list Z;
  popped : list Z;
  served : list Z;
}.

Definition wake (t : handler_state) : handler_state := match t with Asleep => Woken | _ => t end.
(** A thread that waits on the condition variable. *)
Definition waiting (t : handler_state) : bool := match t with Asleep | Woken => true | _ => false end.

Section Steps.
Context (place : items → Z).

(** The main thread.  Initialising a mutex that is held, or a condition variable that is waited
    for, has no defined result. *)
Definition server_step (p : work_pool) : res (option work_pool) :=
  let 'Pool q m s ts arr pu po se := p in
  match s with
  | Starting =>
    if m || existsb waiting ts then Panic
    else Ret (Some (Pool (wq_init q.(q_items)) m Accepting ts arr pu po se))
  | Accepting =>
    match arr with
    | [] => Ret None
    | fd :: arr => Ret (Some (Pool q m (Pushing fd) ts arr pu po se))
    end
  | Pushing fd => if m then Ret None else Ret (Some (Pool q true (InPush fd) ts arr pu po se))
  | InPush fd =>
    q ← wq_push_body place q fd;
    Ret (Some (Pool q false Accepting (wake <$> ts) arr (pu ++ [fd]) po se))
  end.
(** Handler thread [i]. *)
Definition handler_step (i : nat) (p : work_pool) : res (option work_pool) :=
  let 'Pool q m s ts arr pu po se := p in
  match ts !! i with
  | Some Popping | Some Woken =>
    if m then Ret None else Ret (Some (Pool q true s (<[i := InPop]> ts) arr pu po se))
  | Some InPop =>
    if q.(q_size) =? 0 then Ret (Some (Pool q false s (<[i := Asleep]> ts) arr pu po se))
    else
      '(wq_item, fd, q) ← wq_pop_body q;
      Ret (Some (Pool q false s (<[i := Freeing wq_item fd]> ts) arr pu (po ++ [fd]) se))
  | Some (Freeing wq_item fd) =>
    Ret (Some (Pool (WQ q.(q_size) q.(q_head) (delete wq_item q.(q_items))) m s
                    (<[i := Serving fd]> ts) arr pu po se))
  | Some (Serving fd) =>
    Ret (Some (Pool q m s (<[i := Popping]> ts) arr pu po (se ++ [fd])))
  | Some Asleep | None => Ret None
  end.
(** A sleeping thread may wake up without a broadcast. *)
Definition spurious_step (i : nat) (p : work_pool) : res (option work_pool) :=
  let 'Pool q m s ts arr pu po se := p in
  match ts !! i with
  | Some Asleep => Ret (Some (Pool q m s (<[i := Woken]> ts) arr pu po se))
  | _ => Ret None
  end.

Inductive pool_step (p p' : work_pool) : Prop :=
| by_server : server_step p = Ret (Some p') → pool_step p p'
| by_handler i : handler_step i p = Ret (Some p') → pool_step p p'
| by_itself i : spurious_step i p = Ret (Some p') → pool_step p p'.
End Steps.

(** The program's global queue is zero when the threads are created. *)
Definition pool_start (numThreads : nat) (conns : list Z) : work_pool :=
  Pool (WQ 0 NULL ∅) false Starting (replicate numThreads Popping) conns [] [] [].
(** The state after [wq_init], with no thread at the queue yet. *)
Definition pool_ready (numThreads : nat) (conns : list Z) : work_pool :=
  Pool (WQ 0 NULL ∅) false Accepting (replicate numThreads Popping) conns [] [] [].

(** ** The list as a sequence *)
Definition addr_at (xs : list (Z * Z)) (i : nat) : Z := default NULL (fst <$> xs !! i).
Definition prev_at (xs : list (Z * Z)) (i : nat) : Z :=
  match i with O => default NULL (fst <$> last xs) | S j => addr_at xs j end.
(** The items from [head] on are [xs], with their connections. *)
Record dlist (h : items) (head : Z) (xs : list (Z * Z)) : Prop := {
  dlist_head : head = addr_at xs O;
  dlist_nodup : NoDup xs.*1;
  dlist_nonnull : Forall (λ a, a ≠ NULL) xs.*1;
  dlist_items i a fd : xs !! i = Some (a, fd) → h !! a = Some (Item fd (addr_at xs (S i)) (prev_at xs i));
}.

Lemma item_some h p i : h !! p = Some i → read_item h p = Ret i.
Proof. unfold read_item. by intros ->. Qed.
(** Run the next access to an item. *)
Ltac at_item H :=
  unfold set_item_next, set_item_prev; rewrite (item_some _ _ _ H);
  cbn [mbind res_bind client_socket_fd item_next item_prev].

Lemma addr_at_app xs ys i : (i < length xs)%nat → addr_at (xs ++ ys) i = addr_at xs i.
Proof. intros H. unfold addr_at. by rewrite lookup_app_l. Qed.
Lemma addr_at_in xs i a fd : xs !! i = Some (a, fd) → addr_at xs i = a.
Proof. unfold addr_at. by intros ->. Qed.
Lemma dlist_addr h head xs a : dlist h head xs → a ∈ xs.*1 → is_Some (h !! a).
Proof.
  intros D ([x fd] & -> & Hx)%list_elem_of_fmap. apply list_elem_of_lookup in Hx as [i Hi]. eexists.
  by eapply dlist_items.
Qed.
Lemma dlist_inj h head xs i j a f g : dlist h head xs → xs !! i = Some (a, f) → xs !! j = Some (a, g) → i = j.
Proof.
  intros D Hi Hj. eapply (NoDup_lookup xs.*1); [by eapply dlist_nodup| |]; rewrite list_lookup_fmap; [by rewrite Hi|by rewrite Hj].
Qed.
(** Other items do not matter. *)
Lemma dlist_frame h h' head xs : (∀ a, a ∈ xs.*1 → h' !! a = h !! a) → dlist h head xs → dlist h' head xs.
Proof.
  intros He [? ? ? Hi]. split; [done..|]. intros i a fd H. rewrite He; [by apply Hi|].
  apply list_elem_of_fmap. exists (a, fd). split; [done|]. by eapply list_elem_of_lookup_2.
Qed.

Lemma DL_APPEND_ok h head xs add fd n0 p0 :
  dlist h head xs → h !! add = Some (Item fd n0 p0) → add ≠ NULL → add ∉ xs.*1 →
  ∃ h' head', DL_APPEND h head add = Ret (h', head') ∧ dlist h' head' (xs ++ [(add, fd)]).
Proof.
  intros D Ha Hne Hnin. unfold DL_APPEND. destruct xs as [|[x fx] xs0] eqn:Exs.
  { destruct D as [-> _ _ _]. cbn. at_item Ha. at_item (lookup_insert_eq h add (Item fd n0 add)).
    eexists _, _. split; [done|]. split; [done|repeat constructor; apply not_elem_of_nil|by repeat constructor|].
    intros [|i] a f [= <- <-]. by rewrite lookup_insert_eq. }
  rewrite <- Exs in *. assert (Hx0 : xs !! O = Some (x, fx)) by by subst xs.
  pose proof (dlist_items _ _ _ D O x fx Hx0) as Hx. cbn [prev_at] in Hx.
  assert (Hhead : head = x) by (rewrite (dlist_head _ _ _ D); by eapply addr_at_in). subst head.
  assert (Hxn : x ≠ NULL).
  { pose proof (dlist_nonnull _ _ _ D) as Hn. rewrite Forall_forall in Hn. apply Hn. subst xs. left. }
  (* the last item *)
  destruct (last xs) as [[z fz]|] eqn:Ez; [|by apply last_None in Ez; subst].
  cbn in Hx. assert (Ez' := Ez). rewrite last_lookup in Ez'. set (k := pred (length xs)) in *.
  pose proof (dlist_items _ _ _ D k z fz Ez') as Hz.
  assert (Hk : S k = length xs) by (subst xs; cbn in *; lia).
  assert (Hzn : addr_at xs (S k) = NULL) by (unfold addr_at; rewrite lookup_ge_None_2 by lia; done). rewrite Hzn in Hz.
  assert (Hne' : ∀ i a f, xs !! i = Some (a, f) → a ≠ add).
  { intros i a f Hi ->. apply Hnin, list_elem_of_fmap. exists (add, f). split; [done|]. by eapply list_elem_of_lookup_2. }
  rewrite (nonnull _ Hxn). cbn [negb]. at_item Hx. at_item Ha.
  set (h1 := <[add := _]> h). assert (Hx1 : h1 !! x = h !! x) by (apply lookup_insert_ne; symmetry; by eapply Hne').
  rewrite Hx in Hx1. at_item Hx1.
  assert (Hz1 : h1 !! z = h !! z) by (apply lookup_insert_ne; symmetry; by eapply Hne'). rewrite Hz in Hz1. at_item Hz1.
  set (h2 := <[z := _]> h1).
  assert (Hx2 : ∃ n, h2 !! x = Some (Item fx n z) ∧ n = addr_at (xs ++ [(add, fd)]) 1).
  { unfold h2. destruct (decide (z = x)) as [->|Hzx].
    - assert (k = 0%nat) as Hk0 by (eapply dlist_inj; [exact D|exact Ez'|exact Hx0]).
      assert (fz = fx) as -> by (rewrite Hk0, Hx0 in Ez'; by injection Ez').
      exists add. rewrite lookup_insert_eq. rewrite Hk0 in Hz, Hk. split.
      + rewrite Hk0. cbn [prev_at]. by rewrite Ez.
      + unfold addr_at. rewrite lookup_app_r by lia. by rewrite <- Hk.
    - exists (addr_at xs 1). rewrite lookup_insert_ne, Hx1 by done. split; [done|].
      rewrite addr_at_app; [done|]. destruct k; [|lia]. rewrite Hx0 in Ez'. by injection Ez'. }
  destruct Hx2 as (n & Hx2 & Hn). at_item Hx2. set (h3 := <[x := _]> h2).
  assert (Ha3 : ∃ n', h3 !! add = Some (Item fd n' z)).
  { exists n0. unfold h3, h2, h1. rewrite !lookup_insert_ne, lookup_insert_eq by (by eapply Hne'). done. }
  destruct Ha3 as [n' Ha3]. at_item Ha3. eexists _, _. split; [done|]. split.
  - rewrite addr_at_app by lia. by rewrite (addr_at_in _ _ _ _ Hx0).
  - rewrite fmap_app. apply NoDup_app. split_and!; [by eapply dlist_nodup| |repeat constructor; apply not_elem_of_nil].
    intros a Ha' [->|Hx']%elem_of_cons; [done|by apply not_elem_of_nil in Hx'].
  - rewrite fmap_app. apply Forall_app. split; [by eapply dlist_nonnull|by repeat constructor].
  - intros i a f Hi. apply lookup_app_Some in Hi as [Hi|[Hge Hi]].
    + assert (Hlt : (i < length xs)%nat) by by eapply lookup_lt_Some.
      rewrite lookup_insert_ne by (symmetry; by eapply Hne').
      assert (Hprev : i ≠ O → prev_at (xs ++ [(add, fd)]) i = prev_at xs i).
      { destruct i; [done|]. intros _. cbn. apply addr_at_app. lia. }
      unfold h3. destruct (decide (x = a)) as [<-|Hxa].
      * rewrite lookup_insert_eq. assert (i = O) as -> by by eapply dlist_inj.
        rewrite Hx0 in Hi. injection Hi as <-. cbn [prev_at]. rewrite last_snoc. cbn. by rewrite Hn.
      * assert (Hi0 : i ≠ O) by (intros ->; rewrite Hx0 in Hi; by injection Hi).
        rewrite lookup_insert_ne by done. unfold h2. destruct (decide (z = a)) as [<-|Hza].
        -- rewrite lookup_insert_eq. assert (i = k) as -> by by eapply dlist_inj.
           rewrite Ez' in Hi. injection Hi as <-. rewrite Hprev by done. do 2 f_equal.
           unfold addr_at. rewrite lookup_app_r by lia. by rewrite Hk, Nat.sub_diag.
        -- rewrite lookup_insert_ne by done. unfold h1. rewrite lookup_insert_ne by (symmetry; by eapply Hne').
           rewrite (dlist_items _ _ _ D i a f Hi), Hprev by done. do 2 f_equal. symmetry. apply addr_at_app.
           assert (i ≠ k); [|lia]. intros ->. rewrite Ez' in Hi. by injection Hi.
    + assert (i = length xs) as -> by (apply lookup_lt_Some in Hi; cbn in Hi; lia). rewrite Nat.sub_diag in Hi.
      injection Hi as <- <-. rewrite lookup_insert_eq. do 2 f_equal.
      * unfold addr_at. by rewrite lookup_ge_None_2 by (rewrite length_app; cbn; lia).
      * rewrite <- Hk. cbn [prev_at]. rewrite addr_at_app by lia. by rewrite (addr_at_in _ _ _ _ Ez').
Qed.

(** [DL_DELETE] of the head. *)
Lemma DL_DELETE_head h head x fx xs :
  dlist h head ((x, fx) :: xs) →
  ∃ h' head', DL_DELETE h head head = Ret (h', head') ∧ dlist h' head' xs.
Proof.
  intros D. pose proof (dlist_items _ _ _ D O x fx eq_refl) as Hx.
  assert (head = x) as -> by apply (dlist_head _ _ _ D). cbn [prev_at] in Hx.
  pose proof (dlist_nonnull _ _ _ D) as Hnn. pose proof (dlist_nodup _ _ _ D) as Hnd.
  unfold DL_DELETE. at_item Hx. destruct xs as [|[y fy] xs].
  { apply Forall_cons in Hnn as [Hxn _]. cbn in Hxn |- *. rewrite (nonnull _ Hxn), Z.eqb_refl. cbn.
    eexists _, _. split; [done|]. split; [done|constructor|constructor|done]. }
  destruct (last ((y, fy) :: xs)) as [[z fz]|] eqn:Ez; [|by apply last_None in Ez].
  assert (default NULL (fst <$> last ((x, fx) :: (y, fy) :: xs)) = z) as -> by (by rewrite last_cons, Ez).
  assert (Hz : z ∈ ((y, fy) :: xs).*1).
  { apply list_elem_of_fmap. exists (z, fz). split; [done|]. rewrite last_lookup in Ez. by eapply list_elem_of_lookup_2. }
  cbn [fmap list_fmap fst] in Hnn, Hnd, Hz. apply Forall_cons in Hnn as [Hxn Hnn]. apply NoDup_cons in Hnd as [Hxy Hnd].
  assert (Hzn : z ≠ NULL) by (rewrite Forall_forall in Hnn; by apply Hnn).
  assert (Hzx : (z =? x) = false) by (apply Z.eqb_neq; by intros ->).
  rewrite (nonnull _ Hzn), Hzx, Z.eqb_refl. cbn [negb ASSERT mbind res_bind].
  pose proof (dlist_items _ _ _ D 1%nat y fy eq_refl) as Hy.
  change (addr_at ((x, fx) :: (y, fy) :: xs) 1) with y. at_item Hy.
  eexists _, _. split; [done|]. split; [done|done|done|]. intros i a f Hi.
  pose proof (dlist_items _ _ _ D (S i) a f Hi) as Ha. destruct i as [|i].
  - injection Hi as <- <-. rewrite lookup_insert_eq. cbn [prev_at]. by rewrite Ez.
  - rewrite lookup_insert_ne; [exact Ha|]. intros <-.
    apply NoDup_cons in Hnd as [Hy' _]. apply Hy', list_elem_of_fmap. exists (y, f). split; [done|].
    by eapply list_elem_of_lookup_2.
Qed.

(** ** The queue as a sequence of connections *)
(** [xs] are the items of the queue; [size] counts them. *)
Record queued (q : wq_t) (xs : list (Z * Z)) : Prop := {
  queued_list : dlist q.(q_items) q.(q_head) xs;
  queued_size : q.(q_size) = Z.of_nat (length xs);
}.

Lemma wq_push_ok place q xs fd :
  (∀ h : items, place h ≠ NULL ∧ h !! place h = None) →
  queued q xs → Z.of_nat (length xs) < 2147483647 →
  ∃ q', wq_push_body place q fd = Ret q' ∧ queued q' (xs ++ [(place q.(q_items), fd)]).
Proof.
  intros Hp [D Hs] Hb. destruct (Hp q.(q_items)) as [Hp0 Hfree]. unfold wq_push_body. rewrite (nonnull _ Hp0).
  set (a := place q.(q_items)) in *. set (h := <[a := _]> q.(q_items)).
  assert (Hnin : a ∉ xs.*1).
  { intros Hin. destruct (dlist_addr _ _ _ _ D Hin) as [? E]. by rewrite Hfree in E. }
  assert (D' : dlist h q.(q_head) xs).
  { eapply dlist_frame; [|exact D]. intros b Hb'. apply lookup_insert_ne. by intros <-. }
  destruct (DL_APPEND_ok h _ xs a fd NULL NULL D' (lookup_insert_eq _ _ _) Hp0 Hnin) as (h' & head' & -> & D2).
  eexists. split; [done|]. split; [done|]. cbn. rewrite Hs, length_app. cbn.
  rewrite s32_small by lia. lia.
Qed.
(** No operation on the list frees an item. *)
Lemma set_next_dom h p q h' : set_item_next h p q = Ret h' → dom h' = dom h.
Proof.
  unfold set_item_next, read_item. destruct (h !! p) eqn:E; [|done]. intros [= <-]. rewrite dom_insert_L.
  apply elem_of_dom_2 in E. set_solver.
Qed.
Lemma set_prev_dom h p q h' : set_item_prev h p q = Ret h' → dom h' = dom h.
Proof.
  unfold set_item_prev, read_item. destruct (h !! p) eqn:E; [|done]. intros [= <-]. rewrite dom_insert_L.
  apply elem_of_dom_2 in E. set_solver.
Qed.
Ltac same_dom :=
  repeat match goal with
  | H : set_item_next _ _ _ = Ret _ |- _ => apply set_next_dom in H
  | H : set_item_prev _ _ _ = Ret _ |- _ => apply set_prev_dom in H
  | H : (_ ≫= _) = Ret _ |- _ => let a := fresh "a" in apply bind_Ret_inv in H as (a & ? & H)
  | H : Ret _ = Ret _ |- _ => injection H as ? ?; subst
  | H : (if ?b then _ else _) = Ret _ |- _ => destruct b
  end; congruence.
Lemma DL_APPEND_dom h head add h' head' : DL_APPEND h head add = Ret (h', head') → dom h' = dom h.
Proof. unfold DL_APPEND. intros H. same_dom. Qed.
Lemma DL_DELETE_dom h head del h' head' : DL_DELETE h head del = Ret (h', head') → dom h' = dom h.
Proof. unfold DL_DELETE. intros H. same_dom. Qed.
Lemma wq_push_keeps place q fd q' a :
  wq_push_body place q fd = Ret q' → is_Some (q.(q_items) !! a) → is_Some (q'.(q_items) !! a).
Proof.
  unfold wq_push_body. destruct (place _ =? NULL); [done|]. intros ([h hd] & E & H)%bind_Ret_inv Ha. injection H as <-.
  cbn. apply DL_APPEND_dom in E. rewrite <- elem_of_dom in *. rewrite E, dom_insert_L. set_solver.
Qed.
Lemma wq_pop_keeps q r q' : wq_pop_body q = Ret (r, q') → dom q'.(q_items) = dom q.(q_items).
Proof.
  unfold wq_pop_body. intros (i & _ & ([h hd] & E & H)%bind_Ret_inv)%bind_Ret_inv. injection H as _ <-. cbn.
  by eapply DL_DELETE_dom.
Qed.
Lemma wq_pop_ok q x fd xs :
  queued q ((x, fd) :: xs) → Z.of_nat (length xs) < 2147483647 →
  ∃ q', wq_pop_body q = Ret (x, fd, q') ∧ queued q' xs.
Proof.
  destruct q as [size head h]. intros [D Hs] Hb. cbn [q_items q_head q_size] in *.
  assert (head = x) as -> by apply (dlist_head _ _ _ D).
  unfold wq_pop_body. cbn [q_items q_head q_size]. rewrite (item_some _ _ _ (dlist_items _ _ _ D O x fd eq_refl)).
  cbn [mbind res_bind]. destruct (DL_DELETE_head _ _ _ _ _ D) as (h' & head' & -> & D').
  eexists. split; [done|]. split; [done|]. cbn. rewrite Hs. cbn. rewrite s32_small by lia. lia.
Qed.

(** ** What holds in every state of the pool *)
(** The connection a handler is busy with, and the item it has still to free. *)
Definition busy (t : handler_state) : list Z := match t with Freeing _ fd | Serving fd => [fd] | _ => [] end.
Definition to_free (t : handler_state) : list Z := match t with Freeing a _ => [a] | _ => [] end.
(** The connection the main thread has accepted and not pushed yet. *)
Definition in_hand (s : acceptor) : list Z := match s with Pushing fd | InPush fd => [fd] | _ => [] end.
(** Who holds the mutex. *)
Definition holds_mutex (t : handler_state) : nat := match t with InPop => 1 | _ => 0 end.
Definition server_holds (s : acceptor) : nat := match s with InPush _ => 1 | _ => 0 end.
Definition holders (p : work_pool) : nat := server_holds p.(server) + sum_list_with holds_mutex p.(handlers).

Record pool_inv (conns : list Z) (p : work_pool) : Prop := {
  inv_started : p.(server) ≠ Starting;
  inv_order : p.(pushed) ++ in_hand p.(server) ++ p.(arriving) = conns;
  inv_mutex : holders p = if p.(mutex) then 1%nat else 0%nat;
  inv_once : p.(served) ++ (p.(handlers) ≫= busy) ≡ₚ p.(popped);
  inv_queue : ∃ xs, queued p.(queue) xs ∧ p.(pushed) = p.(popped) ++ xs.*2
    ∧ (xs ≠ [] → Asleep ∉ p.(handlers))
    ∧ NoDup (xs.*1 ++ (p.(handlers) ≫= to_free))
    ∧ ∀ a, a ∈ p.(handlers) ≫= to_free → is_Some (p.(queue).(q_items) !! a);
}.

Lemma list_at {A} (l : list A) i x :
  l !! i = Some x → ∃ l1 l2, l = l1 ++ x :: l2 ∧ ∀ y, <[i := y]> l = l1 ++ y :: l2.
Proof.
  intros H. exists (take i l), (drop (S i) l). split; [by rewrite take_drop_middle|].
  intros y. apply insert_take_drop. by eapply lookup_lt_Some.
Qed.
Lemma bind_wake {B} (f : handler_state → list B) (ts : list handler_state) : (∀ t, f (wake t) = f t) → (wake <$> ts) ≫= f = ts ≫= f.
Proof. intros H. induction ts as [|t ts IH]; [done|]. rewrite fmap_cons, !bind_cons, H. by rewrite IH. Qed.
Lemma wake_awake (ts : list handler_state) : Asleep ∉ wake <$> ts.
Proof. intros (t & E & _)%list_elem_of_fmap. by destruct t. Qed.
Lemma wake_holders (ts : list handler_state) : sum_list_with holds_mutex (wake <$> ts) = sum_list_with holds_mutex ts.
Proof. induction ts as [|t ts IH]; [done|]. cbn. rewrite IH. by destruct t. Qed.

Section Invariant.
Context (place : items → Z) (conns : list Z).
Hypothesis place_ok : ∀ h : items, place h ≠ NULL ∧ h !! place h = None.
Hypothesis few : Z.of_nat (length conns) < 2147483647.

(** The connections in the queue are among those that arrived. *)
Lemma queue_short p (xs : list (Z * Z)) :
  pool_inv conns p → p.(pushed) = p.(popped) ++ xs.*2 → Z.of_nat (length xs) < 2147483647.
Proof using few.
  intros [_ Ho _ _ _] E. rewrite E in Ho. assert (Hl := f_equal length Ho).
  rewrite !length_app, length_fmap in Hl. lia.
Qed.

(** Exchanging a handler's state for one that is busy with the same. *)
Lemma handler_moves p i t t' m :
  pool_inv conns p → p.(handlers) !! i = Some t → busy t' = busy t → to_free t' = to_free t →
  (t' = Asleep → p.(queue).(q_size) = 0) →
  (holders p + holds_mutex t' = (if m : bool then 1 else 0) + holds_mutex t)%nat →
  pool_inv conns (Pool p.(queue) m p.(server) (<[i := t']> p.(handlers)) p.(arriving) p.(pushed) p.(popped) p.(served)).
Proof using.
  intros [H1 H2 H3 H4 (xs & Hq & E & Hsl & Hnd & Hf)] Hi Eb Ef Hz Hm.
  destruct (list_at _ _ _ Hi) as (A & B & Ets & Eins). rewrite (Eins t').
  assert (Ebind : ∀ f : handler_state → list Z, f t' = f t → (A ++ t' :: B) ≫= f = p.(handlers) ≫= f).
  { intros f Hft. by rewrite Ets, !bind_app, !bind_cons, Hft. }
  split; cbn; [done|done| | |].
  - unfold holders in *. cbn. rewrite Ets in Hm. rewrite !sum_list_with_app in *. cbn in *. lia.
  - by rewrite (Ebind busy Eb).
  - exists xs. rewrite (Ebind to_free Ef). split_and!; [done|done| |done|done].
    intros Hxs. specialize (Hsl Hxs). rewrite Ets in Hsl. rewrite elem_of_app, elem_of_cons in *.
    intros [?|[Et|?]]; [tauto| |tauto]. apply Hxs. specialize (Hz (eq_sym Et)).
    destruct Hq as [_ Hs]. rewrite Hs in Hz. by destruct xs.
Qed.

(** Every step of the main thread keeps the invariant, and fails never. *)
Lemma server_step_ok p :
  pool_inv conns p →
  ∃ o, server_step place p = Ret o ∧ ∀ p', o = Some p' → pool_inv conns p'.
Proof using place_ok few.
  intros I. pose proof I as [H1 H2 H3 H4 (xs & Hq & E & Hsl & Hnd & Hf)].
  pose proof (queue_short p xs I E) as Hb.
  destruct p as [q m s ts arr pu po se]. cbn in *. destruct s as [| |fd|fd]; [done| | |].
  - destruct arr as [|fd arr]; [by exists None|]. eexists. split; [done|]. intros p' [= <-]. split; cbn; try done.
    by exists xs.
  - destruct m; [by exists None|]. eexists. split; [done|]. intros p' [= <-]. split; cbn; try done.
    + unfold holders in *. cbn in *. lia.
    + by exists xs.
  - destruct (wq_push_ok place q xs fd place_ok Hq Hb) as (q' & Eq & Hq'). rewrite Eq. cbn [mbind res_bind].
    eexists. split; [done|]. intros p' [= <-]. split; cbn.
    + done.
    + rewrite <- app_assoc. exact H2.
    + unfold holders in *. cbn in *. rewrite wake_holders. destruct m; lia.
    + by rewrite bind_wake by by intros [].
    + exists (xs ++ [(place q.(q_items), fd)]). rewrite bind_wake by by intros [].
      destruct (place_ok q.(q_items)) as [Hp0 Hpf]. split_and!; [done| |intros _; apply wake_awake| |].
      * rewrite E, fmap_app, app_assoc. done.
      * rewrite fmap_app. cbn. rewrite <- app_assoc. cbn. rewrite <- Permutation_middle. apply NoDup_cons.
        split; [|done]. intros [Hin|Hin]%elem_of_app.
        -- destruct Hq as [D _]. destruct (dlist_addr _ _ _ _ D Hin) as [? E']. by rewrite Hpf in E'.
        -- destruct (Hf _ Hin) as [? E']. by rewrite Hpf in E'.
      * intros a Ha. destruct (Hf a Ha) as [i Hi]. eapply wq_push_keeps; [exact Eq|by exists i].
Qed.

Lemma holder_mutex p i t :
  pool_inv conns p → p.(handlers) !! i = Some t → holds_mutex t = 1%nat → p.(mutex) = true ∧ holders p = 1%nat.
Proof using.
  intros [_ _ H3 _ _] Hi Ht. assert (1 ≤ holders p)%nat.
  { destruct (list_at _ _ _ Hi) as (A & B & E & _). unfold holders. rewrite E, sum_list_with_app. cbn. lia. }
  destruct p.(mutex); [done|lia].
Qed.

(** Taking a connection from the queue. *)
Lemma pop_step_ok p i :
  pool_inv conns p → p.(handlers) !! i = Some InPop → p.(queue).(q_size) ≠ 0 →
  ∃ a fd q', wq_pop_body p.(queue) = Ret (a, fd, q') ∧
    pool_inv conns (Pool q' false p.(server) (<[i := Freeing a fd]> p.(handlers)) p.(arriving) p.(pushed)
                         (p.(popped) ++ [fd]) p.(served)).
Proof using few.
  intros I Hi Hsz. destruct (holder_mutex p i InPop I Hi eq_refl) as [Hm Hh].
  pose proof I as [H1 H2 H3 H4 (xs & Hq & E & Hsl & Hnd & Hf)]. pose proof (queue_short p xs I E) as Hb.
  destruct xs as [|[a fd] xs]; [destruct Hq as [_ Hs]; by rewrite Hs in Hsz|].
  destruct (wq_pop_ok p.(queue) a fd xs Hq ltac:(cbn in Hb; lia)) as (q' & Eq & Hq').
  exists a, fd, q'. split; [done|].
  destruct (list_at _ _ _ Hi) as (A & B & Ets & Eins). rewrite (Eins (Freeing a fd)).
  split; cbn; [done|done| | |].
  - unfold holders in *. cbn. rewrite Ets in Hh. rewrite !sum_list_with_app in *. cbn in *. lia.
  - rewrite <- H4, Ets, !bind_app, !bind_cons. cbn. rewrite <- !app_assoc. solve_Permutation.
  - assert (Hfree : (A ++ Freeing a fd :: B) ≫= to_free ≡ₚ a :: (p.(handlers) ≫= to_free)).
    { rewrite Ets, !bind_app, !bind_cons. cbn. by rewrite Permutation_middle. }
    exists xs. split_and!; [done| | | |].
    + rewrite E, <- app_assoc. done.
    + intros _. specialize (Hsl ltac:(done)). rewrite Ets in Hsl. rewrite elem_of_app, elem_of_cons in *.
      intros [?|[?|?]]; [tauto|done|tauto].
    + rewrite Hfree, <- Permutation_middle. exact Hnd.
    + intros b. rewrite Hfree. pose proof (wq_pop_keeps _ _ _ Eq) as Hdom. rewrite <- elem_of_dom, Hdom, elem_of_dom.
      intros [->|Hb']%elem_of_cons; [|by apply Hf]. destruct Hq as [D _]. eapply dlist_addr; [exact D|left].
Qed.

(** Every step of a handler keeps the invariant, and fails never. *)
Lemma handler_step_ok p i :
  pool_inv conns p →
  ∃ o, handler_step i p = Ret o ∧ ∀ p', o = Some p' → pool_inv conns p'.
Proof using few.
  intros I. pose proof I as [H1 H2 H3 H4 (xs & Hq & E & Hsl & Hnd & Hf)].
  destruct p as [q m s ts arr pu po se] eqn:Ep. cbn in *.
  destruct (ts !! i) as [t|] eqn:Hi; [|by exists None].
  assert (Hlock : ∀ t, ts !! i = Some t → busy t = [] → to_free t = [] → holds_mutex t = O →
    ∃ o, (if m then Ret None else Ret (Some (Pool q true s (<[i := InPop]> ts) arr pu po se))) = Ret o
      ∧ ∀ p', o = Some p' → pool_inv conns p').
  { intros t' Hi' Eb Ef Em. destruct m; [by exists None|]. eexists. split; [done|]. intros p' [= <-].
    apply (handler_moves _ i t' InPop true I Hi'); [done|done|done|]. cbn. rewrite H3, Em. done. }
  destruct t as [| | | |a fd|fd].
  - by eapply Hlock.
  - destruct (holder_mutex _ i InPop I Hi eq_refl) as [Hm Hh]. destruct (Z.eqb_spec q.(q_size) 0) as [Hz|Hz].
    + eexists. split; [done|]. intros p' [= <-].
      apply (handler_moves _ i InPop Asleep false I Hi); [done|done|done|]. cbn in *. lia.
    + destruct (pop_step_ok _ i I Hi Hz) as (a & fd & q' & Eq & I'). cbn in Eq, I'. rewrite Eq. cbn [mbind res_bind].
      eexists. split; [done|]. by intros p' [= <-].
  - by exists None.
  - by eapply Hlock.
  - eexists. split; [done|]. intros p' [= <-]. destruct (list_at _ _ _ Hi) as (A & B & Ets & Eins).
    rewrite (Eins (Serving fd)). assert (Hfree : ts ≫= to_free ≡ₚ a :: ((A ++ Serving fd :: B) ≫= to_free)).
    { rewrite Ets, !bind_app, !bind_cons. cbn. by rewrite Permutation_middle. }
    rewrite Hfree, <- Permutation_middle in Hnd. apply NoDup_cons in Hnd as [Ha Hnd].
    rewrite not_elem_of_app in Ha. destruct Ha as [Hax Hat]. split; cbn; [done|done| | |].
    + unfold holders in *. cbn in *. rewrite Ets in H3. rewrite !sum_list_with_app in *. cbn in *. lia.
    + rewrite <- H4, Ets, !bind_app, !bind_cons. done.
    + exists xs. destruct Hq as [D Hs]. split_and!; [|done| |done|].
      * split; [|done]. cbn. eapply dlist_frame; [|exact D]. intros b Hb. apply lookup_delete_ne. by intros <-.
      * intros Hx. specialize (Hsl Hx). rewrite Ets in Hsl. rewrite elem_of_app, elem_of_cons in *.
        intros [?|[?|?]]; [tauto|done|tauto].
      * intros b Hb. rewrite lookup_delete_ne by (by intros <-). apply Hf. rewrite Hfree. by right.
  - eexists. split; [done|]. intros p' [= <-]. destruct (list_at _ _ _ Hi) as (A & B & Ets & Eins).
    rewrite (Eins Popping). split; cbn; [done|done| | |].
    + unfold holders in *. cbn in *. rewrite Ets in H3. rewrite !sum_list_with_app in *. cbn in *. lia.
    + rewrite <- H4, Ets, !bind_app, !bind_cons. cbn. rewrite <- !app_assoc. solve_Permutation.
    + exists xs. assert ((A ++ Popping :: B) ≫= to_free = ts ≫= to_free) as -> by by rewrite Ets, !bind_app, !bind_cons.
      split_and!; [done|done| |done|done]. intros Hx. specialize (Hsl Hx). rewrite Ets in Hsl.
      rewrite elem_of_app, elem_of_cons in *. intros [?|[?|?]]; [tauto|done|tauto].
Qed.
Lemma spurious_step_ok p i :
  pool_inv conns p →
  ∃ o, spurious_step i p = Ret o ∧ ∀ p', o = Some p' → pool_inv conns p'.
Proof using.
  intros I. destruct p as [q m s ts arr pu po se] eqn:Ep. cbn. destruct (ts !! i) as [t|] eqn:Hi; [|by exists None].
  destruct t; try (by exists None). eexists. split; [done|]. intros p' [= <-].
  apply (handler_moves _ i Asleep Woken m I Hi); [done|done|done|].
  pose proof (inv_mutex _ _ I) as H3. cbn in *. lia.
Qed.

Lemma pool_step_inv p p' : pool_inv conns p → pool_step place p p' → pool_inv conns p'.
Proof using place_ok few.
  intros I [H|i H|i H].
  - destruct (server_step_ok p I) as (o & E & Ho). rewrite H in E. injection E as <-. by apply Ho.
  - destruct (handler_step_ok p i I) as (o & E & Ho). rewrite H in E. injection E as <-. by apply Ho.
  - destruct (spurious_step_ok p i I) as (o & E & Ho). rewrite H in E. injection E as <-. by apply Ho.
Qed.
Lemma pool_ready_inv n : pool_inv conns (pool_ready n conns).
Proof using.
  assert (Hb : ∀ f : handler_state → list Z, f Popping = [] → replicate n Popping ≫= f = []).
  { intros f Hf. induction n as [|n IH]; [done|]. cbn. by rewrite Hf, IH. }
  split; cbn; [done|done| | |].
  - unfold holders. cbn. clear Hb. induction n; cbn; [done|lia].
  - by rewrite Hb.
  - exists []. rewrite Hb by done. split_and!; [|done|done|constructor|by intros a H%not_elem_of_nil].
    split; [|done]. split; [done|constructor|constructor|done].
Qed.

Lemma in_pop_goes_on p i :
  pool_inv conns p → p.(handlers) !! i = Some InPop → ∃ p', handler_step i p = Ret (Some p').
Proof using few.
  intros I Hi. destruct (handler_step_ok p i I) as (o & E & _). rewrite E. destruct p. cbn in *. rewrite Hi in E.
  destruct (_ =? 0); [injection E as <-; by eexists|]. apply bind_Ret_inv in E as ([[a f] q] & _ & E).
  injection E as <-. by eexists.
Qed.
(** A thread that holds the mutex goes on; when nobody does, any handler does. *)
Lemma someone_goes_on p :
  pool_inv conns p → p.(handlers) ≠ [] → Asleep ∉ p.(handlers) →
  ∃ p', server_step place p = Ret (Some p') ∨ ∃ i, handler_step i p = Ret (Some p').
Proof using place_ok few.
  intros I Hne Hns. destruct p.(mutex) eqn:Hm.
  - pose proof (inv_mutex _ _ I) as H3. rewrite Hm in H3. unfold holders in H3. destruct p.(server) eqn:Es.
    4: { destruct (server_step_ok p I) as (o & E & _). destruct p. cbn in *. subst. cbn in E.
         apply bind_Ret_inv in E as (q & Eq & _). rewrite Eq. eexists. by left. }
    all: cbn in H3; assert (Hex : ∃ i, p.(handlers) !! i = Some InPop) by
      (clear -H3; induction p.(handlers) as [|t ts IH]; [done|]; destruct t; cbn in H3; try (destruct (IH H3) as [j Hj]; by exists (S j)); by exists O).
    all: destruct Hex as [i Hi]; destruct (in_pop_goes_on p i I Hi) as [p' E]; exists p'; right; by exists i.
  - destruct p as [q m s ts arr pu po se]. cbn in *. subst m. destruct ts as [|t ts]; [done|].
    destruct t; try (eexists; right; by exists O).
    + exfalso. pose proof (inv_mutex _ _ I) as H3. cbn in H3. unfold holders in H3. cbn in H3. lia.
    + destruct Hns. left.
Qed.
End Invariant.

(** ** Starting up

    Before [wq_init] a handler can only have taken the mutex of the zeroed queue, found it
    empty and gone to sleep; one that has done so makes [wq_init] fail. *)
Definition early (t : handler_state) : Prop := match t with Freeing _ _ | Serving _ => False | _ => True end.
Definition before_init (n : nat) (conns : list Z) (p : work_pool) : Prop :=
  ∃ m ts, p = Pool (WQ 0 NULL ∅) m Starting ts conns [] [] [] ∧ length ts = n ∧ Forall early ts
    ∧ sum_list_with holds_mutex ts = if m : bool then 1%nat else 0%nat.

Lemma set_holds ts i t t' : ts !! i = Some t →
  (sum_list_with holds_mutex (<[i := t']> ts) + holds_mutex t = sum_list_with holds_mutex ts + holds_mutex t')%nat.
Proof.
  intros Hi. destruct (list_at _ _ _ Hi) as (A & B & E & Eins). rewrite (Eins t'), E, !sum_list_with_app. cbn. lia.
Qed.
Lemma before_init_set n conns m m' ts i t t' :
  length ts = n → Forall early ts → sum_list_with holds_mutex ts = (if m : bool then 1%nat else 0%nat) →
  ts !! i = Some t → early t' → ((if m : bool then 1 else 0) + holds_mutex t' = (if m' : bool then 1 else 0) + holds_mutex t)%nat →
  before_init n conns (Pool (WQ 0 NULL ∅) m' Starting (<[i := t']> ts) conns [] [] []).
Proof.
  intros Hl He Hs Hi Ht Hm. exists m', (<[i := t']> ts). split_and!; [done|by rewrite length_insert|by apply Forall_insert|].
  pose proof (set_holds ts i t t' Hi). lia.
Qed.
Lemma nobody_waits ts : Forall early ts → sum_list_with holds_mutex ts = 0%nat → existsb waiting ts = false →
  ts = replicate (length ts) Popping.
Proof.
  induction 1 as [|t ts Ht _ IH]; intros Hs Hw; [done|]. cbn in *. apply orb_false_iff in Hw as [Hw1 Hw].
  rewrite <- IH by (done || lia). by destruct t.
Qed.

(** The first step of the main thread leads to [pool_ready] if it succeeds. *)
Lemma starting_step place n conns p p' :
  before_init n conns p → pool_step place p p' → before_init n conns p' ∨ p' = pool_ready n conns.
Proof.
  intros (m & ts & -> & Hl & He & Hs) [E|i E|i E].
  - cbn in E. destruct m; [done|]. cbn in E. destruct (existsb waiting ts) eqn:Hw; [done|]. injection E as <-. right.
    unfold pool_ready, wq_init. by rewrite <- Hl, <- nobody_waits.
  - left. cbn in E. destruct (ts !! i) as [[| | | |a fd|fd]|] eqn:Hi; try done.
    + destruct m; [done|]. injection E as <-. by eapply (before_init_set _ _ false _ ts i).
    + injection E as <-. eapply (before_init_set _ _ m _ ts i); try done. cbn.
      pose proof (set_holds ts i InPop Popping Hi) as H. cbn in H. destruct m; [done|lia].
    + destruct m; [done|]. injection E as <-. by eapply (before_init_set _ _ false _ ts i).
    + by destruct (Forall_lookup_1 _ _ _ _ He Hi).
    + by destruct (Forall_lookup_1 _ _ _ _ He Hi).
  - left. cbn in E. destruct (ts !! i) as [[]|] eqn:Hi; try done. injection E as <-.
    by eapply (before_init_set _ _ _ _ ts i).
Qed.
Lemma pool_started place n conns p :
  (∀ h : items, place h ≠ NULL ∧ h !! place h = None) → Z.of_nat (length conns) < 2147483647 →
  rtc (pool_step place) (pool_start n conns) p → before_init n conns p ∨ pool_inv conns p.
Proof.
  intros Hp Hb Hr. assert (Hs : before_init n conns (pool_start n conns) ∨ pool_inv conns (pool_start n conns)).
  { left. exists false, (replicate n Popping). split_and!; [done|apply length_replicate| |].
    - by apply Forall_replicate.
    - clear. by induction n. }
  revert Hs. induction Hr as [|x y z Hxy _ IH]; [done|]. intros [Hx|Hx]; apply IH.
  - destruct (starting_step _ _ _ _ _ Hx Hxy) as [?| ->]; [by left|right; apply pool_ready_inv].
  - right. by eapply pool_step_inv.
Qed.

(** C25: The pool of handler threads serves every connection once, in whatever order the threads
    run, once [wq_init] has been executed without failing (which is when no handler has reached the
    queue before it; [init_thread_pool] creates the threads first, and [pool_init_race] shows the
    failure), provided that every allocation of a queue item succeeds and fewer than 2^31 - 1
    connections arrive: from the program's start, in every state after [wq_init], no thread fails;
    the connections are pushed in the order of their arrival and popped in the order in which they
    were pushed; each one popped is with exactly one handler, or was served once; no handler
    sleeps while a connection waits, and some thread can then go on. *)
Theorem pool_correct place numThreads conns p :
  (∀ h : items, place h ≠ NULL ∧ h !! place h = None) → Z.of_nat (length conns) < 2147483647 →
  rtc (pool_step place) (pool_start numThreads conns) p → p.(server) ≠ Starting →
  (∃ o, server_step place p = Ret o) ∧ (∀ i, ∃ o, handler_step i p = Ret o) ∧
  p.(pushed) ++ in_hand p.(server) ++ p.(arriving) = conns ∧
  p.(served) ++ (p.(handlers) ≫= busy) ≡ₚ p.(popped) ∧
  ∃ waiting, p.(pushed) = p.(popped) ++ waiting ∧ p.(queue).(q_size) = Z.of_nat (length waiting) ∧
    (waiting ≠ [] → Asleep ∉ p.(handlers)
      ∧ (p.(handlers) ≠ [] → ∃ p', server_step place p = Ret (Some p') ∨ ∃ i, handler_step i p = Ret (Some p'))).
Proof.
  intros Hp Hb Hr Hst.
  destruct (pool_started place numThreads conns p Hp Hb Hr) as [(m & ts & -> & _)|I]; [done|].
  split_and!.
  - by destruct (server_step_ok place conns Hp Hb p I) as (o & E & _); exists o.
  - intros i. by destruct (handler_step_ok conns Hb p i I) as (o & E & _); exists o.
  - apply (inv_order _ _ I).
  - apply (inv_once _ _ I).
  - pose proof I as [_ _ _ _ (xs & [_ Hs] & E & Hsl & _)]. exists xs.*2. rewrite length_fmap. split_and!; [done|done|].
    intros Hne. assert (Hx : xs ≠ []) by (by intros ->). split; [by apply Hsl|].
    intros Hh. apply (someone_goes_on place conns Hp Hb p I Hh). by apply Hsl.
Qed.

(** [init_thread_pool] initialises the queue after it has created the threads: a thread that is
    already in [wq_pop] has the mutex initialised under it. *)
Theorem pool_init_race place numThreads conns :
  (0 < numThreads)%nat →
  ∃ p, rtc (pool_step place) (pool_start numThreads conns) p ∧ server_step place p = Panic.
Proof.
  intros Hn. destruct numThreads as [|n]; [lia|].
  exists (Pool (WQ 0 NULL ∅) true Starting (InPop :: replicate n Popping) conns [] [] []). split; [|done].
  apply rtc_once. by apply (by_handler place _ _ O).
Qed.

(** ** An example: two handlers, three connections *)
Definition run_pool (place : items → Z) : list (option nat) → work_pool → res work_pool :=
  fix go acts p :=
    match acts with
    | [] => Ret p
    | a :: acts =>
      o ← match a with None => server_step place p | Some i => handler_step i p end;
      go acts (default p o)
    end.
Lemma run_pool_rtc place acts p p' : run_pool place acts p = Ret p' → rtc (pool_step place) p p'.
Proof.
  revert p. induction acts as [|a acts IH]; intros p H; cbn in H; [by injection H as <-|].
  apply bind_Ret_inv in H as (o & E & H). destruct o as [p1|]; [|by apply IH].
  eapply rtc_l; [|by apply IH]. destruct a as [i|]; [by apply (by_handler _ _ _ i)|by apply by_server].
Qed.
(** After [wq_init] the first handler goes to sleep, then two connections arrive. *)
Definition sample_acts : list (option nat) :=
  [None; Some O; Some O; None; None; None; None; None; None; Some O; Some 1; Some O; Some O]%nat.
Lemma pool_witness :
  ∃ p, rtc (pool_step after_all) (pool_start 2 [7; 8; 9]) p ∧ p.(popped) = [7]
    ∧ ∃ waiting, p.(pushed) = p.(popped) ++ waiting ∧ waiting = [8] ∧ Asleep ∉ p.(handlers).
Proof.
  destruct (run_pool after_all sample_acts (pool_start 2 [7; 8; 9])) as [p| |] eqn:E;
    [|vm_compute in E; discriminate..].
  pose proof (run_pool_rtc _ _ _ _ E) as Hr. exists p.
  assert (Hst : p.(server) ≠ Starting) by (vm_compute in E; injection E as <-; discriminate).
  destruct (pool_correct after_all 2 [7; 8; 9] p after_all_ok ltac:(cbn; lia) Hr Hst) as (_ & _ & _ & _ & w & Ew & _ & Hw).
  assert (Hpp : (p.(pushed), p.(popped)) = ([7; 8], [7])) by (vm_compute in E; injection E as <-; reflexivity).
  injection Hpp as H1 H2. split; [done|]. split; [done|]. exists w. rewrite H1, H2 in Ew.
  assert (w = [8]) as -> by (injection Ew; done). split_and!; [by rewrite H1, H2|done|].
  apply Hw. done.
Defined.
