(* ===== verification/CText.v ===== *)
(** * Texts and arrays of the C library (as the exercises outside the kernel use them)

    A text is the list of its characters, without the terminating null; a block of memory is the
    list of its cells, [None] where nothing was written yet. *)
From Stdlib Require Import (notations) Ascii String.
From S2P Require Import Prelude Stdio Sorting WordCount.

(** [strcmp (a, b) == 0]. *)
Definition text_is (a : list Z) (b : String.string) : bool := str_compare a (chars b) =? 0.

(** [memcpy (block + i, text, length)], within the block. *)
Definition store (b : buffer) (i : nat) (text : list Z) : res buffer :=
  if (i + length text <=? length b)%nat
  then Ret (take i b ++ (Some <$> text) ++ drop (i + length text) b) else Panic.

(** An array cell written, and one read. *)
Definition store_at {A} (b : list A) (i : nat) (x : A) : res (list A) :=
  if (i <? length b)%nat then Ret (<[i := x]> b) else Panic.
Definition read_at {A} (b : list A) (i : nat) : res A :=
  match b !! i with Some x => Ret x | None => Panic end.

(** [atoi]: blanks, a sign, digits.  The value is that of [strtol], which saturates at 64 bits, cut
    to an int. *)
Fixpoint digits_value (value : Z) (s : list Z) : Z :=
  match s with
  | c :: s => if isdigit c then digits_value (value * 10 + (c - 48)) s else value
  | [] => value
  end.
Fixpoint skip_blanks (s : list Z) : list Z :=
  match s with c :: s' => if isspace c then skip_blanks s' else s | [] => [] end.
Definition atoi_text (s : list Z) : Z :=
  let s := skip_blanks s in
  let '(negative, s) :=
    match s with
    | c :: s' => if c =? 45 then (true, s') else if c =? 43 then (false, s') else (false, s)
    | [] => (false, [])
    end in
  let v := digits_value 0 s in
  s32 (if (negative : bool) then Z.max (- 2 ^ 63) (- v) else Z.min (2 ^ 63 - 1) v).

(** ** Lemmas *)
Lemma text_is_spec a b : text_is a b = bool_decide (a = chars b).
Proof.
  unfold text_is. destruct (Z.eqb_spec (str_compare a (chars b)) 0) as [E|E].
  - symmetry. apply bool_decide_eq_true. by apply strcmp_zero.
  - symmetry. apply bool_decide_eq_false. intros ->. by apply E, strcmp_zero.
Qed.
Lemma store_holds b w chunk :
  block_holds b w → (length w + length chunk ≤ length b)%nat →
  ∃ b', store b (length w) chunk = Ret b' ∧ block_holds b' (w ++ chunk) ∧ length b' = length b.
Proof.
  intros [r ->] H. unfold store. rewrite length_app, length_fmap in *.
  destruct (Nat.leb_spec (length w + length chunk) (length w + length r)); [|lia].
  eexists. split; [done|]. split.
  - rewrite take_app_le by (rewrite length_fmap; lia). rewrite take_ge by (rewrite length_fmap; lia).
    exists (drop (length w + length chunk) ((Some <$> w) ++ r)). by rewrite fmap_app, <- app_assoc.
  - rewrite !length_app, length_take, length_drop, length_app, !length_fmap. lia.
Qed.
Lemma nonempty_length {A} (l : list A) : l ≠ [] → (length l =? 0)%nat = false.
Proof. by destruct l. Qed.
Lemma store_at_middle {A} (u : list A) x y v i :
  i = length u → store_at (u ++ x :: v) i y = Ret (u ++ y :: v).
Proof.
  intros ->. unfold store_at. rewrite length_app. cbn [length]. destruct (Nat.ltb_spec (length u) (length u + S (length v))); [|lia].
  f_equal. rewrite insert_app_r_alt, Nat.sub_diag by lia. done.
Qed.
Lemma read_at_middle {A} (u : list A) x v i : i = length u → read_at (u ++ x :: v) i = Ret x.
Proof. intros ->. unfold read_at. by rewrite list_lookup_middle. Qed.
Lemma atoi_text_s32 s : - 2147483648 ≤ atoi_text s < 2147483648.
Proof. unfold atoi_text. destruct (match skip_blanks s with [] => _ | _ => _ end). apply s32_bounds. Qed.
