(* ===== verification/Http.v ===== *)
(** * HTTP helpers of the web server (hw4/http_helper.c; [read_all] and [write_all] of server.c)

    Text is the list of its characters, without the terminating null.  What goes to the
    client, and what the server does with files, is a trace of events. *)
From Stdlib Require Import (notations) Ascii String.
From S2P Require Import Prelude Stdio WordCount CText.

(** ** Requests *)
Record http_request := Request { method : list Z; path : list Z }.
Definition LIBHTTP_REQUEST_MAX_SIZE : nat := Z.to_nat 8192.

(** A scan forward over characters that satisfy a test; it stops at the terminating null. *)
Fixpoint scan_while (f : Z → bool) (s : list Z) : list Z * list Z :=
  match s with
  | c :: s' => if negb (c =? 0) && f c then let '(a, b) := scan_while f s' in (c :: a, b) else ([], s)
  | [] => ([], [])
  end.
Definition peek_is (c : Z) (s : list Z) : bool := match s with d :: _ => d =? c | [] => false end.

(** The parse of the text in [read_buffer]. *)
Definition parse_request_line (buffer : list Z) : option http_request :=
  let '(m, rest) := scan_while (λ c, (chr "A" <=? c) && (c <=? chr "Z")) buffer in
  if (length m =? 0)%nat then None
  else if negb (peek_is 32 rest) then None
  else
    let '(p, rest) := scan_while (λ c, negb (c =? 32) && negb (c =? 10)) (tail rest) in
    if (length p =? 0)%nat then None
    else
      let '(_, rest) := scan_while (λ c, negb (c =? 10)) rest in
      if negb (peek_is 10 rest) then None else Some (Request m p).
(** [http_request_parse]: what [read] returns is an error ([None]) or at most as many bytes as
    asked for.  After an error the terminator is written in front of the block. *)
Definition http_request_parse (answer : option (list Z)) : res (option http_request) :=
  match answer with
  | None => Panic
  | Some bytes => Ret (parse_request_line (take LIBHTTP_REQUEST_MAX_SIZE bytes))
  end.

(** [http_start_request]. *)
Definition http_start_request (m p : list Z) : list Z := m ++ [32] ++ p ++ chars " HTTP/1.0" ++ [13; 10].

(** ** Responses *)
Definition http_get_response_message (status_code : Z) : list Z :=
  match status_code with
  | 100 => chars "Continue"
  | 200 => chars "OK"
  | 301 => chars "Moved Permanently"
  | 302 => chars "Found"
  | 304 => chars "Not Modified"
  | 400 => chars "Bad Request"
  | 401 => chars "Unauthorized"
  | 403 => chars "Forbidden"
  | 404 => chars "Not Found"
  | 405 => chars "Method Not Allowed"
  | 502 => chars "Bad Gateway"
  | _ => chars "Internal Server Error"
  end.
Definition http_start_response (status_code : Z) : list Z :=
  chars "HTTP/1.0 " ++ format_d status_code ++ [32] ++ http_get_response_message status_code ++ [13; 10].
Definition http_send_header (key value : list Z) : list Z := key ++ chars ": " ++ value ++ [13; 10].
Definition http_end_headers : list Z := [13; 10].

(** [snprintf (buffer, size, ...)] of a text: what the buffer then holds. *)
Definition snprintf_text (size : nat) (text : list Z) : list Z := take (size - 1) text.
Definition link_text (href name : list Z) : list Z :=
  chars "<a href=" ++ [34] ++ href ++ [34] ++ chars ">" ++ name ++ chars "</a><br/>".
Definition http_format_href (p filename : list Z) : list Z :=
  let length := (22 + length p + length filename * 2 + 1)%nat in
  snprintf_text length (link_text (chars "/" ++ p ++ chars "/" ++ filename) filename).
Definition http_format_index (p : list Z) : list Z :=
  let length := (length p + 11 + 1)%nat in
  snprintf_text length (p ++ chars "/index.html").

(** [strrchr (file_name, '.')]: the text from the last dot on. *)
Fixpoint last_dot (s : list Z) : option (list Z) :=
  match s with
  | [] => None
  | c :: s' =>
    match last_dot s' with
    | Some e => Some e
    | None => if c =? chr "." then Some s else None
    end
  end.
Definition http_get_mime_type (file_name : list Z) : list Z :=
  match last_dot file_name with
  | None => chars "text/plain"
  | Some e =>
    if text_is e ".html" || text_is e ".htm" then chars "text/html"
    else if text_is e ".jpg" || text_is e ".jpeg" then chars "image/jpeg"
    else if text_is e ".png" then chars "image/png"
    else if text_is e ".css" then chars "text/css"
    else if text_is e ".js" then chars "application/javascript"
    else if text_is e ".pdf" then chars "application/pdf"
    else chars "text/plain"
  end.

(** ** Reading and writing whole files *)
Definition INITIAL_BUFFER_SIZE : Z := 1024.

Section ReadAll.
(** Whether the [n]-th allocation succeeds. *)
Context (granted : nat → bool).

(** "If the buffer has become full, double the buffer size": [None] when that fails. *)
Definition grow (b : buffer) (bufferSize total : Z) (n : nat) : option (buffer * Z * nat) :=
  if total =? bufferSize then
    let bufferSize := s32 (bufferSize * 2) in
    if granted n then Some (b ++ replicate (Z.to_nat bufferSize - length b) None, bufferSize, S n) else None
  else Some (b, bufferSize, n).
(** The [do] loop: [rest] is what the file has left, each outcome of a [read] an error or the
    number of bytes it would give at most.  The block and the number of bytes read, or [None]
    after a failure. *)
Fixpoint read_all_loop (outcomes : list (option nat)) (rest : list Z) (b : buffer)
    (bufferSize total bytesRead : Z) (n : nat) : res (option (buffer * Z)) :=
  let total := s32 (total + bytesRead) in
  match grow b bufferSize total n with
  | None => Ret None
  | Some (b, bufferSize, n) =>
    let left := bufferSize - total in
    match outcomes with
    | [] => Stuck
    | None :: _ => Ret None
    | Some k :: outcomes =>
      let chunk := take k (take (Z.to_nat left) rest) in
      b ← store b (Z.to_nat total) chunk;
      if (0 <? length chunk)%nat
      then read_all_loop outcomes (drop (length chunk) rest) b bufferSize total (Z.of_nat (length chunk)) n
      else b ← put b (Z.to_nat total) 0; Ret (Some (b, total))
    end
  end.
(** The contents of [*bufferPtr] (null or a block) and the value returned.  The first block is
    used whether or not malloc succeeded. *)
Definition read_all (file : option (list Z)) (outcomes : list (option nat)) : res (option buffer * Z) :=
  match file with
  | None => Ret (None, 0)
  | Some content =>
    if negb (granted 0) then Panic else
    r ← read_all_loop outcomes content (replicate (Z.to_nat INITIAL_BUFFER_SIZE) None) INITIAL_BUFFER_SIZE 0 0 1;
    match r with
    | None => Ret (None, 0)
    | Some (b, total) => Ret (Some b, total)
    end
  end.
End ReadAll.

(** [write_all]: each outcome of a [write] is an error or the number of bytes it accepts at most.
    The bytes that go out, in order, and the value returned.  Every [write] starts at the
    beginning of the buffer. *)
Fixpoint write_all_loop (outcomes : list (option nat)) (text : list Z) (size total : Z) : res (list Z * Z) :=
  let left := size - total in
  match outcomes with
  | [] => Stuck
  | None :: _ => Ret ([], -1)
  | Some k :: outcomes =>
    let out := take k (take (Z.to_nat left) text) in
    let total := s32 (total + Z.of_nat (length out)) in
    if 0 <? size - total then '(more, r) ← write_all_loop outcomes text size total; Ret (out ++ more, r)
    else Ret (out, total)
  end.
Definition write_all (outcomes : list (option nat)) (text : list Z) (bufferSize : Z) : res (list Z * Z) :=
  if bufferSize <? 0 then Ret ([], 0) else write_all_loop outcomes text bufferSize 0.

(** ** Requests are parsed back *)
Lemma scan_while_app f w s :
  Forall (λ c, c ≠ 0 ∧ f c = true) w → (∀ c s', s = c :: s' → c = 0 ∨ f c = false) →
  scan_while f (w ++ s) = (w, s).
Proof.
  intros Hw Hs. induction Hw as [|c w [Hc Hf] _ IH]; cbn.
  - destruct s as [|c s']; [done|]. cbn. destruct (Hs c s' eq_refl) as [->|Hf]; [done|]. by rewrite Hf, andb_false_r.
  - apply Z.eqb_neq in Hc. by rewrite Hc, Hf, IH.
Qed.
Lemma scan_while_split f s :
  s = (scan_while f s).1 ++ (scan_while f s).2 ∧ Forall (λ c, c ≠ 0 ∧ f c = true) (scan_while f s).1.
Proof.
  induction s as [|c s [IH1 IH2]]; [done|]. cbn. destruct (Z.eqb_spec c 0); cbn; [done|].
  destruct (f c) eqn:Ef; [|done]. destruct (scan_while f s) as [a b]. cbn in *. split; [by rewrite IH1 at 1|by constructor].
Qed.
(** The characters of a method and of a path. *)
Definition method_ok (m : list Z) : Prop := m ≠ [] ∧ Forall (λ c, 65 ≤ c ≤ 90) m.
Definition path_ok (p : list Z) : Prop := p ≠ [] ∧ Forall (λ c, c ≠ 0 ∧ c ≠ 32 ∧ c ≠ 10) p.

Lemma parse_request_line_ok m p version more :
  method_ok m → path_ok p → Forall (λ c, c ≠ 0 ∧ c ≠ 10) version →
  parse_request_line (m ++ [32] ++ p ++ [32] ++ version ++ [10] ++ more) = Some (Request m p).
Proof.
  intros [Hm0 Hm] [Hp0 Hp] Hv. unfold parse_request_line.
  rewrite scan_while_app; [| |by intros c s' [= <- _]; right].
  2: { eapply Forall_impl; [exact Hm|]. intros c Hc. cbv beta in *. change (chr "A") with 65. change (chr "Z") with 90. lia. }
  rewrite (nonempty_length _ Hm0). cbn [app peek_is tail Z.eqb Pos.eqb negb].
  change (p ++ 32 :: version ++ 10 :: more) with (p ++ (32 :: version ++ 10 :: more)).
  rewrite scan_while_app; [| |by intros c s' [= <- _]; right].
  2: { eapply Forall_impl; [exact Hp|]. intros c Hc. cbv beta in *. lia. }
  rewrite (nonempty_length _ Hp0).
  change (32 :: version ++ 10 :: more) with ((32 :: version) ++ 10 :: more).
  rewrite scan_while_app; [done| |by intros c s' [= <- _]; right].
  constructor; [done|]. eapply Forall_impl; [exact Hv|]. intros c Hc. cbv beta in *. lia.
Qed.

(** What [http_start_request] sends is parsed back. *)
Lemma request_parsed m p more :
  method_ok m → path_ok p → (length m + length p + 12 ≤ LIBHTTP_REQUEST_MAX_SIZE)%nat →
  http_request_parse (Some (http_start_request m p ++ more)) = Ret (Some (Request m p)).
Proof.
  intros Hm Hp. unfold http_request_parse. generalize LIBHTTP_REQUEST_MAX_SIZE. intros max Hl. f_equal.
  assert (Hlen : length (http_start_request m p) = (length m + length p + 12)%nat).
  { unfold http_start_request. rewrite !length_app. cbn. lia. }
  rewrite take_app_ge by lia. set (more' := take _ more). unfold http_start_request. rewrite <- !app_assoc.
  exact (parse_request_line_ok m p (chars "HTTP/1.0" ++ [13]) more' Hm Hp ltac:(by repeat constructor)).
Qed.
(** A request line is parsed back: what [http_start_request] sends, followed by any headers,
    gives the same method and path. *)
Theorem request_roundtrip m p more :
  method_ok m → path_ok p → (length m + length p + 12 ≤ LIBHTTP_REQUEST_MAX_SIZE)%nat →
  http_request_parse (Some (http_start_request m p ++ more)) = Ret (Some (Request m p)).
Proof. apply request_parsed. Qed.
Lemma request_roundtrip_witness :
  http_request_parse (Some (http_start_request (chars "GET") (chars "/index.html") ++ chars "Host: x"))
  = Ret (Some (Request (chars "GET") (chars "/index.html"))).
Proof.
  apply (request_roundtrip (chars "GET") (chars "/index.html") (chars "Host: x"));
    [by split; [|repeat constructor]|by split; [|repeat constructor]|vm_compute; lia].
Defined.
(** What is parsed has a method of capitals and a path without blanks and line ends. *)
Lemma parse_request_line_sound buffer r :
  parse_request_line buffer = Some r → method_ok r.(method) ∧ path_ok r.(path).
Proof.
  unfold parse_request_line. destruct (scan_while_split (λ c, (chr "A" <=? c) && (c <=? chr "Z")) buffer) as [_ Hm].
  destruct (scan_while _ buffer) as [m rest]. cbn in Hm. destruct (Nat.eqb_spec (length m) 0) as [|Hm0]; [done|].
  destruct (negb (peek_is 32 rest)); [done|].
  destruct (scan_while_split (λ c, negb (c =? 32) && negb (c =? 10)) (tail rest)) as [_ Hp].
  destruct (scan_while _ (tail rest)) as [p rest2]. cbn in Hp. destruct (Nat.eqb_spec (length p) 0) as [|Hp0]; [done|].
  destruct (scan_while _ rest2) as [x rest3]. destruct (negb (peek_is 10 rest3)); [done|]. intros [= <-].
  unfold method_ok, path_ok. cbn [method path]. split; (split; [by destruct m, p|]).
  - eapply Forall_impl; [exact Hm|]. intros c [_ Hc]. cbv beta in Hc. change (chr "A") with 65 in Hc. change (chr "Z") with 90 in Hc. lia.
  - eapply Forall_impl; [exact Hp|]. intros c [Hc0 Hc]. cbv beta in Hc. lia.
Qed.

(** ** The formatted texts fit *)
Lemma http_format_href_whole p f :
  http_format_href p f = link_text (chars "/" ++ p ++ chars "/" ++ f) f.
Proof.
  unfold http_format_href, snprintf_text, link_text. apply take_ge. rewrite !length_app. cbn. lia.
Qed.
Lemma http_format_index_whole p : http_format_index p = p ++ chars "/index.html".
Proof. unfold http_format_index, snprintf_text. apply take_ge. rewrite !length_app. cbn. lia. Qed.

(** ** Whole files are read *)
Section ReadAllSpec.
Context (granted : nat → bool).

(** What a call of [read_all] leaves: the file in the block with a terminator behind it. *)
Definition read_whole (content : list Z) (r : option (buffer * Z)) : Prop :=
  match r with
  | None => True
  | Some (b, total) => block_holds b (content ++ [0]) ∧ total = Z.of_nat (length content)
  end.

Lemma grow_ok b w size n :
  block_holds b w → size = Z.of_nat (length b) → 1 ≤ size < 1073741824 ∨ Z.of_nat (length w) < size →
  match grow granted b size (Z.of_nat (length w)) n with
  | None => ∃ k, granted k = false
  | Some (b', size', _) => block_holds b' w ∧ size' = Z.of_nat (length b') ∧ Z.of_nat (length w) < size'
  end.
Proof.
  intros Hb Hs H1. pose proof (holds_length _ _ Hb) as Hl. unfold grow.
  destruct (Z.eqb_spec (Z.of_nat (length w)) size) as [Hf|Hf]; [|split_and!; [done|done|lia]].
  destruct (granted n) eqn:Hg; [|by exists n]. rewrite s32_small by lia.
  split_and!; [by apply holds_app|rewrite length_app, length_replicate; lia|lia].
Qed.
(** The bytes a [read] gives come off the front of the file. *)
Lemma chunk_front (k : nat) (rest : list Z) (m : nat) :
  let chunk := take k (take m rest) in rest = chunk ++ drop (length chunk) rest.
Proof.
  cbn. rewrite take_take, length_take. set (j := (k `min` m)%nat).
  destruct (decide (j ≤ length rest)%nat); [rewrite Nat.min_l by done; by rewrite take_drop|].
  rewrite (take_ge rest j), Nat.min_r, drop_all, app_nil_r by lia. done.
Qed.
Lemma chunk_empty (k : nat) (rest : list Z) (m : nat) :
  k ≠ O → (0 < m)%nat → length (take k (take m rest)) = O → rest = [].
Proof. intros Hk Hm. rewrite !length_take. destruct rest; [done|]. cbn. lia. Qed.

Lemma read_all_loop_ok content : Z.of_nat (length content) < 1073741824 →
  ∀ outcomes front rest b size total bytesRead n,
  content = front ++ rest → block_holds b front → size = Z.of_nat (length b) → 1 ≤ size →
  total + bytesRead = Z.of_nat (length front) → Forall (λ o, o ≠ Some O) outcomes →
  (∃ r, read_all_loop granted outcomes rest b size total bytesRead n = Ret r ∧ read_whole content r
    ∧ (r = None → (∃ k, granted k = false) ∨ None ∈ outcomes))
  ∨ (read_all_loop granted outcomes rest b size total bytesRead n = Stuck ∧ (length outcomes ≤ length rest)%nat).
Proof.
  intros Hsmall. induction outcomes as [|o outcomes IH]; intros front rest b size total br n Hc Hb Hsz H1 Ht Ho;
    assert (Hfr : (length front + length rest = length content)%nat) by (rewrite Hc, length_app; lia);
    cbn [read_all_loop]; rewrite Ht, (s32_small (Z.of_nat (length front))) by lia;
    pose proof (grow_ok b front size n Hb Hsz ltac:(pose proof (holds_length _ _ Hb); lia)) as Hg;
    (destruct (grow granted b size (Z.of_nat (length front)) n) as [[[b2 size2] n2]|]; [|left; exists None; by split_and!; [| |left]]).
  { right. split; [done|cbn; lia]. }
  destruct Hg as (Hb2 & Hs2 & Hlt). destruct o as [k|]; [|left; exists None; split_and!; [done|done|intros _; right; left]].
  apply Forall_cons in Ho as [Hk Ho]. pose proof (chunk_front k rest (Z.to_nat (size2 - Z.of_nat (length front)))) as Hrest.
  pose proof (chunk_empty k rest (Z.to_nat (size2 - Z.of_nat (length front)))) as Hemp.
  set (chunk := take k _) in *. cbn zeta in Hrest. rewrite Nat2Z.id.
  assert (Hck : (length front + length chunk ≤ length b2)%nat) by (unfold chunk; rewrite !length_take; lia).
  destruct (store_holds b2 front chunk Hb2 Hck) as (b3 & -> & Hb3 & Hl3). cbn [mbind res_bind].
  destruct (Nat.ltb_spec 0 (length chunk)) as [Hpos|Hzero].
  - destruct (IH (front ++ chunk) (drop (length chunk) rest) b3 size2 (Z.of_nat (length front)) (Z.of_nat (length chunk)) n2)
      as [(r & E & Hr & Hn)|[E Hn]];
      [by rewrite <- app_assoc, <- Hrest|done|lia|lia|rewrite length_app; lia|done| |].
    + left. exists r. split_and!; [done|done|]. intros Hr0. destruct (Hn Hr0); [by left|right; by right].
    + right. split; [done|]. rewrite length_drop in Hn. assert (length chunk ≤ length rest)%nat; [|cbn; lia].
      rewrite Hrest, length_app. lia.
  - assert (rest = []) as -> by (apply Hemp; [by intros ->|lia|lia]).
    assert (length chunk = O) as Hz by lia. apply nil_length_inv in Hz. rewrite Hz, app_nil_r in *.
    rewrite put_ok by lia. cbn [mbind res_bind]. left. eexists. split_and!; [done| |done]. subst front.
    split; [|done]. apply holds_put; [done|lia].
Qed.

(** [read_all] reads the whole file whatever the sizes of the pieces it comes in, within its
    block; a failed [read] or allocation gives 0. *)
Theorem read_all_correct content outcomes :
  granted O = true → Z.of_nat (length content) < 1073741824 → Forall (λ o, o ≠ Some O) outcomes →
  (length content < length outcomes)%nat →
  ∃ r, read_all granted (Some content) outcomes = Ret r ∧
    ((∃ b, r = (Some b, Z.of_nat (length content)) ∧ block_holds b (content ++ [0]))
     ∨ r = (None, 0) ∧ ((∃ k, granted k = false) ∨ None ∈ outcomes)).
Proof.
  intros Hg Hs Ho Hl. unfold read_all. rewrite Hg. cbn [negb].
  destruct (read_all_loop_ok content Hs outcomes [] content (replicate (Z.to_nat INITIAL_BUFFER_SIZE) None)
    INITIAL_BUFFER_SIZE 0 0 1) as [(r & -> & Hr & Hn)|[_ ?]]; try done; [by eexists| |lia].
  cbn [mbind res_bind]. destruct r as [[b t]|].
  - eexists. split; [done|]. left. destruct Hr as [Hb ->]. by exists b.
  - eexists. split; [done|]. right. auto.
Qed.
End ReadAllSpec.

(** ** Writing *)
Lemma write_all_whole k outcomes text :
  Z.of_nat (length text) < 2147483648 → (length text ≤ k)%nat →
  write_all (Some k :: outcomes) text (Z.of_nat (length text)) = Ret (text, Z.of_nat (length text)).
Proof.
  intros Hs Hk. unfold write_all. destruct (Z.ltb_spec (Z.of_nat (length text)) 0); [lia|]. cbn [write_all_loop].
  rewrite Z.sub_0_r, Nat2Z.id, (take_ge text) by lia. rewrite take_ge, Z.add_0_l, s32_small by lia.
  by destruct (Z.ltb_spec 0 (Z.of_nat (length text) - Z.of_nat (length text))); [lia|].
Qed.
(** A [write] that accepts part of the buffer makes the next one start over: the beginning goes
    out twice and the end is never sent, and the length returned says all is well. *)
Theorem write_all_starts_over k outcomes text :
  Z.of_nat (length text) < 2147483648 → (0 < k < length text)%nat →
  write_all (Some k :: Some (length text) :: outcomes) text (Z.of_nat (length text))
  = Ret (take k text ++ take (length text - k) text, Z.of_nat (length text)).
Proof.
  intros Hs Hk. unfold write_all. destruct (Z.ltb_spec (Z.of_nat (length text)) 0); [lia|]. cbn [write_all_loop].
  rewrite Z.sub_0_r, Nat2Z.id, (take_ge text (length text)) by lia. rewrite length_take, Nat.min_l, Z.add_0_l, s32_small by lia.
  destruct (Z.ltb_spec 0 (Z.of_nat (length text) - Z.of_nat k)); [|lia].
  rewrite (take_ge _ (length text)) by (rewrite length_take; lia). rewrite length_take.
  rewrite Nat.min_l by lia. rewrite s32_small by lia.
  destruct (Z.ltb_spec 0 (Z.of_nat (length text) - (Z.of_nat k + Z.of_nat (Z.to_nat (Z.of_nat (length text) - Z.of_nat k)))));
    [lia|]. cbn [mbind res_bind]. do 3 f_equal; [f_equal; lia|lia].
Qed.
