(* ===== verification/Server.v ===== *)
(** * The web server's request handlers (hw4/server.c)

    A handler is a function from what the system answers to the trace of what the server does:
    the bytes it sends, the paths it looks at, and the end of the connection.  The file system
    is a parameter. *)
From Stdlib Require Import (notations) Ascii String.
From S2P Require Import Prelude Stdio WordCount WordList CText Http.

Inductive event :=
| Sent (bytes : list Z)
| Stat (p : list Z)
| Open (p : list Z)
| OpenDir (p : list Z)
| Shutdown
| Close.

#[export] Instance event_eq_dec : EqDecision event.
Proof. solve_decision. Defined.

(** What [stat] says of a path. *)
Inductive file_kind := Regular | Dir | Other.

(** The system as a request finds it: [stat], the contents of a file that can be opened, the
    names in a directory that can be opened and whether reading them ends in an error, what
    the [read]s of a file and the [write]s to the client answer, and whether the [n]-th
    allocation succeeds. *)
Record site := Site {
  stat : list Z → option file_kind;
  content : list Z → option (list Z);
  names : list Z → option (list (list Z) * bool);
  reads : list Z → list (option nat);
  writes : list (option nat);
  granted : nat → bool;
  SERVER_FILE_PATH : list Z;
}.

(** ** Responses *)
Definition close_socket : list event := [Shutdown; Close].
Definition send_failure_response (httpCode : Z) : list event :=
  [Sent (http_start_response httpCode);
   Sent (http_send_header (chars "Content-Type") (chars "text/html"));
   Sent http_end_headers] ++ close_socket.
(** The status line and headers of a successful response. *)
Definition send_headers (mime : list Z) (bufferSize : Z) : list event :=
  [Sent (http_start_response 200);
   Sent (http_send_header (chars "Content-Type") mime);
   Sent (http_send_header (chars "Content-Length") (format_d bufferSize));
   Sent http_end_headers].

(** The bytes of a block that were written. *)
Definition block_bytes (b : buffer) (n : Z) : list Z := take (Z.to_nat n) (default 0 <$> b).

(** [serve_file], whose allocations start with the [n]-th. *)
Definition serve_file (w : site) (n : nat) (p : list Z) : res (list event) :=
  '(buffer, bufferSize) ← read_all (λ k, w.(granted) (n + k)%nat) (w.(content) p) (w.(reads) p);
  if bufferSize =? 0 then Ret (Open p :: send_failure_response 500)
  else
    let text := block_bytes (default [] buffer) bufferSize in
    '(out, _) ← write_all w.(writes) text bufferSize;
    Ret (Open p :: send_headers (http_get_mime_type p) bufferSize ++ [Sent out]).

(** The line for a directory entry; [None] for an entry that is skipped. *)
Definition entry_line (w : site) (p name : list Z) : option (list Z) :=
  if text_is name ".." then
    if text_is p "./www/my_documents" || text_is p "./my_documents" then
      if text_is w.(SERVER_FILE_PATH) "." then Some (link_text (chars "/www") name ++ [13; 10])
      else if text_is w.(SERVER_FILE_PATH) "./www" then Some (link_text (chars "/") name ++ [13; 10])
      else Some []
    else None
  else Some (link_text (tail p ++ chars "/" ++ name) name ++ [13; 10]).

Section Directory.
Context (w : site) (p : list Z).

(** The loop over the entries: the block and the number of bytes in it, or [None] after a
    failure. *)
Fixpoint entries_loop (entries : list (list Z)) (error : bool) (b : buffer) (bufferSize total : Z) (n : nat)
    : res (option (buffer * Z)) :=
  match entries with
  | [] =>
    if error then Ret None
    else b ← put b (Z.to_nat total) 0; Ret (Some (b, total))
  | name :: entries =>
    match entry_line w p name with
    | None => entries_loop entries error b bufferSize total n
    | Some line =>
      let lineLength := Z.of_nat (length line) in
      if INITIAL_BUFFER_SIZE <=? lineLength then Ret None
      else
        let full := bufferSize - total <? lineLength + 1 in
        let bufferSize := if full then s32 (bufferSize * 2) else bufferSize in
        if full && negb (w.(granted) n) then Ret None else
        let b := if full then b ++ replicate (Z.to_nat bufferSize - length b) None else b in
        b ← store b (Z.to_nat total) line;
        entries_loop entries error b bufferSize (s32 (total + lineLength)) (if full then S n else n)
    end
  end.
(** [serve_directory]: the two blocks and the directory are used whether or not the calls that
    made them succeeded. *)
Definition serve_directory (n : nat) : res (list event) :=
  match w.(granted) n && w.(granted) (S n), w.(names) p with
  | true, Some (entries, error) =>
    r ← entries_loop entries error (replicate (Z.to_nat INITIAL_BUFFER_SIZE) None) INITIAL_BUFFER_SIZE 0 (S (S n));
    match r with
    | None => Ret (OpenDir p :: send_failure_response 500)
    | Some (b, total) =>
      '(out, _) ← write_all w.(writes) (block_bytes b total) total;
      Ret (OpenDir p :: send_headers (http_get_mime_type (chars ".html")) total ++ [Sent out])
    end
  | _, _ => Panic
  end.
End Directory.

(** ** Requests for files *)
(** [strstr (path, "..") != NULL]. *)
Fixpoint has_dotdot (p : list Z) : bool :=
  match p with
  | [] => false
  | c :: p' => (c =? chr ".") && peek_is (chr ".") p' || has_dotdot p'
  end.
(** The relative path of a request: without a trailing slash, with a dot in front. *)
Definition relative_path (p : list Z) : list Z :=
  chr "." :: (match last p with Some 47 => removelast p | _ => p end).

(** What the client gets for a valid path and the method GET; [n] allocations were made. *)
Definition serve_path (w : site) (n : nat) (p : list Z) : res (list event) :=
  match w.(stat) p with
  | None => Ret (Stat p :: send_failure_response 404)
  | Some Dir =>
    if negb (w.(granted) n) then Panic else
    let indexFilePath := p ++ chars "/index.html" in
    tr ← match w.(stat) indexFilePath with
         | Some Regular => serve_file w (S n) indexFilePath
         | _ => serve_directory w p (S n)
         end;
    Ret (Stat p :: Stat indexFilePath :: tr)
  | Some Regular => tr ← serve_file w n p; Ret (Stat p :: tr)
  | Some Other => Ret (Stat p :: send_failure_response 404)
  end.
(** [handle_files_request]; [answer] is what the [read] of the request gives. *)
Definition handle_files_request (w : site) (answer : option (list Z)) : res (list event) :=
  request ← http_request_parse answer;
  match request with
  | None => Ret (send_failure_response 400)
  | Some r =>
    if negb (peek_is (chr "/") r.(path)) then Ret (send_failure_response 400)
    else if has_dotdot r.(path) then Ret (send_failure_response 403)
    else if negb (w.(granted) 0) then Panic
    else
      let p := relative_path r.(path) in
      tr ← (if negb (text_is r.(method) "GET") then Ret (send_failure_response 405) else serve_path w 1 p);
      Ret (tr ++ close_socket)
  end.

(** ** The server stays inside its directory *)
(** The components of a path, and whether following them from a directory leaves it. *)
Fixpoint components (cur p : list Z) : list (list Z) :=
  match p with
  | [] => [cur]
  | c :: p => if c =? chr "/" then cur :: components [] p else components (cur ++ [c]) p
  end.
Fixpoint stays (depth : nat) (cs : list (list Z)) : bool :=
  match cs with
  | [] => true
  | c :: cs =>
    if bool_decide (c = [] ∨ c = chars ".") then stays depth cs
    else if bool_decide (c = chars "..") then match depth with O => false | S d => stays d cs end
    else stays (S depth) cs
  end.
Definition inside (p : list Z) : Prop := peek_is (chr "/") p = false ∧ stays 0 (components [] p) = true.

Lemma stays_no_dotdot cs : ∀ d, chars ".." ∉ cs → stays d cs = true.
Proof.
  induction cs as [|c cs IH]; intros d H; [done|]. apply not_elem_of_cons in H as [Hc H]. cbn [stays].
  case_bool_decide; [by apply IH|]. rewrite (bool_decide_eq_false_2 (c = chars "..")) by (by intros ->). by apply IH.
Qed.
Lemma has_dotdot_app a b : has_dotdot (a ++ chars ".." ++ b) = true.
Proof. induction a as [|c a IH]; [done|]. cbn [app has_dotdot]. rewrite IH. by rewrite orb_true_r. Qed.
Lemma component_in p : ∀ cur c, c ∈ components cur p → ∃ a b, cur ++ p = a ++ c ++ b.
Proof.
  induction p as [|d p IH]; intros cur c H; cbn in H.
  { apply list_elem_of_singleton in H as ->. exists [], []. by rewrite app_nil_r. }
  destruct (Z.eqb_spec d (chr "/")).
  - apply elem_of_cons in H as [->|H]; [exists [], (d :: p); done|].
    destruct (IH [] c H) as (a & b & E). exists (cur ++ d :: a), b. rewrite <- app_assoc. cbn in *. by rewrite E.
  - destruct (IH _ c H) as (a & b & E). exists a, b. by rewrite <- app_assoc in E.
Qed.
Lemma inside_no_dotdot p : peek_is (chr "/") p = false → has_dotdot p = false → inside p.
Proof.
  intros Hp Hd. split; [done|]. apply stays_no_dotdot. intros (a & b & E)%component_in. cbn [app] in E.
  by rewrite E, has_dotdot_app in Hd.
Qed.
(** Joining texts at a slash makes no dots. *)
Lemma has_dotdot_slash a b :
  has_dotdot a = false → has_dotdot b = false → peek_is (chr ".") b = false → has_dotdot (a ++ b) = false.
Proof.
  intros Ha Hb Hp. induction a as [|c a IH]; [done|]. cbn [app has_dotdot] in *.
  apply orb_false_iff in Ha as [H1 H2]. rewrite IH by done. rewrite orb_false_r.
  destruct a as [|d a]; cbn [app]; [|exact H1]. rewrite Hp. apply andb_false_r.
Qed.
Lemma has_dotdot_removelast p : has_dotdot p = false → has_dotdot (removelast p) = false.
Proof.
  induction p as [|c p IH]; [done|]. cbn [has_dotdot]. intros [H1 H2]%orb_false_iff. destruct p as [|d p]; [done|].
  change (removelast (c :: d :: p)) with (c :: removelast (d :: p)). cbn [has_dotdot]. rewrite (IH H2), orb_false_r.
  destruct p as [|e p]; [by rewrite andb_false_r|]. exact H1.
Qed.
Lemma relative_path_ok p :
  peek_is (chr "/") p = true → has_dotdot p = false →
  has_dotdot (relative_path p) = false ∧ peek_is (chr "/") (relative_path p) = false.
Proof.
  intros Hp Hd. split; [|done]. unfold relative_path. set (q := match last p with Some 47 => _ | _ => p end).
  assert (Hq : has_dotdot q = false ∧ peek_is (chr ".") q = false).
  { assert (Hpd : peek_is (chr ".") p = false ∧ peek_is (chr ".") (removelast p) = false).
    { destruct p as [|c p]; [done|]. cbn in Hp. apply Z.eqb_eq in Hp as ->. split; [done|]. by destruct p. }
    unfold q. destruct (last p) as [z|]; [|tauto].
    pose proof (has_dotdot_removelast p Hd). repeat case_match; tauto. }
  destruct Hq as [Hq Hqp]. cbn [has_dotdot]. rewrite Hq, Hqp. done.
Qed.

(** The paths an event looks at. *)
Definition looks_at (e : event) : list (list Z) := match e with Stat p | Open p | OpenDir p => [p] | _ => [] end.
Definition confined (tr : list event) : Prop := Forall (λ e, Forall inside (looks_at e)) tr.

Lemma confined_failure code : confined (send_failure_response code).
Proof. by repeat constructor. Qed.
Lemma confined_cons e tr : confined (e :: tr) ↔ Forall inside (looks_at e) ∧ confined tr.
Proof. unfold confined. by rewrite Forall_cons. Qed.
Lemma serve_file_confined w n p tr : inside p → serve_file w n p = Ret tr → confined tr.
Proof.
  intros Hp H. unfold serve_file in H. apply bind_Ret_inv in H as ([b size] & _ & H).
  destruct (size =? 0); [injection H as <-; apply confined_cons; split; [by constructor|apply confined_failure]|].
  apply bind_Ret_inv in H as ([out r] & _ & H). injection H as <-. apply confined_cons. split; [by constructor|].
  by repeat constructor.
Qed.
Lemma serve_directory_confined w n p tr : inside p → serve_directory w p n = Ret tr → confined tr.
Proof.
  intros Hp H. unfold serve_directory in H. destruct (_ && _); [|done]. destruct (w.(names) p) as [[es err]|]; [|done].
  apply bind_Ret_inv in H as ([[b t]|] & _ & H).
  - apply bind_Ret_inv in H as ([out r] & _ & H). injection H as <-. apply confined_cons. split; [by constructor|].
    by repeat constructor.
  - injection H as <-. apply confined_cons. split; [by constructor|apply confined_failure].
Qed.
Lemma serve_path_confined w n p tr :
  has_dotdot p = false → peek_is (chr "/") p = false → p ≠ [] → serve_path w n p = Ret tr → confined tr.
Proof.
  intros Hd Hp Hne H. pose proof (inside_no_dotdot p Hp Hd) as Hi.
  assert (Hx : inside (p ++ chars "/index.html")).
  { apply inside_no_dotdot; [by destruct p|]. by apply has_dotdot_slash. }
  unfold serve_path in H. destruct (w.(stat) p) as [[| |]|].
  - apply bind_Ret_inv in H as (tr' & E & H). injection H as <-. apply confined_cons. split; [by constructor|].
    by apply (serve_file_confined w n p).
  - destruct (negb _); [done|]. apply bind_Ret_inv in H as (tr' & E & H). injection H as <-.
    apply confined_cons. split; [by constructor|]. apply confined_cons. split; [by constructor|].
    destruct (w.(stat) (p ++ chars "/index.html")) as [[| |]|]; first [exact (serve_file_confined _ _ _ _ Hx E)|exact (serve_directory_confined _ _ _ _ Hi E)].
  - injection H as <-. apply confined_cons. split; [by constructor|apply confined_failure].
  - injection H as <-. apply confined_cons. split; [by constructor|apply confined_failure].
Qed.

(** C26: No request makes the server look outside its directory: whatever bytes a client sends and
    whatever the file system holds, every path that is looked up, opened or listed by a request that
    is handled to its end is relative and, followed component by component, never climbs above the
    directory served.  (The server crashes when a directory cannot be opened or its buffer not
    allocated; that is no run to the end.) *)
Theorem files_request_confined w answer tr p :
  handle_files_request w answer = Ret tr → p ∈ tr ≫= looks_at → inside p.
Proof.
  intros H Hin. assert (Hc : confined tr).
  { unfold handle_files_request in H. apply bind_Ret_inv in H as ([r|] & _ & H);
      [|injection H as <-; apply confined_failure].
    destruct (peek_is (chr "/") r.(path)) eqn:Hp; cbn [negb] in H; [|injection H as <-; apply confined_failure].
    destruct (has_dotdot r.(path)) eqn:Hd; [injection H as <-; apply confined_failure|].
    destruct (negb (w.(granted) 0)); [done|]. apply bind_Ret_inv in H as (tr' & E & H). injection H as <-.
    apply Forall_app. split; [|by repeat constructor].
    destruct (negb _); [injection E as <-; apply confined_failure|].
    destruct (relative_path_ok _ Hp Hd). by eapply serve_path_confined. }
  apply list_elem_of_bind in Hin as (e & He & Hin). unfold confined in Hc. rewrite Forall_forall in Hc.
  specialize (Hc e Hin). rewrite Forall_forall in Hc. by apply Hc.
Qed.

(** A site with one page, for the examples. *)
Definition demo_site : site :=
  Site (λ p, if bool_decide (p = chars "./a") then Some Regular else None)
       (λ p, if bool_decide (p = chars "./a") then Some (chars "hello") else None)
       (λ _, None) (λ _, replicate 6 (Some 2%nat)) [Some 9%nat] (λ _, true) (chars ".").
Definition demo_request : list Z := http_start_request (chars "GET") (chars "/a").

Lemma files_request_confined_witness : inside (chars "./a").
Proof.
  apply (files_request_confined demo_site (Some demo_request)
    ([Stat (chars "./a"); Open (chars "./a")] ++ send_headers (chars "text/plain") 5 ++ [Sent (chars "hello")] ++ close_socket));
    [vm_compute; reflexivity|left].
Defined.

(** ** Files are served whole *)
Lemma block_bytes_holds b text more :
  block_holds b (text ++ more) → block_bytes b (Z.of_nat (length text)) = text.
Proof.
  intros [r ->]. unfold block_bytes. rewrite Nat2Z.id, !fmap_app, <- app_assoc, take_app_le by (by rewrite !length_fmap).
  rewrite take_ge by (by rewrite !length_fmap). induction text as [|c t IH]; [done|]. cbn. by f_equal.
Qed.
Lemma serve_file_whole w n p text k ks :
  w.(content) p = Some text → text ≠ [] → Z.of_nat (length text) < 1073741824 →
  (∀ i, w.(granted) i = true) → Forall (λ o, o ≠ Some O ∧ o ≠ None) (w.(reads) p) →
  (length text < length (w.(reads) p))%nat → w.(writes) = Some k :: ks → (length text ≤ k)%nat →
  serve_file w n p
  = Ret (Open p :: send_headers (http_get_mime_type p) (Z.of_nat (length text)) ++ [Sent text]).
Proof.
  intros Hc Hne Hs Hg Hr Hl Hw Hk. unfold serve_file. rewrite Hc.
  destruct (read_all_correct (λ k, w.(granted) (n + k)%nat) text (w.(reads) p)) as (r & -> & H);
    [apply Hg|done|eapply Forall_impl; [exact Hr|by intros ? []]|done|].
  cbn [mbind res_bind]. destruct H as [(b & -> & Hb)|(-> & [[j Hj]|Hn])].
  - destruct (Z.eqb_spec (Z.of_nat (length text)) 0) as [E|_]; [by destruct text|]. cbn [default id].
    rewrite (block_bytes_holds b text [0] Hb), Hw, write_all_whole by (done || lia). done.
  - by rewrite Hg in Hj.
  - rewrite Forall_forall in Hr. by destruct (Hr None Hn).
Qed.

(** A GET of a regular file is answered with the status line, its type and length, the whole
    file and one close of the connection, whatever the sizes of the pieces it is read in, when
    the allocations succeed and the socket takes the body in one [write]. *)
Theorem get_file_served w p more text k ks :
  let q := relative_path p in
  path_ok p → peek_is (chr "/") p = true → has_dotdot p = false →
  (length p + 15 ≤ LIBHTTP_REQUEST_MAX_SIZE)%nat →
  w.(stat) q = Some Regular → w.(content) q = Some text → text ≠ [] → Z.of_nat (length text) < 1073741824 →
  (∀ i, w.(granted) i = true) → Forall (λ o, o ≠ Some O ∧ o ≠ None) (w.(reads) q) →
  (length text < length (w.(reads) q))%nat → w.(writes) = Some k :: ks → (length text ≤ k)%nat →
  handle_files_request w (Some (http_start_request (chars "GET") p ++ more))
  = Ret ([Stat q; Open q] ++ send_headers (http_get_mime_type q) (Z.of_nat (length text))
         ++ [Sent text] ++ close_socket).
Proof.
  intros q Hp Hslash Hdot Hl Hst Hc Hne Hs Hg Hr Hlr Hw Hk. unfold handle_files_request.
  rewrite request_parsed; [|by split; [|repeat constructor]|done|change (length (chars "GET")) with 3%nat; lia].
  cbn [mbind res_bind path method]. rewrite Hslash, Hdot, Hg. cbn [negb].
  change (negb (text_is (chars "GET") "GET")) with false. cbv iota. unfold serve_path. fold q. rewrite Hst.
  rewrite (serve_file_whole w 1 q text k ks) by done. cbn [mbind res_bind app]. by rewrite <- !app_assoc.
Qed.
Lemma get_file_served_witness :
  handle_files_request demo_site (Some demo_request)
  = Ret ([Stat (chars "./a"); Open (chars "./a")] ++ send_headers (chars "text/plain") 5 ++ [Sent (chars "hello")] ++ close_socket).
Proof.
  unfold demo_request. rewrite <- (app_nil_r (http_start_request _ _)).
  apply (get_file_served demo_site (chars "/a") [] (chars "hello") 9 []);
    try (vm_compute; reflexivity); [by split; [|repeat constructor]|vm_compute; lia|done|by repeat constructor|vm_compute; lia].
Defined.

(** ** Directory listings *)
Section Listing.
Context (w : site) (p : list Z).

(** Some allocation was refused, some line does not fit in the line buffer, or the directory could
    not be read to its end. *)
Definition listing_fails (lines : list (list Z)) (error : bool) : Prop :=
  (∃ k, w.(granted) k = false) ∨ Exists (λ l, INITIAL_BUFFER_SIZE ≤ Z.of_nat (length l)) lines ∨ error = true.

Lemma entries_loop_ok entries error : ∀ b size front n,
  block_holds b front → size = Z.of_nat (length b) → Z.of_nat (length front) < size → INITIAL_BUFFER_SIZE ≤ size →
  let lines := omap (entry_line w p) entries in
  Z.of_nat (length front + length (concat lines)) < 1073741824 →
  ∃ r, entries_loop w p entries error b size (Z.of_nat (length front)) n = Ret r ∧
    match r with
    | Some (b', total) => block_holds b' (front ++ concat lines ++ [0]) ∧ total = Z.of_nat (length (front ++ concat lines))
    | None => listing_fails lines error
    end.
Proof.
  induction entries as [|name entries IH]; intros b size front n Hb Hs Hlt Hmin lines Hl; unfold listing_fails in *.
  { cbn [entries_loop]. destruct error; [exists None; split; [done|]; right; by right|].
    rewrite Nat2Z.id, put_ok by lia. cbn [mbind res_bind]. eexists. split; [done|]. cbn. rewrite app_nil_r.
    split; [|done]. apply holds_put; [done|lia]. }
  cbn [entries_loop]. unfold lines in *. cbn [omap list_omap] in *.
  destruct (entry_line w p name) as [line|]; [|by apply IH].
  cbn [concat] in *. rewrite length_app in Hl. set (rest := omap (entry_line w p) entries) in *. cbv zeta.
  destruct (Z.leb_spec INITIAL_BUFFER_SIZE (Z.of_nat (length line))) as [Hbig|Hfit];
    [exists None; split; [done|]; right; left; by left|].
  set (full := size - Z.of_nat (length front) <? Z.of_nat (length line) + 1).
  set (size2 := if full then s32 (size * 2) else size).
  assert (Hsize2 : size2 = if full then size * 2 else size).
  { unfold size2. destruct (Z.ltb_spec (size - Z.of_nat (length front)) (Z.of_nat (length line) + 1)) as [Hf|]; subst full;
      [|done]. rewrite s32_small; [done|]. lia. }
  destruct (full && negb (granted w n)) eqn:Hg.
  { exists None. split; [done|]. left. exists n. destruct full, (granted w n); done. }
  set (b2 := if full then _ else b).
  assert (Hb2 : block_holds b2 front ∧ size2 = Z.of_nat (length b2)
    ∧ Z.of_nat (length front) + Z.of_nat (length line) < size2 ∧ INITIAL_BUFFER_SIZE ≤ size2).
  { subst b2. rewrite Hsize2. destruct (Z.ltb_spec (size - Z.of_nat (length front)) (Z.of_nat (length line) + 1)) as [Hf|Hf];
      subst full; [|split_and!; [done|done|lia|lia]].
    split_and!; [by apply holds_app|rewrite length_app, length_replicate; lia|lia|lia]. }
  clearbody b2 size2. destruct Hb2 as (Hb2 & Hs2 & Hlt2 & Hmin2).
  rewrite Nat2Z.id. destruct (store_holds b2 front line Hb2) as (b3 & -> & Hb3 & Hl3); [lia|]. cbn [mbind res_bind].
  rewrite s32_small by lia. rewrite <- Nat2Z.inj_add, <- length_app.
  destruct (IH b3 size2 (front ++ line) (if full then S n else n)) as (r & E & Hr);
    [done|lia|rewrite length_app; lia|done|cbv zeta; rewrite length_app; change (omap (entry_line w p) entries) with rest; lia|].
  exists r. split; [exact E|]. fold rest in Hr. destruct r as [[b' t]|].
  - by rewrite <- !app_assoc in *.
  - destruct Hr as [?|[?|?]]; [by left|right; left; by right|by right; right].
Qed.

(** A directory that can be opened is answered either with all its lines in order, with their
    length in the header, or with 500 when a line is too long, memory runs out or the directory
    cannot be read. *)
Theorem serve_directory_correct n entries error k ks :
  let text := concat (omap (entry_line w p) entries) in
  w.(granted) n = true → w.(granted) (S n) = true → w.(names) p = Some (entries, error) →
  Z.of_nat (length text) < 1073741824 → w.(writes) = Some k :: ks → (length text ≤ k)%nat →
  serve_directory w p n
  = Ret (OpenDir p :: send_headers (chars "text/html") (Z.of_nat (length text)) ++ [Sent text])
  ∨ serve_directory w p n = Ret (OpenDir p :: send_failure_response 500)
    ∧ listing_fails (omap (entry_line w p) entries) error.
Proof.
  intros text H0 H1 Hn Hl Hw Hk. unfold serve_directory. rewrite H0, H1, Hn. cbn [andb].
  destruct (entries_loop_ok entries error (replicate (Z.to_nat INITIAL_BUFFER_SIZE) None) INITIAL_BUFFER_SIZE [] (S (S n)))
    as (r & E & Hr); [by eexists|by rewrite length_replicate|done|done|exact Hl|].
  change (Z.of_nat (length (@nil Z))) with 0 in E. rewrite E. cbn [mbind res_bind]. cbn [app] in Hr. fold text in Hr.
  destruct r as [[b t]|]; [|by right]. destruct Hr as [Hb ->]. left.
  rewrite (block_bytes_holds b text [0] Hb), Hw, write_all_whole by (done || lia). done.
Qed.
End Listing.

(** ** Connections are closed once or twice *)
Definition closes (tr : list event) : nat := length (filter (.= Close) tr).
Definition status_line (tr : list event) : option (list Z) :=
  head (omap (λ e, match e with Sent b => Some b | _ => None end) tr).
Definition failure_line (tr : list event) : Prop :=
  status_line tr ∈ [Some (http_start_response 404); Some (http_start_response 405); Some (http_start_response 500)].

Lemma closes_app a b : closes (a ++ b) = (closes a + closes b)%nat.
Proof. unfold closes. by rewrite filter_app, length_app. Qed.
(** How an answer that [handle_files_request] goes on to close ends: it has closed the connection
    itself exactly when it is a failure. *)
Definition half_closed (tr : list event) : Prop :=
  closes tr = 1%nat ∧ failure_line tr ∨ closes tr = 0%nat ∧ status_line tr = Some (http_start_response 200).

Lemma half_closed_cons e tr : looks_at e ≠ [] → half_closed tr → half_closed (e :: tr).
Proof. by destruct e. Qed.
Lemma half_closed_failure code : code ∈ [404; 405; 500] → half_closed (send_failure_response code).
Proof.
  intros H. left. split; [done|]. unfold failure_line. repeat (apply elem_of_cons in H as [->|H]; [set_solver|]). set_solver.
Qed.
Lemma half_closed_served mime n out : half_closed (send_headers mime n ++ [Sent out]).
Proof. by right. Qed.
Lemma serve_file_closes w n p tr : serve_file w n p = Ret tr → half_closed tr.
Proof.
  intros H. unfold serve_file in H. apply bind_Ret_inv in H as ([b size] & _ & H).
  destruct (size =? 0); [injection H as <-; apply half_closed_cons, half_closed_failure; [done|set_solver]|].
  apply bind_Ret_inv in H as ([out r] & _ & H). injection H as <-. by apply half_closed_cons, half_closed_served.
Qed.
Lemma serve_directory_closes w n p tr : serve_directory w p n = Ret tr → half_closed tr.
Proof.
  intros H. unfold serve_directory in H. destruct (_ && _); [|done]. destruct (w.(names) p) as [[es err]|]; [|done].
  apply bind_Ret_inv in H as ([[b t]|] & _ & H).
  - apply bind_Ret_inv in H as ([out r] & _ & H). injection H as <-. by apply half_closed_cons, half_closed_served.
  - injection H as <-. apply half_closed_cons, half_closed_failure; [done|set_solver].
Qed.
Lemma serve_path_closes w n p tr : serve_path w n p = Ret tr → half_closed tr.
Proof.
  intros H. unfold serve_path in H. destruct (w.(stat) p) as [[| |]|].
  - apply bind_Ret_inv in H as (tr' & E & H). injection H as <-. apply half_closed_cons; [done|].
    exact (serve_file_closes _ _ _ _ E).
  - destruct (negb _); [done|]. apply bind_Ret_inv in H as (tr' & E & H). injection H as <-.
    do 2 (apply half_closed_cons; [done|]).
    destruct (w.(stat) (p ++ chars "/index.html")) as [[| |]|];
      first [exact (serve_file_closes _ _ _ _ E)|exact (serve_directory_closes _ _ _ _ E)].
  - injection H as <-. apply half_closed_cons, half_closed_failure; [done|set_solver].
  - injection H as <-. apply half_closed_cons, half_closed_failure; [done|set_solver].
Qed.
Lemma status_line_app a b l : status_line a = Some l → status_line (a ++ b) = Some l.
Proof. unfold status_line. rewrite omap_app. by destruct (omap _ a). Qed.

(** Every connection is closed, and twice exactly when the answer is 404, 405 or 500: after
    such an answer the descriptor is closed again, when the number may belong to another
    connection of another thread. *)
Theorem failure_closes_twice w answer tr :
  handle_files_request w answer = Ret tr →
  (closes tr = 2%nat ∧ failure_line tr)
  ∨ (closes tr = 1%nat ∧
     status_line tr ∈ [Some (http_start_response 200); Some (http_start_response 400); Some (http_start_response 403)]).
Proof.
  intros H. unfold handle_files_request in H. apply bind_Ret_inv in H as ([r|] & _ & H);
    [|injection H as <-; right; split; [done|set_solver]].
  destruct (peek_is (chr "/") r.(path)); cbn [negb] in H; [|injection H as <-; right; split; [done|set_solver]].
  destruct (has_dotdot r.(path)); [injection H as <-; right; split; [done|set_solver]|].
  destruct (negb (w.(granted) 0)); [done|]. apply bind_Ret_inv in H as (tr' & E & H). injection H as <-.
  assert (Hh : half_closed tr').
  { destruct (negb _); [injection E as <-; apply half_closed_failure; set_solver|exact (serve_path_closes _ _ _ _ E)]. }
  rewrite closes_app. change (closes close_socket) with 1%nat. unfold half_closed, failure_line in *.
  destruct Hh as [[-> Hf]|[-> Hs]].
  - left. split; [done|]. destruct (status_line tr') as [l|] eqn:El; [|set_solver].
    by rewrite (status_line_app _ _ _ El).
  - right. split; [done|]. rewrite (status_line_app _ _ _ Hs). set_solver.
Qed.
Definition demo_refused : list event := send_failure_response 405 ++ close_socket.
Lemma failure_closes_twice_witness : closes demo_refused = 2%nat ∧ failure_line demo_refused.
Proof.
  destruct (failure_closes_twice demo_site (Some (http_start_request (chars "PUT") (chars "/a"))) demo_refused)
    as [H|[H _]]; [vm_compute; reflexivity|exact H|discriminate H].
Defined.
