(* ===== verification/Proxy.v ===== *)
(** * The web server's proxy and command line (hw4/server.c, hw4/server_config.c)

    A relay thread copies what one socket receives to the other until one of the two connections
    ends or has lived too long.  What the sockets answer in each turn of its loop is given. *)
From Stdlib Require Import (notations) Ascii String.
From S2P Require Import Prelude Stdio WordCount WordList CText Http Server.

(** ** [relay_communication] *)
Definition CONNECTION_TTL : Z := 30.

(** What [recv] with MSG_DONTWAIT answers: bytes (none when the peer has closed), nothing yet, or
    an error. *)
Inductive received := Bytes (bytes : list Z) | Again | RecvError.
(** One turn of the loop: the time, whether the two sockets are alive when probed, what [recv]
    answers and what the [write]s of the turn answer. *)
Record turn := Turn {
  now : Z;
  source_alive : bool;
  recv : received;
  target_alive : bool;
  target_writes : list (option nat);
}.

Section Relay.
Context (connectionStartTime : Z).

(** The bytes that go to the target.  [Stuck] when the loop has not ended with the turns given. *)
Fixpoint relay_loop (turns : list turn) : res (list Z) :=
  match turns with
  | [] => Stuck
  | t :: turns =>
    if CONNECTION_TTL <? t.(now) - connectionStartTime then Ret []
    else if negb t.(source_alive) then Ret []
    else
      match t.(recv) with
      | RecvError => Ret []
      | _ =>
        if negb t.(target_alive) then Ret []
        else
          let buffer := match t.(recv) with Bytes b => take (Z.to_nat INITIAL_BUFFER_SIZE) b | _ => [] end in
          let bytesRead := match t.(recv) with Bytes _ => Z.of_nat (length buffer) | _ => -1 end in
          '(out, bytesWritten) ← write_all t.(target_writes) buffer bytesRead;
          if bytesWritten =? -1 then Ret out
          else more ← relay_loop turns; Ret (out ++ more)
      end
  end.
End Relay.

(** The two sockets of a proxied connection, and what is done with them.  An error while the host
    name is resolved or the socket made stops the whole server. *)
Inductive socket := Client | Remote.
Inductive proxy_event :=
| On (s : socket) (e : event)
| StartThread (source target : socket)
| JoinThread (i : nat)
| Exit.

Definition relay_communication (connectionStartTime : Z) (turns : list turn) (source target : socket)
    : res (list proxy_event) :=
  out ← relay_loop connectionStartTime turns;
  Ret ([On target (Sent out)] ++ (On source <$> close_socket) ++ (On target <$> close_socket)).

(** [handle_proxy_request]: whether the name resolves, the socket is made and connected, and each
    of the threads is created. *)
Definition bad_gateway : list proxy_event := On Client <$> (send_failure_response 502 ++ close_socket).
Definition handle_proxy_request (resolved made connected : bool) (created : nat → bool) : list proxy_event :=
  if negb resolved then bad_gateway ++ [Exit]
  else if negb made then bad_gateway ++ [Exit]
  else if negb connected then (On Remote <$> close_socket) ++ bad_gateway
  else if negb (created 0%nat) then (On Remote <$> close_socket) ++ bad_gateway
  else if negb (created 1%nat) then
    [StartThread Client Remote] ++ (On Remote <$> close_socket) ++ bad_gateway
  else [StartThread Client Remote; StartThread Remote Client; JoinThread 0; JoinThread 1].

(** ** The command line *)
Inductive request_handler := FilesHandler | ProxyHandler.
(** The globals of server_config.c that the command line sets. *)
Record config := Config {
  cfg_port : Z;
  cfg_file_path : option (list Z);
  cfg_proxy_hostname : option (list Z);
  cfg_proxy_port : Z;
  cfg_num_threads : Z;
  cfg_request_handler : option request_handler;
}.
Definition server_config : config := Config 8000 None None 80 5 None.

(** [strchr (address, ':')]: the text before the colon and behind it. *)
Fixpoint split_colon (s : list Z) : option (list Z * list Z) :=
  match s with
  | [] => None
  | c :: s =>
    if c =? chr ":" then Some ([], s) else '(a, b) ← split_colon s; Some (c :: a, b)
  end.
(** The loop over the arguments; [None] is [exit_with_usage]. *)
Fixpoint commands_loop (argv : list (list Z)) (g : config) : option config :=
  let 'Config po fp ph pp nt rh := g in
  match argv with
  | [] => Some g
  | arg :: argv =>
    if text_is arg "--files" then
      match argv with
      | [] => None
      | d :: argv => commands_loop argv (Config po (Some d) ph pp nt (Some FilesHandler))
      end
    else if text_is arg "--proxy" then
      match argv with
      | [] => None
      | proxyAddress :: argv =>
        let '(host, port) :=
          match split_colon proxyAddress with
          | Some (host, port) => (host, atoi_text port)
          | None => (proxyAddress, 80)
          end in
        commands_loop argv (Config po fp (Some host) port nt (Some ProxyHandler))
      end
    else if text_is arg "--port" then
      match argv with
      | [] => None
      | s :: argv => if atoi_text s <? 1 then None else commands_loop argv (Config (atoi_text s) fp ph pp nt rh)
      end
    else if text_is arg "--num-threads" then
      match argv with
      | [] => None
      | s :: argv => if atoi_text s <? 1 then None else commands_loop argv (Config po fp ph pp (atoi_text s) rh)
      end
    else None
  end.
(** [parse_commands]; [argv] holds the arguments behind the program's name, [pool] says that the
    server is built with the thread pool. *)
Definition parse_commands (pool : bool) (argv : list (list Z)) : option config :=
  if (length argv =? 0)%nat then None
  else
    g ← commands_loop argv server_config;
    match g.(cfg_request_handler) with
    | None => None
    | Some _ => if pool && (g.(cfg_num_threads) <? 1) then None else Some g
    end.
(** [serverAddress->sin_port = htons (SERVER_PORT)]: the port the server listens on. *)
Definition listening_port (g : config) : Z := g.(cfg_port) mod 65536.

(** ** What the relay forwards *)
(** Every turn takes all its bytes in one [write], both ends are alive, and the time has not run
    out. *)
Definition calm (start : Z) (t : turn) : Prop :=
  t.(now) - start ≤ CONNECTION_TTL ∧ t.(source_alive) = true ∧ t.(target_alive) = true ∧
  t.(recv) ≠ RecvError ∧ ∃ ks, t.(target_writes) = Some (Z.to_nat INITIAL_BUFFER_SIZE) :: ks.
Definition chunk (t : turn) : list Z :=
  match t.(recv) with Bytes b => take (Z.to_nat INITIAL_BUFFER_SIZE) b | _ => [] end.
(** The turn ends the loop before anything is sent. *)
Definition last_turn (start : Z) (t : turn) : bool :=
  (CONNECTION_TTL <? t.(now) - start) || negb t.(source_alive)
  || match t.(recv) with RecvError => true | _ => false end || negb t.(target_alive).

Lemma calm_turn start t turns :
  calm start t → relay_loop start (t :: turns) = (more ← relay_loop start turns; Ret (chunk t ++ more)).
Proof.
  intros (Ht & Hs & Ha & Hr & ks & Hk). cbn [relay_loop]. destruct (Z.ltb_spec CONNECTION_TTL (now t - start)); [lia|].
  rewrite Hs, Ha, Hk. unfold chunk. destruct (recv t) as [b| |]; [|done|done]. cbn [negb].
  assert (length (take (Z.to_nat INITIAL_BUFFER_SIZE) b) ≤ Z.to_nat INITIAL_BUFFER_SIZE)%nat by (rewrite length_take; lia).
  change INITIAL_BUFFER_SIZE with 1024 in *.
  rewrite write_all_whole by lia. cbn [mbind res_bind].
  by destruct (Z.eqb_spec (Z.of_nat (length (take (Z.to_nat 1024) b))) (-1)); [lia|].
Qed.
Lemma last_turn_ends start t turns : last_turn start t = true → relay_loop start (t :: turns) = Ret [].
Proof.
  unfold last_turn. cbn [relay_loop]. destruct (CONNECTION_TTL <? _); [done|]. destruct (source_alive t); [|done].
  destruct (recv t), (target_alive t); cbn; done.
Qed.

(** The relay forwards exactly what it receives, in order, for as long as both connections
    are up, and then closes both sockets. *)
Theorem relay_forwards start turns t more source target :
  Forall (calm start) turns → last_turn start t = true →
  relay_communication start (turns ++ t :: more) source target
  = Ret ([On target (Sent (concat (chunk <$> turns)))] ++ (On source <$> close_socket) ++ (On target <$> close_socket)).
Proof.
  intros Hc Ht. unfold relay_communication.
  assert (E : relay_loop start (turns ++ t :: more) = Ret (concat (chunk <$> turns))).
  { induction Hc as [|u turns Hu _ IH]; [by apply last_turn_ends|]. cbn [app]. rewrite calm_turn by done. by rewrite IH. }
  by rewrite E.
Qed.
Definition demo_turns : list turn :=
  [Turn 3 true (Bytes (chars "GET")) true [Some 1024%nat]; Turn 4 true Again true [Some 1024%nat];
   Turn 5 true (Bytes (chars " /")) true [Some 1024%nat]].
Lemma relay_forwards_witness :
  relay_communication 0 (demo_turns ++ [Turn 6 false Again true []]) Client Remote
  = Ret ([On Remote (Sent (chars "GET /"))] ++ (On Client <$> close_socket) ++ (On Remote <$> close_socket)).
Proof.
  apply (relay_forwards 0 demo_turns (Turn 6 false Again true []) [] Client Remote); [|reflexivity].
  repeat constructor; cbn; try lia; try discriminate; by exists [].
Defined.

(** The loop ends when the connections have lived long enough, whatever happens before. *)
Theorem relay_ends start turns t :
  CONNECTION_TTL < t.(now) - start → Forall (λ u, ∃ k ks, u.(target_writes) = Some k :: ks ∧ (Z.to_nat INITIAL_BUFFER_SIZE ≤ k)%nat) turns →
  ∃ out, relay_loop start (turns ++ [t]) = Ret out.
Proof.
  intros Ht Hw. induction Hw as [|u turns (k & ks & Hk & Hle) _ [out IH]].
  - exists []. apply last_turn_ends. unfold last_turn. by destruct (Z.ltb_spec CONNECTION_TTL (now t - start)); [|lia].
  - cbn [app]. destruct (last_turn start u) eqn:E; [exists []; by apply last_turn_ends|].
    unfold last_turn in E. cbn [relay_loop]. rewrite Hk.
    destruct (CONNECTION_TTL <? now u - start), (source_alive u), (recv u) as [b| |], (target_alive u);
      try discriminate E; cbn [negb].
    + change INITIAL_BUFFER_SIZE with 1024 in *.
      assert (length (take (Z.to_nat 1024) b) ≤ Z.to_nat 1024)%nat by (rewrite length_take; lia).
      rewrite write_all_whole by lia. cbn [mbind res_bind].
      destruct (Z.eqb_spec (Z.of_nat (length (take (Z.to_nat 1024) b))) (-1)); [lia|]. rewrite IH. by eexists.
    + cbn [write_all mbind res_bind]. rewrite IH. by eexists.
Qed.
(** A peer that has closed its connection is not noticed: [recv] then gives no bytes, and the loop
    goes round for as long as it does. *)
Theorem relay_spins n :
  relay_loop 0 (replicate n (Turn 0 true (Bytes []) true [Some 0%nat])) = Stuck.
Proof. induction n as [|n IH]; [done|]. cbn [replicate relay_loop]. cbn. cbn in IH. by rewrite IH. Qed.

(** A failed proxy request closes the client's connection twice. *)
Theorem proxy_failure_closes_twice resolved made connected created :
  let tr := handle_proxy_request resolved made connected created in
  resolved && made && connected && created 0%nat && created 1%nat = false →
  length (filter (λ e, e = Close) (omap (λ e, match e with On Client e => Some e | _ => None end) tr)) = 2%nat.
Proof.
  cbv zeta. unfold handle_proxy_request.
  destruct resolved, made, connected, (created 0%nat), (created 1%nat); cbn [andb negb]; done.
Qed.

(** ** What the command line gives *)
Definition config_ok (g : config) : Prop :=
  1 ≤ g.(cfg_port) < 2147483648 ∧ 1 ≤ g.(cfg_num_threads) < 2147483648 ∧
  match g.(cfg_request_handler) with
  | None => True
  | Some FilesHandler => g.(cfg_file_path) ≠ None
  | Some ProxyHandler => g.(cfg_proxy_hostname) ≠ None
  end.
Lemma commands_loop_ok n : ∀ argv g g', (length argv ≤ n)%nat →
  config_ok g → commands_loop argv g = Some g' → config_ok g'.
Proof.
  induction n as [|n IH]; intros argv [po fp ph pp nt rh] g' Hn Hg H.
  { destruct argv; [|cbn in Hn; lia]. by injection H as <-. }
  destruct argv as [|arg argv]; [by injection H as <-|]. cbn [length] in Hn. cbn [commands_loop] in H.
  destruct Hg as (H1 & H2 & H3). cbn [cfg_port cfg_num_threads cfg_request_handler cfg_file_path cfg_proxy_hostname] in *.
  destruct (text_is arg "--files"); [|destruct (text_is arg "--proxy"); [|destruct (text_is arg "--port");
    [|destruct (text_is arg "--num-threads"); [|done]]]]; (destruct argv as [|v argv]; [done|]); cbn [length] in Hn.
  - apply (IH argv _ g') in H; [done|lia|done].
  - destruct (match split_colon v with Some _ => _ | None => _ end) as [h q]. apply (IH argv _ g') in H; [done|lia|done].
  - pose proof (atoi_text_s32 v). destruct (Z.ltb_spec (atoi_text v) 1); [done|].
    apply (IH argv _ g') in H; [done|lia|]. by split_and!; cbn; try lia.
  - pose proof (atoi_text_s32 v). destruct (Z.ltb_spec (atoi_text v) 1); [done|].
    apply (IH argv _ g') in H; [done|lia|]. by split_and!; cbn; try lia.
Qed.

(** A server that starts has a handler and what the handler needs, a positive port and at
    least one thread. *)
Theorem parse_commands_sound pool argv g :
  parse_commands pool argv = Some g → config_ok g ∧ g.(cfg_request_handler) ≠ None.
Proof.
  unfold parse_commands. destruct (_ =? _)%nat; [done|]. destruct (commands_loop argv server_config) as [g'|] eqn:E; [|done].
  cbn [mbind option_bind]. destruct (cfg_request_handler g') as [h|] eqn:Eh; [|done]. destruct (pool && _); [done|]. intros [= ->].
  split; [|by rewrite Eh]. by apply (commands_loop_ok (length argv) argv server_config).
Qed.
(** A port over 65535 is accepted, and another port is listened on. *)
Theorem port_wraps :
  (parse_commands true (chars <$> ["--files"; "www"; "--port"; "65616"]%string)) = Some (Config 65616 (Some (chars "www")) None 80 5 (Some FilesHandler))
  ∧ listening_port (Config 65616 (Some (chars "www")) None 80 5 (Some FilesHandler)) = 80.
Proof. by vm_compute. Qed.
