(* ===== verification/ServerMain.v ===== *)
(** * The web server's main loop (hw4/server.c)

    The set-up of the server's socket, and the loop that accepts connections, in the variants that
    handle a request in the server itself, in a process or in a thread of its own.  The state is the
    set of descriptors the server's process has open. *)
From S2P Require Import Prelude WordCount WordList CText Http Server Proxy.

(** ** Set-up *)
(** Whether the calls that set the socket up succeed. *)
Record setup_calls := SetupCalls { socket_ok : bool; setsockopt_ok : bool; bind_ok : bool }.
Definition setup_server_socket (c : setup_calls) : bool := c.(socket_ok) && c.(setsockopt_ok).
(** The port the server listens on; [None] when it exits.  The result of [listen] is not looked at. *)
Definition setup_server (c : setup_calls) (g : config) : option Z :=
  if negb (setup_server_socket c) then None
  else if negb c.(bind_ok) then None
  else Some (listening_port g).

(** ** The loop *)
Inductive variant := BASICSERVER | FORKSERVER | THREADSERVER.
(** What one turn of the loop meets: the connection that is accepted, if any; whether [fork] or
    [pthread_create] succeeds; and whether the memory for the thread's argument is there. *)
Record accepted := Accepted { connectSocketFD : option Z; started : bool; task_granted : bool }.

(** A connection is handled before the next turn, elsewhere, or not at all. *)
Inductive server_event :=
| Handled (fd : Z)
| HandledByProcess (fd : Z)
| HandledByThread (fd : Z)
| Refused (fd : Z).
(** The server's process: what it has open, what happened, and whether it goes on. *)
Record server := ServerState { open_fds : gset Z; history : list server_event; running : bool }.

(** One turn.  A connection handled in the process is closed by the handler; a process of its own
    closes its copy of the descriptor, a thread the descriptor itself: what is open is what is left
    when the threads that were started are done. *)
Definition accept_turn (v : variant) (a : accepted) (s : server) : res server :=
  match a.(connectSocketFD) with
  | None => Ret s
  | Some fd =>
    let opened := {[fd]} ∪ s.(open_fds) in
    match v with
    | BASICSERVER => Ret (ServerState (opened ∖ {[fd]}) (s.(history) ++ [Handled fd]) true)
    | FORKSERVER =>
      if a.(started) then Ret (ServerState opened (s.(history) ++ [HandledByProcess fd]) true)
      else Ret (ServerState (opened ∖ {[fd]}) (s.(history) ++ [Refused fd]) false)
    | THREADSERVER =>
      if negb a.(task_granted) then Panic
      else if a.(started) then Ret (ServerState (opened ∖ {[fd]}) (s.(history) ++ [HandledByThread fd]) true)
      else Ret (ServerState (opened ∖ {[fd]}) (s.(history) ++ [Refused fd]) true)
    end
  end.
(** The turns until the loop is left. *)
Fixpoint serve_forever (v : variant) (turns : list accepted) (s : server) : res server :=
  match turns with
  | [] => Ret s
  | a :: turns => s ← accept_turn v a s; if negb s.(running) then Ret s else serve_forever v turns s
  end.

(** ** Theorems *)
Definition connections (turns : list accepted) : list Z := omap connectSocketFD turns.
(** The server that handles its requests itself handles every connection it accepts, in order, and has
    none open behind it. *)
Theorem basic_server_ok turns : ∀ s, s.(running) = true → Forall (λ fd, fd ∉ s.(open_fds)) (connections turns) →
  serve_forever BASICSERVER turns s
  = Ret (ServerState s.(open_fds) (s.(history) ++ (Handled <$> connections turns)) true).
Proof.
  induction turns as [|[[fd|] st tg] turns IH]; intros s Hr Hf; cbn [serve_forever accept_turn connections omap list_omap connectSocketFD] in *.
  - destruct s. cbn in *. subst. by rewrite app_nil_r.
  - apply Forall_cons in Hf as [Hfd Hf]. cbn [mbind res_bind running negb].
    assert (E : ({[fd]} ∪ open_fds s) ∖ {[fd]} = open_fds s) by set_solver.
    rewrite IH by (done || (cbn [open_fds]; by rewrite E)). cbn [open_fds history fmap list_fmap]. rewrite E, <- app_assoc. done.
  - cbn [mbind res_bind]. rewrite Hr. cbn [negb]. by apply IH.
Qed.
(** The server that forks keeps a descriptor open for every connection it ever accepted. *)
Theorem fork_server_leaks turns : ∀ s, s.(running) = true → Forall (λ a, a.(started) = true) turns →
  serve_forever FORKSERVER turns s
  = Ret (ServerState (list_to_set (connections turns) ∪ s.(open_fds)) (s.(history) ++ (HandledByProcess <$> connections turns)) true).
Proof.
  induction turns as [|[[fd|] st tg] turns IH]; intros s Hr Hf; cbn [serve_forever accept_turn connections omap list_omap connectSocketFD] in *.
  - destruct s. cbn in *. subst. rewrite app_nil_r. do 2 f_equal. set_solver.
  - apply Forall_cons in Hf as [Hst Hf]. cbn [started] in *. subst st. cbn [mbind res_bind running negb].
    rewrite IH by done. cbn [open_fds history fmap list_fmap list_to_set]. rewrite <- app_assoc. cbn [app]. do 2 f_equal. set_solver.
  - apply Forall_cons in Hf as [_ Hf]. cbn [mbind res_bind]. rewrite Hr. cbn [negb]. by apply IH.
Qed.
