(* ===== verification/ProcessList.v ===== *)
(** * The shell's list of processes (hw3/process_list.c)

    A doubly linked list with the latest process at its head and a root node with the process
    id -1 at its end.  The heap maps the addresses of the nodes in use to them: reading a node
    that is not there, or freeing it, is undefined. *)
From S2P Require Import Prelude WordCount WordList.

Record process_node := Node { processID : Z; node_prev : Z; node_next : Z }.
Abbreviation nodes := (gmap Z process_node).
Record process_list := ProcessList { list_nodes : nodes; PROCESS_LIST_HEAD : Z }.

Definition read_node (h : nodes) (p : Z) : res process_node :=
  match h !! p with Some n => Ret n | None => Panic end.
Definition set_node_prev (h : nodes) (p q : Z) : res nodes :=
  n ← read_node h p; Ret (<[p := Node n.(processID) q n.(node_next)]> h).
Definition set_node_next (h : nodes) (p q : Z) : res nodes :=
  n ← read_node h p; Ret (<[p := Node n.(processID) n.(node_prev) q]> h).

Definition destroy_process_node (h : nodes) (p : Z) : res nodes :=
  if p =? NULL then Ret h else _ ← read_node h p; Ret (delete p h).

Section Alloc.
(** Where malloc puts a node; the null pointer if it fails. *)
Context (place : nodes → Z).

(** The address of the node, null on failure. *)
Definition create_process_node (h : nodes) (pid prev next : Z) : nodes * Z :=
  let processNode := place h in
  if processNode =? NULL then (h, NULL) else (<[processNode := Node pid prev next]> h, processNode).
Definition initialize_process_list (l : process_list) : process_list * Z :=
  if negb (l.(PROCESS_LIST_HEAD) =? NULL) then (l, 0)
  else
    let '(h, head) := create_process_node l.(list_nodes) (-1) NULL NULL in
    (ProcessList h head, if head =? NULL then -1 else 0).
Definition add_process (l : process_list) (pid : Z) : res (process_list * Z) :=
  let '(l, result) := if l.(PROCESS_LIST_HEAD) =? NULL then initialize_process_list l else (l, 0) in
  if result =? -1 then Ret (l, -1)
  else
    let '(h, processNode) := create_process_node l.(list_nodes) pid NULL l.(PROCESS_LIST_HEAD) in
    if processNode =? NULL then Ret (ProcessList h l.(PROCESS_LIST_HEAD), -1)
    else
      h ← set_node_prev h l.(PROCESS_LIST_HEAD) processNode;
      Ret (ProcessList h processNode, 0).
End Alloc.

Fixpoint destroy_loop (fuel : nat) (h : nodes) (current : Z) : res nodes :=
  match fuel with
  | O => Stuck
  | S fuel =>
    if current =? NULL then Ret h
    else
      n ← read_node h current;
      h ← destroy_process_node h current;
      destroy_loop fuel h n.(node_next)
  end.
(** Enough turns for every node of the heap. *)
Definition turns (h : nodes) : nat := S (size h).
Definition destroy_process_list (l : process_list) : res process_list :=
  if l.(PROCESS_LIST_HEAD) =? NULL then Ret l
  else h ← destroy_loop (turns l.(list_nodes)) l.(list_nodes) l.(PROCESS_LIST_HEAD); Ret (ProcessList h NULL).

Definition get_latest_process (l : process_list) : res Z :=
  if l.(PROCESS_LIST_HEAD) =? NULL then Ret NULL
  else
    n ← read_node l.(list_nodes) l.(PROCESS_LIST_HEAD);
    Ret (if n.(processID) =? -1 then NULL else l.(PROCESS_LIST_HEAD)).
Definition get_prev_process (l : process_list) (p : Z) : res Z :=
  if p =? NULL then Ret NULL else n ← read_node l.(list_nodes) p; Ret n.(node_prev).
Definition get_next_process (l : process_list) (p : Z) : res Z :=
  if p =? NULL then Ret NULL
  else
    n ← read_node l.(list_nodes) p;
    if n.(node_next) =? NULL then Ret NULL
    else
      m ← read_node l.(list_nodes) n.(node_next);
      Ret (if m.(processID) =? -1 then NULL else n.(node_next)).

Fixpoint find_process_loop (fuel : nat) (h : nodes) (processNode pid : Z) : res Z :=
  match fuel with
  | O => Stuck
  | S fuel =>
    if processNode =? NULL then Ret NULL
    else
      n ← read_node h processNode;
      if n.(processID) =? pid then Ret processNode else find_process_loop fuel h n.(node_next) pid
  end.
Definition find_process (l : process_list) (pid : Z) : res Z :=
  if (l.(PROCESS_LIST_HEAD) =? NULL) || (pid =? -1) then Ret NULL
  else find_process_loop (turns l.(list_nodes)) l.(list_nodes) l.(PROCESS_LIST_HEAD) pid.

Definition remove_process_node (l : process_list) (p : Z) : res process_list :=
  if p =? NULL then Ret l
  else
    n ← read_node l.(list_nodes) p;
    if n.(processID) =? -1 then Ret l
    else if n.(node_prev) =? NULL then
      h ← set_node_prev l.(list_nodes) n.(node_next) NULL;
      h ← destroy_process_node h p;
      Ret (ProcessList h n.(node_next))
    else
      h ← set_node_next l.(list_nodes) n.(node_prev) n.(node_next);
      h ← set_node_prev h n.(node_next) n.(node_prev);
      h ← destroy_process_node h p;
      Ret (ProcessList h l.(PROCESS_LIST_HEAD)).
Definition remove_process (l : process_list) (pid : Z) : res process_list :=
  if l.(PROCESS_LIST_HEAD) =? NULL then Ret l
  else
    p ← find_process l pid;
    if p =? NULL then Ret l else remove_process_node l p.

(** ** What a list represents *)
(** The heap of a chain of nodes, given by their addresses and process ids. *)
Definition first_of (xs : list (Z * Z)) : Z := match xs with [] => NULL | (a, _) :: _ => a end.
Definition last_of (prv : Z) (xs : list (Z * Z)) : Z := match last xs with None => prv | Some (a, _) => a end.
Fixpoint node_chain (prv : Z) (xs : list (Z * Z)) : nodes :=
  match xs with
  | [] => ∅
  | (a, pid) :: xs => <[a := Node pid prv (first_of xs)]> (node_chain a xs)
  end.
(** The list holds the processes [ps], the latest first; it owns every node of the heap. *)
Definition lists (l : process_list) (ps : list Z) : Prop :=
  ∃ xs, l.(list_nodes) = node_chain NULL xs ∧ l.(PROCESS_LIST_HEAD) = first_of xs ∧ NoDup xs.*1 ∧ NULL ∉ xs.*1
    ∧ (xs.*2 = ps ++ [-1] ∨ xs = [] ∧ ps = []) ∧ -1 ∉ ps.

Lemma chain_dom prv xs : dom (node_chain prv xs) = list_to_set xs.*1.
Proof. revert prv. induction xs as [|[a p] xs IH]; intros prv; cbn; [done|]. by rewrite dom_insert_L, IH. Qed.
Lemma chain_fresh prv xs a : a ∉ xs.*1 → node_chain prv xs !! a = None.
Proof. intros H. apply not_elem_of_dom. rewrite chain_dom. set_solver. Qed.
Lemma chain_size prv xs : NoDup xs.*1 → size (node_chain prv xs) = length xs.
Proof. intros H. rewrite <- size_dom, chain_dom, size_list_to_set by done. by rewrite length_fmap. Qed.
(** Every node of the chain knows its neighbours. *)
Lemma chain_lookup u : ∀ prv a pid v, NoDup (u ++ (a, pid) :: v).*1 →
  node_chain prv (u ++ (a, pid) :: v) !! a = Some (Node pid (last_of prv u) (first_of v)).
Proof.
  induction u as [|[b q] u IH]; intros prv a pid v H; cbn [app node_chain fmap list_fmap fst] in *.
  - by rewrite lookup_insert_eq.
  - apply NoDup_cons in H as [Hb H]. rewrite lookup_insert_ne.
    + rewrite IH by done. do 2 f_equal. unfold last_of. destruct u as [|[c r] u]; [done|].
      rewrite last_cons_cons. by destruct (last_is_Some ((c, r) :: u)) as [_ [[d s] ->]].
    + intros ->. apply Hb. rewrite fmap_app. set_solver.
Qed.
(** The first node's back pointer. *)
Lemma chain_set_prev a pid v prv prv' : NoDup ((a, pid) :: v).*1 →
  set_node_prev (node_chain prv ((a, pid) :: v)) a prv' = Ret (node_chain prv' ((a, pid) :: v)).
Proof.
  intros _. unfold set_node_prev, read_node. cbn [node_chain]. rewrite lookup_insert_eq. cbn [mbind res_bind processID node_next].
  by rewrite insert_insert_eq.
Qed.
Lemma last_of_cons prv d s u : last_of prv ((d, s) :: u) = last_of d u.
Proof.
  unfold last_of. destruct u as [|[c r] u]; [done|]. rewrite last_cons_cons.
  by destruct (last_is_Some ((c, r) :: u)) as [_ [[e t] ->]].
Qed.
Lemma last_of_snoc prv u c r : last_of prv (u ++ [(c, r)]) = c.
Proof. unfold last_of. by rewrite last_snoc. Qed.
Lemma chain_bypass u c r a p b q v : ∀ prv, NoDup (u ++ (c, r) :: (a, p) :: (b, q) :: v).*1 →
  delete a (<[b := Node q c (first_of v)]> (<[c := Node r (last_of prv u) b]>
    (node_chain prv (u ++ (c, r) :: (a, p) :: (b, q) :: v)))) = node_chain prv (u ++ (c, r) :: (b, q) :: v).
Proof.
  induction u as [|[d s] u IH]; intros prv H; cbn [app fmap list_fmap fst] in H.
  - cbn [app node_chain first_of]. apply NoDup_cons in H as [Hc H]. apply NoDup_cons in H as [Ha H]. apply NoDup_cons in H as [Hb H].
    assert (c ≠ a ∧ c ≠ b ∧ a ≠ b ∧ a ∉ v.*1 ∧ b ∉ v.*1) as (Hca & Hcb & Hab & Hav & Hbv) by set_solver.
    rewrite insert_insert_eq, (insert_insert_ne _ b c), (delete_insert_ne _ a c) by done.
    rewrite (insert_insert_ne _ b a), insert_insert_eq by done.
    rewrite delete_insert_id by (rewrite lookup_insert_ne by done; by apply chain_fresh). done.
  - apply NoDup_cons in H as [Hd H]. cbn [app node_chain]. rewrite fmap_app in Hd. cbn in Hd.
    assert (d ≠ a ∧ d ≠ b ∧ d ≠ c) as (Hda & Hdb & Hdc) by set_solver.
    rewrite last_of_cons, (insert_insert_ne _ c d), (insert_insert_ne _ b d), (delete_insert_ne _ a d), IH by done.
    f_equal. f_equal. by destruct u as [|[]].
Qed.

(** The list of a chain that ends with the root. *)
Lemma chain_split (xs : list (Z * Z)) ps i pid : xs.*2 = ps ++ [-1] → ps !! i = Some pid →
  ∃ (u : list (Z * Z)) (a b q : Z) (v : list (Z * Z)), xs = u ++ (a, pid) :: (b, q) :: v ∧ u.*2 = take i ps ∧ ((b, q) :: v).*2 = drop (S i) ps ++ [-1].
Proof.
  intros Hx Hi. assert (Hp : ps = take i ps ++ pid :: drop (S i) ps) by (by rewrite take_drop_middle).
  rewrite Hp in Hx. rewrite <- app_assoc in Hx. apply fmap_app_inv in Hx as (u & w & Hu & Hw & ->).
  symmetry in Hw. apply fmap_cons_inv in Hw as ([a p'] & w' & Hp' & Hw & ->). cbn in Hp'. subst p'.
  destruct w' as [|[b q] v]; [by destruct (drop (S i) ps)|]. exists u, a, b, q, v. by split_and!.
Qed.

(** ** Removing *)
Fixpoint address_of (pid : Z) (xs : list (Z * Z)) : Z :=
  match xs with [] => NULL | (a, p) :: xs => if p =? pid then a else address_of pid xs end.
(** The processes without the latest one of that id. *)
Fixpoint without (pid : Z) (ps : list Z) : list Z :=
  match ps with [] => [] | p :: ps => if p =? pid then ps else p :: without pid ps end.

Lemma without_notin pid ps : pid ∉ ps → without pid ps = ps.
Proof.
  induction ps as [|p ps IH]; intros H; cbn; [done|]. destruct (Z.eqb_spec p pid); [set_solver|]. rewrite IH; [done|set_solver].
Qed.
Lemma without_app pid u v : pid ∉ u → without pid (u ++ pid :: v) = u ++ v.
Proof.
  induction u as [|p u IH]; intros H; cbn; [by rewrite Z.eqb_refl|]. destruct (Z.eqb_spec p pid); [set_solver|].
  rewrite IH; [done|set_solver].
Qed.
Lemma address_of_app pid u a v : pid ∉ u.*2 → address_of pid (u ++ (a, pid) :: v) = a.
Proof.
  induction u as [|[b p] u IH]; intros H; cbn in *; [by rewrite Z.eqb_refl|]. destruct (Z.eqb_spec p pid); [set_solver|].
  apply IH. set_solver.
Qed.
Lemma address_of_notin pid xs : pid ∉ xs.*2 → address_of pid xs = NULL.
Proof.
  induction xs as [|[b p] xs IH]; intros H; cbn in *; [done|]. destruct (Z.eqb_spec p pid); [set_solver|]. apply IH. set_solver.
Qed.

Lemma chain_read xs u a pid v : NoDup xs.*1 → xs = u ++ (a, pid) :: v →
  read_node (node_chain NULL xs) a = Ret (Node pid (last_of NULL u) (first_of v)).
Proof. intros H ->. unfold read_node. by rewrite chain_lookup. Qed.
Lemma find_process_loop_ok xs pid : NoDup xs.*1 → NULL ∉ xs.*1 → ∀ v u fuel, xs = u ++ v → (length v < fuel)%nat →
  find_process_loop fuel (node_chain NULL xs) (first_of v) pid = Ret (address_of pid v).
Proof.
  intros Hn H0. induction v as [|[a p] v IH]; intros u fuel Hx Hf; (destruct fuel as [|fuel]; [cbn in Hf; lia|]); [done|].
  cbn [find_process_loop first_of address_of].
  rewrite nonnull by (intros ->; apply H0; rewrite Hx, fmap_app; set_solver).
  rewrite (chain_read xs u a p v Hn Hx). cbn [mbind res_bind processID node_next].
  destruct (p =? pid); [done|]. apply (IH (u ++ [(a, p)])); [by rewrite <- app_assoc|cbn in Hf; lia].
Qed.

Lemma chain_drop (u : list (Z * Z)) x v : NoDup (u ++ x :: v).*1 → NULL ∉ (u ++ x :: v).*1 →
  NoDup (u ++ v).*1 ∧ NULL ∉ (u ++ v).*1.
Proof.
  rewrite !fmap_app. cbn. rewrite !NoDup_app, NoDup_cons. set_solver.
Qed.
Lemma remove_node_ok u a pid b q v : pid ≠ -1 →
  let xs := u ++ (a, pid) :: (b, q) :: v in let ys := u ++ (b, q) :: v in
  NoDup xs.*1 → NULL ∉ xs.*1 →
  remove_process_node (ProcessList (node_chain NULL xs) (first_of xs)) a = Ret (ProcessList (node_chain NULL ys) (first_of ys)).
Proof.
  intros Hp xs ys Hn H0. unfold remove_process_node. cbn [list_nodes PROCESS_LIST_HEAD].
  assert (Ha0 : a ≠ NULL) by (intros ->; apply H0; unfold xs; rewrite fmap_app; set_solver).
  rewrite (nonnull a Ha0), (chain_read xs u a pid ((b, q) :: v) Hn eq_refl). cbn [mbind res_bind processID node_prev node_next].
  apply Z.eqb_neq in Hp. rewrite Hp. destruct u as [|[c r] u _] using rev_ind.
  - cbn [last_of last]. change (NULL =? NULL) with true. cbv iota. unfold xs, ys in *. cbn [app first_of] in *.
    cbn [fmap list_fmap fst] in Hn, H0. apply NoDup_cons in Hn as [Ha Hn]. apply NoDup_cons in Hn as [Hb Hn].
    assert (a ≠ b ∧ a ∉ v.*1) as [Hab Hav] by set_solver.
    unfold set_node_prev, read_node, destroy_process_node, read_node. cbn [node_chain]. rewrite lookup_insert_ne, lookup_insert_eq by done.
    cbn [mbind res_bind processID node_next]. rewrite (nonnull a Ha0), lookup_insert_ne, lookup_insert_eq by done. cbn [mbind res_bind].
    do 2 f_equal. rewrite (insert_insert_ne _ b a), delete_insert_id, insert_insert_eq; [done| |done].
    rewrite !lookup_insert_ne by done. by apply chain_fresh.
  - rewrite last_of_snoc. unfold xs, ys in *. rewrite <- !app_assoc in *. cbn [app first_of] in *.
    assert (Hc0 : c ≠ NULL) by (intros ->; apply H0; rewrite fmap_app; set_solver). rewrite (nonnull c Hc0).
    assert (Hd : c ≠ b ∧ c ≠ a ∧ b ≠ a).
    { rewrite fmap_app in Hn. apply NoDup_app in Hn as (_ & _ & Hn). cbn in Hn.
      apply NoDup_cons in Hn as [Hc Hn]. apply NoDup_cons in Hn as [Ha Hn]. set_solver. }
    destruct Hd as (Hcb & Hca & Hba). unfold set_node_next, set_node_prev.
    rewrite (chain_read _ u c r ((a, pid) :: (b, q) :: v) Hn eq_refl). cbn [mbind res_bind processID node_prev].
    unfold read_node at 1. rewrite lookup_insert_ne by done.
    pose proof (chain_lookup (u ++ [(c, r); (a, pid)]) NULL b q v) as Hb. rewrite <- app_assoc in Hb. cbn [app] in Hb.
    rewrite Hb by done. cbn [mbind res_bind processID node_next]. unfold destroy_process_node, read_node.
    rewrite (nonnull a Ha0), !lookup_insert_ne by done.
    pose proof (chain_lookup (u ++ [(c, r)]) NULL a pid ((b, q) :: v)) as Ha. rewrite <- app_assoc in Ha. cbn [app] in Ha.
    rewrite Ha by done. cbn [mbind res_bind]. do 2 f_equal; [by rewrite chain_bypass|by destruct u as [|[]]].
Qed.

Lemma lists_cases l ps : lists l ps → l = ProcessList ∅ NULL ∧ ps = [] ∨
  ∃ xs, l = ProcessList (node_chain NULL xs) (first_of xs) ∧ NoDup xs.*1 ∧ NULL ∉ xs.*1 ∧ xs.*2 = ps ++ [-1] ∧ -1 ∉ ps ∧ first_of xs ≠ NULL.
Proof.
  destruct l as [h hd]. intros (xs & Hh & Hd & Hn & H0 & Hp & Hr). cbn in *. subst. destruct Hp as [Hp|[-> ->]]; [|by left].
  right. exists xs. split_and!; try done. destruct xs as [|[a p] xs]; [by destruct ps|]. cbn. set_solver.
Qed.
Lemma lists_intro xs ps : NoDup xs.*1 → NULL ∉ xs.*1 → xs.*2 = ps ++ [-1] → -1 ∉ ps →
  lists (ProcessList (node_chain NULL xs) (first_of xs)) ps.
Proof. intros. exists xs. split_and!; try done. by left. Qed.
Lemma split_first (xs : list (Z * Z)) ps pid : xs.*2 = ps ++ [-1] → pid ∈ ps →
  ∃ (u : list (Z * Z)) (a b q : Z) (v : list (Z * Z)), xs = u ++ (a, pid) :: (b, q) :: v ∧ pid ∉ u.*2
    ∧ (u ++ (b, q) :: v).*2 = without pid ps ++ [-1].
Proof.
  intros Hx Hi. apply list_elem_of_split_l in Hi as (p1 & p2 & -> & Hn).
  destruct (chain_split xs (p1 ++ pid :: p2) (length p1) pid Hx) as (u & a & b & q & v & -> & Hu & Hv).
  { by rewrite list_lookup_middle. }
  rewrite take_app_length in Hu. rewrite drop_app_ge in Hv by lia.
  replace (S (length p1) - length p1)%nat with 1%nat in Hv by lia. cbn [drop] in Hv. rewrite drop_0 in Hv.
  exists u, a, b, q, v. split_and!; [done|by rewrite Hu|]. rewrite without_app, fmap_app, Hu, Hv by done. by rewrite app_assoc.
Qed.
Lemma find_process_ok l ps pid : lists l ps → pid ≠ -1 →
  ∃ p, find_process l pid = Ret p ∧ (p ≠ NULL ↔ pid ∈ ps)
    ∧ (p ≠ NULL → processID <$> l.(list_nodes) !! p = Some pid).
Proof.
  intros H Hp. unfold find_process. destruct (lists_cases l ps H) as [[-> ->]|(xs & -> & Hn & H0 & Hx & Hr & Hf)].
  { exists NULL. split_and!; [done|by set_solver|done]. }
  cbn [list_nodes PROCESS_LIST_HEAD]. rewrite (nonnull _ Hf). apply Z.eqb_neq in Hp as Hp'. rewrite Hp'. cbn [orb].
  rewrite (find_process_loop_ok xs pid Hn H0 xs []) by (done || unfold turns; rewrite chain_size by done; lia).
  eexists. split; [done|]. destruct (decide (pid ∈ ps)) as [Hi|Hi].
  - destruct (split_first xs ps pid Hx Hi) as (u & a & b & q & v & -> & Hu & _). rewrite address_of_app by done.
    assert (a ≠ NULL) by (intros ->; apply H0; rewrite fmap_app; set_solver). split; [tauto|]. intros _.
    by rewrite chain_lookup.
  - rewrite address_of_notin; [by split; [split|]|]. rewrite Hx. set_solver.
Qed.
(** [remove_process] takes the latest process of that id off the list, and does nothing if there is
    none. *)
Lemma remove_process_ok l ps pid : lists l ps → pid ≠ -1 →
  ∃ l', remove_process l pid = Ret l' ∧ lists l' (without pid ps).
Proof.
  intros H Hp. unfold remove_process, find_process. destruct (lists_cases l ps H) as [[-> ->]|(xs & -> & Hn & H0 & Hx & Hr & Hf)].
  { eexists. by split. }
  cbn [list_nodes PROCESS_LIST_HEAD]. rewrite (nonnull _ Hf). apply Z.eqb_neq in Hp as Hp'. rewrite Hp'. cbn [orb].
  rewrite (find_process_loop_ok xs pid Hn H0 xs []) by (done || unfold turns; rewrite chain_size by done; lia).
  cbn [mbind res_bind]. destruct (decide (pid ∈ ps)) as [Hi|Hi].
  - destruct (split_first xs ps pid Hx Hi) as (u & a & b & q & v & -> & Hu & Hw). rewrite address_of_app by done.
    rewrite nonnull by (intros ->; apply H0; rewrite fmap_app; set_solver).
    rewrite remove_node_ok by done. eexists. split; [done|]. destruct (chain_drop _ _ _ Hn H0). apply lists_intro; [done|done|done|].
    intros Hin. apply Hr. clear -Hin. induction ps as [|p ps IH]; cbn in *; [done|]. destruct (p =? pid); set_solver.
  - rewrite address_of_notin by (rewrite Hx; set_solver). cbn. eexists. split; [done|]. by rewrite without_notin.
Qed.

Section Theorems.
Context (place : nodes → Z).
(** malloc gives null or an address that is not in use. *)
Hypothesis place_ok : ∀ h : nodes, place h = NULL ∨ h !! place h = None.

Lemma create_process_node_ok h pid prev next :
  (create_process_node place h pid prev next = (h, NULL) ∧ place h = NULL)
  ∨ (create_process_node place h pid prev next = (<[place h := Node pid prev next]> h, place h)
     ∧ place h ≠ NULL ∧ h !! place h = None).
Proof using place_ok.
  unfold create_process_node. destruct (Z.eqb_spec (place h) NULL); [by left|]. right. by destruct (place_ok h).
Qed.
(** [add_process] puts the process at the front of the list, or leaves it alone and returns -1. *)
Lemma add_process_ok l ps pid : lists l ps → pid ≠ -1 →
  ∃ l' r, add_process place l pid = Ret (l', r)
    ∧ (r = 0 ∧ lists l' (pid :: ps) ∨ r = -1 ∧ lists l' ps ∧ ∃ h, place h = NULL).
Proof using place_ok.
  intros H Hp.
  assert (Hinit : ∃ l0 r0, (if l.(PROCESS_LIST_HEAD) =? NULL then initialize_process_list place l else (l, 0)) = (l0, r0)
    ∧ lists l0 ps ∧ (r0 = 0 ∧ PROCESS_LIST_HEAD l0 ≠ NULL ∨ r0 = -1 ∧ ∃ h, place h = NULL)).
  { destruct (lists_cases l ps H) as [[-> ->]|(xs & -> & Hn & H0 & Hx & Hr & Hf)]; cbn [list_nodes PROCESS_LIST_HEAD].
    - change (NULL =? NULL) with true. cbv iota. unfold initialize_process_list. cbn [list_nodes PROCESS_LIST_HEAD negb Z.eqb].
      destruct (create_process_node_ok ∅ (-1) NULL NULL) as [[-> Hz]|(-> & Hz & Hf)].
      + eexists _, _. split_and!; [done|exact H|]. right. split; [done|]. by eexists.
      + rewrite (nonnull _ Hz). eexists _, _. split_and!; [done| |by left].
        apply (lists_intro [(place ∅, -1)] []); [repeat constructor; set_solver|set_solver|done|set_solver].
    - rewrite (nonnull _ Hf). eexists _, _. split_and!; [done|exact H|by left]. }
  destruct Hinit as (l0 & r0 & E & Hl & Hr0). unfold add_process. rewrite E. clear E H l.
  destruct Hr0 as [[-> Hd]|[-> Hz]]; [|eexists _, _; split; [done|]; right; by split_and!].
  change (0 =? -1) with false. cbv iota.
  destruct (create_process_node_ok (list_nodes l0) pid NULL (PROCESS_LIST_HEAD l0)) as [[-> Hz]|(-> & Hz & Hf)].
  { change (NULL =? NULL) with true. cbv iota. destruct l0. eexists _, _. split; [done|]. right. split_and!; [done..|by eexists]. }
  rewrite (nonnull _ Hz). set (b := place _) in *. clearbody b.
  destruct (lists_cases l0 ps Hl) as [[-> ->]|(xs & -> & Hn & H0 & Hx & Hr & Hd')]; [done|]. cbn [list_nodes PROCESS_LIST_HEAD] in *.
  destruct xs as [|[a q] xs]; [done|]. cbn [first_of] in *.
  assert (Hb : b ∉ ((a, q) :: xs).*1).
  { intros Hb. assert (b ∈ dom (node_chain NULL ((a, q) :: xs))) by (rewrite chain_dom; set_solver). by apply not_elem_of_dom in Hf. }
  unfold set_node_prev, read_node. rewrite lookup_insert_ne by (intros ->; set_solver). cbn [node_chain]. rewrite lookup_insert_eq.
  cbn [mbind res_bind processID node_next]. eexists _, _. split; [done|]. left. split; [done|].
  rewrite (insert_insert_ne _ a b), insert_insert_eq by (intros ->; set_solver).
  apply (lists_intro ((b, pid) :: (a, q) :: xs) (pid :: ps)); [by constructor|set_solver|cbn in *; by rewrite Hx|set_solver].
Qed.
End Theorems.

(** ** Walking along the list *)
(** Where a walk that stops before the root stands. *)
Definition walk_at (v : list (Z * Z)) : Z := match v with (a, p) :: _ => if p =? -1 then NULL else a | [] => NULL end.

Lemma get_latest_process_ok xs : NoDup xs.*1 → NULL ∉ xs.*1 →
  get_latest_process (ProcessList (node_chain NULL xs) (first_of xs)) = Ret (walk_at xs).
Proof.
  intros Hn H0. unfold get_latest_process. cbn [list_nodes PROCESS_LIST_HEAD]. destruct xs as [|[a p] v]; [done|].
  cbn [first_of]. rewrite nonnull by set_solver. by rewrite (chain_read _ [] a p v Hn eq_refl).
Qed.
Lemma get_next_process_ok l u a p v : let xs := u ++ (a, p) :: v in NoDup xs.*1 → NULL ∉ xs.*1 →
  l.(list_nodes) = node_chain NULL xs → get_next_process l a = Ret (walk_at v).
Proof.
  intros xs Hn H0 Hl. unfold get_next_process. rewrite Hl, nonnull by (intros ->; apply H0; unfold xs; rewrite fmap_app; set_solver).
  rewrite (chain_read xs u a p v Hn eq_refl). cbn [mbind res_bind node_next]. destruct v as [|[b q] v]; [done|].
  cbn [first_of]. rewrite nonnull by (intros ->; apply H0; unfold xs; rewrite fmap_app; set_solver).
  rewrite (chain_read xs (u ++ [(a, p)]) b q v Hn); [done|]. unfold xs. by rewrite <- app_assoc.
Qed.
Lemma destroy_loop_ok xs : ∀ prv fuel, NoDup xs.*1 → NULL ∉ xs.*1 → (length xs < fuel)%nat →
  destroy_loop fuel (node_chain prv xs) (first_of xs) = Ret ∅.
Proof.
  induction xs as [|[a p] xs IH]; intros prv fuel Hn H0 Hf; (destruct fuel as [|fuel]; [cbn in Hf; lia|]); [done|].
  cbn [destroy_loop first_of fmap list_fmap fst node_chain] in *. apply NoDup_cons in Hn as [Ha Hn].
  assert (Ha0 : a ≠ NULL) by set_solver. rewrite (nonnull a Ha0). unfold read_node at 1. rewrite lookup_insert_eq.
  cbn [mbind res_bind]. unfold destroy_process_node, read_node. rewrite (nonnull a Ha0), lookup_insert_eq. cbn [mbind res_bind node_next].
  rewrite delete_insert_id by (by apply chain_fresh). apply IH; [done|set_solver|cbn in Hf; lia].
Qed.
(** Nothing is left of a list that is destroyed. *)
Lemma destroy_process_list_ok l ps : lists l ps → destroy_process_list l = Ret (ProcessList ∅ NULL).
Proof.
  intros H. unfold destroy_process_list. destruct (lists_cases l ps H) as [[-> ->]|(xs & -> & Hn & H0 & _ & _ & Hf)]; [done|].
  cbn [list_nodes PROCESS_LIST_HEAD]. rewrite (nonnull _ Hf). rewrite destroy_loop_ok; [done..|].
  unfold turns. rewrite chain_size by done. lia.
Qed.

(** ** The list as the shell uses it *)
Inductive list_op := Add (pid : Z) | Remove (pid : Z) | Destroy.
(** The list after a sequence of operations and what the additions returned. *)
Fixpoint run_ops (place : nodes → Z) (ops : list list_op) (l : process_list) : res (process_list * list Z) :=
  match ops with
  | [] => Ret (l, [])
  | Add pid :: ops =>
    '(l, r) ← add_process place l pid;
    '(l, rs) ← run_ops place ops l;
    Ret (l, r :: rs)
  | Remove pid :: ops => l ← remove_process l pid; run_ops place ops l
  | Destroy :: ops => l ← destroy_process_list l; run_ops place ops l
  end.
(** The sequence of processes that the operations stand for. *)
Fixpoint processes_after (ops : list list_op) (rs : list Z) (ps : list Z) : list Z :=
  match ops, rs with
  | Add pid :: ops, r :: rs => processes_after ops rs (if r =? 0 then pid :: ps else ps)
  | Remove pid :: ops, _ => processes_after ops rs (without pid ps)
  | Destroy :: ops, _ => processes_after ops rs []
  | _, _ => ps
  end.
Definition op_ok (o : list_op) : Prop := match o with Add pid | Remove pid => pid ≠ -1 | Destroy => True end.

Lemma run_ops_ok place ops : (∀ h : nodes, place h = NULL ∨ h !! place h = None) → Forall op_ok ops →
  ∀ l ps, lists l ps → ∃ l' rs, run_ops place ops l = Ret (l', rs) ∧ lists l' (processes_after ops rs ps).
Proof.
  intros Hp Ho. induction Ho as [|o ops Ho _ IH]; intros l ps H; [by eexists _, _|]. destruct o as [pid|pid|]; cbn [run_ops].
  - destruct (add_process_ok place Hp l ps pid H Ho) as (l1 & r & -> & Hr). cbn [mbind res_bind].
    destruct Hr as [(-> & Hl)|(-> & Hl & _)]; destruct (IH l1 _ Hl) as (l2 & rs & -> & H2); cbn [mbind res_bind];
      eexists _, _; (split; [done|]); exact H2.
  - destruct (remove_process_ok l ps pid H Ho) as (l1 & -> & Hl). cbn [mbind res_bind].
    destruct (IH l1 _ Hl) as (l2 & rs & -> & H2). eexists _, _. split; [done|]. by destruct rs.
  - rewrite (destroy_process_list_ok l ps H). cbn [mbind res_bind].
    destruct (IH (ProcessList ∅ NULL) []) as (l2 & rs & -> & H2); [|eexists _, _; split; [done|]; by destruct rs].
    exists []. split_and!; [done|done|constructor|set_solver|by right|set_solver].
Qed.

(** C24: The process list refines a sequence of process ids: whatever is added, removed and
    destroyed, in any order and with any allocation failing, no operation touches a node that is
    not in use, the list holds exactly the processes added and not removed, the latest first, and
    [find_process] finds exactly those. *)
Theorem process_list_refines place ops pid :
  (∀ h : nodes, place h = NULL ∨ h !! place h = None) → Forall op_ok ops → pid ≠ -1 →
  ∃ l rs, run_ops place ops (ProcessList ∅ NULL) = Ret (l, rs) ∧ lists l (processes_after ops rs [])
    ∧ ∃ p, find_process l pid = Ret p ∧ (p ≠ NULL ↔ pid ∈ processes_after ops rs []).
Proof.
  intros Hp Ho Hpid. destruct (run_ops_ok place ops Hp Ho (ProcessList ∅ NULL) []) as (l & rs & E & Hl).
  { exists []. split_and!; [done|done|constructor|set_solver|by right|set_solver]. }
  exists l, rs. split_and!; [done|done|]. destruct (find_process_ok l _ pid Hl Hpid) as (p & Ep & Hi & _). by exists p.
Qed.
Definition demo_list_ops : list list_op := [Add 7; Add 9; Add 8; Remove 9].
Lemma process_list_witness : ∃ l rs, run_ops after_all demo_list_ops (ProcessList ∅ NULL) = Ret (l, rs) ∧ lists l [8; 7].
Proof.
  destruct (process_list_refines after_all demo_list_ops 9) as (l & rs & E & H & _).
  - intros h. right. apply (after_all_ok h).
  - repeat constructor; discriminate.
  - discriminate.
  - exists l, rs. split; [exact E|]. vm_compute in E. injection E as <- <-. exact H.
Defined.
