(* ===== verification/ShellParse.v ===== *)
(** * How the shell takes a command line apart (hw3/helpers.c, program.c, program_redirection.c,
      program_piping.c)

    The tokens of a command line are those of the tokenizer, [None] for a null pointer.  A
    pointer to a token is the token, [None] the null pointer; an array from malloc is the list of
    its cells, [None] where nothing was written.  An access outside an array, to a cell that was
    never written or through a null pointer is undefined, and so is freeing a block twice. *)
From Stdlib Require Import (notations) Ascii String.
From S2P Require Import Prelude Stdio Sorting WordCount WordList CText Tokenizer.

Abbreviation tokens_t := (option (list (list Z))).
Abbreviation ptr := (option (list Z)).

(** ** helpers.c *)
Definition is_tokens_empty (tokens : tokens_t) : bool :=
  match tokens with
  | None => false
  | Some _ => match tokens_get_token tokens 0 with None => true | Some _ => false end
  end.
Definition is_integer (string : ptr) : Z :=
  match string with
  | None => -1
  | Some s => if forallb isdigit s then (if 0 <=? atoi_text s then atoi_text s else -1) else -1
  end.
(** [tokens_get_token (tokens, tokenLength - 1)] is null for an empty list: its index is the largest
    size_t.  [strcmp] takes no null pointer. *)
Definition should_execute_in_background (tokens : tokens_t) : res bool :=
  match tokens with
  | None => Ret false
  | Some _ =>
    match tokens_get_length tokens with
    | O => Panic
    | S n => match tokens_get_token tokens n with None => Panic | Some argument => Ret (text_is argument "&") end
    end
  end.

(** [join_strings]: the loop copies each text with its terminator, which the separator replaces. *)
Fixpoint join_loop (strings : list (list Z)) (separator : Z) (b : buffer) (n : nat) : res (buffer * nat) :=
  match strings with
  | [] => Ret (b, n)
  | s :: strings =>
    b ← store b n (s ++ [0]);
    b ← store b (n + length s) [separator];
    join_loop strings separator b (n + length s + 1)
  end.
Definition join_strings (strings : list (list Z)) (separator : Z) : res buffer :=
  let size := (sum_list (length <$> strings) + (length strings + 1))%nat in
  '(b, n) ← join_loop strings separator (replicate size None) 0;
  match n with O => Panic | S n => store b n [0] end.

Section Files.
(** What [access] and [stat] say of a path: whether it is a regular file and may be executed. *)
Context (file : list Z → option (bool * bool)).
Definition is_file_executable (filePath : list Z) : Z :=
  match file filePath with
  | None => 1
  | Some (regular, permitted) => if negb regular then 1 else if negb permitted then 1 else 0
  end.
(** [strtok] with a single delimiter: the non-empty pieces. *)
Fixpoint strtok_pieces (delimiter : Z) (cur s : list Z) : list (list Z) :=
  match s with
  | [] => if (length cur =? 0)%nat then [] else [cur]
  | c :: s =>
    if c =? delimiter then (if (length cur =? 0)%nat then [] else [cur]) ++ strtok_pieces delimiter [] s
    else strtok_pieces delimiter (cur ++ [c]) s
  end.
Fixpoint resolve_loop (directories : list (list Z)) (newFileName : list Z) : ptr :=
  match directories with
  | [] => None
  | d :: directories =>
    if is_file_executable (d ++ newFileName) =? 0 then Some (d ++ newFileName) else resolve_loop directories newFileName
  end.
(** The path of an executable; [PATH] is the environment variable.  Allocations succeed. *)
Definition resolve_executable_full_path (PATH : ptr) (fileName : ptr) : res ptr :=
  match fileName with
  | None => Ret None
  | Some fileName =>
    if (match fileName with 47 :: _ => true | _ => false end) && (is_file_executable fileName =? 0) then Ret (Some fileName)
    else
      match PATH with
      | None => Panic
      | Some PATH =>
        match strtok_pieces (chr ":") [] PATH with
        | [] => Panic
        | directories => Ret (resolve_loop directories (chr "/" :: fileName))
        end
      end
  end.
(** The names up to the first null pointer. *)
Fixpoint until_null (ps : list ptr) : list (list Z) :=
  match ps with Some p :: ps => p :: until_null ps | _ => [] end.
Fixpoint resolve_all (PATH : ptr) (names : list (list Z)) : res (option (list (list Z))) :=
  match names with
  | [] => Ret (Some [])
  | n :: names =>
    p ← resolve_executable_full_path PATH (Some n);
    match p with
    | None => Ret None
    | Some p => r ← resolve_all PATH names; Ret (option_map (cons p) r)
    end
  end.
Definition resolve_executable_full_paths (PATH : ptr) (fileNames : list ptr) : res (option (list (list Z))) :=
  resolve_all PATH (until_null fileNames).
End Files.

(** ** program.c *)
Definition get_program_name (tokens : tokens_t) : ptr :=
  match tokens with None => None | Some _ => tokens_get_token tokens 0 end.

(** [argList[i] = tokens_get_token (tokens, i)] for the first [n] tokens, in a block with a null
    pointer behind them. *)
Fixpoint copy_tokens (tokens : tokens_t) (n i : nat) (argList : list (option ptr)) : res (list (option ptr)) :=
  match n with
  | O => Ret argList
  | S n => argList ← store_at argList i (Some (tokens_get_token tokens i)); copy_tokens tokens n (S i) argList
  end.
Definition argument_list (tokens : tokens_t) (argListLength : nat) : res (list (option ptr)) :=
  argList ← store_at (replicate (argListLength + 1) None) argListLength (Some None);
  copy_tokens tokens argListLength 0 argList.

Section Alloc.
(** Whether the [n]-th allocation of a call succeeds. *)
Context (granted : nat → bool).

(** The value returned, [*argListPtr] and [*bgExecPtr].  When malloc fails the code writes through
    the null pointer it got. *)
Definition get_program_arguments (tokens : tokens_t) : res (Z * option (list (option ptr)) * bool) :=
  match tokens with
  | None => Ret (-1, None, false)
  | Some _ =>
    bgExec ← should_execute_in_background tokens;
    let argListLength := if (bgExec : bool) then (tokens_get_length tokens - 1)%nat else tokens_get_length tokens in
    if negb (granted 0%nat) then Panic
    else argList ← argument_list tokens argListLength; Ret (0, Some argList, bgExec)
  end.
(** The result, the program's name, its arguments and the background flag. *)
Definition parse_tokens (tokens : tokens_t) : res (Z * ptr * option (list (option ptr)) * bool) :=
  match get_program_name tokens with
  | None => Ret (-1, None, None, false)
  | Some programName =>
    '(result, argList, bgExec) ← get_program_arguments tokens;
    if result =? 0 then Ret (0, Some programName, argList, bgExec) else Ret (-1, None, None, false)
  end.

(** ** program_redirection.c *)
Definition is_redirect_symbol (argument : ptr) : Z :=
  match argument with
  | None => 0
  | Some a => if text_is a "<" then -1 else if text_is a ">" then 1 else 0
  end.
Fixpoint redirection_loop (ts : list (list Z)) : Z :=
  match ts with
  | [] => 0
  | t :: ts => if negb (is_redirect_symbol (Some t) =? 0) then is_redirect_symbol (Some t) else redirection_loop ts
  end.
Definition contains_redirection (tokens : tokens_t) : Z := match tokens with None => 0 | Some ts => redirection_loop ts end.

Fixpoint file_name_loop (ts : list (list Z)) (redirectionEncountered : bool) : Z * ptr :=
  match ts with
  | [] => (-1, None)
  | t :: ts =>
    if negb (is_redirect_symbol (Some t) =? 0) then file_name_loop ts true
    else if redirectionEncountered then (0, Some t)
    else file_name_loop ts redirectionEncountered
  end.
Definition get_redirection_file_name (tokens : tokens_t) : Z * ptr :=
  match tokens with None => (-1, None) | Some ts => file_name_loop ts false end.
Definition get_redirected_program_name (tokens : tokens_t) : Z * ptr :=
  match tokens with None => (-1, None) | Some _ => (0, tokens_get_token tokens 0) end.
(** The number of tokens before the first redirection symbol. *)
Fixpoint count_arguments (ts : list (list Z)) : nat :=
  match ts with
  | [] => O
  | t :: ts => if negb (is_redirect_symbol (Some t) =? 0) then O else S (count_arguments ts)
  end.
Definition get_redirected_program_argument (tokens : tokens_t) : res (Z * option (list (option ptr)) * bool) :=
  match tokens with
  | None => Ret (-1, None, false)
  | Some ts =>
    bgExec ← should_execute_in_background tokens;
    let tokensLength := if (bgExec : bool) then (tokens_get_length tokens - 1)%nat else tokens_get_length tokens in
    let argListLength := count_arguments (take tokensLength ts) in
    if negb (granted 0%nat) then Ret (-1, None, bgExec)
    else argList ← argument_list tokens argListLength; Ret (0, Some argList, bgExec)
  end.
(** The result, the program's name, its arguments, the file's name and the background flag. *)
Definition parse_redirection_tokens (tokens : tokens_t) : res (Z * ptr * option (list (option ptr)) * ptr * bool) :=
  match tokens with
  | None => Ret (-1, None, None, None, false)
  | Some _ =>
    let '(r1, fileName) := get_redirection_file_name tokens in
    let '(r2, programName) := get_redirected_program_name tokens in
    if negb (Z.lor r1 r2 =? 0) then Ret (-1, None, None, None, false)
    else
      '(result, argList, bgExec) ← get_redirected_program_argument tokens;
      if negb (result =? 0) then Ret (-1, None, None, None, false)
      else Ret (0, programName, argList, fileName, bgExec)
  end.

(** ** program_piping.c *)
Definition is_pipe_symbol (argument : ptr) : bool := match argument with None => false | Some a => text_is a "|" end.
Definition contains_piping (tokens : tokens_t) : bool :=
  match tokens with None => false | Some ts => existsb (λ t, is_pipe_symbol (Some t)) ts end.

Fixpoint piped_count_loop (ts : list (list Z)) (pipeEncountered : bool) (numOfProcesses : nat) : nat :=
  match ts with
  | [] => numOfProcesses
  | t :: ts =>
    if is_pipe_symbol (Some t) then piped_count_loop ts true numOfProcesses
    else if pipeEncountered then piped_count_loop ts false (S numOfProcesses)
    else piped_count_loop ts pipeEncountered numOfProcesses
  end.
Definition count_piped_processes (tokens : tokens_t) : nat :=
  match tokens with None | Some [] => O | Some ts => piped_count_loop ts false 1 end.

Fixpoint names_loop (ts : list (list Z)) (pipeEncountered : bool) (names : list ptr) (i : nat) : res (list ptr) :=
  match ts with
  | [] => Ret names
  | t :: ts =>
    if is_pipe_symbol (Some t) then names_loop ts true names i
    else if pipeEncountered then names ← store_at names i (Some t); names_loop ts false names (S i)
    else names_loop ts pipeEncountered names i
  end.
(** The result and [*programNamesPtr]. *)
Definition get_piped_program_names (tokens : tokens_t) : res (Z * option (list ptr)) :=
  match tokens with
  | None => Ret (-1, None)
  | Some ts =>
    let numOfProcesses := count_piped_processes tokens in
    if (numOfProcesses =? 0)%nat then Ret (0, None)
    else if negb (granted 0%nat) then Ret (-1, None)
    else names ← names_loop ts true (replicate (numOfProcesses + 1) None) 0; Ret (0, Some names)
  end.

(** "Record the length of each argument list." *)
Fixpoint lengths_loop (ts : list (list Z)) (argListIndex : nat) (startIndex finishIndex : Z)
    (argListLengths : list (option Z)) : res (list (option Z)) :=
  match ts with
  | [] => Ret argListLengths
  | t :: ts =>
    if is_pipe_symbol (Some t) then lengths_loop ts (S argListIndex) finishIndex (finishIndex + 1) argListLengths
    else
      argListLengths ← store_at argListLengths argListIndex (Some (finishIndex - startIndex));
      lengths_loop ts argListIndex startIndex (finishIndex + 1) argListLengths
  end.
(** "Allocate memory for each argument list": [n] lists are left to make.  When malloc fails the
    array is freed twice. *)
Fixpoint alloc_lists (n index : nat) (argListLengths : list (option Z)) (argLists : list (option (list (option ptr))))
    : res (list (option (list (option ptr)))) :=
  match n with
  | O => Ret argLists
  | S n =>
    len ← read_at argListLengths index;
    match len with
    | None => Panic
    | Some argListLength =>
      if negb (granted (index + 2)%nat) then Panic
      else
        argList ← store_at (replicate (Z.to_nat (argListLength + 1)) None) (Z.to_nat argListLength) (Some None);
        argLists ← store_at argLists index (Some argList);
        alloc_lists n (S index) argListLengths argLists
    end
  end.
(** "Extract all tokens into argument lists." *)
Fixpoint extract_loop (ts : list (list Z)) (argListIndex argIndex : nat) (argLists : list (option (list (option ptr))))
    : res (list (option (list (option ptr)))) :=
  match ts with
  | [] => Ret argLists
  | t :: ts =>
    argList ← read_at argLists argListIndex;
    if is_pipe_symbol (Some t) then extract_loop ts (S argListIndex) 0 argLists
    else
      match argList with
      | None => Panic
      | Some argList =>
        argList ← store_at argList argIndex (Some (Some t));
        argLists ← store_at argLists argListIndex (Some argList);
        extract_loop ts argListIndex (S argIndex) argLists
      end
  end.
(** The result, [*programArgListsPtr] and [*bgExecPtr]. *)
Definition get_piped_program_arguments (tokens : tokens_t) : res (Z * option (list (option (list (option ptr)))) * bool) :=
  match tokens with
  | None => Ret (-1, None, false)
  | Some ts =>
    let numOfProcesses := count_piped_processes tokens in
    if (numOfProcesses =? 0)%nat then Ret (0, None, false)
    else if negb (granted 0%nat) then Ret (-1, None, false)
    else
      argListLengths ← store_at (replicate (numOfProcesses + 1) None) numOfProcesses (Some (-1));
      bgExec ← should_execute_in_background tokens;
      let ts := if (bgExec : bool) then take (length ts - 1) ts else ts in
      argListLengths ← lengths_loop ts 0 (-1) 0 argListLengths;
      if negb (granted 1%nat) then Ret (-1, None, bgExec)
      else
        argLists ← alloc_lists numOfProcesses 0 argListLengths (replicate (numOfProcesses + 1) None);
        argLists ← extract_loop ts 0 0 argLists;
        Ret (0, Some argLists, bgExec)
  end.
(** The result, the programs' names, their argument lists and the background flag. *)
Definition parse_piping_tokens (tokens : tokens_t)
    : res (Z * option (list ptr) * option (list (option (list (option ptr)))) * bool) :=
  match tokens with
  | None => Ret (-1, None, None, false)
  | Some _ =>
    '(result, names) ← get_piped_program_names tokens;
    if negb (result =? 0) then Ret (-1, None, None, false)
    else
      '(result, argLists, bgExec) ← get_piped_program_arguments tokens;
      if negb (result =? 0) then Ret (-1, None, None, false)
      else Ret (0, names, argLists, bgExec)
  end.
End Alloc.

(** ** Examples *)
Definition always_granted (_ : nat) : bool := true.
Definition argv (args : list (list Z)) : list (option ptr) := (Some <$> (Some <$> args)) ++ [Some None].
Example piping_example :
  parse_piping_tokens always_granted (Some (chars <$> ["ls"; "-l"; "|"; "wc"; "&"]%string))
  = Ret (0, Some [Some (chars "ls"); Some (chars "wc"); None],
         Some [Some (argv (chars <$> ["ls"; "-l"]%string)); Some (argv [chars "wc"]); None], true).
Proof. vm_compute. reflexivity. Qed.
Example redirection_example :
  parse_redirection_tokens always_granted (Some (chars <$> ["sort"; "-r"; "<"; "in"]%string))
  = Ret (0, Some (chars "sort"), Some (argv (chars <$> ["sort"; "-r"]%string)), Some (chars "in"), false).
Proof. vm_compute. reflexivity. Qed.

(** ** Pipelines are taken apart *)
(** A program call: at least one token, none of them a pipe symbol. *)
Definition program_ok (p : list (list Z)) : Prop := p ≠ [] ∧ Forall (λ t, is_pipe_symbol (Some t) = false) p.
(** The tokens of a pipeline. *)
Fixpoint pipeline (progs : list (list (list Z))) : list (list Z) :=
  match progs with
  | [] => []
  | p :: progs => p ++ match progs with [] => [] | _ => chars "|" :: pipeline progs end
  end.
(** What comes behind the first program. *)
Definition piped (progs : list (list (list Z))) : list (list Z) :=
  match progs with [] => [] | _ => chars "|" :: pipeline progs end.
Lemma pipeline_cons p progs : pipeline (p :: progs) = p ++ piped progs.
Proof. done. Qed.
Lemma is_pipe : is_pipe_symbol (Some (chars "|")) = true.
Proof. done. Qed.

(** Tokens that are not pipe symbols, for each of the loops. *)
Lemma count_tokens p rest n : Forall (λ t, is_pipe_symbol (Some t) = false) p →
  piped_count_loop (p ++ rest) false n = piped_count_loop rest false n.
Proof. induction 1 as [|t p Ht _ IH]; cbn [app piped_count_loop]; [done|]. by rewrite Ht. Qed.
Lemma count_piped progs rest : ∀ n, Forall program_ok progs → Forall (λ t, is_pipe_symbol (Some t) = false) rest →
  piped_count_loop (piped progs ++ rest) false n = (n + length progs)%nat.
Proof.
  induction progs as [|p progs IH]; intros n Hp Hr; cbn [piped].
  - rewrite <- (app_nil_r ([] ++ rest)). rewrite count_tokens by done. cbn. lia.
  - apply Forall_cons in Hp as [[Hne Hp] Hps]. rewrite pipeline_cons. cbn [app piped_count_loop]. rewrite is_pipe.
    destruct p as [|t p]; [done|]. apply Forall_cons in Hp as [Ht Hp]. cbn [app piped_count_loop length]. rewrite Ht.
    rewrite <- app_assoc, count_tokens, IH by done. lia.
Qed.
Lemma count_pipeline progs rest : Forall program_ok progs → progs ≠ [] → Forall (λ t, is_pipe_symbol (Some t) = false) rest →
  count_piped_processes (Some (pipeline progs ++ rest)) = length progs.
Proof.
  intros Hp Hne Hr. destruct progs as [|p progs]; [done|]. apply Forall_cons in Hp as [[Hn Hp] Hps].
  rewrite pipeline_cons, <- app_assoc. unfold count_piped_processes.
  destruct (p ++ piped progs ++ rest) eqn:E; [by destruct p|]. rewrite <- E, count_tokens, count_piped by done. done.
Qed.

Lemma names_words p rest names i : Forall (λ t, is_pipe_symbol (Some t) = false) p →
  names_loop (p ++ rest) false names i = names_loop rest false names i.
Proof. induction 1 as [|t p Ht _ IH]; cbn [app names_loop]; [done|]. by rewrite Ht. Qed.
Definition name_of (p : list (list Z)) : ptr := head p.
Lemma names_pipeline progs rest : ∀ u k, Forall program_ok progs → progs ≠ [] → Forall (λ t, is_pipe_symbol (Some t) = false) rest →
  names_loop (pipeline progs ++ rest) true (u ++ replicate (length progs + k) None) (length u)
  = Ret (u ++ (name_of <$> progs) ++ replicate k None).
Proof.
  induction progs as [|p progs IH]; intros u k Hp Hne Hr; [done|]. apply Forall_cons in Hp as [[Hn Hp] Hps].
  destruct p as [|t p]; [done|]. apply Forall_cons in Hp as [Ht Hp]. rewrite pipeline_cons.
  cbn [app names_loop length replicate Nat.add]. rewrite Ht, store_at_middle by done. cbn [mbind res_bind].
  rewrite <- app_assoc, names_words by done. destruct progs as [|q progs].
  - cbn [piped app]. rewrite <- (app_nil_r rest), names_words by done. done.
  - cbn [piped app names_loop]. rewrite is_pipe. specialize (IH (u ++ [Some t]) k Hps ltac:(done) Hr).
    rewrite <- !app_assoc, length_app in IH. cbn [app length] in IH. rewrite Nat.add_1_r in IH. exact IH.
Qed.

Lemma lengths_words p rest k s : ∀ f u x v, Forall (λ t, is_pipe_symbol (Some t) = false) p → length u = k →
  lengths_loop (p ++ rest) k s f (u ++ x :: v)
  = lengths_loop rest k s (f + Z.of_nat (length p))
      (u ++ (if (length p =? 0)%nat then x else Some (f + Z.of_nat (length p) - 1 - s)) :: v).
Proof.
  induction p as [|t p IH]; intros f u x v Hp Hk; [cbn [app length Nat.eqb]; by rewrite Z.add_0_r|].
  apply Forall_cons in Hp as [Ht Hp]. cbn [app lengths_loop]. rewrite Ht, store_at_middle by done. cbn [mbind res_bind].
  rewrite IH by done. cbn [length]. change (S (length p) =? 0)%nat with false. cbv iota. f_equal; [lia|].
  destruct (Nat.eqb_spec (length p) 0) as [->|]; do 3 f_equal; lia.
Qed.
Lemma lengths_pipeline progs : ∀ s u v, Forall program_ok progs → progs ≠ [] →
  lengths_loop (pipeline progs) (length u) s (s + 1) (u ++ replicate (length progs) None ++ v)
  = Ret (u ++ ((λ p, Some (Z.of_nat (length p))) <$> progs) ++ v).
Proof.
  induction progs as [|p progs IH]; intros s u v Hp Hne; [done|]. apply Forall_cons in Hp as [[Hn Hp] Hps].
  rewrite pipeline_cons. cbn [length replicate app]. rewrite lengths_words by done. rewrite (nonempty_length p Hn).
  replace (s + 1 + Z.of_nat (length p) - 1 - s) with (Z.of_nat (length p)) by lia. destruct progs as [|q progs]; [done|].
  cbn [piped lengths_loop]. rewrite is_pipe. specialize (IH (s + 1 + Z.of_nat (length p)) (u ++ [Some (Z.of_nat (length p))]) v Hps ltac:(done)).
  rewrite <- !app_assoc, length_app in IH. cbn [app length] in IH. rewrite Nat.add_1_r in IH. exact IH.
Qed.

(** An argument list before its tokens are in it. *)
Definition blank_args (n : nat) : list (option ptr) := replicate n None ++ [Some None].
Lemma blank_made n : store_at (replicate (Z.to_nat (Z.of_nat n + 1)) None) (Z.to_nat (Z.of_nat n)) (Some None) = Ret (blank_args n).
Proof.
  replace (Z.to_nat (Z.of_nat n + 1)) with (n + 1)%nat by lia. rewrite Nat2Z.id, replicate_add. apply store_at_middle.
  by rewrite length_replicate.
Qed.
Lemma alloc_lists_ok granted progs : (∀ i, granted i = true) → ∀ (lu : list (option Z)) lv u k, length lu = length u →
  alloc_lists granted (length progs) (length u) (lu ++ ((λ p, Some (Z.of_nat (length p))) <$> progs) ++ lv)
    (u ++ replicate (length progs + k) None)
  = Ret (u ++ ((λ p : list (list Z), Some (blank_args (length p))) <$> progs) ++ replicate k None).
Proof.
  intros Hg. induction progs as [|p progs IH]; intros lu lv u k Hl; [done|]. cbn [length alloc_lists fmap list_fmap app Nat.add replicate].
  rewrite read_at_middle by done. cbn [mbind res_bind]. rewrite Hg. cbn [negb]. rewrite blank_made. cbn [mbind res_bind].
  rewrite store_at_middle by done. cbn [mbind res_bind].
  specialize (IH (lu ++ [Some (Z.of_nat (length p))]) lv (u ++ [Some (blank_args (length p))]) k).
  rewrite <- !app_assoc, !length_app in IH. cbn [app length] in IH. rewrite !Nat.add_1_r in IH. rewrite IH by lia. done.
Qed.

Lemma extract_words p rest : ∀ done u v, Forall (λ t, is_pipe_symbol (Some t) = false) p →
  extract_loop (p ++ rest) (length u) (length done)
    (u ++ Some ((Some <$> (Some <$> done)) ++ blank_args (length p)) :: v)
  = extract_loop rest (length u) (length done + length p) (u ++ Some (argv (done ++ p)) :: v).
Proof.
  induction p as [|t p IH]; intros d u v Hp.
  { cbn [app length]. rewrite Nat.add_0_r, app_nil_r. done. }
  apply Forall_cons in Hp as [Ht Hp]. cbn [app extract_loop]. rewrite read_at_middle by done. cbn [mbind res_bind]. rewrite Ht.
  change (blank_args (length (t :: p))) with (None :: blank_args (length p)).
  rewrite store_at_middle by (by rewrite !length_fmap). cbn [mbind res_bind]. rewrite store_at_middle by done. cbn [mbind res_bind].
  specialize (IH (d ++ [t]) u v Hp). rewrite !fmap_app, length_app, <- !app_assoc in IH. cbn [fmap list_fmap app length] in IH.
  rewrite Nat.add_1_r in IH. rewrite IH. f_equal; cbn; lia.
Qed.
Lemma extract_pipeline progs : ∀ u v, Forall program_ok progs → progs ≠ [] →
  extract_loop (pipeline progs) (length u) 0 (u ++ ((λ p : list (list Z), Some (blank_args (length p))) <$> progs) ++ v)
  = Ret (u ++ (Some <$> (argv <$> progs)) ++ v).
Proof.
  induction progs as [|p progs IH]; intros u v Hp Hne; [done|]. apply Forall_cons in Hp as [[Hn Hp] Hps].
  rewrite pipeline_cons. cbn [fmap list_fmap app].
  pose proof (extract_words p (piped progs) [] u (((λ p : list (list Z), Some (blank_args (length p))) <$> progs) ++ v) Hp) as E.
  cbn [app fmap list_fmap length] in E. cbn [fmap list_fmap] in E |- *. rewrite E. clear E.
  destruct progs as [|q progs]; [done|]. cbn [piped extract_loop]. rewrite read_at_middle by done. cbn [mbind res_bind]. rewrite is_pipe.
  specialize (IH (u ++ [Some (argv p)]) v Hps ltac:(done)). rewrite <- !app_assoc, length_app in IH. cbn [app length] in IH.
  rewrite Nat.add_1_r in IH. exact IH.
Qed.

Lemma background_last ts t : should_execute_in_background (Some (ts ++ [t])) = Ret (text_is t "&").
Proof.
  unfold should_execute_in_background, tokens_get_length, tokens_get_token. rewrite length_app, Nat.add_1_r.
  destruct (Nat.leb_spec (S (length ts)) (length ts)); [lia|]. by rewrite list_lookup_middle.
Qed.
Lemma background_flag (ts : list (list Z)) (bg : bool) : ts ≠ [] → (bg = false → last ts ≠ Some (chars "&")) →
  should_execute_in_background (Some (ts ++ if bg then [chars "&"] else [])) = Ret bg.
Proof.
  intros Hne Hl. destruct bg; [apply background_last|]. rewrite app_nil_r. specialize (Hl eq_refl).
  destruct ts as [|t ts _] using rev_ind; [done|]. rewrite last_snoc in Hl. rewrite background_last, text_is_spec.
  rewrite bool_decide_eq_false_2; [done|]. by intros ->.
Qed.
Lemma background_dropped (ts : list (list Z)) (bg : bool) :
  let tokens := ts ++ (if bg then [chars "&"] else []) in
  (if bg then take (length tokens - 1) tokens else tokens) = ts.
Proof. destruct bg; cbn zeta; [|apply app_nil_r]. rewrite length_app, Nat.add_sub. by rewrite take_app_length. Qed.
Lemma pipeline_nonempty progs : Forall program_ok progs → progs ≠ [] → pipeline progs ≠ [].
Proof. intros H Hne. destruct progs as [|p ps]; [done|]. apply Forall_cons in H as [[Hp _] _]. by destruct p. Qed.
Lemma flag_is_word (bg : bool) : Forall (λ t, is_pipe_symbol (Some t) = false) (if bg then [chars "&"] else []).
Proof. destruct bg; by repeat constructor. Qed.

Lemma pipeline_parsed_ok granted progs (bg : bool) :
  (∀ i, granted i = true) → Forall program_ok progs → progs ≠ [] → (bg = false → last (pipeline progs) ≠ Some (chars "&")) →
  parse_piping_tokens granted (Some (pipeline progs ++ if bg then [chars "&"] else []))
  = Ret (0, Some ((name_of <$> progs) ++ [None]), Some ((Some <$> (argv <$> progs)) ++ [None]), bg).
Proof.
  intros Hg Hp Hne Hl. pose proof (flag_is_word bg) as Hw. set (flag := if bg then [chars "&"] else []) in *.
  assert (Hlen : (length progs =? 0)%nat = false) by (by destruct progs).
  unfold parse_piping_tokens, get_piped_program_names, get_piped_program_arguments.
  rewrite (count_pipeline progs flag Hp Hne Hw), Hlen, !Hg. cbn [negb].
  pose proof (names_pipeline progs flag [] 1 Hp Hne Hw) as En. cbn [app length replicate] in En. rewrite En. cbn [mbind res_bind Z.eqb negb].
  rewrite (replicate_add (length progs) 1 (None : option Z)). cbn [replicate].
  rewrite (store_at_middle (replicate (length progs) (None : option Z))) by (by rewrite length_replicate). cbn [mbind res_bind].
  unfold flag. rewrite background_flag by (done || by apply pipeline_nonempty). cbn [mbind res_bind]. rewrite background_dropped.
  pose proof (lengths_pipeline progs (-1) [] [Some (-1)] Hp Hne) as E. cbn [app length] in E. change (-1 + 1) with 0 in E. rewrite E.
  cbn [mbind res_bind].
  pose proof (alloc_lists_ok granted progs Hg [] [Some (-1)] [] 1 eq_refl) as Ea. cbn [app length] in Ea.
  rewrite Ea. cbn [mbind res_bind replicate].
  pose proof (extract_pipeline progs [] [None] Hp Hne) as Ex. cbn [app length] in Ex. rewrite Ex. done.
Qed.
(** A pipeline is taken apart: from the tokens of its programs with pipe symbols between them,
    and a background flag behind them, the parser makes the array of the programs' names and the
    argument list of each, all ended by null pointers, without leaving any of its arrays. *)
Theorem pipeline_parsed granted progs (bg : bool) :
  (∀ i, granted i = true) → Forall program_ok progs → progs ≠ [] → (bg = false → last (pipeline progs) ≠ Some (chars "&")) →
  parse_piping_tokens granted (Some (pipeline progs ++ if bg then [chars "&"] else []))
  = Ret (0, Some ((name_of <$> progs) ++ [None]), Some ((Some <$> (argv <$> progs)) ++ [None]), bg).
Proof. apply pipeline_parsed_ok. Qed.
Definition demo_programs : list (list (list Z)) := [chars <$> ["ls"; "-l"]%string; [chars "sort"]; chars <$> ["head"; "-3"]%string].
Lemma pipeline_witness :
  parse_piping_tokens always_granted (Some (chars <$> ["ls"; "-l"; "|"; "sort"; "|"; "head"; "-3"; "&"]%string))
  = Ret (0, Some [Some (chars "ls"); Some (chars "sort"); Some (chars "head"); None],
         Some ((Some <$> (argv <$> demo_programs)) ++ [None]), true).
Proof. apply (pipeline_parsed always_granted demo_programs true); [done|by repeat constructor|done|done]. Defined.

(** A pipe symbol with no program in front of it is not taken for an error: the length of the
    missing argument list is used without having been set. *)
Theorem leading_pipe_undefined granted p : (∀ i, granted i = true) → program_ok p → last p ≠ Some (chars "&") →
  parse_piping_tokens granted (Some (chars "|" :: p)) = Panic.
Proof.
  intros Hg [Hne Hp] Hl. destruct p as [|t p]; [done|]. pose proof Hp as Hall. apply Forall_cons in Hp as [Ht Hp].
  assert (Hc : count_piped_processes (Some (chars "|" :: t :: p)) = 2%nat).
  { cbn [count_piped_processes piped_count_loop]. rewrite is_pipe, Ht. rewrite <- (app_nil_r p), count_tokens by done. done. }
  unfold parse_piping_tokens, get_piped_program_names, get_piped_program_arguments. rewrite Hc, !Hg. cbn [Nat.eqb negb Nat.add replicate].
  cbn [names_loop]. rewrite is_pipe, Ht. cbn [store_at length Nat.ltb Nat.leb mbind res_bind].
  rewrite <- (app_nil_r p), names_words by done. cbn [names_loop mbind res_bind Z.eqb negb]. rewrite app_nil_r.
  pose proof (background_flag (chars "|" :: t :: p) false ltac:(done)) as Eb. rewrite app_nil_r in Eb. rewrite Eb by (intros _; exact Hl).
  cbn [mbind res_bind list_insert insert list_insert]. cbn [lengths_loop]. rewrite is_pipe.
  pose proof (lengths_words (t :: p) [] 1 0 1 [None] None [Some (-1)] Hall eq_refl) as E. rewrite app_nil_r in E. cbn [app] in E.
  change (0 + 1) with 1. cbn [lengths_loop] in E |- *. rewrite E. cbn [mbind res_bind alloc_lists read_at lookup list_lookup]. done.
Qed.
(** The same for a program missing between two pipe symbols, or in front of the background flag. *)
Example missing_programs_undefined :
  parse_piping_tokens always_granted (Some (chars <$> ["ls"; "|"; "|"; "wc"]%string)) = Panic
  ∧ parse_piping_tokens always_granted (Some (chars <$> ["ls"; "|"; "&"]%string)) = Panic.
Proof. by vm_compute. Qed.

(** ** Single programs and redirections *)
Lemma copy_tokens_ok p rest : ∀ done,
  copy_tokens (Some (done ++ p ++ rest)) (length p) (length done) ((Some <$> (Some <$> done)) ++ blank_args (length p))
  = Ret (argv (done ++ p)).
Proof.
  induction p as [|t p IH]; intros d; [by rewrite app_nil_r|]. cbn [length copy_tokens].
  assert (Ht : tokens_get_token (Some (d ++ (t :: p) ++ rest)) (length d) = Some t).
  { unfold tokens_get_token. rewrite length_app. cbn [app length].
    destruct (Nat.leb_spec (length d + S (length (p ++ rest))) (length d)); [lia|]. by rewrite list_lookup_middle. }
  rewrite Ht. change (blank_args (S (length p))) with (None :: blank_args (length p)).
  rewrite store_at_middle by (by rewrite !length_fmap). cbn [mbind res_bind].
  specialize (IH (d ++ [t])). rewrite !fmap_app, length_app, <- !app_assoc in IH. cbn [fmap list_fmap app length] in IH.
  rewrite Nat.add_1_r in IH. exact IH.
Qed.
Lemma argument_list_ok args rest : argument_list (Some (args ++ rest)) (length args) = Ret (argv args).
Proof.
  unfold argument_list. pose proof (blank_made (length args)) as E.
  replace (Z.to_nat (Z.of_nat (length args) + 1)) with (length args + 1)%nat in E by lia. rewrite Nat2Z.id in E. rewrite E.
  cbn [mbind res_bind]. exact (copy_tokens_ok args rest []).
Qed.
(** A call without pipes and redirections. *)
Theorem program_parsed granted args (bg : bool) :
  granted 0%nat = true → args ≠ [] → (bg = false → last args ≠ Some (chars "&")) →
  parse_tokens granted (Some (args ++ if bg then [chars "&"] else [])) = Ret (0, head args, Some (argv args), bg).
Proof.
  intros Hg Hne Hl. unfold parse_tokens, get_program_arguments, get_program_name. rewrite background_flag, Hg by done.
  assert (Hh : tokens_get_token (Some (args ++ if bg then [chars "&"] else [])) 0 = head args).
  { destruct args as [|a args]; [done|]. destruct bg; done. }
  rewrite Hh. destruct (head args) as [a|] eqn:Ea; [|by destruct args]. cbn [mbind res_bind negb].
  replace (if bg then _ else _) with (length args).
  - rewrite argument_list_ok. done.
  - unfold tokens_get_length. destruct bg; rewrite length_app; cbn; lia.
Qed.

Definition plain_word (t : list Z) : Prop := is_redirect_symbol (Some t) = 0.
Lemma count_arguments_ok args sym rest : Forall plain_word args → ¬ plain_word sym →
  count_arguments (args ++ sym :: rest) = length args.
Proof.
  intros Ha Hs. induction Ha as [|t args Ht _ IH]; cbn [app count_arguments length].
  - unfold plain_word in Hs. by destruct (Z.eqb_spec (is_redirect_symbol (Some sym)) 0).
  - rewrite Ht. cbn. by rewrite IH.
Qed.
Lemma file_name_ok args sym fileName rest : Forall plain_word args → ¬ plain_word sym → plain_word fileName →
  file_name_loop (args ++ sym :: fileName :: rest) false = (0, Some fileName).
Proof.
  intros Ha Hs Hf. induction Ha as [|t args Ht _ IH]; cbn [app file_name_loop].
  - unfold plain_word in *. destruct (Z.eqb_spec (is_redirect_symbol (Some sym)) 0); [done|]. cbn [negb]. by rewrite Hf.
  - by rewrite Ht.
Qed.
Lemma redirection_found args sym rest : Forall plain_word args → ¬ plain_word sym →
  contains_redirection (Some (args ++ sym :: rest)) = is_redirect_symbol (Some sym).
Proof.
  intros Ha Hs. cbn [contains_redirection]. induction Ha as [|t args Ht _ IH]; cbn [app redirection_loop].
  - unfold plain_word in *. by destruct (Z.eqb_spec (is_redirect_symbol (Some sym)) 0).
  - by rewrite Ht.
Qed.
(** A call with its input or output redirected: its name, its arguments without the symbol and the
    file's name, and the kind of the redirection. *)
Theorem redirection_parsed granted args sym fileName (bg : bool) :
  let tokens := Some ((args ++ [sym; fileName]) ++ if bg then [chars "&"] else []) in
  granted 0%nat = true → args ≠ [] → Forall plain_word args → ¬ plain_word sym → plain_word fileName →
  (bg = false → fileName ≠ chars "&") →
  contains_redirection tokens = is_redirect_symbol (Some sym)
  ∧ parse_redirection_tokens granted tokens = Ret (0, head args, Some (argv args), Some fileName, bg).
Proof.
  intros tokens Hg Hne Ha Hs Hf Hl. unfold tokens. split; [rewrite <- app_assoc; by apply redirection_found|].
  unfold parse_redirection_tokens, get_redirection_file_name, get_redirected_program_name, get_redirected_program_argument.
  rewrite background_flag; [|by destruct args|]. 2: { intros Hb. rewrite last_app. cbn. intros [= E]. by apply (Hl Hb). }
  rewrite <- app_assoc. cbn [app]. rewrite file_name_ok by done. cbn [mbind res_bind Z.lor Z.eqb negb]. rewrite Hg. cbn [negb].
  change (args ++ sym :: fileName :: if bg then [chars "&"] else []) with (args ++ [sym; fileName] ++ if bg then [chars "&"] else []).
  set (n := if bg then (_ - 1)%nat else _). assert (Hn : n = (length args + 2)%nat).
  { unfold n, tokens_get_length. destruct bg; rewrite !length_app; cbn; lia. }
  rewrite Hn, take_app_ge by lia. replace (length args + 2 - length args)%nat with 2%nat by lia. cbn [app take].
  rewrite count_arguments_ok, argument_list_ok by done. cbn [mbind res_bind Z.eqb negb]. do 4 f_equal. by destruct args.
Qed.

(** ** Paths *)
Section Paths.
Context (file : list Z → option (bool * bool)).
(** The directories of PATH, none of them empty or with a colon in its name. *)
Definition directory_ok (d : list Z) : Prop := d ≠ [] ∧ chr ":" ∉ d.
Fixpoint joined (ds : list (list Z)) : list Z :=
  match ds with [] => [] | d :: ds => d ++ match ds with [] => [] | _ => chr ":" :: joined ds end end.

Lemma strtok_word d : ∀ cur rest, chr ":" ∉ d →
  strtok_pieces (chr ":") cur (d ++ rest) = strtok_pieces (chr ":") (cur ++ d) rest.
Proof.
  induction d as [|c d IH]; intros cur rest Hd; cbn [app strtok_pieces]; [by rewrite app_nil_r|].
  apply not_elem_of_cons in Hd as [Hc Hd]. destruct (Z.eqb_spec c (chr ":")); [done|]. rewrite IH by done. by rewrite <- app_assoc.
Qed.
Lemma strtok_joined ds : Forall directory_ok ds → strtok_pieces (chr ":") [] (joined ds) = ds.
Proof.
  induction 1 as [|d ds [Hne Hd] Hds IH]; [done|]. cbn [joined]. rewrite strtok_word by done. cbn [app].
  pose proof (nonempty_length d Hne) as Hl. destruct ds as [|e ds]; [cbn [strtok_pieces]; by rewrite Hl|].
  cbn [strtok_pieces]. rewrite Z.eqb_refl, Hl. cbn [app]. by rewrite IH.
Qed.
Lemma resolve_loop_ok ds name :
  resolve_loop file ds name = head (filter (λ p, is_file_executable file p = 0) ((λ d, d ++ name) <$> ds)).
Proof.
  induction ds as [|d ds IH]; [done|]. cbn [resolve_loop fmap list_fmap]. rewrite filter_cons.
  destruct (Z.eqb_spec (is_file_executable file (d ++ name)) 0); [by rewrite decide_True by done|].
  rewrite decide_False by done. exact IH.
Qed.
(** A program name is looked up in the directories of PATH in their order, and the first file that
    can be executed is taken. *)
Theorem path_resolved ds name : Forall directory_ok ds → ds ≠ [] → head name ≠ Some (chr "/") →
  resolve_executable_full_path file (Some (joined ds)) (Some name)
  = Ret (head (filter (λ p, is_file_executable file p = 0) ((λ d, d ++ chr "/" :: name) <$> ds))).
Proof.
  intros Hd Hne Hs. unfold resolve_executable_full_path.
  replace (match name with 47 :: _ => true | _ => false end) with false; cbn [andb].
  2: { destruct name as [|c name]; [done|]. cbn in Hs. destruct (decide (c = 47)) as [->|Hc]; [done|].
       clear -Hc. by repeat case_match. }
  rewrite strtok_joined by done. destruct ds as [|d ds]; [done|]. by rewrite resolve_loop_ok.
Qed.
End Paths.

(** ** Joining *)
Lemma join_loop_ok ss sep : ∀ b w, block_holds b w → (length w + sum_list (length <$> ss) + length ss < length b)%nat →
  ∃ b', join_loop ss sep b (length w) = Ret (b', length (w ++ concat ((λ s, s ++ [sep]) <$> ss)))
    ∧ block_holds b' (w ++ concat ((λ s, s ++ [sep]) <$> ss)) ∧ length b' = length b.
Proof.
  induction ss as [|s ss IH]; intros b w Hb Hl; cbn [join_loop fmap list_fmap concat].
  { rewrite app_nil_r. by exists b. }
  change (length w + (length s + sum_list (length <$> ss)) + S (length ss) < length b)%nat in Hl.
  destruct (store_holds b w (s ++ [0]) Hb) as (b1 & -> & Hb1 & Hl1); [rewrite length_app; cbn [length]; lia|].
  cbn [mbind res_bind]. rewrite app_assoc in Hb1.
  assert (Hb1' : block_holds b1 (w ++ s)).
  { destruct Hb1 as [r ->]. exists (Some 0 :: r). by rewrite (fmap_app Some (w ++ s)), <- app_assoc. }
  rewrite <- length_app. destruct (store_holds b1 (w ++ s) [sep] Hb1') as (b2 & -> & Hb2 & Hl2); [rewrite length_app; cbn [length]; lia|].
  cbn [mbind res_bind]. destruct (IH b2 ((w ++ s) ++ [sep]) Hb2) as (b3 & E & Hb3 & Hl3).
  { rewrite !length_app. cbn [length]. lia. }
  rewrite length_app in E. cbn [length] in E. rewrite E. exists b3. rewrite <- !app_assoc in *. split_and!; [done|done|lia].
Qed.
(** The texts with the separator between them and a terminator behind them fit the block exactly;
    joining no texts at all writes in front of the block. *)
Theorem join_strings_ok ss s sep :
  ∃ b, join_strings (ss ++ [s]) sep = Ret b ∧ block_holds b (concat ((λ s, s ++ [sep]) <$> ss) ++ s ++ [0])
    ∧ join_strings [] sep = Panic.
Proof.
  unfold join_strings. set (size := (sum_list (length <$> ss ++ [s]) + _)%nat).
  destruct (join_loop_ok (ss ++ [s]) sep (replicate size None) []) as (b & E & Hb & Hl).
  { by exists (replicate size None). } { rewrite length_replicate. cbn. unfold size. rewrite Nat.add_assoc, Nat.add_1_r. lia. }
  change (length (@nil Z)) with O in E. rewrite E. cbn [mbind res_bind app]. rewrite fmap_app, concat_app in *. cbn [fmap list_fmap concat app] in *.
  rewrite app_nil_r, app_assoc in *. set (w := concat _ ++ s) in *. rewrite length_app, Nat.add_1_r.
  assert (Hb' : block_holds b w). { destruct Hb as [r ->]. exists (Some sep :: r). by rewrite fmap_app, <- app_assoc. }
  destruct (store_holds b w [0] Hb') as (b2 & -> & Hb2 & _). { apply holds_length in Hb. rewrite length_app in Hb. cbn in *. lia. }
  exists b2. split_and!; [done|by rewrite app_assoc|done].
Qed.
