(* ===== verification/ShellExec.v ===== *)
(** * How the shell starts programs (hw3/program.c, program_redirection.c, program_piping.c)

    A process is the program it becomes, its arguments and its table of open files; the tables
    say what each descriptor is the end of.  Which descriptor a new file gets, whether [pipe],
    [open] and [fork] succeed and what ids the children have are parameters.  A child that calls
    [exit] before it runs its program is [None]; [execv] succeeds for the files that were found to
    be executable. *)
From Stdlib Require Import (notations) Ascii String.
From S2P Require Import Prelude Stdio WordCount WordList CText Tokenizer ShellParse.

(** What a descriptor stands for: a file of the shell's own, an end of a pipe, or a file opened for
    a redirection. *)
Inductive file_end :=
| Own (n : Z)
| PipeRead (i : nat)
| PipeWrite (i : nat)
| Opened (name : list Z) (for_writing : bool).
Abbreviation fds := (gmap Z file_end).
Definition stdin_fd : Z := 0.
Definition stdout_fd : Z := 1.

Record process_image := Child { child_path : list Z; child_args : list (option ptr); child_fds : fds }.

(** [dup2]; [None] is an error. *)
Definition dup2 (t : fds) (old new : Z) : option fds := e ← t !! old; Some (<[new := e]> t).
Definition close (t : fds) (fd : Z) : fds := delete fd t.

(** The child's part of a pipeline. *)
Definition execute_with_redirection (programFullPath : ptr) (programArgList : option (list (option ptr)))
    (inputFileNum outputFileNum : Z) (t : fds) : option process_image :=
  match programFullPath, programArgList with
  | Some path, Some args =>
    t ← (if negb (inputFileNum =? stdin_fd)
         then t ← dup2 t inputFileNum stdin_fd; Some (close t inputFileNum) else Some t);
    t ← (if negb (outputFileNum =? stdout_fd)
         then t ← dup2 t outputFileNum stdout_fd; Some (close t outputFileNum) else Some t);
    Some (Child path args t)
  | _, _ => None
  end.

Section System.
(** The descriptor a new file gets; whether the calls of [pipe] and [open] succeed; the ids of the
    children, [None] when [fork] fails; the files and the environment; and whether allocations
    succeed. *)
Context (free_fd : fds → Z) (pipes : nat → bool) (forks : nat → option Z) (opens : list Z → bool).
Context (file : list Z → option (bool * bool)) (PATH : ptr) (granted : nat → bool).

(** [pipe]: the new table and the two descriptors. *)
Definition pipe (t : fds) (i : nat) : fds * (Z * Z) :=
  let r := free_fd t in
  let t := <[r := PipeRead i]> t in
  let w := free_fd t in
  (<[w := PipeWrite i]> t, (r, w)).

(** The loop over the programs: what the shell's table, the array of process ids and the children
    are after it.  [pipe]'s result is not looked at, and a descriptor number that it did not set is
    undefined; when [fork] fails every array is freed, and freed again behind the loop. *)
Fixpoint pipe_loop (paths : list (list Z)) (argLists : list (option (list (option ptr)))) (index : nat)
    (t : fds) (tempFileNum : Z) (pipeFileNums : option (Z * Z)) (processIDs : list (option Z)) (children : list (option process_image))
    : res (list (option Z) * fds * list (option process_image)) :=
  match paths with
  | [] => Ret (processIDs, t, children)
  | path :: paths =>
    let '(t, pipeFileNums) :=
      match paths with
      | [] => (t, pipeFileNums)
      | _ => if pipes index then let '(t, ends) := pipe t index in (t, Some ends) else (t, pipeFileNums)
      end in
    let inputFileNum := tempFileNum in
    '(outputFileNum, tempFileNum) ←
      match paths with
      | [] => Ret (stdout_fd, -1)
      | _ => match pipeFileNums with None => Panic | Some (r, w) => Ret (w, r) end
      end;
    match forks index with
    | None => Panic
    | Some pid =>
      args ← read_at argLists index;
      let child := execute_with_redirection (Some path) args inputFileNum outputFileNum t in
      processIDs ← store_at processIDs index (Some pid);
      let t := if negb (inputFileNum =? stdin_fd) then close t inputFileNum else t in
      let t := if negb (outputFileNum =? stdout_fd) then close t outputFileNum else t in
      pipe_loop paths argLists (S index) t tempFileNum pipeFileNums processIDs (children ++ [child])
    end
  end.
(** The list of process ids (null on failure), the shell's table and the children.  The loop that
    sets the ids to -1 leaves the last cell of the array as malloc gave it. *)
Definition execute_piped_program (programNames : option (list ptr)) (programArgLists : option (list (option (list (option ptr)))))
    (t : fds) : res (option (list (option Z)) * fds * list (option process_image)) :=
  match programNames, programArgLists with
  | Some names, Some argLists =>
    paths ← resolve_executable_full_paths file PATH names;
    match paths with
    | None => Ret (None, t, [])
    | Some paths =>
      if negb (granted 0%nat) then Ret (None, t, [])
      else
        let processIDs := replicate (length paths) (Some (-1)) ++ [None] in
        '(processIDs, t, children) ← pipe_loop paths argLists 0 t stdin_fd None processIDs [];
        Ret (Some processIDs, t, children)
    end
  | _, _ => Ret (None, t, [])
  end.

(** The child of a redirected program: the file is opened, put in the place of standard input or
    output, and the descriptor it had is closed. *)
Definition redirected_fds (redirectionType : Z) (fileName : list Z) (t : fds) : option fds :=
  if (redirectionType =? 0) || negb (opens fileName) then None
  else
    let fd := free_fd t in
    let t := <[fd := Opened fileName (redirectionType =? 1)]> t in
    t ← dup2 t fd (if redirectionType =? -1 then stdin_fd else stdout_fd);
    Some (close t fd).
(** The list of process ids and the child. *)
Definition start_child (programFullPath : list Z) (args : list (option ptr)) (t : option fds)
    : res (option (list (option Z)) * option process_image) :=
  if negb (granted 0%nat) then Ret (None, None)
  else
    processIDs ← store_at [None; None] 1 (Some (-1));
    match forks 0%nat with
    | None => Ret (None, None)
    | Some pid =>
      processIDs ← store_at processIDs 0 (Some pid);
      Ret (Some processIDs, Child programFullPath args <$> t)
    end.
Definition execute_redirected_program (programName : ptr) (programArgList : option (list (option ptr)))
    (redirectionType : Z) (redirectionFileName : ptr) (t : fds) : res (option (list (option Z)) * option process_image) :=
  match programName, programArgList with
  | Some name, Some args =>
    if negb (redirectionType =? 0) && negb (bool_decide (is_Some redirectionFileName)) then Ret (None, None)
    else
      path ← resolve_executable_full_path file PATH (Some name);
      match path with
      | None => Ret (None, None)
      | Some path => start_child path args (redirectionFileName ≫= λ f, redirected_fds redirectionType f t)
      end
  | _, _ => Ret (None, None)
  end.
Definition execute_program (programName : ptr) (programArgList : option (list (option ptr))) (t : fds)
    : res (option (list (option Z)) * option process_image) :=
  match programName, programArgList with
  | Some name, Some args =>
    path ← resolve_executable_full_path file PATH (Some name);
    match path with
    | None => Ret (None, None)
    | Some path => start_child path args (Some t)
    end
  | _, _ => Ret (None, None)
  end.
End System.

(** ** How a pipeline is wired *)
Section Wiring.
Context (free_fd : fds → Z) (pipes : nat → bool) (forks : nat → option Z) (pid : nat → Z).
Hypothesis free_fd_ok : ∀ t : fds, t !! free_fd t = None.
Hypothesis pipes_ok : ∀ i, pipes i = true.
Hypothesis forks_ok : ∀ i, forks i = Some (pid i).
(** The shell's open files, standard input and output among them. *)
Context (t0 : fds) (own0 own1 : file_end).
Hypothesis has_stdin : t0 !! 0 = Some own0.
Hypothesis has_stdout : t0 !! 1 = Some own1.

(** The standard files of program [i] of [n], and its whole table: the shell's other files, and the
    read end of the pipe it writes to at some descriptor [r]. *)
Definition input_of (i : nat) : file_end := match i with O => own0 | S j => PipeRead j end.
Definition output_of (n i : nat) : file_end := if (S i =? n)%nat then own1 else PipeWrite i.
Definition stage (n i : nat) (path : list Z) (args : list (option ptr)) (c : option process_image) : Prop :=
  ∃ r f, t0 !! r = None ∧ c = Some (Child path args f)
    ∧ f = (if (S i =? n)%nat then id else <[r := PipeRead i]>) (<[1 := output_of n i]> (<[0 := input_of i]> t0)).

(** The shell's table when program [i] is about to be started: the read end of the last pipe is
    open at [temp]. *)
Definition ready (i : nat) (temp : Z) (t : fds) : Prop :=
  match i with O => temp = 0 ∧ t = t0 | S j => t0 !! temp = None ∧ t = <[temp := PipeRead j]> t0 end.

Lemma own_free fd : t0 !! fd = None → fd ≠ 0 ∧ fd ≠ 1.
Proof using has_stdin has_stdout. intros H. split; intros ->; congruence. Qed.

(** Standard input is put in place, and the descriptor it came from closed. *)
Lemma input_in_place i temp t : ready i temp t →
  (if negb (temp =? stdin_fd) then t ← dup2 t temp stdin_fd; Some (close t temp) else Some t)
  = Some (<[0 := input_of i]> t0)
  ∧ (if negb (temp =? stdin_fd) then close t temp else t) = t0.
Proof using has_stdin has_stdout.
  destruct i as [|j]; cbn [ready input_of].
  - intros [-> ->]. cbn [stdin_fd Z.eqb negb]. split; [|done]. by rewrite insert_id.
  - intros [Hf ->]. destruct (own_free temp Hf) as [H0 H1]. unfold stdin_fd. apply Z.eqb_neq in H0 as E. rewrite E. cbn [negb].
    unfold dup2, close. rewrite lookup_insert_eq. cbn [mbind option_bind]. rewrite (insert_insert_ne _ 0 temp) by done.
    split; [|by rewrite delete_insert_id]. rewrite delete_insert_id; [done|]. by rewrite lookup_insert_ne.
Qed.
(** A table with a new pipe in it: the ends are at new descriptors. *)
Lemma pipe_fresh t i : let '(t', (r, w)) := pipe free_fd t i in
  t' = <[w := PipeWrite i]> (<[r := PipeRead i]> t) ∧ t !! r = None ∧ t !! w = None ∧ r ≠ w.
Proof using free_fd_ok.
  unfold pipe. cbn. set (r := free_fd t). set (w := free_fd (<[r := PipeRead i]> t)).
  pose proof (free_fd_ok t) as Hr. pose proof (free_fd_ok (<[r := PipeRead i]> t)) as Hw. fold r in Hr. fold w in Hw.
  apply lookup_insert_None in Hw as [Hw Hne]. by split_and!.
Qed.
(** The pipe's ends do not change what happens to standard input. *)
Lemma input_in_place_pipe i temp t r w : ready i temp t → t !! r = None → t !! w = None → r ≠ w →
  let t' := <[w := PipeWrite i]> (<[r := PipeRead i]> t) in
  (if negb (temp =? stdin_fd) then t ← dup2 t' temp stdin_fd; Some (close t temp) else Some t')
  = Some (<[w := PipeWrite i]> (<[r := PipeRead i]> (<[0 := input_of i]> t0)))
  ∧ (if negb (temp =? stdin_fd) then close t' temp else t') = <[w := PipeWrite i]> (<[r := PipeRead i]> t0)
  ∧ t0 !! r = None ∧ t0 !! w = None.
Proof using has_stdin has_stdout.
  intros Hready Hr Hw Hrw t'. destruct (input_in_place i temp t Hready) as [E1 E2].
  assert (Hfree : t0 !! r = None ∧ t0 !! w = None ∧ (i ≠ O → temp ≠ r ∧ temp ≠ w)).
  { destruct i as [|j]; cbn [ready] in Hready; [by destruct Hready as [_ ->]|]. destruct Hready as [Hf ->].
    apply lookup_insert_None in Hr as [Hr ?], Hw as [Hw ?]. by split_and!. }
  destruct Hfree as (Hr0 & Hw0 & Hne). split_and!; [| |done|done].
  - destruct (Z.eqb_spec temp stdin_fd) as [->|Ht]; cbn [negb] in *; [injection E1 as <-; done|].
    destruct i as [|j]; [by destruct Hready|]. destruct (Hne ltac:(done)) as [Htr Htw].
    destruct (own_free r Hr0), (own_free w Hw0). unfold dup2, t', stdin_fd, close in *.
    rewrite !lookup_insert_ne by done. destruct (t !! temp) as [e|]; [|done]. cbn [mbind option_bind] in *. injection E1 as E1.
    rewrite (insert_insert_ne _ 0 w), (insert_insert_ne _ 0 r), (delete_insert_ne _ temp w), (delete_insert_ne _ temp r) by done.
    by rewrite E1.
  - destruct (Z.eqb_spec temp stdin_fd) as [->|Ht]; cbn [negb] in *; [unfold t'; by rewrite E2|].
    destruct i as [|j]; [by destruct Hready|]. destruct (Hne ltac:(done)) as [Htr Htw]. unfold close, t' in *.
    by rewrite (delete_insert_ne _ temp w), (delete_insert_ne _ temp r), E2 by done.
Qed.
(** Standard output is put in place. *)
Lemma output_in_place (f : fds) i r w own : f !! w = None → w ≠ r → w ≠ 1 → r ≠ 1 → f !! 1 = Some own →
  (if negb (w =? stdout_fd)
   then t ← dup2 (<[w := PipeWrite i]> (<[r := PipeRead i]> f)) w stdout_fd; Some (close t w) else None)
  = Some (<[r := PipeRead i]> (<[1 := PipeWrite i]> f)).
Proof.
  intros Hw Hwr Hw1 Hr1 Ho. unfold stdout_fd, dup2, close. apply Z.eqb_neq in Hw1 as E. rewrite E. cbn [negb].
  rewrite lookup_insert_eq. cbn [mbind option_bind]. rewrite (insert_insert_ne _ 1 w), delete_insert_id by (done || by rewrite !lookup_insert_ne).
  by rewrite (insert_insert_ne _ 1 r).
Qed.

Lemma pipe_loop_ok paths : ∀ args i temp t pfn (au av : list (option (list (option ptr)))) (pu pv : list (option Z)) x cs n,
  paths ≠ [] → n = (i + length paths)%nat → length args = length paths → length au = i → length pu = i → ready i temp t →
  ∃ cs', pipe_loop free_fd pipes forks paths (au ++ (Some <$> args) ++ av) i t temp pfn (pu ++ replicate (length paths) x ++ pv) cs
         = Ret (pu ++ ((λ j, Some (pid j)) <$> seq i (length paths)) ++ pv, t0, cs ++ cs')
    ∧ length cs' = length paths
    ∧ ∀ j path a c, paths !! j = Some path → args !! j = Some a → cs' !! j = Some c → stage n (i + j) path a c.
Proof using free_fd_ok pipes_ok forks_ok has_stdin has_stdout.
  induction paths as [|path paths IH]; intros args i temp t pfn au av pu pv x cs n Hne Hn Hla Hau Hpu Hready; [done|].
  destruct args as [|a args]; [done|]. cbn [length] in *. cbn [pipe_loop fmap list_fmap app replicate seq].
  destruct paths as [|path2 paths].
  - destruct args as [|]; [|done]. cbn [length] in Hn. cbn [mbind res_bind]. rewrite forks_ok, read_at_middle by done. cbn [mbind res_bind].
    rewrite store_at_middle by done. cbn [mbind res_bind pipe_loop length fmap list_fmap app].
    destruct (input_in_place i temp t Hready) as [E1 E2]. rewrite E2. unfold execute_with_redirection. rewrite E1.
    cbn [mbind option_bind stdout_fd Z.eqb negb Pos.eqb]. eexists. split_and!; [done|done|].
    intros [|j] ? ? ? [= <-] [= <-] [= <-]. exists (free_fd t0), (<[0 := input_of i]> t0). split_and!; [apply free_fd_ok|done|].
    unfold output_of. replace (S (i + 0) =? n)%nat with true by (symmetry; apply Nat.eqb_eq; lia). rewrite Nat.add_0_r. cbn [id].
    symmetry. apply insert_id. by rewrite lookup_insert_ne.
  - cbn [length] in Hn, Hla. rewrite pipes_ok. pose proof (pipe_fresh t i) as Hp. destruct (pipe free_fd t i) as [t' [r w]]. destruct Hp as (-> & Hr & Hw & Hrw).
    cbn [mbind res_bind]. rewrite forks_ok, read_at_middle by done. cbn [mbind res_bind]. rewrite store_at_middle by done. cbn [mbind res_bind].
    destruct (input_in_place_pipe i temp t r w Hready Hr Hw Hrw) as (E1 & E2 & Hr0 & Hw0). rewrite E2.
    destruct (own_free r Hr0) as [Hr00 Hr1], (own_free w Hw0) as [Hw00 Hw1].
    set (child := execute_with_redirection _ _ _ _ _).
    assert (Hchild : child = Some (Child path a (<[r := PipeRead i]> (<[1 := PipeWrite i]> (<[0 := input_of i]> t0))))).
    { unfold child, execute_with_redirection. rewrite E1. cbn [mbind option_bind].
      pose proof (output_in_place (<[0 := input_of i]> t0) i r w own1) as Eo. apply Z.eqb_neq in Hw1 as Hw1'. unfold stdout_fd in *.
      rewrite Hw1' in *. cbn [negb] in *. rewrite Eo; [done| | | | |]; try done; rewrite lookup_insert_ne; done. }
    clearbody child. subst child.
    assert (Ht : (if negb (w =? stdout_fd) then close (<[w := PipeWrite i]> (<[r := PipeRead i]> t0)) w else
                  (<[w := PipeWrite i]> (<[r := PipeRead i]> t0))) = <[r := PipeRead i]> t0).
    { unfold stdout_fd, close. apply Z.eqb_neq in Hw1 as Hw1'. rewrite Hw1'. cbn [negb]. rewrite delete_insert_id; [done|].
      by rewrite lookup_insert_ne. }
    rewrite Ht.
    destruct (IH args (S i) r (<[r := PipeRead i]> t0) (Some (r, w)) (au ++ [Some a]) av (pu ++ [Some (pid i)]) pv x
                 (cs ++ [Some (Child path a (<[r := PipeRead i]> (<[1 := PipeWrite i]> (<[0 := input_of i]> t0))))]) n)
      as (cs' & E & Hl & Hs); [done|cbn [length]; lia|cbn [length] in *; lia|rewrite length_app; cbn; lia|rewrite length_app; cbn; lia|done|].
    rewrite <- !app_assoc in E. cbn [app] in E. cbn [length replicate fmap list_fmap] in E |- *. rewrite E.
    eexists. split_and!; [done|cbn [length] in *; lia|].
    intros [|j] p b c Hp Hb Hc.
    + cbn in Hp, Hb, Hc. injection Hp as <-. injection Hb as <-. injection Hc as <-. rewrite Nat.add_0_r.
      exists r. eexists. split_and!; [done|done|]. unfold output_of.
      replace (S i =? n)%nat with false by (symmetry; apply Nat.eqb_neq; cbn [length] in *; lia). done.
    + rewrite Nat.add_succ_r, <- Nat.add_succ_l. by apply Hs.
Qed.
End Wiring.

(** What [execute_piped_program] does when every call succeeds. *)
Lemma execute_piped_ok free_fd pipes forks pid file PATH granted (t0 : fds) own0 own1 names paths args av :
  (∀ t : fds, t !! free_fd t = None) → (∀ i, pipes i = true) → (∀ i, forks i = Some (pid i)) → granted 0%nat = true →
  t0 !! 0 = Some own0 → t0 !! 1 = Some own1 →
  resolve_executable_full_paths file PATH names = Ret (Some paths) → paths ≠ [] → length args = length paths →
  ∃ cs, execute_piped_program free_fd pipes forks file PATH granted (Some names) (Some ((Some <$> args) ++ av)) t0
        = Ret (Some (((λ i, Some (pid i)) <$> seq 0 (length paths)) ++ [None]), t0, cs)
    ∧ length cs = length paths
    ∧ ∀ i path a c, paths !! i = Some path → args !! i = Some a → cs !! i = Some c → stage t0 own0 own1 (length paths) i path a c.
Proof.
  intros Hfree Hp Hf Hg H0 H1 Hr Hne Hl. unfold execute_piped_program. rewrite Hr. cbn [mbind res_bind]. rewrite Hg. cbn [negb].
  destruct (pipe_loop_ok free_fd pipes forks pid Hfree Hp Hf t0 own0 own1 H0 H1 paths args 0 0 t0 None [] av [] [None] (Some (-1)) []
              (length paths)) as (cs & E & Hlc & Hs); try done.
  cbn [app] in E. unfold stdin_fd. rewrite E. cbn [mbind res_bind]. exists cs. by split_and!.
Qed.

(** C22: When the programs are found, every pipe, fork and allocation succeeds, and the shell
    holds no write end of a pipe when it starts them, a pipeline is wired as it is written: program [i] reads its standard input from the pipe that
    program [i - 1] writes to, the first and the last use the shell's own; no program but the [i]-th
    holds the write end of pipe [i], so that the next one sees its end; and the shell is left with
    the descriptors it had. *)
Theorem pipeline_wired free_fd pipes forks pid file PATH granted (t0 : fds) own0 own1 names paths args av :
  (∀ t : fds, t !! free_fd t = None) → (∀ i, pipes i = true) → (∀ i, forks i = Some (pid i)) → granted 0%nat = true →
  t0 !! 0 = Some own0 → t0 !! 1 = Some own1 → (∀ fd k, t0 !! fd ≠ Some (PipeWrite k)) →
  resolve_executable_full_paths file PATH names = Ret (Some paths) → paths ≠ [] → length args = length paths →
  ∃ ids cs, execute_piped_program free_fd pipes forks file PATH granted (Some names) (Some ((Some <$> args) ++ av)) t0
            = Ret (Some ids, t0, cs)
    ∧ length cs = length paths
    ∧ ∀ i path a, paths !! i = Some path → args !! i = Some a → ∃ f, cs !! i = Some (Some (Child path a f))
        ∧ f !! 0 = Some (input_of own0 i) ∧ f !! 1 = Some (output_of own1 (length paths) i)
        ∧ ∀ fd k, f !! fd = Some (PipeWrite k) → k = i ∧ fd = 1 ∧ S i ≠ length paths.
Proof.
  intros Hfree Hp Hf Hg H0 H1 Hno Hr Hne Hl.
  destruct (execute_piped_ok free_fd pipes forks pid file PATH granted t0 own0 own1 names paths args av) as (cs & E & Hlc & Hs); try done.
  eexists _, cs. split_and!; [exact E|done|].
  intros i path a Hi Ha. destruct (lookup_lt_is_Some_2 cs i) as [c Hc]; [rewrite Hlc; by eapply lookup_lt_Some|].
  destruct (Hs i path a c Hi Ha Hc) as (r & f & Hr0 & -> & Ef). exists f. cbn [Nat.add] in *.
  assert (r ≠ 0 ∧ r ≠ 1) as [Hr00 Hr1] by (split; intros ->; congruence).
  split_and!; [done| | |].
  - subst f. destruct (S i =? length paths)%nat; cbn [id]; rewrite ?(lookup_insert_ne _ r) by done; by rewrite lookup_insert_ne, lookup_insert_eq.
  - subst f. destruct (S i =? length paths)%nat; cbn [id]; rewrite ?(lookup_insert_ne _ r) by done; by rewrite lookup_insert_eq.
  - intros fd k Hk. subst f. unfold output_of in Hk. destruct (Nat.eqb_spec (S i) (length paths)) as [|Hlast]; cbn [id] in Hk.
    + apply lookup_insert_Some in Hk as [[<- ->]|[_ Hk]]; [by destruct (Hno 1 k)|].
      apply lookup_insert_Some in Hk as [[<- Hk]|[_ Hk]]; [|by apply Hno in Hk]. destruct i; cbn in Hk; [by destruct (Hno 0 k); subst|done].
    + apply lookup_insert_Some in Hk as [[_ Hk]|[_ Hk]]; [done|]. apply lookup_insert_Some in Hk as [[<- Hk]|[_ Hk]]; [by injection Hk as ->|].
      apply lookup_insert_Some in Hk as [[<- Hk]|[_ Hk]]; [|by apply Hno in Hk]. destruct i; cbn in Hk; [by destruct (Hno 0 k); subst|done].
Qed.

(** A shell whose standard files are its own, and where every name is found in /bin. *)
Definition demo_fds : fds := {[0 := Own 0; 1 := Own 1; 2 := Own 2]}.
Definition demo_files (_ : list Z) : option (bool * bool) := Some (true, true).
Definition demo_names : list ptr := [Some (chars "ls"); Some (chars "wc"); None].
Lemma pipeline_wired_witness :
  ∃ ids cs, execute_piped_program after_all (λ _, true) (λ i, Some (Z.of_nat i + 100)) demo_files (Some (chars "/bin")) always_granted
              (Some demo_names) (Some [Some (argv [chars "ls"]); Some (argv [chars "wc"]); None]) demo_fds
            = Ret (Some ids, demo_fds, cs)
    ∧ length cs = 2%nat ∧ ∃ f, cs !! 1%nat = Some (Some (Child (chars "/bin/wc") (argv [chars "wc"]) f)) ∧ f !! 0 = Some (PipeRead 0).
Proof.
  destruct (pipeline_wired after_all (λ _, true) (λ i, Some (Z.of_nat i + 100)) (λ i, Z.of_nat i + 100) demo_files (Some (chars "/bin"))
    always_granted demo_fds (Own 0) (Own 1) demo_names [chars "/bin/ls"; chars "/bin/wc"] [argv [chars "ls"]; argv [chars "wc"]] [None])
    as (ids & cs & E & Hl & Hs).
  - intros t. apply (after_all_ok t).
  - done.
  - done.
  - done.
  - done.
  - done.
  - intros fd k Hk. unfold demo_fds in Hk. repeat (apply lookup_insert_Some in Hk as [[_ Hk]|[_ Hk]]; [discriminate Hk|]).
    by apply lookup_singleton_Some in Hk as [_ Hk].
  - reflexivity.
  - done.
  - done.
  - exists ids, cs. split; [exact E|]. split; [exact Hl|]. destruct (Hs 1%nat (chars "/bin/wc") (argv [chars "wc"]) eq_refl eq_refl) as (f & Hf & H0 & _).
    exists f. by split.
Defined.

(** The array of process ids that comes back has no terminator: its last cell was never written. *)
Theorem pipeline_ids_unterminated free_fd pipes forks file PATH granted names argLists t ids t' cs :
  execute_piped_program free_fd pipes forks file PATH granted names argLists t = Ret (Some ids, t', cs) →
  last ids = Some None.
Proof.
  unfold execute_piped_program. destruct names as [names|], argLists as [argLists|]; try done.
  intros ([paths|] & _ & H)%bind_Ret_inv; [|done]. destruct (negb (granted 0%nat)); [done|].
  apply bind_Ret_inv in H as ([[ids' t2] cs'] & H & E). injection E as -> _ _.
  assert (Hgen : ∀ paths i t temp pfn (u : list (option Z)) cs, (i + length paths = length u)%nat →
    pipe_loop free_fd pipes forks paths argLists i t temp pfn (u ++ [None]) cs = Ret (ids, t2, cs') → last ids = Some None).
  2: { apply (Hgen paths 0%nat t stdin_fd None (replicate (length paths) (Some (-1))) []); [by rewrite length_replicate|exact H]. }
  clear. induction paths as [|p paths IH]; intros i t temp pfn u cs Hl H; cbn [pipe_loop] in H.
  { injection H as <- _ _. apply last_snoc. }
  destruct (match paths with [] => _ | _ => _ end) as [t1 pfn1]. apply bind_Ret_inv in H as ([out temp1] & _ & H).
  destruct (forks i) as [pid|]; [|done]. apply bind_Ret_inv in H as (a & _ & H). apply bind_Ret_inv in H as (ids1 & Hst & H).
  unfold store_at in Hst. cbn [length] in Hl. rewrite length_app in Hst. cbn [length] in Hst.
  destruct (Nat.ltb_spec i (length u + 1)); [|lia]. injection Hst as <-. rewrite insert_app_l in H by lia.
  eapply (IH (S i)); [|exact H]. rewrite length_insert. lia.
Qed.
(** A program of a pipeline holds the read end of the pipe it writes to: when the reader is gone, its
    writes do not fail. *)
Theorem writer_keeps_reader own0 own1 t0 n i path args c :
  stage t0 own0 own1 n i path args c → S i ≠ n →
  ∃ f r, c = Some (Child path args f) ∧ f !! r = Some (PipeRead i).
Proof.
  intros (r & f & _ & -> & ->) Hn. apply Nat.eqb_neq in Hn. rewrite Hn. eexists _, r. split; [done|]. by rewrite lookup_insert_eq.
Qed.

(** ** Redirections *)
(** A redirected program has the file as its standard input or output, and everything else as the
    shell has it. *)
Theorem redirection_wired free_fd opens (t0 : fds) own0 own1 type fileName :
  (∀ t : fds, t !! free_fd t = None) → t0 !! 0 = Some own0 → t0 !! 1 = Some own1 → type = -1 ∨ type = 1 → opens fileName = true →
  redirected_fds free_fd opens type fileName t0
  = Some (<[(if type =? -1 then 0 else 1) := Opened fileName (type =? 1)]> t0).
Proof.
  intros Hfree H0 H1 Ht Ho. unfold redirected_fds. rewrite Ho. pose proof (Hfree t0) as Hf. set (fd := free_fd t0) in *.
  assert (fd ≠ 0 ∧ fd ≠ 1) as [Hf0 Hf1] by (split; intros E; rewrite E in Hf; congruence).
  replace (type =? 0) with false by (symmetry; apply Z.eqb_neq; lia). cbn [orb negb]. unfold dup2, close. rewrite lookup_insert_eq.
  cbn [mbind option_bind]. assert (Hne : (if type =? -1 then stdin_fd else stdout_fd) ≠ fd) by (by destruct (type =? -1)).
  rewrite (insert_insert_ne _ _ fd) by done. rewrite delete_insert_id; [by destruct (type =? -1)|]. by rewrite lookup_insert_ne.
Qed.
