(* ===== verification/ShellJobs.v ===== *)
(** * Job control and built-in commands (hw3/process_management.c, shell_command.c, shell.c)

    The shell's state is its list of processes, the process group it takes to be in the
    foreground and what it has done to processes and terminal so far.  What the system answers
    to its calls comes from lists that the calls use up: one that has run out means that the
    call has not returned yet. *)
From Stdlib Require Import (notations) Ascii String.
From S2P Require Import Prelude Stdio WordCount WordList CText Tokenizer ProcessList ShellParse ShellExec.

Inductive job_event :=
| WaitFor (pid : Z)
| SetPgid (pid group : Z)
| TcSetPgrp (group : Z)
| IgnoreTTOU
| RestoreTTOU
| ContinueGroup (group : Z)
| ContinueProcess (pid : Z)
| Printed (text : list Z).

Record shell := Shell {
  procs : process_list;
  FOREGROUND_PROCESS_GROUP_ID : Z;
  waits : list (option Z);
  tcsets : list bool;
  kills : list bool;
  trace : list job_event;
}.
Definition log (s : shell) (es : list job_event) : shell :=
  Shell s.(procs) s.(FOREGROUND_PROCESS_GROUP_ID) s.(waits) s.(tcsets) s.(kills) (s.(trace) ++ es).
Definition with_procs (s : shell) (l : process_list) : shell :=
  Shell l s.(FOREGROUND_PROCESS_GROUP_ID) s.(waits) s.(tcsets) s.(kills) s.(trace).

(** [WIFEXITED (status)]. *)
Definition WIFEXITED (status : Z) : bool := Z.land status 127 =? 0.
(** What [waitpid] with WNOHANG answers: a status, nothing yet, or an error. *)
Inductive wait_answer := Changed (status : Z) | NotYet | WaitError.

(** ** process_management.c *)
Section Management.
(** Where malloc puts a list node; what a [waitpid] that does not block answers for a process; the
    process groups; the shell's own group. *)
Context (place : nodes → Z) (nohang : Z → wait_answer) (getpgid : Z → Z) (own_group : Z).

(** The loop of [group_processes] over an array of ids that ends with -1. *)
Fixpoint group_loop (processIDs : list (option Z)) (group : Z) (s : shell) : res shell :=
  match processIDs with
  | Some p :: processIDs => if p =? -1 then Ret s else group_loop processIDs group (log s [SetPgid p group])
  | _ => Panic
  end.
Definition group_processes (processIDs : list (option Z)) (s : shell) : res (Z * shell) :=
  match processIDs with
  | Some p :: _ => if p =? -1 then Ret (-1, s) else s ← group_loop processIDs p s; Ret (p, s)
  | _ => Panic
  end.
Definition get_process_group (processID : Z) : Z := if processID =? -1 then -1 else getpgid processID.

(** [tcsetpgrp]. *)
Definition tcsetpgrp (group : Z) (s : shell) : res (bool * shell) :=
  match s.(tcsets) with
  | [] => Stuck
  | ok :: tcsets =>
    Ret (ok, Shell s.(procs) s.(FOREGROUND_PROCESS_GROUP_ID) s.(waits) tcsets s.(kills) (s.(trace) ++ [TcSetPgrp group]))
  end.
Definition set_foreground_process_group (processGroupID : Z) (s : shell) : res (Z * shell) :=
  let foreground s := Shell s.(procs) processGroupID s.(waits) s.(tcsets) s.(kills) s.(trace) in
  if own_group =? s.(FOREGROUND_PROCESS_GROUP_ID) then
    '(ok, s) ← tcsetpgrp processGroupID s;
    if negb (ok : bool) then Ret (-1, s) else Ret (0, foreground s)
  else
    '(ok, s) ← tcsetpgrp processGroupID (log s [IgnoreTTOU]);
    if negb (ok : bool) then Ret (-1, s) else Ret (0, foreground (log s [RestoreTTOU])).
(** [kill (..., SIGCONT)]. *)
Definition send_continue (e : job_event) (s : shell) : res (Z * shell) :=
  match s.(kills) with
  | [] => Stuck
  | ok :: kills =>
    Ret (if (ok : bool) then 0 else -1, Shell s.(procs) s.(FOREGROUND_PROCESS_GROUP_ID) s.(waits) s.(tcsets) kills (s.(trace) ++ [e]))
  end.
Definition start_process_group (processGroupID : Z) (s : shell) : res (Z * shell) := send_continue (ContinueGroup processGroupID) s.
Definition start_process (processID : Z) (s : shell) : res (Z * shell) :=
  if processID <? 1 then Ret (-1, s) else send_continue (ContinueProcess processID) s.
Definition wait_till_pause_or_exit (processID : Z) (s : shell) : res (Z * shell) :=
  if processID =? -1 then Ret (0, s)
  else
    match s.(waits) with
    | [] => Stuck
    | answer :: waits =>
      Ret (default (-1) answer,
           Shell s.(procs) s.(FOREGROUND_PROCESS_GROUP_ID) waits s.(tcsets) s.(kills) (s.(trace) ++ [WaitFor processID]))
    end.

(** [reap_exited_processes]: an answer that brings no status leaves the last one. *)
Fixpoint reap_loop (fuel : nat) (l : process_list) (processNode processStatus : Z) : res process_list :=
  match fuel with
  | O => Stuck
  | S fuel =>
    if processNode =? NULL then Ret l
    else
      nextNode ← get_next_process l processNode;
      n ← read_node l.(list_nodes) processNode;
      let '(answered, processStatus) :=
        match nohang n.(processID) with
        | Changed status => (true, status)
        | NotYet => (false, processStatus)
        | WaitError => (true, processStatus)
        end in
      l ← (if answered && WIFEXITED processStatus then remove_process_node l processNode else Ret l);
      reap_loop fuel l nextNode processStatus
  end.
Definition reap_exited_processes (l : process_list) : res process_list :=
  processNode ← get_latest_process l;
  reap_loop (turns l.(list_nodes)) l processNode 0.

(** The loops of [manage_shell_subprocesses]: each runs over the ids up to -1, and says whether it
    came to the end. *)
Fixpoint wait_stopped (ids : list (option Z)) (s : shell) : res (bool * shell) :=
  match ids with
  | Some p :: ids =>
    if p =? -1 then Ret (true, s)
    else '(status, s) ← wait_till_pause_or_exit p s; if status =? -1 then Ret (false, s) else wait_stopped ids s
  | _ => Panic
  end.
Fixpoint add_all (ids : list (option Z)) (s : shell) : res (bool * shell) :=
  match ids with
  | Some p :: ids =>
    if p =? -1 then Ret (true, s)
    else '(l, r) ← add_process place s.(procs) p; if r =? -1 then Ret (false, with_procs s l) else add_all ids (with_procs s l)
  | _ => Panic
  end.
Fixpoint wait_finished (ids : list (option Z)) (s : shell) : res (bool * shell) :=
  match ids with
  | Some p :: ids =>
    if p =? -1 then Ret (true, s)
    else
      '(status, s) ← wait_till_pause_or_exit p s;
      if status =? -1 then Ret (false, s)
      else
        l ← (if WIFEXITED status then remove_process s.(procs) p else Ret s.(procs));
        wait_finished ids (with_procs s l)
  | _ => Panic
  end.
Definition manage_shell_subprocesses (subprocessIDs : option (list (option Z))) (backgroundExecution : bool) (s : shell)
    : res (Z * shell) :=
  match subprocessIDs with
  | None => Ret (-1, s)
  | Some ids =>
    l ← reap_exited_processes s.(procs);
    '(ok, s) ← wait_stopped ids (with_procs s l);
    if negb (ok : bool) then Ret (-1, s) else
    '(ok, s) ← add_all ids s;
    if negb (ok : bool) then Ret (-1, s) else
    '(subprocessGroupID, s) ← group_processes ids s;
    '(result, s) ← (if backgroundExecution then Ret (0, s) else set_foreground_process_group subprocessGroupID s);
    if result =? -1 then Ret (-1, s) else
    '(result, s) ← start_process_group subprocessGroupID s;
    if result =? -1 then Ret (-1, s) else
    if backgroundExecution then Ret (0, s) else
    '(ok, s) ← wait_finished ids s;
    if negb (ok : bool) then Ret (-1, s) else
    '(result, s) ← set_foreground_process_group own_group s;
    Ret (if result =? -1 then -1 else 0, s)
  end.

(** ** shell_command.c *)
(** Waits for one process until it has exited or the waiting fails. *)
Fixpoint wait_exit (fuel : nat) (pid : Z) (s : shell) : res shell :=
  match fuel with
  | O => Stuck
  | S fuel =>
    '(status, s) ← wait_till_pause_or_exit pid s;
    if (status =? -1) || WIFEXITED status then Ret s else wait_exit fuel pid s
  end.
Fixpoint wait_loop (fuel : nat) (processNode : Z) (s : shell) : res shell :=
  match fuel with
  | O => Stuck
  | S fuel =>
    if processNode =? NULL then Ret s
    else
      n ← read_node s.(procs).(list_nodes) processNode;
      s ← wait_exit (S (length s.(waits))) n.(processID) s;
      let exitedNode := processNode in
      processNode ← get_next_process s.(procs) processNode;
      l ← remove_process_node s.(procs) exitedNode;
      wait_loop fuel processNode (with_procs s l)
  end.
Definition cmd_wait (s : shell) : res (Z * shell) :=
  processNode ← get_latest_process s.(procs);
  s ← wait_loop (turns s.(procs).(list_nodes)) processNode s;
  Ret (0, s).

(** The process a command is about: the one named, or the latest.  [inl] is the value the command
    returns without one. *)
Definition chosen_process (tokens : tokens_t) (s : shell) : res (Z + Z) :=
  if (1 <? tokens_get_length tokens)%nat then
    let processID := is_integer (tokens_get_token tokens 1) in
    Ret (if processID =? -1 then inl (-1) else inr processID)
  else
    processNode ← get_latest_process s.(procs);
    if processNode =? NULL then Ret (inl 0)
    else n ← read_node s.(procs).(list_nodes) processNode; Ret (inr n.(processID)).
Definition cmd_fg (tokens : tokens_t) (s : shell) : res (Z * shell) :=
  match tokens with
  | None => Ret (-1, s)
  | Some _ =>
    c ← chosen_process tokens s;
    match c with
    | inl r => Ret (r, s)
    | inr processID =>
      if get_process_group processID =? -1 then Ret (-1, s)
      else
        '(result, s) ← set_foreground_process_group processID s;
        if result =? -1 then Ret (-1, s)
        else
          '(_, s) ← start_process processID s;
          '(result, s) ← wait_till_pause_or_exit processID s;
          if result =? -1 then Ret (-1, s)
          else
            l ← (if WIFEXITED result then remove_process s.(procs) processID else Ret s.(procs));
            '(result, s) ← set_foreground_process_group own_group (with_procs s l);
            Ret (if result =? -1 then -1 else 0, s)
    end
  end.
Definition cmd_bg (tokens : tokens_t) (s : shell) : res (Z * shell) :=
  match tokens with
  | None => Ret (-1, s)
  | Some _ =>
    c ← chosen_process tokens s;
    match c with inl r => Ret (r, s) | inr processID => start_process processID s end
  end.
(** [None] means that the shell exits. *)
Definition cmd_exit (s : shell) : res (option Z * shell) :=
  l ← destroy_process_list s.(procs); Ret (None, with_procs s l).
End Management.

(** The table of built-in commands. *)
Inductive command := CmdHelp | CmdExit | CmdPwd | CmdCd | CmdWait | CmdFg | CmdBg.
Definition shellCommands : list (command * String.string * String.string) :=
  [(CmdHelp, "?", "show this help menu"); (CmdExit, "exit", "exit the command shell");
   (CmdPwd, "pwd", "print the current working directory path"); (CmdCd, "cd", "change the current working directory");
   (CmdWait, "wait", "wait for all the background processes to exit"); (CmdFg, "fg", "move a subprocess to the foreground");
   (CmdBg, "bg", "move a subprocess to the background")]%string.
Fixpoint command_loop (table : list (command * String.string * String.string)) (cmd : list Z) : option command :=
  match table with
  | [] => None
  | (fun_, name, _) :: table => if text_is cmd name then Some fun_ else command_loop table cmd
  end.
Definition shell_command_lookup (cmd : ptr) : option command :=
  match cmd with None => None | Some cmd => command_loop shellCommands cmd end.
Definition cmd_help (s : shell) : shell :=
  log s ((λ e : command * String.string * String.string, Printed (chars e.1.2 ++ chars " - " ++ chars e.2 ++ [10])) <$> shellCommands).

(** ** shell.c *)
(** What the shell is given: descriptors, [pipe], [fork], [open], the files, PATH, malloc, the
    working directory, and what processes answer. *)
Record surroundings := Surroundings {
  free_fd : fds → Z; pipes : nat → bool; forks : nat → option Z; opens : list Z → bool;
  file : list Z → option (bool * bool); PATH : ptr; granted : nat → bool; place : nodes → Z;
  nohang : Z → wait_answer; getpgid : Z → Z; own_group : Z;
  getcwd : ptr; chdir : ptr → bool;
}.
(** The writes to the terminal succeed. *)
Definition cmd_pwd (e : surroundings) (s : shell) : Z * shell :=
  match e.(getcwd) with None => (-1, s) | Some d => (0, log s [Printed (d ++ [10])]) end.
Definition cmd_cd (e : surroundings) (tokens : tokens_t) : Z :=
  match tokens with None => -1 | Some _ => if e.(chdir) (tokens_get_token tokens 1) then 0 else -1 end.
(** The status a command line returns ([None] when the shell exits), the shell after it, and the
    programs that were started. *)
Definition run_command (e : surroundings) (c : command) (tokens : tokens_t) (s : shell) : res (option Z * shell) :=
  match c with
  | CmdHelp => Ret (Some 0, cmd_help s)
  | CmdExit => cmd_exit s
  | CmdPwd => let '(r, s) := cmd_pwd e s in Ret (Some r, s)
  | CmdCd => Ret (Some (cmd_cd e tokens), s)
  | CmdWait => '(r, s) ← cmd_wait s; Ret (Some r, s)
  | CmdFg => '(r, s) ← cmd_fg e.(getpgid) e.(own_group) tokens s; Ret (Some r, s)
  | CmdBg => '(r, s) ← cmd_bg tokens s; Ret (Some r, s)
  end.
(** The end of [execute_commandline]. *)
Definition run_job (e : surroundings) (ids : option (list (option Z))) (background : bool) (children : list (option process_image)) (s : shell)
    : res (option Z * shell * list (option process_image)) :=
  match ids with
  | None => Ret (Some (-1), s, children)
  | Some ids =>
    '(status, s) ← manage_shell_subprocesses e.(place) e.(nohang) e.(own_group) (Some ids) background s;
    Ret (Some status, s, children)
  end.
Definition execute_commandline (e : surroundings) (tokens : tokens_t) (t : fds) (s : shell)
    : res (option Z * shell * list (option process_image)) :=
  match tokens with
  | None => Ret (Some (-1), s, [])
  | Some _ =>
    if is_tokens_empty tokens then Ret (Some 0, s, [])
    else if negb (contains_redirection tokens =? 0) then
      '(result, programName, argList, fileName, background) ← parse_redirection_tokens e.(granted) tokens;
      if negb (result =? 0) then Ret (Some (-1), s, [])
      else
        '(ids, c) ← execute_redirected_program e.(free_fd) e.(forks) e.(opens) e.(file) e.(PATH) e.(granted)
                      programName argList (contains_redirection tokens) fileName t;
        run_job e ids background [c] s
    else if contains_piping tokens then
      '(result, programNames, argLists, background) ← parse_piping_tokens e.(granted) tokens;
      if negb (result =? 0) then Ret (Some (-1), s, [])
      else
        '(ids, _, cs) ← execute_piped_program e.(free_fd) e.(pipes) e.(forks) e.(file) e.(PATH) e.(granted) programNames argLists t;
        run_job e ids background cs s
    else
      match shell_command_lookup (tokens_get_token tokens 0) with
      | Some c => '(r, s) ← run_command e c tokens s; Ret (r, s, [])
      | None =>
        '(result, programName, argList, background) ← parse_tokens e.(granted) tokens;
        if negb (result =? 0) then Ret (Some (-1), s, [])
        else
          '(ids, c) ← execute_program e.(forks) e.(file) e.(PATH) e.(granted) programName argList t;
          run_job e ids background [c] s
      end
  end.

(** One turn of the main loop: [input] is what there is to read.  Only the buffer's own null
    characters end the line. *)
Definition COMMAND_LINE_LENGTH : nat := Z.to_nat 4096.
Fixpoint before_null (s : list Z) : list Z := match s with [] => [] | c :: s => if c =? 0 then [] else c :: before_null s end.
Definition shell_turn (e : surroundings) (input : list Z) (t : fds) (s : shell) : res (option Z * shell * list (option process_image)) :=
  let line := before_null (take COMMAND_LINE_LENGTH input) in
  if (length line =? COMMAND_LINE_LENGTH)%nat then Panic
  else tokens ← tokenize line; execute_commandline e (Some tokens) t s.

(** ** Reaping *)
(** The processes that are left. *)
Fixpoint unreaped (nohang : Z → wait_answer) (ps : list Z) (status : Z) : list Z :=
  match ps with
  | [] => []
  | p :: ps =>
    let '(answered, status) :=
      match nohang p with Changed st => (true, st) | NotYet => (false, status) | WaitError => (true, status) end in
    if answered && WIFEXITED status then unreaped nohang ps status else p :: unreaped nohang ps status
  end.
Lemma reap_loop_ok nohang ps : ∀ u v status fuel, v.*2 = ps ++ [-1] → -1 ∉ ps → NoDup (u ++ v).*1 → NULL ∉ (u ++ v).*1 →
  (length ps < fuel)%nat →
  ∃ xs, reap_loop nohang fuel (ProcessList (node_chain NULL (u ++ v)) (first_of (u ++ v))) (walk_at v) status
        = Ret (ProcessList (node_chain NULL xs) (first_of xs))
    ∧ xs.*2 = u.*2 ++ unreaped nohang ps status ++ [-1] ∧ NoDup xs.*1 ∧ NULL ∉ xs.*1.
Proof.
  induction ps as [|p ps IH]; intros u v status fuel Hv Hp Hn H0 Hf; (destruct fuel as [|fuel]; [cbn in Hf; lia|]); cbn [reap_loop].
  { destruct v as [|[a q] [|]]; try done. cbn in Hv. injection Hv as ->. cbn [walk_at Z.eqb Pos.eqb]. change (NULL =? NULL) with true. cbv iota.
    exists (u ++ [(a, -1)]). rewrite fmap_app. by split_and!. }
  destruct v as [|[a q] v]; [done|]. cbn in Hv. injection Hv as -> Hv. apply not_elem_of_cons in Hp as [Hp1 Hp].
  destruct v as [|[b r] v]; [by destruct ps|]. cbn [walk_at]. rewrite (proj2 (Z.eqb_neq p (-1))) by done.
  rewrite nonnull by (intros ->; apply H0; rewrite fmap_app; set_solver).
  rewrite (get_next_process_ok (ProcessList _ _) u a p ((b, r) :: v) Hn H0 eq_refl). cbn [mbind res_bind list_nodes].
  rewrite (chain_read _ u a p ((b, r) :: v) Hn eq_refl). cbn [mbind res_bind processID unreaped].
  destruct (match nohang p with Changed _ => _ | NotYet => _ | WaitError => _ end) as [ans st].
  destruct (ans && WIFEXITED st) eqn:E; cbn [mbind res_bind].
  - rewrite remove_node_ok by done. cbn [mbind res_bind]. destruct (chain_drop _ _ _ Hn H0). apply IH; [done|done|done|done|cbn in Hf; lia].
  - destruct (IH (u ++ [(a, p)]) ((b, r) :: v) st fuel) as (xs & Ex & Hx & ?); [done|done|by rewrite <- app_assoc|by rewrite <- app_assoc|cbn in Hf; lia|].
    rewrite <- !app_assoc in Ex. cbn [app] in Ex. exists xs. split_and!; [exact Ex| |tauto|tauto].
    rewrite Hx, fmap_app, <- app_assoc. done.
Qed.
Lemma unreaped_subset nohang ps : ∀ status p, p ∈ unreaped nohang ps status → p ∈ ps.
Proof.
  induction ps as [|q ps IH]; intros status p; cbn [unreaped]; [done|]. destruct (match nohang q with Changed _ => _ | NotYet => _ | WaitError => _ end) as [ans st].
  destruct (ans && WIFEXITED st); intros H; [right; by eapply IH|]. apply elem_of_cons in H as [->|H]; [left|right; by eapply IH].
Qed.
(** Reaping takes the processes that have exited off the list and leaves the others in their order. *)
Lemma reap_ok nohang l ps : lists l ps →
  ∃ l', reap_exited_processes nohang l = Ret l' ∧ lists l' (unreaped nohang ps 0).
Proof.
  intros H. unfold reap_exited_processes. destruct (lists_cases l ps H) as [[-> ->]|(xs & -> & Hn & H0 & Hx & Hr & Hf)].
  { eexists. by split. }
  rewrite get_latest_process_ok by done. cbn [mbind res_bind list_nodes].
  destruct (reap_loop_ok nohang ps [] xs 0 (turns (node_chain NULL xs)) Hx Hr Hn H0) as (ys & E & Hy & Hn' & H0').
  { unfold turns. rewrite chain_size by done. assert (Hl : length xs.*2 = length (ps ++ [-1])) by (by rewrite Hx).
    rewrite length_fmap, length_app in Hl. cbn in Hl. lia. }
  cbn [app] in E. rewrite E. eexists. split; [done|]. apply lists_intro; [done|done|by rewrite Hy|].
  intros Hin. by apply unreaped_subset in Hin.
Qed.

(** ** Jobs *)
(** An array of process ids with its terminator. *)
Definition id_array (ps : list Z) : list (option Z) := (Some <$> ps) ++ [Some (-1)].
(** The list when the processes of a job have answered with these statuses. *)
Fixpoint settled (ps sts : list Z) (l : list Z) : list Z :=
  match ps, sts with
  | p :: ps, st :: sts => settled ps sts (if WIFEXITED st then without p l else l)
  | _, _ => l
  end.
Definition after_waits (s : shell) (W : list (option Z)) (ps : list Z) : shell :=
  Shell s.(procs) s.(FOREGROUND_PROCESS_GROUP_ID) W s.(tcsets) s.(kills) (s.(trace) ++ (WaitFor <$> ps)).

Lemma id_array_cons p ps : id_array (p :: ps) = Some p :: id_array ps.
Proof. done. Qed.
Lemma wait_stopped_ok ps : ∀ sts W s, -1 ∉ ps → length sts = length ps → -1 ∉ sts → s.(waits) = (Some <$> sts) ++ W →
  wait_stopped (id_array ps) s = Ret (true, after_waits s W ps).
Proof.
  induction ps as [|p ps IH]; intros sts W s Hp Hl Hs Hw; destruct sts as [|st sts]; try done.
  { destruct s. cbn in *. subst. unfold after_waits. cbn. by rewrite app_nil_r. }
  apply not_elem_of_cons in Hp as [Hp1 Hp], Hs as [Hs1 Hs]. rewrite id_array_cons. cbn [wait_stopped].
  unfold wait_till_pause_or_exit. rewrite (proj2 (Z.eqb_neq p (-1))) by done. rewrite Hw. cbn [fmap list_fmap app mbind res_bind default].
  unfold default, id. rewrite (proj2 (Z.eqb_neq st (-1))) by done. rewrite (IH sts W) by (done || cbn in Hl; lia).
  unfold after_waits. cbn. by rewrite <- app_assoc.
Qed.
Lemma group_loop_ok ps g : ∀ s, -1 ∉ ps →
  group_loop (id_array ps) g s = Ret (log s ((λ p, SetPgid p g) <$> ps)).
Proof.
  induction ps as [|p ps IH]; intros s Hp; [destruct s; unfold log; cbn; by rewrite app_nil_r|].
  apply not_elem_of_cons in Hp as [Hp1 Hp]. rewrite id_array_cons. cbn [group_loop]. rewrite (proj2 (Z.eqb_neq p (-1))) by done.
  rewrite IH by done. unfold log. cbn. by rewrite <- app_assoc.
Qed.
Lemma add_all_ok place ps : (∀ h : nodes, place h ≠ NULL ∧ h !! place h = None) → ∀ s old, -1 ∉ ps → lists s.(procs) old →
  ∃ l, add_all place (id_array ps) s = Ret (true, with_procs s l) ∧ lists l (reverse ps ++ old).
Proof.
  intros Hplace. induction ps as [|p ps IH]; intros s old Hp Hl.
  { exists s.(procs). destruct s. by split. }
  apply not_elem_of_cons in Hp as [Hp1 Hp]. rewrite id_array_cons. cbn [add_all]. rewrite (proj2 (Z.eqb_neq p (-1))) by done.
  destruct (add_process_ok place ltac:(intros h; right; apply Hplace) (procs s) old p Hl ltac:(done)) as (l1 & r & -> & Hr).
  cbn [mbind res_bind]. destruct Hr as [[-> Hl1]|(_ & _ & h & Hz)]; [|by destruct (Hplace h)]. cbn [Z.eqb].
  destruct (IH (with_procs s l1) (p :: old) Hp Hl1) as (l & -> & Hl'). exists l. split; [done|].
  rewrite reverse_cons, <- app_assoc. exact Hl'.
Qed.
Lemma wait_finished_ok ps : ∀ sts W s old, -1 ∉ ps → length sts = length ps → -1 ∉ sts → s.(waits) = (Some <$> sts) ++ W →
  lists s.(procs) old →
  ∃ l, wait_finished (id_array ps) s = Ret (true, with_procs (after_waits s W ps) l) ∧ lists l (settled ps sts old).
Proof.
  induction ps as [|p ps IH]; intros sts W s old Hp Hl Hs Hw Ho; destruct sts as [|st sts]; try done.
  { exists (procs s). destruct s. cbn in *. subst. unfold after_waits, with_procs. cbn. by rewrite app_nil_r. }
  apply not_elem_of_cons in Hp as [Hp1 Hp], Hs as [Hs1 Hs]. rewrite id_array_cons. cbn [wait_finished].
  unfold wait_till_pause_or_exit. rewrite (proj2 (Z.eqb_neq p (-1))) by done. rewrite Hw. cbn [fmap list_fmap app mbind res_bind default].
  unfold default, id. rewrite (proj2 (Z.eqb_neq st (-1))) by done. cbn [procs].
  assert (Hrm : ∃ l, (if WIFEXITED st then remove_process (procs s) p else Ret (procs s)) = Ret l
    ∧ lists l (if WIFEXITED st then without p old else old)).
  { destruct (WIFEXITED st); [|by eexists]. by apply remove_process_ok. }
  destruct Hrm as (l1 & -> & Hl1). cbn [mbind res_bind].
  destruct (IH sts W (with_procs (Shell (procs s) (FOREGROUND_PROCESS_GROUP_ID s) ((Some <$> sts) ++ W) (tcsets s) (kills s)
    (trace s ++ [WaitFor p])) l1) _ Hp ltac:(cbn in Hl; lia) Hs eq_refl Hl1) as (l & E & Hl').
  cbn [fmap list_fmap] in E. rewrite E. exists l. split; [|exact Hl']. unfold after_waits, with_procs. cbn. by rewrite <- app_assoc.
Qed.
(** What [set_foreground_process_group] does to the terminal. *)
Definition handover (own fg group : Z) : list job_event :=
  if own =? fg then [TcSetPgrp group] else [IgnoreTTOU; TcSetPgrp group; RestoreTTOU].
Lemma set_foreground_ok own group s T : s.(tcsets) = true :: T →
  set_foreground_process_group own group s
  = Ret (0, Shell s.(procs) group s.(waits) T s.(kills) (s.(trace) ++ handover own s.(FOREGROUND_PROCESS_GROUP_ID) group)).
Proof.
  intros Ht. unfold set_foreground_process_group, handover, tcsetpgrp. destruct (own =? _).
  - rewrite Ht. done.
  - cbn [log tcsets]. rewrite Ht. cbn [mbind res_bind negb]. unfold log. cbn. by rewrite <- !app_assoc.
Qed.

Section Jobs.
Context (place : nodes → Z) (nohang : Z → wait_answer) (own : Z).
Hypothesis place_ok : ∀ h : nodes, place h ≠ NULL ∧ h !! place h = None.

(** The shell before a job's processes are put on the list: old ones are reaped, the new ones have
    stopped. *)
Lemma job_prepared s old ps sts W g : ps = g :: tail ps → lists s.(procs) old → -1 ∉ ps → length sts = length ps → -1 ∉ sts →
  s.(waits) = (Some <$> sts) ++ W →
  ∃ l l1, reap_exited_processes nohang s.(procs) = Ret l
    ∧ wait_stopped (id_array ps) (with_procs s l) = Ret (true, after_waits (with_procs s l) W ps)
    ∧ add_all place (id_array ps) (after_waits (with_procs s l) W ps) = Ret (true, with_procs (after_waits s W ps) l1)
    ∧ group_processes (id_array ps) (with_procs (after_waits s W ps) l1)
      = Ret (g, log (with_procs (after_waits s W ps) l1) ((λ p, SetPgid p g) <$> ps))
    ∧ lists l1 (reverse ps ++ unreaped nohang old 0).
Proof using place_ok.
  intros Hg Hold Hp Hl Hs Hw. destruct (reap_ok nohang (procs s) old Hold) as (l & El & Hll).
  pose proof (wait_stopped_ok ps sts W (with_procs s l) Hp Hl Hs Hw) as Ew.
  destruct (add_all_ok place ps place_ok (after_waits (with_procs s l) W ps) _ Hp Hll) as (l1 & Ea & Hl1).
  exists l, l1. split_and!; [done|done|exact Ea| |done].
  destruct ps as [|p ps]; [done|]. injection Hg as ->. rewrite id_array_cons. unfold group_processes.
  assert (g ≠ -1) by set_solver. rewrite (proj2 (Z.eqb_neq g (-1))) by done. rewrite <- id_array_cons.
  rewrite group_loop_ok by done. done.
Qed.

Lemma foreground_job_ok s old ps sts sts' W g T K :
  ps = g :: tail ps → lists s.(procs) old → -1 ∉ ps → length sts = length ps → -1 ∉ sts → length sts' = length ps → -1 ∉ sts' →
  s.(waits) = (Some <$> sts) ++ (Some <$> sts') ++ W → s.(tcsets) = true :: true :: T → s.(kills) = true :: K →
  ∃ s', manage_shell_subprocesses place nohang own (Some (id_array ps)) false s = Ret (0, s')
    ∧ lists s'.(procs) (settled ps sts' (reverse ps ++ unreaped nohang old 0)) ∧ s'.(FOREGROUND_PROCESS_GROUP_ID) = own
    ∧ s'.(trace) = s.(trace) ++ (WaitFor <$> ps) ++ ((λ p, SetPgid p g) <$> ps) ++ handover own s.(FOREGROUND_PROCESS_GROUP_ID) g
                   ++ [ContinueGroup g] ++ (WaitFor <$> ps) ++ handover own g own.
Proof using place_ok.
  intros Hg Hold Hp Hl Hs Hl' Hs' Hw Ht Hk.
  destruct (job_prepared s old ps sts ((Some <$> sts') ++ W) g Hg Hold Hp Hl Hs Hw) as (l & l1 & El & Ew & Ea & Eg & Hl1).
  unfold manage_shell_subprocesses. rewrite El. cbn [mbind res_bind]. rewrite Ew. cbn [mbind res_bind negb]. rewrite Ea.
  cbn [mbind res_bind negb]. rewrite Eg. cbn [mbind res_bind].
  rewrite (set_foreground_ok own g _ (true :: T)) by exact Ht. cbn [mbind res_bind Z.eqb Pos.eqb]. unfold start_process_group, send_continue.
  cbn [kills log with_procs after_waits]. rewrite Hk. cbn [mbind res_bind Z.eqb Pos.eqb].
  match goal with |- context [wait_finished _ ?s2] => set (s2' := s2) end.
  destruct (wait_finished_ok ps sts' W s2' _ Hp Hl' Hs' eq_refl Hl1) as (l2 & E2 & Hl2). rewrite E2. cbn [mbind res_bind negb].
  rewrite (set_foreground_ok own own _ T) by reflexivity. cbn [mbind res_bind]. eexists. split; [done|]. split; [exact Hl2|].
  split; [done|]. cbn. by rewrite <- !app_assoc.
Qed.
(** A foreground job: the shell waits until every process of the job has stopped itself, puts
    them into one group, hands the terminal to the group before it lets it go on, waits for each to
    stop or exit, and takes the terminal back; its list then has the processes that have not exited,
    in front of the older ones that were not reaped. *)
Theorem foreground_job s old ps sts sts' W g T K :
  ps = g :: tail ps → lists s.(procs) old → -1 ∉ ps → length sts = length ps → -1 ∉ sts → length sts' = length ps → -1 ∉ sts' →
  s.(waits) = (Some <$> sts) ++ (Some <$> sts') ++ W → s.(tcsets) = true :: true :: T → s.(kills) = true :: K →
  ∃ s', manage_shell_subprocesses place nohang own (Some (id_array ps)) false s = Ret (0, s')
    ∧ lists s'.(procs) (settled ps sts' (reverse ps ++ unreaped nohang old 0)) ∧ s'.(FOREGROUND_PROCESS_GROUP_ID) = own
    ∧ s'.(trace) = s.(trace) ++ (WaitFor <$> ps) ++ ((λ p, SetPgid p g) <$> ps) ++ handover own s.(FOREGROUND_PROCESS_GROUP_ID) g
                   ++ [ContinueGroup g] ++ (WaitFor <$> ps) ++ handover own g own.
Proof using place_ok. apply foreground_job_ok. Qed.
(** A background job is started and left alone, and stays on the list. *)
Theorem background_job s old ps sts W g K :
  ps = g :: tail ps → lists s.(procs) old → -1 ∉ ps → length sts = length ps → -1 ∉ sts →
  s.(waits) = (Some <$> sts) ++ W → s.(kills) = true :: K →
  ∃ s', manage_shell_subprocesses place nohang own (Some (id_array ps)) true s = Ret (0, s')
    ∧ lists s'.(procs) (reverse ps ++ unreaped nohang old 0) ∧ s'.(FOREGROUND_PROCESS_GROUP_ID) = s.(FOREGROUND_PROCESS_GROUP_ID)
    ∧ s'.(trace) = s.(trace) ++ (WaitFor <$> ps) ++ ((λ p, SetPgid p g) <$> ps) ++ [ContinueGroup g].
Proof using place_ok.
  intros Hg Hold Hp Hl Hs Hw Hk. destruct (job_prepared s old ps sts W g Hg Hold Hp Hl Hs Hw) as (l & l1 & El & Ew & Ea & Eg & Hl1).
  unfold manage_shell_subprocesses. rewrite El. cbn [mbind res_bind]. rewrite Ew. cbn [mbind res_bind negb]. rewrite Ea.
  cbn [mbind res_bind negb]. rewrite Eg. cbn [mbind res_bind Z.eqb Pos.eqb]. unfold start_process_group, send_continue.
  cbn [kills log with_procs after_waits]. rewrite Hk. cbn [mbind res_bind Z.eqb Pos.eqb]. eexists. split; [done|]. split; [exact Hl1|].
  split; [done|]. cbn. by rewrite <- !app_assoc.
Qed.
End Jobs.
Lemma foreground_job_witness :
  ∃ s', manage_shell_subprocesses after_all (λ _, NotYet) 50 (Some (id_array [60; 61])) false
          (Shell (ProcessList ∅ NULL) (-1) [Some 127; Some 127; Some 0; Some 383] [true; true] [true] []) = Ret (0, s')
    ∧ lists s'.(procs) [61].
Proof.
  destruct (foreground_job after_all (λ _, NotYet) 50 after_all_ok
    (Shell (ProcessList ∅ NULL) (-1) [Some 127; Some 127; Some 0; Some 383] [true; true] [true] []) [] [60; 61] [127; 127] [0; 383] [] 60 [] [])
    as (s' & E & Hl & _); try reflexivity; try (apply (bool_decide_unpack _); vm_compute; exact I).
  - exists []. split_and!; [done|done|constructor|set_solver|by right|set_solver].
  - exists s'. split; [exact E|exact Hl].
Defined.

(** ** Whole command lines *)
Lemma no_redirection ts : Forall plain_word ts → contains_redirection (Some ts) = 0.
Proof. cbn [contains_redirection]. induction 1 as [|t ts Ht _ IH]; [done|]. cbn [redirection_loop]. by rewrite Ht. Qed.
Lemma no_piping ts : Forall (λ t, is_pipe_symbol (Some t) = false) ts → contains_piping (Some ts) = false.
Proof. cbn [contains_piping]. induction 1 as [|t ts Ht _ IH]; [done|]. cbn [existsb]. by rewrite Ht. Qed.
Lemma not_in_one (x : Z) : x ≠ -1 → -1 ∉ [x].
Proof. intros H Hin. by apply list_elem_of_singleton in Hin as <-. Qed.
Lemma not_empty ts : ts ≠ [] → is_tokens_empty (Some ts) = false.
Proof. by destruct ts. Qed.

(** A call of a program, from its tokens. *)
Lemma command_runs e args name ds path pid st st' W T K t s old :
  head args = Some name → Forall plain_word args → Forall (λ a, is_pipe_symbol (Some a) = false) args → last args ≠ Some (chars "&") →
  shell_command_lookup (Some name) = None → head name ≠ Some (chr "/") →
  (∀ i, e.(granted) i = true) → e.(forks) 0%nat = Some pid → pid ≠ -1 → (∀ h, e.(place) h ≠ NULL ∧ h !! e.(place) h = None) →
  e.(PATH) = Some (joined ds) → Forall directory_ok ds →
  head (filter (λ p, is_file_executable e.(file) p = 0) ((λ d, d ++ chr "/" :: name) <$> ds)) = Some path →
  lists s.(procs) old → s.(waits) = Some st :: Some st' :: W → st ≠ -1 → st' ≠ -1 → s.(tcsets) = true :: true :: T → s.(kills) = true :: K →
  ∃ s', execute_commandline e (Some args) t s = Ret (Some 0, s', [Some (Child path (argv args) t)])
    ∧ s'.(FOREGROUND_PROCESS_GROUP_ID) = e.(own_group)
    ∧ s'.(trace) = s.(trace) ++ [WaitFor pid; SetPgid pid pid] ++ handover e.(own_group) s.(FOREGROUND_PROCESS_GROUP_ID) pid
                   ++ [ContinueGroup pid; WaitFor pid] ++ handover e.(own_group) pid e.(own_group)
    ∧ lists s'.(procs) (settled [pid] [st'] (pid :: unreaped e.(nohang) old 0)).
Proof.
  intros Hh Hr Hpi Hl Hb Hn Hg Hf Hp Hpl HP Hd Hfirst Hold Hw Hs Hs' Ht Hk. assert (Hne : args ≠ []) by (by destruct args).
  unfold execute_commandline. rewrite not_empty, no_redirection, no_piping by done. cbn [Z.eqb negb].
  replace (tokens_get_token (Some args) 0) with (Some name) by (by destruct args). rewrite Hb.
  pose proof (program_parsed (granted e) args false (Hg 0%nat) Hne (λ _, Hl)) as Epa. rewrite app_nil_r in Epa. rewrite Epa, Hh.
  cbn [mbind res_bind Z.eqb negb]. unfold execute_program. rewrite HP.
  rewrite path_resolved by (done || (intros ->; done)). rewrite Hfirst. cbn [mbind res_bind]. unfold start_child. rewrite Hg, Hf.
  cbn [negb store_at length Nat.ltb Nat.leb mbind res_bind insert list_insert fmap option_fmap option_map]. unfold run_job.
  destruct (foreground_job_ok e.(place) e.(nohang) e.(own_group) Hpl s old [pid] [st] [st'] W pid T K) as (s' & E & Hls & Hfg & Htr);
    [done|done|by apply not_in_one|done|by apply not_in_one|done|by apply not_in_one|done|done|done|].
  unfold id_array in E. cbn [fmap list_fmap app] in E. cbn [store_at length Nat.ltb Nat.leb mbind res_bind insert list_insert]. rewrite E.
  cbn [mbind res_bind]. exists s'. by split_and!.
Qed.
Lemma before_null_id l : Forall (λ c, c ≠ 0) l → before_null l = l.
Proof. induction 1 as [|c l Hc _ IH]; [done|]. cbn. rewrite (proj2 (Z.eqb_neq c 0)) by done. by rewrite IH. Qed.
Lemma command_line_nonzero ws : Forall (Forall (λ c, c ≠ 0)) ws → Forall (λ c, c ≠ 0) (command_line ws).
Proof.
  intros H. unfold command_line. induction H as [|w ws Hw _ IH]; cbn [map concat]; [done|].
  apply Forall_app. split; [|exact IH]. apply Forall_app. split; [|by repeat constructor].
  unfold escape. induction Hw as [|c w Hc _ IHw]; cbn [map concat]; [done|]. apply Forall_app. split; [|exact IHw].
  destruct (special c); by repeat constructor.
Qed.

(** C21: A line that calls a program runs it: when the user types the words of a call, quoted where they
    need it, the program found first in PATH gets exactly these words as its arguments and the shell's
    open files.  The trace of the system calls says that the shell waits until the child has stopped
    itself, gives it a group of its own, hands the terminal to this group, only then lets it go on,
    waits until it has stopped or exited, and takes the terminal back to its own group.  This is for
    a line of less than 4096 bytes with words of one to 4094, no operator of the shell among them and no
    "&" at the end; a name that is no command of the shell and does not start with a slash; a PATH
    that is set and has no empty entry; and when memory, the fork, the waits, the two changes of the terminal's group and the signal succeed. *)
Theorem line_runs e args name ds path pid st st' W T K t s old :
  Forall (Forall (λ c, c ≠ 0)) args → Forall (λ w, (0 < length w < 4095)%nat) args →
  (length (command_line args) < COMMAND_LINE_LENGTH)%nat →
  head args = Some name → Forall plain_word args → Forall (λ a, is_pipe_symbol (Some a) = false) args → last args ≠ Some (chars "&") →
  shell_command_lookup (Some name) = None → head name ≠ Some (chr "/") →
  (∀ i, e.(granted) i = true) → e.(forks) 0%nat = Some pid → pid ≠ -1 → (∀ h, e.(place) h ≠ NULL ∧ h !! e.(place) h = None) →
  e.(PATH) = Some (joined ds) → Forall directory_ok ds →
  head (filter (λ p, is_file_executable e.(file) p = 0) ((λ d, d ++ chr "/" :: name) <$> ds)) = Some path →
  lists s.(procs) old → s.(waits) = Some st :: Some st' :: W → st ≠ -1 → st' ≠ -1 → s.(tcsets) = true :: true :: T → s.(kills) = true :: K →
  ∃ s', shell_turn e (command_line args) t s = Ret (Some 0, s', [Some (Child path (argv args) t)])
    ∧ s'.(FOREGROUND_PROCESS_GROUP_ID) = e.(own_group)
    ∧ s'.(trace) = s.(trace) ++ [WaitFor pid; SetPgid pid pid] ++ handover e.(own_group) s.(FOREGROUND_PROCESS_GROUP_ID) pid
                   ++ [ContinueGroup pid; WaitFor pid] ++ handover e.(own_group) pid e.(own_group)
    ∧ lists s'.(procs) (settled [pid] [st'] (pid :: unreaped e.(nohang) old 0)).
Proof.
  intros Hz Hlen Hline Hh Hr Hpi Hl Hb Hn Hg Hf Hp Hpl HP Hd Hfirst Hold Hw Hs Hs' Ht Hk. unfold shell_turn.
  rewrite take_ge by lia. rewrite before_null_id by (by apply command_line_nonzero).
  destruct (Nat.eqb_spec (length (command_line args)) COMMAND_LINE_LENGTH); [lia|]. rewrite tokenize_roundtrip by done. cbn [mbind res_bind].
  by eapply command_runs.
Qed.
Definition demo_surroundings : surroundings :=
  Surroundings after_all (λ _, true) (λ _, Some 60) (λ _, true) demo_files (Some (chars "/bin:/usr/bin")) always_granted after_all
    (λ _, NotYet) id 50 None (λ _, true).
Definition demo_shell : shell := Shell (ProcessList ∅ NULL) (-1) [Some 127; Some 0] [true; true] [true] [].
Lemma line_runs_witness :
  ∃ s', shell_turn demo_surroundings (chars "ls -l ") demo_fds demo_shell
        = Ret (Some 0, s', [Some (Child (chars "/bin/ls") (argv (chars <$> ["ls"; "-l"]%string)) demo_fds)])
    ∧ s'.(trace) = [WaitFor 60; SetPgid 60 60; IgnoreTTOU; TcSetPgrp 60; RestoreTTOU; ContinueGroup 60; WaitFor 60;
                    IgnoreTTOU; TcSetPgrp 50; RestoreTTOU]
    ∧ lists s'.(procs) [].
Proof.
  destruct (line_runs demo_surroundings (chars <$> ["ls"; "-l"]%string) (chars "ls") (chars <$> ["/bin"; "/usr/bin"]%string) (chars "/bin/ls")
    60 127 0 [] [] [] demo_fds demo_shell []) as (s' & E & _ & Htr & Hl); try reflexivity; try discriminate.
  - by repeat constructor.
  - repeat (apply Forall_cons; split; [split; apply Nat.ltb_lt; reflexivity|]). constructor.
  - apply Nat.ltb_lt. reflexivity.
  - by repeat constructor.
  - by repeat constructor.
  - exact after_all_ok.
  - repeat constructor; try discriminate; apply (bool_decide_unpack _); vm_compute; exact I.
  - exists []. split_and!; [done|done|constructor|set_solver|by right|set_solver].
  - exists s'. split; [exact E|]. split; [exact Htr|exact Hl].
Defined.

(** ** Pipelines *)
Lemma resolve_all_length file PATH names : ∀ r, resolve_all file PATH names = Ret (Some r) → length r = length names.
Proof.
  induction names as [|n names IH]; intros r H; cbn [resolve_all] in H; [by injection H as <-|].
  apply bind_Ret_inv in H as ([p|] & _ & H); [|done]. apply bind_Ret_inv in H as ([r'|] & E & H); [|done].
  injection H as <-. cbn. f_equal. by apply IH.
Qed.
Lemma until_null_names progs : Forall program_ok progs → length (until_null ((name_of <$> progs) ++ [None])) = length progs.
Proof. induction 1 as [|p progs [Hp _] _ IH]; [done|]. destruct p as [|a p]; [done|]. cbn. by f_equal. Qed.
Lemma piping_found progs : (2 ≤ length progs)%nat → contains_piping (Some (pipeline progs)) = true.
Proof.
  destruct progs as [|p [|q progs]]; cbn [length]; try lia. intros _. cbn [contains_piping]. rewrite pipeline_cons. cbn [piped].
  rewrite existsb_app. cbn [existsb]. rewrite is_pipe. cbn [orb]. by rewrite orb_true_r.
Qed.
(** Waiting for processes whose ids no terminator ends runs off their array. *)
Lemma wait_stopped_open ps : ∀ sts W s, -1 ∉ ps → length sts = length ps → -1 ∉ sts → s.(waits) = (Some <$> sts) ++ W →
  wait_stopped ((Some <$> ps) ++ [None]) s = Panic.
Proof.
  induction ps as [|p ps IH]; intros sts W s Hp Hl Hs Hw; destruct sts as [|st sts]; try done.
  apply not_elem_of_cons in Hp as [Hp1 Hp], Hs as [Hs1 Hs]. cbn [fmap list_fmap app wait_stopped].
  unfold wait_till_pause_or_exit. rewrite (proj2 (Z.eqb_neq p (-1))) by done. rewrite Hw. cbn [fmap list_fmap app mbind res_bind default].
  unfold default, id. rewrite (proj2 (Z.eqb_neq st (-1))) by done. apply (IH sts W); [done|cbn in Hl; lia|done|done].
Qed.

(** C23: No foreground pipeline (one that does not end in "&") is run to its end, though every
    program is found and every pipe, fork, allocation and wait succeeds: its programs are started, but
    the array of their process ids is not terminated, and the shell reads the cell behind the last of
    them, which was never written. *)
Theorem pipeline_command_undefined e progs paths pid sts W t0 own0 own1 s old :
  Forall program_ok progs → (2 ≤ length progs)%nat → Forall plain_word (pipeline progs) → last (pipeline progs) ≠ Some (chars "&") →
  (∀ i, e.(granted) i = true) → (∀ t : fds, t !! e.(free_fd) t = None) → (∀ i, e.(pipes) i = true) →
  (∀ i, e.(forks) i = Some (pid i)) → (∀ i, pid i ≠ -1) → t0 !! 0 = Some own0 → t0 !! 1 = Some own1 →
  resolve_executable_full_paths e.(file) e.(PATH) ((name_of <$> progs) ++ [None]) = Ret (Some paths) →
  lists s.(procs) old → s.(waits) = (Some <$> sts) ++ W → length sts = length progs → -1 ∉ sts →
  execute_commandline e (Some (pipeline progs)) t0 s = Panic.
Proof.
  intros Hc H2 Hpl Hl Hg Hfree Hpi Hf Hpid H0 H1 Hr Hold Hw Hls Hs. assert (Hne : progs ≠ []) by (by destruct progs; [cbn in H2; lia|]).
  assert (Hlp : length paths = length progs).
  { unfold resolve_executable_full_paths in Hr. apply resolve_all_length in Hr. by rewrite Hr, until_null_names. }
  unfold execute_commandline. rewrite not_empty, no_redirection, piping_found by (done || by apply pipeline_nonempty). cbn [Z.eqb negb].
  pose proof (pipeline_parsed_ok e.(granted) progs false Hg Hc Hne (λ _, Hl)) as Ep. rewrite app_nil_r in Ep. rewrite Ep.
  cbn [mbind res_bind Z.eqb negb].
  destruct (execute_piped_ok e.(free_fd) e.(pipes) e.(forks) pid e.(file) e.(PATH) e.(granted) t0 own0 own1 ((name_of <$> progs) ++ [None])
    paths (argv <$> progs) [None]) as (cs & E & _); try done; [by destruct paths, progs|by rewrite length_fmap|].
  rewrite E. cbn [mbind res_bind]. unfold run_job, manage_shell_subprocesses.
  destruct (reap_ok e.(nohang) (procs s) old Hold) as (l & -> & _). cbn [mbind res_bind].
  change ((λ i, Some (pid i)) <$> seq 0 (length paths)) with ((Some ∘ pid) <$> seq 0 (length paths)). rewrite list_fmap_compose.
  rewrite (wait_stopped_open _ sts W); [done| |by rewrite length_fmap, length_seq, Hlp|done|done].
  intros Hin. apply list_elem_of_fmap in Hin as (i & E' & _). by apply (Hpid i).
Qed.
Lemma pipeline_undefined_witness :
  execute_commandline demo_surroundings (Some (chars <$> ["ls"; "|"; "wc"]%string)) demo_fds
    (Shell (ProcessList ∅ NULL) (-1) [Some 127; Some 127] [true; true] [true] []) = Panic.
Proof.
  apply (pipeline_command_undefined demo_surroundings [[chars "ls"]; [chars "wc"]] (chars <$> ["/bin/ls"; "/bin/wc"]%string) (λ _, 60) [127; 127] []
    demo_fds (Own 0) (Own 1) _ []); try reflexivity; try discriminate.
  - by repeat constructor.
  - by repeat constructor.
  - intros t. apply (after_all_ok t).
  - exists []. split_and!; [done|done|constructor|set_solver|by right|set_solver].
  - apply (bool_decide_unpack _). vm_compute. exact I.
Defined.

(** ** Waiting for everything *)
(** What the waits for one process bring: it stops any number of times, and then exits or cannot be
    waited for. *)
Definition ends (answers : list (option Z)) : Prop :=
  ∃ stops final, answers = (Some <$> stops) ++ [final] ∧ Forall (λ st, st ≠ -1 ∧ WIFEXITED st = false) stops
    ∧ (final = None ∨ ∃ st, final = Some st ∧ WIFEXITED st = true).

Lemma wait_exit_ok pid answers : ∀ s W fuel, pid ≠ -1 → ends answers → s.(waits) = answers ++ W → (length answers ≤ fuel)%nat →
  wait_exit fuel pid s = Ret (after_waits s W (replicate (length answers) pid)).
Proof.
  intros s W fuel Hp (stops & final & -> & Hst & Hfin). revert s fuel.
  induction Hst as [|st stops [Hst1 Hst2] _ IH]; intros s fuel Hw Hf; rewrite length_app in Hf; cbn in Hf;
    (destruct fuel as [|fuel]; [lia|]); cbn [wait_exit]; unfold wait_till_pause_or_exit;
    rewrite (proj2 (Z.eqb_neq pid (-1))), Hw by done; cbn [fmap list_fmap app mbind res_bind].
  - replace ((default (-1) final =? -1) || WIFEXITED (default (-1) final)) with true; [done|].
    destruct Hfin as [->|(st & -> & Hx)]; [done|]. cbn [default]. unfold default, id. by rewrite Hx, orb_true_r.
  - unfold default, id. rewrite (proj2 (Z.eqb_neq st (-1))), Hst2 by done. cbn [orb].
    rewrite IH; [|done|rewrite length_app; cbn in *; lia]. unfold after_waits. cbn. by rewrite <- app_assoc.
Qed.
Lemma wait_loop_ok ps : ∀ anss v s W fuel, v.*2 = ps ++ [-1] → -1 ∉ ps → NoDup v.*1 → NULL ∉ v.*1 → (length ps < fuel)%nat →
  s.(procs) = ProcessList (node_chain NULL v) (first_of v) → Forall ends anss → length anss = length ps → s.(waits) = concat anss ++ W →
  ∃ s', wait_loop fuel (walk_at v) s = Ret s' ∧ lists s'.(procs) [] ∧ s'.(waits) = W.
Proof.
  induction ps as [|p ps IH]; intros anss v s W fuel Hv Hp Hn H0 Hf Hs Ha Hl Hw; (destruct fuel as [|fuel]; [cbn in Hf; lia|]); cbn [wait_loop].
  { destruct v as [|[a q] [|]]; try done. cbn in Hv. injection Hv as ->. cbn [walk_at Z.eqb Pos.eqb]. change (NULL =? NULL) with true. cbv iota.
    destruct anss; [|done]. exists s. split_and!; [done| |done]. rewrite Hs. apply (lists_intro [(a, -1)] []); [done|done|done|set_solver]. }
  destruct v as [|[a q] v]; [done|]. cbn in Hv. injection Hv as -> Hv. apply not_elem_of_cons in Hp as [Hp1 Hp].
  destruct v as [|[b r] v]; [by destruct ps|]. destruct anss as [|ans anss]; [done|]. apply Forall_cons in Ha as [Ha Has].
  cbn [walk_at]. rewrite (proj2 (Z.eqb_neq p (-1))) by done. rewrite nonnull by set_solver. rewrite Hs. cbn [list_nodes].
  rewrite (chain_read _ [] a p ((b, r) :: v) Hn eq_refl). cbn [mbind res_bind processID].
  cbn [concat] in Hw. rewrite <- app_assoc in Hw.
  rewrite (wait_exit_ok p ans s (concat anss ++ W)); [|done|done|done|rewrite Hw, length_app; lia]. cbn [mbind res_bind procs after_waits].
  rewrite Hs, (get_next_process_ok (ProcessList _ _) [] a p ((b, r) :: v) Hn H0 eq_refl). cbn [mbind res_bind].
  pose proof (remove_node_ok [] a p b r v ltac:(done) Hn H0) as Er. cbn [app] in Er. rewrite Er. cbn [mbind res_bind].
  destruct (chain_drop [] _ _ Hn H0) as [Hn' H0']. apply (IH anss); [done|done|done|done|cbn in Hf; lia|done|done|cbn in Hl; lia|done].
Qed.
(** [wait] returns when every background process has ended, with an empty list. *)
Theorem cmd_wait_ok s ps anss W : lists s.(procs) ps → Forall ends anss → length anss = length ps → s.(waits) = concat anss ++ W →
  ∃ s', cmd_wait s = Ret (0, s') ∧ lists s'.(procs) [] ∧ s'.(waits) = W.
Proof.
  intros H Ha Hl Hw. unfold cmd_wait. destruct (lists_cases _ _ H) as [[Hs ->]|(xs & Hs & Hn & H0 & Hx & Hr & Hf)]; rewrite Hs.
  - destruct anss; [|done]. cbn. exists s. split_and!; [done| |done]. rewrite Hs in H. by rewrite Hs.
  - rewrite get_latest_process_ok by done. cbn [mbind res_bind list_nodes].
    destruct (wait_loop_ok ps anss xs s W (turns (node_chain NULL xs)) Hx Hr Hn H0) as (s' & E & Hl' & Hw'); try done.
    { unfold turns. rewrite chain_size by done. assert (Hlx : length xs.*2 = length (ps ++ [-1])) by (by rewrite Hx).
      rewrite length_fmap, length_app in Hlx. cbn in Hlx. lia. }
    rewrite E. exists s'. by split_and!.
Qed.
