(* ===== verification/ShellMain.v ===== *)
(** * The shell's start and its main loop (hw3/shell_signal.c, shell.c)

    The signal dispositions of a process are a map from signal numbers to what happens when the
    signal arrives.  Whether a call of [sigaction] succeeds is given for each signal. *)
From Stdlib Require Import (notations) Ascii String.
From S2P Require Import Prelude Stdio WordCount WordList CText Tokenizer ProcessList ShellParse ShellExec ShellJobs.

(** ** shell_signal.c *)
Definition SIGINT : Z := 2.
Definition SIGQUIT : Z := 3.
Definition SIGCHLD : Z := 17.
Definition SIGTSTP : Z := 20.
(** A handler of the shell's does nothing; it is entered or left with or without restarting the
    system call it interrupts. *)
Inductive disposition := SIG_DFL | Ignorer (restart : bool).
Abbreviation dispositions := (gmap Z disposition).
Definition IGNORED_SIGNALS : list Z := [SIGINT; SIGQUIT; SIGTSTP].

Section Signals.
Context (sigaction_ok : Z → bool).

(** The loop over a group of signals: the dispositions, and 0 or -1. *)
Fixpoint set_signals (signals : list Z) (action : disposition) (d : dispositions) : dispositions * Z :=
  match signals with
  | [] => (d, 0)
  | n :: signals => if sigaction_ok n then set_signals signals action (<[n := action]> d) else (d, -1)
  end.
Definition ignore_signals (d : dispositions) : dispositions * Z := set_signals IGNORED_SIGNALS (Ignorer false) d.
Definition reset_ignored_signals (d : dispositions) : dispositions * Z := set_signals IGNORED_SIGNALS SIG_DFL d.
Definition handle_sigchld (d : dispositions) : dispositions * Z :=
  if sigaction_ok SIGCHLD then (<[SIGCHLD := Ignorer true]> d, 0) else (d, -1).
Definition register_shell_signal_handlers (d : dispositions) : dispositions * Z :=
  let '(d, result) := ignore_signals d in
  if result =? -1 then (d, -1)
  else
    let '(d, result) := handle_sigchld d in
    if result =? -1 then (d, -1) else (d, 0).

(** ** [initialize_shell] *)
(** "Wait for its turn": each answer of [tcgetpgrp] says whether the shell's group is in the
    foreground; after one that says no the group stops itself until it is continued.  The number of
    times it stopped. *)
Fixpoint wait_foreground (answers : list bool) : res nat :=
  match answers with
  | [] => Stuck
  | true :: _ => Ret O
  | false :: answers => n ← wait_foreground answers; Ret (S n)
  end.
(** The result, the dispositions, the process list and how often the shell stopped. *)
Definition initialize_shell (place : nodes → Z) (isatty : bool) (answers : list bool) (d : dispositions) (l : process_list)
    : res (Z * dispositions * process_list * nat) :=
  stops ← (if isatty then wait_foreground answers else Ret O);
  let '(d, result) := register_shell_signal_handlers d in
  if result =? -1 then Ret (-1, d, l, stops)
  else
    let '(l, result) := initialize_process_list place l in
    Ret (if result =? -1 then -1 else 0, d, l, stops).
End Signals.

(** ** The main loop *)
(** One turn for each input, what is to be read next: whether a command made the shell exit, the
    shell, and the programs that were started. *)
Fixpoint shell_main (e : nat → surroundings) (i : nat) (inputs : list (list Z)) (t : fds) (s : shell) (children : list (option process_image))
    : res (bool * shell * list (option process_image)) :=
  match inputs with
  | [] => Ret (false, s, children)
  | input :: inputs =>
    '(status, s, cs) ← shell_turn (e i) input t s;
    match status with
    | None => Ret (true, s, children ++ cs)
    | Some _ => shell_main e (S i) inputs t s (children ++ cs)
    end
  end.

(** ** Theorems *)
Lemma set_signals_lookup ok signals action : (∀ n, ok n = true) → ∀ d n,
  (set_signals ok signals action d).2 = 0 ∧
  (set_signals ok signals action d).1 !! n = if bool_decide (n ∈ signals) then Some action else d !! n.
Proof.
  intros Hok. induction signals as [|m signals IH]; intros d n; cbn [set_signals]; [done|]. rewrite Hok.
  destruct (IH (<[m := action]> d) n) as [H1 H2]. split; [done|]. rewrite H2. destruct (decide (n ∈ signals)) as [Hi|Hi].
  - rewrite !bool_decide_eq_true_2; [done|by right|done].
  - rewrite (bool_decide_eq_false_2 (n ∈ signals)) by done. destruct (decide (n = m)) as [->|Hne].
    + rewrite bool_decide_eq_true_2 by left. by rewrite lookup_insert_eq.
    + rewrite bool_decide_eq_false_2 by (rewrite elem_of_cons; tauto). by rewrite lookup_insert_ne.
Qed.
(** The shell that has started survives the terminal's signals, does not stop waiting when a child ends,
    and has an empty process list; a program it starts has the default dispositions of the terminal's
    signals again. *)
Theorem initialize_shell_ok place ok isatty stops more d :
  (∀ n, ok n = true) → (∀ h : nodes, place h ≠ NULL ∧ h !! place h = None) →
  ∃ d' l, initialize_shell ok place isatty (replicate stops false ++ true :: more) d (ProcessList ∅ NULL)
          = Ret (0, d', l, if isatty then stops else O)
    ∧ lists l [] ∧ PROCESS_LIST_HEAD l ≠ NULL
    ∧ (∀ n, n ∈ IGNORED_SIGNALS → d' !! n = Some (Ignorer false) ∧ (reset_ignored_signals ok d').1 !! n = Some SIG_DFL)
    ∧ d' !! SIGCHLD = Some (Ignorer true).
Proof.
  intros Hok Hp. unfold initialize_shell.
  assert (Hw : wait_foreground (replicate stops false ++ true :: more) = Ret stops).
  { clear. induction stops as [|n IH]; [done|]. cbn. by rewrite IH. }
  rewrite Hw. assert (Hs : (if isatty then Ret stops else Ret O) = Ret (if isatty then stops else O)) by (by destruct isatty).
  rewrite Hs. cbn [mbind res_bind]. unfold register_shell_signal_handlers, ignore_signals, handle_sigchld. rewrite Hok.
  pose proof (set_signals_lookup ok IGNORED_SIGNALS (Ignorer false) Hok d) as H1.
  destruct (set_signals ok IGNORED_SIGNALS (Ignorer false) d) as [d1 r1]. cbn [fst snd] in H1.
  destruct (H1 0) as [-> _]. cbn [Z.eqb]. unfold initialize_process_list, create_process_node. cbn [PROCESS_LIST_HEAD list_nodes negb Z.eqb].
  destruct (Hp ∅) as [Hp0 _]. rewrite (nonnull _ Hp0). cbn [Z.eqb]. rewrite (nonnull _ Hp0). cbn [Z.eqb].
  eexists _, _. split; [done|]. split_and!.
  - apply (lists_intro [(place ∅, -1)] []); [repeat constructor; set_solver|set_solver|done|set_solver].
  - done.
  - intros n Hn. split.
    + rewrite lookup_insert_ne. 2: { intros <-. by apply (bool_decide_eq_true _) in Hn. }
      destruct (H1 n) as [_ ->]. by rewrite bool_decide_eq_true_2.
    + unfold reset_ignored_signals. destruct (set_signals_lookup ok IGNORED_SIGNALS SIG_DFL Hok (<[SIGCHLD := Ignorer true]> d1) n) as [_ ->].
      by rewrite bool_decide_eq_true_2.
  - by rewrite lookup_insert_eq.
Qed.

(** At the end of its input the shell goes round for ever: an empty read changes nothing. *)
Theorem shell_spins_at_end e t s : ∀ n i children,
  shell_main e i (replicate n []) t s children = Ret (false, s, children).
Proof.
  induction n as [|n IH]; intros i children; [done|].
  change (shell_main e (S i) (replicate n []) t s (children ++ []) = Ret (false, s, children)). rewrite app_nil_r. apply IH.
Qed.
